(* ===== verification/_CoqProject ===== *)
-Q . S2P
Prelude.v
SeqNum.v
ByteIo.v
Buffers.v
RtcpCore.v
RtcpReports.v
RtcpFeedback.v
RtcpNack.v
RtcpMisc.v
RtcpEstimate.v
RtcpXr.v
RtcpChunk.v
RtcpTransport.v
RtcpCompound.v
HttpParser.v
HttpReply.v
HttpHandler.v
HttpServer.v
RtpExtensionMap.v
RtpPacket.v
RtpPacketBuild.v
RtpPacketOps.v
RtpExtensions.v
RtpFormat.v
RtpVideo.v
RtpVp8.v
RtpH264.v
RtpH264Plan.v
RtpH264Receive.v
RtpUtil.v
FecTables.v
FecMasks.v
FecHeader.v
FlexfecHeader.v
FecXor.v
FecEncoder.v
FecDecoder.v
FecRecovery.v
FecEndToEnd.v
FecPeeling.v
ArrivalMap.v
FeedbackProxy.v
StringView.v
SipMessage.v
SipGrammar.v
SipTransactions.v
SipFields.v
SipGrouping.v
ChatMessage.v
ChatRoom.v
ChatRelay.v
ChatClient.v
