(* ===== verification/Prelude.v ===== *)
(** * webrtc_snippets: a verification library

    The repository collects studies of real-time communication: a copy of WebRTC's modules
    (src/webrtc_src/modules), a small signalling server (src/signal_server), a SIP laboratory
    (src/basic) and example programs.  This library models the parts with logic of their
    own, in C++: the codecs and packet objects of RTP and RTCP, video payloads, forward error
    correction, transport-wide feedback, the signalling server, the SIP parsers of the
    laboratory and the text chat (src/text_chat).

    ** How the parts fit together

    A media endpoint sends RTP and RTCP over one port.  RtpUtil.v tells the two apart.  An
    RTP packet is built in place in its buffer by RtpPacket (with the extension ids of a
    RtpHeaderExtensionMap) and parsed by the same class.  RTCP messages are objects with
    BlockLength, Create and Parse; CompoundPacket concatenates them and
    RTCPReceiver::ParseCompoundPacket walks a received datagram and dispatches on the common
    header.  A receiver with transport-wide feedback records the arrival of each RTP packet in
    PacketArrivalTimeMap, from which RemoteEstimatorProxy builds TransportFeedback messages.
    A video frame becomes the payloads of RTP packets in a packetizer (RtpPacketizer and its
    classes per codec) and is put together again behind a VideoRtpDepacketizer.
    Sequence numbers wrap, and everything is written in network byte order: SeqNum.v
    and ByteIo.v are used by all of them.  The signalling server is separate: connections
    feed a request parser, a handler maps the request to a file, a reply is written back.  So
    are the SIP laboratory, whose functions read SIP messages from text, and the text chat: a
    room relays framed messages between sessions.

    ** The files

    - Prelude.v: machine words as Z with their wrap-around, [check] for run-time assertions,
      masks and shifts, the tactics [dlia], [wordlia], [splits], [decide_wf].
    - SeqNum.v: modules/include/module_common_types_public.h (IsNewer, Unwrapper).
    - ByteIo.v: rtp_rtcp/source/byte_io.h, every specialisation.
    - Buffers.v: reads ([peek], [load], [read_be]) that fail outside the buffer, and the
      writer monad [W] (buffer, index, packets sent) of the Create functions.
    - RtcpCore.v: rtcp_packet.cc, common_header.cc, psfb.cc, rtpfb.cc; the class [RtcpCodec]
      with the laws [RtcpCodecLaws], the contract of a packet type: Create writes
      [codec_encode] of [codec_block_length] octets where there is room, Parse of it gives
      [codec_image], Parse is total on what a valid header announces.
    - RtcpReports.v, RtcpFeedback.v, RtcpNack.v, RtcpMisc.v, RtcpEstimate.v, RtcpXr.v,
      RtcpChunk.v and RtcpTransport.v: the classes of rtcp_packet/, one Module each with the
      class's name, its members as a Record, its methods by their names, and its instance of
      [RtcpCodecLaws].
    - RtcpCompound.v: compound_packet.cc, RtcpPacket::Build and the receiver's walk, proved
      against [RtcpCodecLaws] only.
    - RtpExtensionMap.v: rtp_header_extension_map.cc.
    - RtpPacket.v: rtp_packet.{h,cc}; the abstract packet [image], its wire format [encode],
      and the parser on it and on arbitrary octets.
    - RtpPacketBuild.v: every operation that builds a packet, as an operation on the image
      ([represents]), through the [CowBuffer] interface.
    - RtpPacketOps.v: the values of extensions, RemoveExtension, sequences of operations and
      the parser on their result.
    - RtpExtensions.v: rtp_header_extensions.{h,cc}: each extension class as an [extension]
      with the contract [extension_laws] that SetExtension and GetExtension rely on.
    - RtpUtil.v: rtp_util.cc, against both families of builders.
    - HttpParser.v: request_parser.cpp; HttpReply.v: reply.cpp and mime_types.cpp;
      HttpHandler.v: request_handler.cpp; HttpServer.v: connection.cpp,
      connection_manager.cpp and server.cpp as a step relation over the completion handlers.
    - ArrivalMap.v: remote_bitrate_estimator/packet_arrival_map.{h,cc}, against the map from
      sequence numbers to times that it stands for ([arrival]).
    - FeedbackProxy.v: remote_bitrate_estimator/remote_estimator_proxy.{h,cc}, which fills the
      arrival map and reports it in transport feedback messages.
    - RtpFormat.v: rtp_format.{h,cc}: SplitAboutEqually, and [packetizer_laws], what a
      packetizer promises to a sender: NumPackets counts the payloads to come, NextPacket
      puts the next one into a packet.
    - RtpVideo.v, RtpVp8.v: the packetizers and depacketizers of the generic, the raw and the
      VP8 payload formats.
    - RtpH264.v, RtpH264Plan.v, RtpH264Receive.v: rtp_format_h264.{h,cc}, NextPacket and then
      the constructor, and video_rtp_depacketizer_h264.cc.
    - FecTables.v, FecMasks.v: fec_private_tables_{random,bursty}.cc and
      forward_error_correction_internal.{h,cc} up to GeneratePacketMasks.
    - FecHeader.v, FlexfecHeader.v: the class [FecHeader] of the operations of a header format
      with the laws [FecHeaderLaws], and its instances from ulpfec_header_reader_writer.cc and
      flexfec_header_reader_writer.cc.
    - FecXor.v, FecEncoder.v, FecDecoder.v: forward_error_correction.cc, against
      [FecHeaderLaws] only: XorHeaders and XorPayloads, EncodeFec, DecodeFec.
    - FecRecovery.v, FecEndToEnd.v, FecPeeling.v: what RecoverPacket gives, what the decoder
      makes of the encoder's packets, and how far it gets.
    - StringView.v: std::string_view and std::from_chars from the C++ standard.  SipMessage.v
      and SipGrammar.v: basic/src/sip_message.cpp and the grammar that it accepts, as relations
      on texts.  SipTransactions.v, SipFields.v, SipGrouping.v: basic/exercises/01 to 03 (the
      request line, the header list, the transactions of a trace), the declarative readings of
      their parsers, and the groups that find_transactions makes.
    - ChatMessage.v: text_chat/chat_message.hpp.  ChatRoom.v: text_chat/chat_server.cpp, each
      completion handler of asio a function on the state of the server ([Chat.handle]), with
      [Run], the runs and the log of relayed messages.  ChatRelay.v: the invariant [ServerOk],
      what each step hands to the sessions ([hands]), a session from its connection on
      ([Joined]).  ChatClient.v: the reading side of text_chat/chat_client.cpp.

    ** Conventions

    [option]'s None is undefined behaviour (an access outside a buffer, signed overflow, a
    null pointer) or a failed RTC_CHECK or RTC_DCHECK, so a theorem that a function returns
    [Some] states that it is defined.  Error returns of the code are values: a bool, an
    inner option, a status.  A method that changes its object returns the new object.
    Integers keep their width: [u8] to [u64] where the code converts.

    ** What the theorems show

    - RTCP: [compound_roundtrip], [compound_datagrams], [nack_fragments],
      [create_every_branch]: what is appended arrives, in order, through the wire format and
      the split into datagrams.  [receive_total], [common_header_exact],
      [transport_feedback_parse_safe]: every received datagram is handled without an access
      outside it.  The other round trips give the exact loss of each format
      ([remb_rounding], [tmmb_rounding]: the significant bits kept).  [reachable_consistent]
      and [add_received_packet]: the report under construction.
    - RTP: [packet_operations] refines the packet object to an abstract packet under any
      sequence of operations; [rtp_build_parse] takes the result through the parser;
      [rtp_parse_safe] is the parser on arbitrary octets; [remove_extension];
      [extension_registry], the invariant of the registry; [demux].  [extension_classes]: the
      wire form of every extension class; [extension_values]: a value set on a packet is the
      value got at the other end; [extension_values_safe]: the getters on received octets.
    - Server: [http_parse_exact] (the accepted grammar), [http_parse_incremental],
      [served_files_confined], [file_is_served], [handle_errors],
      [replies_framed], [url_decode_roundtrip]; [server_invariant],
      [replies_answer_requests] and [shutdown_terminates] for every interleaving of the
      completion handlers.
    - Arithmetic: [IsNewer_order], [unwrapper_recovers]; the lemmas of ByteIo.v.
    - Transport-wide feedback: [arrival_window], the arrival map; [incoming_packet], the proxy
      on every branch; [periodic_feedback], each arrival reported once, and exactly when the
      loop ends; [arrival_is_reported], from an arriving packet to the message with its time.
    - Video payloads: [split_about_equally]; [generic_frame], [vp8_frame], [h264_frame]: a
      frame goes through the packetizer, RTP packets on the wire, the parser and the
      depacketizer, within the size limits, against [packetizer_laws]; [h264_parse_safe].
    - FEC: [packet_masks], every mask protects what it should; [fec_header_roundtrip];
      [encode_fec_protects] and [encode_fec_refuses], the encoder on every block;
      [fec_decoder_total], the decoder on arbitrary octets; [fec_recovers_what_was_sent], both
      sides over a network that loses, repeats and reorders; [fec_recovers_losses]: no FEC
      packet that arrived lacks exactly one packet at the end.
    - SIP: [parse_message_series_exact] and [sip_series_roundtrip], the language of a trace
      both ways; [find_transactions_groups], which message is in which transaction;
      [parse_request_line_exact], [parse_headers_lines], [parse_via_reads], [parse_cseq_exact]
      and [get_address_cases] for the fields.
    - Text chat: [chat_handlers_run], no handler starts an operation twice or takes from an
      empty queue; [chat_room_order], what the room keeps and hands on; [chat_queue_drains];
      [chat_end_to_end], what the client of a session shows, from a typed line at one client
      to the text at another; [chat_header_exact], the header of four characters.
    Lemmas named after a defect state it on a concrete input: [version_overflow],
    [url_decode_lenient], [remb_negative_bitrate], [reused_object_inconsistent],
    [reserved_symbol_accepted], [allocation_overruns_buffer], [late_packet_leaves_placeholders],
    [process_hangs], [old_request_fails], [ComfortNoise_laws], [long_packet_lost],
    [forged_packet_shows_memory], [last_line_lost].

    ** Parameters

    What the code takes from outside the repository is a class, with its documented
    behaviour as laws and an instance for concrete runs: [RtcNumerics] (rtc_base casts and
    divisions), [NtpTime], [DataRate], [CowBuffer] (rtc::CopyOnWriteBuffer), [RtpExtension]
    (the limits of api/rtp_parameters.h), [ProxyServices] (the
    unwrapper, units and estimator of the feedback proxy), [VideoRotationApi],
    [ContentTypeApi], [ColorSpaceApi] and [RtpCsrcSize] (value classes of api/), [Vp8Globals],
    [NaluTypes] and [H264Parsers] (modules/video_coding and common_video); FindNaluIndices, MinDiff, the octets of fresh memory, the URIs of extensions, the file system of the
    server ([open_file]) and the readings of Boost.Asio (the step relation) are arguments.

    ** Bounds and fuel

    Loops on a structure are structural.  [parse_loop] of the receiver has the length of the
    datagram as fuel, each round taking at least a header; [extension_loop] the octets of
    the extension block, each round taking at least one; [make_room] three rounds, since a
    flushed buffer has room or never has.  The status loops of transport feedback run over
    the announced count.  Each bound is proved sufficient (the results are [Some]).
    [buffer_fits] asks for buffers of at most 65535 octets in whole words, as all callers
    use; [allocation_overruns_buffer] shows why the second part is needed.
    [split_loop] has the octets of the frame as fuel, each round taking at least one;
    [small_limits] (2^28) keeps its sums within an int.  [generate_loop] has the number of
    NAL units, [stap_a_loop] one more, [stap_a_offsets] the octets of the payload.
    [recovery_fuel] is the square of the number of FEC packets plus one: AttemptRecovery drops
    one each time it starts again.  std::list::sort is a stable insertion sort, which is what
    it gives when the order is one; on lists that wrap the C++ standard leaves it open, and
    [fec_decoder_total] then only uses that it permutes.  [fec_recovers_losses] asks for fewer
    than 16384 sequence numbers from first to last.
    The SIP parsers have the length of the text as fuel, each round taking at least one
    character.  [client_read] has one round more than there are messages; a chat message has a
    header of 4 and a body of at most 512 octets, and the room keeps 100 messages.
    ** Not modelled

    Statistics, timers and callbacks of the RTCP receiver's handlers; the RTCP sender and
    transceiver and the RTP sender (task queues, clocks, transports that are not in the
    repository); the congestion control and the other remote bitrate estimators, which
    compute with floating point; sockets, address resolution and main functions; the example programs and
    other languages.  The
    payload formats of VP9 (it reads through rtc::BitBuffer, not in the repository) and AV1; the
    packet history and the pacer (clocks, task queues and the unit types of api/).  Of the SIP
    laboratory the runner, the web pages and the exercise skeletons; of the text chat the
    sockets and the threads of the client. *)

From stdpp Require Export base tactics option list numbers.
From Stdlib Require Export ZArith Lia.

#[global] Open Scope Z_scope.

(** ** Machine integers

    A w-bit unsigned integer is a [Z] in [0, 2^w); a conversion to such a
    type is the reduction written out below. *)

Definition u8 (x : Z) : Z := x mod 256.

Definition u16 (x : Z) : Z := x mod 65536.

Definition u32 (x : Z) : Z := x mod 4294967296.

Definition u64 (x : Z) : Z := x mod 18446744073709551616.

(** Reduction to [w] bits for the templates whose width is a parameter. *)
Definition uw (w x : Z) : Z := x mod 2 ^ w.

(** Two's complement reading of the low [w] bits. *)
Definition sw (w x : Z) : Z :=
  let y := x mod 2 ^ w in if y <? 2 ^ (w - 1) then y else y - 2 ^ w.

Definition s16 (x : Z) : Z := sw 16 x.

Definition s64 (x : Z) : Z := sw 64 x.

Definition is_u8 (x : Z) : Prop := 0 <= x < 256.

Definition is_u16 (x : Z) : Prop := 0 <= x < 65536.

Definition is_u32 (x : Z) : Prop := 0 <= x < 4294967296.

Definition is_u64 (x : Z) : Prop := 0 <= x < 18446744073709551616.

(** A buffer of octets. *)
Abbreviation bytes := (list Z) (only parsing).

Definition is_bytes (l : bytes) : Prop := Forall is_u8 l.

Abbreviation zlen l := (Z.of_nat (length l)).

(** Run-time assertions (RTC_CHECK, RTC_DCHECK): failing stops the run. *)
Definition check (b : bool) : option unit := if b then Some tt else None.

(** An assertion that holds. *)
Lemma check_true (b : bool) : b = true -> check b = Some tt.
Proof. by intros ->. Qed.

Lemma check_then {A} (b : bool) (k : option A) : b = true -> (check b ;; k) = k.
Proof. by intros ->. Qed.

(** ** Arithmetic of shifts and masks *)

Lemma u8_id x : is_u8 x -> u8 x = x.
Proof. intros H. apply Z.mod_small, H. Qed.

Lemma u16_id x : is_u16 x -> u16 x = x.
Proof. intros H. apply Z.mod_small, H. Qed.

Lemma u32_id x : is_u32 x -> u32 x = x.
Proof. intros H. apply Z.mod_small, H. Qed.

Lemma u64_id x : is_u64 x -> u64 x = x.
Proof. intros H. apply Z.mod_small, H. Qed.

Lemma u64_s64 x : u64 (s64 x) = u64 x.
Proof.
  unfold s64, sw, u64. change (2 ^ 64) with 18446744073709551616. cbv zeta.
  destruct (_ <? _).
  - by apply Z.mod_mod.
  - rewrite <- (Z.mod_add _ 1) by done. rewrite Z.mul_1_l, Z.sub_add. by apply Z.mod_mod.
Qed.

Lemma s64_range x : - 2 ^ 63 <= s64 x < 2 ^ 63.
Proof.
  unfold s64, sw. pose proof (Z.mod_pos_bound x (2 ^ 64)). cbv zeta.
  destruct (Z.ltb_spec (x mod 2 ^ 64) (2 ^ (64 - 1))); lia.
Qed.

Lemma u8_range x : is_u8 (u8 x).
Proof. apply Z.mod_pos_bound. reflexivity. Qed.

Lemma u16_range x : is_u16 (u16 x).
Proof. apply Z.mod_pos_bound. reflexivity. Qed.

Lemma u32_range x : is_u32 (u32 x).
Proof. apply Z.mod_pos_bound. reflexivity. Qed.

Lemma u64_range x : is_u64 (u64 x).
Proof. apply Z.mod_pos_bound. reflexivity. Qed.

Create HintDb words.

#[export] Hint Resolve u8_range u16_range u32_range u64_range : words.

Lemma land_mask n m a : 0 <= n -> m = 2 ^ n - 1 -> Z.land a m = a mod 2 ^ n.
Proof.
  intros Hn ->. rewrite <- Z.land_ones by done. f_equal.
  rewrite Z.ones_equiv. lia.
Qed.

Lemma lor_shift_add n a b :
  0 <= n -> 0 <= b < 2 ^ n -> Z.lor (a * 2 ^ n) b = a * 2 ^ n + b.
Proof.
  intros Hn Hb. rewrite <- Z.shiftl_mul_pow2 by done.
  symmetry. rewrite Z.add_nocarry_lxor.
  - symmetry. apply Z.bits_inj'. intros i Hi. rewrite Z.lor_spec, Z.lxor_spec.
    destruct (Z.lt_ge_cases i n) as [Hlt|Hge].
    + rewrite Z.shiftl_spec_low by done. destruct (Z.testbit b i); done.
    + replace (Z.testbit b i) with false; [by destruct (Z.testbit _ i)|].
      symmetry. rewrite <- (Z.mod_small b (2 ^ n)) by done.
      by rewrite Z.mod_pow2_bits_high.
  - apply Z.bits_inj'. intros i Hi. rewrite Z.land_spec, Z.bits_0.
    destruct (Z.lt_ge_cases i n) as [Hlt|Hge].
    + by rewrite Z.shiftl_spec_low.
    + replace (Z.testbit b i) with false; [by rewrite andb_false_r|].
      symmetry. rewrite <- (Z.mod_small b (2 ^ n)) by done.
      by rewrite Z.mod_pow2_bits_high.
Qed.

Lemma lor_shiftl_add n a b :
  0 <= n -> 0 <= b < 2 ^ n -> Z.lor (Z.shiftl a n) b = a * 2 ^ n + b.
Proof. intros. rewrite Z.shiftl_mul_pow2 by done. by apply lor_shift_add. Qed.

Lemma lor_add_shiftl n a b :
  0 <= n -> 0 <= b < 2 ^ n -> Z.lor b (Z.shiftl a n) = a * 2 ^ n + b.
Proof. intros. rewrite Z.lor_comm. by apply lor_shiftl_add. Qed.

Lemma lor_lt_pow2 n a b : 0 <= n -> 0 <= a < 2 ^ n -> 0 <= b < 2 ^ n -> Z.lor a b < 2 ^ n.
Proof.
  intros Hn Ha Hb. destruct (Z.eq_dec (Z.lor a b) 0) as [->|Hz]; [lia|].
  assert (0 <= Z.lor a b) by (apply Z.lor_nonneg; lia).
  apply Z.log2_lt_pow2; [lia|]. rewrite Z.log2_lor by lia.
  assert (n <> 0). { intros ->. cbn in *. assert (a = 0) as -> by lia. assert (b = 0) as -> by lia. done. }
  apply Z.max_lub_lt.
  - destruct (Z.eq_dec a 0) as [->|]; [cbn; lia|]. apply Z.log2_lt_pow2; lia.
  - destruct (Z.eq_dec b 0) as [->|]; [cbn; lia|]. apply Z.log2_lt_pow2; lia.
Qed.

(** The top bit of a number of [k + 1] bits. *)
Lemma testbit_top k a : 0 <= k -> 0 <= a < 2 ^ (k + 1) ->
  Z.testbit a k = (2 ^ k <=? a).
Proof.
  intros Hk Ha. rewrite Z.pow_add_r, Z.pow_1_r in Ha by lia.
  pose proof (Z.pow_pos_nonneg 2 k). destruct (Z.leb_spec (2 ^ k) a).
  - apply Z.testbit_true; [done|].
    replace a with (a - 2 ^ k + 1 * 2 ^ k) by lia.
    rewrite Z.div_add, Z.div_small by lia. done.
  - apply Z.testbit_false; [done|]. rewrite Z.div_small by lia. done.
Qed.

Lemma land_top k a : 0 <= k -> 0 <= a < 2 ^ (k + 1) ->
  (Z.land a (2 ^ k) =? 0) = (a <? 2 ^ k).
Proof.
  intros Hk Ha. pose proof (testbit_top k a Hk Ha) as Ht.
  pose proof (Z.pow_pos_nonneg 2 k).
  destruct (Z.ltb_spec a (2 ^ k)) as [Hlt|Hge].
  - apply Z.eqb_eq. apply Z.bits_inj'. intros i Hi.
    rewrite Z.land_spec, Z.pow2_bits_eqb, Z.bits_0 by done.
    destruct (Z.eqb_spec k i) as [<-|]; [|by rewrite andb_false_r].
    rewrite Ht. destruct (Z.leb_spec (2 ^ k) a); [lia|done].
  - apply Z.eqb_neq. intros H0. apply (f_equal (fun z => Z.testbit z k)) in H0.
    rewrite Z.land_spec, Z.pow2_bits_true, Z.bits_0, Ht in H0 by done.
    destruct (Z.leb_spec (2 ^ k) a); [done|lia].
Qed.

Lemma clear_top k a : 0 <= k -> 2 ^ k <= a < 2 ^ (k + 1) ->
  Z.land a (Z.lnot (2 ^ k)) = a - 2 ^ k.
Proof.
  intros Hk Ha. rewrite <- Z.ldiff_land. symmetry.
  apply Z.sub_nocarry_ldiff. apply Z.bits_inj'. intros i Hi.
  rewrite Z.ldiff_spec, Z.pow2_bits_eqb, Z.bits_0 by done.
  pose proof (Z.pow_pos_nonneg 2 k).
  destruct (Z.eqb_spec k i) as [<-|]; [|done].
  rewrite testbit_top by lia. by destruct (Z.leb_spec (2 ^ k) a); [|lia].
Qed.

Lemma land_u8 a b : is_u8 a -> is_u8 (Z.land a b).
Proof.
  intros Ha. assert (E : Z.land a b = Z.land (Z.land a b) 255).
  { rewrite <- Z.land_assoc, (Z.land_comm b), Z.land_assoc. f_equal. rewrite (land_mask 8) by done.
    symmetry. apply Z.mod_small. exact Ha. }
  rewrite E, (land_mask 8) by done. by apply Z.mod_pos_bound.
Qed.

Lemma lor_u8 a b : is_u8 a -> is_u8 b -> is_u8 (Z.lor a b).
Proof.
  intros Ha Hb. assert (E : Z.lor a b = Z.land (Z.lor a b) 255).
  { rewrite Z.land_lor_distr_l, !(land_mask 8) by done. symmetry.
    f_equal; apply Z.mod_small; [exact Ha|exact Hb]. }
  rewrite E, (land_mask 8) by done. by apply Z.mod_pos_bound.
Qed.

(** A property of octets, by trying them all. *)
Lemma octet_all (P : Z -> bool) : forallb P (map Z.of_nat (seq 0 256)) = true -> forall d, is_u8 d -> P d = true.
Proof.
  rewrite forallb_forall. intros H d Hd. apply H. apply in_map_iff. exists (Z.to_nat d).
  unfold is_u8 in Hd. split; [lia|]. apply in_seq. lia.
Qed.

(** [lia] with division and modulo by constants. *)
Ltac dlia := Z.to_euclidean_division_equations; lia.

(** Unfold the widths and finish with linear arithmetic. *)
Ltac wordlia :=
  unfold u8, u16, u32, u64, is_u8, is_u16, is_u32, is_u64 in *; dlia.

(** Split a conjunction without unfolding its parts. *)
Ltac splits := repeat match goal with |- _ /\ _ => split end.

(** Decide a comparison that guards the goal. *)
Ltac leb_true := rewrite (proj2 (Z.leb_le _ _)) by lia.

(** Well-formedness of a concrete value. *)
Ltac decide_wf :=
  repeat match goal with
    | |- _ /\ _ => split
    | |- True => exact I
    | |- List.Forall _ [] => apply List.Forall_nil
    | |- List.Forall _ (_ :: _) => apply List.Forall_cons
    | |- List.Forall ?P ?l => let l' := eval hnf in l in progress change (List.Forall P l')
    | |- _ <= _ => vm_compute; discriminate
    | |- _ < _ => vm_compute; reflexivity
    | |- _ = _ => vm_compute; reflexivity
    | |- _ <> _ => discriminate
    | |- _ => progress hnf
    end.

(** Compare two results component by component. *)
Ltac tuple_eq :=
  repeat match goal with
    | |- Some _ = Some _ => apply f_equal
    | |- (_, _) = (_, _) => apply f_equal2
    end; try reflexivity.
