(* ===== verification/SeqNum.v ===== *)
(** * Sequence numbers: modules/include/module_common_types_public.h

    The order on wrapping counters and the unwrapper to 64-bit values, as
    templates over the width of the unsigned type. *)

From S2P Require Import Prelude.

(** [value - prev_value]: types narrower than int are promoted to int, so that
    the difference is signed; a 32-bit unsigned difference wraps. *)
Definition difference (w value prev_value : Z) : Z :=
  if w <? 32 then value - prev_value else uw w (value - prev_value).

(** IsNewer<U>; [w] is the number of bits of U. *)
Definition IsNewer (w value prev_value : Z) : bool :=
  let kBreakpoint := Z.shiftr (2 ^ w - 1) 1 + 1 in
  if difference w value prev_value =? kBreakpoint then value >? prev_value
  else negb (value =? prev_value) && (uw w (difference w value prev_value) <? kBreakpoint).

Definition IsNewerSequenceNumber (sequence_number prev_sequence_number : Z) : bool :=
  IsNewer 16 sequence_number prev_sequence_number.

Definition IsNewerTimestamp (timestamp prev_timestamp : Z) : bool :=
  IsNewer 32 timestamp prev_timestamp.

Definition LatestSequenceNumber (sequence_number1 sequence_number2 : Z) : Z :=
  if IsNewerSequenceNumber sequence_number1 sequence_number2
  then sequence_number1 else sequence_number2.

Definition LatestTimestamp (timestamp1 timestamp2 : Z) : Z :=
  if IsNewerTimestamp timestamp1 timestamp2 then timestamp1 else timestamp2.

Module Unwrapper.

Record t := Mk { last_value_ : option Z (* absl::optional<int64_t> *) }.

Definition new : t := Mk None.

Definition UnwrapWithoutUpdate (w : Z) (this : t) (value : Z) : Z :=
  match last_value_ this with
  | None => value
  | Some last_value =>
      let kMaxPlusOne := 2 ^ w - 1 + 1 in
      let cropped_last := uw w last_value in
      let delta := difference w value cropped_last in
      let delta :=
        if IsNewer w value cropped_last then
          if delta <? 0 then delta + kMaxPlusOne else delta
        else if (delta >? 0) && (last_value + delta - kMaxPlusOne >=? 0) then delta - kMaxPlusOne
        else delta in
      last_value + delta
  end.

Definition UpdateLast (this : t) (last_value : Z) : t := Mk (Some last_value).

Definition Unwrap (w : Z) (this : t) (value : Z) : t * Z :=
  let unwrapped := UnwrapWithoutUpdate w this value in
  (UpdateLast this unwrapped, unwrapped).

(** The values of a sequence of calls. *)
Fixpoint unwrap_all (w : Z) (this : t) (values : list Z) : list Z :=
  match values with
  | [] => []
  | v :: vs => let '(this, u) := Unwrap w this v in u :: unwrap_all w this vs
  end.

End Unwrapper.

(** ** The order *)

(** The types the template is used with. *)
Definition template_width (w : Z) : Prop := 0 < w <= 32.

Lemma breakpoint_spec w : template_width w -> Z.shiftr (2 ^ w - 1) 1 + 1 = 2 ^ (w - 1).
Proof.
  intros Hw. unfold template_width in Hw. rewrite Z.shiftr_div_pow2 by done. change (2 ^ 1) with 2.
  assert (H2 : 2 ^ w = 2 * 2 ^ (w - 1)) by (rewrite <- Z.pow_succ_r by lia; f_equal; lia).
  pose proof (Z.pow_pos_nonneg 2 (w - 1)). rewrite H2. dlia.
Qed.

(** Newer means ahead by less than half the space, the larger of two values
    exactly half the space apart being the newer one. *)
Lemma IsNewer_spec w v p : template_width w -> 0 <= v < 2 ^ w -> 0 <= p < 2 ^ w ->
  IsNewer w v p = true <->
  0 < (v - p) mod 2 ^ w < 2 ^ (w - 1) \/ (v - p = 2 ^ (w - 1)).
Proof.
  intros Hw Hv Hp. unfold IsNewer, difference. rewrite breakpoint_spec by done. cbv zeta.
  unfold template_width, uw in *.
  assert (H2 : 2 ^ w = 2 * 2 ^ (w - 1)) by (rewrite <- Z.pow_succ_r by lia; f_equal; lia).
  set (h := 2 ^ (w - 1)) in *. rewrite H2 in *.
  assert (Hh : 0 < h) by (apply Z.pow_pos_nonneg; lia).
  assert (Hmod : (v - p) mod (2 * h) = if p <=? v then v - p else v - p + 2 * h).
  { destruct (Z.leb_spec p v); [by apply Z.mod_small; lia|].
    rewrite <- (Z.mod_add _ 1) by lia. rewrite Z.mul_1_l. apply Z.mod_small. lia. }
  rewrite Z.gtb_ltb. destruct (Z.ltb_spec w 32); rewrite ?Z.mod_mod by lia; rewrite ?Hmod;
  repeat match goal with
  | |- context [?a <=? ?b] => destruct (Z.leb_spec a b)
  | |- context [?a <? ?b] => destruct (Z.ltb_spec a b)
  | |- context [?a =? ?b] => destruct (Z.eqb_spec a b)
  end; cbn [negb andb]; split; intros; try done; try lia.
Qed.

(** ** Unwrapping *)

(** The next value is within half the space of the last one. *)
Lemma Unwrap_near w last x : template_width w -> 0 <= last -> 0 <= x ->
  - 2 ^ (w - 1) < x - last < 2 ^ (w - 1) ->
  Unwrapper.UnwrapWithoutUpdate w (Unwrapper.Mk (Some last)) (uw w x) = x.
Proof.
  intros Hw Hl Hx Hd. unfold Unwrapper.UnwrapWithoutUpdate. cbn [Unwrapper.last_value_]. cbv zeta.
  assert (H2 : 2 ^ w = 2 * 2 ^ (w - 1)).
  { unfold template_width in Hw. rewrite <- Z.pow_succ_r by lia. f_equal. lia. }
  assert (Hpos : 0 < 2 ^ (w - 1)) by (unfold template_width in Hw; apply Z.pow_pos_nonneg; lia).
  assert (Hv : 0 <= uw w x < 2 ^ w) by (apply Z.mod_pos_bound; lia).
  assert (Hc : 0 <= uw w last < 2 ^ w) by (apply Z.mod_pos_bound; lia).
  pose proof (IsNewer_spec w (uw w x) (uw w last) Hw Hv Hc) as HN.
  assert (Hmod : (uw w x - uw w last) mod 2 ^ w = (x - last) mod 2 ^ w).
  { unfold uw. by rewrite <- Zminus_mod. }
  set (v := uw w x) in *. set (c := uw w last) in *.
  assert (Hqx : exists qx, x = v + 2 ^ w * qx) by (exists (x / 2 ^ w); unfold v, uw; pose proof (Z.div_mod x (2 ^ w)); lia).
  assert (Hql : exists ql, last = c + 2 ^ w * ql /\ 0 <= ql).
  { exists (last / 2 ^ w). split; [unfold c, uw; pose proof (Z.div_mod last (2 ^ w)); lia|].
    apply Z.div_pos; lia. }
  destruct Hqx as [qx Hqx]. destruct Hql as (ql & Hql & Hql0).
  assert (Hxl : (x - last) mod 2 ^ w = if last <=? x then x - last else x - last + 2 ^ w).
  { destruct (Z.leb_spec last x); [apply Z.mod_small; lia|].
    rewrite <- (Z.mod_add _ 1) by lia. rewrite Z.mul_1_l. apply Z.mod_small. lia. }
  rewrite Hmod, Hxl in HN. clear Hxl Hmod.
  assert (Hdiff : difference w v c = v - c \/ difference w v c = v - c + 2 ^ w /\ v < c).
  { unfold difference, uw. destruct (Z.ltb_spec w 32); [by left|].
    destruct (Z.le_gt_cases c v); [left; apply Z.mod_small; lia|right].
    split; [|done]. rewrite <- (Z.mod_add _ 1) by lia. rewrite Z.mul_1_l. apply Z.mod_small. lia. }
  set (d := difference w v c) in *. clearbody d v c.
  assert (Hq : v - c = x - last - 2 ^ w * (qx - ql)) by lia.
  rewrite Z.sub_add. rewrite H2 in *. set (h := 2 ^ (w - 1)) in *. clearbody h.
  assert (Hk : qx - ql = -1 \/ qx - ql = 0 \/ qx - ql = 1) by nia.
  assert (Hvc : v - c = x - last + 2 * h \/ v - c = x - last \/ v - c = x - last - 2 * h)
    by (destruct Hk as [E|[E|E]]; rewrite E in Hq; lia).
  clear Hk Hq Hqx. destruct (IsNewer w v c) eqn:EN.
  - destruct HN as [HN _]. specialize (HN eq_refl).
    destruct (Z.leb_spec last x); destruct (Z.ltb_spec d 0); lia.
  - destruct HN as [_ HN].
    assert (Hle : x <= last).
    { destruct (Z.le_gt_cases x last); [done|]. exfalso.
      discriminate HN. destruct (Z.leb_spec last x); [left; lia|lia]. }
    assert (Hcl : c <= last) by nia.
    rewrite Z.gtb_ltb, Z.geb_leb.
    destruct (Z.ltb_spec 0 d); cbn [andb];
      [destruct (Z.leb_spec 0 (last + d - 2 * h))|]; lia.
Qed.

(** Whatever value arrives, the result is congruent to it and not negative. *)
Lemma Unwrap_congruent w last v : template_width w -> 0 <= last -> 0 <= v < 2 ^ w ->
  let u := Unwrapper.UnwrapWithoutUpdate w (Unwrapper.Mk (Some last)) v in
  0 <= u /\ uw w u = v /\ last - 2 ^ w < u < last + 2 ^ w.
Proof.
  intros Hw Hl Hv. unfold Unwrapper.UnwrapWithoutUpdate. cbn [Unwrapper.last_value_]. cbv zeta.
  unfold template_width in Hw. assert (Hp : 0 < 2 ^ w) by (apply Z.pow_pos_nonneg; lia).
  assert (Hc : 0 <= uw w last < 2 ^ w) by (by apply Z.mod_pos_bound).
  set (c := uw w last) in *.
  assert (Hcl : c <= last) by (by apply Z.mod_le).
  assert (Hql : exists q, last = c + q * 2 ^ w).
  { exists (last / 2 ^ w). unfold c, uw. pose proof (Z.div_mod last (2 ^ w)). lia. }
  destruct Hql as [q Hql].
  assert (Hdiff : difference w v c = v - c \/ difference w v c = v - c + 2 ^ w /\ v < c).
  { unfold difference, uw. destruct (Z.ltb_spec w 32); [by left|].
    destruct (Z.le_gt_cases c v); [left; apply Z.mod_small; lia|right].
    split; [|done]. rewrite <- (Z.mod_add _ 1) by lia. rewrite Z.mul_1_l. apply Z.mod_small. lia. }
  set (d := difference w v c) in *. rewrite Z.sub_add.
  assert (HN : IsNewer w v c = true -> v - c < 0 -> d < 0 \/ d = v - c + 2 ^ w) by lia.
  match goal with |- 0 <= last + ?e /\ _ =>
    assert (He : exists k, e = v - c + k * 2 ^ w /\ - 2 ^ w < e < 2 ^ w /\ 0 <= last + e) end.
  { destruct (IsNewer w v c).
    - destruct (Z.ltb_spec d 0); destruct Hdiff as [->|[-> ?]];
        [exists 1|exists 2|exists 0|exists 1]; lia.
    - rewrite Z.gtb_ltb, Z.geb_leb. destruct (Z.ltb_spec 0 d); cbn [andb];
        [destruct (Z.leb_spec 0 (last + d - 2 ^ w))|]; destruct Hdiff as [->|[-> ?]];
        [exists (-1)|exists 0|exists 0|exists 1|exists 0|exists 1]; lia. }
  destruct He as (k & -> & Hb & Hnn). split; [done|]. split; [|lia].
  unfold uw. replace (last + (v - c + k * 2 ^ w)) with (v + (q + k) * 2 ^ w) by lia.
  rewrite Z.mod_add by lia. by apply Z.mod_small.
Qed.

(** A sequence of true values whose steps are shorter than half the space. *)
Fixpoint short_steps (w last : Z) (xs : list Z) : Prop :=
  match xs with
  | [] => True
  | x :: xs' => 0 <= x /\ - 2 ^ (w - 1) < x - last < 2 ^ (w - 1) /\ short_steps w x xs'
  end.

Lemma unwrap_all_near w last xs : template_width w -> 0 <= last -> short_steps w last xs ->
  Unwrapper.unwrap_all w (Unwrapper.Mk (Some last)) (map (uw w) xs) = xs.
Proof.
  intros Hw. revert last. induction xs as [|x xs IH]; intros last Hl; [done|].
  intros (Hx & Hd & Hs). cbn [map Unwrapper.unwrap_all]. unfold Unwrapper.Unwrap.
  rewrite Unwrap_near by done. f_equal. by apply IH.
Qed.

(** IsNewer is a strict choice between two values of its type: a value is
    newer exactly when it is ahead by less than half the number space (or by
    half of it and larger), no value is newer than itself, and of two different
    values exactly one is the newer; the Latest functions return that one. *)
Theorem IsNewer_order (w v p : Z) :
  template_width w -> 0 <= v < 2 ^ w -> 0 <= p < 2 ^ w ->
  (IsNewer w v p = true <->
     0 < (v - p) mod 2 ^ w < 2 ^ (w - 1) \/ v - p = 2 ^ (w - 1)) /\
  IsNewer w v v = false /\ (v <> p -> IsNewer w v p = negb (IsNewer w p v)).
Proof.
  intros Hw Hv Hp. pose proof (IsNewer_spec w v p Hw Hv Hp) as H1.
  pose proof (IsNewer_spec w p v Hw Hp Hv) as H2. pose proof (IsNewer_spec w v v Hw Hv Hv) as H3.
  unfold template_width in Hw.
  assert (Hh : 2 ^ w = 2 * 2 ^ (w - 1)) by (rewrite <- Z.pow_succ_r by lia; f_equal; lia).
  assert (Hpos : 0 < 2 ^ (w - 1)) by (apply Z.pow_pos_nonneg; lia).
  set (h := 2 ^ (w - 1)) in *. rewrite Hh in *.
  assert (Hm : forall a b, 0 <= a < 2 * h -> 0 <= b < 2 * h ->
    (a - b) mod (2 * h) = if b <=? a then a - b else a - b + 2 * h).
  { intros a b Ha Hb. destruct (Z.leb_spec b a); [by apply Z.mod_small; lia|].
    rewrite <- (Z.mod_add _ 1) by lia. rewrite Z.mul_1_l. apply Z.mod_small. lia. }
  split; [done|]. rewrite Hm in H1, H2, H3 by done. split.
  - destruct (IsNewer w v v); [|done]. destruct H3 as [H3 _]. specialize (H3 eq_refl).
    destruct (Z.leb_spec v v); lia.
  - intros Hne. destruct (IsNewer w v p) eqn:E1, (IsNewer w p v) eqn:E2; try done; exfalso.
    + destruct H1 as [H1 _], H2 as [H2 _]. specialize (H1 eq_refl). specialize (H2 eq_refl).
      destruct (Z.leb_spec p v), (Z.leb_spec v p); lia.
    + destruct (Z.leb_spec p v), (Z.leb_spec v p); lia.
Qed.

Lemma IsNewer_order_witness : IsNewer 16 5 65530 = true /\ IsNewer 16 65530 5 = false.
Proof.
  destruct (IsNewer_order 16 5 65530) as (_ & _ & H); [split; lia|lia|lia|].
  split; [reflexivity|]. specialize (H ltac:(lia)). destruct (IsNewer 16 65530 5); [discriminate H|reflexivity].
Defined.

(** The unwrapper recovers a sequence of 64-bit values from their low w
    bits, as long as it starts inside the type's range, stays non-negative and
    moves by less than half the number space at a time, in either direction. *)
Theorem unwrapper_recovers (w x : Z) (xs : list Z) :
  template_width w -> 0 <= x < 2 ^ w -> short_steps w x xs ->
  Unwrapper.unwrap_all w Unwrapper.new (map (uw w) (x :: xs)) = x :: xs.
Proof.
  intros Hw Hx Hs. cbn [map Unwrapper.unwrap_all]. unfold Unwrapper.Unwrap.
  assert (E : uw w x = x) by (by apply Z.mod_small). rewrite E.
  change (Unwrapper.UnwrapWithoutUpdate w Unwrapper.new x) with x.
  f_equal. apply unwrap_all_near; [done|lia|done].
Qed.

Lemma unwrapper_recovers_witness :
  Unwrapper.unwrap_all 16 Unwrapper.new [65000; 464; 64464; 24464] =
  [65000; 66000; 64464; 90000].
Proof.
  apply (unwrapper_recovers 16 65000 [66000; 64464; 90000] ltac:(split; lia) ltac:(lia)).
  repeat split; lia.
Defined.

(** Whatever value arrives next, the unwrapped result is congruent to it
    modulo the type's range, is never negative and is less than one wrap away
    from the last result. *)
Theorem unwrap_congruent (w last v : Z) :
  template_width w -> 0 <= last -> 0 <= v < 2 ^ w ->
  let r := Unwrapper.Unwrap w (Unwrapper.Mk (Some last)) v in
  fst r = Unwrapper.Mk (Some (snd r)) /\ 0 <= snd r /\ uw w (snd r) = v /\
  last - 2 ^ w < snd r < last + 2 ^ w.
Proof.
  intros Hw Hl Hv. unfold Unwrapper.Unwrap. split; [done|]. by apply Unwrap_congruent.
Qed.

Lemma unwrap_congruent_witness :
  let r := Unwrapper.Unwrap 32 (Unwrapper.Mk (Some 100)) 4294967290 in
  fst r = Unwrapper.Mk (Some (snd r)) /\ 0 <= snd r /\ uw 32 (snd r) = 4294967290 /\
  100 - 2 ^ 32 < snd r < 100 + 2 ^ 32.
Proof. apply (unwrap_congruent 32 100 4294967290); [split; lia|lia|lia]. Defined.
