(* ===== verification/ByteIo.v ===== *)
(** * Integers in byte buffers: modules/rtp_rtcp/source/byte_io.h

    [ByteReader] and [ByteWriter] hold the class templates of that header.  A
    template instance <T, B, is_signed> is given by the width [w] of [T] in
    bits and the number [B] of octets; [data] lists the octets at the pointer
    the C++ function receives.  The generic loops and the specializations for
    1, 2, 4 and 8 octets are all modelled, and every one of them is shown to
    agree with the positional value [be_value] / [le_value]. *)

From S2P Require Import Prelude.

(** ** Specification: positional notation in base 256 *)

Definition be_value (l : bytes) : Z := fold_left (fun a b => a * 256 + b) l 0.

Fixpoint le_value (l : bytes) : Z :=
  match l with [] => 0 | b :: l' => b + 256 * le_value l' end.

Fixpoint be_bytes (B : nat) (v : Z) : bytes :=
  match B with
  | O => []
  | S n => (v / 256 ^ Z.of_nat n) mod 256 :: be_bytes n v
  end.

Fixpoint le_bytes (B : nat) (v : Z) : bytes :=
  match B with O => [] | S n => v mod 256 :: le_bytes n (v / 256) end.

Module ByteReader.

(** The generic loops of ByteReader<T, B, false>. *)
Definition InternalReadBigEndian (w : Z) (B : nat) (data : bytes) : Z :=
  fold_left
    (fun val i => Z.lor val
       (uw w (Z.shiftl (uw w (data !!! i)) ((Z.of_nat B - 1 - Z.of_nat i) * 8))))
    (seq 0 B) 0.

Definition InternalReadLittleEndian (w : Z) (B : nat) (data : bytes) : Z :=
  fold_left
    (fun val i => Z.lor val
       (uw w (Z.shiftl (uw w (data !!! i)) (Z.of_nat i * 8))))
    (seq 0 B) 0.

(** Get of the four and eight octet specializations. *)
Definition Get (w : Z) (data : bytes) (index : nat) : Z := uw w (data !!! index).

(** The specializations for 1, 2, 4 and 8 octets. *)
Definition ReadBigEndian1 (w : Z) (data : bytes) : Z := uw w (data !!! 0%nat).

Definition ReadLittleEndian1 (w : Z) (data : bytes) : Z := uw w (data !!! 0%nat).

Definition ReadBigEndian2 (w : Z) (data : bytes) : Z :=
  uw w (Z.lor (Z.shiftl (data !!! 0%nat) 8) (data !!! 1%nat)).

Definition ReadLittleEndian2 (w : Z) (data : bytes) : Z :=
  uw w (Z.lor (data !!! 0%nat) (Z.shiftl (data !!! 1%nat) 8)).

Definition ReadBigEndian4 (w : Z) (data : bytes) : Z :=
  uw w (Z.lor (Z.lor (Z.lor (Z.shiftl (Get w data 0) 24)
                            (Z.shiftl (Get w data 1) 16))
                     (Z.shiftl (Get w data 2) 8))
              (Get w data 3)).

Definition ReadLittleEndian4 (w : Z) (data : bytes) : Z :=
  uw w (Z.lor (Z.lor (Z.lor (Get w data 0) (Z.shiftl (Get w data 1) 8))
                     (Z.shiftl (Get w data 2) 16))
              (Z.shiftl (Get w data 3) 24)).

Definition ReadBigEndian8 (w : Z) (data : bytes) : Z :=
  uw w (Z.lor (Z.lor (Z.lor (Z.lor (Z.lor (Z.lor (Z.lor
    (Z.shiftl (Get w data 0) 56) (Z.shiftl (Get w data 1) 48))
    (Z.shiftl (Get w data 2) 40)) (Z.shiftl (Get w data 3) 32))
    (Z.shiftl (Get w data 4) 24)) (Z.shiftl (Get w data 5) 16))
    (Z.shiftl (Get w data 6) 8)) (Get w data 7)).

Definition ReadLittleEndian8 (w : Z) (data : bytes) : Z :=
  uw w (Z.lor (Z.lor (Z.lor (Z.lor (Z.lor (Z.lor (Z.lor
    (Get w data 0) (Z.shiftl (Get w data 1) 8))
    (Z.shiftl (Get w data 2) 16)) (Z.shiftl (Get w data 3) 24))
    (Z.shiftl (Get w data 4) 32)) (Z.shiftl (Get w data 5) 40))
    (Z.shiftl (Get w data 6) 48)) (Z.shiftl (Get w data 7) 56)).

(** ByteReader<T, B, false>: the instance the compiler selects. *)
Definition ReadBigEndian (w : Z) (B : nat) (data : bytes) : Z :=
  match B with
  | 1%nat => ReadBigEndian1 w data
  | 2%nat => ReadBigEndian2 w data
  | 4%nat => ReadBigEndian4 w data
  | 8%nat => ReadBigEndian8 w data
  | _ => InternalReadBigEndian w B data
  end.

Definition ReadLittleEndian (w : Z) (B : nat) (data : bytes) : Z :=
  match B with
  | 1%nat => ReadLittleEndian1 w data
  | 2%nat => ReadLittleEndian2 w data
  | 4%nat => ReadLittleEndian4 w data
  | 8%nat => ReadLittleEndian8 w data
  | _ => InternalReadLittleEndian w B data
  end.

(** ByteReader<T, B, true>. *)
Definition ReinterpretAsSigned (w : Z) (unsigned_val : Z) : Z :=
  let kUnsignedHighestBitMask := Z.shiftl 1 (w - 1) in
  let kSignedHighestBitMask := - 2 ^ (w - 1) in
  if negb (Z.land unsigned_val kUnsignedHighestBitMask =? 0) then
    Z.lor (Z.land unsigned_val (Z.lnot kUnsignedHighestBitMask))
          kSignedHighestBitMask
  else unsigned_val.

Definition SignExtend (w : Z) (B : nat) (val : Z) : Z :=
  let kMsb := u8 (Z.shiftr val ((Z.of_nat B - 1) * 8)) in
  if negb (Z.land kMsb 128 =? 0) then
    let kUsedBitsMask := Z.shiftl 1 ((Z.of_nat B mod (w / 8)) * 8) - 1 in
    uw w (Z.lor (Z.lnot kUsedBitsMask) val)
  else val.

Definition ReadBigEndianSigned (w : Z) (B : nat) (data : bytes) : Z :=
  let unsigned_val := ReadBigEndian w B data in
  ReinterpretAsSigned w
    (if Z.of_nat B <? w / 8 then SignExtend w B unsigned_val else unsigned_val).

Definition ReadLittleEndianSigned (w : Z) (B : nat) (data : bytes) : Z :=
  let unsigned_val := ReadLittleEndian w B data in
  ReinterpretAsSigned w
    (if Z.of_nat B <? w / 8 then SignExtend w B unsigned_val else unsigned_val).

End ByteReader.

Module ByteWriter.

(** The octets stored by ByteWriter<T, B, false>, in address order: the
    generic loops, which the specializations unroll. *)
Definition WriteBigEndianLoop (B : nat) (val : Z) : bytes :=
  map (fun i => u8 (Z.shiftr val ((Z.of_nat B - 1 - Z.of_nat i) * 8))) (seq 0 B).

Definition WriteLittleEndianLoop (B : nat) (val : Z) : bytes :=
  map (fun i => u8 (Z.shiftr val (Z.of_nat i * 8))) (seq 0 B).

Definition WriteBigEndian (B : nat) (val : Z) : bytes :=
  match B with
  | 1%nat => [u8 val]
  | 2%nat => [u8 (Z.shiftr val 8); u8 val]
  | 4%nat => [u8 (Z.shiftr val 24); u8 (Z.shiftr val 16); u8 (Z.shiftr val 8);
              u8 val]
  | 8%nat => [u8 (Z.shiftr val 56); u8 (Z.shiftr val 48); u8 (Z.shiftr val 40);
              u8 (Z.shiftr val 32); u8 (Z.shiftr val 24); u8 (Z.shiftr val 16);
              u8 (Z.shiftr val 8); u8 val]
  | _ => WriteBigEndianLoop B val
  end.

Definition WriteLittleEndian (B : nat) (val : Z) : bytes :=
  match B with
  | 1%nat => [u8 val]
  | 2%nat => [u8 val; u8 (Z.shiftr val 8)]
  | 4%nat => [u8 val; u8 (Z.shiftr val 8); u8 (Z.shiftr val 16);
              u8 (Z.shiftr val 24)]
  | 8%nat => [u8 val; u8 (Z.shiftr val 8); u8 (Z.shiftr val 16);
              u8 (Z.shiftr val 24); u8 (Z.shiftr val 32); u8 (Z.shiftr val 40);
              u8 (Z.shiftr val 48); u8 (Z.shiftr val 56)]
  | _ => WriteLittleEndianLoop B val
  end.

(** ByteWriter<T, B, true>: static_cast<U>(val). *)
Definition ReinterpretAsUnsigned (w val : Z) : Z := uw w val.

Definition WriteBigEndianSigned (w : Z) (B : nat) (val : Z) : bytes :=
  WriteBigEndian B (ReinterpretAsUnsigned w val).

Definition WriteLittleEndianSigned (w : Z) (B : nat) (val : Z) : bytes :=
  WriteLittleEndian B (ReinterpretAsUnsigned w val).

End ByteWriter.

(** ** Facts about positional notation *)

Lemma pow256 n : 256 ^ Z.of_nat n = 2 ^ (8 * Z.of_nat n).
Proof. rewrite Z.pow_mul_r by lia. done. Qed.

Lemma fold_be_shift l a :
  fold_left (fun a b => a * 256 + b) l a = a * 256 ^ zlen l + be_value l.
Proof.
  unfold be_value. revert a.
  induction l as [|b l IH]; intros a; cbn [fold_left length].
  - rewrite Z.pow_0_r. lia.
  - rewrite IH, (IH (0 * 256 + b)), Nat2Z.inj_succ, Z.pow_succ_r by lia. lia.
Qed.

Lemma be_value_cons b l : be_value (b :: l) = b * 256 ^ zlen l + be_value l.
Proof. unfold be_value at 1. cbn [fold_left]. by rewrite fold_be_shift. Qed.

Lemma be_value_range l : is_bytes l -> 0 <= be_value l < 256 ^ zlen l.
Proof.
  induction 1 as [|b l Hb _ IH]; [cbn; lia|].
  rewrite be_value_cons. cbn [length]. rewrite Nat2Z.inj_succ, Z.pow_succ_r by lia.
  unfold is_u8 in Hb. nia.
Qed.

Lemma le_value_range l : is_bytes l -> 0 <= le_value l < 256 ^ zlen l.
Proof.
  induction 1 as [|b l Hb _ IH]; [cbn; lia|]. cbn [le_value length].
  rewrite Nat2Z.inj_succ, Z.pow_succ_r by lia. unfold is_u8 in Hb. nia.
Qed.

Lemma length_be_bytes B v : length (be_bytes B v) = B.
Proof. induction B; cbn; auto. Qed.

Lemma length_le_bytes B v : length (le_bytes B v) = B.
Proof. revert v. induction B; intros v; cbn; auto. Qed.

Lemma be_bytes_is_bytes B v : is_bytes (be_bytes B v).
Proof. induction B; constructor; [apply Z.mod_pos_bound|]; done. Qed.

Lemma le_bytes_is_bytes B v : is_bytes (le_bytes B v).
Proof.
  revert v. induction B; intros v; constructor; [apply Z.mod_pos_bound; done|].
  apply IHB.
Qed.

Lemma be_value_be_bytes B v : be_value (be_bytes B v) = v mod 256 ^ Z.of_nat B.
Proof.
  induction B as [|n IH]; [cbn; by rewrite Z.mod_1_r|]. cbn [be_bytes].
  rewrite be_value_cons, length_be_bytes, IH, Nat2Z.inj_succ, Z.pow_succ_r by lia.
  rewrite (Z.mul_comm 256), Z.rem_mul_r by (try apply Z.pow_nonzero; lia). lia.
Qed.

Lemma le_value_le_bytes B v : le_value (le_bytes B v) = v mod 256 ^ Z.of_nat B.
Proof.
  revert v. induction B as [|n IH]; intros v; [cbn; by rewrite Z.mod_1_r|].
  cbn [le_bytes le_value].
  rewrite IH, Nat2Z.inj_succ, Z.pow_succ_r, Z.rem_mul_r
    by (try apply Z.pow_nonzero; lia). lia.
Qed.

Lemma pow256_pos n : 0 < 256 ^ Z.of_nat n.
Proof. apply Z.pow_pos_nonneg; lia. Qed.

Lemma div_mod_pow256 n k v :
  (v mod 256 ^ (Z.of_nat n + (1 + Z.of_nat k)) / 256 ^ Z.of_nat n) mod 256 =
  (v / 256 ^ Z.of_nat n) mod 256.
Proof.
  pose proof (pow256_pos n) as Hn. pose proof (pow256_pos k) as Hk.
  rewrite !Z.pow_add_r, Z.pow_1_r by lia.
  generalize dependent (256 ^ Z.of_nat n). intros P HP.
  generalize dependent (256 ^ Z.of_nat k). intros Q HQ.
  rewrite Z.rem_mul_r by lia.
  rewrite (Z.mul_comm P), Z.div_add, Z.div_small, Z.add_0_l
    by (try apply Z.mod_pos_bound; lia).
  rewrite Z.rem_mul_r by lia.
  by rewrite (Z.mul_comm 256), Z.mod_add, Z.mod_mod by done.
Qed.

Lemma be_bytes_mod B v : be_bytes B v = be_bytes B (v mod 256 ^ Z.of_nat B).
Proof.
  assert (H : forall n m, (n <= m)%nat ->
    be_bytes n v = be_bytes n (v mod 256 ^ Z.of_nat m)); [|by apply H].
  induction n as [|n IH]; intros m Hm; [done|]. cbn [be_bytes].
  f_equal; [|apply IH; lia].
  replace (Z.of_nat m) with (Z.of_nat n + (1 + Z.of_nat (m - n - 1))) by lia.
  by rewrite div_mod_pow256.
Qed.

Lemma be_bytes_be_value l : is_bytes l -> be_bytes (length l) (be_value l) = l.
Proof.
  induction 1 as [|b l Hb Hl IH]; [done|]. cbn [length be_bytes].
  pose proof (be_value_range l Hl).
  rewrite be_value_cons. f_equal.
  - rewrite Z.div_add_l, Z.div_small, Z.add_0_r by lia. by apply u8_id.
  - rewrite be_bytes_mod, Z.add_comm, Z.mod_add, Z.mod_small by lia. done.
Qed.

(** ** The readers compute the positional value *)

Lemma fold_left_seq_shift {A} (f : A -> nat -> A) n k a :
  fold_left f (seq (S k) n) a = fold_left (fun x i => f x (S i)) (seq k n) a.
Proof. revert k a. induction n as [|n IH]; intros k a; cbn; auto. Qed.

Lemma fold_left_ext_in {A B} (f g : A -> B -> A) l a :
  (forall x i, In i l -> f x i = g x i) -> fold_left f l a = fold_left g l a.
Proof.
  revert a. induction l as [|i l IH]; intros a H; cbn [fold_left]; [done|].
  rewrite H by (by left). apply IH. intros. apply H. by right.
Qed.

Section readers.
Context (w : Z).

Lemma fold_be_lor B data v :
  is_bytes data -> length data = B -> 8 * Z.of_nat B <= w ->
  fold_left
    (fun val i => Z.lor val
       (uw w (Z.shiftl (uw w (data !!! i)) ((Z.of_nat B - 1 - Z.of_nat i) * 8))))
    (seq 0 B) (v * 2 ^ (8 * Z.of_nat B)) =
  v * 2 ^ (8 * Z.of_nat B) + be_value data.
Proof.
  revert data v. induction B as [|n IH]; intros data v Hd Hlen Hw.
  - destruct data; [|done]. cbn. lia.
  - destruct data as [|b data]; [done|]. injection Hlen as Hlen.
    apply Forall_cons_iff in Hd as [Hb Hd]. unfold is_u8 in Hb.
    cbn [seq fold_left]. rewrite fold_left_seq_shift.
    rewrite (fold_left_ext_in _ (fun val i => Z.lor val (uw w (Z.shiftl
      (uw w (data !!! i)) ((Z.of_nat n - 1 - Z.of_nat i) * 8))))).
    2: { intros x i _. cbn [lookup_total list_lookup_total]. do 3 f_equal. lia. }
    assert (Hwb : uw w b = b).
    { apply Z.mod_small. split; [lia|]. apply Z.lt_le_trans with (2 ^ 8); [lia|].
      apply Z.pow_le_mono_r; lia. }
    change ((b :: data) !!! 0%nat) with b. rewrite Hwb.
    replace ((Z.of_nat (S n) - 1 - Z.of_nat 0) * 8) with (8 * Z.of_nat n) by lia.
    replace (8 * Z.of_nat (S n)) with (8 + 8 * Z.of_nat n) in * by lia.
    assert (Hs : uw w (Z.shiftl b (8 * Z.of_nat n)) = Z.shiftl b (8 * Z.of_nat n)).
    { apply Z.mod_small. rewrite Z.shiftl_mul_pow2 by lia.
      pose proof (Z.pow_pos_nonneg 2 (8 * Z.of_nat n)).
      split; [nia|]. apply Z.lt_le_trans with (2 ^ (8 + 8 * Z.of_nat n)).
      - rewrite Z.pow_add_r by lia. nia.
      - apply Z.pow_le_mono_r; lia. }
    rewrite Hs, Z.pow_add_r by lia.
    rewrite (Z.mul_assoc v), <- Z.shiftl_mul_pow2, <- Z.shiftl_lor by lia.
    rewrite lor_shift_add, Z.shiftl_mul_pow2 by lia.
    rewrite IH by (done || lia). rewrite be_value_cons, Hlen, pow256. rewrite Z.shiftl_mul_pow2 by lia. lia.
Qed.

Lemma InternalReadBigEndian_spec B data :
  is_bytes data -> length data = B -> 8 * Z.of_nat B <= w ->
  ByteReader.InternalReadBigEndian w B data = be_value data.
Proof. intros. by apply (fold_be_lor B data 0). Qed.

Lemma fold_le_lor B data k v :
  is_bytes data -> length data = B -> 8 * (Z.of_nat k + Z.of_nat B) <= w ->
  0 <= v < 2 ^ (8 * Z.of_nat k) ->
  fold_left
    (fun val i => Z.lor val
       (uw w (Z.shiftl (uw w (data !!! i)) (Z.of_nat (k + i) * 8))))
    (seq 0 B) v =
  v + le_value data * 2 ^ (8 * Z.of_nat k).
Proof.
  revert data k v. induction B as [|n IH]; intros data k v Hd Hlen Hw Hv.
  - destruct data; [|done]. cbn. lia.
  - destruct data as [|b data]; [done|]. injection Hlen as Hlen.
    apply Forall_cons_iff in Hd as [Hb Hd]. unfold is_u8 in Hb.
    cbn [seq fold_left]. rewrite fold_left_seq_shift.
    rewrite (fold_left_ext_in _ (fun val i => Z.lor val (uw w (Z.shiftl
      (uw w (data !!! i)) (Z.of_nat (S k + i) * 8))))).
    2: { intros x i _. cbn [lookup_total list_lookup_total]. do 3 f_equal. lia. }
    assert (Hwb : uw w b = b).
    { apply Z.mod_small. split; [lia|]. apply Z.lt_le_trans with (2 ^ 8); [lia|].
      apply Z.pow_le_mono_r; lia. }
    change ((b :: data) !!! 0%nat) with b. rewrite Hwb.
    replace (Z.of_nat (k + 0) * 8) with (8 * Z.of_nat k) by lia.
    pose proof (Z.pow_pos_nonneg 2 (8 * Z.of_nat k)) as HP.
    assert (Hs : uw w (Z.shiftl b (8 * Z.of_nat k)) = Z.shiftl b (8 * Z.of_nat k)).
    { apply Z.mod_small. rewrite Z.shiftl_mul_pow2 by lia. split; [nia|].
      apply Z.lt_le_trans with (2 ^ (8 + 8 * Z.of_nat k)).
      - rewrite Z.pow_add_r by lia. nia.
      - apply Z.pow_le_mono_r; lia. }
    rewrite Hs, lor_add_shiftl by lia.
    replace (8 * Z.of_nat (S k)) with (8 + 8 * Z.of_nat k) in * by lia.
    rewrite IH; [|done|done|lia|].
    + replace (8 * Z.of_nat (S k)) with (8 + 8 * Z.of_nat k) by lia.
      rewrite Z.pow_add_r by lia. cbn [le_value]. lia.
    + replace (8 * Z.of_nat (S k)) with (8 + 8 * Z.of_nat k) by lia.
      rewrite Z.pow_add_r by lia. nia.
Qed.

Lemma InternalReadLittleEndian_spec B data :
  is_bytes data -> length data = B -> 8 * Z.of_nat B <= w ->
  ByteReader.InternalReadLittleEndian w B data = le_value data.
Proof.
  intros Hd Hlen Hw. unfold ByteReader.InternalReadLittleEndian.
  pose proof (fold_le_lor B data 0 0 Hd Hlen) as H. cbn [Nat.add] in H.
  rewrite H; cbn; lia.
Qed.

End readers.

(** Constant shifts and masks as arithmetic. *)
Ltac shift_arith :=
  rewrite ?Z.shiftl_mul_pow2, ?Z.shiftr_div_pow2 by done.

Lemma uw_small w x n : 0 <= x < 2 ^ n -> n <= w -> uw w x = x.
Proof.
  intros Hx Hn. apply Z.mod_small. split; [lia|].
  apply Z.lt_le_trans with (2 ^ n); [lia|].
  apply Z.pow_le_mono_r; lia.
Qed.

Lemma lor_be_step n a b : 0 <= n -> 0 <= b < 256 ->
  Z.lor (Z.shiftl a (n + 8)) (Z.shiftl b n) = Z.shiftl (a * 256 + b) n.
Proof.
  intros Hn Hb. replace (n + 8) with (8 + n) by lia.
  rewrite <- Z.shiftl_shiftl, <- Z.shiftl_lor by lia.
  by rewrite lor_shiftl_add.
Qed.

(** A chain of shifted octets, most significant first, is their value. *)
Ltac chain :=
  repeat match goal with
    | |- context [Z.lor (Z.shiftl ?a ?m) (Z.shiftl ?b ?n)] =>
        let e := eval vm_compute in (m =? n + 8) in
        match e with true => idtac end;
        change (Z.shiftl a m) with (Z.shiftl a (n + 8));
        rewrite (lor_be_step n a b) by lia
    end.

Ltac open_octets :=
  unfold is_bytes in *;
  repeat match goal with H : Forall is_u8 (_ :: _) |- _ =>
    apply Forall_cons_iff in H as [? H] end;
  unfold is_u8, ByteReader.Get in *; cbn [lookup_total list_lookup_total].

Ltac value_lia := cbv [be_value fold_left le_value]; lia.

Ltac octets w :=
  repeat match goal with
    | H : 0 <= ?a < 256 |- context [uw w ?a] => rewrite (uw_small w a 8) by lia
    end.

Section specializations.
Context (w : Z).

Lemma ReadBigEndian1_spec a : is_bytes [a] -> 8 <= w ->
  ByteReader.ReadBigEndian1 w [a] = be_value [a].
Proof.
  intros. unfold ByteReader.ReadBigEndian1. open_octets.
  rewrite (uw_small _ _ 8); value_lia.
Qed.

Lemma ReadBigEndian2_spec a b : is_bytes [a; b] -> 16 <= w ->
  ByteReader.ReadBigEndian2 w [a; b] = be_value [a; b].
Proof.
  intros. unfold ByteReader.ReadBigEndian2. open_octets.
  rewrite lor_shiftl_add, (uw_small _ _ 16); value_lia.
Qed.

Lemma ReadBigEndian4_spec a b c d : is_bytes [a; b; c; d] -> 32 <= w ->
  ByteReader.ReadBigEndian4 w [a; b; c; d] = be_value [a; b; c; d].
Proof.
  intros. unfold ByteReader.ReadBigEndian4. open_octets.
  octets w. chain.
  rewrite lor_shiftl_add, (uw_small _ _ 32); value_lia.
Qed.

Lemma ReadBigEndian8_spec a b c d e f g h :
  is_bytes [a; b; c; d; e; f; g; h] -> 64 <= w ->
  ByteReader.ReadBigEndian8 w [a; b; c; d; e; f; g; h] =
  be_value [a; b; c; d; e; f; g; h].
Proof.
  intros. unfold ByteReader.ReadBigEndian8. open_octets.
  octets w. chain.
  rewrite lor_shiftl_add, (uw_small _ _ 64); value_lia.
Qed.

Lemma ReadLittleEndian1_spec a : is_bytes [a] -> 8 <= w ->
  ByteReader.ReadLittleEndian1 w [a] = le_value [a].
Proof.
  intros. unfold ByteReader.ReadLittleEndian1. open_octets.
  rewrite (uw_small _ _ 8); value_lia.
Qed.

Lemma ReadLittleEndian2_spec a b : is_bytes [a; b] -> 16 <= w ->
  ByteReader.ReadLittleEndian2 w [a; b] = le_value [a; b].
Proof.
  intros. unfold ByteReader.ReadLittleEndian2. open_octets.
  rewrite lor_add_shiftl, (uw_small _ _ 16); value_lia.
Qed.

(** Least significant first: each octet lands above what is read so far. *)
Local Ltac up :=
  repeat match goal with
    | |- context [Z.lor ?x (Z.shiftl ?b ?n)] =>
        rewrite (lor_add_shiftl n b x) by value_lia
    end.

Lemma ReadLittleEndian4_spec a b c d : is_bytes [a; b; c; d] -> 32 <= w ->
  ByteReader.ReadLittleEndian4 w [a; b; c; d] = le_value [a; b; c; d].
Proof.
  intros. unfold ByteReader.ReadLittleEndian4. open_octets.
  octets w. up.
  rewrite (uw_small _ _ 32); value_lia.
Qed.

Lemma ReadLittleEndian8_spec a b c d e f g h :
  is_bytes [a; b; c; d; e; f; g; h] -> 64 <= w ->
  ByteReader.ReadLittleEndian8 w [a; b; c; d; e; f; g; h] =
  le_value [a; b; c; d; e; f; g; h].
Proof.
  intros. unfold ByteReader.ReadLittleEndian8. open_octets.
  octets w. up.
  rewrite (uw_small _ _ 64); value_lia.
Qed.

End specializations.

(** The instance the compiler selects, specialized or not, computes the
    positional value. *)
Lemma ReadBigEndian_spec w data :
  is_bytes data -> 8 * zlen data <= w ->
  ByteReader.ReadBigEndian w (length data) data = be_value data.
Proof.
  intros Hd Hw. pose proof (InternalReadBigEndian_spec w _ data Hd eq_refl Hw) as HI.
  destruct data as [|a [|b [|c [|d [|e [|f [|g [|h [|i data]]]]]]]]]; cbn [length] in *;
    try exact HI; unfold ByteReader.ReadBigEndian.
  - by apply ReadBigEndian1_spec.
  - by apply ReadBigEndian2_spec.
  - by apply ReadBigEndian4_spec.
  - by apply ReadBigEndian8_spec.
Qed.

Lemma ReadLittleEndian_spec w data :
  is_bytes data -> 8 * zlen data <= w ->
  ByteReader.ReadLittleEndian w (length data) data = le_value data.
Proof.
  intros Hd Hw. pose proof (InternalReadLittleEndian_spec w _ data Hd eq_refl Hw) as HI.
  destruct data as [|a [|b [|c [|d [|e [|f [|g [|h [|i data]]]]]]]]]; cbn [length] in *;
    try exact HI; unfold ByteReader.ReadLittleEndian.
  - by apply ReadLittleEndian1_spec.
  - by apply ReadLittleEndian2_spec.
  - by apply ReadLittleEndian4_spec.
  - by apply ReadLittleEndian8_spec.
Qed.

(** ** The writers store positional notation *)

Lemma u8_shiftr v k : 0 <= k -> u8 (Z.shiftr v k) = (v / 2 ^ k) mod 256.
Proof. intros. unfold u8. by rewrite Z.shiftr_div_pow2. Qed.

Lemma WriteBigEndianLoop_spec B v : ByteWriter.WriteBigEndianLoop B v = be_bytes B v.
Proof.
  unfold ByteWriter.WriteBigEndianLoop.
  induction B as [|n IH]; [done|]. cbn [seq map be_bytes]. f_equal.
  - rewrite u8_shiftr by lia. rewrite pow256. do 3 f_equal. lia.
  - rewrite <- IH, <- seq_shift, map_map. apply map_ext. intros i.
    do 3 f_equal. lia.
Qed.

Lemma WriteLittleEndianLoop_spec B v :
  ByteWriter.WriteLittleEndianLoop B v = le_bytes B v.
Proof.
  unfold ByteWriter.WriteLittleEndianLoop. revert v.
  induction B as [|n IH]; intros v; [done|]. cbn [seq map le_bytes]. f_equal.
  rewrite <- IH, <- seq_shift, map_map. apply map_ext. intros i.
  rewrite !u8_shiftr by lia.
  replace (Z.of_nat (S i) * 8) with (8 + Z.of_nat i * 8) by lia.
  rewrite Z.pow_add_r, <- Z.div_div by (try apply Z.pow_pos_nonneg; lia). done.
Qed.

Lemma WriteBigEndian_spec B v : ByteWriter.WriteBigEndian B v = be_bytes B v.
Proof.
  rewrite <- WriteBigEndianLoop_spec.
  do 9 (destruct B as [|B]; [cbv -[u8 Z.shiftr]; by rewrite ?Z.shiftr_0_r|]).
  done.
Qed.

Lemma WriteLittleEndian_spec B v : ByteWriter.WriteLittleEndian B v = le_bytes B v.
Proof.
  rewrite <- WriteLittleEndianLoop_spec.
  do 9 (destruct B as [|B]; [cbv -[u8 Z.shiftr]; by rewrite ?Z.shiftr_0_r|]).
  done.
Qed.

(** ** Signed integers *)

Section signed.
Context (w : Z) (B : nat).
Hypothesis (HB : (0 < B)%nat) (Hw : 8 * Z.of_nat B <= w) (Hw8 : w mod 8 = 0).

Lemma ReinterpretAsSigned_spec u : 0 <= u < 2 ^ w ->
  ByteReader.ReinterpretAsSigned w u = sw w u.
Proof.
  intros Hu. unfold ByteReader.ReinterpretAsSigned, sw.
  replace w with (w - 1 + 1) in Hu by lia.
  rewrite Z.shiftl_1_l, land_top by lia.
  replace (w - 1 + 1) with w in Hu by lia.
  rewrite (Z.mod_small u) by done.
  destruct (Z.ltb_spec u (2 ^ (w - 1))); cbn [negb]; [done|].
  rewrite clear_top by (replace (w - 1 + 1) with w by lia; lia).
  assert (H2 : 2 ^ w = 2 * 2 ^ (w - 1)).
  { rewrite <- Z.pow_succ_r by lia. f_equal. lia. }
  rewrite Z.lor_comm.
  replace (- 2 ^ (w - 1)) with (-1 * 2 ^ (w - 1)) by lia.
  rewrite lor_shift_add by lia. lia.
Qed.

Lemma SignExtend_spec u : 0 <= u < 2 ^ (8 * Z.of_nat B) ->
  Z.of_nat B < w / 8 ->
  ByteReader.SignExtend w B u = sw (8 * Z.of_nat B) u mod 2 ^ w.
Proof.
  intros Hu Hlt. unfold ByteReader.SignExtend, sw.
  set (k := (Z.of_nat B - 1) * 8) in *.
  replace (8 * Z.of_nat B) with (k + 8) in * by lia.
  assert (Hpow : 2 ^ (k + 8) = 2 ^ k * 256) by (rewrite Z.pow_add_r by lia; done).
  assert (Hpow' : 2 ^ (k + 8 - 1) = 2 ^ k * 128).
  { replace (k + 8 - 1) with (k + 7) by lia. rewrite Z.pow_add_r by lia. done. }
  pose proof (Z.pow_pos_nonneg 2 k ltac:(lia) ltac:(lia)) as Hk.
  assert (Hle : 2 ^ (k + 8) <= 2 ^ w) by (apply Z.pow_le_mono_r; dlia).
  rewrite Z.shiftr_div_pow2 by lia.
  assert (Hq : 0 <= u / 2 ^ k < 256).
  { split; [apply Z.div_pos; lia|]. apply Z.div_lt_upper_bound; lia. }
  rewrite u8_id by done. change 128 with (2 ^ 7).
  rewrite land_top by done. rewrite (Z.mod_small u (2 ^ (k + 8))) by lia.
  assert (Hiff : (u / 2 ^ k <? 2 ^ 7) = (u <? 2 ^ (k + 8 - 1))).
  { rewrite Hpow'. apply eq_bool_prop_intro.
    rewrite !Is_true_true, !Z.ltb_lt. split; intros.
    - pose proof (Z.div_mod u (2 ^ k)). pose proof (Z.mod_pos_bound u (2 ^ k)). nia.
    - apply Z.div_lt_upper_bound; lia. }
  rewrite Hiff. destruct (Z.ltb_spec u (2 ^ (k + 8 - 1))); cbn [negb].
  - symmetry. apply Z.mod_small. lia.
  - rewrite (Z.mod_small (Z.of_nat B)) by lia.
    replace (Z.of_nat B * 8) with (k + 8) by lia.
    rewrite Z.shiftl_1_l.
    replace (Z.lnot (2 ^ (k + 8) - 1)) with (-1 * 2 ^ (k + 8))
      by (unfold Z.lnot; lia).
    rewrite lor_shift_add by lia. unfold uw. f_equal. lia.
Qed.

(** The signed readers compute the two's complement value of the octets. *)
Lemma signed_read_spec u : 0 <= u < 2 ^ (8 * Z.of_nat B) ->
  ByteReader.ReinterpretAsSigned w
    (if Z.of_nat B <? w / 8 then ByteReader.SignExtend w B u else u) =
  sw (8 * Z.of_nat B) u.
Proof.
  intros Hu. assert (Hle : 2 ^ (8 * Z.of_nat B) <= 2 ^ w) by (apply Z.pow_le_mono_r; lia).
  destruct (Z.ltb_spec (Z.of_nat B) (w / 8)) as [Hlt|Hge].
  - rewrite SignExtend_spec by done. rewrite ReinterpretAsSigned_spec
      by (apply Z.mod_pos_bound, Z.pow_pos_nonneg; lia).
    unfold sw at 1. rewrite Z.mod_mod by (apply Z.pow_nonzero; lia).
    unfold sw. rewrite (Z.mod_small u) by done.
    assert (Hlt' : 8 * Z.of_nat B <= w - 1) by dlia.
    assert (2 ^ (8 * Z.of_nat B) <= 2 ^ (w - 1)) by (apply Z.pow_le_mono_r; lia).
    assert (H2 : 2 ^ w = 2 * 2 ^ (w - 1)).
    { rewrite <- Z.pow_succ_r by lia. f_equal. lia. }
    assert (H3 : 2 ^ (8 * Z.of_nat B) = 2 * 2 ^ (8 * Z.of_nat B - 1)).
    { rewrite <- Z.pow_succ_r by lia. f_equal. lia. }
    destruct (Z.ltb_spec u (2 ^ (8 * Z.of_nat B - 1))).
    + rewrite (Z.mod_small u) by lia. by destruct (Z.ltb_spec u (2 ^ (w - 1))); [|lia].
    + replace (u - 2 ^ (8 * Z.of_nat B))
        with (u - 2 ^ (8 * Z.of_nat B) + 2 ^ w + -1 * 2 ^ w) by lia.
      rewrite Z.mod_add, Z.mod_small by lia.
      destruct (Z.ltb_spec (u - 2 ^ (8 * Z.of_nat B) + 2 ^ w) (2 ^ (w - 1))); lia.
  - assert (Hww : w = 8 * Z.of_nat B) by dlia.
    rewrite ReinterpretAsSigned_spec by (by rewrite Hww). by f_equal.
Qed.

End signed.

(** ** Round trips *)

Lemma sw_mod w v : 0 < w -> - 2 ^ (w - 1) <= v < 2 ^ (w - 1) -> sw w (v mod 2 ^ w) = v.
Proof.
  intros Hw Hv. unfold sw. rewrite Z.mod_mod by (apply Z.pow_nonzero; lia).
  assert (H2 : 2 ^ w = 2 * 2 ^ (w - 1)).
  { rewrite <- Z.pow_succ_r by lia. f_equal. lia. }
  destruct (Z.lt_ge_cases v 0).
  - assert (v mod 2 ^ w = v + 2 ^ w) as ->
      by (symmetry; apply (Z.mod_unique_pos _ _ (-1)); lia).
    destruct (Z.ltb_spec (v + 2 ^ w) (2 ^ (w - 1))); lia.
  - rewrite Z.mod_small by lia. destruct (Z.ltb_spec v (2 ^ (w - 1))); lia.
Qed.

Lemma sw_range w v : 0 < w -> - 2 ^ (w - 1) <= sw w v < 2 ^ (w - 1).
Proof.
  intros Hw. unfold sw.
  assert (H2 : 2 ^ w = 2 * 2 ^ (w - 1)).
  { rewrite <- Z.pow_succ_r by lia. f_equal. lia. }
  pose proof (Z.pow_pos_nonneg 2 w).
  pose proof (Z.mod_pos_bound v (2 ^ w)).
  destruct (Z.ltb_spec (v mod 2 ^ w) (2 ^ (w - 1))); lia.
Qed.

Lemma mod_pow_le v m n : 0 <= m <= n -> (v mod 2 ^ n) mod 2 ^ m = v mod 2 ^ m.
Proof.
  intros H. replace n with (m + (n - m)) by lia. rewrite Z.pow_add_r by lia.
  rewrite Z.rem_mul_r by (try apply Z.pow_nonzero; try apply Z.pow_pos_nonneg; lia).
  rewrite (Z.mul_comm (2 ^ m)), Z.mod_add by (apply Z.pow_nonzero; lia).
  by rewrite Z.mod_mod by (apply Z.pow_nonzero; lia).
Qed.

Section roundtrip.
Context (w : Z) (B : nat).
Hypothesis (HB : (0 < B)%nat) (Hw : 8 * Z.of_nat B <= w) (Hw8 : w mod 8 = 0).

Lemma read_write_be v :
  ByteReader.ReadBigEndian w B (ByteWriter.WriteBigEndian B v) =
  v mod 2 ^ (8 * Z.of_nat B).
Proof.
  rewrite WriteBigEndian_spec.
  rewrite <- (length_be_bytes B v) at 1.
  rewrite ReadBigEndian_spec, be_value_be_bytes, pow256; [done|..].
  - apply be_bytes_is_bytes.
  - by rewrite length_be_bytes.
Qed.

Lemma read_write_le v :
  ByteReader.ReadLittleEndian w B (ByteWriter.WriteLittleEndian B v) =
  v mod 2 ^ (8 * Z.of_nat B).
Proof.
  rewrite WriteLittleEndian_spec.
  rewrite <- (length_le_bytes B v) at 1.
  rewrite ReadLittleEndian_spec, le_value_le_bytes, pow256; [done|..].
  - apply le_bytes_is_bytes.
  - by rewrite length_le_bytes.
Qed.

Lemma read_write_signed v :
  - 2 ^ (8 * Z.of_nat B - 1) <= v < 2 ^ (8 * Z.of_nat B - 1) ->
  ByteReader.ReadBigEndianSigned w B (ByteWriter.WriteBigEndianSigned w B v) = v /\
  ByteReader.ReadLittleEndianSigned w B (ByteWriter.WriteLittleEndianSigned w B v) = v.
Proof.
  intros Hv. unfold ByteReader.ReadBigEndianSigned, ByteReader.ReadLittleEndianSigned,
    ByteWriter.WriteBigEndianSigned, ByteWriter.WriteLittleEndianSigned,
    ByteWriter.ReinterpretAsUnsigned, uw.
  rewrite read_write_be, read_write_le, !mod_pow_le by lia. cbv zeta.
  rewrite !signed_read_spec by (done || apply Z.mod_pos_bound, Z.pow_pos_nonneg; lia).
  rewrite sw_mod by (done || lia). done.
Qed.

End roundtrip.

(** For every integer type of [w] bits and every number of octets [B]
    that fits it (the specialized sizes 1, 2, 4, 8 and the generic ones such
    as 3), reading back what ByteWriter stored yields the value: modulo 2^(8B)
    for unsigned types and exactly, sign extended, for every signed value of 8B
    bits, in both byte orders. *)
Theorem byte_io_roundtrip (w : Z) (B : nat) (v : Z) :
  (0 < B)%nat -> 8 * Z.of_nat B <= w -> w mod 8 = 0 ->
  ByteReader.ReadBigEndian w B (ByteWriter.WriteBigEndian B v) =
    v mod 2 ^ (8 * Z.of_nat B) /\
  ByteReader.ReadLittleEndian w B (ByteWriter.WriteLittleEndian B v) =
    v mod 2 ^ (8 * Z.of_nat B) /\
  (- 2 ^ (8 * Z.of_nat B - 1) <= v < 2 ^ (8 * Z.of_nat B - 1) ->
   ByteReader.ReadBigEndianSigned w B (ByteWriter.WriteBigEndianSigned w B v) = v /\
  ByteReader.ReadLittleEndianSigned w B (ByteWriter.WriteLittleEndianSigned w B v) = v).
Proof.
  intros HB Hw Hw8. split; [by apply read_write_be|].
  split; [by apply read_write_le|]. by apply read_write_signed.
Qed.

Lemma byte_io_roundtrip_witness :
  ByteReader.ReadBigEndianSigned 32 3 (ByteWriter.WriteBigEndianSigned 32 3 (-5)) = -5.
Proof.
  apply (byte_io_roundtrip 32 3 (-5)); [lia|lia|reflexivity|cbn; lia].
Defined.
