(* ===== verification/Buffers.v ===== *)
(** * Reading and writing packet buffers

    The pointers of the packet code: a read through a pointer is a lookup in
    the octets from that pointer to the end of its buffer and fails outside it;
    a Create function works on a fixed buffer, a write index and the packets
    handed to the PacketReadyCallback so far.  [None] stands for undefined
    behaviour (an access outside the buffer) or a failed assertion, so a
    theorem that a run is [Some] states memory safety. *)

From S2P Require Import Prelude ByteIo.

(** ** Reads *)

(** The [n] octets at [p + off]. *)
Definition load (p : bytes) (off : Z) (n : nat) : option bytes :=
  if (0 <=? off) && (off + Z.of_nat n <=? zlen p)
  then Some (take n (drop (Z.to_nat off) p)) else None.

(** [p[off]]. *)
Definition peek (p : bytes) (off : Z) : option Z :=
  if 0 <=? off then p !! Z.to_nat off else None.

Definition read_be (w : Z) (B : nat) (p : bytes) (off : Z) : option Z :=
  ByteReader.ReadBigEndian w B <$> load p off B.

Abbreviation read_u8 := (read_be 8 1).
Abbreviation read_u16 := (read_be 16 2).
Abbreviation read_u24 := (read_be 32 3).
Abbreviation read_u32 := (read_be 32 4).

Definition read_be_signed (w : Z) (B : nat) (p : bytes) (off : Z) : option Z :=
  ByteReader.ReadBigEndianSigned w B <$> load p off B.

(** std::vector::resize. *)
Definition vec_resize {A} (n : nat) (d : A) (l : list A) : list A :=
  take n l ++ replicate (n - length l) d.

(** A loop that reads one item per element of [olds] (the resized vector),
    advancing the pointer by [stride]. *)
Fixpoint read_items {A} (f : A -> bytes -> Z -> option A) (stride : Z)
    (olds : list A) (p : bytes) (off : Z) : option (list A) :=
  match olds with
  | [] => Some []
  | old :: olds' =>
      x ← f old p off;
      xs ← read_items f stride olds' p (off + stride);
      Some (x :: xs)
  end.

(** ** Writes *)

(** [memcpy (buf + off, bs, len bs)]. *)
Definition put (buf : bytes) (off : Z) (bs : bytes) : option bytes :=
  if (0 <=? off) && (off + zlen bs <=? zlen buf)
  then Some (take (Z.to_nat off) buf ++ bs ++ drop (Z.to_nat off + length bs) buf)
  else None.

Record wstate := WState {
  wbuf : bytes;            (* uint8_t* packet *)
  windex : Z;              (* size_t* index *)
  wsent : list bytes       (* packets given to the callback *)
}.

Definition W (A : Type) : Type := wstate -> option (A * wstate).

#[global] Instance W_ret : MRet W := fun A x st => Some (x, st).

#[global] Instance W_bind : MBind W := fun A B f m st =>
  match m st with Some (a, st') => f a st' | None => None end.

#[global] Instance W_fmap : FMap W := fun A B f m st =>
  match m st with Some (a, st') => Some (f a, st') | None => None end.

Definition get_index : W Z := fun st => Some (windex st, st).

Definition wcheck (b : bool) : W unit := fun st => if b then Some (tt, st) else None.

(** [*index += n]. *)
Definition add_index (n : Z) : W unit :=
  fun st => Some (tt, WState (wbuf st) (windex st + n) (wsent st)).

(** A store at [packet + *index + k]. *)
Definition write_at (k : Z) (bs : bytes) : W unit := fun st =>
  match put (wbuf st) (windex st + k) bs with
  | Some b => Some (tt, WState b (windex st) (wsent st))
  | None => None
  end.

(** [packet[( *index)++] = b]. *)
Definition push (b : Z) : W unit := write_at 0 [u8 b] ;; add_index 1.

Abbreviation write_u8 k v := (write_at k (ByteWriter.WriteBigEndian 1 v)).
Abbreviation write_u16 k v := (write_at k (ByteWriter.WriteBigEndian 2 v)).
Abbreviation write_u24 k v := (write_at k (ByteWriter.WriteBigEndian 3 v)).
Abbreviation write_u32 k v := (write_at k (ByteWriter.WriteBigEndian 4 v)).

Fixpoint for_each {X} (f : X -> W unit) (l : list X) : W unit :=
  match l with [] => mret tt | x :: l' => f x ;; for_each f l' end.

(** The final comparison of the index with its predicted value. *)
Definition check_index (index_end : Z) : W unit :=
  i ← get_index; wcheck (i =? index_end).

Lemma bind_run {A B} (m : W A) (f : A -> W B) st :
  (m ≫= f) st = match m st with Some (a, st') => f a st' | None => None end.
Proof. done. Qed.

(** ** Facts about reads *)

Lemma load_Some p off n :
  0 <= off -> off + Z.of_nat n <= zlen p ->
  load p off n = Some (take n (drop (Z.to_nat off) p)).
Proof.
  intros. unfold load.
  destruct (Z.leb_spec 0 off); [|lia].
  by destruct (Z.leb_spec (off + Z.of_nat n) (zlen p)); [|lia].
Qed.

Lemma load_app_skip a q off n :
  zlen a <= off -> load (a ++ q) off n = load q (off - zlen a) n.
Proof.
  intros Ha. unfold load. rewrite length_app, Nat2Z.inj_add.
  replace (0 <=? off) with (0 <=? off - zlen a) by
    (destruct (Z.leb_spec 0 (off - zlen a)), (Z.leb_spec 0 off); lia).
  replace (off + Z.of_nat n <=? zlen a + zlen q)
    with (off - zlen a + Z.of_nat n <=? zlen q) by
    (destruct (Z.leb_spec (off - zlen a + Z.of_nat n) (zlen q)),
       (Z.leb_spec (off + Z.of_nat n) (zlen a + zlen q)); lia).
  destruct (_ && _); [|done]. f_equal. f_equal.
  rewrite drop_app_ge by lia. f_equal. lia.
Qed.

Lemma load_app_here a q n : length a = n -> load (a ++ q) 0 n = Some a.
Proof.
  intros <-. rewrite load_Some by (rewrite ?length_app; lia).
  by rewrite Z2Nat.inj_0, drop_0, take_app_length.
Qed.

Lemma peek_Some p off : 0 <= off < zlen p -> is_Some (peek p off).
Proof.
  intros. unfold peek. destruct (Z.leb_spec 0 off); [|lia].
  apply lookup_lt_is_Some. lia.
Qed.

Lemma peek_app_skip a q off :
  zlen a <= off -> peek (a ++ q) off = peek q (off - zlen a).
Proof.
  intros. unfold peek.
  destruct (Z.leb_spec 0 off), (Z.leb_spec 0 (off - zlen a)); try lia.
  rewrite lookup_app_r by lia. f_equal. lia.
Qed.

(** Offsets relative to a prefix. *)
Lemma peek_app_at a q k : 0 <= k -> peek (a ++ q) (zlen a + k) = peek q k.
Proof. intros. rewrite peek_app_skip by lia. f_equal. lia. Qed.

Lemma load_app_at a q k n : 0 <= k -> load (a ++ q) (zlen a + k) n = load q k n.
Proof. intros. rewrite load_app_skip by lia. f_equal. lia. Qed.

Lemma read_be_app_at w B a q k : 0 <= k -> read_be w B (a ++ q) (zlen a + k) = read_be w B q k.
Proof. intros. unfold read_be. by rewrite load_app_at. Qed.

Lemma read_be_app_at0 w B a q : read_be w B (a ++ q) (zlen a) = read_be w B q 0.
Proof. rewrite <- (read_be_app_at w B a q 0) by done. f_equal. lia. Qed.

Lemma peek_app_l a q off : off < zlen a -> peek (a ++ q) off = peek a off.
Proof.
  intros. unfold peek. destruct (Z.leb_spec 0 off); [|done].
  by rewrite lookup_app_l by lia.
Qed.

Lemma peek_app_here b q : peek (b :: q) 0 = Some b.
Proof. done. Qed.

Lemma load_is_bytes p off n l : is_bytes p -> load p off n = Some l -> is_bytes l /\ length l = n.
Proof.
  intros Hp. unfold load. destruct (Z.leb_spec 0 off); [|done].
  destruct (Z.leb_spec (off + Z.of_nat n) (zlen p)); [|done]. cbn [andb]. intros [= <-].
  split; [by apply Forall_take, Forall_drop|]. rewrite length_take, length_drop. lia.
Qed.

Lemma load_length p off n l : load p off n = Some l -> length l = n.
Proof.
  unfold load. destruct (Z.leb_spec 0 off); [|done].
  destruct (Z.leb_spec (off + Z.of_nat n) (zlen p)); [|done]. cbn [andb]. intros [= <-].
  rewrite length_take, length_drop. lia.
Qed.

Lemma load_app_l a q off n : 0 <= off -> off + Z.of_nat n <= zlen a -> load (a ++ q) off n = load a off n.
Proof.
  intros Ho Hl. rewrite !load_Some by (rewrite ?length_app; lia).
  rewrite drop_app_le, take_app_le by (rewrite ?length_drop; lia). done.
Qed.

Lemma peek_is_u8 p off b : is_bytes p -> peek p off = Some b -> is_u8 b.
Proof.
  intros Hp. unfold peek. destruct (0 <=? off); [|done].
  intros H. by eapply (Forall_lookup_1 is_u8 p).
Qed.

Section read.
Context (w : Z) (B : nat).

Lemma read_be_app_skip a q off :
  zlen a <= off -> read_be w B (a ++ q) off = read_be w B q (off - zlen a).
Proof. intros. unfold read_be. by rewrite load_app_skip. Qed.

Lemma read_be_app_here v q :
  8 * Z.of_nat B <= w -> 0 <= v < 256 ^ Z.of_nat B ->
  read_be w B (be_bytes B v ++ q) 0 = Some v.
Proof.
  intros Hw Hv. unfold read_be. rewrite load_app_here by apply length_be_bytes.
  cbn. f_equal. rewrite <- (length_be_bytes B v) at 1.
  rewrite ReadBigEndian_spec by (rewrite ?length_be_bytes; try done; apply be_bytes_is_bytes).
  rewrite be_value_be_bytes. by apply Z.mod_small.
Qed.

Lemma read_be_Some p off :
  is_bytes p -> 8 * Z.of_nat B <= w -> 0 <= off -> off + Z.of_nat B <= zlen p ->
  exists v, read_be w B p off = Some v /\ 0 <= v < 256 ^ Z.of_nat B.
Proof.
  intros Hp Hw Hoff Hlen. unfold read_be. rewrite load_Some by done. cbn.
  eexists; split; [done|].
  set (l := take B (drop (Z.to_nat off) p)).
  assert (Hl : length l = B) by (unfold l; rewrite length_take, length_drop; lia).
  assert (Hb : is_bytes l) by (by apply Forall_take, Forall_drop).
  assert (E : ByteReader.ReadBigEndian w B l = be_value l).
  { rewrite <- Hl at 1. apply ReadBigEndian_spec; [done|by rewrite Hl]. }
  rewrite E, <- Hl. by apply be_value_range.
Qed.

Lemma read_be_signed_app_skip a q off :
  zlen a <= off -> read_be_signed w B (a ++ q) off = read_be_signed w B q (off - zlen a).
Proof. intros. unfold read_be_signed. by rewrite load_app_skip. Qed.

Lemma read_be_signed_here v q :
  (0 < B)%nat -> 8 * Z.of_nat B <= w -> w mod 8 = 0 ->
  - 2 ^ (8 * Z.of_nat B - 1) <= v < 2 ^ (8 * Z.of_nat B - 1) ->
  read_be_signed w B (be_bytes B (uw w v) ++ q) 0 = Some v.
Proof.
  intros HB Hw Hm Hv. unfold read_be_signed. rewrite load_app_here by apply length_be_bytes.
  cbn [fmap option_fmap option_map]. f_equal.
  change (uw w v) with (ByteWriter.ReinterpretAsUnsigned w v).
  rewrite <- WriteBigEndian_spec.
  exact (proj1 (read_write_signed w B HB Hw Hm v Hv)).
Qed.

Lemma read_be_signed_Some p off :
  is_bytes p -> (0 < B)%nat -> 8 * Z.of_nat B <= w -> w mod 8 = 0 ->
  0 <= off -> off + Z.of_nat B <= zlen p ->
  exists v, read_be_signed w B p off = Some v /\
            - 2 ^ (8 * Z.of_nat B - 1) <= v < 2 ^ (8 * Z.of_nat B - 1).
Proof.
  intros Hp HB Hw Hm Ho Hl.
  destruct (read_be_Some p off) as (u & Hu & Hr); try done.
  unfold read_be, read_be_signed in *. destruct (load p off B) as [l|]; [|done].
  injection Hu as Hu. cbn. eexists. split; [done|].
  unfold ByteReader.ReadBigEndianSigned. cbv zeta. rewrite Hu.
  rewrite (signed_read_spec w B HB Hw Hm).
  - apply sw_range. lia.
  - rewrite Z.pow_mul_r by lia. exact Hr.
Qed.

End read.

Lemma read_items_app_skip {A} (f : A -> bytes -> Z -> option A) stride a q :
  (forall old off, zlen a <= off -> f old (a ++ q) off = f old q (off - zlen a)) ->
  0 <= stride ->
  forall olds off, zlen a <= off ->
  read_items f stride olds (a ++ q) off = read_items f stride olds q (off - zlen a).
Proof.
  intros Hf Hs. induction olds as [|old olds IH]; intros off Hoff; [done|].
  cbn [read_items]. rewrite Hf by done. rewrite IH by lia.
  by replace (off + stride - zlen a) with (off - zlen a + stride) by lia.
Qed.

(** Reading back a sequence of encoded items, whatever the vector held. *)
Lemma read_items_encode {A} (f : A -> bytes -> Z -> option A) (enc : A -> bytes) stride :
  (forall old a q off, zlen a <= off -> f old (a ++ q) off = f old q (off - zlen a)) ->
  forall xs olds q,
  (forall old x q', In x xs -> f old (enc x ++ q') 0 = Some x) ->
  (forall x, In x xs -> zlen (enc x) = stride) ->
  length olds = length xs ->
  read_items f stride olds (concat (map enc xs) ++ q) 0 = Some xs.
Proof.
  intros Hskip. induction xs as [|x xs IH]; intros olds q Hf Hlen Hl.
  - by destruct olds.
  - destruct olds as [|old olds]; [done|]. cbn [map concat read_items].
    rewrite <- app_assoc, Hf by (by left). cbn.
    rewrite read_items_app_skip; [|intros; by apply Hskip| |].
    + rewrite Hlen by (by left). rewrite Z.sub_diag.
      rewrite IH; [done| | |by injection Hl].
      * intros. apply Hf. by right.
      * intros. apply Hlen. by right.
    + rewrite <- (Hlen x) by (by left). lia.
    + rewrite Hlen by (by left). lia.
Qed.

Lemma read_items_is_Some {A} (f : A -> bytes -> Z -> option A) stride p lo hi :
  (forall old off, lo <= off -> off + stride <= hi -> is_Some (f old p off)) ->
  0 <= stride ->
  forall olds off, lo <= off -> off + stride * zlen olds <= hi ->
  exists l, read_items f stride olds p off = Some l /\ length l = length olds.
Proof.
  intros Hf Hs. induction olds as [|old olds IH]; intros off Hlo Hhi.
  - by exists [].
  - cbn [read_items length] in *. rewrite Nat2Z.inj_succ in Hhi.
    destruct (Hf old off) as [x ->]; [done|nia|]. cbn.
    destruct (IH (off + stride)) as (l & -> & Hl); [lia|lia|].
    exists (x :: l). cbn. by rewrite Hl.
Qed.

Lemma length_vec_resize {A} n (d : A) l : length (vec_resize n d l) = n.
Proof. unfold vec_resize. rewrite length_app, length_take, length_replicate. lia. Qed.

(** ** Facts about writes *)

Lemma put_length buf off bs b : put buf off bs = Some b -> length b = length buf.
Proof.
  unfold put. destruct (Z.leb_spec 0 off); [|done].
  destruct (Z.leb_spec (off + zlen bs) (zlen buf)); [|done]. cbn.
  intros [= <-]. rewrite !length_app, length_take, length_drop. lia.
Qed.

Lemma put_nil buf off : 0 <= off <= zlen buf -> put buf off [] = Some buf.
Proof.
  intros. unfold put. cbn [length].
  destruct (Z.leb_spec 0 off); [|lia].
  destruct (Z.leb_spec (off + Z.of_nat 0) (zlen buf)); [|lia]. cbn [andb app].
  by rewrite Nat.add_0_r, take_drop.
Qed.

Lemma put_app pre mid post bs :
  length bs = length mid ->
  put (pre ++ mid ++ post) (zlen pre) bs = Some (pre ++ bs ++ post).
Proof.
  intros Hl. unfold put. rewrite !length_app.
  destruct (Z.leb_spec 0 (zlen pre)); [|lia].
  destruct (Z.leb_spec (zlen pre + zlen bs) (Z.of_nat (length pre + (length mid + length post))));
    [|lia]. cbn. rewrite Nat2Z.id, take_app_length. f_equal. f_equal. f_equal.
  rewrite drop_app_ge by lia. rewrite drop_app_ge by lia.
  replace (length pre + length bs - length pre - length mid)%nat with 0%nat by lia.
  done.
Qed.

(** Two adjacent stores are one store of the concatenation. *)
Lemma put_put buf off x y off2 :
  off2 = off + zlen x ->
  (b ← put buf off x; put b off2 y) = put buf off (x ++ y).
Proof.
  intros ->. unfold put at 2. destruct (Z.leb_spec 0 off) as [H0|H0].
  2: { cbn. unfold put. by destruct (Z.leb_spec 0 off); [lia|]. }
  destruct (Z.leb_spec (off + zlen x) (zlen buf)) as [H1|H1]; cbn [andb mbind option_bind].
  - destruct (Z.leb_spec (off + zlen x + zlen y) (zlen buf)) as [H2|H2].
    + unfold put. rewrite !length_app, !length_take, !length_drop.
      match goal with |- (if ?a && ?b then _ else _) = if ?c && ?d then _ else _ =>
        replace a with true by (symmetry; apply Z.leb_le; lia);
        replace b with true by (symmetry; apply Z.leb_le; lia);
        replace c with true by (symmetry; apply Z.leb_le; lia);
        replace d with true by (symmetry; apply Z.leb_le; lia)
      end. cbn [andb]. f_equal.
      rewrite (app_assoc (take _ _) x).
      rewrite take_app_length' by (rewrite length_app, length_take; lia).
      rewrite <- !app_assoc. f_equal. f_equal. f_equal.
      rewrite app_assoc, drop_app_ge by (rewrite length_app, length_take; lia).
      rewrite drop_drop. f_equal. rewrite length_app, length_take. lia.
    + unfold put. rewrite !length_app, length_take, length_drop.
      destruct (Z.leb_spec 0 (off + zlen x)); [|lia].
      destruct (Z.leb_spec 0 off); [|lia]. cbn [andb].
      match goal with |- (if ?b then _ else _) = if ?d then _ else _ =>
        replace b with false by (symmetry; apply Z.leb_gt; lia);
        replace d with false by (symmetry; apply Z.leb_gt; lia) end. done.
  - unfold put. destruct (Z.leb_spec 0 off); [|lia]. rewrite length_app.
    destruct (Z.leb_spec (off + Z.of_nat (length x + length y)) (zlen buf)); [lia|done].
Qed.

(** [runs k m a bs]: run with [k] octets already stored past the index, [m]
    stores [bs] after them, advances the index past all of it and returns [a];
    it fails exactly when the octets do not fit in the buffer. *)
Definition runs {A} (k : Z) (m : W A) (a : A) (bs : bytes) : Prop :=
  forall st, 0 <= k -> 0 <= windex st -> windex st + k <= zlen (wbuf st) ->
  m st = match put (wbuf st) (windex st + k) bs with
         | Some b => Some (a, WState b (windex st + k + zlen bs) (wsent st))
         | None => None
         end.

Lemma runs_ret {A} (a : A) : runs 0 (mret a) a [].
Proof.
  intros [buf i sent] _ H0 H1. cbn in *. rewrite put_nil by lia.
  cbn. by rewrite !Z.add_0_r.
Qed.

Lemma put_Some buf off bs :
  0 <= off -> off + zlen bs <= zlen buf -> exists b, put buf off bs = Some b.
Proof.
  intros. unfold put. destruct (Z.leb_spec 0 off); [|lia].
  destruct (Z.leb_spec (off + zlen bs) (zlen buf)); [|lia]. by eexists.
Qed.

Lemma put_bound buf off bs b : put buf off bs = Some b -> 0 <= off /\ off + zlen bs <= zlen buf.
Proof.
  unfold put. destruct (Z.leb_spec 0 off); [|done].
  by destruct (Z.leb_spec (off + zlen bs) (zlen buf)).
Qed.

Lemma runs_write {A} k x n (m : W A) a y :
  n = k + zlen x -> runs n m a y -> runs k (write_at k x ;; m) a (x ++ y).
Proof.
  intros -> Hm [buf i sent] Hk Hi Hb. cbn in *.
  rewrite <- (put_put buf (i + k) x y (i + (k + zlen x))) by lia.
  unfold mbind at 1, W_bind, write_at. cbn.
  destruct (put buf (i + k) x) as [b|] eqn:E; cbn; [|done].
  pose proof (put_length _ _ _ _ E). pose proof (put_bound _ _ _ _ E).
  rewrite Hm by (cbn; lia). cbn.
  destruct (put b _ y) as [b'|]; [|done]. rewrite length_app. do 3 f_equal. lia.
Qed.

Lemma runs_add {A} k (m : W A) a y :
  runs 0 m a y -> runs k (add_index k ;; m) a y.
Proof.
  intros Hm [buf i sent] Hk Hi Hb. cbn in *. unfold mbind, W_bind, add_index.
  rewrite Hm by (cbn; lia). cbn. by rewrite !Z.add_0_r.
Qed.

Lemma runs_bind {A B} (m1 : W A) (f : A -> W B) a b x y :
  runs 0 m1 a x -> runs 0 (f a) b y -> runs 0 (m1 ≫= f) b (x ++ y).
Proof.
  intros H1 H2 [buf i sent] Hk Hi Hb. cbn in *. unfold mbind, W_bind.
  rewrite H1 by (cbn; lia). cbn.
  rewrite <- (put_put buf (i + 0) x y (i + zlen x)) by lia.
  destruct (put buf (i + 0) x) as [b'|] eqn:E; cbn; [|done].
  pose proof (put_length _ _ _ _ E). pose proof (put_bound _ _ _ _ E).
  rewrite H2 by (cbn; lia). cbn. rewrite !Z.add_0_r.
  destruct (put b' _ y) as [b''|]; [|done]. rewrite length_app. do 3 f_equal. lia.
Qed.

Lemma runs_check {A} k (c : bool) (m : W A) a y :
  c = true -> runs k m a y -> runs k (wcheck c ;; m) a y.
Proof. intros -> Hm st. apply Hm. Qed.

Lemma runs_for_each {X} (f : X -> W unit) (enc : X -> bytes) l :
  (forall x, In x l -> runs 0 (f x) tt (enc x)) ->
  runs 0 (for_each f l) tt (concat (map enc l)).
Proof.
  induction l as [|x l IH]; intros Hf; [apply runs_ret|]. cbn [for_each map concat].
  apply (runs_bind _ _ tt); [apply Hf; by left|]. apply IH. intros. apply Hf. by right.
Qed.

Lemma runs_push {A} b (m : W A) a y :
  runs 0 m a y -> runs 0 (push b ;; m) a (u8 b :: y).
Proof.
  intros Hm. apply (runs_bind (push b) (fun _ => m) tt a [u8 b] y); [|done].
  unfold push. rewrite <- (app_nil_r [u8 b]).
  apply (runs_write 0 [u8 b] 1); [done|]. intros [buf i sent] ? ? ?. cbn in *.
  unfold add_index. cbn. rewrite put_nil by lia. do 3 f_equal. lia.
Qed.

Lemma runs_write_last k x : runs k (write_at k x ;; add_index (k + zlen x)) tt x.
Proof.
  rewrite <- (app_nil_r x) at 2. eapply runs_write; [done|].
  intros [buf i sent] ? ? ?. cbn in *. unfold add_index. cbn.
  rewrite put_nil by lia. do 3 f_equal. lia.
Qed.

Lemma runs_add_last k : runs k (add_index k) tt [].
Proof.
  intros [buf i sent] ? ? ?. cbn in *. unfold add_index. cbn.
  rewrite put_nil by lia. do 3 f_equal. lia.
Qed.

Lemma runs_length {A} (m : W A) a bs st st' a' :
  runs 0 m a bs -> 0 <= windex st <= zlen (wbuf st) -> m st = Some (a', st') ->
  a' = a /\ windex st' = windex st + zlen bs.
Proof.
  intros Hm Hi. rewrite Hm by lia. destruct (put _ _ _); [|done].
  intros [= <- <-]. cbn. split; [done|lia].
Qed.

(** A body followed by the check that the index advanced as predicted. *)
Lemma runs_checked {A} (m : W unit) (n : Z) (a : A) bs :
  runs 0 m tt bs -> zlen bs = n ->
  runs 0 (i ← get_index; (m ;; check_index (i + n)) ;; mret a) a bs.
Proof.
  intros Hm Hn [buf i sent] Hk Hi Hb. cbn in *.
  unfold mbind, W_bind, get_index, check_index. cbn.
  rewrite Hm by (cbn; lia). cbn. rewrite !Z.add_0_r.
  destruct (put buf i bs); cbn; [|done]. unfold mbind, W_bind, get_index, wcheck. cbn.
  rewrite Hn, Z.eqb_refl. done.
Qed.

(** [stores k m bs]: run with [k] octets stored past the index, [m] stores
    [bs] after them and leaves the index alone. *)
Definition stores (k : Z) (m : W unit) (bs : bytes) : Prop :=
  forall st, 0 <= k -> 0 <= windex st -> windex st + k <= zlen (wbuf st) ->
  m st = match put (wbuf st) (windex st + k) bs with
         | Some b => Some (tt, WState b (windex st) (wsent st))
         | None => None
         end.

Lemma stores_write k x : stores k (write_at k x) x.
Proof. intros st _ _ _. done. Qed.

Lemma stores_write_be k B v : stores k (write_at k (ByteWriter.WriteBigEndian B v)) (be_bytes B v).
Proof. rewrite WriteBigEndian_spec. apply stores_write. Qed.

Lemma stores_ret k : stores k (mret tt) [].
Proof. intros [buf i sent] ? ? ?. cbn in *. by rewrite put_nil by lia. Qed.

Lemma stores_bind k n m1 m2 x y :
  stores k m1 x -> n = k + zlen x -> stores n m2 y -> stores k (m1 ;; m2) (x ++ y).
Proof.
  intros H1 -> H2 [buf i sent] Hk Hi Hb. cbn in *.
  rewrite <- (put_put buf (i + k) x y (i + (k + zlen x))) by lia.
  unfold mbind at 1, W_bind. rewrite H1 by (cbn; lia). cbn.
  destruct (put buf (i + k) x) as [b|] eqn:E; cbn; [|done].
  pose proof (put_length _ _ _ _ E). pose proof (put_bound _ _ _ _ E).
  by rewrite H2 by (cbn; lia).
Qed.

Lemma runs_store {A} k n m1 (m : W A) a x y :
  stores k m1 x -> n = k + zlen x -> runs n m a y -> runs k (m1 ;; m) a (x ++ y).
Proof.
  intros H1 -> Hm [buf i sent] Hk Hi Hb. cbn in *.
  rewrite <- (put_put buf (i + k) x y (i + (k + zlen x))) by lia.
  unfold mbind at 1, W_bind. rewrite H1 by (cbn; lia). cbn.
  destruct (put buf (i + k) x) as [b|] eqn:E; cbn; [|done].
  pose proof (put_length _ _ _ _ E). pose proof (put_bound _ _ _ _ E).
  rewrite Hm by (cbn; lia). cbn.
  destruct (put b _ y) as [b'|]; [|done]. rewrite length_app. do 3 f_equal. lia.
Qed.

Lemma runs_write_be {A} k n B v (m : W A) a y :
  n = k + Z.of_nat B -> runs n m a y ->
  runs k (write_at k (ByteWriter.WriteBigEndian B v) ;; m) a (be_bytes B v ++ y).
Proof.
  intros Hn Hm. eapply runs_store; [apply stores_write_be| |done].
  by rewrite length_be_bytes.
Qed.

Lemma runs_eq {A} k (m : W A) a x y : runs k m a x -> x = y -> runs k m a y.
Proof. by intros H <-. Qed.

Lemma stores_eq k m x y : stores k m x -> x = y -> stores k m y.
Proof. by intros H <-. Qed.

Lemma runs_then {A} (m1 : W unit) (m : W A) a x y :
  runs 0 m1 tt x -> runs 0 m a y -> runs 0 (m1 ;; m) a (x ++ y).
Proof. intros. by apply (runs_bind _ _ tt). Qed.

(** Writers that look at the index: [runs_at i m a bs] is [runs] from index [i]. *)
Definition runs_at {A} (i : Z) (m : W A) (a : A) (bs : bytes) : Prop :=
  forall st, windex st = i -> 0 <= i -> i <= zlen (wbuf st) ->
  m st = match put (wbuf st) i bs with
         | Some b => Some (a, WState b (i + zlen bs) (wsent st))
         | None => None
         end.

Lemma runs_at_runs {A} i (m : W A) a bs : runs 0 m a bs -> runs_at i m a bs.
Proof. intros Hm st Hi H0 Hb. subst i. rewrite Hm by lia. by rewrite !Z.add_0_r. Qed.

Lemma runs_of_at {A} (m : W A) a bs : (forall i, 0 <= i -> runs_at i m a bs) -> runs 0 m a bs.
Proof.
  intros Hm st _ H0 Hb. rewrite !Z.add_0_r. apply (Hm (windex st) H0); [done|done|lia].
Qed.

Lemma runs_at_get {A} i (f : Z -> W A) a bs : runs_at i (f i) a bs -> runs_at i (get_index ≫= f) a bs.
Proof. intros Hf st Hi. rewrite bind_run. unfold get_index. rewrite Hi. by apply Hf. Qed.

Lemma runs_at_bind {A B} i (m1 : W A) (f : A -> W B) a b x y :
  runs_at i m1 a x -> runs_at (i + zlen x) (f a) b y -> runs_at i (m1 ≫= f) b (x ++ y).
Proof.
  intros H1 H2 st Hi H0 Hb. rewrite bind_run, H1 by done.
  rewrite <- (put_put (wbuf st) i x y (i + zlen x)) by lia.
  destruct (put (wbuf st) i x) as [b'|] eqn:E; cbn [mbind option_bind]; [|done].
  pose proof (put_length _ _ _ _ E). pose proof (put_bound _ _ _ _ E).
  rewrite H2 by (cbn; lia). cbn. destruct (put b' _ y); [|done]. rewrite length_app.
  do 3 f_equal. lia.
Qed.

Lemma runs_at_check {A} i (c : bool) (m : W A) a y :
  c = true -> runs_at i m a y -> runs_at i (wcheck c ;; m) a y.
Proof. intros -> Hm st. apply Hm. Qed.

Lemma runs_at_end {A} i n (a : A) : i = n -> runs_at i (check_index n ;; mret a) a [].
Proof.
  intros <- st Hi H0 Hb. rewrite bind_run. unfold check_index. rewrite bind_run.
  unfold get_index, wcheck. rewrite Hi, Z.eqb_refl, put_nil by lia. cbn.
  destruct st. cbn in *. subst. by rewrite Z.add_0_r.
Qed.

Lemma runs_at_eq {A} i (m : W A) a x y : runs_at i m a x -> x = y -> runs_at i m a y.
Proof. by intros H <-. Qed.

Lemma runs_write_last_n x n : zlen x = n -> runs 0 (write_at 0 x ;; add_index n) tt x.
Proof. intros <-. apply (runs_write_last 0 x). Qed.

Lemma W_assoc {A B C} (m : W A) (f : A -> W B) (g : B -> W C) st :
  (m ≫= (fun x => f x ≫= g)) st = ((m ≫= f) ≫= g) st.
Proof. rewrite !bind_run. destruct (m st) as [[a st']|]; [|done]. by rewrite bind_run. Qed.

Lemma runs_at_push {A} i b (m : W A) a y :
  runs_at (i + 1) m a y -> runs_at i (push b ;; m) a (u8 b :: y).
Proof.
  intros Hm. apply (runs_at_bind i (push b) _ tt a [u8 b] y); [|done].
  apply runs_at_runs. unfold push. apply (runs_write_last 0 [u8 b]).
Qed.

Lemma runs_at_push_u8 {A} i b (m : W A) a y :
  is_u8 b -> runs_at (i + 1) m a y -> runs_at i (push b ;; m) a (b :: y).
Proof. intros Hb Hm. rewrite <- (u8_id b Hb) at 2. by apply runs_at_push. Qed.

Lemma runs_at_write {A} i x n (m : W A) a y :
  n = zlen x -> runs_at (i + n) m a y ->
  runs_at i (write_at 0 x ;; add_index n ;; m) a (x ++ y).
Proof.
  intros -> Hm st Hi H0 Hb. rewrite W_assoc. revert st Hi H0 Hb.
  apply (runs_at_bind i (write_at 0 x ;; add_index (zlen x)) _ tt a x y); [|done].
  apply runs_at_runs. apply (runs_write_last 0 x).
Qed.

Lemma runs_push_last b : runs 0 (push b) tt [u8 b].
Proof. unfold push. apply (runs_write_last 0 [u8 b]). Qed.

Lemma runs_push_u8 b : is_u8 b -> runs 0 (push b) tt [b].
Proof. intros Hb. rewrite <- (u8_id b Hb) at 2. apply runs_push_last. Qed.

#[global] Opaque write_at add_index push for_each.

(** One step of the symbolic execution of a writer. *)
Ltac stores_step :=
  first
    [ apply stores_write_be | apply stores_ret
    | eapply stores_bind; [stores_step | rewrite ?length_be_bytes; reflexivity | ]
    | apply stores_write ].

Ltac runs_step :=
  lazymatch goal with
  | |- runs _ (mret _) _ _ => apply runs_ret
  | |- runs _ (wcheck _ ;; _) _ _ => apply runs_check
  | |- runs _ (add_index _) _ _ => apply runs_add_last
  | |- runs _ (add_index _ ;; _) _ _ => apply runs_add
  | |- runs _ (push _ ;; _) _ _ => eapply runs_push
  | |- runs _ (write_at _ (ByteWriter.WriteBigEndian _ _) ;; _) _ _ =>
      eapply runs_write_be; [reflexivity|]
  | |- runs _ (write_at _ _ ;; _) _ _ => eapply runs_write; [reflexivity|]
  end.
