(* ===== verification/RtcpCore.v ===== *)
(** * The RTCP packet base: rtcp_packet.{h,cc}, rtcp_packet/common_header.{h,cc},
      rtcp_packet/psfb.cc, rtcp_packet/rtpfb.cc

    [RtcpPacket] has the base class operations every packet type uses to write
    itself; [CommonHeader] is the parser of the four octet header that every
    packet type is parsed from; [CommonFeedback] is the part shared by the
    payload-specific and transport-layer feedback messages.  The class
    [RtcpCodec] with its laws is what one packet type promises to the compound
    packet. *)

From S2P Require Import Prelude ByteIo Buffers.

(** ** Parameters

    Functions of rtc_base, outside the repository: CheckedDivExact<size_t>,
    dchecked_cast and IsValueInRangeForNumericType, with what their documentation
    says: the exact quotient, the value itself when it is in range, and whether it
    is. *)
Class RtcNumerics := {
  CheckedDivExact : Z -> Z -> option Z;
  dchecked_cast_u16 : Z -> option Z;
  dchecked_cast_u8 : Z -> option Z;
  IsValueInRange_u16 : Z -> bool
}.

Class RtcNumericsLaws {ops : RtcNumerics} := {
  CheckedDivExact_exact a b : 0 < b -> a mod b = 0 -> CheckedDivExact a b = Some (a / b);
  dchecked_cast_id a : is_u16 a -> dchecked_cast_u16 a = Some a;
  dchecked_cast_u8_id a : is_u8 a -> dchecked_cast_u8 a = Some a;
  IsValueInRange_u16_iff a : 0 <= a -> IsValueInRange_u16 a = (a <=? 65535)
}.

(** The documented behaviour, for concrete runs. *)
#[global] Instance exact_numerics : RtcNumerics | 100 := {|
  CheckedDivExact := fun a b => check (a mod b =? 0) ;; Some (a / b);
  dchecked_cast_u16 := fun a => check ((0 <=? a) && (a <? 65536)) ;; Some a;
  dchecked_cast_u8 := fun a => check ((0 <=? a) && (a <? 256)) ;; Some a;
  IsValueInRange_u16 := fun a => (0 <=? a) && (a <=? 65535)
|}.

#[global] Instance exact_numerics_laws : RtcNumericsLaws.
Proof.
  constructor; cbn.
  - intros a b _ ->. done.
  - intros a [H0 H1]. by rewrite (proj2 (Z.leb_le 0 a) H0), (proj2 (Z.ltb_lt a 65536) H1).
  - intros a [H0 H1]. by rewrite (proj2 (Z.leb_le 0 a) H0), (proj2 (Z.ltb_lt a 256) H1).
  - intros a H0. by rewrite (proj2 (Z.leb_le 0 a) H0).
Qed.

(** ** Operations *)

Definition kHeaderLength : Z := 4.

Module RtcpPacket.

(** RtcpPacket::OnBufferFull; [callback] tells whether a callback is given. *)
Definition OnBufferFull (callback : bool) : W bool := fun st =>
  if windex st =? 0 then Some (false, st)
  else if callback && (0 <=? windex st) && (windex st <=? zlen (wbuf st)) then
    Some (true, WState (wbuf st) 0
                  (wsent st ++ [take (Z.to_nat (windex st)) (wbuf st)]))
  else None.

(** The loop that starts every unfragmented Create:
    while ( *index + BlockLength() > max_length)
      if (!OnBufferFull(packet, index, callback)) return false; *)
Fixpoint make_room (fuel : nat) (block_length max_length : Z) (callback : bool)
  : W bool :=
  match fuel with
  | O => fun _ => None
  | S fuel' =>
      index ← get_index;
      if index + block_length >? max_length then
        full ← OnBufferFull callback;
        if negb full then mret false
        else make_room fuel' block_length max_length callback
      else mret true
  end.

(** Two iterations decide: the second one starts with an empty buffer. *)
Definition make_room_fuel : nat := 3.

(** RtcpPacket::CreateHeader with the padding flag. *)
Definition CreateHeaderPadded (count_or_format packet_type length : Z)
    (padding : bool) : W unit :=
  wcheck (length <=? 0xffff) ;;
  wcheck (count_or_format <=? 0x1f) ;;
  let kVersionBits := Z.shiftl 2 6 in
  let padding_bit := if padding then Z.shiftl 1 5 else 0 in
  write_at 0 [u8 (Z.lor (Z.lor kVersionBits padding_bit) (u8 count_or_format))] ;;
  write_at 1 [u8 packet_type] ;;
  write_at 2 [u8 (Z.land (Z.shiftr length 8) 0xff)] ;;
  write_at 3 [u8 (Z.land length 0xff)] ;;
  add_index kHeaderLength.

Definition CreateHeader (count_or_format packet_type length : Z) : W unit :=
  CreateHeaderPadded count_or_format packet_type length false.

(** RtcpPacket::HeaderLength of a packet whose BlockLength() is given. *)
Definition HeaderLength (block_length : Z) : option Z :=
  check (0 <? block_length) ;;
  check (block_length mod 4 =? 0) ;;
  Some ((block_length - kHeaderLength) / 4).

(** The octets of the common header. *)
Definition header_bytes (count_or_format packet_type length : Z) (padding : bool)
  : bytes :=
  [128 + (if padding then 32 else 0) + count_or_format; packet_type] ++
  be_bytes 2 length.

End RtcpPacket.

(** Lifting of assertions and partial values into the writer. *)
Definition wlift {A} (o : option A) : W A := fun st =>
  match o with Some a => Some (a, st) | None => None end.

(** The shape shared by every Create that does not fragment: make room, then
    go on with [k]. *)
Definition with_room (block_length : Z) (k : W bool) (max_length : Z) (callback : bool)
  : W bool :=
  room ← RtcpPacket.make_room RtcpPacket.make_room_fuel block_length max_length callback;
  if negb room then mret false else k.

(** Most of them write the body and check the predicted length. *)
Definition create_with (block_length : Z) (body : W unit)
    (max_length : Z) (callback : bool) : W bool :=
  with_room block_length
    (index ← get_index; (body ;; check_index (index + block_length)) ;; mret true)
    max_length callback.

Module CommonHeader.

Record t := Mk {
  packet_type_ : Z;          (* uint8_t *)
  count_or_format_ : Z;      (* uint8_t *)
  padding_size_ : Z;         (* uint8_t *)
  payload_size_ : Z;         (* uint32_t *)
  payload_ : bytes           (* the buffer from the payload pointer on *)
}.

Definition kHeaderSizeBytes : Z := 4.

Definition new : t := Mk 0 0 0 0 [].

Definition type (h : t) : Z := packet_type_ h.
Definition fmt (h : t) : Z := count_or_format_ h.
Definition count (h : t) : Z := count_or_format_ h.
Definition payload_size_bytes (h : t) : Z := payload_size_ h.
Definition payload (h : t) : bytes := payload_ h.
Definition packet_size (h : t) : Z :=
  kHeaderSizeBytes + payload_size_ h + padding_size_ h.
Definition NextPacket (h : t) : bytes :=
  drop (Z.to_nat (payload_size_ h + padding_size_ h)) (payload_ h).

(** CommonHeader::Parse(buffer, size_bytes). *)
Definition Parse (this : t) (buffer : bytes) (size_bytes : Z) : option (t * bool) :=
  let kVersion := 2 in
  if size_bytes <? kHeaderSizeBytes then Some (this, false) else
  b0 ← peek buffer 0;
  let version := Z.shiftr b0 6 in
  if negb (version =? kVersion) then Some (this, false) else
  let has_padding := negb (Z.land b0 0x20 =? 0) in
  b1 ← peek buffer 1;
  len ← read_u16 buffer 2;
  let payload_size := u32 (len * 4) in
  let payload := drop 4 buffer in
  let this := Mk b1 (Z.land b0 0x1F) 0 payload_size payload in
  if size_bytes <? kHeaderSizeBytes + payload_size then Some (this, false) else
  if has_padding then
    if payload_size =? 0 then Some (this, false) else
    padding_size ← peek payload (payload_size - 1);
    let this := Mk b1 (Z.land b0 0x1F) padding_size payload_size payload in
    if padding_size =? 0 then Some (this, false) else
    if padding_size >? payload_size then Some (this, false) else
    Some (Mk b1 (Z.land b0 0x1F) padding_size (u32 (payload_size - padding_size))
             payload, true)
  else Some (this, true).

(** Specification of the accepted headers, in the terms of RFC 3550: version 2,
    the announced words lie inside the buffer and the padding, when flagged, is
    between one octet and the whole payload. *)
Definition accepts (buffer : bytes) (size_bytes : Z) : bool :=
  let words := 256 * (buffer !!! 2%nat) + (buffer !!! 3%nat) in
  let pad := buffer !!! Z.to_nat (3 + 4 * words) in
  (4 <=? size_bytes) && ((buffer !!! 0%nat) / 64 =? 2) &&
  (4 + 4 * words <=? size_bytes) &&
  (if Z.odd ((buffer !!! 0%nat) / 32)
   then (1 <=? words) && (1 <=? pad) && (pad <=? 4 * words) else true).

(** What a successful parse guarantees to the packet parsers. *)
Record valid (h : t) : Prop := {
  valid_type : is_u8 (packet_type_ h);
  valid_count : 0 <= count_or_format_ h < 32;
  valid_padding : is_u8 (padding_size_ h);
  valid_size : 0 <= payload_size_ h;
  valid_payload : is_bytes (payload_ h);
  valid_fits : payload_size_ h + padding_size_ h <= zlen (payload_ h);
  valid_words : payload_size_ h + padding_size_ h <= 4 * 65535;
  valid_aligned : (payload_size_ h + padding_size_ h) mod 4 = 0
}.

End CommonHeader.

(** Psfb and Rtpfb: the two SSRCs of a feedback message (psfb.cc, rtpfb.cc). *)
Module CommonFeedback.

Record t := Mk {
  sender_ssrc : Z;    (* RtcpPacket::sender_ssrc_ *)
  media_ssrc : Z      (* Psfb::media_ssrc_, Rtpfb::media_ssrc_ *)
}.

Definition kCommonFeedbackLength : Z := 8.

Definition new : t := Mk 0 0.

Definition wf (fb : t) : Prop := is_u32 (sender_ssrc fb) /\ is_u32 (media_ssrc fb).

Definition encode (fb : t) : bytes :=
  be_bytes 4 (sender_ssrc fb) ++ be_bytes 4 (media_ssrc fb).

End CommonFeedback.

Module Psfb.

Definition kPacketType : Z := 206.
Definition kAfbMessageType : Z := 15.

Definition ParseCommonFeedback (payload : bytes) : option CommonFeedback.t :=
  sender ← read_u32 payload 0;
  media ← read_u32 payload 4;
  Some (CommonFeedback.Mk sender media).

(** Stores at [packet + *index]. *)
Definition CreateCommonFeedback (fb : CommonFeedback.t) : W unit :=
  write_u32 0 (CommonFeedback.sender_ssrc fb) ;;
  write_u32 4 (CommonFeedback.media_ssrc fb).

End Psfb.

Module Rtpfb.

Definition kPacketType : Z := 205.

Definition ParseCommonFeedback (payload : bytes) : option CommonFeedback.t :=
  sender ← read_u32 payload 0;
  media ← read_u32 payload 4;
  Some (CommonFeedback.Mk sender media).

Definition CreateCommonFeedback (fb : CommonFeedback.t) : W unit :=
  write_u32 0 (CommonFeedback.sender_ssrc fb) ;;
  write_u32 4 (CommonFeedback.media_ssrc fb).

End Rtpfb.

(** ** The common header on the wire *)

Lemma runs_CreateHeaderPadded c ty len pad :
  0 <= len <= 65535 -> 0 <= c < 32 -> is_u8 ty ->
  runs 0 (RtcpPacket.CreateHeaderPadded c ty len pad) tt
    (RtcpPacket.header_bytes c ty len pad).
Proof.
  intros Hlen Hc Hty. unfold RtcpPacket.CreateHeaderPadded.
  apply runs_check; [apply Z.leb_le; lia|]. apply runs_check; [apply Z.leb_le; lia|].
  cbv zeta. eapply runs_eq; [repeat runs_step|].
  unfold RtcpPacket.header_bytes. cbn [app be_bytes].
  rewrite (u8_id c) by wordlia.
  assert (Hhead : Z.lor (Z.lor (Z.shiftl 2 6) (if pad then Z.shiftl 1 5 else 0)) c =
                  128 + (if pad then 32 else 0) + c).
  { destruct pad.
    - change (Z.lor (Z.shiftl 2 6) (Z.shiftl 1 5)) with (Z.shiftl 5 5).
      rewrite (lor_shiftl_add 5 5 c); lia.
    - change (Z.lor (Z.shiftl 2 6) 0) with (Z.shiftl 4 5).
      rewrite (lor_shiftl_add 5 4 c); lia. }
  rewrite Hhead, (land_mask 8 255), (land_mask 8 255), Z.shiftr_div_pow2 by done.
  f_equal; [destruct pad; wordlia|]. f_equal; [wordlia|].
  f_equal; [unfold u8; cbn; by rewrite Z.mod_mod|].
  f_equal. unfold u8. cbn. by rewrite Z.mod_mod, Z.div_1_r.
Qed.

Lemma runs_CreateHeader c ty len :
  0 <= len <= 65535 -> 0 <= c < 32 -> is_u8 ty ->
  runs 0 (RtcpPacket.CreateHeader c ty len) tt (RtcpPacket.header_bytes c ty len false).
Proof. apply runs_CreateHeaderPadded. Qed.

Lemma length_header_bytes c ty len pad : length (RtcpPacket.header_bytes c ty len pad) = 4%nat.
Proof. done. Qed.

Lemma header_bytes_is_bytes c ty len pad :
  0 <= c < 32 -> is_u8 ty -> is_bytes (RtcpPacket.header_bytes c ty len pad).
Proof.
  intros. unfold RtcpPacket.header_bytes, is_bytes. cbn [app be_bytes].
  repeat constructor; try (by apply Z.mod_pos_bound); destruct pad; wordlia.
Qed.

(** Symbolic reads from a buffer that starts with known octets. *)
Lemma read_u16_here v q : is_u16 v -> read_u16 (be_bytes 2 v ++ q) 0 = Some v.
Proof. intros. by apply read_be_app_here. Qed.

Lemma read_u24_here v q : 0 <= v < 16777216 -> read_u24 (be_bytes 3 v ++ q) 0 = Some v.
Proof. intros. by apply read_be_app_here. Qed.

Lemma read_u32_here v q : is_u32 v -> read_u32 (be_bytes 4 v ++ q) 0 = Some v.
Proof. intros. by apply read_be_app_here. Qed.

Lemma testbit_land_pow2 a n : 0 <= n -> negb (Z.land a (2 ^ n) =? 0) = Z.testbit a n.
Proof.
  intros Hn. destruct (Z.testbit a n) eqn:E.
  - destruct (Z.eqb_spec (Z.land a (2 ^ n)) 0) as [H|H]; [|done].
    apply (f_equal (fun z => Z.testbit z n)) in H.
    by rewrite Z.land_spec, Z.pow2_bits_true, E, Z.bits_0 in H by done.
  - destruct (Z.eqb_spec (Z.land a (2 ^ n)) 0) as [H|H]; [done|].
    exfalso. apply H. apply Z.bits_inj'. intros i Hi.
    rewrite Z.land_spec, Z.pow2_bits_eqb, Z.bits_0 by done.
    destruct (Z.eqb_spec n i) as [<-|]; [by rewrite E|by rewrite andb_false_r].
Qed.

Lemma lookup_total_bytes l i : is_bytes l -> (i < length l)%nat -> is_u8 (l !!! i).
Proof.
  intros Hl Hi. apply lookup_lt_is_Some in Hi as [b Hb].
  rewrite (list_lookup_total_correct _ _ _ Hb).
  by eapply (Forall_lookup_1 is_u8 l).
Qed.

Lemma peek_total p off : 0 <= off < zlen p -> peek p off = Some (p !!! Z.to_nat off).
Proof.
  intros. unfold peek. destruct (Z.leb_spec 0 off); [|lia].
  apply list_lookup_lookup_total_lt. lia.
Qed.

Lemma read_u16_total p off :
  is_bytes p -> 0 <= off -> off + 2 <= zlen p ->
  read_u16 p off =
  Some (256 * (p !!! Z.to_nat off) + (p !!! S (Z.to_nat off))).
Proof.
  intros Hp Hoff Hlen. unfold read_be. rewrite load_Some by lia. cbn -[ByteReader.ReadBigEndian].
  set (a := p !!! Z.to_nat off). set (b := p !!! S (Z.to_nat off)).
  assert (E : take 2 (drop (Z.to_nat off) p) = [a; b]).
  { rewrite (drop_S p a) by (apply list_lookup_lookup_total_lt; lia).
    rewrite (drop_S p b) by (apply list_lookup_lookup_total_lt; lia). done. }
  rewrite E. assert (Hb : is_bytes [a; b]).
  { rewrite <- E. by apply Forall_take, Forall_drop. }
  f_equal. change 2%nat with (length [a; b]).
  rewrite ReadBigEndian_spec by done. cbv [be_value fold_left]. lia.
Qed.

Local Ltac rejects := cbn; eexists; split; [reflexivity|discriminate].

Lemma CommonHeader_parse_run this buffer size_bytes :
  is_bytes buffer -> size_bytes <= zlen buffer ->
  exists h, CommonHeader.Parse this buffer size_bytes =
            Some (h, CommonHeader.accepts buffer size_bytes) /\
  (CommonHeader.accepts buffer size_bytes = true ->
   CommonHeader.valid h /\ CommonHeader.packet_size h <= size_bytes /\
   CommonHeader.payload h = drop 4 buffer).
Proof.
  intros Hb Hsize. unfold CommonHeader.Parse, CommonHeader.accepts.
  unfold CommonHeader.kHeaderSizeBytes in *.
  destruct (Z.ltb_spec size_bytes 4) as [H4|H4].
  { destruct (Z.leb_spec 4 size_bytes); [lia|]. rejects. }
  destruct (Z.leb_spec 4 size_bytes); [|lia]. cbn [andb].
  rewrite (peek_total buffer 0) by lia. cbn [mbind option_bind Z.to_nat].
  rewrite (peek_total buffer 1), read_u16_total by (done || lia).
  change (Z.to_nat 0) with 0%nat. change (Z.to_nat 1) with 1%nat.
  change (Z.to_nat 2) with 2%nat.
  cbn [mbind option_bind].
  pose proof (lookup_total_bytes buffer 0 Hb ltac:(lia)) as B0.
  pose proof (lookup_total_bytes buffer 1 Hb ltac:(lia)) as B1.
  pose proof (lookup_total_bytes buffer 2 Hb ltac:(lia)) as B2.
  pose proof (lookup_total_bytes buffer 3 Hb ltac:(lia)) as B3.
  set (b0 := buffer !!! 0%nat) in *. set (b1 := buffer !!! 1%nat) in *.
  set (words := 256 * (buffer !!! 2%nat) + (buffer !!! 3%nat)) in *.
  assert (Hwords : 0 <= words <= 65535) by (unfold words, is_u8 in *; lia).
  rewrite Z.shiftr_div_pow2 by done. change (2 ^ 6) with 64.
  destruct (Z.eqb_spec (b0 / 64) 2) as [Hv|Hv]; cbn [negb andb]; [|rejects].
  replace (u32 (words * 4)) with (4 * words) by (rewrite u32_id; unfold is_u32; lia).
  destruct (Z.ltb_spec size_bytes (4 + 4 * words)) as [Hw|Hw].
  { destruct (Z.leb_spec (4 + 4 * words) size_bytes); [lia|]. rejects. }
  destruct (Z.leb_spec (4 + 4 * words) size_bytes); [|lia]. cbn [andb].
  change 32 with (2 ^ 5) at 1. rewrite (testbit_land_pow2 b0 5), Z.testbit_odd, Z.shiftr_div_pow2 by done.
  change (2 ^ 5) with 32. rewrite (land_mask 5 31) by done. change (2 ^ 5) with 32.
  assert (Hdrop : is_bytes (drop 4 buffer)) by by apply Forall_drop.
  assert (Hlen : zlen (drop 4 buffer) = zlen buffer - 4) by (rewrite length_drop; lia).
  assert (0 <= b0 mod 32 < 32) by (apply Z.mod_pos_bound; lia).
  destruct (Z.odd (b0 / 32)).
  - destruct (Z.eqb_spec (4 * words) 0) as [Hz|Hz].
    { destruct (Z.leb_spec 1 words); [lia|]. rejects. }
    destruct (Z.leb_spec 1 words); [|lia]. cbn [andb].
    rewrite (peek_total (drop 4 buffer)) by lia. cbn [mbind option_bind].
    rewrite lookup_total_drop.
    replace (4 + Z.to_nat (4 * words - 1))%nat with (Z.to_nat (3 + 4 * words)) by lia.
    pose proof (lookup_total_bytes buffer (Z.to_nat (3 + 4 * words)) Hb ltac:(lia)) as Bp.
    set (pad := buffer !!! Z.to_nat (3 + 4 * words)) in *. unfold is_u8 in *.
    destruct (Z.eqb_spec pad 0); [destruct (Z.leb_spec 1 pad); [lia|rejects]|].
    destruct (Z.leb_spec 1 pad); [|lia]. cbn [andb]. rewrite Z.gtb_ltb.
    destruct (Z.ltb_spec (4 * words) pad) as [Hp|Hp].
    { destruct (Z.leb_spec pad (4 * words)); [lia|]. rejects. }
    destruct (Z.leb_spec pad (4 * words)); [|lia].
    rewrite u32_id by (unfold is_u32; lia).
    eexists. split; [done|]. intros _. unfold CommonHeader.packet_size. cbn.
    split; [|split; [unfold CommonHeader.kHeaderSizeBytes; lia|done]].
    constructor; cbn; unfold is_u8; rewrite ?Hlen; try done; try lia.
    replace (4 * words - pad + pad) with (words * 4) by lia. apply Z.mod_mul. lia.
  - eexists. split; [done|]. intros _. unfold CommonHeader.packet_size. cbn.
    split; [|split; [unfold CommonHeader.kHeaderSizeBytes; lia|done]].
    constructor; cbn; unfold is_u8 in *; rewrite ?Hlen; try done; try lia.
    replace (4 * words + 0) with (words * 4) by lia. apply Z.mod_mul. lia.
Qed.

(** Parsing a header written by CreateHeader, whatever follows it. *)
Lemma parse_header_general this c ty len pad rest size_bytes :
  0 <= c < 32 -> 0 <= len <= 65535 -> 4 + 4 * len <= size_bytes ->
  (forall p, pad = true -> peek rest (4 * len - 1) = Some p ->
             1 <= p <= 4 * len /\ p < 256) ->
  (pad = true -> 1 <= len /\ is_Some (peek rest (4 * len - 1))) ->
  exists p, CommonHeader.Parse this (RtcpPacket.header_bytes c ty len pad ++ rest) size_bytes =
  Some (CommonHeader.Mk ty c p (4 * len - p) rest, true) /\
  (if pad then peek rest (4 * len - 1) = Some p else p = 0).
Proof.
  intros Hc Hlen Hsize Hpad Hpad'. unfold CommonHeader.Parse, RtcpPacket.header_bytes.
  unfold CommonHeader.kHeaderSizeBytes.
  destruct (Z.ltb_spec size_bytes 4); [lia|].
  change (peek _ 0) with (Some (128 + (if pad then 32 else 0) + c)).
  change (peek _ 1) with (Some ty). cbn [mbind option_bind].
  rewrite <- app_assoc, (read_be_app_skip _ _ [_; _]) by (cbn; lia).
  change (2 - zlen [_; _]) with 0. rewrite read_u16_here by (unfold is_u16; lia).
  cbn [mbind option_bind]. rewrite !Z.shiftr_div_pow2 by done.
  set (b0 := 128 + _ + c). assert (Hb0 : b0 / 2 ^ 6 = 2) by (unfold b0; destruct pad; dlia).
  rewrite Hb0. cbn [Z.eqb negb Pos.eqb].
  rewrite (u32_id (len * 4)) by (unfold is_u32; lia).
  destruct (Z.ltb_spec size_bytes (4 + len * 4)); [lia|].
  rewrite (land_mask 5 31) by done. change 32 with (2 ^ 5) at 1.
  rewrite (testbit_land_pow2 b0 5), Z.testbit_odd, Z.shiftr_div_pow2 by done.
  assert (Hodd : Z.odd (b0 / 2 ^ 5) = pad).
  { unfold b0. destruct pad; [replace (_ / _) with 5 by dlia|replace (_ / _) with 4 by dlia]; done. }
  assert (Hcnt : b0 mod 2 ^ 5 = c) by (unfold b0; destruct pad; dlia).
  rewrite Hodd, Hcnt. clearbody b0.
  change (drop 4 _) with rest. rewrite (Z.mul_comm len 4). destruct pad.
  - destruct (Hpad' eq_refl) as [Hl [p Hp]]. specialize (Hpad p eq_refl Hp).
    destruct (Z.eqb_spec (4 * len) 0); [lia|]. rewrite Hp. cbn [mbind option_bind].
    destruct (Z.eqb_spec p 0); [lia|]. rewrite Z.gtb_ltb.
    destruct (Z.ltb_spec (4 * len) p); [lia|].
    rewrite u32_id by (unfold is_u32; lia). by exists p.
  - exists 0. by rewrite Z.sub_0_r.
Qed.

Lemma parse_header this c ty len rest size_bytes :
  0 <= c < 32 -> 0 <= len <= 65535 -> 4 + 4 * len <= size_bytes ->
  CommonHeader.Parse this (RtcpPacket.header_bytes c ty len false ++ rest) size_bytes =
  Some (CommonHeader.Mk ty c 0 (4 * len) rest, true).
Proof.
  intros Hc Hlen Hs.
  destruct (parse_header_general this c ty len false rest size_bytes) as (p & E & ->);
    try done. by rewrite Z.sub_0_r in E.
Qed.

(** ** Making room *)

(** What an unfragmented Create does with its encoding [bs]: append it, after
    flushing the buffer through the callback when it would not fit; refuse a
    packet that does not fit an empty buffer. *)
Definition append (bs : bytes) (st : wstate) : option (bool * wstate) :=
  match put (wbuf st) (windex st) bs with
  | Some b => Some (true, WState b (windex st + zlen bs) (wsent st))
  | None => None
  end.

Definition flush (st : wstate) : wstate :=
  WState (wbuf st) 0 (wsent st ++ [take (Z.to_nat (windex st)) (wbuf st)]).

Definition create_result (bs : bytes) (max_length : Z) (callback : bool) (st : wstate)
  : option (bool * wstate) :=
  if windex st + zlen bs <=? max_length then append bs st
  else if windex st =? 0 then Some (false, st)
  else if negb callback then None
  else if zlen bs <=? max_length then append bs (flush st)
  else Some (false, flush st).

Lemma make_room_fits fuel n max_length callback st :
  windex st + n <= max_length ->
  RtcpPacket.make_room (S fuel) n max_length callback st = Some (true, st).
Proof.
  intros H. cbn [RtcpPacket.make_room]. unfold mbind, W_bind, get_index. cbn.
  rewrite Z.gtb_ltb. by destruct (Z.ltb_spec max_length (windex st + n)); [lia|].
Qed.

Lemma make_room_full fuel n max_length callback st :
  max_length < windex st + n -> windex st = 0 ->
  RtcpPacket.make_room (S fuel) n max_length callback st = Some (false, st).
Proof.
  intros H H0. cbn [RtcpPacket.make_room]. unfold mbind, W_bind, get_index. cbn.
  rewrite Z.gtb_ltb. destruct (Z.ltb_spec max_length (windex st + n)); [|lia].
  unfold RtcpPacket.OnBufferFull. by rewrite H0.
Qed.

Lemma make_room_flush fuel n max_length callback st :
  max_length < windex st + n -> 0 < windex st <= zlen (wbuf st) ->
  RtcpPacket.make_room (S fuel) n max_length callback st =
  if callback then RtcpPacket.make_room fuel n max_length callback (flush st) else None.
Proof.
  intros H Hi. cbn [RtcpPacket.make_room]. unfold mbind at 1, W_bind, get_index.
  rewrite Z.gtb_ltb. destruct (Z.ltb_spec max_length (windex st + n)); [|lia].
  unfold mbind at 1, W_bind, RtcpPacket.OnBufferFull.
  destruct (Z.eqb_spec (windex st) 0); [lia|].
  destruct (Z.leb_spec 0 (windex st)); [|lia].
  destruct (Z.leb_spec (windex st) (zlen (wbuf st))); [|lia].
  by destruct callback.
Qed.

(** Every Create that makes room first appends its octets, in every case. *)
Lemma with_room_result bl k bs max_length callback st :
  runs 0 k true bs -> zlen bs = bl -> 0 < bl -> 0 <= windex st <= zlen (wbuf st) ->
  with_room bl k max_length callback st = create_result bs max_length callback st.
Proof.
  intros Hk Hlen Hpos Hi. subst bl.
  assert (Happ : forall st', 0 <= windex st' <= zlen (wbuf st') -> k st' = append bs st').
  { intros st' Hi'. rewrite Hk by lia. unfold append. by rewrite !Z.add_0_r. }
  unfold with_room, create_result, mbind at 1, W_bind, RtcpPacket.make_room_fuel.
  destruct (Z.leb_spec (windex st + zlen bs) max_length) as [Hf|Hf].
  { rewrite make_room_fits by done. cbn [negb]. by apply Happ. }
  destruct (Z.eqb_spec (windex st) 0) as [H0|H0].
  { by rewrite make_room_full by done. }
  rewrite make_room_flush by lia. destruct callback; cbn [negb]; [|done].
  destruct (Z.leb_spec (zlen bs) max_length) as [Hm|Hm].
  - rewrite make_room_fits by done. cbn [negb]. apply Happ. cbn. lia.
  - by rewrite make_room_full by done.
Qed.

Lemma create_with_result bl body bs max_length callback st :
  runs 0 body tt bs -> zlen bs = bl -> 0 < bl -> 0 <= windex st <= zlen (wbuf st) ->
  create_with bl body max_length callback st = create_result bs max_length callback st.
Proof.
  intros Hbody Hlen Hpos Hi. apply with_room_result; [|done|done|done].
  by apply runs_checked.
Qed.

(** ** Common feedback *)

Lemma length_feedback fb : length (CommonFeedback.encode fb) = 8%nat.
Proof. done. Qed.

Lemma stores_psfb fb : stores 0 (Psfb.CreateCommonFeedback fb) (CommonFeedback.encode fb).
Proof. unfold Psfb.CreateCommonFeedback, CommonFeedback.encode. stores_step; apply stores_write_be. Qed.

Lemma stores_rtpfb fb : stores 0 (Rtpfb.CreateCommonFeedback fb) (CommonFeedback.encode fb).
Proof. exact (stores_psfb fb). Qed.

Lemma parse_feedback_here fb q : CommonFeedback.wf fb ->
  Psfb.ParseCommonFeedback (CommonFeedback.encode fb ++ q) = Some fb.
Proof.
  intros [Hs Hm]. unfold Psfb.ParseCommonFeedback, CommonFeedback.encode.
  rewrite <- app_assoc, read_u32_here by done. cbn [mbind option_bind].
  rewrite read_be_app_skip by (rewrite length_be_bytes; lia).
  rewrite length_be_bytes. change (4 - Z.of_nat 4) with 0.
  rewrite read_u32_here by done. by destruct fb.
Qed.

Lemma parse_rtpfb_here fb q : CommonFeedback.wf fb ->
  Rtpfb.ParseCommonFeedback (CommonFeedback.encode fb ++ q) = Some fb.
Proof. exact (parse_feedback_here fb q). Qed.

Lemma read_u32_Some p off : is_bytes p -> 0 <= off -> off + 4 <= zlen p ->
  exists v, read_u32 p off = Some v /\ is_u32 v.
Proof. intros. by apply read_be_Some. Qed.

Lemma peek_u8_Some p off : is_bytes p -> 0 <= off < zlen p ->
  exists v, peek p off = Some v /\ is_u8 v.
Proof.
  intros Hp Ho. destruct (peek_Some p off Ho) as [v E]. exists v. split; [done|].
  by eapply peek_is_u8.
Qed.

Lemma read_u16_Some p off : is_bytes p -> 0 <= off -> off + 2 <= zlen p ->
  exists v, read_u16 p off = Some v /\ is_u16 v.
Proof. intros. by apply read_be_Some. Qed.

Lemma read_u24_Some p off : is_bytes p -> 0 <= off -> off + 3 <= zlen p ->
  exists v, read_u24 p off = Some v /\ 0 <= v < 16777216.
Proof. intros. by apply read_be_Some. Qed.

Lemma parse_feedback_safe p : is_bytes p -> 8 <= zlen p ->
  exists fb, Psfb.ParseCommonFeedback p = Some fb /\ CommonFeedback.wf fb.
Proof.
  intros Hp Hl. unfold Psfb.ParseCommonFeedback.
  destruct (read_u32_Some p 0) as (s & -> & ?); [done|lia|lia|]. cbn.
  destruct (read_u32_Some p 4) as (m & -> & ?); [done|lia|lia|]. cbn.
  eexists; split; [done|]. by split.
Qed.

Lemma parse_rtpfb_safe p : is_bytes p -> 8 <= zlen p ->
  exists fb, Rtpfb.ParseCommonFeedback p = Some fb /\ CommonFeedback.wf fb.
Proof. exact (parse_feedback_safe p). Qed.

(** ** The interface of a packet type *)

(** The operations of a class derived from RtcpPacket: its wire type, the
    header formats it is parsed from, its default constructor, BlockLength,
    Create and Parse. *)
Class RtcpCodec (T : Type) := {
  codec_type : Z;
  codec_fmt : Z -> bool;
  codec_new : T;
  codec_block_length : T -> Z;
  codec_create : T -> Z -> bool -> W bool;
  codec_parse : T -> CommonHeader.t -> option (T * bool)
}.

(** Its contract.  [inv] bounds the fields of every object, [wf] holds of the
    objects Create accepts, [encode] is the wire format and [image] is what a parser recovers from it (the object itself
    unless the format rounds or omits a field). *)
Class RtcpCodecLaws (T : Type) {codec : RtcpCodec T} := {
  codec_inv : T -> Prop;
  codec_wf : T -> Prop;
  codec_encode : T -> bytes;
  codec_image : T -> T;
  codec_wf_inv p : codec_wf p -> codec_inv p;
  codec_length p : codec_wf p -> zlen (codec_encode p) = codec_block_length p;
  codec_positive p : codec_wf p -> 4 <= codec_block_length p;
  codec_creates p max_length callback st :
    codec_wf p -> 0 <= windex st ->
    windex st + codec_block_length p <= max_length -> max_length <= zlen (wbuf st) ->
    max_length < 2 ^ 64 ->
    codec_create p max_length callback st = append (codec_encode p) st;
  codec_parses p this rest size_bytes :
    codec_wf p -> zlen (codec_encode p) <= size_bytes ->
    exists h,
      CommonHeader.Parse this (codec_encode p ++ rest) size_bytes = Some (h, true) /\
      CommonHeader.type h = codec_type /\ codec_fmt (CommonHeader.fmt h) = true /\
      CommonHeader.NextPacket h = rest /\
      codec_parse codec_new h = Some (codec_image p, true);
  codec_safe h :
    CommonHeader.valid h -> CommonHeader.type h = codec_type ->
    codec_fmt (CommonHeader.fmt h) = true ->
    is_Some (codec_parse codec_new h);
  codec_parsed p h :
    CommonHeader.valid h -> CommonHeader.type h = codec_type ->
    codec_fmt (CommonHeader.fmt h) = true ->
    codec_parse codec_new h = Some (p, true) -> codec_inv p
}.

(** The usual proofs of [codec_creates]. *)
Lemma create_result_fits bs max_length callback st :
  windex st + zlen bs <= max_length -> create_result bs max_length callback st = append bs st.
Proof.
  intros. unfold create_result. by destruct (Z.leb_spec (windex st + zlen bs) max_length); [|lia].
Qed.

Lemma create_with_append bl body bs max_length callback st :
  runs 0 body tt bs -> zlen bs = bl -> 0 < bl -> 0 <= windex st ->
  windex st + bl <= max_length -> max_length <= zlen (wbuf st) ->
  create_with bl body max_length callback st = append bs st.
Proof.
  intros Hbody Hlen Hpos Hi Hmax Hbuf.
  rewrite (create_with_result bl body bs) by (done || lia). apply create_result_fits. lia.
Qed.

(** A payload that is exactly the body the packet announced. *)
Lemma parse_packet this c ty body rest size_bytes :
  0 <= c < 32 -> zlen body mod 4 = 0 -> zlen body <= 4 * 65535 ->
  4 + zlen body <= size_bytes ->
  CommonHeader.Parse this
    (RtcpPacket.header_bytes c ty (zlen body / 4) false ++ body ++ rest) size_bytes =
  Some (CommonHeader.Mk ty c 0 (zlen body) (body ++ rest), true).
Proof.
  intros Hc Hm Hl Hs. rewrite parse_header by (try done; dlia).
  do 3 f_equal. dlia.
Qed.

Lemma NextPacket_packet ty c body rest :
  CommonHeader.NextPacket (CommonHeader.Mk ty c 0 (zlen body) (body ++ rest)) = rest.
Proof.
  unfold CommonHeader.NextPacket. cbn [CommonHeader.payload_size_
    CommonHeader.padding_size_ CommonHeader.payload_].
  rewrite Z.add_0_r, Nat2Z.id. apply drop_app_length.
Qed.

Lemma HeaderLength_Some bl : 0 < bl -> bl mod 4 = 0 ->
  RtcpPacket.HeaderLength bl = Some ((bl - 4) / 4).
Proof.
  intros. unfold RtcpPacket.HeaderLength, check.
  destruct (Z.ltb_spec 0 bl); [|lia]. by rewrite H0.
Qed.

(** A Create that computes HeaderLength() first. *)
Lemma runs_wlift {A B} (o : option A) (x : A) (f : A -> W B) b bs :
  o = Some x -> runs 0 (f x) b bs -> runs 0 (wlift o ≫= f) b bs.
Proof. intros -> H st. apply H. Qed.

(** The header and the rest of a Create that announces HeaderLength(). *)
Lemma runs_packet {A} c ty bl (k : W A) a body :
  0 <= c < 32 -> is_u8 ty -> bl = 4 + zlen body -> zlen body mod 4 = 0 ->
  zlen body <= 4 * 65535 -> runs 0 k a body ->
  runs 0 (length ← wlift (RtcpPacket.HeaderLength bl);
          RtcpPacket.CreateHeader c ty length ;; k) a
    (RtcpPacket.header_bytes c ty (zlen body / 4) false ++ body).
Proof.
  intros Hc Hty -> Hm Hl Hk. apply (runs_wlift _ (zlen body / 4)).
  - rewrite HeaderLength_Some by dlia. f_equal. by rewrite Z.add_simpl_l.
  - apply runs_then; [|done]. apply runs_CreateHeader; [dlia|done|done].
Qed.

(** The round trip of a packet whose wire form is a header and a body. *)
Lemma packet_parses {T} (fmt : Z -> bool) (parse : CommonHeader.t -> option (T * bool))
    this c ty body rest size_bytes res :
  0 <= c < 32 -> zlen body mod 4 = 0 -> zlen body <= 4 * 65535 ->
  zlen (RtcpPacket.header_bytes c ty (zlen body / 4) false ++ body) <= size_bytes ->
  fmt c = true ->
  parse (CommonHeader.Mk ty c 0 (zlen body) (body ++ rest)) = Some (res, true) ->
  exists h,
    CommonHeader.Parse this
      ((RtcpPacket.header_bytes c ty (zlen body / 4) false ++ body) ++ rest) size_bytes =
      Some (h, true) /\
    CommonHeader.type h = ty /\ fmt (CommonHeader.fmt h) = true /\
    CommonHeader.NextPacket h = rest /\ parse h = Some (res, true).
Proof.
  intros Hc Hm Hl Hs Hf Hp. rewrite length_app, length_header_bytes in Hs.
  eexists. rewrite <- app_assoc, parse_packet by (done || lia). split; [done|].
  rewrite NextPacket_packet. by repeat split.
Qed.

(** The laws of a packet type whose wire form is one header and one body. *)
Section standard.
Context {T : Type} `{codec : RtcpCodec T}.
Context (inv wf : T -> Prop) (count : T -> Z) (body : T -> bytes) (image : T -> T).

Definition standard_encode (p : T) : bytes :=
  RtcpPacket.header_bytes (count p) codec_type (zlen (body p) / 4) false ++ body p.

Record standard : Prop := {
  standard_inv p : wf p -> inv p;
  standard_count p : wf p -> 0 <= count p < 32;
  standard_fmt p : wf p -> codec_fmt (count p) = true;
  standard_aligned p : wf p -> zlen (body p) mod 4 = 0;
  standard_small p : wf p -> zlen (body p) <= 4 * 65535;
  standard_length p : wf p -> codec_block_length p = 4 + zlen (body p);
  standard_create p max_length callback st :
    wf p -> 0 <= windex st -> windex st + (4 + zlen (body p)) <= max_length ->
    max_length <= zlen (wbuf st) -> max_length < 2 ^ 64 ->
    codec_create p max_length callback st = append (standard_encode p) st;
  standard_parse p rest : wf p ->
    codec_parse codec_new
      (CommonHeader.Mk codec_type (count p) 0 (zlen (body p)) (body p ++ rest)) =
    Some (image p, true);
  standard_safe p h :
    CommonHeader.valid h -> CommonHeader.type h = codec_type ->
    codec_fmt (CommonHeader.fmt h) = true ->
    exists p' b, codec_parse p h = Some (p', b) /\ (p = codec_new -> b = true -> inv p')
}.

Lemma length_standard_encode p : zlen (standard_encode p) = 4 + zlen (body p).
Proof. unfold standard_encode. rewrite length_app, length_header_bytes. lia. Qed.

Lemma create_result_append p max_length callback st :
  windex st + (4 + zlen (body p)) <= max_length ->
  create_result (standard_encode p) max_length callback st = append (standard_encode p) st.
Proof. intros. apply create_result_fits. rewrite length_standard_encode. lia. Qed.

Definition standard_laws (S : standard) : RtcpCodecLaws T.
Proof.
  refine {| codec_inv := inv; codec_wf := wf; codec_encode := standard_encode;
            codec_image := image |}.
  - apply S.
  - intros p Hp. by rewrite length_standard_encode, (standard_length S).
  - intros p Hp. rewrite (standard_length S) by done. lia.
  - intros p m cb st Hp Hi Hm Hb H64.
    rewrite (standard_length S) in Hm by done. by apply S.
  - intros p this rest size Hp Hs.
    apply packet_parses; [by apply S..|done|by apply S|by apply S].
  - intros h Hv Ht Hf. destruct (standard_safe S codec_new h Hv Ht Hf) as (p' & b & -> & _).
    by eexists.
  - intros p h Hv Ht Hf E. destruct (standard_safe S codec_new h Hv Ht Hf) as (p' & b & E' & Hw).
    rewrite E' in E. injection E as -> ->. by apply Hw.
Defined.

End standard.

(** What a round trip through a buffer means: Create succeeds, writes exactly
    BlockLength octets at the index and nothing before it or after them, and
    parsing at the old index returns [q] and leads to what followed. *)
Definition roundtrips {T} (create : W bool) (parse : CommonHeader.t -> option (T * bool))
    (block_length : Z) (q : T) (st : wstate) : Prop :=
  exists st' h,
    create st = Some (true, st') /\
    windex st' = windex st + block_length /\ wsent st' = wsent st /\
    length (wbuf st') = length (wbuf st) /\
    take (Z.to_nat (windex st)) (wbuf st') = take (Z.to_nat (windex st)) (wbuf st) /\
    CommonHeader.Parse CommonHeader.new (drop (Z.to_nat (windex st)) (wbuf st')) block_length =
      Some (h, true) /\
    CommonHeader.NextPacket h = drop (Z.to_nat (windex st + block_length)) (wbuf st) /\
    parse h = Some (q, true).

Lemma put_split buf off bs : 0 <= off -> off + zlen bs <= zlen buf ->
  exists b, put buf off bs = Some b /\ length b = length buf /\
    take (Z.to_nat off) b = take (Z.to_nat off) buf /\
    drop (Z.to_nat off) b = bs ++ drop (Z.to_nat (off + zlen bs)) buf.
Proof.
  intros Ho Hl. destruct (put_Some buf off bs) as [b Hb]; [done|done|].
  exists b. split; [done|]. split; [by eapply put_length|].
  unfold put in Hb. destruct (_ && _); [|done]. injection Hb as <-.
  assert (Ht : length (take (Z.to_nat off) buf) = Z.to_nat off) by (rewrite length_take; lia).
  rewrite take_app_length', drop_app_length' by done.
  split; [done|]. do 2 f_equal. lia.
Qed.

Lemma codec_roundtrip {T} `{RtcpCodecLaws T} (p : T) max_length callback st :
  codec_wf p -> 0 <= windex st -> windex st + codec_block_length p <= max_length ->
  max_length <= zlen (wbuf st) -> max_length < 2 ^ 64 ->
  roundtrips (codec_create p max_length callback) (codec_parse codec_new)
    (codec_block_length p) (codec_image p) st.
Proof.
  intros Hp Hi Hm Hb H64. unfold roundtrips. rewrite codec_creates by done. unfold append.
  destruct (put_split (wbuf st) (windex st) (codec_encode p)) as (b & Eb & Hl & Ht & Hd);
    [done|rewrite codec_length by done; lia|].
  destruct (codec_parses p CommonHeader.new
    (drop (Z.to_nat (windex st + zlen (codec_encode p))) (wbuf st)) (codec_block_length p))
    as (h & Eh & _ & _ & Hn & Hp'); [done|rewrite codec_length by done; lia|].
  rewrite Eb. eexists _, h. split; [done|]. cbn [windex wsent wbuf].
  rewrite Hd, Eh, Hn, Hp', !(codec_length p) by done. by splits.
Qed.

Lemma runs_at_wlift {A B} i (o : option A) (x : A) (f : A -> W B) b bs :
  o = Some x -> runs_at i (f x) b bs -> runs_at i (wlift o ≫= f) b bs.
Proof. intros -> H st. apply H. Qed.

Lemma write_at_be k B v :
  write_at k (ByteWriter.WriteBigEndian B v) = write_at k (be_bytes B v).
Proof. by rewrite WriteBigEndian_spec. Qed.

Lemma stores_wlift {A} (o : option A) x (f : A -> W unit) k bs :
  o = Some x -> stores k (f x) bs -> stores k (wlift o ≫= f) bs.
Proof. intros -> H st. apply H. Qed.

(** Stores that advance a pointer of their own. *)
Fixpoint for_each_at {X} (f : Z -> X -> W unit) (stride k : Z) (l : list X) : W unit :=
  match l with
  | [] => mret tt
  | x :: l' => f k x ;; for_each_at f stride (k + stride) l'
  end.

Lemma stores_for_each_at {X} (f : Z -> X -> W unit) (enc : X -> bytes) stride l k :
  (forall k x, In x l -> stores k (f k x) (enc x)) ->
  (forall x, In x l -> zlen (enc x) = stride) ->
  stores k (for_each_at f stride k l) (concat (map enc l)).
Proof.
  revert k. induction l as [|x l IH]; intros k Hf Hl; [apply stores_ret|].
  cbn [for_each_at map concat]. eapply stores_bind; [apply Hf; by left| |].
  - rewrite Hl by (by left). reflexivity.
  - apply IH; intros; [apply Hf|apply Hl]; by right.
Qed.

(** Skipping and reading the pieces of a known payload. *)
Lemma read_skip w B m v q off :
  Z.of_nat m <= off ->
  read_be w B (be_bytes m v ++ q) off = read_be w B q (off - Z.of_nat m).
Proof. intros. rewrite read_be_app_skip; rewrite length_be_bytes; done. Qed.

Lemma peek_skip m v q off :
  Z.of_nat m <= off -> peek (be_bytes m v ++ q) off = peek q (off - Z.of_nat m).
Proof. intros. rewrite peek_app_skip; rewrite length_be_bytes; done. Qed.

Lemma be_bytes_1 v : is_u8 v -> be_bytes 1 v = [v].
Proof.
  intros Hv. unfold be_bytes. f_equal. change (u8 (v / 1) = v). rewrite Z.div_1_r. by apply u8_id.
Qed.

Lemma peek_here v q : is_u8 v -> peek (be_bytes 1 v ++ q) 0 = Some v.
Proof.
  intros Hv. unfold be_bytes, app. rewrite peek_app_here. f_equal.
  change (u8 (v / 1) = v). rewrite Z.div_1_r. by apply u8_id.
Qed.

Lemma read_signed_skip w B m v q off :
  Z.of_nat m <= off ->
  read_be_signed w B (be_bytes m v ++ q) off = read_be_signed w B q (off - Z.of_nat m).
Proof. intros. rewrite read_be_signed_app_skip; rewrite length_be_bytes; done. Qed.

Lemma read_items_skip {A} (f : A -> bytes -> Z -> option A) stride :
  (forall old a q off, zlen a <= off -> f old (a ++ q) off = f old q (off - zlen a)) ->
  forall olds m v q off, 0 <= stride -> Z.of_nat m <= off ->
  read_items f stride olds (be_bytes m v ++ q) off =
  read_items f stride olds q (off - Z.of_nat m).
Proof.
  intros Hf olds m v q off Hs Ho.
  rewrite read_items_app_skip; [by rewrite length_be_bytes|intros; by apply Hf|done|].
  by rewrite length_be_bytes.
Qed.

(** Vectors of 32-bit words. *)
Lemma length_concat_be_bytes (l : list Z) : zlen (concat (map (be_bytes 4) l)) = 4 * zlen l.
Proof. induction l as [|x l IH]; [done|]. cbn [map concat length]. rewrite length_app, length_be_bytes. lia. Qed.

Lemma read_u32s_encode l olds q : Forall is_u32 l -> length olds = length l ->
  read_items (fun _ : Z => read_u32) 4 olds (concat (map (be_bytes 4) l) ++ q) 0 = Some l.
Proof.
  intros Hf Hl. apply read_items_encode; try done.
  - intros. by apply read_be_app_skip.
  - intros old x q' Hx. rewrite List.Forall_forall in Hf. by apply read_u32_here, Hf.
Qed.

(** A loop over items reads as many as asked for and each is well formed. *)
Lemma read_items_safe {A} (f : A -> bytes -> Z -> option A) (ok : A -> Prop) stride p :
  (forall old off, 0 <= off -> off + stride <= zlen p -> exists x, f old p off = Some x /\ ok x) ->
  0 <= stride ->
  forall olds n off, 0 <= off -> off + stride * n <= zlen p -> zlen olds = n ->
  exists l, read_items f stride olds p off = Some l /\ zlen l = n /\ Forall ok l.
Proof.
  intros Hf Hs. induction olds as [|old olds IH]; intros n off Ho Hl Hn.
  - by exists [].
  - cbn [length read_items] in *.
    destruct (Hf old off) as (x & -> & Hx); [done|nia|]. cbn [mbind option_bind].
    destruct (IH (n - 1) (off + stride)) as (l & -> & Hll & Hl'); [lia|lia|lia|].
    exists (x :: l). cbn [length]. split; [done|]. split; [lia|by constructor].
Qed.

Lemma read_u32s_safe p n olds off :
  is_bytes p -> 0 <= off -> off + 4 * n <= zlen p -> zlen olds = n ->
  exists l, read_items (fun _ : Z => read_u32) 4 olds p off = Some l /\
    zlen l = n /\ Forall is_u32 l.
Proof.
  intros Hp Ho Hl Hn. apply read_items_safe; try done.
  intros. by apply read_u32_Some.
Qed.

Lemma u32s_skip (old : Z) a q off : zlen a <= off ->
  (fun _ : Z => read_u32) old (a ++ q) off = (fun _ : Z => read_u32) old q (off - zlen a).
Proof. intros. by apply read_be_app_skip. Qed.

Lemma runs_write_be_last B v n : n = Z.of_nat B ->
  runs 0 (write_at 0 (ByteWriter.WriteBigEndian B v) ;; add_index n) tt (be_bytes B v).
Proof.
  intros ->. eapply runs_eq; [eapply runs_write_be; [reflexivity|]|apply app_nil_r].
  apply runs_add_last.
Qed.

(** Compute the offsets that are left after a skip. *)
Ltac ground :=
  repeat match goal with
    | |- context [?a - Z.of_nat ?m] =>
        is_ground m; let x := eval vm_compute in (a - Z.of_nat m) in
        change (a - Z.of_nat m) with x
    end.

Ltac in_range := first [done | wordlia].

Ltac read_step :=
  first
    [ rewrite read_u32_here by in_range | rewrite read_u16_here by in_range
    | rewrite read_u24_here by in_range | rewrite peek_here by in_range
    | rewrite read_skip by lia | rewrite peek_skip by lia
    | rewrite read_signed_skip by lia ];
  ground; cbn [mbind option_bind].

Ltac items_skip H := repeat (rewrite (read_items_skip _ _ H) by lia; ground).

Ltac read_all := rewrite <- ?app_assoc; repeat read_step.

(** Reads at known offsets of a long enough payload succeed. *)
Ltac safe_step :=
  match goal with
  | |- context [read_be 32 4 ?p ?o] =>
      let v := fresh "v" in
      destruct (read_u32_Some p o) as (v & -> & ?); [done|lia|lia|]
  | |- context [read_be 16 2 ?p ?o] =>
      let v := fresh "v" in
      destruct (read_u16_Some p o) as (v & -> & ?); [done|lia|lia|]
  | |- context [peek ?p ?o] =>
      let v := fresh "v" in
      destruct (peek_u8_Some p o) as (v & -> & ?); [done|lia|]
  | |- context [read_be 32 3 ?p ?o] =>
      let v := fresh "v" in
      destruct (read_u24_Some p o) as (v & -> & ?); [done|lia|lia|]
  end; cbn [mbind option_bind].

(** The projections of a header the parsers ask for. *)
Ltac header_simpl :=
  unfold CommonHeader.type, CommonHeader.fmt, CommonHeader.count,
    CommonHeader.payload_size_bytes, CommonHeader.payload in *;
  cbn [CommonHeader.packet_type_ CommonHeader.count_or_format_ CommonHeader.padding_size_
    CommonHeader.payload_size_ CommonHeader.payload_] in *.

(** An assertion that holds. *)
Lemma wcheck_then {A} (b : bool) (k : W A) : b = true -> (wcheck b ;; k) = k.
Proof. by intros ->. Qed.

Lemma negb_eqb_0 a : a <> 0 -> negb (a =? 0) = true.
Proof. intros H. apply negb_true_iff. by apply Z.eqb_neq. Qed.

Ltac check_step := rewrite check_then by first [done | by apply Z.eqb_eq | apply Z.leb_le; lia].

(** A length test that fails, or holds. *)
Ltac ltb_false :=
  match goal with |- context [?a <? ?b] => rewrite (proj2 (Z.ltb_ge a b)) by lia end.
Ltac eqb_true :=
  match goal with |- context [?a =? ?b] => rewrite (proj2 (Z.eqb_eq a b)) by lia; cbn [negb] end.

(** The common feedback part of a writer. *)
Lemma runs_psfb {A} fb (k : W A) a y : runs 0 k a y ->
  runs 0 (Psfb.CreateCommonFeedback fb ;; add_index CommonFeedback.kCommonFeedbackLength ;; k) a
    (CommonFeedback.encode fb ++ y).
Proof.
  intros Hk. eapply runs_store; [apply stores_psfb|reflexivity|]. by apply runs_add.
Qed.

Lemma runs_rtpfb {A} fb (k : W A) a y : runs 0 k a y ->
  runs 0 (Rtpfb.CreateCommonFeedback fb ;; add_index CommonFeedback.kCommonFeedbackLength ;; k) a
    (CommonFeedback.encode fb ++ y).
Proof. apply runs_psfb. Qed.

Lemma skip_feedback {A} (f : A -> bytes -> Z -> option A) stride fb olds q off :
  (forall old a q off, zlen a <= off -> f old (a ++ q) off = f old q (off - zlen a)) ->
  0 <= stride -> 8 <= off ->
  read_items f stride olds (CommonFeedback.encode fb ++ q) off =
  read_items f stride olds q (off - 8).
Proof. intros Hf Hs Ho. by rewrite read_items_app_skip by (done || intros; by apply Hf). Qed.

(** Reading back items of a fixed length, from their own lemmas. *)
Lemma concat_length {A} (enc : A -> bytes) n l :
  (forall x, zlen (enc x) = n) -> zlen (concat (map enc l)) = n * zlen l.
Proof.
  intros He. induction l as [|x l IH]; [cbn; lia|].
  cbn [map concat length]. rewrite length_app, Nat2Z.inj_add, IH, He. lia.
Qed.

(** ** Properties *)

Lemma valid_size_padding h : CommonHeader.valid h ->
  0 <= CommonHeader.payload_size_ h + CommonHeader.padding_size_ h.
Proof. intros [_ _ Hp Hs _ _ _ _]. unfold is_u8 in Hp. lia. Qed.

(** The common header is decided exactly: on any buffer Parse reads inside the
    given size and returns true exactly when the version is 2, the announced number of
    words fits, and the padding, when flagged, is between one octet and the payload;
    then payload and padding fit the buffer in whole words, and the next packet is what
    follows the announced words. *)
Theorem common_header_exact this buffer size_bytes :
  is_bytes buffer -> size_bytes <= zlen buffer ->
  exists h,
    CommonHeader.Parse this buffer size_bytes = Some (h, CommonHeader.accepts buffer size_bytes) /\
    (CommonHeader.accepts buffer size_bytes = true ->
     CommonHeader.valid h /\ 4 <= CommonHeader.packet_size h <= size_bytes /\
     CommonHeader.payload h = drop 4 buffer /\
     CommonHeader.NextPacket h = drop (Z.to_nat (CommonHeader.packet_size h)) buffer).
Proof.
  intros Hb Hs. destruct (CommonHeader_parse_run this buffer size_bytes Hb Hs) as (h & E & Ha).
  exists h. split; [done|]. intros Hacc. destruct (Ha Hacc) as (Hv & Hsz & Hp).
  pose proof (valid_size_padding h Hv) as Hnn. splits; try done.
  - unfold CommonHeader.packet_size, CommonHeader.kHeaderSizeBytes. lia.
  - unfold CommonHeader.NextPacket. change (CommonHeader.payload_ h) with (CommonHeader.payload h).
    rewrite Hp, drop_drop. f_equal. unfold CommonHeader.packet_size, CommonHeader.kHeaderSizeBytes. lia.
Qed.

Lemma common_header_exact_witness :
  exists h, CommonHeader.Parse CommonHeader.new [161; 203; 0; 1; 9; 9; 9; 2; 128; 200] 10 = Some (h, true) /\
    CommonHeader.packet_size h <= 10.
Proof.
  destruct (common_header_exact CommonHeader.new [161; 203; 0; 1; 9; 9; 9; 2; 128; 200] 10) as (h & E & Hh);
    [decide_wf|vm_compute; discriminate|].
  exists h. split; [exact E|]. apply Hh. vm_compute. reflexivity.
Defined.

(** A header written by CreateHeader is read back: with its padding flag, whatever
    the buffer held and whatever header object is reused, Parse at the old index finds
    the type, the count or format and, after the padding octets that the last payload
    octet announces, the payload length that were written. *)
Theorem header_write_read count_or_format packet_type len padding st this rest :
  0 <= len <= 65535 -> 0 <= count_or_format < 32 -> is_u8 packet_type ->
  0 <= windex st -> windex st + 4 <= zlen (wbuf st) ->
  drop (Z.to_nat (windex st + 4)) (wbuf st) = rest -> 4 * len <= zlen rest ->
  (padding = true -> exists p, peek rest (4 * len - 1) = Some p /\ 1 <= p <= 4 * len /\ p < 256) ->
  exists st' p,
    RtcpPacket.CreateHeaderPadded count_or_format packet_type len padding st = Some (tt, st') /\
    windex st' = windex st + 4 /\ length (wbuf st') = length (wbuf st) /\
    CommonHeader.Parse this (drop (Z.to_nat (windex st)) (wbuf st')) (4 + 4 * len) =
      Some (CommonHeader.Mk packet_type count_or_format p (4 * len - p) rest, true) /\
    (if padding then peek rest (4 * len - 1) = Some p else p = 0).
Proof.
  intros Hl Hc Ht Hi Hw Hrest Hfit Hpad.
  rewrite (runs_CreateHeaderPadded count_or_format packet_type len padding Hl Hc Ht st) by lia.
  rewrite !Z.add_0_r.
  destruct (put_split (wbuf st) (windex st) (RtcpPacket.header_bytes count_or_format packet_type len padding))
    as (b & -> & Hlb & _ & Hd); [done|rewrite length_header_bytes; lia|].
  rewrite length_header_bytes in *. change (Z.of_nat 4) with 4 in *. rewrite Hrest in Hd.
  destruct (parse_header_general this count_or_format packet_type len padding rest (4 + 4 * len))
    as (p & E & Hp); try done; try lia.
  - intros p -> E. destruct (Hpad eq_refl) as (p' & E' & Hr & Hb). rewrite E in E'.
    injection E' as <-. done.
  - intros ->. destruct (Hpad eq_refl) as (p' & E' & Hr & Hb). split; [lia|by exists p'].
  - eexists _, p. split; [done|]. cbn [windex wbuf]. rewrite Hd. by splits.
Qed.

Lemma header_write_read_witness :
  exists st' p,
    RtcpPacket.CreateHeaderPadded 3 200 1 true (WState [7; 7; 7; 7; 7; 9; 9; 9; 2] 1 []) = Some (tt, st') /\
    CommonHeader.Parse CommonHeader.new (drop 1 (wbuf st')) 8 =
      Some (CommonHeader.Mk 200 3 p (4 - p) [9; 9; 9; 2], true).
Proof.
  destruct (header_write_read 3 200 1 true (WState [7; 7; 7; 7; 7; 9; 9; 9; 2] 1 []) CommonHeader.new
    [9; 9; 9; 2]) as (st' & p & E & _ & _ & E' & _); try decide_wf.
  - intros _. exists 2. decide_wf.
  - exists st', p. split; [exact E|exact E'].
Defined.
