(* ===== verification/RtcpReports.v ===== *)
(** * Sender and receiver reports

    rtcp_packet/report_block.{h,cc}, sender_report.{h,cc}, receiver_report.{h,cc}
    and extended_jitter_report.{h,cc}.  The NTP time stamp of a sender report is
    a class of system_wrappers, outside the repository: it is the parameter
    [ntp] with the operations [NtpTime] and the documented laws [NtpTimeLaws]. *)

From S2P Require Import Prelude ByteIo Buffers RtcpCore.

(** ** NtpTime: a parameter *)

Class NtpTime (ntp : Type) := {
  ntp_zero : ntp;                  (* NtpTime() *)
  ntp_Set : Z -> Z -> ntp;         (* Set(seconds, fractions) *)
  ntp_seconds : ntp -> Z;
  ntp_fractions : ntp -> Z
}.

Class NtpTimeLaws (ntp : Type) {ops : NtpTime ntp} := {
  ntp_seconds_u32 n : is_u32 (ntp_seconds n);
  ntp_fractions_u32 n : is_u32 (ntp_fractions n);
  ntp_Set_get n : ntp_Set (ntp_seconds n) (ntp_fractions n) = n
}.

(** The 64-bit representation the class documents (seconds above fractions), for
    concrete runs. *)
Record ntp_value := NtpValue { ntp_raw : Z; ntp_raw_u64 : (ntp_raw mod 2 ^ 64 =? ntp_raw) = true }.

Lemma ntp_wrap z : ((z mod 2 ^ 64) mod 2 ^ 64 =? z mod 2 ^ 64) = true.
Proof. apply Z.eqb_eq. by apply Z.mod_mod. Qed.

Lemma ntp_value_eq a b : ntp_raw a = ntp_raw b -> a = b.
Proof. destruct a as [x p], b as [y q]. cbn. intros <-. f_equal. apply proof_irrel. Qed.

#[global] Instance ntp_value_ops : NtpTime ntp_value := {|
  ntp_zero := NtpValue (0 mod 2 ^ 64) (ntp_wrap 0);
  ntp_Set := fun s f => NtpValue ((s * 2 ^ 32 + f) mod 2 ^ 64) (ntp_wrap _);
  ntp_seconds := fun n => ntp_raw n / 2 ^ 32;
  ntp_fractions := fun n => ntp_raw n mod 2 ^ 32
|}.

#[global] Instance ntp_value_laws : NtpTimeLaws ntp_value.
Proof.
  constructor; intros [z Hz]; cbn [ntp_seconds ntp_fractions ntp_Set ntp_value_ops ntp_raw];
    pose proof Hz as Hz'; apply Z.eqb_eq in Hz'; pose proof (Z.mod_pos_bound z (2 ^ 64)) as Hb.
  - unfold is_u32. change (2 ^ 32) with 4294967296. change (2 ^ 64) with 18446744073709551616 in *. dlia.
  - apply Z.mod_pos_bound. lia.
  - apply ntp_value_eq. cbn. rewrite <- Hz' at 3. f_equal.
    pose proof (Z.div_mod z (2 ^ 32)). lia.
Qed.

(** ** ReportBlock *)

Module ReportBlock.

Record t := Mk {
  source_ssrc_ : Z;             (* uint32_t *)
  fraction_lost_ : Z;           (* uint8_t *)
  cumulative_lost_ : Z;         (* int32_t *)
  extended_high_seq_num_ : Z;   (* uint32_t *)
  jitter_ : Z;                  (* uint32_t *)
  last_sr_ : Z;                 (* uint32_t *)
  delay_since_last_sr_ : Z      (* uint32_t *)
}.

Definition kLength : Z := 24.

Definition new : t := Mk 0 0 0 0 0 0 0.

(** Parse(buffer + off, length). *)
Definition Parse (this : t) (buffer : bytes) (off length : Z) : option (t * bool) :=
  if length <? kLength then Some (this, false) else
  source_ssrc ← read_u32 buffer (off + 0);
  fraction_lost ← peek buffer (off + 4);
  cumulative_lost ← read_be_signed 32 3 buffer (off + 5);
  extended_high_seq_num ← read_u32 buffer (off + 8);
  jitter ← read_u32 buffer (off + 12);
  last_sr ← read_u32 buffer (off + 16);
  delay_since_last_sr ← read_u32 buffer (off + 20);
  Some (Mk source_ssrc fraction_lost cumulative_lost extended_high_seq_num jitter
          last_sr delay_since_last_sr, true).

Definition Create (this : t) : W unit :=
  wcheck (cumulative_lost_ this <? Z.shiftl 1 23) ;;
  write_u32 0 (source_ssrc_ this) ;;
  write_u8 4 (fraction_lost_ this) ;;
  write_at 5 (ByteWriter.WriteBigEndianSigned 32 3 (cumulative_lost_ this)) ;;
  write_u32 8 (extended_high_seq_num_ this) ;;
  write_u32 12 (jitter_ this) ;;
  write_u32 16 (last_sr_ this) ;;
  write_u32 20 (delay_since_last_sr_ this).

Definition SetMediaSsrc (ssrc : Z) '(Mk _ b c d e f g) : t := Mk ssrc b c d e f g.
Definition SetFractionLost (lost : Z) '(Mk a _ c d e f g) : t := Mk a lost c d e f g.
Definition SetExtHighestSeqNum (n : Z) '(Mk a b c _ e f g) : t := Mk a b c n e f g.
Definition SetJitter (j : Z) '(Mk a b c d _ f g) : t := Mk a b c d j f g.
Definition SetLastSr (s : Z) '(Mk a b c d e _ g) : t := Mk a b c d e s g.
Definition SetDelayLastSr (s : Z) '(Mk a b c d e f _) : t := Mk a b c d e f s.

Definition SetCumulativeLost (this : t) (cumulative_lost : Z) : t * bool :=
  if (cumulative_lost >=? Z.shiftl 1 23) || (cumulative_lost <? - Z.shiftl 1 23)
  then (this, false)
  else let '(Mk a b _ d e f g) := this in (Mk a b cumulative_lost d e f g, true).

Definition cumulative_lost (this : t) : Z :=
  if cumulative_lost_ this <? 0 then 0 else cumulative_lost_ this.

Definition wf (this : t) : Prop :=
  is_u32 (source_ssrc_ this) /\ is_u8 (fraction_lost_ this) /\
  - 2 ^ 23 <= cumulative_lost_ this < 2 ^ 23 /\
  is_u32 (extended_high_seq_num_ this) /\ is_u32 (jitter_ this) /\
  is_u32 (last_sr_ this) /\ is_u32 (delay_since_last_sr_ this).

Definition encode (this : t) : bytes :=
  be_bytes 4 (source_ssrc_ this) ++ be_bytes 1 (fraction_lost_ this) ++
  be_bytes 3 (u32 (cumulative_lost_ this)) ++
  be_bytes 4 (extended_high_seq_num_ this) ++ be_bytes 4 (jitter_ this) ++
  be_bytes 4 (last_sr_ this) ++ be_bytes 4 (delay_since_last_sr_ this).

End ReportBlock.

(** The report blocks of both report packets, on the wire. *)
Definition encode_blocks (blocks : list ReportBlock.t) : bytes :=
  concat (map ReportBlock.encode blocks).

(** ** SenderReport *)

Module SenderReport.
Section ntp.
Context {ntp : Type} `{NtpTime ntp}.

Record t := Mk {
  sender_ssrc_ : Z;
  ntp_ : ntp;
  rtp_timestamp_ : Z;
  sender_packet_count_ : Z;
  sender_octet_count_ : Z;
  report_blocks_ : list ReportBlock.t
}.

Definition kPacketType : Z := 200.
Definition kMaxNumberOfReportBlocks : Z := 0x1f.
Definition kSenderBaseLength : Z := 24.

Definition new : t := Mk 0 ntp_zero 0 0 0 [].

Definition SetNtp (n : ntp) '(Mk a _ c d e f) : t := Mk a n c d e f.
Definition SetRtpTimestamp (ts : Z) '(Mk a b _ d e f) : t := Mk a b ts d e f.
Definition SetPacketCount (n : Z) '(Mk a b c _ e f) : t := Mk a b c n e f.
Definition SetOctetCount (n : Z) '(Mk a b c d _ f) : t := Mk a b c d n f.
Definition ClearReportBlocks '(Mk a b c d e _) : t := Mk a b c d e [].

(** One iteration of the loop over [report_blocks_]. *)
Definition read_block (block : ReportBlock.t) (p : bytes) (off : Z) : option ReportBlock.t :=
  '(block, block_parsed) ← ReportBlock.Parse block p off ReportBlock.kLength;
  check block_parsed ;; Some block.

Definition Parse (this : t) (packet : CommonHeader.t) : option (t * bool) :=
  check (CommonHeader.type packet =? kPacketType) ;;
  let report_block_count := CommonHeader.count packet in
  if CommonHeader.payload_size_bytes packet <?
     kSenderBaseLength + report_block_count * ReportBlock.kLength
  then Some (this, false) else
  let payload := CommonHeader.payload packet in
  ssrc ← read_u32 payload 0;
  secs ← read_u32 payload 4;
  frac ← read_u32 payload 8;
  rtp_timestamp ← read_u32 payload 12;
  packet_count ← read_u32 payload 16;
  octet_count ← read_u32 payload 20;
  blocks ← read_items read_block ReportBlock.kLength
             (vec_resize (Z.to_nat report_block_count) ReportBlock.new (report_blocks_ this))
             payload kSenderBaseLength;
  check (kSenderBaseLength + ReportBlock.kLength * zlen blocks <=?
         CommonHeader.payload_size_bytes packet) ;;
  Some (Mk ssrc (ntp_Set secs frac) rtp_timestamp packet_count octet_count blocks, true).

Definition BlockLength (this : t) : Z :=
  kHeaderLength + kSenderBaseLength + zlen (report_blocks_ this) * ReportBlock.kLength.

Definition Create (this : t) (max_length : Z) (callback : bool) : W bool :=
  create_with (BlockLength this)
    (length ← wlift (RtcpPacket.HeaderLength (BlockLength this));
     RtcpPacket.CreateHeader (zlen (report_blocks_ this)) kPacketType length ;;
     write_u32 0 (sender_ssrc_ this) ;;
     write_u32 4 (ntp_seconds (ntp_ this)) ;;
     write_u32 8 (ntp_fractions (ntp_ this)) ;;
     write_u32 12 (rtp_timestamp_ this) ;;
     write_u32 16 (sender_packet_count_ this) ;;
     write_u32 20 (sender_octet_count_ this) ;;
     add_index kSenderBaseLength ;;
     for_each (fun block => ReportBlock.Create block ;; add_index ReportBlock.kLength)
       (report_blocks_ this))
    max_length callback.

Definition AddReportBlock (this : t) (block : ReportBlock.t) : t * bool :=
  if zlen (report_blocks_ this) >=? kMaxNumberOfReportBlocks then (this, false)
  else let '(Mk a b c d e blocks) := this in (Mk a b c d e (blocks ++ [block]), true).

Definition SetReportBlocks (this : t) (blocks : list ReportBlock.t) : t * bool :=
  if zlen blocks >? kMaxNumberOfReportBlocks then (this, false)
  else let '(Mk a b c d e _) := this in (Mk a b c d e blocks, true).

Definition wf (this : t) : Prop :=
  is_u32 (sender_ssrc_ this) /\ is_u32 (rtp_timestamp_ this) /\
  is_u32 (sender_packet_count_ this) /\ is_u32 (sender_octet_count_ this) /\
  zlen (report_blocks_ this) <= 31 /\ Forall ReportBlock.wf (report_blocks_ this).

Definition body (this : t) : bytes :=
  be_bytes 4 (sender_ssrc_ this) ++ be_bytes 4 (ntp_seconds (ntp_ this)) ++
  be_bytes 4 (ntp_fractions (ntp_ this)) ++ be_bytes 4 (rtp_timestamp_ this) ++
  be_bytes 4 (sender_packet_count_ this) ++ be_bytes 4 (sender_octet_count_ this) ++
  encode_blocks (report_blocks_ this).

Definition encode (this : t) : bytes :=
  RtcpPacket.header_bytes (zlen (report_blocks_ this)) kPacketType
    (zlen (body this) / 4) false ++ body this.

End ntp.
Arguments t : clear implicits.
End SenderReport.

(** ** ReceiverReport *)

Module ReceiverReport.

Record t := Mk { sender_ssrc_ : Z; report_blocks_ : list ReportBlock.t }.

Definition kPacketType : Z := 201.
Definition kMaxNumberOfReportBlocks : Z := 0x1f.
Definition kRrBaseLength : Z := 4.

Definition new : t := Mk 0 [].

(** The loop body; the result of the block's Parse is not looked at. *)
Definition read_block (block : ReportBlock.t) (p : bytes) (off : Z) : option ReportBlock.t :=
  '(block, _) ← ReportBlock.Parse block p off ReportBlock.kLength; Some block.

Definition Parse (this : t) (packet : CommonHeader.t) : option (t * bool) :=
  check (CommonHeader.type packet =? kPacketType) ;;
  let report_blocks_count := CommonHeader.count packet in
  if CommonHeader.payload_size_bytes packet <?
     kRrBaseLength + report_blocks_count * ReportBlock.kLength
  then Some (this, false) else
  let payload := CommonHeader.payload packet in
  ssrc ← read_u32 payload 0;
  blocks ← read_items read_block ReportBlock.kLength
             (vec_resize (Z.to_nat report_blocks_count) ReportBlock.new (report_blocks_ this))
             payload kRrBaseLength;
  check (kRrBaseLength + ReportBlock.kLength * zlen blocks <=?
         CommonHeader.payload_size_bytes packet) ;;
  Some (Mk ssrc blocks, true).

Definition BlockLength (this : t) : Z :=
  kHeaderLength + kRrBaseLength + zlen (report_blocks_ this) * ReportBlock.kLength.

Definition Create (this : t) (max_length : Z) (callback : bool) : W bool :=
  with_room (BlockLength this)
    (length ← wlift (RtcpPacket.HeaderLength (BlockLength this));
     RtcpPacket.CreateHeader (zlen (report_blocks_ this)) kPacketType length ;;
     write_u32 0 (sender_ssrc_ this) ;;
     add_index kRrBaseLength ;;
     for_each (fun block => ReportBlock.Create block ;; add_index ReportBlock.kLength)
       (report_blocks_ this) ;;
     mret true)
    max_length callback.

Definition AddReportBlock (this : t) (block : ReportBlock.t) : t * bool :=
  if zlen (report_blocks_ this) >=? kMaxNumberOfReportBlocks then (this, false)
  else (Mk (sender_ssrc_ this) (report_blocks_ this ++ [block]), true).

Definition SetReportBlocks (this : t) (blocks : list ReportBlock.t) : t * bool :=
  if zlen blocks >? kMaxNumberOfReportBlocks then (this, false)
  else (Mk (sender_ssrc_ this) blocks, true).

Definition wf (this : t) : Prop :=
  is_u32 (sender_ssrc_ this) /\
  zlen (report_blocks_ this) <= 31 /\ Forall ReportBlock.wf (report_blocks_ this).

Definition body (this : t) : bytes :=
  be_bytes 4 (sender_ssrc_ this) ++ encode_blocks (report_blocks_ this).

Definition encode (this : t) : bytes :=
  RtcpPacket.header_bytes (zlen (report_blocks_ this)) kPacketType
    (zlen (body this) / 4) false ++ body this.

End ReceiverReport.

(** ** ExtendedJitterReport *)

Module ExtendedJitterReport.

(** The base class member sender_ssrc_ is not part of this packet. *)
Record t := Mk { inter_arrival_jitters_ : list Z }.

Definition kPacketType : Z := 195.
Definition kMaxNumberOfJitterValues : Z := 0x1f.
Definition kJitterSizeBytes : Z := 4.

Definition new : t := Mk [].

Definition Parse (this : t) (packet : CommonHeader.t) : option (t * bool) :=
  check (CommonHeader.type packet =? kPacketType) ;;
  let number_of_jitters := CommonHeader.count packet in
  if CommonHeader.payload_size_bytes packet <? number_of_jitters * kJitterSizeBytes
  then Some (this, false) else
  jitters ← read_items (fun _ => read_u32) kJitterSizeBytes
              (vec_resize (Z.to_nat number_of_jitters) 0 (inter_arrival_jitters_ this))
              (CommonHeader.payload packet) 0;
  Some (Mk jitters, true).

Definition SetJitterValues (this : t) (values : list Z) : t * bool :=
  if zlen values >? kMaxNumberOfJitterValues then (this, false) else (Mk values, true).

Definition BlockLength (this : t) : Z :=
  kHeaderLength + kJitterSizeBytes * zlen (inter_arrival_jitters_ this).

Definition Create (this : t) (max_length : Z) (callback : bool) : W bool :=
  create_with (BlockLength this)
    (let length := zlen (inter_arrival_jitters_ this) in
     RtcpPacket.CreateHeader length kPacketType length ;;
     for_each (fun jitter => write_u32 0 jitter ;; add_index kJitterSizeBytes)
       (inter_arrival_jitters_ this))
    max_length callback.

Definition wf (this : t) : Prop :=
  zlen (inter_arrival_jitters_ this) <= 31 /\ Forall is_u32 (inter_arrival_jitters_ this).

Definition body (this : t) : bytes := concat (map (be_bytes 4) (inter_arrival_jitters_ this)).

Definition encode (this : t) : bytes :=
  RtcpPacket.header_bytes (zlen (inter_arrival_jitters_ this)) kPacketType
    (zlen (body this) / 4) false ++ body this.

End ExtendedJitterReport.

(** ** Report blocks on the wire *)

Lemma write_at_signed k B w v :
  write_at k (ByteWriter.WriteBigEndianSigned w B v) =
  write_at k (ByteWriter.WriteBigEndian B (uw w v)).
Proof. done. Qed.

Lemma stores_check k (c : bool) m bs : c = true -> stores k m bs -> stores k (wcheck c ;; m) bs.
Proof. intros -> Hm st. apply Hm. Qed.

Lemma stores_block b : ReportBlock.wf b -> stores 0 (ReportBlock.Create b) (ReportBlock.encode b).
Proof.
  intros (_ & _ & Hc & _). unfold ReportBlock.Create, ReportBlock.encode.
  apply stores_check; [apply Z.ltb_lt; apply Hc|].
  rewrite write_at_signed. do 7 stores_step.
Qed.

Lemma length_block b : length (ReportBlock.encode b) = 24%nat.
Proof. done. Qed.

Lemma encode_block_is_bytes b : is_bytes (ReportBlock.encode b).
Proof. repeat apply Forall_app_2; apply be_bytes_is_bytes. Qed.

Lemma read_signed24_here v q : - 2 ^ 23 <= v < 2 ^ 23 ->
  read_be_signed 32 3 (be_bytes 3 (u32 v) ++ q) 0 = Some v.
Proof. intros. apply (read_be_signed_here 32 3); [lia|done|done|done]. Qed.

Lemma read_signed24_Some p off : is_bytes p -> 0 <= off -> off + 3 <= zlen p ->
  exists v, read_be_signed 32 3 p off = Some v /\ - 2 ^ 23 <= v < 2 ^ 23.
Proof. intros. apply (read_be_signed_Some 32 3); [done|lia|done|done|lia|lia]. Qed.

Lemma ReportBlock_Parse_app_skip this a q off :
  zlen a <= off ->
  ReportBlock.Parse this (a ++ q) off ReportBlock.kLength =
  ReportBlock.Parse this q (off - zlen a) ReportBlock.kLength.
Proof.
  intros Ha. unfold ReportBlock.Parse. cbn [Z.ltb Z.compare].
  rewrite !read_be_app_skip, read_be_signed_app_skip, peek_app_skip by lia.
  rewrite <- !Z.add_sub_swap. done.
Qed.

Lemma ReportBlock_Parse_encode this b q :
  ReportBlock.wf b ->
  ReportBlock.Parse this (ReportBlock.encode b ++ q) 0 ReportBlock.kLength = Some (b, true).
Proof.
  intros (?&?&?&?&?&?&?). unfold ReportBlock.Parse, ReportBlock.encode. cbn [Z.ltb Z.compare Z.add].
  rewrite !Z.add_0_l. read_all. rewrite read_signed24_here by done. cbn [mbind option_bind].
  by destruct b.
Qed.

Lemma ReportBlock_Parse_safe this p off :
  is_bytes p -> 0 <= off -> off + 24 <= zlen p ->
  exists b, ReportBlock.Parse this p off ReportBlock.kLength = Some (b, true) /\ ReportBlock.wf b.
Proof.
  intros Hp Ho Hl. unfold ReportBlock.Parse. cbn [Z.ltb Z.compare].
  destruct (read_signed24_Some p (off + 5)) as (l & E & ?); [done|lia|lia|].
  repeat safe_step. rewrite E. cbn [mbind option_bind].
  eexists. split; [done|]. unfold ReportBlock.wf. cbn. tauto.
Qed.

Section blocks.
Context (f : ReportBlock.t -> bytes -> Z -> option ReportBlock.t).
Hypothesis f_Parse : forall this p off b,
  ReportBlock.Parse this p off ReportBlock.kLength = Some (b, true) -> f this p off = Some b.
Hypothesis f_skip : forall this a q off, zlen a <= off -> f this (a ++ q) off = f this q (off - zlen a).

Lemma read_blocks_encode blocks olds q :
  Forall ReportBlock.wf blocks -> length olds = length blocks ->
  read_items f ReportBlock.kLength olds (encode_blocks blocks ++ q) 0 = Some blocks.
Proof using f_Parse f_skip.
  intros Hwf Hl. unfold encode_blocks. apply read_items_encode; try done.
  intros old b q' Hb. apply f_Parse, ReportBlock_Parse_encode.
  rewrite List.Forall_forall in Hwf. by apply Hwf.
Qed.

Lemma read_blocks_safe p n olds off :
  is_bytes p -> 0 <= off -> off + 24 * n <= zlen p -> zlen olds = n ->
  exists blocks, read_items f ReportBlock.kLength olds p off = Some blocks /\
    zlen blocks = n /\ Forall ReportBlock.wf blocks.
Proof using f_Parse.
  intros Hp Ho Hl Hn. apply read_items_safe; try done.
  intros old off' Ho' Hl'.
  destruct (ReportBlock_Parse_safe old p off') as (b & Eb & Hb); [done..|].
  exists b. split; [by apply f_Parse|done].
Qed.
End blocks.

Lemma SenderReport_read_block_Parse this p off b :
  ReportBlock.Parse this p off ReportBlock.kLength = Some (b, true) ->
  SenderReport.read_block this p off = Some b.
Proof. unfold SenderReport.read_block. by intros ->. Qed.

Lemma SenderReport_read_block_skip this a q off :
  zlen a <= off -> SenderReport.read_block this (a ++ q) off = SenderReport.read_block this q (off - zlen a).
Proof. intros. unfold SenderReport.read_block. by rewrite ReportBlock_Parse_app_skip. Qed.

Lemma ReceiverReport_read_block_Parse this p off b :
  ReportBlock.Parse this p off ReportBlock.kLength = Some (b, true) ->
  ReceiverReport.read_block this p off = Some b.
Proof. unfold ReceiverReport.read_block. by intros ->. Qed.

Lemma ReceiverReport_read_block_skip this a q off :
  zlen a <= off ->
  ReceiverReport.read_block this (a ++ q) off = ReceiverReport.read_block this q (off - zlen a).
Proof. intros. unfold ReceiverReport.read_block. by rewrite ReportBlock_Parse_app_skip. Qed.

Lemma length_encode_blocks blocks : zlen (encode_blocks blocks) = 24 * zlen blocks.
Proof.
  induction blocks as [|b blocks IH]; [done|]. unfold encode_blocks in *. cbn [map concat].
  rewrite length_app, length_block. cbn [length]. lia.
Qed.

Lemma runs_blocks blocks : Forall ReportBlock.wf blocks ->
  runs 0 (for_each (fun b => ReportBlock.Create b ;; add_index ReportBlock.kLength) blocks) tt
    (encode_blocks blocks).
Proof.
  intros Hwf. apply runs_for_each. intros b Hb. rewrite List.Forall_forall in Hwf.
  eapply runs_eq; [eapply runs_store; [by apply stores_block, Hwf|reflexivity|]|apply app_nil_r].
  apply runs_add_last.
Qed.

Section sender_report.
Context {ntp : Type} `{NtpTimeLaws ntp}.
Implicit Type p : SenderReport.t ntp.

Lemma SenderReport_length_body p :
  zlen (SenderReport.body p) = 24 + 24 * zlen (SenderReport.report_blocks_ p).
Proof.
  unfold SenderReport.body. rewrite !length_app, !length_be_bytes.
  pose proof (length_encode_blocks (SenderReport.report_blocks_ p)). lia.
Qed.

Lemma SenderReport_length p : zlen (SenderReport.encode p) = SenderReport.BlockLength p.
Proof.
  unfold SenderReport.encode. rewrite length_app, length_header_bytes.
  pose proof (SenderReport_length_body p). unfold SenderReport.BlockLength, kHeaderLength,
    SenderReport.kSenderBaseLength, ReportBlock.kLength. lia.
Qed.

Lemma SenderReport_Create_spec p max_length callback st :
  SenderReport.wf p -> 0 <= windex st <= zlen (wbuf st) ->
  SenderReport.Create p max_length callback st =
  create_result (SenderReport.encode p) max_length callback st.
Proof.
  intros (_ & _ & _ & _ & Hn & Hf) Hi. pose proof (SenderReport_length_body p) as Hb.
  pose proof (SenderReport_length p) as Hl. unfold SenderReport.encode in Hl.
  rewrite length_app, length_header_bytes in Hl.
  apply create_with_result; [|by rewrite SenderReport_length|lia|done].
  apply runs_packet; try dlia; [done|].
  unfold SenderReport.body. do 7 runs_step. by apply runs_blocks.
Qed.

Lemma SenderReport_parse_body p this rest : SenderReport.wf p ->
  SenderReport.Parse this
    (CommonHeader.Mk SenderReport.kPacketType (zlen (SenderReport.report_blocks_ p)) 0
       (zlen (SenderReport.body p)) (SenderReport.body p ++ rest)) = Some (p, true).
Proof.
  intros (Hs & Hr & Hp & Ho & Hn & Hf). pose proof (SenderReport_length_body p) as Hb.
  unfold SenderReport.Parse, CommonHeader.type, CommonHeader.count,
    CommonHeader.payload_size_bytes, CommonHeader.payload. cbn [CommonHeader.packet_type_
    CommonHeader.count_or_format_ CommonHeader.payload_size_ CommonHeader.payload_].
  rewrite Hb. unfold SenderReport.kSenderBaseLength, ReportBlock.kLength in *.
  destruct (Z.ltb_spec (24 + 24 * zlen (SenderReport.report_blocks_ p))
              (24 + zlen (SenderReport.report_blocks_ p) * 24)); [lia|].
  pose proof (ntp_seconds_u32 (SenderReport.ntp_ p)).
  pose proof (ntp_fractions_u32 (SenderReport.ntp_ p)).
  unfold SenderReport.body. cbn [check Z.eqb SenderReport.kPacketType Pos.eqb mbind option_bind].
  read_all. rewrite Nat2Z.id.
  items_skip SenderReport_read_block_skip.
  rewrite (read_blocks_encode _ SenderReport_read_block_Parse SenderReport_read_block_skip)
    by (done || apply length_vec_resize).
  cbn [mbind option_bind]. unfold check. leb_true.
  cbn [mbind option_bind]. rewrite ntp_Set_get. by destruct p.
Qed.

Lemma SenderReport_Parse_safe p h :
  CommonHeader.valid h -> CommonHeader.type h = SenderReport.kPacketType ->
  exists p' b, SenderReport.Parse p h = Some (p', b) /\ (b = true -> SenderReport.wf p') /\
  (b = (24 + 24 * CommonHeader.count h <=? CommonHeader.payload_size_bytes h)).
Proof.
  intros [_ Hc Hpad Hs Hb Hfit _ _] Ht. unfold SenderReport.Parse. rewrite Ht.
  cbn [check Z.eqb SenderReport.kPacketType Pos.eqb mbind option_bind].
  unfold CommonHeader.type, CommonHeader.count,
    CommonHeader.payload_size_bytes, CommonHeader.payload,
    SenderReport.kSenderBaseLength, ReportBlock.kLength, is_u8 in *.
  destruct (Z.ltb_spec (CommonHeader.payload_size_ h)
    (24 + CommonHeader.count_or_format_ h * 24)) as [Hlt|Hge].
  { eexists _, false. split; [done|]. split; [done|]. symmetry. apply Z.leb_gt. lia. }
  repeat safe_step.
  destruct (read_blocks_safe _ SenderReport_read_block_Parse (CommonHeader.payload_ h)
    (CommonHeader.count_or_format_ h)
    (vec_resize (Z.to_nat (CommonHeader.count_or_format_ h)) ReportBlock.new
          (SenderReport.report_blocks_ p)) 24) as (bs & E & Hn & Hf);
    [done|lia|lia|rewrite length_vec_resize; lia|].
  unfold ReportBlock.kLength in E. rewrite E. cbn [mbind option_bind]. unfold check.
  leb_true. cbn [mbind option_bind].
  eexists _, true. split; [done|]. split; [|symmetry; apply Z.leb_le; lia].
  intros _. unfold SenderReport.wf. cbn. splits; first [done | lia].
Qed.

#[global] Instance SenderReport_codec : RtcpCodec (SenderReport.t ntp) := {|
  codec_type := SenderReport.kPacketType;
  codec_fmt := fun _ => true;
  codec_new := SenderReport.new;
  codec_block_length := SenderReport.BlockLength;
  codec_create := SenderReport.Create;
  codec_parse := SenderReport.Parse
|}.

Lemma SenderReport_standard :
  standard SenderReport.wf SenderReport.wf (fun p => zlen (SenderReport.report_blocks_ p)) SenderReport.body
    (fun p => p).
Proof.
  constructor.
  - done.
  - intros p (_ & _ & _ & _ & Hn & _). lia.
  - done.
  - intros p _. rewrite SenderReport_length_body. dlia.
  - intros p (_ & _ & _ & _ & Hn & _). rewrite SenderReport_length_body. lia.
  - intros p _. rewrite <- (length_standard_encode (fun p => zlen (SenderReport.report_blocks_ p)) SenderReport.body).
    symmetry. apply SenderReport_length.
  - intros p m cb st Hp Hi Hm Hb _. rewrite <- create_result_append with (max_length := m) (callback := cb) by done.
    apply SenderReport_Create_spec; [done|lia].
  - intros. by apply SenderReport_parse_body.
  - intros p h Hv Ht _. destruct (SenderReport_Parse_safe p h Hv Ht) as (p' & b & E & Hw & _).
    by exists p', b.
Qed.

#[global] Instance SenderReport_laws : RtcpCodecLaws (SenderReport.t ntp) :=
  standard_laws _ _ _ _ _ SenderReport_standard.

End sender_report.

(** ** ReceiverReport *)

Lemma ReceiverReport_length_body p :
  zlen (ReceiverReport.body p) = 4 + 24 * zlen (ReceiverReport.report_blocks_ p).
Proof.
  unfold ReceiverReport.body. rewrite length_app, length_be_bytes.
  pose proof (length_encode_blocks (ReceiverReport.report_blocks_ p)). lia.
Qed.

Lemma ReceiverReport_length p : zlen (ReceiverReport.encode p) = ReceiverReport.BlockLength p.
Proof.
  unfold ReceiverReport.encode. rewrite length_app, length_header_bytes.
  pose proof (ReceiverReport_length_body p). unfold ReceiverReport.BlockLength, kHeaderLength,
    ReceiverReport.kRrBaseLength, ReportBlock.kLength. lia.
Qed.

Lemma ReceiverReport_Create_spec p max_length callback st :
  ReceiverReport.wf p -> 0 <= windex st <= zlen (wbuf st) ->
  ReceiverReport.Create p max_length callback st =
  create_result (ReceiverReport.encode p) max_length callback st.
Proof.
  intros (_ & Hn & Hf) Hi. pose proof (ReceiverReport_length_body p) as Hb.
  pose proof (ReceiverReport_length p) as Hl. unfold ReceiverReport.encode in Hl.
  rewrite length_app, length_header_bytes in Hl.
  apply with_room_result; [|by rewrite ReceiverReport_length|lia|done].
  apply runs_packet; try dlia; [done|].
  unfold ReceiverReport.body. do 2 runs_step. rewrite <- (app_nil_r (encode_blocks _)).
  apply runs_then; [by apply runs_blocks|]. apply runs_ret.
Qed.

Lemma ReceiverReport_parse_body p this rest : ReceiverReport.wf p ->
  ReceiverReport.Parse this
    (CommonHeader.Mk ReceiverReport.kPacketType (zlen (ReceiverReport.report_blocks_ p)) 0
       (zlen (ReceiverReport.body p)) (ReceiverReport.body p ++ rest)) = Some (p, true).
Proof.
  intros (Hs & Hn & Hf). pose proof (ReceiverReport_length_body p) as Hb.
  unfold ReceiverReport.Parse, CommonHeader.type, CommonHeader.count,
    CommonHeader.payload_size_bytes, CommonHeader.payload. cbn [CommonHeader.packet_type_
    CommonHeader.count_or_format_ CommonHeader.payload_size_ CommonHeader.payload_].
  rewrite Hb. unfold ReceiverReport.kRrBaseLength, ReportBlock.kLength in *.
  destruct (Z.ltb_spec (4 + 24 * zlen (ReceiverReport.report_blocks_ p))
              (4 + zlen (ReceiverReport.report_blocks_ p) * 24)); [lia|].
  unfold ReceiverReport.body.
  cbn [check Z.eqb ReceiverReport.kPacketType Pos.eqb mbind option_bind].
  read_all. rewrite Nat2Z.id. items_skip ReceiverReport_read_block_skip.
  rewrite (read_blocks_encode _ ReceiverReport_read_block_Parse ReceiverReport_read_block_skip)
    by (done || apply length_vec_resize).
  cbn [mbind option_bind]. unfold check. leb_true. by destruct p.
Qed.

Lemma ReceiverReport_Parse_safe p h :
  CommonHeader.valid h -> CommonHeader.type h = ReceiverReport.kPacketType ->
  exists p' b, ReceiverReport.Parse p h = Some (p', b) /\ (b = true -> ReceiverReport.wf p') /\
  (b = (4 + 24 * CommonHeader.count h <=? CommonHeader.payload_size_bytes h)).
Proof.
  intros [_ Hc Hpad Hs Hb Hfit _ _] Ht. unfold ReceiverReport.Parse. rewrite Ht.
  cbn [check Z.eqb ReceiverReport.kPacketType Pos.eqb mbind option_bind].
  unfold CommonHeader.type, CommonHeader.count,
    CommonHeader.payload_size_bytes, CommonHeader.payload,
    ReceiverReport.kRrBaseLength, ReportBlock.kLength, is_u8 in *.
  destruct (Z.ltb_spec (CommonHeader.payload_size_ h)
    (4 + CommonHeader.count_or_format_ h * 24)) as [Hlt|Hge].
  { eexists _, false. split; [done|]. split; [done|]. symmetry. apply Z.leb_gt. lia. }
  repeat safe_step.
  destruct (read_blocks_safe _ ReceiverReport_read_block_Parse (CommonHeader.payload_ h)
    (CommonHeader.count_or_format_ h)
    (vec_resize (Z.to_nat (CommonHeader.count_or_format_ h)) ReportBlock.new
          (ReceiverReport.report_blocks_ p)) 4) as (bs & E & Hn & Hf);
    [done|lia|lia|rewrite length_vec_resize; lia|].
  unfold ReportBlock.kLength in E. rewrite E. cbn [mbind option_bind]. unfold check.
  leb_true. cbn [mbind option_bind].
  eexists _, true. split; [done|]. split; [|symmetry; apply Z.leb_le; lia].
  intros _. unfold ReceiverReport.wf. cbn. splits; first [done | lia].
Qed.

#[global] Instance ReceiverReport_codec : RtcpCodec ReceiverReport.t := {|
  codec_type := ReceiverReport.kPacketType;
  codec_fmt := fun _ => true;
  codec_new := ReceiverReport.new;
  codec_block_length := ReceiverReport.BlockLength;
  codec_create := ReceiverReport.Create;
  codec_parse := ReceiverReport.Parse
|}.

Lemma ReceiverReport_standard :
  standard ReceiverReport.wf ReceiverReport.wf (fun p => zlen (ReceiverReport.report_blocks_ p))
    ReceiverReport.body (fun p => p).
Proof.
  constructor.
  - done.
  - intros p (_ & Hn & _). lia.
  - done.
  - intros p _. rewrite ReceiverReport_length_body. dlia.
  - intros p (_ & Hn & _). rewrite ReceiverReport_length_body. lia.
  - intros p _. rewrite <- (length_standard_encode (fun p => zlen (ReceiverReport.report_blocks_ p))).
    symmetry. apply ReceiverReport_length.
  - intros p m cb st Hp Hi Hm Hb _. rewrite <- create_result_append with (max_length := m) (callback := cb) by done.
    apply ReceiverReport_Create_spec; [done|lia].
  - intros. by apply ReceiverReport_parse_body.
  - intros p h Hv Ht _. destruct (ReceiverReport_Parse_safe p h Hv Ht) as (p' & b & E & Hw & _).
    by exists p', b.
Qed.

#[global] Instance ReceiverReport_laws : RtcpCodecLaws ReceiverReport.t :=
  standard_laws _ _ _ _ _ ReceiverReport_standard.

(** ** ExtendedJitterReport *)

Lemma ExtendedJitterReport_length_body p :
  zlen (ExtendedJitterReport.body p) =
  4 * zlen (ExtendedJitterReport.inter_arrival_jitters_ p).
Proof. apply length_concat_be_bytes. Qed.

#[global] Instance ExtendedJitterReport_codec : RtcpCodec ExtendedJitterReport.t := {|
  codec_type := ExtendedJitterReport.kPacketType;
  codec_fmt := fun _ => true;
  codec_new := ExtendedJitterReport.new;
  codec_block_length := ExtendedJitterReport.BlockLength;
  codec_create := ExtendedJitterReport.Create;
  codec_parse := ExtendedJitterReport.Parse
|}.

Lemma ExtendedJitterReport_Parse_safe p h :
  CommonHeader.valid h -> CommonHeader.type h = ExtendedJitterReport.kPacketType ->
  exists p' b, ExtendedJitterReport.Parse p h = Some (p', b) /\
  (b = true -> ExtendedJitterReport.wf p').
Proof.
  intros [_ Hc Hpad Hs Hb Hfit _ _] Ht. unfold ExtendedJitterReport.Parse. rewrite Ht.
  cbn [check Z.eqb ExtendedJitterReport.kPacketType Pos.eqb mbind option_bind].
  unfold CommonHeader.count, CommonHeader.payload_size_bytes, CommonHeader.payload,
    ExtendedJitterReport.kJitterSizeBytes, is_u8 in *.
  destruct (Z.ltb_spec (CommonHeader.payload_size_ h) (CommonHeader.count_or_format_ h * 4)).
  { by eexists _, false. }
  destruct (read_u32s_safe (CommonHeader.payload_ h) (CommonHeader.count_or_format_ h)
    (vec_resize (Z.to_nat (CommonHeader.count_or_format_ h)) 0
      (ExtendedJitterReport.inter_arrival_jitters_ p)) 0) as (l & -> & Hl & Hf);
    [done|lia|lia|rewrite length_vec_resize; lia|].
  cbn [mbind option_bind]. eexists _, true. split; [done|]. intros _.
  split; [cbn; lia|done].
Qed.

Lemma ExtendedJitterReport_Create_spec p max_length callback st :
  ExtendedJitterReport.wf p -> 0 <= windex st <= zlen (wbuf st) ->
  ExtendedJitterReport.Create p max_length callback st =
  create_result (ExtendedJitterReport.encode p) max_length callback st.
Proof.
  intros (Hn & Hf) Hi. pose proof (ExtendedJitterReport_length_body p) as Hb.
  unfold ExtendedJitterReport.encode.
  apply create_with_result; [| |unfold ExtendedJitterReport.BlockLength, kHeaderLength,
    ExtendedJitterReport.kJitterSizeBytes; lia|done].
  - apply runs_then; [|apply runs_for_each; intros; by apply runs_write_be_last].
    rewrite Hb. replace (4 * _ / 4) with (zlen (ExtendedJitterReport.inter_arrival_jitters_ p)) by dlia.
    apply runs_CreateHeader; [lia|lia|done].
  - rewrite length_app, length_header_bytes, Nat2Z.inj_add, Hb. done.
Qed.

Lemma ExtendedJitterReport_standard :
  standard ExtendedJitterReport.wf ExtendedJitterReport.wf
    (fun p => zlen (ExtendedJitterReport.inter_arrival_jitters_ p))
    ExtendedJitterReport.body (fun p => p).
Proof.
  constructor; try done; intros p.
  - intros (Hn & _). lia.
  - intros _. rewrite ExtendedJitterReport_length_body. dlia.
  - intros (Hn & _). rewrite ExtendedJitterReport_length_body. lia.
  - intros _. rewrite ExtendedJitterReport_length_body. done.
  - intros m cb st Hp Hi Hm Hb _. rewrite <- create_result_append with (max_length := m) (callback := cb) by done.
    apply ExtendedJitterReport_Create_spec; [done|lia].
  - intros rest (Hn & Hf). cbn [codec_parse codec_new codec_type ExtendedJitterReport_codec].
    rewrite ExtendedJitterReport_length_body. unfold ExtendedJitterReport.Parse.
    unfold CommonHeader.type, CommonHeader.count,
      CommonHeader.payload_size_bytes, CommonHeader.payload. cbn [CommonHeader.packet_type_
      CommonHeader.count_or_format_ CommonHeader.payload_size_ CommonHeader.payload_].
    unfold ExtendedJitterReport.kJitterSizeBytes.
    destruct (Z.ltb_spec (4 * zlen (ExtendedJitterReport.inter_arrival_jitters_ p))
      (zlen (ExtendedJitterReport.inter_arrival_jitters_ p) * 4)); [lia|].
    cbn [check Z.eqb ExtendedJitterReport.kPacketType Pos.eqb mbind option_bind].
    unfold ExtendedJitterReport.body. rewrite Nat2Z.id, read_u32s_encode
      by (done || apply length_vec_resize). by destruct p.
  - intros h Hv Ht _. destruct (ExtendedJitterReport_Parse_safe p h Hv Ht) as (p' & b & E & Hw).
    by exists p', b.
Qed.

#[global] Instance ExtendedJitterReport_laws : RtcpCodecLaws ExtendedJitterReport.t :=
  standard_laws _ _ _ _ _ ExtendedJitterReport_standard.

(** ** Properties *)

(** Sender report round trip.  A sender report with at most 31 report blocks whose
    fields have their widths is written by Create at the index as BlockLength octets,
    and parsing them gives the report back: the NTP time, the counters and every block,
    the 24-bit signed cumulative loss included. *)
Theorem sender_report_roundtrip {ntp : Type} `{NtpTimeLaws ntp} (p : SenderReport.t ntp)
    max_length callback st :
  SenderReport.wf p -> 0 <= windex st -> windex st + SenderReport.BlockLength p <= max_length ->
  max_length <= zlen (wbuf st) -> max_length < 2 ^ 64 ->
  roundtrips (SenderReport.Create p max_length callback) (SenderReport.Parse SenderReport.new)
    (SenderReport.BlockLength p) p st.
Proof. exact (codec_roundtrip p max_length callback st). Qed.

Definition example_block : ReportBlock.t := ReportBlock.Mk 8 25 (-3) 65537 9 10 11.

Lemma sender_report_roundtrip_witness :
  let p := SenderReport.Mk 7 (ntp_Set 5 6) 90000 1 2 [example_block] in
  let st := WState (replicate 60 255) 4 [] in
  roundtrips (SenderReport.Create p 60 false) (SenderReport.Parse (ntp := ntp_value) SenderReport.new)
    52 p st.
Proof.
  apply (sender_report_roundtrip (ntp := ntp_value)
    (SenderReport.Mk 7 (ntp_Set 5 6) 90000 1 2 [example_block]) 60 false (WState (replicate 60 255) 4 []));
    decide_wf.
Defined.

(** Receiver report and extended jitter report round trips: what Create writes at
    the index has BlockLength octets and parses back to the same object. *)
Theorem receiver_reports_roundtrip (r : ReceiverReport.t) (j : ExtendedJitterReport.t)
    max_length callback st :
  0 <= windex st -> max_length <= zlen (wbuf st) -> max_length < 2 ^ 64 ->
  ReceiverReport.wf r -> ExtendedJitterReport.wf j ->
  windex st + ReceiverReport.BlockLength r <= max_length ->
  windex st + ExtendedJitterReport.BlockLength j <= max_length ->
  roundtrips (ReceiverReport.Create r max_length callback) (ReceiverReport.Parse ReceiverReport.new)
    (ReceiverReport.BlockLength r) r st /\
  roundtrips (ExtendedJitterReport.Create j max_length callback)
    (ExtendedJitterReport.Parse ExtendedJitterReport.new) (ExtendedJitterReport.BlockLength j) j st.
Proof.
  intros Hi Hb H64 Hr Hj Hmr Hmj. split.
  - exact (codec_roundtrip r max_length callback st Hr Hi Hmr Hb H64).
  - exact (codec_roundtrip j max_length callback st Hj Hi Hmj Hb H64).
Qed.

Lemma receiver_reports_roundtrip_witness :
  let r := ReceiverReport.Mk 7 [example_block; example_block] in
  roundtrips (ReceiverReport.Create r 60 false) (ReceiverReport.Parse ReceiverReport.new) 56 r
    (WState (replicate 60 255) 4 []).
Proof.
  apply (receiver_reports_roundtrip (ReceiverReport.Mk 7 [example_block; example_block])
    (ExtendedJitterReport.Mk [1; 2]) 60 false (WState (replicate 60 255) 4 [])); decide_wf.
Defined.

(** The reports stay in bounds.  SetCumulativeLost accepts exactly the 24-bit
    signed values and leaves the block as it was otherwise; AddReportBlock accepts up to
    31 blocks and keeps the report well formed; and Parse of either report on any valid
    header, with any object reused, reads inside the payload, accepts exactly the
    payloads long enough for the announced blocks, and yields a well-formed report. *)
Theorem reports_in_bounds {ntp : Type} `{NtpTimeLaws ntp} (s old : SenderReport.t ntp)
    (r : ReceiverReport.t) (b : ReportBlock.t) lost h :
  ReportBlock.wf b -> SenderReport.wf s -> ReceiverReport.wf r -> CommonHeader.valid h ->
  (exists b' ok, ReportBlock.SetCumulativeLost b lost = (b', ok) /\ ReportBlock.wf b' /\
     ok = ((- 2 ^ 23 <=? lost) && (lost <? 2 ^ 23)) /\
     (if ok : bool then ReportBlock.cumulative_lost_ b' = lost else b' = b)) /\
  (exists s' ok, SenderReport.AddReportBlock s b = (s', ok) /\ SenderReport.wf s' /\
     ok = (zlen (SenderReport.report_blocks_ s) <? 31) /\
     SenderReport.report_blocks_ s' = SenderReport.report_blocks_ s ++ (if ok : bool then [b] else [])) /\
  (exists r' ok, ReceiverReport.AddReportBlock r b = (r', ok) /\ ReceiverReport.wf r' /\
     ok = (zlen (ReceiverReport.report_blocks_ r) <? 31) /\
     ReceiverReport.report_blocks_ r' = ReceiverReport.report_blocks_ r ++ (if ok : bool then [b] else [])) /\
  (CommonHeader.type h = SenderReport.kPacketType ->
   exists s' ok, SenderReport.Parse old h = Some (s', ok) /\ (ok = true -> SenderReport.wf s') /\
     ok = (24 + 24 * CommonHeader.count h <=? CommonHeader.payload_size_bytes h)) /\
  (CommonHeader.type h = ReceiverReport.kPacketType ->
   exists r' ok, ReceiverReport.Parse r h = Some (r', ok) /\ (ok = true -> ReceiverReport.wf r') /\
     ok = (4 + 24 * CommonHeader.count h <=? CommonHeader.payload_size_bytes h)).
Proof.
  intros Hb Hs Hr Hv. splits.
  - destruct b as [a f c x j l d]. unfold ReportBlock.SetCumulativeLost. change (Z.shiftl 1 23) with (2 ^ 23).
    rewrite Z.geb_leb. destruct (Z.leb_spec (2 ^ 23) lost), (Z.ltb_spec lost (- 2 ^ 23)),
      (Z.leb_spec (- 2 ^ 23) lost), (Z.ltb_spec lost (2 ^ 23)); try lia; cbn [orb andb];
      eexists _, _; (split; [reflexivity|]); splits; try done.
    unfold ReportBlock.wf in *. cbn in *. splits; try done; apply Hb.
  - unfold SenderReport.AddReportBlock, SenderReport.kMaxNumberOfReportBlocks.
    destruct s as [a n t c o bs]. unfold SenderReport.wf in *.
    cbn [SenderReport.report_blocks_ SenderReport.sender_ssrc_ SenderReport.rtp_timestamp_
      SenderReport.sender_packet_count_ SenderReport.sender_octet_count_] in *.
    destruct Hs as (H1 & H2 & H3 & H4 & H5 & H6).
    rewrite Z.geb_leb. destruct (Z.leb_spec 31 (zlen bs)), (Z.ltb_spec (zlen bs) 31); try lia;
      eexists _, _; (split; [reflexivity|]); cbn; rewrite ?app_nil_r, ?length_app; splits; try done; cbn; try lia.
    apply Forall_app. split; [done|by constructor].
  - unfold ReceiverReport.AddReportBlock, ReceiverReport.kMaxNumberOfReportBlocks.
    destruct r as [a bs]. unfold ReceiverReport.wf in *.
    cbn [ReceiverReport.report_blocks_ ReceiverReport.sender_ssrc_] in *.
    destruct Hr as (H1 & H5 & H6).
    rewrite Z.geb_leb. destruct (Z.leb_spec 31 (zlen bs)), (Z.ltb_spec (zlen bs) 31); try lia;
      eexists _, _; (split; [reflexivity|]); cbn; rewrite ?app_nil_r, ?length_app; splits; try done; cbn; try lia.
    apply Forall_app. split; [done|by constructor].
  - intros Ht. by apply SenderReport_Parse_safe.
  - intros Ht. by apply ReceiverReport_Parse_safe.
Qed.

Lemma reports_in_bounds_witness :
  exists b', ReportBlock.SetCumulativeLost example_block (2 ^ 23) = (b', false) /\ b' = example_block.
Proof.
  destruct (reports_in_bounds (ntp := ntp_value) SenderReport.new SenderReport.new ReceiverReport.new
    example_block (2 ^ 23) (CommonHeader.Mk 200 0 0 0 [])) as ((b' & ok & E & _ & Eok & Eb) & _);
    [decide_wf|decide_wf|decide_wf|constructor; decide_wf|].
  exists b'. rewrite Eok in Eb, E. split; [exact E|exact Eb].
Defined.
