(* ===== verification/RtcpFeedback.v ===== *)
(** * Feedback messages

    rtcp_packet/pli.{h,cc}, rapid_resync_request.{h,cc}, fir.{h,cc},
    remb.{h,cc}, loss_notification.{h,cc}, tmmb_item.{h,cc}, tmmbr.{h,cc} and
    tmmbn.{h,cc}: one Module per class, then the wire format of each and the
    instance of [RtcpCodecLaws] that states its contract. *)

From S2P Require Import Prelude ByteIo Buffers RtcpCore.

(** The loop of Remb::Create and TmmbItem::Create,
    while (mantissa > max) { mantissa >>= 1; ++exponent; } *)
Fixpoint shrink (fuel : nat) (max mantissa exponent : Z) : option (Z * Z) :=
  match fuel with
  | O => None
  | S fuel' =>
      if mantissa >? max then shrink fuel' max (Z.shiftr mantissa 1) (exponent + 1)
      else Some (mantissa, exponent)
  end.

(** A 64-bit mantissa is shifted at most 64 times. *)
Definition shrink_fuel : nat := 65.

(** What the loop computes: the exponent that leaves [k] significant bits. *)
Definition exponent_of (k m : Z) : Z := Z.max 0 (Z.log2 m + 1 - k).

Definition mantissa_of (k m : Z) : Z := m / 2 ^ exponent_of k m.

(** The value that is left after the low bits are dropped. *)
Definition rounded (k m : Z) : Z := mantissa_of k m * 2 ^ exponent_of k m.

(** ** Pli and RapidResyncRequest *)

Module Pli.

Record t := Mk { common : CommonFeedback.t }.

Definition kFeedbackMessageType : Z := 1.

Definition new : t := Mk CommonFeedback.new.

Definition Parse (this : t) (packet : CommonHeader.t) : option (t * bool) :=
  check (CommonHeader.type packet =? Psfb.kPacketType) ;;
  check (CommonHeader.fmt packet =? kFeedbackMessageType) ;;
  if CommonHeader.payload_size_bytes packet <? CommonFeedback.kCommonFeedbackLength
  then Some (this, false) else
  fb ← Psfb.ParseCommonFeedback (CommonHeader.payload packet);
  Some (Mk fb, true).

Definition BlockLength (this : t) : Z := kHeaderLength + CommonFeedback.kCommonFeedbackLength.

Definition Create (this : t) (max_length : Z) (callback : bool) : W bool :=
  with_room (BlockLength this)
    (length ← wlift (RtcpPacket.HeaderLength (BlockLength this));
     RtcpPacket.CreateHeader kFeedbackMessageType Psfb.kPacketType length ;;
     Psfb.CreateCommonFeedback (common this) ;;
     add_index CommonFeedback.kCommonFeedbackLength ;;
     mret true)
    max_length callback.

End Pli.

Module RapidResyncRequest.

Record t := Mk { common : CommonFeedback.t }.

Definition kFeedbackMessageType : Z := 5.

Definition new : t := Mk CommonFeedback.new.

Definition Parse (this : t) (packet : CommonHeader.t) : option (t * bool) :=
  check (CommonHeader.type packet =? Rtpfb.kPacketType) ;;
  check (CommonHeader.fmt packet =? kFeedbackMessageType) ;;
  if negb (CommonHeader.payload_size_bytes packet =? CommonFeedback.kCommonFeedbackLength)
  then Some (this, false) else
  fb ← Rtpfb.ParseCommonFeedback (CommonHeader.payload packet);
  Some (Mk fb, true).

Definition BlockLength (this : t) : Z := kHeaderLength + CommonFeedback.kCommonFeedbackLength.

Definition Create (this : t) (max_length : Z) (callback : bool) : W bool :=
  with_room (BlockLength this)
    (length ← wlift (RtcpPacket.HeaderLength (BlockLength this));
     RtcpPacket.CreateHeader kFeedbackMessageType Rtpfb.kPacketType length ;;
     Rtpfb.CreateCommonFeedback (common this) ;;
     add_index CommonFeedback.kCommonFeedbackLength ;;
     mret true)
    max_length callback.

End RapidResyncRequest.

(** ** Fir *)

Module Fir.

Record Request := MkRequest { ssrc : Z; seq_nr : Z }.

Record t := Mk { common : CommonFeedback.t; items_ : list Request }.

Definition kFeedbackMessageType : Z := 4.
Definition kFciLength : Z := 8.

Definition new : t := Mk CommonFeedback.new [].

Definition read_request (old : Request) (p : bytes) (off : Z) : option Request :=
  ssrc ← read_u32 p off;
  seq_nr ← read_u8 p (off + 4);
  Some (MkRequest ssrc seq_nr).

Definition Parse (this : t) (packet : CommonHeader.t) : option (t * bool) :=
  check (CommonHeader.type packet =? Psfb.kPacketType) ;;
  check (CommonHeader.fmt packet =? kFeedbackMessageType) ;;
  if CommonHeader.payload_size_bytes packet <?
     CommonFeedback.kCommonFeedbackLength + kFciLength
  then Some (this, false) else
  if negb ((CommonHeader.payload_size_bytes packet -
            CommonFeedback.kCommonFeedbackLength) mod kFciLength =? 0)
  then Some (this, false) else
  fb ← Psfb.ParseCommonFeedback (CommonHeader.payload packet);
  let number_of_fci_items :=
    (CommonHeader.payload_size_bytes packet - CommonFeedback.kCommonFeedbackLength) / kFciLength in
  items ← read_items read_request kFciLength
            (vec_resize (Z.to_nat number_of_fci_items) (MkRequest 0 0) (items_ this))
            (CommonHeader.payload packet) CommonFeedback.kCommonFeedbackLength;
  Some (Mk fb items, true).

Definition AddRequestTo (this : t) (ssrc seq_num : Z) : t :=
  Mk (common this) (items_ this ++ [MkRequest ssrc seq_num]).

Definition BlockLength (this : t) : Z :=
  kHeaderLength + CommonFeedback.kCommonFeedbackLength + kFciLength * zlen (items_ this).

Definition create_request (request : Request) : W unit :=
  write_u32 0 (ssrc request) ;;
  write_u8 4 (seq_nr request) ;;
  write_u24 5 0 ;;
  add_index kFciLength.

Definition Create (this : t) (max_length : Z) (callback : bool) : W bool :=
  wcheck (negb (zlen (items_ this) =? 0)) ;;
  create_with (BlockLength this)
    (length ← wlift (RtcpPacket.HeaderLength (BlockLength this));
     RtcpPacket.CreateHeader kFeedbackMessageType Psfb.kPacketType length ;;
     wcheck (CommonFeedback.media_ssrc (common this) =? 0) ;;
     Psfb.CreateCommonFeedback (common this) ;;
     add_index CommonFeedback.kCommonFeedbackLength ;;
     for_each create_request (items_ this))
    max_length callback.

Definition request_ok (r : Request) : Prop := is_u32 (ssrc r) /\ is_u8 (seq_nr r).

Definition encode_request (r : Request) : bytes :=
  be_bytes 4 (ssrc r) ++ be_bytes 1 (seq_nr r) ++ be_bytes 3 0.

Definition inv (this : t) : Prop :=
  CommonFeedback.wf (common this) /\ 1 <= zlen (items_ this) <= 32766 /\
  Forall request_ok (items_ this).

Definition wf (this : t) : Prop :=
  inv this /\ CommonFeedback.media_ssrc (common this) = 0.

Definition body (this : t) : bytes :=
  CommonFeedback.encode (common this) ++ concat (map encode_request (items_ this)).

End Fir.

(** ** Remb *)

Module Remb.

Record t := Mk {
  common : CommonFeedback.t;
  bitrate_bps_ : Z;          (* int64_t *)
  ssrcs_ : list Z
}.

Definition kMaxNumberOfSsrcs : Z := 0xff.
Definition kUniqueIdentifier : Z := 0x52454D42.

Definition new : t := Mk CommonFeedback.new 0 [].

Definition Parse (this : t) (packet : CommonHeader.t) : option (t * bool) :=
  check (CommonHeader.type packet =? Psfb.kPacketType) ;;
  check (CommonHeader.fmt packet =? Psfb.kAfbMessageType) ;;
  if CommonHeader.payload_size_bytes packet <? 16 then Some (this, false) else
  let payload := CommonHeader.payload packet in
  identifier ← read_u32 payload 8;
  if negb (kUniqueIdentifier =? identifier) then Some (this, false) else
  number_of_ssrcs ← peek payload 12;
  if negb (CommonHeader.payload_size_bytes packet =?
           CommonFeedback.kCommonFeedbackLength + (2 + number_of_ssrcs) * 4)
  then Some (this, false) else
  fb ← Psfb.ParseCommonFeedback payload;
  b13 ← peek payload 13;
  low ← read_u16 payload 14;
  let exponenta := u8 (Z.shiftr b13 2) in
  let mantissa := Z.lor (u32 (Z.shiftl (Z.land b13 0x03) 16)) low in
  let bitrate_bps := s64 (u64 (Z.shiftl mantissa exponenta)) in
  let shift_overflow := negb (Z.shiftr (u64 bitrate_bps) exponenta =? mantissa) in
  if shift_overflow then Some (Mk fb bitrate_bps (ssrcs_ this), false) else
  ssrcs ← read_items (fun _ => read_u32) 4 (replicate (Z.to_nat number_of_ssrcs) 0) payload 16;
  Some (Mk fb bitrate_bps ssrcs, true).

Definition SetSsrcs (this : t) (ssrcs : list Z) : t * bool :=
  if zlen ssrcs >? kMaxNumberOfSsrcs then (this, false)
  else (Mk (common this) (bitrate_bps_ this) ssrcs, true).

Definition SetBitrateBps (this : t) (bitrate_bps : Z) : t :=
  Mk (common this) bitrate_bps (ssrcs_ this).

Definition BlockLength (this : t) : Z :=
  kHeaderLength + CommonFeedback.kCommonFeedbackLength + (2 + zlen (ssrcs_ this)) * 4.

Definition Create (this : t) (max_length : Z) (callback : bool) : W bool :=
  create_with (BlockLength this)
    (length ← wlift (RtcpPacket.HeaderLength (BlockLength this));
     RtcpPacket.CreateHeader Psfb.kAfbMessageType Psfb.kPacketType length ;;
     wcheck (0 =? CommonFeedback.media_ssrc (common this)) ;;
     Psfb.CreateCommonFeedback (common this) ;;
     add_index CommonFeedback.kCommonFeedbackLength ;;
     write_u32 0 kUniqueIdentifier ;;
     add_index 4 ;;
     '(mantissa, exponenta) ← wlift (shrink shrink_fuel 0x3ffff (u64 (bitrate_bps_ this)) 0);
     push (zlen (ssrcs_ this)) ;;
     push (Z.lor (Z.shiftl exponenta 2) (Z.shiftr mantissa 16)) ;;
     write_u16 0 (Z.land mantissa 0xffff) ;;
     add_index 2 ;;
     for_each (fun ssrc => write_u32 0 ssrc ;; add_index 4) (ssrcs_ this))
    max_length callback.

Definition inv (this : t) : Prop :=
  CommonFeedback.wf (common this) /\ - 2 ^ 63 <= bitrate_bps_ this < 2 ^ 63 /\
  zlen (ssrcs_ this) <= 255 /\ Forall is_u32 (ssrcs_ this).

Definition wf (this : t) : Prop :=
  inv this /\ CommonFeedback.media_ssrc (common this) = 0.

Definition body (this : t) : bytes :=
  let bitrate := u64 (bitrate_bps_ this) in
  CommonFeedback.encode (common this) ++ be_bytes 4 kUniqueIdentifier ++
  be_bytes 1 (zlen (ssrcs_ this)) ++
  be_bytes 1 (4 * exponent_of 18 bitrate + mantissa_of 18 bitrate / 65536) ++
  be_bytes 2 (mantissa_of 18 bitrate mod 65536) ++
  concat (map (be_bytes 4) (ssrcs_ this)).

(** The bit rate that survives: its 18 most significant bits. *)
Definition image (this : t) : t :=
  Mk (common this) (s64 (rounded 18 (u64 (bitrate_bps_ this)))) (ssrcs_ this).

End Remb.

(** ** LossNotification *)

Module LossNotification.

Record t := Mk {
  common : CommonFeedback.t;
  last_decoded_ : Z;           (* uint16_t *)
  last_received_ : Z;          (* uint16_t *)
  decodability_flag_ : bool
}.

Definition kUniqueIdentifier : Z := 0x4C4E5446.
Definition kLossNotificationPayloadLength : Z := 8.

Definition new : t := Mk CommonFeedback.new 0 0 false.

Definition BlockLength (this : t) : Z :=
  kHeaderLength + CommonFeedback.kCommonFeedbackLength + kLossNotificationPayloadLength.

Definition Create (this : t) (max_length : Z) (callback : bool) : W bool :=
  create_with (BlockLength this)
    (length ← wlift (RtcpPacket.HeaderLength (BlockLength this));
     RtcpPacket.CreateHeader Psfb.kAfbMessageType Psfb.kPacketType length ;;
     Psfb.CreateCommonFeedback (common this) ;;
     add_index CommonFeedback.kCommonFeedbackLength ;;
     write_u32 0 kUniqueIdentifier ;;
     add_index 4 ;;
     write_u16 0 (last_decoded_ this) ;;
     add_index 2 ;;
     let last_received_delta := u16 (last_received_ this - last_decoded_ this) in
     wcheck (last_received_delta <=? 0x7fff) ;;
     let last_received_delta_and_decodability :=
       u16 (Z.lor (Z.shiftl last_received_delta 1)
                  (if decodability_flag_ this then 1 else 0)) in
     write_u16 0 last_received_delta_and_decodability ;;
     add_index 2)
    max_length callback.

Definition Parse (this : t) (packet : CommonHeader.t) : option (t * bool) :=
  check (CommonHeader.type packet =? Psfb.kPacketType) ;;
  check (CommonHeader.fmt packet =? Psfb.kAfbMessageType) ;;
  if CommonHeader.payload_size_bytes packet <?
     CommonFeedback.kCommonFeedbackLength + kLossNotificationPayloadLength
  then Some (this, false) else
  let payload := CommonHeader.payload packet in
  identifier ← read_u32 payload 8;
  if negb (identifier =? kUniqueIdentifier) then Some (this, false) else
  fb ← Psfb.ParseCommonFeedback payload;
  last_decoded ← read_u16 payload 12;
  last_received_delta_and_decodability ← read_u16 payload 14;
  Some (Mk fb last_decoded
          (u16 (last_decoded + Z.shiftr last_received_delta_and_decodability 1))
          (negb (Z.land last_received_delta_and_decodability 1 =? 0)), true).

Definition Set_ (this : t) (last_decoded last_received : Z) (decodability_flag : bool)
  : t * bool :=
  let delta := u16 (last_received - last_decoded) in
  if delta >? 0x7fff then (this, false)
  else (Mk (common this) last_decoded last_received decodability_flag, true).

Definition wf (this : t) : Prop :=
  CommonFeedback.wf (common this) /\ is_u16 (last_decoded_ this) /\
  is_u16 (last_received_ this) /\ u16 (last_received_ this - last_decoded_ this) <= 0x7fff.

Definition body (this : t) : bytes :=
  CommonFeedback.encode (common this) ++ be_bytes 4 kUniqueIdentifier ++
  be_bytes 2 (last_decoded_ this) ++
  be_bytes 2 (2 * u16 (last_received_ this - last_decoded_ this) +
              (if decodability_flag_ this then 1 else 0)).

End LossNotification.

(** ** TmmbItem, Tmmbr and Tmmbn *)

Module TmmbItem.

Record t := Mk {
  ssrc_ : Z;               (* uint32_t *)
  bitrate_bps_ : Z;        (* uint64_t *)
  packet_overhead_ : Z     (* uint16_t *)
}.

Definition kLength : Z := 8.

Definition new : t := Mk 0 0 0.

(** TmmbItem(ssrc, bitrate_bps, overhead). *)
Definition make (ssrc bitrate_bps overhead : Z) : option t :=
  check (overhead <=? 0x1ff) ;; Some (Mk ssrc bitrate_bps overhead).

Definition Parse (this : t) (buffer : bytes) (off : Z) : option (t * bool) :=
  ssrc ← read_u32 buffer (off + 0);
  compact ← read_u32 buffer (off + 4);
  let exponent := u8 (Z.shiftr compact 26) in
  let mantissa := Z.land (Z.shiftr compact 9) 0x1ffff in
  let overhead := u16 (Z.land compact 0x1ff) in
  let bitrate_bps := u64 (Z.shiftl mantissa exponent) in
  let shift_overflow := negb (Z.shiftr bitrate_bps exponent =? mantissa) in
  if shift_overflow then Some (Mk ssrc bitrate_bps (packet_overhead_ this), false)
  else Some (Mk ssrc bitrate_bps overhead, true).

Definition Create (this : t) : W unit :=
  '(mantissa, exponent) ← wlift (shrink shrink_fuel 0x1ffff (bitrate_bps_ this) 0);
  write_u32 0 (ssrc_ this) ;;
  let compact := u32 (Z.lor (Z.lor (u32 (Z.shiftl exponent 26)) (u64 (Z.shiftl mantissa 9)))
                            (packet_overhead_ this)) in
  write_u32 4 compact.

Definition set_packet_overhead (this : t) (overhead : Z) : option t :=
  check (overhead <=? 0x1ff) ;; Some (Mk (ssrc_ this) (bitrate_bps_ this) overhead).

Definition set_ssrc (this : t) (ssrc : Z) : t := Mk ssrc (bitrate_bps_ this) (packet_overhead_ this).

Definition set_bitrate_bps (this : t) (bitrate_bps : Z) : t :=
  Mk (ssrc_ this) bitrate_bps (packet_overhead_ this).

Definition wf (this : t) : Prop :=
  is_u32 (ssrc_ this) /\ is_u64 (bitrate_bps_ this) /\ 0 <= packet_overhead_ this <= 0x1ff.

Definition encode (this : t) : bytes :=
  be_bytes 4 (ssrc_ this) ++
  be_bytes 4 (exponent_of 17 (bitrate_bps_ this) * 2 ^ 26 +
              mantissa_of 17 (bitrate_bps_ this) * 2 ^ 9 + packet_overhead_ this).

(** The bit rate that survives: its 17 most significant bits. *)
Definition image (this : t) : t :=
  Mk (ssrc_ this) (rounded 17 (bitrate_bps_ this)) (packet_overhead_ this).

(** The loop of Tmmbr::Parse and Tmmbn::Parse over the resized vector; it stops
    at the first item that does not parse. *)
Fixpoint parse_items (items : list t) (p : bytes) (off : Z) : option (list t * bool) :=
  match items with
  | [] => Some ([], true)
  | item :: items' =>
      '(item, parsed) ← Parse item p off;
      if negb parsed then Some (item :: items', false) else
      '(rest, ok) ← parse_items items' p (off + kLength);
      Some (item :: rest, ok)
  end.

End TmmbItem.

Module Tmmbr.

Record t := Mk { common : CommonFeedback.t; items_ : list TmmbItem.t }.

Definition kFeedbackMessageType : Z := 3.

Definition new : t := Mk CommonFeedback.new [].

Definition Parse (this : t) (packet : CommonHeader.t) : option (t * bool) :=
  check (CommonHeader.type packet =? Rtpfb.kPacketType) ;;
  check (CommonHeader.fmt packet =? kFeedbackMessageType) ;;
  if CommonHeader.payload_size_bytes packet <?
     CommonFeedback.kCommonFeedbackLength + TmmbItem.kLength
  then Some (this, false) else
  let items_size_bytes :=
    CommonHeader.payload_size_bytes packet - CommonFeedback.kCommonFeedbackLength in
  if negb (items_size_bytes mod TmmbItem.kLength =? 0) then Some (this, false) else
  fb ← Rtpfb.ParseCommonFeedback (CommonHeader.payload packet);
  let number_of_items := items_size_bytes / TmmbItem.kLength in
  '(items, ok) ← TmmbItem.parse_items
     (vec_resize (Z.to_nat number_of_items) TmmbItem.new (items_ this))
     (CommonHeader.payload packet) CommonFeedback.kCommonFeedbackLength;
  Some (Mk fb items, ok).

Definition AddTmmbr (this : t) (item : TmmbItem.t) : t :=
  Mk (common this) (items_ this ++ [item]).

Definition BlockLength (this : t) : Z :=
  kHeaderLength + CommonFeedback.kCommonFeedbackLength + TmmbItem.kLength * zlen (items_ this).

Definition Create (this : t) (max_length : Z) (callback : bool) : W bool :=
  wcheck (negb (zlen (items_ this) =? 0)) ;;
  create_with (BlockLength this)
    (length ← wlift (RtcpPacket.HeaderLength (BlockLength this));
     RtcpPacket.CreateHeader kFeedbackMessageType Rtpfb.kPacketType length ;;
     wcheck (0 =? CommonFeedback.media_ssrc (common this)) ;;
     Rtpfb.CreateCommonFeedback (common this) ;;
     add_index CommonFeedback.kCommonFeedbackLength ;;
     for_each (fun item => TmmbItem.Create item ;; add_index TmmbItem.kLength) (items_ this))
    max_length callback.

Definition inv (this : t) : Prop :=
  CommonFeedback.wf (common this) /\ 1 <= zlen (items_ this) <= 32766 /\
  Forall TmmbItem.wf (items_ this).

Definition wf (this : t) : Prop :=
  inv this /\ CommonFeedback.media_ssrc (common this) = 0.

Definition body (this : t) : bytes :=
  CommonFeedback.encode (common this) ++ concat (map TmmbItem.encode (items_ this)).

Definition image (this : t) : t := Mk (common this) (map TmmbItem.image (items_ this)).

End Tmmbr.

Module Tmmbn.

Record t := Mk { common : CommonFeedback.t; items_ : list TmmbItem.t }.

Definition kFeedbackMessageType : Z := 4.

Definition new : t := Mk CommonFeedback.new [].

Definition Parse (this : t) (packet : CommonHeader.t) : option (t * bool) :=
  check (CommonHeader.type packet =? Rtpfb.kPacketType) ;;
  check (CommonHeader.fmt packet =? kFeedbackMessageType) ;;
  if CommonHeader.payload_size_bytes packet <? CommonFeedback.kCommonFeedbackLength
  then Some (this, false) else
  let items_size_bytes :=
    CommonHeader.payload_size_bytes packet - CommonFeedback.kCommonFeedbackLength in
  if negb (items_size_bytes mod TmmbItem.kLength =? 0) then Some (this, false) else
  fb ← Rtpfb.ParseCommonFeedback (CommonHeader.payload packet);
  let number_of_items := items_size_bytes / TmmbItem.kLength in
  '(items, ok) ← TmmbItem.parse_items
     (vec_resize (Z.to_nat number_of_items) TmmbItem.new (items_ this))
     (CommonHeader.payload packet) CommonFeedback.kCommonFeedbackLength;
  Some (Mk fb items, ok).

Definition AddTmmbr (this : t) (item : TmmbItem.t) : t :=
  Mk (common this) (items_ this ++ [item]).

Definition BlockLength (this : t) : Z :=
  kHeaderLength + CommonFeedback.kCommonFeedbackLength + TmmbItem.kLength * zlen (items_ this).

Definition Create (this : t) (max_length : Z) (callback : bool) : W bool :=
  create_with (BlockLength this)
    (length ← wlift (RtcpPacket.HeaderLength (BlockLength this));
     RtcpPacket.CreateHeader kFeedbackMessageType Rtpfb.kPacketType length ;;
     wcheck (0 =? CommonFeedback.media_ssrc (common this)) ;;
     Rtpfb.CreateCommonFeedback (common this) ;;
     add_index CommonFeedback.kCommonFeedbackLength ;;
     for_each (fun item => TmmbItem.Create item ;; add_index TmmbItem.kLength) (items_ this))
    max_length callback.

Definition inv (this : t) : Prop :=
  CommonFeedback.wf (common this) /\ zlen (items_ this) <= 32766 /\
  Forall TmmbItem.wf (items_ this).

Definition wf (this : t) : Prop :=
  inv this /\ CommonFeedback.media_ssrc (common this) = 0.

Definition body (this : t) : bytes :=
  CommonFeedback.encode (common this) ++ concat (map TmmbItem.encode (items_ this)).

Definition image (this : t) : t := Mk (common this) (map TmmbItem.image (items_ this)).

End Tmmbn.

(** Lengths: unfold the constants and finish with arithmetic. *)
Ltac len_lia :=
  unfold Fir.BlockLength, Remb.BlockLength, LossNotification.BlockLength, Tmmbr.BlockLength,
    Tmmbn.BlockLength, kHeaderLength, CommonFeedback.kCommonFeedbackLength, Fir.kFciLength,
    LossNotification.kLossNotificationPayloadLength, TmmbItem.kLength in *; dlia.

(** ** The exponent loop *)

Lemma exponent_of_0 k m : 1 <= k -> 0 <= m < 2 ^ k -> exponent_of k m = 0.
Proof.
  intros Hk Hm. unfold exponent_of. destruct (Z.eq_dec m 0) as [->|]; [cbn; lia|].
  assert (Z.log2 m < k) by (apply Z.log2_lt_pow2; lia). lia.
Qed.

Lemma exponent_of_half k m : 1 <= k -> 2 ^ k <= m -> exponent_of k m = exponent_of k (m / 2) + 1.
Proof.
  intros Hk Hm. unfold exponent_of.
  assert (H2 : 2 ^ 1 <= 2 ^ k) by (apply Z.pow_le_mono_r; lia).
  assert (Hlog : k <= Z.log2 m) by (apply Z.log2_le_pow2; lia).
  change (m / 2) with (m / 2 ^ 1). rewrite <- Z.shiftr_div_pow2, Z.log2_shiftr by lia. lia.
Qed.

Lemma mantissa_of_half k m : 1 <= k -> 2 ^ k <= m -> mantissa_of k m = mantissa_of k (m / 2).
Proof.
  intros Hk Hm. unfold mantissa_of. rewrite (exponent_of_half k m) by done.
  rewrite Z.add_comm, Z.pow_add_r, Z.pow_1_r by (unfold exponent_of; lia).
  symmetry. apply Z.div_div; [done|]. apply Z.pow_pos_nonneg; unfold exponent_of; lia.
Qed.

Lemma shrink_S fuel max m e :
  shrink (S fuel) max m e =
  if m >? max then shrink fuel max (Z.shiftr m 1) (e + 1) else Some (m, e).
Proof. done. Qed.

Lemma shrink_spec fuel k m e :
  1 <= k -> 0 <= m < 2 ^ (k + Z.of_nat fuel) ->
  shrink (S fuel) (2 ^ k - 1) m e = Some (mantissa_of k m, e + exponent_of k m).
Proof.
  intros Hk. revert m e. induction fuel as [|fuel IH]; intros m e Hm;
    rewrite shrink_S, Z.gtb_ltb; destruct (Z.ltb_spec (2 ^ k - 1) m).
  - rewrite Z.add_0_r in Hm. lia.
  - unfold mantissa_of. rewrite exponent_of_0 by lia. rewrite Z.div_1_r. do 2 f_equal. lia.
  - rewrite Z.shiftr_div_pow2 by lia. change (2 ^ 1) with 2.
    rewrite (IH (m / 2)).
    + rewrite <- mantissa_of_half, (exponent_of_half k m) by lia. do 2 f_equal. lia.
    + replace (k + Z.of_nat (S fuel)) with (k + Z.of_nat fuel + 1) in Hm by lia.
      rewrite Z.pow_add_r, Z.pow_1_r in Hm by lia. dlia.
  - unfold mantissa_of. rewrite exponent_of_0 by lia. rewrite Z.div_1_r. do 2 f_equal. lia.
Qed.

Lemma exponent_of_bound k m : 1 <= k <= 64 -> is_u64 m -> 0 <= exponent_of k m <= 64 - k.
Proof.
  intros Hk Hm. unfold exponent_of. pose proof (Z.log2_nonneg m).
  destruct (Z.eq_dec m 0) as [->|]; [cbn; lia|].
  assert (Z.log2 m < 64) by (apply Z.log2_lt_pow2; unfold is_u64 in *; lia). lia.
Qed.

(** The mantissa has at most [k] bits, and exactly [k] when bits were dropped. *)
Lemma mantissa_of_bound k m : 1 <= k -> 0 <= m ->
  0 <= mantissa_of k m < 2 ^ k /\
  (exponent_of k m = 0 \/ 2 ^ (k - 1) <= mantissa_of k m).
Proof.
  intros Hk Hm. unfold mantissa_of, exponent_of.
  destruct (Z.eq_dec m 0) as [->|].
  { rewrite Z.max_l by (cbn; lia). rewrite Z.div_1_r. split; [|by left].
    split; [done|]. apply Z.pow_pos_nonneg; lia. }
  assert (Hl : 2 ^ Z.log2 m <= m < 2 ^ Z.succ (Z.log2 m)) by (apply Z.log2_spec; lia).
  pose proof (Z.log2_nonneg m).
  destruct (Z.le_gt_cases (Z.log2 m + 1) k).
  - rewrite Z.max_l by lia. rewrite Z.div_1_r. split; [|by left]. split; [lia|].
    apply Z.lt_le_trans with (2 ^ Z.succ (Z.log2 m)); [lia|]. apply Z.pow_le_mono_r; lia.
  - rewrite Z.max_r by lia. set (d := Z.log2 m + 1 - k).
    assert (0 < 2 ^ d) by (apply Z.pow_pos_nonneg; lia). split; [split|right].
    + by apply Z.div_pos.
    + apply Z.div_lt_upper_bound; [done|]. rewrite <- Z.pow_add_r by lia.
      replace (d + k) with (Z.succ (Z.log2 m)) by lia. lia.
    + apply Z.div_le_lower_bound; [done|]. rewrite <- Z.pow_add_r by lia.
      replace (d + (k - 1)) with (Z.log2 m) by lia. lia.
Qed.

(** Rounding down loses less than one part in [2 ^ (k - 1)]. *)
Lemma rounded_bound k m : 1 <= k -> 0 <= m ->
  rounded k m <= m /\ (m - rounded k m) * 2 ^ (k - 1) <= m /\ (m < 2 ^ k -> rounded k m = m).
Proof.
  intros Hk Hm. destruct (mantissa_of_bound k m Hk Hm) as [_ Hd].
  unfold rounded, mantissa_of in *. set (d := exponent_of k m) in *.
  assert (0 <= d) by (unfold d, exponent_of; lia).
  assert (0 < 2 ^ d) by (by apply Z.pow_pos_nonneg).
  pose proof (Z.div_mod m (2 ^ d)). pose proof (Z.mod_pos_bound m (2 ^ d)).
  assert (0 < 2 ^ (k - 1)) by (apply Z.pow_pos_nonneg; lia).
  split; [lia|]. split.
  - destruct Hd as [Hd|Hd]; [rewrite Hd in *; rewrite Z.div_1_r, Z.mul_1_r; lia|]. nia.
  - intros Hs. unfold d. rewrite exponent_of_0 by lia. rewrite Z.div_1_r. lia.
Qed.

Lemma rounded_u64 k m : 1 <= k -> is_u64 m -> is_u64 (rounded k m).
Proof.
  intros Hk Hm. unfold is_u64 in *.
  destruct (rounded_bound k m Hk) as [? _]; [lia|].
  assert (0 <= rounded k m); [|lia]. apply Z.mul_nonneg_nonneg.
  - apply (mantissa_of_bound k m); lia.
  - by apply Z.pow_nonneg.
Qed.

(** What a parser does to a mantissa and exponent that were written. *)
Lemma unshrink k m : 1 <= k <= 64 -> is_u64 m ->
  u64 (Z.shiftl (mantissa_of k m) (exponent_of k m)) = rounded k m /\
  Z.shiftr (rounded k m) (exponent_of k m) = mantissa_of k m.
Proof.
  intros Hk Hm. pose proof (exponent_of_bound k m Hk Hm).
  rewrite Z.shiftl_mul_pow2, Z.shiftr_div_pow2 by lia. fold (rounded k m).
  split; [apply u64_id, rounded_u64; [lia|done]|]. unfold rounded.
  apply Z.div_mul. apply Z.pow_nonzero; lia.
Qed.

(** ** Pli and RapidResyncRequest *)

#[global] Instance Pli_codec : RtcpCodec Pli.t := {|
  codec_type := Psfb.kPacketType;
  codec_fmt := fun fmt => fmt =? Pli.kFeedbackMessageType;
  codec_new := Pli.new;
  codec_block_length := Pli.BlockLength;
  codec_create := Pli.Create;
  codec_parse := Pli.Parse
|}.

#[global] Instance RapidResyncRequest_codec : RtcpCodec RapidResyncRequest.t := {|
  codec_type := Rtpfb.kPacketType;
  codec_fmt := fun fmt => fmt =? RapidResyncRequest.kFeedbackMessageType;
  codec_new := RapidResyncRequest.new;
  codec_block_length := RapidResyncRequest.BlockLength;
  codec_create := RapidResyncRequest.Create;
  codec_parse := RapidResyncRequest.Parse
|}.

Definition Pli_wf (p : Pli.t) : Prop := CommonFeedback.wf (Pli.common p).
Definition Pli_body (p : Pli.t) : bytes := CommonFeedback.encode (Pli.common p).

Definition RapidResyncRequest_wf (p : RapidResyncRequest.t) : Prop :=
  CommonFeedback.wf (RapidResyncRequest.common p).
Definition RapidResyncRequest_body (p : RapidResyncRequest.t) : bytes :=
  CommonFeedback.encode (RapidResyncRequest.common p).

Lemma Pli_Create_spec p max_length callback st :
  0 <= windex st <= zlen (wbuf st) ->
  Pli.Create p max_length callback st =
  create_result (standard_encode (fun _ => Pli.kFeedbackMessageType) Pli_body p)
    max_length callback st.
Proof.
  intros Hi. apply with_room_result; [|by rewrite length_standard_encode|done|done].
  apply runs_packet; try done.
  eapply runs_eq; [apply runs_psfb, runs_ret|apply app_nil_r].
Qed.

Lemma RapidResyncRequest_Create_spec p max_length callback st :
  0 <= windex st <= zlen (wbuf st) ->
  RapidResyncRequest.Create p max_length callback st =
  create_result (standard_encode (fun _ => RapidResyncRequest.kFeedbackMessageType)
                   RapidResyncRequest_body p) max_length callback st.
Proof.
  intros Hi. apply with_room_result; [|by rewrite length_standard_encode|done|done].
  apply runs_packet; try done.
  eapply runs_eq; [apply runs_rtpfb, runs_ret|apply app_nil_r].
Qed.

Lemma Pli_standard :
  standard Pli_wf Pli_wf (fun _ => Pli.kFeedbackMessageType) Pli_body (fun p => p).
Proof.
  constructor; try done.
  - intros p m cb st Hp Hi Hm Hb _. rewrite <- create_result_append with (max_length := m) (callback := cb) by done.
    apply Pli_Create_spec. lia.
  - intros p rest Hp. cbn [codec_parse Pli_codec codec_type codec_new]. unfold Pli.Parse.
    header_simpl. do 2 check_step. change (zlen (Pli_body p)) with 8. change (8 <? _) with false. cbv iota.
    unfold Pli_body.
    rewrite parse_feedback_here by done. by destruct p.
  - intros p h [_ _ Hpad Hs Hb Hfit _ _] Ht Hf. cbn [codec_parse Pli_codec codec_type codec_fmt] in *.
    unfold Pli.Parse. rewrite Ht, !check_then by done.
    header_simpl. unfold is_u8 in *. unfold CommonFeedback.kCommonFeedbackLength.
    destruct (Z.ltb_spec (CommonHeader.payload_size_ h) 8); [by eexists _, false|].
    destruct (parse_feedback_safe (CommonHeader.payload_ h)) as (fb & -> & Hwf); [done|lia|].
    cbn [mbind option_bind]. by eexists _, true.
Qed.

#[global] Instance Pli_laws : RtcpCodecLaws Pli.t := standard_laws _ _ _ _ _ Pli_standard.

Lemma RapidResyncRequest_standard :
  standard RapidResyncRequest_wf RapidResyncRequest_wf
    (fun _ => RapidResyncRequest.kFeedbackMessageType) RapidResyncRequest_body (fun p => p).
Proof.
  constructor; try done.
  - intros p m cb st Hp Hi Hm Hb _. rewrite <- create_result_append with (max_length := m) (callback := cb) by done.
    apply RapidResyncRequest_Create_spec. lia.
  - intros p rest Hp. cbn [codec_parse RapidResyncRequest_codec codec_type codec_new].
    unfold RapidResyncRequest.Parse. header_simpl. do 2 check_step.
    change (zlen (RapidResyncRequest_body p)) with 8. change (negb _) with false. cbv iota.
    unfold RapidResyncRequest_body. rewrite parse_rtpfb_here by done. by destruct p.
  - intros p h [_ _ Hpad Hs Hb Hfit _ _] Ht Hf.
    cbn [codec_parse RapidResyncRequest_codec codec_type codec_fmt] in *.
    unfold RapidResyncRequest.Parse. rewrite Ht, !check_then by done.
    header_simpl. unfold is_u8 in *. unfold CommonFeedback.kCommonFeedbackLength.
    destruct (Z.eqb_spec (CommonHeader.payload_size_ h) 8); [|by eexists _, false].
    destruct (parse_rtpfb_safe (CommonHeader.payload_ h)) as (fb & -> & Hwf); [done|lia|].
    cbn [mbind option_bind negb]. by eexists _, true.
Qed.

#[global] Instance RapidResyncRequest_laws : RtcpCodecLaws RapidResyncRequest.t :=
  standard_laws _ _ _ _ _ RapidResyncRequest_standard.

(** ** Fir *)

#[global] Instance Fir_codec : RtcpCodec Fir.t := {|
  codec_type := Psfb.kPacketType;
  codec_fmt := fun fmt => fmt =? Fir.kFeedbackMessageType;
  codec_new := Fir.new;
  codec_block_length := Fir.BlockLength;
  codec_create := Fir.Create;
  codec_parse := Fir.Parse
|}.

Lemma Fir_length_body p : zlen (Fir.body p) = 8 + 8 * zlen (Fir.items_ p).
Proof.
  unfold Fir.body. rewrite length_app, length_feedback, Nat2Z.inj_add.
  by rewrite (concat_length Fir.encode_request 8).
Qed.

Lemma runs_fir_request r : runs 0 (Fir.create_request r) tt (Fir.encode_request r).
Proof.
  unfold Fir.create_request, Fir.encode_request. do 2 runs_step.
  eapply runs_eq; [eapply runs_write_be; [reflexivity|]|apply app_nil_r]. runs_step.
Qed.

Lemma Fir_Create_spec p max_length callback st :
  Fir.wf p -> 0 <= windex st <= zlen (wbuf st) ->
  Fir.Create p max_length callback st =
  create_result (standard_encode (fun _ => Fir.kFeedbackMessageType) Fir.body p)
    max_length callback st.
Proof.
  intros [(Hfb & Hn & Hf) Hm] Hi. pose proof (Fir_length_body p) as Hb.
  unfold Fir.Create. rewrite wcheck_then by (apply negb_eqb_0; lia).
  apply create_with_result; [|rewrite length_standard_encode, Hb; len_lia|len_lia|done].
  apply runs_packet; [done|done|len_lia|len_lia|len_lia|].
  apply runs_check; [by apply Z.eqb_eq|]. apply runs_psfb.
  apply runs_for_each. intros. apply runs_fir_request.
Qed.

Lemma Fir_read_skip old a q off : zlen a <= off ->
  Fir.read_request old (a ++ q) off = Fir.read_request old q (off - zlen a).
Proof.
  intros. unfold Fir.read_request. rewrite !read_be_app_skip by lia.
  by rewrite <- Z.add_sub_swap.
Qed.

Lemma Fir_read_here old r q : Fir.request_ok r ->
  Fir.read_request old (Fir.encode_request r ++ q) 0 = Some r.
Proof.
  intros [Hs Hn]. unfold Fir.read_request, Fir.encode_request. rewrite Z.add_0_l. read_all.
  rewrite (read_be_app_here 8 1) by (done || lia). by destruct r.
Qed.

Lemma Fir_read_safe p old off : is_bytes p -> 0 <= off -> off + 8 <= zlen p ->
  exists r, Fir.read_request old p off = Some r /\ Fir.request_ok r.
Proof.
  intros Hp Ho Hl. unfold Fir.read_request. safe_step.
  destruct (read_be_Some 8 1 p (off + 4)) as (n & -> & Hn); [done|lia|lia|lia|].
  cbn [mbind option_bind]. by eexists.
Qed.

Lemma Fir_standard :
  standard Fir.inv Fir.wf (fun _ => Fir.kFeedbackMessageType) Fir.body (fun p => p).
Proof.
  constructor; try done; intros p.
  - intros Hp. apply Hp.
  - intros _. rewrite Fir_length_body. dlia.
  - intros [(_ & Hn & _) _]. rewrite Fir_length_body. lia.
  - intros _. rewrite Fir_length_body. cbn [codec_block_length Fir_codec]. len_lia.
  - intros m cb st Hp Hi Hm Hb _. rewrite <- create_result_append with (max_length := m) (callback := cb) by done.
    apply Fir_Create_spec; [done|lia].
  - intros rest [(Hfb & Hn & Hf) Hm]. cbn [codec_parse Fir_codec codec_type codec_new].
    unfold Fir.Parse. header_simpl. do 2 check_step. rewrite Fir_length_body.
    unfold CommonFeedback.kCommonFeedbackLength, Fir.kFciLength. ltb_false.
    rewrite (proj2 (Z.eqb_eq _ 0)) by dlia. cbn [negb]. unfold Fir.body.
    rewrite <- app_assoc, parse_feedback_here by done. cbn [mbind option_bind].
    rewrite skip_feedback by (done || apply Fir_read_skip). change (8 - 8) with 0.
    rewrite (read_items_encode _ Fir.encode_request); [by destruct p|apply Fir_read_skip| |done|].
    + intros old r q' Hr. apply Fir_read_here. rewrite List.Forall_forall in Hf. by apply Hf.
    + rewrite length_vec_resize. dlia.
  - intros h [_ _ Hpad Hs Hb Hfit Hw _] Ht Hf. cbn [codec_parse Fir_codec codec_type codec_fmt] in *.
    unfold Fir.Parse. rewrite Ht, !check_then by done.
    header_simpl. unfold is_u8 in *. unfold CommonFeedback.kCommonFeedbackLength, Fir.kFciLength.
    destruct (Z.ltb_spec (CommonHeader.payload_size_ h) (8 + 8)); [by eexists _, false|].
    destruct (Z.eqb_spec ((CommonHeader.payload_size_ h - 8) mod 8) 0); [|by eexists _, false].
    destruct (parse_feedback_safe (CommonHeader.payload_ h)) as (fb & -> & Hwf); [done|lia|].
    cbn [mbind option_bind negb].
    destruct (read_items_safe Fir.read_request Fir.request_ok 8 (CommonHeader.payload_ h)) with
      (olds := vec_resize (Z.to_nat ((CommonHeader.payload_size_ h - 8) / 8)) (Fir.MkRequest 0 0) (Fir.items_ p))
      (n := (CommonHeader.payload_size_ h - 8) / 8) (off := 8) as (l & -> & Hl & Hok);
      [intros; by apply Fir_read_safe|done|done|dlia|rewrite length_vec_resize; dlia|].
    cbn [mbind option_bind]. eexists _, true. split; [done|]. intros _ _.
    split; [done|]. split; [cbn; dlia|done].
Qed.

#[global] Instance Fir_laws : RtcpCodecLaws Fir.t := standard_laws _ _ _ _ _ Fir_standard.

(** ** Remb *)

#[global] Instance Remb_codec : RtcpCodec Remb.t := {|
  codec_type := Psfb.kPacketType;
  codec_fmt := fun fmt => fmt =? Psfb.kAfbMessageType;
  codec_new := Remb.new;
  codec_block_length := Remb.BlockLength;
  codec_create := Remb.Create;
  codec_parse := Remb.Parse
|}.

Lemma Remb_length_body p : zlen (Remb.body p) = 16 + 4 * zlen (Remb.ssrcs_ p).
Proof.
  unfold Remb.body. rewrite !length_app, length_feedback, !length_be_bytes.
  pose proof (length_concat_be_bytes (Remb.ssrcs_ p)). lia.
Qed.

(** The octets of mantissa and exponent, as written and as specified. *)
Lemma remb_octets m : is_u64 m ->
  u8 (Z.lor (Z.shiftl (exponent_of 18 m) 2) (Z.shiftr (mantissa_of 18 m) 16)) =
  4 * exponent_of 18 m + mantissa_of 18 m / 65536 /\
  0 <= mantissa_of 18 m < 2 ^ 18 /\ 0 <= exponent_of 18 m <= 46.
Proof.
  intros Hm. pose proof (exponent_of_bound 18 m ltac:(lia) Hm).
  destruct (mantissa_of_bound 18 m) as [? _]; [lia|apply Hm|]. cbn in *.
  rewrite Z.shiftr_div_pow2, lor_shiftl_add by (try done; dlia).
  split; [wordlia|lia].
Qed.

Lemma Remb_Create_spec p max_length callback st :
  Remb.wf p -> 0 <= windex st <= zlen (wbuf st) ->
  Remb.Create p max_length callback st =
  create_result (standard_encode (fun _ => Psfb.kAfbMessageType) Remb.body p)
    max_length callback st.
Proof.
  intros [(Hfb & Hr & Hn & Hf) Hm] Hi. pose proof (Remb_length_body p) as Hb.
  apply create_with_result; [|rewrite length_standard_encode, Hb; len_lia|len_lia|done].
  apply runs_packet; [done|done|len_lia|len_lia|len_lia|].
  apply runs_check; [by apply Z.eqb_eq|]. apply runs_psfb.
  set (m := u64 (Remb.bitrate_bps_ p)). assert (Hu : is_u64 m) by apply u64_range.
  destruct (remb_octets m Hu) as (Ho & Hman & He).
  do 2 runs_step. eapply (runs_wlift _ (mantissa_of 18 m, exponent_of 18 m)).
  { apply (shrink_spec 64 18 m 0); [lia|]. unfold is_u64 in *. lia. }
  eapply runs_eq.
  { do 4 runs_step. apply runs_for_each. intros. by apply runs_write_be_last. }
  unfold Remb.body. fold m. rewrite Ho, (land_mask 16 65535) by done.
  rewrite u8_id by (unfold is_u8; lia). change (2 ^ 16) with 65536.
  rewrite !be_bytes_1 by wordlia. done.
Qed.

Lemma Remb_parse_body p rest : Remb.wf p ->
  Remb.Parse Remb.new
    (CommonHeader.Mk Psfb.kPacketType Psfb.kAfbMessageType 0 (zlen (Remb.body p))
       (Remb.body p ++ rest)) = Some (Remb.image p, true).
Proof.
  intros [(Hfb & Hr & Hn & Hf) Hm]. unfold Remb.Parse. header_simpl. do 2 check_step.
  rewrite Remb_length_body. ltb_false. unfold Remb.body.
  set (m := u64 (Remb.bitrate_bps_ p)). assert (Hu : is_u64 m) by apply u64_range.
  destruct (remb_octets m Hu) as (Ho & Hman & He). destruct Hfb as [Hs Hms].
  destruct (unshrink 18 m) as [Hsl Hsr]; [lia|done|].
  unfold Psfb.ParseCommonFeedback, CommonFeedback.encode. read_all.
  rewrite Z.eqb_refl. cbn [negb]. read_all.
  unfold CommonFeedback.kCommonFeedbackLength. eqb_true. read_all.
  rewrite (Z.shiftr_div_pow2 _ 2), (land_mask 2 3) by done. change (2 ^ 2) with 4.
  replace (u8 ((4 * exponent_of 18 m + mantissa_of 18 m / 65536) / 4)) with (exponent_of 18 m)
    by wordlia.
  replace ((4 * exponent_of 18 m + mantissa_of 18 m / 65536) mod 4) with (mantissa_of 18 m / 65536)
    by dlia.
  rewrite u32_id by (rewrite Z.shiftl_mul_pow2 by done; wordlia).
  rewrite lor_shiftl_add by dlia.
  replace (mantissa_of 18 m / 65536 * 2 ^ 16 + mantissa_of 18 m mod 65536)
    with (mantissa_of 18 m) by dlia.
  rewrite Hsl, u64_s64, u64_id, Hsr, Z.eqb_refl by (apply rounded_u64; [lia|done]).
  cbn [negb]. items_skip u32s_skip. rewrite Nat2Z.id.
  rewrite read_u32s_encode by (done || apply length_replicate). cbn [mbind option_bind].
  unfold Remb.image. fold m. by destruct (Remb.common p).
Qed.

Lemma Remb_Parse_safe p h :
  CommonHeader.valid h -> CommonHeader.type h = Psfb.kPacketType ->
  CommonHeader.fmt h = Psfb.kAfbMessageType ->
  exists p' b, Remb.Parse p h = Some (p', b) /\ (b = true -> Remb.inv p').
Proof.
  intros [_ _ Hpad Hs Hb Hfit Hw _] Ht Hf. unfold Remb.Parse. rewrite Ht, Hf, !check_then by done.
  header_simpl. unfold is_u8 in *.
  destruct (Z.ltb_spec (CommonHeader.payload_size_ h) 16); [by eexists _, false|].
  safe_step. destruct (Remb.kUniqueIdentifier =? v); [|by eexists _, false]. cbn [negb].
  destruct (peek_u8_Some (CommonHeader.payload_ h) 12) as (v0 & -> & ?); [done|lia|].
  unfold CommonFeedback.kCommonFeedbackLength, is_u8 in *. cbn [mbind option_bind].
  destruct (Z.eqb_spec (CommonHeader.payload_size_ h) (8 + (2 + v0) * 4)); [|by eexists _, false].
  cbn [negb].
  destruct (parse_feedback_safe (CommonHeader.payload_ h)) as (fb & -> & Hwf); [done|lia|].
  cbn [mbind option_bind]. do 2 safe_step.
  destruct (negb _); [by eexists _, false|].
  destruct (read_u32s_safe (CommonHeader.payload_ h) v0 (replicate (Z.to_nat v0) 0) 16)
    as (l & -> & Hl & Hok); [done|lia|lia|rewrite length_replicate; lia|].
  cbn [mbind option_bind]. eexists _, true. split; [done|]. intros _.
  split; [done|]. split; [apply s64_range|]. split; [cbn; lia|done].
Qed.

Lemma Remb_standard :
  standard Remb.inv Remb.wf (fun _ => Psfb.kAfbMessageType) Remb.body Remb.image.
Proof.
  constructor; try done; intros p.
  - intros Hp. apply Hp.
  - intros _. rewrite Remb_length_body. dlia.
  - intros [(_ & _ & Hn & _) _]. rewrite Remb_length_body. lia.
  - intros _. rewrite Remb_length_body. cbn [codec_block_length Remb_codec]. len_lia.
  - intros m cb st Hp Hi Hm Hb _. rewrite <- create_result_append with (max_length := m) (callback := cb) by done.
    apply Remb_Create_spec; [done|lia].
  - intros rest. apply Remb_parse_body.
  - intros h Hv Ht Hf. cbn [codec_fmt Remb_codec] in Hf. apply Z.eqb_eq in Hf.
    destruct (Remb_Parse_safe p h Hv Ht Hf) as (p' & b & E & Hi). by exists p', b.
Qed.

#[global] Instance Remb_laws : RtcpCodecLaws Remb.t := standard_laws _ _ _ _ _ Remb_standard.

(** ** LossNotification *)

#[global] Instance LossNotification_codec : RtcpCodec LossNotification.t := {|
  codec_type := Psfb.kPacketType;
  codec_fmt := fun fmt => fmt =? Psfb.kAfbMessageType;
  codec_new := LossNotification.new;
  codec_block_length := LossNotification.BlockLength;
  codec_create := LossNotification.Create;
  codec_parse := LossNotification.Parse
|}.

Lemma loss_delta_octets delta (flag : bool) : 0 <= delta <= 32767 ->
  u16 (Z.lor (Z.shiftl delta 1) (if flag then 1 else 0)) = 2 * delta + (if flag then 1 else 0).
Proof. intros Hd. rewrite lor_shiftl_add by (destruct flag; lia). destruct flag; wordlia. Qed.

Lemma LossNotification_Create_spec p max_length callback st :
  LossNotification.wf p -> 0 <= windex st <= zlen (wbuf st) ->
  LossNotification.Create p max_length callback st =
  create_result (standard_encode (fun _ => Psfb.kAfbMessageType) LossNotification.body p)
    max_length callback st.
Proof.
  intros (Hfb & Hd & Hr & Hdelta) Hi.
  apply create_with_result; [|by rewrite length_standard_encode|len_lia|done].
  apply runs_packet; [done|done|done|done|done|]. apply runs_psfb.
  do 4 runs_step. cbv zeta.
  pose proof (u16_range (LossNotification.last_received_ p - LossNotification.last_decoded_ p)).
  rewrite wcheck_then by (apply Z.leb_le; lia).
  rewrite loss_delta_octets by (unfold is_u16 in *; lia). by apply runs_write_be_last.
Qed.

Lemma LossNotification_parse_body p rest : LossNotification.wf p ->
  LossNotification.Parse LossNotification.new
    (CommonHeader.Mk Psfb.kPacketType Psfb.kAfbMessageType 0 (zlen (LossNotification.body p))
       (LossNotification.body p ++ rest)) = Some (p, true).
Proof.
  intros ([Hs Hm] & Hd & Hr & Hdelta). unfold LossNotification.Parse. header_simpl.
  do 2 check_step. change (zlen (LossNotification.body p)) with 16.
  change (16 <? _) with false. cbv iota. unfold LossNotification.body.
  set (delta := u16 (LossNotification.last_received_ p - LossNotification.last_decoded_ p)) in *.
  assert (Hdr : is_u16 delta) by apply u16_range.
  assert (Hlast : is_u16 (2 * delta + (if LossNotification.decodability_flag_ p then 1 else 0)))
    by (destruct (LossNotification.decodability_flag_ p); wordlia).
  unfold Psfb.ParseCommonFeedback, CommonFeedback.encode. read_all.
  rewrite Z.eqb_refl. cbn [negb]. read_all. rewrite Z.shiftr_div_pow2, (land_mask 1 1) by done.
  change (2 ^ 1) with 2.
  replace (u16 (LossNotification.last_decoded_ p +
    (2 * delta + (if LossNotification.decodability_flag_ p then 1 else 0)) / 2))
    with (LossNotification.last_received_ p).
  2: { unfold delta in *. destruct (LossNotification.decodability_flag_ p); wordlia. }
  destruct p as [[] ? ? []]; cbn; repeat f_equal; dlia.
Qed.

Lemma LossNotification_Parse_safe p h :
  CommonHeader.valid h -> CommonHeader.type h = Psfb.kPacketType ->
  CommonHeader.fmt h = Psfb.kAfbMessageType ->
  exists p' b, LossNotification.Parse p h = Some (p', b) /\ (b = true -> LossNotification.wf p').
Proof.
  intros [_ _ Hpad Hs Hb Hfit Hw _] Ht Hf. unfold LossNotification.Parse.
  rewrite Ht, Hf, !check_then by done. header_simpl. unfold is_u8 in *.
  unfold CommonFeedback.kCommonFeedbackLength, LossNotification.kLossNotificationPayloadLength.
  destruct (Z.ltb_spec (CommonHeader.payload_size_ h) (8 + 8)); [by eexists _, false|].
  safe_step. destruct (v =? LossNotification.kUniqueIdentifier); [|by eexists _, false]. cbn [negb].
  destruct (parse_feedback_safe (CommonHeader.payload_ h)) as (fb & -> & Hwf); [done|lia|].
  cbn [mbind option_bind]. do 2 safe_step. eexists _, true. split; [done|]. intros _.
  unfold LossNotification.wf. cbn [LossNotification.common LossNotification.last_decoded_
    LossNotification.last_received_].
  rewrite (Z.shiftr_div_pow2 _ 1) by done. change (2 ^ 1) with 2.
  splits; [done|done|apply u16_range|wordlia].
Qed.

Lemma LossNotification_standard :
  standard LossNotification.wf LossNotification.wf (fun _ => Psfb.kAfbMessageType)
    LossNotification.body (fun p => p).
Proof.
  constructor; try done; intros p.
  - intros m cb st Hp Hi Hm Hb _. rewrite <- create_result_append with (max_length := m) (callback := cb) by done.
    apply LossNotification_Create_spec; [done|lia].
  - intros rest. apply LossNotification_parse_body.
  - intros h Hv Ht Hf. cbn [codec_fmt LossNotification_codec] in Hf. apply Z.eqb_eq in Hf.
    destruct (LossNotification_Parse_safe p h Hv Ht Hf) as (p' & b & E & Hi). by exists p', b.
Qed.

#[global] Instance LossNotification_laws : RtcpCodecLaws LossNotification.t :=
  standard_laws _ _ _ _ _ LossNotification_standard.

(** ** TmmbItem *)

Lemma tmmb_compact e m o : 0 <= e < 64 -> 0 <= m < 131072 -> 0 <= o < 512 ->
  u32 (Z.lor (Z.lor (u32 (Z.shiftl e 26)) (u64 (Z.shiftl m 9))) o) = e * 2 ^ 26 + m * 2 ^ 9 + o.
Proof.
  intros He Hm Ho. rewrite (Z.shiftl_mul_pow2 e), (Z.shiftl_mul_pow2 m) by done.
  rewrite (u32_id (e * 2 ^ 26)), (u64_id (m * 2 ^ 9)) by wordlia.
  rewrite (lor_shift_add 26) by lia.
  replace (e * 2 ^ 26 + m * 2 ^ 9) with ((e * 2 ^ 17 + m) * 2 ^ 9) by lia.
  rewrite lor_shift_add by lia. apply u32_id. wordlia.
Qed.

Lemma stores_tmmb i : TmmbItem.wf i -> stores 0 (TmmbItem.Create i) (TmmbItem.encode i).
Proof.
  intros (Hs & Hb & Ho). unfold TmmbItem.Create, TmmbItem.encode.
  eapply (stores_wlift _ (mantissa_of 17 (TmmbItem.bitrate_bps_ i), exponent_of 17 (TmmbItem.bitrate_bps_ i))).
  { apply (shrink_spec 64 17 (TmmbItem.bitrate_bps_ i) 0); [lia|]. unfold is_u64 in *. lia. }
  cbv zeta iota beta.
  pose proof (exponent_of_bound 17 _ ltac:(lia) Hb).
  destruct (mantissa_of_bound 17 (TmmbItem.bitrate_bps_ i)) as [? _]; [lia|apply Hb|].
  rewrite tmmb_compact by lia. do 2 stores_step.
Qed.

Lemma length_tmmb i : zlen (TmmbItem.encode i) = 8.
Proof. done. Qed.

Lemma tmmb_Parse_skip i a q off : zlen a <= off ->
  TmmbItem.Parse i (a ++ q) off = TmmbItem.Parse i q (off - zlen a).
Proof.
  intros. unfold TmmbItem.Parse. rewrite !read_be_app_skip by lia.
  by rewrite <- !Z.add_sub_swap.
Qed.

Lemma tmmb_Parse_here old i q : TmmbItem.wf i ->
  TmmbItem.Parse old (TmmbItem.encode i ++ q) 0 = Some (TmmbItem.image i, true).
Proof.
  intros (Hs & Hb & Ho). unfold TmmbItem.Parse, TmmbItem.encode. rewrite !Z.add_0_l.
  pose proof (exponent_of_bound 17 _ ltac:(lia) Hb).
  destruct (mantissa_of_bound 17 (TmmbItem.bitrate_bps_ i)) as [? _]; [lia|apply Hb|].
  destruct (unshrink 17 (TmmbItem.bitrate_bps_ i)) as [Hsl Hsr]; [lia|done|].
  unfold TmmbItem.image.
  set (e := exponent_of 17 (TmmbItem.bitrate_bps_ i)) in *.
  set (m := mantissa_of 17 (TmmbItem.bitrate_bps_ i)) in *. cbn [Z.pow Z.pow_pos Pos.iter Z.mul Pos.mul] in *.
  assert (is_u32 (e * 67108864 + m * 512 + TmmbItem.packet_overhead_ i)) by wordlia.
  read_all. rewrite (Z.shiftr_div_pow2 _ 26), (Z.shiftr_div_pow2 _ 9), (land_mask 17 131071),
    (land_mask 9 511) by done.
  change (2 ^ 26) with 67108864. change (2 ^ 9) with 512. change (2 ^ 17) with 131072.
  replace (u8 ((e * 67108864 + m * 512 + TmmbItem.packet_overhead_ i) / 67108864)) with e by wordlia.
  replace ((e * 67108864 + m * 512 + TmmbItem.packet_overhead_ i) / 512 mod 131072) with m by dlia.
  replace (u16 ((e * 67108864 + m * 512 + TmmbItem.packet_overhead_ i) mod 512))
    with (TmmbItem.packet_overhead_ i) by wordlia.
  by rewrite Hsl, Hsr, Z.eqb_refl.
Qed.

Lemma tmmb_Parse_safe old p off : is_bytes p -> 0 <= off -> off + 8 <= zlen p ->
  exists i b, TmmbItem.Parse old p off = Some (i, b) /\ (b = true -> TmmbItem.wf i).
Proof.
  intros Hp Ho Hl. unfold TmmbItem.Parse. do 2 safe_step.
  destruct (negb _); [by eexists _, false|]. eexists _, true. split; [done|]. intros _.
  unfold TmmbItem.wf. cbn [TmmbItem.ssrc_ TmmbItem.bitrate_bps_ TmmbItem.packet_overhead_].
  splits; try done; try apply u64_range; rewrite (land_mask 9 511) by done; wordlia.
Qed.

Lemma tmmb_parse_skip items a q off : zlen a <= off ->
  TmmbItem.parse_items items (a ++ q) off = TmmbItem.parse_items items q (off - zlen a).
Proof.
  revert off. induction items as [|i items IH]; intros off Ho; [done|].
  cbn [TmmbItem.parse_items]. rewrite tmmb_Parse_skip by done.
  rewrite IH by (unfold TmmbItem.kLength; lia). by rewrite Z.add_sub_swap.
Qed.

Lemma tmmb_parse_encode items olds q :
  Forall TmmbItem.wf items -> length olds = length items ->
  TmmbItem.parse_items olds (concat (map TmmbItem.encode items) ++ q) 0 =
  Some (map TmmbItem.image items, true).
Proof.
  revert olds. induction items as [|i items IH]; intros [|old olds] Hf Hl; try done.
  apply Forall_cons_iff in Hf as [Hi Hf]. injection Hl as Hl.
  cbn [TmmbItem.parse_items map concat]. rewrite <- app_assoc, tmmb_Parse_here by done.
  cbn [mbind option_bind negb]. rewrite tmmb_parse_skip by done.
  change (0 + TmmbItem.kLength - zlen (TmmbItem.encode i)) with 0. by rewrite IH.
Qed.

Lemma tmmb_parse_safe p n olds off :
  is_bytes p -> 0 <= off -> off + 8 * n <= zlen p -> zlen olds = n ->
  exists l b, TmmbItem.parse_items olds p off = Some (l, b) /\
    (b = true -> zlen l = n /\ Forall TmmbItem.wf l).
Proof.
  intros Hp. revert n off. induction olds as [|old olds IH]; intros n off Ho Hl Hn.
  - by exists [], true.
  - cbn [length TmmbItem.parse_items] in *.
    destruct (tmmb_Parse_safe old p off) as (i & b & -> & Hi); [done|done|lia|].
    cbn [mbind option_bind]. destruct b; cbn [negb]; [|by eexists _, false].
    destruct (IH (n - 1) (off + TmmbItem.kLength)) as (l & b & -> & Hb);
      [unfold TmmbItem.kLength; lia..|].
    cbn [mbind option_bind]. eexists _, b. split; [done|]. intros ->.
    destruct Hb as [Hll Hf]; [done|]. cbn [length]. split; [lia|]. constructor; [by apply Hi|done].
Qed.

Lemma runs_tmmb_items items : Forall TmmbItem.wf items ->
  runs 0 (for_each (fun i => TmmbItem.Create i ;; add_index TmmbItem.kLength) items) tt
    (concat (map TmmbItem.encode items)).
Proof.
  intros Hf. apply runs_for_each. intros i Hi. rewrite List.Forall_forall in Hf.
  eapply runs_eq; [eapply runs_store; [by apply stores_tmmb, Hf|reflexivity|]|apply app_nil_r].
  apply runs_add_last.
Qed.

Lemma skip_feedback_tmmb fb items q :
  TmmbItem.parse_items items (CommonFeedback.encode fb ++ q) 8 = TmmbItem.parse_items items q 0.
Proof. by rewrite tmmb_parse_skip. Qed.

(** ** Tmmbr *)

#[global] Instance Tmmbr_codec : RtcpCodec Tmmbr.t := {|
  codec_type := Rtpfb.kPacketType;
  codec_fmt := fun fmt => fmt =? Tmmbr.kFeedbackMessageType;
  codec_new := Tmmbr.new;
  codec_block_length := Tmmbr.BlockLength;
  codec_create := Tmmbr.Create;
  codec_parse := Tmmbr.Parse
|}.

Lemma Tmmbr_length_body p : zlen (Tmmbr.body p) = 8 + 8 * zlen (Tmmbr.items_ p).
Proof.
  unfold Tmmbr.body. rewrite length_app, length_feedback, Nat2Z.inj_add.
  by rewrite (concat_length TmmbItem.encode 8).
Qed.

Lemma Tmmbr_Create_spec p max_length callback st :
  Tmmbr.wf p -> 0 <= windex st <= zlen (wbuf st) ->
  Tmmbr.Create p max_length callback st =
  create_result (standard_encode (fun _ => Tmmbr.kFeedbackMessageType) Tmmbr.body p)
    max_length callback st.
Proof.
  intros [(Hfb & Hn & Hf) Hm] Hi. pose proof (Tmmbr_length_body p) as Hb.
  unfold Tmmbr.Create. rewrite wcheck_then by (apply negb_eqb_0; lia).
  apply create_with_result; [|rewrite length_standard_encode, Hb; len_lia|len_lia|done].
  apply runs_packet; [done|done|len_lia|len_lia|len_lia|].
  apply runs_check; [by apply Z.eqb_eq|]. apply runs_rtpfb. by apply runs_tmmb_items.
Qed.

Lemma Tmmbr_standard :
  standard Tmmbr.inv Tmmbr.wf (fun _ => Tmmbr.kFeedbackMessageType) Tmmbr.body Tmmbr.image.
Proof.
  constructor; try done; intros p.
  - intros Hp. apply Hp.
  - intros _. rewrite Tmmbr_length_body. dlia.
  - intros [(_ & Hn & _) _]. rewrite Tmmbr_length_body. lia.
  - intros _. rewrite Tmmbr_length_body. cbn [codec_block_length Tmmbr_codec]. len_lia.
  - intros m cb st Hp Hi Hm Hb _. rewrite <- create_result_append with (max_length := m) (callback := cb) by done.
    apply Tmmbr_Create_spec; [done|lia].
  - intros rest [(Hfb & Hn & Hf) Hm]. cbn [codec_parse Tmmbr_codec codec_type codec_new].
    unfold Tmmbr.Parse. header_simpl. do 2 check_step. rewrite Tmmbr_length_body.
    unfold CommonFeedback.kCommonFeedbackLength, TmmbItem.kLength. ltb_false.
    rewrite (proj2 (Z.eqb_eq _ 0)) by dlia. cbn [negb]. unfold Tmmbr.body.
    rewrite <- app_assoc, parse_rtpfb_here by done. cbn [mbind option_bind].
    rewrite skip_feedback_tmmb, tmmb_parse_encode; [done|done|]. rewrite length_vec_resize. dlia.
  - intros h [_ _ Hpad Hs Hb Hfit Hw _] Ht Hf. cbn [codec_parse Tmmbr_codec codec_type codec_fmt] in *.
    unfold Tmmbr.Parse. rewrite Ht, !check_then by done.
    header_simpl. unfold is_u8 in *. unfold CommonFeedback.kCommonFeedbackLength, TmmbItem.kLength.
    destruct (Z.ltb_spec (CommonHeader.payload_size_ h) (8 + 8)); [by eexists _, false|].
    destruct (Z.eqb_spec ((CommonHeader.payload_size_ h - 8) mod 8) 0); [|by eexists _, false].
    destruct (parse_rtpfb_safe (CommonHeader.payload_ h)) as (fb & -> & Hwf); [done|lia|].
    cbn [mbind option_bind negb].
    destruct (tmmb_parse_safe (CommonHeader.payload_ h) ((CommonHeader.payload_size_ h - 8) / 8)
      (vec_resize (Z.to_nat ((CommonHeader.payload_size_ h - 8) / 8)) TmmbItem.new (Tmmbr.items_ p)) 8)
      as (l & b & -> & Hok); [done|done|dlia|rewrite length_vec_resize; dlia|].
    cbn [mbind option_bind]. eexists _, b. split; [done|]. intros _ ->.
    destruct Hok as [Hl Hok]; [done|]. split; [done|]. split; [cbn; dlia|done].
Qed.

#[global] Instance Tmmbr_laws : RtcpCodecLaws Tmmbr.t := standard_laws _ _ _ _ _ Tmmbr_standard.

(** ** Tmmbn *)

#[global] Instance Tmmbn_codec : RtcpCodec Tmmbn.t := {|
  codec_type := Rtpfb.kPacketType;
  codec_fmt := fun fmt => fmt =? Tmmbn.kFeedbackMessageType;
  codec_new := Tmmbn.new;
  codec_block_length := Tmmbn.BlockLength;
  codec_create := Tmmbn.Create;
  codec_parse := Tmmbn.Parse
|}.

Lemma Tmmbn_length_body p : zlen (Tmmbn.body p) = 8 + 8 * zlen (Tmmbn.items_ p).
Proof.
  unfold Tmmbn.body. rewrite length_app, length_feedback, Nat2Z.inj_add.
  by rewrite (concat_length TmmbItem.encode 8).
Qed.

Lemma Tmmbn_Create_spec p max_length callback st :
  Tmmbn.wf p -> 0 <= windex st <= zlen (wbuf st) ->
  Tmmbn.Create p max_length callback st =
  create_result (standard_encode (fun _ => Tmmbn.kFeedbackMessageType) Tmmbn.body p)
    max_length callback st.
Proof.
  intros [(Hfb & Hn & Hf) Hm] Hi. pose proof (Tmmbn_length_body p) as Hb.
  apply create_with_result; [|rewrite length_standard_encode, Hb; len_lia|len_lia|done].
  apply runs_packet; [done|done|len_lia|len_lia|len_lia|].
  apply runs_check; [by apply Z.eqb_eq|]. apply runs_rtpfb. by apply runs_tmmb_items.
Qed.

Lemma Tmmbn_standard :
  standard Tmmbn.inv Tmmbn.wf (fun _ => Tmmbn.kFeedbackMessageType) Tmmbn.body Tmmbn.image.
Proof.
  constructor; try done; intros p.
  - intros Hp. apply Hp.
  - intros _. rewrite Tmmbn_length_body. dlia.
  - intros [(_ & Hn & _) _]. rewrite Tmmbn_length_body. lia.
  - intros _. rewrite Tmmbn_length_body. cbn [codec_block_length Tmmbn_codec]. len_lia.
  - intros m cb st Hp Hi Hm Hb _. rewrite <- create_result_append with (max_length := m) (callback := cb) by done.
    apply Tmmbn_Create_spec; [done|lia].
  - intros rest [(Hfb & Hn & Hf) Hm]. cbn [codec_parse Tmmbn_codec codec_type codec_new].
    unfold Tmmbn.Parse. header_simpl. do 2 check_step. rewrite Tmmbn_length_body.
    unfold CommonFeedback.kCommonFeedbackLength, TmmbItem.kLength. ltb_false.
    rewrite (proj2 (Z.eqb_eq _ 0)) by dlia. cbn [negb]. unfold Tmmbn.body.
    rewrite <- app_assoc, parse_rtpfb_here by done. cbn [mbind option_bind].
    rewrite skip_feedback_tmmb, tmmb_parse_encode; [done|done|]. rewrite length_vec_resize. dlia.
  - intros h [_ _ Hpad Hs Hb Hfit Hw _] Ht Hf. cbn [codec_parse Tmmbn_codec codec_type codec_fmt] in *.
    unfold Tmmbn.Parse. rewrite Ht, !check_then by done.
    header_simpl. unfold is_u8 in *. unfold CommonFeedback.kCommonFeedbackLength, TmmbItem.kLength.
    destruct (Z.ltb_spec (CommonHeader.payload_size_ h) 8); [by eexists _, false|].
    destruct (Z.eqb_spec ((CommonHeader.payload_size_ h - 8) mod 8) 0); [|by eexists _, false].
    destruct (parse_rtpfb_safe (CommonHeader.payload_ h)) as (fb & -> & Hwf); [done|lia|].
    cbn [mbind option_bind negb].
    destruct (tmmb_parse_safe (CommonHeader.payload_ h) ((CommonHeader.payload_size_ h - 8) / 8)
      (vec_resize (Z.to_nat ((CommonHeader.payload_size_ h - 8) / 8)) TmmbItem.new (Tmmbn.items_ p)) 8)
      as (l & b & -> & Hok); [done|done|dlia|rewrite length_vec_resize; dlia|].
    cbn [mbind option_bind]. eexists _, b. split; [done|]. intros _ ->.
    destruct Hok as [Hl Hok]; [done|]. split; [done|]. split; [cbn; dlia|done].
Qed.

#[global] Instance Tmmbn_laws : RtcpCodecLaws Tmmbn.t := standard_laws _ _ _ _ _ Tmmbn_standard.

(** ** Properties *)

(** Round trips of the messages that are carried exactly.  Picture loss indication,
    rapid resynchronisation request and full intra request (any number of requests up
    to what a packet holds, media SSRC zero) are written by Create at the index as
    BlockLength octets and parse back to the same object. *)
Theorem feedback_roundtrip (pli : Pli.t) (rrr : RapidResyncRequest.t) (fir : Fir.t)
    max_length callback st :
  0 <= windex st -> max_length <= zlen (wbuf st) -> max_length < 2 ^ 64 ->
  CommonFeedback.wf (Pli.common pli) -> CommonFeedback.wf (RapidResyncRequest.common rrr) ->
  Fir.wf fir -> windex st + 12 <= max_length -> windex st + Fir.BlockLength fir <= max_length ->
  roundtrips (Pli.Create pli max_length callback) (Pli.Parse Pli.new) 12 pli st /\
  roundtrips (RapidResyncRequest.Create rrr max_length callback)
    (RapidResyncRequest.Parse RapidResyncRequest.new) 12 rrr st /\
  roundtrips (Fir.Create fir max_length callback) (Fir.Parse Fir.new) (Fir.BlockLength fir) fir st.
Proof.
  intros Hi Hb H64 Hp Hr Hf Hm Hmf. splits.
  - exact (codec_roundtrip pli max_length callback st Hp Hi Hm Hb H64).
  - exact (codec_roundtrip rrr max_length callback st Hr Hi Hm Hb H64).
  - exact (codec_roundtrip fir max_length callback st Hf Hi Hmf Hb H64).
Qed.

Lemma feedback_roundtrip_witness :
  let fir := Fir.Mk (CommonFeedback.Mk 1 0) [Fir.MkRequest 2 3; Fir.MkRequest 4 255] in
  roundtrips (Fir.Create fir 40 true) (Fir.Parse Fir.new) 28 fir (WState (replicate 40 1) 4 []).
Proof.
  apply (feedback_roundtrip (Pli.Mk (CommonFeedback.Mk 1 2)) (RapidResyncRequest.Mk (CommonFeedback.Mk 1 2))
    (Fir.Mk (CommonFeedback.Mk 1 0) [Fir.MkRequest 2 3; Fir.MkRequest 4 255])
    40 true (WState (replicate 40 1) 4 [])); decide_wf.
Defined.

(** Loss notification.  Set accepts exactly the pairs whose received number is at
    most 2^15 - 1 ahead of the decoded one modulo 2^16, leaving the object alone
    otherwise; what it accepts is carried exactly by Create and Parse. *)
Theorem loss_notification_roundtrip (this : LossNotification.t) last_decoded last_received flag
    max_length callback st :
  CommonFeedback.wf (LossNotification.common this) -> is_u16 last_decoded -> is_u16 last_received ->
  0 <= windex st -> windex st + 20 <= max_length -> max_length <= zlen (wbuf st) ->
  max_length < 2 ^ 64 ->
  exists p ok,
    LossNotification.Set_ this last_decoded last_received flag = (p, ok) /\
    ok = (u16 (last_received - last_decoded) <? 2 ^ 15) /\
    if ok : bool then
      p = LossNotification.Mk (LossNotification.common this) last_decoded last_received flag /\
      roundtrips (LossNotification.Create p max_length callback)
        (LossNotification.Parse LossNotification.new) 20 p st
    else p = this.
Proof.
  intros Hc Hd Hr Hi Hm Hb H64. unfold LossNotification.Set_. rewrite Z.gtb_ltb.
  destruct (Z.ltb_spec 0x7fff (u16 (last_received - last_decoded))),
    (Z.ltb_spec (u16 (last_received - last_decoded)) (2 ^ 15)); try lia;
    eexists _, _; (split; [reflexivity|]); split; try done.
  split; [done|].
  refine (codec_roundtrip (LossNotification.Mk _ last_decoded last_received flag) max_length callback st _ Hi Hm Hb H64).
  cbn. unfold LossNotification.wf. cbn. splits; done.
Qed.

Lemma loss_notification_roundtrip_witness :
  exists p, LossNotification.Set_ LossNotification.new 65530 5 true = (p, true) /\
    roundtrips (LossNotification.Create p 24 false) (LossNotification.Parse LossNotification.new) 20 p
      (WState (replicate 24 0) 4 []).
Proof.
  destruct (loss_notification_roundtrip LossNotification.new 65530 5 true 24 false
    (WState (replicate 24 0) 4 [])) as (p & ok & E & Eok & Hp); [decide_wf..|].
  vm_compute in Eok. subst ok. exists p. split; [exact E|]. apply Hp.
Defined.

(** REMB keeps 18 significant bits.  A receiver estimate below 2^63 bits per second
    with up to 255 SSRCs is written as BlockLength octets; parsing them gives the SSRCs
    exactly and a bit rate that is never larger, short by at most one part in 2^17, and
    exact below 2^18. *)
Theorem remb_rounding (p : Remb.t) max_length callback st :
  Remb.wf p -> 0 <= Remb.bitrate_bps_ p -> 0 <= windex st ->
  windex st + Remb.BlockLength p <= max_length -> max_length <= zlen (wbuf st) ->
  max_length < 2 ^ 64 ->
  exists b,
    roundtrips (Remb.Create p max_length callback) (Remb.Parse Remb.new) (Remb.BlockLength p)
      (Remb.SetBitrateBps p b) st /\
    0 <= b <= Remb.bitrate_bps_ p /\ (Remb.bitrate_bps_ p - b) * 2 ^ 17 <= Remb.bitrate_bps_ p /\
    (Remb.bitrate_bps_ p < 2 ^ 18 -> b = Remb.bitrate_bps_ p).
Proof.
  intros Hw Hb0 Hi Hm Hb H64.
  pose proof (codec_roundtrip p max_length callback st Hw Hi Hm Hb H64) as R.
  destruct Hw as [(_ & Hr & _) _].
  assert (Eu : u64 (Remb.bitrate_bps_ p) = Remb.bitrate_bps_ p) by (apply u64_id; unfold is_u64; lia).
  destruct (rounded_bound 18 (Remb.bitrate_bps_ p)) as (H1 & H2 & H3); [lia|done|].
  assert (H0 : is_u64 (rounded 18 (Remb.bitrate_bps_ p))) by (apply rounded_u64; [lia|unfold is_u64; lia]).
  exists (rounded 18 (Remb.bitrate_bps_ p)). split; [|split; [unfold is_u64 in H0; lia|by split]].
  replace (Remb.SetBitrateBps p (rounded 18 (Remb.bitrate_bps_ p))) with (codec_image p); [exact R|].
  cbn [codec_image Remb_laws standard_laws]. unfold Remb.image, Remb.SetBitrateBps. rewrite Eu. f_equal.
  unfold s64, sw. unfold is_u64 in H0. rewrite Z.mod_small by lia.
  by destruct (Z.ltb_spec (rounded 18 (Remb.bitrate_bps_ p)) (2 ^ (64 - 1))); [|lia].
Qed.

Lemma remb_rounding_witness :
  exists b,
    roundtrips (Remb.Create (Remb.Mk (CommonFeedback.Mk 1 0) 5000001 [2]) 40 false)
      (Remb.Parse Remb.new) 24 (Remb.Mk (CommonFeedback.Mk 1 0) b [2]) (WState (replicate 40 0) 4 []) /\
    0 <= b <= 5000001.
Proof.
  destruct (remb_rounding (Remb.Mk (CommonFeedback.Mk 1 0) 5000001 [2]) 40 false
    (WState (replicate 40 0) 4 [])) as (b & R & Hb & _); [decide_wf..|].
  exists b. split; [exact R|exact Hb].
Defined.

(** Parse accepts an exponent that shifts the mantissa into the sign bit of
    bitrate_bps_: the overflow test only compares 64-bit values. *)
Lemma remb_negative_bitrate :
  Remb.Parse Remb.new
    (CommonHeader.Mk 206 15 0 16
       (be_bytes 4 1 ++ be_bytes 4 0 ++ be_bytes 4 Remb.kUniqueIdentifier ++ [0; 186; 0; 0])) =
  Some (Remb.Mk (CommonFeedback.Mk 1 0) (- 2 ^ 63) [], true).
Proof. vm_compute. reflexivity. Qed.

(** What the wire keeps of a TMMBR or TMMBN item. *)
Definition tmmb_close (i j : TmmbItem.t) : Prop :=
  TmmbItem.ssrc_ j = TmmbItem.ssrc_ i /\ TmmbItem.packet_overhead_ j = TmmbItem.packet_overhead_ i /\
  TmmbItem.bitrate_bps_ j <= TmmbItem.bitrate_bps_ i /\
  (TmmbItem.bitrate_bps_ i - TmmbItem.bitrate_bps_ j) * 2 ^ 16 <= TmmbItem.bitrate_bps_ i /\
  (TmmbItem.bitrate_bps_ i < 2 ^ 17 -> TmmbItem.bitrate_bps_ j = TmmbItem.bitrate_bps_ i).

Lemma tmmb_image_close i : TmmbItem.wf i -> tmmb_close i (TmmbItem.image i).
Proof.
  intros (_ & Hb & _). destruct (rounded_bound 17 (TmmbItem.bitrate_bps_ i)) as (H1 & H2 & H3);
    [lia|unfold is_u64 in Hb; lia|]. by splits.
Qed.

(** TMMBR and TMMBN keep 17 significant bits.  Every 64-bit bit rate can be sent:
    parsing what Create wrote gives the same items in order, SSRC and overhead exact,
    the bit rate never larger, short by at most one part in 2^16, exact below 2^17. *)
Theorem tmmb_rounding (r : Tmmbr.t) (n : Tmmbn.t) max_length callback st :
  0 <= windex st -> max_length <= zlen (wbuf st) -> max_length < 2 ^ 64 ->
  Tmmbr.wf r -> Tmmbn.wf n ->
  windex st + Tmmbr.BlockLength r <= max_length -> windex st + Tmmbn.BlockLength n <= max_length ->
  (exists items, Forall2 tmmb_close (Tmmbr.items_ r) items /\
     roundtrips (Tmmbr.Create r max_length callback) (Tmmbr.Parse Tmmbr.new) (Tmmbr.BlockLength r)
       (Tmmbr.Mk (Tmmbr.common r) items) st) /\
  (exists items, Forall2 tmmb_close (Tmmbn.items_ n) items /\
     roundtrips (Tmmbn.Create n max_length callback) (Tmmbn.Parse Tmmbn.new) (Tmmbn.BlockLength n)
       (Tmmbn.Mk (Tmmbn.common n) items) st).
Proof.
  intros Hi Hb H64 Hr Hn Hmr Hmn.
  assert (Hall : forall l, Forall TmmbItem.wf l -> Forall2 tmmb_close l (map TmmbItem.image l)).
  { induction 1; constructor; [by apply tmmb_image_close|done]. }
  split; eexists; (split; [apply Hall|]).
  - apply Hr.
  - exact (codec_roundtrip r max_length callback st Hr Hi Hmr Hb H64).
  - apply Hn.
  - exact (codec_roundtrip n max_length callback st Hn Hi Hmn Hb H64).
Qed.

Lemma tmmb_rounding_witness :
  exists items,
    roundtrips (Tmmbr.Create (Tmmbr.Mk (CommonFeedback.Mk 1 0) [TmmbItem.Mk 2 1000001 40]) 40 false)
      (Tmmbr.Parse Tmmbr.new) 20 (Tmmbr.Mk (CommonFeedback.Mk 1 0) items) (WState (replicate 40 0) 4 []).
Proof.
  destruct (tmmb_rounding (Tmmbr.Mk (CommonFeedback.Mk 1 0) [TmmbItem.Mk 2 1000001 40])
    (Tmmbn.Mk (CommonFeedback.Mk 1 0) []) 40 false (WState (replicate 40 0) 4 [])) as [(items & _ & R) _];
    [decide_wf..|].
  exists items. exact R.
Defined.
