(* ===== verification/RtcpNack.v ===== *)
(** * Generic NACK: rtcp_packet/nack.{h,cc}

    The packed form of a list of lost sequence numbers, the loss of order it
    allows, and the Create that splits a long list over several packets.
    [rtc::CheckedDivExact] belongs to rtc_base, outside the repository: it is a
    parameter of RtcpCore.v. *)

From Stdlib Require Import Sorting.Sorted.
From S2P Require Import Prelude ByteIo Buffers RtcpCore.

Module Nack.

Record PackedNack := MkPacked { first_pid : Z; bitmask : Z }.

Record t := Mk {
  common : CommonFeedback.t;
  packed_ : list PackedNack;
  packet_ids_ : list Z
}.

Definition kFeedbackMessageType : Z := 1.
Definition kNackItemLength : Z := 4.
Definition kNackHeaderLength : Z := kHeaderLength + CommonFeedback.kCommonFeedbackLength.

Definition new : t := Mk CommonFeedback.new [] [].

(** The inner loop of Pack: the bits collected for [first], and the rest. *)
Fixpoint pack_bits (first mask : Z) (it : list Z) : Z * list Z :=
  match it with
  | [] => (mask, [])
  | id :: it' =>
      let shift := u16 (id - first - 1) in
      if shift <=? 15 then pack_bits first (u16 (Z.lor mask (Z.shiftl 1 shift))) it'
      else (mask, it)
  end.

(** The outer loop of Pack. *)
Fixpoint pack_loop (fuel : nat) (it : list Z) : option (list PackedNack) :=
  match it, fuel with
  | [], _ => Some []
  | _, O => None
  | first :: it', S fuel' =>
      let '(mask, rest) := pack_bits first 0 it' in
      items ← pack_loop fuel' rest;
      Some (MkPacked first mask :: items)
  end.

Definition Pack (this : t) : option t :=
  check (negb (zlen (packet_ids_ this) =? 0)) ;;
  check (zlen (packed_ this) =? 0) ;;
  packed ← pack_loop (length (packet_ids_ this)) (packet_ids_ this);
  Some (Mk (common this) (packed_ this ++ packed) (packet_ids_ this)).

(** The inner loop of Unpack; a 16-bit mask is empty after 16 shifts. *)
Fixpoint unpack_bits (fuel : nat) (pid mask : Z) : option (list Z) :=
  if mask =? 0 then Some [] else
  match fuel with
  | O => None
  | S fuel' =>
      rest ← unpack_bits fuel' (u16 (pid + 1)) (Z.shiftr mask 1);
      Some (if negb (Z.land mask 1 =? 0) then pid :: rest else rest)
  end.

Fixpoint unpack_items (items : list PackedNack) : option (list Z) :=
  match items with
  | [] => Some []
  | item :: items' =>
      ids ← unpack_bits 16 (u16 (first_pid item + 1)) (bitmask item);
      rest ← unpack_items items';
      Some (first_pid item :: ids ++ rest)
  end.

Definition Unpack (this : t) : option t :=
  check (zlen (packet_ids_ this) =? 0) ;;
  check (negb (zlen (packed_ this) =? 0)) ;;
  ids ← unpack_items (packed_ this);
  Some (Mk (common this) (packed_ this) (packet_ids_ this ++ ids)).

(** SetPacketIds(std::vector<uint16_t>). *)
Definition SetPacketIds (this : t) (nack_list : list Z) : option t :=
  check (zlen (packet_ids_ this) =? 0) ;;
  check (zlen (packed_ this) =? 0) ;;
  Pack (Mk (common this) (packed_ this) nack_list).

Definition read_packed (old : PackedNack) (p : bytes) (off : Z) : option PackedNack :=
  first_pid ← read_u16 p off;
  bitmask ← read_u16 p (off + 2);
  Some (MkPacked first_pid bitmask).

Definition Parse (this : t) (packet : CommonHeader.t) : option (t * bool) :=
  check (CommonHeader.type packet =? Rtpfb.kPacketType) ;;
  check (CommonHeader.fmt packet =? kFeedbackMessageType) ;;
  if CommonHeader.payload_size_bytes packet <?
     CommonFeedback.kCommonFeedbackLength + kNackItemLength
  then Some (this, false) else
  let nack_items :=
    (CommonHeader.payload_size_bytes packet - CommonFeedback.kCommonFeedbackLength) /
    kNackItemLength in
  fb ← Rtpfb.ParseCommonFeedback (CommonHeader.payload packet);
  packed ← read_items read_packed kNackItemLength
             (vec_resize (Z.to_nat nack_items) (MkPacked 0 0) (packed_ this))
             (CommonHeader.payload packet) CommonFeedback.kCommonFeedbackLength;
  this ← Unpack (Mk fb packed []);
  Some (this, true).

Definition BlockLength (this : t) : Z :=
  kHeaderLength + CommonFeedback.kCommonFeedbackLength +
  zlen (packed_ this) * kNackItemLength.

Definition create_item (item : PackedNack) : W unit :=
  write_u16 0 (first_pid item) ;;
  write_u16 2 (bitmask item) ;;
  add_index kNackItemLength.

Section create.
Context `{RtcNumerics}.

(** The loop of Create; [rest] is packed_ from nack_index on. *)
Fixpoint create_loop (fuel : nat) (fb : CommonFeedback.t) (rest : list PackedNack)
    (max_length : Z) (callback : bool) : W bool :=
  match rest, fuel with
  | [], _ => mret true
  | _, O => fun _ => None
  | _, S fuel' =>
      index ← get_index;
      let bytes_left_in_buffer := u64 (max_length - index) in
      if bytes_left_in_buffer <? kNackHeaderLength + kNackItemLength then
        full ← RtcpPacket.OnBufferFull callback;
        if negb full then mret false
        else create_loop fuel' fb rest max_length callback
      else
        let num_nack_fields :=
          Z.min ((bytes_left_in_buffer - kNackHeaderLength) / kNackItemLength) (zlen rest) in
        let payload_size_bytes :=
          CommonFeedback.kCommonFeedbackLength + num_nack_fields * kNackItemLength in
        (payload_size_32bits ← wlift (CheckedDivExact payload_size_bytes 4);
         RtcpPacket.CreateHeader kFeedbackMessageType Rtpfb.kPacketType payload_size_32bits ;;
         Rtpfb.CreateCommonFeedback fb ;;
         add_index CommonFeedback.kCommonFeedbackLength ;;
         for_each create_item (take (Z.to_nat num_nack_fields) rest)) ;;
        index ← get_index;
        wcheck (index <=? max_length) ;;
        create_loop fuel' fb (drop (Z.to_nat num_nack_fields) rest) max_length callback
  end.

(** Every second iteration writes at least one item. *)
Definition create_fuel (items : list PackedNack) : nat := 2 * length items + 2.

Definition Create (this : t) (max_length : Z) (callback : bool) : W bool :=
  wcheck (negb (zlen (packed_ this) =? 0)) ;;
  create_loop (create_fuel (packed_ this)) (common this) (packed_ this) max_length callback.

End create.

(** ** Specification *)

(** The ids an item stands for, in order. *)
Definition item_ids (item : PackedNack) : list Z :=
  first_pid item ::
  map (fun i => u16 (first_pid item + 1 + i))
      (filter (fun i => Z.testbit (bitmask item) i = true) (seqZ 0 16)).

Definition item_ok (item : PackedNack) : Prop := is_u16 (first_pid item) /\ is_u16 (bitmask item).

Definition encode_item (item : PackedNack) : bytes :=
  be_bytes 2 (first_pid item) ++ be_bytes 2 (bitmask item).

Definition items_body (fb : CommonFeedback.t) (items : list PackedNack) : bytes :=
  CommonFeedback.encode fb ++ concat (map encode_item items).

(** One packet with the given items. *)
Definition encode_items (fb : CommonFeedback.t) (items : list PackedNack) : bytes :=
  RtcpPacket.header_bytes kFeedbackMessageType Rtpfb.kPacketType
    (zlen (items_body fb items) / 4) false ++ items_body fb items.

Definition inv (this : t) : Prop :=
  CommonFeedback.wf (common this) /\ 1 <= zlen (packed_ this) <= 65533 /\
  Forall item_ok (packed_ this).

Definition image (this : t) : t :=
  Mk (common this) (packed_ this) (concat (map item_ids (packed_ this))).

(** Each id follows the previous one by at most half the number space, which is
    how the callers sort their lists. *)
Fixpoint ascending (ids : list Z) : Prop :=
  match ids with
  | a :: (b :: _) as tl => 0 < u16 (b - a) <= 32768 /\ ascending tl
  | _ => True
  end.

End Nack.

(** ** Packing and unpacking *)

Definition shift_of (first id : Z) : Z := u16 (id - first - 1).

Lemma map_filter_shift (f g : Z -> Z) (P Q : Z -> Prop)
    `{forall i, Decision (P i)} `{forall i, Decision (Q i)} l :
  (forall i, i ∈ l -> (Q i <-> P (i + 1)) /\ g i = f (i + 1)) ->
  map g (filter Q l) = map f (filter P (map (Z.add 1) l)).
Proof.
  induction l as [|i l IH]; intros Hl; [done|]. cbn [map].
  destruct (Hl i) as [HQ Hg]; [by constructor|].
  rewrite !filter_cons, (Z.add_comm 1 i).
  assert (Hl' : forall j, j ∈ l -> (Q j <-> P (j + 1)) /\ g j = f (j + 1))
    by (intros; apply Hl; by constructor).
  destruct (decide (Q i)), (decide (P (i + 1))); try tauto; cbn [map]; by rewrite IH, ?Hg.
Qed.

Lemma seqZ_S n : seqZ 0 (Z.of_nat (S n)) = 0 :: map (Z.add 1) (seqZ 0 (Z.of_nat n)).
Proof.
  rewrite seqZ_cons by lia. f_equal.
  replace (Z.pred (Z.of_nat (S n))) with (Z.of_nat n) by lia.
  symmetry. apply (fmap_add_seqZ 1 0).
Qed.

Lemma filter_zero l : filter (fun i => Z.testbit 0 i = true) l = [].
Proof. induction l as [|i l IH]; [done|]. rewrite filter_cons, decide_False; [done|]. by rewrite Z.bits_0. Qed.

Lemma unpack_bits_spec n pid mask : is_u16 pid -> 0 <= mask < 2 ^ Z.of_nat n ->
  Nack.unpack_bits n pid mask =
  Some (map (fun i => u16 (pid + i))
          (filter (fun i => Z.testbit mask i = true) (seqZ 0 (Z.of_nat n)))).
Proof.
  revert pid mask. induction n as [|n IH]; intros pid mask Hp Hm.
  - assert (mask = 0) as -> by (cbn in Hm; lia). done.
  - cbn [Nack.unpack_bits]. destruct (Z.eqb_spec mask 0) as [->|Hz]; [by rewrite filter_zero|].
    rewrite IH; [|apply u16_range|].
    2: { rewrite Z.shiftr_div_pow2 by done. change (2 ^ 1) with 2.
         rewrite Nat2Z.inj_succ, Z.pow_succ_r in Hm by lia. dlia. }
    cbn [mbind option_bind]. f_equal. rewrite seqZ_S, filter_cons.
    rewrite (map_filter_shift (fun i => u16 (pid + i)) (fun i => u16 (u16 (pid + 1) + i))
      (fun i => Z.testbit mask i = true) (fun i => Z.testbit (Z.shiftr mask 1) i = true)).
    + assert (Hbit : negb (Z.land mask 1 =? 0) = Z.testbit mask 0).
      { rewrite (land_mask 1 1), Zmod_odd by done. rewrite Z.bit0_odd. by destruct (Z.odd mask). }
      rewrite Hbit. destruct (Z.testbit mask 0) eqn:E.
      * rewrite decide_True by done. cbn [map]. f_equal. rewrite Z.add_0_r. symmetry. by apply u16_id.
      * by rewrite decide_False by done.
    + intros i Hi. apply elem_of_seqZ in Hi. split; [|wordlia].
      by rewrite Z.shiftr_spec by lia.
Qed.

Lemma unpack_items_spec items : Forall Nack.item_ok items ->
  Nack.unpack_items items = Some (concat (map Nack.item_ids items)).
Proof.
  induction 1 as [|item items [Hp Hb] _ IH]; [done|]. cbn [Nack.unpack_items map concat].
  rewrite (unpack_bits_spec 16), IH by (try apply u16_range; exact Hb).
  cbn [mbind option_bind]. unfold Nack.item_ids. cbn [app]. do 3 f_equal.
  apply map_ext. intros i. wordlia.
Qed.

(** What the inner loop of Pack consumes and collects. *)
Lemma pack_bits_spec first it mask mask' rest :
  is_u16 mask -> Nack.pack_bits first mask it = (mask', rest) ->
  exists g, it = g ++ rest /\ is_u16 mask' /\
    Forall (fun id => shift_of first id <= 15) g /\
    (forall i, 0 <= i < 16 ->
      Z.testbit mask' i = true <-> Z.testbit mask i = true \/ i ∈ map (shift_of first) g).
Proof.
  revert mask. induction it as [|id it IH]; intros mask Hm; cbn [Nack.pack_bits].
  - intros [= -> <-]. exists []. split; [done|]. split; [done|]. split; [constructor|].
    intros i _. cbn. rewrite elem_of_nil. tauto.
  - fold (shift_of first id). destruct (Z.leb_spec (shift_of first id) 15) as [Hs|Hs].
    + pose proof (u16_range (id - first - 1)) as Hr. fold (shift_of first id) in Hr.
      assert (Hu : u16 (Z.lor mask (Z.shiftl 1 (shift_of first id))) =
                   Z.lor mask (Z.shiftl 1 (shift_of first id))).
      { apply u16_id. unfold is_u16 in *. rewrite Z.shiftl_1_l. split; [apply Z.lor_nonneg; split; [lia|by apply Z.pow_nonneg]|].
        apply (lor_lt_pow2 16); [lia|lia|]. split; [by apply Z.pow_nonneg|].
        apply Z.pow_lt_mono_r; lia. }
      rewrite Hu. intros E.
      destruct (IH (Z.lor mask (Z.shiftl 1 (shift_of first id)))) as (g & -> & Hm' & Hg & Hb);
        [rewrite <- Hu; apply u16_range|done|].
      exists (id :: g). split; [done|]. split; [done|]. split; [by constructor|].
      intros i Hi. rewrite Hb by done. rewrite Z.lor_spec, Z.shiftl_1_l, Z.pow2_bits_eqb by apply Hr.
      cbn [map]. rewrite elem_of_cons, orb_true_iff, Z.eqb_eq.
      split; intros H; intuition congruence.
    + intros [= -> <-]. exists []. split; [done|]. split; [done|]. split; [constructor|].
      intros i _. cbn. rewrite elem_of_nil. tauto.
Qed.

Lemma shift_of_inv first id i : is_u16 id -> shift_of first id = i <-> 
  (0 <= i < 65536 /\ id = u16 (first + 1 + i)).
Proof. intros Hid. unfold shift_of. split; intros H; wordlia. Qed.

Lemma item_ids_elem first g mask :
  is_u16 first -> Forall is_u16 g ->
  Forall (fun id => shift_of first id <= 15) g ->
  (forall i, 0 <= i < 16 -> Z.testbit mask i = true <-> i ∈ map (shift_of first) g) ->
  forall x, x ∈ Nack.item_ids (Nack.MkPacked first mask) <-> x ∈ first :: g.
Proof.
  intros Hf Hg Hs Hm x. unfold Nack.item_ids. rewrite !elem_of_cons.
  cbn [Nack.first_pid Nack.bitmask].
  assert (Hx : x ∈ map (fun i => u16 (first + 1 + i))
      (filter (fun i => Z.testbit mask i = true) (seqZ 0 16)) <-> x ∈ g); [|by rewrite Hx].
  rewrite list_elem_of_fmap. split.
  - intros (i & -> & Hi). apply list_elem_of_filter in Hi as [Hb Hi]. apply elem_of_seqZ in Hi.
    apply Hm in Hb; [|lia]. apply list_elem_of_fmap in Hb as (id & Hid & Hin).
    rewrite list.Forall_forall in Hg. specialize (Hg id Hin). symmetry in Hid.
    apply (shift_of_inv first id i Hg) in Hid as [_ <-]. done.
  - intros Hin. rewrite list.Forall_forall in Hg, Hs. specialize (Hg x Hin). specialize (Hs x Hin).
    pose proof (u16_range (x - first - 1)) as Hr. fold (shift_of first x) in Hr.
    exists (shift_of first x). split.
    + by apply (shift_of_inv first x).
    + apply list_elem_of_filter. split; [|apply elem_of_seqZ; unfold is_u16 in *; lia].
      apply Hm; [unfold is_u16 in *; lia|]. apply list_elem_of_fmap. by exists x.
Qed.

(** Packing terminates and loses no id, whatever the order of the list. *)
Lemma pack_loop_spec fuel it :
  (length it <= fuel)%nat -> Forall is_u16 it ->
  exists items, Nack.pack_loop fuel it = Some items /\ Forall Nack.item_ok items /\
    (it <> [] -> items <> []) /\ (length items <= length it)%nat /\
    forall x, x ∈ concat (map Nack.item_ids items) <-> x ∈ it.
Proof.
  revert it. induction fuel as [|fuel IH]; intros [|first it] Hl Hu; cbn in Hl; try lia.
  - exists []. by splits.
  - exists []. by splits.
  - apply Forall_cons_iff in Hu as [Hf Hu]. cbn [Nack.pack_loop].
    destruct (Nack.pack_bits first 0 it) as [mask rest] eqn:E.
    apply pack_bits_spec in E as (g & -> & Hm & Hg & Hb); [|done].
    apply Forall_app in Hu as [Hug Hur]. rewrite length_app in Hl.
    destruct (IH rest) as (items & -> & Hok & _ & Hlen & Hx); [lia|done|].
    cbn [mbind option_bind]. eexists. split; [done|]. split; [by constructor|].
    split; [done|]. cbn [length map concat]. rewrite length_app. split; [lia|]. intros x.
    rewrite elem_of_app, (item_ids_elem first g mask), Hx, elem_of_cons, elem_of_cons, elem_of_app;
      [tauto|done|done|done|].
    intros i Hi. rewrite Hb by done. rewrite Z.bits_0. intuition congruence.
Qed.

(** In an ascending list the shifts of one group ascend. *)
Lemma ascending_tail a l : Nack.ascending (a :: l) -> Nack.ascending l.
Proof. destruct l as [|b l]; [done|]. by intros [_ H]. Qed.

Lemma ascending_shifts first a s g rest :
  a = u16 (first + 1 + s) -> -1 <= s <= 15 -> Forall is_u16 g ->
  Forall (fun id => shift_of first id <= 15) g ->
  Nack.ascending (a :: g ++ rest) ->
  Sorted.StronglySorted Z.lt (map (shift_of first) g) /\
  Forall (Z.lt s) (map (shift_of first) g) /\ Nack.ascending rest.
Proof.
  revert a s. induction g as [|b g IH]; intros a s Ha Hs Hu Hg H.
  - split; [constructor|]. split; [constructor|]. by apply ascending_tail in H.
  - apply Forall_cons_iff in Hu as [Hub Hu]. apply Forall_cons_iff in Hg as [Hgb Hg].
    destruct H as [Hd H].
    assert (Hb : shift_of first b = s + u16 (b - a)) by (unfold shift_of; wordlia).
    destruct (IH b (shift_of first b)) as (Hsort & Hlt & Hasc); try done.
    + unfold shift_of. wordlia.
    + unfold shift_of in *. wordlia.
    + cbn [map]. split; [by constructor|]. split; [|done]. constructor; [lia|].
      eapply List.Forall_impl; [|exact Hlt]. cbn. lia.
Qed.

(** A sorted list is recovered from its characteristic function. *)
Lemma filter_sorted (P : Z -> Prop) `{forall i, Decision (P i)} n k s :
  Sorted.StronglySorted Z.lt s ->
  (forall i, k <= i < k + Z.of_nat n -> P i <-> i ∈ s) ->
  Forall (fun i => k <= i < k + Z.of_nat n) s ->
  filter P (seqZ k (Z.of_nat n)) = s.
Proof.
  revert k s. induction n as [|n IH]; intros k s Hs HP Hr.
  - destruct s as [|x s]; [done|]. apply Forall_cons_iff in Hr as [Hr _]. lia.
  - rewrite seqZ_cons by lia. replace (Z.pred (Z.of_nat (S n))) with (Z.of_nat n) by lia.
    rewrite filter_cons. unfold Z.succ.
    assert (Hk : P k <-> k ∈ s) by (apply HP; lia).
    destruct s as [|x s].
    + rewrite decide_False by (rewrite Hk; apply not_elem_of_nil).
      apply IH; [constructor| |constructor]. intros i Hi. apply HP. lia.
    + apply Sorted.StronglySorted_inv in Hs as [Hs Hx]. apply Forall_cons_iff in Hr as [Hrx Hr].
      assert (Hlt : Forall (Z.lt x) s) by done. rewrite list.Forall_forall in Hlt.
      destruct (Z.eq_dec x k) as [->|Hne].
      * rewrite decide_True by (apply Hk; constructor). f_equal. apply IH; [done| |].
        -- intros i Hi. rewrite HP, elem_of_cons by lia. split; [|tauto].
           intros [->|]; [lia|done].
        -- rewrite list.Forall_forall in Hr |- *. intros i Hi. specialize (Hr i Hi).
           specialize (Hlt i Hi). lia.
      * rewrite decide_False.
        2: { rewrite Hk, elem_of_cons. intros [->|Hin]; [done|]. specialize (Hlt k Hin). lia. }
        apply IH; [by constructor| |].
        -- intros i Hi. apply HP. lia.
        -- constructor; [lia|]. rewrite list.Forall_forall in Hr |- *. intros i Hi.
           specialize (Hr i Hi). specialize (Hlt i Hi). lia.
Qed.

Lemma item_ids_sorted first g rest mask :
  is_u16 first -> Forall is_u16 g ->
  Forall (fun id => shift_of first id <= 15) g ->
  (forall i, 0 <= i < 16 -> Z.testbit mask i = true <-> i ∈ map (shift_of first) g) ->
  Nack.ascending (first :: g ++ rest) ->
  Nack.item_ids (Nack.MkPacked first mask) = first :: g /\ Nack.ascending rest.
Proof.
  intros Hf Hg Hs Hm Ha.
  destruct (ascending_shifts first first (-1) g rest) as (Hsort & Hlt & Hasc);
    [replace (first + 1 + -1) with first by lia; symmetry; by apply u16_id|lia|done|done|done|].
  split; [|done]. unfold Nack.item_ids. cbn [Nack.first_pid Nack.bitmask]. f_equal.
  rewrite (filter_sorted _ 16 0 (map (shift_of first) g)); [|done|by intros; apply Hm|].
  - rewrite map_map. rewrite <- (map_id g) at 2. apply map_ext_in. intros id Hid.
    rewrite List.Forall_forall in Hg. symmetry.
    by apply (shift_of_inv first id (shift_of first id) (Hg id Hid)).
  - apply Forall_map. rewrite list.Forall_forall in Hs |- *. intros id Hid. cbn.
    specialize (Hs id Hid). cbn in Hs.
    pose proof (u16_range (id - first - 1)) as Hr. unfold shift_of, is_u16 in *. lia.
Qed.

(** An ascending list comes back as it was. *)
Lemma pack_loop_ascending fuel it :
  (length it <= fuel)%nat -> Forall is_u16 it -> Nack.ascending it ->
  exists items, Nack.pack_loop fuel it = Some items /\
    concat (map Nack.item_ids items) = it.
Proof.
  revert it. induction fuel as [|fuel IH]; intros [|first it] Hl Hu Ha; cbn in Hl; try lia.
  - by exists [].
  - by exists [].
  - apply Forall_cons_iff in Hu as [Hf Hu]. cbn [Nack.pack_loop].
    destruct (Nack.pack_bits first 0 it) as [mask rest] eqn:E.
    apply pack_bits_spec in E as (g & -> & Hm & Hg & Hb); [|done].
    apply Forall_app in Hu as [Hug Hur]. rewrite length_app in Hl.
    destruct (item_ids_sorted first g rest mask) as [Hids Hasc]; try done.
    { intros i Hi. rewrite Hb by done. rewrite Z.bits_0. intuition congruence. }
    destruct (IH rest) as (items & -> & Hx); [lia|done|done|].
    cbn [mbind option_bind]. eexists. split; [done|]. cbn [map concat]. by rewrite Hids, Hx.
Qed.

(** ** One packet of items *)

Lemma length_items_body fb items : zlen (Nack.items_body fb items) = 8 + 4 * zlen items.
Proof.
  unfold Nack.items_body. rewrite length_app, length_feedback, Nat2Z.inj_add.
  by rewrite (concat_length Nack.encode_item 4).
Qed.

Lemma length_encode_items fb items : zlen (Nack.encode_items fb items) = 12 + 4 * zlen items.
Proof.
  unfold Nack.encode_items. rewrite length_app, length_header_bytes.
  pose proof (length_items_body fb items). lia.
Qed.

Lemma runs_nack_item i : runs 0 (Nack.create_item i) tt (Nack.encode_item i).
Proof.
  unfold Nack.create_item, Nack.encode_item. runs_step.
  eapply runs_eq; [eapply runs_write_be; [reflexivity|]|apply app_nil_r]. runs_step.
Qed.

Section create.
Context `{RtcNumericsLaws}.

Lemma runs_nack_packet fb items : 1 <= zlen items <= 65533 ->
  runs 0
    (payload_size_32bits ← wlift
       (CheckedDivExact (CommonFeedback.kCommonFeedbackLength + zlen items * Nack.kNackItemLength) 4);
     RtcpPacket.CreateHeader Nack.kFeedbackMessageType Rtpfb.kPacketType payload_size_32bits ;;
     Rtpfb.CreateCommonFeedback fb ;;
     add_index CommonFeedback.kCommonFeedbackLength ;;
     for_each Nack.create_item items) tt
    (Nack.encode_items fb items).
Proof.
  intros Hn. unfold Nack.encode_items. pose proof (length_items_body fb items) as Hl.
  unfold CommonFeedback.kCommonFeedbackLength, Nack.kNackItemLength.
  apply (runs_wlift _ (zlen (Nack.items_body fb items) / 4)).
  { rewrite CheckedDivExact_exact by dlia. f_equal. f_equal. lia. }
  apply runs_then; [apply runs_CreateHeader; [dlia|done|done]|].
  apply runs_rtpfb, runs_for_each. intros. apply runs_nack_item.
Qed.

(** ** Create *)

(** The packet being assembled follows the packets already delivered. *)
Definition pending (st : wstate) : list bytes :=
  wsent st ++ [take (Z.to_nat (windex st)) (wbuf st)].

Lemma u64_sub a b : 0 <= b <= a -> a < 2 ^ 64 -> u64 (a - b) = a - b.
Proof. intros. apply u64_id. unfold is_u64. lia. Qed.

(** A step that writes the next [n] items. *)
Lemma create_loop_emit fuel fb rest max_length callback st n b :
  rest <> [] -> 0 <= windex st -> windex st + 16 <= max_length < 2 ^ 64 ->
  max_length <= zlen (wbuf st) -> zlen rest <= 65533 ->
  n = Z.min ((max_length - windex st - 12) / 4) (zlen rest) ->
  put (wbuf st) (windex st) (Nack.encode_items fb (take (Z.to_nat n) rest)) = Some b ->
  Nack.create_loop (S fuel) fb rest max_length callback st =
  Nack.create_loop fuel fb (drop (Z.to_nat n) rest) max_length callback
    (WState b (windex st + 12 + 4 * n) (wsent st)).
Proof.
  intros Hr Hi Hm Hbuf Hlen -> Hput. destruct rest as [|r rest]; [done|].
  cbn [Nack.create_loop]. set (l := r :: rest) in *.
  set (n := Z.min _ _) in *.
  assert (Hn : 1 <= n <= zlen l) by (unfold n, l in *; cbn [length] in *; dlia).
  assert (Htake : zlen (take (Z.to_nat n) l) = n) by (rewrite length_take; lia).
  rewrite bind_run. unfold get_index at 1. rewrite u64_sub by lia.
  unfold Nack.kNackHeaderLength, kHeaderLength, CommonFeedback.kCommonFeedbackLength, Nack.kNackItemLength.
  change (4 + 8) with 12. ltb_false. fold n. rewrite bind_run.
  pose proof (runs_nack_packet fb (take (Z.to_nat n) l)) as Hrun.
  rewrite Htake in Hrun. specialize (Hrun ltac:(lia) st ltac:(lia) ltac:(lia) ltac:(lia)).
  rewrite !Z.add_0_r in Hrun. rewrite Hput in Hrun.
  unfold CommonFeedback.kCommonFeedbackLength, Nack.kNackItemLength in Hrun. rewrite Hrun.
  rewrite !bind_run. unfold get_index, wcheck. cbn [windex]. rewrite length_encode_items, Htake.
  rewrite (proj2 (Z.leb_le _ _)) by (unfold n; dlia).
  f_equal. f_equal. lia.
Qed.

(** A step that hands the buffer to the callback. *)
Lemma create_loop_flush fuel fb rest max_length st :
  rest <> [] -> 0 < windex st <= max_length -> max_length < 2 ^ 64 ->
  max_length < windex st + 16 -> max_length <= zlen (wbuf st) ->
  Nack.create_loop (S fuel) fb rest max_length true st =
  Nack.create_loop fuel fb rest max_length true (flush st).
Proof.
  intros Hr Hi Hm Hfull Hbuf. destruct rest as [|r rest]; [done|]. cbn [Nack.create_loop].
  rewrite bind_run. unfold get_index at 1. rewrite u64_sub by lia.
  unfold Nack.kNackHeaderLength, kHeaderLength, CommonFeedback.kCommonFeedbackLength, Nack.kNackItemLength.
  destruct (Z.ltb_spec (max_length - windex st) (4 + 8 + 4)); [|lia].
  rewrite bind_run. unfold RtcpPacket.OnBufferFull.
  destruct (Z.eqb_spec (windex st) 0); [lia|].
  destruct (Z.leb_spec 0 (windex st)); [|lia].
  by destruct (Z.leb_spec (windex st) (zlen (wbuf st))); [|lia].
Qed.

Lemma put_from_0 buf bs : zlen bs <= zlen buf ->
  exists b, put buf 0 bs = Some b /\ length b = length buf /\ take (length bs) b = bs.
Proof.
  intros Hl. destruct (put_split buf 0 bs) as (b & Hb & Hlen & _ & Hd); [done|lia|].
  exists b. split; [done|]. split; [done|].
  change (drop (Z.to_nat 0) b) with b in Hd. rewrite Hd. apply take_app_length.
Qed.

(** From an empty buffer the loop delivers consecutive full packets. *)
Lemma create_loop_fragments fb max_length fuel rest st :
  (2 * length rest <= fuel)%nat -> rest <> [] -> windex st = 0 ->
  16 <= max_length < 2 ^ 64 -> max_length <= zlen (wbuf st) -> zlen rest <= 65533 ->
  exists st' chunks,
    Nack.create_loop fuel fb rest max_length true st = Some (true, st') /\
    concat chunks = rest /\
    Forall (fun c => c <> [] /\ 12 + 4 * zlen c <= max_length) chunks /\
    pending st' = wsent st ++ map (Nack.encode_items fb) chunks /\
    0 < windex st' <= max_length /\ length (wbuf st') = length (wbuf st).
Proof.
  revert rest st. induction (lt_wf fuel) as [fuel _ IH]. intros rest st Hf Hr H0 Hm Hbuf Hl.
  set (n := Z.min ((max_length - 12) / 4) (zlen rest)).
  assert (1 <= zlen rest) by (destruct rest; [done|cbn [length]; lia]).
  assert (Hn : 1 <= n <= zlen rest) by (unfold n; dlia).
  assert (Htake : zlen (take (Z.to_nat n) rest) = n) by (rewrite length_take; lia).
  set (c := take (Z.to_nat n) rest) in *.
  assert (Hc : c <> []) by (destruct c; [cbn in Htake; lia|done]).
  assert (Hfit : 12 + 4 * n <= max_length) by (unfold n; dlia).
  destruct (put_from_0 (wbuf st) (Nack.encode_items fb c)) as (b & Hb & Hlb & Htb);
    [rewrite length_encode_items; lia|].
  destruct fuel as [|fuel]; [lia|].
  rewrite (create_loop_emit fuel fb rest max_length true st n b);
    [|done|lia|lia|done|done|unfold n; rewrite H0; do 2 f_equal; lia|by rewrite H0].
  rewrite H0, Z.add_0_l.
  assert (Hchunk : take (Z.to_nat (12 + 4 * n)) b = Nack.encode_items fb c).
  { rewrite <- Htb. f_equal. pose proof (length_encode_items fb c). lia. }
  destruct (decide (drop (Z.to_nat n) rest = [])) as [Hd|Hd].
  - rewrite Hd. exists (WState b (12 + 4 * n) (wsent st)), [c].
    split; [by destruct fuel|]. split; [|split; [|split; [|split]]].
    + cbn. rewrite app_nil_r. rewrite <- (take_drop (Z.to_nat n) rest) at 1. by rewrite Hd, app_nil_r.
    + constructor; [|constructor]. split; [done|lia].
    + unfold pending. cbn. by rewrite Hchunk.
    + cbn. lia.
    + done.
  - assert (Hdl : length (drop (Z.to_nat n) rest) = (length rest - Z.to_nat n)%nat) by apply length_drop.
    assert (Hlt : n < zlen rest).
    { destruct (Z.eq_dec n (zlen rest)) as [E|]; [|lia]. destruct Hd. apply length_zero_iff_nil. lia. }
    destruct fuel as [|fuel]; [lia|].
    rewrite create_loop_flush; [|done|cbn; lia|lia|cbn; unfold n in *; dlia|cbn; lia].
    destruct (IH fuel ltac:(lia) (drop (Z.to_nat n) rest)
      (flush (WState b (12 + 4 * n) (wsent st)))) as (st' & chunks & -> & Hcat & Hok & Hp & Hi & Hlen);
      try done; try (cbn; lia).
    exists st', (c :: chunks). split; [done|]. split; [|split; [|split; [|split]]].
    + cbn [concat]. rewrite Hcat. apply take_drop.
    + constructor; [|done]. split; [done|lia].
    + rewrite Hp. unfold flush. cbn [wsent windex wbuf map]. rewrite Hchunk.
      by rewrite <- app_assoc.
    + done.
    + rewrite Hlen. exact Hlb.
Qed.

(** When everything fits, one packet is appended. *)
Lemma create_loop_fits fuel fb rest max_length callback st :
  (1 <= fuel)%nat -> rest <> [] -> 0 <= windex st -> max_length < 2 ^ 64 ->
  windex st + 12 + 4 * zlen rest <= max_length -> max_length <= zlen (wbuf st) ->
  zlen rest <= 65533 ->
  Nack.create_loop fuel fb rest max_length callback st = append (Nack.encode_items fb rest) st.
Proof.
  intros Hf Hr Hi Hm Hfit Hbuf Hl. destruct fuel as [|fuel]; [lia|].
  assert (1 <= zlen rest) by (destruct rest; [done|cbn [length]; lia]).
  destruct (put_Some (wbuf st) (windex st) (Nack.encode_items fb rest)) as [b Hb];
    [done|rewrite length_encode_items; lia|].
  assert (Hn : zlen rest = Z.min ((max_length - windex st - 12) / 4) (zlen rest)) by dlia.
  rewrite (create_loop_emit fuel fb rest max_length callback st (zlen rest) b);
    [|done|done|lia|done|done|done|by rewrite Nat2Z.id, take_ge by lia].
  rewrite drop_ge by lia. unfold append. rewrite Hb.
  rewrite length_encode_items, Z.add_assoc. by destruct fuel.
Qed.

#[global] Instance Nack_codec : RtcpCodec Nack.t := {|
  codec_type := Rtpfb.kPacketType;
  codec_fmt := fun fmt => fmt =? Nack.kFeedbackMessageType;
  codec_new := Nack.new;
  codec_block_length := Nack.BlockLength;
  codec_create := Nack.Create;
  codec_parse := Nack.Parse
|}.

Definition Nack_body (p : Nack.t) : bytes := Nack.items_body (Nack.common p) (Nack.packed_ p).

Lemma nack_read_skip old a q off : zlen a <= off ->
  Nack.read_packed old (a ++ q) off = Nack.read_packed old q (off - zlen a).
Proof.
  intros. unfold Nack.read_packed. rewrite !read_be_app_skip by lia. by rewrite <- Z.add_sub_swap.
Qed.

Lemma nack_read_here old i q : Nack.item_ok i ->
  Nack.read_packed old (Nack.encode_item i ++ q) 0 = Some i.
Proof.
  intros [Hp Hb]. unfold Nack.read_packed, Nack.encode_item. rewrite Z.add_0_l. read_all.
  by destruct i.
Qed.

Lemma nack_read_safe p old off : is_bytes p -> 0 <= off -> off + 4 <= zlen p ->
  exists i, Nack.read_packed old p off = Some i /\ Nack.item_ok i.
Proof.
  intros Hp Ho Hl. unfold Nack.read_packed. do 2 safe_step. by eexists.
Qed.

Lemma Unpack_spec fb packed : Forall Nack.item_ok packed -> 1 <= zlen packed ->
  Nack.Unpack (Nack.Mk fb packed []) =
  Some (Nack.Mk fb packed (concat (map Nack.item_ids packed))).
Proof.
  intros Hok Hl. unfold Nack.Unpack. cbn [Nack.packet_ids_ Nack.packed_ Nack.common].
  rewrite !check_then by (done || apply negb_eqb_0; lia).
  by rewrite unpack_items_spec.
Qed.

Lemma Nack_parse_body p rest : Nack.inv p ->
  Nack.Parse Nack.new
    (CommonHeader.Mk Rtpfb.kPacketType Nack.kFeedbackMessageType 0 (zlen (Nack_body p))
       (Nack_body p ++ rest)) = Some (Nack.image p, true).
Proof.
  intros (Hfb & Hn & Hf). unfold Nack.Parse. header_simpl. do 2 check_step.
  unfold Nack_body. rewrite length_items_body.
  unfold CommonFeedback.kCommonFeedbackLength, Nack.kNackItemLength. ltb_false.
  unfold Nack.items_body. rewrite <- app_assoc, parse_rtpfb_here by done. cbn [mbind option_bind].
  rewrite skip_feedback by (done || apply nack_read_skip). change (8 - 8) with 0.
  rewrite (read_items_encode _ Nack.encode_item); [|apply nack_read_skip| |done|].
  - cbn [mbind option_bind]. rewrite Unpack_spec by (done || lia). done.
  - intros old i q' Hi. apply nack_read_here. rewrite List.Forall_forall in Hf. by apply Hf.
  - rewrite length_vec_resize. dlia.
Qed.

Lemma Nack_Parse_safe p h :
  CommonHeader.valid h -> CommonHeader.type h = Rtpfb.kPacketType ->
  CommonHeader.fmt h = Nack.kFeedbackMessageType ->
  exists p' b, Nack.Parse p h = Some (p', b) /\ (b = true -> Nack.inv p' /\ Nack.image p' = p').
Proof.
  intros [_ _ Hpad Hs Hb Hfit Hw _] Ht Hf. unfold Nack.Parse. rewrite Ht, Hf, !check_then by done.
  header_simpl. unfold is_u8 in *. unfold CommonFeedback.kCommonFeedbackLength, Nack.kNackItemLength.
  destruct (Z.ltb_spec (CommonHeader.payload_size_ h) (8 + 4)); [by eexists _, false|].
  destruct (parse_rtpfb_safe (CommonHeader.payload_ h)) as (fb & -> & Hwf); [done|lia|].
  cbn [mbind option_bind].
  destruct (read_items_safe Nack.read_packed Nack.item_ok 4 (CommonHeader.payload_ h)) with
    (olds := vec_resize (Z.to_nat ((CommonHeader.payload_size_ h - 8) / 4)) (Nack.MkPacked 0 0) (Nack.packed_ p))
    (n := (CommonHeader.payload_size_ h - 8) / 4) (off := 8) as (l & -> & Hl & Hok);
    [intros; by apply nack_read_safe|done|done|dlia|rewrite length_vec_resize; dlia|].
  cbn [mbind option_bind]. rewrite Unpack_spec by (done || dlia). cbn [mbind option_bind].
  eexists _, true. split; [done|]. intros _. split; [|done].
  split; [done|]. split; [cbn; dlia|done].
Qed.

Lemma Nack_standard :
  standard Nack.inv Nack.inv (fun _ => Nack.kFeedbackMessageType) Nack_body Nack.image.
Proof.
  constructor; try done; intros p.
  - intros _. unfold Nack_body. rewrite length_items_body. dlia.
  - intros (_ & Hn & _). unfold Nack_body. rewrite length_items_body. lia.
  - intros _. unfold Nack_body. rewrite length_items_body.
    cbn [codec_block_length Nack_codec]. unfold Nack.BlockLength, kHeaderLength,
      CommonFeedback.kCommonFeedbackLength, Nack.kNackItemLength. lia.
  - intros m cb st (Hfb & Hn & Hf) Hi Hm Hb H64. unfold Nack_body in Hm.
    rewrite length_items_body in Hm. cbn [codec_create Nack_codec]. unfold Nack.Create.
    rewrite wcheck_then by (apply negb_eqb_0; lia).
    apply create_loop_fits; try done; try lia.
    + unfold Nack.create_fuel. lia.
    + intros E. rewrite E in Hn. cbn in Hn. lia.
  - intros rest. apply Nack_parse_body.
  - intros h Hv Ht Hf. cbn [codec_fmt Nack_codec] in Hf. apply Z.eqb_eq in Hf.
    destruct (Nack_Parse_safe p h Hv Ht Hf) as (p' & b & E & Hi). exists p', b.
    split; [done|]. intros _ Hb. by apply Hi.
Qed.

#[global] Instance Nack_laws : RtcpCodecLaws Nack.t := standard_laws _ _ _ _ _ Nack_standard.

End create.

(** ** Properties *)

(** A NACK asks for exactly the ids it was given.  SetPacketIds on a fresh message
    packs any list of 16-bit ids into at most as many items; when the packet fits, Parse
    of what Create wrote recovers a message that lists the same ids, and lists them in
    the same order when each follows the previous one by at most 2^15 modulo 2^16. *)
Theorem nack_ids_roundtrip `{RtcNumericsLaws} fb ids max_length callback st :
  CommonFeedback.wf fb -> ids <> [] -> Forall is_u16 ids -> zlen ids <= 65533 ->
  0 <= windex st -> windex st + 12 + 4 * zlen ids <= max_length ->
  max_length <= zlen (wbuf st) -> max_length < 2 ^ 64 ->
  exists p ids',
    Nack.SetPacketIds (Nack.Mk fb [] []) ids = Some p /\ Nack.packet_ids_ p = ids /\
    1 <= zlen (Nack.packed_ p) <= zlen ids /\
    roundtrips (Nack.Create p max_length callback) (Nack.Parse Nack.new) (Nack.BlockLength p)
      (Nack.Mk fb (Nack.packed_ p) ids') st /\
    (forall id, id ∈ ids' <-> id ∈ ids) /\
    (Nack.ascending ids -> ids' = ids).
Proof.
  intros Hfb Hne Hu Hn Hi Hm Hb H64.
  destruct (pack_loop_spec (length ids) ids) as (items & E & Hok & Hne' & Hlen & Hids); [done|done|].
  assert (Hpos : forall {A} (l : list A), l <> [] -> 1 <= zlen l) by (intros A [|? ?] ?; [done|cbn; lia]).
  specialize (Hne' Hne). apply Hpos in Hne'. pose proof (Hpos _ ids Hne) as Hne1.
  set (p := Nack.Mk fb items ids). exists p, (concat (map Nack.item_ids items)).
  assert (Hinv : Nack.inv p) by (split; [done|]; split; [cbn; lia|done]).
  splits; try done; try (cbn; lia).
  - unfold Nack.SetPacketIds, Nack.Pack. cbn [Nack.packet_ids_ Nack.packed_ Nack.common length app].
    cbn [check Z.eqb mbind option_bind]. rewrite negb_eqb_0 by lia. cbn [check mbind option_bind].
    by rewrite E.
  - refine (codec_roundtrip p max_length callback st Hinv Hi _ Hb H64).
    cbn [codec_block_length Nack_codec]. unfold Nack.BlockLength, kHeaderLength,
      CommonFeedback.kCommonFeedbackLength, Nack.kNackItemLength. cbn [Nack.packed_ p]. lia.
  - intros Ha. destruct (pack_loop_ascending (length ids) ids) as (items' & E' & Hx); [done..|].
    rewrite E in E'. by injection E' as <-.
Qed.

Lemma nack_ids_roundtrip_witness :
  exists p, Nack.SetPacketIds (Nack.Mk (CommonFeedback.Mk 1 2) [] []) [65535; 3; 5; 40] = Some p /\
    exists ids', roundtrips (Nack.Create p 60 false) (Nack.Parse Nack.new) (Nack.BlockLength p)
      (Nack.Mk (CommonFeedback.Mk 1 2) (Nack.packed_ p) ids') (WState (replicate 60 0) 4 []).
Proof.
  destruct (nack_ids_roundtrip (CommonFeedback.Mk 1 2) [65535; 3; 5; 40] 60 false
    (WState (replicate 60 0) 4 [])) as (p & ids' & E & _ & _ & R & _); [decide_wf..|].
  exists p. split; [exact E|]. exists ids'. exact R.
Defined.
