(* ===== verification/RtcpMisc.v ===== *)
(** * Bye, App and Sdes

    rtcp_packet/bye.{h,cc}, app.{h,cc} and sdes.{h,cc}: the packets that carry
    text or data of any length.  Strings and rtc::Buffer are lists of octets. *)

From S2P Require Import Prelude ByteIo Buffers RtcpCore.

(** ** Bye *)

Module Bye.

Record t := Mk { sender_ssrc_ : Z; csrcs_ : list Z; reason_ : bytes }.

Definition kPacketType : Z := 203.
Definition kMaxNumberOfCsrcs : Z := 0x1f - 1.

Definition new : t := Mk 0 [] [].

Definition Parse (this : t) (packet : CommonHeader.t) : option (t * bool) :=
  check (CommonHeader.type packet =? kPacketType) ;;
  let src_count := CommonHeader.count packet in
  let size := CommonHeader.payload_size_bytes packet in
  if size <? 4 * src_count then Some (this, false) else
  let payload := CommonHeader.payload packet in
  let has_reason := size >? 4 * src_count in
  reason_length ← (if has_reason then peek payload (4 * src_count) else Some 0);
  if has_reason && (size - 4 * src_count <? 1 + reason_length) then Some (this, false) else
  '(ssrc, csrcs) ←
    (if src_count =? 0 then Some (0, [])
     else
       ssrc ← read_u32 payload 0;
       csrcs ← read_items (fun _ => read_u32) 4
                 (vec_resize (Z.to_nat (src_count - 1)) 0 (csrcs_ this)) payload 4;
       Some (ssrc, csrcs));
  reason ← (if has_reason then load payload (4 * src_count + 1) (Z.to_nat reason_length)
            else Some []);
  Some (Mk ssrc csrcs reason, true).

Definition BlockLength (this : t) : Z :=
  let src_count := 1 + zlen (csrcs_ this) in
  let reason_size_in_32bits :=
    if zlen (reason_ this) =? 0 then 0 else zlen (reason_ this) / 4 + 1 in
  kHeaderLength + 4 * (src_count + reason_size_in_32bits).

Definition Create (this : t) (max_length : Z) (callback : bool) : W bool :=
  with_room (BlockLength this)
    (index ← get_index;
     let index_end := index + BlockLength this in
     length ← wlift (RtcpPacket.HeaderLength (BlockLength this));
     RtcpPacket.CreateHeader (1 + zlen (csrcs_ this)) kPacketType length ;;
     write_u32 0 (sender_ssrc_ this) ;;
     add_index 4 ;;
     for_each (fun csrc => write_u32 0 csrc ;; add_index 4) (csrcs_ this) ;;
     (if zlen (reason_ this) =? 0 then mret tt
      else
        let reason_length := u8 (zlen (reason_ this)) in
        push reason_length ;;
        write_at 0 (take (Z.to_nat reason_length) (reason_ this)) ;;
        add_index reason_length ;;
        index ← get_index;
        let bytes_to_pad := u64 (index_end - index) in
        wcheck (bytes_to_pad <=? 3) ;;
        if bytes_to_pad >? 0 then
          write_at 0 (replicate (Z.to_nat bytes_to_pad) 0) ;; add_index bytes_to_pad
        else mret tt) ;;
     check_index index_end ;;
     mret true)
    max_length callback.

Definition SetCsrcs (this : t) (csrcs : list Z) : t * bool :=
  if zlen csrcs >? kMaxNumberOfCsrcs then (this, false)
  else (Mk (sender_ssrc_ this) csrcs (reason_ this), true).

Definition SetReason (this : t) (reason : bytes) : option t :=
  check (zlen reason <=? 0xff) ;; Some (Mk (sender_ssrc_ this) (csrcs_ this) reason).

Definition wf (this : t) : Prop :=
  is_u32 (sender_ssrc_ this) /\ zlen (csrcs_ this) <= 30 /\ Forall is_u32 (csrcs_ this) /\
  zlen (reason_ this) <= 255 /\ is_bytes (reason_ this).

(** The optional reason, padded with zeros to a whole number of words. *)
Definition reason_body (reason : bytes) : bytes :=
  if decide (reason = []) then []
  else be_bytes 1 (zlen reason) ++ reason ++ replicate (3 - length reason mod 4) 0.

Definition body (this : t) : bytes :=
  be_bytes 4 (sender_ssrc_ this) ++ concat (map (be_bytes 4) (csrcs_ this)) ++
  reason_body (reason_ this).

End Bye.

(** ** App *)

Module App.

Record t := Mk { sender_ssrc_ : Z; sub_type_ : Z; name_ : Z; data_ : bytes }.

Definition kPacketType : Z := 204.
Definition kAppBaseLength : Z := 8.
Definition kMaxDataSize : Z := 0xffff * 4 - kAppBaseLength.

Definition new : t := Mk 0 0 0 [].

Definition Parse (this : t) (packet : CommonHeader.t) : option (t * bool) :=
  check (CommonHeader.type packet =? kPacketType) ;;
  if CommonHeader.payload_size_bytes packet <? kAppBaseLength then Some (this, false) else
  if negb (CommonHeader.payload_size_bytes packet mod 4 =? 0) then Some (this, false) else
  ssrc ← read_u32 (CommonHeader.payload packet) 0;
  name ← read_u32 (CommonHeader.payload packet) 4;
  data ← load (CommonHeader.payload packet) kAppBaseLength
           (Z.to_nat (CommonHeader.payload_size_bytes packet - kAppBaseLength));
  Some (Mk ssrc (CommonHeader.fmt packet) name data, true).

Definition SetSubType (this : t) (subtype : Z) : option t :=
  check (subtype <=? 0x1f) ;; Some (Mk (sender_ssrc_ this) subtype (name_ this) (data_ this)).

Definition SetName (this : t) (name : Z) : t :=
  Mk (sender_ssrc_ this) (sub_type_ this) name (data_ this).

Definition SetData (this : t) (data : bytes) : option t :=
  check (zlen data mod 4 =? 0) ;;
  check (zlen data <=? kMaxDataSize) ;;
  Some (Mk (sender_ssrc_ this) (sub_type_ this) (name_ this) data).

Definition BlockLength (this : t) : Z := kHeaderLength + kAppBaseLength + zlen (data_ this).

Definition Create (this : t) (max_length : Z) (callback : bool) : W bool :=
  create_with (BlockLength this)
    (length ← wlift (RtcpPacket.HeaderLength (BlockLength this));
     RtcpPacket.CreateHeader (sub_type_ this) kPacketType length ;;
     write_u32 0 (sender_ssrc_ this) ;;
     write_u32 4 (name_ this) ;;
     write_at 8 (data_ this) ;;
     add_index (8 + zlen (data_ this)))
    max_length callback.

Definition wf (this : t) : Prop :=
  is_u32 (sender_ssrc_ this) /\ 0 <= sub_type_ this < 32 /\ is_u32 (name_ this) /\
  zlen (data_ this) mod 4 = 0 /\ zlen (data_ this) <= kMaxDataSize /\ is_bytes (data_ this).

Definition body (this : t) : bytes :=
  be_bytes 4 (sender_ssrc_ this) ++ be_bytes 4 (name_ this) ++ data_ this.

End App.

(** ** Sdes *)

Module Sdes.

Record Chunk := MkChunk { ssrc : Z; cname : bytes }.

(** The base class member sender_ssrc_ is not part of this packet. *)
Record t := Mk { chunks_ : list Chunk; block_length_ : Z }.

Definition kPacketType : Z := 202.
Definition kMaxNumberOfChunks : Z := 0x1f.
Definition kTerminatorTag : Z := 0.
Definition kCnameTag : Z := 1.

Definition new : t := Mk [] kHeaderLength.

Definition ChunkSize (chunk : Chunk) : Z :=
  let chunk_payload_size := 4 + 1 + 1 + zlen (cname chunk) in
  let padding_size := 4 - chunk_payload_size mod 4 in
  chunk_payload_size + padding_size.

(** The loop over the items of one chunk, from [looking_at] (an offset, like
    [payload_end]); [found] is the CNAME seen so far.  [Some None] is the
    "return false" of the function. *)
Fixpoint parse_items (fuel : nat) (p : bytes) (payload_end looking_at : Z)
    (found : option bytes) : option (option (option bytes * Z)) :=
  match fuel with
  | O => None
  | S fuel' =>
      item_type ← peek p looking_at;
      let looking_at := looking_at + 1 in
      if item_type =? kTerminatorTag then Some (Some (found, looking_at)) else
      if looking_at >=? payload_end then Some None else
      item_length ← peek p looking_at;
      let looking_at := looking_at + 1 in
      let kTerminatorSize := 1 in
      if looking_at + item_length + kTerminatorSize >? payload_end then Some None else
      if item_type =? kCnameTag then
        match found with
        | Some _ => Some None
        | None =>
            text ← load p looking_at (Z.to_nat item_length);
            parse_items fuel' p payload_end (looking_at + item_length) (Some text)
        end
      else parse_items fuel' p payload_end (looking_at + item_length) found
  end.

(** The loop over the chunks: [chunks] are those with a CNAME so far, [todo]
    is number_of_chunks - i. *)
Fixpoint parse_chunks (todo : nat) (p : bytes) (payload_end looking_at : Z)
    (chunks : list Chunk) (block_length : Z) : option (option (list Chunk * Z)) :=
  match todo with
  | O => Some (Some (chunks, block_length))
  | S todo' =>
      if payload_end - looking_at <? 8 then Some None else
      ssrc ← read_u32 p looking_at;
      items ← parse_items (S (Z.to_nat payload_end)) p payload_end (looking_at + 4) None;
      match items with
      | None => Some None
      | Some (found, looking_at) =>
          let aligned := looking_at + (payload_end - looking_at) mod 4 in
          match found with
          | Some name =>
              let chunk := MkChunk ssrc name in
              parse_chunks todo' p payload_end aligned (chunks ++ [chunk])
                (block_length + ChunkSize chunk)
          | None => parse_chunks todo' p payload_end aligned chunks block_length
          end
      end
  end.

Definition Parse (this : t) (packet : CommonHeader.t) : option (t * bool) :=
  check (CommonHeader.type packet =? kPacketType) ;;
  let number_of_chunks := CommonHeader.count packet in
  result ← parse_chunks (Z.to_nat number_of_chunks) (CommonHeader.payload packet)
             (CommonHeader.payload_size_bytes packet) 0 [] kHeaderLength;
  match result with
  | Some (chunks, block_length) => Some (Mk chunks block_length, true)
  | None => Some (this, false)
  end.

Definition AddCName (this : t) (ssrc : Z) (cname : bytes) : option (t * bool) :=
  check (zlen cname <=? 0xff) ;;
  if zlen (chunks_ this) >=? kMaxNumberOfChunks then Some (this, false) else
  let chunk := MkChunk ssrc cname in
  Some (Mk (chunks_ this ++ [chunk]) (block_length_ this + ChunkSize chunk), true).

Definition BlockLength (this : t) : Z := block_length_ this.

Definition create_chunk (chunk : Chunk) : W unit :=
  write_u32 0 (ssrc chunk) ;;
  write_u8 4 kCnameTag ;;
  write_u8 5 (u8 (zlen (cname chunk))) ;;
  write_at 6 (cname chunk) ;;
  add_index (6 + zlen (cname chunk)) ;;
  let padding_size := 4 - (6 + zlen (cname chunk)) mod 4 in
  write_at 0 (replicate (Z.to_nat padding_size) 0) ;;
  add_index padding_size.

Definition Create (this : t) (max_length : Z) (callback : bool) : W bool :=
  create_with (BlockLength this)
    (length ← wlift (RtcpPacket.HeaderLength (BlockLength this));
     RtcpPacket.CreateHeader (zlen (chunks_ this)) kPacketType length ;;
     for_each create_chunk (chunks_ this))
    max_length callback.

Definition chunk_ok (c : Chunk) : Prop :=
  is_u32 (ssrc c) /\ zlen (cname c) <= 255 /\ is_bytes (cname c).

Definition chunks_size (chunks : list Chunk) : Z := foldr Z.add 0 (map ChunkSize chunks).

Definition wf (this : t) : Prop :=
  zlen (chunks_ this) <= 31 /\ Forall chunk_ok (chunks_ this) /\
  block_length_ this = 4 + chunks_size (chunks_ this).

Definition encode_chunk (c : Chunk) : bytes :=
  be_bytes 4 (ssrc c) ++ be_bytes 1 kCnameTag ++ be_bytes 1 (zlen (cname c)) ++ cname c ++
  replicate (4 - (6 + length (cname c)) mod 4) 0.

Definition body (this : t) : bytes := concat (map encode_chunk (chunks_ this)).

End Sdes.

(** ** Bye on the wire *)

#[global] Instance Bye_codec : RtcpCodec Bye.t := {|
  codec_type := Bye.kPacketType;
  codec_fmt := fun _ => true;
  codec_new := Bye.new;
  codec_block_length := Bye.BlockLength;
  codec_create := Bye.Create;
  codec_parse := Bye.Parse
|}.

Definition Bye_count (p : Bye.t) : Z := 1 + zlen (Bye.csrcs_ p).

Lemma length_reason_body reason :
  zlen (Bye.reason_body reason) =
  4 * (if zlen reason =? 0 then 0 else zlen reason / 4 + 1).
Proof.
  unfold Bye.reason_body. destruct reason as [|x reason]; [done|].
  rewrite decide_False by done. destruct (Z.eqb_spec (zlen (x :: reason)) 0); [done|].
  rewrite !length_app, length_be_bytes, length_replicate, !Nat2Z.inj_add.
  set (len := length (x :: reason)) in *.
  rewrite Nat2Z.inj_sub by (pose proof (Nat.mod_upper_bound len 4); lia).
  rewrite Nat2Z.inj_mod. dlia.
Qed.

Lemma Bye_length_body p : zlen (Bye.body p) + 4 = Bye.BlockLength p.
Proof.
  unfold Bye.body, Bye.BlockLength, kHeaderLength.
  rewrite !length_app, length_be_bytes, !Nat2Z.inj_add, length_reason_body.
  rewrite length_concat_be_bytes. lia.
Qed.

Lemma Bye_length_bound p : Bye.wf p -> 8 <= Bye.BlockLength p <= 400 /\ Bye.BlockLength p mod 4 = 0.
Proof.
  intros (_ & Hn & _ & Hr & _). unfold Bye.BlockLength, kHeaderLength.
  destruct (Z.eqb_spec (zlen (Bye.reason_ p)) 0); dlia.
Qed.

Lemma runs_at_reason i index_end reason :
  zlen reason <= 255 -> 0 <= i -> index_end = i + zlen (Bye.reason_body reason) ->
  runs_at i
    ((if zlen reason =? 0 then mret tt
      else
        let reason_length := u8 (zlen reason) in
        push reason_length ;;
        write_at 0 (take (Z.to_nat reason_length) reason) ;;
        add_index reason_length ;;
        index ← get_index;
        let bytes_to_pad := u64 (index_end - index) in
        wcheck (bytes_to_pad <=? 3) ;;
        if bytes_to_pad >? 0 then
          write_at 0 (replicate (Z.to_nat bytes_to_pad) 0) ;; add_index bytes_to_pad
        else mret tt) ;;
     check_index index_end ;; mret true) true (Bye.reason_body reason).
Proof.
  intros Hr Hi Hend. rewrite <- (app_nil_r (Bye.reason_body reason)).
  eapply runs_at_bind; [|by apply runs_at_end].
  rewrite length_reason_body in Hend. unfold Bye.reason_body.
  destruct (Z.eqb_spec (zlen reason) 0) as [Hz|Hz].
  { rewrite decide_True by (by apply length_zero_iff_nil; lia). apply runs_at_runs, runs_ret. }
  rewrite decide_False by (intros ->; done). cbv zeta.
  rewrite u8_id by (unfold is_u8; lia). rewrite Nat2Z.id, take_ge by done.
  assert (Hpad : Z.of_nat (3 - length reason mod 4) = 3 - zlen reason mod 4).
  { rewrite Nat2Z.inj_sub by (pose proof (Nat.mod_upper_bound (length reason) 4); lia).
    by rewrite Nat2Z.inj_mod. }
  rewrite be_bytes_1 by (unfold is_u8; lia).
  apply runs_at_push_u8, runs_at_write; [unfold is_u8; lia|done|]. apply runs_at_get.
  assert (E : u64 (index_end - (i + 1 + zlen reason)) = 3 - zlen reason mod 4).
  { rewrite Hend, u64_id by (unfold is_u64; dlia). dlia. }
  rewrite E. apply runs_at_check; [apply Z.leb_le; dlia|].
  replace (3 - length reason mod 4)%nat with (Z.to_nat (3 - zlen reason mod 4)) by lia.
  destruct (Z.gtb_spec (3 - zlen reason mod 4) 0).
  - apply runs_at_runs, runs_write_last_n. rewrite length_replicate. dlia.
  - replace (Z.to_nat (3 - zlen reason mod 4)) with 0%nat by dlia. apply runs_at_runs, runs_ret.
Qed.

Lemma Bye_Create_spec p max_length callback st :
  Bye.wf p -> 0 <= windex st <= zlen (wbuf st) ->
  Bye.Create p max_length callback st =
  create_result (standard_encode Bye_count Bye.body p) max_length callback st.
Proof.
  intros Hp Hi. pose proof (Bye_length_body p) as Hb.
  destruct (Bye_length_bound p Hp) as [Hl Hm]. destruct Hp as (Hs & Hn & Hf & Hr & Hrb).
  apply with_room_result; [|rewrite length_standard_encode; lia|lia|done].
  apply runs_of_at. intros i Hi0. apply runs_at_get. cbv zeta.
  apply (runs_at_wlift _ _ (zlen (Bye.body p) / 4)).
  { rewrite HeaderLength_Some by lia. f_equal. f_equal. lia. }
  unfold standard_encode. eapply runs_at_bind.
  { apply runs_at_runs, runs_CreateHeader; [dlia|unfold Bye_count; lia|done]. }
  unfold Bye.body. rewrite write_at_be. apply runs_at_write; [by rewrite length_be_bytes|].
  eapply runs_at_bind.
  { apply runs_at_runs, runs_for_each. intros. by apply runs_write_be_last. }
  apply runs_at_reason; [done|rewrite length_header_bytes; lia|].
  rewrite <- Hb. unfold Bye.body.
  rewrite length_header_bytes, !length_app, length_be_bytes. lia.
Qed.

Lemma reason_body_parse reason rest off p :
  is_bytes reason -> zlen reason <= 255 -> reason <> [] ->
  zlen p = off -> 0 <= off ->
  peek (p ++ Bye.reason_body reason ++ rest) off = Some (zlen reason) /\
  load (p ++ Bye.reason_body reason ++ rest) (off + 1) (length reason) = Some reason.
Proof.
  intros Hb Hl Hne <- _. unfold Bye.reason_body. rewrite decide_False by done.
  rewrite be_bytes_1, <- !app_assoc by (unfold is_u8; lia). split.
  - rewrite peek_app_skip by done. by rewrite Z.sub_diag.
  - rewrite load_app_skip by lia. rewrite Z.add_simpl_l.
    rewrite (load_app_skip [zlen reason]) by done. by apply load_app_here.
Qed.

Lemma Bye_parse_body p this rest : Bye.wf p ->
  Bye.Parse this
    (CommonHeader.Mk Bye.kPacketType (Bye_count p) 0 (zlen (Bye.body p)) (Bye.body p ++ rest)) =
  Some (p, true).
Proof.
  intros Hp. pose proof (Bye_length_body p) as Hb.
  destruct Hp as (Hs & Hn & Hf & Hr & Hrb). unfold Bye.Parse. header_simpl. check_step.
  assert (Hlen : zlen (Bye.body p) = 4 * Bye_count p + zlen (Bye.reason_body (Bye.reason_ p))).
  { unfold Bye.body, Bye_count. rewrite !length_app, length_be_bytes, !Nat2Z.inj_add,
      length_concat_be_bytes. lia. }
  rewrite Hlen, length_reason_body. unfold Bye_count in *.
  set (n := zlen (Bye.csrcs_ p)) in *. set (tail := Bye.reason_body (Bye.reason_ p) ++ rest).
  assert (Hbody : Bye.body p ++ rest =
    be_bytes 4 (Bye.sender_ssrc_ p) ++ concat (map (be_bytes 4) (Bye.csrcs_ p)) ++ tail).
  { unfold Bye.body, tail. by rewrite <- !app_assoc. }
  rewrite Hbody.
  assert (Hsplit : be_bytes 4 (Bye.sender_ssrc_ p) ++ concat (map (be_bytes 4) (Bye.csrcs_ p)) ++ tail =
    (be_bytes 4 (Bye.sender_ssrc_ p) ++ concat (map (be_bytes 4) (Bye.csrcs_ p))) ++
    Bye.reason_body (Bye.reason_ p) ++ rest) by (unfold tail; by rewrite <- !app_assoc).
  assert (Hpre : zlen (be_bytes 4 (Bye.sender_ssrc_ p) ++ concat (map (be_bytes 4) (Bye.csrcs_ p))) =
    4 * (1 + n)) by (rewrite length_app, length_be_bytes, Nat2Z.inj_add, length_concat_be_bytes; lia).
  destruct (Z.eqb_spec (zlen (Bye.reason_ p)) 0) as [Hz|Hz].
  - rewrite Z.mul_0_r, Z.add_0_r, Z.ltb_irrefl, Z.gtb_ltb, Z.ltb_irrefl. cbn [andb mbind option_bind].
    rewrite (proj2 (Z.eqb_neq (1 + n) 0)) by lia. read_all. items_skip u32s_skip.
    rewrite read_u32s_encode by (done || rewrite length_vec_resize; lia). cbn [mbind option_bind].
    destruct p as [s c r]; cbn in *. destruct r; [done|cbn in Hz; lia].
  - assert (0 <= zlen (Bye.reason_ p) / 4) by dlia.
    ltb_false. rewrite Z.gtb_ltb. rewrite (proj2 (Z.ltb_lt _ _)) by lia. rewrite Hsplit.
    destruct (reason_body_parse (Bye.reason_ p) rest (4 * (1 + n))
      (be_bytes 4 (Bye.sender_ssrc_ p) ++ concat (map (be_bytes 4) (Bye.csrcs_ p))))
      as [Hpk Hld]; [done|done|by intros E; rewrite E in Hz|done|lia|].
    rewrite Hpk. cbn [andb mbind option_bind]. rewrite (proj2 (Z.ltb_ge _ _)) by dlia.
    rewrite (proj2 (Z.eqb_neq (1 + n) 0)) by lia. rewrite Nat2Z.id, Hld, <- Hsplit.
    read_all. items_skip u32s_skip.
    rewrite read_u32s_encode by (done || rewrite length_vec_resize; lia). cbn [mbind option_bind].
    by destruct p.
Qed.

Lemma load_safe p off n : is_bytes p -> 0 <= off -> off + Z.of_nat n <= zlen p ->
  exists l, load p off n = Some l /\ is_bytes l /\ length l = n.
Proof.
  intros Hp Ho Hl. exists (take n (drop (Z.to_nat off) p)). rewrite load_Some by done.
  split; [done|]. split; [by apply Forall_take, Forall_drop|]. rewrite length_take, length_drop. lia.
Qed.

Lemma Bye_Parse_safe p h :
  CommonHeader.valid h -> CommonHeader.type h = Bye.kPacketType ->
  exists p' b, Bye.Parse p h = Some (p', b) /\ (b = true -> Bye.wf p').
Proof.
  intros [_ Hc Hpad Hs Hb Hfit Hw _] Ht. unfold Bye.Parse. rewrite Ht, check_then by done.
  header_simpl. unfold is_u8 in *. rewrite Z.gtb_ltb.
  set (c := CommonHeader.count_or_format_ h) in *. set (size := CommonHeader.payload_size_ h) in *.
  set (pl := CommonHeader.payload_ h) in *.
  destruct (Z.ltb_spec size (4 * c)); [by eexists _, false|].
  assert (Hsrc : exists s l, (if c =? 0 then Some (0, [])
     else
       ssrc ← read_u32 pl 0;
       csrcs ← read_items (fun _ => read_u32) 4 (vec_resize (Z.to_nat (c - 1)) 0 (Bye.csrcs_ p)) pl 4;
       Some (ssrc, csrcs)) = Some (s, l) /\ is_u32 s /\ zlen l <= 30 /\ Forall is_u32 l).
  { destruct (Z.eqb_spec c 0); [by exists 0, []|]. safe_step.
    destruct (read_u32s_safe pl (c - 1) (vec_resize (Z.to_nat (c - 1)) 0 (Bye.csrcs_ p)) 4)
      as (l & -> & Hl & Hok); [done|lia|lia|rewrite length_vec_resize; lia|].
    cbn [mbind option_bind]. exists v, l. splits; try done; lia. }
  destruct Hsrc as (s & l & Hsl & Hs32 & Hl30 & Hl32).
  destruct (Z.ltb_spec (4 * c) size).
  - destruct (peek_u8_Some pl (4 * c)) as (len & -> & Hlen); [done|lia|]. unfold is_u8 in *.
    cbn [mbind option_bind andb].
    destruct (Z.ltb_spec (size - 4 * c) (1 + len)); [by eexists _, false|].
    rewrite Hsl. cbn [mbind option_bind].
    destruct (load_safe pl (4 * c + 1) (Z.to_nat len)) as (r & -> & Hr & Hrl); [done|lia|lia|].
    cbn [mbind option_bind]. eexists _, true. split; [done|]. intros _.
    unfold Bye.wf. cbn. splits; try done. lia.
  - cbn [mbind option_bind andb]. rewrite Hsl. cbn [mbind option_bind].
    eexists _, true. split; [done|]. intros _. unfold Bye.wf. cbn. splits; try done. constructor.
Qed.

Lemma Bye_standard : standard Bye.wf Bye.wf Bye_count Bye.body (fun p => p).
Proof.
  constructor; try done; intros p.
  - intros (_ & Hn & _). unfold Bye_count. lia.
  - intros Hp. pose proof (Bye_length_body p). destruct (Bye_length_bound p Hp). dlia.
  - intros Hp. pose proof (Bye_length_body p). destruct (Bye_length_bound p Hp). lia.
  - intros _. cbn [codec_block_length Bye_codec]. pose proof (Bye_length_body p). lia.
  - intros m cb st Hp Hi Hm Hb _. rewrite <- create_result_append with (max_length := m) (callback := cb) by done.
    apply Bye_Create_spec; [done|lia].
  - intros rest. apply Bye_parse_body.
  - intros h Hv Ht _. destruct (Bye_Parse_safe p h Hv Ht) as (p' & b & E & Hi). by exists p', b.
Qed.

#[global] Instance Bye_laws : RtcpCodecLaws Bye.t := standard_laws _ _ _ _ _ Bye_standard.

(** ** App on the wire *)

#[global] Instance App_codec : RtcpCodec App.t := {|
  codec_type := App.kPacketType;
  codec_fmt := fun _ => true;
  codec_new := App.new;
  codec_block_length := App.BlockLength;
  codec_create := App.Create;
  codec_parse := App.Parse
|}.

Lemma App_length_body p : zlen (App.body p) = 8 + zlen (App.data_ p).
Proof. unfold App.body. rewrite !length_app, !length_be_bytes. lia. Qed.

Lemma App_Create_spec p max_length callback st :
  App.wf p -> 0 <= windex st <= zlen (wbuf st) ->
  App.Create p max_length callback st =
  create_result (standard_encode App.sub_type_ App.body p) max_length callback st.
Proof.
  intros (Hs & Ht & Hn & Hm & Hl & Hd) Hi. pose proof (App_length_body p) as Hb.
  unfold App.kMaxDataSize, App.kAppBaseLength in *.
  apply create_with_result; [|rewrite length_standard_encode, Hb; unfold App.BlockLength,
    kHeaderLength, App.kAppBaseLength; lia|unfold App.BlockLength, kHeaderLength,
    App.kAppBaseLength; lia|done].
  apply runs_packet; [done|done|unfold App.BlockLength, kHeaderLength, App.kAppBaseLength; lia|
    dlia|lia|].
  unfold App.body. do 2 runs_step. apply (runs_write_last 8).
Qed.

Lemma App_parse_body p this rest : App.wf p ->
  App.Parse this
    (CommonHeader.Mk App.kPacketType (App.sub_type_ p) 0 (zlen (App.body p)) (App.body p ++ rest)) =
  Some (p, true).
Proof.
  intros (Hs & Ht & Hn & Hm & Hl & Hd). unfold App.Parse. header_simpl. check_step.
  rewrite App_length_body. unfold App.kAppBaseLength. ltb_false.
  rewrite (proj2 (Z.eqb_eq _ 0)) by dlia. cbn [negb]. unfold App.body. read_all.
  rewrite Z.add_simpl_l, Nat2Z.id.
  rewrite !load_app_skip by (rewrite ?length_be_bytes; lia). rewrite !length_be_bytes.
  change (8 - Z.of_nat 4 - Z.of_nat 4) with 0. rewrite load_app_here by done.
  by destruct p.
Qed.

Lemma App_Parse_safe p h :
  CommonHeader.valid h -> CommonHeader.type h = App.kPacketType ->
  exists p' b, App.Parse p h = Some (p', b) /\ (b = true -> App.wf p').
Proof.
  intros [_ Hc Hpad Hs Hb Hfit Hw _] Ht. unfold App.Parse. rewrite Ht, check_then by done.
  header_simpl. unfold is_u8, App.kAppBaseLength in *.
  set (size := CommonHeader.payload_size_ h) in *. set (pl := CommonHeader.payload_ h) in *.
  destruct (Z.ltb_spec size 8); [by eexists _, false|].
  destruct (Z.eqb_spec (size mod 4) 0); [|by eexists _, false]. cbn [negb].
  do 2 safe_step.
  destruct (load_safe pl 8 (Z.to_nat (size - 8))) as (d & -> & Hd & Hdl); [done|lia|lia|].
  cbn [mbind option_bind]. eexists _, true. split; [done|]. intros _.
  unfold App.wf. cbn [App.sender_ssrc_ App.sub_type_ App.name_ App.data_].
  unfold App.kMaxDataSize, App.kAppBaseLength. splits; try done; dlia.
Qed.

Lemma App_standard : standard App.wf App.wf App.sub_type_ App.body (fun p => p).
Proof.
  constructor; try done; intros p.
  - intros Hp. apply Hp.
  - intros (_ & _ & _ & Hm & _). rewrite App_length_body. dlia.
  - intros (_ & _ & _ & _ & Hl & _). rewrite App_length_body.
    unfold App.kMaxDataSize, App.kAppBaseLength in Hl. lia.
  - intros _. rewrite App_length_body. cbn [codec_block_length App_codec].
    unfold App.BlockLength, kHeaderLength, App.kAppBaseLength. lia.
  - intros m cb st Hp Hi Hm Hb _. rewrite <- create_result_append with (max_length := m) (callback := cb) by done.
    apply App_Create_spec; [done|lia].
  - intros rest. apply App_parse_body.
  - intros h Hv Ht _. destruct (App_Parse_safe p h Hv Ht) as (p' & b & E & Hi). by exists p', b.
Qed.

#[global] Instance App_laws : RtcpCodecLaws App.t := standard_laws _ _ _ _ _ App_standard.

(** ** Sdes on the wire *)

#[global] Instance Sdes_codec : RtcpCodec Sdes.t := {|
  codec_type := Sdes.kPacketType;
  codec_fmt := fun _ => true;
  codec_new := Sdes.new;
  codec_block_length := Sdes.BlockLength;
  codec_create := Sdes.Create;
  codec_parse := Sdes.Parse
|}.

Lemma length_encode_chunk c : zlen (Sdes.encode_chunk c) = Sdes.ChunkSize c.
Proof.
  unfold Sdes.encode_chunk, Sdes.ChunkSize.
  rewrite !length_app, !length_be_bytes, length_replicate.
  rewrite !Nat2Z.inj_add, Nat2Z.inj_sub, Nat2Z.inj_mod
    by (pose proof (Nat.mod_upper_bound (6 + length (Sdes.cname c)) 4); lia). dlia.
Qed.

Lemma ChunkSize_bound c : zlen (Sdes.cname c) <= 255 ->
  8 <= Sdes.ChunkSize c <= 265 /\ Sdes.ChunkSize c mod 4 = 0.
Proof. intros. unfold Sdes.ChunkSize. dlia. Qed.

Lemma chunks_size_app a b : Sdes.chunks_size (a ++ b) = Sdes.chunks_size a + Sdes.chunks_size b.
Proof. unfold Sdes.chunks_size. induction a as [|c a IH]; cbn in *; lia. Qed.

Lemma chunks_size_bound l : Forall Sdes.chunk_ok l ->
  0 <= Sdes.chunks_size l <= 265 * zlen l /\ Sdes.chunks_size l mod 4 = 0.
Proof.
  unfold Sdes.chunks_size. induction 1 as [|c l (_ & Hc & _) _ IH]; [done|].
  pose proof (ChunkSize_bound c Hc). cbn [map foldr length]. dlia.
Qed.

Lemma Sdes_length_body p : zlen (Sdes.body p) = Sdes.chunks_size (Sdes.chunks_ p).
Proof.
  unfold Sdes.body, Sdes.chunks_size. induction (Sdes.chunks_ p) as [|c l IH]; [done|].
  cbn [map concat foldr]. rewrite length_app, Nat2Z.inj_add, IH, length_encode_chunk. done.
Qed.

Lemma runs_chunk c : zlen (Sdes.cname c) <= 255 ->
  runs 0 (Sdes.create_chunk c) tt (Sdes.encode_chunk c).
Proof.
  intros Hc. unfold Sdes.create_chunk, Sdes.encode_chunk. rewrite u8_id by (unfold is_u8; lia).
  do 3 runs_step. eapply runs_write; [reflexivity|].
  change (0 + Z.of_nat 4 + Z.of_nat 1 + Z.of_nat 1 + zlen (Sdes.cname c)) with (6 + zlen (Sdes.cname c)).
  apply runs_add. cbv zeta.
  replace (4 - (6 + length (Sdes.cname c)) mod 4)%nat
    with (Z.to_nat (4 - (6 + zlen (Sdes.cname c)) mod 4)).
  2: { pose proof (Nat.mod_upper_bound (6 + length (Sdes.cname c)) 4). 
       replace (6 + zlen (Sdes.cname c)) with (Z.of_nat (6 + length (Sdes.cname c))) by lia.
       change 4 with (Z.of_nat 4) at 2. rewrite <- Nat2Z.inj_mod. lia. }
  apply runs_write_last_n. rewrite length_replicate. dlia.
Qed.

Lemma Sdes_Create_spec p max_length callback st :
  Sdes.wf p -> 0 <= windex st <= zlen (wbuf st) ->
  Sdes.Create p max_length callback st =
  create_result (standard_encode (fun p => zlen (Sdes.chunks_ p)) Sdes.body p)
    max_length callback st.
Proof.
  intros (Hn & Hf & Hl) Hi. pose proof (Sdes_length_body p) as Hb.
  destruct (chunks_size_bound _ Hf) as [Hr Hm].
  apply create_with_result; [|rewrite length_standard_encode, Hb; by unfold Sdes.BlockLength|
    unfold Sdes.BlockLength; lia|done].
  apply runs_packet; [lia|done|unfold Sdes.BlockLength; lia|by rewrite Hb|lia|].
  apply runs_for_each. intros c Hc. rewrite List.Forall_forall in Hf.
  apply runs_chunk, (Hf c Hc).
Qed.

(** Reading the items of one encoded chunk. *)
Lemma parse_items_encode fuel a c rest payload_end :
  Sdes.chunk_ok c -> zlen a + Sdes.ChunkSize c <= payload_end ->
  Sdes.parse_items (S (S fuel)) (a ++ Sdes.encode_chunk c ++ rest) payload_end (zlen a + 4) None =
  Some (Some (Some (Sdes.cname c), zlen a + 7 + zlen (Sdes.cname c))).
Proof.
  intros (_ & Hl & Hb) Hend. unfold Sdes.ChunkSize in Hend.
  set (n := zlen (Sdes.cname c)) in *.
  assert (Hpk : forall k, 0 <= k -> peek (a ++ Sdes.encode_chunk c ++ rest) (zlen a + k) =
                          peek (Sdes.encode_chunk c ++ rest) k).
  { intros k Hk. rewrite peek_app_skip by lia. by rewrite Z.add_simpl_l. }
  assert (Hc : Sdes.encode_chunk c ++ rest =
    be_bytes 4 (Sdes.ssrc c) ++ be_bytes 1 1 ++ be_bytes 1 n ++ Sdes.cname c ++
    replicate (4 - (6 + length (Sdes.cname c)) mod 4) 0 ++ rest).
  { unfold Sdes.encode_chunk. by rewrite <- !app_assoc. }
  cbn [Sdes.parse_items]. rewrite Hpk, Hc by lia. read_step. read_step.
  change (1 =? Sdes.kTerminatorTag) with false. cbv iota. rewrite Z.geb_leb.
  rewrite (proj2 (Z.leb_gt _ _)) by dlia.
  replace (zlen a + 4 + 1) with (zlen a + 5) by lia. rewrite <- Hc, Hpk, Hc by lia.
  do 3 read_step. rewrite Z.gtb_ltb. rewrite (proj2 (Z.ltb_ge _ _)) by dlia.
  change (1 =? Sdes.kCnameTag) with true. cbv iota.
  rewrite (load_app_skip a) by lia. rewrite !(load_app_skip (be_bytes _ _))
    by (rewrite ?length_be_bytes; lia). rewrite !length_be_bytes.
  replace (zlen a + 5 + 1 - zlen a - Z.of_nat 4 - Z.of_nat 1 - Z.of_nat 1) with 0 by lia.
  rewrite load_app_here by lia. cbn [mbind option_bind].
  replace (zlen a + 5 + 1 + n) with (zlen a + (6 + n)) by lia. rewrite <- Hc, Hpk by lia.
  assert (Hterm : peek (Sdes.encode_chunk c ++ rest) (6 + n) = Some 0).
  { rewrite Hc, !peek_skip by lia. rewrite peek_app_skip by (unfold n; lia). fold n.
    replace (6 + n - Z.of_nat 4 - Z.of_nat 1 - Z.of_nat 1 - n) with 0 by lia.
    pose proof (Nat.mod_upper_bound (6 + length (Sdes.cname c)) 4).
    by destruct (4 - (6 + length (Sdes.cname c)) mod 4)%nat eqn:E; [lia|]. }
  rewrite Hterm. cbn [mbind option_bind]. change (0 =? Sdes.kTerminatorTag) with true.
  cbv iota. do 3 f_equal. lia.
Qed.

(** One encoded chunk is one step of the loop. *)
Lemma parse_chunks_encode todo a c rest payload_end chunks bl :
  Sdes.chunk_ok c -> zlen a + Sdes.ChunkSize c <= payload_end ->
  (payload_end - zlen a - Sdes.ChunkSize c) mod 4 = 0 ->
  Sdes.parse_chunks (S todo) (a ++ Sdes.encode_chunk c ++ rest) payload_end (zlen a) chunks bl =
  Sdes.parse_chunks todo ((a ++ Sdes.encode_chunk c) ++ rest) payload_end
    (zlen (a ++ Sdes.encode_chunk c)) (chunks ++ [c]) (bl + Sdes.ChunkSize c).
Proof.
  intros Hok Hend Hmod. pose proof Hok as (Hs & Hl & Hb).
  destruct (ChunkSize_bound c Hl) as [Hsz Hm]. cbn [Sdes.parse_chunks]. ltb_false.
  rewrite read_be_app_skip by lia. rewrite Z.sub_diag.
  replace (read_u32 (Sdes.encode_chunk c ++ rest) 0) with (Some (Sdes.ssrc c)).
  2: { symmetry. unfold Sdes.encode_chunk. rewrite <- !app_assoc. by apply read_u32_here. }
  cbn [mbind option_bind].
  replace (S (Z.to_nat payload_end)) with (S (S (Z.to_nat payload_end - 1))) by lia.
  rewrite parse_items_encode by done. cbn [mbind option_bind].
  rewrite length_app, Nat2Z.inj_add, length_encode_chunk, <- app_assoc.
  replace (zlen a + 7 + zlen (Sdes.cname c) + (payload_end - (zlen a + 7 + zlen (Sdes.cname c))) mod 4)
    with (zlen a + Sdes.ChunkSize c); [by destruct c|].
  unfold Sdes.ChunkSize in *. dlia.
Qed.

Lemma parse_chunks_all l a rest chunks bl payload_end :
  Forall Sdes.chunk_ok l -> zlen a + Sdes.chunks_size l = payload_end ->
  Sdes.parse_chunks (length l) (a ++ concat (map Sdes.encode_chunk l) ++ rest) payload_end
    (zlen a) chunks bl = Some (Some (chunks ++ l, bl + Sdes.chunks_size l)).
Proof.
  revert a chunks bl. induction l as [|c l IH]; intros a chunks bl Hf Hend.
  - cbn. by rewrite app_nil_r, Z.add_0_r.
  - apply Forall_cons_iff in Hf as [Hc Hf]. destruct (chunks_size_bound l Hf) as [Hr Hm].
    unfold Sdes.chunks_size in Hend. cbn [map foldr] in Hend. fold (Sdes.chunks_size l) in Hend.
    cbn [map concat length]. rewrite <- app_assoc, parse_chunks_encode; [|done|lia|].
    + rewrite IH; [|done|rewrite length_app, Nat2Z.inj_add, length_encode_chunk; lia].
      rewrite <- app_assoc. unfold Sdes.chunks_size. cbn [map foldr app]. do 3 f_equal. lia.
    + replace (payload_end - zlen a - Sdes.ChunkSize c) with (Sdes.chunks_size l) by lia. done.
Qed.

Lemma Sdes_parse_body p this rest : Sdes.wf p ->
  Sdes.Parse this
    (CommonHeader.Mk Sdes.kPacketType (zlen (Sdes.chunks_ p)) 0 (zlen (Sdes.body p))
       (Sdes.body p ++ rest)) = Some (p, true).
Proof.
  intros (Hn & Hf & Hl). unfold Sdes.Parse. header_simpl. check_step.
  rewrite Sdes_length_body, Nat2Z.id. unfold Sdes.body.
  rewrite (parse_chunks_all (Sdes.chunks_ p) [] rest [] kHeaderLength) by done.
  cbn [mbind option_bind app]. unfold kHeaderLength. rewrite <- Hl. by destruct p.
Qed.

(** The item loop stays inside the payload, terminates and bounds the name. *)
Lemma parse_items_safe fuel p payload_end pos found :
  is_bytes p -> payload_end <= zlen p -> 0 <= pos < payload_end ->
  payload_end - pos <= Z.of_nat fuel ->
  (forall n, found = Some n -> is_bytes n /\ zlen n <= 255) ->
  exists r, Sdes.parse_items fuel p payload_end pos found = Some r /\
    forall f pos', r = Some (f, pos') -> pos < pos' <= payload_end /\
      forall n, f = Some n -> is_bytes n /\ zlen n <= 255.
Proof.
  intros Hp Hend. revert pos found. induction fuel as [|fuel IH]; intros pos found Hpos Hfuel Hfound;
    [lia|]. cbn [Sdes.parse_items].
  destruct (peek_u8_Some p pos) as (ty & -> & Hty); [done|lia|]. cbn [mbind option_bind].
  destruct (ty =? Sdes.kTerminatorTag).
  { eexists. split; [done|]. intros f pos' [= <- <-]. split; [lia|done]. }
  rewrite Z.geb_leb. destruct (Z.leb_spec payload_end (pos + 1)); [by exists None|].
  destruct (peek_u8_Some p (pos + 1)) as (len & -> & Hlen); [done|lia|]. unfold is_u8 in *.
  cbn [mbind option_bind]. rewrite Z.gtb_ltb.
  destruct (Z.ltb_spec payload_end (pos + 1 + 1 + len + 1)); [by exists None|].
  destruct (ty =? Sdes.kCnameTag); [destruct found as [n0|]; [by exists None|]|].
  - destruct (load_safe p (pos + 1 + 1) (Z.to_nat len)) as (text & -> & Ht & Htl); [done|lia|lia|].
    cbn [mbind option_bind].
    destruct (IH (pos + 1 + 1 + len) (Some text)) as (r & -> & Hr); [lia|lia|intros n [= <-]; split; [done|lia]|].
    exists r. split; [done|]. intros f pos' E. destruct (Hr f pos' E) as [? ?]. split; [lia|done].
  - destruct (IH (pos + 1 + 1 + len) found) as (r & -> & Hr); [lia|lia|done|].
    exists r. split; [done|]. intros f pos' E. destruct (Hr f pos' E) as [? ?]. split; [lia|done].
Qed.

Lemma parse_chunks_safe todo p payload_end pos chunks bl :
  is_bytes p -> payload_end <= zlen p -> 0 <= pos ->
  Forall Sdes.chunk_ok chunks -> bl = 4 + Sdes.chunks_size chunks ->
  exists r, Sdes.parse_chunks todo p payload_end pos chunks bl = Some r /\
    forall chunks' bl', r = Some (chunks', bl') ->
      (length chunks' <= length chunks + todo)%nat /\ Forall Sdes.chunk_ok chunks' /\
      bl' = 4 + Sdes.chunks_size chunks'.
Proof.
  intros Hp Hend. revert pos chunks bl. induction todo as [|todo IH]; intros pos chunks bl Hpos Hok Hbl.
  - eexists. split; [done|]. intros c b [= <- <-]. split; [lia|done].
  - cbn [Sdes.parse_chunks]. destruct (Z.ltb_spec (payload_end - pos) 8); [by exists None|].
    safe_step.
    destruct (parse_items_safe (S (Z.to_nat payload_end)) p payload_end (pos + 4) None)
      as (r & -> & Hr); [done|done|lia|lia|done|]. cbn [mbind option_bind].
    destruct r as [[f pos']|]; [|by exists None].
    destruct (Hr f pos' eq_refl) as [Hpos' Hf]. pose proof (Z.mod_pos_bound (payload_end - pos') 4).
    destruct f as [n|].
    + destruct (Hf n eq_refl) as [Hn Hn'].
      destruct (IH (pos' + (payload_end - pos') mod 4) (chunks ++ [Sdes.MkChunk v n])
        (bl + Sdes.ChunkSize (Sdes.MkChunk v n))) as (r & -> & Hr'); [lia| | |].
      * apply Forall_app. split; [done|]. constructor; [|constructor]. split; [done|]. by split.
      * rewrite chunks_size_app, Hbl. unfold Sdes.chunks_size. cbn. lia.
      * exists r. split; [done|]. intros c b E. destruct (Hr' c b E) as (Hl & ? & ?).
        rewrite length_app in Hl. cbn in Hl. split; [lia|done].
    + destruct (IH (pos' + (payload_end - pos') mod 4) chunks bl) as (r & -> & Hr'); [lia|done|done|].
      exists r. split; [done|]. intros c b E. destruct (Hr' c b E) as (Hl & ? & ?). split; [lia|done].
Qed.

Lemma Sdes_Parse_safe p h :
  CommonHeader.valid h -> CommonHeader.type h = Sdes.kPacketType ->
  exists p' b, Sdes.Parse p h = Some (p', b) /\ (b = true -> Sdes.wf p').
Proof.
  intros [_ Hc Hpad Hs Hb Hfit Hw _] Ht. unfold Sdes.Parse. rewrite Ht, check_then by done.
  header_simpl. unfold is_u8 in *.
  destruct (parse_chunks_safe (Z.to_nat (CommonHeader.count_or_format_ h)) (CommonHeader.payload_ h)
    (CommonHeader.payload_size_ h) 0 [] kHeaderLength) as (r & -> & Hr); [done|lia|lia|constructor|done|].
  cbn [mbind option_bind]. destruct r as [[chunks bl]|]; [|by eexists _, false].
  destruct (Hr chunks bl eq_refl) as (Hl & Hok & Hbl). eexists _, true. split; [done|]. intros _.
  split; [cbn in *; lia|done].
Qed.

Lemma Sdes_standard :
  standard Sdes.wf Sdes.wf (fun p => zlen (Sdes.chunks_ p)) Sdes.body (fun p => p).
Proof.
  constructor; try done; intros p.
  - intros (Hn & _). lia.
  - intros (Hn & Hf & _). rewrite Sdes_length_body. apply (chunks_size_bound _ Hf).
  - intros (Hn & Hf & _). rewrite Sdes_length_body. destruct (chunks_size_bound _ Hf). lia.
  - intros (Hn & Hf & Hl). rewrite Sdes_length_body. done.
  - intros m cb st Hp Hi Hm Hb _. rewrite <- create_result_append with (max_length := m) (callback := cb) by done.
    apply Sdes_Create_spec; [done|lia].
  - intros rest. apply Sdes_parse_body.
  - intros h Hv Ht _. destruct (Sdes_Parse_safe p h Hv Ht) as (p' & b & E & Hi). by exists p', b.
Qed.

#[global] Instance Sdes_laws : RtcpCodecLaws Sdes.t := standard_laws _ _ _ _ _ Sdes_standard.

(** ** Properties *)

Section properties.
Context `{RtcNumericsLaws}.

(** BYE and APP round trips.  A BYE with up to 30 CSRCs and a reason of up to 255
    octets, padded to a whole word, and an APP with its data of whole words are written
    at the index as BlockLength octets and parse back to the same object. *)
Theorem bye_app_roundtrip (bye : Bye.t) (app : App.t) max_length callback st :
  0 <= windex st -> max_length <= zlen (wbuf st) -> max_length < 2 ^ 64 ->
  Bye.wf bye -> App.wf app ->
  windex st + Bye.BlockLength bye <= max_length -> windex st + App.BlockLength app <= max_length ->
  roundtrips (Bye.Create bye max_length callback) (Bye.Parse Bye.new) (Bye.BlockLength bye) bye st /\
  roundtrips (App.Create app max_length callback) (App.Parse App.new) (App.BlockLength app) app st /\
  Bye.BlockLength bye mod 4 = 0.
Proof.
  intros Hi Hb H64 Hbye Happ Hmb Hma. splits.
  - exact (codec_roundtrip bye max_length callback st Hbye Hi Hmb Hb H64).
  - exact (codec_roundtrip app max_length callback st Happ Hi Hma Hb H64).
  - apply (Bye_length_bound bye Hbye).
Qed.

(** Adding a list of CNAMEs one by one; the flag tells whether all were accepted. *)
Definition add_cnames (this : Sdes.t) (cnames : list Sdes.Chunk) : option (Sdes.t * bool) :=
  fold_left (fun acc c =>
    '(sdes, ok) ← acc;
    '(sdes, added) ← Sdes.AddCName sdes (Sdes.ssrc c) (Sdes.cname c);
    Some (sdes, ok && added)) cnames (Some (this, true)).

Lemma add_cnames_spec cnames : forall this,
  Forall Sdes.chunk_ok cnames -> zlen (Sdes.chunks_ this) + zlen cnames <= 31 ->
  add_cnames this cnames =
  Some (Sdes.Mk (Sdes.chunks_ this ++ cnames) (Sdes.block_length_ this + Sdes.chunks_size cnames), true).
Proof.
  unfold add_cnames. induction cnames as [|c cnames IH]; intros this Hc Hl; cbn [fold_left].
  - destruct this. cbn. by rewrite app_nil_r, Z.add_0_r.
  - apply list.Forall_cons in Hc as [Hc1 Hc]. cbn [length] in Hl.
    cbn [mbind option_bind]. unfold Sdes.AddCName at 2. destruct Hc1 as (_ & Hc1 & _).
    rewrite (proj2 (Z.leb_le _ _) Hc1), Z.geb_leb. cbn [check mbind option_bind].
    unfold Sdes.kMaxNumberOfChunks. destruct (Z.leb_spec 0x1f (zlen (Sdes.chunks_ this))); [lia|].
    cbn [mbind option_bind andb]. rewrite IH; [|done|cbn; rewrite length_app; cbn; lia].
    cbn [Sdes.chunks_ Sdes.block_length_]. rewrite <- app_assoc.
    replace (Sdes.MkChunk (Sdes.ssrc c) (Sdes.cname c)) with c by (by destruct c).
    cbn [app]. do 3 f_equal. unfold Sdes.chunks_size. cbn [map foldr]. lia.
Qed.

(** SDES round trip.  Up to 31 CNAMEs of up to 255 octets are accepted by AddCName
    (the thirty-second is refused and changes nothing), the running block length is the
    number of octets Create writes, terminators and padding included, and Parse recovers
    the SSRCs and CNAMEs in order. *)
Theorem sdes_roundtrip cnames ssrc cname max_length callback st :
  Forall Sdes.chunk_ok cnames -> zlen cnames <= 31 -> zlen cname <= 255 ->
  0 <= windex st -> windex st + (4 + Sdes.chunks_size cnames) <= max_length ->
  max_length <= zlen (wbuf st) -> max_length < 2 ^ 64 ->
  exists p,
    add_cnames Sdes.new cnames = Some (p, true) /\ Sdes.chunks_ p = cnames /\
    Sdes.BlockLength p = 4 + Sdes.chunks_size cnames /\
    roundtrips (Sdes.Create p max_length callback) (Sdes.Parse Sdes.new) (Sdes.BlockLength p) p st /\
    (zlen cnames = 31 -> Sdes.AddCName p ssrc cname = Some (p, false)).
Proof.
  intros Hc Hl Hn Hi Hm Hb H64. rewrite add_cnames_spec by done. eexists. split; [reflexivity|].
  cbn [Sdes.chunks_ Sdes.new app Sdes.block_length_]. splits; [done|done| |].
  - refine (codec_roundtrip (Sdes.Mk cnames (4 + Sdes.chunks_size cnames)) max_length callback st _ Hi Hm Hb H64).
    cbn. by splits.
  - intros E. unfold Sdes.AddCName. rewrite (proj2 (Z.leb_le _ _) Hn). cbn [check mbind option_bind].
    cbn [Sdes.chunks_]. by rewrite E.
Qed.

End properties.

Lemma bye_app_roundtrip_witness :
  let bye := Bye.Mk 7 [8; 9] [98; 121; 101] in
  roundtrips (Bye.Create bye 40 false) (Bye.Parse Bye.new) 20 bye (WState (replicate 40 5) 4 []).
Proof.
  apply (bye_app_roundtrip (Bye.Mk 7 [8; 9] [98; 121; 101]) (App.Mk 1 2 3 [4; 5; 6; 7]) 40 false
    (WState (replicate 40 5) 4 [])); decide_wf.
Defined.

Lemma sdes_roundtrip_witness :
  exists p, add_cnames Sdes.new [Sdes.MkChunk 7 [99; 64]; Sdes.MkChunk 8 []] = Some (p, true) /\
    roundtrips (Sdes.Create p 40 false) (Sdes.Parse Sdes.new) (Sdes.BlockLength p) p
      (WState (replicate 40 5) 4 []).
Proof.
  destruct (sdes_roundtrip [Sdes.MkChunk 7 [99; 64]; Sdes.MkChunk 8 []] 0 [] 40 false
    (WState (replicate 40 5) 4 [])) as (p & E & _ & _ & R & _); [decide_wf..|].
  exists p. split; [exact E|exact R].
Defined.
