(* ===== verification/RtcpEstimate.v ===== *)
(** * Remote network estimate: rtcp_packet/remote_estimate.{h,cc}

    An App packet named goog whose data is a sequence of four octet fields.  The
    classes DataRate and NetworkStateEstimate are declared outside the repository:
    a rate is a parameter with the operations the serializer calls, an estimate is
    the record of the two members it uses. *)

From S2P Require Import Prelude ByteIo Buffers RtcpCore RtcpMisc.

(** ** DataRate: a parameter *)

Class DataRate (rate : Type) := {
  PlusInfinity : rate;
  IsPlusInfinity : rate -> bool;
  IsMinusInfinity : rate -> bool;
  times_kbps : Z -> rate;          (* KilobitsPerSec(1) * scaled *)
  div_kbps : rate -> Z             (* value / KilobitsPerSec(1), as an int64_t *)
}.

Class DataRateLaws (rate : Type) {ops : DataRate rate} := {
  IsPlusInfinity_true r : IsPlusInfinity r = true <-> r = PlusInfinity;
  IsMinusInfinity_PlusInfinity : IsMinusInfinity PlusInfinity = false;
  div_times n : 0 <= n < 2 ^ 24 -> div_kbps (times_kbps n) = n;
  times_finite n : 0 <= n < 2 ^ 24 ->
    IsPlusInfinity (times_kbps n) = false /\ IsMinusInfinity (times_kbps n) = false
}.

(** Bits per second with two infinities, for concrete runs. *)
Inductive bits_per_second := MinusInf | Bps (n : Z) | PlusInf.

#[global] Instance bits_per_second_ops : DataRate bits_per_second := {|
  PlusInfinity := PlusInf;
  IsPlusInfinity := fun r => match r with PlusInf => true | _ => false end;
  IsMinusInfinity := fun r => match r with MinusInf => true | _ => false end;
  times_kbps := fun n => Bps (n * 1000);
  div_kbps := fun r => match r with Bps n => Z.quot n 1000 | _ => 0 end
|}.

#[global] Instance bits_per_second_laws : DataRateLaws bits_per_second.
Proof.
  constructor; cbn; try done.
  - by intros [].
  - intros n Hn. by rewrite Z.quot_mul.
Qed.

Module RemoteEstimate.

Section rate.
Context {rate : Type} `{DataRate rate}.

Record NetworkStateEstimate := Estimate {
  link_capacity_lower : rate;
  link_capacity_upper : rate
}.

Definition kFieldValueSize : Z := 3.
Definition kFieldSize : Z := 1 + kFieldValueSize.
Definition kMaxEncoded : Z := Z.shiftl 1 (kFieldValueSize * 8) - 1.
Definition kSubType : Z := 13.
Definition kName : Z := Z.lor (Z.lor (Z.lor (Z.shiftl 103 24) (Z.shiftl 111 16)) (Z.shiftl 111 8)) 103.

(** DataRateSerializer: an identifier and the member it refers to. *)
Record DataRateSerializer := Serializer {
  id_ : Z;
  field_get : NetworkStateEstimate -> rate;
  field_set : rate -> NetworkStateEstimate -> NetworkStateEstimate
}.

(** DataRateSerializer::Read(src, target). *)
Definition Read (f : DataRateSerializer) (src : bytes) (off : Z) (target : NetworkStateEstimate)
  : option NetworkStateEstimate :=
  scaled ← read_u24 src off;
  Some (field_set f (if scaled =? kMaxEncoded then PlusInfinity else times_kbps scaled) target).

(** The value DataRateSerializer::Write stores. *)
Definition scaled_value (value : rate) : Z :=
  if IsPlusInfinity value then kMaxEncoded
  else let scaled := div_kbps value in
       if scaled >=? kMaxEncoded then kMaxEncoded else scaled.

(** DataRateSerializer::Write(src, target). *)
Definition Write (f : DataRateSerializer) (src : NetworkStateEstimate) (buf : bytes) (off : Z)
  : option (bytes * bool) :=
  let value := field_get f src in
  if IsMinusInfinity value then Some (buf, false) else
  buf ← put buf off (ByteWriter.WriteBigEndian 1 (id_ f));
  buf ← put buf (off + 1) (ByteWriter.WriteBigEndian 3 (scaled_value value));
  Some (buf, true).

(** GetRemoteEstimateSerializer(). *)
Definition fields_ : list DataRateSerializer :=
  [Serializer 1 link_capacity_lower (fun r e => Estimate r (link_capacity_upper e));
   Serializer 2 link_capacity_upper (fun r e => Estimate (link_capacity_lower e) r)].

Fixpoint serialize_loop (fields : list DataRateSerializer) (src : NetworkStateEstimate)
    (buf : bytes) (size : Z) : option (bytes * Z) :=
  match fields with
  | [] => Some (buf, size)
  | f :: rest =>
      '(buf, written) ← Write f src buf size;
      serialize_loop rest src buf (if written : bool then size + kFieldSize else size)
  end.

(** RemoteEstimateSerializerImpl::Serialize; the fresh buffer is not initialised,
    [garbage] is what it holds. *)
Definition Serialize (garbage : Z) (src : NetworkStateEstimate) : option bytes :=
  let max_size := zlen fields_ * kFieldSize in
  '(buf, size) ← serialize_loop fields_ src (replicate (Z.to_nat max_size) garbage) 0;
  Some (take (Z.to_nat size) buf).

(** The inner loop of Parse: the first field with the identifier is read. *)
Fixpoint read_field (fields : list DataRateSerializer) (field_id : Z) (src : bytes) (off : Z)
    (target : NetworkStateEstimate) : option NetworkStateEstimate :=
  match fields with
  | [] => Some target
  | f :: rest =>
      if id_ f =? field_id then Read f src off target
      else read_field rest field_id src off target
  end.

(** The outer loop of Parse, over the pointers data_ptr < src.end(). *)
Fixpoint parse_loop (fuel : nat) (src : bytes) (data_ptr : Z) (target : NetworkStateEstimate)
  : option NetworkStateEstimate :=
  if data_ptr <? zlen src then
    match fuel with
    | O => None
    | S fuel' =>
        field_id ← peek src data_ptr;
        target ← read_field fields_ field_id src (data_ptr + 1) target;
        parse_loop fuel' src (data_ptr + kFieldSize) target
    end
  else Some target.

(** RemoteEstimateSerializerImpl::Parse. *)
Definition Parse (src : bytes) (target : NetworkStateEstimate)
  : option (NetworkStateEstimate * bool) :=
  if negb (zlen src mod kFieldSize =? 0) then Some (target, false) else
  target ← parse_loop (length src) src 0 target;
  Some (target, true).

Record t := Mk { app : App.t; estimate_ : NetworkStateEstimate }.

(** RemoteEstimate(); [e] is the default constructed estimate. *)
Definition new (e : NetworkStateEstimate) : option t :=
  app ← App.SetSubType App.new kSubType;
  let app := App.SetName app kName in
  Some (Mk (App.Mk 0 (App.sub_type_ app) (App.name_ app) (App.data_ app)) e).

Definition of_app (app : App.t) (e : NetworkStateEstimate) : t := Mk app e.

Definition ParseData (this : t) : option (t * bool) :=
  '(e, ok) ← Parse (App.data_ (app this)) (estimate_ this);
  Some (Mk (app this) e, ok).

Definition SetEstimate (garbage : Z) (this : t) (estimate : NetworkStateEstimate) : option t :=
  buf ← Serialize garbage estimate;
  app ← App.SetData (app this) buf;
  Some (Mk app estimate).

(** ** Specification *)

(** The octets of one member. *)
Definition field_bytes (id : Z) (value : rate) : bytes :=
  if IsMinusInfinity value then [] else id :: be_bytes 3 (scaled_value value).

(** What a member becomes: nothing is sent for minus infinity, rates are cut to
    kilobits and saturate to plus infinity. *)
Definition received_rate (old value : rate) : rate :=
  if IsMinusInfinity value then old
  else if scaled_value value =? kMaxEncoded then PlusInfinity
  else times_kbps (scaled_value value).

Definition received (old e : NetworkStateEstimate) : NetworkStateEstimate :=
  Estimate (received_rate (link_capacity_lower old) (link_capacity_lower e))
           (received_rate (link_capacity_upper old) (link_capacity_upper e)).

Definition encodable (value : rate) : Prop :=
  IsMinusInfinity value = true \/ IsPlusInfinity value = true \/ 0 <= div_kbps value.

End rate.

Arguments NetworkStateEstimate : clear implicits.
Arguments t : clear implicits.

End RemoteEstimate.

Section rate.
Context {rate : Type} `{DataRate rate}.
Import RemoteEstimate.

Lemma scaled_value_range (v : rate) : IsMinusInfinity v = false -> encodable v ->
  0 <= scaled_value v < 16777216.
Proof.
  unfold encodable, scaled_value. change kMaxEncoded with 16777215. intros Hm Hv.
  destruct (IsPlusInfinity v); [lia|]. destruct Hv as [Hv|[Hv|Hv]]; [congruence|done|].
  rewrite Z.geb_leb. destruct (Z.leb_spec 16777215 (div_kbps v)); lia.
Qed.

Lemma Write_spec f (src : NetworkStateEstimate rate) buf off :
  is_u8 (id_ f) -> 0 <= off -> off + 4 <= zlen buf ->
  Write f src buf off =
  match put buf off (field_bytes (id_ f) (field_get f src)) with
  | Some b => Some (b, negb (IsMinusInfinity (field_get f src)))
  | None => None
  end.
Proof.
  intros Hid Ho Hl. unfold Write, field_bytes. cbv zeta.
  destruct (IsMinusInfinity (field_get f src)); [by rewrite put_nil by lia|].
  rewrite !WriteBigEndian_spec, (be_bytes_1 (id_ f)) by done.
  set (y := be_bytes 3 (scaled_value (field_get f src))). change (id_ f :: y) with ([id_ f] ++ y).
  rewrite <- (put_put buf off [id_ f] y (off + 1)) by done.
  destruct (put buf off [id_ f]) as [b|]; cbn [mbind option_bind]; [|done]. by destruct (put b (off + 1) y).
Qed.

Lemma Serialize_spec garbage (e : NetworkStateEstimate rate) :
  Serialize garbage e =
  Some (field_bytes 1 (link_capacity_lower e) ++ field_bytes 2 (link_capacity_upper e)).
Proof.
  unfold Serialize. change (zlen (@fields_ rate) * kFieldSize) with 8. cbn [fields_ serialize_loop].
  set (buf := replicate (Z.to_nat 8) garbage).
  assert (Hbuf : zlen buf = 8) by (unfold buf; rewrite length_replicate; done).
  rewrite Write_spec by (done || cbn; lia). cbn [id_ field_get].
  set (x := field_bytes 1 (link_capacity_lower e)). set (y := field_bytes 2 (link_capacity_upper e)).
  assert (Hx : zlen x = if IsMinusInfinity (link_capacity_lower e) then 0 else 4)
    by (unfold x, field_bytes; destruct (IsMinusInfinity (link_capacity_lower e)); done).
  assert (Hy : zlen y = if IsMinusInfinity (link_capacity_upper e) then 0 else 4)
    by (unfold y, field_bytes; destruct (IsMinusInfinity (link_capacity_upper e)); done).
  assert (Hxl : zlen x <= 4) by (destruct (IsMinusInfinity (link_capacity_lower e)); lia).
  assert (Hyl : zlen y <= 4) by (destruct (IsMinusInfinity (link_capacity_upper e)); lia).
  destruct (put_Some buf 0 x) as [b Hb]; [lia|lia|]. rewrite Hb. cbn [mbind option_bind].
  change (0 + kFieldSize) with 4.
  assert (E : (if negb (IsMinusInfinity (link_capacity_lower e)) then 4 else 0) = zlen x)
    by (rewrite Hx; by destruct (IsMinusInfinity (link_capacity_lower e))).
  rewrite E, Write_spec by (done || (rewrite ?(put_length _ _ _ _ Hb); cbn; lia)).
  cbn [id_ field_get]. fold y.
  pose proof (put_put buf 0 x y (zlen x) eq_refl) as Hpp. rewrite Hb in Hpp. cbn [mbind option_bind] in Hpp.
  rewrite Hpp. destruct (put_split buf 0 (x ++ y)) as (b2 & Hb2 & Hl2 & _ & Hd2);
    [lia|rewrite length_app; lia|]. rewrite Hb2. cbn [mbind option_bind]. f_equal.
  assert (E2 : (if negb (IsMinusInfinity (link_capacity_upper e)) then zlen x + kFieldSize else zlen x) =
    zlen (x ++ y)).
  { rewrite length_app, Nat2Z.inj_add, Hy. unfold kFieldSize, kFieldValueSize.
    destruct (IsMinusInfinity (link_capacity_upper e)); cbn [negb]; lia. }
  rewrite E2, Nat2Z.id. change (drop (Z.to_nat 0) b2) with b2 in Hd2. rewrite Hd2.
  by rewrite take_app_length.
Qed.

(** The loop of Parse skips what lies before the pointer. *)
Lemma parse_loop_skip fuel : forall pre src off (target : NetworkStateEstimate rate), 0 <= off ->
  parse_loop fuel (pre ++ src) (zlen pre + off) target = parse_loop fuel src off target.
Proof.
  induction fuel as [|fuel IH]; intros pre src off target Ho; cbn [parse_loop];
    rewrite length_app, Nat2Z.inj_add;
    replace (zlen pre + off <? zlen pre + zlen src) with (off <? zlen src)
      by (destruct (Z.ltb_spec off (zlen src)), (Z.ltb_spec (zlen pre + off) (zlen pre + zlen src)); lia);
    [done|].
  destruct (off <? zlen src); [|done]. rewrite peek_app_at by done.
  destruct (peek src off) as [id|]; [|done]. cbn [mbind option_bind].
  assert (E : read_field fields_ id (pre ++ src) (zlen pre + off + 1) target =
              read_field fields_ id src (off + 1) target).
  { rewrite <- Z.add_assoc. cbn [fields_ read_field]. unfold Read.
    by rewrite !read_be_app_at by lia. }
  rewrite E. destruct (read_field fields_ id src (off + 1) target) as [t'|]; [|done].
  cbn [mbind option_bind]. rewrite <- Z.add_assoc. apply IH. unfold kFieldSize, kFieldValueSize. lia.
Qed.

(** One field at the head. *)
Lemma parse_field fuel id f (target : NetworkStateEstimate rate) v rest :
  is_u8 id -> encodable v -> In f fields_ -> id_ f = id -> (1 <= fuel)%nat ->
  parse_loop fuel (field_bytes id v ++ rest) 0 target =
  parse_loop (if IsMinusInfinity v then fuel else pred fuel) rest 0
    (if IsMinusInfinity v then target
     else field_set f (if scaled_value v =? kMaxEncoded then PlusInfinity
                       else times_kbps (scaled_value v)) target).
Proof.
  intros Hid Hv Hin Hf Hfuel. unfold field_bytes. destruct (IsMinusInfinity v) eqn:Em; [done|].
  pose proof (scaled_value_range v Em Hv) as Hs. destruct fuel as [|fuel]; [lia|]. cbn [pred].
  change ((id :: be_bytes 3 (scaled_value v)) ++ rest) with (id :: be_bytes 3 (scaled_value v) ++ rest).
  cbn [parse_loop]. rewrite (proj2 (Z.ltb_lt _ _)) by (cbn [length]; lia).
  rewrite peek_app_here. cbn [mbind option_bind].
  assert (E : read_field fields_ id (id :: be_bytes 3 (scaled_value v) ++ rest) (0 + 1) target =
    Some (field_set f (if scaled_value v =? kMaxEncoded then PlusInfinity
                       else times_kbps (scaled_value v)) target)).
  { cbn [fields_ read_field id_]. unfold Read.
    change (id :: ?x) with ([id] ++ x).
    rewrite (read_be_app_skip _ _ [id]) by (cbn; lia). change (0 + 1 - zlen [id]) with 0.
    rewrite read_u24_here by done. cbn [mbind option_bind].
    destruct Hin as [<-|[<-|[]]]; cbn [id_] in Hf; subst id; done. }
  rewrite E. cbn [mbind option_bind].
  change (0 + kFieldSize) with (zlen (id :: be_bytes 3 (scaled_value v)) + 0).
  change (id :: be_bytes 3 (scaled_value v) ++ rest) with ((id :: be_bytes 3 (scaled_value v)) ++ rest).
  by apply parse_loop_skip.
Qed.

(** Parse never reads outside its data. *)
Lemma parse_loop_safe src : is_bytes src -> forall fuel off (target : NetworkStateEstimate rate),
  0 <= off -> (zlen src - off) mod 4 = 0 -> zlen src - off <= 4 * Z.of_nat fuel ->
  is_Some (parse_loop fuel src off target).
Proof.
  intros Hb. induction fuel as [|fuel IH]; intros off target Ho Hm Hf; cbn [parse_loop];
    destruct (Z.ltb_spec off (zlen src)); try (by eexists); [lia|].
  destruct (peek_u8_Some src off) as (id & -> & _); [done|lia|]. cbn [mbind option_bind].
  destruct (read_u24_Some src (off + 1)) as (v & Ev & _); [done|lia|dlia|].
  assert (E : is_Some (read_field fields_ id src (off + 1) target)).
  { cbn [fields_ read_field]. unfold Read. rewrite Ev. cbn [mbind option_bind].
    destruct (_ =? id); [by eexists|]. destruct (_ =? id); by eexists. }
  destruct E as [t' ->]. cbn [mbind option_bind]. unfold kFieldSize, kFieldValueSize.
  apply IH; [lia|dlia|lia].
Qed.

(** A remote estimate survives the wire: whatever the fresh buffer held,
    SetEstimate produces data that ParseData of a fresh object accepts, cutting each
    rate to whole kilobits, saturating to plus infinity and leaving a member at minus
    infinity as it was; and ParseData accepts exactly the data whose length is a
    multiple of four, without reading outside it. *)
Theorem remote_estimate_roundtrip (garbage : Z) (this : RemoteEstimate.t rate)
    (e old : NetworkStateEstimate rate) :
  encodable (link_capacity_lower e) -> encodable (link_capacity_upper e) ->
  (exists r, SetEstimate garbage this e = Some r /\
     ParseData (of_app (app r) old) = Some (Mk (app r) (received old e), true)) /\
  (forall a, is_bytes (App.data_ a) ->
     exists r, ParseData (of_app a old) = Some (r, zlen (App.data_ a) mod 4 =? 0)).
Proof.
  intros Hlo Hup. split.
  - unfold SetEstimate. rewrite Serialize_spec. cbn [mbind option_bind].
    set (x := field_bytes 1 (link_capacity_lower e)). set (y := field_bytes 2 (link_capacity_upper e)).
    assert (Hx : zlen x = if IsMinusInfinity (link_capacity_lower e) then 0 else 4)
      by (unfold x, field_bytes; by destruct (IsMinusInfinity (link_capacity_lower e))).
    assert (Hy : zlen y = if IsMinusInfinity (link_capacity_upper e) then 0 else 4)
      by (unfold y, field_bytes; by destruct (IsMinusInfinity (link_capacity_upper e))).
    assert (Hxy : zlen (x ++ y) = 0 \/ zlen (x ++ y) = 4 \/ zlen (x ++ y) = 8).
    { rewrite length_app. destruct (IsMinusInfinity (link_capacity_lower e)),
        (IsMinusInfinity (link_capacity_upper e)); lia. }
    unfold App.SetData, App.kMaxDataSize, App.kAppBaseLength.
    rewrite (check_then (zlen (x ++ y) mod 4 =? 0)) by (apply Z.eqb_eq; destruct Hxy as [-> | [-> | ->]]; done).
    rewrite check_then by (apply Z.leb_le; lia). cbn [mbind option_bind].
    eexists. split; [reflexivity|]. unfold ParseData, Parse, of_app. cbn [app App.data_ estimate_].
    rewrite (proj2 (Z.eqb_eq _ 0)) by (destruct Hxy as [-> | [-> | ->]]; done). cbn [negb].
    assert (Hpl : parse_loop (length (x ++ y)) (x ++ y) 0 old = Some (received old e)).
    { unfold received, received_rate.
      destruct (decide (length (x ++ y) = 0%nat)) as [E0|E0].
      - apply length_zero_iff_nil in E0. rewrite E0. cbn. unfold x, y, field_bytes in E0.
        destruct (IsMinusInfinity (link_capacity_lower e)), (IsMinusInfinity (link_capacity_upper e)); try done.
        by destruct old.
      - unfold x at 2, y at 2.
        rewrite (parse_field _ 1 (Serializer 1 link_capacity_lower (fun r e => Estimate r (link_capacity_upper e))))
          by (done || (by left) || lia).
        rewrite <- (app_nil_r (field_bytes 2 _)).
        rewrite length_app in *.
        assert (Hfu : (1 <= (if IsMinusInfinity (link_capacity_lower e) then length x + length y
                             else pred (length x + length y)))%nat).
        { destruct (IsMinusInfinity (link_capacity_lower e)); lia. }
        rewrite (parse_field _ 2 (Serializer 2 link_capacity_upper (fun r e => Estimate (link_capacity_lower e) r)));
          [|done|done|by right; left|done|exact Hfu].
        assert (Hnil : forall fu (t0 : NetworkStateEstimate rate), parse_loop fu [] 0 t0 = Some t0) by (by intros []).
        rewrite Hnil. f_equal.
        destruct (IsMinusInfinity (link_capacity_lower e)), (IsMinusInfinity (link_capacity_upper e));
          cbn; by destruct old. }
    rewrite Hpl. done.
  - intros a Ha. unfold ParseData, Parse, of_app. cbn [app estimate_].
    change kFieldSize with 4. destruct (Z.eqb_spec (zlen (App.data_ a) mod 4) 0) as [E|E]; cbn [negb].
    + destruct (parse_loop_safe (App.data_ a) Ha (length (App.data_ a)) 0 old) as [e' ->];
        [lia|by rewrite Z.sub_0_r|lia|]. cbn. by eexists.
    + cbn. by eexists.
Qed.

End rate.

Lemma remote_estimate_roundtrip_witness :
  let e := RemoteEstimate.Estimate (Bps 1234567) PlusInf in
  let old := RemoteEstimate.Estimate MinusInf MinusInf in
  exists r, RemoteEstimate.SetEstimate 170 (RemoteEstimate.Mk App.new old) e = Some r /\
    RemoteEstimate.ParseData (RemoteEstimate.of_app (RemoteEstimate.app r) old) =
    Some (RemoteEstimate.Mk (RemoteEstimate.app r) (RemoteEstimate.Estimate (Bps 1234000) PlusInf), true).
Proof.
  intros e old.
  destruct (remote_estimate_roundtrip 170 (RemoteEstimate.Mk App.new old) e old) as [(r & E1 & E2) _].
  - right; right. vm_compute. discriminate.
  - right; left. reflexivity.
  - exists r. split; [exact E1|exact E2].
Defined.
