(* ===== verification/RtcpXr.v ===== *)
(** * Extended reports

    rtcp_packet/rrtr.{h,cc}, dlrr.{h,cc}, target_bitrate.{h,cc} and
    extended_reports.{h,cc}: the blocks of an XR packet and the loop that
    dispatches on their types. *)

From S2P Require Import Prelude ByteIo Buffers RtcpCore RtcpReports.

(** ** Rrtr *)

Module Rrtr.
Section ntp.
Context {ntp : Type} `{NtpTime ntp}.

Record t := Mk { ntp_ : ntp }.

Definition kBlockType : Z := 4.
Definition kBlockLength : Z := 2.
Definition kLength : Z := 4 * (kBlockLength + 1).

Definition new : t := Mk ntp_zero.

Definition Parse (this : t) (p : bytes) (off : Z) : option t :=
  type ← peek p (off + 0);
  check (type =? kBlockType) ;;
  length ← read_u16 p (off + 2);
  check (length =? kBlockLength) ;;
  seconds ← read_u32 p (off + 4);
  fraction ← read_u32 p (off + 8);
  Some (Mk (ntp_Set seconds fraction)).

Definition Create (this : t) : W unit :=
  let kReserved := 0 in
  write_at 0 [kBlockType] ;;
  write_at 1 [kReserved] ;;
  write_u16 2 kBlockLength ;;
  write_u32 4 (ntp_seconds (ntp_ this)) ;;
  write_u32 8 (ntp_fractions (ntp_ this)).

Definition encode (this : t) : bytes :=
  [kBlockType; 0] ++ be_bytes 2 kBlockLength ++
  be_bytes 4 (ntp_seconds (ntp_ this)) ++ be_bytes 4 (ntp_fractions (ntp_ this)).

End ntp.
Arguments t : clear implicits.
End Rrtr.

(** ** Dlrr *)

Module Dlrr.

Record ReceiveTimeInfo := MkInfo { ssrc : Z; last_rr : Z; delay_since_last_rr : Z }.

Record t := Mk { sub_blocks_ : list ReceiveTimeInfo }.

Definition kBlockType : Z := 5.
Definition kBlockHeaderLength : Z := 4.
Definition kSubBlockLength : Z := 12.

Definition new : t := Mk [].

(** explicit operator bool. *)
Definition is_set (this : t) : bool := negb (zlen (sub_blocks_ this) =? 0).

Definition read_sub_block (old : ReceiveTimeInfo) (p : bytes) (off : Z)
  : option ReceiveTimeInfo :=
  ssrc ← read_u32 p (off + 0);
  last_rr ← read_u32 p (off + 4);
  delay ← read_u32 p (off + 8);
  Some (MkInfo ssrc last_rr delay).

Definition Parse (this : t) (p : bytes) (off block_length_32bits : Z) : option (t * bool) :=
  type ← peek p (off + 0);
  check (type =? kBlockType) ;;
  length ← read_u16 p (off + 2);
  check (block_length_32bits =? length) ;;
  if negb (block_length_32bits mod 3 =? 0) then Some (this, false) else
  let blocks_count := block_length_32bits / 3 in
  sub_blocks ← read_items read_sub_block kSubBlockLength
                 (vec_resize (Z.to_nat blocks_count) (MkInfo 0 0 0) (sub_blocks_ this))
                 p (off + kBlockHeaderLength);
  Some (Mk sub_blocks, true).

Definition BlockLength (this : t) : Z :=
  if negb (is_set this) then 0
  else kBlockHeaderLength + kSubBlockLength * zlen (sub_blocks_ this).

Section create.
Context `{RtcNumerics}.

Definition create_sub_block (k : Z) (sub_block : ReceiveTimeInfo) : W unit :=
  write_u32 (k + 0) (ssrc sub_block) ;;
  write_u32 (k + 4) (last_rr sub_block) ;;
  write_u32 (k + 8) (delay_since_last_rr sub_block).

Definition Create (this : t) : W unit :=
  if negb (is_set this) then mret tt else
  let kReserved := 0 in
  write_at 0 [kBlockType] ;;
  write_at 1 [kReserved] ;;
  length ← wlift (dchecked_cast_u16 (3 * zlen (sub_blocks_ this)));
  write_u16 2 length ;;
  for_each_at create_sub_block kSubBlockLength kBlockHeaderLength (sub_blocks_ this) ;;
  wcheck (BlockLength this =? kBlockHeaderLength + kSubBlockLength * zlen (sub_blocks_ this)).

End create.

Definition ClearItems (this : t) : t := Mk [].

Definition AddDlrrItem (this : t) (time_info : ReceiveTimeInfo) : t :=
  Mk (sub_blocks_ this ++ [time_info]).

Definition info_ok (i : ReceiveTimeInfo) : Prop :=
  is_u32 (ssrc i) /\ is_u32 (last_rr i) /\ is_u32 (delay_since_last_rr i).

Definition encode_info (i : ReceiveTimeInfo) : bytes :=
  be_bytes 4 (ssrc i) ++ be_bytes 4 (last_rr i) ++ be_bytes 4 (delay_since_last_rr i).

Definition encode (this : t) : bytes :=
  if decide (sub_blocks_ this = []) then []
  else [kBlockType; 0] ++ be_bytes 2 (3 * zlen (sub_blocks_ this)) ++
       concat (map encode_info (sub_blocks_ this)).

End Dlrr.

(** ** TargetBitrate *)

Module TargetBitrate.

Record BitrateItem := MkItem {
  spatial_layer : Z;
  temporal_layer : Z;
  target_bitrate_kbps : Z
}.

Record t := Mk { bitrates_ : list BitrateItem }.

Definition kBlockType : Z := 42.
Definition kTargetBitrateHeaderSizeBytes : Z := 4.
Definition kBitrateItemSizeBytes : Z := 4.

Definition new : t := Mk [].

Definition AddTargetBitrate (this : t) (spatial temporal kbps : Z) : option t :=
  check (spatial <=? 0x0F) ;;
  check (temporal <=? 0x0F) ;;
  check (kbps <=? 0x00FFFFFF) ;;
  Some (Mk (bitrates_ this ++ [MkItem spatial temporal kbps])).

(** The loop of Parse, [num_items] iterations. *)
Fixpoint parse_items (num_items : nat) (this : t) (p : bytes) (index : Z) : option t :=
  match num_items with
  | O => Some this
  | S n =>
      layers ← peek p index;
      bitrate_kbps ← read_u24 p (index + 1);
      this ← AddTargetBitrate this (Z.land (Z.shiftr layers 4) 0x0F) (Z.land layers 0x0F)
               bitrate_kbps;
      parse_items n this p (index + kBitrateItemSizeBytes)
  end.

Definition Parse (this : t) (p : bytes) (off block_length : Z) : option t :=
  type ← peek p (off + 0);
  check (type =? kBlockType) ;;
  length ← read_u16 p (off + 2);
  check (block_length =? length) ;;
  let payload_bytes := block_length * 4 in
  let num_items := payload_bytes / kBitrateItemSizeBytes in
  parse_items (Z.to_nat num_items) (Mk []) p (off + kTargetBitrateHeaderSizeBytes).

Definition BlockLength (this : t) : Z :=
  kTargetBitrateHeaderSizeBytes + zlen (bitrates_ this) * kBitrateItemSizeBytes.

Section create.
Context `{RtcNumerics}.

Definition create_item (index : Z) (item : BitrateItem) : W unit :=
  write_at index [u8 (Z.lor (Z.shiftl (spatial_layer item) 4) (temporal_layer item))] ;;
  write_u24 (index + 1) (target_bitrate_kbps item).

Definition Create (this : t) : W unit :=
  write_at 0 [kBlockType] ;;
  write_at 1 [0] ;;
  block_length_words ← wlift (dchecked_cast_u16 (BlockLength this / 4 - 1));
  write_u16 2 block_length_words ;;
  for_each_at create_item kBitrateItemSizeBytes kTargetBitrateHeaderSizeBytes (bitrates_ this).

End create.

Definition item_ok (i : BitrateItem) : Prop :=
  0 <= spatial_layer i < 16 /\ 0 <= temporal_layer i < 16 /\
  0 <= target_bitrate_kbps i < 16777216.

Definition encode_item (i : BitrateItem) : bytes :=
  be_bytes 1 (16 * spatial_layer i + temporal_layer i) ++ be_bytes 3 (target_bitrate_kbps i).

Definition encode (this : t) : bytes :=
  [kBlockType; 0] ++ be_bytes 2 (zlen (bitrates_ this)) ++
  concat (map encode_item (bitrates_ this)).

End TargetBitrate.

(** ** ExtendedReports *)

Module ExtendedReports.
Section ntp.
Context {ntp : Type} `{NtpTime ntp}.

Record t := Mk {
  sender_ssrc_ : Z;
  rrtr_block_ : option (Rrtr.t ntp);
  dlrr_block_ : Dlrr.t;
  target_bitrate_ : option TargetBitrate.t
}.

Definition kPacketType : Z := 207.
Definition kMaxNumberOfDlrrItems : Z := 50.
Definition kXrBaseLength : Z := 4.
Definition kBlockHeaderSizeBytes : Z := 4.

Definition new : t := Mk 0 None Dlrr.new None.

Definition RrtrLength (this : t) : Z :=
  match rrtr_block_ this with Some _ => Rrtr.kLength | None => 0 end.

Definition DlrrLength (this : t) : Z := Dlrr.BlockLength (dlrr_block_ this).

Definition TargetBitrateLength (this : t) : Z :=
  match target_bitrate_ this with Some b => TargetBitrate.BlockLength b | None => 0 end.

Definition SetRrtr (this : t) (rrtr : Rrtr.t ntp) : t :=
  Mk (sender_ssrc_ this) (Some rrtr) (dlrr_block_ this) (target_bitrate_ this).

Definition AddDlrrItem (this : t) (time_info : Dlrr.ReceiveTimeInfo) : t * bool :=
  if zlen (Dlrr.sub_blocks_ (dlrr_block_ this)) >=? kMaxNumberOfDlrrItems then (this, false)
  else (Mk (sender_ssrc_ this) (rrtr_block_ this) (Dlrr.AddDlrrItem (dlrr_block_ this) time_info)
          (target_bitrate_ this), true).

Definition SetTargetBitrate (this : t) (bitrate : TargetBitrate.t) : t :=
  Mk (sender_ssrc_ this) (rrtr_block_ this) (dlrr_block_ this) (Some bitrate).

Definition ParseRrtrBlock (this : t) (p : bytes) (block block_length : Z) : option t :=
  if negb (block_length =? Rrtr.kBlockLength) then Some this else
  match rrtr_block_ this with
  | Some _ => Some this
  | None =>
      rrtr ← Rrtr.Parse Rrtr.new p block;
      Some (Mk (sender_ssrc_ this) (Some rrtr) (dlrr_block_ this) (target_bitrate_ this))
  end.

Definition ParseDlrrBlock (this : t) (p : bytes) (block block_length : Z) : option t :=
  if Dlrr.is_set (dlrr_block_ this) then Some this else
  '(dlrr, _) ← Dlrr.Parse (dlrr_block_ this) p block block_length;
  Some (Mk (sender_ssrc_ this) (rrtr_block_ this) dlrr (target_bitrate_ this)).

Definition ParseTargetBitrateBlock (this : t) (p : bytes) (block block_length : Z) : option t :=
  bitrate ← TargetBitrate.Parse TargetBitrate.new p block block_length;
  Some (Mk (sender_ssrc_ this) (rrtr_block_ this) (dlrr_block_ this) (Some bitrate)).

(** The switch on the block type. *)
Definition ParseBlock (this : t) (p : bytes) (block_type block block_length : Z) : option t :=
  if block_type =? Rrtr.kBlockType then ParseRrtrBlock this p block block_length
  else if block_type =? Dlrr.kBlockType then ParseDlrrBlock this p block block_length
  else if block_type =? TargetBitrate.kBlockType then ParseTargetBitrateBlock this p block block_length
  else Some this.

(** The loop over the blocks; [current_block] and [packet_end] are offsets. *)
Fixpoint parse_blocks (fuel : nat) (this : t) (p : bytes) (current_block packet_end : Z)
  : option (t * bool) :=
  match fuel with
  | O => None
  | S fuel' =>
      if current_block + kBlockHeaderSizeBytes <=? packet_end then
        block_type ← read_u8 p current_block;
        block_length ← read_u16 p (current_block + 2);
        let next_block := current_block + kBlockHeaderSizeBytes + block_length * 4 in
        if next_block >? packet_end then Some (this, false) else
        this ← ParseBlock this p block_type current_block block_length;
        parse_blocks fuel' this p next_block packet_end
      else Some (this, true)
  end.

Definition Parse (this : t) (packet : CommonHeader.t) : option (t * bool) :=
  check (CommonHeader.type packet =? kPacketType) ;;
  if CommonHeader.payload_size_bytes packet <? kXrBaseLength then Some (this, false) else
  ssrc ← read_u32 (CommonHeader.payload packet) 0;
  parse_blocks (S (Z.to_nat (CommonHeader.payload_size_bytes packet)))
    (Mk ssrc None (Dlrr.ClearItems (dlrr_block_ this)) None)
    (CommonHeader.payload packet) kXrBaseLength (CommonHeader.payload_size_bytes packet).

Definition BlockLength (this : t) : Z :=
  kHeaderLength + kXrBaseLength + RrtrLength this + DlrrLength this + TargetBitrateLength this.

Section create.
Context `{RtcNumerics}.

Definition Create (this : t) (max_length : Z) (callback : bool) : W bool :=
  create_with (BlockLength this)
    (length ← wlift (RtcpPacket.HeaderLength (BlockLength this));
     RtcpPacket.CreateHeader 0 kPacketType length ;;
     write_u32 0 (sender_ssrc_ this) ;;
     add_index 4 ;;
     match rrtr_block_ this with
     | Some rrtr => Rrtr.Create rrtr ;; add_index Rrtr.kLength
     | None => mret tt
     end ;;
     (if Dlrr.is_set (dlrr_block_ this) then
        Dlrr.Create (dlrr_block_ this) ;; add_index (Dlrr.BlockLength (dlrr_block_ this))
      else mret tt) ;;
     match target_bitrate_ this with
     | Some bitrate =>
         TargetBitrate.Create bitrate ;; add_index (TargetBitrate.BlockLength bitrate)
     | None => mret tt
     end)
    max_length callback.

End create.

Definition body (this : t) : bytes :=
  be_bytes 4 (sender_ssrc_ this) ++
  match rrtr_block_ this with Some r => Rrtr.encode r | None => [] end ++
  Dlrr.encode (dlrr_block_ this) ++
  match target_bitrate_ this with Some b => TargetBitrate.encode b | None => [] end.

Definition wf (this : t) : Prop :=
  is_u32 (sender_ssrc_ this) /\
  Forall Dlrr.info_ok (Dlrr.sub_blocks_ (dlrr_block_ this)) /\
  (forall b, target_bitrate_ this = Some b -> Forall TargetBitrate.item_ok (TargetBitrate.bitrates_ b)) /\
  BlockLength this <= 4 + 4 * 65535.

End ntp.
Arguments t : clear implicits.
End ExtendedReports.

(** ** The blocks on the wire *)

Ltac at_prefix := rewrite ?read_be_app_at, ?read_be_app_at0, ?peek_app_at by lia.

Section ntp.
Context {ntp : Type} `{NtpTimeLaws ntp} `{RtcNumericsLaws}.
Implicit Types (r : Rrtr.t ntp) (d : Dlrr.t) (b : TargetBitrate.t).

Lemma length_rrtr r : zlen (Rrtr.encode r) = 12.
Proof. done. Qed.

Lemma stores_rrtr r : stores 0 (Rrtr.Create r) (Rrtr.encode r).
Proof.
  unfold Rrtr.Create, Rrtr.encode. cbv zeta.
  change ([Rrtr.kBlockType; 0] ++ ?x) with ([Rrtr.kBlockType] ++ [0] ++ x). do 5 stores_step.
Qed.

Lemma rrtr_Parse this r a rest :
  Rrtr.Parse this (a ++ Rrtr.encode r ++ rest) (zlen a) = Some r.
Proof.
  unfold Rrtr.Parse. rewrite Z.add_0_r.
  replace (peek (a ++ Rrtr.encode r ++ rest) (zlen a)) with (peek (Rrtr.encode r ++ rest) 0)
    by (rewrite <- (peek_app_at a) by done; f_equal; lia).
  at_prefix. unfold Rrtr.encode. change [Rrtr.kBlockType; 0] with (be_bytes 1 4 ++ be_bytes 1 0).
  pose proof (ntp_seconds_u32 (Rrtr.ntp_ r)). pose proof (ntp_fractions_u32 (Rrtr.ntp_ r)).
  read_all. do 2 check_step. read_all. rewrite ntp_Set_get. by destruct r.
Qed.

Lemma rrtr_Parse_safe this p off : is_bytes p -> 0 <= off -> off + 12 <= zlen p ->
  peek p off = Some Rrtr.kBlockType -> read_u16 p (off + 2) = Some Rrtr.kBlockLength ->
  is_Some (Rrtr.Parse this p off).
Proof.
  intros Hp Ho Hl Ht Hn. unfold Rrtr.Parse. rewrite Z.add_0_r, Ht. cbn [mbind option_bind].
  check_step. rewrite Hn. cbn [mbind option_bind]. check_step. do 2 safe_step. by eexists.
Qed.

Lemma length_dlrr d : zlen (Dlrr.encode d) = Dlrr.BlockLength d.
Proof.
  unfold Dlrr.encode, Dlrr.BlockLength, Dlrr.is_set. destruct (decide _) as [->|Hne]; [done|].
  destruct (Z.eqb_spec (zlen (Dlrr.sub_blocks_ d)) 0) as [E|_].
  { destruct Hne. apply length_zero_iff_nil. lia. }
  cbn [negb]. rewrite !length_app, length_be_bytes, !Nat2Z.inj_add.
  rewrite (concat_length Dlrr.encode_info 12) by done.
  unfold Dlrr.kBlockHeaderLength, Dlrr.kSubBlockLength. cbn [length]. lia.
Qed.

Lemma stores_dlrr d : 3 * zlen (Dlrr.sub_blocks_ d) <= 65535 ->
  stores 0 (Dlrr.Create d) (Dlrr.encode d).
Proof.
  intros Hn. unfold Dlrr.Create, Dlrr.encode, Dlrr.BlockLength, Dlrr.is_set.
  destruct (decide _) as [->|Hne]; [apply stores_ret|].
  destruct (Z.eqb_spec (zlen (Dlrr.sub_blocks_ d)) 0) as [E|_].
  { destruct Hne. apply length_zero_iff_nil. lia. }
  cbn [negb]. cbv zeta. change ([Dlrr.kBlockType; 0] ++ ?x) with ([Dlrr.kBlockType] ++ [0] ++ x).
  do 2 stores_step. eapply stores_wlift; [apply dchecked_cast_id; unfold is_u16; lia|].
  stores_step. rewrite <- (app_nil_r (concat _)). rewrite Z.eqb_refl.
  eapply stores_bind; [|reflexivity|apply stores_ret].
  apply (stores_for_each_at _ Dlrr.encode_info Dlrr.kSubBlockLength); [|done].
  intros k i _. unfold Dlrr.create_sub_block, Dlrr.encode_info.
  rewrite Z.add_0_r. replace (k + 8) with (k + 4 + 4) by lia. do 3 stores_step.
Qed.

Lemma dlrr_read_skip old a q off : zlen a <= off ->
  Dlrr.read_sub_block old (a ++ q) off = Dlrr.read_sub_block old q (off - zlen a).
Proof.
  intros. unfold Dlrr.read_sub_block. rewrite !read_be_app_skip by lia. by rewrite <- !Z.add_sub_swap.
Qed.

Lemma dlrr_read_here old i q : Dlrr.info_ok i ->
  Dlrr.read_sub_block old (Dlrr.encode_info i ++ q) 0 = Some i.
Proof.
  intros (? & ? & ?). unfold Dlrr.read_sub_block, Dlrr.encode_info. rewrite !Z.add_0_l.
  read_all. by destruct i.
Qed.

Lemma dlrr_read_safe p old off : is_bytes p -> 0 <= off -> off + 12 <= zlen p ->
  exists i, Dlrr.read_sub_block old p off = Some i /\ Dlrr.info_ok i.
Proof. intros Hp Ho Hl. unfold Dlrr.read_sub_block. repeat safe_step. by eexists. Qed.

Lemma dlrr_Parse this d a rest :
  Forall Dlrr.info_ok (Dlrr.sub_blocks_ d) -> Dlrr.sub_blocks_ d <> [] ->
  3 * zlen (Dlrr.sub_blocks_ d) <= 65535 ->
  Dlrr.Parse this (a ++ Dlrr.encode d ++ rest) (zlen a) (3 * zlen (Dlrr.sub_blocks_ d)) =
  Some (d, true).
Proof.
  intros Hf Hne Hn. unfold Dlrr.Parse. rewrite Z.add_0_r.
  replace (peek (a ++ Dlrr.encode d ++ rest) (zlen a)) with (peek (Dlrr.encode d ++ rest) 0)
    by (rewrite <- (peek_app_at a) by done; f_equal; lia).
  at_prefix. unfold Dlrr.encode. rewrite decide_False by done.
  change [Dlrr.kBlockType; 0] with (be_bytes 1 5 ++ be_bytes 1 0).
  unfold Dlrr.kBlockHeaderLength, Dlrr.kSubBlockLength.
  rewrite read_items_app_skip by (lia || intros; by apply dlrr_read_skip).
  rewrite Z.add_simpl_l. read_all. do 2 check_step.
  rewrite (proj2 (Z.eqb_eq _ 0)) by dlia. cbn [negb]. items_skip dlrr_read_skip.
  rewrite (read_items_encode _ Dlrr.encode_info); [by destruct d|apply dlrr_read_skip| |done|].
  - intros old i q' Hi. apply dlrr_read_here. rewrite List.Forall_forall in Hf. by apply Hf.
  - rewrite length_vec_resize. dlia.
Qed.

Lemma dlrr_Parse_safe this p off n : is_bytes p -> 0 <= off -> off + 4 + 4 * n <= zlen p -> 0 <= n ->
  peek p off = Some Dlrr.kBlockType -> read_u16 p (off + 2) = Some n ->
  exists d ok, Dlrr.Parse this p off n = Some (d, ok) /\
    (if ok then Forall Dlrr.info_ok (Dlrr.sub_blocks_ d) /\ Dlrr.BlockLength d <= 4 + 4 * n
     else d = this).
Proof.
  intros Hp Ho Hl Hn0 Ht Hn. unfold Dlrr.Parse. rewrite Z.add_0_r, Ht. cbn [mbind option_bind].
  check_step. rewrite Hn. cbn [mbind option_bind]. check_step.
  destruct (Z.eqb_spec (n mod 3) 0); [|by exists this, false]. cbn [negb].
  unfold Dlrr.kBlockHeaderLength, Dlrr.kSubBlockLength.
  destruct (read_items_safe Dlrr.read_sub_block Dlrr.info_ok 12 p) with
    (olds := vec_resize (Z.to_nat (n / 3)) (Dlrr.MkInfo 0 0 0) (Dlrr.sub_blocks_ this))
    (n := n / 3) (off := off + 4) as (l & -> & Hll & Hok);
    [intros; by apply dlrr_read_safe|done|lia|dlia|rewrite length_vec_resize; dlia|].
  cbn [mbind option_bind]. eexists _, true. split; [done|]. split; [done|].
  unfold Dlrr.BlockLength. cbn [Dlrr.sub_blocks_].
  unfold Dlrr.kBlockHeaderLength, Dlrr.kSubBlockLength. destruct (negb _); dlia.
Qed.

Lemma length_target b : zlen (TargetBitrate.encode b) = TargetBitrate.BlockLength b.
Proof.
  unfold TargetBitrate.encode, TargetBitrate.BlockLength.
  rewrite !length_app, length_be_bytes, !Nat2Z.inj_add.
  rewrite (concat_length TargetBitrate.encode_item 4) by done.
  unfold TargetBitrate.kTargetBitrateHeaderSizeBytes, TargetBitrate.kBitrateItemSizeBytes.
  cbn [length]. lia.
Qed.

Lemma stores_target b : Forall TargetBitrate.item_ok (TargetBitrate.bitrates_ b) ->
  zlen (TargetBitrate.bitrates_ b) <= 65535 ->
  stores 0 (TargetBitrate.Create b) (TargetBitrate.encode b).
Proof.
  intros Hf Hn. unfold TargetBitrate.Create, TargetBitrate.encode.
  change ([TargetBitrate.kBlockType; 0] ++ ?x) with ([TargetBitrate.kBlockType] ++ [0] ++ x).
  do 2 stores_step. eapply stores_wlift.
  { rewrite dchecked_cast_id; [reflexivity|]. unfold TargetBitrate.BlockLength, is_u16,
      TargetBitrate.kTargetBitrateHeaderSizeBytes, TargetBitrate.kBitrateItemSizeBytes. dlia. }
  replace (TargetBitrate.BlockLength b / 4 - 1) with (zlen (TargetBitrate.bitrates_ b)).
  2: { unfold TargetBitrate.BlockLength, TargetBitrate.kTargetBitrateHeaderSizeBytes,
         TargetBitrate.kBitrateItemSizeBytes. dlia. }
  stores_step.
  apply (stores_for_each_at _ TargetBitrate.encode_item TargetBitrate.kBitrateItemSizeBytes); [|done].
  intros k i Hi. rewrite List.Forall_forall in Hf. destruct (Hf i Hi) as (Hs & Ht & Hk).
  unfold TargetBitrate.create_item, TargetBitrate.encode_item.
  rewrite lor_shiftl_add by lia.
  replace (u8 (TargetBitrate.spatial_layer i * 2 ^ 4 + TargetBitrate.temporal_layer i))
    with (16 * TargetBitrate.spatial_layer i + TargetBitrate.temporal_layer i) by wordlia.
  rewrite be_bytes_1 by wordlia. do 2 stores_step.
Qed.

Lemma target_items_encode l this a rest :
  Forall TargetBitrate.item_ok l ->
  TargetBitrate.parse_items (length l) this
    (a ++ concat (map TargetBitrate.encode_item l) ++ rest) (zlen a) =
  Some (TargetBitrate.Mk (TargetBitrate.bitrates_ this ++ l)).
Proof.
  revert this a. induction l as [|i l IH]; intros this a Hf.
  - cbn. rewrite app_nil_r. by destruct this.
  - apply Forall_cons_iff in Hf as [(Hs & Ht & Hk) Hf]. cbn [length map concat TargetBitrate.parse_items].
    rewrite <- app_assoc.
    replace (peek (a ++ TargetBitrate.encode_item i ++ concat (map TargetBitrate.encode_item l) ++ rest) (zlen a))
      with (peek (TargetBitrate.encode_item i ++ concat (map TargetBitrate.encode_item l) ++ rest) 0)
      by (rewrite <- (peek_app_at a) by done; f_equal; lia).
    at_prefix.
    set (tail := concat (map TargetBitrate.encode_item l) ++ rest).
    assert (Hr : peek (TargetBitrate.encode_item i ++ tail) 0 =
                   Some (16 * TargetBitrate.spatial_layer i + TargetBitrate.temporal_layer i) /\
                 read_u24 (TargetBitrate.encode_item i ++ tail) 1 =
                   Some (TargetBitrate.target_bitrate_kbps i)).
    { unfold TargetBitrate.encode_item. rewrite <- app_assoc. split; [by apply peek_here; wordlia|].
      rewrite read_skip by lia. by apply read_u24_here. }
    destruct Hr as [-> ->]. cbn [mbind option_bind].
    rewrite Z.shiftr_div_pow2, !(land_mask 4 15) by done. change (2 ^ 4) with 16.
    replace ((16 * TargetBitrate.spatial_layer i + TargetBitrate.temporal_layer i) / 16 mod 16)
      with (TargetBitrate.spatial_layer i) by dlia.
    replace ((16 * TargetBitrate.spatial_layer i + TargetBitrate.temporal_layer i) mod 16)
      with (TargetBitrate.temporal_layer i) by dlia.
    unfold TargetBitrate.AddTargetBitrate. do 3 check_step. cbn [mbind option_bind].
    replace (a ++ TargetBitrate.encode_item i ++ tail) with
      ((a ++ TargetBitrate.encode_item i) ++ tail) by (by rewrite <- app_assoc).
    replace (zlen a + TargetBitrate.kBitrateItemSizeBytes) with (zlen (a ++ TargetBitrate.encode_item i))
      by (rewrite length_app; unfold TargetBitrate.kBitrateItemSizeBytes; cbn; lia).
    unfold tail. rewrite IH by done. cbn [TargetBitrate.bitrates_]. rewrite <- app_assoc.
    by destruct i.
Qed.

Lemma target_Parse this b a rest :
  Forall TargetBitrate.item_ok (TargetBitrate.bitrates_ b) ->
  zlen (TargetBitrate.bitrates_ b) <= 65535 ->
  TargetBitrate.Parse this (a ++ TargetBitrate.encode b ++ rest) (zlen a)
    (zlen (TargetBitrate.bitrates_ b)) = Some b.
Proof.
  intros Hf Hn. unfold TargetBitrate.Parse. rewrite Z.add_0_r.
  replace (peek (a ++ TargetBitrate.encode b ++ rest) (zlen a))
    with (peek (TargetBitrate.encode b ++ rest) 0)
    by (rewrite <- (peek_app_at a) by done; f_equal; lia).
  at_prefix.
  assert (Hr : peek (TargetBitrate.encode b ++ rest) 0 = Some TargetBitrate.kBlockType /\
    read_u16 (TargetBitrate.encode b ++ rest) 2 = Some (zlen (TargetBitrate.bitrates_ b))).
  { unfold TargetBitrate.encode.
    change [TargetBitrate.kBlockType; 0] with (be_bytes 1 42 ++ be_bytes 1 0).
    rewrite <- !app_assoc. split; [done|]. by read_all. }
  destruct Hr as [-> ->]. cbn [mbind option_bind]. do 2 check_step.
  unfold TargetBitrate.kBitrateItemSizeBytes. rewrite Z.div_mul, Nat2Z.id by done.
  replace (a ++ TargetBitrate.encode b ++ rest) with
    ((a ++ [TargetBitrate.kBlockType; 0] ++ be_bytes 2 (zlen (TargetBitrate.bitrates_ b))) ++
     concat (map TargetBitrate.encode_item (TargetBitrate.bitrates_ b)) ++ rest)
    by (unfold TargetBitrate.encode; by rewrite <- !app_assoc).
  replace (zlen a + TargetBitrate.kTargetBitrateHeaderSizeBytes) with
    (zlen (a ++ [TargetBitrate.kBlockType; 0] ++ be_bytes 2 (zlen (TargetBitrate.bitrates_ b))))
    by (rewrite !length_app, length_be_bytes; unfold TargetBitrate.kTargetBitrateHeaderSizeBytes; cbn; lia).
  rewrite target_items_encode by done. by destruct b.
Qed.

Lemma target_items_safe p n this off :
  is_bytes p -> 0 <= off -> off + 4 * Z.of_nat n <= zlen p ->
  Forall TargetBitrate.item_ok (TargetBitrate.bitrates_ this) ->
  exists b, TargetBitrate.parse_items n this p off = Some b /\
    Forall TargetBitrate.item_ok (TargetBitrate.bitrates_ b) /\
    zlen (TargetBitrate.bitrates_ b) = zlen (TargetBitrate.bitrates_ this) + Z.of_nat n.
Proof.
  intros Hp. revert this off. induction n as [|n IH]; intros this off Ho Hl Hf.
  - exists this. splits; try done. lia.
  - cbn [TargetBitrate.parse_items].
    destruct (peek_u8_Some p off) as (layers & -> & Hly); [done|lia|]. cbn [mbind option_bind].
    safe_step. unfold is_u8 in *. unfold TargetBitrate.AddTargetBitrate.
    rewrite Z.shiftr_div_pow2, !(land_mask 4 15) by done. change (2 ^ 4) with 16.
    pose proof (Z.mod_pos_bound (layers / 16) 16). pose proof (Z.mod_pos_bound layers 16).
    do 3 check_step. cbn [mbind option_bind].
    match goal with |- context [TargetBitrate.parse_items n ?t p ?o] =>
      destruct (IH t o) as (b & -> & Hb & Hbl) end.
    + unfold TargetBitrate.kBitrateItemSizeBytes. lia.
    + unfold TargetBitrate.kBitrateItemSizeBytes. lia.
    + cbn [TargetBitrate.bitrates_]. apply Forall_app. split; [done|]. constructor; [|constructor].
      unfold TargetBitrate.item_ok. cbn. lia.
    + exists b. splits; try done. rewrite Hbl. cbn [TargetBitrate.bitrates_].
      rewrite length_app. cbn [length]. lia.
Qed.

Lemma target_Parse_safe this p off n : is_bytes p -> 0 <= off -> off + 4 + 4 * n <= zlen p -> 0 <= n ->
  peek p off = Some TargetBitrate.kBlockType -> read_u16 p (off + 2) = Some n ->
  exists b, TargetBitrate.Parse this p off n = Some b /\
    Forall TargetBitrate.item_ok (TargetBitrate.bitrates_ b) /\
    TargetBitrate.BlockLength b = 4 + 4 * n.
Proof.
  intros Hp Ho Hl Hn0 Ht Hn. unfold TargetBitrate.Parse. rewrite Z.add_0_r, Ht. cbn [mbind option_bind].
  check_step. rewrite Hn. cbn [mbind option_bind]. check_step.
  unfold TargetBitrate.kBitrateItemSizeBytes. rewrite Z.div_mul by done.
  unfold TargetBitrate.kTargetBitrateHeaderSizeBytes.
  destruct (target_items_safe p (Z.to_nat n) (TargetBitrate.Mk []) (off + 4)) as (b & -> & Hb & Hbl);
    [done|lia|lia|constructor|].
  exists b. splits; try done. unfold TargetBitrate.BlockLength,
    TargetBitrate.kTargetBitrateHeaderSizeBytes, TargetBitrate.kBitrateItemSizeBytes.
  rewrite Hbl. cbn. lia.
Qed.

(** ** ExtendedReports on the wire *)

#[global] Instance ExtendedReports_codec : RtcpCodec (ExtendedReports.t ntp) := {|
  codec_type := ExtendedReports.kPacketType;
  codec_fmt := fun _ => true;
  codec_new := ExtendedReports.new;
  codec_block_length := ExtendedReports.BlockLength;
  codec_create := ExtendedReports.Create;
  codec_parse := ExtendedReports.Parse
|}.

Implicit Type p : ExtendedReports.t ntp.

Lemma ExtendedReports_length_body p : ExtendedReports.BlockLength p = 4 + zlen (ExtendedReports.body p).
Proof.
  unfold ExtendedReports.BlockLength, ExtendedReports.body, kHeaderLength,
    ExtendedReports.kXrBaseLength, ExtendedReports.RrtrLength, ExtendedReports.DlrrLength,
    ExtendedReports.TargetBitrateLength.
  rewrite !length_app, length_be_bytes, !Nat2Z.inj_add, length_dlrr.
  destruct (ExtendedReports.rrtr_block_ p), (ExtendedReports.target_bitrate_ p);
    rewrite ?length_rrtr, ?length_target; unfold Rrtr.kLength, Rrtr.kBlockLength; cbn [length]; lia.
Qed.

Lemma dlrr_length_aligned d : Dlrr.BlockLength d mod 4 = 0 /\ 0 <= Dlrr.BlockLength d /\
  (12 * zlen (Dlrr.sub_blocks_ d) <= Dlrr.BlockLength d).
Proof.
  unfold Dlrr.BlockLength, Dlrr.is_set, Dlrr.kBlockHeaderLength, Dlrr.kSubBlockLength.
  destruct (Z.eqb_spec (zlen (Dlrr.sub_blocks_ d)) 0); cbn [negb]; dlia.
Qed.

Lemma ExtendedReports_aligned p : zlen (ExtendedReports.body p) mod 4 = 0.
Proof.
  pose proof (ExtendedReports_length_body p) as Hb.
  destruct (dlrr_length_aligned (ExtendedReports.dlrr_block_ p)) as (Hm & _).
  unfold ExtendedReports.BlockLength, kHeaderLength, ExtendedReports.kXrBaseLength,
    ExtendedReports.RrtrLength, ExtendedReports.DlrrLength, ExtendedReports.TargetBitrateLength,
    Rrtr.kLength, Rrtr.kBlockLength in Hb.
  destruct (ExtendedReports.rrtr_block_ p), (ExtendedReports.target_bitrate_ p) as [b|];
    unfold TargetBitrate.BlockLength, TargetBitrate.kTargetBitrateHeaderSizeBytes,
      TargetBitrate.kBitrateItemSizeBytes in Hb; dlia.
Qed.

(** The bounds on the blocks that follow from the bound on the packet. *)
Lemma ExtendedReports_small p : ExtendedReports.wf p ->
  3 * zlen (Dlrr.sub_blocks_ (ExtendedReports.dlrr_block_ p)) <= 65535 /\
  (forall b, ExtendedReports.target_bitrate_ p = Some b -> zlen (TargetBitrate.bitrates_ b) <= 65535).
Proof.
  intros (_ & _ & _ & Hl). destruct (dlrr_length_aligned (ExtendedReports.dlrr_block_ p)) as (_ & H0' & H12).
  unfold ExtendedReports.BlockLength, kHeaderLength, ExtendedReports.kXrBaseLength,
    ExtendedReports.RrtrLength, ExtendedReports.DlrrLength, ExtendedReports.TargetBitrateLength,
    Rrtr.kLength, Rrtr.kBlockLength, TargetBitrate.BlockLength,
    TargetBitrate.kTargetBitrateHeaderSizeBytes, TargetBitrate.kBitrateItemSizeBytes in Hl.
  split.
  - destruct (ExtendedReports.rrtr_block_ p), (ExtendedReports.target_bitrate_ p); lia.
  - intros b E. rewrite E in Hl. destruct (ExtendedReports.rrtr_block_ p); lia.
Qed.

Lemma ExtendedReports_Create_spec p max_length callback st :
  ExtendedReports.wf p -> 0 <= windex st <= zlen (wbuf st) ->
  ExtendedReports.Create p max_length callback st =
  create_result (standard_encode (fun _ => 0) ExtendedReports.body p) max_length callback st.
Proof.
  intros Hp Hi. pose proof (ExtendedReports_length_body p) as Hb.
  pose proof (ExtendedReports_aligned p) as Hm. destruct (ExtendedReports_small p Hp) as [Hd Ht].
  destruct Hp as (Hs & Hdf & Htf & Hl).
  apply create_with_result; [|by rewrite length_standard_encode|lia|done].
  apply runs_packet; [done|done|done|done|lia|].
  unfold ExtendedReports.body. do 2 runs_step. apply runs_then.
  { destruct (ExtendedReports.rrtr_block_ p) as [r|]; [|apply runs_ret].
    rewrite <- (app_nil_r (Rrtr.encode r)). eapply runs_store; [apply stores_rrtr|reflexivity|].
    apply runs_add_last. }
  apply runs_then.
  { unfold Dlrr.is_set. destruct (Z.eqb_spec (zlen (Dlrr.sub_blocks_ (ExtendedReports.dlrr_block_ p))) 0) as [E|E].
    - unfold Dlrr.encode. rewrite decide_True by (apply length_zero_iff_nil; lia). apply runs_ret.
    - cbn [negb]. rewrite <- (app_nil_r (Dlrr.encode _)), <- length_dlrr.
      eapply runs_store; [by apply stores_dlrr|reflexivity|]. apply runs_add_last. }
  destruct (ExtendedReports.target_bitrate_ p) as [b|]; [|apply runs_ret].
  rewrite <- (app_nil_r (TargetBitrate.encode b)), <- length_target.
  eapply runs_store; [apply stores_target; by auto|reflexivity|]. apply runs_add_last.
Qed.


(** One block is one iteration of the loop. *)
Lemma parse_blocks_step fuel p a ty n content rest packet_end :
  0 <= n <= 65535 -> is_u8 ty -> zlen content = 4 * n -> zlen a + 4 + 4 * n <= packet_end ->
  let blk := [ty; 0] ++ be_bytes 2 n ++ content in
  ExtendedReports.parse_blocks (S fuel) p (a ++ blk ++ rest) (zlen a) packet_end =
  (p' ← ExtendedReports.ParseBlock p (a ++ blk ++ rest) ty (zlen a) n;
   ExtendedReports.parse_blocks fuel p' ((a ++ blk) ++ rest) (zlen (a ++ blk)) packet_end).
Proof.
  intros Hn Hty Hc Hend blk. cbn [ExtendedReports.parse_blocks].
  unfold ExtendedReports.kBlockHeaderSizeBytes. leb_true. at_prefix.
  assert (Hr : read_u8 (blk ++ rest) 0 = Some ty /\ read_u16 (blk ++ rest) 2 = Some n).
  { unfold blk.
    replace [ty; 0] with (be_bytes 1 ty ++ be_bytes 1 0) by (by rewrite (be_bytes_1 ty)).
    rewrite <- !app_assoc. split; [|by read_all].
    by apply (read_be_app_here 8 1). }
  destruct Hr as [-> ->]. cbn [mbind option_bind]. rewrite Z.gtb_ltb. ltb_false.
  assert (Hl : zlen (a ++ blk) = zlen a + 4 + n * 4).
  { unfold blk. rewrite !length_app, length_be_bytes. cbn [length]. lia. }
  rewrite Hl. by rewrite <- (app_assoc a blk rest).
Qed.

Definition xr_opt {A} (o : option A) : nat := match o with Some _ => 1%nat | None => 0%nat end.

Lemma parse_blocks_rrtr fuel s (o : option (Rrtr.t ntp)) a rest packet_end :
  let enc := match o with Some r => Rrtr.encode r | None => [] end in
  zlen a + zlen enc <= packet_end ->
  ExtendedReports.parse_blocks (xr_opt o + fuel) (ExtendedReports.Mk s None Dlrr.new None)
    (a ++ enc ++ rest) (zlen a) packet_end =
  ExtendedReports.parse_blocks fuel (ExtendedReports.Mk s o Dlrr.new None)
    ((a ++ enc) ++ rest) (zlen (a ++ enc)) packet_end.
Proof.
  intros enc Hend. destruct o as [r|]; cbn [xr_opt Nat.add]; [|unfold enc; by rewrite app_nil_r].
  unfold enc. unfold Rrtr.encode.
  rewrite (parse_blocks_step fuel _ a Rrtr.kBlockType Rrtr.kBlockLength);
    [|done|done|done|unfold enc in Hend; rewrite length_rrtr in Hend; unfold Rrtr.kBlockLength; lia].
  unfold ExtendedReports.ParseBlock. rewrite Z.eqb_refl.
  unfold ExtendedReports.ParseRrtrBlock. rewrite Z.eqb_refl. cbn [negb ExtendedReports.rrtr_block_].
  fold (Rrtr.encode r). rewrite (rrtr_Parse Rrtr.new r a rest). done.
Qed.

Lemma parse_blocks_dlrr fuel s o d a rest packet_end :
  Forall Dlrr.info_ok (Dlrr.sub_blocks_ d) -> 3 * zlen (Dlrr.sub_blocks_ d) <= 65535 ->
  zlen a + zlen (Dlrr.encode d) <= packet_end ->
  ExtendedReports.parse_blocks ((if Dlrr.is_set d then 1 else 0) + fuel)
    (ExtendedReports.Mk s o Dlrr.new None) (a ++ Dlrr.encode d ++ rest) (zlen a) packet_end =
  ExtendedReports.parse_blocks fuel (ExtendedReports.Mk s o d None)
    ((a ++ Dlrr.encode d) ++ rest) (zlen (a ++ Dlrr.encode d)) packet_end.
Proof.
  intros Hf Hn Hend. destruct (decide (Dlrr.sub_blocks_ d = [])) as [Hd|Hd].
  - destruct d as [l]. cbn in Hd. subst l. unfold Dlrr.encode. cbn. by rewrite app_nil_r.
  - assert (Hset : Dlrr.is_set d = true).
    { apply negb_eqb_0. intros E. destruct Hd. apply length_zero_iff_nil. lia. }
    rewrite Hset. cbn [Nat.add]. pose proof (dlrr_Parse Dlrr.new d a rest Hf Hd Hn) as HP.
    unfold Dlrr.encode in *. rewrite decide_False in * by done.
    rewrite (parse_blocks_step fuel _ a Dlrr.kBlockType (3 * zlen (Dlrr.sub_blocks_ d)));
      [|lia|done|rewrite (concat_length Dlrr.encode_info 12) by done; lia|].
    2: { rewrite !length_app, length_be_bytes, !Nat2Z.inj_add,
           (concat_length Dlrr.encode_info 12) in Hend by done. cbn in Hend. lia. }
    unfold ExtendedReports.ParseBlock. change (Dlrr.kBlockType =? Rrtr.kBlockType) with false.
    rewrite Z.eqb_refl. unfold ExtendedReports.ParseDlrrBlock.
    cbn [ExtendedReports.dlrr_block_]. change (Dlrr.is_set Dlrr.new) with false. cbv iota.
    rewrite HP. done.
Qed.

Lemma parse_blocks_target fuel s o d t a rest packet_end :
  let enc := match t with Some b => TargetBitrate.encode b | None => [] end in
  (forall b, t = Some b -> Forall TargetBitrate.item_ok (TargetBitrate.bitrates_ b) /\
     zlen (TargetBitrate.bitrates_ b) <= 65535) ->
  zlen a + zlen enc <= packet_end ->
  ExtendedReports.parse_blocks (xr_opt t + fuel)
    (ExtendedReports.Mk s o d None) (a ++ enc ++ rest) (zlen a) packet_end =
  ExtendedReports.parse_blocks fuel (ExtendedReports.Mk s o d t)
    ((a ++ enc) ++ rest) (zlen (a ++ enc)) packet_end.
Proof.
  intros enc Ht Hend. destruct t as [b|]; cbn [xr_opt Nat.add]; [|unfold enc; by rewrite app_nil_r].
  destruct (Ht b eq_refl) as [Hf Hn]. pose proof (target_Parse TargetBitrate.new b a rest Hf Hn) as HP.
  unfold enc in *. unfold TargetBitrate.encode in *.
  rewrite (parse_blocks_step fuel _ a TargetBitrate.kBlockType (zlen (TargetBitrate.bitrates_ b)));
    [|lia|done|by rewrite (concat_length TargetBitrate.encode_item 4)|].
  2: { rewrite !length_app, length_be_bytes, !Nat2Z.inj_add,
         (concat_length TargetBitrate.encode_item 4) in Hend by done. cbn in Hend. lia. }
  unfold ExtendedReports.ParseBlock. change (TargetBitrate.kBlockType =? Rrtr.kBlockType) with false.
  change (TargetBitrate.kBlockType =? Dlrr.kBlockType) with false. rewrite Z.eqb_refl.
  unfold ExtendedReports.ParseTargetBitrateBlock. rewrite HP. done.
Qed.

Lemma ExtendedReports_parse_body p rest : ExtendedReports.wf p ->
  ExtendedReports.Parse ExtendedReports.new
    (CommonHeader.Mk ExtendedReports.kPacketType 0 0 (zlen (ExtendedReports.body p))
       (ExtendedReports.body p ++ rest)) = Some (p, true).
Proof.
  intros Hp. destruct (ExtendedReports_small p Hp) as [Hd Ht].
  destruct Hp as (Hs & Hdf & Htf & Hl). unfold ExtendedReports.Parse. header_simpl. check_step.
  set (b1 := match ExtendedReports.rrtr_block_ p with Some r => Rrtr.encode r | None => [] end).
  set (b2 := Dlrr.encode (ExtendedReports.dlrr_block_ p)).
  set (b3 := match ExtendedReports.target_bitrate_ p with Some b => TargetBitrate.encode b | None => [] end).
  assert (Hbody : ExtendedReports.body p = be_bytes 4 (ExtendedReports.sender_ssrc_ p) ++ b1 ++ b2 ++ b3) by done.
  assert (Hlen : zlen (ExtendedReports.body p) = 4 + zlen b1 + zlen b2 + zlen b3).
  { rewrite Hbody, !length_app, length_be_bytes. lia. }
  unfold ExtendedReports.kXrBaseLength. ltb_false. rewrite Hlen, Hbody, <- !app_assoc.
  read_step. set (s := ExtendedReports.sender_ssrc_ p) in *.
  assert (Hfuel : exists base, S (Z.to_nat (4 + zlen b1 + zlen b2 + zlen b3)) =
    (xr_opt (ExtendedReports.rrtr_block_ p) +
      ((if Dlrr.is_set (ExtendedReports.dlrr_block_ p) then 1 else 0) +
        (xr_opt (ExtendedReports.target_bitrate_ p) + S base)))%nat).
  { exists (Z.to_nat (4 + zlen b1 + zlen b2 + zlen b3) -
      xr_opt (ExtendedReports.rrtr_block_ p) -
      (if Dlrr.is_set (ExtendedReports.dlrr_block_ p) then 1 else 0) -
      xr_opt (ExtendedReports.target_bitrate_ p))%nat.
    destruct (ExtendedReports.rrtr_block_ p), (Dlrr.is_set (ExtendedReports.dlrr_block_ p)),
      (ExtendedReports.target_bitrate_ p); cbn [xr_opt]; lia. }
  destruct Hfuel as [base ->].
  match goal with |- context [ExtendedReports.parse_blocks ?f ?t ?d 4 ?e] =>
    change (ExtendedReports.parse_blocks f t d 4 e)
      with (ExtendedReports.parse_blocks f t d (zlen (be_bytes 4 s)) e) end.
  change (Dlrr.ClearItems _) with Dlrr.new.
  pose proof (parse_blocks_rrtr ((if Dlrr.is_set (ExtendedReports.dlrr_block_ p) then 1 else 0) +
        (xr_opt (ExtendedReports.target_bitrate_ p) + S base)) s (ExtendedReports.rrtr_block_ p)
        (be_bytes 4 s) (b2 ++ b3 ++ rest) (4 + zlen b1 + zlen b2 + zlen b3)) as H1.
  cbv zeta in H1. fold b1 in H1. rewrite H1 by (rewrite length_be_bytes; lia).
  unfold b2 at 2. rewrite parse_blocks_dlrr; [|done|done|].
  2: { rewrite length_app, length_be_bytes. fold b2. lia. }
  fold b2.
  pose proof (parse_blocks_target (S base) s (ExtendedReports.rrtr_block_ p) (ExtendedReports.dlrr_block_ p)
    (ExtendedReports.target_bitrate_ p) ((be_bytes 4 s ++ b1) ++ b2) rest
    (4 + zlen b1 + zlen b2 + zlen b3)) as H3.
  cbv zeta in H3. fold b3 in H3. rewrite H3.
  - cbn [ExtendedReports.parse_blocks]. rewrite (proj2 (Z.leb_gt _ _)); [by destruct p|].
    rewrite !length_app, length_be_bytes. unfold ExtendedReports.kBlockHeaderSizeBytes. lia.
  - intros b Hb. split; auto.
  - rewrite !length_app, length_be_bytes. lia.
Qed.

(** What the blocks read so far occupy is bounded by the offset reached. *)
Definition xr_inv (p : ExtendedReports.t ntp) (cur : Z) : Prop :=
  is_u32 (ExtendedReports.sender_ssrc_ p) /\
  Forall Dlrr.info_ok (Dlrr.sub_blocks_ (ExtendedReports.dlrr_block_ p)) /\
  (forall b, ExtendedReports.target_bitrate_ p = Some b ->
     Forall TargetBitrate.item_ok (TargetBitrate.bitrates_ b)) /\
  ExtendedReports.BlockLength p <= 4 + cur.

Lemma ParseBlock_safe p data ty cur n :
  is_bytes data -> 0 <= cur -> 0 <= n -> cur + 4 + 4 * n <= zlen data ->
  read_u8 data cur = Some ty -> read_u16 data (cur + 2) = Some n -> xr_inv p cur ->
  exists p', ExtendedReports.ParseBlock p data ty cur n = Some p' /\ xr_inv p' (cur + 4 + 4 * n).
Proof.
  intros Hd Hc Hn0 Hl Hty Hn (Hs & Hdf & Htf & Hb).
  assert (Hpk : peek data cur = Some ty).
  { destruct (peek_u8_Some data cur) as (v & Hv & Hvr); [done|lia|]. rewrite Hv.
    unfold read_be in Hty. unfold peek in Hv. destruct (Z.leb_spec 0 cur); [|lia].
    rewrite load_Some in Hty by lia. cbn [fmap option_fmap option_map] in Hty.
    erewrite drop_S in Hty by exact Hv. cbn [take] in Hty. rewrite <- Hty. f_equal.
    unfold ByteReader.ReadBigEndian, ByteReader.ReadBigEndian1. cbn. unfold uw. symmetry.
    rewrite Z.mod_small by (unfold is_u8 in *; lia). done. }
  unfold ExtendedReports.ParseBlock. unfold ExtendedReports.BlockLength in *.
  destruct (dlrr_length_aligned (ExtendedReports.dlrr_block_ p)) as (_ & Hd0 & _).
  assert (Hgrow : xr_inv p (cur + 4 + 4 * n)).
  { unfold xr_inv, ExtendedReports.BlockLength. splits; try done. lia. }
  destruct (Z.eqb_spec ty Rrtr.kBlockType) as [->|].
  { unfold ExtendedReports.ParseRrtrBlock.
    destruct (Z.eqb_spec n Rrtr.kBlockLength) as [->|]; [|by exists p]. cbn [negb].
    destruct (ExtendedReports.rrtr_block_ p) eqn:E; [by exists p|].
    destruct (rrtr_Parse_safe Rrtr.new data cur) as [r Hr]; [done|done|unfold Rrtr.kBlockLength in *; lia|done|done|].
    rewrite Hr. cbn [mbind option_bind]. eexists. split; [done|].
    unfold xr_inv, ExtendedReports.BlockLength, ExtendedReports.RrtrLength, ExtendedReports.DlrrLength,
      ExtendedReports.TargetBitrateLength in *. rewrite E in Hb. cbn in *.
    splits; try done. unfold Rrtr.kLength, Rrtr.kBlockLength. lia. }
  destruct (Z.eqb_spec ty Dlrr.kBlockType) as [->|].
  { unfold ExtendedReports.ParseDlrrBlock. destruct (Dlrr.is_set _) eqn:E; [by exists p|].
    destruct (dlrr_Parse_safe (ExtendedReports.dlrr_block_ p) data cur n) as (d & ok & -> & Hok); try done.
    cbn [mbind option_bind]. eexists. split; [done|].
    unfold xr_inv, ExtendedReports.BlockLength, ExtendedReports.RrtrLength, ExtendedReports.DlrrLength,
      ExtendedReports.TargetBitrateLength in *. cbn [ExtendedReports.sender_ssrc_
      ExtendedReports.rrtr_block_ ExtendedReports.dlrr_block_ ExtendedReports.target_bitrate_].
    destruct ok; [destruct Hok|subst d]; splits; try done; lia. }
  destruct (Z.eqb_spec ty TargetBitrate.kBlockType) as [->|]; [|by exists p].
  unfold ExtendedReports.ParseTargetBitrateBlock.
  destruct (target_Parse_safe TargetBitrate.new data cur n) as (b & -> & Hbf & Hbl); try done.
  cbn [mbind option_bind]. eexists. split; [done|].
  unfold xr_inv, ExtendedReports.BlockLength, ExtendedReports.RrtrLength, ExtendedReports.DlrrLength,
    ExtendedReports.TargetBitrateLength in *. cbn [ExtendedReports.sender_ssrc_
    ExtendedReports.rrtr_block_ ExtendedReports.dlrr_block_ ExtendedReports.target_bitrate_].
  splits; try done; [by intros b' [= <-]|].
  destruct (ExtendedReports.target_bitrate_ p) as [b'|]; [|lia].
  assert (0 <= TargetBitrate.BlockLength b').
  { unfold TargetBitrate.BlockLength, TargetBitrate.kTargetBitrateHeaderSizeBytes,
      TargetBitrate.kBitrateItemSizeBytes. lia. }
  lia.
Qed.

Lemma parse_blocks_safe fuel p data cur packet_end :
  is_bytes data -> 0 <= cur <= packet_end -> packet_end <= zlen data ->
  packet_end - cur < Z.of_nat fuel -> xr_inv p cur ->
  exists p' ok, ExtendedReports.parse_blocks fuel p data cur packet_end = Some (p', ok) /\
    (ok = true -> xr_inv p' packet_end).
Proof.
  intros Hd. revert p cur. induction fuel as [|fuel IH]; intros p cur Hc Hend Hfuel Hinv; [lia|].
  cbn [ExtendedReports.parse_blocks]. unfold ExtendedReports.kBlockHeaderSizeBytes.
  destruct (Z.leb_spec (cur + 4) packet_end).
  - destruct (read_be_Some 8 1 data cur) as (ty & Hty & Htr); [done|lia|lia|lia|].
    destruct (read_u16_Some data (cur + 2)) as (n & Hn & Hnr); [done|lia|lia|]. unfold is_u16 in *.
    rewrite Hty. cbn [mbind option_bind]. rewrite Hn. cbn [mbind option_bind]. rewrite Z.gtb_ltb.
    destruct (Z.ltb_spec packet_end (cur + 4 + n * 4)); [by eexists _, false|].
    destruct (ParseBlock_safe p data ty cur n) as (p' & -> & Hp'); try done; try lia.
    cbn [mbind option_bind]. replace (cur + 4 + 4 * n) with (cur + 4 + n * 4) in Hp' by lia.
    apply IH; try done; lia.
  - eexists _, true. split; [done|]. intros _. destruct Hinv as (? & ? & ? & ?).
    unfold xr_inv. splits; try done. lia.
Qed.

Lemma ExtendedReports_Parse_safe p h :
  CommonHeader.valid h -> CommonHeader.type h = ExtendedReports.kPacketType ->
  exists p' ok, ExtendedReports.Parse p h = Some (p', ok) /\ (ok = true -> ExtendedReports.wf p').
Proof.
  intros [_ _ Hpad Hs Hb Hfit Hw _] Ht. unfold ExtendedReports.Parse. rewrite Ht, check_then by done.
  header_simpl. unfold is_u8, ExtendedReports.kXrBaseLength in *.
  destruct (Z.ltb_spec (CommonHeader.payload_size_ h) 4); [by eexists _, false|].
  safe_step.
  destruct (parse_blocks_safe (S (Z.to_nat (CommonHeader.payload_size_ h)))
    (ExtendedReports.Mk v None (Dlrr.ClearItems (ExtendedReports.dlrr_block_ p)) None)
    (CommonHeader.payload_ h) 4 (CommonHeader.payload_size_ h)) as (p' & b & -> & Hi);
    [done|lia|lia|lia| |].
  { unfold xr_inv. cbn. splits; try done. }
  exists p', b. split; [done|]. intros Hbt. destruct (Hi Hbt) as (? & ? & ? & ?).
  unfold ExtendedReports.wf. splits; try done. lia.
Qed.

Lemma ExtendedReports_standard :
  standard ExtendedReports.wf ExtendedReports.wf (fun _ => 0) ExtendedReports.body
    (fun p => p : ExtendedReports.t ntp).
Proof.
  constructor; try done; intros p.
  - intros _. apply ExtendedReports_aligned.
  - intros (_ & _ & _ & Hl). rewrite ExtendedReports_length_body in Hl. lia.
  - intros _. apply ExtendedReports_length_body.
  - intros m cb st Hp Hi Hm Hb _. rewrite <- create_result_append with (max_length := m) (callback := cb) by done.
    apply ExtendedReports_Create_spec; [done|lia].
  - intros rest. apply ExtendedReports_parse_body.
  - intros h Hv Ht _. destruct (ExtendedReports_Parse_safe p h Hv Ht) as (p' & b & E & Hi). by exists p', b.
Qed.

#[global] Instance ExtendedReports_laws : RtcpCodecLaws (ExtendedReports.t ntp) :=
  standard_laws _ _ _ _ _ ExtendedReports_standard.

End ntp.

(** ** Properties *)

(** Extended reports.  A report with an RRTR block, DLRR items and target bitrates in
    any combination is written at the index as BlockLength octets and parses back to the
    same blocks (a target bitrate block, or an RRTR, that is present or absent included);
    AddDlrrItem accepts up to 50 items and leaves a full report alone; and on any valid
    header the block loop of Parse ends inside the payload with the fields in range. *)
Theorem extended_reports {ntp : Type} `{NtpTimeLaws ntp} `{RtcNumericsLaws}
    (p : ExtendedReports.t ntp) item h max_length callback st :
  ExtendedReports.wf p -> 0 <= windex st ->
  windex st + ExtendedReports.BlockLength p <= max_length ->
  max_length <= zlen (wbuf st) -> max_length < 2 ^ 64 -> CommonHeader.valid h ->
  roundtrips (ExtendedReports.Create p max_length callback) (ExtendedReports.Parse ExtendedReports.new)
    (ExtendedReports.BlockLength p) p st /\
  (let items := Dlrr.sub_blocks_ (ExtendedReports.dlrr_block_ p) in
   exists p' ok, ExtendedReports.AddDlrrItem p item = (p', ok) /\ ok = (zlen items <? 50) /\
     Dlrr.sub_blocks_ (ExtendedReports.dlrr_block_ p') = items ++ (if ok : bool then [item] else [])) /\
  (CommonHeader.type h = ExtendedReports.kPacketType ->
   exists p' ok, ExtendedReports.Parse p h = Some (p', ok) /\ (ok = true -> ExtendedReports.wf p')).
Proof.
  intros Hp Hi Hm Hb H64 Hv. splits.
  - exact (codec_roundtrip p max_length callback st Hp Hi Hm Hb H64).
  - cbv zeta. unfold ExtendedReports.AddDlrrItem, ExtendedReports.kMaxNumberOfDlrrItems. rewrite Z.geb_leb.
    set (items := Dlrr.sub_blocks_ _).
    destruct (Z.leb_spec 50 (zlen items)), (Z.ltb_spec (zlen items) 50); try lia;
      eexists _, _; (split; [reflexivity|]); split; try done.
    by rewrite app_nil_r.
  - intros Ht. by apply ExtendedReports_Parse_safe.
Qed.

Lemma extended_reports_witness :
  let p := ExtendedReports.Mk 7 (Some (Rrtr.Mk (ntp_Set 1 2)))
    (Dlrr.Mk [Dlrr.MkInfo 3 4 5]) (Some (TargetBitrate.Mk [TargetBitrate.MkItem 0 1 300])) in
  roundtrips (ExtendedReports.Create p 60 false) (ExtendedReports.Parse (ntp := ntp_value) ExtendedReports.new)
    44 p (WState (replicate 60 5) 4 []).
Proof.
  apply (extended_reports (ExtendedReports.Mk 7 (Some (Rrtr.Mk (ntp_Set 1 2)))
    (Dlrr.Mk [Dlrr.MkInfo 3 4 5]) (Some (TargetBitrate.Mk [TargetBitrate.MkItem 0 1 300]))) (Dlrr.MkInfo 3 4 5)
    (CommonHeader.Mk 207 0 0 0 []) 60 false (WState (replicate 60 5) 4 [])).
  - split; [decide_wf|]. split; [decide_wf|]. split; [|decide_wf]. intros b Eb. injection Eb as <-. decide_wf.
  - decide_wf.
  - decide_wf.
  - decide_wf.
  - decide_wf.
  - constructor; decide_wf.
Defined.
