(* ===== verification/RtcpChunk.v ===== *)
(** * Packet status chunks: TransportFeedback::LastChunk

    The class nested in rtcp_packet/transport_feedback.{h,cc} that turns a run
    of delta sizes (0: packet lost, 1 or 2: octets of its receive delta) into
    16-bit chunks and back.  [symbols] is the list a chunk object stands for,
    [chunk_symbols] the list a chunk on the wire stands for.

    The array delta_sizes_ is not initialised by the constructor: [delta_sizes_]
    lists the elements stored so far, and an access past them fails. *)

From S2P Require Import Prelude ByteIo Buffers RtcpCore.

Module LastChunk.

Record t := Mk {
  delta_sizes_ : list Z;      (* DeltaSize[kMaxVectorCapacity] *)
  size_ : Z;                  (* size_t *)
  all_same_ : bool;
  has_large_delta_ : bool
}.

Definition kMaxRunLengthCapacity : Z := 0x1fff.
Definition kMaxOneBitCapacity : Z := 14.
Definition kMaxTwoBitCapacity : Z := 7.
Definition kMaxVectorCapacity : Z := kMaxOneBitCapacity.
Definition kLarge : Z := 2.

(** delta_sizes_[i], and delta_sizes_[i] = x. *)
Definition get (ds : list Z) (i : Z) : option Z := ds !! Z.to_nat i.

Definition set (i x : Z) (ds : list Z) : option (list Z) :=
  check (i <? kMaxVectorCapacity) ;;
  if i <? zlen ds then Some (<[Z.to_nat i := x]> ds)
  else if i =? zlen ds then Some (ds ++ [x]) else None.

Definition Empty (this : t) : bool := size_ this =? 0.

Definition Clear (this : t) : t := Mk (delta_sizes_ this) 0 true false.

Definition new : t := Clear (Mk [] 0 true false).

Definition CanAdd (this : t) (delta_size : Z) : option bool :=
  check (delta_size <=? 2) ;;
  if size_ this <? kMaxTwoBitCapacity then Some true else
  if (size_ this <? kMaxOneBitCapacity) && negb (has_large_delta_ this) &&
     negb (delta_size =? kLarge) then Some true else
  if (size_ this <? kMaxRunLengthCapacity) && all_same_ this then
    d0 ← get (delta_sizes_ this) 0; Some (d0 =? delta_size)
  else Some false.

Definition Add (this : t) (delta_size : Z) : option t :=
  can_add ← CanAdd this delta_size;
  check can_add ;;
  ds ← (if size_ this <? kMaxVectorCapacity
        then set (size_ this) delta_size (delta_sizes_ this)
        else Some (delta_sizes_ this));
  all_same ← (if all_same_ this then d0 ← get ds 0; Some (delta_size =? d0)
              else Some false);
  Some (Mk ds (size_ this + 1) all_same
          (has_large_delta_ this || (delta_size =? kLarge))).

(** for (i) chunk |= delta_sizes_[i] << shift(i), over the given indices. *)
Fixpoint or_loop (ds : list Z) (shift : Z -> Z) (ix : list Z) (chunk : Z) : option Z :=
  match ix with
  | [] => Some chunk
  | i :: ix' =>
      d ← get ds i;
      check (0 <=? shift i) ;;
      or_loop ds shift ix' (u16 (Z.lor chunk (Z.shiftl d (shift i))))
  end.

Definition EncodeOneBit (this : t) : option Z :=
  check (negb (has_large_delta_ this)) ;;
  check (size_ this <=? kMaxOneBitCapacity) ;;
  or_loop (delta_sizes_ this) (fun i => kMaxOneBitCapacity - 1 - i)
    (seqZ 0 (size_ this)) 0x8000.

Definition EncodeTwoBit (this : t) (size : Z) : option Z :=
  check (size <=? size_ this) ;;
  or_loop (delta_sizes_ this) (fun i => 2 * (kMaxTwoBitCapacity - 1 - i))
    (seqZ 0 size) 0xc000.

Definition EncodeRunLength (this : t) : option Z :=
  check (all_same_ this) ;;
  check (size_ this <=? kMaxRunLengthCapacity) ;;
  d0 ← get (delta_sizes_ this) 0;
  Some (u16 (Z.lor (Z.shiftl d0 13) (u16 (size_ this)))).

(** The loop of Emit that moves the remaining delta sizes to the front. *)
Fixpoint shift_loop (ix : list Z) (ds : list Z) (all_same has_large : bool)
  : option (list Z * bool * bool) :=
  match ix with
  | [] => Some (ds, all_same, has_large)
  | i :: ix' =>
      delta_size ← get ds (kMaxTwoBitCapacity + i);
      ds ← set i delta_size ds;
      d0 ← get ds 0;
      shift_loop ix' ds (all_same && (delta_size =? d0))
        (has_large || (delta_size =? kLarge))
  end.

Definition Emit (this : t) : option (Z * t) :=
  can0 ← CanAdd this 0; can1 ← CanAdd this 1; can2 ← CanAdd this 2;
  check (negb can0 || negb can1 || negb can2) ;;
  if all_same_ this then
    chunk ← EncodeRunLength this; Some (chunk, Clear this)
  else if size_ this =? kMaxOneBitCapacity then
    chunk ← EncodeOneBit this; Some (chunk, Clear this)
  else
    check (kMaxTwoBitCapacity <=? size_ this) ;;
    chunk ← EncodeTwoBit this kMaxTwoBitCapacity;
    let size := size_ this - kMaxTwoBitCapacity in
    '(ds, all_same, has_large) ← shift_loop (seqZ 0 size) (delta_sizes_ this) true false;
    Some (chunk, Mk ds size all_same has_large).

Definition EncodeLast (this : t) : option Z :=
  check (0 <? size_ this) ;;
  if all_same_ this then EncodeRunLength this
  else if size_ this <=? kMaxTwoBitCapacity then EncodeTwoBit this (size_ this)
  else EncodeOneBit this.

(** deltas->insert(deltas->end(), ...). *)
Definition AppendTo (this : t) (deltas : list Z) : option (list Z) :=
  if all_same_ this then
    if size_ this =? 0 then Some deltas else
    d0 ← get (delta_sizes_ this) 0;
    Some (deltas ++ replicate (Z.to_nat (size_ this)) d0)
  else
    check (size_ this <=? zlen (delta_sizes_ this)) ;;
    Some (deltas ++ take (Z.to_nat (size_ this)) (delta_sizes_ this)).

(** for (i) delta_sizes_[i] = f(i), over the given indices. *)
Fixpoint set_loop (f : Z -> Z) (ix : list Z) (ds : list Z) : option (list Z) :=
  match ix with
  | [] => Some ds
  | i :: ix' => ds ← set i (f i) ds; set_loop f ix' ds
  end.

Definition DecodeOneBit (this : t) (chunk max_size : Z) : option t :=
  check (Z.land chunk 0xc000 =? 0x8000) ;;
  let size := Z.min kMaxOneBitCapacity max_size in
  ds ← set_loop (fun i => Z.land (Z.shiftr chunk (kMaxOneBitCapacity - 1 - i)) 0x01)
         (seqZ 0 size) (delta_sizes_ this);
  Some (Mk ds size false false).

Definition DecodeTwoBit (this : t) (chunk max_size : Z) : option t :=
  check (Z.land chunk 0xc000 =? 0xc000) ;;
  let size := Z.min kMaxTwoBitCapacity max_size in
  ds ← set_loop (fun i => Z.land (Z.shiftr chunk (2 * (kMaxTwoBitCapacity - 1 - i))) 0x03)
         (seqZ 0 size) (delta_sizes_ this);
  Some (Mk ds size false true).

Definition DecodeRunLength (this : t) (chunk max_count : Z) : option t :=
  check (Z.land chunk 0x8000 =? 0) ;;
  let size := Z.min (Z.land chunk 0x1fff) max_count in
  let delta_size := Z.land (Z.shiftr chunk 13) 0x03 in
  ds ← set_loop (fun _ => delta_size) (seqZ 0 (Z.min size kMaxVectorCapacity))
         (delta_sizes_ this);
  Some (Mk ds size true (kLarge <=? delta_size)).

Definition Decode (this : t) (chunk max_size : Z) : option t :=
  if Z.land chunk 0x8000 =? 0 then DecodeRunLength this chunk max_size
  else if Z.land chunk 0x4000 =? 0 then DecodeOneBit this chunk max_size
  else DecodeTwoBit this chunk max_size.

(** ** Specification *)

(** The delta sizes a chunk object stands for. *)
Definition symbols (this : t) : list Z :=
  if all_same_ this
  then replicate (Z.to_nat (size_ this)) (hd 0 (delta_sizes_ this))
  else take (Z.to_nat (size_ this)) (delta_sizes_ this).

(** The delta sizes a chunk on the wire stands for: its two top bits tell a run
    length (0x) from fourteen one bit (10) or seven two bit (11) symbols. *)
Definition chunk_symbols (chunk : Z) : list Z :=
  if chunk / 2 ^ 14 <? 2 then
    replicate (Z.to_nat (chunk mod 2 ^ 13)) (chunk / 2 ^ 13 mod 4)
  else if chunk / 2 ^ 14 =? 2 then
    map (fun i => (chunk / 2 ^ (13 - i)) mod 2) (seqZ 0 14)
  else map (fun i => (chunk / 2 ^ (2 * (6 - i))) mod 4) (seqZ 0 7).

(** The stored part of the array, and the invariant of the class. *)
Definition stored (this : t) : list Z :=
  take (Z.to_nat (Z.min (size_ this) kMaxVectorCapacity)) (delta_sizes_ this).

Record inv (this : t) : Prop := {
  inv_size : 0 <= size_ this <= kMaxRunLengthCapacity;
  inv_array : Z.min (size_ this) kMaxVectorCapacity <= zlen (delta_sizes_ this) <= kMaxVectorCapacity;
  inv_range : Forall (fun d => 0 <= d < 4) (stored this);
  inv_same : all_same_ this = true -> Forall (fun d => d = hd 0 (delta_sizes_ this)) (stored this);
  inv_large : has_large_delta_ this = false -> Forall (fun d => d < 2) (stored this);
  inv_mixed : all_same_ this = false -> size_ this <= 14 /\
                (7 < size_ this -> has_large_delta_ this = false)
}.

End LastChunk.

(** Unfold the capacities. *)
Ltac caps :=
  unfold LastChunk.kMaxRunLengthCapacity, LastChunk.kMaxVectorCapacity,
    LastChunk.kMaxOneBitCapacity, LastChunk.kMaxTwoBitCapacity, LastChunk.kLarge in *.

(** ** Digits: what the vector chunks store *)

Definition digits (s : Z) (l : list Z) (m : Z) : Z := fold_left (fun m d => m * 2 ^ s + d) l m.

Lemma digits_app s l1 l2 m : digits s (l1 ++ l2) m = digits s l2 (digits s l1 m).
Proof. apply fold_left_app. Qed.

Lemma digits_top s l m e : 0 <= s -> 0 <= e -> Forall (fun d => 0 <= d < 2 ^ s) l ->
  (digits s l m * 2 ^ e) / 2 ^ (s * zlen l + e) = m.
Proof.
  intros Hs He Hl. revert m. induction Hl as [|d l Hd _ IH]; intros m.
  - cbn [length digits fold_left]. rewrite Z.mul_0_r, Z.add_0_l. apply Z.div_mul.
    apply Z.pow_nonzero; lia.
  - change (digits s (d :: l) m) with (digits s l (m * 2 ^ s + d)).
    assert (E : s * zlen (d :: l) + e = (s * zlen l + e) + s) by (cbn [length]; lia).
    rewrite E, Z.pow_add_r by nia. rewrite <- Z.div_div by (try apply Z.pow_nonzero; try apply Z.pow_pos_nonneg; nia).
    rewrite IH. symmetry. apply (Z.div_unique_pos _ _ _ d); lia.
Qed.

(** Each symbol is found at its place. *)
Lemma digits_nth s k m l l1 d l2 :
  0 <= s -> l = l1 ++ d :: l2 -> zlen l <= k -> Forall (fun d => 0 <= d < 2 ^ s) l ->
  ((digits s l m * 2 ^ (s * (k - zlen l))) / 2 ^ (s * (k - 1 - zlen l1))) mod 2 ^ s = d.
Proof.
  intros Hs -> Hk Hl. apply Forall_app in Hl as [_ Hl]. apply Forall_cons_iff in Hl as [Hd Hl2].
  rewrite digits_app. change (digits s (d :: l2) ?m) with (digits s l2 (m * 2 ^ s + d)).
  rewrite length_app in *. cbn [length] in *.
  replace (s * (k - 1 - zlen l1)) with
    (s * zlen l2 + s * (k - Z.of_nat (length l1 + S (length l2)))) by lia.
  rewrite digits_top by (done || nia). rewrite Z.add_comm, Z.mod_add by (apply Z.pow_nonzero; lia).
  by apply Z.mod_small.
Qed.

Lemma digits_bound s l m : 0 <= s -> 0 <= m -> Forall (fun d => 0 <= d < 2 ^ s) l ->
  m * 2 ^ (s * zlen l) <= digits s l m < (m + 1) * 2 ^ (s * zlen l).
Proof.
  intros Hs Hm Hl. revert m Hm. induction Hl as [|d l Hd _ IH]; intros m Hm.
  - cbn [length digits fold_left]. rewrite Z.mul_0_r. lia.
  - change (digits s (d :: l) m) with (digits s l (m * 2 ^ s + d)).
    assert (0 <= m * 2 ^ s) by nia. specialize (IH (m * 2 ^ s + d) ltac:(lia)).
    assert (E : s * zlen (d :: l) = s + s * zlen l) by (cbn [length]; lia).
    rewrite E, Z.pow_add_r by nia.
    assert (0 < 2 ^ (s * zlen l)) by (apply Z.pow_pos_nonneg; nia). nia.
Qed.

(** The loop of the two encoders builds them. *)
Lemma or_loop_spec s k l pre post m :
  0 <= s -> s * k = 14 -> 0 <= m < 4 -> zlen (pre ++ l) <= k ->
  Forall (fun d => 0 <= d < 2 ^ s) (pre ++ l) ->
  LastChunk.or_loop (pre ++ l ++ post) (fun i => s * (k - 1 - i)) (seqZ (zlen pre) (zlen l))
    (digits s pre m * 2 ^ (s * (k - zlen pre))) =
  Some (digits s (pre ++ l) m * 2 ^ (s * (k - zlen (pre ++ l)))).
Proof.
  intros Hs Hsk Hm. revert pre. induction l as [|d l IH]; intros pre Hk Hl.
  - by rewrite app_nil_r.
  - rewrite length_app in Hk. cbn [length] in *. change ((d :: l) ++ post) with (d :: l ++ post).
    rewrite seqZ_cons by lia. cbn [LastChunk.or_loop].
    unfold LastChunk.get. rewrite Nat2Z.id, list_lookup_middle by done. cbn [mbind option_bind].
    assert (Hnn : 0 <= s * (k - 1 - zlen pre)) by nia.
    rewrite check_then by by apply Z.leb_le.
    replace (Z.pred (Z.of_nat (S (length l)))) with (zlen l) by lia.
    specialize (IH (pre ++ [d])).
    assert (Z1 : zlen (pre ++ [d]) = Z.succ (zlen pre)) by (rewrite length_app; cbn [length]; lia).
    rewrite Z1, <- !app_assoc in IH. cbn [app] in IH.
    rewrite <- IH; [|rewrite length_app; cbn [length]; lia|done]. f_equal.
    apply Forall_app in Hl as [Hpre Hl]. apply Forall_cons_iff in Hl as [Hd _].
    rewrite digits_app. change (digits s [d] ?m) with (m * 2 ^ s + d).
    set (M := digits s pre m). set (e := s * (k - 1 - zlen pre)) in *.
    replace (s * (k - zlen pre)) with (s + e) by (unfold e; lia).
    replace (s * (k - Z.succ (zlen pre))) with e by (unfold e; lia).
    rewrite Z.pow_add_r, Z.mul_assoc by done. rewrite <- (Z.shiftl_mul_pow2 (M * 2 ^ s)) by done.
    rewrite <- Z.shiftl_lor, lor_shift_add by done. rewrite Z.shiftl_mul_pow2 by done.
    apply u16_id. unfold is_u16. fold M.
    pose proof (digits_bound s (pre ++ [d]) m Hs ltac:(lia)) as Hb.
    rewrite digits_app in Hb. change (digits s [d] ?m) with (m * 2 ^ s + d) in Hb. fold M in Hb.
    rewrite length_app in Hb. cbn [length] in Hb.
    assert (Hf : Forall (fun d => 0 <= d < 2 ^ s) (pre ++ [d])) by (apply Forall_app; split; [done|constructor; [done|constructor]]).
    specialize (Hb Hf).
    assert (Hpos : 0 < 2 ^ e) by by apply Z.pow_pos_nonneg.
    assert (Hpos2 : 0 < 2 ^ (s * Z.of_nat (length pre + 1))) by (apply Z.pow_pos_nonneg; nia).
    assert (Hprod : 2 ^ (s * Z.of_nat (length pre + 1)) * 2 ^ e = 2 ^ 14).
    { rewrite <- Z.pow_add_r by nia. f_equal. unfold e. nia. }
    change (2 ^ 14) with 16384 in Hprod. nia.
Qed.

(** ** Decoding *)

(** The two top bits of a chunk. *)
Lemma chunk_head chunk : is_u16 chunk ->
  (Z.land chunk 0x8000 =? 0) = (chunk / 2 ^ 14 <? 2) /\
  (2 <= chunk / 2 ^ 14 -> (Z.land chunk 0x4000 =? 0) = (chunk / 2 ^ 14 =? 2)) /\
  Z.land chunk 0xc000 = chunk / 2 ^ 14 * 2 ^ 14.
Proof.
  intros Hc. unfold is_u16 in Hc. split; [|split].
  - rewrite (land_top 15) by (cbn; lia). change (2 ^ 14) with 16384. change (2 ^ 15) with 32768.
    destruct (Z.ltb_spec chunk 32768), (Z.ltb_spec (chunk / 16384) 2); try done; exfalso; dlia.
  - intros Hh. pose proof (testbit_land_pow2 chunk 14 ltac:(lia)) as Ht.
    change (2 ^ 14) with 16384 in *. apply (f_equal negb) in Ht. rewrite negb_involutive in Ht.
    rewrite Ht, Z.testbit_odd, Z.shiftr_div_pow2 by done. change (2 ^ 14) with 16384.
    assert (Hr : chunk / 16384 = 2 \/ chunk / 16384 = 3) by dlia. by destruct Hr as [-> | ->].
  - change 0xc000 with (Z.shiftl 3 14). rewrite <- Z.shiftl_mul_pow2, <- Z.shiftr_div_pow2 by done.
    apply Z.bits_inj'. intros i Hi. rewrite Z.land_spec.
    destruct (Z.lt_ge_cases i 14) as [Hlt|Hge].
    + rewrite !Z.shiftl_spec_low by done. apply andb_false_r.
    + rewrite !Z.shiftl_spec by done. rewrite Z.shiftr_spec by lia. rewrite Z.sub_add.
      destruct (Z.lt_ge_cases i 16) as [Hlt|Hge'].
      * assert (Hi' : i - 14 = 0 \/ i - 14 = 1) by lia.
        destruct Hi' as [-> | ->]; apply andb_true_r.
      * rewrite <- (Z.mod_small chunk (2 ^ 16)) by done. by rewrite Z.mod_pow2_bits_high by lia.
Qed.

Lemma set_loop_spec f n a b :
  zlen a + Z.of_nat n <= 14 ->
  LastChunk.set_loop f (seqZ (zlen a) (Z.of_nat n)) (a ++ b) =
  Some (a ++ map f (seqZ (zlen a) (Z.of_nat n)) ++ drop n b).
Proof.
  revert a b. induction n as [|n IH]; intros a b Hn.
  - cbn. by rewrite drop_0.
  - rewrite seqZ_cons by lia. cbn [LastChunk.set_loop map].
    replace (Z.pred (Z.of_nat (S n))) with (Z.of_nat n) by lia.
    unfold LastChunk.set, LastChunk.kMaxVectorCapacity, LastChunk.kMaxOneBitCapacity.
    rewrite check_then by (apply Z.ltb_lt; lia).
    assert (E : exists b', (if zlen a <? zlen (a ++ b) then
        Some (<[Z.to_nat (zlen a) := f (zlen a)]> (a ++ b))
      else if zlen a =? zlen (a ++ b) then Some ((a ++ b) ++ [f (zlen a)]) else None) =
      Some ((a ++ [f (zlen a)]) ++ b') /\ drop n b' = drop (S n) b).
    { rewrite length_app, Nat2Z.id. destruct b as [|x b].
      - rewrite Nat.add_0_r, Z.ltb_irrefl, Z.eqb_refl, app_nil_r. exists []. 
        by rewrite app_nil_r, drop_nil.
      - destruct (Z.ltb_spec (zlen a) (Z.of_nat (length a + length (x :: b)))); [|cbn in *; lia].
        exists b. rewrite insert_app_r_alt, Nat.sub_diag by done. by rewrite <- app_assoc. }
    destruct E as (b' & -> & Hd). cbn [mbind option_bind].
    pose proof (IH (a ++ [f (zlen a)]) b') as IH'. rewrite length_app in IH'. cbn [length] in IH'.
    replace (Z.of_nat (length a + 1)) with (Z.succ (zlen a)) in IH' by lia.
    rewrite IH', Hd by lia. by rewrite <- app_assoc.
Qed.

Lemma set_loop_0 f n ds : 0 <= n <= 14 ->
  LastChunk.set_loop f (seqZ 0 n) ds = Some (map f (seqZ 0 n) ++ drop (Z.to_nat n) ds).
Proof.
  intros Hn. pose proof (set_loop_spec f (Z.to_nat n) [] ds) as H. cbn [length app] in H.
  rewrite Z2Nat.id in H by lia. apply H. cbn. lia.
Qed.

Lemma length_map_seqZ {A} (f : Z -> A) n : 0 <= n -> zlen (map f (seqZ 0 n)) = n.
Proof. intros. rewrite length_map, length_seqZ. lia. Qed.

Lemma map_const_seqZ {A} (x : A) n : map (fun _ => x) (seqZ 0 n) = replicate (Z.to_nat n) x.
Proof.
  rewrite <- (length_seqZ 0 n). generalize (seqZ 0 n). induction l as [|y l IH]; [done|].
  cbn [map length replicate]. by rewrite IH.
Qed.

Lemma map_seqZ_take (f g : Z -> Z) k n : 0 <= n -> (forall i, 0 <= i < k -> f i = g i) ->
  map f (seqZ 0 (Z.min k n)) = take (Z.to_nat n) (map g (seqZ 0 k)).
Proof.
  intros Hn Hfg. rewrite firstn_map.
  assert (E : take (Z.to_nat n) (seqZ 0 k) = seqZ 0 (Z.min k n)).
  { destruct (Z.le_gt_cases k n).
    - rewrite Z.min_l, take_ge by (rewrite ?length_seqZ; lia). done.
    - rewrite Z.min_r by lia. replace k with (n + (k - n)) by lia.
      rewrite seqZ_app, take_app_le, take_ge by (rewrite ?length_seqZ; lia). done. }
  rewrite E. apply map_ext_in. intros i Hi%list_elem_of_In%elem_of_seqZ. apply Hfg. lia.
Qed.

(** The invariant of a freshly stored vector. *)
Lemma vector_inv f n ds large :
  0 <= n <= 14 -> zlen ds <= 14 -> (forall i, 0 <= f i < 4) ->
  (large = false -> forall i, f i < 2) -> (7 < n -> large = false) ->
  let c := LastChunk.Mk (map f (seqZ 0 n) ++ drop (Z.to_nat n) ds) n false large in
  LastChunk.inv c /\ LastChunk.symbols c = map f (seqZ 0 n).
Proof.
  intros Hn Hd Hf Hl H7 c.
  assert (Htake : take (Z.to_nat n) (map f (seqZ 0 n) ++ drop (Z.to_nat n) ds) = map f (seqZ 0 n)).
  { rewrite take_app_length'; [done|]. rewrite length_map, length_seqZ. lia. }
  assert (Hst : LastChunk.stored c = map f (seqZ 0 n)).
  { unfold LastChunk.stored, c, LastChunk.kMaxVectorCapacity, LastChunk.kMaxOneBitCapacity.
    cbn [LastChunk.size_ LastChunk.delta_sizes_]. by rewrite Z.min_l by lia. }
  split; [|exact Htake]. constructor; rewrite ?Hst; unfold c; cbn [LastChunk.size_ LastChunk.delta_sizes_
    LastChunk.all_same_ LastChunk.has_large_delta_];
    unfold LastChunk.kMaxRunLengthCapacity, LastChunk.kMaxVectorCapacity, LastChunk.kMaxOneBitCapacity.
  - lia.
  - rewrite length_app, length_map, length_seqZ, length_drop. lia.
  - apply Forall_map, List.Forall_forall. intros i _. apply Hf.
  - done.
  - intros E. apply Forall_map, List.Forall_forall. intros i _. by apply Hl.
  - intros _. split; [lia|done].
Qed.

Lemma run_inv d n ds : 0 <= n <= 8191 -> zlen ds <= 14 -> 0 <= d < 4 ->
  let c := LastChunk.Mk (replicate (Z.to_nat (Z.min n 14)) d ++ drop (Z.to_nat (Z.min n 14)) ds)
             n true (LastChunk.kLarge <=? d) in
  LastChunk.inv c /\ LastChunk.symbols c = replicate (Z.to_nat n) d.
Proof.
  intros Hn Hl Hd c.
  assert (Hst : LastChunk.stored c = replicate (Z.to_nat (Z.min n 14)) d).
  { unfold LastChunk.stored, c. cbn [LastChunk.size_ LastChunk.delta_sizes_].
    by rewrite take_app_length' by (by rewrite length_replicate). }
  assert (Hhd : 0 < n -> hd 0 (LastChunk.delta_sizes_ c) = d).
  { intros H0. unfold c. cbn [LastChunk.delta_sizes_].
    destruct (Z.to_nat (Z.min n 14)) eqn:E; [lia|done]. }
  split.
  - constructor; rewrite ?Hst; unfold c; cbn [LastChunk.size_ LastChunk.delta_sizes_
    LastChunk.all_same_ LastChunk.has_large_delta_];
    unfold LastChunk.kMaxRunLengthCapacity, LastChunk.kMaxVectorCapacity, LastChunk.kMaxOneBitCapacity.
    + lia.
    + rewrite length_app, length_replicate, length_drop. lia.
    + by apply Forall_replicate.
    + intros _. fold (LastChunk.delta_sizes_ c). destruct (Z.eq_dec n 0) as [->|]; [constructor|].
      apply Forall_replicate. unfold c in Hhd. cbn [LastChunk.delta_sizes_] in Hhd. by rewrite Hhd by lia.
    + intros E%Z.leb_gt. unfold LastChunk.kLarge in E. by apply Forall_replicate.
    + done.
  - unfold LastChunk.symbols. change (LastChunk.all_same_ c) with true. change (LastChunk.size_ c) with n.
    destruct (Z.eq_dec n 0) as [->|]; [done|]. by rewrite Hhd by lia.
Qed.

(** Decode of any chunk yields the symbols of the chunk, up to [max_size]. *)
Lemma Decode_spec this chunk max_size :
  is_u16 chunk -> 0 <= max_size -> zlen (LastChunk.delta_sizes_ this) <= 14 ->
  exists c, LastChunk.Decode this chunk max_size = Some c /\ LastChunk.inv c /\
    LastChunk.symbols c = take (Z.to_nat max_size) (LastChunk.chunk_symbols chunk).
Proof.
  intros Hc Hm Hl. destruct (chunk_head chunk Hc) as (H1 & H2 & H3).
  unfold LastChunk.Decode, LastChunk.chunk_symbols. rewrite H1. unfold is_u16 in Hc.
  destruct (Z.ltb_spec (chunk / 2 ^ 14) 2) as [Hh|Hh].
  - unfold LastChunk.DecodeRunLength. rewrite H1, check_then by done.
    rewrite (land_mask 13 8191), (land_mask 2 3), Z.shiftr_div_pow2 by done.
    set (d := (chunk / 2 ^ 13) mod 2 ^ 2). set (n := Z.min (chunk mod 2 ^ 13) max_size).
    assert (Hn : 0 <= n <= 8191) by (pose proof (Z.mod_pos_bound chunk (2 ^ 13)); lia).
    unfold LastChunk.kMaxVectorCapacity, LastChunk.kMaxOneBitCapacity.
    rewrite set_loop_0 by lia. cbn [mbind option_bind]. rewrite map_const_seqZ.
    destruct (run_inv d n (LastChunk.delta_sizes_ this)) as [Hi Hs];
      [done|done|by apply Z.mod_pos_bound|].
    eexists. split; [done|]. split; [done|]. rewrite Hs, take_replicate.
    change (2 ^ 2) with 4 in d. fold d. f_equal. pose proof (Z.mod_pos_bound chunk (2 ^ 13)). lia.
  - rewrite H2 by done. destruct (Z.eqb_spec (chunk / 2 ^ 14) 2) as [He|He].
    + unfold LastChunk.DecodeOneBit. rewrite H3, He, check_then by done.
      unfold LastChunk.kMaxOneBitCapacity. rewrite set_loop_0 by lia. cbn [mbind option_bind].
      destruct (vector_inv (fun i => Z.land (Z.shiftr chunk (14 - 1 - i)) 1) (Z.min 14 max_size)
        (LastChunk.delta_sizes_ this) false) as [Hi Hs]; [lia|done|..|done|].
      { intros i. rewrite (land_mask 1 1) by done. pose proof (Z.mod_pos_bound (Z.shiftr chunk (14 - 1 - i)) (2 ^ 1)). lia. }
      { intros _ i. rewrite (land_mask 1 1) by done. by apply Z.mod_pos_bound. }
      eexists. split; [done|]. split; [done|]. rewrite Hs.
      apply map_seqZ_take; [done|]. intros i Hi'. rewrite (land_mask 1 1), Z.shiftr_div_pow2 by lia.
      by replace (14 - 1 - i) with (13 - i) by lia.
    + unfold LastChunk.DecodeTwoBit. assert (chunk / 2 ^ 14 = 3) as Hh3 by (change (2 ^ 14) with 16384 in *; dlia).
      rewrite H3, Hh3, check_then by done.
      unfold LastChunk.kMaxTwoBitCapacity. rewrite set_loop_0 by lia. cbn [mbind option_bind].
      destruct (vector_inv (fun i => Z.land (Z.shiftr chunk (2 * (7 - 1 - i))) 3) (Z.min 7 max_size)
        (LastChunk.delta_sizes_ this) true) as [Hi Hs]; [lia|done|..|done|lia|].
      { intros i. rewrite (land_mask 2 3) by done. by apply Z.mod_pos_bound. }
      eexists. split; [done|]. split; [done|]. rewrite Hs.
      apply map_seqZ_take; [done|]. intros i Hi'. rewrite (land_mask 2 3), Z.shiftr_div_pow2 by lia.
      by replace (7 - 1 - i) with (6 - i) by lia.
Qed.

(** ** Encoding *)

Lemma or_loop_ext ds f g ix chunk : (forall i, f i = g i) ->
  LastChunk.or_loop ds f ix chunk = LastChunk.or_loop ds g ix chunk.
Proof.
  intros Hfg. revert chunk. induction ix as [|i ix IH]; intros chunk; [done|].
  cbn [LastChunk.or_loop]. rewrite Hfg. destruct (LastChunk.get ds i); [|done].
  cbn [mbind option_bind]. by rewrite IH.
Qed.

(** A vector chunk of [k] symbols of [s] bits with head [m] stores [l], padded. *)
Lemma vector_chunk s k m ds n :
  0 < s -> s * k = 14 -> 0 <= m < 4 -> 0 <= n <= k -> n <= zlen ds ->
  Forall (fun d => 0 <= d < 2 ^ s) (take (Z.to_nat n) ds) ->
  exists chunk,
    LastChunk.or_loop ds (fun i => s * (k - 1 - i)) (seqZ 0 n) (m * 2 ^ 14) = Some chunk /\
    is_u16 chunk /\ chunk / 2 ^ 14 = m /\
    take (Z.to_nat n) (map (fun i => (chunk / 2 ^ (s * (k - 1 - i))) mod 2 ^ s) (seqZ 0 k)) =
      take (Z.to_nat n) ds.
Proof.
  intros Hs Hsk Hm Hn Hds Hl. set (l := take (Z.to_nat n) ds) in *.
  assert (Hlen : zlen l = n) by (unfold l; rewrite length_take; lia).
  pose proof (or_loop_spec s k l [] (drop (Z.to_nat n) ds) m ltac:(lia) Hsk Hm) as H.
  cbn [app length] in H. change (digits s [] m) with m in H.
  rewrite Z.sub_0_r, Hsk, Hlen in H. unfold l at 2 in H. rewrite take_drop in H.
  specialize (H ltac:(lia) Hl). eexists. split; [exact H|].
  pose proof (digits_bound s l m ltac:(lia) ltac:(lia) Hl) as Hb. rewrite Hlen in Hb.
  assert (Hp : 2 ^ (s * n) * 2 ^ (s * (k - n)) = 2 ^ 14) by (rewrite <- Z.pow_add_r by nia; f_equal; lia).
  assert (Hpe : 0 < 2 ^ (s * (k - n))) by (apply Z.pow_pos_nonneg; nia).
  change (2 ^ 14) with 16384 in *. split; [unfold is_u16; nia|]. split.
  { symmetry. apply (Z.div_unique_pos _ _ _ (digits s l m * 2 ^ (s * (k - n)) - m * 16384)); nia. }
  apply list_eq_same_length with (Z.to_nat n).
  { lia. }
  { rewrite length_take, length_map, length_seqZ. lia. }
  intros i x y Hi Hx Hy. rewrite lookup_take_lt in Hx by lia.
  apply list_lookup_fmap_Some in Hx as (j & -> & Hj). apply lookup_seqZ in Hj as [-> _].
  rewrite Z.add_0_l.
  pose proof (take_drop_middle l i y Hy) as Hsplit.
  assert (Hi' : length (take i l) = i) by (rewrite length_take; lia).
  rewrite <- (digits_nth s k m l (take i l) y (drop (S i) l)) by (done || lia).
  by rewrite Hlen, Hi'.
Qed.

Lemma chunk_symbols_two chunk : chunk / 2 ^ 14 = 3 ->
  LastChunk.chunk_symbols chunk = map (fun i => (chunk / 2 ^ (2 * (6 - i))) mod 4) (seqZ 0 7).
Proof. intros E. unfold LastChunk.chunk_symbols. by rewrite E. Qed.

Lemma chunk_symbols_one chunk : chunk / 2 ^ 14 = 2 ->
  LastChunk.chunk_symbols chunk = map (fun i => (chunk / 2 ^ (13 - i)) mod 2) (seqZ 0 14).
Proof. intros E. unfold LastChunk.chunk_symbols. by rewrite E. Qed.

Section encode.
Context (c : LastChunk.t) (Hinv : LastChunk.inv c).

Lemma stored_short : LastChunk.size_ c <= 14 ->
  LastChunk.stored c = take (Z.to_nat (LastChunk.size_ c)) (LastChunk.delta_sizes_ c).
Proof. intros H. unfold LastChunk.stored. by rewrite Z.min_l. Qed.

Lemma symbols_short : LastChunk.size_ c <= 14 -> LastChunk.symbols c = LastChunk.stored c.
Proof.
  intros H. rewrite stored_short by done. unfold LastChunk.symbols.
  destruct (LastChunk.all_same_ c) eqn:E; [|done].
  pose proof (LastChunk.inv_same c Hinv E) as Hs. pose proof (LastChunk.inv_array c Hinv) as Ha.
  rewrite stored_short in Hs by done.
  replace (Z.to_nat (LastChunk.size_ c)) with
    (length (take (Z.to_nat (LastChunk.size_ c)) (LastChunk.delta_sizes_ c))) at 1.
  - apply replicate_as_elem_of. split; [done|]. intros x Hx.
    rewrite list.Forall_forall in Hs. by apply Hs.
  - rewrite length_take. pose proof (LastChunk.inv_size c Hinv). caps. lia.
Qed.

Lemma first_symbol : 0 < LastChunk.size_ c ->
  LastChunk.get (LastChunk.delta_sizes_ c) 0 = Some (hd 0 (LastChunk.delta_sizes_ c)) /\
  0 <= hd 0 (LastChunk.delta_sizes_ c) < 4.
Proof.
  intros H. pose proof (LastChunk.inv_array c Hinv) as Ha. pose proof (LastChunk.inv_range c Hinv) as Hr.
  unfold LastChunk.stored in Hr. destruct (LastChunk.delta_sizes_ c) as [|d ds].
  - cbn in Ha. unfold LastChunk.kMaxVectorCapacity, LastChunk.kMaxOneBitCapacity in Ha. lia.
  - split; [done|]. destruct (Z.to_nat (Z.min (LastChunk.size_ c) LastChunk.kMaxVectorCapacity)) eqn:E.
    + unfold LastChunk.kMaxVectorCapacity, LastChunk.kMaxOneBitCapacity in E. lia.
    + cbn [take] in Hr. by apply Forall_cons_iff in Hr as [? _].
Qed.

Lemma EncodeRunLength_spec : LastChunk.all_same_ c = true -> 0 < LastChunk.size_ c ->
  exists chunk, LastChunk.EncodeRunLength c = Some chunk /\ is_u16 chunk /\
    LastChunk.chunk_symbols chunk = LastChunk.symbols c.
Proof.
  intros Hs Hp. pose proof (LastChunk.inv_size c Hinv) as Hsz. unfold LastChunk.EncodeRunLength.
  destruct (first_symbol Hp) as [Hget Hd]. unfold LastChunk.kMaxRunLengthCapacity in *.
  rewrite Hs, (check_then (_ <=? _)), Hget by (apply Z.leb_le; lia). cbn [mbind option_bind check].
  set (d := hd 0 (LastChunk.delta_sizes_ c)) in *. set (n := LastChunk.size_ c) in *.
  rewrite (u16_id n), lor_shiftl_add by (unfold is_u16; change (2 ^ 13) with 8192; lia).
  change (2 ^ 13) with 8192. rewrite u16_id by (unfold is_u16; lia).
  eexists. split; [done|]. split; [unfold is_u16; lia|].
  unfold LastChunk.chunk_symbols, LastChunk.symbols. rewrite Hs. fold n d.
  change (2 ^ 14) with 16384. change (2 ^ 13) with 8192.
  destruct (Z.ltb_spec ((d * 8192 + n) / 16384) 2); [|dlia].
  f_equal; [f_equal|]; dlia.
Qed.

Lemma EncodeTwoBit_spec n : 0 <= n <= 7 -> n <= LastChunk.size_ c -> LastChunk.size_ c <= 14 ->
  exists chunk, LastChunk.EncodeTwoBit c n = Some chunk /\ is_u16 chunk /\
    take (Z.to_nat n) (LastChunk.chunk_symbols chunk) = take (Z.to_nat n) (LastChunk.symbols c) /\
    length (LastChunk.chunk_symbols chunk) = 7%nat.
Proof.
  intros Hn Hsz H14. rewrite symbols_short by done. pose proof (LastChunk.inv_array c Hinv) as Ha.
  pose proof (LastChunk.inv_range c Hinv) as Hr. rewrite stored_short in * by done.
  unfold LastChunk.EncodeTwoBit. rewrite check_then by by apply Z.leb_le.
  rewrite take_take, Nat.min_l by lia.
  unfold LastChunk.kMaxVectorCapacity, LastChunk.kMaxOneBitCapacity in Ha.
  destruct (vector_chunk 2 7 3 (LastChunk.delta_sizes_ c) n) as (chunk & E & Hu & Hh & Hl); try done; try lia.
  { replace (take (Z.to_nat n) (LastChunk.delta_sizes_ c)) with
      (take (Z.to_nat n) (take (Z.to_nat (LastChunk.size_ c)) (LastChunk.delta_sizes_ c)))
      by (rewrite take_take; f_equal; lia).
    by apply Forall_take. }
  exists chunk. split; [exact E|]. split; [done|]. rewrite chunk_symbols_two by done. by split.
Qed.

Lemma EncodeOneBit_spec : LastChunk.has_large_delta_ c = false -> LastChunk.size_ c <= 14 ->
  exists chunk, LastChunk.EncodeOneBit c = Some chunk /\ is_u16 chunk /\
    take (Z.to_nat (LastChunk.size_ c)) (LastChunk.chunk_symbols chunk) = LastChunk.symbols c /\
    length (LastChunk.chunk_symbols chunk) = 14%nat.
Proof.
  intros Hl H14. rewrite symbols_short by done. pose proof (LastChunk.inv_array c Hinv) as Ha.
  pose proof (LastChunk.inv_size c Hinv) as Hs.
  pose proof (LastChunk.inv_range c Hinv) as Hr. pose proof (LastChunk.inv_large c Hinv Hl) as Hr'.
  pose proof (proj2 (list.Forall_and _ _) (conj Hr Hr')) as Hrr. rewrite stored_short in * by done.
  unfold LastChunk.EncodeOneBit. rewrite Hl. cbn [negb]. rewrite !check_then by (done || by apply Z.leb_le).
  unfold LastChunk.kMaxVectorCapacity, LastChunk.kMaxOneBitCapacity in *.
  rewrite (or_loop_ext _ _ (fun i => 1 * (14 - 1 - i))) by (intros; lia).
  destruct (vector_chunk 1 14 2 (LastChunk.delta_sizes_ c) (LastChunk.size_ c)) as (chunk & E & Hu & Hh & Ht);
    try done; try lia.
  { eapply list.Forall_impl; [exact Hrr|]. cbn. lia. }
  exists chunk. split; [exact E|]. split; [done|]. rewrite chunk_symbols_one by done. split; [|done].
  by rewrite <- Ht.
Qed.

(** EncodeLast stores every symbol, padded with zeros at the end. *)
Lemma EncodeLast_spec : 0 < LastChunk.size_ c ->
  exists chunk, LastChunk.EncodeLast c = Some chunk /\ is_u16 chunk /\
    take (Z.to_nat (LastChunk.size_ c)) (LastChunk.chunk_symbols chunk) = LastChunk.symbols c.
Proof.
  intros Hp. unfold LastChunk.EncodeLast. rewrite check_then by by apply Z.ltb_lt.
  assert (Hlen : length (LastChunk.symbols c) = Z.to_nat (LastChunk.size_ c)).
  { unfold LastChunk.symbols. destruct (LastChunk.all_same_ c) eqn:E; [by rewrite length_replicate|].
    destruct (LastChunk.inv_mixed c Hinv E). pose proof (LastChunk.inv_array c Hinv).
    unfold LastChunk.kMaxVectorCapacity, LastChunk.kMaxOneBitCapacity in *. rewrite length_take. lia. }
  destruct (LastChunk.all_same_ c) eqn:E.
  - destruct EncodeRunLength_spec as (chunk & -> & Hu & Hs); [done|done|].
    exists chunk. split; [done|]. split; [done|]. rewrite Hs. apply take_ge. lia.
  - destruct (LastChunk.inv_mixed c Hinv E) as [H14 H7]. unfold LastChunk.kMaxTwoBitCapacity.
    destruct (Z.leb_spec (LastChunk.size_ c) 7).
    + destruct (EncodeTwoBit_spec (LastChunk.size_ c)) as (chunk & -> & Hu & Ht & _); [lia|lia|done|].
      exists chunk. split; [done|]. split; [done|]. rewrite Ht. apply take_ge. lia.
    + destruct EncodeOneBit_spec as (chunk & -> & Hu & Ht & _); [by apply H7|done|]. by exists chunk.
Qed.

End encode.

Lemma length_symbols c : LastChunk.inv c -> zlen (LastChunk.symbols c) = LastChunk.size_ c.
Proof.
  intros Hi. pose proof (LastChunk.inv_size c Hi). unfold LastChunk.symbols.
  destruct (LastChunk.all_same_ c) eqn:E; [rewrite length_replicate; lia|].
  destruct (LastChunk.inv_mixed c Hi E). pose proof (LastChunk.inv_array c Hi).
  rewrite length_take. caps. lia.
Qed.

Lemma stored_0 c : LastChunk.size_ c = 0 -> LastChunk.stored c = [].
Proof. intros E. unfold LastChunk.stored. rewrite E. by caps. Qed.

Lemma empty_inv c : LastChunk.size_ c = 0 -> zlen (LastChunk.delta_sizes_ c) <= 14 -> LastChunk.inv c.
Proof.
  intros E Hl. constructor; rewrite ?(stored_0 c E), ?E; caps; try done; lia.
Qed.

Lemma new_inv : LastChunk.inv LastChunk.new.
Proof. by apply empty_inv. Qed.

Lemma Clear_inv c : LastChunk.inv c ->
  LastChunk.inv (LastChunk.Clear c) /\ LastChunk.symbols (LastChunk.Clear c) = [].
Proof.
  intros Hi. split; [|done]. pose proof (LastChunk.inv_array c Hi). apply empty_inv; [done|].
  cbn. caps. lia.
Qed.

(** Storing after the elements in use. *)
Lemma set_next ds i x : 0 <= i < 14 -> i <= zlen ds <= 14 ->
  exists ds', LastChunk.set i x ds = Some ds' /\ i < zlen ds' <= 14 /\
    take (S (Z.to_nat i)) ds' = take (Z.to_nat i) ds ++ [x].
Proof.
  intros Hi Hl. pose proof (set_loop_spec (fun _ => x) 1 (take (Z.to_nat i) ds) (drop (Z.to_nat i) ds)) as H.
  assert (Ht : zlen (take (Z.to_nat i) ds) = i) by (rewrite length_take; lia).
  rewrite Ht, take_drop in H. specialize (H ltac:(lia)). rewrite seqZ_cons in H by done.
  cbn [LastChunk.set_loop map] in H. destruct (LastChunk.set i x ds) as [ds'|]; [|done].
  cbn in H. injection H as ->. eexists. split; [done|]. split.
  - rewrite length_app. cbn [length]. rewrite length_drop, length_drop. lia.
  - rewrite take_app_ge by lia. replace (S (Z.to_nat i) - length (take (Z.to_nat i) ds))%nat with 1%nat by lia.
    done.
Qed.

Definition can_add (c : LastChunk.t) (d : Z) : bool :=
  (LastChunk.size_ c <? 7) ||
  ((LastChunk.size_ c <? 14) && negb (LastChunk.has_large_delta_ c) && negb (d =? 2)) ||
  ((LastChunk.size_ c <? 8191) && LastChunk.all_same_ c && (hd 0 (LastChunk.delta_sizes_ c) =? d)).

Lemma CanAdd_spec c d : LastChunk.inv c -> d <= 2 -> LastChunk.CanAdd c d = Some (can_add c d).
Proof.
  intros Hi Hd. unfold LastChunk.CanAdd, can_add. rewrite check_then by (apply Z.leb_le; lia). caps.
  destruct (Z.ltb_spec (LastChunk.size_ c) 7); [done|]. cbn [orb].
  destruct (first_symbol c Hi) as [-> _]; [lia|].
  destruct ((LastChunk.size_ c <? 14) && negb (LastChunk.has_large_delta_ c) && negb (d =? 2)); [done|].
  by destruct ((LastChunk.size_ c <? 8191) && LastChunk.all_same_ c).
Qed.

Lemma CanAdd_full c d : LastChunk.inv c -> d <= 2 -> LastChunk.CanAdd c d = Some false ->
  7 <= LastChunk.size_ c.
Proof.
  intros Hi Hd. rewrite CanAdd_spec by done. unfold can_add.
  by destruct (Z.ltb_spec (LastChunk.size_ c) 7).
Qed.

Lemma hd_take {A} (d : A) n l : hd d (take (S n) l) = hd d l.
Proof. by destruct l. Qed.

Lemma Forall_snoc {A} (P : A -> Prop) l x : Forall P (l ++ [x]) <-> Forall P l /\ P x.
Proof. rewrite Forall_app, Forall_cons_iff. split; [tauto|]. intros []. by repeat split. Qed.

(** The invariant of an object with one more stored symbol. *)
Lemma add_short_inv c d ds' : LastChunk.inv c -> 0 <= d <= 2 -> can_add c d = true ->
  LastChunk.size_ c < 14 -> LastChunk.size_ c < zlen ds' <= 14 ->
  take (S (Z.to_nat (LastChunk.size_ c))) ds' = LastChunk.stored c ++ [d] ->
  let c' := LastChunk.Mk ds' (LastChunk.size_ c + 1)
              (LastChunk.all_same_ c && (d =? hd 0 ds'))
              (LastChunk.has_large_delta_ c || (d =? 2)) in
  LastChunk.inv c' /\ LastChunk.symbols c' = LastChunk.symbols c ++ [d].
Proof.
  intros Hi Hd Hcan H14 Hl Ht c'. pose proof (LastChunk.inv_size c Hi) as Hsz.
  assert (Hst : LastChunk.stored c' = LastChunk.stored c ++ [d]).
  { unfold LastChunk.stored at 1, c'. cbn [LastChunk.size_ LastChunk.delta_sizes_]. caps.
    rewrite Z.min_l by lia. rewrite <- Ht. f_equal. lia. }
  assert (Hhd : 0 < LastChunk.size_ c -> hd 0 ds' = hd 0 (LastChunk.delta_sizes_ c)).
  { intros Hp. rewrite <- (hd_take 0 (Z.to_nat (LastChunk.size_ c))), Ht.
    rewrite stored_short by (done || lia).
    destruct (Z.to_nat (LastChunk.size_ c)) eqn:E; [lia|].
    pose proof (LastChunk.inv_array c Hi). caps.
    destruct (LastChunk.delta_sizes_ c); [cbn in *; lia|done]. }
  assert (Hinv : LastChunk.inv c').
  { constructor; rewrite ?Hst, ?Forall_snoc; unfold c';
      cbn [LastChunk.size_ LastChunk.delta_sizes_ LastChunk.all_same_ LastChunk.has_large_delta_]; caps.
    - lia.
    - lia.
    - split; [apply Hi|lia].
    - intros [Hs ->%Z.eqb_eq]%andb_true_iff. split; [|done].
      destruct (Z.eq_dec (LastChunk.size_ c) 0) as [E|]; [by rewrite stored_0|].
      rewrite Hhd by lia. by apply Hi.
    - intros [Hlg Hd2%Z.eqb_neq]%orb_false_iff. split; [by apply Hi|lia].
    - intros Hs. split; [lia|]. intros H7. apply orb_false_iff. unfold can_add in Hcan.
      destruct (Z.ltb_spec (LastChunk.size_ c) 7); [lia|]. cbn [orb] in Hcan.
      apply orb_true_iff in Hcan as [Hcan|Hcan].
      + apply andb_true_iff in Hcan as [[_ Hc]%andb_true_iff Hd2].
        by rewrite !negb_true_iff in Hc, Hd2.
      + apply andb_true_iff in Hcan as [[_ Hc]%andb_true_iff Hd2%Z.eqb_eq].
        rewrite Hhd, Hc, Hd2, Z.eqb_refl in Hs by lia. done. }
  split; [done|]. rewrite !symbols_short by (done || cbn; lia). done.
Qed.

Lemma Add_spec c d : LastChunk.inv c -> 0 <= d <= 2 -> can_add c d = true ->
  exists c', LastChunk.Add c d = Some c' /\ LastChunk.inv c' /\
    LastChunk.symbols c' = LastChunk.symbols c ++ [d] /\
    LastChunk.size_ c' = LastChunk.size_ c + 1.
Proof.
  intros Hi Hd Hcan. pose proof (LastChunk.inv_size c Hi) as Hsz.
  pose proof (LastChunk.inv_array c Hi) as Ha. unfold LastChunk.Add.
  rewrite CanAdd_spec, Hcan by (done || lia). cbn [mbind option_bind check]. caps.
  destruct (Z.ltb_spec (LastChunk.size_ c) 14) as [H14|H14].
  - destruct (set_next (LastChunk.delta_sizes_ c) (LastChunk.size_ c) d) as (ds' & -> & Hl & Ht); [lia|lia|].
    rewrite <- stored_short in Ht by (done || lia).
    destruct (add_short_inv c d ds' Hi Hd Hcan H14 Hl Ht) as [Hi' Hs']. cbn [mbind option_bind].
    eexists. split; [|split; [exact Hi'|split; [exact Hs'|done]]].
    unfold LastChunk.get. destruct ds'; [cbn in Hl; lia|]. cbn [lookup list_lookup Z.to_nat hd].
    by destruct (LastChunk.all_same_ c).
  - cbn [mbind option_bind]. unfold can_add in Hcan.
    destruct (Z.ltb_spec (LastChunk.size_ c) 7); [lia|].
    destruct (Z.ltb_spec (LastChunk.size_ c) 14); [lia|]. cbn [orb andb] in Hcan.
    apply andb_true_iff in Hcan as [[Hlt Hs]%andb_true_iff He]. 
    apply Z.ltb_lt in Hlt. apply Z.eqb_eq in He.
    destruct (first_symbol c Hi) as [Hget Hr]; [lia|]. rewrite Hs, Hget. cbn [mbind option_bind].
    set (c' := LastChunk.Mk _ _ _ _). exists c'. split; [done|].
    assert (Hst : LastChunk.stored c' = LastChunk.stored c).
    { unfold LastChunk.stored, c'. cbn [LastChunk.size_ LastChunk.delta_sizes_]. caps.
      by rewrite !Z.min_r by lia. }
    split; [|split; [|done]].
    + constructor; rewrite ?Hst; unfold c';
        cbn [LastChunk.size_ LastChunk.delta_sizes_ LastChunk.all_same_ LastChunk.has_large_delta_]; caps.
      * lia.
      * lia.
      * apply Hi.
      * intros _. by apply Hi.
      * intros [Hlg _]%orb_false_iff. by apply Hi.
      * rewrite He, Z.eqb_refl. done.
    + unfold LastChunk.symbols, c'. cbn [LastChunk.size_ LastChunk.delta_sizes_ LastChunk.all_same_].
      rewrite Hs, He, Z.eqb_refl. rewrite Z2Nat.inj_add, replicate_add by lia. done.
Qed.

(** The loop of Emit: [a] was moved, [r] is to be moved, [b] lies between. *)
Lemma shift_loop_spec r : forall a b post same large,
  length b = 7%nat -> zlen a + 7 + zlen r <= 14 ->
  exists ds, LastChunk.shift_loop (seqZ (zlen a) (zlen r)) (a ++ b ++ r ++ post) same large =
    Some (ds, same && forallb (fun d => d =? hd 0 (a ++ r)) r,
          large || existsb (fun d => d =? 2) r) /\
    take (length a + length r) ds = a ++ r /\ length ds = length (a ++ b ++ r ++ post).
Proof.
  induction r as [|d r IH]; intros a b post same large Hb Hl.
  - exists (a ++ b ++ [] ++ post). cbn [length seqZ forallb existsb app].
    rewrite andb_true_r, orb_false_r, Nat.add_0_r, app_nil_r. split; [done|].
    by rewrite take_app_length.
  - cbn [length] in *. rewrite seqZ_cons by lia. cbn [LastChunk.shift_loop].
    replace (Z.pred (Z.of_nat (S (length r)))) with (zlen r) by lia. caps.
    change ((d :: r) ++ post) with (d :: r ++ post).
    rewrite (app_assoc a b).
    assert (Hg : LastChunk.get ((a ++ b) ++ d :: r ++ post) (7 + zlen a) = Some d)
      by (apply list_lookup_middle; rewrite length_app; lia).
    rewrite Hg. cbn [mbind option_bind].
    destruct b as [|x b]; [done|]. cbn [length] in Hb.
    assert (Hset : LastChunk.set (zlen a) d ((a ++ x :: b) ++ d :: r ++ post) =
      Some ((a ++ [d]) ++ (b ++ [d]) ++ r ++ post)).
    { unfold LastChunk.set. caps. rewrite check_then by (apply Z.ltb_lt; lia).
      rewrite (proj2 (Z.ltb_lt _ _)) by (rewrite !length_app; cbn [length]; lia).
      rewrite <- !app_assoc, Nat2Z.id. cbn [app]. rewrite insert_app_r_alt, Nat.sub_diag by done. done. }
    rewrite Hset. cbn [mbind option_bind].
    destruct (IH (a ++ [d]) (b ++ [d]) post (same && (d =? hd 0 (a ++ d :: r))) (large || (d =? 2)))
      as (ds & E & Ht & Hlen); [rewrite length_app; cbn; lia|rewrite length_app; cbn [length]; lia|].
    assert (Hget : LastChunk.get ((a ++ [d]) ++ (b ++ [d]) ++ r ++ post) 0 = Some (hd 0 (a ++ d :: r)))
      by (by destruct a).
    rewrite Hget. cbn [mbind option_bind].
    replace (zlen (a ++ [d])) with (Z.succ (zlen a)) in E by (rewrite length_app; cbn [length]; lia).
    rewrite <- (app_assoc a [d] r) in E, Ht. cbn [app] in E, Ht. rewrite E.
    exists ds. cbn [forallb existsb]. rewrite andb_assoc, orb_assoc. split; [done|].
    rewrite length_app in Ht. cbn [length] in Ht. rewrite <- Nat.add_assoc in Ht. split; [exact Ht|].
    rewrite Hlen, !length_app. cbn [length]. rewrite length_app. cbn [length]. lia.
Qed.

Lemma forallb_eq_Forall v l : forallb (fun d => d =? v) l = true -> Forall (fun d => d = v) l.
Proof.
  intros H. rewrite forallb_forall in H. apply List.Forall_forall. intros x Hx.
  by apply Z.eqb_eq, H.
Qed.

(** The rest of a chunk after its first seven symbols were emitted. *)
Lemma emit_rest c : LastChunk.inv c -> LastChunk.all_same_ c = false ->
  7 <= LastChunk.size_ c < 14 ->
  exists ds same large,
    LastChunk.shift_loop (seqZ 0 (LastChunk.size_ c - 7)) (LastChunk.delta_sizes_ c) true false =
      Some (ds, same, large) /\
    let c' := LastChunk.Mk ds (LastChunk.size_ c - 7) same large in
    LastChunk.inv c' /\ LastChunk.symbols c' = drop 7 (LastChunk.symbols c).
Proof.
  intros Hi Hs Hsz. pose proof (LastChunk.inv_array c Hi) as Ha. caps.
  assert (Hsy : LastChunk.symbols c = LastChunk.stored c) by (apply symbols_short; [done|lia]).
  assert (Hst := stored_short c ltac:(lia)).
  set (n := LastChunk.size_ c) in *. set (ds := LastChunk.delta_sizes_ c) in *.
  set (r := drop 7 (LastChunk.stored c)).
  assert (Hr : zlen r = n - 7) by (unfold r; rewrite Hst, length_drop, length_take; lia).
  assert (Hds : ds = [] ++ take 7 ds ++ r ++ drop (Z.to_nat n) ds).
  { cbn [app]. rewrite <- (take_drop (Z.to_nat n) ds) at 1. rewrite <- Hst. rewrite app_assoc. f_equal.
    replace (take 7 ds) with (take 7 (LastChunk.stored c)) by (rewrite Hst, take_take; f_equal; lia).
    symmetry. apply take_drop. }
  destruct (shift_loop_spec r [] (take 7 ds) (drop (Z.to_nat n) ds) true false) as (ds' & E & Ht & Hl);
    [rewrite length_take; lia|cbn; lia|].
  rewrite <- Hds, Hr in E. cbn [length] in E. change (Z.of_nat 0) with 0 in E.
  rewrite E. eexists _, _, _. split; [done|]. rewrite <- Hds in Hl. cbn [length app Nat.add andb orb] in *.
  assert (Hst' : forall same large,
    LastChunk.stored (LastChunk.Mk ds' (n - 7) same large) = r).
  { intros same large. unfold LastChunk.stored. cbn [LastChunk.size_ LastChunk.delta_sizes_]. caps.
    rewrite Z.min_l by lia. rewrite <- Ht. f_equal. lia. }
  assert (Hhd : r <> [] -> hd 0 ds' = hd 0 r).
  { intros Hne. rewrite <- Ht. destruct r; [done|]. cbn [length]. by rewrite hd_take. }
  assert (Hinv : LastChunk.inv (LastChunk.Mk ds' (n - 7) (forallb (fun d => d =? hd 0 r) r)
                                  (existsb (fun d => d =? 2) r))).
  { constructor; rewrite ?Hst'; cbn [LastChunk.size_ LastChunk.delta_sizes_
      LastChunk.all_same_ LastChunk.has_large_delta_]; caps; try lia.
    - apply Forall_drop, Hi.
    - intros Hf. destruct (decide (r = [])) as [->|Hne]; [done|]. rewrite Hhd by done.
      by apply forallb_eq_Forall.
    - intros _. destruct (Z.eq_dec n 7) as [E7|].
      { assert (r = []) as -> by (apply length_zero_iff_nil; lia). done. }
      apply Forall_drop, Hi. apply (LastChunk.inv_mixed c Hi Hs). lia. }
  split; [done|]. rewrite symbols_short by (done || cbn; lia). rewrite Hst'. by rewrite Hsy.
Qed.

(** Emit writes a prefix of the symbols and keeps the rest. *)
Lemma Emit_spec c d : LastChunk.inv c -> 0 <= d <= 2 -> can_add c d = false ->
  exists chunk c', LastChunk.Emit c = Some (chunk, c') /\ is_u16 chunk /\ LastChunk.inv c' /\
    LastChunk.symbols c = LastChunk.chunk_symbols chunk ++ LastChunk.symbols c' /\
    LastChunk.size_ c' < 7 /\ (7 <= length (LastChunk.chunk_symbols chunk))%nat.
Proof.
  intros Hi Hd Hcan. unfold LastChunk.Emit.
  rewrite !CanAdd_spec by (done || lia). cbn [mbind option_bind].
  assert (H7 : 7 <= LastChunk.size_ c).
  { apply (CanAdd_full c d); [done|lia|]. by rewrite CanAdd_spec, Hcan by (done || lia). }
  rewrite check_then.
  2: { assert (Hd3 : d = 0 \/ d = 1 \/ d = 2) by lia.
       destruct Hd3 as [-> | [-> | ->]]; rewrite Hcan; cbn [negb]; by rewrite ?orb_true_r. }
  destruct (Clear_inv c Hi) as [Hci Hcs]. caps. destruct (LastChunk.all_same_ c) eqn:Es.
  { destruct (EncodeRunLength_spec c Hi Es) as (chunk & -> & Hu & Hs); [lia|]. cbn [mbind option_bind].
    eexists _, _. split; [done|]. split; [done|]. split; [done|]. rewrite Hcs, app_nil_r, Hs.
    split; [done|]. pose proof (length_symbols c Hi). cbn. lia. }
  destruct (LastChunk.inv_mixed c Hi Es) as [H14 Hlg].
  pose proof (length_symbols c Hi) as Hlen.
  destruct (Z.eqb_spec (LastChunk.size_ c) 14) as [E14|E14].
  { destruct (EncodeOneBit_spec c Hi) as (chunk & -> & Hu & Hs & Hl); [apply Hlg; lia|done|].
    cbn [mbind option_bind]. eexists _, _. split; [done|]. split; [done|]. split; [done|].
    rewrite Hcs, app_nil_r, <- Hs. rewrite take_ge by lia. split; [done|]. cbn. lia. }
  rewrite check_then by by apply Z.leb_le.
  destruct (EncodeTwoBit_spec c Hi 7) as (chunk & -> & Hu & Hs & Hl); [lia|done|done|].
  cbn [mbind option_bind].
  destruct (emit_rest c Hi Es) as (ds & same & large & -> & Hi' & Hs'); [lia|].
  cbn [mbind option_bind]. eexists _, _. split; [done|]. split; [done|]. split; [exact Hi'|].
  rewrite Hs'. change (Z.to_nat 7) with 7%nat in Hs. rewrite take_ge in Hs by lia.
  rewrite Hs at 1. rewrite take_drop. split; [done|]. cbn. lia.
Qed.

(** AppendTo appends the symbols. *)
Lemma AppendTo_spec c l : LastChunk.inv c ->
  LastChunk.AppendTo c l = Some (l ++ LastChunk.symbols c).
Proof.
  intros Hi. unfold LastChunk.AppendTo, LastChunk.symbols. pose proof (LastChunk.inv_size c Hi).
  destruct (LastChunk.all_same_ c) eqn:E.
  - destruct (Z.eqb_spec (LastChunk.size_ c) 0) as [-> |].
    + cbn. by rewrite app_nil_r.
    + destruct (first_symbol c Hi) as [-> _]; [lia|]. done.
  - pose proof (LastChunk.inv_array c Hi). destruct (LastChunk.inv_mixed c Hi E). caps.
    rewrite check_then by (apply Z.leb_le; lia). done.
Qed.

(** ** Properties *)

(** The chunk codec loses no symbol: EncodeLast writes a 16-bit chunk from
    which Decode recovers all the stored symbols, and when a delta size cannot be
    added, Emit writes a chunk that stands for a prefix of them, keeps exactly the
    rest, and makes room for that delta size. *)
Theorem chunk_codec (c : LastChunk.t) (d : Z) :
  LastChunk.inv c -> 0 < LastChunk.size_ c -> 0 <= d <= 2 ->
  (exists chunk decoded, LastChunk.EncodeLast c = Some chunk /\ is_u16 chunk /\
     LastChunk.Decode LastChunk.new chunk (LastChunk.size_ c) = Some decoded /\
     LastChunk.symbols decoded = LastChunk.symbols c) /\
  (LastChunk.CanAdd c d = Some false ->
   exists chunk c' decoded, LastChunk.Emit c = Some (chunk, c') /\ is_u16 chunk /\
     LastChunk.Decode LastChunk.new chunk 65535 = Some decoded /\
     LastChunk.symbols c = LastChunk.symbols decoded ++ LastChunk.symbols c' /\
     LastChunk.CanAdd c' d = Some true).
Proof.
  intros Hi Hp Hd. split.
  - destruct (EncodeLast_spec c Hi Hp) as (chunk & E & Hu & Hs).
    destruct (Decode_spec LastChunk.new chunk (LastChunk.size_ c) Hu) as (c' & Ed & _ & Hs'); [lia|done|].
    exists chunk, c'. rewrite Hs', Hs. done.
  - rewrite CanAdd_spec by (done || lia). intros [= Hcan].
    destruct (Emit_spec c d Hi Hd Hcan) as (chunk & c' & E & Hu & Hi' & Hs & Hz & _).
    destruct (Decode_spec LastChunk.new chunk 65535 Hu) as (c1 & Ed & _ & Hs'); [lia|done|].
    exists chunk, c', c1. rewrite Hs', take_ge.
    + rewrite CanAdd_spec by (done || lia). unfold can_add. rewrite (proj2 (Z.ltb_lt _ 7)) by lia. done.
    + pose proof (length_symbols c Hi) as Hl. pose proof (LastChunk.inv_size c Hi) as Hsz. caps.
      rewrite Hs, length_app in Hl. lia.
Qed.

(** Seven lost packets and then a two octet delta. *)
Lemma chunk_codec_witness :
  let c := LastChunk.Mk [0; 0; 0; 0; 0; 0; 1] 7 false false in
  exists chunk c' decoded, LastChunk.Emit c = Some (chunk, c') /\ is_u16 chunk /\
     LastChunk.Decode LastChunk.new chunk 65535 = Some decoded /\
     LastChunk.symbols c = LastChunk.symbols decoded ++ LastChunk.symbols c' /\
     LastChunk.CanAdd c' 2 = Some true.
Proof.
  intros c. apply (chunk_codec c 2); [|cbn; lia|lia|reflexivity].
  constructor; caps; cbn [LastChunk.size_ LastChunk.delta_sizes_ LastChunk.all_same_ c length]; try lia; try discriminate.
  - change (LastChunk.stored c) with [0; 0; 0; 0; 0; 0; 1]. repeat constructor; discriminate.
  - intros _. change (LastChunk.stored c) with [0; 0; 0; 0; 0; 0; 1]. repeat constructor.
Defined.
