(* ===== verification/RtcpTransport.v ===== *)
(** * Transport feedback: rtcp_packet/transport_feedback.{h,cc}

    The report of which packets arrived and when, built packet by packet with
    AddReceivedPacket, written as status chunks (RtcpChunk.v) and receive deltas.
    Time is in microseconds; a delta tick is 250 microseconds and the base time
    counts 64 milliseconds in 24 bits. *)

From S2P Require Import Prelude SeqNum ByteIo Buffers RtcpCore RtcpChunk.

Module TransportFeedback.

(** ReceivedPacket; the constructor of a lost packet leaves delta_ticks_
    uninitialised. *)
Record ReceivedPacket := RP {
  sequence_number_ : Z;          (* uint16_t *)
  delta_ticks_ : option Z;       (* int16_t *)
  received_ : bool
}.

Definition Received (sequence_number delta_ticks : Z) : ReceivedPacket :=
  RP sequence_number (Some delta_ticks) true.

Definition Lost (sequence_number : Z) : ReceivedPacket := RP sequence_number None false.

Definition kFeedbackMessageType : Z := 15.
Definition kDeltaScaleFactor : Z := 250.
Definition kMaxReportedPackets : Z := 0xffff.
Definition kTransportFeedbackHeaderSizeBytes : Z := 4 + 8 + 8.
Definition kChunkSizeBytes : Z := 2.
Definition kMaxSizeBytes : Z := Z.shiftl 1 16 * 4.
Definition kMinPayloadSizeBytes : Z := 8 + 8 + 2.
Definition kBaseScaleFactor : Z := kDeltaScaleFactor * Z.shiftl 1 8.
Definition kTimeWrapPeriodUs : Z := Z.shiftl 1 24 * kBaseScaleFactor.

Definition delta_us (p : ReceivedPacket) : option Z :=
  ticks ← delta_ticks_ p; Some (ticks * kDeltaScaleFactor).

Record t := Mk {
  common : CommonFeedback.t;
  include_lost_ : bool;
  base_seq_no_ : Z;              (* uint16_t *)
  num_seq_no_ : Z;               (* uint16_t *)
  base_time_ticks_ : Z;          (* int32_t *)
  feedback_seq_ : Z;             (* uint8_t *)
  include_timestamps_ : bool;
  last_timestamp_us_ : Z;        (* int64_t *)
  received_packets_ : list ReceivedPacket;
  all_packets_ : list ReceivedPacket;
  encoded_chunks_ : list Z;      (* uint16_t *)
  last_chunk_ : LastChunk.t;
  size_bytes_ : Z                (* size_t *)
}.

(** TransportFeedback(include_timestamps, include_lost), and the default. *)
Definition create (include_timestamps include_lost : bool) : t :=
  Mk CommonFeedback.new include_lost 0 0 0 0 include_timestamps 0 [] [] []
    LastChunk.new kTransportFeedbackHeaderSizeBytes.

Definition new : t := create true true.

Definition GetBaseTimeUs (this : t) : Z := base_time_ticks_ this * kBaseScaleFactor.

Definition GetReceivedPackets (this : t) : list ReceivedPacket := received_packets_ this.

Definition GetAllPackets (this : t) : option (list ReceivedPacket) :=
  check (include_lost_ this) ;; Some (all_packets_ this).

Definition GetBaseSequence (this : t) : Z := base_seq_no_ this.

Definition GetBaseDeltaUs (this : t) (prev_timestamp_us : Z) : Z :=
  let delta := GetBaseTimeUs this - prev_timestamp_us in
  if Z.abs (delta - kTimeWrapPeriodUs) <? Z.abs delta then delta - kTimeWrapPeriodUs
  else if Z.abs (delta + kTimeWrapPeriodUs) <? Z.abs delta then delta + kTimeWrapPeriodUs
  else delta.

Definition SetBase (this : t) (base_sequence ref_timestamp_us : Z) : option t :=
  check (num_seq_no_ this =? 0) ;;
  check (0 <=? ref_timestamp_us) ;;
  let ticks := Z.quot (Z.rem ref_timestamp_us kTimeWrapPeriodUs) kBaseScaleFactor in
  Some (Mk (common this) (include_lost_ this) base_sequence (num_seq_no_ this) ticks
    (feedback_seq_ this) (include_timestamps_ this) (ticks * kBaseScaleFactor)
    (received_packets_ this) (all_packets_ this) (encoded_chunks_ this)
    (last_chunk_ this) (size_bytes_ this)).

Definition SetFeedbackSequenceNumber (this : t) (feedback_sequence : Z) : t :=
  Mk (common this) (include_lost_ this) (base_seq_no_ this) (num_seq_no_ this)
    (base_time_ticks_ this) feedback_sequence (include_timestamps_ this)
    (last_timestamp_us_ this) (received_packets_ this) (all_packets_ this)
    (encoded_chunks_ this) (last_chunk_ this) (size_bytes_ this).

(** Reset packet to consistent empty state. *)
Definition Clear (this : t) : t :=
  Mk (common this) (include_lost_ this) (base_seq_no_ this) 0
    (base_time_ticks_ this) (feedback_seq_ this) (include_timestamps_ this)
    (GetBaseTimeUs this) [] [] [] (LastChunk.Clear (last_chunk_ this))
    kTransportFeedbackHeaderSizeBytes.

(** The members AddDeltaSize changes. *)
Definition with_chunks (this : t) (num : Z) (chunks : list Z) (last : LastChunk.t) (size : Z) : t :=
  Mk (common this) (include_lost_ this) (base_seq_no_ this) num
    (base_time_ticks_ this) (feedback_seq_ this) (include_timestamps_ this)
    (last_timestamp_us_ this) (received_packets_ this) (all_packets_ this)
    chunks last size.

Definition AddDeltaSize (this : t) (delta_size : Z) : option (t * bool) :=
  if num_seq_no_ this =? kMaxReportedPackets then Some (this, false) else
  let add_chunk_size := if LastChunk.Empty (last_chunk_ this) then kChunkSizeBytes else 0 in
  if size_bytes_ this + delta_size + add_chunk_size >? kMaxSizeBytes then Some (this, false) else
  can_add ← LastChunk.CanAdd (last_chunk_ this) delta_size;
  if can_add : bool then
    last ← LastChunk.Add (last_chunk_ this) delta_size;
    Some (with_chunks this (u16 (num_seq_no_ this + 1)) (encoded_chunks_ this) last
            (size_bytes_ this + add_chunk_size), true)
  else if size_bytes_ this + delta_size + kChunkSizeBytes >? kMaxSizeBytes then Some (this, false)
  else
    '(chunk, last) ← LastChunk.Emit (last_chunk_ this);
    last ← LastChunk.Add last delta_size;
    Some (with_chunks this (u16 (num_seq_no_ this + 1)) (encoded_chunks_ this ++ [chunk]) last
            (size_bytes_ this + kChunkSizeBytes), true).

(** The subtraction of two int64_t, undefined on overflow. *)
Definition sub_s64 (a b : Z) : option Z :=
  check ((- 2 ^ 63 <=? a - b) && (a - b <? 2 ^ 63)) ;; Some (a - b).

(** The delta of AddReceivedPacket in ticks, before it is narrowed to 16 bits. *)
Definition delta_full (timestamp_us last_timestamp_us : Z) : option Z :=
  diff ← sub_s64 timestamp_us last_timestamp_us;
  let delta := Z.rem diff kTimeWrapPeriodUs in
  let delta := if delta >? Z.quot kTimeWrapPeriodUs 2 then delta - kTimeWrapPeriodUs else delta in
  let delta := delta + (if delta <? 0 then - Z.quot kDeltaScaleFactor 2
                        else Z.quot kDeltaScaleFactor 2) in
  Some (Z.quot delta kDeltaScaleFactor).

(** if (include_lost_) all_packets_.emplace_back(...). *)
Definition push_all (this : t) (p : ReceivedPacket) : t :=
  Mk (common this) (include_lost_ this) (base_seq_no_ this) (num_seq_no_ this)
    (base_time_ticks_ this) (feedback_seq_ this) (include_timestamps_ this)
    (last_timestamp_us_ this) (received_packets_ this)
    (if include_lost_ this then all_packets_ this ++ [p] else all_packets_ this)
    (encoded_chunks_ this) (last_chunk_ this) (size_bytes_ this).

(** for (; next_seq_no != sequence_number; ++next_seq_no): mark as lost. *)
Fixpoint gap_loop (fuel : nat) (this : t) (next_seq_no sequence_number : Z)
  : option (t * bool) :=
  if next_seq_no =? sequence_number then Some (this, true) else
  match fuel with
  | O => None
  | S fuel' =>
      '(this, added) ← AddDeltaSize this 0;
      if negb added then Some (this, false) else
      gap_loop fuel' (push_all this (Lost next_seq_no)) (u16 (next_seq_no + 1)) sequence_number
  end.

(** A gap is shorter than the number space. *)
Definition gap_fuel : nat := Z.to_nat 65536.

(** received_packets_.emplace_back and what follows it. *)
Definition push_received (this : t) (sequence_number delta delta_size : Z) : t :=
  let this := push_all this (Received sequence_number delta) in
  Mk (common this) (include_lost_ this) (base_seq_no_ this) (num_seq_no_ this)
    (base_time_ticks_ this) (feedback_seq_ this) (include_timestamps_ this)
    (last_timestamp_us_ this + delta * kDeltaScaleFactor)
    (received_packets_ this ++ [Received sequence_number delta]) (all_packets_ this)
    (encoded_chunks_ this) (last_chunk_ this)
    (if include_timestamps_ this then size_bytes_ this + delta_size else size_bytes_ this).

Definition AddReceivedPacket (this : t) (sequence_number timestamp_us : Z)
  : option (t * bool) :=
  full ← (if include_timestamps_ this
          then delta_full timestamp_us (last_timestamp_us_ this) else Some 0);
  let delta := s16 full in
  if negb (delta =? full) then Some (this, false) else
  let next_seq_no := u16 (base_seq_no_ this + num_seq_no_ this) in
  '(this, ok) ←
    (if negb (sequence_number =? next_seq_no) then
       let last_seq_no := u16 (next_seq_no - 1) in
       if negb (IsNewerSequenceNumber sequence_number last_seq_no) then Some (this, false)
       else gap_loop gap_fuel this next_seq_no sequence_number
     else Some (this, true));
  if negb ok then Some (this, false) else
  let delta_size := if (delta >=? 0) && (delta <=? 0xff) then 1 else 2 in
  '(this, added) ← AddDeltaSize this delta_size;
  if negb added then Some (this, false) else
  Some (push_received this sequence_number delta delta_size, true).

(** The first loop of Parse: chunks up to [status_count] delta sizes.  Returns
    the object, the index and the delta sizes; [None] inside when the chunks run
    past the payload. *)
Fixpoint chunk_loop (fuel : nat) (this : t) (payload : bytes) (status_count end_index index : Z)
    (delta_sizes : list Z) : option (t * option (Z * list Z)) :=
  if zlen delta_sizes <? status_count then
    match fuel with
    | O => None
    | S fuel' =>
        if index + kChunkSizeBytes >? end_index then Some (Clear this, None) else
        chunk ← read_u16 payload index;
        last ← LastChunk.Decode (last_chunk_ this) chunk (status_count - zlen delta_sizes);
        delta_sizes ← LastChunk.AppendTo last delta_sizes;
        chunk_loop fuel'
          (with_chunks this (num_seq_no_ this) (encoded_chunks_ this ++ [chunk]) last (size_bytes_ this))
          payload status_count end_index (index + kChunkSizeBytes) delta_sizes
    end
  else Some (this, Some (index, delta_sizes)).

(** received_packets_.emplace_back(seq_no, delta) and the time it advances. *)
Definition push_parsed (this : t) (seq_no delta : Z) : t :=
  let this := push_all this (Received seq_no delta) in
  Mk (common this) (include_lost_ this) (base_seq_no_ this) (num_seq_no_ this)
    (base_time_ticks_ this) (feedback_seq_ this) (include_timestamps_ this)
    (last_timestamp_us_ this + delta * kDeltaScaleFactor)
    (received_packets_ this ++ [Received seq_no delta]) (all_packets_ this)
    (encoded_chunks_ this) (last_chunk_ this) (size_bytes_ this).

(** The second loop, when receive deltas are present; [None] inside for the
    invalid delta size. *)
Fixpoint delta_loop (this : t) (payload : bytes) (end_index index seq_no : Z)
    (delta_sizes : list Z) : option (t * option Z) :=
  match delta_sizes with
  | [] => Some (this, Some index)
  | delta_size :: rest =>
      check (index + delta_size <=? end_index) ;;
      if delta_size =? 0 then
        delta_loop (push_all this (Lost seq_no)) payload end_index index (u16 (seq_no + 1)) rest
      else if delta_size =? 1 then
        delta ← peek payload index;
        delta_loop (push_parsed this seq_no delta) payload end_index (index + delta_size)
          (u16 (seq_no + 1)) rest
      else if delta_size =? 2 then
        delta ← read_be_signed 16 2 payload index;
        delta_loop (push_parsed this seq_no delta) payload end_index (index + delta_size)
          (u16 (seq_no + 1)) rest
      else if delta_size =? 3 then Some (Clear this, None)
      else None (* RTC_DCHECK_NOTREACHED *)
  end.

(** The third loop, when they are absent. *)
Fixpoint status_loop (this : t) (seq_no : Z) (delta_sizes : list Z) : t :=
  match delta_sizes with
  | [] => this
  | delta_size :: rest =>
      status_loop
        (if delta_size >? 0 then push_parsed this seq_no 0 else push_all this (Lost seq_no))
        (u16 (seq_no + 1)) rest
  end.

(** The members set before the loops. *)
Definition parse_fields (this : t) (fb : CommonFeedback.t) (base_seq_no base_time_ticks feedback_seq : Z) : t :=
  Clear (Mk fb (include_lost_ this) base_seq_no (num_seq_no_ this) base_time_ticks feedback_seq
           (include_timestamps_ this) (last_timestamp_us_ this) (received_packets_ this)
           (all_packets_ this) (encoded_chunks_ this) (last_chunk_ this) (size_bytes_ this)).

(** num_seq_no_, include_timestamps_ and size_bytes_, set after them. *)
Definition with_counts (this : t) (num_seq_no : Z) (include_timestamps : bool) (size_bytes : Z) : t :=
  Mk (common this) (include_lost_ this) (base_seq_no_ this) num_seq_no
    (base_time_ticks_ this) (feedback_seq_ this) include_timestamps
    (last_timestamp_us_ this) (received_packets_ this) (all_packets_ this)
    (encoded_chunks_ this) (last_chunk_ this) size_bytes.

Definition Parse (this : t) (packet : CommonHeader.t) : option (t * bool) :=
  check (CommonHeader.type packet =? Rtpfb.kPacketType) ;;
  check (CommonHeader.fmt packet =? kFeedbackMessageType) ;;
  if CommonHeader.payload_size_bytes packet <? kMinPayloadSizeBytes then Some (this, false) else
  let payload := CommonHeader.payload packet in
  fb ← Rtpfb.ParseCommonFeedback payload;
  base_seq_no ← read_u16 payload 8;
  status_count ← read_u16 payload 10;
  base_time_ticks ← read_be_signed 32 3 payload 12;
  feedback_seq ← peek payload 15;
  let this := parse_fields this fb base_seq_no base_time_ticks feedback_seq in
  let end_index := CommonHeader.payload_size_bytes packet in
  if status_count =? 0 then Some (this, false) else
  '(this, chunks) ← chunk_loop (Z.to_nat end_index) this payload status_count end_index 16 [];
  match chunks with
  | None => Some (this, false)
  | Some (index, delta_sizes) =>
      let this := with_chunks this (num_seq_no_ this) (removelast (encoded_chunks_ this))
                    (last_chunk_ this) (size_bytes_ this) in
      check (zlen delta_sizes =? status_count) ;;
      let this := with_counts this status_count (include_timestamps_ this) (size_bytes_ this) in
      let recv_delta_size := fold_left Z.add delta_sizes 0 in
      '(this, end_of_deltas) ←
        (if end_index >=? index + recv_delta_size then
           delta_loop this payload end_index index (base_seq_no_ this) delta_sizes
         else
           Some (status_loop (with_counts this (num_seq_no_ this) false (size_bytes_ this))
                   (base_seq_no_ this) delta_sizes, Some index));
      match end_of_deltas with
      | None => Some (this, false)
      | Some index =>
          check (index <=? end_index) ;;
          Some (with_counts this (num_seq_no_ this) (include_timestamps_ this)
                  (kHeaderLength + index), true)
      end
  end.

(** ParseFrom(buffer, length); null is [None] inside. *)
Definition ParseFrom (buffer : bytes) (length : Z) : option (option t) :=
  '(header, ok) ← CommonHeader.Parse CommonHeader.new buffer length;
  if negb ok then Some None else
  if negb (CommonHeader.type header =? Rtpfb.kPacketType) ||
     negb (CommonHeader.fmt header =? kFeedbackMessageType) then Some None else
  '(parsed, ok) ← Parse new header;
  if negb ok then Some None else Some (Some parsed).

(** The two loops of IsConsistent. *)
Fixpoint decode_chunks (chunk_decoder : LastChunk.t) (chunks : list Z) (delta_sizes : list Z)
    (packet_size : Z) : option (list Z * Z) :=
  match chunks with
  | [] => Some (delta_sizes, packet_size)
  | chunk :: rest =>
      chunk_decoder ← LastChunk.Decode chunk_decoder chunk kMaxReportedPackets;
      delta_sizes ← LastChunk.AppendTo chunk_decoder delta_sizes;
      decode_chunks chunk_decoder rest delta_sizes (packet_size + kChunkSizeBytes)
  end.

Fixpoint consistent_loop (include_timestamps : bool) (delta_sizes : list Z) (seq_no : Z)
    (packet_it : list ReceivedPacket) (timestamp_us packet_size : Z)
  : option (bool * list ReceivedPacket * Z * Z) :=
  match delta_sizes with
  | [] => Some (true, packet_it, timestamp_us, packet_size)
  | delta_size :: rest =>
      let next_size := if include_timestamps then packet_size + delta_size else packet_size in
      if delta_size >? 0 then
        match packet_it with
        | [] => Some (false, packet_it, timestamp_us, packet_size)
        | p :: packet_it' =>
            if negb (sequence_number_ p =? seq_no) then Some (false, packet_it, timestamp_us, packet_size)
            else
              ticks ← delta_ticks_ p;
              if (delta_size =? 1) && ((ticks <? 0) || (ticks >? 0xff))
              then Some (false, packet_it, timestamp_us, packet_size)
              else
                us ← delta_us p;
                consistent_loop include_timestamps rest (u16 (seq_no + 1)) packet_it'
                  (timestamp_us + us) next_size
        end
      else
        consistent_loop include_timestamps rest (u16 (seq_no + 1)) packet_it timestamp_us next_size
  end.

Definition IsConsistent (this : t) : option bool :=
  '(delta_sizes, packet_size) ←
     decode_chunks LastChunk.new (encoded_chunks_ this) [] kTransportFeedbackHeaderSizeBytes;
  '(delta_sizes, packet_size) ←
     (if negb (LastChunk.Empty (last_chunk_ this)) then
        delta_sizes ← LastChunk.AppendTo (last_chunk_ this) delta_sizes;
        Some (delta_sizes, packet_size + kChunkSizeBytes)
      else Some (delta_sizes, packet_size));
  if negb (num_seq_no_ this =? zlen delta_sizes) then Some false else
  '(ok, packet_it, timestamp_us, packet_size) ←
     consistent_loop (include_timestamps_ this) delta_sizes (base_seq_no_ this)
       (received_packets_ this) (GetBaseTimeUs this) packet_size;
  if negb ok then Some false else
  if negb (zlen packet_it =? 0) then Some false else
  if negb (timestamp_us =? last_timestamp_us_ this) then Some false else
  Some (size_bytes_ this =? packet_size).

(** Round size_bytes_ up to a multiple of 32 bits. *)
Definition BlockLength (this : t) : Z := Z.land (size_bytes_ this + 3) (Z.lnot 3).

Definition PaddingLength (this : t) : Z := BlockLength this - size_bytes_ this.

Definition create_delta (p : ReceivedPacket) : W unit :=
  delta ← wlift (delta_ticks_ p);
  if (delta >=? 0) && (delta <=? 0xff) then push delta
  else write_at 0 (ByteWriter.WriteBigEndianSigned 16 2 delta) ;; add_index 2.

Definition create_chunk (chunk : Z) : W unit := write_u16 0 chunk ;; add_index 2.

(** packet[...] = 0, padding_length - 1 times, then padding_length. *)
Definition create_padding (padding_length : Z) : W unit :=
  if padding_length >? 0 then
    for_each push (replicate (Z.to_nat (padding_length - 1)) 0) ;; push padding_length
  else mret tt.

Definition create_body (this : t) : W unit :=
  length ← wlift (RtcpPacket.HeaderLength (BlockLength this));
  RtcpPacket.CreateHeaderPadded kFeedbackMessageType Rtpfb.kPacketType length
    (0 <? PaddingLength this) ;;
  Rtpfb.CreateCommonFeedback (common this) ;;
  add_index CommonFeedback.kCommonFeedbackLength ;;
  write_u16 0 (base_seq_no_ this) ;; add_index 2 ;;
  write_u16 0 (num_seq_no_ this) ;; add_index 2 ;;
  write_at 0 (ByteWriter.WriteBigEndianSigned 32 3 (base_time_ticks_ this)) ;; add_index 3 ;;
  push (feedback_seq_ this) ;;
  for_each create_chunk (encoded_chunks_ this) ;;
  (if negb (LastChunk.Empty (last_chunk_ this)) then
     chunk ← wlift (LastChunk.EncodeLast (last_chunk_ this)); create_chunk chunk
   else mret tt) ;;
  (if include_timestamps_ this then for_each create_delta (received_packets_ this)
   else mret tt) ;;
  create_padding (PaddingLength this).

Definition Create (this : t) (max_length : Z) (callback : bool) : W bool :=
  if num_seq_no_ this =? 0 then mret false
  else create_with (BlockLength this) (create_body this) max_length callback.

End TransportFeedback.

(** ** Specification

    A report stands for a list of packets, one per sequence number from the base
    on: the delta size of each (its symbol on the wire) and its delta. *)

Module Report.

Abbreviation item := (Z * Z)%type.

Fixpoint received_of (seq : Z) (l : list item) : list TransportFeedback.ReceivedPacket :=
  match l with
  | [] => []
  | (s, d) :: l' =>
      (if 0 <? s then [TransportFeedback.Received seq d] else []) ++ received_of (u16 (seq + 1)) l'
  end.

Fixpoint all_of (seq : Z) (l : list item) : list TransportFeedback.ReceivedPacket :=
  match l with
  | [] => []
  | (s, d) :: l' =>
      (if 0 <? s then TransportFeedback.Received seq d else TransportFeedback.Lost seq)
      :: all_of (u16 (seq + 1)) l'
  end.

(** The ticks of the received packets, and the octets of their deltas. *)
Definition ticks (l : list item) : Z :=
  fold_right (fun i acc => (if 0 <? fst i then snd i else 0) + acc) 0 l.

Definition delta_octets (l : list item) : Z := fold_right (fun i acc => fst i + acc) 0 l.

(** What a delta size says of the delta. *)
Definition item_ok (i : item) : Prop :=
  0 <= fst i < 4 /\ - 32768 <= snd i < 32768 /\ (fst i = 1 -> 0 <= snd i <= 255).

(** The items AddReceivedPacket produces. *)
Definition canonical (include_timestamps : bool) (i : item) : Prop :=
  i = (0, 0) \/
  fst i = (if (snd i >=? 0) && (snd i <=? 0xff) then 1 else 2) /\
  - 32768 <= snd i < 32768 /\ (include_timestamps = false -> snd i = 0).

Section rep.
Import TransportFeedback.

(** The octets of the chunks. *)
Definition chunk_octets (this : t) : Z :=
  2 * zlen (encoded_chunks_ this) + (if LastChunk.Empty (last_chunk_ this) then 0 else 2).

(** The chunks stand for the given symbols. *)
Record chunks_ok (this : t) (syms : list Z) : Prop := {
  chunks_u16 : Forall is_u16 (encoded_chunks_ this);
  chunks_last : LastChunk.inv (last_chunk_ this);
  chunks_symbols :
    concat (map LastChunk.chunk_symbols (encoded_chunks_ this)) ++
    LastChunk.symbols (last_chunk_ this) = syms
}.

(** The object reports [l]. *)
Record rep (this : t) (l : list item) : Prop := {
  rep_base : is_u16 (base_seq_no_ this);
  rep_num : num_seq_no_ this = zlen l;
  rep_max : zlen l <= 65535;
  rep_chunks : chunks_ok this (map fst l);
  rep_received : received_packets_ this = received_of (base_seq_no_ this) l;
  rep_all : all_packets_ this =
            if include_lost_ this then all_of (base_seq_no_ this) l else [];
  rep_time : last_timestamp_us_ this = GetBaseTimeUs this + 250 * ticks l;
  rep_size : size_bytes_ this = 20 + chunk_octets this +
             (if include_timestamps_ this then delta_octets l else 0);
  rep_items : Forall item_ok l
}.

(** An object filled by AddReceivedPacket. *)
Record built (this : t) (l : list item) : Prop := {
  built_rep : rep this l;
  built_canonical : Forall (canonical (include_timestamps_ this)) l;
  built_dense : Forall (fun c => (7 <= length (LastChunk.chunk_symbols c))%nat) (encoded_chunks_ this)
}.

(** The members no operation on packets changes. *)
Definition config (this : t) : CommonFeedback.t * bool * Z * Z * Z * bool :=
  (common this, include_lost_ this, base_seq_no_ this, base_time_ticks_ this,
   feedback_seq_ this, include_timestamps_ this).

End rep.

End Report.

Import TransportFeedback Report.

Lemma chunk_symbols_range chunk : is_u16 chunk ->
  Forall (fun d => 0 <= d < 4) (LastChunk.chunk_symbols chunk).
Proof.
  intros Hc. unfold LastChunk.chunk_symbols. destruct (_ <? _); [|destruct (_ =? _)].
  - apply Forall_replicate. by apply Z.mod_pos_bound.
  - apply Forall_map, List.Forall_forall. intros i _.
    pose proof (Z.mod_pos_bound (chunk / 2 ^ (13 - i)) 2). lia.
  - apply Forall_map, List.Forall_forall. intros i _. by apply Z.mod_pos_bound.
Qed.

(** ** AddDeltaSize *)

Lemma chunk_octets_bound this syms :
  chunks_ok this syms ->
  Forall (fun c => (7 <= length (LastChunk.chunk_symbols c))%nat) (encoded_chunks_ this) ->
  7 * chunk_octets this <= 2 * zlen syms + 14.
Proof.
  intros [_ _ <-] Hd. rewrite length_app.
  assert (H7 : 7 * zlen (encoded_chunks_ this) <=
    zlen (concat (map LastChunk.chunk_symbols (encoded_chunks_ this)))).
  { induction Hd as [|c cs Hc _ IH]; [done|]. cbn [map concat length]. rewrite length_app. lia. }
  unfold chunk_octets. destruct (LastChunk.Empty _); lia.
Qed.

(** What a successful or refused AddDeltaSize does to the chunks. *)
Lemma AddDeltaSize_spec this syms d :
  chunks_ok this syms -> num_seq_no_ this = zlen syms -> zlen syms <= 65535 -> 0 <= d <= 2 ->
  Forall (fun c => (7 <= length (LastChunk.chunk_symbols c))%nat) (encoded_chunks_ this) ->
  size_bytes_ this <= 20 + chunk_octets this + 2 * zlen syms ->
  if zlen syms =? 65535 then AddDeltaSize this d = Some (this, false) else
  exists chunks last size,
    let this' := with_chunks this (zlen syms + 1) chunks last size in
    AddDeltaSize this d = Some (this', true) /\ chunks_ok this' (syms ++ [d]) /\
    Forall (fun c => (7 <= length (LastChunk.chunk_symbols c))%nat) chunks /\
    size = size_bytes_ this - chunk_octets this + chunk_octets this'.
Proof.
  intros Hok Hn Hmax Hd Hdense Hsize. pose proof (chunk_octets_bound _ _ Hok Hdense) as Hco.
  destruct Hok as [Hu Hi Hs]. unfold AddDeltaSize, kMaxReportedPackets, kMaxSizeBytes, kChunkSizeBytes. rewrite Hn.
  destruct (Z.eqb_spec (zlen syms) 65535) as [|Hne]; [done|].
  change (Z.shiftl 1 16 * 4) with 262144. rewrite !Z.gtb_ltb.
  rewrite (proj2 (Z.ltb_ge 262144 _)) by (destruct (LastChunk.Empty _); lia).
  rewrite CanAdd_spec by (done || lia). cbn [mbind option_bind].
  rewrite u16_id by (unfold is_u16; lia).
  destruct (can_add (last_chunk_ this) d) eqn:Ec.
  - destruct (Add_spec (last_chunk_ this) d Hi Hd Ec) as (c' & -> & Hi' & Hs' & Hz). cbn [mbind option_bind].
    exists (encoded_chunks_ this), c', (size_bytes_ this + (if LastChunk.Empty (last_chunk_ this) then 2 else 0)).
    split; [done|]. split; [|split; [done|]].
    + constructor; cbn; [done|done|]. by rewrite Hs', <- Hs, app_assoc.
    + unfold chunk_octets. cbn. unfold LastChunk.Empty. rewrite Hz.
      pose proof (LastChunk.inv_size _ Hi). destruct (Z.eqb_spec (LastChunk.size_ (last_chunk_ this) + 1) 0); [lia|].
      destruct (Z.eqb_spec (LastChunk.size_ (last_chunk_ this)) 0); lia.
  - rewrite (proj2 (Z.ltb_ge 262144 _)) by lia.
    destruct (Emit_spec (last_chunk_ this) d Hi Hd Ec) as (chunk & c1 & -> & Huc & Hi1 & Hs1 & Hz1 & H7).
    cbn [mbind option_bind].
    assert (Ec1 : can_add c1 d = true) by (unfold can_add; destruct (Z.ltb_spec (LastChunk.size_ c1) 7); [done|lia]).
    destruct (Add_spec c1 d Hi1 Hd Ec1) as (c' & -> & Hi' & Hs' & Hz'). cbn [mbind option_bind].
    exists (encoded_chunks_ this ++ [chunk]), c', (size_bytes_ this + 2).
    split; [done|]. split; [|split].
    + constructor; cbn; [by apply Forall_snoc|done|].
      rewrite map_app, concat_app. cbn [map concat]. rewrite app_nil_r, Hs', <- Hs, Hs1.
      by rewrite <- !app_assoc.
    + by apply Forall_snoc.
    + unfold chunk_octets. cbn. rewrite length_app. cbn [length]. unfold LastChunk.Empty. rewrite Hz'.
      pose proof (LastChunk.inv_size _ Hi1). pose proof (LastChunk.inv_size _ Hi).
      assert (7 <= LastChunk.size_ (last_chunk_ this)).
      { apply (CanAdd_full (last_chunk_ this) d); [done|lia|]. by rewrite CanAdd_spec, Ec by (done || lia). }
      destruct (Z.eqb_spec (LastChunk.size_ c1 + 1) 0); [lia|].
      destruct (Z.eqb_spec (LastChunk.size_ (last_chunk_ this)) 0); lia.
Qed.

Lemma received_of_app seq l1 l2 : is_u16 seq ->
  received_of seq (l1 ++ l2) = received_of seq l1 ++ received_of (u16 (seq + zlen l1)) l2.
Proof.
  revert seq. induction l1 as [|[s d] l1 IH]; intros seq Hs; cbn [app received_of length].
  - by rewrite Z.add_0_r, u16_id.
  - rewrite IH by apply u16_range. rewrite <- app_assoc. do 3 f_equal. wordlia.
Qed.

Lemma all_of_app seq l1 l2 : is_u16 seq ->
  all_of seq (l1 ++ l2) = all_of seq l1 ++ all_of (u16 (seq + zlen l1)) l2.
Proof.
  revert seq. induction l1 as [|[s d] l1 IH]; intros seq Hs; cbn [app all_of length].
  - by rewrite Z.add_0_r, u16_id.
  - rewrite IH by apply u16_range. do 3 f_equal. wordlia.
Qed.

Lemma ticks_app l1 l2 : ticks (l1 ++ l2) = ticks l1 + ticks l2.
Proof. induction l1 as [|i l1 IH]; cbn [app ticks fold_right]; fold ticks; [done|]. unfold ticks in *. lia. Qed.

Lemma delta_octets_app l1 l2 : delta_octets (l1 ++ l2) = delta_octets l1 + delta_octets l2.
Proof. induction l1 as [|i l1 IH]; [done|]. cbn. unfold delta_octets in *. lia. Qed.

Lemma canonical_ok ts i : canonical ts i -> item_ok i /\ 0 <= fst i <= 2.
Proof.
  unfold canonical, item_ok. intros [-> | (Hs & Hd & _)]; [cbn; lia|]. rewrite Hs.
  destruct (Z.geb_spec (snd i) 0), (Z.leb_spec (snd i) 255); cbn [andb]; lia.
Qed.

Lemma delta_octets_bound ts l : Forall (canonical ts) l -> 0 <= delta_octets l <= 2 * zlen l.
Proof.
  induction 1 as [|i l Hi _ IH]; [done|]. apply canonical_ok in Hi. cbn [delta_octets fold_right length].
  fold (delta_octets l). lia.
Qed.

(** One more packet. *)
Lemma rep_snoc this this' l s d p :
  rep this l -> zlen l < 65535 -> item_ok (s, d) -> config this' = config this ->
  p = (if 0 <? s then Received (u16 (base_seq_no_ this + zlen l)) d
       else Lost (u16 (base_seq_no_ this + zlen l))) ->
  num_seq_no_ this' = zlen l + 1 -> chunks_ok this' (map fst l ++ [s]) ->
  received_packets_ this' = received_packets_ this ++ (if 0 <? s then [p] else []) ->
  all_packets_ this' = (if include_lost_ this then all_packets_ this ++ [p] else all_packets_ this) ->
  last_timestamp_us_ this' = last_timestamp_us_ this + (if 0 <? s then d else 0) * 250 ->
  size_bytes_ this' = size_bytes_ this - chunk_octets this + chunk_octets this' +
    (if include_timestamps_ this then s else 0) ->
  rep this' (l ++ [(s, d)]).
Proof.
  intros [Hb Hn Hm Hc Hr Ha Ht Hs Hi] Hl Hsd Hcfg Hp Hn' Hc' Hr' Ha' Ht' Hs'.
  injection Hcfg as Ecm Eil Eb Ebt Ef Ets.
  assert (Hz : zlen (l ++ [(s, d)]) = zlen l + 1) by (rewrite length_app; cbn; lia).
  constructor; rewrite ?Hz, ?map_app, ?Eb, ?Eil, ?Ets, ?received_of_app, ?all_of_app, ?ticks_app,
    ?delta_octets_app, ?Forall_snoc by done; cbn [received_of all_of ticks delta_octets fold_right fst snd map].
  - done.
  - done.
  - lia.
  - done.
  - rewrite Hr', Hr, Hp. by destruct (0 <? s).
  - rewrite Ha', Ha, Hp. destruct (include_lost_ this); [|done]. by destruct (0 <? s).
  - rewrite Ht', Ht. unfold GetBaseTimeUs. rewrite Ebt. lia.
  - rewrite Hs', Hs. destruct (include_timestamps_ this); lia.
  - by split.
Qed.

Lemma built_lost this l chunks last size :
  built this l -> zlen l < 65535 ->
  let this' := with_chunks this (zlen l + 1) chunks last size in
  chunks_ok this' (map fst l ++ [0]) ->
  Forall (fun c => (7 <= length (LastChunk.chunk_symbols c))%nat) chunks ->
  size = size_bytes_ this - chunk_octets this + chunk_octets this' ->
  built (push_all this' (Lost (u16 (base_seq_no_ this + zlen l)))) (l ++ [(0, 0)]).
Proof.
  intros [Hrep Hcan Hd] Hl this' Hc' Hd' Hsz. constructor; [|apply Forall_snoc; split; [done|by left]|done].
  eapply rep_snoc; try done; cbn.
  - by destruct Hc'; constructor.
  - by rewrite app_nil_r.
  - lia.
  - rewrite Hsz. unfold chunk_octets. cbn. destruct (include_timestamps_ this); lia.
Qed.

Lemma built_received this l chunks last size d s :
  built this l -> zlen l < 65535 -> canonical (include_timestamps_ this) (s, d) -> 0 < s ->
  let this' := with_chunks this (zlen l + 1) chunks last size in
  chunks_ok this' (map fst l ++ [s]) ->
  Forall (fun c => (7 <= length (LastChunk.chunk_symbols c))%nat) chunks ->
  size = size_bytes_ this - chunk_octets this + chunk_octets this' ->
  built (push_received this' (u16 (base_seq_no_ this + zlen l)) d s) (l ++ [(s, d)]).
Proof.
  intros [Hrep Hcan Hd] Hl Hsd Hpos this' Hc' Hd' Hsz.
  destruct (canonical_ok _ _ Hsd) as [Hok _]. apply Z.ltb_lt in Hpos.
  constructor; [|by apply Forall_snoc|done].
  eapply rep_snoc; try done; rewrite ?Hpos; cbn; try done.
  - by destruct Hc'; constructor.
  - rewrite Hsz. unfold chunk_octets. cbn. destruct (include_timestamps_ this); lia.
Qed.

Lemma built_size this l : built this l -> size_bytes_ this <= 20 + chunk_octets this + 2 * zlen l.
Proof.
  intros [[] Hcan _]. pose proof (delta_octets_bound _ _ Hcan). destruct (include_timestamps_ this); lia.
Qed.

(** AddDeltaSize on an object that reports [l]. *)
Lemma built_AddDeltaSize this l d : built this l -> 0 <= d <= 2 ->
  if zlen l =? 65535 then AddDeltaSize this d = Some (this, false) else
  exists chunks last size,
    let this' := with_chunks this (zlen l + 1) chunks last size in
    AddDeltaSize this d = Some (this', true) /\ chunks_ok this' (map fst l ++ [d]) /\
    Forall (fun c => (7 <= length (LastChunk.chunk_symbols c))%nat) chunks /\
    size = size_bytes_ this - chunk_octets this + chunk_octets this'.
Proof.
  intros Hb Hd. pose proof (built_size _ _ Hb) as Hs. destruct Hb as [[] _ Hdense].
  pose proof (AddDeltaSize_spec this (map fst l) d) as H. rewrite length_map in H. by apply H.
Qed.

Lemma built_max this l : built this l -> zlen l <= 65535.
Proof. by intros [[] _ _]. Qed.

Lemma gap_loop_spec n : forall fuel this l,
  (n <= fuel)%nat -> built this l -> Z.of_nat n < 65536 ->
  exists this',
    gap_loop fuel this (u16 (base_seq_no_ this + zlen l)) (u16 (base_seq_no_ this + zlen l + Z.of_nat n)) =
      Some (this', zlen l + Z.of_nat n <=? 65535) /\
    config this' = config this /\
    built this' (l ++ replicate (Z.to_nat (Z.min (Z.of_nat n) (65535 - zlen l))) (0, 0)).
Proof.
  induction n as [|n IH]; intros fuel this l Hf Hb Hn.
  - pose proof (built_max _ _ Hb). exists this. rewrite Z.add_0_r. rewrite (proj2 (Z.leb_le _ _)) by lia.
    split; [|split; [done|]]; [|rewrite Z.min_l by lia; by rewrite app_nil_r]. destruct fuel; cbn [gap_loop]; by rewrite Z.eqb_refl.
  - destruct fuel as [|fuel]; [lia|]. cbn [gap_loop].
    destruct (Z.eqb_spec (u16 (base_seq_no_ this + zlen l))
      (u16 (base_seq_no_ this + zlen l + Z.of_nat (S n)))) as [E|_]; [exfalso; wordlia|].
    pose proof (built_max _ _ Hb) as Hmax. pose proof (built_AddDeltaSize this l 0 Hb) as HA.
    destruct (Z.eqb_spec (zlen l) 65535) as [El|El].
    + rewrite HA by lia. cbn [mbind option_bind negb]. exists this. rewrite (proj2 (Z.leb_gt _ _)) by lia.
      split; [done|]. split; [done|]. rewrite El, Z.min_r by lia. by rewrite app_nil_r.
    + destruct HA as (chunks & last & size & -> & Hok & Hd & Hs); [lia|]. cbn [mbind option_bind negb].
      pose proof (built_lost this l chunks last size Hb ltac:(lia) Hok Hd Hs) as Hb'.
      destruct (IH fuel _ _ ltac:(lia) Hb' ltac:(lia)) as (this' & E & Hc & Hb'').
      replace (zlen (l ++ [(0, 0)])) with (zlen l + 1) in E by (rewrite length_app; cbn; lia).
      cbn [base_seq_no_ push_all with_chunks] in E.
      replace (u16 (u16 (base_seq_no_ this + zlen l) + 1)) with (u16 (base_seq_no_ this + (zlen l + 1))) by wordlia.
      replace (u16 (base_seq_no_ this + zlen l + Z.of_nat (S n))) with
        (u16 (base_seq_no_ this + (zlen l + 1) + Z.of_nat n)) by (f_equal; lia).
      rewrite E. exists this'. split; [f_equal; f_equal; f_equal; lia|]. split; [by rewrite Hc|].
      rewrite <- app_assoc in Hb''. cbn [app] in Hb''.
      replace (Z.to_nat (Z.min (Z.of_nat (S n)) (65535 - zlen l)))
        with (S (Z.to_nat (Z.min (Z.of_nat n) (65535 - zlen (l ++ [(0, 0)])))))
        by (rewrite length_app; cbn [length]; lia).
      done.
Qed.

(** The delta: the nearest tick count, up to whole wrap periods. *)
Lemma delta_full_spec ts last : - 2 ^ 63 <= ts - last < 2 ^ 63 ->
  exists d q, delta_full ts last = Some d /\
    - 125 <= last + 250 * d - ts - q * kTimeWrapPeriodUs <= 125 /\
    (- 8191000 <= ts - last <= 8191000 -> q = 0 /\ - 32768 <= d < 32768).
Proof.
  intros Hr. unfold delta_full, sub_s64.
  rewrite check_then by (apply andb_true_iff; split; [apply Z.leb_le|apply Z.ltb_lt]; lia).
  cbn [mbind option_bind]. unfold kTimeWrapPeriodUs, kBaseScaleFactor, kDeltaScaleFactor.
  change (Z.shiftl 1 24 * (250 * Z.shiftl 1 8)) with 1073741824000.
  change (Z.quot 1073741824000 2) with 536870912000. change (Z.quot 250 2) with 125.
  set (x := ts - last) in *. rewrite Z.gtb_ltb.
  pose proof (Z.quot_rem' x 1073741824000) as Hq.
  assert (Hsm : -8191000 <= x <= 8191000 -> Z.quot x 1073741824000 = 0).
  { intros H. apply Z.quot_small_iff; lia. }
  set (k := Z.quot x 1073741824000) in *. set (r := Z.rem x 1073741824000) in *.
  destruct (Z.ltb_spec 536870912000 r) as [H1|H1].
  - set (y := r - 1073741824000). eexists _, (-1 - k). split; [reflexivity|].
    destruct (Z.ltb_spec y 0); Z.to_euclidean_division_equations; lia.
  - eexists _, (- k). split; [reflexivity|].
    destruct (Z.ltb_spec r 0); Z.to_euclidean_division_equations; lia.
Qed.

Lemma s16_fits d : (s16 d =? d) = true <-> - 32768 <= d < 32768.
Proof.
  rewrite Z.eqb_eq. split.
  - intros E. pose proof (sw_range 16 d ltac:(lia)) as H. unfold s16 in E. rewrite E in H. exact H.
  - intros H. unfold s16, sw. change (2 ^ 16) with 65536. change (2 ^ (16 - 1)) with 32768.
    destruct (Z.ltb_spec (d mod 65536) 32768); dlia.
Qed.

Lemma canonical_received ts d : - 32768 <= d < 32768 -> (ts = false -> d = 0) ->
  let s := if (d >=? 0) && (d <=? 0xff) then 1 else 2 in canonical ts (s, d) /\ 0 < s <= 2.
Proof.
  intros Hd Ht s. split; [unfold canonical; right; cbn [fst snd]; fold s; tauto|]. unfold s.
  destruct ((d >=? 0) && (d <=? 0xff)); lia.
Qed.

Lemma next_is_newer a : is_u16 a -> IsNewerSequenceNumber a (u16 (a - 1)) = true.
Proof.
  intros Ha. apply IsNewer_spec; [split; lia|exact Ha|apply u16_range|]. unfold is_u16 in Ha.
  left. change (2 ^ 16) with 65536. change (2 ^ (16 - 1)) with 32768. wordlia.
Qed.

(** The gap in front of a packet. *)
Definition gap (this : t) (seq : Z) : Z := u16 (seq - (base_seq_no_ this + num_seq_no_ this)).

Definition in_order (this : t) (seq : Z) : bool :=
  IsNewerSequenceNumber seq (u16 (base_seq_no_ this + num_seq_no_ this - 1)).

Definition ticks_of (this : t) (timestamp_us : Z) : option Z :=
  if include_timestamps_ this then delta_full timestamp_us (last_timestamp_us_ this) else Some 0.

(** The gap part of AddReceivedPacket, for a sequence number in order. *)
Lemma built_gap this l seq : built this l -> is_u16 seq -> in_order this seq = true ->
  exists this' k,
    (if negb (seq =? u16 (base_seq_no_ this + num_seq_no_ this)) then
       if negb (IsNewerSequenceNumber seq (u16 (u16 (base_seq_no_ this + num_seq_no_ this) - 1)))
       then Some (this, false)
       else gap_loop gap_fuel this (u16 (base_seq_no_ this + num_seq_no_ this)) seq
     else Some (this, true)) = Some (this', zlen l + gap this seq <=? 65535) /\
    config this' = config this /\ built this' (l ++ replicate k (0, 0)) /\
    Z.of_nat k = Z.min (gap this seq) (65535 - zlen l) /\
    last_timestamp_us_ this' = last_timestamp_us_ this.
Proof.
  intros Hb Hs Ho. pose proof (built_max _ _ Hb) as Hmax. unfold gap, in_order in *.
  replace (u16 (u16 (base_seq_no_ this + num_seq_no_ this) - 1)) with
    (u16 (base_seq_no_ this + num_seq_no_ this - 1)) by wordlia. rewrite Ho. cbn [negb].
  pose proof (rep_num _ _ (built_rep _ _ Hb)) as Hn. rewrite Hn in *.
  set (g := u16 (seq - (base_seq_no_ this + zlen l))).
  assert (Hg : 0 <= g < 65536) by apply u16_range.
  destruct (Z.eqb_spec seq (u16 (base_seq_no_ this + zlen l))) as [E|E]; cbn [negb].
  - assert (g = 0) as -> by (unfold g; wordlia). exists this, 0%nat. rewrite Z.add_0_r, (proj2 (Z.leb_le _ _)) by lia.
    split; [done|]. split; [done|]. split; [by rewrite app_nil_r|]. split; [lia|done].
  - destruct (gap_loop_spec (Z.to_nat g) gap_fuel this l) as (this' & HE & Hc & Hb'); [unfold gap_fuel; lia|done|lia|].
    rewrite Z2Nat.id in HE, Hb' by lia.
    replace (u16 (base_seq_no_ this + zlen l + g)) with seq in HE by (unfold g; wordlia).
    eexists _, _. split; [exact HE|]. split; [done|]. split; [exact Hb'|]. split; [lia|].
    rewrite (rep_time _ _ (built_rep _ _ Hb')), (rep_time _ _ (built_rep _ _ Hb)), ticks_app.
    injection Hc as _ _ _ Ebt _ _. unfold GetBaseTimeUs. rewrite Ebt.
    assert (Hz : forall k, ticks (replicate k (0, 0)) = 0) by (induction k; done). rewrite Hz. lia.
Qed.

(** AddReceivedPacket on every branch. *)
Lemma AddReceivedPacket_spec this l seq ts :
  built this l -> is_u16 seq -> - 2 ^ 63 <= ts - last_timestamp_us_ this < 2 ^ 63 ->
  exists full this' k,
    ticks_of this ts = Some full /\
    AddReceivedPacket this seq ts =
      Some (this', (s16 full =? full) && in_order this seq && (zlen l + gap this seq <? 65535)) /\
    config this' = config this /\
    if (s16 full =? full) && in_order this seq && (zlen l + gap this seq <? 65535) then
      Z.of_nat k = gap this seq /\
      built this' (l ++ replicate k (0, 0) ++ [(if (full >=? 0) && (full <=? 0xff) then 1 else 2, full)]) /\
      last_timestamp_us_ this' = last_timestamp_us_ this + 250 * full
    else built this' (l ++ replicate k (0, 0)).
Proof.
  intros Hb Hs Hts. unfold AddReceivedPacket. fold (ticks_of this ts).
  assert (Hf : exists full, ticks_of this ts = Some full /\ (include_timestamps_ this = false -> full = 0)).
  { unfold ticks_of. destruct (include_timestamps_ this); [|by exists 0].
    destruct (delta_full_spec ts (last_timestamp_us_ this) Hts) as (d & q & E & _). by exists d. }
  destruct Hf as (full & Ef & Hf0). rewrite Ef. cbn [mbind option_bind]. exists full.
  destruct (s16 full =? full) eqn:E16; cbn [negb andb].
  2: { exists this, 0%nat. split; [done|]. split; [done|]. split; [done|]. by rewrite app_nil_r. }
  pose proof (proj1 (s16_fits full) E16) as Hr. apply Z.eqb_eq in E16. rewrite E16.
  destruct (in_order this seq) eqn:Eo; cbn [andb].
  2: { exists this, 0%nat. split; [done|]. unfold in_order in Eo.
       destruct (Z.eqb_spec seq (u16 (base_seq_no_ this + num_seq_no_ this))) as [->|]; cbn [negb].
       - replace (u16 (base_seq_no_ this + num_seq_no_ this - 1)) with
           (u16 (u16 (base_seq_no_ this + num_seq_no_ this) - 1)) in Eo by wordlia.
         rewrite next_is_newer in Eo by apply u16_range. done.
       - replace (u16 (u16 (base_seq_no_ this + num_seq_no_ this) - 1)) with
           (u16 (base_seq_no_ this + num_seq_no_ this - 1)) by wordlia. rewrite Eo. cbn.
         split; [done|]. split; [done|]. by rewrite app_nil_r. }
  destruct (built_gap this l seq Hb Hs Eo) as (this1 & k & -> & Hc1 & Hb1 & Hk & Ht1).
  cbn [mbind option_bind]. assert (Hg : is_u16 (gap this seq)) by apply u16_range. unfold is_u16 in Hg.
  pose proof (built_max _ _ Hb) as Hmax.
  destruct (Z.leb_spec (zlen l + gap this seq) 65535) as [Hroom|Hroom]; cbn [negb].
  2: { exists this1, k. destruct (Z.ltb_spec (zlen l + gap this seq) 65535); [lia|]. by splits. }
  assert (Hl1 : zlen (l ++ replicate k (0, 0)) = zlen l + gap this seq)
    by (rewrite length_app, length_replicate; lia).
  destruct (canonical_received (include_timestamps_ this) full Hr Hf0) as [Hcan Hsz].
  set (s := if (full >=? 0) && (full <=? 0xff) then 1 else 2) in *.
  pose proof (built_AddDeltaSize this1 _ s Hb1 ltac:(lia)) as HA. rewrite Hl1 in HA.
  destruct (Z.eqb_spec (zlen l + gap this seq) 65535) as [Efull|Efull].
  - rewrite HA. cbn. exists this1, k. destruct (Z.ltb_spec (zlen l + gap this seq) 65535); [lia|]. by splits.
  - destruct HA as (chunks & last & size & -> & Hok & Hd & Hsize). cbn [mbind option_bind negb].
    destruct (Z.ltb_spec (zlen l + gap this seq) 65535); [|lia].
    eexists _, k. split; [done|]. split; [done|]. split; [by rewrite <- Hc1|].
    split; [lia|]. split; [|cbn; rewrite Ht1; unfold kDeltaScaleFactor; lia].
    rewrite app_assoc. injection Hc1 as _ _ Eb _ _ Ets. rewrite <- Hl1 in Hok, Hsize. rewrite <- Ets in Hcan.
    rewrite <- Hl1. replace seq with (u16 (base_seq_no_ this1 + zlen (l ++ replicate k (0, 0)))).
    + apply built_received; try done; [rewrite Hl1; lia|apply Hsz].
    + rewrite Hl1, Eb. unfold gap. rewrite (rep_num _ _ (built_rep _ _ Hb)). wordlia.
Qed.

(** ** IsConsistent *)

Lemma length_chunk_symbols chunk : is_u16 chunk -> zlen (LastChunk.chunk_symbols chunk) <= 8191.
Proof.
  intros Hc. unfold LastChunk.chunk_symbols. destruct (_ <? _); [|destruct (_ =? _)].
  - rewrite length_replicate. pose proof (Z.mod_pos_bound chunk (2 ^ 13)). lia.
  - by rewrite length_map, length_seqZ.
  - by rewrite length_map, length_seqZ.
Qed.

Lemma inv_array_14 c : LastChunk.inv c -> zlen (LastChunk.delta_sizes_ c) <= 14.
Proof. intros Hi. pose proof (LastChunk.inv_array c Hi). caps. lia. Qed.

Lemma decode_chunks_spec chunks : forall c l size,
  Forall is_u16 chunks -> zlen (LastChunk.delta_sizes_ c) <= 14 ->
  decode_chunks c chunks l size =
  Some (l ++ concat (map LastChunk.chunk_symbols chunks), size + 2 * zlen chunks).
Proof.
  induction chunks as [|chunk chunks IH]; intros c l size Hu Hc; cbn [decode_chunks map concat length].
  - rewrite app_nil_r. tuple_eq; lia.
  - apply Forall_cons_iff in Hu as [Hu1 Hu].
    destruct (Decode_spec c chunk kMaxReportedPackets Hu1) as (c' & -> & Hi & Hs); [done|done|].
    cbn [mbind option_bind]. rewrite AppendTo_spec by done. cbn [mbind option_bind].
    rewrite IH by (done || by apply inv_array_14). rewrite Hs.
    rewrite take_ge by (pose proof (length_chunk_symbols chunk Hu1); unfold kMaxReportedPackets; lia).
    rewrite app_assoc. unfold kChunkSizeBytes. tuple_eq; lia.
Qed.

Lemma consistent_loop_spec ts l : forall seq time size,
  Forall item_ok l ->
  consistent_loop ts (map fst l) seq (received_of seq l) time size =
  Some (true, [], time + 250 * ticks l, size + (if ts then delta_octets l else 0)).
Proof.
  induction l as [|[s d] l IH]; intros seq time size Hl; cbn [map consistent_loop received_of].
  - cbn. destruct ts; tuple_eq; lia.
  - apply Forall_cons_iff in Hl as [(Hs & _ & H1) Hl]. cbn [fst snd] in *. rewrite Z.gtb_ltb.
    cbn [ticks delta_octets fold_right fst snd]. fold (ticks l) (delta_octets l).
    destruct (Z.ltb_spec 0 s) as [Hp|Hp].
    + cbn [app sequence_number_ Received delta_ticks_ delta_us mbind option_bind]. rewrite Z.eqb_refl. cbn [negb].
      assert (Hc : (s =? 1) && ((d <? 0) || (d >? 255)) = false).
      { destruct (Z.eqb_spec s 1) as [E|]; [|done]. specialize (H1 E). rewrite Z.gtb_ltb.
        destruct (Z.ltb_spec d 0), (Z.ltb_spec 255 d); try done; lia. }
      rewrite Hc, IH by done. unfold kDeltaScaleFactor. destruct ts; tuple_eq; lia.
    + cbn [app]. rewrite IH by done. destruct ts; tuple_eq; lia.
Qed.

Lemma rep_consistent this l : rep this l -> IsConsistent this = Some true.
Proof.
  intros [Hb Hn Hm [Hu Hi Hsy] Hr Ha Ht Hs Hok]. unfold IsConsistent.
  rewrite decode_chunks_spec by (done || cbn; lia). cbn [mbind option_bind app].
  unfold kTransportFeedbackHeaderSizeBytes, kChunkSizeBytes. change (4 + 8 + 8) with 20.
  assert (E : exists size, (if negb (LastChunk.Empty (last_chunk_ this)) then
      delta_sizes ← LastChunk.AppendTo (last_chunk_ this) (concat (map LastChunk.chunk_symbols (encoded_chunks_ this)));
      Some (delta_sizes, 20 + 2 * zlen (encoded_chunks_ this) + 2)
    else Some (concat (map LastChunk.chunk_symbols (encoded_chunks_ this)), 20 + 2 * zlen (encoded_chunks_ this))) =
    Some (map fst l, size) /\ size = 20 + chunk_octets this).
  { unfold chunk_octets. destruct (LastChunk.Empty (last_chunk_ this)) eqn:E; cbn [negb].
    - eexists. split; [|reflexivity]. rewrite <- Hsy. unfold LastChunk.Empty in E. apply Z.eqb_eq in E.
      pose proof (length_symbols _ Hi) as Hl. rewrite E in Hl.
      destruct (LastChunk.symbols (last_chunk_ this)); [|done]. rewrite app_nil_r. tuple_eq; lia.
    - rewrite AppendTo_spec by done. cbn [mbind option_bind]. rewrite Hsy. eexists. split; [reflexivity|lia]. }
  destruct E as (size & -> & Hsize). cbn [mbind option_bind].
  rewrite length_map, Hn, Z.eqb_refl. cbn [negb].
  rewrite Hr, consistent_loop_spec by done. cbn [mbind option_bind negb length Z.eqb Z.of_nat].
  change (negb (Z.of_nat 0 =? 0)) with false. cbn iota.
  rewrite Ht, Z.eqb_refl. cbn [negb]. by rewrite Hs, Hsize, Z.eqb_refl.
Qed.

(** ** Reachable objects *)

Lemma create_built ts lost : built (create ts lost) [].
Proof.
  constructor; [|constructor|constructor]. constructor; cbn; try done.
  - by destruct lost.
  - by destruct ts.
Qed.

Lemma built_nil this : built this [] -> received_packets_ this = [] /\ all_packets_ this = [] /\
  encoded_chunks_ this = [] /\ LastChunk.symbols (last_chunk_ this) = [].
Proof.
  intros [[Hb Hn Hm [Hu Hi Hsy] Hr Ha Ht Hs Hok] Hc Hd]. cbn [map] in Hsy.
  apply app_eq_nil in Hsy as [Hcc ->].
  destruct (encoded_chunks_ this) as [|c cs].
  - splits; try done. by destruct (include_lost_ this).
  - exfalso. apply Forall_cons_iff in Hd as [Hd _]. cbn [map concat] in Hcc.
    apply app_eq_nil in Hcc as [E _]. rewrite E in Hd. cbn in Hd. lia.
Qed.

Lemma SetBase_spec this base ref : built this [] -> is_u16 base -> 0 <= ref ->
  exists this', SetBase this base ref = Some this' /\ built this' [] /\
    base_seq_no_ this' = base /\ 0 <= base_time_ticks_ this' < 2 ^ 24 /\
    base_time_ticks_ this' = (ref / 64000) mod 2 ^ 24 /\
    last_timestamp_us_ this' = base_time_ticks_ this' * 64000 /\
    feedback_seq_ this' = feedback_seq_ this /\ common this' = common this.
Proof.
  intros Hbt Hbase Href. pose proof (built_nil _ Hbt) as (Er & Ea & _ & _).
  destruct Hbt as [[Hb Hn Hm Hc Hr Ha Ht Hs Hok] Hcan Hd].
  unfold SetBase. rewrite Hn. cbn [length]. rewrite check_then, check_then by (done || by apply Z.leb_le).
  assert (Hq : Z.quot (Z.rem ref kTimeWrapPeriodUs) kBaseScaleFactor = (ref / 64000) mod 2 ^ 24).
  { unfold kTimeWrapPeriodUs, kBaseScaleFactor, kDeltaScaleFactor.
    change (Z.shiftl 1 24) with (2 ^ 24). change (250 * Z.shiftl 1 8) with 64000.
    rewrite Z.rem_mod_nonneg by lia. rewrite Z.quot_div_nonneg by (try apply Z.mod_pos_bound; lia).
    change (2 ^ 24) with 16777216. dlia. }
  rewrite Hq. eexists. split; [reflexivity|]. cbn.
  pose proof (Z.mod_pos_bound (ref / 64000) (2 ^ 24)). splits; try done; try lia.
  constructor; [|constructor|done]. constructor; cbn; try done.
  - by destruct Hc; constructor.
  - unfold GetBaseTimeUs. cbn. lia.
Qed.

Lemma SetFeedbackSequenceNumber_built this l n : built this l ->
  built (SetFeedbackSequenceNumber this n) l.
Proof.
  intros [[Hb Hn Hm Hc Hr Ha Ht Hs Hok] Hcan Hd].
  constructor; [|done|done]. constructor; try done. by destruct Hc; constructor.
Qed.

Module Reach.

(** The public operations that build a report, on arguments of their types;
    the arrival times are within the range in which int64_t differences with the
    previous time do not overflow. *)
Inductive step : t -> t -> Prop :=
  | step_base this this' base ref : is_u16 base -> 0 <= ref ->
      SetBase this base ref = Some this' -> step this this'
  | step_feedback_seq this n : is_u8 n -> step this (SetFeedbackSequenceNumber this n)
  | step_add this this' seq ts b : is_u16 seq -> - 2 ^ 62 <= ts < 2 ^ 62 ->
      AddReceivedPacket this seq ts = Some (this', b) -> step this this'.

Inductive reachable : t -> Prop :=
  | reach_create ts lost : reachable (create ts lost)
  | reach_step this this' : reachable this -> step this this' -> reachable this'.

End Reach.

(** The invariant of the objects that the operations build. *)
Record good (this : t) (l : list item) : Prop := {
  good_built : built this l;
  good_base_time : 0 <= base_time_ticks_ this < 2 ^ 24;
  good_feedback_seq : is_u8 (feedback_seq_ this);
  good_common : CommonFeedback.wf (common this)
}.

Lemma ticks_bound ts l : Forall (canonical ts) l -> - 32768 * zlen l <= ticks l <= 32768 * zlen l.
Proof.
  induction 1 as [|i l Hi _ IH]; [done|]. apply canonical_ok in Hi as [(_ & Hi & _) _].
  cbn [ticks fold_right length]. fold (ticks l). destruct (0 <? fst i); lia.
Qed.

Lemma good_time this l : good this l -> - 2 ^ 40 <= last_timestamp_us_ this <= 2 ^ 41.
Proof.
  intros [[[Hb Hn Hm Hc Hr Ha Ht Hs Hok] Hcan Hd] Hbt _ _]. pose proof (ticks_bound _ _ Hcan).
  rewrite Ht. unfold GetBaseTimeUs, kBaseScaleFactor, kDeltaScaleFactor.
  change (250 * Z.shiftl 1 8) with 64000. lia.
Qed.

(** AddReceivedPacket never fails on a good object and keeps it good. *)
Lemma good_AddReceivedPacket this l seq ts : good this l -> is_u16 seq -> - 2 ^ 62 <= ts < 2 ^ 62 ->
  exists this' b l', AddReceivedPacket this seq ts = Some (this', b) /\ good this' (l ++ l').
Proof.
  intros Hg Hs Ht. pose proof (good_time _ _ Hg) as Hr. destruct Hg as [Hb Hbt Hf Hcm].
  destruct (AddReceivedPacket_spec this l seq ts Hb Hs) as (full & this' & k & _ & E & Hc & H); [lia|].
  injection Hc as Ecm Eil Eb Ebt Ef Ets.
  destruct ((s16 full =? full) && in_order this seq && (zlen l + gap this seq <? 65535)); eexists _, _.
  - destruct H as (_ & H & _). eexists. split; [exact E|]. constructor; [exact H|..]; congruence.
  - eexists. split; [exact E|]. constructor; [exact H|..]; congruence.
Qed.

Lemma reachable_good this : Reach.reachable this -> exists l, good this l.
Proof.
  induction 1 as [ts lost|this this' _ [l IH] Hs].
  - exists []. constructor; [apply create_built|done|done|done].
  - destruct Hs as [this this' base ref Hb Hr E|this n Hn|this this' seq ts b Hq Ht E].
    + destruct IH as [IHb Hbt Hf Hcm].
      destruct l as [|i l].
      * destruct (SetBase_spec this base ref IHb Hb Hr) as (this2 & E2 & Hb2 & _ & Hbt2 & _ & _ & Ef & Ec).
        assert (this2 = this') as -> by congruence. exists [].
        constructor; [done|done|by rewrite Ef|by rewrite Ec].
      * exfalso. unfold SetBase in E. rewrite (rep_num _ _ (built_rep _ _ IHb)) in E.
        cbn [length] in E. destruct (Z.eqb_spec (Z.of_nat (S (length l))) 0); [lia|done].
    + exists l. destruct IH as [IHb Hbt Hf Hcm]. constructor; [by apply SetFeedbackSequenceNumber_built|done..].
    + destruct (good_AddReceivedPacket this l seq ts IH Hq Ht) as (this2 & b2 & l' & E2 & Hg).
      rewrite E in E2. injection E2 as <- <-. by exists (l ++ l').
Qed.

(** ** The wire format *)

Section wire.
Context (this : t).

(** The chunks Create writes. *)
Definition wire_chunks : list Z :=
  encoded_chunks_ this ++
  (if LastChunk.Empty (last_chunk_ this) then []
   else match LastChunk.EncodeLast (last_chunk_ this) with Some c => [c] | None => [] end).

Definition delta_bytes (p : ReceivedPacket) : bytes :=
  match delta_ticks_ p with
  | Some d => if (d >=? 0) && (d <=? 0xff) then [d] else be_bytes 2 (uw 16 d)
  | None => []
  end.

Definition padding_bytes (n : Z) : bytes :=
  if n >? 0 then replicate (Z.to_nat (n - 1)) 0 ++ [n] else [].

(** The payload without padding. *)
Definition payload_bytes : bytes :=
  CommonFeedback.encode (common this) ++ be_bytes 2 (base_seq_no_ this) ++
  be_bytes 2 (num_seq_no_ this) ++ be_bytes 3 (uw 32 (base_time_ticks_ this)) ++
  be_bytes 1 (feedback_seq_ this) ++ concat (map (be_bytes 2) wire_chunks) ++
  (if include_timestamps_ this then concat (map delta_bytes (received_packets_ this)) else []).

Definition encode : bytes :=
  RtcpPacket.header_bytes kFeedbackMessageType Rtpfb.kPacketType
    ((BlockLength this - 4) / 4) (0 <? PaddingLength this) ++
  payload_bytes ++ padding_bytes (PaddingLength this).

(** The packets an object reports, and the object a parser recovers. *)
Fixpoint items_of (syms : list Z) (rs : list ReceivedPacket) : list item :=
  match syms with
  | [] => []
  | s :: syms' =>
      if 0 <? s then
        (s, match rs with p :: _ => default 0 (delta_ticks_ p) | [] => 0 end) :: items_of syms' (tl rs)
      else (s, 0) :: items_of syms' rs
  end.

Definition contents : list item :=
  items_of (concat (map LastChunk.chunk_symbols (encoded_chunks_ this)) ++
            LastChunk.symbols (last_chunk_ this)) (received_packets_ this).

Fixpoint decode_all (c : LastChunk.t) (chunks : list Z) (n : Z) : LastChunk.t :=
  match chunks with
  | [] => c
  | chunk :: rest =>
      match LastChunk.Decode c chunk n with
      | Some c' => decode_all c' rest (n - zlen (LastChunk.symbols c'))
      | None => c
      end
  end.

Definition image : t :=
  Mk (common this) true (base_seq_no_ this) (num_seq_no_ this) (sw 24 (base_time_ticks_ this))
    (feedback_seq_ this) (include_timestamps_ this || (delta_octets contents =? 0))
    (sw 24 (base_time_ticks_ this) * kBaseScaleFactor + 250 * ticks contents)
    (received_packets_ this) (all_of (base_seq_no_ this) contents)
    (removelast wire_chunks) (decode_all LastChunk.new wire_chunks (num_seq_no_ this))
    (size_bytes_ this).

End wire.

Definition wf (this : t) : Prop := good this (contents this) /\ contents this <> [].

Lemma items_of_spec ts seq l : Forall (canonical ts) l ->
  items_of (map fst l) (received_of seq l) = l.
Proof.
  intros Hl. revert seq. induction Hl as [|[s d] l Hi _ IH]; intros seq; [done|].
  cbn [map items_of received_of fst]. destruct (Z.ltb_spec 0 s) as [Hp|Hp].
  - cbn [app tl Received delta_ticks_ default]. by rewrite IH.
  - cbn [app]. rewrite IH. destruct Hi as [[= -> ->]|(Hs & _)]; [done|].
    cbn in Hs. destruct (_ && _); lia.
Qed.

Lemma contents_spec this l : built this l -> contents this = l.
Proof.
  intros [[Hb Hn Hm [Hu Hi Hsy] Hr Ha Ht Hs Hok] Hcan Hd]. unfold contents.
  rewrite Hsy, Hr. by eapply items_of_spec.
Qed.

Lemma good_wf this l : good this l -> l <> [] -> wf this.
Proof. intros Hg Hl. unfold wf. by rewrite (contents_spec this l) by apply Hg. Qed.

(** The octets of the deltas. *)
Lemma delta_bytes_spec seq l ts : Forall (canonical ts) l ->
  zlen (concat (map delta_bytes (received_of seq l))) = delta_octets l.
Proof.
  intros Hl. revert seq. induction Hl as [|[s d] l Hi _ IH]; intros seq; [done|].
  cbn [received_of delta_octets fold_right fst]. fold (delta_octets l).
  destruct (Z.ltb_spec 0 s) as [Hp|Hp]; cbn [app map concat].
  - rewrite length_app, Nat2Z.inj_add, IH. unfold delta_bytes. cbn [Received delta_ticks_].
    destruct Hi as [[= -> ->]|(Hs & _)]; [lia|]. cbn [fst snd] in Hs.
    destruct ((d >=? 0) && (d <=? 255)); rewrite Hs; [done|]. by rewrite length_be_bytes.
  - rewrite IH. destruct Hi as [[= -> ->]|(Hs & _)]; [done|].
    cbn [fst snd] in Hs. destruct ((d >=? 0) && (d <=? 255)); lia.
Qed.

(** BlockLength rounds the size up to whole words. *)
Lemma BlockLength_spec this : 0 <= size_bytes_ this ->
  BlockLength this = (size_bytes_ this + 3) / 4 * 4 /\ BlockLength this mod 4 = 0 /\
  0 <= PaddingLength this <= 3.
Proof.
  intros Hs.
  assert (E : BlockLength this = (size_bytes_ this + 3) / 4 * 4).
  { unfold BlockLength. rewrite <- Z.ldiff_land. change 3 with (Z.ones 2) at 2.
    rewrite Z.ldiff_ones_r by done. rewrite Z.shiftl_mul_pow2, Z.shiftr_div_pow2 by done. done. }
  unfold PaddingLength. rewrite E. split; [done|]. split; [by apply Z.mod_mul|]. dlia.
Qed.

Lemma length_padding_bytes n : 0 <= n -> zlen (padding_bytes n) = n.
Proof.
  intros Hn. unfold padding_bytes. rewrite Z.gtb_ltb. destruct (Z.ltb_spec 0 n); [|cbn; lia].
  rewrite length_app, length_replicate. cbn. lia.
Qed.

(** The chunks on the wire stand for the symbols, padded after the last one. *)
Lemma wire_chunks_spec this syms : chunks_ok this syms -> syms <> [] ->
  Forall (fun c => (7 <= length (LastChunk.chunk_symbols c))%nat) (encoded_chunks_ this) ->
  Forall is_u16 (wire_chunks this) /\ 2 * zlen (wire_chunks this) = chunk_octets this /\
  take (length syms) (concat (map LastChunk.chunk_symbols (wire_chunks this))) = syms /\
  (length (concat (map LastChunk.chunk_symbols (removelast (wire_chunks this)))) < length syms)%nat.
Proof.
  intros [Hu Hi Hsy] Hne Hd. unfold wire_chunks, chunk_octets, LastChunk.Empty.
  pose proof (length_symbols _ Hi) as Hl. pose proof (LastChunk.inv_size _ Hi).
  destruct (Z.eqb_spec (LastChunk.size_ (last_chunk_ this)) 0) as [E|E].
  - rewrite app_nil_r. rewrite E in Hl. destruct (LastChunk.symbols (last_chunk_ this)); [|done].
    rewrite app_nil_r in Hsy. split; [done|]. split; [lia|]. rewrite Hsy. split; [by apply take_ge|].
    destruct (decide (encoded_chunks_ this = [])) as [Ec|Ec]; [by rewrite Ec in Hsy; subst|].
    destruct (exists_last Ec) as (cs & c & Ecs). rewrite Ecs in *.
    rewrite removelast_last. rewrite <- Hsy, map_app, concat_app, length_app. cbn [map concat].
    rewrite app_nil_r. apply Forall_snoc in Hd as [_ Hd]. lia.
  - destruct (EncodeLast_spec _ Hi) as (chunk & -> & Hc & Ht); [lia|].
    split; [by apply Forall_snoc|]. split; [rewrite length_app; cbn [length]; lia|].
    rewrite removelast_last, map_app, concat_app. cbn [map concat]. rewrite app_nil_r.
    rewrite <- Hsy, length_app. split; [|lia].
    rewrite take_app, Nat.add_comm, Nat.add_sub, take_ge by lia. f_equal.
    rewrite <- Ht at 2. f_equal. lia.
Qed.

Lemma length_be2 l : zlen (concat (map (be_bytes 2) l)) = 2 * zlen l.
Proof. induction l as [|x l IH]; [done|]. cbn [map concat length]. rewrite length_app, length_be_bytes. lia. Qed.

Lemma built_payload this l : built this l -> l <> [] ->
  zlen (payload_bytes this) = size_bytes_ this - 4 /\ 24 <= size_bytes_ this + 2 <= 262144.
Proof.
  intros Hb Hl. pose proof (built_size _ _ Hb) as Hsz. destruct Hb as [[Hb Hn Hm Hc Hr Ha Ht Hs Hok] Hcan Hd].
  destruct (wire_chunks_spec this (map fst l) Hc) as (Hu & Hlen & Hsy & _); [by destruct l|done|].
  pose proof (chunk_octets_bound _ _ Hc Hd) as Hco. rewrite length_map in Hco.
  pose proof (delta_octets_bound _ _ Hcan) as Hdo.
  assert (1 <= zlen (wire_chunks this)).
  { destruct (wire_chunks this); [|cbn [length]; lia]. destruct l; [done|]. cbn [map concat] in Hsy. by rewrite take_nil in Hsy. }
  split.
  - unfold payload_bytes. rewrite !length_app, length_feedback, !length_be_bytes.
    pose proof (length_be2 (wire_chunks this)). rewrite Hs.
    assert (Hdl : zlen (if include_timestamps_ this then concat (map delta_bytes (received_packets_ this)) else []) =
      if include_timestamps_ this then delta_octets l else 0).
    { destruct (include_timestamps_ this) eqn:Ets; [|done]. rewrite Hr. rewrite <- Ets in Hcan. by eapply delta_bytes_spec. }
    lia.
  - destruct (include_timestamps_ this); lia.
Qed.

(** ** Create *)

Lemma runs_create_chunks chunks :
  runs 0 (for_each create_chunk chunks) tt (concat (map (be_bytes 2) chunks)).
Proof. apply runs_for_each. intros c _. apply (runs_write_be_last 2 c 2). done. Qed.

Lemma runs_create_deltas ts seq l : Forall (canonical ts) l ->
  runs 0 (for_each create_delta (received_of seq l)) tt
    (concat (map delta_bytes (received_of seq l))).
Proof.
  intros Hl. apply runs_for_each. intros p Hp.
  assert (Hd : exists d, delta_ticks_ p = Some d).
  { clear Hl. revert seq Hp. induction l as [|[s d] l IH]; intros seq; [done|]. cbn [received_of].
    rewrite in_app_iff. intros [Hp|Hp]; [|by eapply IH]. destruct (0 <? s); [|done].
    destruct Hp as [<-|[]]. by exists d. }
  destruct Hd as [d Hd]. unfold create_delta, delta_bytes. rewrite Hd. 
  apply (runs_wlift _ d); [done|]. destruct ((d >=? 0) && (d <=? 255)) eqn:E.
  - apply andb_true_iff in E as [E1%Z.geb_le E2%Z.leb_le]. apply runs_push_u8. unfold is_u8. lia.
  - apply (runs_write_be_last 2 (uw 16 d) 2). done.
Qed.

Lemma runs_create_padding n : 0 <= n <= 3 -> runs 0 (create_padding n) tt (padding_bytes n).
Proof.
  intros Hn. unfold create_padding, padding_bytes. destruct (n >? 0); [|apply runs_ret].
  apply runs_then.
  - eapply runs_eq; [apply (runs_for_each push (fun b => [u8 b]))|].
    + intros b _. apply runs_push_last.
    + induction (Z.to_nat (n - 1)) as [|k IH]; [done|]. cbn [replicate map concat]. by rewrite IH.
  - apply runs_push_u8. unfold is_u8. lia.
Qed.

(** The chunk of the delta sizes that are not emitted yet. *)
Lemma runs_last_chunk c : LastChunk.inv c ->
  runs 0 (if negb (LastChunk.Empty c) then
            chunk ← wlift (LastChunk.EncodeLast c); create_chunk chunk
          else mret tt) tt
    (concat (map (be_bytes 2)
       (if LastChunk.Empty c then []
        else match LastChunk.EncodeLast c with Some chunk => [chunk] | None => [] end))).
Proof.
  intros Hi. unfold LastChunk.Empty. pose proof (LastChunk.inv_size c Hi).
  destruct (Z.eqb_spec (LastChunk.size_ c) 0); cbn [negb]; [apply runs_ret|].
  destruct (EncodeLast_spec c Hi) as (chunk & -> & _ & _); [lia|].
  apply (runs_wlift _ chunk); [done|]. cbn [map concat]. rewrite app_nil_r.
  by apply runs_write_be_last.
Qed.

Lemma runs_create_body this l : good this l -> l <> [] ->
  runs 0 (create_body this) tt (encode this).
Proof.
  intros [Hb Hbt Hf Hcm] Hl. pose proof (built_payload _ _ Hb Hl) as [_ Hsz].
  destruct (BlockLength_spec this) as (Ebl & Hmod & Hpad); [lia|].
  destruct Hb as [[Hbase Hn Hm [_ Hi _] Hr Ha Ht Hs Hok] Hcan Hd].
  unfold create_body, encode, payload_bytes, wire_chunks. rewrite map_app, concat_app, <- !app_assoc.
  assert (Hbl : 4 <= BlockLength this <= 262144) by (rewrite Ebl; dlia).
  apply (runs_wlift _ ((BlockLength this - 4) / 4)).
  { rewrite HeaderLength_Some by (done || lia). done. }
  apply runs_then; [apply runs_CreateHeaderPadded; [dlia|done|done]|].
  apply runs_rtpfb. do 2 (eapply runs_write_be; [reflexivity|]; apply runs_add).
  eapply runs_write_be; [reflexivity|]. apply runs_add.
  rewrite be_bytes_1 by done. rewrite <- (u8_id (feedback_seq_ this)) at 2 by done. apply runs_push.
  apply runs_then; [apply runs_create_chunks|].
  apply runs_then; [by apply runs_last_chunk|].
  apply runs_then; [|by apply runs_create_padding].
  destruct (include_timestamps_ this) eqn:Ets; [|apply runs_ret].
  rewrite Hr. by eapply runs_create_deltas.
Qed.

Lemma length_encode this l : good this l -> l <> [] -> zlen (encode this) = BlockLength this.
Proof.
  intros Hg Hl. destruct (built_payload _ _ (good_built _ _ Hg) Hl) as [Hp Hsz].
  destruct (BlockLength_spec this) as (Ebl & Hmod & Hpad); [lia|].
  unfold encode. rewrite !length_app, length_header_bytes, !Nat2Z.inj_add, length_padding_bytes, Hp by lia.
  unfold PaddingLength. lia.
Qed.

(** Create on every branch. *)
Lemma TransportFeedback_Create_spec this l max_length callback st :
  good this l -> l <> [] -> 0 <= windex st <= zlen (wbuf st) ->
  Create this max_length callback st = create_result (encode this) max_length callback st.
Proof.
  intros Hg Hl Hi. unfold Create. rewrite (rep_num _ _ (built_rep _ _ (good_built _ _ Hg))).
  destruct (Z.eqb_spec (zlen l) 0) as [E|_]; [by destruct l|].
  destruct (built_payload _ _ (good_built _ _ Hg) Hl) as [Hp Hsz].
  destruct (BlockLength_spec this) as (Ebl & Hmod & Hpad); [lia|].
  apply create_with_result; [by eapply runs_create_body|by eapply length_encode| |done].
  unfold PaddingLength in Hpad. lia.
Qed.

(** ** Parse *)

(** The chunk loop on the chunks of [r] symbols. *)
Lemma chunk_loop_spec chunks : forall fuel this pre post status_count end_index ds r,
  Forall is_u16 chunks -> zlen (LastChunk.delta_sizes_ (last_chunk_ this)) <= 14 ->
  take (length r) (concat (map LastChunk.chunk_symbols chunks)) = r ->
  (length (concat (map LastChunk.chunk_symbols (removelast chunks))) < length r)%nat \/
    (chunks = [] /\ r = []) ->
  zlen ds + zlen r = status_count -> zlen pre + 2 * zlen chunks <= end_index ->
  (length chunks <= fuel)%nat ->
  chunk_loop fuel this (pre ++ concat (map (be_bytes 2) chunks) ++ post) status_count end_index
    (zlen pre) ds =
  Some (with_chunks this (num_seq_no_ this) (encoded_chunks_ this ++ chunks)
          (decode_all (last_chunk_ this) chunks (zlen r)) (size_bytes_ this),
        Some (zlen pre + 2 * zlen chunks, ds ++ r)).
Proof.
  induction chunks as [|chunk rest IH]; intros fuel this pre post n e ds r Hu Hc Hr Hlast Hn He Hf.
  - assert (r = []) as -> by (destruct Hlast as [H|[_ ->]]; [cbn [map concat] in Hr; by rewrite take_nil in Hr|done]).
    rewrite !app_nil_r. cbn [length] in *.
    destruct fuel; cbn [chunk_loop]; rewrite (proj2 (Z.ltb_ge _ _)) by lia;
      (tuple_eq; [by destruct this; cbn|lia]).
  - apply Forall_cons_iff in Hu as [Hu1 Hu]. cbn [length map concat] in *.
    destruct Hlast as [Hlast|[? _]]; [|done].
    assert (Hr0 : (0 < length r)%nat) by lia.
    destruct fuel as [|fuel]; [lia|]. cbn [chunk_loop].
    rewrite (proj2 (Z.ltb_lt _ _)) by lia. unfold kChunkSizeBytes. rewrite Z.gtb_ltb.
    rewrite (proj2 (Z.ltb_ge _ _)) by lia.
    rewrite <- app_assoc, read_be_app_at0, read_u16_here by done. cbn [mbind option_bind].
    replace (n - zlen ds) with (zlen r) by lia.
    destruct (Decode_spec (last_chunk_ this) chunk (zlen r) Hu1) as (c' & E & Hi & Hs); [lia|done|].
    cbn [decode_all]. rewrite E. cbn [mbind option_bind]. rewrite AppendTo_spec by done.
    cbn [mbind option_bind]. rewrite Nat2Z.id in Hs.
    set (r1 := LastChunk.symbols c') in *.
    assert (Hsplit : exists r2, r = r1 ++ r2 /\
      take (length r2) (concat (map LastChunk.chunk_symbols rest)) = r2 /\
      ((length (concat (map LastChunk.chunk_symbols (removelast rest))) < length r2)%nat \/
       rest = [] /\ r2 = [])).
    { exists (take (length r - length (LastChunk.chunk_symbols chunk)) (concat (map LastChunk.chunk_symbols rest))).
      rewrite take_app in Hr. rewrite <- Hs in Hr. split; [done|].
      assert (Hl2 : length (take (length r - length (LastChunk.chunk_symbols chunk))
          (concat (map LastChunk.chunk_symbols rest))) =
        (length r - length (LastChunk.chunk_symbols chunk))%nat).
      { apply (f_equal length) in Hr. rewrite length_app in Hr. rewrite Hs, length_take in Hr. lia. }
      rewrite Hl2. split; [done|].
      destruct rest as [|chunk2 rest]; [right; split; [done|]; cbn [map concat]; by rewrite take_nil|].
      left. change (removelast (chunk :: chunk2 :: rest)) with (chunk :: removelast (chunk2 :: rest)) in Hlast.
      cbn [map concat] in Hlast. rewrite length_app in Hlast. lia. }
    destruct Hsplit as (r2 & Hr12 & Htake & Hl2). rewrite Hr12, length_app in Hn |- *.
    replace (Z.of_nat (length r1 + length r2) - zlen r1) with (zlen r2) by lia.
    replace (pre ++ be_bytes 2 chunk ++ concat (map (be_bytes 2) rest) ++ post) with
      ((pre ++ be_bytes 2 chunk) ++ concat (map (be_bytes 2) rest) ++ post) by by rewrite <- app_assoc.
    assert (Hz : zlen (pre ++ be_bytes 2 chunk) = zlen pre + 2) by (rewrite length_app, length_be_bytes; lia).
    rewrite <- Hz, (IH fuel _ (pre ++ be_bytes 2 chunk) post n e (ds ++ r1) r2); try done; [|by apply inv_array_14|rewrite length_app; lia|rewrite Hz; lia|lia].
    rewrite Hz. cbn [num_seq_no_ encoded_chunks_ last_chunk_ size_bytes_ with_chunks common include_lost_
      base_seq_no_ base_time_ticks_ feedback_seq_ include_timestamps_ last_timestamp_us_ received_packets_
      all_packets_]. rewrite <- !app_assoc. tuple_eq. lia.
Qed.

(** The object after the packets [l] were appended. *)
Definition after (this : t) (seq : Z) (l : list item) : t :=
  Mk (common this) (include_lost_ this) (base_seq_no_ this) (num_seq_no_ this)
    (base_time_ticks_ this) (feedback_seq_ this) (include_timestamps_ this)
    (last_timestamp_us_ this + 250 * ticks l) (received_packets_ this ++ received_of seq l)
    (if include_lost_ this then all_packets_ this ++ all_of seq l else all_packets_ this)
    (encoded_chunks_ this) (last_chunk_ this) (size_bytes_ this).

Lemma after_nil this seq : after this seq [] = this.
Proof.
  unfold after. cbn [received_of all_of ticks fold_right]. rewrite !app_nil_r, Z.add_0_r.
  destruct this as [? []]; done.
Qed.

Lemma after_received this seq s d l : 0 < s ->
  after (push_parsed this seq d) (u16 (seq + 1)) l = after this seq ((s, d) :: l).
Proof.
  intros Hs. apply Z.ltb_lt in Hs. unfold after, push_parsed, push_all.
  cbn [received_of all_of ticks fold_right fst snd]. rewrite Hs. cbn -[Z.mul].
  unfold kDeltaScaleFactor. fold (ticks l).
  rewrite <- app_assoc. destruct (include_lost_ this); [rewrite <- app_assoc|]; cbn [app]; f_equal; lia.
Qed.

Lemma after_lost this seq l :
  after (push_all this (Lost seq)) (u16 (seq + 1)) l = after this seq ((0, 0) :: l).
Proof.
  unfold after, push_all. cbn [received_of all_of ticks fold_right fst snd]. cbn -[Z.mul].
  fold (ticks l). destruct (include_lost_ this); [rewrite <- app_assoc|]; reflexivity.
Qed.

(** The octets of the items, as the delta loop reads them. *)
Definition item_bytes (i : item) : bytes :=
  if fst i =? 0 then [] else if fst i =? 1 then [snd i] else be_bytes 2 (uw 16 (snd i)).

Lemma item_bytes_spec ts seq l : Forall (canonical ts) l ->
  concat (map delta_bytes (received_of seq l)) = concat (map item_bytes l).
Proof.
  intros Hl. revert seq. induction Hl as [|[s d] l Hi _ IH]; intros seq; [done|].
  cbn [received_of map concat]. destruct Hi as [[= -> ->]|(Hs & _)]; [by cbn; rewrite IH|].
  cbn [fst snd] in Hs. unfold item_bytes at 1. cbn [fst snd].
  destruct ((d >=? 0) && (d <=? 255)) eqn:E; rewrite Hs; cbn [Z.ltb Z.compare Z.eqb Pos.eqb app map concat];
    rewrite IH; f_equal; unfold delta_bytes; cbn [Received delta_ticks_]; by rewrite E.
Qed.

Lemma read_s16_here d q : - 32768 <= d < 32768 ->
  read_be_signed 16 2 (be_bytes 2 (uw 16 d) ++ q) 0 = Some d.
Proof. intros Hd. by apply read_be_signed_here; try lia. Qed.

Lemma delta_loop_spec l : forall this pre post end_index seq ts,
  Forall (canonical ts) l -> zlen pre + delta_octets l <= end_index ->
  delta_loop this (pre ++ concat (map item_bytes l) ++ post) end_index (zlen pre) seq (map fst l) =
  Some (after this seq l, Some (zlen pre + delta_octets l)).
Proof.
  induction l as [|[s d] l IH]; intros this pre post e seq ts Hl He.
  - cbn [map delta_loop delta_octets fold_right]. by rewrite after_nil, Z.add_0_r.
  - apply Forall_cons_iff in Hl as [Hi Hl]. pose proof (delta_octets_bound _ _ Hl) as Hb.
    destruct (canonical_ok _ _ Hi) as ((_ & Hd & H1) & Hs). cbn [fst snd] in *.
    cbn [delta_octets fold_right fst] in He |- *. fold (delta_octets l) in *.
    cbn [map delta_loop concat fst snd]. rewrite check_then by (apply Z.leb_le; lia).
    assert (Hs3 : s = 0 \/ s = 1 \/ s = 2) by lia.
    destruct Hs3 as [-> | [-> | ->]]; cbn [Z.eqb Pos.eqb].
    + change (item_bytes (0, d)) with (@nil Z). cbn [app]. rewrite (IH _ pre post e _ ts) by (done || lia).
      destruct Hi as [[= ->]|(Hs' & _)]; [by rewrite after_lost|].
      cbn [fst snd] in Hs'. by destruct ((d >=? 0) && (d <=? 255)).
    + change (item_bytes (1, d)) with [d]. rewrite <- app_assoc.
      assert (Hz : zlen (pre ++ [d]) = zlen pre + 1) by (rewrite length_app; cbn [length]; lia).
      assert (Hp : peek (pre ++ [d] ++ concat (map item_bytes l) ++ post) (zlen pre) = Some d)
        by by rewrite peek_app_skip, Z.sub_diag by lia.
      rewrite Hp. cbn [mbind option_bind]. rewrite app_assoc.
      rewrite <- Hz, (IH _ _ post e _ ts), (after_received _ _ 1) by (done || lia). tuple_eq. lia.
    + change (item_bytes (2, d)) with (be_bytes 2 (uw 16 d)). rewrite <- app_assoc.
      assert (Hz : zlen (pre ++ be_bytes 2 (uw 16 d)) = zlen pre + 2)
        by (rewrite length_app, length_be_bytes; lia).
      rewrite read_be_signed_app_skip, Z.sub_diag, read_s16_here by (done || lia).
      cbn [mbind option_bind]. rewrite app_assoc.
      rewrite <- Hz, (IH _ _ post e _ ts), (after_received _ _ 2) by (done || lia). tuple_eq. lia.
Qed.

Lemma status_loop_spec l : forall this seq, Forall (canonical false) l ->
  status_loop this seq (map fst l) = after this seq l.
Proof.
  induction l as [|[s d] l IH]; intros this seq Hl; [by rewrite after_nil|].
  apply Forall_cons_iff in Hl as [Hi Hl]. cbn [map status_loop fst]. rewrite IH, Z.gtb_ltb by done.
  destruct Hi as [[= -> ->]|(Hs & _ & Hd)]; [apply after_lost|]. cbn [fst snd] in *.
  rewrite Hd in * by done. cbn in Hs. subst s. by apply after_received.
Qed.

Lemma fold_left_add l a : fold_left Z.add l a = a + fold_right Z.add 0 l.
Proof. revert a. induction l as [|x l IH]; intros a; cbn; [lia|]. rewrite IH. lia. Qed.

Lemma delta_octets_sum l : fold_left Z.add (map fst l) 0 = delta_octets l.
Proof. rewrite fold_left_add. unfold delta_octets. induction l as [|i l IH]; cbn in *; lia. Qed.

Lemma read_s24_here v q :
  read_be_signed 32 3 (be_bytes 3 (uw 32 v) ++ q) 0 = Some (sw 24 v).
Proof.
  assert (E : be_bytes 3 (uw 32 v) = be_bytes 3 (uw 32 (sw 24 v))).
  { rewrite be_bytes_mod, (be_bytes_mod 3 (uw 32 (sw 24 v))). f_equal.
    rewrite pow256. unfold uw. rewrite !mod_pow_le by lia.
    change (8 * Z.of_nat 3) with 24. unfold sw. set (y := v mod 2 ^ 24).
    destruct (_ <? _); unfold y.
    - by rewrite Z.mod_mod by done.
    - rewrite <- (Z.mod_add (v mod 2 ^ 24 - 2 ^ 24) 1) by done.
      rewrite Z.mul_1_l, Z.sub_add. by rewrite Z.mod_mod by done. }
  rewrite E. apply read_be_signed_here; try lia; [done|]. by apply sw_range.
Qed.

Lemma read_u8_peek v q : is_u8 v -> peek (be_bytes 1 v ++ q) 0 = Some v.
Proof. apply peek_here. Qed.

(** The fixed fields of the payload. *)
Lemma parse_fixed this q : CommonFeedback.wf (common this) -> is_u16 (base_seq_no_ this) ->
  is_u16 (num_seq_no_ this) -> is_u8 (feedback_seq_ this) ->
  let p := CommonFeedback.encode (common this) ++ be_bytes 2 (base_seq_no_ this) ++
    be_bytes 2 (num_seq_no_ this) ++ be_bytes 3 (uw 32 (base_time_ticks_ this)) ++
    be_bytes 1 (feedback_seq_ this) ++ q in
  Rtpfb.ParseCommonFeedback p = Some (common this) /\ read_u16 p 8 = Some (base_seq_no_ this) /\
  read_u16 p 10 = Some (num_seq_no_ this) /\
  read_be_signed 32 3 p 12 = Some (sw 24 (base_time_ticks_ this)) /\
  peek p 15 = Some (feedback_seq_ this).
Proof.
  intros Hc Hb Hn Hf p. unfold p. split; [by apply parse_rtpfb_here|].
  rewrite !(read_be_app_skip _ _ (CommonFeedback.encode _)), (read_be_signed_app_skip _ _ (CommonFeedback.encode _)),
    (peek_app_skip (CommonFeedback.encode _)) by (rewrite length_feedback; lia).
  rewrite length_feedback. change (8 - Z.of_nat 8) with 0. change (10 - Z.of_nat 8) with 2.
  change (12 - Z.of_nat 8) with 4. change (15 - Z.of_nat 8) with 7.
  split; [by apply read_u16_here|]. split; [by read_all|].
  split; [|by read_all]. repeat read_step. apply read_s24_here.
Qed.

Lemma with_chunks_removelast this chunks last :
  encoded_chunks_ this = [] ->
  with_chunks (with_chunks this (num_seq_no_ this) (encoded_chunks_ this ++ chunks) last (size_bytes_ this))
    (num_seq_no_ this) (removelast (encoded_chunks_ this ++ chunks)) last (size_bytes_ this) =
  with_chunks this (num_seq_no_ this) (removelast chunks) last (size_bytes_ this).
Proof. by intros ->. Qed.

(** The object of the third step of Parse, and what is left to set. *)
Lemma image_after this l X last b size :
  rep this l -> contents this = l ->
  X = Mk (common this) true (base_seq_no_ this) (num_seq_no_ this) (sw 24 (base_time_ticks_ this))
        (feedback_seq_ this) b (sw 24 (base_time_ticks_ this) * kBaseScaleFactor) [] []
        (removelast (wire_chunks this)) last 20 ->
  last = decode_all LastChunk.new (wire_chunks this) (num_seq_no_ this) ->
  b = include_timestamps_ this || (delta_octets l =? 0) -> size = size_bytes_ this ->
  with_counts (after X (base_seq_no_ X) l) (num_seq_no_ (after X (base_seq_no_ X) l))
    (include_timestamps_ (after X (base_seq_no_ X) l)) size = image this.
Proof.
  intros Hrep Hc -> -> -> ->. unfold with_counts, after, image. cbn.
  rewrite Hc, (rep_received _ _ Hrep). done.
Qed.

Lemma parse_body this post p : wf this ->
  Parse new (CommonHeader.Mk Rtpfb.kPacketType kFeedbackMessageType p
    (zlen (payload_bytes this)) (payload_bytes this ++ post)) = Some (image this, true).
Proof.
  intros [Hg Hl]. set (l := contents this) in *. pose proof (good_built _ _ Hg) as Hb.
  destruct (built_payload _ _ Hb Hl) as [Hp Hsz]. destruct Hg as [_ Hbt Hf Hcm].
  destruct Hb as [[Hbase Hn Hm Hc Hr Ha Ht Hs Hok] Hcan Hd].
  destruct (wire_chunks_spec this (map fst l) Hc) as (Hu & Hlen & Hsy & Hrm); [by destruct l|done|].
  rewrite length_map in Hsy, Hrm.
  set (ts := include_timestamps_ this) in *.
  set (deltas := if ts then concat (map delta_bytes (received_packets_ this)) else []) in *.
  set (chunks := wire_chunks this) in *.
  assert (Hpl : payload_bytes this ++ post =
    CommonFeedback.encode (common this) ++ be_bytes 2 (base_seq_no_ this) ++
    be_bytes 2 (num_seq_no_ this) ++ be_bytes 3 (uw 32 (base_time_ticks_ this)) ++
    be_bytes 1 (feedback_seq_ this) ++ concat (map (be_bytes 2) chunks) ++ deltas ++ post).
  { unfold payload_bytes. fold chunks ts deltas. by rewrite <- !app_assoc. }
  assert (Hnum : is_u16 (num_seq_no_ this)) by (unfold is_u16; lia).
  pose proof (parse_fixed this (concat (map (be_bytes 2) chunks) ++ deltas ++ post) Hcm Hbase Hnum Hf) as Hfix.
  cbv zeta in Hfix. rewrite <- Hpl in Hfix. destruct Hfix as (E1 & E2 & E3 & E4 & E5).
  unfold Parse. header_simpl. do 2 check_step. unfold kMinPayloadSizeBytes.
  rewrite (proj2 (Z.ltb_ge _ _)) by lia.
  rewrite E1, E2, E3, E4, E5. cbn [mbind option_bind].
  rewrite (proj2 (Z.eqb_neq _ _)) by (destruct l; [done|]; cbn [length] in *; lia).
  set (fixed := CommonFeedback.encode (common this) ++ be_bytes 2 (base_seq_no_ this) ++
    be_bytes 2 (num_seq_no_ this) ++ be_bytes 3 (uw 32 (base_time_ticks_ this)) ++
    be_bytes 1 (feedback_seq_ this)).
  assert (Hpl' : payload_bytes this ++ post = fixed ++ concat (map (be_bytes 2) chunks) ++ deltas ++ post)
    by (rewrite Hpl; unfold fixed; by rewrite <- !app_assoc).
  assert (Hfl : 16 = zlen fixed) by done.
  rewrite Hp, Hpl', Hfl.
  assert (Hdl : zlen deltas = if ts then delta_octets l else 0).
  { unfold deltas. destruct ts; [|done]. rewrite Hr. by eapply delta_bytes_spec. }
  rewrite (chunk_loop_spec chunks _ _ fixed (deltas ++ post) _ _ [] (map fst l));
    [|done|done|by rewrite length_map|left; by rewrite length_map|by rewrite length_map, Hn|
      rewrite <- Hfl; destruct ts; lia|destruct ts; lia].
  cbn [mbind option_bind app]. rewrite check_then by (rewrite length_map, Hn; apply Z.eqb_refl).
  rewrite length_map, delta_octets_sum.
  set (last := decode_all _ chunks (zlen l)).
  set (X := with_counts _ (num_seq_no_ this) _ _).
  pose proof (delta_octets_bound _ _ Hcan) as Hdo.
  rewrite <- Hfl. rewrite Z.geb_leb.
  assert (Hitems : (16 + 2 * zlen chunks + delta_octets l <=? size_bytes_ this - 4) = ts || (delta_octets l =? 0)).
  { rewrite Hs, <- Hlen. destruct ts; cbn [orb]; [apply Z.leb_le; lia|].
    destruct (Z.eqb_spec (delta_octets l) 0); [apply Z.leb_le|apply Z.leb_gt]; lia. }
  assert (Hz : zlen (fixed ++ concat (map (be_bytes 2) chunks)) = 16 + 2 * zlen chunks)
    by (pose proof (length_be2 chunks); rewrite length_app; lia).
  rewrite Hitems. destruct (ts || (delta_octets l =? 0)) eqn:Ets.
  - assert (Hdb : deltas = concat (map item_bytes l)).
    { unfold deltas. destruct ts eqn:Et.
      - rewrite Hr. by eapply item_bytes_spec.
      - cbn [orb] in Ets. apply Z.eqb_eq in Ets. symmetry. apply length_zero_iff_nil.
        pose proof (delta_bytes_spec 0 l false Hcan) as E. rewrite (item_bytes_spec false) in E by done. lia. }
    rewrite Hdb, app_assoc, <- Hz, (delta_loop_spec l X _ post _ _ ts) by (done || rewrite Hz; lia).
    cbn [mbind option_bind]. rewrite Hz, check_then.
    2: { exact Hitems. }
    rewrite (image_after this l X last true); [done|done|done|reflexivity|by rewrite Hn|exact (eq_sym Ets)|].
    unfold kHeaderLength. rewrite Hs, <- Hlen. fold ts. destruct ts; cbn [orb] in Ets; [lia|].
    apply Z.eqb_eq in Ets. lia.
  - apply orb_false_iff in Ets as [Et E0]. cbn [mbind option_bind].
    rewrite check_then by (apply Z.leb_le; lia).
    rewrite Et in Hcan. rewrite status_loop_spec by done.
    rewrite (image_after this l (with_counts X (num_seq_no_ X) false (size_bytes_ X)) last false);
      [done|done|done|reflexivity|by rewrite Hn|by fold ts; rewrite Et|].
    unfold kHeaderLength. rewrite Hs, <- Hlen. fold ts. rewrite Et. lia.
Qed.

(** Parsing what Create wrote. *)
Lemma transport_parses this hdr rest size_bytes : wf this -> zlen (encode this) <= size_bytes ->
  exists h,
    CommonHeader.Parse hdr (encode this ++ rest) size_bytes = Some (h, true) /\
    CommonHeader.type h = Rtpfb.kPacketType /\ CommonHeader.fmt h = kFeedbackMessageType /\
    CommonHeader.NextPacket h = rest /\ Parse new h = Some (image this, true).
Proof.
  intros Hwf Hsize. pose proof Hwf as [Hg Hl]. rewrite (length_encode _ _ Hg Hl) in Hsize.
  destruct (built_payload _ _ (good_built _ _ Hg) Hl) as [Hp Hsz].
  destruct (BlockLength_spec this) as (Ebl & Hmod & Hpad); [lia|].
  unfold encode. rewrite <- !app_assoc.
  set (n := PaddingLength this) in *. set (len := (BlockLength this - 4) / 4).
  assert (Hlen4 : 4 * len = BlockLength this - 4) by (unfold len; dlia).
  assert (Hlen : 4 * len = zlen (payload_bytes this) + n) by (rewrite Hp; unfold n, PaddingLength; lia).
  assert (Hpeek : 0 < n -> peek (payload_bytes this ++ padding_bytes n ++ rest) (4 * len - 1) = Some n).
  { intros Hn. rewrite peek_app_skip by lia. unfold padding_bytes. rewrite Z.gtb_ltb, (proj2 (Z.ltb_lt _ _)) by done.
    rewrite <- app_assoc, peek_app_skip by (rewrite length_replicate; lia). rewrite length_replicate.
    replace (4 * len - 1 - zlen (payload_bytes this) - Z.of_nat (Z.to_nat (n - 1))) with 0 by lia. done. }
  destruct (parse_header_general hdr kFeedbackMessageType Rtpfb.kPacketType len (0 <? n)
    (payload_bytes this ++ padding_bytes n ++ rest) size_bytes) as (p & E & Hpv).
  - done.
  - unfold len. dlia.
  - lia.
  - intros q Hq%Z.ltb_lt. rewrite Hpeek by done. intros [= <-]. lia.
  - intros Hq%Z.ltb_lt. rewrite Hpeek by done. split; [lia|by eexists].
  - assert (Hpn : p = n).
    { destruct (Z.ltb_spec 0 n); [|lia]. rewrite Hpeek in Hpv by done. by injection Hpv. }
    rewrite E. eexists. split; [done|]. split; [done|]. split; [done|]. split.
    + unfold CommonHeader.NextPacket. cbn [CommonHeader.payload_size_ CommonHeader.padding_size_ CommonHeader.payload_].
      rewrite app_assoc. rewrite drop_app_length'; [done|].
      rewrite length_app. pose proof (length_padding_bytes n). lia.
    + replace (4 * len - p) with (zlen (payload_bytes this)) by lia. by apply parse_body.
Qed.

(** ** Parse on arbitrary payloads *)

Lemma Clear_rep this : is_u16 (base_seq_no_ this) -> LastChunk.inv (last_chunk_ this) ->
  rep (TransportFeedback.Clear this) [].
Proof.
  intros Hb Hi. destruct (Clear_inv _ Hi) as [Hi' Hs]. constructor; cbn; try done.
  - by destruct (include_lost_ this).
  - unfold GetBaseTimeUs. cbn. lia.
  - by destruct (include_timestamps_ this).
Qed.

Lemma u16_here_any p off : is_bytes p -> 0 <= off -> off + 2 <= zlen p ->
  exists v, read_u16 p off = Some v /\ is_u16 v.
Proof. apply read_u16_Some. Qed.

(** The chunk loop stays in bounds, terminates, and either clears the object or
    collects exactly [status_count] symbols; all chunks but the last one are
    used completely. *)
Lemma chunk_loop_safe fuel : forall this payload status_count end_index index ds,
  is_bytes payload -> end_index <= zlen payload -> 0 <= index <= end_index ->
  end_index - index < 2 * Z.of_nat fuel ->
  Forall is_u16 (encoded_chunks_ this) -> LastChunk.inv (last_chunk_ this) ->
  ds = concat (map LastChunk.chunk_symbols (encoded_chunks_ this)) -> zlen ds < status_count ->
  (exists this', chunk_loop fuel this payload status_count end_index index ds =
      Some (TransportFeedback.Clear this', None) /\ config this' = config this /\
      LastChunk.inv (last_chunk_ this')) \/
  (exists e c last,
    let ds' := concat (map LastChunk.chunk_symbols e) ++ LastChunk.symbols last in
    chunk_loop fuel this payload status_count end_index index ds =
      Some (with_chunks this (num_seq_no_ this) (e ++ [c]) last (size_bytes_ this),
            Some (index + 2 * (zlen e + 1 - zlen (encoded_chunks_ this)), ds')) /\
    index + 2 * (zlen e + 1 - zlen (encoded_chunks_ this)) <= end_index /\
    zlen ds' = status_count /\ Forall is_u16 e /\ is_u16 c /\ LastChunk.inv last /\
    0 < LastChunk.size_ last).
Proof.
  induction fuel as [|fuel IH]; intros this p n e i ds Hp Hel Hi Hf Hu Hl Hds Hn; [lia|].
  cbn [chunk_loop]. rewrite (proj2 (Z.ltb_lt _ _)) by done. unfold kChunkSizeBytes. rewrite Z.gtb_ltb.
  destruct (Z.ltb_spec e (i + 2)); [left; by exists this|].
  destruct (u16_here_any p i) as (c & -> & Hc); [done|lia|lia|]. cbn [mbind option_bind].
  destruct (Decode_spec (last_chunk_ this) c (n - zlen ds) Hc) as (c' & -> & Hi' & Hs);
    [lia|by apply inv_array_14|]. cbn [mbind option_bind]. rewrite AppendTo_spec by done.
  cbn [mbind option_bind]. pose proof (length_symbols _ Hi') as Hlen.
  assert (Hle : zlen (LastChunk.symbols c') = Z.min (n - zlen ds) (zlen (LastChunk.chunk_symbols c)))
    by (rewrite Hs, length_take; lia).
  destruct (Z.lt_ge_cases (zlen (ds ++ LastChunk.symbols c')) n) as [Hmore|Hend].
  - rewrite length_app in Hmore.
    assert (Hall : LastChunk.symbols c' = LastChunk.chunk_symbols c) by (rewrite Hs; apply take_ge; lia).
    edestruct (IH (with_chunks this (num_seq_no_ this) (encoded_chunks_ this ++ [c]) c' (size_bytes_ this))
      p n e (i + 2) (ds ++ LastChunk.symbols c')) as [(this' & E & Hcfg & Hi2)|(e' & c2 & last & E & Hb & Hn' & He' & Hc2 & Hl' & Hz)].
    + done. + done. + lia. + lia.
    + by apply Forall_snoc.
    + done.
    + cbn. rewrite map_app, concat_app, <- Hds. cbn. by rewrite app_nil_r, Hall.
    + rewrite length_app. lia.
    + left. exists this'. split; [exact E|]. by split.
    + right. exists e', c2, last. cbn [encoded_chunks_ with_chunks] in E, Hb. rewrite length_app in E, Hb.
      cbn [length] in E, Hb.
      replace (i + 2 * (zlen e' + 1 - zlen (encoded_chunks_ this))) with
        (i + 2 + 2 * (zlen e' + 1 - Z.of_nat (length (encoded_chunks_ this) + 1))) by lia.
      split; [exact E|]. split; [lia|]. by splits.
  - right. exists (encoded_chunks_ this), c, c'. rewrite <- Hds. 
    replace (i + 2 * (zlen (encoded_chunks_ this) + 1 - zlen (encoded_chunks_ this))) with (i + 2) by lia.
    assert (E : forall f t' q j l, n <= zlen l -> chunk_loop f t' q n e j l = Some (t', Some (j, l))).
    { intros f t' q j l Hj. destruct f; cbn [chunk_loop]; by rewrite (proj2 (Z.ltb_ge _ _)) by lia. }
    rewrite E by lia. split; [done|]. rewrite length_app in *. splits; try done; try lia.
Qed.

Lemma sum_nonneg l : Forall (fun s => 0 <= s < 4) l -> 0 <= fold_right Z.add 0 l.
Proof. induction 1 as [|s l Hs _ IH]; cbn [fold_right]; lia. Qed.

Lemma delta_loop_safe ds : forall this payload end_index index seq,
  Forall (fun s => 0 <= s < 4) ds -> is_bytes payload -> end_index <= zlen payload -> 0 <= index ->
  index + fold_right Z.add 0 ds <= end_index ->
  (exists this', delta_loop this payload end_index index seq ds =
      Some (TransportFeedback.Clear this', None) /\ config this' = config this /\
      last_chunk_ this' = last_chunk_ this) \/
  (exists l, map fst l = ds /\ Forall item_ok l /\
    delta_loop this payload end_index index seq ds =
      Some (after this seq l, Some (index + fold_right Z.add 0 ds))).
Proof.
  induction ds as [|s ds IH]; intros this p e i seq Hds Hp He Hi Hsum.
  - right. exists []. split; [done|]. split; [done|]. cbn. by rewrite after_nil, Z.add_0_r.
  - apply Forall_cons_iff in Hds as [Hs Hds]. pose proof (sum_nonneg _ Hds) as Hnn.
    cbn [fold_right] in Hsum |- *. cbn [delta_loop]. rewrite check_then by (apply Z.leb_le; lia).
    assert (Hs4 : s = 0 \/ s = 1 \/ s = 2 \/ s = 3) by lia.
    assert (Hnext : forall this1 d, config this1 = config this -> last_chunk_ this1 = last_chunk_ this ->
      item_ok (s, d) -> (forall l, after this1 (u16 (seq + 1)) l = after this seq ((s, d) :: l)) ->
      (exists this', delta_loop this1 p e (i + s) (u16 (seq + 1)) ds =
        Some (TransportFeedback.Clear this', None) /\ config this' = config this /\
        last_chunk_ this' = last_chunk_ this) \/
      (exists l, map fst l = s :: ds /\ Forall item_ok l /\
        delta_loop this1 p e (i + s) (u16 (seq + 1)) ds =
        Some (after this seq l, Some (i + (s + fold_right Z.add 0 ds))))).
    { intros this1 d Hc Hl Hok Haft.
      destruct (IH this1 p e (i + s) (u16 (seq + 1))) as [(this' & E & Hc' & Hl')|(l & Hm & Hl' & E)]; try done; try lia.
      - left. exists this'. split; [done|]. by rewrite Hc', Hl'.
      - right. exists ((s, d) :: l). cbn [map fst]. rewrite Hm. split; [done|]. split; [by constructor|].
        rewrite E, Haft. tuple_eq. lia. }
    destruct Hs4 as [-> | [-> | [-> | ->]]]; cbn [Z.eqb Pos.eqb].
    + rewrite Z.add_0_r in Hnext. apply (Hnext _ 0); [done|done| |apply after_lost]. unfold item_ok. cbn. lia.
    + destruct (peek_u8_Some p i) as (d & -> & Hd); [done|lia|]. cbn [mbind option_bind].
      apply (Hnext _ d); [done|done| |by intros; apply after_received]. unfold item_ok, is_u8 in *. cbn. lia.
    + destruct (read_be_signed_Some 16 2 p i) as (d & -> & Hd); [done|lia|lia|done|lia|lia|].
      cbn [mbind option_bind].
      apply (Hnext _ d); [done|done| |by intros; apply after_received]. unfold item_ok. cbn in Hd |- *. lia.
    + left. by exists this.
Qed.

Lemma status_loop_after ds : forall this seq, Forall (fun s => 0 <= s < 4) ds ->
  status_loop this seq ds = after this seq (map (fun s => (s, 0)) ds).
Proof.
  induction ds as [|s ds IH]; intros this seq Hds; [by rewrite after_nil|].
  apply Forall_cons_iff in Hds as [Hs Hds]. cbn [status_loop map]. rewrite IH, Z.gtb_ltb by done.
  destruct (Z.ltb_spec 0 s); [by apply after_received|].
  assert (s = 0) as -> by lia. apply after_lost.
Qed.

Lemma symbols_range c chunk n : LastChunk.symbols c = take n (LastChunk.chunk_symbols chunk) ->
  is_u16 chunk -> Forall (fun s => 0 <= s < 4) (LastChunk.symbols c).
Proof. intros -> Hc. by apply Forall_take, chunk_symbols_range. Qed.

Lemma inv_symbols_range c : LastChunk.inv c -> Forall (fun s => 0 <= s < 4) (LastChunk.symbols c).
Proof.
  intros Hi. unfold LastChunk.symbols. destruct (LastChunk.all_same_ c) eqn:E.
  - pose proof (LastChunk.inv_size c Hi). destruct (Z.eq_dec (LastChunk.size_ c) 0) as [->|]; [constructor|].
    apply Forall_replicate. apply first_symbol; [done|lia].
  - destruct (LastChunk.inv_mixed c Hi E). rewrite <- stored_short by done. apply Hi.
Qed.

Lemma concat_symbols_range l : Forall is_u16 l ->
  Forall (fun s => 0 <= s < 4) (concat (map LastChunk.chunk_symbols l)).
Proof.
  induction 1 as [|c l Hc _ IH]; [constructor|]. cbn [map concat]. apply Forall_app.
  split; [by apply chunk_symbols_range|done].
Qed.

(** The last step of Parse gives a consistent object. *)
Lemma parsed_rep X l b :
  is_u16 (base_seq_no_ X) -> 1 <= zlen l <= 65535 -> num_seq_no_ X = zlen l -> chunks_ok X (map fst l) ->
  received_packets_ X = [] -> all_packets_ X = [] -> last_timestamp_us_ X = GetBaseTimeUs X ->
  LastChunk.Empty (last_chunk_ X) = false -> Forall item_ok l ->
  b = include_timestamps_ X ->
  rep (with_counts (after X (base_seq_no_ X) l) (num_seq_no_ X) b
         (kHeaderLength + (16 + chunk_octets X + (if b then delta_octets l else 0)))) l.
Proof.
  intros Hb Hm Hn [Hu Hi Hsy] Hr Ha Ht Hne Hok ->. constructor; cbn; try done.
  - lia.
  - by rewrite Hr.
  - rewrite Ha. by destruct (include_lost_ X).
  - unfold GetBaseTimeUs in *. cbn. lia.
  - unfold kHeaderLength, chunk_octets. cbn. lia.
Qed.

(** Parse is safe on every payload, and keeps the object consistent, accepted
    or not, when the object expected deltas. *)
Lemma transport_Parse_safe this h :
  CommonHeader.valid h -> CommonHeader.type h = Rtpfb.kPacketType ->
  CommonHeader.fmt h = kFeedbackMessageType -> LastChunk.inv (last_chunk_ this) ->
  exists p' b, Parse this h = Some (p', b) /\ LastChunk.inv (last_chunk_ p') /\
    (include_timestamps_ this = true -> (b = true \/ exists l0, rep this l0) ->
     exists l, rep p' l /\ (b = true -> 1 <= zlen l)).
Proof.
  intros [_ _ Hpad Hs Hb Hfit Hw _] Ht Hf Hi. unfold Parse. rewrite Ht, Hf, !check_then by done.
  header_simpl. unfold is_u8 in *. set (p := CommonHeader.payload_ h) in *.
  set (e := CommonHeader.payload_size_ h) in *. unfold kMinPayloadSizeBytes.
  destruct (Z.ltb_spec e (8 + 8 + 2)) as [Hsm|Hsm].
  { exists this, false. split; [done|]. split; [done|]. intros _ [?|[l0 Hl0]]; [done|]. by exists l0. }
  destruct (parse_rtpfb_safe p) as (fb & -> & Hwf); [done|lia|]. cbn [mbind option_bind].
  destruct (read_u16_Some p 8) as (base & -> & Hbase); [done|lia|lia|]. cbn [mbind option_bind].
  destruct (read_u16_Some p 10) as (count & -> & Hcount); [done|lia|lia|]. cbn [mbind option_bind].
  destruct (read_be_signed_Some 32 3 p 12) as (ticks & -> & Hticks); [done|lia|lia|done|lia|lia|].
  cbn [mbind option_bind].
  destruct (peek_u8_Some p 15) as (fseq & -> & Hfseq); [done|lia|]. cbn [mbind option_bind].
  set (Y := parse_fields this fb base ticks fseq).
  assert (HYi : LastChunk.inv (last_chunk_ Y)) by apply Clear_inv, Hi.
  destruct (Z.eqb_spec count 0) as [Ec|Ec].
  { exists Y, false. split; [done|]. split; [done|]. intros _ _. exists []. split; [|done].
    by apply Clear_rep. }
  unfold is_u16 in Hcount.
  destruct (chunk_loop_safe (Z.to_nat e) Y p count e 16 []) as
    [(this' & E & Hc & Hi')|(e0 & c & last & E & Hend & Hn & Hu & Huc & Hil & Hz)];
    [done|lia|lia|lia|by constructor|done|done|cbn; lia| |]; rewrite E; cbn [mbind option_bind].
  { eexists _, false. split; [done|]. split; [by apply Clear_inv|]. intros _ _. exists []. split; [|done].
    apply Clear_rep; [|done]. injection Hc as _ _ -> _ _ _. done. }
  clear E. set (ds := concat (map LastChunk.chunk_symbols e0) ++ LastChunk.symbols last) in *.
  rewrite check_then by (by apply Z.eqb_eq).
  change (zlen (encoded_chunks_ Y)) with 0 in *. rewrite Z.sub_0_r in *.
  cbn [encoded_chunks_ with_chunks]. change (encoded_chunks_ Y) with (@nil Z). rewrite removelast_last.
  set (X := with_counts _ count _ _).
  assert (Hds : Forall (fun s => 0 <= s < 4) ds).
  { apply Forall_app. split; [by apply concat_symbols_range|by apply inv_symbols_range]. }
  assert (Hsum : fold_left Z.add ds 0 = fold_right Z.add 0 ds) by (rewrite fold_left_add; lia).
  pose proof (sum_nonneg _ Hds) as Hnn. rewrite Hsum, Z.geb_leb.
  assert (Hne : LastChunk.Empty last = false) by (apply Z.eqb_neq; lia).
  assert (Hco : chunk_octets X = 2 * (zlen e0 + 1)).
  { unfold chunk_octets. change (encoded_chunks_ X) with e0. change (last_chunk_ X) with last. rewrite Hne. lia. }
  assert (Hok : forall l : list item, map fst l = ds -> chunks_ok X (map fst l)) by (intros l ->; by constructor).
  destruct (Z.leb_spec (16 + 2 * (zlen e0 + 1) + fold_right Z.add 0 ds) e) as [Hd|Hd].
  - destruct (delta_loop_safe ds X p e (16 + 2 * (zlen e0 + 1)) (base_seq_no_ X)) as
      [(this' & E & Hc & Hl)|(l & Hm & Hl & E)]; try done; try lia; rewrite E; cbn [mbind option_bind].
    + eexists _, false. split; [done|].
      assert (Hi' : LastChunk.inv (last_chunk_ this')) by (by rewrite Hl).
      split; [by apply Clear_inv|]. intros _ _. exists []. split; [|done].
      apply Clear_rep; [|done]. injection Hc as _ _ -> _ _ _. done.
    + rewrite check_then by (apply Z.leb_le; lia). eexists _, true. split; [done|]. split; [done|].
      intros Hts _. exists l. assert (Hln : zlen l = count) by (rewrite <- Hn, <- Hm, length_map; done).
      split; [|lia]. replace (16 + 2 * (zlen e0 + 1) + fold_right Z.add 0 ds) with
        (16 + chunk_octets X + (if include_timestamps_ X then delta_octets l else 0)).
      * apply (parsed_rep X l (include_timestamps_ X)); try done; first [exact (eq_sym Hln)|lia|by apply Hok].
      * change (include_timestamps_ X) with (include_timestamps_ this). rewrite Hts, Hco, <- Hsum, <- Hm, delta_octets_sum. lia.
  - cbn [mbind option_bind]. rewrite check_then by (apply Z.leb_le; lia).
    rewrite status_loop_after by done. set (l := map (fun s : Z => (s, 0)) ds).
    eexists _, true. split; [done|]. split; [done|].
    assert (Hm : map fst l = ds) by (unfold l; rewrite map_map; apply map_id).
    intros Hts _. exists l. assert (Hln : zlen l = count) by (rewrite <- Hn; unfold l; rewrite length_map; done).
    split; [|lia].
    pose proof (parsed_rep (with_counts X (num_seq_no_ X) false (size_bytes_ X)) l false) as Hrep.
    change (chunk_octets (with_counts X (num_seq_no_ X) false (size_bytes_ X))) with (chunk_octets X) in Hrep.
    rewrite Hco, Z.add_0_r in Hrep. apply Hrep; try done; try first [exact (eq_sym Hln)|lia|rewrite Hm; by constructor].
    unfold l. apply Forall_map. eapply list.Forall_impl; [exact Hds|]. intros s Hs0. cbv beta in Hs0. unfold item_ok. cbn [fst snd]. lia.
Qed.

#[global] Instance TransportFeedback_codec : RtcpCodec TransportFeedback.t := {|
  codec_type := Rtpfb.kPacketType;
  codec_fmt := fun fmt => fmt =? TransportFeedback.kFeedbackMessageType;
  codec_new := TransportFeedback.new;
  codec_block_length := TransportFeedback.BlockLength;
  codec_create := TransportFeedback.Create;
  codec_parse := TransportFeedback.Parse
|}.

#[global] Instance TransportFeedback_laws : RtcpCodecLaws TransportFeedback.t.
Proof.
  refine {| codec_inv := fun p => exists l, rep p l /\ 1 <= zlen l; codec_wf := wf;
            codec_encode := encode; codec_image := image |}.
  - intros p [Hg Hl]. exists (contents p). split; [apply Hg|]. destruct (contents p); [done|]. cbn [length]. lia.
  - intros p [Hg Hl]. by eapply length_encode.
  - intros p [Hg Hl]. destruct (built_payload _ _ (good_built _ _ Hg) Hl) as [Hp Hsz].
    cbn. destruct (BlockLength_spec p) as (Ebl & Hmod & Hpad); [lia|]. unfold PaddingLength in Hpad. lia.
  - intros p m cb st [Hg Hl] Hi Hm Hb H64. cbn [codec_create TransportFeedback_codec codec_block_length] in *.
    pose proof (length_encode _ _ Hg Hl).
    rewrite (TransportFeedback_Create_spec p _ m cb st Hg Hl); [apply create_result_fits; lia|].
    destruct (built_payload _ _ (good_built _ _ Hg) Hl) as [Hp Hsz].
    destruct (BlockLength_spec p) as (Ebl & Hmod & Hpad); [lia|]. unfold PaddingLength in Hpad. lia.
  - intros p this rest size Hwf Hs.
    destruct (transport_parses p this rest size Hwf Hs) as (h & E & Ht & Hf & Hn & Hp).
    exists h. split; [done|]. split; [done|]. split; [by apply Z.eqb_eq|]. by split.
  - intros h Hv Ht Hf%Z.eqb_eq.
    destruct (transport_Parse_safe new h Hv Ht Hf) as (p' & b & E & _); [apply new_inv|].
    cbn [codec_parse TransportFeedback_codec codec_new]. rewrite E. by eexists.
  - intros p h Hv Ht Hf%Z.eqb_eq E.
    destruct (transport_Parse_safe new h Hv Ht Hf) as (p' & b & E' & _ & H); [apply new_inv|].
    cbn [codec_parse TransportFeedback_codec codec_new] in E. rewrite E in E'. injection E' as <- <-.
    destruct (H eq_refl (or_introl eq_refl)) as (l & Hr & Hl). exists l. split; [done|by apply Hl].
Defined.

(** ** Properties *)

(** C40. A report being built is always consistent: after any sequence of SetBase,
    SetFeedbackSequenceNumber and AddReceivedPacket calls, refused ones included, with 16-bit
    sequence numbers and times within 2^62 of 0, the object's own postcondition IsConsistent
    holds (and evaluates without an assertion failing or an access out of bounds). *)
Theorem reachable_consistent (this : t) :
  Reach.reachable this -> IsConsistent this = Some true.
Proof. intros Hr. destruct (reachable_good this Hr) as [l Hg]. eapply rep_consistent, Hg. Qed.

(** A base, a packet, a gap of two and a large delta. *)
Definition sample_report : t :=
  match SetBase (create true true) 100 64000 with
  | Some r =>
      match AddReceivedPacket r 100 65000 with
      | Some (r, _) => match AddReceivedPacket r 103 565000 with Some (r, _) => r | None => r end
      | None => r
      end
  | None => new
  end.

Lemma sample_report_reachable : Reach.reachable sample_report.
Proof.
  eapply (Reach.reach_step _ _); [eapply (Reach.reach_step _ _);
    [eapply (Reach.reach_step _ _); [apply (Reach.reach_create true true)|]|]|].
  - apply (Reach.step_base _ _ 100 64000); [split; lia|lia|reflexivity].
  - apply (Reach.step_add _ _ 100 65000 true); [split; lia|lia|vm_compute; reflexivity].
  - apply (Reach.step_add _ _ 103 565000 true); [split; lia|lia|vm_compute; reflexivity].
Qed.

Lemma reachable_consistent_witness : IsConsistent sample_report = Some true.
Proof. apply (reachable_consistent sample_report). exact sample_report_reachable. Defined.

(** AddReceivedPacket accepts a packet exactly when its delta fits 16 bits,
    its sequence number is newer than the last one and at most 65535 packets are
    reported; it then reports the packets in between as lost and this one with its
    delta, and the accumulated time is the packet's arrival time up to half a tick
    (125 us) and whole wrap periods. *)
Theorem add_received_packet (this : t) (seq ts : Z) :
  Reach.reachable this -> is_u16 seq -> - 2 ^ 62 <= ts < 2 ^ 62 ->
  exists full this' ok, ticks_of this ts = Some full /\
    AddReceivedPacket this seq ts = Some (this', ok) /\
    ok = (s16 full =? full) && in_order this seq &&
         (zlen (contents this) + gap this seq <? 65535) /\
    (ok = true ->
       contents this' = contents this ++ replicate (Z.to_nat (gap this seq)) (0, 0) ++
                        [(if (full >=? 0) && (full <=? 0xff) then 1 else 2, full)] /\
       last_timestamp_us_ this' = last_timestamp_us_ this + 250 * full /\
       (include_timestamps_ this = true -> exists q,
          - 125 <= last_timestamp_us_ this' - ts - q * kTimeWrapPeriodUs <= 125)).
Proof.
  intros Hr Hs Hts. destruct (reachable_good this Hr) as [l Hg]. pose proof (good_time _ _ Hg) as Ht.
  destruct (AddReceivedPacket_spec this l seq ts (good_built _ _ Hg) Hs) as (full & this' & k & Ef & E & Hc & H);
    [lia|]. rewrite (contents_spec this l) by apply Hg.
  eexists full, this', _. split; [done|]. split; [exact E|]. split; [done|]. intros Hok. rewrite Hok in H.
  destruct H as (Hk & Hb & Hl). rewrite (contents_spec _ _ Hb), <- Hk, Nat2Z.id.
  split; [done|]. split; [done|]. intros Hinc. unfold ticks_of in Ef. rewrite Hinc in Ef.
  destruct (delta_full_spec ts (last_timestamp_us_ this)) as (d & q & Ed & Hq & _); [lia|].
  assert (d = full) as -> by congruence. exists q. rewrite Hl. lia.
Qed.

Lemma add_received_packet_witness :
  exists full this' ok, ticks_of sample_report 565300 = Some full /\
    AddReceivedPacket sample_report 105 565300 = Some (this', ok) /\ ok = true /\
    contents this' = contents sample_report ++ [(0, 0); (1, full)].
Proof.
  destruct (add_received_packet sample_report 105 565300 sample_report_reachable)
    as (full & this' & ok & Ef & E & Hok & H); [split; lia|lia|].
  assert (Ef' : full = 1) by (vm_compute in Ef; congruence). subst full.
  exists 1, this', ok. rewrite Ef, E. split; [reflexivity|]. split; [reflexivity|].
  assert (ok = true) as -> by (rewrite Hok; vm_compute; reflexivity).
  split; [reflexivity|]. exact (proj1 (H eq_refl)).
Defined.

(** Transport feedback round trip: Create writes BlockLength octets, a whole
    number of words with flagged padding, and parsing them recovers the base
    sequence number, the packets with their deltas (lost ones included), the
    feedback number and a consistent object; the 24-bit base time comes back
    sign-extended. *)
Theorem transport_feedback_roundtrip (p : t) (max_length : Z) (callback : bool) (st : wstate) :
  wf p -> 0 <= windex st -> windex st + BlockLength p <= max_length ->
  max_length <= zlen (wbuf st) -> max_length < 2 ^ 64 ->
  roundtrips (Create p max_length callback) (Parse new) (BlockLength p) (image p) st /\
  BlockLength p mod 4 = 0 /\ received_packets_ (image p) = received_packets_ p /\
  all_packets_ (image p) = all_of (base_seq_no_ p) (contents p).
Proof.
  intros Hp Hi Hm Hb H64. split; [exact (codec_roundtrip p max_length callback st Hp Hi Hm Hb H64)|]. split; [|done].
  destruct Hp as [Hg Hl]. destruct (built_payload _ _ (good_built _ _ Hg) Hl) as [_ Hsz].
  apply BlockLength_spec. lia.
Qed.

Lemma sample_report_wf : wf sample_report.
Proof.
  destruct (reachable_good _ sample_report_reachable) as [l Hg]. apply (good_wf _ _ Hg).
  rewrite <- (contents_spec sample_report l) by apply Hg. vm_compute. discriminate.
Qed.

Lemma transport_feedback_roundtrip_witness :
  roundtrips (Create sample_report 40 false) (Parse new) 28 (image sample_report)
    (WState (replicate 40 0) 4 []) /\
  28 mod 4 = 0 /\ received_packets_ (image sample_report) = received_packets_ sample_report /\
  all_packets_ (image sample_report) = all_of (base_seq_no_ sample_report) (contents sample_report).
Proof.
  apply (transport_feedback_roundtrip sample_report 40 false (WState (replicate 40 0) 4 []));
    [exact sample_report_wf|cbn; lia|vm_compute; discriminate|cbn; lia|lia].
Defined.

(** Parse of transport feedback is total and leaves a consistent object: for
    every payload a valid header announces, no read is out of bounds, the loops end,
    and the object satisfies IsConsistent whether the packet is accepted or not. *)
Theorem transport_feedback_parse_safe (h : CommonHeader.t) :
  CommonHeader.valid h -> CommonHeader.type h = Rtpfb.kPacketType ->
  CommonHeader.fmt h = kFeedbackMessageType ->
  exists p ok, Parse new h = Some (p, ok) /\ IsConsistent p = Some true /\
    (ok = true -> 1 <= num_seq_no_ p).
Proof.
  intros Hv Ht Hf. destruct (transport_Parse_safe new h Hv Ht Hf) as (p & ok & E & _ & H); [apply new_inv|].
  destruct H as (l & Hr & Hl); [done|right; exists []; apply create_built|].
  exists p, ok. split; [done|]. split; [by eapply rep_consistent|]. intros Hok.
  rewrite (rep_num _ _ Hr). by apply Hl.
Qed.

(** A payload whose chunks run past its end. *)
Definition truncated_header : CommonHeader.t :=
  CommonHeader.Mk 205 15 2 18
    ([0; 0; 0; 1; 0; 0; 0; 2; 0; 9; 0; 200; 0; 0; 1; 7; 0xc0; 0] ++ [0; 2]).

Lemma truncated_header_valid : CommonHeader.valid truncated_header.
Proof. constructor; cbn; unfold is_u8; try lia; try done. repeat constructor; discriminate. Qed.

Lemma transport_feedback_parse_safe_witness :
  exists p ok, Parse new truncated_header = Some (p, ok) /\ IsConsistent p = Some true /\
    (ok = true -> 1 <= num_seq_no_ p).
Proof.
  apply (transport_feedback_parse_safe truncated_header); [exact truncated_header_valid|reflexivity|reflexivity].
Defined.

(** ** Two observations *)

(** A payload of one packet without its delta, and the same one with it. *)
Definition header_without_delta : CommonHeader.t :=
  CommonHeader.Mk 205 15 2 18
    ([0; 0; 0; 1; 0; 0; 0; 2; 0; 9; 0; 1; 0; 0; 1; 7; 0x20; 1] ++ [0; 2]).

Definition header_with_delta : CommonHeader.t :=
  CommonHeader.Mk 205 15 1 19
    ([0; 0; 0; 1; 0; 0; 0; 2; 0; 9; 0; 1; 0; 0; 1; 7; 0x20; 1; 5] ++ [1]).

(** The object a parse leaves. *)
Definition parsed (this : t) (h : CommonHeader.t) : t :=
  match Parse this h with Some (p, _) => p | None => this end.

(** Parse clears include_timestamps_ when a packet has no deltas and never sets it
    again: an object that is parsed into twice ends up inconsistent. *)
Theorem reused_object_inconsistent :
  exists p q, Parse new header_without_delta = Some (p, true) /\
    Parse p header_with_delta = Some (q, true) /\ IsConsistent q = Some false.
Proof.
  exists (parsed new header_without_delta), (parsed (parsed new header_without_delta) header_with_delta).
  splits; vm_compute; reflexivity.
Qed.

(** A payload with the reserved symbol 3 and no delta: the symbol is refused only
    when deltas are present. *)
Definition header_reserved_symbol : CommonHeader.t :=
  CommonHeader.Mk 205 15 2 18
    ([0; 0; 0; 1; 0; 0; 0; 2; 0; 9; 0; 1; 0; 0; 1; 7; 0x60; 1] ++ [0; 2]).

Theorem reserved_symbol_accepted :
  exists p, Parse new header_reserved_symbol = Some (p, true) /\
    received_packets_ p = [Received 9 0].
Proof. exists (parsed new header_reserved_symbol). splits; vm_compute; reflexivity. Qed.
