(* ===== verification/RtcpCompound.v ===== *)
(** * Compound packets: rtcp_packet/compound_packet.{h,cc}, RtcpPacket::Build of
      rtcp_packet.cc and RTCPReceiver::ParseCompoundPacket of rtcp_receiver.cc

    One datagram carries several RTCP packets.  [packet] is the union of the
    modelled packet types, with the virtual functions of RtcpPacket dispatched over
    it; the receiver's loop walks the datagram header by header and hands every
    packet to the parser of its type.  What the handlers then do with a parsed
    packet (statistics, timers, callbacks) is not modelled: the loop returns the
    parsed packets in order, with the number of packets it skipped. *)

From S2P Require Import Prelude ByteIo Buffers RtcpCore RtcpReports RtcpFeedback RtcpNack.
From S2P Require Import RtcpMisc RtcpEstimate RtcpXr RtcpChunk RtcpTransport.

Section compound.
Context {ntp : Type} `{NtpTime ntp} `{RtcNumerics} {rate : Type} `{DataRate rate}.

(** ** The packet types *)

Inductive packet :=
  | PSenderReport (p : SenderReport.t ntp)
  | PReceiverReport (p : ReceiverReport.t)
  | PExtendedJitterReport (p : ExtendedJitterReport.t)
  | PSdes (p : Sdes.t)
  | PExtendedReports (p : ExtendedReports.t ntp)
  | PBye (p : Bye.t)
  | PApp (p : App.t)
  | PRemoteEstimate (p : RemoteEstimate.t rate)
  | PNack (p : Nack.t)
  | PTmmbr (p : Tmmbr.t)
  | PTmmbn (p : Tmmbn.t)
  | PRapidResyncRequest (p : RapidResyncRequest.t)
  | PTransportFeedback (p : TransportFeedback.t)
  | PPli (p : Pli.t)
  | PFir (p : Fir.t)
  | PRemb (p : Remb.t)
  | PLossNotification (p : LossNotification.t).

(** The virtual functions BlockLength and Create. *)
Definition BlockLength (p : packet) : Z :=
  match p with
  | PSenderReport p => codec_block_length p
  | PReceiverReport p => codec_block_length p
  | PExtendedJitterReport p => codec_block_length p
  | PSdes p => codec_block_length p
  | PExtendedReports p => codec_block_length p
  | PBye p => codec_block_length p
  | PApp p => codec_block_length p
  | PRemoteEstimate p => codec_block_length (RemoteEstimate.app p)
  | PNack p => codec_block_length p
  | PTmmbr p => codec_block_length p
  | PTmmbn p => codec_block_length p
  | PRapidResyncRequest p => codec_block_length p
  | PTransportFeedback p => codec_block_length p
  | PPli p => codec_block_length p
  | PFir p => codec_block_length p
  | PRemb p => codec_block_length p
  | PLossNotification p => codec_block_length p
  end.

Definition Create (p : packet) : Z -> bool -> W bool :=
  match p with
  | PSenderReport p => codec_create p
  | PReceiverReport p => codec_create p
  | PExtendedJitterReport p => codec_create p
  | PSdes p => codec_create p
  | PExtendedReports p => codec_create p
  | PBye p => codec_create p
  | PApp p => codec_create p
  | PRemoteEstimate p => codec_create (RemoteEstimate.app p)
  | PNack p => codec_create p
  | PTmmbr p => codec_create p
  | PTmmbn p => codec_create p
  | PRapidResyncRequest p => codec_create p
  | PTransportFeedback p => codec_create p
  | PPli p => codec_create p
  | PFir p => codec_create p
  | PRemb p => codec_create p
  | PLossNotification p => codec_create p
  end.

End compound.

Arguments packet : clear implicits.

(** ** RtcpPacket::Build

    The two entry points of every packet, given the virtual BlockLength and Create. *)

(** Build() const; [garbage] is what the fresh buffer holds. *)
Definition Build (garbage BlockLength : Z) (Create : Z -> bool -> W bool) : option bytes :=
  match Create BlockLength false (WState (replicate (Z.to_nat BlockLength) garbage) 0 []) with
  | Some (created, st) =>
      check created ;; check (windex st =? BlockLength) ;; Some (wbuf st)
  | None => None
  end.

(** Build(max_length, callback): the packets given to the callback and the result. *)
Definition kIpPacketSize : Z := 1500.

Definition BuildFragments (garbage : Z) (Create : Z -> bool -> W bool) (max_length : Z)
  : option (list bytes * bool) :=
  check (max_length <=? kIpPacketSize) ;;
  match (created ← Create max_length true;
         if negb created then mret false else RtcpPacket.OnBufferFull true)
        (WState (replicate (Z.to_nat kIpPacketSize) garbage) 0 []) with
  | Some (ok, st) => Some (wsent st, ok)
  | None => None
  end.

(** ** CompoundPacket *)

Module CompoundPacket.

Section compound.
Context {ntp : Type} `{NtpTime ntp} `{RtcNumerics} {rate : Type} `{DataRate rate}.

Record t := Mk { appended_packets_ : list (packet ntp rate) }.

Definition new : t := Mk [].

Definition Append (this : t) (p : packet ntp rate) : t := Mk (appended_packets_ this ++ [p]).

Definition BlockLength (this : t) : Z :=
  fold_left (fun block_length p => block_length + BlockLength p) (appended_packets_ this) 0.

Fixpoint create_loop (ps : list (packet ntp rate)) (max_length : Z) (callback : bool) : W bool :=
  match ps with
  | [] => mret true
  | appended :: rest =>
      ok ← Create appended max_length callback;
      if negb ok then mret false else create_loop rest max_length callback
  end.

Definition Create (this : t) (max_length : Z) (callback : bool) : W bool :=
  create_loop (appended_packets_ this) max_length callback.

End compound.

Arguments t : clear implicits.

End CompoundPacket.

(** ** RTCPReceiver *)

Module RTCPReceiver.

Section receiver.
Context {ntp : Type} `{NtpTime ntp} `{RtcNumerics} {rate : Type} `{DataRate rate}.

(** A handler's first step: parse into a fresh object, or count a skip. *)
Definition parse_block {T} `{RtcpCodec T} (f : T -> packet ntp rate) (rtcp_block : CommonHeader.t)
  : option (option (packet ntp rate)) :=
  '(p, ok) ← codec_parse codec_new rtcp_block;
  Some (if ok : bool then Some (f p) else None).

(** HandlePsfbApp: REMB, else a loss notification. *)
Definition HandlePsfbApp (rtcp_block : CommonHeader.t) : option (option (packet ntp rate)) :=
  '(remb, ok) ← Remb.Parse Remb.new rtcp_block;
  if ok : bool then Some (Some (PRemb remb)) else
  '(loss_notification, ok) ← LossNotification.Parse LossNotification.new rtcp_block;
  if ok : bool then Some (Some (PLossNotification loss_notification)) else Some None.

(** HandleApp: only remote estimates are used; [estimate] is the default
    constructed NetworkStateEstimate. *)
Definition HandleApp (estimate : RemoteEstimate.NetworkStateEstimate rate)
    (rtcp_block : CommonHeader.t) : option (option (packet ntp rate)) :=
  '(app, ok) ← App.Parse App.new rtcp_block;
  if (ok : bool) && (App.name_ app =? RemoteEstimate.kName) &&
     (App.sub_type_ app =? RemoteEstimate.kSubType) then
    '(r, ok) ← RemoteEstimate.ParseData (RemoteEstimate.of_app app estimate);
    Some (if ok : bool then Some (PRemoteEstimate r) else None)
  else Some None.

(** The switch of ParseCompoundPacket; [None] inside counts a skipped packet. *)
Definition HandleBlock (estimate : RemoteEstimate.NetworkStateEstimate rate)
    (rtcp_block : CommonHeader.t) : option (option (packet ntp rate)) :=
  let type := CommonHeader.type rtcp_block in
  let fmt := CommonHeader.fmt rtcp_block in
  if type =? SenderReport.kPacketType then parse_block PSenderReport rtcp_block else
  if type =? ReceiverReport.kPacketType then parse_block PReceiverReport rtcp_block else
  if type =? Sdes.kPacketType then parse_block PSdes rtcp_block else
  if type =? ExtendedReports.kPacketType then parse_block PExtendedReports rtcp_block else
  if type =? Bye.kPacketType then parse_block PBye rtcp_block else
  if type =? App.kPacketType then HandleApp estimate rtcp_block else
  if type =? Rtpfb.kPacketType then
    if fmt =? Nack.kFeedbackMessageType then parse_block PNack rtcp_block else
    if fmt =? Tmmbr.kFeedbackMessageType then parse_block PTmmbr rtcp_block else
    if fmt =? Tmmbn.kFeedbackMessageType then parse_block PTmmbn rtcp_block else
    if fmt =? RapidResyncRequest.kFeedbackMessageType then parse_block PRapidResyncRequest rtcp_block else
    if fmt =? TransportFeedback.kFeedbackMessageType then parse_block PTransportFeedback rtcp_block
    else Some None
  else if type =? Psfb.kPacketType then
    if fmt =? Pli.kFeedbackMessageType then parse_block PPli rtcp_block else
    if fmt =? Fir.kFeedbackMessageType then parse_block PFir rtcp_block else
    if fmt =? Psfb.kAfbMessageType then HandlePsfbApp rtcp_block
    else Some None
  else Some None.

(** The loop over the datagram: the result of ParseCompoundPacket, the packets
    handled and the packets skipped.  [rtcp_block] is the reused header. *)
Fixpoint parse_loop (fuel : nat) (estimate : RemoteEstimate.NetworkStateEstimate rate)
    (next_block : bytes) (first : bool) (rtcp_block : CommonHeader.t)
    (handled : list (packet ntp rate)) (num_skipped_packets : Z)
  : option (bool * list (packet ntp rate) * Z) :=
  match next_block, fuel with
  | [], _ => Some (true, handled, num_skipped_packets)
  | _, O => None
  | _, S fuel' =>
      '(rtcp_block, ok) ← CommonHeader.Parse rtcp_block next_block (zlen next_block);
      if negb ok then
        if first : bool then Some (false, handled, num_skipped_packets)
        else Some (true, handled, num_skipped_packets + 1)
      else
        result ← HandleBlock estimate rtcp_block;
        match result with
        | Some p =>
            parse_loop fuel' estimate (CommonHeader.NextPacket rtcp_block) false rtcp_block
              (handled ++ [p]) num_skipped_packets
        | None =>
            parse_loop fuel' estimate (CommonHeader.NextPacket rtcp_block) false rtcp_block
              handled (num_skipped_packets + 1)
        end
  end.

Definition ParseCompoundPacket (estimate : RemoteEstimate.NetworkStateEstimate rate)
    (datagram : bytes) : option (bool * list (packet ntp rate) * Z) :=
  parse_loop (length datagram) estimate datagram true CommonHeader.new [] 0.

End receiver.

End RTCPReceiver.

(** ** Specification *)

Section spec.
Context {ntp : Type} `{NtpTimeLaws ntp} `{RtcNumericsLaws} {rate : Type} `{DataRate rate}.

Abbreviation packet := (packet ntp rate).

(** The packets Create accepts, their wire form, and the bounds on the fields of
    every parsed packet. *)
Definition packet_wf (p : packet) : Prop :=
  match p with
  | PSenderReport p => codec_wf p
  | PReceiverReport p => codec_wf p
  | PExtendedJitterReport p => codec_wf p
  | PSdes p => codec_wf p
  | PExtendedReports p => codec_wf p
  | PBye p => codec_wf p
  | PApp p => codec_wf p
  | PRemoteEstimate p => codec_wf (RemoteEstimate.app p)
  | PNack p => codec_wf p
  | PTmmbr p => codec_wf p
  | PTmmbn p => codec_wf p
  | PRapidResyncRequest p => codec_wf p
  | PTransportFeedback p => codec_wf p
  | PPli p => codec_wf p
  | PFir p => codec_wf p
  | PRemb p => codec_wf p
  | PLossNotification p => codec_wf p
  end.

Definition packet_encode (p : packet) : bytes :=
  match p with
  | PSenderReport p => codec_encode p
  | PReceiverReport p => codec_encode p
  | PExtendedJitterReport p => codec_encode p
  | PSdes p => codec_encode p
  | PExtendedReports p => codec_encode p
  | PBye p => codec_encode p
  | PApp p => codec_encode p
  | PRemoteEstimate p => codec_encode (RemoteEstimate.app p)
  | PNack p => codec_encode p
  | PTmmbr p => codec_encode p
  | PTmmbn p => codec_encode p
  | PRapidResyncRequest p => codec_encode p
  | PTransportFeedback p => codec_encode p
  | PPli p => codec_encode p
  | PFir p => codec_encode p
  | PRemb p => codec_encode p
  | PLossNotification p => codec_encode p
  end.

Definition packet_inv (p : packet) : Prop :=
  match p with
  | PSenderReport p => codec_inv p
  | PReceiverReport p => codec_inv p
  | PExtendedJitterReport p => codec_inv p
  | PSdes p => codec_inv p
  | PExtendedReports p => codec_inv p
  | PBye p => codec_inv p
  | PApp p => codec_inv p
  | PRemoteEstimate p => codec_inv (RemoteEstimate.app p)
  | PNack p => codec_inv p
  | PTmmbr p => codec_inv p
  | PTmmbn p => codec_inv p
  | PRapidResyncRequest p => codec_inv p
  | PTransportFeedback p => codec_inv p
  | PPli p => codec_inv p
  | PFir p => codec_inv p
  | PRemb p => codec_inv p
  | PLossNotification p => codec_inv p
  end.

(** What the receiver makes of an application packet. *)
Definition app_delivered (estimate : RemoteEstimate.NetworkStateEstimate rate) (a : App.t)
  : option packet :=
  if (App.name_ a =? RemoteEstimate.kName) && (App.sub_type_ a =? RemoteEstimate.kSubType) then
    match RemoteEstimate.ParseData (RemoteEstimate.of_app a estimate) with
    | Some (r, true) => Some (PRemoteEstimate r)
    | _ => None
    end
  else None.

(** What the receiver delivers of a packet that was sent; extended jitter reports
    and application packets other than estimates are skipped. *)
Definition delivered (estimate : RemoteEstimate.NetworkStateEstimate rate) (p : packet)
  : option packet :=
  match p with
  | PSenderReport p => Some (PSenderReport (codec_image p))
  | PReceiverReport p => Some (PReceiverReport (codec_image p))
  | PExtendedJitterReport p => None
  | PSdes p => Some (PSdes (codec_image p))
  | PExtendedReports p => Some (PExtendedReports (codec_image p))
  | PBye p => Some (PBye (codec_image p))
  | PApp p => app_delivered estimate p
  | PRemoteEstimate p => app_delivered estimate (RemoteEstimate.app p)
  | PNack p => Some (PNack (codec_image p))
  | PTmmbr p => Some (PTmmbr (codec_image p))
  | PTmmbn p => Some (PTmmbn (codec_image p))
  | PRapidResyncRequest p => Some (PRapidResyncRequest (codec_image p))
  | PTransportFeedback p => Some (PTransportFeedback (codec_image p))
  | PPli p => Some (PPli (codec_image p))
  | PFir p => Some (PFir (codec_image p))
  | PRemb p => Some (PRemb (codec_image p))
  | PLossNotification p => Some (PLossNotification (codec_image p))
  end.

(** Every packet except a NACK is written in one piece. *)
Definition unfragmented (p : packet) : Prop := match p with PNack _ => False | _ => True end.

Lemma packet_length p : packet_wf p -> zlen (packet_encode p) = BlockLength p.
Proof. destruct p; apply codec_length. Qed.

Lemma packet_positive p : packet_wf p -> 4 <= BlockLength p.
Proof. destruct p; apply codec_positive. Qed.

Lemma packet_creates p max_length callback st :
  packet_wf p -> 0 <= windex st -> windex st + BlockLength p <= max_length ->
  max_length <= zlen (wbuf st) -> max_length < 2 ^ 64 ->
  Create p max_length callback st = append (packet_encode p) st.
Proof. destruct p; apply codec_creates. Qed.

Lemma packet_create_result p max_length callback st :
  packet_wf p -> unfragmented p -> 0 <= windex st <= zlen (wbuf st) ->
  Create p max_length callback st = create_result (packet_encode p) max_length callback st.
Proof.
  destruct p; intros Hw Hu Hi; try done.
  - by apply SenderReport_Create_spec.
  - by apply ReceiverReport_Create_spec.
  - by apply ExtendedJitterReport_Create_spec.
  - by apply Sdes_Create_spec.
  - by apply ExtendedReports_Create_spec.
  - by apply Bye_Create_spec.
  - by apply App_Create_spec.
  - by apply App_Create_spec.
  - by apply Tmmbr_Create_spec.
  - by apply Tmmbn_Create_spec.
  - by apply RapidResyncRequest_Create_spec.
  - destruct Hw as [Hg Hl]. by eapply TransportFeedback_Create_spec.
  - by apply Pli_Create_spec.
  - by apply Fir_Create_spec.
  - by apply Remb_Create_spec.
  - by apply LossNotification_Create_spec.
Qed.

(** A loss notification is not mistaken for a REMB. *)
Lemma loss_is_not_remb h q :
  LossNotification.Parse LossNotification.new h = Some (q, true) ->
  Remb.Parse Remb.new h = Some (Remb.new, false).
Proof.
  unfold LossNotification.Parse, Remb.Parse.
  destruct (CommonHeader.type h =? Psfb.kPacketType); [|done]. cbn [mbind option_bind check].
  destruct (CommonHeader.fmt h =? Psfb.kAfbMessageType); [|done]. cbn [mbind option_bind check].
  unfold CommonFeedback.kCommonFeedbackLength, LossNotification.kLossNotificationPayloadLength.
  change (8 + 8) with 16. destruct (CommonHeader.payload_size_bytes h <? 16); [done|].
  destruct (read_u32 (CommonHeader.payload h) 8) as [id|]; [|done]. cbn [mbind option_bind].
  destruct (Z.eqb_spec id LossNotification.kUniqueIdentifier) as [->|]; intros E; [reflexivity|discriminate].
Qed.

Lemma HandleApp_spec estimate h a : App.Parse App.new h = Some (a, true) -> is_bytes (App.data_ a) ->
  RTCPReceiver.HandleApp estimate h = Some (app_delivered estimate a).
Proof.
  intros E Ha. unfold RTCPReceiver.HandleApp, app_delivered. rewrite E. cbn [mbind option_bind andb].
  destruct ((App.name_ a =? RemoteEstimate.kName) && (App.sub_type_ a =? RemoteEstimate.kSubType)); [|done].
  unfold RemoteEstimate.ParseData, RemoteEstimate.Parse, RemoteEstimate.of_app.
  cbn [RemoteEstimate.app RemoteEstimate.estimate_].
  change RemoteEstimate.kFieldSize with 4.
  destruct (Z.eqb_spec (zlen (App.data_ a) mod 4) 0) as [Em|]; cbn [negb]; [|done].
  destruct (parse_loop_safe (App.data_ a) Ha (length (App.data_ a)) 0 estimate) as [e' ->];
    [lia|by rewrite Z.sub_0_r|lia|]. done.
Qed.

(** The switch on the packet type and the feedback message type. *)
Section dispatch.
Context (estimate : RemoteEstimate.NetworkStateEstimate rate) (h : CommonHeader.t).

Ltac by_type := intros Et; unfold RTCPReceiver.HandleBlock; rewrite Et; reflexivity.

Ltac by_format := intros Et Ef; unfold RTCPReceiver.HandleBlock; rewrite Et, Ef; reflexivity.

Lemma dispatch_sender_report : CommonHeader.type h = SenderReport.kPacketType ->
  RTCPReceiver.HandleBlock estimate h = RTCPReceiver.parse_block PSenderReport h.
Proof. by_type. Qed.

Lemma dispatch_receiver_report : CommonHeader.type h = ReceiverReport.kPacketType ->
  RTCPReceiver.HandleBlock estimate h = RTCPReceiver.parse_block PReceiverReport h.
Proof. by_type. Qed.

Lemma dispatch_extended_jitter_report : CommonHeader.type h = ExtendedJitterReport.kPacketType ->
  RTCPReceiver.HandleBlock estimate h = Some None.
Proof. by_type. Qed.

Lemma dispatch_sdes : CommonHeader.type h = Sdes.kPacketType ->
  RTCPReceiver.HandleBlock estimate h = RTCPReceiver.parse_block PSdes h.
Proof. by_type. Qed.

Lemma dispatch_extended_reports : CommonHeader.type h = ExtendedReports.kPacketType ->
  RTCPReceiver.HandleBlock estimate h = RTCPReceiver.parse_block PExtendedReports h.
Proof. by_type. Qed.

Lemma dispatch_bye : CommonHeader.type h = Bye.kPacketType ->
  RTCPReceiver.HandleBlock estimate h = RTCPReceiver.parse_block PBye h.
Proof. by_type. Qed.

Lemma dispatch_app : CommonHeader.type h = App.kPacketType ->
  RTCPReceiver.HandleBlock estimate h = RTCPReceiver.HandleApp estimate h.
Proof. by_type. Qed.

Lemma dispatch_nack : CommonHeader.type h = Rtpfb.kPacketType ->
  CommonHeader.fmt h = Nack.kFeedbackMessageType ->
  RTCPReceiver.HandleBlock estimate h = RTCPReceiver.parse_block PNack h.
Proof. by_format. Qed.

Lemma dispatch_tmmbr : CommonHeader.type h = Rtpfb.kPacketType ->
  CommonHeader.fmt h = Tmmbr.kFeedbackMessageType ->
  RTCPReceiver.HandleBlock estimate h = RTCPReceiver.parse_block PTmmbr h.
Proof. by_format. Qed.

Lemma dispatch_tmmbn : CommonHeader.type h = Rtpfb.kPacketType ->
  CommonHeader.fmt h = Tmmbn.kFeedbackMessageType ->
  RTCPReceiver.HandleBlock estimate h = RTCPReceiver.parse_block PTmmbn h.
Proof. by_format. Qed.

Lemma dispatch_rapid_resync : CommonHeader.type h = Rtpfb.kPacketType ->
  CommonHeader.fmt h = RapidResyncRequest.kFeedbackMessageType ->
  RTCPReceiver.HandleBlock estimate h = RTCPReceiver.parse_block PRapidResyncRequest h.
Proof. by_format. Qed.

Lemma dispatch_transport_feedback : CommonHeader.type h = Rtpfb.kPacketType ->
  CommonHeader.fmt h = TransportFeedback.kFeedbackMessageType ->
  RTCPReceiver.HandleBlock estimate h = RTCPReceiver.parse_block PTransportFeedback h.
Proof. by_format. Qed.

Lemma dispatch_pli : CommonHeader.type h = Psfb.kPacketType ->
  CommonHeader.fmt h = Pli.kFeedbackMessageType ->
  RTCPReceiver.HandleBlock estimate h = RTCPReceiver.parse_block PPli h.
Proof. by_format. Qed.

Lemma dispatch_fir : CommonHeader.type h = Psfb.kPacketType ->
  CommonHeader.fmt h = Fir.kFeedbackMessageType ->
  RTCPReceiver.HandleBlock estimate h = RTCPReceiver.parse_block PFir h.
Proof. by_format. Qed.

Lemma dispatch_psfb_app : CommonHeader.type h = Psfb.kPacketType ->
  CommonHeader.fmt h = Psfb.kAfbMessageType ->
  RTCPReceiver.HandleBlock estimate h = RTCPReceiver.HandlePsfbApp h.
Proof. by_format. Qed.

Lemma parse_block_spec {T} `{RtcpCodec T} (f : T -> packet) (p : T) :
  codec_parse codec_new h = Some (p, true) ->
  RTCPReceiver.parse_block f h = Some (Some (f p)).
Proof. unfold RTCPReceiver.parse_block. by intros ->. Qed.

End dispatch.

(** Parsing and dispatching one packet of a datagram. *)
Lemma packet_handled estimate p this rest size_bytes :
  packet_wf p -> zlen (packet_encode p) <= size_bytes ->
  exists h,
    CommonHeader.Parse this (packet_encode p ++ rest) size_bytes = Some (h, true) /\
    CommonHeader.NextPacket h = rest /\
    RTCPReceiver.HandleBlock estimate h = Some (delivered estimate p).
Proof.
  intros Hw Hs. destruct p; cbn [packet_wf packet_encode] in *;
    (match goal with Hw : codec_wf ?q |- _ =>
       destruct (codec_parses q this rest size_bytes Hw Hs) as (h & E & Ht & Hf & Hn & Hp) end);
    exists h; (split; [exact E|]); (split; [exact Hn|]);
    try (apply Z.eqb_eq in Hf); cbn [delivered].
  - rewrite dispatch_sender_report by exact Ht. exact (parse_block_spec h _ _ Hp).
  - rewrite dispatch_receiver_report by exact Ht. exact (parse_block_spec h _ _ Hp).
  - exact (dispatch_extended_jitter_report estimate h Ht).
  - rewrite dispatch_sdes by exact Ht. exact (parse_block_spec h _ _ Hp).
  - rewrite dispatch_extended_reports by exact Ht. exact (parse_block_spec h _ _ Hp).
  - rewrite dispatch_bye by exact Ht. exact (parse_block_spec h _ _ Hp).
  - rewrite dispatch_app by exact Ht. exact (HandleApp_spec estimate h _ Hp ltac:(apply Hw)).
  - rewrite dispatch_app by exact Ht. exact (HandleApp_spec estimate h _ Hp ltac:(apply Hw)).
  - rewrite dispatch_nack by assumption. exact (parse_block_spec h _ _ Hp).
  - rewrite dispatch_tmmbr by assumption. exact (parse_block_spec h _ _ Hp).
  - rewrite dispatch_tmmbn by assumption. exact (parse_block_spec h _ _ Hp).
  - rewrite dispatch_rapid_resync by assumption. exact (parse_block_spec h _ _ Hp).
  - rewrite dispatch_transport_feedback by assumption. exact (parse_block_spec h _ _ Hp).
  - rewrite dispatch_pli by assumption. exact (parse_block_spec h _ _ Hp).
  - rewrite dispatch_fir by assumption. exact (parse_block_spec h _ _ Hp).
  - rewrite dispatch_psfb_app by assumption. unfold RTCPReceiver.HandlePsfbApp.
    change (Remb.Parse Remb.new h = Some (codec_image p, true)) in Hp. by rewrite Hp.
  - rewrite dispatch_psfb_app by assumption. unfold RTCPReceiver.HandlePsfbApp.
    change (LossNotification.Parse LossNotification.new h = Some (codec_image p, true)) in Hp.
    rewrite (loss_is_not_remb h _ Hp). cbn [mbind option_bind]. by rewrite Hp.
Qed.

(** ** Writing several packets *)

Definition encode_all (ps : list packet) : bytes := concat (map packet_encode ps).

(** Appending twice is appending once. *)
Lemma append_append x y (k : W bool) st :
  (forall st', length (wbuf st') = length (wbuf st) -> windex st' = windex st + zlen x ->
    k st' = append y st') ->
  (ok ← append x; if negb ok then mret false else k) st = append (x ++ y) st.
Proof.
  intros Hk. unfold mbind, W_bind, append at 1 2.
  pose proof (put_put (wbuf st) (windex st) x y (windex st + zlen x) eq_refl) as E.
  destruct (put (wbuf st) (windex st) x) as [b|] eqn:Eb; cbn [mbind option_bind negb] in *.
  - rewrite Hk by (cbn; by eauto using put_length). unfold append. cbn [windex wbuf wsent].
    rewrite E, length_app. destruct (put _ _ (x ++ y)); [|done]. do 3 f_equal. lia.
  - by rewrite <- E.
Qed.

Lemma append_nil st : 0 <= windex st <= zlen (wbuf st) -> append [] st = Some (true, st).
Proof.
  intros. unfold append. rewrite put_nil by lia. rewrite Z.add_0_r. by destruct st.
Qed.

Lemma create_loop_append max_length callback ps : Forall packet_wf ps -> forall st,
  0 <= windex st -> windex st + zlen (encode_all ps) <= max_length ->
  max_length <= zlen (wbuf st) -> max_length < 2 ^ 64 ->
  CompoundPacket.create_loop ps max_length callback st = append (encode_all ps) st.
Proof.
  induction 1 as [|p ps Hp Hps IH]; intros st Hi Hm Hb H64.
  - cbn. rewrite append_nil by lia. done.
  - cbn [CompoundPacket.create_loop encode_all map concat] in *.
    change (concat (map packet_encode ps)) with (encode_all ps) in *.
    rewrite length_app in Hm. pose proof (packet_length p Hp) as El.
    transitivity ((ok ← append (packet_encode p);
       if negb ok then mret false else CompoundPacket.create_loop ps max_length callback) st).
    + unfold mbind, W_bind. by rewrite packet_creates by (done || lia).
    + apply append_append. intros st' Hl Hw. apply IH; lia.
Qed.

Lemma compound_length ps : Forall packet_wf ps ->
  CompoundPacket.BlockLength (CompoundPacket.Mk ps) = zlen (encode_all ps).
Proof.
  intros Hall. unfold CompoundPacket.BlockLength. cbn [CompoundPacket.appended_packets_].
  enough (forall n, fold_left (fun b p => b + BlockLength p) ps n = n + zlen (encode_all ps)) by auto.
  induction Hall as [|p ps Hp _ IH]; intros n; cbn [fold_left encode_all map concat]; [cbn; lia|].
  rewrite IH. unfold encode_all. rewrite length_app, <- packet_length by done. lia.
Qed.

Lemma compound_append (ps : list packet) : forall start : list packet,
  fold_left (fun c p => CompoundPacket.Append c p) ps (CompoundPacket.Mk start) =
  CompoundPacket.Mk (start ++ ps).
Proof.
  induction ps as [|p ps IH]; intros start; cbn [fold_left]; [by rewrite app_nil_r|].
  unfold CompoundPacket.Append at 2. cbn. rewrite IH. by rewrite <- app_assoc.
Qed.

(** ** Receiving several packets *)

Definition delivered_all (estimate : RemoteEstimate.NetworkStateEstimate rate) (ps : list packet)
  : list packet := omap (delivered estimate) ps.

Definition skipped (estimate : RemoteEstimate.NetworkStateEstimate rate) (ps : list packet) : Z :=
  zlen ps - zlen (delivered_all estimate ps).

Lemma parse_loop_encode estimate ps : Forall packet_wf ps -> forall fuel first this handled n,
  (length (encode_all ps) <= fuel)%nat ->
  RTCPReceiver.parse_loop fuel estimate (encode_all ps) first this handled n =
  Some (true, handled ++ delivered_all estimate ps, n + skipped estimate ps).
Proof.
  unfold skipped, delivered_all.
  induction 1 as [|p ps Hp _ IH]; intros fuel first this handled n Hf.
  - destruct fuel; cbn; by rewrite app_nil_r, Z.add_0_r.
  - unfold encode_all in *. cbn [map concat omap list_omap] in *. rewrite length_app in Hf.
    pose proof (packet_length p Hp) as El. pose proof (packet_positive p Hp) as Hpos.
    destruct fuel as [|fuel]; [lia|].
    destruct (packet_handled estimate p this (concat (map packet_encode ps))
      (zlen (packet_encode p ++ concat (map packet_encode ps)))) as (h & E & Hn & Hh);
      [done|rewrite length_app; lia|].
    destruct (packet_encode p ++ concat (map packet_encode ps)) as [|b rest] eqn:Eb.
    { apply (f_equal length) in Eb. rewrite length_app in Eb. cbn in Eb. lia. }
    cbn [RTCPReceiver.parse_loop]. rewrite E. cbn [mbind option_bind negb].
    rewrite Hh. cbn [mbind option_bind]. rewrite Hn.
    destruct (delivered estimate p) as [q|]; rewrite IH by lia; cbn [length];
      (tuple_eq || idtac); try lia; try done.
    by rewrite <- app_assoc.
Qed.

(** ** Receiving arbitrary octets *)

Definition outcome_ok (r : option (option packet)) : Prop :=
  exists q, r = Some q /\ match q with Some p => packet_inv p | None => True end.

Lemma parse_block_safe {T} `{RtcpCodecLaws T} (f : T -> packet) h :
  (forall p, codec_inv p -> packet_inv (f p)) ->
  CommonHeader.valid h -> CommonHeader.type h = codec_type ->
  codec_fmt (CommonHeader.fmt h) = true -> outcome_ok (RTCPReceiver.parse_block f h).
Proof.
  intros Hf Hv Ht Hfmt. unfold RTCPReceiver.parse_block, outcome_ok.
  destruct (codec_safe h Hv Ht Hfmt) as [[p ok] E]. rewrite E. cbn [mbind option_bind].
  eexists. split; [done|]. destruct ok; [|done]. apply Hf. by eapply codec_parsed.
Qed.

Lemma App_safe h : CommonHeader.valid h -> CommonHeader.type h = App.kPacketType ->
  exists a ok, App.Parse App.new h = Some (a, ok) /\ (ok = true -> App.wf a).
Proof.
  intros Hv Ht. destruct (App_Parse_safe App.new h Hv Ht) as (a & ok & E & Hw). by exists a, ok.
Qed.

Lemma HandleApp_safe estimate h : CommonHeader.valid h -> CommonHeader.type h = App.kPacketType ->
  outcome_ok (RTCPReceiver.HandleApp estimate h).
Proof.
  intros Hv Ht. destruct (App_safe h Hv Ht) as (a & ok & E & Hw). destruct ok.
  - specialize (Hw eq_refl). rewrite (HandleApp_spec estimate h a E ltac:(apply Hw)).
    eexists. split; [done|]. unfold app_delivered.
    destruct (_ && _); [|done]. unfold RemoteEstimate.ParseData, RemoteEstimate.of_app.
    cbn [RemoteEstimate.app RemoteEstimate.estimate_].
    destruct (RemoteEstimate.Parse _ _) as [[e ok]|]; cbn; [|done]. by destruct ok.
  - unfold RTCPReceiver.HandleApp. rewrite E. cbn. by exists None.
Qed.

Lemma HandlePsfbApp_safe h : CommonHeader.valid h -> CommonHeader.type h = Psfb.kPacketType ->
  CommonHeader.fmt h = Psfb.kAfbMessageType -> outcome_ok (RTCPReceiver.HandlePsfbApp h).
Proof.
  intros Hv Ht Hf. unfold RTCPReceiver.HandlePsfbApp.
  destruct (standard_safe _ _ _ _ _ Remb_standard Remb.new h Hv Ht) as (r & ok & Er & Hr);
    [by cbn; rewrite Hf|].
  change (Remb.Parse Remb.new h = Some (r, ok)) in Er. rewrite Er. cbn [mbind option_bind].
  destruct ok; [eexists; split; [done|]; by apply Hr|].
  destruct (standard_safe _ _ _ _ _ LossNotification_standard LossNotification.new h Hv Ht) as (l & ok & El & Hl);
    [by cbn; rewrite Hf|].
  change (LossNotification.Parse LossNotification.new h = Some (l, ok)) in El. rewrite El.
  cbn [mbind option_bind]. destruct ok; eexists; (split; [done|]); [by apply Hl|done].
Qed.

Lemma HandleBlock_safe estimate h :
  CommonHeader.valid h -> outcome_ok (RTCPReceiver.HandleBlock estimate h).
Proof.
  intros Hv. assert (Hnone : outcome_ok (Some None)) by (by exists None).
  unfold RTCPReceiver.HandleBlock.
  repeat match goal with
  | |- outcome_ok (if ?a =? ?b then _ else _) => destruct (Z.eqb_spec a b) as [?E|_]
  end; try exact Hnone;
  try (apply HandleApp_safe; assumption);
  try (apply HandlePsfbApp_safe; assumption);
  (apply parse_block_safe; [by intros p Hp|done|done|]; cbn; by first [done|apply Z.eqb_eq]).
Qed.

(** The header loop terminates, and each packet takes at least four octets. *)
Lemma parse_loop_total estimate : forall fuel next_block first this handled n,
  is_bytes next_block -> (length next_block <= fuel)%nat -> Forall packet_inv handled ->
  exists ok ps m,
    RTCPReceiver.parse_loop fuel estimate next_block first this handled n =
      Some (ok, handled ++ ps, m) /\
    Forall packet_inv ps /\ n <= m /\
    4 * (zlen ps + (m - n)) <= zlen next_block + 3 /\
    ok = negb (first && negb (zlen next_block =? 0) &&
               negb (CommonHeader.accepts next_block (zlen next_block))) /\
    (ok = false -> ps = [] /\ m = n).
Proof.
  induction fuel as [|fuel IH]; intros nb first this handled n Hb Hl Hinv.
  { destruct nb; [|cbn in Hl; lia]. exists true, [], n. cbn. rewrite app_nil_r, andb_false_r.
    splits; try done; lia. }
  destruct nb as [|b nb'].
  { exists true, [], n. cbn. rewrite app_nil_r, andb_false_r. splits; try done; lia. }
  remember (b :: nb') as nb eqn:Enb.
  assert (Hne : 0 < zlen nb) by (subst nb; cbn; lia).
  assert (Ez : (zlen nb =? 0) = false) by (apply Z.eqb_neq; lia).
  destruct (CommonHeader_parse_run this nb (zlen nb) Hb) as (h & E & Hacc); [lia|].
  rewrite Ez. rewrite Enb. cbn [RTCPReceiver.parse_loop]. rewrite <- Enb, E. cbn [mbind option_bind].
  destruct (CommonHeader.accepts nb (zlen nb)); cbn [negb].
  - destruct Hacc as (Hv & Hsz & Hpl); [done|].
    destruct (HandleBlock_safe estimate h Hv) as (q & Eq & Hq). rewrite Eq. cbn [mbind option_bind].
    set (rest := CommonHeader.NextPacket h).
    assert (Hrest : is_bytes rest /\ zlen rest + 4 <= zlen nb).
    { unfold rest, CommonHeader.NextPacket. change (CommonHeader.payload_ h) with (CommonHeader.payload h).
      rewrite Hpl. split.
      - by apply Forall_drop, Forall_drop.
      - pose proof (CommonHeader.valid_size _ Hv). pose proof (CommonHeader.valid_padding _ Hv) as Hp.
        unfold is_u8 in Hp. unfold CommonHeader.packet_size, CommonHeader.kHeaderSizeBytes in Hsz.
        rewrite !length_drop. lia. }
    destruct Hrest as [Hrb Hrl].
    destruct q as [p|].
    + destruct (IH rest false h (handled ++ [p]) n) as (ok & ps & m & El & Hps & Hm & Hlen & Hok & Hf);
        [done|lia|by apply Forall_app; split; [|constructor]|].
      exists ok, (p :: ps), m. rewrite El, <- app_assoc. cbn [length app]. cbn [andb negb] in *.
      subst ok. rewrite !andb_false_r. splits; try done; [by constructor|lia].
    + destruct (IH rest false h handled (n + 1)) as (ok & ps & m & El & Hps & Hm & Hlen & Hok & Hf);
        [done|lia|done|].
      exists ok, ps, m. cbn [andb negb] in *. subst ok.
      rewrite !andb_false_r. splits; try done; lia.
  - destruct first; cbn [andb negb].
    + exists false, [], n. rewrite app_nil_r. splits; try done; cbn; lia.
    + exists true, [], (n + 1). rewrite app_nil_r. splits; try done; cbn; lia.
Qed.

(** ** Several datagrams *)

(** The grouping into datagrams of at most [max_length] octets: a packet that does
    not fit behind the [open_] group starts the next one. *)
Fixpoint pack (max_length : Z) (open_ ps : list packet) : list (list packet) :=
  match ps with
  | [] => [open_]
  | p :: ps =>
      if zlen (encode_all open_) + BlockLength p <=? max_length
      then pack max_length (open_ ++ [p]) ps
      else open_ :: pack max_length [p] ps
  end.

Lemma encode_all_app ps qs : encode_all (ps ++ qs) = encode_all ps ++ encode_all qs.
Proof. unfold encode_all. by rewrite map_app, concat_app. Qed.

Lemma encode_all_one p : encode_all [p] = packet_encode p.
Proof. apply app_nil_r. Qed.

Lemma pack_concat max_length ps : forall open_, concat (pack max_length open_ ps) = open_ ++ ps.
Proof.
  induction ps as [|p ps IH]; intros open_; cbn [pack]; [cbn; by rewrite app_nil_r|].
  destruct (_ <=? _); [rewrite IH; by rewrite <- app_assoc|]. cbn [concat]. by rewrite IH.
Qed.

(** The packets of a group and the octets of its datagram. *)
Definition group_ok (max_length : Z) (g : list packet) : Prop :=
  Forall packet_wf g /\ 0 < zlen (encode_all g) <= max_length.

Definition sendable (max_length : Z) (p : packet) : Prop :=
  packet_wf p /\ unfragmented p /\ BlockLength p <= max_length.

Lemma sendable_group max_length p : sendable max_length p -> group_ok max_length [p].
Proof.
  intros (Hw & _ & Hl). split; [by constructor|]. rewrite encode_all_one.
  pose proof (packet_length p Hw). pose proof (packet_positive p Hw). lia.
Qed.

Lemma pack_groups max_length ps : forall open_, Forall (sendable max_length) ps ->
  group_ok max_length open_ -> Forall (group_ok max_length) (pack max_length open_ ps).
Proof.
  induction ps as [|p ps IH]; intros open_ Hs Ho; cbn [pack]; [by constructor|].
  apply list.Forall_cons in Hs as [Hp Hs]. destruct Ho as [How Hol].
  destruct (Z.leb_spec (zlen (encode_all open_) + BlockLength p) max_length).
  - apply IH; [done|]. destruct Hp as (Hw & _). split; [by apply Forall_app; split; [|constructor]|].
    rewrite encode_all_app, length_app, encode_all_one. pose proof (packet_length p Hw). lia.
  - constructor; [done|]. apply IH; [done|]. by apply sendable_group.
Qed.

Lemma pack_start max_length p ps : BlockLength p <= max_length ->
  pack max_length [] (p :: ps) = pack max_length [p] ps.
Proof. intros. cbn [pack]. cbn [encode_all map concat length]. leb_true. done. Qed.

(** The buffer holds exactly the open group. *)
Definition holds (st : wstate) (open_ : list packet) : Prop :=
  windex st = zlen (encode_all open_) /\
  take (length (encode_all open_)) (wbuf st) = encode_all open_.

Lemma append_holds st open_ p : packet_wf p -> holds st open_ ->
  zlen (encode_all open_) + BlockLength p <= zlen (wbuf st) ->
  exists st', append (packet_encode p) st = Some (true, st') /\ holds st' (open_ ++ [p]) /\
    length (wbuf st') = length (wbuf st) /\ wsent st' = wsent st.
Proof.
  intros Hp [Hi Ht] Hl. pose proof (packet_length p Hp) as El. unfold append. rewrite Hi.
  destruct (put_split (wbuf st) (zlen (encode_all open_)) (packet_encode p)) as (b & Eb & Hlb & Htb & Hdb);
    [lia|lia|].
  rewrite Eb. eexists. split; [done|]. splits; try done.
  rewrite Nat2Z.id in *. split; cbn [windex wbuf]; rewrite encode_all_app, encode_all_one, length_app; [lia|].
  rewrite <- (take_drop (length (encode_all open_)) b), Htb, Hdb, Ht, app_assoc.
  by rewrite take_app_length' by (rewrite length_app; done).
Qed.

Lemma flush_holds st open_ : holds st open_ ->
  holds (flush st) [] /\ wsent (flush st) = wsent st ++ [encode_all open_] /\
  wbuf (flush st) = wbuf st.
Proof.
  intros [Hi Ht]. unfold flush. rewrite Hi, Nat2Z.id, Ht. splits; done.
Qed.

Lemma create_loop_pack max_length ps : forall open_ st, Forall (sendable max_length) ps ->
  holds st open_ -> max_length <= zlen (wbuf st) -> zlen (encode_all open_) <= max_length ->
  exists st' groups last,
    CompoundPacket.create_loop ps max_length true st = Some (true, st') /\
    pack max_length open_ ps = groups ++ [last] /\
    wsent st' = wsent st ++ map encode_all groups /\
    holds st' last /\ length (wbuf st') = length (wbuf st).
Proof.
  induction ps as [|p ps IH]; intros open_ st Hs Ho Hb Hl; cbn [pack CompoundPacket.create_loop].
  { exists st, [], open_. rewrite app_nil_r. by splits. }
  apply list.Forall_cons in Hs as [(Hw & Hu & Hm) Hs].
  pose proof (packet_length p Hw) as El. pose proof (packet_positive p Hw).
  destruct Ho as [Hi Ht]. unfold mbind, W_bind.
  rewrite (packet_create_result p max_length true st Hw Hu) by lia. unfold create_result.
  rewrite El, Hi. destruct (Z.leb_spec (zlen (encode_all open_) + BlockLength p) max_length).
  - destruct (append_holds st open_ p Hw) as (st1 & -> & Hh1 & Hl1 & Hs1); [done|lia|].
    cbn [negb]. destruct (IH (open_ ++ [p]) st1) as (st' & gs & last & Er & Epk & Esent & Hh & Hlen);
      [done|done|lia|rewrite encode_all_app, length_app, encode_all_one; lia|].
    exists st', gs, last. rewrite Hs1 in Esent. splits; try done; lia.
  - destruct (Z.eqb_spec (zlen (encode_all open_)) 0); [lia|]. cbn [negb].
    destruct (Z.leb_spec (BlockLength p) max_length); [|lia].
    destruct (flush_holds st open_) as (Hf & Hsf & Hbf); [done|].
    destruct (append_holds (flush st) [] p Hw Hf) as (st1 & -> & Hh1 & Hl1 & Hs1);
      [rewrite Hbf; cbn; lia|]. cbn [negb app] in *.
    destruct (IH [p] st1) as (st' & gs & last & Er & Epk & Esent & Hh & Hlen);
      [done|done|rewrite Hl1, Hbf; lia|rewrite encode_all_one; lia|].
    exists st', (open_ :: gs), last. rewrite Hs1, Hsf in Esent. cbn [map app].
    rewrite <- app_assoc in Esent. cbn [app] in Esent.
    splits; try done; [by rewrite Epk|by rewrite Hlen, Hl1, Hbf].
Qed.

Lemma new_append (ps : list packet) :
  fold_left CompoundPacket.Append ps CompoundPacket.new = CompoundPacket.Mk ps.
Proof. exact (compound_append ps []). Qed.

Lemma build_append garbage (create : Z -> bool -> W bool) bs :
  (forall st, length (wbuf st) = length bs -> windex st = 0 ->
    create (zlen bs) false st = append bs st) ->
  Build garbage (zlen bs) create = Some bs.
Proof.
  intros Hc. unfold Build. rewrite Hc by (cbn; rewrite ?length_replicate; lia).
  unfold append. cbn [wbuf windex wsent].
  destruct (put_split (replicate (Z.to_nat (zlen bs)) garbage) 0 bs) as (b & -> & Hl & _ & Hd);
    [lia|rewrite length_replicate; lia|].
  cbn. rewrite Z.eqb_refl. cbn. rewrite drop_0 in Hd. rewrite Hd.
  rewrite drop_ge by (rewrite length_replicate; lia). by rewrite app_nil_r.
Qed.

(** C1. Compound round trip. Appending well-formed packets, of less than 2^64 octets together,
    and building the compound packet gives the concatenation of their encodings, of the length
    BlockLength predicts; and the receiver, given these octets as a datagram, returns true,
    having parsed every packet in order into what its format preserves, and having counted as
    skipped the packets it has no handler for. *)
Theorem compound_roundtrip garbage estimate ps :
  Forall packet_wf ps -> zlen (encode_all ps) < 2 ^ 64 ->
  let c := fold_left CompoundPacket.Append ps CompoundPacket.new in
  Build garbage (CompoundPacket.BlockLength c) (CompoundPacket.Create c) = Some (encode_all ps) /\
  CompoundPacket.BlockLength c = zlen (encode_all ps) /\
  RTCPReceiver.ParseCompoundPacket estimate (encode_all ps) =
    Some (true, delivered_all estimate ps, skipped estimate ps).
Proof.
  intros Hps H64 c. unfold c. rewrite new_append, compound_length by done. splits; [|done|].
  - apply build_append. intros st Hl Hi. by apply create_loop_append; rewrite ?Hi, ?Hl; try lia.
  - unfold RTCPReceiver.ParseCompoundPacket. by apply parse_loop_encode.
Qed.

(** C3. Compound packets over several datagrams. The compound is not empty, its packets are
    well-formed, each fits a datagram (BlockLength at most max_length, max_length at most
    kIpPacketSize = 1500), and none is a generic NACK, whose Create splits itself. Then no
    packet is split: Build(max_length, callback) succeeds and hands the callback datagrams of
    between one and max_length octets, each the encodings of consecutive packets; a datagram is
    closed exactly when the next packet would not fit. Receiving the datagrams one by one
    delivers what was appended, in order, nothing lost. An empty compound calls back with
    nothing and returns false. *)
Theorem compound_datagrams garbage estimate max_length ps :
  ps <> [] -> Forall (sendable max_length) ps -> max_length <= kIpPacketSize ->
  let groups := pack max_length [] ps in
  let c := fold_left CompoundPacket.Append ps CompoundPacket.new in
  BuildFragments garbage (CompoundPacket.Create c) max_length = Some (map encode_all groups, true) /\
  concat groups = ps /\
  Forall (fun g => 0 < zlen (encode_all g) <= max_length) groups /\
  mapM (RTCPReceiver.ParseCompoundPacket estimate) (map encode_all groups) =
    Some (map (fun g => (true, delivered_all estimate g, skipped estimate g)) groups) /\
  BuildFragments garbage (CompoundPacket.Create (CompoundPacket.new : CompoundPacket.t ntp rate)) max_length = Some ([], false).
Proof.
  intros Hne Hs Hm groups c. unfold c. rewrite new_append. destruct ps as [|p ps]; [done|].
  assert (Hg : Forall (group_ok max_length) groups).
  { apply list.Forall_cons in Hs as [Hp Hs]. unfold groups. rewrite pack_start by apply Hp.
    apply pack_groups; [done|]. by apply sendable_group. }
  splits.
  - unfold BuildFragments. rewrite (proj2 (Z.leb_le _ _) Hm). cbn [check mbind option_bind].
    set (st := WState (replicate (Z.to_nat kIpPacketSize) garbage) 0 []).
    assert (Hl : zlen (wbuf st) = kIpPacketSize) by (cbn; by rewrite length_replicate).
    assert (Hpos : 0 < max_length).
    { apply list.Forall_cons in Hs as [Hp _]. destruct Hp as (Hw & _ & Hlp).
      pose proof (packet_positive p Hw). lia. }
    destruct (create_loop_pack max_length (p :: ps) [] st) as (st' & gs & last & E & Epk & Es & [Hi Ht] & Hlen);
      [done|by split|lia|cbn; lia|].
    unfold mbind at 1, W_bind, CompoundPacket.Create. cbn [CompoundPacket.appended_packets_].
    rewrite E. cbn [negb]. unfold RtcpPacket.OnBufferFull.
    assert (Hlast : group_ok max_length last).
    { unfold groups in Hg. rewrite Epk in Hg. apply Forall_app in Hg as [_ Hg].
      by apply list.Forall_cons in Hg as [Hg _]. }
    destruct Hlast as [_ [Hl1 Hl2]]. destruct (Z.eqb_spec (windex st') 0); [lia|].
    rewrite (proj2 (Z.leb_le 0 _)), (proj2 (Z.leb_le (windex st') _)) by lia. cbn [andb wsent].
    rewrite Hi, Nat2Z.id, Ht, Es. unfold groups. rewrite Epk, map_app. done.
  - apply (pack_concat max_length (p :: ps) []).
  - eapply list.Forall_impl; [exact Hg|]. by intros g [_ H'].
  - apply mapM_Some_2, Forall2_fmap, Forall_Forall2_diag.
    eapply list.Forall_impl; [exact Hg|]. intros g [Hw _]. by apply parse_loop_encode.
  - unfold BuildFragments. by rewrite (proj2 (Z.leb_le _ _) Hm).
Qed.

(** C2. The receiver on arbitrary octets. Whatever arrives, ParseCompoundPacket ends without
    reading outside the datagram and without a failed assertion; it returns false exactly when
    the datagram is not empty and does not start with a well-formed header, and then nothing was
    parsed; every packet handed to a handler has its fields in range, and packets handled and
    skipped take at least four octets each, where a rest of one to three octets at the end may
    count as one skipped packet more. *)
Theorem receive_total estimate datagram :
  is_bytes datagram ->
  exists ok ps n,
    RTCPReceiver.ParseCompoundPacket estimate datagram = Some (ok, ps, n) /\
    ok = ((zlen datagram =? 0) || CommonHeader.accepts datagram (zlen datagram)) /\
    (ok = false -> ps = [] /\ n = 0) /\
    Forall packet_inv ps /\ 0 <= n /\ 4 * (zlen ps + n) <= zlen datagram + 3.
Proof.
  intros Hb. unfold RTCPReceiver.ParseCompoundPacket.
  destruct (parse_loop_total estimate (length datagram) datagram true CommonHeader.new [] 0 Hb)
    as (ok & ps & m & E & Hinv & Hm & Hl & Hok & Hf); [lia|done|].
  exists ok, ps, m. cbn [app] in E. splits; try done; [|lia].
  rewrite Hok. cbn [andb]. by rewrite negb_andb, !negb_involutive.
Qed.

(** Every Create of a packet that is not a NACK, on every branch: it appends the
    encoding when it fits behind the index; else it hands the filled part of the buffer
    to the callback and starts over; and it returns false, with its own octets unwritten,
    for a packet longer than max_length.  Without a callback a full buffer stops the run. *)
Theorem create_every_branch p max_length callback st :
  packet_wf p -> unfragmented p -> 0 <= windex st <= zlen (wbuf st) ->
  zlen (packet_encode p) = BlockLength p /\
  Create p max_length callback st =
    if windex st + BlockLength p <=? max_length then append (packet_encode p) st
    else if windex st =? 0 then Some (false, st)
    else if negb callback then None
    else if BlockLength p <=? max_length then append (packet_encode p) (flush st)
    else Some (false, flush st).
Proof.
  intros Hw Hu Hi. rewrite packet_create_result by done. unfold create_result.
  by rewrite packet_length.
Qed.

(** A long NACK is split, not truncated.  Built with a callback, a NACK of up to
    65533 items becomes datagrams of at most max_length octets, each a NACK with the
    same SSRCs carrying the next run of items; received one by one they ask for exactly
    the ids of the original items, in order. *)
Theorem nack_fragments garbage estimate (p : Nack.t) max_length :
  Nack.inv p -> 16 <= max_length <= kIpPacketSize ->
  exists datagrams chunks,
    BuildFragments garbage (Nack.Create p) max_length = Some (datagrams, true) /\
    concat chunks = Nack.packed_ p /\
    Forall (fun d => zlen d <= max_length) datagrams /\
    mapM (RTCPReceiver.ParseCompoundPacket estimate) datagrams =
      Some (map (fun c => (true, [PNack (Nack.Mk (Nack.common p) c (concat (map Nack.item_ids c)))], 0))
                chunks).
Proof.
  intros (Hfb & Hn & Hok) Hm. unfold BuildFragments.
  rewrite (proj2 (Z.leb_le _ _)) by lia. cbn [check mbind option_bind].
  set (st := WState (replicate (Z.to_nat kIpPacketSize) garbage) 0 []).
  assert (Hl : zlen (wbuf st) = kIpPacketSize) by (cbn; by rewrite length_replicate).
  assert (Hne : Nack.packed_ p <> []) by (intros E; rewrite E in Hn; cbn in Hn; lia).
  destruct (create_loop_fragments (Nack.common p) max_length (Nack.create_fuel (Nack.packed_ p))
    (Nack.packed_ p) st) as (st' & chunks & E & Hcat & Hc & Hp & Hi & Hlen);
    [unfold Nack.create_fuel; lia|done|done|unfold kIpPacketSize in *; lia|lia|lia|].
  exists (map (Nack.encode_items (Nack.common p)) chunks), chunks.
  assert (Hlast : exists ok st'', RtcpPacket.OnBufferFull true st' = Some (ok, st'') /\ ok = true /\
    wsent st'' = map (Nack.encode_items (Nack.common p)) chunks).
  { unfold RtcpPacket.OnBufferFull. destruct (Z.eqb_spec (windex st') 0); [lia|].
    rewrite (proj2 (Z.leb_le 0 _)), (proj2 (Z.leb_le (windex st') _)) by lia. cbn [andb].
    eexists _, _. splits; [done..|]. cbn [wsent]. exact Hp. }
  splits; try done.
  - unfold Nack.Create. rewrite wcheck_then by (apply negb_eqb_0; lia). unfold mbind, W_bind.
    rewrite E. cbn [negb]. destruct Hlast as (ok & st'' & -> & -> & ->). done.
  - apply list.Forall_fmap. eapply list.Forall_impl; [exact Hc|]. intros c [_ Hcl].
    change (zlen (Nack.encode_items (Nack.common p) c) <= max_length). rewrite length_encode_items. lia.
  - apply mapM_Some_2, Forall2_fmap, Forall_Forall2_diag.
    rewrite <- Hcat in Hok. apply Forall_concat in Hok.
    assert (Hshort : Forall (fun c => c <> [] /\ Forall Nack.item_ok c /\ 12 + 4 * zlen c <= max_length) chunks).
    { rewrite list.Forall_forall in *. intros c Hin. destruct (Hc c Hin). auto. }
    eapply list.Forall_impl; [exact Hshort|]. intros c (Hcne & Hcok & Hcl).
    set (q := Nack.Mk (Nack.common p) c []).
    assert (Hq : packet_wf (PNack q : packet)).
    { split; [done|]. split; [|done]. cbn. unfold kIpPacketSize in *. destruct c; [done|cbn [length] in *; lia]. }
    pose proof (parse_loop_encode estimate [PNack q] ltac:(by constructor)
      (length (encode_all [PNack q])) true CommonHeader.new [] 0 ltac:(lia)) as R.
    rewrite encode_all_one in R. exact R.
Qed.

End spec.

(** ** Concrete runs *)

Definition example_packets : list (packet ntp_value bits_per_second) :=
  [PReceiverReport (ReceiverReport.Mk 7 [ReportBlock.Mk 8 25 (-3) 65537 9 10 11]);
   PSdes (Sdes.Mk [Sdes.MkChunk 7 [99; 64; 104]] 16);
   PExtendedJitterReport (ExtendedJitterReport.Mk [5; 6]);
   PPli (Pli.Mk (CommonFeedback.Mk 7 8));
   PBye (Bye.Mk 7 [] [111; 107])].

Definition no_estimate : RemoteEstimate.NetworkStateEstimate bits_per_second :=
  RemoteEstimate.Estimate MinusInf MinusInf.

Lemma compound_roundtrip_witness :
  let c := fold_left CompoundPacket.Append example_packets CompoundPacket.new in
  Build 0 (CompoundPacket.BlockLength c) (CompoundPacket.Create c) = Some (encode_all example_packets) /\
  CompoundPacket.BlockLength c = 84 /\
  skipped no_estimate example_packets = 1.
Proof.
  destruct (compound_roundtrip 0 no_estimate example_packets) as (E & L & _);
    [decide_wf|vm_compute; reflexivity|].
  split; [exact E|]. split; [rewrite L; vm_compute; reflexivity|vm_compute; reflexivity].
Defined.

Lemma compound_datagrams_witness :
  let c := fold_left CompoundPacket.Append example_packets CompoundPacket.new in
  exists datagrams, BuildFragments 0 (CompoundPacket.Create c) 50 = Some (datagrams, true) /\
    map (fun d => zlen d) datagrams = [48; 36].
Proof.
  destruct (compound_datagrams 0 no_estimate 50 example_packets) as (E & _);
    [discriminate|repeat constructor; decide_wf|vm_compute; discriminate|].
  eexists. split; [exact E|]. vm_compute. reflexivity.
Defined.

Lemma receive_total_witness :
  exists ok ps n, RTCPReceiver.ParseCompoundPacket (ntp := ntp_value) no_estimate
    [128; 201; 0; 1; 0; 0; 0; 7; 129] = Some (ok, ps, n) /\ ok = true /\ n <= 3.
Proof.
  destruct (receive_total (ntp := ntp_value) no_estimate [128; 201; 0; 1; 0; 0; 0; 7; 129])
    as (ok & ps & n & E & Hok & _ & _ & Hn & Hl); [decide_wf|].
  exists ok, ps, n. split; [exact E|]. split; [rewrite Hok; vm_compute; reflexivity|].
  cbn [length] in Hl. lia.
Defined.

Lemma create_every_branch_witness :
  Create (PPli (Pli.Mk (CommonFeedback.Mk 7 8)) : packet ntp_value bits_per_second) 20 true
    (WState (replicate 30 0) 16 []) =
  append (packet_encode (PPli (Pli.Mk (CommonFeedback.Mk 7 8)) : packet ntp_value bits_per_second))
    (flush (WState (replicate 30 0) 16 [])).
Proof.
  destruct (create_every_branch (PPli (Pli.Mk (CommonFeedback.Mk 7 8)) : packet ntp_value bits_per_second)
    20 true (WState (replicate 30 0) 16 [])) as (_ & E);
    [decide_wf|exact I|vm_compute; split; discriminate|].
  rewrite E. reflexivity.
Defined.

Lemma nack_fragments_witness :
  exists datagrams,
    BuildFragments 0 (Nack.Create (Nack.Mk (CommonFeedback.Mk 1 2)
      [Nack.MkPacked 5 0; Nack.MkPacked 30 3; Nack.MkPacked 60 0] [])) 20 = Some (datagrams, true) /\
    Forall (fun d => zlen d <= 20) datagrams.
Proof.
  destruct (nack_fragments (ntp := ntp_value) 0 no_estimate (Nack.Mk (CommonFeedback.Mk 1 2)
    [Nack.MkPacked 5 0; Nack.MkPacked 30 3; Nack.MkPacked 60 0] []) 20) as (ds & cs & E & _ & Hd & _);
    [decide_wf|decide_wf|].
  exists ds. split; [exact E|exact Hd].
Defined.
