(* ===== verification/HttpParser.v ===== *)
(** * The HTTP request parser: signal_server/request_parser.{hpp,cpp},
      request.hpp and header.hpp

    A [char] is an octet in [0, 255]; on the platforms where [char] is signed it is
    promoted to a negative [int] from 128 on ([promote]).  [None] is undefined
    behaviour: the version numbers are [int]s that nothing bounds. *)

From S2P Require Import Prelude.
From Stdlib Require Import Ascii.
From Stdlib Require Import (notations) String.

Definition bytes_of (s : String.string) : bytes :=
  map (fun a => Z.of_N (N_of_ascii a)) (String.list_ascii_of_string s).

Arguments bytes_of s%_string.

Module Header.

Record t := Mk { name : bytes; value : bytes }.

End Header.

Module Request.

Record t := Mk {
  method : bytes;
  uri : bytes;
  http_version_major : Z;     (* int *)
  http_version_minor : Z;     (* int *)
  headers : list Header.t
}.

(** A request before parsing; the two [int]s are not initialised. *)
Definition new (garbage1 garbage2 : Z) : t := Mk [] [] garbage1 garbage2 [].

Definition push_method (c : Z) (r : t) : t :=
  Mk (method r ++ [c]) (uri r) (http_version_major r) (http_version_minor r) (headers r).

Definition push_uri (c : Z) (r : t) : t :=
  Mk (method r) (uri r ++ [c]) (http_version_major r) (http_version_minor r) (headers r).

Definition set_version (major minor : Z) (r : t) : t :=
  Mk (method r) (uri r) major minor (headers r).

Definition set_headers (hs : list Header.t) (r : t) : t :=
  Mk (method r) (uri r) (http_version_major r) (http_version_minor r) hs.

(** headers.back(), undefined on an empty vector. *)
Definition update_back (f : Header.t -> Header.t) (r : t) : option t :=
  match list.last (headers r) with
  | Some h => Some (set_headers (removelast (headers r) ++ [f h]) r)
  | None => None
  end.

Definition push_header_name (c : Z) : t -> option t :=
  update_back (fun h => Header.Mk (Header.name h ++ [c]) (Header.value h)).

Definition push_header_value (c : Z) : t -> option t :=
  update_back (fun h => Header.Mk (Header.name h) (Header.value h ++ [c])).

End Request.

Module RequestParser.

Inductive state :=
  | method_start | method | uri
  | http_version_h | http_version_t_1 | http_version_t_2 | http_version_p
  | http_version_slash | http_version_major_start | http_version_major
  | http_version_minor_start | http_version_minor
  | expecting_newline_1 | header_line_start | header_lws | header_name
  | space_before_header_value | header_value
  | expecting_newline_2 | expecting_newline_3.

Inductive result_type := good | bad | indeterminate.

(** The initial state, also that of reset(). *)
Definition new : state := method_start.

(** The conversion of a [char] argument to [int]. *)
Definition promote (c : Z) : Z := if c <? 128 then c else c - 256.

Definition is_char (c : Z) : bool := (c >=? 0) && (c <=? 127).

Definition is_ctl (c : Z) : bool := ((c >=? 0) && (c <=? 31)) || (c =? 127).

Definition is_tspecial (c : Z) : bool :=
  existsb (Z.eqb c) [40; 41; 60; 62; 64; 44; 59; 58; 92; 34; 47; 91; 93; 63; 61; 123; 125; 32; 9].

Definition is_digit (c : Z) : bool := (c >=? 48) && (c <=? 57).

(** !is_char(input) || is_ctl(input) || is_tspecial(input) *)
Definition not_token (c : Z) : bool := negb (is_char c) || is_ctl c || is_tspecial c.

Definition INT_MAX : Z := 2147483647.

(** version * 10 + input - '0' on [int]s. *)
Definition push_digit (version input : Z) : option Z :=
  check ((- INT_MAX - 1 <=? version * 10) && (version * 10 <=? INT_MAX)) ;;
  check (version * 10 + input <=? INT_MAX) ;;
  Some (version * 10 + input - 48).

(** Leaving the state or not, with the request; what every branch returns. *)
Definition next (st : state) (req : Request.t) : option (result_type * state * Request.t) :=
  Some (indeterminate, st, req).

Definition reject (st : state) (req : Request.t) : option (result_type * state * Request.t) :=
  Some (bad, st, req).

Definition expect (st : state) (req : Request.t) (input wanted : Z) (st' : state) :=
  if input =? wanted then next st' req else reject st req.

Definition consume (st : state) (req : Request.t) (input : Z)
  : option (result_type * state * Request.t) :=
  let c := promote input in
  match st with
  | method_start =>
      if not_token c then reject st req else next method (Request.push_method input req)
  | method =>
      if c =? 32 then next uri req
      else if not_token c then reject st req
      else next st (Request.push_method input req)
  | uri =>
      if c =? 32 then next http_version_h req
      else if is_ctl c then reject st req
      else next st (Request.push_uri input req)
  | http_version_h => expect st req c 72 http_version_t_1
  | http_version_t_1 => expect st req c 84 http_version_t_2
  | http_version_t_2 => expect st req c 84 http_version_p
  | http_version_p => expect st req c 80 http_version_slash
  | http_version_slash =>
      if c =? 47 then next http_version_major_start (Request.set_version 0 0 req)
      else reject st req
  | http_version_major_start =>
      if is_digit c then
        v ← push_digit (Request.http_version_major req) c;
        next http_version_major (Request.set_version v (Request.http_version_minor req) req)
      else reject st req
  | http_version_major =>
      if c =? 46 then next http_version_minor_start req
      else if is_digit c then
        v ← push_digit (Request.http_version_major req) c;
        next st (Request.set_version v (Request.http_version_minor req) req)
      else reject st req
  | http_version_minor_start =>
      if is_digit c then
        v ← push_digit (Request.http_version_minor req) c;
        next http_version_minor (Request.set_version (Request.http_version_major req) v req)
      else reject st req
  | http_version_minor =>
      if c =? 13 then next expecting_newline_1 req
      else if is_digit c then
        v ← push_digit (Request.http_version_minor req) c;
        next st (Request.set_version (Request.http_version_major req) v req)
      else reject st req
  | expecting_newline_1 => expect st req c 10 header_line_start
  | header_line_start =>
      if c =? 13 then next expecting_newline_3 req
      else if negb (zlen (Request.headers req) =? 0) && ((c =? 32) || (c =? 9)) then next header_lws req
      else if not_token c then reject st req
      else
        let req := Request.set_headers (Request.headers req ++ [Header.Mk [] []]) req in
        req ← Request.push_header_name input req;
        next header_name req
  | header_lws =>
      if c =? 13 then next expecting_newline_2 req
      else if (c =? 32) || (c =? 9) then next st req
      else if is_ctl c then reject st req
      else req ← Request.push_header_value input req; next header_value req
  | header_name =>
      if c =? 58 then next space_before_header_value req
      else if not_token c then reject st req
      else req ← Request.push_header_name input req; next st req
  | space_before_header_value => expect st req c 32 header_value
  | header_value =>
      if c =? 13 then next expecting_newline_2 req
      else if is_ctl c then reject st req
      else req ← Request.push_header_value input req; next st req
  | expecting_newline_2 => expect st req c 10 header_line_start
  | expecting_newline_3 =>
      Some (if c =? 10 then good else bad, st, req)
  end.

(** parse(req, begin, end): the result, the parser and request after it, and the input
    that is left. *)
Fixpoint parse (st : state) (req : Request.t) (input : bytes)
  : option (result_type * state * Request.t * bytes) :=
  match input with
  | [] => Some (indeterminate, st, req, [])
  | c :: rest =>
      '(result, st, req) ← consume st req c;
      match result with
      | indeterminate => parse st req rest
      | _ => Some (result, st, req, rest)
      end
  end.

End RequestParser.

(** ** The grammar of the accepted requests *)

Import RequestParser.

Definition token (s : bytes) : Prop := s <> [] /\ Forall (fun c => not_token (promote c) = false) s.

Definition uri_text (s : bytes) : Prop :=
  Forall (fun c => promote c <> 32 /\ is_ctl (promote c) = false) s.

Definition value_text (s : bytes) : Prop := Forall (fun c => is_ctl (promote c) = false) s.

Definition white (c : Z) : bool := (c =? 32) || (c =? 9).

(** The value of a string of digits, when no step overflows an [int]. *)
Fixpoint digits_from (v : Z) (s : bytes) : option Z :=
  match s with
  | [] => Some v
  | c :: s' => if is_digit (promote c) then v ← push_digit v (promote c); digits_from v s' else None
  end.

Definition number (s : bytes) (v : Z) : Prop := s <> [] /\ digits_from 0 s = Some v.

Definition CRLF : bytes := [13; 10].

Definition append_value (v : bytes) (h : Header.t) : Header.t :=
  Header.Mk (Header.name h) (Header.value h ++ v).

(** [header_lines hs s hs']: the lines [s], up to the empty one, lead from the headers
    [hs] read before to [hs'].  A line that starts with white space continues the value
    of the header before it, without the white space. *)
Inductive header_lines : list Header.t -> bytes -> list Header.t -> Prop :=
  | no_more_headers hs : header_lines hs CRLF hs
  | continued_line hs h w v s hs' :
      w <> [] -> Forall (fun c => white (promote c) = true) w -> value_text v ->
      (forall c, head v = Some c -> white (promote c) = false) ->
      header_lines (hs ++ [append_value v h]) s hs' ->
      header_lines (hs ++ [h]) (w ++ v ++ CRLF ++ s) hs'
  | header_line hs n v s hs' :
      token n -> value_text v ->
      header_lines (hs ++ [Header.Mk n v]) s hs' ->
      header_lines hs (n ++ [58; 32] ++ v ++ CRLF ++ s) hs'.

Inductive request_text : Request.t -> bytes -> Prop :=
  | request_lines m u major minor hs dmajor dminor lines :
      token m -> uri_text u -> number dmajor major -> number dminor minor ->
      header_lines [] lines hs ->
      request_text (Request.Mk m u major minor hs)
        (m ++ [32] ++ u ++ [32] ++ bytes_of "HTTP/" ++ dmajor ++ [46] ++ dminor ++ CRLF ++ lines).

(** ** Characters *)

Lemma promote_eq c k : is_u8 c -> 0 <= k < 128 -> promote c = k <-> c = k.
Proof. unfold is_u8, promote. intros. destruct (Z.ltb_spec c 128); lia. Qed.

Lemma promote_small c : 0 <= c < 128 -> promote c = c.
Proof. unfold promote. intros. destruct (Z.ltb_spec c 128); lia. Qed.

Lemma update_back_snoc f hs h r :
  Request.headers r = hs ++ [h] ->
  Request.update_back f r = Some (Request.set_headers (hs ++ [f h]) r).
Proof.
  intros E. unfold Request.update_back. rewrite E, last_snoc. by rewrite removelast_last.
Qed.

(** ** Runs of the parser *)

Definition accepts (st : state) (req : Request.t) (s : bytes) (req' : Request.t) (rest : bytes)
  : Prop := parse st req s = Some (good, expecting_newline_3, req', rest).

(** One octet that does not end the parse. *)
Lemma accepts_step st req c s req' rest st1 req1 :
  consume st req c = next st1 req1 ->
  accepts st req (c :: s) req' rest <-> accepts st1 req1 s req' rest.
Proof. intros E. unfold accepts. cbn [parse]. by rewrite E. Qed.

Lemma accepts_nil st req req' rest : ~ accepts st req [] req' rest.
Proof. discriminate. Qed.

Lemma accepts_reject st req c s req' rest :
  consume st req c = reject st req -> ~ accepts st req (c :: s) req' rest.
Proof. intros E. unfold accepts. cbn [parse]. rewrite E. discriminate. Qed.

(** A state that wants one given octet. *)
Lemma accepts_expect st k st1 req s req' rest :
  (forall r c, consume st r c = expect st r (promote c) k st1) -> 0 <= k < 128 -> is_bytes s ->
  accepts st req s req' rest <-> exists t, s = k :: t /\ accepts st1 req t req' rest.
Proof.
  intros E Hk Hs. destruct s as [|c s].
  { split; [by intros []%accepts_nil | by intros (t & ? & _)]. }
  apply list.Forall_cons in Hs as [Hc _]. destruct (Z.eqb_spec (promote c) k) as [Heq|Hne].
  - rewrite (accepts_step _ _ _ _ _ _ st1 req)
      by (rewrite E; unfold expect; by rewrite (proj2 (Z.eqb_eq _ _) Heq)).
    apply promote_eq in Heq as ->; [|done..]. split; [eauto | by intros (t & [= ->] & ?)].
  - split.
    + intros []%accepts_reject. rewrite E. unfold expect. by rewrite (proj2 (Z.eqb_neq _ _) Hne).
    + intros (t & [= -> ->] & _). by rewrite promote_small in Hne.
Qed.

(** A state that reads octets of a class [P], each with the effect [f]. *)
Fixpoint pushes (f : Z -> Request.t -> option Request.t) (req : Request.t) (v : bytes)
  : option Request.t :=
  match v with
  | [] => Some req
  | c :: v' => req ← f c req; pushes f req v'
  end.

Lemma span (P : Z -> bool) s : exists v t, s = v ++ t /\ Forall (fun c => P c = true) v
  /\ (t = [] \/ exists c t', t = c :: t' /\ P c = false).
Proof.
  induction s as [|c s (v & t & -> & Hv & Ht)].
  - exists [], []. split_and!; auto.
  - destruct (P c) eqn:E.
    + exists (c :: v), t. split_and!; auto.
    + exists [], (c :: v ++ t). split_and!; eauto.
Qed.

Section Loop.
Context (st : state) (P : Z -> bool) (f : Z -> Request.t -> option Request.t).
Context (in_class : forall r c, P c = true -> consume st r c = (r ← f c r; next st r)).

Lemma accepts_pushes req v t req' rest : Forall (fun c => P c = true) v ->
  accepts st req (v ++ t) req' rest <-> exists r, pushes f req v = Some r /\ accepts st r t req' rest.
Proof.
  intros Hv. revert req. induction Hv as [|c v Hc Hv IH]; intros req; cbn [pushes app].
  - split; [eauto | by intros (r & [= ->] & ?)].
  - destruct (f c req) as [r1|] eqn:E; cbn [mbind option_bind].
    + rewrite <- IH. apply accepts_step. by rewrite in_class, E.
    + split; [|by intros (r & ? & _)]. unfold accepts. cbn [parse]. by rewrite in_class, E.
Qed.

Lemma accepts_loop req s req' rest :
  accepts st req s req' rest <-> exists v c t r, s = v ++ c :: t /\ Forall (fun c => P c = true) v
    /\ P c = false /\ pushes f req v = Some r /\ accepts st r (c :: t) req' rest.
Proof.
  split.
  - destruct (span P s) as (v & t & -> & Hv & Ht). intros (r & Hr & Ha)%accepts_pushes; [|done].
    destruct Ht as [->|(c & t' & -> & Hc)]; [by apply accepts_nil in Ha|].
    exists v, c, t', r. by splits.
  - intros (v & c & t & r & -> & Hv & _ & Hr & Ha). apply accepts_pushes; eauto.
Qed.

(** ... and leaves it on one octet only. *)
Lemma accepts_until k st1 req s req' rest : 0 <= k < 128 -> is_bytes s -> P k = false ->
  (forall r c, P c = false -> consume st r c = if promote c =? k then next st1 r else reject st r) ->
  accepts st req s req' rest <-> exists v t r, s = v ++ k :: t /\ Forall (fun c => P c = true) v
    /\ pushes f req v = Some r /\ accepts st1 r t req' rest.
Proof.
  intros Hk Hs HPk Hexit. rewrite accepts_loop. split.
  - intros (v & c & t & r & -> & Hv & HPc & Hr & Ha). exists v, t, r.
    pose proof (Hexit r c HPc) as E. apply list.Forall_app in Hs as [_ Hs].
    apply list.Forall_cons in Hs as [Hc _].
    destruct (Z.eqb_spec (promote c) k) as [Heq|]; [|by apply accepts_reject in Ha].
    apply promote_eq in Heq as ->; [|done..]. by rewrite accepts_step in Ha by exact E.
  - intros (v & t & r & -> & Hv & Hr & Ha). exists v, k, t, r. splits; try done.
    rewrite accepts_step; [done|]. rewrite Hexit, promote_small, Z.eqb_refl by done. done.
Qed.
End Loop.

(** ** What each state reads *)

Lemma is_bytes_app a b : is_bytes (a ++ b) <-> is_bytes a /\ is_bytes b.
Proof. apply list.Forall_app. Qed.

Lemma is_bytes_cons c b : is_bytes (c :: b) <-> is_u8 c /\ is_bytes b.
Proof. apply list.Forall_cons. Qed.

(** The parts of a string of octets. *)
Ltac octets :=
  repeat rewrite ?is_bytes_app, ?is_bytes_cons in *; destruct_and?; split_and?; try done.

Definition is_token (c : Z) : bool := negb (not_token (promote c)).

Definition is_uri (c : Z) : bool := negb (promote c =? 32) && negb (is_ctl (promote c)).

Definition is_value (c : Z) : bool := negb (is_ctl (promote c)).

Lemma pushes_method m u a b hs v :
  pushes (fun c r => Some (Request.push_method c r)) (Request.Mk m u a b hs) v
  = Some (Request.Mk (m ++ v) u a b hs).
Proof.
  revert m. induction v as [|c v IH]; intros m; cbn [pushes mbind option_bind].
  - by rewrite app_nil_r.
  - unfold Request.push_method. rewrite IH. by rewrite <- app_assoc.
Qed.

Lemma pushes_uri m u a b hs v :
  pushes (fun c r => Some (Request.push_uri c r)) (Request.Mk m u a b hs) v
  = Some (Request.Mk m (u ++ v) a b hs).
Proof.
  revert u. induction v as [|c v IH]; intros u; cbn [pushes mbind option_bind].
  - by rewrite app_nil_r.
  - unfold Request.push_uri. rewrite IH. by rewrite <- app_assoc.
Qed.

Lemma push_name c m u a b hs n x :
  Request.push_header_name c (Request.Mk m u a b (hs ++ [Header.Mk n x]))
  = Some (Request.Mk m u a b (hs ++ [Header.Mk (n ++ [c]) x])).
Proof. unfold Request.push_header_name. by erewrite update_back_snoc by reflexivity. Qed.

Lemma pushes_name m u a b hs n x v :
  pushes Request.push_header_name (Request.Mk m u a b (hs ++ [Header.Mk n x])) v
  = Some (Request.Mk m u a b (hs ++ [Header.Mk (n ++ v) x])).
Proof.
  revert n. induction v as [|c v IH]; intros n; cbn [pushes].
  - by rewrite app_nil_r.
  - rewrite push_name. cbn [mbind option_bind]. by rewrite IH, <- app_assoc.
Qed.

Lemma append_value_app v w h : append_value w (append_value v h) = append_value (v ++ w) h.
Proof. unfold append_value. cbn. by rewrite app_assoc. Qed.

Lemma append_value_nil h : append_value [] h = h.
Proof. destruct h. unfold append_value. cbn. by rewrite app_nil_r. Qed.

Lemma push_value c m u a b hs h :
  Request.push_header_value c (Request.Mk m u a b (hs ++ [h]))
  = Some (Request.Mk m u a b (hs ++ [append_value [c] h])).
Proof. unfold Request.push_header_value. by erewrite update_back_snoc by reflexivity. Qed.

Lemma pushes_value m u a b hs h v :
  pushes Request.push_header_value (Request.Mk m u a b (hs ++ [h])) v
  = Some (Request.Mk m u a b (hs ++ [append_value v h])).
Proof.
  revert h. induction v as [|c v IH]; intros h; cbn [pushes].
  - by rewrite append_value_nil.
  - rewrite push_value. cbn [mbind option_bind]. by rewrite IH, append_value_app.
Qed.

Definition push_major (c : Z) (r : Request.t) : option Request.t :=
  v ← push_digit (Request.http_version_major r) (promote c);
  Some (Request.set_version v (Request.http_version_minor r) r).

Definition push_minor (c : Z) (r : Request.t) : option Request.t :=
  v ← push_digit (Request.http_version_minor r) (promote c);
  Some (Request.set_version (Request.http_version_major r) v r).

Definition is_digit_char (c : Z) : bool := is_digit (promote c).

Lemma push_major_eq c m u a b hs :
  push_major c (Request.Mk m u a b hs)
  = (x ← push_digit a (promote c); Some (Request.Mk m u x b hs)).
Proof. done. Qed.

Lemma pushes_major m u a b hs v : Forall (fun c => is_digit_char c = true) v ->
  pushes push_major (Request.Mk m u a b hs) v
  = (x ← digits_from a v; Some (Request.Mk m u x b hs)).
Proof.
  intros Hv. revert a. induction Hv as [|c v Hc Hv IH]; intros a; [done|].
  unfold is_digit_char in Hc. cbn [pushes digits_from]. rewrite Hc.
  rewrite push_major_eq. destruct (push_digit a (promote c)) as [x|]; cbn [mbind option_bind]; [apply IH|done].
Qed.

Lemma push_minor_eq c m u a b hs :
  push_minor c (Request.Mk m u a b hs)
  = (x ← push_digit b (promote c); Some (Request.Mk m u a x hs)).
Proof. done. Qed.

Lemma pushes_minor m u a b hs v : Forall (fun c => is_digit_char c = true) v ->
  pushes push_minor (Request.Mk m u a b hs) v
  = (x ← digits_from b v; Some (Request.Mk m u a x hs)).
Proof.
  intros Hv. revert b. induction Hv as [|c v Hc Hv IH]; intros b; [done|].
  unfold is_digit_char in Hc. cbn [pushes digits_from]. rewrite Hc.
  rewrite push_minor_eq. destruct (push_digit b (promote c)) as [x|]; cbn [mbind option_bind]; [apply IH|done].
Qed.

Lemma digits_from_class a v x : digits_from a v = Some x -> Forall (fun c => is_digit_char c = true) v.
Proof.
  revert a. induction v as [|c v IH]; intros a; cbn [digits_from]; [constructor|].
  unfold is_digit_char in *. destruct (is_digit (promote c)) eqn:E; [|done].
  destruct (push_digit a (promote c)); [|done]. intros Hv. constructor; eauto.
Qed.

Lemma accepts_method m u a b hs s q rest : is_bytes s ->
  accepts method (Request.Mk m u a b hs) s q rest <-> exists v t, s = v ++ 32 :: t
    /\ Forall (fun c => is_token c = true) v /\ accepts uri (Request.Mk (m ++ v) u a b hs) t q rest.
Proof.
  intros Hs. rewrite (accepts_until method is_token (fun c r => Some (Request.push_method c r))) with (k := 32) (st1 := uri); try done.
  - split.
    + intros (v & t & r & -> & Hv & [= <-]%(eq_trans (eq_sym (pushes_method _ _ _ _ _ _))) & Ha). eauto.
    + intros (v & t & -> & Hv & Ha). eexists v, t, _. rewrite pushes_method. eauto.
  - intros r c Hc. unfold is_token in Hc. apply negb_true_iff in Hc. cbn [consume]. rewrite Hc.
    destruct (Z.eqb_spec (promote c) 32) as [E|]; [by rewrite E in Hc|done].
  - intros r c Hc. unfold is_token in Hc. apply negb_false_iff in Hc. cbn [consume]. by rewrite Hc.
Qed.

Lemma accepts_uri m u a b hs s q rest : is_bytes s ->
  accepts uri (Request.Mk m u a b hs) s q rest <-> exists v t, s = v ++ 32 :: t
    /\ Forall (fun c => is_uri c = true) v
    /\ accepts http_version_h (Request.Mk m (u ++ v) a b hs) t q rest.
Proof.
  intros Hs. rewrite (accepts_until uri is_uri (fun c r => Some (Request.push_uri c r))) with (k := 32) (st1 := http_version_h); try done.
  - split.
    + intros (v & t & r & -> & Hv & [= <-]%(eq_trans (eq_sym (pushes_uri _ _ _ _ _ _))) & Ha). eauto.
    + intros (v & t & -> & Hv & Ha). eexists v, t, _. rewrite pushes_uri. eauto.
  - intros r c Hc. unfold is_uri in Hc. apply andb_true_iff in Hc as [H1%negb_true_iff H2%negb_true_iff].
    cbn [consume]. by rewrite H1, H2.
  - intros r c Hc. unfold is_uri in Hc. cbn [consume].
    destruct (promote c =? 32); [done|]. apply negb_false_iff in Hc. by rewrite Hc.
Qed.

Lemma accepts_major m u a b hs s q rest : is_bytes s ->
  accepts http_version_major (Request.Mk m u a b hs) s q rest <-> exists v t x, s = v ++ 46 :: t
    /\ digits_from a v = Some x
    /\ accepts http_version_minor_start (Request.Mk m u x b hs) t q rest.
Proof.
  intros Hs. rewrite (accepts_until http_version_major is_digit_char push_major) with (k := 46) (st1 := http_version_minor_start); try done.
  - split.
    + intros (v & t & r & -> & Hv & Hr & Ha). rewrite pushes_major in Hr by done.
      destruct (digits_from a v) as [x|] eqn:E; [|done]. injection Hr as <-. exists v, t, x. by splits.
    + intros (v & t & x & -> & Hv & Ha). pose proof (digits_from_class _ _ _ Hv).
      eexists v, t, _. rewrite pushes_major, Hv by done. by splits.
  - intros r c Hc. unfold is_digit_char in Hc. cbn [consume]. rewrite Hc.
    destruct (Z.eqb_spec (promote c) 46) as [E|]; [by rewrite E in Hc|].
    unfold push_major. by destruct (push_digit _ _).
  - intros r c Hc. unfold is_digit_char in Hc. cbn [consume]. by rewrite Hc.
Qed.

Lemma accepts_minor m u a b hs s q rest : is_bytes s ->
  accepts http_version_minor (Request.Mk m u a b hs) s q rest <-> exists v t x, s = v ++ 13 :: t
    /\ digits_from b v = Some x
    /\ accepts expecting_newline_1 (Request.Mk m u a x hs) t q rest.
Proof.
  intros Hs. rewrite (accepts_until http_version_minor is_digit_char push_minor) with (k := 13) (st1 := expecting_newline_1); try done.
  - split.
    + intros (v & t & r & -> & Hv & Hr & Ha). rewrite pushes_minor in Hr by done.
      destruct (digits_from b v) as [x|] eqn:E; [|done]. injection Hr as <-. exists v, t, x. by splits.
    + intros (v & t & x & -> & Hv & Ha). pose proof (digits_from_class _ _ _ Hv).
      eexists v, t, _. rewrite pushes_minor, Hv by done. by splits.
  - intros r c Hc. unfold is_digit_char in Hc. cbn [consume]. rewrite Hc.
    destruct (Z.eqb_spec (promote c) 13) as [E|]; [by rewrite E in Hc|].
    unfold push_minor. by destruct (push_digit _ _).
  - intros r c Hc. unfold is_digit_char in Hc. cbn [consume]. by rewrite Hc.
Qed.

Lemma accepts_major_start m u b hs s q rest : is_bytes s ->
  accepts http_version_major_start (Request.Mk m u 0 b hs) s q rest <-> exists v t x,
    s = v ++ 46 :: t /\ number v x
    /\ accepts http_version_minor_start (Request.Mk m u x b hs) t q rest.
Proof.
  intros Hs. destruct s as [|c s].
  { split; [by intros []%accepts_nil | by intros ([] & ? & ? & ? & [] & _)]. }
  octets. destruct (is_digit (promote c)) eqn:Hc.
  - destruct (push_digit 0 (promote c)) as [y|] eqn:Hy.
    + rewrite accepts_step by (cbn [consume Request.http_version_major]; by rewrite Hc, Hy).
      unfold Request.set_version. cbn [Request.method Request.uri Request.http_version_minor Request.headers].
      rewrite accepts_major by done. split.
      * intros (v & t & x & -> & Hv & Ha). exists (c :: v), t, x. splits; try done.
        split; [done|]. cbn [digits_from]. by rewrite Hc, Hy.
      * intros ([|c' v] & t & x & E & [? Hv] & Ha); [done|]. injection E as <- ->.
        cbn [digits_from] in Hv. rewrite Hc, Hy in Hv. exists v, t, x. by splits.
    + split; [unfold accepts; cbn [parse consume Request.http_version_major]; by rewrite Hc, Hy|].
      intros ([|c' v] & t & x & E & [? Hv] & Ha); [done|]. injection E as <- ->.
      cbn [digits_from] in Hv. by rewrite Hc, Hy in Hv.
  - split; [intros []%accepts_reject; cbn [consume]; by rewrite Hc|].
    intros ([|c' v] & t & x & E & [? Hv] & Ha); [done|]. injection E as <- ->.
    cbn [digits_from] in Hv. by rewrite Hc in Hv.
Qed.

Lemma accepts_minor_start m u a hs s q rest : is_bytes s ->
  accepts http_version_minor_start (Request.Mk m u a 0 hs) s q rest <-> exists v t x,
    s = v ++ 13 :: t /\ number v x
    /\ accepts expecting_newline_1 (Request.Mk m u a x hs) t q rest.
Proof.
  intros Hs. destruct s as [|c s].
  { split; [by intros []%accepts_nil | by intros ([] & ? & ? & ? & [] & _)]. }
  octets. destruct (is_digit (promote c)) eqn:Hc.
  - destruct (push_digit 0 (promote c)) as [y|] eqn:Hy.
    + rewrite accepts_step by (cbn [consume Request.http_version_minor]; by rewrite Hc, Hy).
      unfold Request.set_version. cbn [Request.method Request.uri Request.http_version_major Request.headers].
      rewrite accepts_minor by done. split.
      * intros (v & t & x & -> & Hv & Ha). exists (c :: v), t, x. splits; try done.
        split; [done|]. cbn [digits_from]. by rewrite Hc, Hy.
      * intros ([|c' v] & t & x & E & [? Hv] & Ha); [done|]. injection E as <- ->.
        cbn [digits_from] in Hv. rewrite Hc, Hy in Hv. exists v, t, x. by splits.
    + split; [unfold accepts; cbn [parse consume Request.http_version_minor]; by rewrite Hc, Hy|].
      intros ([|c' v] & t & x & E & [? Hv] & Ha); [done|]. injection E as <- ->.
      cbn [digits_from] in Hv. by rewrite Hc, Hy in Hv.
  - split; [intros []%accepts_reject; cbn [consume]; by rewrite Hc|].
    intros ([|c' v] & t & x & E & [? Hv] & Ha); [done|]. injection E as <- ->.
    cbn [digits_from] in Hv. by rewrite Hc in Hv.
Qed.

(** The two octets that end a line. *)
Lemma accepts_crlf req s q rest : is_bytes s ->
  accepts expecting_newline_2 req s q rest <->
  exists t, s = 10 :: t /\ accepts header_line_start req t q rest.
Proof. by apply accepts_expect. Qed.

Lemma accepts_value m u a b hs h s q rest : is_bytes s ->
  accepts header_value (Request.Mk m u a b (hs ++ [h])) s q rest <-> exists v t,
    s = v ++ CRLF ++ t /\ Forall (fun c => is_value c = true) v
    /\ accepts header_line_start (Request.Mk m u a b (hs ++ [append_value v h])) t q rest.
Proof.
  intros Hs. rewrite (accepts_until header_value is_value Request.push_header_value) with (k := 13) (st1 := expecting_newline_2); try done.
  - split.
    + intros (v & t & r & -> & Hv & Hr & Ha). rewrite pushes_value in Hr. injection Hr as <-.
      octets. apply accepts_crlf in Ha as (t' & -> & Ha); [|done]. exists v, t'. by splits.
    + intros (v & t & -> & Hv & Ha). eexists v, (10 :: t), _. rewrite pushes_value. splits; try done.
  - intros r c Hc. unfold is_value in Hc. apply negb_true_iff in Hc. cbn [consume]. rewrite Hc.
    destruct (Z.eqb_spec (promote c) 13) as [E|]; [by rewrite E in Hc|done].
  - intros r c Hc. unfold is_value in Hc. apply negb_false_iff in Hc. cbn [consume]. by rewrite Hc.
Qed.

Lemma accepts_name m u a b hs n s q rest : is_bytes s ->
  accepts header_name (Request.Mk m u a b (hs ++ [Header.Mk n []])) s q rest <-> exists n' v t,
    s = n' ++ [58; 32] ++ v ++ CRLF ++ t /\ Forall (fun c => is_token c = true) n'
    /\ Forall (fun c => is_value c = true) v
    /\ accepts header_line_start (Request.Mk m u a b (hs ++ [Header.Mk (n ++ n') v])) t q rest.
Proof.
  intros Hs. rewrite (accepts_until header_name is_token Request.push_header_name) with (k := 58) (st1 := space_before_header_value); try done.
  - split.
    + intros (n' & t & r & -> & Hn & Hr & Ha). rewrite pushes_name in Hr. injection Hr as <-.
      octets. apply accepts_expect with (k := 32) (st1 := header_value) in Ha as (t' & -> & Ha); try done.
      octets. apply accepts_value in Ha as (v & t & -> & Hv & Ha); [|done]. exists n', v, t. by splits.
    + intros (n' & v & t & -> & Hn & Hv & Ha). eexists n', (32 :: v ++ CRLF ++ t), _.
      rewrite pushes_name. splits; try done. cbn [app] in Hs. octets.
      apply accepts_expect with (k := 32) (st1 := header_value); try done; [octets|].
      eexists; split; [done|]. apply accepts_value; [octets|]. exists v, t. by splits.
  - intros r c Hc. unfold is_token in Hc. apply negb_true_iff in Hc. cbn [consume]. rewrite Hc.
    destruct (Z.eqb_spec (promote c) 58) as [E|]; [by rewrite E in Hc|done].
  - intros r c Hc. unfold is_token in Hc. apply negb_false_iff in Hc. cbn [consume]. by rewrite Hc.
Qed.

(** White space is skipped, then the value goes on or the line ends. *)
Lemma accepts_lws m u a b hs h s q rest : is_bytes s ->
  accepts header_lws (Request.Mk m u a b (hs ++ [h])) s q rest <-> exists w v t,
    s = w ++ v ++ CRLF ++ t /\ Forall (fun c => white (promote c) = true) w
    /\ Forall (fun c => is_value c = true) v /\ (forall c, head v = Some c -> white (promote c) = false)
    /\ accepts header_line_start (Request.Mk m u a b (hs ++ [append_value v h])) t q rest.
Proof.
  intros Hs. set (req := Request.Mk m u a b (hs ++ [h])).
  assert (Hin : forall r c, white (promote c) = true ->
    consume header_lws r c = (r ← Some r; next header_lws r)).
  { intros r c Hc. cbn [consume]. destruct (Z.eqb_spec (promote c) 13) as [E|]; [by rewrite E in Hc|].
    unfold white in Hc. by rewrite Hc. }
  assert (Hpush : forall w, pushes (fun _ r => Some r) req w = Some req) by (by induction w).
  rewrite (accepts_loop header_lws (fun c => white (promote c)) (fun _ r => Some r)) by done. split.
  - intros (w & c & t & r & -> & Hw & Hc & Hr & Ha). rewrite Hpush in Hr. injection Hr as <-. octets.
    destruct (Z.eqb_spec (promote c) 13) as [Ec|Hne].
    + apply promote_eq in Ec as ->; [|done..]. rewrite accepts_step in Ha by done.
      apply accepts_crlf in Ha as (t' & -> & Ha); [|done]. exists w, [], t'.
      rewrite append_value_nil. by splits.
    + assert (Hstep : consume header_lws req c = if is_ctl (promote c) then reject header_lws req
        else next header_value (Request.Mk m u a b (hs ++ [append_value [c] h]))).
      { cbn [consume]. rewrite (proj2 (Z.eqb_neq _ _) Hne). unfold white in Hc. rewrite Hc.
        unfold req. by rewrite push_value. }
      destruct (is_ctl (promote c)) eqn:Hctl; [by apply accepts_reject in Ha|].
      rewrite accepts_step in Ha by exact Hstep.
      apply accepts_value in Ha as (v & t' & -> & Hv & Ha); [|done]. exists w, (c :: v), t'.
      rewrite append_value_app in Ha. splits; try done; [|by intros ? [= <-]].
      constructor; [unfold is_value; by rewrite Hctl|done].
  - intros (w & v & t & -> & Hw & Hv & Hhd & Ha). octets. destruct v as [|c v].
    + exists w, 13, (10 :: t), req. splits; try done. rewrite append_value_nil in Ha.
      rewrite accepts_step by done. apply accepts_crlf; [|by eexists]. unfold CRLF in *. cbn in *. octets.
    + specialize (Hhd c eq_refl). apply list.Forall_cons in Hv as [Hc Hv]. unfold is_value in Hc.
      apply negb_true_iff in Hc. exists w, c, (v ++ CRLF ++ t), req. splits; try done.
      rewrite accepts_step with (st1 := header_value) (req1 := Request.Mk m u a b (hs ++ [append_value [c] h])).
      * apply accepts_value; [cbn [app] in *; octets|]. exists v, t. rewrite append_value_app. by splits.
      * cbn [consume]. destruct (Z.eqb_spec (promote c) 13) as [E|]; [by rewrite E in Hc|].
        unfold white in Hhd. rewrite Hhd, Hc. unfold req. by rewrite push_value.
Qed.

(** The three ways a line can start. *)
Lemma accepts_end req s q rest : is_bytes s ->
  accepts expecting_newline_3 req s q rest <-> s = 10 :: rest /\ q = req.
Proof.
  intros Hs. destruct s as [|c s]; [split; [by intros []%accepts_nil | by intros []]|]. octets.
  unfold accepts. cbn [parse consume mbind option_bind]. split.
  - destruct (Z.eqb_spec (promote c) 10) as [E|]; [|done]. intros [= -> ->]. apply promote_eq in E as ->; done.
  - by intros [[= -> ->] ->].
Qed.

Lemma line_end m u a b hs req c : promote c = 13 -> req = Request.Mk m u a b hs ->
  consume header_line_start req c = next expecting_newline_3 req.
Proof. intros E ->. cbn [consume]. by rewrite E. Qed.

Lemma line_continued m u a b hs h c : white (promote c) = true ->
  consume header_line_start (Request.Mk m u a b (hs ++ [h])) c
  = next header_lws (Request.Mk m u a b (hs ++ [h])).
Proof.
  intros Hc. cbn [consume Request.headers]. destruct (Z.eqb_spec (promote c) 13) as [E|]; [by rewrite E in Hc|].
  unfold white in Hc. rewrite Hc, length_app, (proj2 (Z.eqb_neq _ _)) by (cbn; lia). done.
Qed.

Lemma line_named m u a b hs c : promote c <> 13 -> hs = [] \/ white (promote c) = false ->
  consume header_line_start (Request.Mk m u a b hs) c
  = if is_token c then next header_name (Request.Mk m u a b (hs ++ [Header.Mk [c] []]))
    else reject header_line_start (Request.Mk m u a b hs).
Proof.
  intros H13 Hw. cbn [consume Request.headers]. rewrite (proj2 (Z.eqb_neq _ _) H13).
  replace (_ && _) with false.
  - unfold is_token. destruct (not_token (promote c)); [done|]. cbn [negb].
    unfold Request.set_headers. by rewrite push_name.
  - unfold white in Hw. destruct Hw as [->| ->]; [done|]. by rewrite andb_false_r.
Qed.

Lemma token_not_white c : is_token c = true -> promote c <> 13 /\ white (promote c) = false.
Proof.
  intros Hc. unfold white. split.
  - intros E. unfold is_token in Hc; by rewrite E in Hc.
  - apply orb_false_iff. split; apply Z.eqb_neq; intros E; unfold is_token in Hc; by rewrite E in Hc.
Qed.

Lemma token_forall n : token n <-> n <> [] /\ Forall (fun c => is_token c = true) n.
Proof.
  unfold token, is_token. by setoid_rewrite negb_true_iff.
Qed.

Lemma value_forall v : value_text v <-> Forall (fun c => is_value c = true) v.
Proof. unfold value_text, is_value. by setoid_rewrite negb_true_iff. Qed.

Lemma accepts_lines_complete m u a b hs text hs' rest :
  header_lines hs text hs' -> is_bytes (text ++ rest) ->
  accepts header_line_start (Request.Mk m u a b hs) (text ++ rest) (Request.Mk m u a b hs') rest.
Proof.
  induction 1 as [hs|hs h w v s hs' Hw Hwf Hv Hhd Hl IH|hs n v s hs' Hn Hv Hl IH]; intros Hs.
  - change (CRLF ++ rest) with (13 :: 10 :: rest) in *. octets.
  - destruct w as [|c w]; [done|]. apply list.Forall_cons in Hwf as [Hc Hwf].
    cbn [app] in *. rewrite accepts_step by (by apply line_continued).
    repeat rewrite <- app_assoc in *. octets. apply accepts_lws; [octets|].
    exists w, v, (s ++ rest). apply value_forall in Hv. splits; try done. by apply IH; octets.
  - apply token_forall in Hn as [Hn Hnf]. destruct n as [|c n]; [done|].
    apply list.Forall_cons in Hnf as [Hc Hnf]. pose proof (token_not_white c Hc) as [H13 Hcw].
    cbn [app] in *. rewrite accepts_step with (st1 := header_name) (req1 := Request.Mk m u a b (hs ++ [Header.Mk [c] []]))
      by (rewrite line_named by auto; by rewrite Hc).
    repeat rewrite <- app_assoc in *. octets. apply accepts_name; [octets|].
    exists n, v, (s ++ rest). apply value_forall in Hv. splits; try done; [|by apply IH; octets].
    cbn [app]. by repeat rewrite <- app_assoc.
Qed.

Lemma accepts_lines_sound m u a b hs s q rest : is_bytes s ->
  accepts header_line_start (Request.Mk m u a b hs) s q rest ->
  exists text hs', s = text ++ rest /\ q = Request.Mk m u a b hs' /\ header_lines hs text hs'.
Proof.
  remember (List.length s) as k eqn:Ek. revert hs s Ek.
  induction k as [k IH] using lt_wf_ind. intros hs s -> Hs Ha.
  destruct s as [|c s]; [by apply accepts_nil in Ha|]. octets.
  destruct (Z.eqb_spec (promote c) 13) as [E|H13].
  { rewrite (accepts_step _ _ _ _ _ _ _ _ (line_end m u a b hs _ c E eq_refl)) in Ha.
    apply promote_eq in E as ->; [|done..]. apply accepts_end in Ha as [-> ->]; [|done].
    exists CRLF, hs. splits; try done. constructor. }
  destruct (white (promote c) && negb (zlen hs =? 0)) eqn:Hw.
  - apply andb_true_iff in Hw as [Hw Hne]. destruct hs as [|h hs _] using rev_ind; [done|].
    rewrite (accepts_step _ _ _ _ _ _ _ _ (line_continued m u a b hs h c Hw)) in Ha.
    apply accepts_lws in Ha as (w & v & t & -> & Hwf & Hv & Hhd & Ha); [|done].
    octets. apply (IH (List.length t)) in Ha as (text & hs' & -> & -> & Hl); [|repeat (rewrite ?length_app; cbn [List.length]); lia|done..].
    exists ((c :: w) ++ v ++ CRLF ++ text), hs'. splits; [|done|].
    + cbn [app]. by repeat rewrite <- app_assoc.
    + apply continued_line; [done|by constructor|by apply value_forall|done..].
  - assert (Hw' : hs = [] \/ white (promote c) = false).
    { apply andb_false_iff in Hw as [Hw|Hw]; [by right|left]. by destruct hs. }
    pose proof (line_named m u a b hs c H13 Hw') as Hstep.
    destruct (is_token c) eqn:Hc; [|by apply accepts_reject in Ha].
    rewrite (accepts_step _ _ _ _ _ _ _ _ Hstep) in Ha.
    apply accepts_name in Ha as (n & v & t & -> & Hn & Hv & Ha); [|done].
    octets. apply (IH (List.length t)) in Ha as (text & hs' & -> & -> & Hl); [|repeat (rewrite ?length_app; cbn [List.length]); lia|done..].
    exists ((c :: n) ++ [58; 32] ++ v ++ CRLF ++ text), hs'. splits; [|done|].
    + cbn [app]. repeat (rewrite <- app_assoc; cbn [app]). done.
    + apply header_line; [|by apply value_forall|done]. apply token_forall. split; [done|]. by constructor.
Qed.

Lemma accepts_slash m u a b hs s q rest : is_bytes s ->
  accepts http_version_slash (Request.Mk m u a b hs) s q rest <->
  exists t, s = 47 :: t /\ accepts http_version_major_start (Request.Mk m u 0 0 hs) t q rest.
Proof.
  intros Hs. destruct s as [|c s].
  { split; [by intros []%accepts_nil | by intros (t & ? & _)]. }
  octets. destruct (Z.eqb_spec (promote c) 47) as [E|Hne].
  - rewrite accepts_step by (cbn [consume]; by rewrite E). apply promote_eq in E as ->; [|done..].
    split; [eauto | by intros (t & [= ->] & ?)].
  - split.
    + intros []%accepts_reject. cbn [consume]. by rewrite (proj2 (Z.eqb_neq _ _) Hne).
    + intros (t & [= -> ->] & _). by rewrite promote_small in Hne.
Qed.

(** One expected octet, read from a hypothesis or in the goal. *)
Ltac octet_read octet nxt H s :=
  apply accepts_expect with (k := octet) (st1 := nxt) in H as (s & -> & H); [|done..|octets]; octets.

Ltac octet_expected octet nxt :=
  apply accepts_expect with (k := octet) (st1 := nxt); [done..|octets|]; eexists; split; [done|].

Lemma accepts_version m u a b hs s q rest : is_bytes s ->
  accepts http_version_h (Request.Mk m u a b hs) s q rest <-> exists d x d' x' t,
    s = bytes_of "HTTP/" ++ d ++ [46] ++ d' ++ CRLF ++ t /\ number d x /\ number d' x'
    /\ accepts header_line_start (Request.Mk m u x x' hs) t q rest.
Proof.
  intros Hs. change (bytes_of "HTTP/") with [72; 84; 84; 80; 47]. split.
  - intros Ha.
    octet_read 72 http_version_t_1 Ha s1.
    octet_read 84 http_version_t_2 Ha s2.
    octet_read 84 http_version_p Ha s3.
    octet_read 80 http_version_slash Ha s4.
    apply accepts_slash in Ha as (s5 & -> & Ha); [|done]. octets.
    apply accepts_major_start in Ha as (d & s6 & x & -> & Hd & Ha); [|done]. octets.
    apply accepts_minor_start in Ha as (d' & s7 & x' & -> & Hd' & Ha); [|done]. octets.
    apply accepts_expect with (k := 10) (st1 := header_line_start) in Ha as (t & -> & Ha); [|done..].
    exists d, x, d', x', t. by splits.
  - intros (d & x & d' & x' & t & -> & Hd & Hd' & Ha). cbn [app CRLF] in *. octets.
    octet_expected 72 http_version_t_1.
    octet_expected 84 http_version_t_2.
    octet_expected 84 http_version_p.
    octet_expected 80 http_version_slash.
    apply accepts_slash; [octets|]. eexists; split; [done|].
    apply accepts_major_start; [octets|]. eexists d, _, x. splits; [done..|].
    apply accepts_minor_start; [octets|]. eexists d', _, x'. splits; [done..|].
    apply accepts_expect with (k := 10) (st1 := header_line_start); [done..|octets|]. by eexists.
Qed.

Lemma accepts_start m u a b hs s q rest : is_bytes s -> m = [] -> u = [] ->
  accepts method_start (Request.Mk m u a b hs) s q rest <-> exists m' u' t,
    s = m' ++ 32 :: u' ++ 32 :: t /\ token m' /\ uri_text u'
    /\ accepts http_version_h (Request.Mk m' u' a b hs) t q rest.
Proof.
  intros Hs -> ->.
  assert (Huri : forall v, uri_text v <-> Forall (fun c => is_uri c = true) v).
  { intros v. unfold uri_text, is_uri. setoid_rewrite andb_true_iff. setoid_rewrite negb_true_iff.
    by setoid_rewrite Z.eqb_neq. }
  destruct s as [|c s].
  { split; [by intros []%accepts_nil | by intros ([] & ? & ? & ? & [] & _)]. }
  assert (Hstep : consume method_start (Request.Mk [] [] a b hs) c = if is_token c
    then next method (Request.Mk [c] [] a b hs) else reject method_start (Request.Mk [] [] a b hs)).
  { cbn [consume]. unfold is_token. by destruct (not_token _). }
  octets. destruct (is_token c) eqn:Hc.
  - rewrite (accepts_step _ _ _ _ _ _ _ _ Hstep). rewrite accepts_method by done. split.
    + intros (m' & t & -> & Hm & Ha). octets. apply accepts_uri in Ha as (u' & t' & -> & Hu & Ha); [|done].
      exists (c :: m'), u', t'. splits; try done; [|by apply Huri].
      apply token_forall. split; [done|by constructor].
    + intros (m' & u' & t & E & [Hm Hmf]%token_forall & Hu%Huri & Ha). destruct m' as [|c' m']; [done|].
      injection E as <- ->. octets. apply list.Forall_cons in Hmf as [_ Hmf]. eexists m', _. splits; try done.
      apply accepts_uri; [octets|]. by exists u', t.
  - split; [by intros []%accepts_reject|].
    intros (m' & u' & t & E & [Hm Hmf]%token_forall & _). destruct m' as [|c' m']; [done|].
    injection E as <- ->. apply list.Forall_cons in Hmf as [Hmf _]. congruence.
Qed.

Lemma consume_good st req c st' req' :
  consume st req c = Some (good, st', req') -> st' = expecting_newline_3.
Proof.
  destruct st; cbn [consume]; unfold expect, next, reject; cbv zeta;
    repeat case_match; try discriminate; intros E; repeat (apply bind_Some in E as (? & ? & E)); try discriminate; by injection E.
Qed.

Lemma parse_good st req s st' req' rest :
  parse st req s = Some (good, st', req', rest) <-> st' = expecting_newline_3 /\ accepts st req s req' rest.
Proof.
  split; [|by intros [-> ?]]. intros Hp. enough (st' = expecting_newline_3) as -> by done.
  revert st req Hp. induction s as [|c s IH]; intros st req; cbn [parse]; [done|].
  destruct (consume st req c) as [[[[] st1] req1]|] eqn:E; try done; cbn [mbind option_bind].
  - intros [= -> -> ->]. by eapply consume_good.
  - apply IH.
Qed.

Lemma parse_exact (g1 g2 : Z) (s : bytes) st req rest : is_bytes s ->
  parse new (Request.new g1 g2) s = Some (good, st, req, rest) <->
  st = expecting_newline_3 /\ exists text, s = text ++ rest /\ request_text req text.
Proof.
  intros Hs. rewrite parse_good. apply and_iff_compat_l. unfold Request.new, new.
  rewrite accepts_start by done. split.
  - intros (m & u & s1 & -> & Hm & Hu & Ha). octets.
    apply accepts_version in Ha as (d & x & d' & x' & s2 & -> & Hd & Hd' & Ha); [|done]. octets.
    apply accepts_lines_sound in Ha as (text & hs & -> & -> & Hl); [|done].
    eexists. split; [|by apply request_lines with (dmajor := d) (dminor := d') (lines := text)].
    repeat (rewrite <- app_assoc; cbn [app]). done.
  - intros (text & -> & Ht). destruct Ht as [m u x x' hs d d' lines Hm Hu Hd Hd' Hl].
    repeat (rewrite <- app_assoc in *; cbn [app] in *). octets.
    eexists m, u, _. splits; [done..|]. apply accepts_version; [octets|].
    exists d, x, d', x', (lines ++ rest). splits; [by cbn [app]|done..|]. apply accepts_lines_complete; octets.
Qed.

(** C25. The parser of the signalling server accepts exactly the requests of the grammar
    [request_text] — a method token, a target without spaces or controls, HTTP/digits.digits,
    header lines with folded continuation lines, an empty line — and yields the request they
    denote: for every sequence of octets the result is [good] with request [req] and unread
    input [rest] iff the octets are a text of [req] followed by [rest]. *)
Theorem http_parse_exact (g1 g2 : Z) (s : bytes) st req rest : is_bytes s ->
  parse new (Request.new g1 g2) s = Some (good, st, req, rest) <->
  st = expecting_newline_3 /\ exists text, s = text ++ rest /\ request_text req text.
Proof. apply parse_exact. Qed.

Lemma parse_app st req (a b : bytes) :
  parse st req (a ++ b) =
  match parse st req a with
  | Some (indeterminate, st', req', _) => parse st' req' b
  | Some (result, st', req', rest) => Some (result, st', req', rest ++ b)
  | None => None
  end.
Proof.
  revert st req. induction a as [|c a IH]; intros st req; cbn [parse app]; [done|].
  destruct (consume st req c) as [[[[] st1] req1]|]; cbn [mbind option_bind]; done.
Qed.

Lemma parse_indeterminate st req s st' req' rest :
  parse st req s = Some (indeterminate, st', req', rest) -> rest = [].
Proof.
  revert st req. induction s as [|c s IH]; intros st req; cbn [parse]; [by intros [=]|].
  destruct (consume st req c) as [[[[] st1] req1]|]; cbn [mbind option_bind]; try done. apply IH.
Qed.

(** The parser does not depend on how the network cuts its input: parsing two pieces one
    after the other, as the connection does, is parsing their concatenation; what follows a
    complete or rejected request stays unread. *)
Theorem http_parse_incremental st req (a b : bytes) :
  parse st req (a ++ b) =
  match parse st req a with
  | Some (indeterminate, st', req', _) => parse st' req' b
  | Some (result, st', req', rest) => Some (result, st', req', rest ++ b)
  | None => None
  end.
Proof. apply parse_app. Qed.

(** ** Undefined behaviour *)

(** What holds of the parser after the octets [seen], as long as no run of digits
    in them is longer than nine. *)
Definition digits_below (seen : bytes) (v : Z) : Prop :=
  exists p d, seen = p ++ d /\ Forall (fun c => is_digit_char c = true) d /\ 0 <= v < 10 ^ zlen d.

Definition parser_inv (seen : bytes) (st : state) (req : Request.t) : Prop :=
  match st with
  | http_version_major_start => Request.http_version_major req = 0 /\ Request.http_version_minor req = 0
  | http_version_major =>
      digits_below seen (Request.http_version_major req) /\ Request.http_version_minor req = 0
  | http_version_minor_start => Request.http_version_minor req = 0
  | http_version_minor => digits_below seen (Request.http_version_minor req)
  | header_lws | header_name | space_before_header_value | header_value =>
      exists hs h, Request.headers req = hs ++ [h]
  | _ => True
  end.

Definition short_numbers (s : bytes) : Prop :=
  forall p d t, s = p ++ d ++ t -> Forall (fun c => is_digit_char c = true) d -> zlen d <= 9.

Lemma digits_below_nil seen : digits_below seen 0.
Proof. exists seen, []. by rewrite app_nil_r. Qed.

Lemma push_digit_below seen v c : digits_below seen v -> is_digit_char c = true ->
  short_numbers (seen ++ [c]) ->
  exists v', push_digit v (promote c) = Some v' /\ digits_below (seen ++ [c]) v'.
Proof.
  intros (p & d & -> & Hd & Hv) Hc Hs.
  assert (Hd' : Forall (fun c => is_digit_char c = true) (d ++ [c])) by (apply list.Forall_app; auto).
  specialize (Hs p (d ++ [c]) []). rewrite app_nil_r, app_assoc in Hs.
  specialize (Hs eq_refl Hd'). rewrite length_app in Hs. cbn [List.length] in Hs.
  pose proof Hc as Hdig. unfold is_digit_char, is_digit in Hdig.
  pose proof (Z.pow_le_mono_r 10 (zlen d) 8). unfold push_digit, INT_MAX.
  exists (v * 10 + promote c - 48). split.
  - unfold check. rewrite !(proj2 (andb_true_iff _ _)), (proj2 (Z.leb_le _ _)) by lia. done.
  - exists p, (d ++ [c]). rewrite app_assoc. split_and!; [done|done|lia|].
    rewrite length_app. cbn [List.length]. rewrite Nat2Z.inj_add, Z.pow_add_r by lia. lia.
Qed.

Lemma back_header (f : Header.t -> Header.t) r hs h : Request.headers r = hs ++ [h] ->
  exists r', Request.update_back f r = Some r' /\ exists hs' h', Request.headers r' = hs' ++ [h'].
Proof. intros E. rewrite (update_back_snoc f hs h r E). eauto. Qed.

Lemma back_new (f : Header.t -> Header.t) r h :
  exists r', Request.update_back f (Request.set_headers (Request.headers r ++ [h]) r) = Some r'
    /\ exists hs' h', Request.headers r' = hs' ++ [h'].
Proof. by apply back_header with (Request.headers r) h. Qed.

Lemma consume_defined seen st req c : parser_inv seen st req -> short_numbers (seen ++ [c]) ->
  exists result st' req', consume st req c = Some (result, st', req')
    /\ (result = indeterminate -> parser_inv (seen ++ [c]) st' req').
Proof.
  intros Hinv Hs.
  assert (Hdigit : forall v, digits_below seen v -> is_digit (promote c) = true -> exists v',
    push_digit v (promote c) = Some v' /\ digits_below (seen ++ [c]) v')
    by (intros v Hv Hc; by apply push_digit_below).
  assert (Hback : forall f, (exists hs h, Request.headers req = hs ++ [h]) -> exists r',
    Request.update_back f req = Some r' /\ exists hs' h', Request.headers r' = hs' ++ [h'])
    by (intros f (hs & h & E); by eapply back_header).
  pose proof (digits_below_nil seen) as H0.
  destruct st; cbn [consume parser_inv] in *; unfold expect, next, reject,
    Request.push_header_name, Request.push_header_value; cbv zeta;
    repeat case_match; try (by eexists _, _, _);
  try match goal with
    | |- context [push_digit ?v _] =>
        destruct (Hdigit v) as (v' & -> & ?); [intuition congruence|done|];
        cbn [mbind option_bind]; eexists _, _, _; split; [done|]; cbn; intuition
    | |- context [Request.update_back ?f req] =>
        destruct (Hback f Hinv) as (r' & -> & ?); cbn [mbind option_bind]; by eexists _, _, _
    | |- context [Request.update_back ?f _] =>
        destruct (back_new f req (Header.Mk [] [])) as (r' & -> & ?); cbn [mbind option_bind];
        by eexists _, _, _
    end.
  - eexists _, _, _. split; [done|]. intros _. apply Hinv.
  - eexists _, _, _. split; [done|]. intros _. cbn [parser_inv].
    destruct (Request.headers req) as [|h hs _] using rev_ind; [done|]. by exists hs, h.
Qed.

Lemma short_numbers_prefix a b : short_numbers (a ++ b) -> short_numbers a.
Proof.
  intros Hs p d t E. apply (Hs p d (t ++ b)). rewrite E. by repeat rewrite <- app_assoc.
Qed.

Lemma parse_defined seen st req s : parser_inv seen st req -> short_numbers (seen ++ s) ->
  is_Some (parse st req s).
Proof.
  revert seen st req. induction s as [|c s IH]; intros seen st req Hinv Hs; cbn [parse]; [done|].
  change (c :: s) with ([c] ++ s) in Hs. rewrite app_assoc in Hs.
  destruct (consume_defined seen st req c Hinv (short_numbers_prefix _ _ Hs)) as (r & st1 & req1 & -> & Hinv').
  cbn [mbind option_bind]. destruct r; [done..|]. by apply (IH (seen ++ [c])); [apply Hinv'|].
Qed.

(** The only undefined behaviour of the parser is the overflow of the version numbers:
    on an input with no run of more than nine digits every step is defined (no [back()] of an
    empty vector, no [int] overflow), whatever the octets and the uninitialised members of
    the request; the input ends in [good], [bad] or [indeterminate]. *)
Theorem http_parse_defined (g1 g2 : Z) (s : bytes) : short_numbers s ->
  is_Some (parse new (Request.new g1 g2) s).
Proof. intros Hs. by apply (parse_defined [] new). Qed.

(** A version number beyond [int]: undefined behaviour that any client can cause. *)
Lemma version_overflow g1 g2 :
  parse new (Request.new g1 g2) (bytes_of "GET / HTTP/2147483648") = None.
Proof. done. Qed.

(** ** Concrete requests *)

Definition sample_text : bytes :=
  bytes_of "GET /a.html HTTP/1.1" ++ CRLF ++ bytes_of "Host: x" ++ CRLF
  ++ bytes_of " y" ++ CRLF ++ CRLF.

Definition sample_request : Request.t :=
  Request.Mk (bytes_of "GET") (bytes_of "/a.html") 1 1
    [Header.Mk (bytes_of "Host") (bytes_of "xy")].

Lemma http_parse_exact_witness : is_bytes sample_text /\ request_text sample_request sample_text.
Proof.
  assert (H : is_bytes sample_text) by decide_wf. split; [exact H|].
  destruct (proj1 (http_parse_exact 7 7 sample_text expecting_newline_3 sample_request [] H)
    ltac:(vm_compute; reflexivity)) as [_ (text & E & Ht)].
  rewrite app_nil_r in E. rewrite E. exact Ht.
Defined.

Fixpoint digit_run (n : Z) (s : bytes) : bool :=
  match s with
  | [] => true
  | c :: s' => if is_digit_char c then (n <? 9) && digit_run (n + 1) s' else digit_run 0 s'
  end.

Lemma digit_run_bound n s : 0 <= n -> digit_run n s = true -> forall d t, s = d ++ t ->
  Forall (fun c => is_digit_char c = true) d -> d = [] \/ n + zlen d <= 9.
Proof.
  intros Hn Hr d. revert n s Hn Hr. induction d as [|c d IH]; intros n s Hn Hr t -> Hd; [by left|].
  apply list.Forall_cons in Hd as [Hc Hd]. cbn [digit_run app] in Hr. rewrite Hc in Hr.
  apply andb_true_iff in Hr as [Hlt%Z.ltb_lt Hr]. right. cbn [List.length].
  destruct (IH (n + 1) (d ++ t) ltac:(lia) Hr t eq_refl Hd) as [->|]; cbn [List.length] in *; lia.
Qed.

Lemma digit_run_tail n p s : 0 <= n -> digit_run n (p ++ s) = true -> exists m, 0 <= m /\ digit_run m s = true.
Proof.
  revert n. induction p as [|c p IH]; intros n Hn; cbn [digit_run app]; [eauto|].
  destruct (is_digit_char c).
  - intros [_ Hr]%andb_true_iff. apply (IH (n + 1)); [lia|done].
  - by apply IH.
Qed.

Lemma short_numbers_check s : digit_run 0 s = true -> short_numbers s.
Proof.
  intros Hr p d t -> Hd. destruct (digit_run_tail 0 p (d ++ t)) as (m & Hm & Hr'); [lia|done|].
  destruct (digit_run_bound m _ Hm Hr' d t eq_refl Hd) as [->|]; cbn [List.length]; lia.
Qed.

Lemma http_parse_defined_witness : is_Some (parse new (Request.new 7 7) sample_text).
Proof. apply http_parse_defined. apply short_numbers_check. vm_compute. reflexivity. Defined.
