(* ===== verification/HttpReply.v ===== *)
(** * The replies of the signalling server: signal_server/reply.{hpp,cpp} and
      mime_types.cpp

    Strings are lists of octets; a vector of asio buffers is the list of the octet strings
    it refers to, and what the socket sends is their concatenation.  The status has the
    enumerators of the source only, so the [default] branches (which answer 500) have no
    counterpart.  [read_reply] is a reference reader of HTTP/1.0 replies. *)

From S2P Require Import Prelude.
From S2P Require Import HttpParser.
From Stdlib Require Import (notations) String.

Module MimeTypes.

Definition mappings : list (bytes * bytes) := [
  (bytes_of "gif", bytes_of "image/gif");
  (bytes_of "htm", bytes_of "text/html");
  (bytes_of "html", bytes_of "text/html");
  (bytes_of "jpg", bytes_of "image/jpeg");
  (bytes_of "png", bytes_of "image/png")
].

(** The range-for over the mappings. *)
Fixpoint lookup_type (extension : bytes) (ms : list (bytes * bytes)) : bytes :=
  match ms with
  | [] => bytes_of "text/plain"
  | (e, t) :: ms' => if decide (e = extension) then t else lookup_type extension ms'
  end.

Definition extension_to_type (extension : bytes) : bytes := lookup_type extension mappings.

End MimeTypes.

Module Reply.

Inductive status_type :=
  | ok
  | created
  | accepted
  | no_content
  | multiple_choices
  | moved_permanently
  | moved_temporarily
  | not_modified
  | bad_request
  | unauthorized
  | forbidden
  | not_found
  | internal_server_error
  | not_implemented
  | bad_gateway
  | service_unavailable.

(** The values of the enumerators. *)
Definition status_value (s : status_type) : Z :=
  match s with
  | ok => 200
  | created => 201
  | accepted => 202
  | no_content => 204
  | multiple_choices => 300
  | moved_permanently => 301
  | moved_temporarily => 302
  | not_modified => 304
  | bad_request => 400
  | unauthorized => 401
  | forbidden => 403
  | not_found => 404
  | internal_server_error => 500
  | not_implemented => 501
  | bad_gateway => 502
  | service_unavailable => 503
  end.

Record t := Mk { status : status_type; headers : list Header.t; content : bytes }.

(** status_strings::to_buffer *)
Definition status_string (s : status_type) : bytes :=
  match s with
  | ok => bytes_of "HTTP/1.0 200 OK" ++ CRLF
  | created => bytes_of "HTTP/1.0 201 Created" ++ CRLF
  | accepted => bytes_of "HTTP/1.0 202 Accepted" ++ CRLF
  | no_content => bytes_of "HTTP/1.0 204 No Content" ++ CRLF
  | multiple_choices => bytes_of "HTTP/1.0 300 Multiple Choices" ++ CRLF
  | moved_permanently => bytes_of "HTTP/1.0 301 Moved Permanently" ++ CRLF
  | moved_temporarily => bytes_of "HTTP/1.0 302 Moved Temporarily" ++ CRLF
  | not_modified => bytes_of "HTTP/1.0 304 Not Modified" ++ CRLF
  | bad_request => bytes_of "HTTP/1.0 400 Bad Request" ++ CRLF
  | unauthorized => bytes_of "HTTP/1.0 401 Unauthorized" ++ CRLF
  | forbidden => bytes_of "HTTP/1.0 403 Forbidden" ++ CRLF
  | not_found => bytes_of "HTTP/1.0 404 Not Found" ++ CRLF
  | internal_server_error => bytes_of "HTTP/1.0 500 Internal Server Error" ++ CRLF
  | not_implemented => bytes_of "HTTP/1.0 501 Not Implemented" ++ CRLF
  | bad_gateway => bytes_of "HTTP/1.0 502 Bad Gateway" ++ CRLF
  | service_unavailable => bytes_of "HTTP/1.0 503 Service Unavailable" ++ CRLF
  end.

(** stock_replies::to_string *)
Definition stock_content (s : status_type) : bytes :=
  match s with
  | ok => []
  | created => bytes_of "<html><head><title>Created</title></head><body><h1>201 Created</h1></body></html>"
  | accepted => bytes_of "<html><head><title>Accepted</title></head><body><h1>202 Accepted</h1></body></html>"
  | no_content => bytes_of "<html><head><title>No Content</title></head><body><h1>204 Content</h1></body></html>"
  | multiple_choices => bytes_of "<html><head><title>Multiple Choices</title></head><body><h1>300 Multiple Choices</h1></body></html>"
  | moved_permanently => bytes_of "<html><head><title>Moved Permanently</title></head><body><h1>301 Moved Permanently</h1></body></html>"
  | moved_temporarily => bytes_of "<html><head><title>Moved Temporarily</title></head><body><h1>302 Moved Temporarily</h1></body></html>"
  | not_modified => bytes_of "<html><head><title>Not Modified</title></head><body><h1>304 Not Modified</h1></body></html>"
  | bad_request => bytes_of "<html><head><title>Bad Request</title></head><body><h1>400 Bad Request</h1></body></html>"
  | unauthorized => bytes_of "<html><head><title>Unauthorized</title></head><body><h1>401 Unauthorized</h1></body></html>"
  | forbidden => bytes_of "<html><head><title>Forbidden</title></head><body><h1>403 Forbidden</h1></body></html>"
  | not_found => bytes_of "<html><head><title>Not Found</title></head><body><h1>404 Not Found</h1></body></html>"
  | internal_server_error => bytes_of "<html><head><title>Internal Server Error</title></head><body><h1>500 Internal Server Error</h1></body></html>"
  | not_implemented => bytes_of "<html><head><title>Not Implemented</title></head><body><h1>501 Not Implemented</h1></body></html>"
  | bad_gateway => bytes_of "<html><head><title>Bad Gateway</title></head><body><h1>502 Bad Gateway</h1></body></html>"
  | service_unavailable => bytes_of "<html><head><title>Service Unavailable</title></head><body><h1>503 Service Unavailable</h1></body></html>"
  end.

Definition name_value_separator : bytes := [58; 32].

Definition crlf : bytes := [13; 10].

(** std::to_string of a size. *)
Fixpoint decimal (fuel : nat) (n : Z) (acc : bytes) : bytes :=
  match fuel with
  | O => acc
  | S fuel =>
      let acc := (48 + n mod 10) :: acc in
      if n <? 10 then acc else decimal fuel (n / 10) acc
  end.

Definition to_string (n : Z) : bytes := decimal (S (Z.to_nat (Z.log2 n))) n [].

Definition header_buffers (h : Header.t) : list bytes :=
  [Header.name h; name_value_separator; Header.value h; crlf].

Definition to_buffers (rep : t) : list bytes :=
  [status_string (status rep)] ++ concat (map header_buffers (headers rep)) ++ [crlf; content rep].

(** headers.resize(2) and the two assignments after it. *)
Definition set_headers (content type : bytes) : list Header.t :=
  [Header.Mk (bytes_of "Content-Length") (to_string (zlen content));
   Header.Mk (bytes_of "Content-Type") type].

Definition stock_reply (s : status_type) : t :=
  let content := stock_content s in
  Mk s (set_headers content (bytes_of "text/html")) content.

End Reply.

Import Reply.

(** ** A reference reader of replies *)

(** The octets before the first occurrence of the pair [a b], and those after it. *)
Fixpoint split_at (a b : Z) (s : bytes) : option (bytes * bytes) :=
  match s with
  | x :: (y :: r) as s' =>
      if (x =? a) && (y =? b) then Some ([], r)
      else '(l, t) ← split_at a b s'; Some (x :: l, t)
  | _ => None
  end.

Definition read_line : bytes -> option (bytes * bytes) := split_at 13 10.

Fixpoint read_headers (fuel : nat) (s : bytes) : option (list Header.t * bytes) :=
  match fuel with
  | O => None
  | S fuel =>
      '(line, s) ← read_line s;
      match line with
      | [] => Some ([], s)
      | _ =>
          '(name, value) ← split_at 58 32 line;
          '(hs, s) ← read_headers fuel s;
          Some (Header.Mk name value :: hs, s)
      end
  end.

Fixpoint read_decimal (v : Z) (s : bytes) : option Z :=
  match s with
  | [] => Some v
  | c :: s' => if RequestParser.is_digit c then read_decimal (v * 10 + (c - 48)) s' else None
  end.

Definition find_header (name : bytes) (hs : list Header.t) : option bytes :=
  Header.value <$> List.find (fun h => bool_decide (Header.name h = name)) hs.

(** Status line, headers, content of the announced length, and the octets after it. *)
Definition read_reply (s : bytes) : option (bytes * list Header.t * bytes * bytes) :=
  '(line, s) ← read_line s;
  '(hs, s) ← read_headers (List.length s) s;
  v ← find_header (bytes_of "Content-Length") hs;
  n ← read_decimal 0 v;
  check (n <=? zlen s) ;;
  Some (line, hs, firstn (Z.to_nat n) s, skipn (Z.to_nat n) s).

(** ** The length as a number *)

Lemma read_decimal_app v s t : read_decimal v (s ++ t) = (x ← read_decimal v s; read_decimal x t).
Proof.
  revert v. induction s as [|c s IH]; intros v; cbn [read_decimal app]; [done|].
  by destruct (RequestParser.is_digit c).
Qed.

Lemma read_digit v n : 0 <= n < 10 -> read_decimal v [48 + n] = Some (v * 10 + n).
Proof.
  intros Hn. cbn [read_decimal]. unfold RequestParser.is_digit.
  rewrite (proj2 (andb_true_iff _ _)) by lia. f_equal. lia.
Qed.

Lemma decimal_app fuel n acc : decimal fuel n acc = decimal fuel n [] ++ acc.
Proof.
  revert n acc. induction fuel as [|fuel IH]; intros n acc; cbn [decimal]; [done|].
  destruct (n <? 10); [done|]. rewrite IH, (IH _ [_]), <- app_assoc. done.
Qed.

Lemma decimal_digits fuel n acc : 0 <= n -> Forall (fun c => RequestParser.is_digit c = true) acc ->
  Forall (fun c => RequestParser.is_digit c = true) (decimal fuel n acc).
Proof.
  revert n acc. induction fuel as [|fuel IH]; intros n acc Hn Hacc; cbn [decimal]; [done|].
  assert (RequestParser.is_digit (48 + n mod 10) = true)
    by (unfold RequestParser.is_digit; apply andb_true_iff; dlia).
  destruct (n <? 10); [by constructor|]. apply IH; [dlia|by constructor].
Qed.

Lemma read_decimal_decimal fuel n : 0 <= n < 2 ^ Z.of_nat fuel ->
  read_decimal 0 (decimal fuel n []) = Some n.
Proof.
  revert n. induction fuel as [|fuel IH]; intros n Hn.
  - cbn in *. f_equal. lia.
  - cbn [decimal]. destruct (Z.ltb_spec n 10) as [Hlt|Hge].
    + rewrite read_digit by dlia. f_equal. dlia.
    + rewrite decimal_app, read_decimal_app, IH.
      * cbn [mbind option_bind]. rewrite read_digit by dlia. f_equal. dlia.
      * rewrite Nat2Z.inj_succ, Z.pow_succ_r in Hn by lia. dlia.
Qed.

Lemma to_string_digits n : 0 <= n -> Forall (fun c => RequestParser.is_digit c = true) (to_string n).
Proof. intros Hn. apply decimal_digits; [done|constructor]. Qed.

Lemma read_to_string n : 0 <= n -> read_decimal 0 (to_string n) = Some n.
Proof.
  intros Hn. apply read_decimal_decimal. split; [done|].
  rewrite Nat2Z.inj_succ, Z2Nat.id by apply Z.log2_nonneg.
  destruct (Z.eq_dec n 0) as [->|]; [done|]. apply Z.log2_spec. lia.
Qed.

(** ** Framing *)

(** No occurrence of [a]. *)
Definition free_of (a : Z) (s : bytes) : Prop := Forall (fun c => c <> a) s.

Lemma split_at_here a b l t : free_of a l -> split_at a b (l ++ a :: b :: t) = Some (l, t).
Proof.
  induction 1 as [|c l Hc Hl IH]; cbn [app].
  - cbn [split_at]. by rewrite !Z.eqb_refl.
  - destruct (l ++ a :: b :: t) as [|y r] eqn:E; [by destruct l|].
    cbn [split_at] in *. by rewrite (proj2 (Z.eqb_neq _ _) Hc), IH.
Qed.

Definition clean_header (h : Header.t) : Prop :=
  Header.name h <> [] /\ free_of 58 (Header.name h)
  /\ free_of 13 (Header.name h) /\ free_of 13 (Header.value h).

Lemma read_headers_here hs t fuel : Forall clean_header hs -> (List.length hs < fuel)%nat ->
  read_headers fuel (concat (concat (map header_buffers hs)) ++ crlf ++ t) = Some (hs, t).
Proof.
  intros Hhs. revert fuel.
  induction Hhs as [|[n v] hs (Hn & Hn58 & Hn13 & Hv13) Hhs IH]; intros fuel Hf;
    (destruct fuel as [|fuel]; [lia|]); cbn [read_headers].
  - unfold read_line. cbn [map concat app]. change (crlf ++ t) with ([] ++ 13 :: 10 :: t).
    by rewrite split_at_here by constructor.
  - cbn [map concat header_buffers app Header.name Header.value] in *.
    assert (E : forall T, (n ++ name_value_separator ++ v ++ crlf ++ T) ++ crlf ++ t
      = (n ++ 58 :: 32 :: v) ++ 13 :: 10 :: T ++ crlf ++ t)
      by (intros T; unfold name_value_separator, crlf; by repeat (rewrite <- app_assoc; cbn [app])).
    rewrite E. unfold read_line. rewrite split_at_here
      by (apply list.Forall_app; split; [done|by repeat constructor]).
    cbn [mbind option_bind]. destruct n as [|c n]; [done|]. cbn [app].
    rewrite app_comm_cons, (split_at_here 58 32 (c :: n)) by done. cbn [mbind option_bind].
    rewrite IH by (cbn in Hf; lia). done.
Qed.

(** The replies of the server: a length, a type and a content. *)
Definition framed (rep : Reply.t) : Prop :=
  exists type, headers rep = set_headers (content rep) type /\ free_of 13 type.

Definition sent (rep : Reply.t) : bytes := concat (to_buffers rep).

Lemma status_line s : exists line, status_string s = line ++ [13; 10] /\ free_of 13 line.
Proof.
  destruct s; eexists; (split; [unfold status_string, CRLF; reflexivity|]); unfold free_of; decide_wf.
Qed.

Lemma framed_headers c type : free_of 13 type -> Forall clean_header (set_headers c type).
Proof.
  intros Ht. pose proof (to_string_digits (zlen c) ltac:(lia)) as Hd.
  assert (Hd13 : free_of 13 (to_string (zlen c)))
    by (eapply list.Forall_impl; [exact Hd|]; by intros x Hx ->).
  unfold set_headers. apply list.Forall_cons. split; [|apply list.Forall_cons; split; [|by constructor]];
    split_and!; cbn [Header.name Header.value]; try done; unfold free_of; decide_wf.
Qed.

Lemma read_framed rep rest : framed rep -> exists line,
  status_string (status rep) = line ++ CRLF
  /\ read_reply (sent rep ++ rest) = Some (line, headers rep, content rep, rest).
Proof.
  intros (type & Hh & Ht). destruct (status_line (status rep)) as (line & Hline & Hfree).
  exists line. split; [done|].
  assert (E : sent rep ++ rest = line ++ 13 :: 10 :: concat (concat (map header_buffers (headers rep)))
    ++ crlf ++ content rep ++ rest).
  { unfold sent, to_buffers. rewrite !concat_app, Hline. cbn [concat].
    repeat (rewrite <- ?app_assoc; cbn [app]). done. }
  unfold read_reply, read_line. rewrite E, split_at_here by done. cbn [mbind option_bind].
  rewrite read_headers_here by (rewrite Hh; first [by apply framed_headers | cbn; lia]).
  cbn [mbind option_bind]. rewrite Hh at 1.
  change (find_header _ (set_headers ?c _)) with (Some (to_string (zlen c))). cbn [mbind option_bind].
  rewrite read_to_string by lia. cbn [mbind option_bind]. rewrite length_app.
  leb_true. cbn [check mbind option_bind]. rewrite Nat2Z.id, take_app_length, drop_app_length. done.
Qed.

Lemma stock_framed s : framed (stock_reply s).
Proof. exists (bytes_of "text/html"). split; [done|]. unfold free_of. decide_wf. Qed.
