(* ===== verification/HttpHandler.v ===== *)
(** * The request handler of the signalling server: signal_server/request_handler.cpp

    The file system is a parameter: [open_file name] is the content of the file that
    std::ifstream opens under [name], None when it does not open (a directory, which opens
    and reads as nothing, is an empty content).  The name is the C string of the path, so it
    ends at the first NUL.  std::istringstream's extraction of a hexadecimal [int] is
    [extract_hex]: white space, a sign, an optional 0x and at least one digit, in the C
    locale; the two characters it is used on cannot overflow. *)

From S2P Require Import Prelude.
From S2P Require Import HttpParser.
From S2P Require Import HttpReply.
From Stdlib Require Import (notations) String.

Module RequestHandler.

Definition isspace (c : Z) : bool := (c =? 32) || ((9 <=? c) && (c <=? 13)).

Definition hex_digit (c : Z) : option Z :=
  if (48 <=? c) && (c <=? 57) then Some (c - 48)
  else if (65 <=? c) && (c <=? 70) then Some (c - 55)
  else if (97 <=? c) && (c <=? 102) then Some (c - 87)
  else None.

Fixpoint skip_space (s : bytes) : bytes :=
  match s with
  | c :: s' => if isspace c then skip_space s' else s
  | [] => []
  end.

(** Digits up to the first character that is none. *)
Fixpoint hex_digits (v : Z) (s : bytes) : Z :=
  match s with
  | c :: s' => match hex_digit c with Some d => hex_digits (v * 16 + d) s' | None => v end
  | [] => v
  end.

Definition hex_number (s : bytes) : option Z :=
  match s with
  | c :: s' => match hex_digit c with Some d => Some (hex_digits d s') | None => None end
  | [] => None
  end.

Definition hex_prefixed (s : bytes) : option Z :=
  match s with
  | c :: x :: s' => if (c =? 48) && ((x =? 120) || (x =? 88)) then hex_number s' else hex_number s
  | _ => hex_number s
  end.

(** is >> std::hex >> value; None sets the fail bit. *)
Definition extract_hex (s : bytes) : option Z :=
  match skip_space s with
  | [] => None
  | c :: s' =>
      if c =? 45 then Z.opp <$> hex_prefixed s'
      else if c =? 43 then hex_prefixed s'
      else hex_prefixed (c :: s')
  end.

(** The output string, or None when the function returns false. *)
Fixpoint url_decode (s : bytes) : option bytes :=
  match s with
  | [] => Some []
  | c :: s1 =>
      if c =? 37 then
        match s1 with
        | c1 :: c2 :: s2 =>
            value ← extract_hex [c1; c2];
            out ← url_decode s2;
            Some (u8 value :: out)
        | _ => None
        end
      else if c =? 43 then out ← url_decode s1; Some (32 :: out)
      else out ← url_decode s1; Some (c :: out)
  end.

Fixpoint is_prefix (p s : bytes) : bool :=
  match p, s with
  | [], _ => true
  | a :: p', b :: s' => (a =? b) && is_prefix p' s'
  | _ :: _, [] => false
  end.

(** s.find(p) != npos *)
Fixpoint contains (p s : bytes) : bool :=
  is_prefix p s || match s with [] => false | _ :: s' => contains p s' end.

(** s.find_last_of of one character; None is npos. *)
Fixpoint find_last_of (c : Z) (s : bytes) : option nat :=
  match s with
  | [] => None
  | x :: s' =>
      match find_last_of c s' with
      | Some i => Some (S i)
      | None => if x =? c then Some O else None
      end
  end.

(** The part after the last dot, when that comes after the last slash. *)
Definition extension_of (path : bytes) : bytes :=
  match find_last_of 46 path, find_last_of 47 path with
  | Some last_dot_pos, Some last_slash_pos =>
      if (last_slash_pos <? last_dot_pos)%nat then skipn (last_dot_pos + 1) path else []
  | _, _ => []
  end.

(** c_str(), as the file name it denotes. *)
Fixpoint c_str (s : bytes) : bytes :=
  match s with
  | [] => []
  | c :: s' => if c =? 0 then [] else c :: c_str s'
  end.

(** An input stream: what is left to read, and good(). *)
Record stream := Stream { rest : bytes; is_good : bool }.

(** is.read(buf, n): the characters read ([gcount] is their number); a short read sets
    the end and fail bits. *)
Definition read (n : nat) (s : stream) : bytes * stream :=
  if is_good s then
    (firstn n (rest s), Stream (skipn n (rest s)) (n <=? List.length (rest s))%nat)
  else ([], s).

(** The loop that appends the file to the content. *)
Fixpoint append_file (fuel : nat) (s : stream) (content : bytes) : bytes :=
  match fuel with
  | O => content
  | S fuel =>
      let '(buf, s) := read 512 s in
      if 0 <? zlen buf then append_file fuel s (content ++ buf) else content
  end.

(** The path a request asks for; None is the bad request. *)
Definition request_path (uri : bytes) : option bytes :=
  path ← url_decode uri;
  match path with
  | [] => None
  | c :: _ =>
      if negb (c =? 47) || contains [46; 46] path then None
      else if List.last path 0 =? 47 then Some (path ++ bytes_of "index.html")
      else Some path
  end.

Section Handler.
Context (open_file : bytes -> option bytes) (doc_root : bytes).

Definition handle_request (req : Request.t) (rep : Reply.t) : Reply.t :=
  match request_path (Request.uri req) with
  | None => Reply.stock_reply Reply.bad_request
  | Some path =>
      let extension := extension_of path in
      let full_path := doc_root ++ path in
      match open_file (c_str full_path) with
      | None => Reply.stock_reply Reply.not_found
      | Some file =>
          let content :=
            append_file (S (List.length file)) (Stream file true) (Reply.content rep) in
          Reply.Mk Reply.ok
            (Reply.set_headers content (MimeTypes.extension_to_type extension)) content
      end
  end.
End Handler.

End RequestHandler.

Import RequestHandler.

(** ** Encoded targets

    [encodes s p]: [s] writes the path [p] with percent escapes (either case of the digits)
    and plus signs for spaces. *)

Definition hex_char (upper : bool) (d : Z) : Z :=
  if d <? 10 then 48 + d else if upper then 55 + d else 87 + d.

Inductive encodes : bytes -> bytes -> Prop :=
  | encodes_nil : encodes [] []
  | encodes_char c s p : c <> 37 -> c <> 43 -> encodes s p -> encodes (c :: s) (c :: p)
  | encodes_plus s p : encodes s p -> encodes (43 :: s) (32 :: p)
  | encodes_escape u1 u2 c s p : is_u8 c -> encodes s p ->
      encodes (37 :: hex_char u1 (c / 16) :: hex_char u2 (c mod 16) :: s) (c :: p).

Lemma hex_digit_char u d : 0 <= d < 16 -> hex_digit (hex_char u d) = Some d.
Proof.
  intros Hd. unfold hex_char, hex_digit.
  destruct (Z.ltb_spec d 10); [|destruct u];
    repeat case_match; repeat rewrite ?andb_true_iff, ?andb_false_iff, ?Z.leb_le, ?Z.leb_gt in *;
    try lia; f_equal; lia.
Qed.

(** What is not a space, a sign or the x of a prefix. *)
Lemma hex_char_plain u d : 0 <= d < 16 -> isspace (hex_char u d) = false
  /\ hex_char u d <> 45 /\ hex_char u d <> 43 /\ hex_char u d <> 120 /\ hex_char u d <> 88.
Proof.
  intros Hd. unfold isspace, hex_char. destruct (Z.ltb_spec d 10); [|destruct u];
    (split; [apply orb_false_iff; rewrite andb_false_iff, !Z.leb_gt; lia | lia]).
Qed.

Lemma extract_escape u1 u2 c : is_u8 c ->
  extract_hex [hex_char u1 (c / 16); hex_char u2 (c mod 16)] = Some c.
Proof.
  intros Hc. pose proof (hex_char_plain u1 (c / 16) ltac:(wordlia)) as (Hs & H45 & H43 & _ & _).
  pose proof (hex_char_plain u2 (c mod 16) ltac:(wordlia)) as (_ & _ & _ & H120 & H88).
  unfold extract_hex. cbn [skip_space]. rewrite Hs.
  rewrite (proj2 (Z.eqb_neq _ _) H45), (proj2 (Z.eqb_neq _ _) H43).
  unfold hex_prefixed. rewrite (proj2 (Z.eqb_neq _ _) H120), (proj2 (Z.eqb_neq _ _) H88), andb_false_r.
  unfold hex_number, hex_digits. rewrite !hex_digit_char by wordlia. f_equal. wordlia.
Qed.

Lemma url_decode_encodes s p : encodes s p -> url_decode s = Some p.
Proof.
  induction 1 as [|c s p Hp Hs _ IH|s p _ IH|u1 u2 c s p Hc _ IH]; cbn [url_decode]; [done| | |].
  - by rewrite (proj2 (Z.eqb_neq _ _) Hp), (proj2 (Z.eqb_neq _ _) Hs), IH.
  - by rewrite IH.
  - rewrite extract_escape, IH by done. cbn [mbind option_bind Z.eqb Pos.eqb]. by rewrite u8_id.
Qed.

(** Every path can be written. *)
Definition url_encode (p : bytes) : bytes :=
  concat (map (fun c => [37; hex_char true (c / 16); hex_char true (c mod 16)]) p).

Lemma url_encode_encodes p : is_bytes p -> encodes (url_encode p) p.
Proof. induction 1; unfold url_encode; cbn [map concat app]; by constructor. Qed.

(** Target decoding inverts encoding: every spelling of a path — literal characters,
    plus for a space, percent escapes with digits of either case — decodes to it, and every
    path of octets has the spelling [url_encode]. *)
Theorem url_decode_roundtrip :
  (forall s p, encodes s p -> url_decode s = Some p)
  /\ (forall p, is_bytes p -> url_decode (url_encode p) = Some p).
Proof.
  split; [exact url_decode_encodes|]. intros p Hp. by apply url_decode_encodes, url_encode_encodes.
Qed.

(** ** The file in the reply *)

Lemma append_file_content fuel file good content : (List.length file < fuel)%nat ->
  good = true \/ file = [] ->
  append_file fuel (Stream file good) content = content ++ file.
Proof.
  revert file good content. induction fuel as [|fuel IH]; intros file good content Hf Hgood; [lia|].
  cbn [append_file]. unfold read. cbn [is_good rest]. destruct good; cycle 1.
  { destruct Hgood as [ | ->]; [done|]. by rewrite app_nil_r. }
  rewrite length_take. destruct (Z.ltb_spec 0 (Z.of_nat (512 `min` List.length file))).
  - rewrite IH.
    + by rewrite <- app_assoc, take_drop.
    + rewrite length_drop. lia.
    + destruct (Nat.leb_spec 512 (List.length file)); [by left|right].
      apply skipn_all2. lia.
  - destruct file; cbn in *; [by rewrite app_nil_r|lia].
Qed.

(** ** Paths *)

Fixpoint components (s : bytes) : list bytes :=
  match s with
  | [] => [[]]
  | c :: s' =>
      if c =? 47 then [] :: components s'
      else match components s' with x :: xs => (c :: x) :: xs | [] => [[c]] end
  end.

Definition dotdot : bytes := [46; 46].

(** Names of files in the tree under [doc_root]: no component goes up. *)
Definition under (doc_root name : bytes) : Prop :=
  exists p, name = doc_root ++ 47 :: p /\ Forall (fun c => c <> dotdot) (components p) /\ free_of 0 p.

Definition absolute (path : bytes) : Prop := exists p, path = 47 :: p.

Lemma is_prefix_app p b : is_prefix p (p ++ b) = true.
Proof. induction p as [|c p IH]; cbn; [done|]. by rewrite Z.eqb_refl. Qed.

Lemma contains_app p a b : contains p (a ++ p ++ b) = true.
Proof.
  induction a as [|c a IH]; cbn [app].
  - destruct p as [|c p]; [by destruct b|]. cbn [app contains].
    by rewrite (is_prefix_app (c :: p) b : is_prefix (c :: p) (c :: p ++ b) = true).
  - cbn [contains]. rewrite IH. apply orb_true_r.
Qed.

Lemma is_prefix_true p s : is_prefix p s = true <-> exists b, s = p ++ b.
Proof.
  split; [|intros (b & ->); apply is_prefix_app]. revert s.
  induction p as [|a p IH]; intros s; cbn; [eauto|]. destruct s as [|c s]; [done|].
  intros [->%Z.eqb_eq (b & ->)%IH]%andb_true_iff. by exists b.
Qed.

Lemma contains_true p s : contains p s = true <-> exists a b, s = a ++ p ++ b.
Proof.
  split; [|intros (a & b & ->); apply contains_app].
  induction s as [|c s IH]; cbn [contains]; intros [(b & E)%is_prefix_true|H]%orb_true_iff; try done.
  - by exists [], b.
  - by exists [], b.
  - destruct (IH H) as (a & b & ->). by exists (c :: a), b.
Qed.

Lemma component_inside x s : x ∈ components s -> exists a b, s = a ++ x ++ b.
Proof.
  enough (H : forall x xs, components s = x :: xs -> (exists b, s = x ++ b)
    /\ forall y, y ∈ xs -> exists a b, s = a ++ y ++ b).
  { destruct (components s) as [|y ys] eqn:E; [by intros ?%elem_of_nil|].
    destruct (H y ys eq_refl) as [(b & Hb) Hys]. intros [->|Hx]%elem_of_cons; [by exists [], b|by apply Hys]. }
  clear x. induction s as [|c s IH]; intros x xs; cbn [components].
  - intros [= <- <-]. split; [by exists []|]. by intros ? ?%elem_of_nil.
  - destruct (components s) as [|y ys] eqn:E; [destruct s; cbn in E; repeat case_match; done|].
    destruct (IH y ys eq_refl) as [(b & Hb) Hys]. destruct (c =? 47); intros [= <- <-].
    + split; [by eexists|]. intros z [->|Hz]%elem_of_cons; [by exists [c], b; rewrite Hb|].
      destruct (Hys z Hz) as (a' & b' & ->). by exists (c :: a'), b'.
    + split; [exists b; by rewrite Hb|]. intros z Hz.
      destruct (Hys z Hz) as (a' & b' & ->). by exists (c :: a'), b'.
Qed.

Lemma no_dotdot_component s : contains dotdot s = false -> Forall (fun c => c <> dotdot) (components s).
Proof.
  intros Hs. apply list.Forall_forall. intros x (a & b & ->)%component_inside ->.
  by rewrite contains_app in Hs.
Qed.

Lemma contains_part p a s b : contains p (a ++ s ++ b) = false -> contains p s = false.
Proof.
  intros Hs. apply not_true_iff_false. intros (x & y & ->)%contains_true.
  apply not_true_iff_false in Hs. apply Hs, contains_true.
  exists (a ++ x), (y ++ b). by repeat rewrite <- app_assoc.
Qed.

Lemma index_no_dotdot p : contains dotdot (p ++ [47]) = false ->
  contains dotdot (p ++ 47 :: bytes_of "index.html") = false.
Proof.
  induction p as [|c p IH]; cbn [app contains]; [done|].
  intros [Hp Hc]%orb_false_iff. rewrite IH by done. rewrite orb_false_r, <- Hp.
  destruct p as [|d p]; done.
Qed.

Lemma c_str_app a b : free_of 0 a -> c_str (a ++ b) = a ++ c_str b.
Proof. induction 1 as [|c a Hc Ha IH]; cbn; [done|]. by rewrite (proj2 (Z.eqb_neq _ _) Hc), IH. Qed.

Lemma c_str_free s : free_of 0 (c_str s).
Proof.
  induction s as [|c s IH]; cbn; [constructor|]. destruct (Z.eqb_spec c 0); by constructor.
Qed.

Lemma c_str_prefix s : exists t, s = c_str s ++ t.
Proof.
  induction s as [|c s (t & IH)]; cbn; [by exists []|]. destruct (c =? 0); [by exists (c :: s)|].
  exists t. cbn. by rewrite <- IH.
Qed.

Lemma c_str_id s : free_of 0 s -> c_str s = s.
Proof. intros Hs. pose proof (c_str_app s [] Hs) as E. by rewrite !app_nil_r in E. Qed.

(** The paths that are served. *)
Lemma request_path_spec uri path : request_path uri = Some path <->
  exists p, url_decode uri = Some p /\ absolute p /\ contains dotdot p = false
    /\ path = if List.last p 0 =? 47 then p ++ bytes_of "index.html" else p.
Proof.
  unfold request_path, absolute. destruct (url_decode uri) as [[|c p]|]; cbn [mbind option_bind].
  - split; [done|]. by intros (? & [= <-] & (? & ?) & _).
  - destruct (Z.eqb_spec c 47) as [->|Hc]; cbn [negb orb].
    + fold dotdot. destruct (contains dotdot (47 :: p)) eqn:E.
      * split; [done|]. by intros (? & [= <-] & _ & ? & _); congruence.
      * split.
        -- intros Hp. exists (47 :: p). splits; try done; [by exists p|]. by destruct (_ =? 47); injection Hp.
        -- intros (? & [= <-] & _ & _ & ->). by destruct (_ =? 47).
    + split; [done|]. by intros (? & [= <-] & (? & [= ?]) & _).
  - split; [done|]. by intros (? & ? & _).
Qed.

Lemma request_path_safe uri path : request_path uri = Some path ->
  absolute path /\ contains dotdot path = false.
Proof.
  intros (p & _ & (p' & ->) & Hp & ->)%request_path_spec.
  destruct (Z.eqb_spec (List.last (47 :: p') 0) 47) as [E|]; [|split; [by eexists|done]].
  split; [by eexists|].
  destruct (exists_last (l := 47 :: p') ltac:(done)) as (q & x & Hq).
  rewrite Hq in E, Hp |- *. rewrite last_last in E. subst x. rewrite <- app_assoc. by apply index_no_dotdot.
Qed.

Lemma opened_under doc_root uri path : free_of 0 doc_root -> request_path uri = Some path ->
  under doc_root (c_str (doc_root ++ path)).
Proof.
  intros Hroot Hpath. apply request_path_safe in Hpath as [(p & ->) Hp]. rewrite c_str_app by done.
  exists (c_str p). splits; [done| |by apply c_str_free]. apply no_dotdot_component.
  destruct (c_str_prefix p) as (t & Ht). apply (contains_part _ [47] _ t). cbn [app]. by rewrite <- Ht.
Qed.

Lemma last_of_app c a b : free_of c b -> find_last_of c (a ++ c :: b) = Some (List.length a).
Proof.
  intros Hb. induction a as [|x a IH]; cbn [app find_last_of List.length].
  - replace (find_last_of c b) with (@None nat); [by rewrite Z.eqb_refl|].
    induction Hb as [|x b Hx Hb IH]; cbn; [done|]. by rewrite <- IH, (proj2 (Z.eqb_neq _ _) Hx).
  - by rewrite IH.
Qed.

(** directory/name.ext *)
Definition file_path (dir name ext : bytes) : bytes := dir ++ 47 :: name ++ 46 :: ext.

Lemma extension_of_file dir name ext : free_of 47 name -> free_of 47 ext -> free_of 46 ext ->
  extension_of (file_path dir name ext) = ext.
Proof.
  intros Hname Hslash Hdot. unfold extension_of, file_path.
  rewrite (last_of_app 47) by (apply list.Forall_app; split; [done|by constructor]).
  rewrite app_comm_cons, app_assoc, (last_of_app 46) by done.
  rewrite (proj2 (Nat.ltb_lt _ _)) by (rewrite length_app; cbn; lia).
  rewrite Nat.add_1_r. change (46 :: ext) with ([46] ++ ext). rewrite app_assoc.
  replace (S _) with (List.length ((dir ++ 47 :: name) ++ [46])) by (rewrite length_app; cbn; lia).
  apply drop_app_length.
Qed.

Lemma file_path_plain dir name ext : free_of 47 ext -> List.last (file_path dir name ext) 0 <> 47.
Proof.
  intros Hext. unfold file_path. destruct (exists_last (l := 46 :: ext) ltac:(done)) as (q & x & Hq).
  rewrite app_comm_cons, app_assoc, Hq, app_assoc, last_last.
  assert (H : free_of 47 (46 :: ext)) by (by constructor).
  rewrite Hq in H. apply list.Forall_app in H as [_ H]. by apply list.Forall_cons in H as [H _].
Qed.

(** The bound on the read loop: one round per block, and the content is whole. *)
Lemma handle_found open_file doc_root req rep path file :
  request_path (Request.uri req) = Some path -> open_file (c_str (doc_root ++ path)) = Some file ->
  handle_request open_file doc_root req rep =
  Reply.Mk Reply.ok
    (Reply.set_headers (Reply.content rep ++ file) (MimeTypes.extension_to_type (extension_of path)))
    (Reply.content rep ++ file).
Proof.
  intros Hpath Hfile. unfold handle_request. rewrite Hpath, Hfile.
  by rewrite append_file_content by (try lia; by left).
Qed.

(** C28. No request reaches a file outside the document root (a path without NUL): the reply
    only depends on the files whose name is the root followed by an absolute path without NUL in
    which no component is "..", whatever the target of the request decodes to. *)
Theorem served_files_confined (f g : bytes -> option bytes) doc_root req rep :
  free_of 0 doc_root -> (forall name, under doc_root name -> f name = g name) ->
  handle_request f doc_root req rep = handle_request g doc_root req rep.
Proof.
  intros Hroot Hfg. unfold handle_request.
  destruct (request_path (Request.uri req)) as [path|] eqn:E; [|done].
  by rewrite Hfg by (by eapply opened_under).
Qed.

(** C30. A request for a file of the tree gets it: for every spelling of a target
    directory/name.ext that is absolute and without ".." and NUL, name and ext without a slash
    and ext without a point, under a document root without NUL, the reply, empty before, is 200
    with the whole file as content, its length and the type registered for its extension. *)
Theorem file_is_served open_file doc_root req rep dir name ext file :
  free_of 0 doc_root -> encodes (Request.uri req) (file_path dir name ext) ->
  absolute (file_path dir name ext) -> contains dotdot (file_path dir name ext) = false ->
  free_of 0 (file_path dir name ext) -> free_of 47 name -> free_of 47 ext -> free_of 46 ext ->
  Reply.content rep = [] -> open_file (doc_root ++ file_path dir name ext) = Some file ->
  handle_request open_file doc_root req rep =
  Reply.Mk Reply.ok
    [Header.Mk (bytes_of "Content-Length") (Reply.to_string (zlen file));
     Header.Mk (bytes_of "Content-Type") (MimeTypes.extension_to_type ext)] file.
Proof.
  intros Hroot Henc Habs Hdots Hnul Hname Hslash Hdot Hrep Hfile.
  rewrite (handle_found _ _ _ _ (file_path dir name ext) file).
  - by rewrite Hrep, extension_of_file.
  - apply request_path_spec. eexists. splits; [by apply url_decode_encodes|done|done|].
    by rewrite (proj2 (Z.eqb_neq _ _)) by (by apply file_path_plain).
  - by rewrite c_str_id by (by apply list.Forall_app).
Qed.

(** The error replies: 400 exactly for the targets that do not decode, are not absolute
    or contain "..", 404 exactly when the path is served and its file does not open, and
    otherwise 200; a directory is served as its index.html. *)
Theorem handle_errors open_file doc_root req rep :
  let status := Reply.status (handle_request open_file doc_root req rep) in
  (status = Reply.bad_request <-> forall p, url_decode (Request.uri req) = Some p ->
     absolute p -> contains dotdot p = true)
  /\ (status = Reply.not_found <-> exists p, url_decode (Request.uri req) = Some p /\ absolute p
     /\ contains dotdot p = false
     /\ open_file (c_str (doc_root ++ if List.last p 0 =? 47 then p ++ bytes_of "index.html" else p)) = None)
  /\ (status = Reply.bad_request \/ status = Reply.not_found \/ status = Reply.ok).
Proof.
  cbv zeta. unfold handle_request.
  destruct (request_path (Request.uri req)) as [path|] eqn:E.
  - apply request_path_spec in E as (p & Hp & Habs & Hdots & ->).
    assert (Hbad : ~ forall q, url_decode (Request.uri req) = Some q -> absolute q -> contains dotdot q = true)
      by (intros H; specialize (H p Hp Habs); congruence).
    destruct (open_file _) as [file|] eqn:Hf; cbn [Reply.status Reply.stock_reply]; splits; try tauto; try done.
    + split; [done|]. intros (q & Hq & _ & _ & Hno). assert (q = p) as -> by congruence. congruence.
    + split; [|done]. intros _. by exists p.
  - assert (Hnone : forall p, url_decode (Request.uri req) = Some p -> absolute p -> contains dotdot p = true).
    { intros p Hp Habs. destruct (contains dotdot p) eqn:Hd; [done|].
      assert (Hs := proj2 (request_path_spec _ _) (ex_intro _ p (conj Hp (conj Habs (conj Hd eq_refl))))).
      congruence. }
    cbn [Reply.status Reply.stock_reply]. splits; [done| |by left]. split; [done|].
    intros (p & Hp & Habs & Hd & _). specialize (Hnone p Hp Habs). congruence.
Qed.

Lemma handled_framed open_file doc_root req rep : framed (handle_request open_file doc_root req rep).
Proof.
  unfold handle_request. destruct (request_path _) as [path|]; [|apply stock_framed].
  destruct (open_file _) as [file|]; [|apply stock_framed].
  eexists. split; [done|]. unfold MimeTypes.extension_to_type, free_of. cbn [MimeTypes.lookup_type MimeTypes.mappings].
  repeat case_decide; decide_wf.
Qed.

(** Replies frame their content: what the server sends for any request, or as a stock
    reply, followed by any octets, is read back by the reference reader [read_reply] as the
    status line, the headers and exactly the content, the announced Content-Length being the
    number of octets sent. *)
Theorem replies_framed open_file doc_root req rep status rest :
  let read reply := exists line, Reply.status_string (Reply.status reply) = line ++ CRLF
    /\ read_reply (concat (Reply.to_buffers reply) ++ rest)
       = Some (line, Reply.headers reply, Reply.content reply, rest) in
  read (handle_request open_file doc_root req rep) /\ read (Reply.stock_reply status).
Proof. split; apply read_framed; [apply handled_framed | apply stock_framed]. Qed.

(** The extraction of an [int] takes more than escapes: a sign, a space, one digit. *)
Lemma url_decode_lenient :
  url_decode (bytes_of "%-1") = Some [255] /\ url_decode (bytes_of "% 4") = Some [4]
  /\ url_decode (bytes_of "%4g") = Some [4] /\ url_decode (bytes_of "%0x") = None.
Proof. by vm_compute. Qed.

(** ** A concrete tree *)

Definition sample_root : bytes := bytes_of "/srv".

Definition sample_files (name : bytes) : option bytes :=
  if decide (name = bytes_of "/srv/a b.html") then Some (bytes_of "<p>hello</p>")
  else if decide (name = bytes_of "/etc/passwd") then Some (bytes_of "root") else None.

Definition sample_get (uri : bytes) : Request.t := Request.Mk (bytes_of "GET") uri 1 0 [].

Definition fresh_reply : Reply.t := Reply.Mk Reply.ok [] [].

Lemma served_files_confined_witness :
  handle_request sample_files sample_root (sample_get (bytes_of "/%2e./etc/passwd")) fresh_reply
  = handle_request (fun name => if decide (name = bytes_of "/etc/passwd") then None else sample_files name)
      sample_root (sample_get (bytes_of "/%2e./etc/passwd")) fresh_reply.
Proof.
  apply served_files_confined; [unfold free_of; decide_wf|].
  intros name (p & -> & _). by rewrite decide_False.
Defined.

Lemma file_is_served_witness :
  Reply.content (handle_request sample_files sample_root (sample_get (bytes_of "/a+%62.html")) fresh_reply)
  = bytes_of "<p>hello</p>".
Proof.
  rewrite (file_is_served sample_files sample_root _ _ [] (bytes_of "a b") (bytes_of "html") (bytes_of "<p>hello</p>"));
    try done; try (unfold free_of; decide_wf).
  - cbn. repeat (apply encodes_char; [done|done|]). apply encodes_plus.
    apply (encodes_escape true true 98); [decide_wf|].
    repeat (apply encodes_char; [done|done|]). apply encodes_nil.
  - by eexists.
Defined.
