(* ===== verification/HttpServer.v ===== *)
(** * Connections and the server loop: signal_server/connection.cpp,
      connection_manager.cpp and server.cpp

    Boost.Asio is not part of the program; what the code relies on is in the step relation:
    each asynchronous operation completes once, with success, [operation_aborted] (only when
    its socket was closed) or another error; an operation started on a closed socket does
    not succeed; a read that succeeds brings at least one octet and at most the buffer.  The
    completion may have been queued before the socket was closed, so a pending operation of
    a stopped connection can still succeed.  One thread runs the handlers (io_context(1)).

    [received] is a history variable: the octets a connection has read. *)

From S2P Require Import Prelude.
From S2P Require Import HttpParser.
From S2P Require Import HttpReply.
From S2P Require Import HttpHandler.
From stdpp Require Import gmap relations.
From Stdlib Require Import (notations) String.

#[local] Open Scope Z_scope.

Inductive error_code := success | operation_aborted | other_error.

#[export] Instance error_code_eq_dec : EqDecision error_code.
Proof. solve_decision. Defined.

Module Connection.

Inductive operation := ReadOp | WriteOp.

Record t := Mk {
  socket_open : bool;
  request : Request.t;
  request_parser : RequestParser.state;
  reply : Reply.t;
  (** the asynchronous operation in progress, and whether its socket was open *)
  pending : option (operation * bool);
  received : bytes
}.

(** A connection for an accepted socket; the [int]s of the request and the status of the
    reply are not initialised. *)
Definition new (g1 g2 : Z) (status : Reply.status_type) : t :=
  Mk true (Request.new g1 g2) RequestParser.new (Reply.Mk status [] []) None [].

Definition set_pending (p : option (operation * bool)) (c : t) : t :=
  Mk (socket_open c) (request c) (request_parser c) (reply c) p (received c).

Definition do_read (c : t) : t := set_pending (Some (ReadOp, socket_open c)) c.

(** The buffers of the reply are handed to async_write. *)
Definition do_write (c : t) : t := set_pending (Some (WriteOp, socket_open c)) c.

Definition start (c : t) : t := do_read c.

(** socket_.close() *)
Definition stop (c : t) : t :=
  Mk false (request c) (request_parser c) (reply c) (pending c) (received c).

Definition set_request (r : Request.t) (st : RequestParser.state) (data : bytes) (c : t) : t :=
  Mk (socket_open c) r st (reply c) (pending c) (received c ++ data).

Definition set_reply (r : Reply.t) (c : t) : t :=
  Mk (socket_open c) (request c) (request_parser c) r (pending c) (received c).

Section Handlers.
Context (open_file : bytes -> option bytes) (doc_root : bytes).

(** The read handler without error; None is the parser's undefined behaviour. *)
Definition on_data (data : bytes) (c : t) : option t :=
  '(result, st, req, _) ← RequestParser.parse (request_parser c) (request c) data;
  let c := set_request req st data c in
  match result with
  | RequestParser.good =>
      Some (do_write (set_reply (RequestHandler.handle_request open_file doc_root req (reply c)) c))
  | RequestParser.bad => Some (do_write (set_reply (Reply.stock_reply Reply.bad_request) c))
  | RequestParser.indeterminate => Some (do_read c)
  end.
End Handlers.

End Connection.

(** ** The server *)

Record server := Server {
  acceptor_open : bool;
  (** async_accept and the signal wait in progress *)
  accepting : bool;
  awaiting_stop : bool;
  (** connection_manager::connections_ *)
  connections : gset N;
  (** the connection objects alive: shared by the manager and the pending handlers *)
  objects : gmap N Connection.t
}.

Module ConnectionManager.

(** A connection lives as long as the manager or a pending handler holds it. *)
Definition release (id : N) (s : server) : server :=
  match objects s !! id with
  | Some c =>
      if bool_decide (id ∈ connections s) then s
      else match Connection.pending c with
           | Some _ => s
           | None =>
               Server (acceptor_open s) (accepting s) (awaiting_stop s) (connections s)
                 (delete id (objects s))
           end
  | None => s
  end.

Definition update (f : Connection.t -> Connection.t) (id : N) (s : server) : server :=
  Server (acceptor_open s) (accepting s) (awaiting_stop s) (connections s) (alter f id (objects s)).

Definition start (id : N) (c : Connection.t) (s : server) : server :=
  Server (acceptor_open s) (accepting s) (awaiting_stop s) ({[id]} ∪ connections s)
    (<[id := Connection.start c]> (objects s)).

(** connections_.erase(c); c->stop(); *)
Definition stop (id : N) (s : server) : server :=
  update Connection.stop id
    (Server (acceptor_open s) (accepting s) (awaiting_stop s) (connections s ∖ {[id]}) (objects s)).

(** Stop each managed connection, then connections_.clear(). *)
Definition stop_all (s : server) : server :=
  Server (acceptor_open s) (accepting s) (awaiting_stop s) ∅
    (map_imap (fun id c => Some (if bool_decide (id ∈ connections s) then Connection.stop c else c))
       (objects s)).

End ConnectionManager.

Definition do_accept (s : server) : server :=
  Server (acceptor_open s) true (awaiting_stop s) (connections s) (objects s).

Definition accept_done (s : server) : server :=
  Server (acceptor_open s) false (awaiting_stop s) (connections s) (objects s).

(** The handler of do_accept; the socket becomes the connection [c] under the name [id]. *)
Definition on_accept (ec : error_code) (id : N) (c : Connection.t) (s : server) : server :=
  let s := accept_done s in
  if negb (acceptor_open s) then s
  else
    let s := match ec with success => ConnectionManager.start id c s | _ => s end in
    do_accept s.

(** The handler of do_await_stop. *)
Definition on_stop_signal (s : server) : server :=
  ConnectionManager.stop_all
    (Server false (accepting s) false (connections s) (objects s)).

(** The handlers of do_read with an error and of do_write; the operation is done when they
    run. *)
Definition on_error (ec : error_code) (id : N) (s : server) : server :=
  match ec with operation_aborted => s | _ => ConnectionManager.stop id s end.

Definition finish (id : N) (s : server) : server :=
  ConnectionManager.update (Connection.set_pending None) id s.

Definition on_read_error (ec : error_code) (id : N) (s : server) : server :=
  ConnectionManager.release id (on_error ec id (finish id s)).

(** socket_.shutdown has no effect on the state here; the reply is out. *)
Definition on_write (ec : error_code) (id : N) (s : server) : server :=
  ConnectionManager.release id (on_error ec id (finish id s)).

(** The server after its constructor. *)
Definition initial : server := Server true true true ∅ ∅.

Section Steps.
Context (open_file : bytes -> option bytes) (doc_root : bytes).

Definition on_read (data : bytes) (id : N) (s : server) : option server :=
  c ← objects s !! id;
  c' ← Connection.on_data open_file doc_root data (Connection.set_pending None c);
  Some (ConnectionManager.update (fun _ => c') id s).

(** One completion handler. *)
Inductive step : server -> server -> Prop :=
  | accept_step s ec id g1 g2 status :
      accepting s = true -> objects s !! id = None ->
      step s (on_accept ec id (Connection.new g1 g2 status) s)
  | read_step s id c data s' :
      objects s !! id = Some c -> Connection.pending c = Some (Connection.ReadOp, true) ->
      0 < zlen data <= 8192 -> is_bytes data ->
      on_read data id s = Some s' ->
      step s s'
  | read_error_step s id c started ec :
      objects s !! id = Some c -> Connection.pending c = Some (Connection.ReadOp, started) ->
      ec <> success -> (ec = operation_aborted -> Connection.socket_open c = false) ->
      step s (on_read_error ec id s)
  | write_step s id c started ec :
      objects s !! id = Some c -> Connection.pending c = Some (Connection.WriteOp, started) ->
      (ec = success -> started = true) ->
      (ec = operation_aborted -> Connection.socket_open c = false) ->
      step s (on_write ec id s)
  | signal_step s :
      awaiting_stop s = true -> step s (on_stop_signal s).

Definition reachable (s : server) : Prop := rtc step initial s.
End Steps.

(** ** Abstract behaviour of a connection *)

(** The reply to the octets received, None while more are wanted: the request parsed from
    all of them together is handled with a fresh reply. *)
Definition answer (open_file : bytes -> option bytes) (doc_root : bytes) (g1 g2 : Z)
    (received : bytes) : option Reply.t :=
  match RequestParser.parse RequestParser.new (Request.new g1 g2) received with
  | Some (RequestParser.good, _, req, _) =>
      Some (RequestHandler.handle_request open_file doc_root req (Reply.Mk Reply.ok [] []))
  | Some (RequestParser.bad, _, _, _) => Some (Reply.stock_reply Reply.bad_request)
  | _ => None
  end.

Section Correctness.
Context (open_file : bytes -> option bytes) (doc_root : bytes).

(** What the members of a connection are, after the octets it received. *)
Definition history (c : Connection.t) : Prop :=
  is_bytes (Connection.received c) /\ exists g1 g2, match Connection.pending c with
  | Some (Connection.ReadOp, _) =>
      RequestParser.parse RequestParser.new (Request.new g1 g2) (Connection.received c)
      = Some (RequestParser.indeterminate, Connection.request_parser c, Connection.request c, [])
      /\ Reply.content (Connection.reply c) = []
  | Some (Connection.WriteOp, _) =>
      answer open_file doc_root g1 g2 (Connection.received c) = Some (Connection.reply c)
  | None => True
  end.

(** A managed connection is open with an operation in progress on the open socket; one
    that is not managed is closed and only lives for its pending handler. *)
Definition conn_ok (managed : bool) (c : Connection.t) : Prop :=
  Connection.socket_open c = managed
  /\ (exists op started, Connection.pending c = Some (op, started)
      /\ (managed = true -> started = true))
  /\ history c.

Definition server_ok (s : server) : Prop :=
  (forall id c, objects s !! id = Some c -> conn_ok (bool_decide (id ∈ connections s)) c)
  /\ (forall id, id ∈ connections s -> is_Some (objects s !! id))
  /\ awaiting_stop s = acceptor_open s
  /\ (acceptor_open s = true -> accepting s = true)
  /\ (acceptor_open s = false -> connections s = ∅).

Lemma handle_request_content req rep rep' : Reply.content rep = Reply.content rep' ->
  RequestHandler.handle_request open_file doc_root req rep
  = RequestHandler.handle_request open_file doc_root req rep'.
Proof. intros E. unfold RequestHandler.handle_request. by rewrite E. Qed.

Lemma parse_two_pieces g1 g2 a b st req rest :
  RequestParser.parse RequestParser.new (Request.new g1 g2) a
  = Some (RequestParser.indeterminate, st, req, rest) ->
  RequestParser.parse RequestParser.new (Request.new g1 g2) (a ++ b) = RequestParser.parse st req b.
Proof. intros E. by rewrite parse_app, E. Qed.

(** Reading more octets keeps the history. *)
Lemma on_data_ok data c c' started : Connection.pending c = Some (Connection.ReadOp, started) ->
  history c -> is_bytes data ->
  Connection.on_data open_file doc_root data (Connection.set_pending None c) = Some c' ->
  history c' /\ Connection.socket_open c' = Connection.socket_open c
  /\ exists op, Connection.pending c' = Some (op, Connection.socket_open c).
Proof.
  intros Hp (Hbytes & g1 & g2 & Hc) Hdata. rewrite Hp in Hc. destruct Hc as [Hparse Hfresh].
  unfold Connection.on_data. cbn [Connection.request_parser Connection.request Connection.set_pending].
  destruct (RequestParser.parse _ _ data) as [[[[result st] req] rest]|] eqn:E; [|done].
  cbn [mbind option_bind].
  pose proof (parse_two_pieces _ _ _ data _ _ _ Hparse) as Hboth. rewrite E in Hboth.
  intros Hc'. split; [|destruct result; injection Hc' as <-; split; eauto].
  split; [destruct result; injection Hc' as <-; by apply list.Forall_app|]. exists g1, g2. unfold answer.
  destruct result; injection Hc' as <-; cbn; rewrite Hboth; try done.
  - f_equal. by apply handle_request_content.
  - split; [|done]. by rewrite (parse_indeterminate _ _ _ _ _ _ E).
Qed.

Lemma initial_ok : server_ok initial.
Proof. by split_and!. Qed.

(** What a step does to the other connections. *)
Lemma server_ok_intro s : 
  (forall id c, objects s !! id = Some c -> conn_ok (bool_decide (id ∈ connections s)) c) ->
  (forall id, id ∈ connections s -> is_Some (objects s !! id)) ->
  awaiting_stop s = acceptor_open s -> (acceptor_open s = true -> accepting s = true) ->
  (acceptor_open s = false -> connections s = ∅) -> server_ok s.
Proof. intros. by split_and!. Qed.

Lemma accept_ok s ec id g1 g2 status : server_ok s -> objects s !! id = None ->
  server_ok (on_accept ec id (Connection.new g1 g2 status) s).
Proof.
  intros (Hobj & Hconn & Haw & Hacc & Hclosed) Hid. unfold on_accept.
  cbn [acceptor_open accept_done]. destruct (acceptor_open s) eqn:Ho; cbn [negb].
  - assert (Hrest : server_ok (do_accept (accept_done s))) by (apply server_ok_intro; cbn; try done; congruence).
    destruct ec; [|exact Hrest..]. apply server_ok_intro; cbn; try done.
    + intros id' c. rewrite lookup_insert_Some. intros [[<- <-]|[Hne Hc]].
      * rewrite bool_decide_true by (apply elem_of_union_l; by apply elem_of_singleton). split_and!; [done|by eexists _, _|]. split; [constructor|]. by exists g1, g2.
      * apply Hobj in Hc. rewrite (bool_decide_ext _ (id' ∈ connections s)); [done|].
        rewrite elem_of_union, elem_of_singleton. split; [intros [?|?]; congruence | by right].
    + intros id' [->%elem_of_singleton|Hin]%elem_of_union; [by rewrite lookup_insert_eq|].
      destruct (decide (id = id')) as [->|]; [by rewrite lookup_insert_eq|].
      rewrite lookup_insert_ne by done. by apply Hconn.
    + congruence.
    + congruence.
  - apply server_ok_intro; cbn; try done; [congruence..|]. intros _. by apply Hclosed.
Qed.

Lemma read_ok s id c data s' : server_ok s -> objects s !! id = Some c ->
  Connection.pending c = Some (Connection.ReadOp, true) -> is_bytes data ->
  on_read open_file doc_root data id s = Some s' -> server_ok s'.
Proof.
  intros (Hobj & Hconn & Haw & Hacc & Hclosed) Hid Hp Hdata. unfold on_read. rewrite Hid.
  cbn [mbind option_bind]. destruct (Connection.on_data _ _ _ _) as [c'|] eqn:E; [|done].
  intros [= <-]. destruct (Hobj id c Hid) as (Hopen & _ & Hhist).
  destruct (on_data_ok _ _ _ _ Hp Hhist Hdata E) as (Hhist' & Hopen' & op & Hp').
  apply server_ok_intro; cbn; try done.
  - intros id' c1. rewrite lookup_alter_Some. intros [(<- & ? & _ & <-)|[_ Hc1]]; [|by apply Hobj].
    split_and!; [by rewrite Hopen'| |done]. eexists op, _. split; [done|]. by rewrite Hopen.
  - intros id' Hin. rewrite lookup_alter_is_Some. by apply Hconn.
Qed.

Lemma release_finished id s c : objects s !! id = Some c -> id ∉ connections s ->
  Connection.pending c = None ->
  ConnectionManager.release id s
  = Server (acceptor_open s) (accepting s) (awaiting_stop s) (connections s) (delete id (objects s)).
Proof.
  intros Hc Hid Hp. unfold ConnectionManager.release. by rewrite Hc, bool_decide_false, Hp.
Qed.

(** The end of a connection, by an error or after its reply. *)
Lemma end_ok s id c op started ec : server_ok s -> objects s !! id = Some c ->
  Connection.pending c = Some (op, started) ->
  (ec = operation_aborted -> Connection.socket_open c = false) ->
  let s' := ConnectionManager.release id (on_error ec id (finish id s)) in
  server_ok s' /\ objects s' = delete id (objects s) /\ accepting s' = accepting s
    /\ acceptor_open s' = acceptor_open s.
Proof.
  intros (Hobj & Hconn & Haw & Hacc & Hclosed) Hid Hp Hab. cbv zeta.
  destruct (Hobj id c Hid) as (Hopen & _ & _).
  assert (Hs : ConnectionManager.release id (on_error ec id (finish id s))
    = Server (acceptor_open s) (accepting s) (awaiting_stop s) (connections s ∖ {[id]}) (delete id (objects s))).
  { destruct (decide (ec = operation_aborted)) as [->|Hec].
    - rewrite (Hab eq_refl) in Hopen. symmetry in Hopen. apply bool_decide_eq_false in Hopen.
      cbn [on_error]. rewrite (release_finished id (finish id s) (Connection.set_pending None c));
        cbn; try done; [|by rewrite lookup_alter_eq, Hid].
      by rewrite delete_alter_eq, difference_disjoint_L by set_solver.
    - replace (on_error ec id _) with (ConnectionManager.stop id (finish id s)) by (by destruct ec).
      rewrite (release_finished id _ (Connection.stop (Connection.set_pending None c)));
        cbn; try done; [|by rewrite !lookup_alter_eq, Hid|set_solver].
      by rewrite !delete_alter_eq. }
  rewrite Hs. split; [|done]. apply server_ok_intro; cbn; try done.
  - intros id' c1. rewrite lookup_delete_Some. intros [Hne Hc1].
    rewrite (bool_decide_ext _ (id' ∈ connections s)); [by apply Hobj|].
    rewrite elem_of_difference, elem_of_singleton. split; [by intros [? _] | intros ?; split; congruence].
  - intros id' Hin. rewrite lookup_delete_ne by set_solver. apply Hconn. set_solver.
  - intros Hf. rewrite Hclosed by done. set_solver.
Qed.

Lemma signal_ok s : server_ok s -> server_ok (on_stop_signal s).
Proof.
  intros (Hobj & Hconn & Haw & Hacc & Hclosed). apply server_ok_intro; cbn; try done.
  intros id c. rewrite map_lookup_imap. intros (c1 & Hc1 & [= <-])%bind_Some.
  destruct (Hobj id c1 Hc1) as (Hopen & (op & started & Hp & Hstart) & Hhist).
  rewrite bool_decide_false by apply not_elem_of_empty. split_and!.
  - destruct (bool_decide (id ∈ connections s)); [done|]. by rewrite Hopen.
  - exists op, started. split; [|done]. by destruct (bool_decide _).
  - by destruct (bool_decide _).
Qed.

Abbreviation step := (step open_file doc_root) (only parsing).

Lemma step_ok s s' : server_ok s -> step s s' -> server_ok s'.
Proof.
  intros Hs Hstep. destruct Hstep as
    [s ec id g1 g2 status Hacc Hid|s id c data s' Hid Hp Hlen Hdata Hread
    |s id c started ec Hid Hp Hec Hab|s id c started ec Hid Hp Hec Hab|s Haw].
  - by apply accept_ok.
  - by eapply read_ok.
  - by eapply (end_ok s id c).
  - by eapply (end_ok s id c).
  - by apply signal_ok.
Qed.

Lemma reachable_ok s : reachable open_file doc_root s -> server_ok s.
Proof.
  unfold reachable. generalize initial_ok. generalize initial. intros s0 H0 Hsteps.
  induction Hsteps as [|s0 s1 s2 Hstep _ IH]; [done|]. apply IH. by eapply step_ok.
Qed.

(** *** Shutting down *)

(** Operations started on an open socket. *)
Definition may_succeed (c : Connection.t) : bool :=
  match Connection.pending c with Some (_, started) => started | None => false end.

Definition can_succeed (kc : N * Connection.t) : Prop := may_succeed kc.2 = true.

#[local] Instance can_succeed_dec kc : Decision (can_succeed kc).
Proof. unfold can_succeed. apply _. Defined.

Definition measure (s : server) : nat :=
  ((if accepting s then 1 else 0) + size (objects s)
   + size (filter can_succeed (objects s)))%nat.

Lemma filter_size_delete id (m : gmap N Connection.t) :
  (size (filter can_succeed (delete id m)) <= size (filter can_succeed m))%nat.
Proof. rewrite map_filter_delete, map_size_delete. destruct (filter _ m !! id); cbn; lia. Qed.

(** An operation that cannot succeed takes the place of one that could. *)
Lemma filter_size_alter id c c' (m : gmap N Connection.t) :
  m !! id = Some c -> may_succeed c = true -> may_succeed c' = false ->
  (size (filter can_succeed (alter (fun _ => c') id m)) < size (filter can_succeed m))%nat.
Proof.
  intros Hc Hs Hs'.
  assert (E : alter (fun _ => c') id m = <[id := c']> m).
  { apply map_eq. intros i. destruct (decide (id = i)) as [->|];
      [by rewrite lookup_alter_eq, lookup_insert_eq, Hc | by rewrite lookup_alter_ne, lookup_insert_ne]. }
  assert (Hin : filter can_succeed m !! id = Some c) by (by apply map_lookup_filter_Some).
  rewrite E, map_filter_insert_False by (unfold can_succeed; cbn; congruence).
  rewrite map_filter_delete, map_size_delete, Hin.
  assert (size (filter can_succeed m) <> 0)%nat by (eapply map_size_ne_0_lookup_2; eauto). lia.
Qed.

Lemma size_alter f id (m : gmap N Connection.t) : size (alter f id m) = size m.
Proof.
  rewrite <- !size_dom. f_equal. apply dom_alter_L.
Qed.

Lemma closed_read s s' id c data : server_ok s -> acceptor_open s = false ->
  objects s !! id = Some c -> Connection.pending c = Some (Connection.ReadOp, true) -> is_bytes data ->
  on_read open_file doc_root data id s = Some s' ->
  acceptor_open s' = false /\ (measure s' < measure s)%nat.
Proof.
  intros (Hobj & _ & _ & _ & Hclosed) Ho Hid Hp Hdata Hread.
  destruct (Hobj id c Hid) as (Hopen & _ & Hhist). rewrite (Hclosed Ho) in Hopen.
  rewrite bool_decide_false in Hopen by apply not_elem_of_empty.
  unfold on_read in Hread. rewrite Hid in Hread. cbn [mbind option_bind] in Hread.
  destruct (Connection.on_data _ _ _ _) as [c'|] eqn:E; [|done]. injection Hread as <-.
  destruct (on_data_ok _ _ _ _ Hp Hhist Hdata E) as (_ & _ & op & Hp'). rewrite Hopen in Hp'.
  split; [done|]. unfold measure. cbn. rewrite size_alter.
  assert (Hlt := filter_size_alter id c c' (objects s) Hid).
  unfold may_succeed in Hlt. rewrite Hp, Hp' in Hlt. specialize (Hlt eq_refl eq_refl).
  lia.
Qed.

Lemma closed_end s id c op started ec : server_ok s -> acceptor_open s = false ->
  objects s !! id = Some c -> Connection.pending c = Some (op, started) ->
  (ec = operation_aborted -> Connection.socket_open c = false) ->
  let s' := ConnectionManager.release id (on_error ec id (finish id s)) in
  acceptor_open s' = false /\ (measure s' < measure s)%nat.
Proof.
  intros Hs Ho Hid Hp Hab.
  destruct (end_ok s id c op started ec Hs Hid Hp Hab) as (_ & Hob & Hac & Hop). cbv zeta in *.
  rewrite Hop. split; [done|]. unfold measure. rewrite Hob, Hac, map_size_delete, Hid.
  pose proof (filter_size_delete id (objects s)) as Hle.
  assert (size (objects s) <> 0)%nat by (eapply map_size_ne_0_lookup_2; eauto). lia.
Qed.

Lemma closed_step s s' : server_ok s -> acceptor_open s = false -> step s s' ->
  acceptor_open s' = false /\ (measure s' < measure s)%nat.
Proof.
  intros Hs Ho Hstep. destruct Hstep as
    [s ec id g1 g2 status Hacc Hid|s id c data s' Hid Hp Hlen Hdata Hread
    |s id c started ec Hid Hp Hec Hab|s id c started ec Hid Hp Hec Hab|s Hwait].
  - unfold on_accept. cbn [acceptor_open accept_done]. rewrite Ho. cbn [negb]. split; [done|].
    unfold measure. cbn. rewrite Hacc. lia.
  - by eapply closed_read.
  - by eapply closed_end.
  - by eapply closed_end.
  - destruct Hs as (_ & _ & Haw & _). congruence.
Qed.

Lemma measure_bound s : (measure s <= 1 + 2 * size (objects s))%nat.
Proof.
  unfold measure.
  assert (size (filter can_succeed (objects s)) <= size (objects s))%nat
    by apply map_subseteq_size, map_filter_subseteq.
  destruct (accepting s); lia.
Qed.

Lemma closed_steps n s s' : server_ok s -> acceptor_open s = false -> nsteps step n s s' ->
  acceptor_open s' = false /\ server_ok s' /\ (n + measure s' <= measure s)%nat.
Proof.
  intros Hs Ho Hn. induction Hn as [s|n s s1 s2 Hstep _ IH]; [done|].
  destruct (closed_step s s1 Hs Ho Hstep) as [Ho1 Hlt].
  destruct (IH (step_ok _ _ Hs Hstep) Ho1) as (? & ? & ?). split_and!; [done..|lia].
Qed.

(** A state without step has nothing in progress. *)
Lemma closed_progress s : server_ok s -> acceptor_open s = false ->
  (~ exists s', step s s') <-> objects s = ∅ /\ accepting s = false.
Proof.
  intros Hs Ho. pose proof Hs as (Hobj & _ & Haw & _ & _). split.
  - intros Hno. split.
    + apply map_empty. intros id. destruct (objects s !! id) as [c|] eqn:Hid; [|done].
      destruct Hno. destruct (Hobj id c Hid) as (_ & (op & started & Hp & _) & _).
      destruct op; eexists; [by eapply (read_error_step _ _ _ id c started other_error)
        | by eapply (write_step _ _ _ id c started other_error)].
    + apply not_true_iff_false. intros Hacc. destruct Hno. eexists.
      apply (accept_step _ _ _ other_error (fresh (dom (objects s))) 0 0 Reply.ok); [done|].
      apply not_elem_of_dom, is_fresh.
  - intros [Hempty Hacc] (s' & Hstep). destruct Hstep; rewrite ?Hempty, ?lookup_empty in *; congruence.
Qed.

(** C27. In every state the server can reach, a connection of the manager is open and has
    exactly one operation in progress on its open socket, so it is never forgotten; a
    connection object outside the manager is closed and only lives until its pending
    handler has run, so none leaks; while the acceptor is open an accept is in progress,
    and once it is closed the manager is empty. *)
Theorem server_invariant s : reachable open_file doc_root s ->
  (forall id, id ∈ connections s -> exists c op, objects s !! id = Some c
     /\ Connection.socket_open c = true /\ Connection.pending c = Some (op, true))
  /\ (forall id c, objects s !! id = Some c -> id ∉ connections s ->
     Connection.socket_open c = false /\ exists op started, Connection.pending c = Some (op, started))
  /\ (acceptor_open s = true -> accepting s = true /\ awaiting_stop s = true)
  /\ (acceptor_open s = false -> connections s = ∅).
Proof.
  intros (Hobj & Hconn & Haw & Hacc & Hclosed)%reachable_ok. split_and!; [| |by intuition congruence|done].
  - intros id Hin. destruct (Hconn id Hin) as (c & Hc).
    destruct (Hobj id c Hc) as (Hopen & (op & started & Hp & Hst) & _).
    rewrite bool_decide_true in Hopen, Hst by done. rewrite (Hst eq_refl) in Hp. by exists c, op.
  - intros id c Hc Hin. destruct (Hobj id c Hc) as (Hopen & (op & started & Hp & _) & _).
    rewrite bool_decide_false in Hopen by done. eauto.
Qed.

(** C26. Each connection answers the octets it received as one request, however the network
    cut them and whatever the other connections do: the reply being written is [answer] of
    all of them, and once they begin with a complete request (of the grammar that the
    parser accepts) the reply to that request is being written. *)
Theorem replies_answer_requests s id c : reachable open_file doc_root s -> objects s !! id = Some c ->
  (forall started, Connection.pending c = Some (Connection.WriteOp, started) -> exists g1 g2,
     answer open_file doc_root g1 g2 (Connection.received c) = Some (Connection.reply c))
  /\ (forall req text rest, Connection.received c = text ++ rest -> request_text req text ->
     (exists started, Connection.pending c = Some (Connection.WriteOp, started))
     /\ Connection.reply c
        = RequestHandler.handle_request open_file doc_root req (Reply.Mk Reply.ok [] [])).
Proof.
  intros (Hobj & _)%reachable_ok Hc.
  destruct (Hobj id c Hc) as (_ & (op & started & Hp & _) & Hbytes & g1 & g2 & Hhist).
  rewrite Hp in *. split.
  - intros started' [= -> _]. by exists g1, g2.
  - intros req text rest Hr Ht.
    pose proof (proj2 (parse_exact g1 g2 _ _ req rest Hbytes) (conj eq_refl (ex_intro _ text (conj Hr Ht)))) as Hgood.
    unfold answer in Hhist. destruct op; rewrite Hgood in Hhist; [by destruct Hhist|].
    injection Hhist as <-. eauto.
Qed.

(** C29. Shutting down ends: after SIGINT or SIGTERM has closed the acceptor, at most one
    handler for the accept and two for each connection still run, whatever the order and
    outcome of the operations, and the server stops (no handler can run) exactly when no
    connection object is left and no accept is in progress. *)
Theorem shutdown_terminates s : reachable open_file doc_root s -> acceptor_open s = false ->
  forall n s', nsteps step n s s' ->
  (n <= 1 + 2 * size (objects s))%nat
  /\ ((~ exists s'', step s' s'') <-> objects s' = ∅ /\ accepting s' = false).
Proof.
  intros Hs%reachable_ok Ho n s' Hn. destruct (closed_steps n s s' Hs Ho Hn) as (Ho' & Hs' & Hle).
  split; [|by apply closed_progress]. pose proof (measure_bound s). lia.
Qed.
End Correctness.

(** ** A run *)

Definition sample_chunks : list bytes :=
  [bytes_of "GET /a+%62.html HT"; bytes_of "TP/1.0" ++ CRLF ++ [13]; [10]].

Definition sample_state (n : nat) : option server :=
  fold_left (fun s data => s ← s; on_read sample_files sample_root data 1%N s) (firstn n sample_chunks)
    (Some (on_accept success 1%N (Connection.new 7 7 Reply.ok) initial)).

Definition sample_at (n : nat) : server := default initial (sample_state n).

Definition sample_connection (s : server) : Connection.t :=
  default (Connection.new 7 7 Reply.ok) (objects s !! 1%N).

Lemma sample_read n data : (n < 3)%nat -> nth_error sample_chunks n = Some data ->
  step sample_files sample_root (sample_at n) (sample_at (S n)).
Proof.
  intros Hn Hdata. apply (read_step _ _ _ 1%N (sample_connection (sample_at n)) data);
    (destruct n as [|[|[|]]]; [| | |lia]; injection Hdata as <-);
    first [by decide_wf | by vm_compute].
Qed.

Lemma sample_reachable : reachable sample_files sample_root (sample_at 3).
Proof.
  apply (rtc_l _ _ (sample_at 0)); [by apply (accept_step _ _ initial success 1%N 7 7 Reply.ok)|].
  do 3 (eapply rtc_l; [by eapply sample_read; [lia|reflexivity]|]). apply rtc_refl.
Qed.

Lemma server_invariant_witness : exists c op, objects (sample_at 3) !! 1%N = Some c
  /\ Connection.socket_open c = true /\ Connection.pending c = Some (op, true).
Proof.
  apply (server_invariant sample_files sample_root (sample_at 3) sample_reachable).
  by apply (bool_decide_eq_true _).
Defined.

(** The reply in progress on the sample connection is the file. *)
Lemma replies_answer_requests_witness :
  exists c, objects (sample_at 3) !! 1%N = Some c
  /\ Connection.reply c = RequestHandler.handle_request sample_files sample_root
       (sample_get (bytes_of "/a+%62.html")) (Reply.Mk Reply.ok [] [])
  /\ Reply.content (Connection.reply c) = bytes_of "<p>hello</p>".
Proof.
  assert (Hc : objects (sample_at 3) !! 1%N = Some (sample_connection (sample_at 3))) by (by vm_compute).
  exists (sample_connection (sample_at 3)). split; [exact Hc|].
  split; [|vm_compute; reflexivity].
  destruct (replies_answer_requests sample_files sample_root (sample_at 3) 1%N _ sample_reachable Hc) as [_ H].
  apply (H (sample_get (bytes_of "/a+%62.html")) (concat sample_chunks) []); [by vm_compute|].
  pose proof (proj1 (parse_exact 7 7 (concat sample_chunks) RequestParser.expecting_newline_3
    (sample_get (bytes_of "/a+%62.html")) [] ltac:(decide_wf)) ltac:(vm_compute; reflexivity))
    as (_ & text & E & Ht).
  rewrite app_nil_r in E. rewrite E. exact Ht.
Defined.

(** The sample connection is stopped while its write is in progress. *)
Lemma sample_stopped : reachable sample_files sample_root (on_stop_signal (sample_at 3)).
Proof.
  eapply rtc_r; [apply sample_reachable|]. apply signal_step. by vm_compute.
Qed.

Lemma shutdown_terminates_witness :
  (~ exists s'', step sample_files sample_root (on_stop_signal (sample_at 3)) s'') <->
  objects (on_stop_signal (sample_at 3)) = ∅ /\ accepting (on_stop_signal (sample_at 3)) = false.
Proof.
  apply (shutdown_terminates sample_files sample_root _ sample_stopped eq_refl 0). constructor.
Defined.
