(* ===== verification/RtpExtensionMap.v ===== *)
(** * The registry of RTP header extensions:
      rtp_rtcp/include/rtp_header_extension_map.h and its .cc, with the extension types of
      rtp_rtcp_defines.h

    An RTPExtensionType is its enumerator's value; [ids_] is the array indexed by it.  The
    limits of api/rtp_parameters.h, which is not in the repository, are the class
    [RtpExtension] with the bounds of RFC 8285; the URIs, some of which are also there, are
    the parameter [Uri]. *)

From S2P Require Import Prelude.

Class RtpExtension := {
  kMinId : Z;
  kMaxId : Z;
  kMaxValueSize : Z;
  kOneByteHeaderExtensionMaxId : Z;
  kOneByteHeaderExtensionMaxValueSize : Z
}.

Class RtpExtensionLaws {ops : RtpExtension} := {
  kMinId_pos : 1 <= kMinId;
  kMaxId_u8 : kMaxId <= 255;
  kMaxValueSize_u8 : kMaxValueSize <= 255;
  one_byte_id : kOneByteHeaderExtensionMaxId <= 14;
  one_byte_size : kOneByteHeaderExtensionMaxValueSize <= 16
}.

(** The values of RFC 8285, for concrete runs. *)
#[global] Instance rfc8285 : RtpExtension | 100 := {|
  kMinId := 1; kMaxId := 255; kMaxValueSize := 255;
  kOneByteHeaderExtensionMaxId := 14; kOneByteHeaderExtensionMaxValueSize := 16
|}.

#[global] Instance rfc8285_laws : RtpExtensionLaws.
Proof. constructor; cbn; lia. Qed.

(** ** RTPExtensionType *)

Definition kRtpExtensionNone : Z := 0.
Definition kRtpExtensionTransmissionTimeOffset : Z := 1.
Definition kRtpExtensionAudioLevel : Z := 2.
Definition kRtpExtensionCsrcAudioLevel : Z := 3.
Definition kRtpExtensionInbandComfortNoise : Z := 4.
Definition kRtpExtensionAbsoluteSendTime : Z := 5.
Definition kRtpExtensionAbsoluteCaptureTime : Z := 6.
Definition kRtpExtensionVideoRotation : Z := 7.
Definition kRtpExtensionTransportSequenceNumber : Z := 8.
Definition kRtpExtensionTransportSequenceNumber02 : Z := 9.
Definition kRtpExtensionPlayoutDelay : Z := 10.
Definition kRtpExtensionVideoContentType : Z := 11.
Definition kRtpExtensionVideoLayersAllocation : Z := 12.
Definition kRtpExtensionVideoTiming : Z := 13.
Definition kRtpExtensionRtpStreamId : Z := 14.
Definition kRtpExtensionRepairedRtpStreamId : Z := 15.
Definition kRtpExtensionMid : Z := 16.
Definition kRtpExtensionGenericFrameDescriptor00 : Z := 17.
Definition kRtpExtensionGenericFrameDescriptor02 : Z := 18.
Definition kRtpExtensionColorSpace : Z := 19.
Definition kRtpExtensionVideoFrameTrackingId : Z := 20.
Definition kRtpExtensionNumberOfExtensions : Z := 21.

Definition known_type (type : Z) : Prop :=
  kRtpExtensionNone < type < kRtpExtensionNumberOfExtensions.

Module RtpHeaderExtensionMap.

Section map.
Context {limits : RtpExtension} {uri : Type} {uri_dec : EqDecision uri} (Uri : Z -> uri).

(** The order of kExtensions; each entry has the type and its URI. *)
Definition kExtensions : list Z := [
  kRtpExtensionTransmissionTimeOffset; kRtpExtensionAudioLevel; kRtpExtensionCsrcAudioLevel;
  kRtpExtensionAbsoluteSendTime; kRtpExtensionAbsoluteCaptureTime; kRtpExtensionVideoRotation;
  kRtpExtensionTransportSequenceNumber; kRtpExtensionTransportSequenceNumber02;
  kRtpExtensionPlayoutDelay; kRtpExtensionVideoContentType; kRtpExtensionVideoLayersAllocation;
  kRtpExtensionVideoTiming; kRtpExtensionRtpStreamId; kRtpExtensionRepairedRtpStreamId;
  kRtpExtensionMid; kRtpExtensionGenericFrameDescriptor00; kRtpExtensionGenericFrameDescriptor02;
  kRtpExtensionColorSpace; kRtpExtensionInbandComfortNoise; kRtpExtensionVideoFrameTrackingId
].

Definition kInvalidType : Z := kRtpExtensionNone.

Definition kInvalidId : Z := 0.

Record t := Mk { ids_ : list Z; extmap_allow_mixed_ : bool }.

Definition new (extmap_allow_mixed : bool) : t :=
  Mk (replicate (Z.to_nat kRtpExtensionNumberOfExtensions) kInvalidId) extmap_allow_mixed.

Definition GetId (this : t) (type : Z) : option Z :=
  check (kRtpExtensionNone <? type) ;;
  check (type <? kRtpExtensionNumberOfExtensions) ;;
  ids_ this !! Z.to_nat type.

Definition IsRegistered (this : t) (type : Z) : option bool :=
  id ← GetId this type; Some (negb (id =? kInvalidId)).

Definition SetExtmapAllowMixed (this : t) (extmap_allow_mixed : bool) : t :=
  Mk (ids_ this) extmap_allow_mixed.

(** The loop over the types, from [type] on, with the ids from [ids_[type]] on. *)
Fixpoint find_type (ids : list Z) (type id : Z) : Z :=
  match ids with
  | [] => kInvalidType
  | x :: ids' => if x =? id then type else find_type ids' (type + 1) id
  end.

Definition GetType (this : t) (id : Z) : option Z :=
  check (kMinId <=? id) ;;
  check (id <=? kMaxId) ;;
  Some (find_type (drop 1 (ids_ this)) 1 id).

Definition Register (this : t) (id type : Z) : option (t * bool) :=
  check (type >? kRtpExtensionNone) ;;
  check (type <? kRtpExtensionNumberOfExtensions) ;;
  if (id <? kMinId) || (id >? kMaxId) then Some (this, false) else
  registered_type ← GetType this id;
  if registered_type =? type then Some (this, true) else
  if negb (registered_type =? kInvalidType) then Some (this, false) else
  registered ← IsRegistered this type;
  if registered : bool then Some (this, false) else
  Some (Mk (<[Z.to_nat type := u8 id]> (ids_ this)) (extmap_allow_mixed_ this), true).

(** The first entry of kExtensions with the property. *)
Definition RegisterByType (this : t) (id type : Z) : option (t * bool) :=
  match List.find (fun e => type =? e) kExtensions with
  | Some e => Register this id e
  | None => None   (* RTC_DCHECK_NOTREACHED *)
  end.

Definition RegisterByUri (this : t) (id : Z) (u : uri) : option (t * bool) :=
  match List.find (fun e => bool_decide (u = Uri e)) kExtensions with
  | Some e => Register this id e
  | None => Some (this, false)
  end.

Definition Deregister (this : t) (u : uri) : t :=
  match List.find (fun e => bool_decide (Uri e = u)) kExtensions with
  | Some e => Mk (<[Z.to_nat e := kInvalidId]> (ids_ this)) (extmap_allow_mixed_ this)
  | None => this
  end.

(** The loop of the constructor and of Reset over (id, uri) pairs. *)
Fixpoint register_all (this : t) (extensions : list (Z * uri)) : option t :=
  match extensions with
  | [] => Some this
  | (id, u) :: rest => '(this, _) ← RegisterByUri this id u; register_all this rest
  end.

Definition of_extensions (extensions : list (Z * uri)) : option t :=
  register_all (new false) extensions.

Definition Reset (this : t) (extensions : list (Z * uri)) : option t :=
  register_all (Mk (map (fun _ => kInvalidId) (ids_ this)) (extmap_allow_mixed_ this)) extensions.

End map.

End RtpHeaderExtensionMap.

Import RtpHeaderExtensionMap.

Section facts.
Context {limits : RtpExtension} {limits_laws : RtpExtensionLaws}.
Context {uri : Type} {uri_dec : EqDecision uri} (Uri : Z -> uri).

(** One id per type: the used ids are valid, distinct, and none belongs to the type None. *)
Record wf (m : t) : Prop := {
  wf_length : length (ids_ m) = 21%nat;
  wf_none : ids_ m !! 0%nat = Some 0;
  wf_valid i id : ids_ m !! i = Some id -> id = 0 \/ kMinId <= id <= kMaxId;
  wf_unique i j id : ids_ m !! i = Some id -> ids_ m !! j = Some id -> id <> 0 -> i = j
}.

(** The states that the operations lead to. *)
Inductive reachable : t -> Prop :=
  | reach_new mixed : reachable (new mixed)
  | reach_type m id type m' ok : reachable m -> RegisterByType m id type = Some (m', ok) -> reachable m'
  | reach_uri m id u m' ok : reachable m -> RegisterByUri Uri m id u = Some (m', ok) -> reachable m'
  | reach_deregister m u : reachable m -> reachable (Deregister Uri m u)
  | reach_reset m extensions m' : reachable m -> Reset Uri m extensions = Some m' -> reachable m'
  | reach_mixed m mixed : reachable m -> reachable (SetExtmapAllowMixed m mixed).

Lemma find_type_spec ids type id : 0 < type ->
  (find_type ids type id = 0 /\ id ∉ ids)
  \/ exists i, ids !! i = Some id /\ find_type ids type id = type + Z.of_nat i.
Proof.
  revert type. induction ids as [|x ids IH]; intros type Ht; cbn [find_type].
  - left. split; [done|]. apply not_elem_of_nil.
  - destruct (Z.eqb_spec x id) as [->|Hx]; [right; exists 0%nat; split; [done|lia]|].
    destruct (IH (type + 1) ltac:(lia)) as [[E Hin]|(i & Hi & E)].
    + left. split; [done|]. by intros [?|?]%elem_of_cons.
    + right. exists (S i). split; [done|]. lia.
Qed.

Lemma new_wf mixed : wf (new mixed).
Proof.
  constructor; [done|done| |].
  - intros i id [-> _]%lookup_replicate. by left.
  - intros i j id [-> _]%lookup_replicate. done.
Qed.

Lemma lookup_type m type : wf m -> known_type type -> exists id, ids_ m !! Z.to_nat type = Some id.
Proof.
  intros Hm Ht. apply lookup_lt_is_Some. rewrite (wf_length _ Hm).
  unfold known_type, kRtpExtensionNone, kRtpExtensionNumberOfExtensions in Ht. lia.
Qed.

Lemma GetId_spec m type : wf m -> known_type type -> GetId m type = ids_ m !! Z.to_nat type.
Proof.
  intros Hm [H0 H1]. unfold GetId.
  by rewrite (proj2 (Z.ltb_lt _ _) H0), (proj2 (Z.ltb_lt _ _) H1).
Qed.

Lemma GetType_spec m id : wf m -> kMinId <= id <= kMaxId ->
  (GetType m id = Some kInvalidType /\ id ∉ ids_ m)
  \/ exists type, known_type type /\ ids_ m !! Z.to_nat type = Some id /\ GetType m id = Some type.
Proof.
  intros Hm Hid. unfold GetType. do 2 leb_true. cbn [check mbind option_bind].
  pose proof kMinId_pos. pose proof (wf_none _ Hm) as H0. pose proof (wf_length _ Hm) as Hlen.
  destruct (ids_ m) as [|x ids] eqn:E; [done|]. injection H0 as ->.
  change (drop 1 (0 :: ids)) with ids.
  destruct (find_type_spec ids 1 id ltac:(lia)) as [[-> Hin]|(i & Hi & ->)].
  - left. split; [done|]. intros [?|?]%elem_of_cons; [lia|done].
  - right. exists (1 + Z.of_nat i). pose proof (lookup_lt_Some _ _ _ Hi).
    unfold known_type, kRtpExtensionNone, kRtpExtensionNumberOfExtensions. cbn in Hlen.
    replace (Z.to_nat (1 + Z.of_nat i)) with (S i) by lia. splits; try done; lia.
Qed.

Lemma Register_cases m id type m' ok : wf m -> Register m id type = Some (m', ok) -> known_type type /\
  ((m' = m /\ (ok = true -> (ids_ m) !! (Z.to_nat type) = Some id))
   \/ (ok = true /\ kMinId <= id <= kMaxId /\ id ∉ ids_ m
       /\ m' = Mk (<[Z.to_nat type := id]> (ids_ m)) (extmap_allow_mixed_ m))).
Proof.
  intros Hm. unfold Register.
  destruct (Z.gtb_spec type kRtpExtensionNone) as [H0|]; [|done].
  destruct (Z.ltb_spec type kRtpExtensionNumberOfExtensions) as [H1|]; [|done].
  cbn [check mbind option_bind]. assert (Ht : known_type type) by (split; lia).
  destruct (_ || _) eqn:Hrange; [intros [= <- <-]; split; [done|by left]|].
  apply orb_false_iff in Hrange as [Hlo Hhi]. apply Z.ltb_ge in Hlo. rewrite Z.gtb_ltb in Hhi. apply Z.ltb_ge in Hhi.
  pose proof kMinId_pos. pose proof kMaxId_u8.
  destruct (GetType_spec m id Hm ltac:(lia)) as [[-> Hin]|(ty & Hty & Hlook & ->)]; cbn [mbind option_bind].
  - unfold kInvalidType. destruct (Z.eqb_spec kRtpExtensionNone type); [lia|].
    rewrite Z.eqb_refl. cbn [negb].
    unfold IsRegistered. rewrite GetId_spec by done.
    destruct (lookup_type m type Hm Ht) as (x & Hx). rewrite Hx. cbn [mbind option_bind].
    destruct (negb _); intros [= <- <-]; (split; [done|]); [by left|]. right.
    rewrite u8_id by wordlia. by splits.
  - destruct (Z.eqb_spec ty type) as [->|]; [intros [= <- <-]; split; [done|by left]|].
    destruct (Z.eqb_spec ty kInvalidType) as [->|]; [by destruct Hty|].
    intros [= <- <-]. split; [done|by left].
Qed.

(** Writing a fresh or invalid id keeps the ids distinct. *)
Lemma insert_wf m type id : wf m -> known_type type ->
  id = 0 \/ (kMinId <= id <= kMaxId /\ id ∉ ids_ m) ->
  wf (Mk (<[Z.to_nat type := id]> (ids_ m)) (extmap_allow_mixed_ m)).
Proof.
  intros Hm Ht Hid. destruct (lookup_type m type Hm Ht) as (x & Hx).
  pose proof (lookup_lt_Some _ _ _ Hx) as Hlt.
  assert (Hne : Z.to_nat type <> 0%nat) by (unfold known_type, kRtpExtensionNone in Ht; lia).
  constructor; cbn [ids_].
  - rewrite length_insert. apply Hm.
  - rewrite list_lookup_insert_ne by done. apply Hm.
  - intros i y [(_ & <- & _)|[_ Hy]]%list_lookup_insert_Some; [|by apply Hm in Hy].
    destruct Hid as [?|[? _]]; [by left|by right].
  - intros i j y [(<- & <- & _)|[Hi Hy]]%list_lookup_insert_Some
      [(<- & E & _)|[Hj Hy']]%list_lookup_insert_Some Hy0; [done| | |].
    + destruct Hid as [?|[_ Hin]]; [done|]. by apply list_elem_of_lookup_2 in Hy'.
    + subst. destruct Hid as [?|[_ Hin]]; [done|]. by apply list_elem_of_lookup_2 in Hy.
    + by eapply (wf_unique _ Hm).
Qed.

Lemma Register_wf m id type m' ok : wf m -> Register m id type = Some (m', ok) -> wf m'.
Proof.
  intros Hm Hr. destruct (Register_cases m id type m' ok Hm Hr) as (Ht & [[-> _]|(_ & Hid & Hin & ->)]); [done|].
  apply insert_wf; auto.
Qed.

Lemma RegisterByUri_wf m id u m' ok : wf m -> RegisterByUri Uri m id u = Some (m', ok) -> wf m'.
Proof.
  intros Hm. unfold RegisterByUri. destruct (List.find _ _); [by apply Register_wf|by intros [= <- _]].
Qed.

Lemma register_all_wf extensions m m' : wf m -> register_all Uri m extensions = Some m' -> wf m'.
Proof.
  revert m. induction extensions as [|[id u] rest IH]; intros m Hm; cbn [register_all]; [by intros [= <-]|].
  destruct (RegisterByUri Uri m id u) as [[m1 ok]|] eqn:E; [|done]. apply IH. by eapply RegisterByUri_wf.
Qed.

Lemma kExtensions_known e : e ∈ kExtensions -> known_type e.
Proof.
  revert e. apply list.Forall_forall. repeat (apply list.Forall_cons; split; [done|]). constructor.
Qed.

Lemma map_const {A B} (b : B) (l : list A) : map (fun _ => b) l = replicate (length l) b.
Proof. induction l as [|x l IH]; cbn; congruence. Qed.

Lemma mixed_wf m mixed : wf m -> wf (Mk (ids_ m) mixed).
Proof. intros []. by constructor. Qed.

Lemma reachable_wf m : reachable m -> wf m.
Proof.
  induction 1 as [mixed|m id type m' ok _ Hm Hr|m id u m' ok _ Hm Hr|m u _ Hm|m exts m' _ Hm Hr|m mixed _ Hm].
  - apply new_wf.
  - unfold RegisterByType in Hr. destruct (List.find _ _); [|done]. by eapply Register_wf.
  - by eapply RegisterByUri_wf.
  - unfold Deregister. destruct (List.find _ _) as [e|] eqn:E; [|done].
    apply insert_wf; [done| |by left]. apply kExtensions_known, list_elem_of_In.
    by apply find_some in E as [? _].
  - eapply register_all_wf; [|exact Hr]. replace (map _ _) with (ids_ (new false)).
    + apply mixed_wf, new_wf.
    + rewrite map_const, (wf_length _ Hm). done.
  - by apply mixed_wf.
Qed.

(** C38. In every state of the registry that registrations, deregistrations and resets lead to,
    extension types and ids are in one-to-one correspondence: looking up the type of the id
    of a registered type gives it back and conversely, no id serves two types, and a
    registration gives the type its id and changes no other, or changes nothing when it is
    refused. *)
Theorem extension_registry m : reachable m ->
  (forall type id, known_type type -> GetId m type = Some id -> id <> kInvalidId -> GetType m id = Some type)
  /\ (forall id type, kMinId <= id <= kMaxId -> GetType m id = Some type -> type <> kInvalidType ->
      GetId m type = Some id)
  /\ (forall id type m' ok, Register m id type = Some (m', ok) ->
      if ok then GetId m' type = Some id
        /\ forall other, known_type other -> other <> type -> GetId m' other = GetId m other
      else m' = m).
Proof.
  intros Hm%reachable_wf. splits.
  - intros type id Ht. rewrite GetId_spec by done. intros Hid H0.
    destruct (wf_valid _ Hm _ _ Hid) as [?|Hrange]; [done|].
    destruct (GetType_spec m id Hm Hrange) as [[_ Hin]|(ty & Hty & Hlook & ->)].
    + destruct Hin. by eapply list_elem_of_lookup_2.
    + f_equal. pose proof (wf_unique _ Hm _ _ _ Hlook Hid H0).
      unfold known_type, kRtpExtensionNone in *. lia.
  - intros id type Hid Htype Hnone.
    destruct (GetType_spec m id Hm Hid) as [[E _]|(ty & Hty & Hlook & E)]; [congruence|].
    assert (ty = type) as -> by congruence. by rewrite GetId_spec.
  - intros id type m' ok Hr.
    destruct (Register_cases m id type m' ok Hm Hr) as (Ht & [[-> Hsame]|(-> & Hid & Hin & ->)]).
    + destruct ok; [|done]. split; [|done]. rewrite GetId_spec by done. by apply Hsame.
    + assert (Hwf := insert_wf m type id Hm Ht (or_intror (conj Hid Hin))).
      destruct (lookup_type m type Hm Ht) as (x & Hx%lookup_lt_Some). split.
      * rewrite GetId_spec by done. cbn [ids_]. by rewrite list_lookup_insert_eq.
      * intros other Ho Hne. rewrite !GetId_spec by done. cbn [ids_]. rewrite list_lookup_insert_ne; [done|].
        unfold known_type, kRtpExtensionNone in *. lia.
Qed.
End facts.

Definition sample_map : t := Mk [0; 3; 1; 0; 0; 0; 0; 0; 5; 0; 0; 0; 0; 0; 0; 0; 0; 0; 0; 0; 0] true.

Lemma sample_map_reachable : reachable (fun type : Z => type) sample_map.
Proof.
  apply (reach_type _ (Mk (<[1%nat := 3]> (<[2%nat := 1]> (ids_ (new true)))) true)
    5 kRtpExtensionTransportSequenceNumber _ true); [|reflexivity].
  apply (reach_type _ (Mk (<[2%nat := 1]> (ids_ (new true))) true)
    3 kRtpExtensionTransmissionTimeOffset _ true); [|reflexivity].
  apply (reach_type _ (new true) 1 kRtpExtensionAudioLevel _ true); [|reflexivity]. apply (reach_new _ true).
Qed.

Lemma extension_registry_witness :
  GetType sample_map 5 = Some kRtpExtensionTransportSequenceNumber
  /\ GetId sample_map kRtpExtensionTransportSequenceNumber = Some 5.
Proof.
  destruct (extension_registry (fun type : Z => type) sample_map sample_map_reachable) as (Hid & Htype & _).
  split; [by apply Hid|]. by apply Htype.
Defined.
