(* ===== verification/RtpPacket.v ===== *)
(** * RTP packets: rtp_rtcp/source/rtp_packet.{h,cc}

    [RtpPacket] follows the class: its members, the parser and the operations that build a
    packet in place in its buffer.  The buffer, rtc::CopyOnWriteBuffer of rtc_base, is not
    in the repository; it is the class [CowBuffer] with its documented behaviour: the
    octets [cow_mem] of its capacity, of which the first [cow_size] are its content; a
    store through MutableData makes it unshared, and only the content survives that.
    [None] is undefined behaviour or a failed assertion. *)

From S2P Require Import Prelude.
From S2P Require Import ByteIo.
From S2P Require Import Buffers.
From S2P Require Import RtcpCore.
From S2P Require Import RtpExtensionMap.

Class CowBuffer (buf : Type) := {
  cow_new : Z -> buf;
  cow_mem : buf -> bytes;
  cow_size : buf -> Z;
  cow_unshared : buf -> bool;
  cow_store : buf -> Z -> bytes -> option buf;
  cow_SetSize : buf -> Z -> buf;
  cow_SetData : buf -> bytes -> buf;
  cow_Slice : buf -> Z -> Z -> buf
}.

(** The content. *)
Definition cow_data {buf} `{CowBuffer buf} (b : buf) : bytes :=
  take (Z.to_nat (cow_size b)) (cow_mem b).

Definition cow_capacity {buf} `{CowBuffer buf} (b : buf) : Z := zlen (cow_mem b).

Class CowBufferLaws (buf : Type) {ops : CowBuffer buf} := {
  cow_octets (b : buf) : is_bytes (cow_mem b);
  cow_size_bounds (b : buf) : 0 <= cow_size b <= cow_capacity b;
  cow_new_spec n : 0 <= n -> cow_size (cow_new n) = n /\ cow_capacity (cow_new n) = n;
  (** memcpy or memset at MutableData() + off *)
  cow_store_spec (b : buf) off bs : 0 <= off -> off + zlen bs <= cow_capacity b -> is_bytes bs ->
    exists b' mem, cow_store b off bs = Some b' /\ cow_unshared b' = true
      /\ cow_size b' = cow_size b /\ zlen mem = cow_capacity b
      /\ take (Z.to_nat (cow_size b)) mem = cow_data b
      /\ (cow_unshared b = true -> mem = cow_mem b)
      /\ put mem off bs = Some (cow_mem b');
  cow_SetSize_spec (b : buf) n : 0 <= n <= cow_capacity b ->
    cow_size (cow_SetSize b n) = n /\ cow_capacity (cow_SetSize b n) = cow_capacity b
    /\ take (Z.to_nat (Z.min n (cow_size b))) (cow_mem (cow_SetSize b n))
       = take (Z.to_nat (Z.min n (cow_size b))) (cow_mem b)
    /\ (cow_unshared b = true -> cow_mem (cow_SetSize b n) = cow_mem b);
  cow_SetData_spec (b : buf) bs : is_bytes bs -> cow_data (cow_SetData b bs) = bs;
  cow_Slice_spec (b : buf) off n : 0 <= off -> 0 <= n -> off + n <= cow_size b ->
    cow_size (cow_Slice b off n) = n /\ cow_capacity (cow_Slice b off n) = cow_capacity b - off
    /\ cow_data (cow_Slice b off n) = take (Z.to_nat n) (drop (Z.to_nat off) (cow_mem b))
}.

(** A buffer that is never shared, for concrete runs. *)
Record plain_buffer := Plain { plain_octets : bytes; plain_size : Z }.

#[global] Instance plain_cow : CowBuffer plain_buffer := {
  cow_new n := Plain (replicate (Z.to_nat n) 0) n;
  cow_mem b := map u8 (plain_octets b);
  cow_size b := Z.max 0 (Z.min (plain_size b) (zlen (plain_octets b)));
  cow_unshared _ := true;
  cow_store b off bs := m ← put (map u8 (plain_octets b)) off bs; Some (Plain m (plain_size b));
  cow_SetSize b n := Plain (plain_octets b ++ replicate (Z.to_nat (n - zlen (plain_octets b))) 0) n;
  cow_SetData _ bs := Plain bs (zlen bs);
  cow_Slice b off n := Plain (drop (Z.to_nat off) (plain_octets b)) n
}.

Lemma map_u8_bytes l : is_bytes l -> map u8 l = l.
Proof. induction 1 as [|x l Hx _ IH]; cbn; [done|]. by rewrite IH, u8_id. Qed.

Lemma map_u8_octets l : is_bytes (map u8 l).
Proof. induction l as [|x l IH]; constructor; [apply u8_range|exact IH]. Qed.

Lemma put_octets b off bs m : is_bytes b -> is_bytes bs -> put b off bs = Some m -> is_bytes m.
Proof.
  unfold put. intros Hb Hbs. destruct (_ && _); [|done]. intros [= <-].
  apply list.Forall_app. split; [by apply Forall_take|]. apply list.Forall_app. split; [done|by apply Forall_drop].
Qed.

#[global] Instance plain_cow_laws : CowBufferLaws plain_buffer.
Proof.
  constructor; unfold cow_data, cow_capacity; cbn.
  - intros b. apply map_u8_octets.
  - intros b. rewrite length_map. lia.
  - intros n Hn. rewrite length_map, length_replicate. lia.
  - intros b off bs Ho Hc Hb. destruct (put_Some (map u8 (plain_octets b)) off bs Ho Hc) as (m & Hm).
    exists (Plain m (plain_size b)), (map u8 (plain_octets b)). rewrite Hm. pose proof (put_length _ _ _ _ Hm) as Hl.
    rewrite length_map in Hl. cbn. rewrite Hl, length_map.
    splits; try done. rewrite map_u8_bytes; [done|]. by eapply put_octets; [apply map_u8_octets| |exact Hm].
  - intros b n Hn. rewrite length_map in *. replace (Z.to_nat (n - zlen (plain_octets b))) with 0%nat by lia.
    cbn [replicate]. rewrite !app_nil_r. splits; try done; rewrite ?length_map; lia.
  - intros b bs Hb. rewrite map_u8_bytes by done. rewrite Z.min_id, Z.max_r, Nat2Z.id by lia. apply firstn_all.
  - intros b off n Ho Hn Hc. rewrite !length_map, length_drop in *. splits; try lia.
    rewrite <- skipn_map. f_equal. lia.
Qed.

Module RtpPacket.

Definition kFixedHeaderSize : Z := 12.
Definition kRtpVersion : Z := 2.
Definition kOneByteExtensionProfileId : Z := 0xBEDE.
Definition kTwoByteExtensionProfileId : Z := 0x1000.
Definition kTwobyteExtensionProfileIdAppBitsFilter : Z := 0xfff0.
Definition kOneByteExtensionHeaderLength : Z := 1.
Definition kTwoByteExtensionHeaderLength : Z := 2.
Definition kDefaultPacketSize : Z := 1500.
(** VideoTimingExtension::kPacerExitDeltaOffset *)
Definition kPacerExitDeltaOffset : Z := 7.

Record ExtensionInfo := Ext { id : Z; length : Z; offset : Z }.

Section packet.
Context {buf : Type} `{CowBuffer buf} `{RtpExtension} `{RtcNumerics}.

Record t := Mk {
  marker_ : bool;
  payload_type_ : Z;
  padding_size_ : Z;
  sequence_number_ : Z;
  timestamp_ : Z;
  ssrc_ : Z;
  payload_offset_ : Z;
  payload_size_ : Z;
  extensions_ : RtpHeaderExtensionMap.t;
  extension_entries_ : list ExtensionInfo;
  extensions_size_ : Z;
  buffer_ : buf
}.

Definition with_buffer (b : buf) (this : t) : t :=
  Mk (marker_ this) (payload_type_ this) (padding_size_ this) (sequence_number_ this)
    (timestamp_ this) (ssrc_ this) (payload_offset_ this) (payload_size_ this)
    (extensions_ this) (extension_entries_ this) (extensions_size_ this) b.

Definition with_marker (m : bool) (this : t) : t :=
  Mk m (payload_type_ this) (padding_size_ this) (sequence_number_ this)
    (timestamp_ this) (ssrc_ this) (payload_offset_ this) (payload_size_ this)
    (extensions_ this) (extension_entries_ this) (extensions_size_ this) (buffer_ this).

Definition with_payload_type (pt : Z) (this : t) : t :=
  Mk (marker_ this) pt (padding_size_ this) (sequence_number_ this)
    (timestamp_ this) (ssrc_ this) (payload_offset_ this) (payload_size_ this)
    (extensions_ this) (extension_entries_ this) (extensions_size_ this) (buffer_ this).

Definition with_sequence_number (n : Z) (this : t) : t :=
  Mk (marker_ this) (payload_type_ this) (padding_size_ this) n
    (timestamp_ this) (ssrc_ this) (payload_offset_ this) (payload_size_ this)
    (extensions_ this) (extension_entries_ this) (extensions_size_ this) (buffer_ this).

Definition with_timestamp (n : Z) (this : t) : t :=
  Mk (marker_ this) (payload_type_ this) (padding_size_ this) (sequence_number_ this)
    n (ssrc_ this) (payload_offset_ this) (payload_size_ this)
    (extensions_ this) (extension_entries_ this) (extensions_size_ this) (buffer_ this).

Definition with_ssrc (n : Z) (this : t) : t :=
  Mk (marker_ this) (payload_type_ this) (padding_size_ this) (sequence_number_ this)
    (timestamp_ this) n (payload_offset_ this) (payload_size_ this)
    (extensions_ this) (extension_entries_ this) (extensions_size_ this) (buffer_ this).

Definition with_layout (payload_offset payload_size padding_size : Z) (this : t) : t :=
  Mk (marker_ this) (payload_type_ this) padding_size (sequence_number_ this)
    (timestamp_ this) (ssrc_ this) payload_offset payload_size
    (extensions_ this) (extension_entries_ this) (extensions_size_ this) (buffer_ this).

Definition with_extensions (entries : list ExtensionInfo) (size : Z) (this : t) : t :=
  Mk (marker_ this) (payload_type_ this) (padding_size_ this) (sequence_number_ this)
    (timestamp_ this) (ssrc_ this) (payload_offset_ this) (payload_size_ this)
    (extensions_ this) entries size (buffer_ this).

Definition IdentifyExtensions (extensions : RtpHeaderExtensionMap.t) (this : t) : t :=
  Mk (marker_ this) (payload_type_ this) (padding_size_ this) (sequence_number_ this)
    (timestamp_ this) (ssrc_ this) (payload_offset_ this) (payload_size_ this)
    extensions (extension_entries_ this) (extensions_size_ this) (buffer_ this).

Definition size (this : t) : Z := payload_offset_ this + payload_size_ this + padding_size_ this.

Definition capacity (this : t) : Z := cow_capacity (buffer_ this).

Definition headers_size (this : t) : Z := payload_offset_ this.

Definition FreeCapacity (this : t) : Z := capacity this - size this.

Definition MaxPayloadSize (this : t) : Z := capacity this - headers_size this.

(** data()[off] *)
Definition data_at (this : t) (off : Z) : option Z := peek (cow_mem (buffer_ this)) off.

Definition payload (this : t) : bytes :=
  take (Z.to_nat (payload_size_ this)) (drop (Z.to_nat (payload_offset_ this)) (cow_mem (buffer_ this))).

(** Stores at WriteAt(off). *)
Definition WriteAt (off : Z) (bs : bytes) (this : t) : option t :=
  b ← cow_store (buffer_ this) off bs; Some (with_buffer b this).

Definition SetSize (n : Z) (this : t) : t := with_buffer (cow_SetSize (buffer_ this) n) this.

Definition Clear (this : t) : option t :=
  let this := Mk false 0 0 0 0 0 kFixedHeaderSize 0 (extensions_ this) [] 0 (buffer_ this) in
  this ← WriteAt 0 (replicate (Z.to_nat kFixedHeaderSize) 0) this;
  WriteAt 0 [u8 (Z.shiftl kRtpVersion 6)] (SetSize kFixedHeaderSize this).

(** The constructor with a capacity; [garbage] is what the members hold before it. *)
Definition new (extensions : RtpHeaderExtensionMap.t) (capacity : Z) : option t :=
  check (kFixedHeaderSize <=? capacity) ;;
  Clear (Mk false 0 0 0 0 0 0 0 extensions [] 0 (cow_new capacity)).

Definition csrc_count (this : t) : option Z :=
  b0 ← data_at this 0; Some (Z.land b0 0x0F).

(** The loop of Csrcs. *)
Fixpoint read_csrcs (this : t) (n : nat) (off : Z) : option (list Z) :=
  match n with
  | O => Some []
  | S n =>
      x ← read_u32 (cow_mem (buffer_ this)) off;
      xs ← read_csrcs this n (off + 4);
      Some (x :: xs)
  end.

Definition Csrcs (this : t) : option (list Z) :=
  num_csrc ← csrc_count this;
  check (kFixedHeaderSize + num_csrc * 4 <=? capacity this) ;;
  read_csrcs this (Z.to_nat num_csrc) kFixedHeaderSize.

Definition SetMarker (marker_bit : bool) (this : t) : option t :=
  let this := with_marker marker_bit this in
  b1 ← data_at this 1;
  if marker_bit then WriteAt 1 [Z.lor b1 0x80] this else WriteAt 1 [Z.land b1 0x7F] this.

Definition SetPayloadType (payload_type : Z) (this : t) : option t :=
  check (payload_type <=? 0x7F) ;;
  let this := with_payload_type payload_type this in
  b1 ← data_at this 1;
  WriteAt 1 [Z.lor (Z.land b1 0x80) payload_type] this.

Definition SetSequenceNumber (seq_no : Z) (this : t) : option t :=
  WriteAt 2 (ByteWriter.WriteBigEndian 2 seq_no) (with_sequence_number seq_no this).

Definition SetTimestamp (timestamp : Z) (this : t) : option t :=
  WriteAt 4 (ByteWriter.WriteBigEndian 4 timestamp) (with_timestamp timestamp this).

Definition SetSsrc (ssrc : Z) (this : t) : option t :=
  WriteAt 8 (ByteWriter.WriteBigEndian 4 ssrc) (with_ssrc ssrc this).

(** The loop of SetCsrcs. *)
Fixpoint write_csrcs (csrcs : list Z) (off : Z) (this : t) : option t :=
  match csrcs with
  | [] => Some this
  | csrc :: rest =>
      this ← WriteAt off (ByteWriter.WriteBigEndian 4 csrc) this;
      write_csrcs rest (off + 4) this
  end.

Definition SetCsrcs (csrcs : list Z) (this : t) : option t :=
  check (extensions_size_ this =? 0) ;;
  check (payload_size_ this =? 0) ;;
  check (padding_size_ this =? 0) ;;
  check (zlen csrcs <=? 0x0f) ;;
  check (kFixedHeaderSize + 4 * zlen csrcs <=? capacity this) ;;
  let this := with_layout (kFixedHeaderSize + 4 * zlen csrcs) (payload_size_ this) (padding_size_ this) this in
  b0 ← data_at this 0;
  n ← dchecked_cast_u8 (zlen csrcs);
  this ← WriteAt 0 [Z.lor (Z.land b0 0xF0) n] this;
  this ← write_csrcs csrcs kFixedHeaderSize this;
  Some (SetSize (payload_offset_ this) this).

Definition FindExtensionInfo (this : t) (ext_id : Z) : option ExtensionInfo :=
  List.find (fun e => id e =? ext_id) (extension_entries_ this).

(** Updates the profile's length field and clears the padding; returns the padded size. *)
Definition SetExtensionLengthMaybeAddZeroPadding (extensions_offset : Z) (this : t) : option (t * Z) :=
  extensions_words ← dchecked_cast_u16 ((extensions_size_ this + 3) / 4);
  this ← WriteAt (extensions_offset - 2) (ByteWriter.WriteBigEndian 2 extensions_words) this;
  let extension_padding_size := 4 * extensions_words - extensions_size_ this in
  this ← WriteAt (extensions_offset + extensions_size_ this)
           (replicate (Z.to_nat extension_padding_size) 0) this;
  Some (this, u16 (4 * extensions_words)).

(** The loop of PromoteToTwoByteHeaderExtension, over the entries from last to first; the
    entries come back in that order. *)
Fixpoint promote_loop (entries : list ExtensionInfo) (write_read_delta : Z) (this : t)
  : option (list ExtensionInfo * t) :=
  match entries with
  | [] => Some ([], this)
  | e :: rest =>
      let read_index := offset e in
      let write_index := read_index + write_read_delta in
      offset' ← dchecked_cast_u16 write_index;
      data ← load (cow_mem (buffer_ this)) read_index (Z.to_nat (length e));
      this ← WriteAt write_index data this;
      this ← WriteAt (write_index - 1) [length e] this;
      this ← WriteAt (write_index - 2) [id e] this;
      '(rest', this) ← promote_loop rest (write_read_delta - 1) this;
      Some (Ext (id e) (length e) offset' :: rest', this)
  end.

Definition PromoteToTwoByteHeaderExtension (this : t) : option t :=
  num_csrc ← csrc_count this;
  let extensions_offset := kFixedHeaderSize + num_csrc * 4 + 4 in
  check (0 <? zlen (extension_entries_ this)) ;;
  check (payload_size_ this =? 0) ;;
  profile ← read_u16 (cow_mem (buffer_ this)) (extensions_offset - 4);
  check (kOneByteExtensionProfileId =? profile) ;;
  '(entries, this) ← promote_loop (rev (extension_entries_ this)) (zlen (extension_entries_ this)) this;
  this ← WriteAt (extensions_offset - 4) (ByteWriter.WriteBigEndian 2 kTwoByteExtensionProfileId) this;
  let this := with_extensions (rev entries) (extensions_size_ this + zlen entries) this in
  '(this, padded) ← SetExtensionLengthMaybeAddZeroPadding extensions_offset this;
  let this := with_layout (extensions_offset + padded) (payload_size_ this) (padding_size_ this) this in
  Some (SetSize (payload_offset_ this) this).

(** The part of AllocateRawExtension after all checks: the header of the extension, its
    entry and the new sizes. *)
Definition append_extension (ext_id len profile_id extensions_offset num_csrc : Z) (this : t)
  : option (t * option (Z * Z)) :=
  let extension_header_size := if profile_id =? kOneByteExtensionProfileId
    then kOneByteExtensionHeaderLength else kTwoByteExtensionHeaderLength in
  let new_extensions_size := extensions_size_ this + extension_header_size + len in
  if extensions_offset + new_extensions_size >? capacity this then Some (this, None) else
  this ←
    (if extensions_size_ this =? 0 then
       check (payload_offset_ this =? kFixedHeaderSize + num_csrc * 4) ;;
       b0 ← data_at this 0;
       this ← WriteAt 0 [Z.lor b0 0x10] this;
       WriteAt (extensions_offset - 4) (ByteWriter.WriteBigEndian 2 profile_id) this
     else Some this);
  this ←
    (if profile_id =? kOneByteExtensionProfileId then
       i ← dchecked_cast_u8 ext_id;
       l ← dchecked_cast_u8 (len - 1);
       WriteAt (extensions_offset + extensions_size_ this) [Z.lor (u8 (Z.shiftl i 4)) l] this
     else
       i ← dchecked_cast_u8 ext_id;
       this ← WriteAt (extensions_offset + extensions_size_ this) [i] this;
       l ← dchecked_cast_u8 len;
       WriteAt (extensions_offset + extensions_size_ this + 1) [l] this);
  info_offset ← dchecked_cast_u16 (extensions_offset + extensions_size_ this + extension_header_size);
  info_length ← dchecked_cast_u8 len;
  let this := with_extensions (extension_entries_ this ++ [Ext (u8 ext_id) info_length info_offset])
                new_extensions_size this in
  '(this, padded) ← SetExtensionLengthMaybeAddZeroPadding extensions_offset this;
  let this := with_layout (extensions_offset + padded) (payload_size_ this) (padding_size_ this) this in
  Some (SetSize (payload_offset_ this) this, Some (info_offset, info_length)).

(** The view returned is (offset, length), None for nullptr. *)
Definition AllocateRawExtension (ext_id len : Z) (this : t) : option (t * option (Z * Z)) :=
  check (kMinId <=? ext_id) ;;
  check (ext_id <=? kMaxId) ;;
  check (1 <=? len) ;;
  check (len <=? kMaxValueSize) ;;
  match FindExtensionInfo this ext_id with
  | Some e => if length e =? len then Some (this, Some (offset e, len)) else Some (this, None)
  | None =>
      if payload_size_ this >? 0 then Some (this, None) else
      if padding_size_ this >? 0 then Some (this, None) else
      num_csrc ← csrc_count this;
      let extensions_offset := kFixedHeaderSize + num_csrc * 4 + 4 in
      let two_byte_header_required := (ext_id >? kOneByteHeaderExtensionMaxId)
        || (len >? kOneByteHeaderExtensionMaxValueSize) || (len =? 0) in
      check (negb two_byte_header_required || RtpHeaderExtensionMap.extmap_allow_mixed_ (extensions_ this)) ;;
      if extensions_size_ this >? 0 then
        profile_id ← read_u16 (cow_mem (buffer_ this)) (extensions_offset - 4);
        if (profile_id =? kOneByteExtensionProfileId) && two_byte_header_required then
          let expected_new_extensions_size := extensions_size_ this
            + zlen (extension_entries_ this) + kTwoByteExtensionHeaderLength + len in
          if extensions_offset + expected_new_extensions_size >? capacity this then Some (this, None) else
          this ← PromoteToTwoByteHeaderExtension this;
          append_extension ext_id len kTwoByteExtensionProfileId extensions_offset num_csrc this
        else append_extension ext_id len profile_id extensions_offset num_csrc this
      else
        append_extension ext_id len
          (if two_byte_header_required then kTwoByteExtensionProfileId else kOneByteExtensionProfileId)
          extensions_offset num_csrc this
  end.

(** nullptr is None inside. *)
Definition SetPayloadSize (size_bytes : Z) (this : t) : option (t * option Z) :=
  check (padding_size_ this =? 0) ;;
  if u64 (payload_offset_ this + size_bytes) >? capacity this then Some (this, None) else
  let this := with_layout (payload_offset_ this) size_bytes (padding_size_ this) this in
  Some (SetSize (u64 (payload_offset_ this + payload_size_ this)) this, Some (payload_offset_ this)).

Definition AllocatePayload (size_bytes : Z) (this : t) : option (t * option Z) :=
  '(this, _) ← SetPayloadSize 0 this;
  SetPayloadSize size_bytes this.

Definition SetPadding (padding_bytes : Z) (this : t) : option (t * bool) :=
  if u64 (payload_offset_ this + payload_size_ this + padding_bytes) >? capacity this
  then Some (this, false) else
  padding ← dchecked_cast_u8 padding_bytes;
  let this := with_layout (payload_offset_ this) (payload_size_ this) padding this in
  let this := SetSize (payload_offset_ this + payload_size_ this + padding_size_ this) this in
  if padding_size_ this >? 0 then
    let padding_offset := payload_offset_ this + payload_size_ this in
    let padding_end := padding_offset + padding_size_ this in
    this ← WriteAt padding_offset (replicate (Z.to_nat (padding_size_ this - 1)) 0) this;
    this ← WriteAt (padding_end - 1) [padding_size_ this] this;
    b0 ← data_at this 0;
    this ← WriteAt 0 [Z.lor b0 0x20] this;
    Some (this, true)
  else
    b0 ← data_at this 0;
    this ← WriteAt 0 [Z.land b0 (u8 (Z.lnot 0x20))] this;
    Some (this, true).

(** FindOrCreateExtensionInfo followed by the assignments to the entry. *)
Fixpoint set_entry (ext_id len off : Z) (entries : list ExtensionInfo) : list ExtensionInfo :=
  match entries with
  | [] => [Ext (u8 ext_id) len off]
  | e :: rest => if id e =? ext_id then Ext (id e) len off :: rest
                 else e :: set_entry ext_id len off rest
  end.

(** FindOrCreateExtensionInfo without an assignment: the new entry has length 0. *)
Definition create_entry (ext_id : Z) (entries : list ExtensionInfo) : list ExtensionInfo :=
  match List.find (fun e => id e =? ext_id) entries with
  | Some _ => entries
  | None => entries ++ [Ext (u8 ext_id) 0 0]
  end.

(** The loop over the header extensions, with [fuel] rounds: the entries and
    [extensions_size_]. *)
Fixpoint extension_loop (fuel : nat) (buffer : bytes) (profile extension_offset capacity : Z)
    (entries : list ExtensionInfo) (extensions_size : Z) : option (list ExtensionInfo * Z) :=
  let header_length := if profile =? kOneByteExtensionProfileId
    then kOneByteExtensionHeaderLength else kTwoByteExtensionHeaderLength in
  if extensions_size + header_length <? capacity then
    match fuel with
    | O => None
    | S fuel =>
        b ← peek buffer (extension_offset + extensions_size);
        if b =? 0 then
          extension_loop fuel buffer profile extension_offset capacity entries (extensions_size + 1)
        else
        '(ext_id, len) ←
          (if profile =? kOneByteExtensionProfileId then
             Some (Z.shiftr b 4, 1 + Z.land b 0xf)
           else
             l ← peek buffer (extension_offset + extensions_size + 1); Some (b, l));
        if (profile =? kOneByteExtensionProfileId)
           && ((ext_id =? 15) || ((ext_id =? 0) && negb (len =? 1)))
        then Some (entries, extensions_size) else
        if extensions_size + header_length + len >? capacity then Some (entries, extensions_size) else
        let off := extension_offset + extensions_size + header_length in
        if negb (IsValueInRange_u16 off) then Some (create_entry ext_id entries, extensions_size) else
        extension_loop fuel buffer profile extension_offset capacity
          (set_entry ext_id len off entries) (extensions_size + header_length + len)
    end
  else Some (entries, extensions_size).

(** The header extensions of ParseBuffer; None inside is "return false". *)
Definition parse_extensions (buffer : bytes) (size payload_offset : Z)
  : option (option (list ExtensionInfo * Z * Z)) :=
  let extension_offset := payload_offset + 4 in
  if extension_offset >? size then Some None else
  profile ← read_u16 buffer payload_offset;
  words ← read_u16 buffer (payload_offset + 2);
  let extensions_capacity := words * 4 in
  if extension_offset + extensions_capacity >? size then Some None else
  '(entries, extensions_size) ←
    (if negb (profile =? kOneByteExtensionProfileId)
        && negb (Z.land profile kTwobyteExtensionProfileIdAppBitsFilter =? kTwoByteExtensionProfileId)
     then Some ([], 0)
     else extension_loop (Z.to_nat extensions_capacity) buffer profile extension_offset
            extensions_capacity [] 0);
  Some (Some (entries, extensions_size, extension_offset + extensions_capacity)).

Definition ParseBuffer (buffer : bytes) (size : Z) (this : t) : option (t * bool) :=
  if size <? kFixedHeaderSize then Some (this, false) else
  b0 ← peek buffer 0;
  if negb (Z.shiftr b0 6 =? kRtpVersion) then Some (this, false) else
  let has_padding := negb (Z.land b0 0x20 =? 0) in
  let has_extension := negb (Z.land b0 0x10 =? 0) in
  let number_of_crcs := Z.land b0 0x0f in
  b1 ← peek buffer 1;
  let this := with_payload_type (Z.land b1 0x7f) (with_marker (negb (Z.land b1 0x80 =? 0)) this) in
  seq_no ← read_u16 buffer 2;
  timestamp ← read_u32 buffer 4;
  ssrc ← read_u32 buffer 8;
  let this := with_ssrc ssrc (with_timestamp timestamp (with_sequence_number seq_no this)) in
  if size <? kFixedHeaderSize + number_of_crcs * 4 then Some (this, false) else
  let this := with_layout (kFixedHeaderSize + number_of_crcs * 4) (payload_size_ this) (padding_size_ this) this in
  let this := with_extensions [] 0 this in
  '(this, ok) ←
    (if has_extension : bool then
       r ← parse_extensions buffer size (payload_offset_ this);
       match r with
       | None => Some (this, false)
       | Some (entries, extensions_size, payload_offset) =>
           Some (with_layout payload_offset (payload_size_ this) (padding_size_ this)
                   (with_extensions entries extensions_size this), true)
       end
     else Some (this, true));
  if negb ok then Some (this, false) else
  padding ← (if has_padding && (payload_offset_ this <? size) then peek buffer (size - 1) else Some 0);
  let this := with_layout (payload_offset_ this) (payload_size_ this) padding this in
  if has_padding && (payload_offset_ this <? size) && (padding =? 0) then Some (this, false) else
  if payload_offset_ this + padding_size_ this >? size then Some (this, false) else
  Some (with_layout (payload_offset_ this) (size - payload_offset_ this - padding_size_ this)
          (padding_size_ this) this, true).

Definition Parse (buffer : bytes) (buffer_size : Z) (this : t) : option (t * bool) :=
  '(this, ok) ← ParseBuffer buffer buffer_size this;
  if negb ok then this ← Clear this; Some (this, false) else
  let this := with_buffer (cow_SetData (buffer_ this) (take (Z.to_nat buffer_size) buffer)) this in
  check (size this =? buffer_size) ;;
  Some (this, true).

(** Parse of a CopyOnWriteBuffer, which the packet takes over. *)
Definition ParseBuf (buffer : buf) (this : t) : option (t * bool) :=
  '(this, ok) ← ParseBuffer (cow_mem buffer) (cow_size buffer) this;
  if negb ok then this ← Clear this; Some (this, false) else
  let this := with_buffer buffer this in
  check (size this =? cow_size buffer) ;;
  Some (this, true).

Definition CopyHeaderFrom (packet this : t) : t :=
  Mk (marker_ packet) (payload_type_ packet) 0 (sequence_number_ packet) (timestamp_ packet)
    (ssrc_ packet) (payload_offset_ packet) 0 (extensions_ packet) (extension_entries_ packet)
    (extensions_size_ packet) (cow_Slice (buffer_ packet) 0 (headers_size packet)).

(** The view of a registered extension, None inside for nullptr. *)
Definition FindExtension (type : Z) (this : t) : option (option (Z * Z)) :=
  ext_id ← RtpHeaderExtensionMap.GetId (extensions_ this) type;
  if ext_id =? RtpHeaderExtensionMap.kInvalidId then Some None else
  match FindExtensionInfo this ext_id with
  | None => Some None
  | Some e => Some (Some (offset e, length e))
  end.

Definition HasExtension (type : Z) (this : t) : option bool :=
  ext_id ← RtpHeaderExtensionMap.GetId (extensions_ this) type;
  if ext_id =? RtpHeaderExtensionMap.kInvalidId then Some false else
  Some (match FindExtensionInfo this ext_id with Some _ => true | None => false end).

Definition AllocateExtension (type len : Z) (this : t) : option (t * option (Z * Z)) :=
  let mixed := RtpHeaderExtensionMap.extmap_allow_mixed_ (extensions_ this) in
  if (len =? 0) || (len >? kMaxValueSize)
     || (negb mixed && (len >? kOneByteHeaderExtensionMaxValueSize)) then Some (this, None) else
  ext_id ← RtpHeaderExtensionMap.GetId (extensions_ this) type;
  if ext_id =? RtpHeaderExtensionMap.kInvalidId then Some (this, None) else
  if negb mixed && (ext_id >? kOneByteHeaderExtensionMaxId) then Some (this, None) else
  AllocateRawExtension ext_id len this.

(** The octets of a view into the buffer. *)
Definition view_octets (this : t) (off len : Z) : option bytes :=
  load (cow_mem (buffer_ this)) off (Z.to_nat len).

(** GetExtension into existing values: the extension's kId, and its Parse from the octets of
    a view into the values, with its result. *)
Definition GetExtension {A} (kId : Z) (Parse : bytes -> A -> option (A * bool)) (values : A) (this : t)
  : option (A * bool) :=
  raw ← FindExtension kId this;
  match raw with
  | None => Some (values, false)
  | Some (off, len) =>
      if len =? 0 then Some (values, false) else
      data ← view_octets this off len; Parse data values
  end.

(** GetExtension of one value, made by the default constructor. *)
Definition GetExtensionValue {A} (kId : Z) (Parse : bytes -> A -> option (A * bool)) (default : A) (this : t)
  : option (option A) :=
  '(value, ok) ← GetExtension kId Parse default this;
  Some (if ok : bool then Some value else None).

(** The extension's kId, ValueSize of the values, and Write of the values: the octets of
    the view after it, and its result. *)
Definition SetExtension (kId value_size : Z) (Write : bytes -> option (bytes * bool)) (this : t)
  : option (t * bool) :=
  '(this, buffer) ← AllocateExtension kId value_size this;
  match buffer with
  | None => Some (this, false)
  | Some (off, len) =>
      if len =? 0 then Some (this, false) else
      data ← view_octets this off len;
      '(data, ok) ← Write data;
      this ← WriteAt off data this;
      Some (this, ok)
  end.

Definition ReserveExtension (kId kValueSizeBytes : Z) (this : t) : option (t * bool) :=
  '(this, buffer) ← AllocateExtension kId kValueSizeBytes this;
  match buffer with
  | None => Some (this, false)
  | Some (off, len) =>
      if len =? 0 then Some (this, false) else
      this ← WriteAt off (replicate (Z.to_nat kValueSizeBytes) 0) this;
      Some (this, true)
  end.

(** The loop of ZeroMutableExtensions. *)
Fixpoint zero_loop (entries : list ExtensionInfo) (this : t) : option t :=
  match entries with
  | [] => Some this
  | e :: rest =>
      type ← RtpHeaderExtensionMap.GetType (extensions_ this) (id e);
      this ←
        (if type =? kRtpExtensionVideoTiming then
           if kPacerExitDeltaOffset <? length e then
             WriteAt (offset e + kPacerExitDeltaOffset)
               (replicate (Z.to_nat (length e - kPacerExitDeltaOffset)) 0) this
           else Some this
         else if (type =? kRtpExtensionTransportSequenceNumber)
              || (type =? kRtpExtensionTransportSequenceNumber02)
              || (type =? kRtpExtensionTransmissionTimeOffset)
              || (type =? kRtpExtensionAbsoluteSendTime) then
           WriteAt (offset e) (replicate (Z.to_nat (length e)) 0) this
         else Some this);
      zero_loop rest this
  end.

Definition ZeroMutableExtensions (this : t) : option t := zero_loop (extension_entries_ this) this.

(** The loop of RemoveExtension that copies the other extensions; None inside is
    "return false". *)
Fixpoint copy_extensions (this : t) (id_to_remove : Z) (entries : list ExtensionInfo)
    (found_extension : bool) (new_packet : t) : option (option (t * bool)) :=
  match entries with
  | [] => Some (Some (new_packet, found_extension))
  | e :: rest =>
      if id e =? id_to_remove then copy_extensions this id_to_remove rest true new_packet
      else
        '(new_packet, view) ← AllocateRawExtension (id e) (length e) new_packet;
        match view with
        | Some (off, len) =>
            if negb (len =? length e) then Some None else
            data ← load (cow_mem (buffer_ this)) (offset e) (Z.to_nat (length e));
            new_packet ← WriteAt off data new_packet;
            copy_extensions this id_to_remove rest found_extension new_packet
        | None => if negb (0 =? length e) then Some None
                  else copy_extensions this id_to_remove rest found_extension new_packet
        end
  end.

Definition RemoveExtension (type : Z) (this : t) : option (t * bool) :=
  id_to_remove ← RtpHeaderExtensionMap.GetId (extensions_ this) type;
  if id_to_remove =? RtpHeaderExtensionMap.kInvalidId then Some (this, false) else
  new_packet ← new (RtpHeaderExtensionMap.new false) kDefaultPacketSize;
  new_packet ← SetMarker (marker_ this) new_packet;
  new_packet ← SetPayloadType (payload_type_ this) new_packet;
  new_packet ← SetSequenceNumber (sequence_number_ this) new_packet;
  new_packet ← SetTimestamp (timestamp_ this) new_packet;
  new_packet ← SetSsrc (ssrc_ this) new_packet;
  let new_packet := IdentifyExtensions (extensions_ this) new_packet in
  copied ← copy_extensions this id_to_remove (extension_entries_ this) false new_packet;
  match copied with
  | None => Some (this, false)
  | Some (new_packet, found_extension) =>
      if negb found_extension then Some (this, false) else
      '(new_packet, p) ← AllocatePayload (payload_size_ this) new_packet;
      off ← p;   (* memcpy to nullptr *)
      new_packet ← WriteAt off (payload this) new_packet;
      '(new_packet, _) ← SetPadding (padding_size_ this) new_packet;
      Some (new_packet, true)
  end.

End packet.

Arguments t : clear implicits.

End RtpPacket.

Import RtpPacket.

(** ** What a packet is

    An abstract packet; [encode] is its wire format (RFC 3550, RFC 8285). *)
Record image := Image {
  im_marker : bool;
  im_payload_type : Z;
  im_sequence_number : Z;
  im_timestamp : Z;
  im_ssrc : Z;
  im_csrcs : list Z;
  im_two_byte : bool;
  im_extensions : list (Z * bytes);
  im_payload : bytes;
  im_padding : Z
}.

Definition item_header (two_byte : bool) (ext_id len : Z) : bytes :=
  if two_byte then [ext_id; len] else [16 * ext_id + (len - 1)].

Definition ext_item (two_byte : bool) (e : Z * bytes) : bytes :=
  item_header two_byte e.1 (zlen e.2) ++ e.2.

Definition ext_items (two_byte : bool) (exts : list (Z * bytes)) : bytes :=
  concat (map (ext_item two_byte) exts).

Definition profile_of (two_byte : bool) : Z :=
  if two_byte then kTwoByteExtensionProfileId else kOneByteExtensionProfileId.

(** The items filled up with zeroes to a multiple of four. *)
Definition words_of (items : bytes) : Z := (zlen items + 3) / 4.

Definition fill (items : bytes) : bytes := replicate (Z.to_nat (4 * words_of items - zlen items)) 0.

Definition ext_block (two_byte : bool) (exts : list (Z * bytes)) : bytes :=
  match exts with
  | [] => []
  | _ => be_bytes 2 (profile_of two_byte) ++ be_bytes 2 (words_of (ext_items two_byte exts))
         ++ ext_items two_byte exts ++ fill (ext_items two_byte exts)
  end.

Definition padding_octets (n : Z) : bytes :=
  if n =? 0 then [] else replicate (Z.to_nat (n - 1)) 0 ++ [n].

Definition first_octet (im : image) : Z :=
  128 + (if im_padding im =? 0 then 0 else 32)
  + (match im_extensions im with [] => 0 | _ => 16 end) + zlen (im_csrcs im).

Definition second_octet (im : image) : Z := (if im_marker im then 128 else 0) + im_payload_type im.

Definition header_octets (im : image) : bytes :=
  first_octet im :: second_octet im :: be_bytes 2 (im_sequence_number im)
  ++ be_bytes 4 (im_timestamp im) ++ be_bytes 4 (im_ssrc im).

Definition csrc_octets (im : image) : bytes := concat (map (be_bytes 4) (im_csrcs im)).

Definition encode (im : image) : bytes :=
  header_octets im ++ csrc_octets im ++ ext_block (im_two_byte im) (im_extensions im)
  ++ im_payload im ++ padding_octets (im_padding im).

Definition header_size (two_byte : bool) : Z := if two_byte then 2 else 1.

(** The entries of the extensions laid out from [start] on. *)
Fixpoint entries_of (two_byte : bool) (start : Z) (exts : list (Z * bytes)) : list ExtensionInfo :=
  match exts with
  | [] => []
  | (i, v) :: rest =>
      Ext i (zlen v) (start + header_size two_byte)
      :: entries_of two_byte (start + header_size two_byte + zlen v) rest
  end.

Definition ext_wf (two_byte : bool) (e : Z * bytes) : Prop :=
  1 <= e.1 <= (if two_byte then 255 else 14) /\ 1 <= zlen e.2 <= (if two_byte then 255 else 16)
  /\ is_bytes e.2.

Definition extensions_start (im : image) : Z := kFixedHeaderSize + 4 * zlen (im_csrcs im) + 4.

Definition payload_start (im : image) : Z :=
  kFixedHeaderSize + 4 * zlen (im_csrcs im) + zlen (ext_block (im_two_byte im) (im_extensions im)).

Record image_wf (im : image) : Prop := {
  wf_payload_type : 0 <= im_payload_type im < 128;
  wf_sequence_number : is_u16 (im_sequence_number im);
  wf_timestamp : is_u32 (im_timestamp im);
  wf_ssrc : is_u32 (im_ssrc im);
  wf_csrcs : Forall is_u32 (im_csrcs im) /\ zlen (im_csrcs im) <= 15;
  wf_extensions : Forall (ext_wf (im_two_byte im)) (im_extensions im);
  wf_ids : NoDup (map fst (im_extensions im));
  wf_block : extensions_start im + zlen (ext_items (im_two_byte im) (im_extensions im)) <= 65535;
  wf_payload : is_bytes (im_payload im);
  wf_padding : is_u8 (im_padding im)
}.

(** ** The parser on a wire format *)

Section parse.
Context {numerics : RtcNumerics} {numerics_laws : RtcNumericsLaws}.

Lemma length_item two e : zlen (ext_item two e) = header_size two + zlen e.2.
Proof. unfold ext_item, item_header, header_size. destruct two; rewrite length_app; cbn; lia. Qed.

Lemma items_snoc two exts e : ext_items two (exts ++ [e]) = ext_items two exts ++ ext_item two e.
Proof. unfold ext_items. rewrite map_app, concat_app. cbn [map concat]. by rewrite app_nil_r. Qed.

Lemma item_header_bytes two e : ext_wf two e -> is_bytes (item_header two e.1 (zlen e.2)).
Proof.
  intros (Hi & Hl & _). unfold item_header. destruct two; repeat constructor; unfold is_u8; lia.
Qed.

Lemma items_bytes two exts : Forall (ext_wf two) exts -> is_bytes (ext_items two exts).
Proof.
  induction 1 as [|e exts He Hw IH]; [constructor|]. unfold ext_items in *. cbn [map concat].
  apply list.Forall_app. split; [|exact IH]. apply list.Forall_app.
  split; [by apply item_header_bytes | apply He].
Qed.

Lemma set_entry_fresh ext_id len off entries : is_u8 ext_id -> ext_id ∉ map id entries ->
  set_entry ext_id len off entries = entries ++ [Ext ext_id len off].
Proof.
  intros Hu. induction entries as [|e entries IH]; intros Hin; cbn in *; [by rewrite u8_id|].
  apply not_elem_of_cons in Hin as [Hne Hin].
  destruct (Z.eqb_spec (id e) ext_id); [congruence|]. by rewrite IH.
Qed.

(** Trailing zeroes are skipped. *)
Lemma extension_loop_zeroes fuel pre n post profile start capacity entries :
  (n <= fuel)%nat -> start + capacity = zlen pre + Z.of_nat n ->
  start <= zlen pre ->
  exists size, extension_loop fuel (pre ++ replicate n 0 ++ post) profile start capacity entries
    (zlen pre - start) = Some (entries, size).
Proof.
  revert fuel pre. induction n as [|n IH]; intros fuel pre Hf Hcap Hstart.
  - destruct fuel; cbn [extension_loop]; set (hl := if profile =? _ then _ else _);
      assert (1 <= hl) by (unfold hl, kOneByteExtensionHeaderLength, kTwoByteExtensionHeaderLength; destruct (_ =? _); lia);
      rewrite (proj2 (Z.ltb_ge _ _)) by lia; eauto.
  - destruct fuel as [|fuel]; [lia|]. cbn [extension_loop replicate app].
    set (hl := if profile =? _ then _ else _).
    destruct (zlen pre - start + hl <? capacity); [|eauto].
    replace (start + (zlen pre - start)) with (zlen pre + 0) by lia.
    rewrite peek_app_at, peek_app_here by lia. cbn [mbind option_bind Z.eqb].
    destruct (IH fuel (pre ++ [0])) as (size & Hsize); [lia|rewrite length_app; cbn; lia..|].
    exists size. rewrite <- app_assoc in Hsize. cbn [app] in Hsize. rewrite <- Hsize. f_equal.
    rewrite length_app. cbn. lia.
Qed.

(** The profiles that announce one-byte or two-byte headers. *)
Lemma header_length_of two :
  (if profile_of two =? kOneByteExtensionProfileId then kOneByteExtensionHeaderLength
   else kTwoByteExtensionHeaderLength) = header_size two.
Proof. by destruct two. Qed.

(** One item. *)
Lemma extension_loop_item fuel pre two e post start capacity entries :
  ext_wf two e -> 0 <= start <= zlen pre ->
  zlen pre - start + header_size two + zlen e.2 <= capacity -> zlen pre + header_size two <= 65535 ->
  e.1 ∉ map id entries ->
  extension_loop (S fuel) (pre ++ ext_item two e ++ post) (profile_of two) start capacity entries
    (zlen pre - start)
  = extension_loop fuel ((pre ++ ext_item two e) ++ post) (profile_of two) start capacity
      (entries ++ [Ext e.1 (zlen e.2) (zlen pre + header_size two)])
      (zlen (pre ++ ext_item two e) - start).
Proof.
  intros (Hi & Hl & Hv) Hstart Hcap Hoff Hin. destruct e as [i v]. cbn [fst snd] in *.
  cbn [extension_loop]. rewrite header_length_of.
  rewrite (proj2 (Z.ltb_lt _ _)) by (destruct two; cbn [header_size] in *; lia).
  replace (start + (zlen pre - start)) with (zlen pre + 0) by lia.
  assert (Hloop : forall size, size = zlen (pre ++ ext_item two (i, v)) - start ->
    extension_loop fuel (pre ++ ext_item two (i, v) ++ post) (profile_of two) start capacity
      (set_entry i (zlen v) (zlen pre + 0 + header_size two) entries) size
    = extension_loop fuel ((pre ++ ext_item two (i, v)) ++ post) (profile_of two) start capacity
        (entries ++ [Ext i (zlen v) (zlen pre + header_size two)])
        (zlen (pre ++ ext_item two (i, v)) - start)).
  { intros size ->. rewrite set_entry_fresh by (try done; destruct two; unfold is_u8; lia).
    rewrite <- app_assoc. by rewrite Z.add_0_r. }
  assert (Hsize : zlen pre - start + header_size two + zlen v = zlen (pre ++ ext_item two (i, v)) - start)
    by (rewrite length_app, Nat2Z.inj_add, length_item; cbn [snd]; lia).
  rewrite (peek_app_at pre) by lia.
  destruct two; cbn [header_size profile_of] in *.
  - change (peek (ext_item true (i, v) ++ post) 0) with (Some i). cbn [mbind option_bind].
    rewrite (proj2 (Z.eqb_neq i 0)) by lia.
    change (kTwoByteExtensionProfileId =? kOneByteExtensionProfileId) with false. cbn [andb].
    replace (zlen pre + 0 + 1) with (zlen pre + 1) by lia. rewrite peek_app_at by lia.
    change (peek (ext_item true (i, v) ++ post) 1) with (Some (zlen v)). cbn [mbind option_bind].
    rewrite Z.gtb_ltb, (proj2 (Z.ltb_ge _ _)) by lia.
    rewrite IsValueInRange_u16_iff, (proj2 (Z.leb_le _ _)) by lia. cbn [negb]. by apply Hloop.
  - change (peek (ext_item false (i, v) ++ post) 0) with (Some (16 * i + (zlen v - 1))). cbn [mbind option_bind].
    rewrite (proj2 (Z.eqb_neq (16 * i + (zlen v - 1)) 0)) by lia.
    change (kOneByteExtensionProfileId =? kOneByteExtensionProfileId) with true. cbn [andb].
    rewrite Z.shiftr_div_pow2, (land_mask 4 15) by done.
    replace ((16 * i + (zlen v - 1)) / 2 ^ 4) with i by (change (2 ^ 4) with 16; dlia).
    replace (1 + (16 * i + (zlen v - 1)) mod 2 ^ 4) with (zlen v) by (change (2 ^ 4) with 16; dlia).
    cbn [mbind option_bind]. rewrite (proj2 (Z.eqb_neq i 15)), (proj2 (Z.eqb_neq i 0)) by lia. cbn [orb andb].
    rewrite Z.gtb_ltb, (proj2 (Z.ltb_ge _ _)) by lia.
    rewrite IsValueInRange_u16_iff, (proj2 (Z.leb_le _ _)) by lia. cbn [negb]. by apply Hloop.
Qed.

Lemma entries_of_ids two start exts : map id (entries_of two start exts) = map fst exts.
Proof. revert start. induction exts as [|[i v] exts IH]; intros start; cbn; [done|]. by rewrite IH. Qed.

(** All items, then the zeroes. *)
Lemma extension_loop_items two exts n post start capacity : forall fuel pre entries,
  Forall (ext_wf two) exts -> 0 <= start <= zlen pre ->
  NoDup (map id entries ++ map fst exts) ->
  capacity = zlen pre - start + zlen (ext_items two exts) + Z.of_nat n ->
  zlen pre + zlen (ext_items two exts) <= 65535 ->
  zlen (ext_items two exts) + Z.of_nat n <= Z.of_nat fuel ->
  exists size, extension_loop fuel (pre ++ ext_items two exts ++ replicate n 0 ++ post) (profile_of two)
    start capacity entries (zlen pre - start)
  = Some (entries ++ entries_of two (zlen pre) exts, size).
Proof.
  induction exts as [|e exts IH]; intros fuel pre entries Hw Hstart Hnd Hcap Hoff Hf.
  - cbn [entries_of ext_items map concat app]. rewrite app_nil_r. cbn in Hf, Hcap.
    apply extension_loop_zeroes; lia.
  - apply list.Forall_cons in Hw as [He Hw].
    assert (E : ext_items two (e :: exts) = ext_item two e ++ ext_items two exts) by done.
    rewrite E, length_app, Nat2Z.inj_add, length_item in *. pose proof He as (_ & Hl & _).
    assert (Hhs : 1 <= header_size two) by (destruct two; cbn; lia).
    destruct fuel as [|fuel]; [lia|]. rewrite <- app_assoc.
    cbn [map] in Hnd. apply list.NoDup_app in Hnd as (Hn1 & Hn2 & Hn3). apply list.NoDup_cons in Hn3 as [Hn3 Hn4].
    rewrite extension_loop_item; try done; try lia; [|intros Hin; by apply (Hn2 _ Hin), list_elem_of_here].
    destruct (IH fuel (pre ++ ext_item two e) (entries ++ [Ext e.1 (zlen e.2) (zlen pre + header_size two)]))
      as (size & Hsize); try done; rewrite ?length_app, ?Nat2Z.inj_add, ?length_item; try lia.
    + rewrite map_app. cbn [map id]. rewrite <- app_assoc. cbn [app].
      apply list.NoDup_app. split_and!; [done| |by apply list.NoDup_cons].
      intros x Hx. by apply Hn2.
    + exists size. rewrite length_app, Nat2Z.inj_add, length_item in Hsize.
      rewrite Hsize.
      destruct e as [i v]. cbn [entries_of fst snd]. rewrite <- app_assoc. cbn [app].
      by rewrite Z.add_assoc.
Qed.

Lemma words_bounds items : 0 <= 4 * words_of items - zlen items < 4 /\ 0 <= words_of items.
Proof. unfold words_of. dlia. Qed.

Lemma length_fill items : zlen (fill items) = 4 * words_of items - zlen items.
Proof. unfold fill. rewrite length_replicate. pose proof (words_bounds items). lia. Qed.

Lemma length_ext_block two exts : exts <> [] ->
  zlen (ext_block two exts) = 4 + 4 * words_of (ext_items two exts).
Proof.
  intros Hne. unfold ext_block. destruct exts; [done|]. rewrite !length_app, !Nat2Z.inj_add, !length_be_bytes, length_fill. lia.
Qed.

(** The extension block of a wire format. *)
Lemma parse_extensions_block pre two exts post size : exts <> [] ->
  Forall (ext_wf two) exts -> NoDup (map fst exts) ->
  zlen pre + 4 + zlen (ext_items two exts) <= 65535 ->
  zlen pre + zlen (ext_block two exts) <= size ->
  exists esize, parse_extensions (pre ++ ext_block two exts ++ post) size (zlen pre)
  = Some (Some (entries_of two (zlen pre + 4) exts, esize, zlen pre + zlen (ext_block two exts))).
Proof.
  intros Hne Hw Hnd Hoff Hsize. rewrite length_ext_block in * by done. unfold parse_extensions.
  pose proof (words_bounds (ext_items two exts)) as [Hwb Hw0].
  rewrite Z.gtb_ltb, (proj2 (Z.ltb_ge _ _)) by lia.
  assert (Eb : ext_block two exts = be_bytes 2 (profile_of two) ++ be_bytes 2 (words_of (ext_items two exts))
    ++ ext_items two exts ++ fill (ext_items two exts)) by (by destruct exts).
  assert (E : pre ++ ext_block two exts ++ post = pre ++ be_bytes 2 (profile_of two)
    ++ be_bytes 2 (words_of (ext_items two exts)) ++ ext_items two exts ++ fill (ext_items two exts) ++ post)
    by (rewrite Eb; by repeat rewrite <- app_assoc).
  rewrite E, read_be_app_at0, read_be_app_here by (try done; by destruct two).
  cbn [mbind option_bind]. rewrite read_be_app_at by lia.
  rewrite read_be_app_skip by (rewrite length_be_bytes; lia).
  rewrite length_be_bytes. change (2 - Z.of_nat 2) with 0.
  rewrite read_be_app_here by (try done; change (256 ^ Z.of_nat 2) with 65536; lia). cbn [mbind option_bind].
  rewrite Z.gtb_ltb, (proj2 (Z.ltb_ge _ _)) by lia.
  replace (negb _ && negb _) with false by (by destruct two).
  destruct (extension_loop_items two exts (Z.to_nat (4 * words_of (ext_items two exts) - zlen (ext_items two exts)))
    post (zlen pre + 4) (words_of (ext_items two exts) * 4) (Z.to_nat (words_of (ext_items two exts) * 4))
    (pre ++ be_bytes 2 (profile_of two) ++ be_bytes 2 (words_of (ext_items two exts))) [])
    as (esize & Hes); try done; rewrite ?length_app, ?Nat2Z.inj_add, ?length_be_bytes; try lia.
  exists esize. rewrite !length_app, !Nat2Z.inj_add, !length_be_bytes in Hes.
  repeat rewrite <- app_assoc in Hes. fold (fill (ext_items two exts)) in Hes.
  replace (zlen pre + (Z.of_nat 2 + Z.of_nat 2) - (zlen pre + 4)) with 0 in Hes by lia.
  rewrite Hes. cbn [mbind option_bind app].
  replace (zlen pre + (Z.of_nat 2 + Z.of_nat 2)) with (zlen pre + 4) by lia.
  by replace (zlen pre + 4 + words_of (ext_items two exts) * 4)
    with (zlen pre + (4 + 4 * words_of (ext_items two exts))) by lia.
Qed.
End parse.

(** ** The first two octets *)

Definition octet0 (p x : bool) (cc : Z) : Z := 128 + (if p then 32 else 0) + (if x then 16 else 0) + cc.

Definition octet1 (m : bool) (pt : Z) : Z := (if m then 128 else 0) + pt.

Lemma forall_below (n : nat) (P : Z -> bool) : forallb P (seqZ 0 (Z.of_nat n)) = true ->
  forall x, 0 <= x < Z.of_nat n -> P x = true.
Proof. intros H x Hx. rewrite forallb_forall in H. apply H, list_elem_of_In, elem_of_seqZ. lia. Qed.

(** Reading the first octet. *)
Lemma octet0_read p x cc : 0 <= cc < 16 ->
  Z.shiftr (octet0 p x cc) 6 = 2 /\ negb (Z.land (octet0 p x cc) 0x20 =? 0) = p
  /\ negb (Z.land (octet0 p x cc) 0x10 =? 0) = x /\ Z.land (octet0 p x cc) 0x0f = cc.
Proof.
  intros Hcc. apply (forall_below 16 (fun cc => (Z.shiftr (octet0 p x cc) 6 =? 2)
    && eqb (negb (Z.land (octet0 p x cc) 0x20 =? 0)) p && eqb (negb (Z.land (octet0 p x cc) 0x10 =? 0)) x
    && (Z.land (octet0 p x cc) 0x0f =? cc))) in Hcc; [|by destruct p, x].
  rewrite !andb_true_iff, !eqb_true_iff, !Z.eqb_eq in Hcc. tauto.
Qed.

(** Setting its bits. *)
Lemma octet0_write p x cc n : 0 <= cc < 16 -> 0 <= n < 16 ->
  Z.lor (octet0 p x cc) 0x20 = octet0 true x cc /\ Z.land (octet0 p x cc) (u8 (Z.lnot 0x20)) = octet0 false x cc
  /\ Z.lor (octet0 p x cc) 0x10 = octet0 p true cc
  /\ Z.lor (Z.land (octet0 p x cc) 0xF0) n = octet0 p x n.
Proof.
  intros Hcc Hn.
  assert (H : (Z.lor (octet0 p x cc) 0x20 =? octet0 true x cc)
    && (Z.land (octet0 p x cc) (u8 (Z.lnot 0x20)) =? octet0 false x cc)
    && (Z.lor (octet0 p x cc) 0x10 =? octet0 p true cc)
    && (Z.lor (Z.land (octet0 p x cc) 0xF0) n =? octet0 p x n) = true).
  { revert cc Hcc. apply (forall_below 16 (fun cc => _)). revert n Hn.
    apply (forall_below 16 (fun n => _)). by destruct p, x. }
  rewrite !andb_true_iff, !Z.eqb_eq in H. tauto.
Qed.

Lemma octet1_read m pt : 0 <= pt < 128 ->
  negb (Z.land (octet1 m pt) 0x80 =? 0) = m /\ Z.land (octet1 m pt) 0x7f = pt.
Proof.
  intros Hpt. apply (forall_below 128 (fun pt => eqb (negb (Z.land (octet1 m pt) 0x80 =? 0)) m
    && (Z.land (octet1 m pt) 0x7f =? pt))) in Hpt; [|by destruct m].
  rewrite andb_true_iff, eqb_true_iff, Z.eqb_eq in Hpt. tauto.
Qed.

Lemma octet1_write m pt n : 0 <= pt < 128 -> 0 <= n < 128 ->
  Z.lor (octet1 m pt) 0x80 = octet1 true pt /\ Z.land (octet1 m pt) 0x7F = octet1 false pt
  /\ Z.lor (Z.land (octet1 m pt) 0x80) n = octet1 m n.
Proof.
  intros Hpt Hn. splits.
  - revert pt Hpt. intros pt Hpt. apply Z.eqb_eq. revert pt Hpt. apply (forall_below 128 (fun pt => _)). by destruct m.
  - by destruct (octet1_read m pt Hpt) as [_ ->].
  - replace (Z.land (octet1 m pt) 0x80) with (if m then 128 else 0).
    + destruct m; [|done]. apply Z.eqb_eq. revert n Hn. by apply (forall_below 128 (fun n => _)).
    + symmetry. apply Z.eqb_eq. revert pt Hpt. apply (forall_below 128 (fun pt => _)). by destruct m.
Qed.

Lemma octet0_range p x cc : 0 <= cc < 16 -> is_u8 (octet0 p x cc).
Proof. unfold octet0, is_u8. destruct p, x; lia. Qed.

Lemma first_octet_eq im :
  first_octet im = octet0 (negb (im_padding im =? 0)) (bool_decide (im_extensions im <> [])) (zlen (im_csrcs im)).
Proof. unfold first_octet, octet0. destruct (im_padding im =? 0), (im_extensions im); done. Qed.

(** ** Parsing a wire format *)

Section parse_image.
Context {buf : Type} {cow : CowBuffer buf} {numerics : RtcNumerics} {numerics_laws : RtcNumericsLaws}.

(** The members of a packet that holds [im]. *)
Record shows (p : t buf) (im : image) : Prop := {
  shows_marker : marker_ p = im_marker im;
  shows_payload_type : payload_type_ p = im_payload_type im;
  shows_sequence_number : sequence_number_ p = im_sequence_number im;
  shows_timestamp : timestamp_ p = im_timestamp im;
  shows_ssrc : ssrc_ p = im_ssrc im;
  shows_payload_offset : payload_offset_ p = payload_start im;
  shows_payload_size : payload_size_ p = zlen (im_payload im);
  shows_padding : padding_size_ p = im_padding im;
  shows_entries : extension_entries_ p = entries_of (im_two_byte im) (extensions_start im) (im_extensions im)
}.

Lemma length_header im : zlen (header_octets im) = 12.
Proof. unfold header_octets. cbn [List.length]. rewrite !length_app, !length_be_bytes. done. Qed.

Lemma length_csrcs im : zlen (csrc_octets im) = 4 * zlen (im_csrcs im).
Proof.
  unfold csrc_octets. induction (im_csrcs im) as [|c cs IH]; [done|]. cbn [map concat].
  rewrite length_app, length_be_bytes, Nat2Z.inj_add, IH. cbn [List.length]. lia.
Qed.

Lemma length_padding n : is_u8 n -> zlen (padding_octets n) = n.
Proof.
  intros Hn. unfold padding_octets. destruct (Z.eqb_spec n 0) as [->|]; [done|].
  rewrite length_app, length_replicate. cbn [List.length]. unfold is_u8 in Hn. lia.
Qed.

Lemma length_image im : image_wf im ->
  zlen (encode im) = payload_start im + zlen (im_payload im) + im_padding im.
Proof.
  intros Hw. unfold encode, payload_start, kFixedHeaderSize.
  rewrite !length_app, !Nat2Z.inj_add, length_header, length_csrcs, length_padding by apply Hw. lia.
Qed.

Lemma header_reads im post : image_wf im ->
  peek (header_octets im ++ post) 0 = Some (first_octet im)
  /\ peek (header_octets im ++ post) 1 = Some (second_octet im)
  /\ read_u16 (header_octets im ++ post) 2 = Some (im_sequence_number im)
  /\ read_u32 (header_octets im ++ post) 4 = Some (im_timestamp im)
  /\ read_u32 (header_octets im ++ post) 8 = Some (im_ssrc im).
Proof.
  intros Hw. splits; [done|done|..].
  - change (header_octets im ++ post) with ([first_octet im; second_octet im]
      ++ ((be_bytes 2 (im_sequence_number im) ++ be_bytes 4 (im_timestamp im) ++ be_bytes 4 (im_ssrc im)) ++ post)).
    rewrite read_be_app_skip by done. rewrite <- app_assoc. apply read_be_app_here; [done|apply Hw].
  - assert (E : header_octets im ++ post = ([first_octet im; second_octet im] ++ be_bytes 2 (im_sequence_number im))
      ++ be_bytes 4 (im_timestamp im) ++ (be_bytes 4 (im_ssrc im) ++ post))
      by (unfold header_octets; cbn [app]; by repeat rewrite <- app_assoc).
    rewrite E, read_be_app_skip by (rewrite length_app, length_be_bytes; done).
    rewrite length_app, length_be_bytes. apply read_be_app_here; [done|apply Hw].
  - assert (E : header_octets im ++ post = ([first_octet im; second_octet im] ++ be_bytes 2 (im_sequence_number im)
      ++ be_bytes 4 (im_timestamp im)) ++ be_bytes 4 (im_ssrc im) ++ post)
      by (unfold header_octets; cbn [app]; by repeat rewrite <- app_assoc).
    rewrite E, read_be_app_skip by (rewrite !length_app, !length_be_bytes; done).
    rewrite !length_app, !length_be_bytes. apply read_be_app_here; [done|apply Hw].
Qed.

(** The octets around the extension block. *)
Lemma encode_split im : encode im = (header_octets im ++ csrc_octets im)
  ++ ext_block (im_two_byte im) (im_extensions im) ++ (im_payload im ++ padding_octets (im_padding im)).
Proof. unfold encode. by rewrite <- app_assoc. Qed.

Lemma length_before im : zlen (header_octets im ++ csrc_octets im) = kFixedHeaderSize + 4 * zlen (im_csrcs im).
Proof. rewrite length_app, Nat2Z.inj_add, length_header, length_csrcs. done. Qed.

Lemma parse_extensions_encode im : image_wf im -> im_extensions im <> [] -> exists esize,
  parse_extensions (encode im) (zlen (encode im)) (kFixedHeaderSize + 4 * zlen (im_csrcs im))
  = Some (Some (entries_of (im_two_byte im) (extensions_start im) (im_extensions im), esize, payload_start im)).
Proof.
  intros Hw Hne. rewrite encode_split, <- length_before. unfold payload_start, extensions_start. rewrite <- length_before.
  apply parse_extensions_block; [done|apply Hw|apply Hw| |].
  - rewrite length_before. apply (wf_block _ Hw).
  - rewrite !length_app. lia.
Qed.

Lemma last_octet im : im_padding im <> 0 -> peek (encode im) (zlen (encode im) - 1) = Some (im_padding im).
Proof.
  intros Hp. unfold encode, padding_octets. rewrite (proj2 (Z.eqb_neq _ _) Hp).
  set (z := replicate _ 0).
  assert (E : header_octets im ++ csrc_octets im ++ ext_block (im_two_byte im) (im_extensions im) ++ im_payload im
    ++ z ++ [im_padding im] = (header_octets im ++ csrc_octets im
    ++ ext_block (im_two_byte im) (im_extensions im) ++ im_payload im ++ z) ++ [im_padding im])
    by (by repeat rewrite <- app_assoc).
  rewrite E, length_app, Nat2Z.inj_add, peek_app_skip by (cbn [List.length]; lia).
  cbn [List.length]. replace (_ - _) with 0; [done|lia].
Qed.

(** The parser after the fixed header. *)
Lemma extension_stage im (p : t buf) : image_wf im ->
  payload_offset_ p = kFixedHeaderSize + 4 * zlen (im_csrcs im) ->
  extension_entries_ p = [] -> exists entries esize,
  (if bool_decide (im_extensions im <> []) then
     r ← parse_extensions (encode im) (zlen (encode im)) (payload_offset_ p);
     match r with
     | None => Some (p, false)
     | Some (entries, extensions_size, payload_offset) =>
         Some (with_layout payload_offset (payload_size_ p) (padding_size_ p)
                 (with_extensions entries extensions_size p), true)
     end
   else Some (p, true))
  = Some (with_layout (payload_start im) (payload_size_ p) (padding_size_ p)
            (with_extensions entries esize p), true)
  /\ entries = entries_of (im_two_byte im) (extensions_start im) (im_extensions im).
Proof.
  intros Hw Hoff He. destruct (decide (im_extensions im = [])) as [E|Hne].
  - rewrite bool_decide_false by tauto. exists (extension_entries_ p), (extensions_size_ p).
    rewrite E, He. split; [|done]. unfold payload_start. rewrite E. cbn [ext_block List.length].
    rewrite Z.add_0_r, <- Hoff, <- He. by destruct p.
  - rewrite bool_decide_true by done. rewrite Hoff.
    destruct (parse_extensions_encode im Hw Hne) as (esize & ->). eauto.
Qed.

Lemma ParseBuffer_encode im (p : t buf) : image_wf im -> exists p',
  ParseBuffer (encode im) (zlen (encode im)) p = Some (p', true)
  /\ shows p' im /\ buffer_ p' = buffer_ p /\ extensions_ p' = extensions_ p.
Proof.
  intros Hw. destruct (header_reads im (csrc_octets im ++ ext_block (im_two_byte im) (im_extensions im)
    ++ im_payload im ++ padding_octets (im_padding im)) Hw) as (R0 & R1 & R2 & R3 & R4).
  fold (encode im) in *. pose proof (length_image im Hw) as Hlen.
  pose proof (wf_padding _ Hw) as Hpad. unfold is_u8 in Hpad.
  pose proof (wf_csrcs _ Hw) as [_ Hcc]. pose proof (wf_payload_type _ Hw) as Hpt.
  assert (Hps : kFixedHeaderSize + 4 * zlen (im_csrcs im) <= payload_start im) by (unfold payload_start; lia).
  rewrite first_octet_eq in R0. fold (octet1 (im_marker im) (im_payload_type im)) in R1.
  change (second_octet im) with (octet1 (im_marker im) (im_payload_type im)) in R1.
  destruct (octet0_read (negb (im_padding im =? 0)) (bool_decide (im_extensions im <> [])) (zlen (im_csrcs im)) ltac:(lia))
    as (B6 & B20 & B10 & B0f).
  destruct (octet1_read (im_marker im) (im_payload_type im) Hpt) as (M80 & M7f).
  unfold ParseBuffer. unfold kFixedHeaderSize in *. rewrite (proj2 (Z.ltb_ge _ _)) by lia.
  rewrite R0. cbn [mbind option_bind]. rewrite B6, B20, B10, B0f.
  change (2 =? kRtpVersion) with true. cbn [negb].
  rewrite R1. cbn [mbind option_bind]. rewrite M80, M7f, R2, R3, R4. cbn [mbind option_bind].
  rewrite (proj2 (Z.ltb_ge _ _)) by lia. cbv zeta.
  rewrite (Z.mul_comm (zlen (im_csrcs im))).
  set (p1 := with_extensions [] 0 _).
  destruct (extension_stage im p1 Hw eq_refl eq_refl) as (entries & esize & Hstage & Hentries).
  rewrite Hstage. cbn [mbind option_bind negb].
  set (p2 := with_layout (payload_start im) _ _ _). change (payload_offset_ p2) with (payload_start im).
  assert (Hpadding : (if negb (im_padding im =? 0) && (payload_start im <? zlen (encode im))
    then peek (encode im) (zlen (encode im) - 1) else Some 0) = Some (im_padding im)).
  { destruct (Z.eqb_spec (im_padding im) 0) as [->|Hne]; [done|]. cbn [negb andb].
    rewrite (proj2 (Z.ltb_lt _ _)) by lia. by apply last_octet. }
  rewrite Hpadding. cbn [mbind option_bind].
  cbn [padding_size_ with_layout payload_offset_].
  replace (negb (im_padding im =? 0) && (payload_start im <? zlen (encode im)) && (im_padding im =? 0)) with false
    by (by destruct (im_padding im =? 0), (payload_start im <? zlen (encode im))).
  rewrite Z.gtb_ltb, (proj2 (Z.ltb_ge (zlen (encode im)) _)) by lia.
  eexists. split; [done|]. split; [|done]. constructor; try done. cbn [payload_size_ with_layout]. lia.
Qed.
End parse_image.

(** ** The parser on any octets *)

Section safe.
Context {buf : Type} {cow : CowBuffer buf} {numerics : RtcNumerics} {numerics_laws : RtcNumericsLaws}.

(** Entries inside the block that ends at [limit], with distinct ids. *)
Definition entry_ok (limit : Z) (e : ExtensionInfo) : Prop :=
  1 <= id e <= 255 /\ is_u8 (length e) /\ is_u16 (offset e) /\ offset e + length e <= limit.

Definition entries_ok (limit : Z) (entries : list ExtensionInfo) : Prop :=
  Forall (entry_ok limit) entries /\ NoDup (map id entries).

Lemma set_entry_ids i len off entries : is_u8 i -> map id (set_entry i len off entries)
  = if bool_decide (i ∈ map id entries) then map id entries else map id entries ++ [i].
Proof.
  intros Hi. induction entries as [|e entries IH]; cbn [set_entry map]; [by rewrite u8_id|].
  destruct (Z.eqb_spec (id e) i) as [->|Hne].
  - by rewrite bool_decide_true by apply list_elem_of_here.
  - cbn [map]. rewrite IH. rewrite (bool_decide_ext (i ∈ id e :: map id entries) (i ∈ map id entries)).
    + by destruct (bool_decide _).
    + rewrite elem_of_cons. split; [intros [?|?]; [congruence|done] | by right].
Qed.

Lemma set_entry_ok limit i len off entries : 1 <= i <= 255 -> is_u8 len -> is_u16 off -> off + len <= limit ->
  entries_ok limit entries -> entries_ok limit (set_entry i len off entries).
Proof.
  intros Hi Hl Ho Hlim [Hf Hn]. split.
  - clear Hn. induction Hf as [|e entries He Hf IH]; cbn [set_entry].
    + constructor; [|constructor]. rewrite u8_id by (unfold is_u8; lia). unfold entry_ok. cbn. tauto.
    + destruct (Z.eqb_spec (id e) i) as [E|]; constructor; try done.
      unfold entry_ok. cbn. rewrite E. tauto.
  - rewrite set_entry_ids by (unfold is_u8; lia). destruct (bool_decide_reflect (i ∈ map id entries)); [done|].
    apply list.NoDup_app. split_and!; [done| |by apply list.NoDup_singleton].
    intros x Hx ->%list_elem_of_singleton. done.
Qed.

Lemma create_entry_ok limit i entries : 1 <= i <= 255 -> 0 <= limit -> entries_ok limit entries ->
  entries_ok limit (create_entry i entries).
Proof.
  intros Hi Hlim [Hf Hn]. unfold create_entry. destruct (List.find _ entries) eqn:E; [done|]. split.
  - apply list.Forall_app. split; [done|]. constructor; [|constructor].
    rewrite u8_id by (unfold is_u8; lia). repeat split; cbn; lia.
  - rewrite map_app. cbn [map id]. rewrite u8_id by (unfold is_u8; lia).
    apply list.NoDup_app. split_and!; [done| |by apply list.NoDup_singleton].
    intros x Hx ->%list_elem_of_singleton. apply list_elem_of_fmap in Hx as (e & -> & He%list_elem_of_In).
    apply (find_none _ _ E) in He. by rewrite Z.eqb_refl in He.
Qed.

Lemma peek_octet p off : is_bytes p -> 0 <= off < zlen p -> exists b, peek p off = Some b /\ is_u8 b.
Proof.
  intros Hp Hoff. destruct (peek_Some p off Hoff) as (b & Hb). exists b. split; [done|]. by eapply peek_is_u8.
Qed.

Lemma nibbles b : is_u8 b -> 0 <= Z.shiftr b 4 < 16 /\ 0 <= Z.land b 0xf < 16.
Proof.
  intros Hb. rewrite Z.shiftr_div_pow2, (land_mask 4 15) by done. change (2 ^ 4) with 16. wordlia.
Qed.

(** The loop reads inside the buffer, ends, and its entries lie inside the block. *)
Lemma extension_loop_safe buffer profile start capacity : is_bytes buffer -> 0 <= start ->
  start + capacity <= zlen buffer ->
  forall fuel entries esize, 0 <= esize <= capacity -> capacity - esize <= Z.of_nat fuel ->
  entries_ok (start + capacity) entries ->
  exists entries' esize', extension_loop fuel buffer profile start capacity entries esize
    = Some (entries', esize') /\ entries_ok (start + capacity) entries'.
Proof.
  intros Hb Hstart Hcap. set (hl := if profile =? kOneByteExtensionProfileId
    then kOneByteExtensionHeaderLength else kTwoByteExtensionHeaderLength).
  assert (Hhl : ((profile =? kOneByteExtensionProfileId) = true /\ hl = 1)
    \/ ((profile =? kOneByteExtensionProfileId) = false /\ hl = 2))
    by (unfold hl; destruct (profile =? _); auto).
  induction fuel as [|fuel IH]; intros entries esize Hes Hf Hok;
    cbn [extension_loop]; fold hl; (destruct (Z.ltb_spec (esize + hl) capacity) as [Hlt|]; [|by eexists _, _]).
  { destruct Hhl as [[_ ?]|[_ ?]]; lia. }
  assert (1 <= hl <= 2) by (destruct Hhl as [[_ ->]|[_ ->]]; lia).
  destruct (peek_octet buffer (start + esize) Hb ltac:(lia)) as (b & -> & Hb8). cbn [mbind option_bind].
  destruct (Z.eqb_spec b 0) as [|Hb0]; [apply IH; [lia..|done]|].
  assert (Hitem : exists i len, (if profile =? kOneByteExtensionProfileId then
        Some (Z.shiftr b 4, 1 + Z.land b 0xf)
      else l ← peek buffer (start + esize + 1); Some (b, l)) = Some (i, len)
    /\ 0 <= len <= 255 /\ 0 <= i <= 255
    /\ ((profile =? kOneByteExtensionProfileId) && ((i =? 15) || ((i =? 0) && negb (len =? 1))) = false -> 1 <= i)).
  { pose proof (nibbles b Hb8) as [Hn1 Hn2]. destruct Hhl as [[-> Hhl]|[-> Hhl]].
    - eexists _, _. split; [done|]. splits; try lia. cbn [andb]. intros [_ Hz]%orb_false_iff.
      destruct (Z.eqb_spec (Z.shiftr b 4) 0) as [E|]; [|lia]. cbn [andb] in Hz. apply negb_false_iff, Z.eqb_eq in Hz.
      exfalso. apply Hb0. rewrite Z.shiftr_div_pow2 in E by done. rewrite (land_mask 4 15) in Hz by done.
      change (2 ^ 4) with 16 in *. dlia.
    - destruct (peek_octet buffer (start + esize + 1) Hb ltac:(lia)) as (l & -> & Hl).
      eexists _, _. split; [done|]. unfold is_u8 in *. splits; try lia. }
  destruct Hitem as (i & len & -> & Hlen & Hi & Hi1). cbn [mbind option_bind].
  destruct (_ && _) eqn:Hbreak; [by eexists _, _|]. specialize (Hi1 eq_refl).
  rewrite Z.gtb_ltb. destruct (Z.ltb_spec capacity (esize + hl + len)); [by eexists _, _|].
  rewrite IsValueInRange_u16_iff by lia. destruct (Z.leb_spec (start + esize + hl) 65535); cbn [negb].
  - apply IH; [lia..|]. apply set_entry_ok; try done; unfold is_u8, is_u16; lia.
  - eexists _, _. split; [done|]. apply create_entry_ok; [lia..|done].
Qed.

(** A packet of [n] octets: header, payload and padding one after the other, the extensions
    inside the header. *)
Record laid_out (p : t buf) (n : Z) : Prop := {
  lo_offset : kFixedHeaderSize <= payload_offset_ p;
  lo_payload : 0 <= payload_size_ p;
  lo_padding : is_u8 (padding_size_ p);
  lo_size : size p = n;
  lo_entries : entries_ok (payload_offset_ p) (extension_entries_ p)
}.

Lemma entries_ok_nil limit : entries_ok limit [].
Proof. split; constructor. Qed.

Lemma parse_extensions_safe buffer size off : is_bytes buffer -> 0 <= size <= zlen buffer -> 0 <= off ->
  exists r, parse_extensions buffer size off = Some r
  /\ forall entries esize next, r = Some (entries, esize, next) ->
     off <= next <= size /\ entries_ok next entries.
Proof.
  intros Hb Hs Ho. unfold parse_extensions. rewrite Z.gtb_ltb.
  destruct (Z.ltb_spec size (off + 4)); [by eexists|].
  destruct (read_be_Some 16 2 buffer off Hb ltac:(done) ltac:(lia) ltac:(lia)) as (profile & -> & _).
  destruct (read_be_Some 16 2 buffer (off + 2) Hb ltac:(done) ltac:(lia) ltac:(lia)) as (words & -> & Hw).
  cbn [mbind option_bind]. rewrite Z.gtb_ltb.
  destruct (Z.ltb_spec size (off + 4 + words * 4)); [by eexists|].
  assert (Hloop : exists entries esize,
    (if negb (profile =? kOneByteExtensionProfileId)
        && negb (Z.land profile kTwobyteExtensionProfileIdAppBitsFilter =? kTwoByteExtensionProfileId)
     then Some ([], 0)
     else extension_loop (Z.to_nat (words * 4)) buffer profile (off + 4) (words * 4) [] 0)
    = Some (entries, esize) /\ entries_ok (off + 4 + words * 4) entries).
  { destruct (_ && _); [eexists _, _; split; [done|apply entries_ok_nil]|].
    apply extension_loop_safe; try lia; [done|apply entries_ok_nil]. }
  destruct Hloop as (entries & esize & -> & Hok). cbn [mbind option_bind].
  eexists. split; [done|]. intros ? ? ? [= <- <- <-]. split; [lia|done].
Qed.

(** The end of ParseBuffer: padding and payload size. *)
Lemma padding_stage buffer size (this : t buf) has_padding : is_bytes buffer -> 0 <= size <= zlen buffer ->
  kFixedHeaderSize <= payload_offset_ this <= size -> entries_ok (payload_offset_ this) (extension_entries_ this) ->
  exists p' ok,
  (padding ← (if has_padding && (payload_offset_ this <? size) then peek buffer (size - 1) else Some 0);
   let this := with_layout (payload_offset_ this) (payload_size_ this) padding this in
   if has_padding && (payload_offset_ this <? size) && (padding =? 0) then Some (this, false) else
   if payload_offset_ this + padding_size_ this >? size then Some (this, false) else
   Some (with_layout (payload_offset_ this) (size - payload_offset_ this - padding_size_ this)
           (padding_size_ this) this, true)) = Some (p', ok)
  /\ (ok = true -> laid_out p' size) /\ buffer_ p' = buffer_ this /\ extensions_ p' = extensions_ this.
Proof.
  intros Hb Hs Ho He.
  assert (Hpad : exists padding, (if has_padding && (payload_offset_ this <? size)
    then peek buffer (size - 1) else Some 0) = Some padding /\ is_u8 padding).
  { destruct (has_padding && _) eqn:E; [|by eexists].
    apply andb_true_iff in E as [_ Hlt%Z.ltb_lt]. unfold kFixedHeaderSize in Ho. apply peek_octet; [done|lia]. }
  destruct Hpad as (padding & -> & Hu8). cbn [mbind option_bind]. cbv zeta.
  destruct (_ && (padding =? 0)); [by eexists _, _|].
  cbn [with_layout payload_offset_ padding_size_]. rewrite Z.gtb_ltb.
  destruct (Z.ltb_spec size (payload_offset_ this + padding)); [by eexists _, _|].
  eexists _, _. split; [done|]. split; [|done]. intros _.
  constructor; cbn; try done; [lia..|]. unfold RtpPacket.size. cbn. lia.
Qed.

Lemma ParseBuffer_safe buffer size (p : t buf) : is_bytes buffer -> 0 <= size <= zlen buffer ->
  exists p' ok, ParseBuffer buffer size p = Some (p', ok)
  /\ (ok = true -> laid_out p' size) /\ buffer_ p' = buffer_ p /\ extensions_ p' = extensions_ p.
Proof.
  intros Hb Hs. unfold ParseBuffer. unfold kFixedHeaderSize.
  destruct (Z.ltb_spec size 12); [by eexists _, _|].
  destruct (peek_octet buffer 0 Hb ltac:(lia)) as (b0 & -> & Hb0). cbn [mbind option_bind].
  destruct (negb (_ =? kRtpVersion)); [by eexists _, _|].
  destruct (peek_octet buffer 1 Hb ltac:(lia)) as (b1 & -> & Hb1). cbn [mbind option_bind].
  destruct (read_be_Some 16 2 buffer 2 Hb ltac:(done) ltac:(lia) ltac:(lia)) as (seq & -> & _).
  destruct (read_be_Some 32 4 buffer 4 Hb ltac:(done) ltac:(lia) ltac:(lia)) as (ts & -> & _).
  destruct (read_be_Some 32 4 buffer 8 Hb ltac:(done) ltac:(lia) ltac:(lia)) as (ssrc & -> & _).
  cbn [mbind option_bind]. cbv zeta. pose proof (nibbles b0 Hb0) as [_ Hcc].
  destruct (Z.ltb_spec size (12 + Z.land b0 15 * 4)); [by eexists _, _|].
  set (p1 := with_extensions [] 0 _).
  destruct (negb (Z.land b0 16 =? 0)).
  - destruct (parse_extensions_safe buffer size (payload_offset_ p1) Hb Hs) as (r & -> & Hr); [cbn; lia|].
    cbn [mbind option_bind]. destruct r as [[[entries esize] next]|]; [|by eexists _, _].
    destruct (Hr _ _ _ eq_refl) as [Hnext Hok]. cbn [mbind option_bind negb].
    destruct (padding_stage buffer size (with_layout next (payload_size_ p1) (padding_size_ p1)
      (with_extensions entries esize p1)) (negb (Z.land b0 32 =? 0)) Hb Hs) as (p' & ok & Hst & Hrest);
      [cbn in *; unfold kFixedHeaderSize; lia|done|]. exists p', ok. split; [exact Hst|exact Hrest].
  - cbn [mbind option_bind negb].
    destruct (padding_stage buffer size p1 (negb (Z.land b0 32 =? 0)) Hb Hs) as (p' & ok & Hst & Hrest);
      [cbn; unfold kFixedHeaderSize; lia|apply entries_ok_nil|]. exists p', ok. split; [exact Hst|exact Hrest].
Qed.
End safe.
