(* ===== verification/RtpPacketBuild.v ===== *)
(** * Building an RTP packet in place: the operations of rtp_rtcp/source/rtp_packet.cc as
      operations on the abstract packet

    A packet object [represents] an [image] when its members are those of the image and the
    content of its buffer is the image's wire format.  Every operation is shown to keep the
    two in step; the stores go through the [CowBuffer] interface only. *)

From S2P Require Import Prelude.
From S2P Require Import ByteIo.
From S2P Require Import Buffers.
From S2P Require Import RtcpCore.
From S2P Require Import RtpExtensionMap.
From S2P Require Import RtpPacket.
Import RtpPacket.

(** ** Operations on a packet, as operations on the image *)

Definition im_set_marker (m : bool) (im : image) : image :=
  Image m (im_payload_type im) (im_sequence_number im) (im_timestamp im) (im_ssrc im) (im_csrcs im)
    (im_two_byte im) (im_extensions im) (im_payload im) (im_padding im).

Definition im_set_payload_type (pt : Z) (im : image) : image :=
  Image (im_marker im) pt (im_sequence_number im) (im_timestamp im) (im_ssrc im) (im_csrcs im)
    (im_two_byte im) (im_extensions im) (im_payload im) (im_padding im).

Definition im_set_sequence_number (n : Z) (im : image) : image :=
  Image (im_marker im) (im_payload_type im) n (im_timestamp im) (im_ssrc im) (im_csrcs im)
    (im_two_byte im) (im_extensions im) (im_payload im) (im_padding im).

Definition im_set_timestamp (n : Z) (im : image) : image :=
  Image (im_marker im) (im_payload_type im) (im_sequence_number im) n (im_ssrc im) (im_csrcs im)
    (im_two_byte im) (im_extensions im) (im_payload im) (im_padding im).

Definition im_set_ssrc (n : Z) (im : image) : image :=
  Image (im_marker im) (im_payload_type im) (im_sequence_number im) (im_timestamp im) n (im_csrcs im)
    (im_two_byte im) (im_extensions im) (im_payload im) (im_padding im).

Definition im_set_csrcs (csrcs : list Z) (im : image) : image :=
  Image (im_marker im) (im_payload_type im) (im_sequence_number im) (im_timestamp im) (im_ssrc im) csrcs
    (im_two_byte im) (im_extensions im) (im_payload im) (im_padding im).

Definition im_set_extensions (two : bool) (exts : list (Z * bytes)) (im : image) : image :=
  Image (im_marker im) (im_payload_type im) (im_sequence_number im) (im_timestamp im) (im_ssrc im) (im_csrcs im)
    two exts (im_payload im) (im_padding im).

Definition im_set_payload (payload : bytes) (im : image) : image :=
  Image (im_marker im) (im_payload_type im) (im_sequence_number im) (im_timestamp im) (im_ssrc im) (im_csrcs im)
    (im_two_byte im) (im_extensions im) payload (im_padding im).

Definition im_set_padding (n : Z) (im : image) : image :=
  Image (im_marker im) (im_payload_type im) (im_sequence_number im) (im_timestamp im) (im_ssrc im) (im_csrcs im)
    (im_two_byte im) (im_extensions im) (im_payload im) n.

Definition empty_image : image := Image false 0 0 0 0 [] false [] [] 0.

Section operations.
Context {buf : Type} {cow : CowBuffer buf} {cow_laws : CowBufferLaws buf}.
Context {limits : RtpExtension} {limits_laws : RtpExtensionLaws}.
Context {numerics : RtcNumerics} {numerics_laws : RtcNumericsLaws}.

Record represents (p : t buf) (im : image) : Prop := {
  rep_wf : image_wf im;
  rep_shows : shows p im;
  rep_data : cow_data (buffer_ p) = encode im;
  rep_extensions_size : extensions_size_ p = zlen (ext_items (im_two_byte im) (im_extensions im))
}.

Lemma length_data (b : buf) : zlen (cow_data b) = cow_size b.
Proof.
  unfold cow_data. rewrite length_take. pose proof (cow_size_bounds b). unfold cow_capacity in *. lia.
Qed.

(** The first store may lose what lies beyond the content. *)
Lemma store_first (b : buf) off bs : 0 <= off -> off + zlen bs <= cow_capacity b -> is_bytes bs ->
  exists b' T, cow_store b off bs = Some b' /\ cow_unshared b' = true /\ cow_size b' = cow_size b
    /\ zlen (cow_data b ++ T) = cow_capacity b /\ put (cow_data b ++ T) off bs = Some (cow_mem b')
    /\ cow_capacity b' = cow_capacity b.
Proof.
  intros Ho Hc Hb. destruct (cow_store_spec b off bs Ho Hc Hb) as (b' & mem & Hs & Hu & Hsz & Hlen & Htake & _ & Hput).
  exists b', (drop (Z.to_nat (cow_size b)) mem).
  assert (E : cow_data b ++ drop (Z.to_nat (cow_size b)) mem = mem) by (rewrite <- Htake; apply take_drop).
  rewrite E. splits; try done. unfold cow_capacity. rewrite (put_length _ _ _ _ Hput). exact Hlen.
Qed.

(** Later stores, at a known place of the memory. *)
Lemma store_known (b : buf) X mid post bs : cow_unshared b = true -> cow_mem b = X ++ mid ++ post ->
  zlen bs = zlen mid -> is_bytes bs ->
  exists b', cow_store b (zlen X) bs = Some b' /\ cow_unshared b' = true /\ cow_size b' = cow_size b
    /\ cow_mem b' = X ++ bs ++ post.
Proof.
  intros Hu Hm Hl Hb.
  destruct (cow_store_spec b (zlen X) bs ltac:(lia)) as (b' & mem & Hs & Hu' & Hsz & Hlen & _ & Hsame & Hput); [|done|].
  { unfold cow_capacity. rewrite Hm, !length_app. lia. }
  exists b'. splits; try done. rewrite Hsame, Hm, put_app in Hput by (try done; lia). congruence.
Qed.

Lemma WriteAt_known (p : t buf) X mid post bs : cow_unshared (buffer_ p) = true ->
  cow_mem (buffer_ p) = X ++ mid ++ post -> zlen bs = zlen mid -> is_bytes bs ->
  exists b', WriteAt (zlen X) bs p = Some (with_buffer b' p) /\ cow_unshared b' = true
    /\ cow_size b' = cow_size (buffer_ p) /\ cow_mem b' = X ++ bs ++ post.
Proof.
  intros Hu Hm Hl Hb. destruct (store_known _ X mid post bs Hu Hm Hl Hb) as (b' & Hs & H1 & H2 & H3).
  exists b'. unfold WriteAt. by rewrite Hs.
Qed.

(** A store inside the content. *)
Lemma WriteAt_inside (p : t buf) X mid post bs : cow_data (buffer_ p) = X ++ mid ++ post ->
  zlen bs = zlen mid -> is_bytes bs ->
  exists b', WriteAt (zlen X) bs p = Some (with_buffer b' p) /\ cow_data b' = X ++ bs ++ post
    /\ cow_capacity b' = cow_capacity (buffer_ p) /\ cow_unshared b' = true.
Proof.
  intros Hd Hl Hb. pose proof (cow_size_bounds (buffer_ p)) as Hsz. pose proof (length_data (buffer_ p)) as Hld.
  rewrite Hd, !length_app in Hld.
  destruct (store_first (buffer_ p) (zlen X) bs) as (b' & T & Hs & Hu & Hsize & _ & Hput & Hcap); [lia|lia|done|].
  exists b'. unfold WriteAt. rewrite Hs. splits; try done.
  assert (E : (X ++ mid ++ post) ++ T = X ++ mid ++ post ++ T) by (by repeat rewrite <- app_assoc).
  rewrite Hd, E, put_app in Hput by lia. injection Hput as Hmem.
  unfold cow_data. rewrite Hsize, <- Hmem, <- Hld.
  assert (E' : X ++ bs ++ post ++ T = (X ++ bs ++ post) ++ T) by (by repeat rewrite <- app_assoc).
  rewrite E'. apply take_app_length'. rewrite !length_app. lia.
Qed.

Lemma data_at_inside (p : t buf) X x post : cow_data (buffer_ p) = X ++ x :: post -> data_at p (zlen X) = Some x.
Proof.
  intros Hd. unfold data_at. rewrite <- (take_drop (Z.to_nat (cow_size (buffer_ p))) (cow_mem (buffer_ p))).
  fold (cow_data (buffer_ p)). rewrite Hd, <- app_assoc.
  rewrite <- (Z.add_0_r (zlen X)), peek_app_at by lia. done.
Qed.

(** The fixed header, taken apart. *)
Definition after_second (im : image) : bytes :=
  be_bytes 2 (im_sequence_number im) ++ be_bytes 4 (im_timestamp im) ++ be_bytes 4 (im_ssrc im)
  ++ csrc_octets im ++ ext_block (im_two_byte im) (im_extensions im)
  ++ im_payload im ++ padding_octets (im_padding im).

Lemma encode_octets im : encode im = [first_octet im] ++ second_octet im :: after_second im.
Proof. unfold encode, header_octets, after_second. cbn [app]. by repeat rewrite <- app_assoc. Qed.

(** Same layout, other members of the fixed header. *)
Lemma rep_same_layout (p p' : t buf) im im' : represents p im -> image_wf im' ->
  marker_ p' = im_marker im' -> payload_type_ p' = im_payload_type im' ->
  sequence_number_ p' = im_sequence_number im' -> timestamp_ p' = im_timestamp im' -> ssrc_ p' = im_ssrc im' ->
  payload_offset_ p' = payload_offset_ p -> payload_size_ p' = payload_size_ p ->
  padding_size_ p' = padding_size_ p -> extension_entries_ p' = extension_entries_ p ->
  extensions_size_ p' = extensions_size_ p -> cow_data (buffer_ p') = encode im' ->
  im_csrcs im' = im_csrcs im -> im_two_byte im' = im_two_byte im -> im_extensions im' = im_extensions im ->
  im_payload im' = im_payload im -> im_padding im' = im_padding im ->
  represents p' im'.
Proof.
  intros [Hw Hs Hd He] Hw'. destruct Hs. intros. constructor; [done| |done|congruence].
  constructor; try done; unfold payload_start, extensions_start in *; congruence.
Qed.

Lemma bytes_one v : is_u8 v -> is_bytes [v].
Proof. intros Hv. constructor; [done|constructor]. Qed.

Lemma store_second p im v : represents p im -> is_u8 v -> exists b', WriteAt 1 [v] p = Some (with_buffer b' p)
  /\ cow_data b' = [first_octet im] ++ v :: after_second im /\ cow_capacity b' = cow_capacity (buffer_ p).
Proof.
  intros [Hw Hs Hd He] Hv.
  destruct (WriteAt_inside p [first_octet im] [second_octet im] (after_second im) [v])
    as (b' & HW & Hdata & Hcap & _); [by rewrite Hd, encode_octets|done|by apply bytes_one|].
  by exists b'.
Qed.

Lemma second_at p im : represents p im -> data_at p 1 = Some (octet1 (im_marker im) (im_payload_type im)).
Proof.
  intros [Hw Hs Hd He].
  exact (data_at_inside p [first_octet im] (second_octet im) (after_second im) (eq_trans Hd (encode_octets im))).
Qed.

Lemma octet1_range m pt : 0 <= pt < 128 -> is_u8 (octet1 m pt).
Proof. unfold octet1, is_u8. destruct m; lia. Qed.

Lemma SetMarker_rep p im m : represents p im -> exists p', SetMarker m p = Some p'
  /\ represents p' (im_set_marker m im) /\ capacity p' = capacity p /\ extensions_ p' = extensions_ p.
Proof.
  intros Hr. pose proof (rep_wf _ _ Hr) as Hw. pose proof (wf_payload_type _ Hw) as Hpt.
  destruct (octet1_write (im_marker im) (im_payload_type im) 0 Hpt ltac:(lia)) as (W1 & W2 & _).
  destruct (store_second p im (octet1 m (im_payload_type im)) Hr (octet1_range m _ Hpt)) as (b' & HW & Hdata & Hcap).
  exists (with_buffer b' (with_marker m p)). split.
  - unfold SetMarker. change (data_at (with_marker m p) 1) with (data_at p 1). rewrite (second_at p im Hr).
    cbn [mbind option_bind]. rewrite W1, W2. unfold WriteAt in *. cbn [buffer_ with_marker].
    destruct (cow_store (buffer_ p) 1 [octet1 m (im_payload_type im)]) as [b|] eqn:E; [|done].
    injection HW as <-. by destruct m; rewrite E.
  - split; [|done]. pose proof (rep_shows _ _ Hr) as []. eapply rep_same_layout; try done.
    by destruct Hw.
Qed.

Lemma SetPayloadType_rep p im pt : represents p im -> 0 <= pt < 128 -> exists p', SetPayloadType pt p = Some p'
  /\ represents p' (im_set_payload_type pt im) /\ capacity p' = capacity p /\ extensions_ p' = extensions_ p.
Proof.
  intros Hr Hpt'. pose proof (rep_wf _ _ Hr) as Hw. pose proof (wf_payload_type _ Hw) as Hpt.
  destruct (octet1_write (im_marker im) (im_payload_type im) pt Hpt Hpt') as (_ & _ & W3).
  destruct (store_second p im (octet1 (im_marker im) pt) Hr (octet1_range _ _ Hpt')) as (b' & HW & Hdata & Hcap).
  exists (with_buffer b' (with_payload_type pt p)). split.
  - unfold SetPayloadType. leb_true. cbn [check mbind option_bind].
    change (data_at (with_payload_type pt p) 1) with (data_at p 1). rewrite (second_at p im Hr).
    cbn [mbind option_bind]. rewrite W3. unfold WriteAt in *. cbn [buffer_ with_payload_type].
    destruct (cow_store (buffer_ p) 1 [octet1 (im_marker im) pt]) as [b|]; [|done]. by injection HW as <-.
  - split; [|done]. pose proof (rep_shows _ _ Hr) as []. eapply rep_same_layout; try done.
    by destruct Hw.
Qed.

(** The multi-octet members of the fixed header: a store over [old] in the encoding. *)
Lemma store_header_field p p0 im im' X old new post : represents p0 im ->
  buffer_ p = buffer_ p0 -> encode im = X ++ old ++ post -> encode im' = X ++ new ++ post ->
  zlen new = zlen old -> is_bytes new ->
  exists b', WriteAt (zlen X) new p = Some (with_buffer b' p) /\ cow_data b' = encode im'
    /\ cow_capacity b' = cow_capacity (buffer_ p0).
Proof.
  intros [Hw Hs Hd He] Hb E E' Hl Hbytes.
  destruct (WriteAt_inside p X old post new) as (b' & HW & Hdata & Hcap & _); [by rewrite Hb, Hd|done|done|].
  exists b'. rewrite E', <- Hb. by splits.
Qed.

Definition after_sequence_number (im : image) : bytes :=
  be_bytes 4 (im_timestamp im) ++ be_bytes 4 (im_ssrc im) ++ csrc_octets im
  ++ ext_block (im_two_byte im) (im_extensions im) ++ im_payload im ++ padding_octets (im_padding im).

Lemma WriteBigEndian_bytes B v : is_bytes (ByteWriter.WriteBigEndian B v).
Proof. rewrite WriteBigEndian_spec. apply be_bytes_is_bytes. Qed.

Lemma SetSequenceNumber_rep p im n : represents p im -> is_u16 n -> exists p', SetSequenceNumber n p = Some p'
  /\ represents p' (im_set_sequence_number n im) /\ capacity p' = capacity p /\ extensions_ p' = extensions_ p.
Proof.
  intros Hr Hn. pose proof (rep_wf _ _ Hr) as Hw. pose proof (rep_shows _ _ Hr) as [].
  destruct (store_header_field (with_sequence_number n p) p im (im_set_sequence_number n im)
    [first_octet im; second_octet im] (be_bytes 2 (im_sequence_number im)) (be_bytes 2 n)
    (after_sequence_number im)) as (b' & HW & Hdata & Hcap); try done; [by apply be_bytes_is_bytes|].
  exists (with_buffer b' (with_sequence_number n p)).
  unfold SetSequenceNumber. rewrite WriteBigEndian_spec. splits; [done| |done|done].
  eapply rep_same_layout; try done. by destruct Hw.
Qed.

Lemma SetTimestamp_rep p im n : represents p im -> is_u32 n -> exists p', SetTimestamp n p = Some p'
  /\ represents p' (im_set_timestamp n im) /\ capacity p' = capacity p /\ extensions_ p' = extensions_ p.
Proof.
  intros Hr Hn. pose proof (rep_wf _ _ Hr) as Hw. pose proof (rep_shows _ _ Hr) as [].
  destruct (store_header_field (with_timestamp n p) p im (im_set_timestamp n im)
    (first_octet im :: second_octet im :: be_bytes 2 (im_sequence_number im))
    (be_bytes 4 (im_timestamp im)) (be_bytes 4 n)
    (be_bytes 4 (im_ssrc im) ++ csrc_octets im ++ ext_block (im_two_byte im) (im_extensions im)
     ++ im_payload im ++ padding_octets (im_padding im)))
    as (b' & HW & Hdata & Hcap); try done; [by apply be_bytes_is_bytes|].
  exists (with_buffer b' (with_timestamp n p)).
  unfold SetTimestamp. rewrite WriteBigEndian_spec. splits; [done| |done|done].
  eapply rep_same_layout; try done. by destruct Hw.
Qed.

Lemma SetSsrc_rep p im n : represents p im -> is_u32 n -> exists p', SetSsrc n p = Some p'
  /\ represents p' (im_set_ssrc n im) /\ capacity p' = capacity p /\ extensions_ p' = extensions_ p.
Proof.
  intros Hr Hn. pose proof (rep_wf _ _ Hr) as Hw. pose proof (rep_shows _ _ Hr) as [].
  destruct (store_header_field (with_ssrc n p) p im (im_set_ssrc n im)
    (first_octet im :: second_octet im :: be_bytes 2 (im_sequence_number im) ++ be_bytes 4 (im_timestamp im))
    (be_bytes 4 (im_ssrc im)) (be_bytes 4 n)
    (csrc_octets im ++ ext_block (im_two_byte im) (im_extensions im)
     ++ im_payload im ++ padding_octets (im_padding im)))
    as (b' & HW & Hdata & Hcap); try done; [by apply be_bytes_is_bytes|].
  exists (with_buffer b' (with_ssrc n p)).
  unfold SetSsrc. rewrite WriteBigEndian_spec. splits; [done| |done|done].
  eapply rep_same_layout; try done. by destruct Hw.
Qed.

(** *** The size of the buffer *)

Lemma data_octets (b : buf) : is_bytes (cow_data b).
Proof. apply Forall_take, cow_octets. Qed.

Lemma set_size_known (b : buf) X post : cow_unshared b = true -> cow_mem b = X ++ post ->
  cow_data (cow_SetSize b (zlen X)) = X /\ cow_capacity (cow_SetSize b (zlen X)) = cow_capacity b.
Proof.
  intros Hu Hm.
  destruct (cow_SetSize_spec b (zlen X)) as (Hs & Hc & _ & Hsame).
  { unfold cow_capacity. rewrite Hm, length_app. lia. }
  split; [|done]. unfold cow_data. rewrite Hs, Hsame, Hm by done. apply take_app_length'. lia.
Qed.

(** Keeping [B] and making room for [n] octets after it. *)
Lemma resize (b : buf) B P n : cow_data b = B ++ P -> 0 <= n -> zlen B + n <= cow_capacity b ->
  exists Y, cow_data (cow_SetSize b (zlen B + n)) = B ++ Y /\ zlen Y = n /\ is_bytes Y
    /\ take (Z.to_nat (Z.min n (zlen P))) Y = take (Z.to_nat (Z.min n (zlen P))) P
    /\ cow_capacity (cow_SetSize b (zlen B + n)) = cow_capacity b.
Proof.
  intros Hd Hn Hc. pose proof (length_data b) as Hl. rewrite Hd, length_app in Hl.
  destruct (cow_SetSize_spec b (zlen B + n)) as (Hs & Hcap & Htake & _); [lia|].
  set (b' := cow_SetSize b (zlen B + n)) in *. set (k := Z.min n (zlen P)) in *.
  assert (Hl' : zlen (cow_data b') = zlen B + n) by (rewrite length_data; exact Hs).
  assert (HD : take (List.length B + Z.to_nat k) (cow_data b') = B ++ take (Z.to_nat k) P).
  { unfold cow_data at 1. rewrite Hs, take_take.
    replace (Z.min (zlen B + n) (cow_size b)) with (zlen B + k) in Htake by (unfold k; lia).
    replace (Z.to_nat (zlen B + k)) with (List.length B + Z.to_nat k)%nat in Htake by lia.
    replace (_ `min` _)%nat with (List.length B + Z.to_nat k)%nat by lia. rewrite Htake.
    transitivity (take (List.length B + Z.to_nat k) (cow_data b)).
    - unfold cow_data. rewrite take_take. f_equal. lia.
    - rewrite Hd. apply take_app_add. }
  assert (HB : take (List.length B) (cow_data b') = B).
  { transitivity (take (List.length B) (take (List.length B + Z.to_nat k) (cow_data b'))).
    - rewrite take_take. f_equal. lia.
    - by rewrite HD, take_app_length. }
  exists (drop (List.length B) (cow_data b')). splits.
  - transitivity (take (List.length B) (cow_data b') ++ drop (List.length B) (cow_data b'));
      [by rewrite take_drop | by rewrite HB].
  - rewrite length_drop. lia.
  - apply Forall_drop, data_octets.
  - rewrite take_drop_commute, HD. by rewrite drop_app_length.
  - done.
Qed.

Lemma resize_shrink (b : buf) B P : cow_data b = B ++ P ->
  cow_data (cow_SetSize b (zlen B)) = B /\ cow_capacity (cow_SetSize b (zlen B)) = cow_capacity b.
Proof.
  intros Hd. pose proof (cow_size_bounds b). pose proof (length_data b) as Hl. rewrite Hd, length_app in Hl.
  destruct (resize b B P 0 Hd) as (Y & HY & Hn & _ & _ & Hc); [lia|lia|].
  rewrite Z.add_0_r in *. destruct Y; [by rewrite app_nil_r in HY|cbn in Hn; lia].
Qed.

(** *** Construction *)

Lemma Clear_packet_rep (p : t buf) : kFixedHeaderSize <= capacity p -> exists p', Clear p = Some p'
  /\ represents p' empty_image /\ capacity p' = capacity p /\ extensions_ p' = extensions_ p.
Proof.
  intros Hc. unfold Clear. set (p0 := Mk _ _ _ _ _ _ _ _ _ _ _ _). unfold kFixedHeaderSize, capacity in *.
  destruct (store_first (buffer_ p0) 0 (replicate (Z.to_nat 12) 0)) as (b1 & T & Hs & Hu & Hsz & Hl & Hput & Hcap);
    [done|exact Hc|by apply Forall_replicate|].
  assert (HW1 : WriteAt 0 (replicate (Z.to_nat 12) 0) p0 = Some (with_buffer b1 p0))
    by (unfold WriteAt; by rewrite Hs).
  rewrite HW1. cbn [mbind option_bind].
  set (M := cow_data (buffer_ p0) ++ T) in *.
  assert (HM : (12 <= List.length M)%nat) by (change (buffer_ p0) with (buffer_ p) in Hl; lia).
  assert (EM : M = [] ++ take 12 M ++ drop 12 M) by (cbn [app]; by rewrite take_drop).
  rewrite EM, (put_app [] (take 12 M) (drop 12 M)) in Hput
    by (rewrite length_take, length_replicate; lia).
  injection Hput as Hmem.
  destruct (set_size_known b1 (replicate 12 0) (drop 12 M) Hu (eq_sym Hmem)) as [Hd Hc2].
  destruct (WriteAt_inside (SetSize 12 (with_buffer b1 p0)) [] [0] (replicate 11 0) [128])
    as (b2 & HW & Hd2 & Hc3 & _); [exact Hd|done|by apply bytes_one|].
  exists (with_buffer b2 (SetSize 12 (with_buffer b1 p0))). splits; [exact HW| | |done].
  - constructor; [|by constructor| |done].
    + constructor; try done; try constructor; done.
    + exact Hd2.
  - etransitivity; [exact Hc3|]. etransitivity; [exact Hc2|]. exact Hcap.
Qed.

Lemma new_rep extensions n : kFixedHeaderSize <= n -> exists p, new extensions n = Some p
  /\ represents p empty_image /\ capacity p = n /\ extensions_ p = extensions.
Proof.
  intros Hn. unfold new. leb_true. cbn [check mbind option_bind].
  destruct (cow_new_spec n) as [_ Hc]; [unfold kFixedHeaderSize in Hn; lia|].
  destruct (Clear_packet_rep (Mk false 0 0 0 0 0 0 0 extensions [] 0 (cow_new n))) as (p & Hp & Hr & Hcap & He).
  - unfold capacity. cbn. lia.
  - exists p. splits; try done. rewrite Hcap. exact Hc.
Qed.

(** *** Payload and padding *)

(** The octets before the payload. *)
Definition headers (im : image) : bytes :=
  header_octets im ++ csrc_octets im ++ ext_block (im_two_byte im) (im_extensions im).

Lemma length_headers im : zlen (headers im) = payload_start im.
Proof.
  unfold headers, payload_start. rewrite !length_app, !Nat2Z.inj_add, length_header, length_csrcs.
  unfold kFixedHeaderSize. lia.
Qed.

Lemma encode_headers im : encode im = headers im ++ im_payload im ++ padding_octets (im_padding im).
Proof. unfold encode, headers. by repeat rewrite <- app_assoc. Qed.

Lemma payload_start_bound im : image_wf im -> 12 <= payload_start im < 2 ^ 17.
Proof.
  intros Hw. pose proof (wf_block _ Hw) as Hb. pose proof (wf_csrcs _ Hw) as [_ Hcc].
  unfold payload_start, extensions_start, kFixedHeaderSize in *. change (2 ^ 17) with 131072.
  destruct (decide (im_extensions im = [])) as [E|Hne].
  - rewrite E in *. cbn [ext_block List.length] in *. lia.
  - rewrite length_ext_block by done. pose proof (words_bounds (ext_items (im_two_byte im) (im_extensions im))). lia.
Qed.

Lemma SetPayloadSize_rep p im n : represents p im -> im_padding im = 0 -> 0 <= n < 2 ^ 63 ->
  (payload_start im + n > capacity p /\ SetPayloadSize n p = Some (p, None))
  \/ exists p' Y, SetPayloadSize n p = Some (p', Some (payload_start im))
     /\ represents p' (im_set_payload Y im) /\ zlen Y = n
     /\ take (Z.to_nat (Z.min n (zlen (im_payload im)))) Y
        = take (Z.to_nat (Z.min n (zlen (im_payload im)))) (im_payload im)
     /\ capacity p' = capacity p /\ extensions_ p' = extensions_ p.
Proof.
  intros Hr Hpad Hn. pose proof (rep_wf _ _ Hr) as Hw. pose proof (rep_shows _ _ Hr) as Hs.
  pose proof (payload_start_bound im Hw) as Hps. change (2 ^ 17) with 131072 in Hps. change (2 ^ 63) with 9223372036854775808 in Hn.
  unfold SetPayloadSize. rewrite (shows_padding _ _ Hs), (shows_payload_offset _ _ Hs), Hpad.
  cbn [check Z.eqb mbind option_bind]. rewrite u64_id by (unfold is_u64; lia). rewrite Z.gtb_ltb.
  destruct (Z.ltb_spec (capacity p) (payload_start im + n)) as [Hlt|Hge]; [left; split; [lia|done]|right].
  cbn [payload_offset_ payload_size_ with_layout]. rewrite u64_id by (unfold is_u64; lia).
  pose proof (rep_data _ _ Hr) as Hd. rewrite encode_headers, Hpad in Hd. cbn [padding_octets Z.eqb] in Hd.
  rewrite app_nil_r in Hd. rewrite <- length_headers.
  destruct (resize (buffer_ p) (headers im) (im_payload im) n Hd) as (Y & HY & Hl & Hb & Htake & Hc);
    [lia|rewrite length_headers; exact Hge|].
  eexists _, Y. split; [done|]. splits; try done.
  constructor.
  - destruct Hw. by constructor.
  - destruct Hs. constructor; try done. exact (length_headers im).
  - cbn [buffer_ SetSize with_buffer with_layout]. rewrite HY, encode_headers. cbn [im_set_payload im_payload im_padding].
    rewrite Hpad. cbn [padding_octets Z.eqb]. by rewrite app_nil_r.
  - apply (rep_extensions_size _ _ Hr).
Qed.

(** The caller fills the payload through the pointer. *)
Lemma write_payload p im bs : represents p im -> zlen bs = zlen (im_payload im) -> is_bytes bs ->
  exists p', WriteAt (payload_start im) bs p = Some p' /\ represents p' (im_set_payload bs im)
  /\ capacity p' = capacity p /\ extensions_ p' = extensions_ p.
Proof.
  intros Hr Hl Hb. pose proof (rep_data _ _ Hr) as Hd. rewrite encode_headers in Hd.
  destruct (WriteAt_inside p _ _ _ bs Hd Hl Hb) as (b' & HW & Hdata & Hc & _).
  rewrite length_headers in HW. eexists. split; [exact HW|]. splits; try done.
  pose proof (rep_wf _ _ Hr) as Hw. pose proof (rep_shows _ _ Hr) as Hs. constructor.
  - destruct Hw. by constructor.
  - destruct Hs. constructor; try done. cbn. by rewrite Hl.
  - cbn [buffer_ with_buffer]. by rewrite Hdata, encode_headers.
  - apply (rep_extensions_size _ _ Hr).
Qed.

(** The first octet over the rest of the packet. *)
Definition after_first (im : image) : bytes := second_octet im :: after_second im.

Lemma store_padding_flag (p : t buf) im flag n rest :
  cow_data (buffer_ p) = first_octet im :: rest -> image_wf im ->
  (flag = true -> n <> 0) -> (flag = false -> n = 0) ->
  exists b', (b0 ← data_at p 0;
     WriteAt 0 [if flag : bool then Z.lor b0 0x20 else Z.land b0 (u8 (Z.lnot 0x20))] p) = Some (with_buffer b' p)
  /\ cow_data b' = first_octet (im_set_padding n im) :: rest /\ cow_capacity b' = cow_capacity (buffer_ p).
Proof.
  intros Hd Hw Ht Hf. assert (H0 : data_at p 0 = Some (first_octet im)) by exact (data_at_inside p [] _ _ Hd).
  rewrite H0. cbn [mbind option_bind].
  pose proof (wf_csrcs _ Hw) as [_ Hcc].
  destruct (octet0_write (negb (im_padding im =? 0)) (bool_decide (im_extensions im <> [])) (zlen (im_csrcs im)) 0
    ltac:(lia) ltac:(lia)) as (W1 & W2 & _).
  assert (E : (if flag : bool then Z.lor (first_octet im) 0x20 else Z.land (first_octet im) (u8 (Z.lnot 0x20)))
    = first_octet (im_set_padding n im)).
  { rewrite !first_octet_eq. cbn [im_set_padding im_padding im_extensions im_csrcs].
    destruct flag.
    - rewrite W1, (proj2 (Z.eqb_neq n 0)) by auto. done.
    - rewrite W2, (Hf eq_refl). done. }
  rewrite E. destruct (WriteAt_inside p [] [first_octet im] rest [first_octet (im_set_padding n im)])
    as (b' & HW & Hdata & Hc & _); [done|done| |by exists b'].
  apply bytes_one. rewrite first_octet_eq. apply octet0_range. cbn [im_set_padding im_csrcs]. lia.
Qed.

Lemma headers_cons im : headers im = first_octet im :: tl (headers im).
Proof. done. Qed.

Lemma rep_with_padding p im n b : represents p im -> is_u8 n ->
  cow_data b = first_octet (im_set_padding n im) :: tl (headers im) ++ im_payload im ++ padding_octets n ->
  represents (with_buffer b (with_layout (payload_start im) (zlen (im_payload im)) n p)) (im_set_padding n im).
Proof.
  intros [Hw Hs Hd He] Hn Hb. constructor; [by destruct Hw; constructor|by destruct Hs; constructor| |done].
  cbn [buffer_ with_buffer]. rewrite Hb, encode_headers. done.
Qed.

(** SetPadding on a packet that holds [im]: too large a padding is refused. *)
Lemma SetPadding_rep p im n : represents p im -> is_u8 n -> capacity p < 2 ^ 63 ->
  (payload_start im + zlen (im_payload im) + n > capacity p /\ SetPadding n p = Some (p, false))
  \/ exists p', SetPadding n p = Some (p', true) /\ represents p' (im_set_padding n im)
     /\ capacity p' = capacity p /\ extensions_ p' = extensions_ p.
Proof.
  intros Hr Hn Hcap. change (2 ^ 63) with 9223372036854775808 in Hcap.
  pose proof (rep_wf _ _ Hr) as Hw. pose proof (rep_shows _ _ Hr) as Hs.
  pose proof (payload_start_bound im Hw) as Hps. change (2 ^ 17) with 131072 in Hps. pose proof Hn as Hn'. unfold is_u8 in Hn'.
  pose proof (rep_data _ _ Hr) as Hd. rewrite encode_headers, app_assoc in Hd.
  assert (HB : zlen (headers im ++ im_payload im) = payload_start im + zlen (im_payload im))
    by (rewrite length_app, Nat2Z.inj_add, length_headers; done).
  pose proof (cow_size_bounds (buffer_ p)) as Hsz. rewrite <- length_data, Hd, length_app in Hsz.
  unfold SetPadding. rewrite (shows_payload_offset _ _ Hs), (shows_payload_size _ _ Hs).
  rewrite u64_id by (unfold is_u64, capacity in *; lia). rewrite Z.gtb_ltb.
  destruct (Z.ltb_spec (capacity p) (payload_start im + zlen (im_payload im) + n)) as [Hlt|Hge];
    [left; split; [lia|done]|right].
  rewrite dchecked_cast_u8_id by done. cbn [mbind option_bind payload_offset_ payload_size_ padding_size_ with_layout SetSize with_buffer].
  rewrite <- HB in *.
  destruct (resize (buffer_ p) (headers im ++ im_payload im) _ n Hd) as (Y & HY & Hl & Hb & _ & Hc); [lia|exact Hge|].
  set (p1 := SetSize _ _). rewrite Z.gtb_ltb. destruct (Z.ltb_spec 0 n) as [Hpos|Hzero].
  - destruct (exists_last (l := Y)) as (Y1 & y & ->); [by intros ->; cbn in Hl; lia|].
    rewrite length_app in Hl. cbn [List.length] in Hl.
    destruct (WriteAt_inside p1 (headers im ++ im_payload im) Y1 [y] (replicate (Z.to_nat (n - 1)) 0))
      as (b2 & HW2 & Hd2 & Hc2 & _); [exact HY|rewrite length_replicate; lia|by apply Forall_replicate|].
    rewrite HW2. cbn [mbind option_bind]. rewrite app_assoc in Hd2.
    destruct (WriteAt_inside (with_buffer b2 p1) ((headers im ++ im_payload im) ++ replicate (Z.to_nat (n - 1)) 0)
      [y] [] [n]) as (b3 & HW3 & Hd3 & Hc3 & _); [exact Hd2|done|by apply bytes_one|].
    replace (zlen _) with (zlen (headers im ++ im_payload im) + n - 1) in HW3
      by (rewrite (length_app (_ ++ _) (replicate _ _)), length_replicate; lia).
    change (padding_size_ (with_buffer b2 p1)) with n. rewrite HW3. cbn [mbind option_bind].
    destruct (store_padding_flag (with_buffer b3 (with_buffer b2 p1)) im true n
      (tl (headers im) ++ im_payload im ++ padding_octets n)) as (b4 & HW4 & Hd4 & Hc4); [|done|lia|done|].
    { cbn [buffer_ with_buffer]. rewrite Hd3. unfold padding_octets. rewrite (proj2 (Z.eqb_neq n 0)) by lia.
      rewrite (headers_cons im). cbn [app tl]. by repeat rewrite <- app_assoc. }
    destruct (data_at _ 0) as [b0|]; [|done]. cbn [mbind option_bind] in HW4 |- *. rewrite HW4. cbn [mbind option_bind].
    eexists. split; [done|]. split; [by apply rep_with_padding|].
    split; [|done]. unfold capacity. cbn [buffer_ with_buffer] in *. rewrite Hc4, Hc3, Hc2. exact Hc.
  - assert (n = 0) as -> by lia. destruct Y; [|cbn in Hl; lia].
    destruct (store_padding_flag p1 im false 0 (tl (headers im) ++ im_payload im)) as (b4 & HW4 & Hd4 & Hc4);
      [|done..|].
    { rewrite (HY : cow_data (buffer_ p1) = _), app_nil_r, (headers_cons im). done. }
    destruct (data_at _ 0) as [b0|]; [|done]. cbn [mbind option_bind] in HW4 |- *. rewrite HW4. cbn [mbind option_bind].
    eexists. split; [done|]. split; [apply rep_with_padding; [done|done|by rewrite Hd4, app_nil_r]|].
    split; [|done]. unfold capacity. cbn [buffer_ with_buffer] in *. rewrite Hc4. exact Hc.
Qed.

(** *** Stores past the content

    [laid b K gap S]: the octets [K], then [gap] unknown ones, then [S] are where the
    following stores will find them. Beyond the content of a buffer that may be shared
    nothing is known, so there [S] must be empty. *)
Definition laid (b : buf) (K : bytes) (gap : Z) (S : bytes) : Prop :=
  0 <= gap /\ zlen K + gap + zlen S <= cow_capacity b
  /\ ((cow_unshared b = true /\ exists J R, zlen J = gap /\ cow_mem b = K ++ J ++ S ++ R)
      \/ (S = [] /\ exists R, cow_data b = K ++ R)).

Definition knows (b : buf) (K : bytes) : Prop := laid b K 0 [].

Lemma data_prefix (b : buf) : exists R, cow_mem b = cow_data b ++ R.
Proof. exists (drop (Z.to_nat (cow_size b)) (cow_mem b)). unfold cow_data. by rewrite take_drop. Qed.

Lemma laid_mem b K gap S : laid b K gap S -> exists R, cow_mem b = K ++ R.
Proof.
  intros (_ & _ & [(_ & J & R & _ & ->)|(_ & R & Hd)]); [by eexists|].
  destruct (data_prefix b) as [R' ->]. exists (R ++ R'). by rewrite Hd, <- app_assoc.
Qed.

(** What a store works on. *)
Lemma laid_store b K gap S off bs : laid b K gap S -> 0 <= off -> off + zlen bs <= cow_capacity b ->
  is_bytes bs -> exists b' J R, zlen J = gap /\ cow_store b off bs = Some b' /\ cow_unshared b' = true
    /\ cow_capacity b' = cow_capacity b /\ put (K ++ J ++ S ++ R) off bs = Some (cow_mem b')
    /\ zlen (K ++ J ++ S ++ R) = cow_capacity b.
Proof.
  intros (Hg & Hc & Hlaid) Ho Hcap Hb. destruct Hlaid as [(Hu & J & R & HJ & Hm)|(-> & R & Hd)].
  - destruct (cow_store_spec b off bs Ho Hcap Hb) as (b' & mem & Hs & Hu' & _ & Hl & _ & Hsame & Hput).
    rewrite (Hsame Hu), Hm in Hput. exists b', J, R. rewrite Hsame, Hm in Hl by done.
    splits; try done. unfold cow_capacity at 1. by rewrite (put_length _ _ _ _ Hput).
  - destruct (store_first b off bs Ho Hcap Hb) as (b' & T & Hs & Hu' & _ & Hl & Hput & Hc').
    rewrite Hd, <- app_assoc in Hput, Hl. exists b', (take (Z.to_nat gap) (R ++ T)), (drop (Z.to_nat gap) (R ++ T)).
    cbn [app]. rewrite take_drop. rewrite length_app in Hl. cbn [List.length] in Hc. splits; try done.
    + rewrite length_take. lia.
    + rewrite length_app. exact Hl.
Qed.

Lemma laid_unshared b K J S R : cow_unshared b = true -> cow_mem b = K ++ J ++ S ++ R -> laid b K (zlen J) S.
Proof.
  intros Hu Hm. split; [lia|]. split; [|left; split; [done|by exists J, R]].
  unfold cow_capacity. rewrite Hm, !length_app. lia.
Qed.

Lemma knows_unshared b K R : cow_unshared b = true -> cow_mem b = K ++ R -> knows b K.
Proof. intros Hu Hm. by apply (laid_unshared b K [] [] R). Qed.

Lemma knows_prefix b K K' : knows b (K ++ K') -> knows b K.
Proof.
  intros (_ & Hc & Hlaid). rewrite length_app in Hc. split; [done|]. split; [cbn in *; lia|].
  destruct Hlaid as [(Hu & J & R & HJ & Hm)|(_ & R & Hd)].
  - left. split; [done|]. exists [], (K' ++ J ++ R). by rewrite Hm, <- app_assoc.
  - right. split; [done|]. exists (K' ++ R). by rewrite Hd, <- app_assoc.
Qed.

Lemma knows_data b : knows b (cow_data b).
Proof.
  split; [done|]. pose proof (cow_size_bounds b). rewrite length_data. cbn. split; [lia|]. right.
  split; [done|]. exists []. by rewrite app_nil_r.
Qed.

Lemma laid_gap b K n : knows b K -> 0 <= n -> zlen K + n <= cow_capacity b -> laid b K n [].
Proof.
  intros (_ & _ & Hl) Hn Hc. split; [done|]. split; [cbn; lia|]. destruct Hl as [(Hu & J & R & HJ & Hm)|(_ & Hd)]; [left|by right].
  destruct J; [|cbn in HJ; lia]. split; [done|]. cbn [app] in *.
  unfold cow_capacity in Hc. rewrite Hm, length_app in Hc.
  exists (take (Z.to_nat n) R), (drop (Z.to_nat n) R). rewrite take_drop. split; [rewrite length_take; lia|done].
Qed.

(** A store over known octets, and one right after them. *)
Lemma knows_over p X mid post bs : knows (buffer_ p) (X ++ mid ++ post) -> zlen bs = zlen mid -> is_bytes bs ->
  exists b', WriteAt (zlen X) bs p = Some (with_buffer b' p) /\ cow_unshared b' = true
  /\ cow_capacity b' = capacity p /\ knows b' (X ++ bs ++ post).
Proof.
  intros Hk Hl Hb. pose proof Hk as (_ & Hc & _). rewrite !length_app in Hc. cbn in Hc.
  destruct (laid_store _ _ _ _ (zlen X) bs Hk) as (b' & J & R & HJ & Hs & Hu & Hcap & Hput & _); [lia|lia|done|].
  destruct J; [|cbn in HJ; lia]. cbn [app] in Hput.
  assert (E : (X ++ mid ++ post) ++ R = X ++ mid ++ post ++ R) by (by repeat rewrite <- app_assoc).
  rewrite E, put_app in Hput by lia. injection Hput as Hm.
  exists b'. unfold WriteAt. rewrite Hs. splits; try done.
  apply (knows_unshared b' _ R); [done|]. rewrite <- Hm. by repeat rewrite <- app_assoc.
Qed.

Lemma knows_after p X bs : knows (buffer_ p) X -> zlen X + zlen bs <= capacity p -> is_bytes bs ->
  exists b', WriteAt (zlen X) bs p = Some (with_buffer b' p) /\ cow_unshared b' = true
  /\ cow_capacity b' = capacity p /\ knows b' (X ++ bs).
Proof.
  intros Hk Hc Hb.
  destruct (laid_store _ _ _ _ (zlen X) bs Hk) as (b' & J & R & HJ & Hs & Hu & Hcap & Hput & Hl); [lia|done|done|].
  destruct J; [|cbn in HJ; lia]. cbn [app] in Hput, Hl. rewrite length_app in Hl. unfold capacity in *.
  assert (E : X ++ R = X ++ take (List.length bs) R ++ drop (List.length bs) R) by (by rewrite take_drop).
  rewrite E, put_app in Hput by (rewrite length_take; lia). injection Hput as Hm.
  exists b'. unfold WriteAt. rewrite Hs. splits; try done.
  apply (knows_unshared b' _ (drop (List.length bs) R)); [done|]. by rewrite <- Hm, <- app_assoc.
Qed.

(** The octets behind the known ones have some value. *)
Lemma knows_more b K n : knows b K -> cow_unshared b = true -> 0 <= n -> zlen K + n <= cow_capacity b ->
  exists v, zlen v = n /\ is_bytes v /\ knows b (K ++ v).
Proof.
  intros Hk Hu Hn Hc. destruct (laid_mem _ _ _ _ Hk) as [R Hm].
  assert (Hl : zlen K + zlen R = cow_capacity b) by (unfold cow_capacity; rewrite Hm, length_app; lia).
  exists (take (Z.to_nat n) R). splits.
  - rewrite length_take. lia.
  - apply Forall_take. pose proof (cow_octets b) as Ho. rewrite Hm in Ho. by apply list.Forall_app in Ho as [_ ?].
  - apply (knows_unshared b _ (drop (Z.to_nat n) R)); [done|]. by rewrite <- app_assoc, take_drop.
Qed.

Lemma knows_set_size b K : knows b K -> cow_unshared b = true ->
  cow_data (cow_SetSize b (zlen K)) = K /\ cow_capacity (cow_SetSize b (zlen K)) = cow_capacity b.
Proof.
  intros Hk Hu. destruct (laid_mem _ _ _ _ Hk) as [R Hm]. exact (set_size_known b K R Hu Hm).
Qed.

(** *** CSRCs *)

Lemma csrc_bytes csrcs : is_bytes (concat (map (be_bytes 4) csrcs)).
Proof.
  induction csrcs as [|c cs IH]; cbn [map concat]; [constructor|]. apply list.Forall_app.
  split; [apply be_bytes_is_bytes|exact IH].
Qed.

Lemma write_csrcs_known csrcs : forall (p : t buf) X, knows (buffer_ p) X -> cow_unshared (buffer_ p) = true ->
  zlen X + 4 * zlen csrcs <= capacity p ->
  exists b', write_csrcs csrcs (zlen X) p = Some (with_buffer b' p) /\ cow_unshared b' = true
  /\ cow_capacity b' = capacity p /\ knows b' (X ++ concat (map (be_bytes 4) csrcs)).
Proof.
  induction csrcs as [|c cs IH]; intros p X Hk Hu Hc; cbn [write_csrcs map concat].
  - exists (buffer_ p). rewrite app_nil_r. split; [by destruct p|done].
  - cbn [List.length] in Hc.
    destruct (knows_after p X (ByteWriter.WriteBigEndian 4 c) Hk) as (b1 & HW & Hu1 & Hc1 & Hk1);
      [rewrite WriteBigEndian_spec, length_be_bytes; lia|apply WriteBigEndian_bytes|].
    rewrite HW. cbn [mbind option_bind].
    destruct (IH (with_buffer b1 p) (X ++ ByteWriter.WriteBigEndian 4 c)) as (b2 & HW2 & Hu2 & Hc2 & Hk2); try done.
    { unfold capacity. cbn [buffer_ with_buffer]. rewrite Hc1, length_app, WriteBigEndian_spec, length_be_bytes. lia. }
    replace (zlen (X ++ _)) with (zlen X + 4) in HW2
      by (rewrite length_app, WriteBigEndian_spec, length_be_bytes; lia).
    exists b2. split; [exact HW2|]. split; [done|]. split; [by rewrite Hc2|].
    by rewrite WriteBigEndian_spec, <- app_assoc in Hk2.
Qed.

Lemma csrc_list_size csrcs : zlen (concat (map (be_bytes 4) csrcs)) = 4 * zlen csrcs.
Proof.
  induction csrcs as [|c cs IH]; [done|]. cbn [map concat List.length].
  rewrite length_app, length_be_bytes. lia.
Qed.

Lemma payload_start_plain im : im_extensions im = [] -> payload_start im = kFixedHeaderSize + 4 * zlen (im_csrcs im).
Proof. intros He. unfold payload_start. rewrite He. cbn. lia. Qed.

Lemma extensions_start_plain im : extensions_start im = kFixedHeaderSize + 4 * zlen (im_csrcs im) + 4.
Proof. done. Qed.

(** The octets before the extension block. *)
Definition front (im : image) : bytes := header_octets im ++ csrc_octets im.

Lemma length_front im : zlen (front im) = kFixedHeaderSize + 4 * zlen (im_csrcs im).
Proof. apply length_before. Qed.

Lemma encode_plain im : im_extensions im = [] -> im_payload im = [] -> im_padding im = 0 -> encode im = front im.
Proof.
  intros He Hp Hz. unfold encode, front. rewrite He, Hp, Hz. cbn [ext_block padding_octets Z.eqb app].
  by rewrite !app_nil_r.
Qed.

(** Setting bits of the first octet, with [tail] behind it. *)
Lemma store_octet0 (p : t buf) p0 x tail v : buffer_ p = buffer_ p0 -> knows (buffer_ p0) (x :: tail) -> is_u8 v ->
  data_at p 0 = Some x /\ exists b', WriteAt 0 [v] p = Some (with_buffer b' p) /\ cow_unshared b' = true
  /\ cow_capacity b' = capacity p0 /\ knows b' (v :: tail).
Proof.
  intros Hb Hk Hv. rewrite <- Hb in Hk. split.
  - unfold data_at. destruct (laid_mem _ _ _ _ Hk) as [R ->]. done.
  - destruct (knows_over p [] [x] tail [v] Hk) as (b' & HW & H1 & H2 & H3); [done|by apply bytes_one|].
    exists b'. unfold capacity in *. rewrite <- Hb. done.
Qed.

(** SetCsrcs before extensions, payload and padding. *)
Lemma SetCsrcs_rep p im csrcs : represents p im -> im_extensions im = [] -> im_payload im = [] ->
  im_padding im = 0 -> Forall is_u32 csrcs -> zlen csrcs <= 15 ->
  kFixedHeaderSize + 4 * zlen csrcs <= capacity p ->
  exists p', SetCsrcs csrcs p = Some p' /\ represents p' (im_set_csrcs csrcs im)
  /\ capacity p' = capacity p /\ extensions_ p' = extensions_ p.
Proof.
  intros Hr He Hpl Hpad Hcs Hn Hcap. pose proof (rep_wf _ _ Hr) as Hw. pose proof (rep_shows _ _ Hr) as Hs.
  pose proof (wf_csrcs _ Hw) as [_ Hcc]. unfold SetCsrcs.
  rewrite (rep_extensions_size _ _ Hr), (shows_payload_size _ _ Hs), (shows_padding _ _ Hs), He, Hpl, Hpad.
  cbn [check mbind option_bind ext_items map concat List.length Z.eqb]. change (Z.of_nat 0 =? 0) with true.
  cbn [check mbind option_bind]. do 2 leb_true. cbn [check mbind option_bind].
  set (p1 := with_layout _ _ _ p).
  assert (Hk : knows (buffer_ p) (first_octet im :: tl (header_octets im))).
  { apply (knows_prefix _ _ (csrc_octets im)). pose proof (knows_data (buffer_ p)) as Hk.
    by rewrite (rep_data _ _ Hr), (encode_plain im He Hpl Hpad) in Hk. }
  destruct (octet0_write (negb (im_padding im =? 0)) (bool_decide (im_extensions im <> [])) (zlen (im_csrcs im)) (zlen csrcs)
    ltac:(lia) ltac:(lia)) as (_ & _ & _ & W4). rewrite <- first_octet_eq in W4.
  destruct (store_octet0 p1 p _ _ (first_octet (im_set_csrcs csrcs im)) eq_refl Hk) as (-> & b1 & HW1 & Hu1 & Hc1 & Hk1).
  { rewrite first_octet_eq. apply octet0_range. cbn [im_csrcs im_set_csrcs]. lia. }
  cbn [mbind option_bind]. rewrite dchecked_cast_u8_id by (unfold is_u8; lia). cbn [mbind option_bind].
  rewrite W4. change (octet0 _ _ (zlen csrcs)) with (octet0 (negb (im_padding (im_set_csrcs csrcs im) =? 0))
    (bool_decide (im_extensions (im_set_csrcs csrcs im) <> [])) (zlen (im_csrcs (im_set_csrcs csrcs im)))).
  rewrite <- first_octet_eq, HW1. cbn [mbind option_bind].
  set (X := first_octet _ :: _) in Hk1.
  assert (HX : zlen X = kFixedHeaderSize) by (unfold kFixedHeaderSize; exact (length_header (im_set_csrcs csrcs im))).
  destruct (write_csrcs_known csrcs (with_buffer b1 p1) X Hk1 Hu1) as (b2 & HW2 & Hu2 & Hc2 & Hk2).
  { unfold capacity. cbn [buffer_ with_buffer]. rewrite Hc1. lia. }
  rewrite HX in HW2. rewrite HW2. cbn [mbind option_bind payload_offset_ with_buffer with_layout p1].
  assert (E : X ++ concat (map (be_bytes 4) csrcs) = front (im_set_csrcs csrcs im)) by done.
  rewrite E in Hk2. destruct (knows_set_size b2 _ Hk2 Hu2) as [Hd Hc3]. rewrite length_front in Hd, Hc3.
  cbn [im_csrcs im_set_csrcs] in Hd, Hc3.
  eexists. split; [done|]. splits; [|unfold capacity in *; cbn [buffer_ SetSize with_buffer] in *; congruence|done].
  constructor; [|constructor; cbn -[Z.mul Z.add kFixedHeaderSize zlen]; try apply Hs|..].
  - destruct Hw. constructor; try done. rewrite extensions_start_plain. cbn -[Z.mul Z.add kFixedHeaderSize].
    rewrite He. cbn. unfold kFixedHeaderSize. lia.
  - by rewrite payload_start_plain.
  - by rewrite Hpl.
  - done.
  - by rewrite (shows_entries _ _ Hs), He.
  - rewrite encode_plain by done. exact Hd.
  - cbn. rewrite (rep_extensions_size _ _ Hr), He. done.
Qed.

(** *** The extension block *)

Lemma block_eq two exts : exts <> [] -> ext_block two exts = be_bytes 2 (profile_of two)
  ++ be_bytes 2 (words_of (ext_items two exts)) ++ ext_items two exts ++ fill (ext_items two exts).
Proof. by destruct exts. Qed.

Lemma encode_block im : im_extensions im <> [] -> im_payload im = [] -> im_padding im = 0 ->
  encode im = front im ++ ext_block (im_two_byte im) (im_extensions im).
Proof.
  intros He Hp Hz. unfold encode, front. rewrite Hp, Hz. cbn [padding_octets Z.eqb app].
  by rewrite app_nil_r, <- app_assoc.
Qed.

(** The end of the block: its length field and its zeroes. *)
Lemma set_extension_length (p : t buf) F prof w items : knows (buffer_ p) (F ++ prof ++ w ++ items) ->
  zlen prof = 2 -> zlen w = 2 -> extensions_size_ p = zlen items ->
  zlen F + 4 + 4 * words_of items <= capacity p -> 4 * words_of items < 65536 ->
  exists b', SetExtensionLengthMaybeAddZeroPadding (zlen F + 4) p = Some (with_buffer b' p, 4 * words_of items)
  /\ cow_unshared b' = true /\ cow_capacity b' = capacity p
  /\ knows b' (F ++ prof ++ be_bytes 2 (words_of items) ++ items ++ fill items).
Proof.
  intros Hk Hp Hw Hsize Hc Hlt. pose proof (words_bounds items) as [Hwb Hw0].
  unfold SetExtensionLengthMaybeAddZeroPadding. rewrite Hsize. fold (words_of items).
  rewrite dchecked_cast_id by (unfold is_u16; lia). cbn [mbind option_bind].
  rewrite app_assoc in Hk.
  destruct (knows_over p (F ++ prof) w items (ByteWriter.WriteBigEndian 2 (words_of items)) Hk)
    as (b1 & HW & Hu1 & Hc1 & Hk1); [by rewrite WriteBigEndian_spec, length_be_bytes, Hw|apply WriteBigEndian_bytes|].
  replace (zlen (F ++ prof)) with (zlen F + 4 - 2) in HW by (rewrite length_app; lia).
  rewrite HW. cbn [mbind option_bind]. change (extensions_size_ (with_buffer b1 p)) with (extensions_size_ p).
  rewrite Hsize.
  destruct (knows_after (with_buffer b1 p) _ (fill items) Hk1) as (b2 & HW2 & Hu2 & Hc2 & Hk2).
  { unfold capacity at 1. cbn [buffer_ with_buffer]. rewrite Hc1, length_fill.
    repeat rewrite length_app. rewrite WriteBigEndian_spec, length_be_bytes. lia. }
  { by apply Forall_replicate. }
  replace (zlen ((F ++ prof) ++ _)) with (zlen F + 4 + zlen items) in HW2
    by (repeat rewrite length_app; rewrite WriteBigEndian_spec, length_be_bytes; lia).
  change (replicate _ 0) with (fill items). rewrite HW2. cbn [mbind option_bind].
  rewrite u16_id by (unfold is_u16; lia).
  exists b2. split; [done|]. split; [done|]. split; [by rewrite Hc2|].
  rewrite WriteBigEndian_spec in Hk2. by repeat rewrite <- app_assoc in Hk2.
Qed.

(** The members that the extensions do not touch. *)
Record same_header (p p0 : t buf) : Prop := {
  same_marker : marker_ p = marker_ p0;
  same_payload_type : payload_type_ p = payload_type_ p0;
  same_sequence_number : sequence_number_ p = sequence_number_ p0;
  same_timestamp : timestamp_ p = timestamp_ p0;
  same_ssrc : ssrc_ p = ssrc_ p0;
  same_payload_size : payload_size_ p = payload_size_ p0;
  same_padding : padding_size_ p = padding_size_ p0;
  same_map : extensions_ p = extensions_ p0
}.

(** The tail shared by the promotion and the allocation: the length, the zeroes, the new
    payload offset and the size of the buffer. *)
Lemma finish_extensions (p p0 : t buf) im two exts w : represents p0 im -> im_payload im = [] -> im_padding im = 0 ->
  same_header p p0 -> exts <> [] -> image_wf (im_set_extensions two exts im) ->
  extension_entries_ p = entries_of two (extensions_start im) exts ->
  extensions_size_ p = zlen (ext_items two exts) -> zlen w = 2 ->
  knows (buffer_ p) (front (im_set_extensions two exts im) ++ be_bytes 2 (profile_of two) ++ w ++ ext_items two exts) ->
  extensions_start im + 4 * words_of (ext_items two exts) <= capacity p -> capacity p <= 65535 ->
  exists p1 padded, SetExtensionLengthMaybeAddZeroPadding (extensions_start im) p = Some (p1, padded)
  /\ let p2 := with_layout (extensions_start im + padded) (payload_size_ p1) (padding_size_ p1) p1 in
     let p3 := SetSize (payload_offset_ p2) p2 in
     represents p3 (im_set_extensions two exts im) /\ capacity p3 = capacity p /\ extensions_ p3 = extensions_ p0.
Proof.
  intros Hr Hpl Hpad Hsame Hne Hw He Hsize Hlw Hk Hc Hc'. pose proof (rep_shows _ _ Hr) as Hs.
  assert (HF : extensions_start im = zlen (front (im_set_extensions two exts im)) + 4) by (by rewrite length_front).
  assert (0 <= extensions_start im) by (unfold extensions_start, kFixedHeaderSize; lia).
  destruct (set_extension_length p _ _ _ _ Hk) as (b' & HS & Hu & Hcb & Hk'); [by rewrite length_be_bytes|done|done|lia|lia|].
  rewrite <- HF in HS. exists (with_buffer b' p), (4 * words_of (ext_items two exts)). split; [exact HS|].
  cbn [payload_offset_ with_layout payload_size_ padding_size_ with_buffer].
  assert (Hoff : extensions_start im + 4 * words_of (ext_items two exts) = payload_start (im_set_extensions two exts im)).
  { unfold payload_start. cbn [im_csrcs im_set_extensions im_two_byte im_extensions].
    rewrite length_ext_block by done. unfold extensions_start. lia. }
  rewrite <- block_eq in Hk' by done.
  destruct (knows_set_size b' _ Hk' Hu) as [Hd Hc2].
  assert (Hlen : zlen (front (im_set_extensions two exts im) ++ ext_block two exts)
    = extensions_start im + 4 * words_of (ext_items two exts)) by (rewrite length_app, Nat2Z.inj_add, length_ext_block; [lia|done]).
  rewrite Hlen in Hd, Hc2. split.
  - destruct Hsame. constructor; [done| | |exact Hsize].
    + constructor; cbn -[Z.mul]; try (etransitivity; [eassumption|apply Hs]); [exact Hoff|exact He].
    + rewrite encode_block by done. exact Hd.
  - split; [unfold capacity in *; cbn [buffer_ SetSize with_buffer with_layout] in *; congruence|].
    cbn. apply Hsame.
Qed.

(** *** Appending an extension *)

Lemma front_extensions two two' exts exts' im : exts <> [] -> exts' <> [] ->
  front (im_set_extensions two exts im) = front (im_set_extensions two' exts' im).
Proof. by destruct exts, exts'. Qed.

Lemma set_extensions_same im : im_set_extensions (im_two_byte im) (im_extensions im) im = im.
Proof. by destruct im. Qed.

Lemma items_nil two exts : Forall (ext_wf two) exts -> (zlen (ext_items two exts) =? 0) = bool_decide (exts = []).
Proof.
  intros Hw. destruct Hw as [|e exts (_ & He & _) _]; [done|]. rewrite bool_decide_false by done. apply Z.eqb_neq.
  unfold ext_items. cbn [map concat]. rewrite length_app, Nat2Z.inj_add, length_item. destruct two; cbn [header_size]; lia.
Qed.

(** What append_extension does before the header of the extension. *)
Definition open_block (profile_id extensions_offset num_csrc : Z) (this : t buf) : option (t buf) :=
  if extensions_size_ this =? 0 then
    check (payload_offset_ this =? kFixedHeaderSize + num_csrc * 4) ;;
    b0 ← data_at this 0;
    this ← WriteAt 0 [Z.lor b0 0x10] this;
    WriteAt (extensions_offset - 4) (ByteWriter.WriteBigEndian 2 profile_id) this
  else Some this.

Lemma open_block_rep p im two exts : represents p im -> im_payload im = [] -> im_padding im = 0 ->
  (im_extensions im <> [] -> im_two_byte im = two) -> extensions_start im <= capacity p -> exts <> [] ->
  exists b w, open_block (profile_of two) (extensions_start im) (zlen (im_csrcs im)) p = Some (with_buffer b p)
  /\ zlen w = 2 /\ cow_capacity b = capacity p
  /\ knows b (front (im_set_extensions two exts im) ++ be_bytes 2 (profile_of two) ++ w
       ++ ext_items two (im_extensions im)).
Proof.
  intros Hr Hpl Hpad Htwo Hc Hne. pose proof (rep_wf _ _ Hr) as Hw. pose proof (rep_shows _ _ Hr) as Hs.
  pose proof (wf_csrcs _ Hw) as [_ Hcc]. pose proof (knows_data (buffer_ p)) as Hk. rewrite (rep_data _ _ Hr) in Hk.
  unfold open_block. rewrite (rep_extensions_size _ _ Hr), items_nil by apply Hw.
  destruct (decide (im_extensions im = [])) as [He|He].
  - rewrite bool_decide_true by done. rewrite (shows_payload_offset _ _ Hs), payload_start_plain by done.
    rewrite (Z.mul_comm _ 4), Z.eqb_refl. cbn [check mbind option_bind]. rewrite encode_plain in Hk by done.
    destruct (octet0_write (negb (im_padding im =? 0)) (bool_decide (im_extensions im <> [])) (zlen (im_csrcs im)) 0
      ltac:(lia) ltac:(lia)) as (_ & _ & W3 & _). rewrite <- first_octet_eq in W3.
    destruct (store_octet0 p p _ _ (first_octet (im_set_extensions two exts im)) eq_refl Hk) as (-> & b1 & HW1 & Hu1 & Hc1 & Hk1).
    { rewrite first_octet_eq. apply octet0_range. cbn [im_csrcs im_set_extensions]. lia. }
    cbn [mbind option_bind]. rewrite W3. replace (octet0 _ true _) with (first_octet (im_set_extensions two exts im))
      by (rewrite first_octet_eq; cbn [im_extensions im_set_extensions]; by rewrite bool_decide_true).
    rewrite HW1. cbn [mbind option_bind].
    set (F := front (im_set_extensions two exts im)). assert (Hk1' : knows b1 F) by exact Hk1. assert (HF : zlen F + 4 = extensions_start im) by (unfold F; by rewrite length_front).
    destruct (knows_after (with_buffer b1 p) F (ByteWriter.WriteBigEndian 2 (profile_of two)) Hk1')
      as (b2 & HW2 & Hu2 & Hc2 & Hk2); [|apply WriteBigEndian_bytes|].
    { unfold capacity at 1. cbn [buffer_ with_buffer]. rewrite Hc1, WriteBigEndian_spec, length_be_bytes. lia. }
    assert (Hc2' : cow_capacity b2 = capacity p) by (by rewrite Hc2).
    destruct (knows_more b2 _ 2 Hk2 Hu2) as (w & Hlw & _ & Hk3);
      [lia|rewrite Hc2', length_app, WriteBigEndian_spec, length_be_bytes; lia|].
    replace (zlen F) with (extensions_start im - 4) in HW2 by lia.
    exists b2, w. split; [exact HW2|]. split; [done|]. split; [done|]. rewrite He. cbn [ext_items map concat].
    rewrite WriteBigEndian_spec, <- app_assoc in Hk3. by rewrite app_nil_r.
  - rewrite bool_decide_false by done. exists (buffer_ p), (be_bytes 2 (words_of (ext_items two (im_extensions im)))).
    split; [by destruct p|]. split; [by rewrite length_be_bytes|]. split; [done|]. rewrite encode_block in Hk by done.
    rewrite block_eq, (Htwo He) in Hk by done.
    rewrite (front_extensions two (im_two_byte im) exts (im_extensions im)), set_extensions_same by done.
    apply (knows_prefix _ _ (fill (ext_items two (im_extensions im)))). by repeat rewrite <- app_assoc.
Qed.

(** The header of the extension. *)
Definition write_item_header (ext_id len profile_id extensions_offset : Z) (this : t buf) : option (t buf) :=
  if profile_id =? kOneByteExtensionProfileId then
    i ← dchecked_cast_u8 ext_id;
    l ← dchecked_cast_u8 (len - 1);
    WriteAt (extensions_offset + extensions_size_ this) [Z.lor (u8 (Z.shiftl i 4)) l] this
  else
    i ← dchecked_cast_u8 ext_id;
    this ← WriteAt (extensions_offset + extensions_size_ this) [i] this;
    l ← dchecked_cast_u8 len;
    WriteAt (extensions_offset + extensions_size_ this + 1) [l] this.

Definition id_fits (two : bool) (ext_id len : Z) : Prop :=
  1 <= ext_id <= (if two then 255 else 14) /\ 1 <= len <= (if two then 255 else 16).

Lemma write_item_header_known p two ext_id len K off : id_fits two ext_id len -> knows (buffer_ p) K ->
  zlen K = off + extensions_size_ p -> zlen K + header_size two <= capacity p ->
  exists b', write_item_header ext_id len (profile_of two) off p = Some (with_buffer b' p)
  /\ cow_unshared b' = true /\ cow_capacity b' = capacity p /\ knows b' (K ++ item_header two ext_id len).
Proof.
  intros [Hi Hl] Hk Hoff Hc. unfold write_item_header. rewrite <- Hoff. destruct two; cbn [profile_of item_header header_size] in *.
  - change (kTwoByteExtensionProfileId =? _) with false. cbn iota.
    rewrite !dchecked_cast_u8_id by (unfold is_u8; lia). cbn [mbind option_bind].
    destruct (knows_after p K [ext_id] Hk) as (b1 & HW1 & Hu1 & Hc1 & Hk1);
      [cbn; lia|apply bytes_one; unfold is_u8; lia|]. rewrite HW1. cbn [mbind option_bind].
    destruct (knows_after (with_buffer b1 p) _ [len] Hk1) as (b2 & HW2 & Hu2 & Hc2 & Hk2).
    { unfold capacity at 1. cbn [buffer_ with_buffer]. rewrite Hc1, length_app. cbn [List.length]. lia. }
    { apply bytes_one. unfold is_u8. lia. }
    replace (zlen (K ++ [ext_id])) with (zlen K + 1) in HW2 by (rewrite length_app; cbn [List.length]; lia).
    change (extensions_size_ (with_buffer b1 p)) with (extensions_size_ p). rewrite <- Hoff.
    exists b2. split; [exact HW2|]. split; [done|]. split; [by rewrite Hc2|]. by rewrite <- app_assoc in Hk2.
  - rewrite Z.eqb_refl. rewrite !dchecked_cast_u8_id by (unfold is_u8; lia). cbn [mbind option_bind].
    rewrite Z.shiftl_mul_pow2, u8_id, lor_shift_add by (unfold is_u8; lia).
    destruct (knows_after p K [ext_id * 2 ^ 4 + (len - 1)] Hk) as (b1 & HW1 & H1);
      [cbn [List.length]; lia|apply bytes_one; unfold is_u8; lia|]. exists b1. split; [exact HW1|].
    by replace (16 * ext_id + (len - 1)) with (ext_id * 2 ^ 4 + (len - 1)) by lia.
Qed.

Lemma append_extension_eq ext_id len two p im : extensions_size_ p = zlen (ext_items two (im_extensions im)) ->
  append_extension ext_id len (profile_of two) (extensions_start im) (zlen (im_csrcs im)) p =
  let new_extensions_size := zlen (ext_items two (im_extensions im)) + header_size two + len in
  if extensions_start im + new_extensions_size >? capacity p then Some (p, None) else
  this ← open_block (profile_of two) (extensions_start im) (zlen (im_csrcs im)) p;
  this ← write_item_header ext_id len (profile_of two) (extensions_start im) this;
  info_offset ← dchecked_cast_u16 (extensions_start im + extensions_size_ this + header_size two);
  info_length ← dchecked_cast_u8 len;
  let this := with_extensions (extension_entries_ this ++ [Ext (u8 ext_id) info_length info_offset])
                new_extensions_size this in
  '(this, padded) ← SetExtensionLengthMaybeAddZeroPadding (extensions_start im) this;
  let this := with_layout (extensions_start im + padded) (payload_size_ this) (padding_size_ this) this in
  Some (SetSize (payload_offset_ this) this, Some (info_offset, info_length)).
Proof. intros E. unfold append_extension, open_block, write_item_header. rewrite header_length_of, E. cbv zeta.
reflexivity. Qed.

Lemma entries_of_snoc two exts i v : forall start, entries_of two start (exts ++ [(i, v)])
  = entries_of two start exts ++ [Ext i (zlen v) (start + zlen (ext_items two exts) + header_size two)].
Proof.
  induction exts as [|[i' v'] exts IH]; intros start; cbn [entries_of app].
  - unfold ext_items. cbn [map concat List.length]. do 2 f_equal. lia.
  - f_equal. rewrite IH. do 2 f_equal. unfold ext_items. cbn [map concat].
    rewrite length_app, Nat2Z.inj_add, length_item. cbn [snd]. f_equal. lia.
Qed.

Lemma with_extension_wf im two ext_id v : image_wf im -> Forall (ext_wf two) (im_extensions im) ->
  id_fits two ext_id (zlen v) -> is_bytes v -> ext_id ∉ map fst (im_extensions im) ->
  extensions_start im + zlen (ext_items two (im_extensions im)) + header_size two + zlen v <= 65535 ->
  image_wf (im_set_extensions two (im_extensions im ++ [(ext_id, v)]) im).
Proof.
  intros Hw Hexts [Hi Hl] Hv Hin Hb. destruct Hw. constructor; try done; cbn [im_extensions im_set_extensions im_two_byte].
  - apply list.Forall_app. split; [done|]. by constructor.
  - rewrite map_app. apply list.NoDup_app. split; [done|]. split; [|apply list.NoDup_singleton].
    intros x Hx Hx'%list_elem_of_singleton. cbn in Hx'. by subst.
  - rewrite items_snoc, length_app, Nat2Z.inj_add, length_item. cbn [snd]. unfold extensions_start in *.
    cbn [im_csrcs im_set_extensions]. lia.
Qed.

Lemma padded_room im n c : extensions_start im + n <= c -> c mod 4 = 0 -> extensions_start im + 4 * ((n + 3) / 4) <= c.
Proof. unfold extensions_start, kFixedHeaderSize. intros. dlia. Qed.

(** The new extension has the octets that were in the buffer. *)
Lemma append_extension_rep p im two ext_id len : represents p im -> im_payload im = [] -> im_padding im = 0 ->
  (im_extensions im <> [] -> im_two_byte im = two) -> id_fits two ext_id len ->
  ext_id ∉ map fst (im_extensions im) -> capacity p <= 65535 -> capacity p mod 4 = 0 ->
  let off := extensions_start im + zlen (ext_items two (im_extensions im)) + header_size two in
  (off + len > capacity p
   /\ append_extension ext_id len (profile_of two) (extensions_start im) (zlen (im_csrcs im)) p = Some (p, None))
  \/ exists p' v, off + len <= capacity p /\ zlen v = len
     /\ append_extension ext_id len (profile_of two) (extensions_start im) (zlen (im_csrcs im)) p = Some (p', Some (off, len))
     /\ represents p' (im_set_extensions two (im_extensions im ++ [(ext_id, v)]) im)
     /\ capacity p' = capacity p /\ extensions_ p' = extensions_ p.
Proof.
  intros Hr Hpl Hpad Htwo Hfit Hin Hcap H4 off. pose proof (rep_wf _ _ Hr) as Hw. pose proof (rep_shows _ _ Hr) as Hs.
  pose proof Hfit as [Hi Hl]. set (exts' := fun v => im_extensions im ++ [(ext_id, v)] : list (Z * bytes)).
  assert (Hexts : Forall (ext_wf two) (im_extensions im)).
  { destruct (decide (im_extensions im = [])) as [->|Hne]; [constructor|]. rewrite <- (Htwo Hne). apply Hw. }
  assert (Hsize : extensions_size_ p = zlen (ext_items two (im_extensions im))).
  { rewrite (rep_extensions_size _ _ Hr). destruct (decide (im_extensions im = [])) as [->|Hne]; [done|]. by rewrite Htwo. }
  rewrite append_extension_eq by done. cbv zeta. rewrite Z.gtb_ltb.
  destruct (Z.ltb_spec (capacity p) (extensions_start im + (zlen (ext_items two (im_extensions im)) + header_size two + len)))
    as [Hlt|Hge]; [left; split; [unfold off; lia|done]|right].
  assert (Hne : forall v, exts' v <> []) by (intros v ?%app_eq_nil; by destruct_and!).
  assert (Hhs : 1 <= header_size two <= 2) by (destruct two; cbn; lia).
  assert (H0 : 16 <= extensions_start im) by (unfold extensions_start, kFixedHeaderSize; lia).
  assert (Hlen4 : len <= 255) by (destruct two; lia).
  destruct (open_block_rep p im two (exts' []) Hr Hpl Hpad Htwo) as (b1 & w & HO & Hlw & Hc1 & Hk1); [lia|done|].
  rewrite HO. cbn [mbind option_bind].
  set (K := front _ ++ _) in Hk1.
  assert (HK : zlen K = extensions_start im + zlen (ext_items two (im_extensions im))).
  { unfold K. rewrite !length_app, !Nat2Z.inj_add, length_be_bytes, length_front, Hlw. unfold extensions_start.
    cbn [im_csrcs im_set_extensions]. lia. }
  destruct (write_item_header_known (with_buffer b1 p) two ext_id len K (extensions_start im) Hfit Hk1)
    as (b2 & HH & Hu2 & Hc2 & Hk2).
  { rewrite HK. cbn [extensions_size_ with_buffer]. lia. }
  { unfold capacity at 1. cbn [buffer_ with_buffer]. rewrite Hc1. lia. }
  rewrite HH. cbn [mbind option_bind].
  change (extensions_size_ (with_buffer b2 _)) with (extensions_size_ p). rewrite Hsize. fold off.
  rewrite dchecked_cast_id by (unfold is_u16; lia). rewrite dchecked_cast_u8_id by (unfold is_u8; lia).
  cbn [mbind option_bind].
  assert (Hc2' : cow_capacity b2 = capacity p) by (by rewrite Hc2).
  destruct (knows_more b2 _ len Hk2 Hu2) as (v & Hlv & Hv & Hk3).
  { lia. } { rewrite length_app, Nat2Z.inj_add, HK, Hc2'. destruct two; cbn in *; lia. }
  rewrite u8_id by (unfold is_u8; destruct two; lia).
  set (p3 := with_extensions _ _ _).
  assert (Hitems : ext_items two (exts' v) = ext_items two (im_extensions im) ++ item_header two ext_id len ++ v).
  { unfold exts'. rewrite items_snoc. unfold ext_item. cbn [fst snd]. by rewrite Hlv. }
  assert (Hlitems : zlen (ext_items two (exts' v)) = zlen (ext_items two (im_extensions im)) + header_size two + len).
  { unfold exts'. rewrite items_snoc, length_app, Nat2Z.inj_add, length_item. cbn [snd]. lia. }
  destruct (finish_extensions p3 p im two (exts' v) w Hr Hpl Hpad) as (p4 & padded & HS & Hrep & Hc4 & Hm4); try done.
  - apply with_extension_wf; try done; [by rewrite Hlv|lia].
  - unfold exts'. rewrite entries_of_snoc. cbn [extension_entries_ with_extensions with_buffer p3].
    rewrite (shows_entries _ _ Hs), Hlv. f_equal.
    destruct (decide (im_extensions im = [])) as [->|He]; [done|]. by rewrite Htwo.
  - rewrite Hitems. rewrite (front_extensions two two (exts' v) (exts' []) im) by done.
    cbn [buffer_ p3 with_extensions with_buffer]. unfold K in Hk3. rewrite <- !app_assoc in Hk3. exact Hk3.
  - unfold words_of. rewrite Hlitems. unfold capacity. cbn [buffer_ p3 with_extensions with_buffer]. rewrite Hc2'.
    by apply padded_room.
  - unfold capacity. cbn [buffer_ p3 with_extensions with_buffer]. rewrite Hc2'. done.
  - rewrite HS. cbn [mbind option_bind]. eexists _, v. split; [unfold off; lia|]. split; [done|]. split; [done|]. split; [exact Hrep|].
    split; [|exact Hm4]. etransitivity; [exact Hc4|exact Hc2'].
Qed.

(** *** Promotion to two-byte headers *)

Lemma items_promoted exts : zlen (ext_items true exts) = zlen (ext_items false exts) + zlen exts.
Proof.
  induction exts as [|e exts IH]; [done|]. unfold ext_items in *. cbn [map concat List.length].
  rewrite !length_app, !Nat2Z.inj_add, !length_item. cbn [header_size]. lia.
Qed.

(** Moving the octets of one extension and storing its new header. *)
Lemma promote_step (p : t buf) A i v S n : laid (buffer_ p) (A ++ ext_item false (i, v)) (n + 1) S -> 0 <= n ->
  is_u8 i -> is_u8 (zlen v) -> is_bytes v ->
  load (cow_mem (buffer_ p)) (zlen A + 1) (List.length v) = Some v
  /\ exists b1 b2 b3, WriteAt (zlen A + 1 + (n + 1)) v p = Some (with_buffer b1 p)
  /\ WriteAt (zlen A + 1 + (n + 1) - 1) [zlen v] (with_buffer b1 p) = Some (with_buffer b2 p)
  /\ WriteAt (zlen A + 1 + (n + 1) - 2) [i] (with_buffer b2 p) = Some (with_buffer b3 p)
  /\ cow_capacity b3 = capacity p /\ laid b3 A n (ext_item true (i, v) ++ S).
Proof.
  intros Hlaid Hn Hi Hl Hv. unfold ext_item, item_header in *. cbn [fst snd app] in *.
  set (hdr := 16 * i + (zlen v - 1)) in *.
  split.
  { destruct (laid_mem _ _ _ _ Hlaid) as [R ->]. rewrite <- app_assoc. cbn [app].
    rewrite load_app_at by lia. change (hdr :: v ++ R) with ([hdr] ++ v ++ R). rewrite load_app_skip by (cbn; lia).
    apply load_app_here. done. }
  pose proof Hlaid as (_ & Hc & _). rewrite length_app in Hc. cbn [List.length] in Hc.
  destruct (laid_store _ _ _ _ (zlen A + 1 + (n + 1)) v Hlaid) as (b1 & J & R & HJ & Hs1 & Hu1 & Hc1 & Hput & _); [lia|lia|done|].
  set (Z := hdr :: v ++ J).
  assert (HZ : List.length Z = (Z.to_nat n + (2 + List.length v))%nat) by (unfold Z; cbn [List.length]; rewrite length_app; lia).
  set (Z1 := take (Z.to_nat n) Z). set (Z2 := drop (Z.to_nat n) Z).
  assert (HZ1 : List.length Z1 = Z.to_nat n) by (unfold Z1; rewrite length_take; lia).
  assert (HZ2 : List.length Z2 = (2 + List.length v)%nat) by (unfold Z2; rewrite length_drop; lia).
  assert (EZ : Z = Z1 ++ Z2) by (unfold Z1, Z2; by rewrite take_drop).
  destruct Z2 as [|z [|z' Z4]]; [done..|]. cbn [List.length] in HZ2.
  assert (E : (A ++ hdr :: v) ++ J ++ S ++ R = (A ++ Z1 ++ [z; z']) ++ Z4 ++ S ++ R).
  { assert (E0 : (A ++ hdr :: v) ++ J ++ S ++ R = A ++ Z ++ S ++ R)
      by (unfold Z; cbn [app]; by repeat (rewrite <- app_assoc; cbn [app])).
    rewrite E0, EZ. by repeat (rewrite <- app_assoc; cbn [app]). }
  replace (zlen A + 1 + (n + 1)) with (zlen (A ++ Z1 ++ [z; z'])) in * by (rewrite !length_app; cbn [List.length]; lia).
  rewrite E, put_app in Hput by lia. injection Hput as Hm1.
  destruct (WriteAt_known (with_buffer b1 p) (A ++ Z1 ++ [z]) [z'] (v ++ S ++ R) [zlen v]) as (b2 & HW2 & Hu2 & Hs2 & Hm2);
    [done|cbn [buffer_ with_buffer]; rewrite <- Hm1; by repeat (rewrite <- app_assoc; cbn [app])|done|by apply bytes_one|].
  destruct (WriteAt_known (with_buffer b2 p) (A ++ Z1) [z] ([zlen v] ++ v ++ S ++ R) [i]) as (b3 & HW3 & Hu3 & Hs3 & Hm3);
    [done|cbn [buffer_ with_buffer]; rewrite Hm2; by repeat (rewrite <- app_assoc; cbn [app])|done|by apply bytes_one|].
  exists b1, b2, b3. unfold WriteAt at 1. rewrite Hs1. split; [done|].
  replace (zlen (A ++ Z1 ++ [z; z']) - 1) with (zlen (A ++ Z1 ++ [z])) by (rewrite !length_app; cbn [List.length]; lia).
  replace (zlen (A ++ Z1 ++ [z; z']) - 2) with (zlen (A ++ Z1)) by (rewrite !length_app; cbn [List.length]; lia).
  split; [exact HW2|]. split; [exact HW3|]. split.
  - unfold capacity. rewrite <- Hc1. unfold cow_capacity. rewrite Hm3, <- Hm1. repeat rewrite length_app. cbn [List.length]. lia.
  - replace n with (zlen Z1) by lia. apply (laid_unshared b3 A Z1 _ R Hu3). rewrite Hm3.
    by repeat (rewrite <- app_assoc; cbn [app]).
Qed.

Lemma promote_loop_known H exts : forall p S, Forall (ext_wf false) exts ->
  laid (buffer_ p) (H ++ ext_items false exts) (zlen exts) S -> capacity p <= 65535 ->
  exists b, promote_loop (rev (entries_of false (zlen H) exts)) (zlen exts) p
    = Some (rev (entries_of true (zlen H) exts), with_buffer b p)
  /\ cow_capacity b = capacity p /\ knows b (H ++ ext_items true exts ++ S).
Proof.
  induction exts as [|[i v] exts IH] using rev_ind; intros p S Hw Hlaid Hcap.
  - exists (buffer_ p). split; [by destruct p|]. split; [done|]. cbn [ext_items map concat app List.length] in *.
    rewrite app_nil_r in Hlaid. destruct Hlaid as (_ & Hc & Hl). split; [done|]. rewrite length_app. cbn in *.
    split; [lia|]. destruct Hl as [(Hu & J & R & HJ & Hm)|(-> & R & Hd)].
    + left. split; [done|]. destruct J; [|cbn in HJ; lia]. exists [], R. split; [done|]. by rewrite Hm, <- app_assoc.
    + right. split; [done|]. exists R. by rewrite app_nil_r.
  - apply list.Forall_app in Hw as [Hw [(Hi & Hl & Hv) _]%list.Forall_cons]. cbn [fst snd] in *.
    rewrite items_snoc, length_app, app_assoc in Hlaid. cbn [List.length] in Hlaid.
    replace (Z.of_nat (List.length exts + 1)) with (zlen exts + 1) in Hlaid by lia.
    pose proof Hlaid as (_ & Hc & _). rewrite !length_app in Hc. fold (capacity p) in Hc.
    destruct (promote_step p (H ++ ext_items false exts) i v S (zlen exts) Hlaid) as
      (HL & b1 & b2 & b3 & HW1 & HW2 & HW3 & Hc3 & Hlaid3); [lia|unfold is_u8; lia..|done|].
    rewrite !entries_of_snoc, !rev_app_distr. cbn [rev app promote_loop offset length id header_size].
    assert (Hidx : zlen H + zlen (ext_items false exts) + 1 = zlen (H ++ ext_items false exts) + 1) by (rewrite length_app; lia).
    rewrite Hidx, length_app. cbn [List.length]. replace (Z.of_nat (List.length exts + 1)) with (zlen exts + 1) by lia.
    rewrite dchecked_cast_id.
    2:{ unfold ext_item in Hc. cbn in Hc. rewrite length_app in *. unfold is_u16, capacity in *. lia. }
    cbn [mbind option_bind]. rewrite Nat2Z.id, HL. cbn [mbind option_bind]. rewrite HW1. cbn [mbind option_bind].
    rewrite HW2. cbn [mbind option_bind]. rewrite HW3. cbn [mbind option_bind]. rewrite Z.add_simpl_r.
    destruct (IH (with_buffer b3 p) (ext_item true (i, v) ++ S)) as (b & HP & Hcb & Hk); [done|done| |].
    { unfold capacity. cbn [buffer_ with_buffer]. lia. }
    rewrite HP. cbn [mbind option_bind]. exists b. rewrite items_snoc. split; [|split].
    + do 4 f_equal. rewrite items_promoted, length_app. lia.
    + rewrite Hcb. unfold capacity at 1. cbn [buffer_ with_buffer]. done.
    + by rewrite <- app_assoc.
Qed.

Lemma csrc_count_rep p im : represents p im -> csrc_count p = Some (zlen (im_csrcs im)).
Proof.
  intros Hr. pose proof (wf_csrcs _ (rep_wf _ _ Hr)) as [_ Hcc]. unfold csrc_count.
  assert (E : data_at p 0 = Some (first_octet im))
    by exact (data_at_inside p [] (first_octet im) _ (eq_trans (rep_data _ _ Hr) (encode_octets im))).
  rewrite E, first_octet_eq. cbn [mbind option_bind].
  by destruct (octet0_read (negb (im_padding im =? 0)) (bool_decide (im_extensions im <> [])) (zlen (im_csrcs im))
    ltac:(lia)) as (_ & _ & _ & ->).
Qed.

Lemma profile_rep p im : represents p im -> im_extensions im <> [] ->
  read_u16 (cow_mem (buffer_ p)) (extensions_start im - 4) = Some (profile_of (im_two_byte im)).
Proof.
  intros Hr He. destruct (data_prefix (buffer_ p)) as [R ->]. rewrite (rep_data _ _ Hr), encode_split, <- app_assoc, block_eq by done.
  unfold extensions_start. rewrite <- length_before. rewrite <- !app_assoc.
  replace (zlen (header_octets im ++ csrc_octets im) + 4 - 4) with (zlen (header_octets im ++ csrc_octets im)) by lia.
  rewrite app_assoc, read_be_app_at0. apply read_be_app_here; [done|by destruct (im_two_byte im)].
Qed.

Lemma length_entries two start exts : List.length (entries_of two start exts) = List.length exts.
Proof. rewrite <- (length_map id), entries_of_ids. apply length_map. Qed.

Lemma promoted_wf im : image_wf im -> im_two_byte im = false ->
  extensions_start im + zlen (ext_items true (im_extensions im)) <= 65535 ->
  image_wf (im_set_extensions true (im_extensions im) im).
Proof.
  intros Hw Htwo Hb. pose proof (wf_extensions _ Hw) as Hext. rewrite Htwo in Hext.
  destruct Hw. constructor; try done. cbn [im_extensions im_set_extensions im_two_byte].
  eapply list.Forall_impl; [exact Hext|].
  intros e (H1 & H2 & H3). split; [lia|]. split; [lia|done].
Qed.

Lemma Promote_rep p im : represents p im -> im_extensions im <> [] -> im_two_byte im = false ->
  im_payload im = [] -> im_padding im = 0 -> capacity p <= 65535 ->
  extensions_start im + 4 * words_of (ext_items true (im_extensions im)) <= capacity p ->
  exists p', PromoteToTwoByteHeaderExtension p = Some p'
  /\ represents p' (im_set_extensions true (im_extensions im) im)
  /\ capacity p' = capacity p /\ extensions_ p' = extensions_ p.
Proof.
  intros Hr He Htwo Hpl Hpad Hcap Hroom. pose proof (rep_shows _ _ Hr) as Hs. pose proof (rep_wf _ _ Hr) as Hw.
  pose proof (words_bounds (ext_items true (im_extensions im))) as [Hwb _].
  unfold PromoteToTwoByteHeaderExtension. rewrite (csrc_count_rep _ _ Hr). cbn [mbind option_bind].
  replace (kFixedHeaderSize + _ * 4 + 4) with (extensions_start im) by (unfold extensions_start; lia).
  rewrite (shows_entries _ _ Hs), length_entries, (shows_payload_size _ _ Hs), Hpl, Htwo.
  rewrite (proj2 (Z.ltb_lt _ _)) by (destruct (im_extensions im); [done|cbn [List.length]; lia]).
  cbn [check mbind option_bind List.length]. change (Z.of_nat 0 =? 0) with true. cbn [check mbind option_bind].
  rewrite (profile_rep _ _ Hr He), Htwo. cbn [mbind option_bind profile_of]. rewrite Z.eqb_refl. cbn [check mbind option_bind].
  set (H := front im ++ be_bytes 2 (profile_of false) ++ be_bytes 2 (words_of (ext_items false (im_extensions im)))).
  assert (HH : zlen H = extensions_start im).
  { unfold H. rewrite !length_app, !Nat2Z.inj_add, !length_be_bytes, length_front. unfold extensions_start. lia. }
  assert (Hfront : front im = front (im_set_extensions true (im_extensions im) im))
    by (by rewrite <- (front_extensions (im_two_byte im) true (im_extensions im)), set_extensions_same).
  assert (Hk : knows (buffer_ p) (H ++ ext_items false (im_extensions im))).
  { apply (knows_prefix _ _ (fill (ext_items false (im_extensions im)))). pose proof (knows_data (buffer_ p)) as Hk.
    rewrite (rep_data _ _ Hr), encode_block, Htwo, block_eq in Hk by done. unfold H. by rewrite <- !app_assoc. }
  rewrite items_promoted in *. rewrite <- HH.
  destruct (promote_loop_known H (im_extensions im) p []) as (b & HP & Hcb & Hkb); [|  |done|].
  { rewrite <- Htwo. apply Hw. }
  { apply laid_gap; [done|lia|]. rewrite length_app. fold (capacity p). lia. }
  rewrite HP. cbn [mbind option_bind]. rewrite app_nil_r in Hkb. unfold H in Hkb. rewrite <- !app_assoc in Hkb.
  destruct (knows_over (with_buffer b p) (front im) (be_bytes 2 (profile_of false)) _
    (ByteWriter.WriteBigEndian 2 kTwoByteExtensionProfileId) Hkb) as (b2 & HW & Hu2 & Hc2 & Hk2);
    [by rewrite WriteBigEndian_spec, !length_be_bytes|apply WriteBigEndian_bytes|].
  replace (zlen H - 4) with (zlen (front im)) by (unfold H; rewrite !length_app, !length_be_bytes; lia).
  rewrite HW. cbn [mbind option_bind]. rewrite rev_involutive, length_rev, length_entries.
  set (p3 := with_extensions _ _ _).
  destruct (finish_extensions p3 p im true (im_extensions im) (be_bytes 2 (words_of (ext_items false (im_extensions im)))))
    as (p4 & padded & HS & Hrep & Hc4 & Hm4); try done.
  - apply promoted_wf; [done..|]. rewrite items_promoted. lia.
  - cbn [extension_entries_ p3 with_extensions]. by rewrite HH.
  - cbn [extensions_size_ p3 with_extensions with_buffer]. by rewrite (rep_extensions_size _ _ Hr), Htwo, items_promoted.
  - unfold capacity at 1. cbn [buffer_ p3 with_extensions with_buffer]. rewrite Hc2. unfold capacity at 1.
    cbn [buffer_ with_buffer]. by rewrite Hcb.
  - unfold capacity at 1. cbn [buffer_ p3 with_extensions with_buffer]. rewrite Hc2. unfold capacity at 1.
    cbn [buffer_ with_buffer]. by rewrite Hcb.
  - rewrite HH, HS. cbn [mbind option_bind]. eexists. split; [done|]. split; [exact Hrep|]. split; [|exact Hm4].
    etransitivity; [exact Hc4|]. unfold capacity at 1. cbn [buffer_ p3 with_extensions with_buffer]. rewrite Hc2.
    unfold capacity at 1. cbn [buffer_ with_buffer]. exact Hcb.
Qed.

(** *** Allocating an extension *)

Definition two_byte_header_required (ext_id len : Z) : bool :=
  (ext_id >? kOneByteHeaderExtensionMaxId) || (len >? kOneByteHeaderExtensionMaxValueSize) || (len =? 0).

(** The form of the block once the extension is in it. *)
Definition new_form (im : image) (ext_id len : Z) : bool :=
  two_byte_header_required ext_id len || (bool_decide (im_extensions im <> []) && im_two_byte im).

(** Where a new extension goes. *)
Definition new_offset (im : image) (two : bool) : Z :=
  extensions_start im + zlen (ext_items two (im_extensions im)) + header_size two.

Definition image_find (im : image) (ext_id : Z) : option ExtensionInfo :=
  List.find (fun e => id e =? ext_id) (entries_of (im_two_byte im) (extensions_start im) (im_extensions im)).

(** The view that the allocation returns with a buffer of [cap] octets. *)
Definition alloc_view (im : image) (cap ext_id len : Z) : option (Z * Z) :=
  match image_find im ext_id with
  | Some e => if length e =? len then Some (offset e, len) else None
  | None =>
      if (0 <? zlen (im_payload im)) || (0 <? im_padding im) then None else
      let off := new_offset im (new_form im ext_id len) in
      if off + len <=? cap then Some (off, len) else None
  end.

(** The image after it, with the octets [v] found in the buffer. *)
Definition alloc_image (im : image) (ext_id : Z) (v : bytes) : image :=
  im_set_extensions (new_form im ext_id (zlen v)) (im_extensions im ++ [(ext_id, v)]) im.

Definition allocated (p : t buf) (im : image) (ext_id len : Z) (p' : t buf) : Prop :=
  capacity p' = capacity p /\ extensions_ p' = extensions_ p
  /\ if bool_decide (image_find im ext_id = None) && bool_decide (alloc_view im (capacity p) ext_id len <> None)
     then exists v, zlen v = len /\ represents p' (alloc_image im ext_id v)
     else p' = p.

Lemma image_find_none im ext_id : image_find im ext_id = None -> ext_id ∉ map fst (im_extensions im).
Proof.
  unfold image_find. rewrite <- (entries_of_ids (im_two_byte im) (extensions_start im)).
  intros Hf (e & -> & He)%list_elem_of_fmap. pose proof (find_none _ _ Hf e) as Hn.
  cbn beta in Hn. rewrite Z.eqb_refl in Hn. by apply list_elem_of_In, Hn in He.
Qed.

Lemma form_fits im ext_id len : kMinId <= ext_id <= kMaxId -> 1 <= len <= kMaxValueSize ->
  id_fits (new_form im ext_id len) ext_id len.
Proof.
  intros Hi Hl. pose proof kMinId_pos. pose proof kMaxId_u8. pose proof kMaxValueSize_u8.
  pose proof one_byte_id. pose proof one_byte_size. unfold new_form, id_fits, two_byte_header_required.
  destruct (Z.gtb_spec ext_id kOneByteHeaderExtensionMaxId), (Z.gtb_spec len kOneByteHeaderExtensionMaxValueSize),
    (Z.eqb_spec len 0), (bool_decide _ && _); cbn [orb]; lia.
Qed.

Lemma empty_iff (l : bytes) : (0 <? zlen l) = false <-> l = [].
Proof. rewrite Z.ltb_ge. destruct l; cbn [List.length]; split; try done; lia. Qed.

Lemma append_allocated p im two ext_id len : represents p im -> im_payload im = [] -> im_padding im = 0 ->
  (im_extensions im <> [] -> im_two_byte im = two) -> new_form im ext_id len = two -> id_fits two ext_id len ->
  ext_id ∉ map fst (im_extensions im) -> capacity p <= 65535 -> capacity p mod 4 = 0 ->
  let view := if new_offset im two + len <=? capacity p then Some (new_offset im two, len) else None in
  exists p', append_extension ext_id len (profile_of two) (extensions_start im) (zlen (im_csrcs im)) p = Some (p', view)
  /\ capacity p' = capacity p /\ extensions_ p' = extensions_ p
  /\ if bool_decide (view <> None) then exists v, zlen v = len /\ represents p' (alloc_image im ext_id v) else p' = p.
Proof.
  intros Hr Hpl Hpad Htwo Hform Hfit Hin Hcap H4 view.
  destruct (append_extension_rep p im two ext_id len Hr Hpl Hpad Htwo Hfit Hin Hcap H4)
    as [[Hlt ->]|(p' & v & Hroom & Hv & Ha & Hrep & Hc & Hm)].
  - unfold view. rewrite (proj2 (Z.leb_gt _ _)) by (unfold new_offset; lia).
    rewrite bool_decide_false by tauto. by exists p.
  - exists p'. rewrite Ha. unfold view, new_offset. leb_true. rewrite bool_decide_true by done.
    split; [done|]. split; [done|]. split; [done|]. exists v. unfold alloc_image. by rewrite Hv, Hform.
Qed.

Lemma promote_allocated p im ext_id len : represents p im -> im_extensions im <> [] -> im_two_byte im = false ->
  im_payload im = [] -> im_padding im = 0 -> two_byte_header_required ext_id len = true -> id_fits true ext_id len ->
  ext_id ∉ map fst (im_extensions im) -> capacity p <= 65535 -> capacity p mod 4 = 0 ->
  new_offset im true + len <= capacity p ->
  exists p', (this ← PromoteToTwoByteHeaderExtension p;
    append_extension ext_id len kTwoByteExtensionProfileId (extensions_start im) (zlen (im_csrcs im)) this)
    = Some (p', Some (new_offset im true, len))
  /\ capacity p' = capacity p /\ extensions_ p' = extensions_ p
  /\ exists v, zlen v = len /\ represents p' (alloc_image im ext_id v).
Proof.
  intros Hr He Htwo Hpl Hpad Hreq Hfit Hin Hcap H4 Hroom. unfold new_offset in *. pose proof Hfit as [_ Hl].
  destruct (Promote_rep p im Hr He Htwo Hpl Hpad Hcap) as (p1 & -> & Hr1 & Hc1 & Hm1).
  { apply padded_room; [cbn [header_size] in *; lia|done]. }
  cbn [mbind option_bind]. set (im1 := im_set_extensions true (im_extensions im) im) in *.
  destruct (append_extension_rep p1 im1 true ext_id len Hr1 Hpl Hpad) as [[Hlt _]|(p' & v & _ & Hv & Ha & Hrep & Hc & Hm)];
    [done|done|done|by rewrite Hc1|by rewrite Hc1|cbn [im1 im_extensions im_set_extensions] in *; unfold extensions_start in *;
    cbn [im_csrcs im_set_extensions im1] in *; lia|].
  exists p'. split; [exact Ha|]. split; [by rewrite Hc|]. split; [by rewrite Hm|]. exists v. split; [done|].
  unfold alloc_image, new_form. rewrite Hv, Hreq. exact Hrep.
Qed.

Lemma AllocateRawExtension_rep p im ext_id len : represents p im -> kMinId <= ext_id <= kMaxId ->
  1 <= len <= kMaxValueSize ->
  (two_byte_header_required ext_id len = true -> RtpHeaderExtensionMap.extmap_allow_mixed_ (extensions_ p) = true) ->
  capacity p <= 65535 -> capacity p mod 4 = 0 ->
  exists p', AllocateRawExtension ext_id len p = Some (p', alloc_view im (capacity p) ext_id len)
  /\ allocated p im ext_id len p'.
Proof.
  intros Hr Hi Hl Hmixed Hcap H4. pose proof (rep_shows _ _ Hr) as Hs. pose proof (rep_wf _ _ Hr) as Hw.
  unfold AllocateRawExtension, FindExtensionInfo, allocated, alloc_view. do 4 leb_true. cbn [check mbind option_bind].
  rewrite (shows_entries _ _ Hs), (shows_payload_size _ _ Hs), (shows_padding _ _ Hs),
    (Z.gtb_ltb (zlen (im_payload im))), (Z.gtb_ltb (im_padding im)).
  fold (image_find im ext_id). destruct (image_find im ext_id) as [e|] eqn:Hfind.
  { rewrite bool_decide_false by done. by destruct (length e =? len); exists p. }
  rewrite bool_decide_true by done. cbn [andb].
  destruct (0 <? zlen (im_payload im)) eqn:Hpl; [rewrite bool_decide_false by tauto; by exists p|].
  destruct (0 <? im_padding im) eqn:Hpad; [rewrite bool_decide_false by tauto; by exists p|]. cbn [orb].
  apply empty_iff in Hpl. assert (Hpad0 : im_padding im = 0).
  { pose proof (wf_padding _ Hw) as Hp. unfold is_u8 in Hp. apply Z.ltb_ge in Hpad. lia. }
  rewrite (csrc_count_rep _ _ Hr). cbn [mbind option_bind].
  replace (kFixedHeaderSize + _ * 4 + 4) with (extensions_start im) by (unfold extensions_start; lia).
  fold (two_byte_header_required ext_id len). pose proof (form_fits im ext_id len Hi Hl) as Hfit.
  pose proof (image_find_none _ _ Hfind) as Hin.
  assert (Hm : negb (two_byte_header_required ext_id len)
    || RtpHeaderExtensionMap.extmap_allow_mixed_ (extensions_ p) = true)
    by (destruct (two_byte_header_required ext_id len); [by apply Hmixed|done]).
  rewrite Hm. cbn [check mbind option_bind]. rewrite (rep_extensions_size _ _ Hr).
  set (view := if new_offset _ _ + len <=? _ then _ else None).
  destruct (decide (im_extensions im = [])) as [He|He].
  - assert (Hform : new_form im ext_id len = two_byte_header_required ext_id len)
      by (unfold new_form; rewrite bool_decide_false by tauto; apply orb_false_r).
    rewrite He. cbn [ext_items map concat List.length]. change (Z.of_nat 0 >? 0) with false. cbn iota.
    fold (profile_of (two_byte_header_required ext_id len)).
    destruct (append_allocated p im (two_byte_header_required ext_id len) ext_id len) as (p' & Ha & Hrest); try done.
    { by rewrite Hform in Hfit. }
    exists p'. unfold view. rewrite Hform. by rewrite Ha; destruct_and!.
  - rewrite Z.gtb_ltb, (proj2 (Z.ltb_lt _ _)).
    2:{ pose proof (items_nil _ _ (wf_extensions _ Hw)) as H0. rewrite bool_decide_false in H0 by done. lia. }
    rewrite (profile_rep _ _ Hr He). cbn [mbind option_bind].
    replace (profile_of (im_two_byte im) =? kOneByteExtensionProfileId) with (negb (im_two_byte im)) by (by destruct (im_two_byte im)).
    assert (Hform : new_form im ext_id len = two_byte_header_required ext_id len || im_two_byte im)
      by (unfold new_form; by rewrite bool_decide_true).
    destruct (negb (im_two_byte im) && two_byte_header_required ext_id len) eqn:Hprom.
    + apply andb_true_iff in Hprom as [Htwo%negb_true_iff Hreq]. rewrite Hreq in Hform. cbn [orb] in Hform.
      rewrite Htwo in *. rewrite length_entries, Z.gtb_ltb.
      assert (Hsum : extensions_start im + (zlen (ext_items false (im_extensions im)) + zlen (im_extensions im)
        + kTwoByteExtensionHeaderLength + len) = new_offset im true + len)
        by (unfold new_offset, kTwoByteExtensionHeaderLength; rewrite items_promoted; cbn [header_size]; lia).
      rewrite Hsum. unfold view. rewrite Hform. rewrite Hform in Hfit.
      destruct (Z.ltb_spec (capacity p) (new_offset im true + len)).
      * rewrite (proj2 (Z.leb_gt _ _)) by lia. rewrite bool_decide_false by tauto. by exists p.
      * leb_true. rewrite bool_decide_true by done.
        destruct (promote_allocated p im ext_id len) as (p' & Ha & Hrest); try done. exists p'. rewrite Ha. by destruct_and!.
    + assert (Hsame : two_byte_header_required ext_id len || im_two_byte im = im_two_byte im)
        by (by destruct (two_byte_header_required ext_id len), (im_two_byte im)).
      rewrite Hsame in Hform. rewrite Hform in Hfit.
      destruct (append_allocated p im (im_two_byte im) ext_id len) as (p' & Ha & Hrest); try done.
      exists p'. unfold view. rewrite Hform, Ha. by destruct_and!.
Qed.
End operations.
