(* ===== verification/RtpPacketOps.v ===== *)
(** * RTP packets end to end: the extension values, a sequence of operations on a packet, and
      the parser on its result *)

From S2P Require Import Prelude.
From S2P Require Import ByteIo.
From S2P Require Import Buffers.
From S2P Require Import RtcpCore.
From S2P Require Import RtpExtensionMap.
From S2P Require Import RtpPacket.
From S2P Require Import RtpPacketBuild.
Import RtpPacket.

Section values.
Context {buf : Type} {cow : CowBuffer buf} {cow_laws : CowBufferLaws buf}.
Context {limits : RtpExtension} {limits_laws : RtpExtensionLaws}.
Context {numerics : RtcNumerics} {numerics_laws : RtcNumericsLaws}.

(** ** The value of an extension in the packet *)

Lemma items_cons two i v b : ext_items two ((i, v) :: b) = item_header two i (zlen v) ++ v ++ ext_items two b.
Proof. unfold ext_items. cbn [map concat]. unfold ext_item. by rewrite <- app_assoc. Qed.

Lemma items_app two a b : ext_items two (a ++ b) = ext_items two a ++ ext_items two b.
Proof. unfold ext_items. by rewrite map_app, concat_app. Qed.

Lemma entries_of_value two i v w a b : zlen v = zlen w -> forall start,
  entries_of two start (a ++ (i, v) :: b) = entries_of two start (a ++ (i, w) :: b).
Proof.
  intros Hl. induction a as [|[j x] a IH]; intros start; cbn [app entries_of].
  - by rewrite Hl.
  - by rewrite IH.
Qed.

(** The octets before the value, up to its place in the block. *)
Definition before_value (im : image) (a : list (Z * bytes)) (i : Z) (v : bytes) : bytes :=
  front im ++ be_bytes 2 (profile_of (im_two_byte im))
  ++ be_bytes 2 (words_of (ext_items (im_two_byte im) (im_extensions im)))
  ++ ext_items (im_two_byte im) a ++ item_header (im_two_byte im) i (zlen v).

Definition value_offset (im : image) (a : list (Z * bytes)) : Z :=
  extensions_start im + zlen (ext_items (im_two_byte im) a) + header_size (im_two_byte im).

Definition after_value (im : image) (b : list (Z * bytes)) : bytes :=
  ext_items (im_two_byte im) b ++ fill (ext_items (im_two_byte im) (im_extensions im))
  ++ im_payload im ++ padding_octets (im_padding im).

Lemma length_before_value im a i v : zlen (before_value im a i v) = value_offset im a.
Proof.
  unfold before_value, value_offset, extensions_start, item_header. rewrite !length_app, !Nat2Z.inj_add, !length_be_bytes, length_front.
  destruct (im_two_byte im); cbn [List.length header_size]; lia.
Qed.

Lemma encode_value im a i v b : im_extensions im = a ++ (i, v) :: b ->
  encode im = before_value im a i v ++ v ++ after_value im b.
Proof.
  intros He. rewrite encode_split, block_eq by (rewrite He; by intros [_ ?]%app_eq_nil).
  unfold before_value, after_value, front. rewrite He at 2. rewrite items_app, items_cons.
  by repeat rewrite <- app_assoc.
Qed.

(** Reading the value through its view. *)
Lemma view_value (p : t buf) im a i v b : cow_data (buffer_ p) = encode im -> im_extensions im = a ++ (i, v) :: b ->
  view_octets p (value_offset im a) (zlen v) = Some v.
Proof.
  intros Hd He. unfold view_octets. destruct (data_prefix (buffer_ p)) as [R ->].
  rewrite Hd, (encode_value _ _ _ _ _ He), <- !app_assoc, <- (length_before_value im a i v).
  rewrite <- (Z.add_0_r (zlen (before_value _ _ _ _))), load_app_at, Nat2Z.id by lia. by apply load_app_here.
Qed.

Definition im_set_value (a : list (Z * bytes)) (i : Z) (v : bytes) (b : list (Z * bytes)) (im : image) : image :=
  im_set_extensions (im_two_byte im) (a ++ (i, v) :: b) im.

Lemma value_items two i v w a b : zlen v = zlen w ->
  zlen (ext_items two (a ++ (i, v) :: b)) = zlen (ext_items two (a ++ (i, w) :: b)).
Proof.
  intros Hl. rewrite !items_app, !length_app, !Nat2Z.inj_add. unfold ext_items. cbn [map concat].
  rewrite !length_app, !Nat2Z.inj_add, !length_item. cbn [snd]. lia.
Qed.

Lemma words_same items items' : zlen items = zlen items' -> words_of items = words_of items' /\ fill items = fill items'.
Proof. unfold fill, words_of. by intros ->. Qed.

(** Storing another value of the same length. *)
Lemma store_value p im a i v b w : represents p im -> im_extensions im = a ++ (i, v) :: b -> zlen w = zlen v ->
  is_bytes w -> exists p', WriteAt (value_offset im a) w p = Some p' /\ represents p' (im_set_value a i w b im)
  /\ capacity p' = capacity p /\ extensions_ p' = extensions_ p.
Proof.
  intros Hr He Hl Hb. pose proof (rep_wf _ _ Hr) as Hw. pose proof (rep_shows _ _ Hr) as Hs.
  pose proof (rep_data _ _ Hr) as Hd. rewrite (encode_value _ _ _ _ _ He) in Hd.
  destruct (WriteAt_inside p _ _ _ w Hd) as (b' & HW & Hdata & Hc & _); [lia|done|].
  rewrite length_before_value in HW. eexists. split; [exact HW|]. split; [|done].
  assert (Hitems : zlen (ext_items (im_two_byte im) (a ++ (i, w) :: b)) = zlen (ext_items (im_two_byte im) (im_extensions im)))
    by (rewrite He; by apply value_items).
  assert (Hblock : zlen (ext_block (im_two_byte im) (a ++ (i, w) :: b)) = zlen (ext_block (im_two_byte im) (im_extensions im))).
  { destruct (words_same _ _ Hitems) as [Hwords _].
    rewrite !length_ext_block by (rewrite ?He; by intros [_ ?]%app_eq_nil). lia. }
  constructor; [..|].
  - pose proof (wf_extensions _ Hw) as Hx. rewrite He in Hx.
    apply list.Forall_app in Hx as [Hx1 [(H1 & H2 & _) Hx2]%list.Forall_cons].
    destruct Hw. constructor; try done; cbn [im_extensions im_set_value im_set_extensions im_two_byte].
    + apply list.Forall_app. split; [done|]. constructor; [|done]. split; [done|]. cbn [snd]. split; [by rewrite Hl|done].
    + rewrite He in wf_ids. by rewrite map_app in *.
    + unfold extensions_start in *. cbn [im_csrcs im_set_value im_set_extensions]. lia.
  - destruct Hs. constructor; try done; cbn [im_extensions im_set_value im_set_extensions im_two_byte payload_offset_ with_buffer extension_entries_].
    + unfold payload_start in *. cbn [im_csrcs im_set_value im_set_extensions im_two_byte im_extensions]. lia.
    + rewrite shows_entries, He. by apply entries_of_value.
  - rewrite (encode_value _ a i w b) by done. cbn [buffer_ with_buffer]. rewrite Hdata.
    destruct (words_same _ _ Hitems) as [Hwords Hfill].
    unfold before_value, after_value. cbn [im_extensions im_set_value im_set_extensions im_two_byte im_payload im_padding].
    rewrite Hwords, Hfill, Hl. unfold im_set_value.
    rewrite (front_extensions (im_two_byte im) (im_two_byte im) (a ++ (i, w) :: b) (im_extensions im)), set_extensions_same
      by (rewrite ?He; by intros [_ ?]%app_eq_nil). done.
  - cbn [extensions_size_ with_buffer im_extensions im_set_value im_set_extensions im_two_byte].
    rewrite (rep_extensions_size _ _ Hr). done.
Qed.

(** ** SetExtension on the image *)

(** The id AllocateExtension asks for, None when it gives up at once. *)
Definition extension_slot (m : RtpHeaderExtensionMap.t) (type len : Z) : option (option Z) :=
  let mixed := RtpHeaderExtensionMap.extmap_allow_mixed_ m in
  if (len =? 0) || (len >? kMaxValueSize) || (negb mixed && (len >? kOneByteHeaderExtensionMaxValueSize))
  then Some None else
  ext_id ← RtpHeaderExtensionMap.GetId m type;
  if ext_id =? RtpHeaderExtensionMap.kInvalidId then Some None else
  if negb mixed && (ext_id >? kOneByteHeaderExtensionMaxId) then Some None else Some (Some ext_id).

Lemma AllocateExtension_eq type len (p : t buf) : AllocateExtension type len p =
  (slot ← extension_slot (extensions_ p) type len;
   match slot with None => Some (p, None) | Some ext_id => AllocateRawExtension ext_id len p end).
Proof.
  unfold AllocateExtension, extension_slot. destruct (_ || _); [done|].
  destruct (RtpHeaderExtensionMap.GetId _ _) as [i|]; [|done]. cbn [mbind option_bind].
  destruct (i =? _); [done|]. by destruct (negb _ && _).
Qed.

(** A slot satisfies the assertions of AllocateRawExtension. *)
Lemma extension_slot_spec m type len : wf m -> known_type type -> 0 <= len ->
  exists slot, extension_slot m type len = Some slot
  /\ forall ext_id, slot = Some ext_id -> kMinId <= ext_id <= kMaxId /\ 1 <= len <= kMaxValueSize
     /\ (two_byte_header_required ext_id len = true -> RtpHeaderExtensionMap.extmap_allow_mixed_ m = true).
Proof.
  intros Hm Ht Hl. destruct (lookup_type m type Hm Ht) as (i & Hi). unfold extension_slot.
  rewrite GetId_spec, Hi by done.
  destruct (Z.eqb_spec len 0) as [|Hl0]; [by eexists|]. rewrite (Z.gtb_ltb len kMaxValueSize).
  destruct (Z.ltb_spec kMaxValueSize len); [by eexists|]. cbn [orb].
  destruct (negb _ && _) eqn:E1; [by eexists|]. cbn [mbind option_bind]. unfold RtpHeaderExtensionMap.kInvalidId.
  destruct (Z.eqb_spec i 0) as [|Hi0]; [by eexists|].
  destruct (negb _ && (i >? _)) eqn:E2; [by eexists|]. eexists. split; [done|]. intros ? [= <-].
  destruct (wf_valid _ Hm _ _ Hi) as [|Hid]; [done|]. split; [done|]. split; [lia|].
  intros Hreq. destruct (RtpHeaderExtensionMap.extmap_allow_mixed_ m); [done|]. cbn [negb andb] in *.
  unfold two_byte_header_required in Hreq. rewrite E1, E2 in Hreq. cbn [orb] in Hreq. lia.
Qed.

(** The extensions after setting one, in the order of the packet. *)
Fixpoint set_value (i : Z) (v : bytes) (exts : list (Z * bytes)) : list (Z * bytes) :=
  match exts with
  | [] => [(i, v)]
  | e :: rest => if e.1 =? i then (i, v) :: rest else e :: set_value i v rest
  end.

Definition im_set_extension (i : Z) (v : bytes) (im : image) : image :=
  im_set_extensions
    (if bool_decide (image_find im i = None) then new_form im i (zlen v) else im_two_byte im)
    (set_value i v (im_extensions im)) im.

Lemma set_value_fresh i v exts : i ∉ map fst exts -> set_value i v exts = exts ++ [(i, v)].
Proof.
  induction exts as [|[j w] exts IH]; intros Hin; cbn in *; [done|].
  apply not_elem_of_cons in Hin as [Hne Hin]. destruct (Z.eqb_spec j i); [congruence|]. by rewrite IH.
Qed.

(** Finding an entry and its value. *)
Lemma find_split two i exts : forall start e,
  List.find (fun e => id e =? i) (entries_of two start exts) = Some e -> exists a v b,
  exts = a ++ (i, v) :: b /\ length e = zlen v /\ offset e = start + zlen (ext_items two a) + header_size two
  /\ forall w, set_value i w exts = a ++ (i, w) :: b.
Proof.
  induction exts as [|[j x] exts IH]; intros start e; [done|]. cbn [entries_of List.find id].
  destruct (Z.eqb_spec j i) as [->|Hne].
  - intros [= <-]. exists [], x, exts. cbn [ext_items map concat List.length length offset set_value fst].
    rewrite Z.eqb_refl. split; [done|]. split; [done|]. split; [lia|done].
  - intros (a & v & b & -> & Hl & Ho & Hset)%IH. exists ((j, x) :: a), v, b. split; [done|]. split; [done|]. split.
    + rewrite Ho. unfold ext_items. cbn [map concat]. rewrite length_app, Nat2Z.inj_add, length_item. cbn [snd]. lia.
    + intros w. cbn [set_value fst]. rewrite (proj2 (Z.eqb_neq j i)) by done. by rewrite Hset.
Qed.

(** What SetExtension does to the image, and its result. *)
Definition set_extension (m : RtpHeaderExtensionMap.t) (cap type : Z) (v : bytes) (im : image) : image * bool :=
  match extension_slot m type (zlen v) with
  | Some (Some i) =>
      match alloc_view im cap i (zlen v) with
      | Some _ => (im_set_extension i v im, true)
      | None => (im, false)
      end
  | _ => (im, false)
  end.

(** The buffers that the allocation of extensions is modelled for: a capacity in whole
    words, as the default one, and within 16 bits. *)
Definition buffer_fits (p : t buf) : Prop := capacity p <= 65535 /\ capacity p mod 4 = 0.

Definition outcome (p : t buf) (p' : t buf) (im' : image) : Prop :=
  represents p' im' /\ capacity p' = capacity p /\ extensions_ p' = extensions_ p.

(** Storing the value where the allocation pointed. *)
Lemma store_allocated p im i v p1 off len : represents p im ->
  alloc_view im (capacity p) i (zlen v) = Some (off, len) -> allocated p im i (zlen v) p1 -> is_bytes v ->
  len = zlen v /\ is_Some (view_octets p1 off len)
  /\ exists p', WriteAt off v p1 = Some p' /\ outcome p p' (im_set_extension i v im).
Proof.
  intros Hr Hview (Hc & Hm & Hcase) Hb. rewrite Hview in Hcase. unfold alloc_view in Hview. unfold outcome, im_set_extension.
  destruct (image_find im i) as [e|] eqn:Hfind.
  - rewrite bool_decide_false by done. rewrite bool_decide_false in Hcase by done. cbn [andb] in Hcase. subst p1.
    destruct (Z.eqb_spec (length e) (zlen v)) as [Hl|]; [|done]. injection Hview as <- <-. split; [done|].
    destruct (find_split _ _ _ _ _ Hfind) as (a & w & b & He & Hlw & Ho & Hset).
    assert (Hoff : offset e = value_offset im a) by exact Ho.
    rewrite Hoff, Hset. split; [rewrite <- Hl, Hlw; eexists; by apply (view_value p im a i w b (rep_data _ _ Hr))|].
    destruct (store_value p im a i w b v Hr He) as (p' & HW & Hr' & Hrest); [congruence|done|]. by exists p'.
  - rewrite bool_decide_true in * by done. rewrite bool_decide_true in Hcase by done. cbn [andb] in Hcase.
    destruct (_ || _); [done|]. destruct (_ <=? _); [|done]. injection Hview as <- <-. split; [done|].
    destruct Hcase as (w & Hlw & Hr1).
    assert (Hoff : new_offset im (new_form im i (zlen v)) = value_offset (alloc_image im i w) (im_extensions im))
      by (unfold alloc_image; by rewrite Hlw).
    assert (He : im_extensions (alloc_image im i w) = im_extensions im ++ [(i, w)]) by done.
    rewrite Hoff. split; [rewrite <- Hlw; eexists; by apply (view_value p1 _ _ i w [] (rep_data _ _ Hr1))|].
    destruct (store_value p1 _ _ i w [] v Hr1 He) as (p' & HW & Hr' & Hc' & Hm'); [done|done|].
    exists p'. split; [exact HW|]. split; [|split; congruence].
    rewrite set_value_fresh by (by apply image_find_none). unfold im_set_value, alloc_image in Hr'.
    rewrite Hlw in Hr'. exact Hr'.
Qed.

Lemma SetExtension_rep p im type v Write : represents p im -> wf (extensions_ p) -> known_type type -> buffer_fits p ->
  is_bytes v -> (forall d, zlen d = zlen v -> Write d = Some (v, true)) ->
  let r := set_extension (extensions_ p) (capacity p) type v im in
  exists p', SetExtension type (zlen v) Write p = Some (p', r.2) /\ outcome p p' r.1.
Proof.
  intros Hr Hm Ht [Hcap H4] Hb Hwrite r. unfold r, set_extension, SetExtension. rewrite AllocateExtension_eq.
  destruct (extension_slot_spec (extensions_ p) type (zlen v) Hm Ht) as (slot & -> & Hslot); [lia|].
  destruct slot as [i|]; cbn [mbind option_bind]; [|by exists p].
  destruct (Hslot i eq_refl) as (Hi & Hl & Hmix).
  destruct (AllocateRawExtension_rep p im i (zlen v) Hr Hi Hl Hmix Hcap H4) as (p1 & -> & Halloc).
  cbn [mbind option_bind]. destruct (alloc_view im (capacity p) i (zlen v)) as [[off len]|] eqn:Hview.
  - destruct (store_allocated p im i v p1 off len Hr Hview Halloc Hb) as (-> & [data Hdata] & p' & HW & Hout).
    rewrite (proj2 (Z.eqb_neq _ _)) by lia. rewrite Hdata. cbn [mbind option_bind].
    rewrite Hwrite by (unfold view_octets in Hdata; apply load_length in Hdata; lia). cbn [mbind option_bind]. rewrite HW. by exists p'.
  - destruct Halloc as (_ & _ & Hcase). rewrite Hview, (bool_decide_false (None <> None)), andb_false_r in Hcase by tauto.
    subst p1. by exists p.
Qed.

(** ReserveExtension sets zeroes. *)
Lemma ReserveExtension_rep p im type n : represents p im -> wf (extensions_ p) -> known_type type -> buffer_fits p ->
  0 <= n -> let r := set_extension (extensions_ p) (capacity p) type (replicate (Z.to_nat n) 0) im in
  exists p', ReserveExtension type n p = Some (p', r.2) /\ outcome p p' r.1.
Proof.
  intros Hr Hm Ht [Hcap H4] Hn r. unfold r, set_extension, ReserveExtension.
  rewrite length_replicate, Z2Nat.id, AllocateExtension_eq by done.
  destruct (extension_slot_spec (extensions_ p) type n Hm Ht) as (slot & -> & Hslot); [lia|].
  destruct slot as [i|]; cbn [mbind option_bind]; [|by exists p].
  destruct (Hslot i eq_refl) as (Hi & Hl & Hmix).
  destruct (AllocateRawExtension_rep p im i n Hr Hi Hl Hmix Hcap H4) as (p1 & -> & Halloc).
  cbn [mbind option_bind]. destruct (alloc_view im (capacity p) i n) as [[off len]|] eqn:Hview.
  - destruct (store_allocated p im i (replicate (Z.to_nat n) 0) p1 off len Hr) as (-> & _ & p' & HW & Hout);
      [rewrite length_replicate, Z2Nat.id by done; done..|by apply Forall_replicate|].
    rewrite length_replicate, Z2Nat.id, (proj2 (Z.eqb_neq _ _)) by lia. rewrite HW. by exists p'.
  - destruct Halloc as (_ & _ & Hcase). rewrite Hview, (bool_decide_false (None <> None)), andb_false_r in Hcase by tauto.
    subst p1. by exists p.
Qed.

(** ** Sequences of operations *)

Inductive operation :=
  | SetMarkerTo (marker_bit : bool)
  | SetPayloadTypeTo (payload_type : Z)
  | SetSequenceNumberTo (seq_no : Z)
  | SetTimestampTo (timestamp : Z)
  | SetSsrcTo (ssrc : Z)
  | SetCsrcsTo (csrcs : list Z)
  | SetExtensionTo (type : Z) (value : bytes)
  | Reserve (type n : Z)
  | SetPayloadTo (octets : bytes)
  | SetPaddingTo (padding_bytes : Z).

(** The payload is stored through the pointer that SetPayloadSize returns. *)
Definition run_op (op : operation) (p : t buf) : option (t buf * bool) :=
  match op with
  | SetMarkerTo m => p ← SetMarker m p; Some (p, true)
  | SetPayloadTypeTo pt => p ← SetPayloadType pt p; Some (p, true)
  | SetSequenceNumberTo n => p ← SetSequenceNumber n p; Some (p, true)
  | SetTimestampTo n => p ← SetTimestamp n p; Some (p, true)
  | SetSsrcTo n => p ← SetSsrc n p; Some (p, true)
  | SetCsrcsTo csrcs => p ← SetCsrcs csrcs p; Some (p, true)
  | SetExtensionTo type v => SetExtension type (zlen v) (fun _ => Some (v, true)) p
  | Reserve type n => ReserveExtension type n p
  | SetPayloadTo bs =>
      '(p, buffer) ← SetPayloadSize (zlen bs) p;
      match buffer with
      | Some off => p ← WriteAt off bs p; Some (p, true)
      | None => Some (p, false)
      end
  | SetPaddingTo n => SetPadding n p
  end.

(** Its specification with the map [m] and a buffer of [cap] octets. *)
Definition apply_op (m : RtpHeaderExtensionMap.t) (cap : Z) (op : operation) (im : image) : image * bool :=
  match op with
  | SetMarkerTo b => (im_set_marker b im, true)
  | SetPayloadTypeTo pt => (im_set_payload_type pt im, true)
  | SetSequenceNumberTo n => (im_set_sequence_number n im, true)
  | SetTimestampTo n => (im_set_timestamp n im, true)
  | SetSsrcTo n => (im_set_ssrc n im, true)
  | SetCsrcsTo csrcs => (im_set_csrcs csrcs im, true)
  | SetExtensionTo type v => set_extension m cap type v im
  | Reserve type n => set_extension m cap type (replicate (Z.to_nat n) 0) im
  | SetPayloadTo bs =>
      if payload_start im + zlen bs <=? cap then (im_set_payload bs im, true) else (im, false)
  | SetPaddingTo n =>
      if payload_start im + zlen (im_payload im) + n <=? cap then (im_set_padding n im, true) else (im, false)
  end.

(** The arguments fit their types, and the order is the one that the assertions ask for. *)
Definition op_allowed (cap : Z) (op : operation) (im : image) : Prop :=
  match op with
  | SetMarkerTo _ => True
  | SetPayloadTypeTo pt => 0 <= pt < 128
  | SetSequenceNumberTo n => is_u16 n
  | SetTimestampTo n | SetSsrcTo n => is_u32 n
  | SetCsrcsTo csrcs => im_extensions im = [] /\ im_payload im = [] /\ im_padding im = 0
      /\ Forall is_u32 csrcs /\ zlen csrcs <= 15 /\ kFixedHeaderSize + 4 * zlen csrcs <= cap
  | SetExtensionTo type v => known_type type /\ is_bytes v
  | Reserve type n => known_type type /\ 0 <= n
  | SetPayloadTo bs => im_padding im = 0 /\ is_bytes bs /\ zlen bs < 2 ^ 63
  | SetPaddingTo n => is_u8 n
  end.

Lemma run_op_payload p im bs : represents p im -> im_padding im = 0 -> is_bytes bs -> zlen bs < 2 ^ 63 ->
  let r := apply_op (extensions_ p) (capacity p) (SetPayloadTo bs) im in
  exists p', run_op (SetPayloadTo bs) p = Some (p', r.2) /\ outcome p p' r.1.
Proof.
  intros Hr Hpad Hb Hn. cbn [run_op apply_op].
  destruct (SetPayloadSize_rep p im (zlen bs) Hr Hpad) as [[Hlt ->]|(p1 & Y & HS & Hr1 & HY & _ & Hc & Hm)]; [lia|..].
  - rewrite (proj2 (Z.leb_gt _ _)) by lia. by exists p.
  - rewrite HS. cbn [mbind option_bind].
    destruct (write_payload p1 _ bs Hr1) as (p2 & HW & Hr2 & Hc2 & Hm2); [done|done|].
    change (payload_start (im_set_payload Y im)) with (payload_start im) in HW. rewrite HW.
    assert (Hroom : payload_start im + zlen bs <= capacity p).
    { pose proof (cow_size_bounds (buffer_ p1)) as Hsz. rewrite <- length_data, (rep_data _ _ Hr1), length_image in Hsz by apply Hr1.
      change (payload_start (im_set_payload Y im)) with (payload_start im) in Hsz. cbn [im_payload im_padding im_set_payload] in Hsz.
      unfold capacity in *. lia. }
    leb_true. exists p2. split; [done|]. split; [exact Hr2|]. split; congruence.
Qed.

Lemma run_op_padding p im n : represents p im -> is_u8 n -> capacity p < 2 ^ 63 ->
  let r := apply_op (extensions_ p) (capacity p) (SetPaddingTo n) im in
  exists p', run_op (SetPaddingTo n) p = Some (p', r.2) /\ outcome p p' r.1.
Proof.
  intros Hr Hn Hcap. cbn [run_op apply_op].
  destruct (SetPadding_rep p im n Hr Hn Hcap) as [[Hlt ->]|(p1 & HS & Hr1 & Hc & Hm)].
  - rewrite (proj2 (Z.leb_gt _ _)) by lia. by exists p.
  - rewrite HS. assert (Hroom : payload_start im + zlen (im_payload im) + n <= capacity p).
    { pose proof (cow_size_bounds (buffer_ p1)) as Hsz. rewrite <- length_data, (rep_data _ _ Hr1), length_image in Hsz by apply Hr1.
      change (payload_start (im_set_padding n im)) with (payload_start im) in Hsz. cbn [im_payload im_padding im_set_padding] in Hsz.
      unfold capacity in *. lia. }
    leb_true. by exists p1.
Qed.

Ltac setter H := cbn [run_op apply_op]; destruct H as (p' & -> & Hrest); [done..|]; cbn [mbind option_bind]; by exists p'.

Lemma run_op_rep p im op : represents p im -> wf (extensions_ p) -> buffer_fits p -> op_allowed (capacity p) op im ->
  let r := apply_op (extensions_ p) (capacity p) op im in
  exists p', run_op op p = Some (p', r.2) /\ outcome p p' r.1.
Proof.
  intros Hr Hm Hfits. destruct op as [m|pt|n|n|n|cs|ty v|ty n|bs|n]; cbn [op_allowed]; intros Hok.
  - setter (SetMarker_rep p im m Hr).
  - setter (SetPayloadType_rep p im pt Hr Hok).
  - setter (SetSequenceNumber_rep p im n Hr Hok).
  - setter (SetTimestamp_rep p im n Hr Hok).
  - setter (SetSsrc_rep p im n Hr Hok).
  - destruct Hok as (H1 & H2 & H3 & H4 & H5 & H6). setter (SetCsrcs_rep p im cs Hr H1 H2 H3 H4 H5 H6).
  - destruct Hok. by apply SetExtension_rep.
  - destruct Hok. by apply ReserveExtension_rep.
  - destruct Hok as (? & ? & ?). by apply run_op_payload.
  - apply run_op_padding; [done|done|]. destruct Hfits as [Hc _]. change (2 ^ 63) with 9223372036854775808. lia.
Qed.

Fixpoint run_ops (ops : list operation) (p : t buf) : option (t buf * list bool) :=
  match ops with
  | [] => Some (p, [])
  | op :: ops => '(p, ok) ← run_op op p; '(p, oks) ← run_ops ops p; Some (p, ok :: oks)
  end.

Fixpoint apply_ops (m : RtpHeaderExtensionMap.t) (cap : Z) (ops : list operation) (im : image) : image * list bool :=
  match ops with
  | [] => (im, [])
  | op :: ops =>
      let '(im, ok) := apply_op m cap op im in
      let '(im, oks) := apply_ops m cap ops im in (im, ok :: oks)
  end.

Fixpoint ops_allowed (m : RtpHeaderExtensionMap.t) (cap : Z) (ops : list operation) (im : image) : Prop :=
  match ops with
  | [] => True
  | op :: ops => op_allowed cap op im /\ ops_allowed m cap ops (apply_op m cap op im).1
  end.

Lemma run_ops_rep ops : forall p im, represents p im -> wf (extensions_ p) -> buffer_fits p ->
  ops_allowed (extensions_ p) (capacity p) ops im ->
  let r := apply_ops (extensions_ p) (capacity p) ops im in
  exists p', run_ops ops p = Some (p', r.2) /\ outcome p p' r.1.
Proof.
  induction ops as [|op ops IH]; intros p im Hr Hm Hfits Hok; cbn [run_ops apply_ops ops_allowed] in *; [by exists p|].
  destruct Hok as [Hop Hops]. destruct (run_op_rep p im op Hr Hm Hfits Hop) as (p1 & -> & Hr1 & Hc1 & Hm1).
  destruct (apply_op (extensions_ p) (capacity p) op im) as [im1 ok]. cbn [mbind option_bind fst snd] in *.
  destruct (IH p1 im1 Hr1) as (p2 & HR & Hr2 & Hc2 & Hm2).
  { by rewrite Hm1. } { unfold buffer_fits in *. by rewrite Hc1. } { by rewrite Hm1, Hc1. }
  rewrite Hm1, Hc1 in *. rewrite HR. destruct (apply_ops (extensions_ p) (capacity p) ops im1) as [im2 oks].
  exists p2. split; [done|]. split; [exact Hr2|]. split; congruence.
Qed.

(** ** What the getters return *)

Record reads (p : t buf) (im : image) : Prop := {
  reads_marker : marker_ p = im_marker im;
  reads_payload_type : payload_type_ p = im_payload_type im;
  reads_sequence_number : sequence_number_ p = im_sequence_number im;
  reads_timestamp : timestamp_ p = im_timestamp im;
  reads_ssrc : ssrc_ p = im_ssrc im;
  reads_csrcs : Csrcs p = Some (im_csrcs im);
  reads_payload : payload p = im_payload im;
  reads_padding : padding_size_ p = im_padding im;
  reads_size : size p = zlen (encode im);
  reads_absent i : i ∉ map fst (im_extensions im) -> FindExtensionInfo p i = None;
  reads_extension i v : (i, v) ∈ im_extensions im -> exists e,
    FindExtensionInfo p i = Some e /\ length e = zlen v /\ view_octets p (offset e) (length e) = Some v
}.

Lemma read_csrcs_at (p : t buf) csrcs : forall X R, cow_mem (buffer_ p) = X ++ concat (map (be_bytes 4) csrcs) ++ R ->
  Forall is_u32 csrcs -> read_csrcs p (List.length csrcs) (zlen X) = Some csrcs.
Proof.
  induction csrcs as [|c cs IH]; intros X R Hm Hw; cbn [read_csrcs List.length]; [done|].
  apply list.Forall_cons in Hw as [Hc Hw]. cbn [map concat] in Hm. rewrite <- app_assoc in Hm.
  rewrite Hm, read_be_app_at0, read_be_app_here by done. cbn [mbind option_bind].
  rewrite app_assoc in Hm. specialize (IH _ _ Hm Hw). rewrite length_app, length_be_bytes, Nat2Z.inj_add in IH.
  change (Z.of_nat 4) with 4 in IH. by rewrite IH.
Qed.

Lemma Csrcs_data (p : t buf) im : image_wf im -> cow_data (buffer_ p) = encode im -> Csrcs p = Some (im_csrcs im).
Proof.
  intros Hw Hd. pose proof (wf_csrcs _ Hw) as [Hcs Hcc]. unfold Csrcs, csrc_count.
  assert (E : data_at p 0 = Some (first_octet im))
    by exact (data_at_inside p [] (first_octet im) _ (eq_trans Hd (encode_octets im))).
  rewrite E, first_octet_eq. cbn [mbind option_bind].
  destruct (octet0_read (negb (im_padding im =? 0)) (bool_decide (im_extensions im <> [])) (zlen (im_csrcs im)) ltac:(lia))
    as (_ & _ & _ & ->).
  pose proof (cow_size_bounds (buffer_ p)) as Hsz. rewrite <- length_data, Hd, encode_split, length_app in Hsz.
  pose proof (length_before im) as Hb. unfold capacity. leb_true. cbn [check mbind option_bind]. rewrite Nat2Z.id.
  destruct (data_prefix (buffer_ p)) as [R HR]. rewrite Hd in HR. unfold encode in HR. rewrite <- !app_assoc in HR.
  replace kFixedHeaderSize with (zlen (header_octets im)) by apply length_header.
  eapply read_csrcs_at; [exact HR|done].
Qed.

Lemma payload_data (p : t buf) im : shows p im -> cow_data (buffer_ p) = encode im -> payload p = im_payload im.
Proof.
  intros Hs Hd. unfold payload. rewrite (shows_payload_size _ _ Hs), (shows_payload_offset _ _ Hs), <- length_headers.
  destruct (data_prefix (buffer_ p)) as [R ->]. rewrite Hd, encode_headers, <- !app_assoc, !Nat2Z.id, drop_app_length.
  by rewrite take_app_length.
Qed.

Lemma find_entry two i v exts : forall start, NoDup (map fst exts) -> (i, v) ∈ exts -> exists a b, exts = a ++ (i, v) :: b
  /\ List.find (fun e => id e =? i) (entries_of two start exts)
     = Some (Ext i (zlen v) (start + zlen (ext_items two a) + header_size two)).
Proof.
  intros start Hnd Hin. destruct (List.find _ _) as [[j l o]|] eqn:E.
  - destruct (find_split two i exts start _ E) as (a & w & b & -> & Hl & Ho & _). cbn [length offset] in *.
    apply find_some in E as [_ Hj]. cbn [id] in Hj. apply Z.eqb_eq in Hj as ->.
    assert (w = v) as ->; [|exists a, b; by rewrite Hl, Ho].
    rewrite map_app in Hnd. apply list.NoDup_app in Hnd as (_ & Ha & [Hb _]%list.NoDup_cons).
    apply elem_of_app in Hin as [Hin|[[=]|Hin]%elem_of_cons]; [|done|].
    + destruct (Ha i); [by apply (list_elem_of_fmap_2 fst) in Hin|by left].
    + destruct Hb. by apply (list_elem_of_fmap_2 fst) in Hin.
  - exfalso. assert (Hid : i ∈ map id (entries_of two start exts)).
    { rewrite entries_of_ids. by apply (list_elem_of_fmap_2 fst) in Hin. }
    apply list_elem_of_fmap in Hid as (e & -> & He%list_elem_of_In). pose proof (find_none _ _ E _ He) as Hne.
    cbn beta in Hne. by rewrite Z.eqb_refl in Hne.
Qed.

Lemma data_reads (p : t buf) im : image_wf im -> shows p im -> cow_data (buffer_ p) = encode im -> reads p im.
Proof.
  intros Hw Hs Hd. pose proof Hs as []. constructor; try done.
  - by apply Csrcs_data.
  - by apply payload_data.
  - unfold size. rewrite length_image by done. congruence.
  - intros i Hin. unfold FindExtensionInfo. rewrite shows_entries. destruct (List.find _ _) as [e|] eqn:E; [|done].
    apply find_some in E as [He%list_elem_of_In Hid%Z.eqb_eq]. destruct Hin.
    rewrite <- (entries_of_ids (im_two_byte im) (extensions_start im)), <- Hid. by apply list_elem_of_fmap_2.
  - intros i v Hin. unfold FindExtensionInfo. rewrite shows_entries.
    destruct (find_entry (im_two_byte im) i v (im_extensions im) (extensions_start im) (wf_ids _ Hw) Hin) as (a & b & He & ->).
    eexists. split; [done|]. split; [done|]. cbn [length offset]. by apply (view_value p im a i v b).
Qed.

(** ** The packet as a whole *)

(** C13. On a packet object that represents an abstract packet, with a well-formed registry and
    a buffer whose capacity is a multiple of 4 and at most 65535 (for others see the finding
    allocation_overruns_buffer), any sequence of allowed setters, extension writes and
    reservations, payload and padding changes is applied; allowed means: arguments that fit
    their types, extension types that exist, SetCsrcs with at most 15 sources that there is room
    for and before any extension, payload or padding, and the payload before the padding. Each
    of them reports success exactly when there is a registered id and room, the object's
    members, layout and buffer are afterwards those of the abstract packet with the same changes
    made, and every getter, including the views of the extensions, returns that packet's values;
    a refused operation changes nothing. *)
Theorem packet_operations ops im p : represents p im -> wf (extensions_ p) -> buffer_fits p ->
  ops_allowed (extensions_ p) (capacity p) ops im ->
  exists p', run_ops ops p = Some (p', (apply_ops (extensions_ p) (capacity p) ops im).2)
  /\ represents p' (apply_ops (extensions_ p) (capacity p) ops im).1
  /\ reads p' (apply_ops (extensions_ p) (capacity p) ops im).1.
Proof.
  intros Hr Hm Hfits Hok. destruct (run_ops_rep ops p im Hr Hm Hfits Hok) as (p' & Hrun & Hr' & _).
  exists p'. split; [done|]. split; [done|]. by apply data_reads; apply Hr'.
Qed.

Lemma Parse_data (q : t buf) im : image_wf im -> exists q',
  Parse (encode im) (zlen (encode im)) q = Some (q', true) /\ reads q' im /\ extensions_ q' = extensions_ q.
Proof.
  intros Hw. destruct (ParseBuffer_encode im q Hw) as (q1 & HP & Hs & Hb & Hm).
  unfold Parse. rewrite HP. cbn [mbind option_bind negb]. rewrite Nat2Z.id, firstn_all.
  set (q2 := with_buffer _ q1). assert (Hd : cow_data (buffer_ q2) = encode im).
  { apply cow_SetData_spec. pose proof (wf_payload _ Hw) as Hpl. pose proof (wf_padding _ Hw) as Hpad.
    pose proof (wf_csrcs _ Hw) as [_ Hcc]. pose proof (wf_payload_type _ Hw) as Hpt.
    unfold encode, is_bytes. rewrite !list.Forall_app. splits.
    - unfold header_octets. rewrite first_octet_eq. constructor; [apply octet0_range; lia|].
      constructor; [by apply octet1_range|]. rewrite !list.Forall_app. splits; apply be_bytes_is_bytes.
    - apply csrc_bytes.
    - unfold ext_block. pose proof (items_bytes _ _ (wf_extensions _ Hw)) as Hi.
      destruct (im_extensions im); [constructor|]. rewrite !list.Forall_app.
      splits; try apply be_bytes_is_bytes; [exact Hi|by apply Forall_replicate].
    - exact Hpl.
    - unfold padding_octets. destruct (_ =? 0); [constructor|]. apply list.Forall_app.
      split; [by apply Forall_replicate|by apply bytes_one]. }
  assert (Hr : reads q2 im) by (apply data_reads; [done| |done]; by destruct Hs).
  rewrite (reads_size _ _ Hr), Z.eqb_refl. by exists q2.
Qed.

(** C11. A packet is built from nothing, in a buffer whose capacity is a multiple of 4 from 12
    to 65535 (for others see the finding allocation_overruns_buffer), with a well-formed
    registry, by any sequence of allowed operations: arguments that fit their types, extension
    types that exist, SetCsrcs with at most 15 sources that the buffer has room for and before
    any extension, payload or padding, and the payload before the padding. Handed to the parser,
    in the octets and size that the builder reports, it is accepted, and every getter of the
    parsed packet returns what was set: marker, payload type, sequence number, timestamp, SSRC,
    CSRCs, the octets of every extension under its id and no other id, the payload and the
    padding. *)
Theorem rtp_build_parse extensions cap ops (q : t buf) : wf extensions ->
  kFixedHeaderSize <= cap <= 65535 -> cap mod 4 = 0 -> ops_allowed extensions cap ops empty_image ->
  exists p0 p q', new extensions cap = Some p0
  /\ run_ops ops p0 = Some (p, (apply_ops extensions cap ops empty_image).2)
  /\ reads p (apply_ops extensions cap ops empty_image).1
  /\ Parse (cow_data (buffer_ p)) (size p) q = Some (q', true)
  /\ reads q' (apply_ops extensions cap ops empty_image).1.
Proof.
  intros Hm Hcap H4 Hok. destruct (new_rep extensions cap) as (p0 & Hnew & Hr0 & Hc0 & Hm0); [lia|].
  destruct (run_ops_rep ops p0 empty_image Hr0) as (p & Hrun & Hr & _);
    [by rewrite Hm0|split; rewrite Hc0; [lia|done]|by rewrite Hm0, Hc0|].
  rewrite Hm0, Hc0 in *. assert (Hreads := data_reads _ _ (rep_wf _ _ Hr) (rep_shows _ _ Hr) (rep_data _ _ Hr)). 
  destruct (Parse_data q _ (rep_wf _ _ Hr)) as (q' & HP & Hreads' & _).
  exists p0, p, q'. rewrite (rep_data _ _ Hr), (reads_size _ _ Hreads). done.
Qed.

(** The view of an extension of a laid-out packet that owns its octets. *)
Lemma view_inside (p : t buf) n i e : laid_out p n -> zlen (cow_data (buffer_ p)) = n ->
  is_bytes (cow_data (buffer_ p)) -> FindExtensionInfo p i = Some e ->
  exists v, view_octets p (offset e) (length e) = Some v /\ is_bytes v.
Proof.
  intros [H1 H2 H3 H4 [H5 _]] Hl Hb He. destruct (data_prefix (buffer_ p)) as [R HR].
  apply find_some in He as [He%list_elem_of_In _]. rewrite list.Forall_forall in H5.
  destruct (H5 e He) as (_ & Hlen & Hoff & Hin). unfold is_u8, is_u16, size in *.
  exists (take (Z.to_nat (length e)) (drop (Z.to_nat (offset e)) (cow_data (buffer_ p)))). split.
  - unfold view_octets. rewrite HR, load_app_l by lia. apply load_Some; lia.
  - by apply Forall_take, Forall_drop.
Qed.

Lemma Parse_safe buffer n (p : t buf) : is_bytes buffer -> 0 <= n <= zlen buffer ->
  kFixedHeaderSize <= capacity p ->
  exists q ok, Parse buffer n p = Some (q, ok) /\ extensions_ q = extensions_ p
  /\ if ok then laid_out q n /\ cow_data (buffer_ q) = take (Z.to_nat n) buffer else represents q empty_image.
Proof.
  intros Hb Hn Hcap. destruct (ParseBuffer_safe buffer n p Hb Hn) as (q1 & ok & HP & Hlaid & Hbuf & Hm).
  unfold Parse. rewrite HP. cbn [mbind option_bind]. destruct ok; cbn [negb].
  - specialize (Hlaid eq_refl). set (q2 := with_buffer _ q1). assert (Hl : laid_out q2 n) by (by destruct Hlaid).
    rewrite (lo_size _ _ Hl), Z.eqb_refl. exists q2, true. split; [done|]. split; [done|]. split; [done|].
    apply cow_SetData_spec. by apply Forall_take.
  - destruct (Clear_packet_rep q1) as (q & -> & Hr & _ & Hmq); [unfold capacity in *; by rewrite Hbuf|].
    exists q, false. split; [done|]. split; [congruence|done].
Qed.

(** C12. Any octets whatever can be given to the parser of a packet object with room for a fixed
    header (12 octets): it never reads outside them, it terminates, and either it refuses them
    and leaves the empty packet, or the packet it fills accounts for every octet, owns them, and
    has its payload and the views of all its extensions inside its buffer, each id once. *)
Theorem rtp_parse_safe buffer n (p : t buf) : is_bytes buffer -> 0 <= n <= zlen buffer ->
  kFixedHeaderSize <= capacity p ->
  exists q ok, Parse buffer n p = Some (q, ok) /\
  if ok then laid_out q n /\ cow_data (buffer_ q) = take (Z.to_nat n) buffer
    /\ zlen (payload q) = payload_size_ q
    /\ forall i e, FindExtensionInfo q i = Some e -> is_Some (view_octets q (offset e) (length e))
  else represents q empty_image.
Proof.
  intros Hb Hn Hcap. destruct (Parse_safe buffer n p Hb Hn Hcap) as (q & ok & HP & _ & Hq). exists q, ok. split; [done|].
  destruct ok; [|done]. destruct Hq as [Hl Hd]. split; [done|]. split; [done|].
  assert (Hsize : zlen (cow_data (buffer_ q)) = n) by (rewrite Hd, length_take; lia). split.
  - pose proof Hl as [H1 H2 H3 H4 _]. destruct (data_prefix (buffer_ q)) as [R HR]. unfold is_u8, size, kFixedHeaderSize in *.
    unfold payload. rewrite HR, length_take, length_drop, length_app. lia.
  - intros i e He. destruct (view_inside q n i e Hl Hsize) as (v & -> & _); [|done|done]. rewrite Hd. by apply Forall_take.
Qed.

(** ** RemoveExtension *)

Definition keep (i : Z) (exts : list (Z * bytes)) : list (Z * bytes) :=
  List.filter (fun e => negb (e.1 =? i)) exts.

(** Two-byte headers when one of the extensions needs them. *)
Definition form (exts : list (Z * bytes)) : bool :=
  existsb (fun e => two_byte_header_required e.1 (zlen e.2)) exts.

(** The new packet: built from scratch, so it has no CSRCs. *)
Definition removed (im : image) (i : Z) : image :=
  Image (im_marker im) (im_payload_type im) (im_sequence_number im) (im_timestamp im) (im_ssrc im) []
    (form (keep i (im_extensions im))) (keep i (im_extensions im)) (im_payload im) (im_padding im).

(** The assertions of AllocateRawExtension for an extension. *)
Definition legal (m : RtpHeaderExtensionMap.t) (e : Z * bytes) : Prop :=
  kMinId <= e.1 <= kMaxId /\ 1 <= zlen e.2 <= kMaxValueSize /\ is_bytes e.2
  /\ (two_byte_header_required e.1 (zlen e.2) = true -> RtpHeaderExtensionMap.extmap_allow_mixed_ m = true).

Lemma form_snoc exts e : form (exts ++ [e]) = form exts || two_byte_header_required e.1 (zlen e.2).
Proof. unfold form. rewrite existsb_app. cbn [existsb]. by rewrite orb_false_r. Qed.

Lemma form_app_mono exts exts' : form exts = true -> form (exts ++ exts') = true.
Proof. unfold form. rewrite existsb_app. by intros ->. Qed.

Lemma items_mono two two' exts exts' : (two = true -> two' = true) ->
  zlen (ext_items two exts) <= zlen (ext_items two' (exts ++ exts')).
Proof.
  intros Ht. rewrite items_app, length_app, Nat2Z.inj_add.
  destruct two; [rewrite (Ht eq_refl); lia|]. destruct two'; [rewrite items_promoted; lia|lia].
Qed.

Lemma image_find_absent im i : i ∉ map fst (im_extensions im) -> image_find im i = None.
Proof.
  intros Hin. unfold image_find. destruct (List.find _ _) as [e|] eqn:E; [|done].
  apply find_some in E as [He%list_elem_of_In Hid%Z.eqb_eq]. destruct Hin.
  rewrite <- (entries_of_ids (im_two_byte im) (extensions_start im)), <- Hid. by apply list_elem_of_fmap_2.
Qed.

(** One extension copied into the packet being built. *)
Lemma copy_one (np : t buf) im acc j v : represents np (im_set_extensions (form acc) acc im) ->
  im_payload im = [] -> im_padding im = 0 -> buffer_fits np -> legal (extensions_ np) (j, v) -> j ∉ map fst acc ->
  extensions_start im + zlen (ext_items (form (acc ++ [(j, v)])) (acc ++ [(j, v)])) <= capacity np ->
  exists np1 np2 off, AllocateRawExtension j (zlen v) np = Some (np1, Some (off, zlen v))
  /\ WriteAt off v np1 = Some np2
  /\ outcome np np2 (im_set_extensions (form (acc ++ [(j, v)])) (acc ++ [(j, v)]) im).
Proof.
  intros Hr Hpl Hpad [Hcap H4] (Hj & Hl & Hb & Hmix) Hin Hroom. cbn [fst snd] in *. set (ima := im_set_extensions _ _ im) in Hr.
  destruct (AllocateRawExtension_rep np ima j (zlen v) Hr Hj Hl Hmix Hcap H4) as (np1 & -> & Halloc).
  assert (Hfind : image_find ima j = None) by (by apply image_find_absent).
  assert (Hform : new_form ima j (zlen v) = form (acc ++ [(j, v)])).
  { unfold new_form. rewrite form_snoc, orb_comm. cbn [im_extensions im_two_byte im_set_extensions ima fst snd]. f_equal.
    destruct acc; [done|]. by rewrite bool_decide_true. }
  rewrite items_snoc, length_app, Nat2Z.inj_add, length_item in Hroom. cbn [snd] in Hroom.
  assert (Hview : alloc_view ima (capacity np) j (zlen v) = Some (new_offset ima (form (acc ++ [(j, v)])), zlen v)).
  { unfold alloc_view. rewrite Hfind, Hform. cbn [im_payload im_padding im_set_extensions ima]. rewrite Hpl, Hpad. cbn [orb List.length].
    change (0 <? Z.of_nat 0) with false. change (0 <? 0) with false. cbn [orb]. unfold new_offset.
    change (extensions_start ima) with (extensions_start im). cbn [im_extensions im_set_extensions ima].
    rewrite (proj2 (Z.leb_le _ _)) by lia. done. }
  destruct (store_allocated np ima j v np1 _ _ Hr Hview Halloc Hb) as (_ & _ & np2 & HW & Hout).
  rewrite Hview. exists np1, np2, (new_offset ima (form (acc ++ [(j, v)]))). split; [done|]. split; [exact HW|].
  unfold im_set_extension in Hout. rewrite Hfind, bool_decide_true, set_value_fresh, Hform in Hout by done. exact Hout.
Qed.

Lemma copy_extensions_rep (p : t buf) im i base exts : forall done acc (np : t buf) found,
  cow_data (buffer_ p) = encode im -> im_extensions im = done ++ exts ->
  represents np (im_set_extensions (form acc) acc base) -> im_payload base = [] -> im_padding base = 0 -> buffer_fits np ->
  Forall (legal (extensions_ np)) exts -> NoDup (map fst acc ++ map fst exts) ->
  extensions_start base + zlen (ext_items (form (acc ++ keep i exts)) (acc ++ keep i exts)) <= capacity np ->
  exists np', copy_extensions p i
      (entries_of (im_two_byte im) (extensions_start im + zlen (ext_items (im_two_byte im) done)) exts) found np
    = Some (Some (np', found || bool_decide (i ∈ map fst exts)))
  /\ outcome np np' (im_set_extensions (form (acc ++ keep i exts)) (acc ++ keep i exts) base).
Proof.
  induction exts as [|[j v] exts IH]; intros done acc np found Hd He Hr Hpl Hpad Hfits Hleg Hnd Hroom.
  - exists np. cbn [keep List.filter map]. rewrite app_nil_r, bool_decide_false by apply not_elem_of_nil.
    by rewrite orb_false_r.
  - apply list.Forall_cons in Hleg as [Hj Hleg]. cbn [entries_of copy_extensions id length offset map fst] in *.
    assert (He' : im_extensions im = (done ++ [(j, v)]) ++ exts) by (by rewrite He, <- app_assoc).
    assert (Hstart : extensions_start im + zlen (ext_items (im_two_byte im) done) + header_size (im_two_byte im) + zlen v
      = extensions_start im + zlen (ext_items (im_two_byte im) (done ++ [(j, v)])))
      by (rewrite items_snoc, length_app, Nat2Z.inj_add, length_item; cbn [snd]; lia).
    rewrite Hstart. cbn [keep List.filter fst] in Hroom |- *. destruct (Z.eqb_spec j i) as [->|Hne]; cbn [negb] in Hroom |- *.
    + destruct (IH (done ++ [(i, v)]) acc np true) as (np' & -> & Hout); try done.
      { apply list.NoDup_app in Hnd as (H1 & H2 & [_ H3]%list.NoDup_cons). apply list.NoDup_app. split; [done|].
        split; [|done]. intros x Hx Hx'. apply (H2 x Hx). by right. }
      exists np'. rewrite (bool_decide_true (i ∈ i :: map fst exts)) by left. by rewrite orb_true_r.
    + assert (Happ : acc ++ (j, v) :: List.filter (fun e => negb (e.1 =? i)) exts = (acc ++ [(j, v)]) ++ keep i exts)
        by (by rewrite <- app_assoc).
      rewrite Happ in *.
      destruct (copy_one np base acc j v Hr Hpl Hpad Hfits Hj) as (np1 & np2 & off & -> & HW & Hr2 & Hc2 & Hm2).
      { apply list.NoDup_app in Hnd as (_ & H2 & _). intros Hx. apply (H2 j Hx). by left. }
      { pose proof (items_mono _ _ (acc ++ [(j, v)]) (keep i exts) (form_app_mono (acc ++ [(j, v)]) (keep i exts))). lia. }
      cbn [mbind option_bind]. rewrite Z.eqb_refl. cbn [negb].
      pose proof (view_value p im done j v exts Hd He) as Hv. unfold view_octets, value_offset in Hv. rewrite Hv.
      cbn [mbind option_bind]. rewrite HW. cbn [mbind option_bind].
      destruct (IH (done ++ [(j, v)]) (acc ++ [(j, v)]) np2 found) as (np' & -> & Hr' & Hc' & Hm'); try done.
      { unfold buffer_fits in *. by rewrite Hc2. } { by rewrite Hm2. } { rewrite map_app, <- app_assoc. exact Hnd. }
      { by rewrite Hc2. }
      exists np'. split; [|split; [exact Hr'|split; congruence]]. do 4 f_equal.
      apply bool_decide_ext. rewrite elem_of_cons. split; [by right|]. by intros [?|?].
Qed.


Lemma IdentifyExtensions_rep p im m : represents p im -> represents (IdentifyExtensions m p) im.
Proof. intros [Hw [] Hd He]. by constructor. Qed.

(** Clearing the payload, then making room for another. *)
Lemma AllocatePayload_room p im n : represents p im -> im_padding im = 0 -> 0 <= n ->
  payload_start im + n <= capacity p -> capacity p < 2 ^ 63 ->
  exists p1 Y, AllocatePayload n p = Some (p1, Some (payload_start im)) /\ zlen Y = n
  /\ outcome p p1 (im_set_payload Y im).
Proof.
  intros Hr Hpad Hn Hroom Hcap. pose proof (payload_start_bound im (rep_wf _ _ Hr)) as Hps.
  unfold AllocatePayload.
  destruct (SetPayloadSize_rep p im 0 Hr Hpad) as [[Hlt _]|(p1 & Y & -> & Hr1 & HY & _ & Hc1 & Hm1)]; [lia|lia|].
  cbn [mbind option_bind].
  destruct (SetPayloadSize_rep p1 (im_set_payload Y im) n Hr1 Hpad)
    as [[Hlt _]|(p2 & Y2 & -> & Hr2 & HY2 & _ & Hc2 & Hm2)];
    [lia|change (payload_start (im_set_payload Y im)) with (payload_start im) in Hlt; lia|].
  exists p2, Y2. split; [done|]. split; [done|]. split; [exact Hr2|]. split; congruence.
Qed.

(** Storing the whole payload, and a part of it. *)
Lemma AllocatePayload_rep p im bs : represents p im -> im_padding im = 0 -> is_bytes bs ->
  payload_start im + zlen bs <= capacity p -> capacity p < 2 ^ 63 ->
  exists p1 p2, AllocatePayload (zlen bs) p = Some (p1, Some (payload_start im))
  /\ WriteAt (payload_start im) bs p1 = Some p2 /\ outcome p p2 (im_set_payload bs im).
Proof.
  intros Hr Hpad Hb Hroom Hcap.
  destruct (AllocatePayload_room p im (zlen bs) Hr Hpad) as (p2 & Y & HA & HY & Hr2 & Hc2 & Hm2); [lia|done|done|].
  destruct (write_payload p2 _ bs Hr2) as (p3 & HW & Hr3 & Hc3 & Hm3); [done|done|].
  exists p2, p3. split; [done|]. split; [exact HW|]. split; [exact Hr3|]. split; congruence.
Qed.

Lemma write_part p im A B C bs : represents p im -> im_payload im = A ++ B ++ C -> zlen bs = zlen B -> is_bytes bs ->
  exists p', WriteAt (payload_start im + zlen A) bs p = Some p' /\ outcome p p' (im_set_payload (A ++ bs ++ C) im).
Proof.
  intros Hr Hpl Hl Hb. pose proof (rep_data _ _ Hr) as Hd. rewrite encode_headers, Hpl, <- !app_assoc in Hd.
  rewrite app_assoc in Hd. destruct (WriteAt_inside p (headers im ++ A) B _ bs Hd Hl Hb) as (b' & HW & Hdata & Hc & _).
  rewrite length_app, Nat2Z.inj_add, length_headers in HW. eexists. split; [exact HW|].
  pose proof (rep_wf _ _ Hr) as Hw. pose proof (rep_shows _ _ Hr) as Hs. split; [|done]. constructor.
  - pose proof (wf_payload _ Hw) as Hp. rewrite Hpl in Hp. destruct Hw. constructor; try done.
    cbn [im_payload im_set_payload]. unfold is_bytes in *. rewrite !list.Forall_app in *. tauto.
  - destruct Hs. constructor; try done. cbn [im_payload im_set_payload]. cbn. rewrite shows_payload_size, Hpl, !length_app. lia.
  - cbn [buffer_ with_buffer]. rewrite Hdata, encode_headers. cbn [im_payload im_set_payload im_padding].
    change (headers (im_set_payload (A ++ bs ++ C) im)) with (headers im). by rewrite <- !app_assoc.
  - apply (rep_extensions_size _ _ Hr).
Qed.

Definition header_image (im : image) : image :=
  Image (im_marker im) (im_payload_type im) (im_sequence_number im) (im_timestamp im) (im_ssrc im) [] false [] [] 0.

(** The header of the new packet. *)
Definition rebuild_header (this : t buf) : option (t buf) :=
  new_packet ← new (RtpHeaderExtensionMap.new false) kDefaultPacketSize;
  new_packet ← SetMarker (marker_ this) new_packet;
  new_packet ← SetPayloadType (payload_type_ this) new_packet;
  new_packet ← SetSequenceNumber (sequence_number_ this) new_packet;
  new_packet ← SetTimestamp (timestamp_ this) new_packet;
  new_packet ← SetSsrc (ssrc_ this) new_packet;
  Some (IdentifyExtensions (extensions_ this) new_packet).

Lemma rebuild_header_rep p im : represents p im -> exists np, rebuild_header p = Some np
  /\ represents np (header_image im) /\ capacity np = kDefaultPacketSize /\ extensions_ np = extensions_ p.
Proof.
  intros Hr. pose proof (rep_wf _ _ Hr) as []. pose proof (rep_shows _ _ Hr) as []. unfold rebuild_header.
  destruct (new_rep (RtpHeaderExtensionMap.new false) kDefaultPacketSize) as (p0 & -> & Hr0 & Hc0 & _); [done|].
  rewrite shows_marker, shows_payload_type, shows_sequence_number, shows_timestamp, shows_ssrc. cbn [mbind option_bind].
  destruct (SetMarker_rep p0 _ (im_marker im) Hr0) as (p1 & -> & Hr1 & Hc1 & _). cbn [mbind option_bind].
  destruct (SetPayloadType_rep p1 _ (im_payload_type im) Hr1) as (p2 & -> & Hr2 & Hc2 & _); [done|]. cbn [mbind option_bind].
  destruct (SetSequenceNumber_rep p2 _ (im_sequence_number im) Hr2) as (p3 & -> & Hr3 & Hc3 & _); [done|]. cbn [mbind option_bind].
  destruct (SetTimestamp_rep p3 _ (im_timestamp im) Hr3) as (p4 & -> & Hr4 & Hc4 & _); [done|]. cbn [mbind option_bind].
  destruct (SetSsrc_rep p4 _ (im_ssrc im) Hr4) as (p5 & -> & Hr5 & Hc5 & _); [done|]. cbn [mbind option_bind].
  eexists. split; [done|]. split; [apply IdentifyExtensions_rep, Hr5|]. split; [|done].
  change (capacity p5 = kDefaultPacketSize). congruence.
Qed.

Lemma RemoveExtension_eq type (p : t buf) i : RtpHeaderExtensionMap.GetId (extensions_ p) type = Some i ->
  i <> RtpHeaderExtensionMap.kInvalidId -> RemoveExtension type p =
  (new_packet ← rebuild_header p;
   copied ← copy_extensions p i (extension_entries_ p) false new_packet;
   match copied with
   | None => Some (p, false)
   | Some (new_packet, found_extension) =>
       if negb found_extension then Some (p, false) else
       '(new_packet, place) ← AllocatePayload (payload_size_ p) new_packet;
       off ← place;
       new_packet ← WriteAt off (payload p) new_packet;
       '(new_packet, _) ← SetPadding (padding_size_ p) new_packet;
       Some (new_packet, true)
   end).
Proof.
  intros Hi Hne. unfold RemoveExtension, rebuild_header. rewrite Hi. cbn [mbind option_bind].
  rewrite (proj2 (Z.eqb_neq _ _) Hne).
  by do 6 (match goal with |- mbind _ ?m = _ => destruct m as [?|]; cbn [mbind option_bind]; [|done] end).
Qed.

(** Removing a registered extension that the packet has, when what remains fits in the
    default buffer: the result keeps the fixed header, the other extensions in their order
    with their values, the payload and the padding, uses two-byte headers exactly when a
    remaining extension needs them, and has lost its CSRCs. *)
Theorem remove_extension p im type i : represents p im ->
  RtpHeaderExtensionMap.GetId (extensions_ p) type = Some i -> i <> RtpHeaderExtensionMap.kInvalidId ->
  i ∈ map fst (im_extensions im) -> Forall (legal (extensions_ p)) (im_extensions im) ->
  zlen (encode (removed im i)) <= kDefaultPacketSize ->
  exists p', RemoveExtension type p = Some (p', true) /\ reads p' (removed im i)
  /\ extensions_ p' = extensions_ p.
Proof.
  intros Hr Hi Hne Hin Hleg Hsize. pose proof (rep_wf _ _ Hr) as Hw. pose proof (rep_shows _ _ Hr) as Hs.
  rewrite (RemoveExtension_eq _ _ i) by done.
  assert (Hparts : zlen (encode (removed im i)) = payload_start (removed im i) + zlen (im_payload im)
    + zlen (padding_octets (im_padding im))) by (rewrite encode_headers, <- length_headers, !length_app; cbn [im_payload im_padding removed]; lia).
  rewrite length_padding in Hparts by apply Hw. pose proof (wf_padding _ Hw) as Hpad. unfold is_u8 in Hpad.
  destruct (rebuild_header_rep p im Hr) as (np & -> & Hr0 & Hc0 & Hm0). cbn [mbind option_bind].
  rewrite (shows_entries _ _ Hs), <- (Z.add_0_r (extensions_start im)).
  assert (Hroom : extensions_start (header_image im) + zlen (ext_items (form (keep i (im_extensions im))) (keep i (im_extensions im)))
    <= kDefaultPacketSize).
  { destruct (decide (keep i (im_extensions im) = [])) as [->|Hk]; [done|].
    unfold payload_start, extensions_start in *. cbn [im_csrcs header_image im_two_byte im_extensions removed] in *.
    rewrite length_ext_block in Hparts by done.
    pose proof (words_bounds (ext_items (form (keep i (im_extensions im))) (keep i (im_extensions im)))). lia. }
  destruct (copy_extensions_rep p im i (header_image im) (im_extensions im) [] [] np false (rep_data _ _ Hr))
    as (np1 & Hcopy & Hr1 & Hc1 & Hm1); try done.
  { split; by rewrite Hc0. } { by rewrite Hm0. } { apply Hw. } { by rewrite Hc0. }
  cbn [ext_items map concat List.length] in Hcopy. change (Z.of_nat 0) with 0 in Hcopy. rewrite Hcopy.
  cbn [mbind option_bind orb]. rewrite bool_decide_true by done. cbn [negb].
  rewrite (shows_payload_size _ _ Hs), (shows_padding _ _ Hs), (payload_data p im Hs (rep_data _ _ Hr)).
  cbn [app] in Hr1. set (im1 := im_set_extensions _ _ _) in Hr1.
  assert (Hstart : payload_start im1 = payload_start (removed im i)) by done.
  destruct (AllocatePayload_rep np1 im1 (im_payload im) Hr1) as (np2 & np3 & -> & HW & Hr3 & Hc3 & Hm3);
    [done|apply Hw|rewrite Hc1, Hc0; lia|by rewrite Hc1, Hc0|].
  cbn [mbind option_bind]. rewrite HW. cbn [mbind option_bind].
  destruct (SetPadding_rep np3 _ (im_padding im) Hr3) as [[Hlt _]|(np4 & -> & Hr4 & Hc4 & Hm4)];
    [apply Hw|by rewrite Hc3, Hc1, Hc0| |].
  { change (payload_start (im_set_payload (im_payload im) im1)) with (payload_start im1) in Hlt.
    cbn [im_payload im_set_payload] in Hlt. rewrite Hc3, Hc1, Hc0 in Hlt. lia. }
  exists np4. split; [done|]. split; [|congruence]. by apply data_reads; apply Hr4.
Qed.

End values.

(** ** Concrete packets *)

Definition sample_ops : list operation := [
  SetPayloadTypeTo 96; SetMarkerTo true; SetSequenceNumberTo 0xfffe; SetTimestampTo 90000; SetSsrcTo 0x12345678;
  SetCsrcsTo [1; 2];
  SetExtensionTo kRtpExtensionAudioLevel [127];
  SetExtensionTo kRtpExtensionTransmissionTimeOffset [0; 1; 2];
  SetExtensionTo kRtpExtensionTransportSequenceNumber (replicate 17 9);   (* needs two-byte headers *)
  SetExtensionTo kRtpExtensionMid [1];                                    (* not registered *)
  SetPayloadTo [1; 2; 3; 4; 5]; SetPaddingTo 3; Reserve kRtpExtensionAudioLevel 1;
  SetPaddingTo 255 ].

Definition sample_capacity : Z := 100.

Lemma sample_map_wf : wf sample_map.
Proof. exact (reachable_wf (fun type : Z => type) _ sample_map_reachable). Qed.

Lemma sample_ops_allowed : ops_allowed sample_map sample_capacity sample_ops empty_image.
Proof.
  cbn -[apply_op is_u16 is_u32 is_u8 known_type is_bytes]. unfold is_u16, is_u32, is_u8, is_bytes, known_type.
  decide_wf.
Qed.

Lemma rtp_build_parse_witness : exists p0 p q' : RtpPacket.t plain_buffer,
  new sample_map sample_capacity = Some p0
  /\ run_ops sample_ops p0 = Some (p, [true; true; true; true; true; true; true; true; true; false; true; true; true; false])
  /\ reads p (apply_ops sample_map sample_capacity sample_ops empty_image).1
  /\ Parse (cow_data (buffer_ p)) (size p) p0 = Some (q', true)
  /\ reads q' (apply_ops sample_map sample_capacity sample_ops empty_image).1.
Proof.
  destruct (new (buf := plain_buffer) sample_map sample_capacity) as [q|] eqn:Hq; [|by vm_compute in Hq].
  destruct (rtp_build_parse sample_map sample_capacity sample_ops q sample_map_wf) as (p0 & p & q' & Hnew & Hrest);
    [by vm_compute|done|exact sample_ops_allowed|].
  exists p0, p, q'. rewrite Hq in Hnew. injection Hnew as ->. exact (conj eq_refl Hrest).
Defined.

Lemma packet_operations_witness : exists p p' : RtpPacket.t plain_buffer,
  new sample_map sample_capacity = Some p
  /\ run_ops sample_ops p = Some (p', [true; true; true; true; true; true; true; true; true; false; true; true; true; false])
  /\ reads p' (apply_ops sample_map sample_capacity sample_ops empty_image).1.
Proof.
  destruct (new_rep (buf := plain_buffer) sample_map sample_capacity) as (p & Hnew & Hr & Hc & Hm); [done|].
  destruct (packet_operations sample_ops empty_image p Hr) as (p' & Hrun & _ & Hreads).
  - rewrite Hm. exact sample_map_wf.
  - split; rewrite Hc; done.
  - rewrite Hm, Hc. exact sample_ops_allowed.
  - exists p, p'. rewrite Hm, Hc in *. split; [done|]. split; [exact Hrun|exact Hreads].
Defined.

(** A packet with a one-byte block that ends in the middle of an extension: the extension is
    dropped and the payload stays. *)
Definition truncated_extension : bytes :=
  [0x90; 96; 0; 1; 0; 0; 0; 2; 0; 0; 0; 3; 0xBE; 0xDE; 0; 1; 0x10; 7; 0x2f; 8; 1; 2; 3].

Lemma rtp_parse_safe_witness : exists p q : RtpPacket.t plain_buffer,
  new sample_map sample_capacity = Some p
  /\ Parse truncated_extension 23 p = Some (q, true) /\ laid_out q 23
  /\ extension_entries_ q = [Ext 1 1 17] /\ payload q = [1; 2; 3].
Proof.
  destruct (new (buf := plain_buffer) sample_map sample_capacity) as [p|] eqn:Hp; [|by vm_compute in Hp].
  exists p. destruct (rtp_parse_safe truncated_extension 23 p) as (q & ok & HP & Hq);
    [by repeat constructor|done|by injection Hp as <-|].
  injection Hp as <-. vm_compute in HP. injection HP as <- <-. eexists. split; [done|]. split; [by vm_compute|].
  split; [exact (proj1 Hq)|done].
Defined.

Definition sample_image : image := (apply_ops sample_map sample_capacity sample_ops empty_image).1.

Lemma sample_built : exists p : RtpPacket.t plain_buffer,
  new sample_map sample_capacity ≫= run_ops sample_ops
    = Some (p, (apply_ops sample_map sample_capacity sample_ops empty_image).2)
  /\ represents p sample_image /\ extensions_ p = sample_map.
Proof.
  destruct (new_rep (buf := plain_buffer) sample_map sample_capacity) as (p0 & -> & Hr & Hc & Hm); [done|].
  destruct (run_ops_rep sample_ops p0 empty_image Hr) as (p & Hrun & Hr' & _ & Hm').
  - rewrite Hm. exact sample_map_wf.
  - split; by rewrite Hc.
  - rewrite Hm, Hc. exact sample_ops_allowed.
  - rewrite Hm, Hc in *. exists p. split; [exact Hrun|]. split; [exact Hr'|]. by rewrite Hm'.
Qed.

(** Without the long extension the short ones go back to one-byte headers; the CSRCs 1 and 2
    of the packet are lost. *)
Lemma remove_extension_witness : exists p p' : RtpPacket.t plain_buffer,
  Csrcs p = Some [1; 2]
  /\ RemoveExtension kRtpExtensionTransportSequenceNumber p = Some (p', true)
  /\ reads p' (removed sample_image 5) /\ Csrcs p' = Some []
  /\ im_two_byte sample_image = true /\ im_two_byte (removed sample_image 5) = false.
Proof.
  destruct sample_built as (p & Hrun & Hr & Hm). exists p.
  destruct (remove_extension p sample_image kRtpExtensionTransportSequenceNumber 5 Hr) as (p' & HR & Hreads & _).
  - by rewrite Hm.
  - done.
  - vm_compute. right. right. left.
  - rewrite Hm. apply Forall_forall. intros e He. vm_compute in He.
    destruct He as [<-|[<-|[<-|[]]]]; (split; [cbn; lia|]; split; [cbn; lia|]; split; [by repeat constructor|done]).
  - done.
  - exists p'. split; [by rewrite (Csrcs_data p sample_image (rep_wf _ _ Hr) (rep_data _ _ Hr))|].
    split; [exact HR|]. split; [exact Hreads|].
    split; [by rewrite (reads_csrcs _ _ Hreads)|]. split; by vm_compute.
Defined.

(** The capacity check of AllocateRawExtension leaves out the zeroes that fill up the last
    word: in a buffer of 18 octets an extension of one octet is accepted, and the zeroes go
    to the two octets behind the buffer. *)
Lemma allocation_overruns_buffer :
  new (buf := plain_buffer) sample_map 18 ≫= AllocateExtension kRtpExtensionAudioLevel 1 = None
  /\ (18 >= 12 + 4 + kOneByteExtensionHeaderLength + 1).
Proof. split; [by vm_compute|done]. Qed.
