(* ===== verification/RtpExtensions.v ===== *)
(** * The values of RTP header extensions: rtp_rtcp/source/rtp_header_extensions.{h,cc}

    One Module per extension class, with its Parse, ValueSize and Write, as an [extension]
    with [extension_laws], the contract that RtpPacket::SetExtension and GetExtension need.
    Parse takes the octets of the extension and the object it assigns to, and returns the
    object and the result; Write takes the octets it overwrites. *)

From Stdlib Require QArith_base Qround.
From S2P Require Import Prelude.
From S2P Require Import ByteIo.
From S2P Require Import Buffers.
From S2P Require Import RtcpCore.
From S2P Require Import RtpExtensionMap.
From S2P Require Import RtpPacket.
From S2P Require Import RtpPacketBuild.
From S2P Require Import RtpPacketOps.

(** ** The interface of an extension class *)

Record extension := Extension {
  value : Type;
  kId : Z;
  ValueSize : value -> Z;
  Write : bytes -> value -> option (bytes * bool);
  Parse : bytes -> value -> option (value * bool)
}.

(** Write of a valid value stores [octets]; Parse of them into [old] gives [image old v];
    Parse is defined on all octets. *)
Record extension_laws (E : extension) (valid : value E -> Prop) (octets : value E -> bytes)
    (image : value E -> value E -> value E) : Prop := {
  law_type : known_type (kId E);
  law_size v : valid v -> zlen (octets v) = ValueSize E v;
  law_bytes v : valid v -> is_bytes (octets v);
  law_write v d : valid v -> zlen d = ValueSize E v -> Write E d v = Some (octets v, true);
  law_parse v old : valid v -> Parse E (octets v) old = Some (image old v, true);
  law_total d old : is_bytes d -> d <> [] -> is_Some (Parse E d old)
}.

(** data.data() + offset written by a ByteWriter of [n] octets. *)
Abbreviation write_be n data offset v := (put data offset (ByteWriter.WriteBigEndian n v)).

Module AbsoluteSendTime.

Definition kValueSizeBytes : Z := 3.

Definition Parse (data : bytes) (time_24bits : Z) : option (Z * bool) :=
  if negb (zlen data =? 3) then Some (time_24bits, false) else
  time_24bits ← read_be 32 3 data 0; Some (time_24bits, true).

Definition ValueSize (time_24bits : Z) : Z := kValueSizeBytes.

Definition Write (data : bytes) (time_24bits : Z) : option (bytes * bool) :=
  check (zlen data =? 3) ;;
  check (time_24bits <=? 0x00FFFFFF) ;;
  data ← write_be 3 data 0 time_24bits; Some (data, true).

Definition MsTo24Bits (time_ms : Z) : Z :=
  Z.land (u32 (Z.quot (Z.shiftl time_ms 18 + 500) 1000)) 0x00FFFFFF.

Definition ext : extension := Extension Z kRtpExtensionAbsoluteSendTime ValueSize Write Parse.

End AbsoluteSendTime.

Module AbsoluteCaptureTimeExtension.

Definition kValueSizeBytes : Z := 16.
Definition kValueSizeBytesWithoutEstimatedCaptureClockOffset : Z := 8.

(** AbsoluteCaptureTime *)
Record t := Mk {
  absolute_capture_timestamp : Z;                (* uint64_t *)
  estimated_capture_clock_offset : option Z      (* absl::optional<int64_t> *)
}.

Definition Parse (data : bytes) (extension : t) : option (t * bool) :=
  if negb (zlen data =? kValueSizeBytes) && negb (zlen data =? kValueSizeBytesWithoutEstimatedCaptureClockOffset)
  then Some (extension, false) else
  timestamp ← read_be 64 8 data 0;
  offset ← (if negb (zlen data =? kValueSizeBytesWithoutEstimatedCaptureClockOffset)
            then offset ← read_be_signed 64 8 data 8; Some (Some offset)
            else Some (estimated_capture_clock_offset extension));
  Some (Mk timestamp offset, true).

Definition ValueSize (extension : t) : Z :=
  match estimated_capture_clock_offset extension with
  | Some _ => kValueSizeBytes
  | None => kValueSizeBytesWithoutEstimatedCaptureClockOffset
  end.

Definition Write (data : bytes) (extension : t) : option (bytes * bool) :=
  check (zlen data =? ValueSize extension) ;;
  data ← write_be 8 data 0 (absolute_capture_timestamp extension);
  data ← (if negb (zlen data =? kValueSizeBytesWithoutEstimatedCaptureClockOffset)
          then offset ← estimated_capture_clock_offset extension;
               put data 8 (ByteWriter.WriteBigEndianSigned 64 8 offset)
          else Some data);
  Some (data, true).

Definition ext : extension := Extension t kRtpExtensionAbsoluteCaptureTime ValueSize Write Parse.

End AbsoluteCaptureTimeExtension.

Module AudioLevel.

Definition kValueSizeBytes : Z := 1.

(** bool* voice_activity, uint8_t* audio_level *)
Definition Parse (data : bytes) (values : bool * Z) : option ((bool * Z) * bool) :=
  if negb (zlen data =? 1) then Some (values, false) else
  d ← peek data 0; Some ((negb (Z.land d 0x80 =? 0), Z.land d 0x7F), true).

Definition ValueSize (values : bool * Z) : Z := kValueSizeBytes.

Definition Write (data : bytes) (values : bool * Z) : option (bytes * bool) :=
  let '(voice_activity, audio_level) := values in
  check (zlen data =? 1) ;;
  check (audio_level <=? 0x7f) ;;
  data ← put data 0 [Z.lor (if voice_activity : bool then 0x80 else 0x00) audio_level];
  Some (data, true).

Definition ext : extension := Extension (bool * Z) kRtpExtensionAudioLevel ValueSize Write Parse.

End AudioLevel.

(** kRtpCsrcSize of api/rtp_headers.h. *)
Class RtpCsrcSize := { kRtpCsrcSize : Z }.

Class RtpCsrcSizeLaws {ops : RtpCsrcSize} := { kRtpCsrcSize_pos : 1 <= kRtpCsrcSize <= 15 }.

#[global] Instance rfc3550_csrcs : RtpCsrcSize := {| kRtpCsrcSize := 15 |}.

#[global] Instance rfc3550_csrcs_laws : RtpCsrcSizeLaws.
Proof. by constructor. Qed.

Module CsrcAudioLevel.

Section limit.
Context {limit : RtpCsrcSize}.

Definition kMaxValueSizeBytes : Z := 15.

Definition Parse (data : bytes) (csrc_audio_levels : list Z) : option (list Z * bool) :=
  if zlen data >? kRtpCsrcSize then Some (csrc_audio_levels, false) else
  Some (map (fun d => Z.land d 0x7F) data, true).

Definition ValueSize (csrc_audio_levels : list Z) : Z := zlen csrc_audio_levels.

Definition Write (data : bytes) (csrc_audio_levels : list Z) : option (bytes * bool) :=
  check (zlen csrc_audio_levels <=? kRtpCsrcSize) ;;
  if negb (zlen csrc_audio_levels =? zlen data) then Some (data, false) else
  data ← put data 0 (map (fun level => Z.land level 0x7F) csrc_audio_levels);
  Some (data, true).

Definition ext : extension := Extension (list Z) kRtpExtensionCsrcAudioLevel ValueSize Write Parse.

End limit.

End CsrcAudioLevel.

Module TransmissionOffset.

Definition kValueSizeBytes : Z := 3.

Definition Parse (data : bytes) (rtp_time : Z) : option (Z * bool) :=
  if negb (zlen data =? 3) then Some (rtp_time, false) else
  rtp_time ← read_be_signed 32 3 data 0; Some (rtp_time, true).

Definition ValueSize (rtp_time : Z) : Z := kValueSizeBytes.

Definition Write (data : bytes) (rtp_time : Z) : option (bytes * bool) :=
  check (zlen data =? 3) ;;
  check (rtp_time <=? 0x00ffffff) ;;
  data ← put data 0 (ByteWriter.WriteBigEndianSigned 32 3 rtp_time);
  Some (data, true).

Definition ext : extension := Extension Z kRtpExtensionTransmissionTimeOffset ValueSize Write Parse.

End TransmissionOffset.

Module TransportSequenceNumber.

Definition kValueSizeBytes : Z := 2.

Definition Parse (data : bytes) (transport_sequence_number : Z) : option (Z * bool) :=
  if negb (zlen data =? kValueSizeBytes) then Some (transport_sequence_number, false) else
  transport_sequence_number ← read_u16 data 0; Some (transport_sequence_number, true).

Definition ValueSize (transport_sequence_number : Z) : Z := kValueSizeBytes.

Definition Write (data : bytes) (transport_sequence_number : Z) : option (bytes * bool) :=
  check (zlen data =? ValueSize transport_sequence_number) ;;
  data ← write_be 2 data 0 transport_sequence_number; Some (data, true).

Definition ext : extension := Extension Z kRtpExtensionTransportSequenceNumber ValueSize Write Parse.

End TransportSequenceNumber.

Module TransportSequenceNumberV2.

Definition kValueSizeBytes : Z := 4.
Definition kValueSizeBytesWithoutFeedbackRequest : Z := 2.
Definition kIncludeTimestampsBit : Z := Z.shiftl 1 15.

(** FeedbackRequest *)
Record FeedbackRequest := Request { include_timestamps : bool; sequence_count : Z }.

(** uint16_t* transport_sequence_number, absl::optional<FeedbackRequest>* feedback_request *)
Definition Parse (data : bytes) (values : Z * option FeedbackRequest) : option ((Z * option FeedbackRequest) * bool) :=
  if negb (zlen data =? kValueSizeBytes) && negb (zlen data =? kValueSizeBytesWithoutFeedbackRequest)
  then Some (values, false) else
  transport_sequence_number ← read_u16 data 0;
  if zlen data =? kValueSizeBytes then
    feedback_request_raw ← read_u16 data 2;
    let include_timestamps := negb (Z.land feedback_request_raw kIncludeTimestampsBit =? 0) in
    let sequence_count := u16 (Z.land feedback_request_raw (Z.lnot kIncludeTimestampsBit)) in
    Some ((transport_sequence_number,
           if negb (sequence_count =? 0) then Some (Request include_timestamps sequence_count) else None), true)
  else Some ((transport_sequence_number, None), true).

Definition ValueSize (values : Z * option FeedbackRequest) : Z :=
  match snd values with Some _ => kValueSizeBytes | None => kValueSizeBytesWithoutFeedbackRequest end.

Definition Write (data : bytes) (values : Z * option FeedbackRequest) : option (bytes * bool) :=
  let '(transport_sequence_number, feedback_request) := values in
  check (zlen data =? ValueSize values) ;;
  data ← write_be 2 data 0 transport_sequence_number;
  match feedback_request with
  | Some r =>
      check (sequence_count r >=? 0) ;;
      check (sequence_count r <? kIncludeTimestampsBit) ;;
      let feedback_request_raw :=
        u16 (Z.lor (sequence_count r) (if include_timestamps r then kIncludeTimestampsBit else 0)) in
      data ← write_be 2 data 2 feedback_request_raw; Some (data, true)
  | None => Some (data, true)
  end.

Definition ext : extension :=
  Extension (Z * option FeedbackRequest) kRtpExtensionTransportSequenceNumber02 ValueSize Write Parse.

End TransportSequenceNumberV2.

(** api/video/video_rotation.h: a rotation as the octet of the extension and back. *)
Class VideoRotationApi := {
  VideoRotation : Type;
  ConvertCVOByteToVideoRotation : Z -> VideoRotation;
  ConvertVideoRotationToCVOByte : VideoRotation -> Z
}.

Class VideoRotationLaws {api : VideoRotationApi} := {
  cvo_octet r : is_u8 (ConvertVideoRotationToCVOByte r);
  cvo_inverse r : ConvertCVOByteToVideoRotation (ConvertVideoRotationToCVOByte r) = r
}.

(** Quarter turns, for concrete runs. *)
Inductive quarter_turn := Turn0 | Turn90 | Turn180 | Turn270.

#[global] Instance quarter_turns : VideoRotationApi := {|
  VideoRotation := quarter_turn;
  ConvertCVOByteToVideoRotation b :=
    match Z.land b 3 with 0 => Turn0 | 1 => Turn90 | 2 => Turn180 | _ => Turn270 end;
  ConvertVideoRotationToCVOByte r := match r with Turn0 => 0 | Turn90 => 1 | Turn180 => 2 | Turn270 => 3 end
|}.

#[global] Instance quarter_turns_laws : VideoRotationLaws.
Proof. by constructor; intros []. Qed.

Module VideoOrientation.

Section rotation.
Context {api : VideoRotationApi}.

Definition kValueSizeBytes : Z := 1.

Definition Parse (data : bytes) (rotation : VideoRotation) : option (VideoRotation * bool) :=
  if negb (zlen data =? 1) then Some (rotation, false) else
  d ← peek data 0; Some (ConvertCVOByteToVideoRotation d, true).

Definition ValueSize (rotation : VideoRotation) : Z := kValueSizeBytes.

Definition Write (data : bytes) (rotation : VideoRotation) : option (bytes * bool) :=
  check (zlen data =? 1) ;;
  data ← put data 0 [ConvertVideoRotationToCVOByte rotation]; Some (data, true).

(** The overloads for the octet itself. *)
Definition ParseOctet (data : bytes) (value : Z) : option (Z * bool) :=
  if negb (zlen data =? 1) then Some (value, false) else
  d ← peek data 0; Some (d, true).

Definition ValueSizeOctet (value : Z) : Z := kValueSizeBytes.

Definition WriteOctet (data : bytes) (value : Z) : option (bytes * bool) :=
  check (zlen data =? 1) ;;
  data ← put data 0 [value]; Some (data, true).

Definition ext : extension := Extension VideoRotation kRtpExtensionVideoRotation ValueSize Write Parse.

Definition ext_octet : extension := Extension Z kRtpExtensionVideoRotation ValueSizeOctet WriteOctet ParseOctet.

End rotation.

End VideoOrientation.

Module PlayoutDelayLimits.

Definition kValueSizeBytes : Z := 3.
Definition kGranularityMs : Z := 10.
Definition kMaxMs : Z := 0xfff * kGranularityMs.

(** VideoPlayoutDelay *)
Record t := Mk { min_ms : Z; max_ms : Z (* int *) }.

Definition Parse (data : bytes) (playout_delay : t) : option (t * bool) :=
  if negb (zlen data =? 3) then Some (playout_delay, false) else
  raw ← read_be 32 3 data 0;
  let min_raw := u16 (Z.shiftr raw 12) in
  let max_raw := u16 (Z.land raw 0xfff) in
  if min_raw >? max_raw then Some (playout_delay, false) else
  Some (Mk (min_raw * kGranularityMs) (max_raw * kGranularityMs), true).

Definition ValueSize (playout_delay : t) : Z := kValueSizeBytes.

Definition Write (data : bytes) (playout_delay : t) : option (bytes * bool) :=
  check (zlen data =? 3) ;;
  check (0 <=? min_ms playout_delay) ;;
  check (min_ms playout_delay <=? max_ms playout_delay) ;;
  check (max_ms playout_delay <=? kMaxMs) ;;
  let min_delay := u32 (Z.quot (min_ms playout_delay) kGranularityMs) in
  let max_delay := u32 (Z.quot (max_ms playout_delay) kGranularityMs) in
  data ← write_be 3 data 0 (Z.lor (u32 (Z.shiftl min_delay 12)) max_delay); Some (data, true).

Definition ext : extension := Extension t kRtpExtensionPlayoutDelay ValueSize Write Parse.

End PlayoutDelayLimits.

(** api/video/video_content_type.h: a content type as an octet and back. *)
Class ContentTypeApi := {
  VideoContentType : Type;
  content_type_octet : VideoContentType -> Z;
  content_type_of : Z -> VideoContentType;
  IsValidContentType : Z -> bool
}.

Class ContentTypeLaws {api : ContentTypeApi} := {
  content_type_u8 c : is_u8 (content_type_octet c);
  content_type_valid c : IsValidContentType (content_type_octet c) = true;
  content_type_inverse c : content_type_of (content_type_octet c) = c
}.

(** Two content types. *)
#[global] Instance two_content_types : ContentTypeApi := {|
  VideoContentType := bool;
  content_type_octet c := if c then 1 else 0;
  content_type_of b := b =? 1;
  IsValidContentType b := b <? 2
|}.

#[global] Instance two_content_types_laws : ContentTypeLaws.
Proof. by constructor; intros []. Qed.

Module VideoContentTypeExtension.

Section content_type.
Context {api : ContentTypeApi}.

Definition kValueSizeBytes : Z := 1.

Definition Parse (data : bytes) (content_type : VideoContentType) : option (VideoContentType * bool) :=
  if zlen data =? 1 then
    d ← peek data 0;
    if IsValidContentType d then Some (content_type_of d, true) else Some (content_type, false)
  else Some (content_type, false).

Definition ValueSize (content_type : VideoContentType) : Z := kValueSizeBytes.

Definition Write (data : bytes) (content_type : VideoContentType) : option (bytes * bool) :=
  check (zlen data =? 1) ;;
  data ← put data 0 [content_type_octet content_type]; Some (data, true).

Definition ext : extension := Extension VideoContentType kRtpExtensionVideoContentType ValueSize Write Parse.

End content_type.

End VideoContentTypeExtension.

Module VideoTimingExtension.

Definition kValueSizeBytes : Z := 13.
Definition kFlagsOffset : Z := 0.
Definition kEncodeStartDeltaOffset : Z := 1.
Definition kEncodeFinishDeltaOffset : Z := 3.
Definition kPacketizationFinishDeltaOffset : Z := 5.
Definition kPacerExitDeltaOffset : Z := 7.
Definition kNetworkTimestampDeltaOffset : Z := 9.
Definition kNetwork2TimestampDeltaOffset : Z := 11.

(** VideoSendTiming *)
Record t := Mk {
  encode_start_delta_ms : Z;           (* uint16_t *)
  encode_finish_delta_ms : Z;
  packetization_finish_delta_ms : Z;
  pacer_exit_delta_ms : Z;
  network_timestamp_delta_ms : Z;
  network2_timestamp_delta_ms : Z;
  flags : Z                            (* uint8_t *)
}.

Definition Parse (data : bytes) (timing : t) : option (t * bool) :=
  if negb (zlen data =? kValueSizeBytes - 1) && negb (zlen data =? kValueSizeBytes) then Some (timing, false) else
  '(flags, off) ← (if zlen data =? kValueSizeBytes - 1 then Some (0, 1)
                   else flags ← read_u8 data 0; Some (flags, 0));
  encode_start ← read_u16 data (kEncodeStartDeltaOffset - off);
  encode_finish ← read_u16 data (kEncodeFinishDeltaOffset - off);
  packetization_finish ← read_u16 data (kPacketizationFinishDeltaOffset - off);
  pacer_exit ← read_u16 data (kPacerExitDeltaOffset - off);
  network ← read_u16 data (kNetworkTimestampDeltaOffset - off);
  network2 ← read_u16 data (kNetwork2TimestampDeltaOffset - off);
  Some (Mk encode_start encode_finish packetization_finish pacer_exit network network2 flags, true).

Definition ValueSize (timing : t) : Z := kValueSizeBytes.

Definition Write (data : bytes) (timing : t) : option (bytes * bool) :=
  check (zlen data =? 1 + 2 * 6) ;;
  data ← write_be 1 data kFlagsOffset (flags timing);
  data ← write_be 2 data kEncodeStartDeltaOffset (encode_start_delta_ms timing);
  data ← write_be 2 data kEncodeFinishDeltaOffset (encode_finish_delta_ms timing);
  data ← write_be 2 data kPacketizationFinishDeltaOffset (packetization_finish_delta_ms timing);
  data ← write_be 2 data kPacerExitDeltaOffset (pacer_exit_delta_ms timing);
  data ← write_be 2 data kNetworkTimestampDeltaOffset (network_timestamp_delta_ms timing);
  data ← write_be 2 data kNetwork2TimestampDeltaOffset (network2_timestamp_delta_ms timing);
  Some (data, true).

(** The overloads for one delta. *)
Definition ValueSizeDelta (time_delta_ms idx : Z) : Z := kValueSizeBytes.

Definition WriteDelta (data : bytes) (time_delta_ms offset : Z) : option (bytes * bool) :=
  check (zlen data >=? offset + 2) ;;
  check (offset <=? kValueSizeBytes - 2) ;;
  data ← write_be 2 data offset time_delta_ms; Some (data, true).

Definition ext : extension := Extension t kRtpExtensionVideoTiming ValueSize Write Parse.

End VideoTimingExtension.

Module BaseRtpStringExtension.

Definition kMaxValueSizeBytes : Z := 16.

(** cstr up to the first zero, in data.size() octets *)
Fixpoint strn (data : bytes) : bytes :=
  match data with
  | [] => []
  | c :: data => if c =? 0 then [] else c :: strn data
  end.

Definition Parse (data : bytes) (str : bytes) : option (bytes * bool) :=
  match data with
  | [] => Some (str, false)
  | c :: _ =>
      if c =? 0 then Some (str, false) else
      let str := strn data in
      check (negb (zlen str =? 0)) ;; Some (str, true)
  end.

Definition ValueSize (str : bytes) : Z := zlen str.

Definition Write (data : bytes) (str : bytes) : option (bytes * bool) :=
  if zlen str >? kMaxValueSizeBytes then Some (data, false) else
  check (zlen data =? zlen str) ;;
  check (1 <=? zlen str) ;;
  data ← put data 0 str; Some (data, true).

(** RtpStreamId, RepairedRtpStreamId and RtpMid differ in their id. *)
Definition ext (id : Z) : extension := Extension bytes id ValueSize Write Parse.

End BaseRtpStringExtension.

Module InbandComfortNoiseExtension.

Definition kValueSizeBytes : Z := 1.

Definition Parse (data : bytes) (level : option Z) : option (option Z * bool) :=
  if negb (zlen data =? kValueSizeBytes) then Some (level, false) else
  d ← peek data 0;
  Some (if negb (Z.land d 0x80 =? 0) then None else Some (Z.land d 0x7F), true).

Definition ValueSize (level : option Z) : Z := kValueSizeBytes.

Definition Write (data : bytes) (level : option Z) : option (bytes * bool) :=
  check (zlen data =? kValueSizeBytes) ;;
  data ← put data 0 [0];
  match level with
  | Some l =>
      if l >? 127 then Some (data, false) else
      data ← put data 0 [Z.lor 0x80 l]; Some (data, true)
  | None => Some (data, true)
  end.

Definition ext : extension := Extension (option Z) kRtpExtensionInbandComfortNoise ValueSize Write Parse.

End InbandComfortNoiseExtension.

Module VideoFrameTrackingIdExtension.

Definition kValueSizeBytes : Z := 2.

Definition Parse (data : bytes) (video_frame_tracking_id : Z) : option (Z * bool) :=
  if negb (zlen data =? kValueSizeBytes) then Some (video_frame_tracking_id, false) else
  video_frame_tracking_id ← read_u16 data 0; Some (video_frame_tracking_id, true).

Definition ValueSize (video_frame_tracking_id : Z) : Z := kValueSizeBytes.

Definition Write (data : bytes) (video_frame_tracking_id : Z) : option (bytes * bool) :=
  check (zlen data =? kValueSizeBytes) ;;
  data ← write_be 2 data 0 video_frame_tracking_id; Some (data, true).

Definition ext : extension := Extension Z kRtpExtensionVideoFrameTrackingId ValueSize Write Parse.

End VideoFrameTrackingIdExtension.

(** float and api/video/color_space.h, hdr_metadata.h: which octets are enumerators, the
    arithmetic on floats, and the check of the metadata. *)
Class ColorSpaceApi := {
  is_primaries : Z -> bool;
  is_transfer : Z -> bool;
  is_matrix : Z -> bool;
  is_range : Z -> bool;
  is_chroma_siting : Z -> bool;
  float : Type;
  float_of_int : Z -> float;
  float_div : float -> Z -> float;
  float_mul : float -> Z -> float;
  float_round : float -> Z;                (* std::round as uint16_t *)
  float_leb : float -> float -> bool
}.

Module ColorSpaceExtension.

Section api.
Context {api : ColorSpaceApi}.

(** HdrMasteringMetadata::Chromaticity, HdrMasteringMetadata, HdrMetadata and ColorSpace. *)
Record Chromaticity := Point { x : float; y : float }.

Record HdrMetadata := Hdr {
  luminance_max : float;
  luminance_min : float;
  primary_r : Chromaticity;
  primary_g : Chromaticity;
  primary_b : Chromaticity;
  white_point : Chromaticity;
  max_content_light_level : Z;             (* uint16_t in the extension *)
  max_frame_average_light_level : Z
}.

Record ColorSpace := Mk {
  primaries : Z;
  transfer : Z;
  matrix : Z;
  range : Z;
  chroma_siting_horizontal : Z;
  chroma_siting_vertical : Z;
  hdr_metadata : option HdrMetadata
}.

Context (Validate : HdrMetadata -> bool).

Definition kValueSizeBytes : Z := 28.
Definition kValueSizeBytesWithoutHdrMetadata : Z := 4.
Definition kChromaticityDenominator : Z := 50000.
Definition kLuminanceMaxDenominator : Z := 1.
Definition kLuminanceMinDenominator : Z := 10000.

Definition CombineRangeAndChromaSiting (range chroma_siting_horizontal chroma_siting_vertical : Z) : option Z :=
  check (range <=? 3) ;;
  check (chroma_siting_horizontal <=? 3) ;;
  check (chroma_siting_vertical <=? 3) ;;
  Some (u8 (Z.lor (Z.lor (Z.shiftl range 4) (Z.shiftl chroma_siting_horizontal 2)) chroma_siting_vertical)).

Definition ParseLuminance (data : bytes) (off denominator : Z) : option float :=
  luminance_scaled ← read_u16 data off; Some (float_div (float_of_int luminance_scaled) denominator).

Definition ParseChromaticity (data : bytes) (off : Z) : option Chromaticity :=
  chromaticity_x_scaled ← read_u16 data off;
  chromaticity_y_scaled ← read_u16 data (off + 2);
  Some (Point (float_div (float_of_int chromaticity_x_scaled) kChromaticityDenominator)
              (float_div (float_of_int chromaticity_y_scaled) kChromaticityDenominator)).

(** From the octets of data.subview(offset); 24 octets. *)
Definition ParseHdrMetadata (data : bytes) : option HdrMetadata :=
  check (zlen data =? kValueSizeBytes - kValueSizeBytesWithoutHdrMetadata) ;;
  lmax ← ParseLuminance data 0 kLuminanceMaxDenominator;
  lmin ← ParseLuminance data 2 kLuminanceMinDenominator;
  r ← ParseChromaticity data 4;
  g ← ParseChromaticity data 8;
  b ← ParseChromaticity data 12;
  w ← ParseChromaticity data 16;
  content ← read_u16 data 20;
  average ← read_u16 data 22;
  Some (Hdr lmax lmin r g b w content average).

Definition set_primaries_from_uint8 (v : Z) (c : ColorSpace) : ColorSpace :=
  Mk v (transfer c) (matrix c) (range c) (chroma_siting_horizontal c) (chroma_siting_vertical c) (hdr_metadata c).

Definition set_transfer_from_uint8 (v : Z) (c : ColorSpace) : ColorSpace :=
  Mk (primaries c) v (matrix c) (range c) (chroma_siting_horizontal c) (chroma_siting_vertical c) (hdr_metadata c).

Definition set_matrix_from_uint8 (v : Z) (c : ColorSpace) : ColorSpace :=
  Mk (primaries c) (transfer c) v (range c) (chroma_siting_horizontal c) (chroma_siting_vertical c) (hdr_metadata c).

Definition set_range_from_uint8 (v : Z) (c : ColorSpace) : ColorSpace :=
  Mk (primaries c) (transfer c) (matrix c) v (chroma_siting_horizontal c) (chroma_siting_vertical c) (hdr_metadata c).

Definition set_chroma_siting_horizontal_from_uint8 (v : Z) (c : ColorSpace) : ColorSpace :=
  Mk (primaries c) (transfer c) (matrix c) (range c) v (chroma_siting_vertical c) (hdr_metadata c).

Definition set_chroma_siting_vertical_from_uint8 (v : Z) (c : ColorSpace) : ColorSpace :=
  Mk (primaries c) (transfer c) (matrix c) (range c) (chroma_siting_horizontal c) v (hdr_metadata c).

Definition set_hdr_metadata (h : option HdrMetadata) (c : ColorSpace) : ColorSpace :=
  Mk (primaries c) (transfer c) (matrix c) (range c) (chroma_siting_horizontal c) (chroma_siting_vertical c) h.

Definition Parse (data : bytes) (color_space : ColorSpace) : option (ColorSpace * bool) :=
  if negb (zlen data =? kValueSizeBytes) && negb (zlen data =? kValueSizeBytesWithoutHdrMetadata)
  then Some (color_space, false) else
  d0 ← peek data 0;
  if negb (is_primaries d0) then Some (color_space, false) else
  let color_space := set_primaries_from_uint8 d0 color_space in
  d1 ← peek data 1;
  if negb (is_transfer d1) then Some (color_space, false) else
  let color_space := set_transfer_from_uint8 d1 color_space in
  d2 ← peek data 2;
  if negb (is_matrix d2) then Some (color_space, false) else
  let color_space := set_matrix_from_uint8 d2 color_space in
  range_and_chroma_siting ← peek data 3;
  let r := Z.land (Z.shiftr range_and_chroma_siting 4) 0x03 in
  if negb (is_range r) then Some (color_space, false) else
  let color_space := set_range_from_uint8 r color_space in
  let h := Z.land (Z.shiftr range_and_chroma_siting 2) 0x03 in
  if negb (is_chroma_siting h) then Some (color_space, false) else
  let color_space := set_chroma_siting_horizontal_from_uint8 h color_space in
  let v := Z.land range_and_chroma_siting 0x03 in
  if negb (is_chroma_siting v) then Some (color_space, false) else
  let color_space := set_chroma_siting_vertical_from_uint8 v color_space in
  if zlen data =? kValueSizeBytesWithoutHdrMetadata then Some (set_hdr_metadata None color_space, true) else
  hdr ← ParseHdrMetadata (drop 4 data);
  if negb (Validate hdr) then Some (color_space, false) else
  Some (set_hdr_metadata (Some hdr) color_space, true).

Definition ValueSize (color_space : ColorSpace) : Z :=
  match hdr_metadata color_space with Some _ => kValueSizeBytes | None => kValueSizeBytesWithoutHdrMetadata end.

Definition WriteLuminance (data : bytes) (off : Z) (f : float) (denominator : Z) : option bytes :=
  check (float_leb (float_of_int 0) f) ;;
  let upscaled_value := float_mul f denominator in
  check (float_leb upscaled_value (float_of_int 65535)) ;;
  write_be 2 data off (float_round upscaled_value).

Definition WriteChromaticity (data : bytes) (off : Z) (p : Chromaticity) : option bytes :=
  check (float_leb (float_of_int 0) (x p)) ;;
  check (float_leb (x p) (float_of_int 1)) ;;
  check (float_leb (float_of_int 0) (y p)) ;;
  check (float_leb (y p) (float_of_int 1)) ;;
  data ← write_be 2 data off (float_round (float_mul (x p) kChromaticityDenominator));
  write_be 2 data (off + 2) (float_round (float_mul (y p) kChromaticityDenominator)).

(** On the whole array, [off] octets of which are before the subview. *)
Definition WriteHdrMetadata (data : bytes) (off : Z) (h : HdrMetadata) : option bytes :=
  check (zlen data - off =? kValueSizeBytes - kValueSizeBytesWithoutHdrMetadata) ;;
  check (Validate h) ;;
  data ← WriteLuminance data off (luminance_max h) kLuminanceMaxDenominator;
  data ← WriteLuminance data (off + 2) (luminance_min h) kLuminanceMinDenominator;
  data ← WriteChromaticity data (off + 4) (primary_r h);
  data ← WriteChromaticity data (off + 8) (primary_g h);
  data ← WriteChromaticity data (off + 12) (primary_b h);
  data ← WriteChromaticity data (off + 16) (white_point h);
  data ← write_be 2 data (off + 20) (max_content_light_level h);
  write_be 2 data (off + 22) (max_frame_average_light_level h).

Definition Write (data : bytes) (color_space : ColorSpace) : option (bytes * bool) :=
  check (zlen data =? ValueSize color_space) ;;
  data ← put data 0 [primaries color_space];
  data ← put data 1 [transfer color_space];
  data ← put data 2 [matrix color_space];
  combined ← CombineRangeAndChromaSiting (range color_space) (chroma_siting_horizontal color_space)
    (chroma_siting_vertical color_space);
  data ← put data 3 [combined];
  data ← match hdr_metadata color_space with
    | Some h => WriteHdrMetadata data 4 h
    | None => Some data
    end;
  Some (data, true).

Definition ext : extension := Extension ColorSpace kRtpExtensionColorSpace ValueSize Write Parse.

End api.

End ColorSpaceExtension.

(** ** Stores that fill an array from the front *)

Lemma put_whole d x : zlen x = zlen d -> put d 0 x = Some x.
Proof. intros Hl. pose proof (put_app [] d [] x ltac:(lia)) as E. cbn in E. by rewrite !app_nil_r in E. Qed.

Lemma put_first d x : zlen x <= zlen d -> put d 0 x = Some (x ++ drop (length x) d).
Proof.
  intros Hl. pose proof (put_app [] (take (length x) d) (drop (length x) d) x) as E. cbn [app length] in E.
  rewrite take_drop in E. apply E. rewrite length_take. lia.
Qed.

Lemma put_next x r off y : off = zlen x -> zlen y <= zlen r -> put (x ++ r) off y = Some ((x ++ y) ++ drop (length y) r).
Proof.
  intros -> Hl. pose proof (put_app x (take (length y) r) (drop (length y) r) y) as E.
  rewrite take_drop, app_assoc in E. apply E. rewrite length_take. lia.
Qed.

Lemma put_last x r off y : off = zlen x -> zlen y = zlen r -> put (x ++ r) off y = Some (x ++ y).
Proof. intros -> Hl. pose proof (put_app x r [] y ltac:(lia)) as E. by rewrite !app_nil_r in E. Qed.

Ltac lengths := rewrite ?length_app, ?length_drop, ?length_be_bytes, ?length_map; cbn [length]; lia.

(** Run a sequence of stores. *)
Ltac puts :=
  rewrite ?WriteBigEndian_spec; unfold ByteWriter.WriteBigEndianSigned; rewrite ?WriteBigEndian_spec;
  repeat (first [rewrite put_whole by lengths | rewrite put_last by lengths | rewrite put_first by lengths
    | rewrite put_next by lengths]; cbn [mbind option_bind]).

(** Reads inside the octets are defined. *)
Ltac reads_total :=
  repeat match goal with
    | |- context [read_be ?w ?B ?d ?o] =>
        let v := fresh "v" in let Hv := fresh "Hv" in
        destruct (read_be_Some w B d o) as (v & -> & Hv); [assumption|lia|lia|lia|]; cbn [mbind option_bind]
    | |- context [read_be_signed ?w ?B ?d ?o] =>
        let v := fresh "v" in let Hv := fresh "Hv" in
        destruct (read_be_signed_Some w B d o) as (v & -> & Hv); [assumption|lia|lia|done|lia|lia|]; cbn [mbind option_bind]
    | |- context [peek ?d ?o] =>
        let v := fresh "v" in destruct (peek_Some d o) as (v & ->); [lia|]; cbn [mbind option_bind]
    end.

(** Assertions that hold by arithmetic. *)
Ltac checks := repeat (rewrite check_then by lia).

Lemma unsigned_read w B v : 8 * Z.of_nat B <= w -> 0 <= v < 256 ^ Z.of_nat B -> read_be w B (be_bytes B v) 0 = Some v.
Proof. intros Hw Hv. rewrite <- (app_nil_r (be_bytes B v)). by apply read_be_app_here. Qed.

(** ** The laws of each class *)

(** An extension that is one unsigned integer of [n] octets. *)
Ltac integer_laws n :=
  constructor; cbn [kId value ValueSize Write Parse];
    [done
    |intros v _; unfold n; lengths
    |intros v _; apply be_bytes_is_bytes
    |intros v d Hv Hd; unfold n in *; checks; by puts
    |intros v old Hv; rewrite length_be_bytes; unfold n; cbn [Z.of_nat Z.eqb negb]; by rewrite unsigned_read
    |intros d old Hb _; unfold n; match goal with |- context [zlen d =? ?k] => destruct (Z.eqb_spec (zlen d) k) as [Hn|] end;
       [|done]; cbn [negb]; by reads_total].

Lemma AbsoluteSendTime_laws :
  extension_laws AbsoluteSendTime.ext (fun v => 0 <= v < 2 ^ 24) (be_bytes 3) (fun _ v => v).
Proof.
  unfold AbsoluteSendTime.ext, AbsoluteSendTime.Write, AbsoluteSendTime.Parse, AbsoluteSendTime.ValueSize.
  integer_laws AbsoluteSendTime.kValueSizeBytes.
Qed.

Lemma TransportSequenceNumber_laws : extension_laws TransportSequenceNumber.ext is_u16 (be_bytes 2) (fun _ v => v).
Proof.
  unfold TransportSequenceNumber.ext, TransportSequenceNumber.Write, TransportSequenceNumber.Parse, TransportSequenceNumber.ValueSize.
  integer_laws TransportSequenceNumber.kValueSizeBytes.
Qed.

Lemma VideoFrameTrackingId_laws : extension_laws VideoFrameTrackingIdExtension.ext is_u16 (be_bytes 2) (fun _ v => v).
Proof.
  unfold VideoFrameTrackingIdExtension.ext, VideoFrameTrackingIdExtension.Write, VideoFrameTrackingIdExtension.Parse,
    VideoFrameTrackingIdExtension.ValueSize.
  integer_laws VideoFrameTrackingIdExtension.kValueSizeBytes.
Qed.

(** The estimated offset is kept from the object when the octets have none. *)
Lemma AbsoluteCaptureTime_laws : let open := AbsoluteCaptureTimeExtension.estimated_capture_clock_offset in
  extension_laws AbsoluteCaptureTimeExtension.ext
    (fun v => is_u64 (AbsoluteCaptureTimeExtension.absolute_capture_timestamp v)
       /\ forall o, open v = Some o -> - 2 ^ 63 <= o < 2 ^ 63)
    (fun v => be_bytes 8 (AbsoluteCaptureTimeExtension.absolute_capture_timestamp v)
       ++ match open v with Some o => be_bytes 8 (uw 64 o) | None => [] end)
    (fun old v => AbsoluteCaptureTimeExtension.Mk (AbsoluteCaptureTimeExtension.absolute_capture_timestamp v)
       (match open v with Some o => Some o | None => open old end)).
Proof.
  cbv zeta. constructor; cbn [AbsoluteCaptureTimeExtension.ext kId value ValueSize Write Parse];
    unfold AbsoluteCaptureTimeExtension.Write, AbsoluteCaptureTimeExtension.Parse, AbsoluteCaptureTimeExtension.ValueSize,
      AbsoluteCaptureTimeExtension.kValueSizeBytes, AbsoluteCaptureTimeExtension.kValueSizeBytesWithoutEstimatedCaptureClockOffset.
  - done.
  - intros [time [o|]] _; cbn; done.
  - intros [time [o|]] _; cbn [AbsoluteCaptureTimeExtension.estimated_capture_clock_offset]; rewrite ?app_nil_r; apply list.Forall_app_2 || idtac; apply be_bytes_is_bytes.
  - intros [time [o|]] d [Ht Ho] Hd; cbn [AbsoluteCaptureTimeExtension.estimated_capture_clock_offset AbsoluteCaptureTimeExtension.absolute_capture_timestamp] in *; checks.
    + puts. rewrite (proj2 (Z.eqb_neq _ _)) by lengths. cbn [negb]. by puts.
    + puts. rewrite length_be_bytes. by rewrite app_nil_r.
  - intros [time [o|]] old [Ht Ho]; cbn [AbsoluteCaptureTimeExtension.estimated_capture_clock_offset AbsoluteCaptureTimeExtension.absolute_capture_timestamp] in *.
    + rewrite length_app, !length_be_bytes. cbn [Nat.add Z.of_nat Z.eqb negb andb].
      rewrite read_be_app_here by done. cbn [mbind option_bind].
      rewrite read_be_signed_app_skip, length_be_bytes, <- (app_nil_r (be_bytes 8 (uw 64 o))) by lengths.
      rewrite read_be_signed_here by (done || lia || by apply Ho). done.
    + rewrite app_nil_r, length_be_bytes. cbn [Z.of_nat Z.eqb negb andb].
      rewrite unsigned_read by done. done.
  - intros d old Hb _. destruct (Z.eqb_spec (zlen d) 16), (Z.eqb_spec (zlen d) 8); cbn [negb andb]; try done; try lia; by reads_total.
Qed.

Lemma flag_octet (b : bool) (l : Z) : 0 <= l < 128 -> let d := Z.lor (if b then 0x80 else 0) l in
  is_u8 d /\ negb (Z.land d 0x80 =? 0) = b /\ Z.land d 0x7F = l.
Proof.
  intros Hl d. assert (E : d = (if b then 128 else 0) + l).
  { unfold d. destruct b; [|done]. change 128 with (1 * 2 ^ 7). by apply lor_shift_add. }
  assert (Ht : (Z.land d 0x80 =? 0) = (d <? 128)) by (apply (land_top 7); [done|rewrite E; destruct b; lia]).
  rewrite Ht, (land_mask 7) by done. change (2 ^ 7) with 128. unfold is_u8. rewrite E.
  destruct b; [rewrite (proj2 (Z.ltb_ge _ _)) by lia|rewrite (proj2 (Z.ltb_lt _ _)) by lia]; splits; done || dlia.
Qed.

Lemma AudioLevel_laws : extension_laws AudioLevel.ext (fun v => 0 <= snd v < 128)
  (fun v => [Z.lor (if fst v : bool then 0x80 else 0) (snd v)]) (fun _ v => v).
Proof.
  constructor; cbn [AudioLevel.ext kId value ValueSize Write Parse];
    unfold AudioLevel.Write, AudioLevel.Parse, AudioLevel.ValueSize, AudioLevel.kValueSizeBytes.
  - done.
  - done.
  - intros [b l] Hl. by apply bytes_one, flag_octet.
  - intros [b l] d Hl Hd. cbn [fst snd] in *. checks. by puts.
  - intros [b l] old Hl. cbn [fst snd] in *. destruct (flag_octet b l Hl) as (_ & H1 & H2).
    cbn [length Z.of_nat Pos.of_succ_nat Z.eqb Pos.eqb negb]. rewrite peek_app_here. cbn [mbind option_bind]. by rewrite H1, H2.
  - intros d old Hb _. destruct (Z.eqb_spec (zlen d) 1); [|done]. cbn [negb]. by reads_total.
Qed.

Lemma CsrcAudioLevel_laws `{RtpCsrcSizeLaws} : extension_laws CsrcAudioLevel.ext (fun v => zlen v <= kRtpCsrcSize)
  (map (fun level => Z.land level 0x7F)) (fun _ v => map (fun level => Z.land level 0x7F) v).
Proof.
  pose proof kRtpCsrcSize_pos as Hmax.
  constructor; cbn [CsrcAudioLevel.ext kId value ValueSize Write Parse];
    unfold CsrcAudioLevel.Write, CsrcAudioLevel.Parse, CsrcAudioLevel.ValueSize.
  - done.
  - intros v _. lengths.
  - intros v _. apply List.Forall_map, Forall_true. intros x. rewrite (land_mask 7) by done. change (2 ^ 7) with 128.
    unfold is_u8. dlia.
  - intros v d Hv Hd. checks. rewrite (proj2 (Z.eqb_eq _ _)) by lia. cbn [negb]. by puts.
  - intros v old Hv. rewrite length_map, Z.gtb_ltb, (proj2 (Z.ltb_ge _ _)), map_map by lia. do 2 f_equal. apply map_ext.
    intros x. rewrite !(land_mask 7) by done. by rewrite Z.mod_mod.
  - intros d old _ _. by destruct (_ >? _).
Qed.

Lemma TransmissionOffset_laws :
  extension_laws TransmissionOffset.ext (fun v => - 2 ^ 23 <= v < 2 ^ 23) (fun v => be_bytes 3 (uw 32 v)) (fun _ v => v).
Proof.
  constructor; cbn [TransmissionOffset.ext kId value ValueSize Write Parse];
    unfold TransmissionOffset.Write, TransmissionOffset.Parse, TransmissionOffset.ValueSize, TransmissionOffset.kValueSizeBytes.
  - done.
  - intros v _. lengths.
  - intros v _. apply be_bytes_is_bytes.
  - intros v d Hv Hd. checks. by puts.
  - intros v old Hv. rewrite length_be_bytes. cbn [Z.of_nat Z.eqb negb]. rewrite <- (app_nil_r (be_bytes 3 _)).
    by rewrite read_be_signed_here by (done || lia).
  - intros d old Hb _. destruct (Z.eqb_spec (zlen d) 3); [|done]. cbn [negb]. by reads_total.
Qed.

Lemma request_octets (b : bool) (n : Z) : 0 <= n < 32768 -> let r := Z.lor n (if b then 32768 else 0) in
  is_u16 r /\ u16 r = r /\ negb (Z.land r 32768 =? 0) = b /\ u16 (Z.land r (Z.lnot 32768)) = n.
Proof.
  intros Hn r. assert (E : r = (if b then 32768 else 0) + n).
  { unfold r. rewrite Z.lor_comm. destruct b; [|done]. change 32768 with (1 * 2 ^ 15). by apply lor_shift_add. }
  assert (Hr : is_u16 r) by (unfold is_u16; rewrite E; destruct b; lia). split; [done|]. split; [by apply u16_id|].
  assert (Ht : (Z.land r 32768 =? 0) = (r <? 32768)) by (apply (land_top 15); [done|]; unfold is_u16 in Hr; lia).
  rewrite Ht, E. destruct b.
  - rewrite (proj2 (Z.ltb_ge _ _)) by lia. split; [done|]. assert (Hc : Z.land r (Z.lnot 32768) = r - 32768)
      by (apply (clear_top 15); [done|]; change (2 ^ 15) with 32768; lia).
    rewrite <- E, Hc. unfold u16. rewrite E. dlia.
  - rewrite (proj2 (Z.ltb_lt _ _)) by lia. split; [done|]. rewrite <- E, <- Z.ldiff_land.
    assert (Hz : Z.land r 32768 = 0) by (apply Z.eqb_eq; rewrite Ht; apply Z.ltb_lt; lia).
    replace (Z.ldiff r 32768) with r; [rewrite E; apply u16_id; unfold is_u16; lia|].
    symmetry. apply Z.bits_inj'. intros i Hi. rewrite Z.ldiff_spec. apply (f_equal (fun z => Z.testbit z i)) in Hz.
    rewrite Z.land_spec, Z.bits_0 in Hz. destruct (Z.testbit r i), (Z.testbit 32768 i); done.
Qed.

Lemma TransportSequenceNumberV2_laws : extension_laws TransportSequenceNumberV2.ext
  (fun v => is_u16 (fst v)
     /\ forall r, snd v = Some r -> 1 <= TransportSequenceNumberV2.sequence_count r < 2 ^ 15)
  (fun v => be_bytes 2 (fst v) ++ match snd v with
     | Some r => be_bytes 2 (Z.lor (TransportSequenceNumberV2.sequence_count r)
                   (if TransportSequenceNumberV2.include_timestamps r then 2 ^ 15 else 0))
     | None => [] end)
  (fun _ v => v).
Proof.
  constructor; cbn [TransportSequenceNumberV2.ext kId value ValueSize Write Parse];
    unfold TransportSequenceNumberV2.Write, TransportSequenceNumberV2.Parse, TransportSequenceNumberV2.ValueSize,
      TransportSequenceNumberV2.kValueSizeBytes, TransportSequenceNumberV2.kValueSizeBytesWithoutFeedbackRequest,
      TransportSequenceNumberV2.kIncludeTimestampsBit; change (Z.shiftl 1 15) with 32768; change (2 ^ 15) with 32768.
  - done.
  - intros [n [r|]] _; cbn; done.
  - intros [n [r|]] _; cbn [snd]; rewrite ?app_nil_r; apply list.Forall_app_2 || idtac; apply be_bytes_is_bytes.
  - intros [n [r|]] d [Hn Hr] Hd; cbn [fst snd] in *; checks.
    + specialize (Hr r eq_refl). puts. rewrite (proj2 (Z.geb_le _ _)), (proj2 (Z.ltb_lt _ _)) by lia. cbn [check mbind option_bind].
      destruct (request_octets (TransportSequenceNumberV2.include_timestamps r) (TransportSequenceNumberV2.sequence_count r))
        as (_ & -> & _); [lia|]. by puts.
    + puts. by rewrite app_nil_r.
  - intros [n [[b c]|]] old [Hn Hr]; cbn [fst snd TransportSequenceNumberV2.include_timestamps TransportSequenceNumberV2.sequence_count] in *.
    + specialize (Hr _ eq_refl). cbn in Hr. destruct (request_octets b c) as (H1 & H2 & H3 & H4); [lia|].
      rewrite length_app, !length_be_bytes. change (Z.of_nat (2 + 2)) with 4. cbn [Z.eqb Pos.eqb negb andb].
      rewrite read_be_app_here by done. cbn [mbind option_bind].
      rewrite read_be_app_skip, length_be_bytes by lengths. rewrite unsigned_read by done. cbn [mbind option_bind].
      cbv zeta. rewrite H3, H4, (proj2 (Z.eqb_neq _ _)) by lia. done.
    + rewrite app_nil_r, length_be_bytes. cbn [Z.of_nat Z.eqb negb andb]. by rewrite unsigned_read.
  - intros d old Hb _. destruct (Z.eqb_spec (zlen d) 4), (Z.eqb_spec (zlen d) 2); cbn [negb andb]; try done; try lia; by reads_total.
Qed.

(** An extension that is one octet. *)
Ltac octet_laws n :=
  constructor; cbn [kId value ValueSize Write Parse];
    [done
    |done
    |intros v Hv; apply bytes_one
    |intros v d Hv Hd; unfold n in *; checks; by puts
    |intros v old Hv; cbn [length Z.of_nat Pos.of_succ_nat Z.eqb Pos.eqb negb]; rewrite peek_app_here; cbn [mbind option_bind]
    |intros d old Hb _; destruct (Z.eqb_spec (zlen d) 1) as [Hn|]; [|done]; cbn [negb]; reads_total].

Lemma VideoOrientation_laws `{VideoRotationLaws} : extension_laws VideoOrientation.ext (fun _ => True)
  (fun r => [ConvertVideoRotationToCVOByte r]) (fun _ r => r).
Proof.
  unfold VideoOrientation.ext, VideoOrientation.Write, VideoOrientation.Parse, VideoOrientation.ValueSize.
  octet_laws VideoOrientation.kValueSizeBytes; [apply cvo_octet|by rewrite cvo_inverse|done].
Qed.

Lemma VideoOrientationOctet_laws :
  extension_laws VideoOrientation.ext_octet is_u8 (fun v => [v]) (fun _ v => v).
Proof.
  unfold VideoOrientation.ext_octet, VideoOrientation.WriteOctet, VideoOrientation.ParseOctet, VideoOrientation.ValueSizeOctet.
  octet_laws VideoOrientation.kValueSizeBytes; done.
Qed.

Lemma VideoContentType_laws `{ContentTypeLaws} : extension_laws VideoContentTypeExtension.ext (fun _ => True)
  (fun c => [content_type_octet c]) (fun _ c => c).
Proof.
  unfold VideoContentTypeExtension.ext, VideoContentTypeExtension.Write, VideoContentTypeExtension.Parse,
    VideoContentTypeExtension.ValueSize.
  octet_laws VideoContentTypeExtension.kValueSizeBytes; [apply content_type_u8|by rewrite content_type_valid, content_type_inverse|].
  by destruct (IsValidContentType _).
Qed.

Lemma PlayoutDelay_laws : let lo := PlayoutDelayLimits.min_ms in let hi := PlayoutDelayLimits.max_ms in
  extension_laws PlayoutDelayLimits.ext (fun v => 0 <= lo v <= hi v /\ hi v <= PlayoutDelayLimits.kMaxMs)
    (fun v => be_bytes 3 (lo v / 10 * 4096 + hi v / 10))
    (fun _ v => PlayoutDelayLimits.Mk (lo v / 10 * 10) (hi v / 10 * 10)).
Proof.
  cbv zeta. constructor; cbn [PlayoutDelayLimits.ext kId value ValueSize Write Parse];
    unfold PlayoutDelayLimits.Write, PlayoutDelayLimits.Parse, PlayoutDelayLimits.ValueSize, PlayoutDelayLimits.kValueSizeBytes,
      PlayoutDelayLimits.kGranularityMs; change PlayoutDelayLimits.kMaxMs with 40950.
  - done.
  - intros v _. lengths.
  - intros v _. apply be_bytes_is_bytes.
  - intros [lo hi] d [Hl Hh] Hd. cbn [PlayoutDelayLimits.min_ms PlayoutDelayLimits.max_ms] in *. checks. cbv zeta.
    rewrite !Z.quot_div_nonneg by lia. rewrite (u32_id (lo / 10)), (u32_id (hi / 10)) by (unfold is_u32; dlia).
    rewrite u32_id by (rewrite Z.shiftl_mul_pow2 by done; change (2 ^ 12) with 4096; unfold is_u32; dlia).
    rewrite lor_shiftl_add by (change (2 ^ 12) with 4096; dlia). change (2 ^ 12) with 4096. by puts.
  - intros [lo hi] old [Hl Hh]. cbn [PlayoutDelayLimits.min_ms PlayoutDelayLimits.max_ms] in *.
    rewrite length_be_bytes. cbn [Z.of_nat Pos.of_succ_nat Pos.succ Z.eqb Pos.eqb negb].
    rewrite unsigned_read by (lia || change (256 ^ Z.of_nat 3) with 16777216; dlia). cbn [mbind option_bind].
    rewrite (land_mask 12), Z.shiftr_div_pow2 by done. change (2 ^ 12) with 4096. rewrite Z.gtb_ltb.
    replace ((lo / 10 * 4096 + hi / 10) / 4096) with (lo / 10) by dlia.
    replace ((lo / 10 * 4096 + hi / 10) mod 4096) with (hi / 10) by dlia.
    rewrite !u16_id by (unfold is_u16; dlia). by rewrite (proj2 (Z.ltb_ge _ _)) by dlia.
  - intros d old Hb _. destruct (Z.eqb_spec (zlen d) 3); [|done]. cbn [negb]. reads_total. by destruct (_ >? _).
Qed.

Record timing_ok (t : VideoTimingExtension.t) : Prop := {
  timing_flags : is_u8 (VideoTimingExtension.flags t);
  timing_1 : is_u16 (VideoTimingExtension.encode_start_delta_ms t);
  timing_2 : is_u16 (VideoTimingExtension.encode_finish_delta_ms t);
  timing_3 : is_u16 (VideoTimingExtension.packetization_finish_delta_ms t);
  timing_4 : is_u16 (VideoTimingExtension.pacer_exit_delta_ms t);
  timing_5 : is_u16 (VideoTimingExtension.network_timestamp_delta_ms t);
  timing_6 : is_u16 (VideoTimingExtension.network2_timestamp_delta_ms t)
}.

Ltac timing_fields :=
  cbn [VideoTimingExtension.encode_start_delta_ms VideoTimingExtension.encode_finish_delta_ms
    VideoTimingExtension.packetization_finish_delta_ms VideoTimingExtension.pacer_exit_delta_ms
    VideoTimingExtension.network_timestamp_delta_ms VideoTimingExtension.network2_timestamp_delta_ms
    VideoTimingExtension.flags map concat].

Lemma VideoTiming_laws : extension_laws VideoTimingExtension.ext timing_ok
  (fun t => be_bytes 1 (VideoTimingExtension.flags t) ++ concat (map (be_bytes 2)
     [VideoTimingExtension.encode_start_delta_ms t; VideoTimingExtension.encode_finish_delta_ms t;
      VideoTimingExtension.packetization_finish_delta_ms t; VideoTimingExtension.pacer_exit_delta_ms t;
      VideoTimingExtension.network_timestamp_delta_ms t; VideoTimingExtension.network2_timestamp_delta_ms t]))
  (fun _ t => t).
Proof.
  constructor; cbn [VideoTimingExtension.ext kId value ValueSize Write Parse];
    unfold VideoTimingExtension.Write, VideoTimingExtension.Parse, VideoTimingExtension.ValueSize, VideoTimingExtension.kValueSizeBytes,
      VideoTimingExtension.kFlagsOffset, VideoTimingExtension.kEncodeStartDeltaOffset, VideoTimingExtension.kEncodeFinishDeltaOffset,
      VideoTimingExtension.kPacketizationFinishDeltaOffset, VideoTimingExtension.kPacerExitDeltaOffset,
      VideoTimingExtension.kNetworkTimestampDeltaOffset, VideoTimingExtension.kNetwork2TimestampDeltaOffset.
  - done.
  - done.
  - intros t _. cbn [map concat]. unfold is_bytes. rewrite !list.Forall_app. splits; try apply be_bytes_is_bytes. constructor.
  - intros [a b c d e f g] data _ Hd. timing_fields.
    checks. puts. by rewrite <- !app_assoc, app_nil_r.
  - intros [a b c d e f g] old [H0 H1 H2 H3 H4 H5 H6]. cbn in H0, H1, H2, H3, H4, H5, H6. timing_fields.
    set (data := be_bytes 1 _ ++ _). change (zlen data) with 13.
    change (13 =? 13 - 1) with false. change (13 =? 13) with true. cbn [negb andb].
    assert (E0 : read_u8 data 0 = Some g) by exact (unsigned_read 8 1 g ltac:(lia) H0).
    assert (E1 : read_u16 data 1 = Some a) by exact (unsigned_read 16 2 a ltac:(lia) H1).
    assert (E2 : read_u16 data 3 = Some b) by exact (unsigned_read 16 2 b ltac:(lia) H2).
    assert (E3 : read_u16 data 5 = Some c) by exact (unsigned_read 16 2 c ltac:(lia) H3).
    assert (E4 : read_u16 data 7 = Some d) by exact (unsigned_read 16 2 d ltac:(lia) H4).
    assert (E5 : read_u16 data 9 = Some e) by exact (unsigned_read 16 2 e ltac:(lia) H5).
    assert (E6 : read_u16 data 11 = Some f) by exact (unsigned_read 16 2 f ltac:(lia) H6).
    rewrite E0. cbn [mbind option_bind]. rewrite !Z.sub_0_r.
    by rewrite E1, E2, E3, E4, E5, E6.
  - intros d old Hb _.
    destruct (Z.eqb_spec (zlen d) (13 - 1)); [|destruct (Z.eqb_spec (zlen d) 13)]; cbn [negb andb mbind option_bind]; try done; by reads_total.
Qed.


Lemma String_laws id : known_type id -> extension_laws (BaseRtpStringExtension.ext id)
  (fun v => is_bytes v /\ 1 <= zlen v <= 16 /\ hd_error v <> Some 0) (fun v => v)
  (fun _ v => BaseRtpStringExtension.strn v).
Proof.
  intros Hid. constructor; cbn [BaseRtpStringExtension.ext kId value ValueSize Write Parse];
    unfold BaseRtpStringExtension.Write, BaseRtpStringExtension.ValueSize, BaseRtpStringExtension.kMaxValueSizeBytes.
  - done.
  - done.
  - by intros v [Hv _].
  - intros v d (Hv & Hl & _) Hd. rewrite Z.gtb_ltb, (proj2 (Z.ltb_ge _ _)) by lia. checks. by puts.
  - intros [|c v] old (_ & Hl & Hc); [cbn in Hl; lia|]. cbn [BaseRtpStringExtension.Parse BaseRtpStringExtension.strn].
    destruct (Z.eqb_spec c 0) as [->|]; [done|]. by rewrite check_then.
  - intros [|c d] old _ Hne; [done|]. cbn [BaseRtpStringExtension.Parse BaseRtpStringExtension.strn].
    destruct (c =? 0); [done|]. by rewrite check_then.
Qed.


(** ** ColorSpaceExtension *)

Ltac open_laws := constructor; cbn [kId value ValueSize Write Parse].

Section color_space.
Import ColorSpaceExtension.
Context {api : ColorSpaceApi} (Validate : HdrMetadata -> bool).

(** The 16-bit integers that stand for the metadata. *)
Definition scaled_point (p : Chromaticity) : list Z :=
  [float_round (float_mul (x p) kChromaticityDenominator); float_round (float_mul (y p) kChromaticityDenominator)].

Definition scaled (h : HdrMetadata) : list Z :=
  [float_round (float_mul (luminance_max h) kLuminanceMaxDenominator);
   float_round (float_mul (luminance_min h) kLuminanceMinDenominator)]
  ++ scaled_point (primary_r h) ++ scaled_point (primary_g h) ++ scaled_point (primary_b h) ++ scaled_point (white_point h)
  ++ [max_content_light_level h; max_frame_average_light_level h].

(** The metadata that they stand for. *)
Definition unscale (f : float) (d : Z) : float := float_div (float_of_int (float_round (float_mul f d))) d.

Definition rounded_point (p : Chromaticity) : Chromaticity :=
  Point (unscale (x p) kChromaticityDenominator) (unscale (y p) kChromaticityDenominator).

Definition rounded (h : HdrMetadata) : HdrMetadata :=
  Hdr (unscale (luminance_max h) kLuminanceMaxDenominator) (unscale (luminance_min h) kLuminanceMinDenominator)
    (rounded_point (primary_r h)) (rounded_point (primary_g h)) (rounded_point (primary_b h)) (rounded_point (white_point h))
    (max_content_light_level h) (max_frame_average_light_level h).

(** The assertions of WriteLuminance and WriteChromaticity. *)
Definition luminance_ok (f : float) (d : Z) : Prop :=
  float_leb (float_of_int 0) f = true /\ float_leb (float_mul f d) (float_of_int 65535) = true.

Definition point_ok (p : Chromaticity) : Prop :=
  (float_leb (float_of_int 0) (x p) = true /\ float_leb (x p) (float_of_int 1) = true)
  /\ float_leb (float_of_int 0) (y p) = true /\ float_leb (y p) (float_of_int 1) = true.

Record hdr_ok (h : HdrMetadata) : Prop := {
  hdr_valid : Validate h = true;
  hdr_rounded : Validate (rounded h) = true;
  hdr_max : luminance_ok (luminance_max h) kLuminanceMaxDenominator;
  hdr_min : luminance_ok (luminance_min h) kLuminanceMinDenominator;
  hdr_points : point_ok (primary_r h) /\ point_ok (primary_g h) /\ point_ok (primary_b h) /\ point_ok (white_point h);
  hdr_words : Forall is_u16 (scaled h)
}.

Record color_ok (c : ColorSpace) : Prop := {
  color_primaries : is_u8 (primaries c) /\ is_primaries (primaries c) = true;
  color_transfer : is_u8 (transfer c) /\ is_transfer (transfer c) = true;
  color_matrix : is_u8 (matrix c) /\ is_matrix (matrix c) = true;
  color_range : 0 <= range c <= 3 /\ is_range (range c) = true;
  color_horizontal : 0 <= chroma_siting_horizontal c <= 3 /\ is_chroma_siting (chroma_siting_horizontal c) = true;
  color_vertical : 0 <= chroma_siting_vertical c <= 3 /\ is_chroma_siting (chroma_siting_vertical c) = true;
  color_hdr : match hdr_metadata c with Some h => hdr_ok h | None => True end
}.

Definition color_octets (c : ColorSpace) : bytes :=
  [primaries c; transfer c; matrix c; range c * 16 + chroma_siting_horizontal c * 4 + chroma_siting_vertical c]
  ++ match hdr_metadata c with Some h => concat (map (be_bytes 2) (scaled h)) | None => [] end.

Definition color_image (c : ColorSpace) : ColorSpace := set_hdr_metadata (option_map rounded (hdr_metadata c)) c.

Lemma combined_octet r h v : 0 <= r <= 3 -> 0 <= h <= 3 -> 0 <= v <= 3 ->
  CombineRangeAndChromaSiting r h v = Some (r * 16 + h * 4 + v)
  /\ Z.land (Z.shiftr (r * 16 + h * 4 + v) 4) 3 = r /\ Z.land (Z.shiftr (r * 16 + h * 4 + v) 2) 3 = h
  /\ Z.land (r * 16 + h * 4 + v) 3 = v.
Proof.
  intros Hr Hh Hv.
  assert (Er : r = 0 \/ r = 1 \/ r = 2 \/ r = 3) by lia. assert (Eh : h = 0 \/ h = 1 \/ h = 2 \/ h = 3) by lia.
  assert (Ev : v = 0 \/ v = 1 \/ v = 2 \/ v = 3) by lia.
  decompose [or] Er; decompose [or] Eh; decompose [or] Ev; by subst.
Qed.

Lemma WriteLuminance_ok data off f d : luminance_ok f d ->
  WriteLuminance data off f d = write_be 2 data off (float_round (float_mul f d)).
Proof. intros [H1 H2]. unfold WriteLuminance. by rewrite !check_then. Qed.

Lemma WriteChromaticity_ok data off p : point_ok p -> WriteChromaticity data off p =
  (data ← write_be 2 data off (float_round (float_mul (x p) kChromaticityDenominator));
   write_be 2 data (off + 2) (float_round (float_mul (y p) kChromaticityDenominator))).
Proof. intros [[H1 H2] [H3 H4]]. unfold WriteChromaticity. by rewrite !check_then. Qed.

Lemma ParseHdrMetadata_scaled h : Forall is_u16 (scaled h) ->
  ParseHdrMetadata (concat (map (be_bytes 2) (scaled h))) = Some (rounded h).
Proof.
  unfold rounded, rounded_point, unscale, scaled, scaled_point. cbn [app].
  repeat match goal with |- context [float_round ?a] => generalize (float_round a); intro end.
  destruct h as [? ? ? ? ? ? m1 m2]. cbn [max_content_light_level max_frame_average_light_level].
  rewrite !list.Forall_cons. intros Hs. decompose [and] Hs. clear Hs.
  set (data := concat _). unfold ParseHdrMetadata, ParseLuminance, ParseChromaticity.
  change (zlen data) with 24. rewrite check_then by done.
  repeat match goal with
    | H : is_u16 ?w |- context [read_u16 data ?off] =>
        let E := fresh in
        assert (E : read_u16 data off = Some w) by exact (unsigned_read 16 2 w ltac:(lia) H);
        rewrite E; clear E; cbn [mbind option_bind]
    end.
  done.
Qed.

Lemma ColorSpace_laws : extension_laws (ext Validate) color_ok color_octets (fun _ => color_image).
Proof.
  unfold ext. open_laws.
  - done.
  - intros c _. unfold color_octets, ValueSize, scaled, scaled_point. by destruct (hdr_metadata c).
  - intros c [[? _] [? _] [? _] [? _] [? _] [? _] Hh]. unfold color_octets. apply list.Forall_app. split.
    + repeat (constructor; [unfold is_u8 in *; lia|]). constructor.
    + destruct (hdr_metadata c); [|constructor]. induction (scaled h) as [|w ws IH]; cbn [map concat]; [constructor|].
      apply list.Forall_app. split; [apply be_bytes_is_bytes|exact IH].
  - intros c d [Hp Ht Hm Hr Hh Hv Hm'] Hd. unfold Write, WriteHdrMetadata, color_octets, ValueSize, kValueSizeBytes, kValueSizeBytesWithoutHdrMetadata in *.
    destruct (combined_octet (range c) (chroma_siting_horizontal c) (chroma_siting_vertical c)) as (-> & _); try easy.
    cbn [mbind option_bind]. checks. destruct (hdr_metadata c) as [h|].
    + destruct Hm' as [Hval _ Hmax Hmin (Hp1 & Hp2 & Hp3 & Hp4) _].
      puts. rewrite check_then by (apply Z.eqb_eq; lengths). rewrite check_then by done.
      rewrite WriteLuminance_ok by done. puts. rewrite WriteLuminance_ok by done. puts.
      do 4 (rewrite WriteChromaticity_ok by done; puts).
      unfold scaled, scaled_point. cbn [app map concat]. by rewrite <- !app_assoc, app_nil_r.
    + by puts.
  - intros c old [Hp Ht Hm Hr Hh Hv Hm']. unfold Parse, color_octets, color_image.
    destruct (combined_octet (range c) (chroma_siting_horizontal c) (chroma_siting_vertical c)) as (_ & Er & Eh & Ev); try easy.
    destruct c as [p t m r h v hdr]. cbn [primaries transfer matrix range chroma_siting_horizontal chroma_siting_vertical hdr_metadata] in *.
    unfold kValueSizeBytes, kValueSizeBytesWithoutHdrMetadata.
    set (o := r * 16 + h * 4 + v) in *. clearbody o. set (tl := match hdr with Some _ => _ | None => _ end).
    change (peek ([p; t; m; o] ++ tl) 0) with (Some p). change (peek ([p; t; m; o] ++ tl) 1) with (Some t).
    change (peek ([p; t; m; o] ++ tl) 2) with (Some m). change (peek ([p; t; m; o] ++ tl) 3) with (Some o).
    change (drop 4 ([p; t; m; o] ++ tl)) with tl. cbn [mbind option_bind].
    rewrite Er, Eh, Ev, (proj2 Hp), (proj2 Ht), (proj2 Hm), (proj2 Hr), (proj2 Hh), (proj2 Hv). subst tl.
    destruct hdr as [hd|]; [|done]. change (zlen _) with 28. cbn [negb andb Z.eqb Pos.eqb].
    destruct Hm' as [_ Hval _ _ _ Hw]. rewrite ParseHdrMetadata_scaled by done. cbn [mbind option_bind]. by rewrite Hval.
  - intros d old Hb _. unfold Parse, kValueSizeBytes, kValueSizeBytesWithoutHdrMetadata.
    destruct (negb _ && negb _) eqn:E; [done|]. assert (Hd : zlen d = 28 \/ zlen d = 4) by lia.
    reads_total.
    repeat match goal with |- is_Some (if negb ?b then _ else _) => destruct b; cbn [negb]; [|done] end. destruct (Z.eqb_spec (zlen d) 4); [done|].
    unfold ParseHdrMetadata, ParseLuminance, ParseChromaticity, kValueSizeBytes, kValueSizeBytesWithoutHdrMetadata.
    assert (Hd' : zlen (drop 4 d) = 24) by (rewrite length_drop; lia). apply (list.Forall_drop _ 4) in Hb. checks.
    reads_total. by destruct (Validate _).
Qed.

End color_space.

(** ** InbandComfortNoiseExtension *)

(** Write sets the top bit for a level and Parse reads that bit as no level, so that a level
    comes back as none, and none as the level zero. *)
Lemma ComfortNoise_laws : extension_laws InbandComfortNoiseExtension.ext
  (fun level => match level with Some l => 0 <= l <= 127 | None => True end)
  (fun level => [match level with Some l => 128 + l | None => 0 end])
  (fun _ level => match level with Some _ => None | None => Some 0 end).
Proof.
  unfold InbandComfortNoiseExtension.ext. open_laws;
    unfold InbandComfortNoiseExtension.Write, InbandComfortNoiseExtension.Parse, InbandComfortNoiseExtension.ValueSize,
      InbandComfortNoiseExtension.kValueSizeBytes.
  - done.
  - done.
  - intros [l|] Hl; apply bytes_one; unfold is_u8; lia.
  - intros [l|] d Hl Hd; checks; puts; [|done]. rewrite Z.gtb_ltb, (proj2 (Z.ltb_ge _ _)) by lia.
    puts. do 2 f_equal. f_equal. change 128 with (Z.shiftl 1 7). rewrite lor_shiftl_add by lia. done.
  - intros [l|] old Hl; [|done]. 
    change (Some (if negb (Z.land (128 + l) 128 =? 0) then None else Some (Z.land (128 + l) 127), true) = Some (None, true)).
    replace (Z.land (128 + l) 128 =? 0) with false; [done|].
    symmetry. apply Z.eqb_neq. intros H. assert (Hb : Z.testbit (Z.land (128 + l) 128) 7 = true); [|by rewrite H in Hb].
    rewrite Z.land_spec. change (Z.testbit 128 7) with true. rewrite andb_true_r, Z.testbit_true by done.
    change (2 ^ 7) with 128. dlia.
  - intros d old Hb _. destruct (Z.eqb_spec (zlen d) 1); [|done]. cbn [negb]. by reads_total.
Qed.

(** ** Extension values in packets *)

Abbreviation ParseExtension := Parse.

Section packets.
Import RtpPacket.
Context {buf : Type} {cow : CowBuffer buf} {cow_laws : CowBufferLaws buf}.
Context {limits : RtpExtension} {limits_laws : RtpExtensionLaws}.
Context {numerics : RtcNumerics} {numerics_laws : RtcNumericsLaws}.
Context (E : extension) (valid : value E -> Prop) (octets : value E -> bytes) (image : value E -> value E -> value E).
Context (laws : extension_laws E valid octets image).

Lemma set_value_member i v exts : (i, v) ∈ set_value i v exts.
Proof.
  induction exts as [|[j w] exts IH]; cbn [set_value fst]; [by left|].
  destruct (j =? i); [by left|by right].
Qed.

(** When SetExtension succeeds, the octets are in the packet, under the registered id. *)
Lemma set_extension_member m cap type v im : wf m -> known_type type -> (set_extension m cap type v im).2 = true ->
  exists i, RtpHeaderExtensionMap.GetId m type = Some i /\ i <> RtpHeaderExtensionMap.kInvalidId /\ 1 <= zlen v
    /\ (i, v) ∈ im_extensions (set_extension m cap type v im).1.
Proof.
  intros Hm Ht. unfold set_extension. destruct (extension_slot_spec m type (zlen v) Hm Ht) as (slot & Es & Hslot); [lia|].
  rewrite Es. destruct slot as [i|]; [|done]. destruct (Hslot i eq_refl) as (_ & Hl & _).
  destruct (alloc_view _ _ _ _); [|done]. intros _. exists i.
  unfold extension_slot in Es. destruct (_ || _); [done|].
  destruct (RtpHeaderExtensionMap.GetId m type) as [j|]; [|done]. cbn [mbind option_bind] in Es.
  destruct (Z.eqb_spec j RtpHeaderExtensionMap.kInvalidId); [done|]. destruct (_ && _); [done|]. injection Es as ->.
  split; [done|]. split; [done|]. split; [lia|]. cbn [fst im_set_extension im_set_extensions im_extensions].
  apply set_value_member.
Qed.

(** GetExtension gives what Parse makes of the octets under the id. *)
Lemma GetExtension_reads p im type i v old : reads p im -> RtpHeaderExtensionMap.GetId (extensions_ p) type = Some i ->
  i <> RtpHeaderExtensionMap.kInvalidId -> 1 <= zlen v -> (i, v) ∈ im_extensions im ->
  GetExtension type (ParseExtension E) old p = ParseExtension E v old.
Proof.
  intros Hr Hi Hne Hl Hin. destruct (reads_extension _ _ Hr i v Hin) as (e & He & Hlen & Hv).
  unfold GetExtension, FindExtension. rewrite Hi. cbn [mbind option_bind]. rewrite (proj2 (Z.eqb_neq _ _)) by done.
  rewrite He. cbn [mbind option_bind]. rewrite (proj2 (Z.eqb_neq _ _)) by lia. by rewrite Hv.
Qed.

(** C14. For every extension class that keeps the contract of its Parse, ValueSize and Write, on
    a packet object that represents an abstract packet, with a well-formed registry and a buffer
    whose capacity is a multiple of 4 and at most 65535 (for others see the finding
    allocation_overruns_buffer): setting a value that the contract calls valid succeeds exactly
    when the extension is registered and there is room, and stores the value's octets as the
    abstract packet says; when it succeeds, getting the extension from the packet, and from the
    packet that any object with the same registry parses from its octets, returns the value that
    the octets stand for, whatever the object it is read into held. *)
Theorem extension_values p im v (q : t buf) : represents p im -> wf (extensions_ p) -> buffer_fits p -> valid v ->
  exists p' ok im', set_extension (extensions_ p) (capacity p) (kId E) (octets v) im = (im', ok)
  /\ SetExtension (kId E) (ValueSize E v) (fun data => Write E data v) p = Some (p', ok)
  /\ represents p' im'
  /\ exists q', RtpPacket.Parse (cow_data (buffer_ p')) (size p') q = Some (q', true)
  /\ (ok = true -> forall old, GetExtension (kId E) (ParseExtension E) old p' = Some (image old v, true)
      /\ (extensions_ q = extensions_ p -> GetExtension (kId E) (ParseExtension E) old q' = Some (image old v, true))).
Proof.
  intros Hr Hm Hfits Hv. rewrite <- (law_size _ _ _ _ laws v Hv).
  destruct (SetExtension_rep p im (kId E) (octets v) (fun data => Write E data v) Hr Hm (law_type _ _ _ _ laws) Hfits
    (law_bytes _ _ _ _ laws v Hv)) as (p' & HS & Hr' & Hc & Hmap).
  { intros d Hd. apply (law_write _ _ _ _ laws); [done|]. by rewrite <- (law_size _ _ _ _ laws v Hv). }
  pose proof (set_extension_member (extensions_ p) (capacity p) (kId E) (octets v) im Hm (law_type _ _ _ _ laws)) as Hin.
  destruct (set_extension _ _ _ _ im) as [im' ok]. cbn [fst snd] in *.
  assert (Hreads := data_reads _ _ (rep_wf _ _ Hr') (rep_shows _ _ Hr') (rep_data _ _ Hr')).
  destruct (Parse_data q _ (rep_wf _ _ Hr')) as (q' & HP & Hreads' & Hq).
  exists p', ok, im'. split; [done|]. split; [done|]. split; [done|]. exists q'.
  rewrite (rep_data _ _ Hr'), (reads_size _ _ Hreads). split; [done|]. intros Hok old.
  destruct (Hin Hok) as (i & Hi & Hne & Hl & Hmem). split.
  - rewrite (GetExtension_reads p' im' (kId E) i (octets v)) by (done || congruence). by apply (law_parse _ _ _ _ laws).
  - intros Heq. rewrite (GetExtension_reads q' im' (kId E) i (octets v)) by (done || congruence). by apply (law_parse _ _ _ _ laws).
Qed.

(** C16. Whatever octets are received by a packet object with room for a fixed header and a
    well-formed registry, getting an extension of a class that keeps the contract from the
    packet that the parser leaves is defined: it reads inside the packet, and the assertions of
    the class hold. *)
Theorem extension_values_safe buffer n (p : t buf) old : is_bytes buffer -> 0 <= n <= zlen buffer ->
  kFixedHeaderSize <= capacity p -> wf (extensions_ p) ->
  exists q ok, RtpPacket.Parse buffer n p = Some (q, ok) /\ is_Some (GetExtension (kId E) (ParseExtension E) old q).
Proof.
  intros Hb Hn Hcap Hm. destruct (Parse_safe buffer n p Hb Hn Hcap) as (q & ok & HP & Hq & Hcase).
  exists q, ok. split; [done|]. unfold GetExtension, FindExtension. rewrite Hq, GetId_spec by (done || exact (law_type _ _ _ _ laws)).
  destruct (lookup_type _ (kId E) Hm (law_type _ _ _ _ laws)) as (i & ->). cbn [mbind option_bind].
  destruct (i =? _); [done|]. destruct (FindExtensionInfo q i) as [e|] eqn:He; [|done]. cbn [mbind option_bind].
  destruct (Z.eqb_spec (length e) 0) as [|Hne]; [done|]. destruct ok.
  - destruct Hcase as [Hl Hd].
    destruct (view_inside q n i e Hl) as (v & Hv & Hbv); [rewrite Hd, length_take; lia| |done|].
    { rewrite Hd. by apply Forall_take. }
    rewrite Hv. cbn [mbind option_bind]. apply (law_total _ _ _ _ laws); [done|]. intros ->. apply load_length in Hv. cbn in Hv.
    pose proof Hl as [_ _ _ _ [H5 _]]. apply find_some in He as [He%list_elem_of_In _]. rewrite list.Forall_forall in H5.
    destruct (H5 e He) as (_ & Hlen & _). unfold is_u8 in Hlen. lia.
  - assert (Hr := data_reads _ _ (rep_wf _ _ Hcase) (rep_shows _ _ Hcase) (rep_data _ _ Hcase)).
    rewrite (reads_absent _ _ Hr i) in He by (apply not_elem_of_nil). done.
Qed.

End packets.

(** ** The classes together *)

Section classes.
Context `{csrcs : RtpCsrcSizeLaws} `{rotations : VideoRotationLaws} `{content : ContentTypeLaws}.
Context {colors : ColorSpaceApi} (Validate : ColorSpaceExtension.HdrMetadata -> bool).

(** C15. The extension classes keep the contract, each for its valid values: Write fills exactly
    ValueSize octets with the wire form, Parse of that form returns the image of the value, and
    Parse of any octets reads inside them and fails no assertion. Valid are: send times of 24
    bits; capture times and offsets of 64 bits; levels below 128 (CSRC: at most 15 levels, cut
    to 7 bits); 24-bit offsets; sequence numbers of 16 bits, with a request of 1 to 2^15 - 1
    packets; playout delays 0 <= min <= max <= kMaxMs; timings of 16 bits; strings of 1 to 16
    octets, the first not 0; colours of known enumerators whose metadata passes Validate and the
    assertions of Write, also when rounded. The image is the value but for: delays rounded down
    to 10 ms, metadata rounded to the 16-bit scales, strings cut at their first 0, a capture
    time without an offset, which keeps that of the object, and the comfort noise level, where
    the code is wrong (a finding): a level comes back as none and none as level 0. *)
Theorem extension_classes :
  extension_laws AbsoluteSendTime.ext (fun v => 0 <= v < 2 ^ 24) (be_bytes 3) (fun _ v => v)
  /\ extension_laws AbsoluteCaptureTimeExtension.ext
    (fun v => is_u64 (AbsoluteCaptureTimeExtension.absolute_capture_timestamp v)
       /\ forall o, AbsoluteCaptureTimeExtension.estimated_capture_clock_offset v = Some o -> - 2 ^ 63 <= o < 2 ^ 63)
    (fun v => be_bytes 8 (AbsoluteCaptureTimeExtension.absolute_capture_timestamp v)
       ++ match AbsoluteCaptureTimeExtension.estimated_capture_clock_offset v with
          | Some o => be_bytes 8 (uw 64 o) | None => [] end)
    (fun old v => AbsoluteCaptureTimeExtension.Mk (AbsoluteCaptureTimeExtension.absolute_capture_timestamp v)
       (match AbsoluteCaptureTimeExtension.estimated_capture_clock_offset v with
        | Some o => Some o | None => AbsoluteCaptureTimeExtension.estimated_capture_clock_offset old end))
  /\ extension_laws AudioLevel.ext (fun v => 0 <= snd v < 128)
    (fun v => [Z.lor (if fst v : bool then 0x80 else 0) (snd v)]) (fun _ v => v)
  /\ extension_laws CsrcAudioLevel.ext (fun v => zlen v <= kRtpCsrcSize)
    (map (fun level => Z.land level 0x7F)) (fun _ v => map (fun level => Z.land level 0x7F) v)
  /\ extension_laws TransmissionOffset.ext (fun v => - 2 ^ 23 <= v < 2 ^ 23) (fun v => be_bytes 3 (uw 32 v)) (fun _ v => v)
  /\ extension_laws TransportSequenceNumber.ext is_u16 (be_bytes 2) (fun _ v => v)
  /\ extension_laws TransportSequenceNumberV2.ext
    (fun v => is_u16 (fst v) /\ forall r, snd v = Some r -> 1 <= TransportSequenceNumberV2.sequence_count r < 2 ^ 15)
    (fun v => be_bytes 2 (fst v) ++ match snd v with
       | Some r => be_bytes 2 (Z.lor (TransportSequenceNumberV2.sequence_count r)
                     (if TransportSequenceNumberV2.include_timestamps r then 2 ^ 15 else 0))
       | None => [] end) (fun _ v => v)
  /\ extension_laws VideoOrientation.ext (fun _ => True) (fun r => [ConvertVideoRotationToCVOByte r]) (fun _ r => r)
  /\ extension_laws VideoOrientation.ext_octet is_u8 (fun v => [v]) (fun _ v => v)
  /\ extension_laws PlayoutDelayLimits.ext
    (fun v => 0 <= PlayoutDelayLimits.min_ms v <= PlayoutDelayLimits.max_ms v
       /\ PlayoutDelayLimits.max_ms v <= PlayoutDelayLimits.kMaxMs)
    (fun v => be_bytes 3 (PlayoutDelayLimits.min_ms v / 10 * 4096 + PlayoutDelayLimits.max_ms v / 10))
    (fun _ v => PlayoutDelayLimits.Mk (PlayoutDelayLimits.min_ms v / 10 * 10) (PlayoutDelayLimits.max_ms v / 10 * 10))
  /\ extension_laws VideoContentTypeExtension.ext (fun _ => True) (fun c => [content_type_octet c]) (fun _ c => c)
  /\ extension_laws VideoTimingExtension.ext timing_ok
    (fun t => be_bytes 1 (VideoTimingExtension.flags t) ++ concat (map (be_bytes 2)
       [VideoTimingExtension.encode_start_delta_ms t; VideoTimingExtension.encode_finish_delta_ms t;
        VideoTimingExtension.packetization_finish_delta_ms t; VideoTimingExtension.pacer_exit_delta_ms t;
        VideoTimingExtension.network_timestamp_delta_ms t; VideoTimingExtension.network2_timestamp_delta_ms t]))
    (fun _ t => t)
  /\ (forall id, id ∈ [kRtpExtensionRtpStreamId; kRtpExtensionRepairedRtpStreamId; kRtpExtensionMid] ->
      extension_laws (BaseRtpStringExtension.ext id)
        (fun v => is_bytes v /\ 1 <= zlen v <= 16 /\ hd_error v <> Some 0) (fun v => v)
        (fun _ v => BaseRtpStringExtension.strn v))
  /\ extension_laws VideoFrameTrackingIdExtension.ext is_u16 (be_bytes 2) (fun _ v => v)
  /\ extension_laws (ColorSpaceExtension.ext Validate) (color_ok Validate) color_octets (fun _ => color_image)
  /\ extension_laws InbandComfortNoiseExtension.ext (fun level => match level with Some l => 0 <= l <= 127 | None => True end)
    (fun level => [match level with Some l => 128 + l | None => 0 end])
    (fun _ level => match level with Some _ => None | None => Some 0 end).
Proof.
  split; [exact AbsoluteSendTime_laws|]. split; [exact AbsoluteCaptureTime_laws|]. split; [exact AudioLevel_laws|].
  split; [exact CsrcAudioLevel_laws|]. split; [exact TransmissionOffset_laws|]. split; [exact TransportSequenceNumber_laws|].
  split; [exact TransportSequenceNumberV2_laws|]. split; [exact VideoOrientation_laws|].
  split; [exact VideoOrientationOctet_laws|]. split; [exact PlayoutDelay_laws|]. split; [exact VideoContentType_laws|].
  split; [exact VideoTiming_laws|]. split; [|split; [exact VideoFrameTrackingId_laws|split; [exact (ColorSpace_laws Validate)|exact ComfortNoise_laws]]].
  intros id [->|[->|[->|Hn%elem_of_nil]%elem_of_cons]%elem_of_cons]%elem_of_cons; [..|done]; by apply String_laws.
Qed.

End classes.

(** ** Concrete values *)

(** Rational numbers for floats, and the enumerators up to 10. *)
#[global] Instance rational_colors : ColorSpaceApi | 100 := {|
  is_primaries v := v <=? 10; is_transfer v := v <=? 10; is_matrix v := v <=? 10;
  is_range v := v <=? 3; is_chroma_siting v := v <=? 2;
  float := QArith_base.Q; float_of_int := QArith_base.inject_Z;
  float_div q d := QArith_base.Qdiv q (QArith_base.inject_Z d); float_mul q d := QArith_base.Qmult q (QArith_base.inject_Z d);
  float_round q := Qround.Qfloor (QArith_base.Qplus q (QArith_base.Qmake 1 2)); float_leb := QArith_base.Qle_bool
|}.

Lemma extension_classes_witness :
  Write AbsoluteSendTime.ext [0; 0; 0] 0x123456 = Some ([0x12; 0x34; 0x56], true)
  /\ Parse AbsoluteSendTime.ext [0x12; 0x34; 0x56] 0 = Some (0x123456, true).
Proof.
  destruct (extension_classes (csrcs := rfc3550_csrcs_laws) (rotations := quarter_turns_laws)
    (content := two_content_types_laws) (fun _ => true)) as (H & _).
  split; [by apply (law_write _ _ _ _ H)|by apply (law_parse _ _ _ _ H 0x123456)].
Defined.

(** An audio level is set, sent, and read into an object that held another one. *)
Lemma extension_values_witness : exists p p' q' : RtpPacket.t plain_buffer,
  RtpPacket.new sample_map sample_capacity = Some p
  /\ RtpPacket.SetExtension kRtpExtensionAudioLevel 1 (fun data => AudioLevel.Write data (true, 5)) p = Some (p', true)
  /\ RtpPacket.Parse (RtpPacket.cow_data (RtpPacket.buffer_ p')) (RtpPacket.size p') p = Some (q', true)
  /\ RtpPacket.GetExtension kRtpExtensionAudioLevel AudioLevel.Parse (false, 9) q' = Some ((true, 5), true).
Proof.
  destruct (new_rep (buf := plain_buffer) sample_map sample_capacity) as (p & Hnew & Hr & Hc & Hm); [done|].
  destruct (extension_values _ _ _ _ AudioLevel_laws p empty_image (true, 5) p Hr)
    as (p' & ok & im' & Hset & HS & _ & q' & HP & Hget).
  - rewrite Hm. exact sample_map_wf.
  - split; rewrite Hc; done.
  - done.
  - rewrite Hm, Hc in Hset. injection Hset as _ Hok. subst ok.
    exists p, p', q'. split; [done|]. split; [exact HS|]. split; [exact HP|]. by apply (Hget eq_refl).
Defined.

(** The one-byte block that ends in the middle of an extension. *)
Lemma extension_values_safe_witness : exists p q : RtpPacket.t plain_buffer,
  RtpPacket.new sample_map sample_capacity = Some p
  /\ RtpPacket.Parse truncated_extension 23 p = Some (q, true)
  /\ is_Some (RtpPacket.GetExtension kRtpExtensionAudioLevel AudioLevel.Parse (true, 9) q).
Proof.
  destruct (new_rep (buf := plain_buffer) sample_map sample_capacity) as (p & Hnew & Hr & Hc & Hm); [done|].
  destruct (extension_values_safe _ _ _ _ AudioLevel_laws truncated_extension 23 p (true, 9)) as (q & ok & HP & Hget).
  - by repeat constructor.
  - done.
  - by rewrite Hc.
  - rewrite Hm. exact sample_map_wf.
  - exists p, q. split; [done|]. split; [|exact Hget]. rewrite HP. injection Hnew as <-. vm_compute in HP. by injection HP as <- <-.
Defined.
