(* ===== verification/RtpFormat.v ===== *)
(** * Splitting frames into packets: rtp_rtcp/source/rtp_format.{h,cc}

    SplitAboutEqually with its int arithmetic, its specification, and what the packetizers
    share: a packetizer's NextPacket fills the payload of one RTP packet ([fills]), and a
    frame is the run of NextPacket over as many packets as NumPackets announces. *)

From S2P Require Import Prelude.
From S2P Require Import ByteIo.
From S2P Require Import Buffers.
From S2P Require Import RtcpCore.
From S2P Require Import RtpExtensionMap.
From S2P Require Import RtpPacket.
From S2P Require Import RtpPacketBuild.
From S2P Require Import RtpPacketOps.

(** ** int *)

(** The result of an operation on ints; overflow is undefined. *)
Definition int (x : Z) : option Z := if (-2147483648 <=? x) && (x <=? 2147483647) then Some x else None.

Lemma int_ok x : -2147483648 <= x <= 2147483647 -> int x = Some x.
Proof. intros. unfold int. by rewrite (proj2 (Z.leb_le _ _)), (proj2 (Z.leb_le _ _)) by lia. Qed.

(** ** SplitAboutEqually *)

Module RtpPacketizer.

Record PayloadSizeLimits := Limits {
  max_payload_len : Z;
  first_packet_reduction_len : Z;
  last_packet_reduction_len : Z;
  single_packet_reduction_len : Z
}.

(** The loop; each round takes at least one octet. *)
Fixpoint split_loop (fuel : nat) (limits : PayloadSizeLimits) (num_larger_packets num_packets_left bytes_per_packet : Z)
    (first_packet : bool) (remaining_data : Z) : option (list Z) :=
  if remaining_data >? 0 then
    match fuel with
    | O => None
    | S fuel =>
        bytes_per_packet ← (if num_packets_left =? num_larger_packets then int (bytes_per_packet + 1)
                            else Some bytes_per_packet);
        current_packet_bytes ←
          (if first_packet then
             least ← int (first_packet_reduction_len limits + 1);
             if bytes_per_packet >? least then int (bytes_per_packet - first_packet_reduction_len limits) else Some 1
           else Some bytes_per_packet);
        let current_packet_bytes :=
          if current_packet_bytes >? remaining_data then remaining_data else current_packet_bytes in
        let current_packet_bytes :=
          if (num_packets_left =? 2) && (current_packet_bytes =? remaining_data)
          then current_packet_bytes - 1 else current_packet_bytes in
        remaining_data ← int (remaining_data - current_packet_bytes);
        num_packets_left ← int (num_packets_left - 1);
        result ← split_loop fuel limits num_larger_packets num_packets_left bytes_per_packet false remaining_data;
        Some (current_packet_bytes :: result)
    end
  else Some [].

Definition SplitAboutEqually (payload_len : Z) (limits : PayloadSizeLimits) : option (list Z) :=
  check (payload_len >? 0) ;;
  check (first_packet_reduction_len limits >=? 0) ;;
  check (last_packet_reduction_len limits >=? 0) ;;
  single ← int (single_packet_reduction_len limits + payload_len);
  if max_payload_len limits >=? single then Some [payload_len] else
  first ← int (max_payload_len limits - first_packet_reduction_len limits);
  if first <? 1 then Some [] else
  last ← int (max_payload_len limits - last_packet_reduction_len limits);
  if last <? 1 then Some [] else
  total_bytes ← int (payload_len + first_packet_reduction_len limits);
  total_bytes ← int (total_bytes + last_packet_reduction_len limits);
  rounded ← int (total_bytes + max_payload_len limits);
  rounded ← int (rounded - 1);
  let num_packets_left := Z.quot rounded (max_payload_len limits) in
  let num_packets_left := if num_packets_left =? 1 then 2 else num_packets_left in
  if payload_len <? num_packets_left then Some [] else
  let bytes_per_packet := Z.quot total_bytes num_packets_left in
  let num_larger_packets := Z.rem total_bytes num_packets_left in
  split_loop (Z.to_nat payload_len) limits num_larger_packets num_packets_left bytes_per_packet true payload_len.

End RtpPacketizer.

Import RtpPacketizer.

Definition sum_list (l : list Z) : Z := fold_right Z.add 0 l.

Example split_1200 : SplitAboutEqually 3000 (Limits 1200 0 0 0) = Some [1000; 1000; 1000].
Proof. reflexivity. Qed.

Example split_reduced : SplitAboutEqually 11 (Limits 6 2 1 3) = Some [2; 5; 4].
Proof. reflexivity. Qed.

(** ** The loop *)

Section loop.
Context (limits : PayloadSizeLimits) (q r : Z).
#[local] Abbreviation mx := (max_payload_len limits).
#[local] Abbreviation fr := (first_packet_reduction_len limits).
#[local] Abbreviation lr := (last_packet_reduction_len limits).

(** The room that the division gives to the packet that is followed by [k - 1] others, and to
    the last [k] packets together. *)
Definition share (k : Z) : Z := if k <=? r then q + 1 else q.

Definition shares (k : Z) : Z := k * q + Z.min k r.

Context (Hq : 1 <= q) (Hr : 0 <= r) (Hshare : share 1 <= mx) (Hmx : mx <= 2 ^ 30).
Context (Hfr : 0 <= fr) (Hlr : 0 <= lr < mx).

Lemma share_bounds k : q <= share k <= q + 1.
Proof. unfold share. destruct (k <=? r); lia. Qed.

Lemma share_le k : 1 <= k -> share k <= mx.
Proof. revert Hshare. unfold share. destruct (Z.leb_spec 1 r), (Z.leb_spec k r); lia. Qed.

Lemma shares_step k : 1 <= k -> shares k = shares (k - 1) + share k.
Proof. unfold shares, share. destruct (Z.leb_spec k r); lia. Qed.

(** The increment happens when the wider packets begin. *)
Lemma widen k : 1 <= k -> (if k =? r then int (share (k + 1) + 1) else Some (share (k + 1))) = Some (share k).
Proof.
  intros Hk. pose proof (share_le k Hk). unfold share in *. change (2 ^ 30) with 1073741824 in *.
  destruct (Z.eqb_spec k r) as [->|Hne].
  - rewrite (proj2 (Z.leb_gt (r + 1) r)), (proj2 (Z.leb_le r r)) in * by lia. apply int_ok. lia.
  - destruct (Z.leb_spec (k + 1) r), (Z.leb_spec k r); (done || (exfalso; lia)).
Qed.

(** The last packet. *)
Lemma loop_last fuel R b : share 2 = b -> 1 <= R <= share 1 -> (1 <= fuel)%nat ->
  split_loop fuel limits r 1 b false R = Some [R].
Proof.
  intros <- HR Hf. destruct fuel as [|fuel]; [lia|]. pose proof (share_le 1 ltac:(lia)). change (2 ^ 30) with 1073741824 in *.
  cbn [split_loop]. rewrite (proj2 (Z.gtb_lt _ _)) by lia. pose proof (widen 1 ltac:(lia)) as Hw. change (1 + 1) with 2 in Hw.
  rewrite Hw. cbn [mbind option_bind]. change (1 =? 2) with false. cbn [andb]. rewrite Z.gtb_ltb.
  replace (if R <? share 1 then R else share 1) with R by (destruct (Z.ltb_spec R (share 1)); lia).
  rewrite !int_ok by lia. cbn [mbind option_bind]. replace (R - R) with 0 by lia. by destruct fuel; cbn.
Qed.

(** What the last [j] + 2 packets of [R] octets are: the last one within its limit, and the
    ones before the last two as wide as their share. *)
Record rest_of (j : nat) (R : Z) (l : list Z) : Prop := {
  rest_length : length l = (j + 2)%nat;
  rest_sum : sum_list l = R;
  rest_room : Forall (fun x => 1 <= x <= share 1) l;
  rest_last : List.last l 0 <= mx - lr;
  rest_inner : Forall (fun x => q <= x) (take j l)
}.

Lemma loop_two fuel R b : share 3 = b -> 2 <= R -> R <= shares 2 - lr -> (2 <= fuel)%nat ->
  exists l, split_loop fuel limits r 2 b false R = Some l /\ rest_of 0 R l.
Proof.
  intros <- HR Hd Hf. destruct fuel as [|fuel]; [lia|]. pose proof (share_le 2 ltac:(lia)). pose proof (share_le 1 ltac:(lia)).
  pose proof (share_bounds 1). pose proof (share_bounds 2). change (2 ^ 30) with 1073741824 in *.
  assert (H12 : share 2 <= share 1) by (unfold share; destruct (Z.leb_spec 2 r), (Z.leb_spec 1 r); lia).
  assert (Hs : shares 2 = share 1 + share 2)
    by (unfold shares, share; destruct (Z.leb_spec 2 r), (Z.leb_spec 1 r); lia).
  cbn [split_loop]. rewrite (proj2 (Z.gtb_lt _ _)) by lia. pose proof (widen 2 ltac:(lia)) as Hw. change (2 + 1) with 3 in Hw.
  rewrite Hw. cbn [mbind option_bind]. change (2 =? 2) with true. cbn [andb]. rewrite Z.gtb_ltb.
  set (x := if _ =? R then _ else _). assert (Hx : 1 <= x <= share 2 /\ 1 <= R - x <= share 1 /\ R - x <= mx - lr).
  { unfold x. destruct (Z.ltb_spec R (share 2)).
    - rewrite Z.eqb_refl. lia.
    - destruct (Z.eqb_spec (share 2) R); lia. }
  rewrite !int_ok by lia. cbn [mbind option_bind]. change (2 - 1) with 1.
  rewrite loop_last by (done || lia). cbn [mbind option_bind]. eexists. split; [done|]. constructor.
  - done.
  - cbn [sum_list fold_right]. lia.
  - repeat (constructor; [lia|]). constructor.
  - cbn. lia.
  - constructor.
Qed.

Lemma loop_rest j : forall fuel R b, share (Z.of_nat j + 3) = b -> 2 <= R - (shares (Z.of_nat j + 2) - shares 2) ->
  R <= shares (Z.of_nat j + 2) - lr -> (j + 2 <= fuel)%nat -> Z.of_nat j <= 2 ^ 30 -> R <= 2 ^ 30 ->
  exists l, split_loop fuel limits r (Z.of_nat j + 2) b false R = Some l /\ rest_of j R l.
Proof.
  induction j as [|j IH]; intros fuel R b Hb HR Hd Hf Hj HRm; [apply loop_two; [done|change (Z.of_nat 0 + 2) with 2 in HR; lia|done|lia]|].
  destruct fuel as [|fuel]; [lia|]. set (k := Z.of_nat (S j) + 2). subst b.
  pose proof (shares_step k ltac:(lia)) as Hstep. pose proof (share_le k ltac:(lia)). pose proof (share_bounds k).
  change (2 ^ 30) with 1073741824 in *.
  assert (Hmono : shares 2 <= shares (k - 1)) by (unfold shares; nia). fold k in HR, Hd.
  cbn [split_loop]. rewrite (proj2 (Z.gtb_lt _ _)) by lia. pose proof (widen k ltac:(lia)) as Hw.
  replace (k + 1) with (Z.of_nat (S j) + 3) in Hw by lia. rewrite Hw. cbn [mbind option_bind]. rewrite Z.gtb_ltb.
  rewrite (proj2 (Z.ltb_ge _ _)) by lia. rewrite (proj2 (Z.eqb_neq k 2)) by lia. cbn [andb].
  rewrite !int_ok by lia. cbn [mbind option_bind].
  replace (k - 1) with (Z.of_nat j + 2) in * by lia. replace k with (Z.of_nat j + 3) in * by lia.
  destruct (IH fuel (R - share (Z.of_nat j + 3)) _ eq_refl) as (l & -> & [H1 H2 H3 H4 H5]); [lia..|].
  cbn [mbind option_bind]. eexists. split; [done|]. constructor.
  - cbn [length]. lia.
  - unfold sum_list in *. cbn [fold_right]. lia.
  - constructor; [|done]. split; [lia|]. unfold share. destruct (Z.leb_spec (Z.of_nat j + 3) r), (Z.leb_spec 1 r); lia.
  - destruct l; [cbn in H1; lia|exact H4].
  - cbn [take]. constructor; [lia|done].
Qed.

End loop.

(** ** The specification *)

Definition total_length (limits : PayloadSizeLimits) (payload_len : Z) : Z :=
  payload_len + first_packet_reduction_len limits + last_packet_reduction_len limits.

(** The least number of packets with room for the frame, when one is not enough. *)
Definition packets_needed (limits : PayloadSizeLimits) (payload_len : Z) : Z :=
  Z.max 2 ((total_length limits payload_len + max_payload_len limits - 1) / max_payload_len limits).

(** A split into several packets: as few as have room, the first and the last with their
    reduction, and no packet wider than the average rounded up; all but the first and the
    last two are as wide as the average. *)
Record split_ok (limits : PayloadSizeLimits) (payload_len : Z) (l : list Z) : Prop := {
  split_length : zlen l = packets_needed limits payload_len;
  split_sum : sum_list l = payload_len;
  split_widest : Forall (fun x => 1 <= x /\ (x - 1) * packets_needed limits payload_len < total_length limits payload_len) l;
  split_first : List.hd 0 l <= max_payload_len limits - first_packet_reduction_len limits;
  split_last : List.last l 0 <= max_payload_len limits - last_packet_reduction_len limits;
  split_inner : Forall (fun x => total_length limits payload_len < (x + 1) * packets_needed limits payload_len)
    (take (length l - 3) (drop 1 l))
}.

(** Limits whose sums fit an int. *)
Record small_limits (limits : PayloadSizeLimits) : Prop := {
  small_max : - 2 ^ 28 <= max_payload_len limits <= 2 ^ 28;
  small_first : 0 <= first_packet_reduction_len limits <= 2 ^ 28;
  small_last : 0 <= last_packet_reduction_len limits <= 2 ^ 28;
  small_single : 0 <= single_packet_reduction_len limits <= 2 ^ 28
}.

(** With [n] packets the inner ones have room for the reductions. *)
Lemma room_for_two mx n q r : 3 <= n -> 1 <= mx -> 0 <= r < n -> mx * (n - 1) < q * n + r -> mx + 1 <= 2 * q + Z.min 2 r.
Proof.
  intros Hn Hm Hr Ht. destruct (Z.min_spec 2 r) as [[? ->]|[? ->]]; [nia|].
  assert (r = 0 \/ r = 1 \/ r = 2) as [->|[->| ->]] by lia; nia.
Qed.

Lemma room_for_three mx n q r : 4 <= n -> 1 <= mx -> 0 <= r < n -> mx * (n - 1) < q * n + r -> 2 * mx + 1 <= 3 * q + Z.min 2 r.
Proof.
  intros Hn Hm Hr Ht. destruct (Z.min_spec 2 r) as [[? ->]|[? ->]]; [nia|].
  assert (r = 0 \/ r = 1 \/ r = 2) as [->|[->| ->]] by lia; nia.
Qed.

(** The first packet and the rest, for [n] packets. *)
Section first.
Context (limits : PayloadSizeLimits) (payload n q r : Z).
#[local] Abbreviation mx := (max_payload_len limits).
#[local] Abbreviation fr := (first_packet_reduction_len limits).
#[local] Abbreviation lr := (last_packet_reduction_len limits).
Context (Hsmall : small_limits limits) (Hfirst : fr < mx) (Hlast : lr < mx).
Context (Hn : 2 <= n <= payload) (Hp : payload <= 2 ^ 28).
Context (Htotal : payload + fr + lr = q * n + r) (Hr : 0 <= r < n) (Hroom : payload + fr + lr <= mx * n).
Context (Hleast : 3 <= n -> mx * (n - 1) < payload + fr + lr).

Definition first_of : Z := if q >? fr + 1 then q - fr else 1.

Lemma quotient_pos : 1 <= q.
Proof. destruct Hsmall as [? [] [] ?]. nia. Qed.

Lemma share_max : share q r 1 <= mx.
Proof. unfold share. destruct (Z.leb_spec 1 r); nia. Qed.

Lemma first_step fuel : (Z.to_nat n <= fuel)%nat -> exists c l, split_loop fuel limits r n q true payload = Some (c :: l)
  /\ 1 <= c <= first_of /\ sum_list (c :: l) = payload /\ zlen l = n - 1 /\ Forall (fun x => 1 <= x <= share q r 1) l
  /\ List.last l 0 <= mx - lr /\ Forall (fun x => q <= x) (take (length l - 2) l).
Proof.
  intros Hf. pose proof quotient_pos as Hq. pose proof share_max as Hs1. pose proof Hsmall as [Hmx [Hfr0 Hfr] [Hlr0 Hlr] _].
  destruct fuel as [|fuel]; [lia|]. change (2 ^ 28) with 268435456 in *.
  assert (Hqm : q <= mx) by (revert Hs1; unfold share; destruct (Z.leb_spec 1 r); lia).
  cbn [split_loop]. rewrite (proj2 (Z.gtb_lt _ _)) by lia. rewrite (proj2 (Z.eqb_neq n r)) by lia.
  cbn [mbind option_bind]. rewrite (int_ok (fr + 1)) by lia. cbn [mbind option_bind].
  replace (if q >? fr + 1 then int (q - fr) else Some 1) with (Some first_of)
    by (unfold first_of; rewrite Z.gtb_ltb; destruct (Z.ltb_spec (fr + 1) q); [by rewrite int_ok by lia|done]).
  cbn [mbind option_bind].
  assert (Hc : 1 <= first_of <= mx - fr /\ (first_of = 1 /\ q <= fr + 1 \/ first_of = q - fr))
    by (unfold first_of; rewrite Z.gtb_ltb; destruct (Z.ltb_spec (fr + 1) q); lia).
  rewrite Z.gtb_ltb. destruct (Z.eqb_spec n 2) as [->|Hn2].
  - set (c := if (true && _) : bool then _ else _).
    assert (Hs2 : share q r 2 = q) by (unfold share; rewrite (proj2 (Z.leb_gt _ _)) by lia; done).
    assert (Hs : share q r 1 = q + r) by (unfold share; destruct (Z.leb_spec 1 r); lia).
    assert (HR : 1 <= c <= first_of /\ 1 <= payload - c <= q + r /\ payload - c <= mx - lr).
    { unfold c. cbn [andb]. destruct (Z.ltb_spec payload first_of); [rewrite Z.eqb_refl; lia|].
      destruct (Z.eqb_spec first_of payload); lia. }
    rewrite !int_ok by lia. cbn [mbind option_bind]. change (2 - 1) with 1.
    rewrite (loop_last limits q r) by (done || lia). cbn [mbind option_bind]. exists c, [payload - c].
    splits; try done; try lia; [cbn; lia|constructor; [lia|done]|cbn; lia].
  - assert (Hx : shares q r 2 - lr >= 2 /\ (first_of = 1 -> shares q r 2 + q - 1 - fr - lr >= 2)).
    { unfold shares. rewrite Htotal in Hleast. pose proof (room_for_two mx n q r) as H2. pose proof (room_for_three mx n q r) as H3.
      split; [lia|]. intros. destruct (Z.eqb_spec n 3) as [->|]; lia. }
    assert (Htail : shares q r (n - 1) = n * q + r - q) by (unfold shares; lia).
    assert (Hge : shares q r 2 <= shares q r (n - 1)) by (unfold shares; pose proof (Z.mul_le_mono_nonneg_r 2 (n - 1) q); lia).
    assert (Hlt : 2 <= payload - first_of) by lia.
    rewrite (proj2 (Z.ltb_ge _ _)) by lia. cbn [andb]. rewrite !int_ok by lia. cbn [mbind option_bind].
    assert (Hj : Z.of_nat (Z.to_nat (n - 3)) = n - 3) by lia.
    destruct (loop_rest limits q r Hq ltac:(lia) Hs1 ltac:(lia) ltac:(lia) (Z.to_nat (n - 3)) fuel (payload - first_of) q)
      as (l & HL & [H1 H2 H3 H4 H5]); rewrite ?Hj; replace (n - 3 + 2) with (n - 1) in * by lia; try lia.
    + unfold share. rewrite (proj2 (Z.leb_gt _ _)) by lia. done.
    + rewrite Hj in HL. replace (n - 3 + 2) with (n - 1) in HL by lia. rewrite HL. cbn [mbind option_bind].
      exists first_of, l. splits; try done; try lia; [unfold sum_list in *; cbn [fold_right]; lia|].
      by replace (length l - 2)%nat with (Z.to_nat (n - 3)) by lia.
Qed.

End first.

(** The number of packets. *)
Lemma needed_bounds limits payload : small_limits limits -> 1 <= payload -> 1 <= max_payload_len limits ->
  let n := packets_needed limits payload in
  let ceil := (total_length limits payload + max_payload_len limits - 1) / max_payload_len limits in
  1 <= ceil /\ (if ceil =? 1 then 2 else ceil) = n
  /\ total_length limits payload <= max_payload_len limits * n
  /\ (3 <= n -> max_payload_len limits * (n - 1) < total_length limits payload).
Proof.
  intros [_ [Hf _] [Hl _] _] Hp Hm. cbv zeta. unfold packets_needed.
  set (total := total_length limits payload). set (mx := max_payload_len limits) in *.
  assert (Ht : 1 <= total) by (unfold total, total_length; lia).
  set (ceil := (total + mx - 1) / mx). assert (Hc : mx * ceil <= total + mx - 1 < mx * ceil + mx).
  { unfold ceil. pose proof (Z.div_mod (total + mx - 1) mx ltac:(lia)). pose proof (Z.mod_pos_bound (total + mx - 1) mx ltac:(lia)). lia. }
  assert (H1 : 1 <= ceil) by nia. splits; [done|destruct (Z.eqb_spec ceil 1); lia| |].
  - destruct (Z.max_spec 2 ceil) as [[? ->]|[? ->]]; nia.
  - intros H3. destruct (Z.max_spec 2 ceil) as [[? E]|[? E]]; rewrite E in *; nia.
Qed.

(** C21. Splitting a frame of 1 to 2^28 octets, under limits of at most 2^28, never fails an
    assertion and terminates: a frame that fits one packet stays whole; when the first or the
    last packet has no room for an octet, or there are fewer octets than packets, the result is
    empty; otherwise it is a split into the least number of packets with room, of at least one
    octet each, that add up to the frame, with the first, the last and the inner packets within
    their limits and no packet wider than the average rounded up. *)
Theorem split_about_equally limits payload_len : 0 < payload_len <= 2 ^ 28 -> small_limits limits ->
  exists l, SplitAboutEqually payload_len limits = Some l /\
  if single_packet_reduction_len limits + payload_len <=? max_payload_len limits then l = [payload_len]
  else if (max_payload_len limits - first_packet_reduction_len limits <? 1)
    || (max_payload_len limits - last_packet_reduction_len limits <? 1)
    || (payload_len <? packets_needed limits payload_len) then l = []
  else split_ok limits payload_len l.
Proof.
  intros Hp Hs. pose proof Hs as [Hmx [Hf0 Hf] [Hl0 Hl] [Hg0 Hg]]. unfold SplitAboutEqually.
  change (2 ^ 28) with 268435456 in *. rewrite !check_then by lia. rewrite !int_ok by lia. cbn [mbind option_bind].
  rewrite Z.geb_leb. destruct (_ <=? _); [by eexists|].
  destruct (Z.ltb_spec (max_payload_len limits - first_packet_reduction_len limits) 1) as [|Hfirst]; [by eexists|].
  cbn [orb].
  destruct (Z.ltb_spec (max_payload_len limits - last_packet_reduction_len limits) 1) as [|Hlast]; [by eexists|].
  cbn [orb]. do 3 (rewrite int_ok by lia; cbn [mbind option_bind]).
  pose proof (needed_bounds limits payload_len Hs ltac:(lia) ltac:(lia)) as (Hc & Hn & Hroom & Hleast). cbv zeta in *.
  rewrite Z.quot_div_nonneg by lia. fold (total_length limits payload_len). rewrite Hn.
  destruct (Z.ltb_spec payload_len (packets_needed limits payload_len)) as [|Hge]; [by eexists|].
  assert (Hn2 : 2 <= packets_needed limits payload_len) by (unfold packets_needed; lia).
  set (n := packets_needed limits payload_len) in *. set (total := total_length limits payload_len) in *.
  assert (Ht : n <= total) by (unfold total, total_length; lia).
  rewrite Z.quot_div_nonneg, Z.rem_mod_nonneg by lia. set (q := total / n). set (r := total mod n).
  assert (Htotal : total = q * n + r) by (unfold q, r; pose proof (Z.div_mod total n ltac:(lia)); lia).
  assert (Hr : 0 <= r < n) by (unfold r; apply Z.mod_pos_bound; lia).
  destruct (first_step limits payload_len n q r Hs ltac:(lia) ltac:(lia) ltac:(lia) ltac:(change (2 ^ 28) with 268435456; lia)
    Htotal Hr Hroom Hleast (Z.to_nat payload_len) ltac:(lia)) as (c & l & HL & Hfst & Hsum & Hlen & Hall & Hlst & Hin).
  exists (c :: l). split; [exact HL|]. assert (Hq1 : first_of limits q = 1 \/ first_of limits q <= q)
    by (unfold first_of; destruct (_ >? _); lia).
  constructor; fold n; fold total.
  - cbn [length]. lia.
  - done.
  - constructor; [split; [lia|destruct Hq1; nia]|]. eapply list.Forall_impl; [exact Hall|]. intros x [Hx1 Hx]. split; [done|].
    revert Hx. unfold share. destruct (Z.leb_spec 1 r); nia.
  - cbn [List.hd]. revert Hfst. unfold first_of. rewrite Z.gtb_ltb.
    assert (q <= max_payload_len limits) by nia. destruct (Z.ltb_spec (first_packet_reduction_len limits + 1) q); lia.
  - destruct l; [cbn in Hlen; lia|exact Hlst].
  - cbn [length drop]. rewrite drop_0. replace (S (length l) - 3)%nat with (length l - 2)%nat by lia.
    eapply list.Forall_impl; [exact Hin|]. cbn beta. intros x Hx. nia.
Qed.

(** ** The pieces of a frame *)

Fixpoint chunks (data : bytes) (sizes : list Z) : list bytes :=
  match sizes with
  | [] => []
  | n :: sizes => take (Z.to_nat n) data :: chunks (drop (Z.to_nat n) data) sizes
  end.

Lemma sizes_nonneg l : Forall (fun n => 1 <= n) l -> 0 <= sum_list l.
Proof. induction 1; unfold sum_list in *; cbn [fold_right]; lia. Qed.

Lemma chunks_spec sizes : forall data, Forall (fun n => 1 <= n) sizes -> sum_list sizes = zlen data ->
  concat (chunks data sizes) = data /\ map (fun c => zlen c) (chunks data sizes) = sizes.
Proof.
  induction sizes as [|n sizes IH]; intros data Hf Hs; cbn [chunks concat map].
  - destruct data; [done|]. cbn in Hs. lia.
  - apply list.Forall_cons in Hf as [Hn Hf]. pose proof (sizes_nonneg _ Hf). change (sum_list (n :: sizes)) with (n + sum_list sizes) in Hs.
    destruct (IH (drop (Z.to_nat n) data) Hf) as [-> ->]; [rewrite length_drop; lia|].
    rewrite take_drop, length_take. split; [done|]. f_equal. lia.
Qed.

(** A header before each piece, changed by [next] from one packet to the following. *)
Fixpoint with_headers (next : bytes -> bytes) (h : bytes) (cs : list bytes) : list bytes :=
  match cs with
  | [] => []
  | c :: cs => (h ++ c) :: with_headers next (next h) cs
  end.

(** What the sender expects packet [i] of [num_packets] to hold at most. *)
Definition expected_payload_capacity (limits : PayloadSizeLimits) (num_packets i : Z) : Z :=
  if num_packets =? 1 then max_payload_len limits - single_packet_reduction_len limits
  else if i =? 0 then max_payload_len limits - first_packet_reduction_len limits
  else if i =? num_packets - 1 then max_payload_len limits - last_packet_reduction_len limits
  else max_payload_len limits.

Definition within (limits : PayloadSizeLimits) (pls : list bytes) : Prop :=
  forall i pl, pls !! i = Some pl -> zlen pl <= expected_payload_capacity limits (zlen pls) (Z.of_nat i).

Lemma lookup_hd (l : list Z) x : l !! 0%nat = Some x -> List.hd 0 l = x.
Proof. destruct l; [done|]. by intros [= ->]. Qed.

Lemma lookup_last (l : list Z) x : l !! (length l - 1)%nat = Some x -> List.last l 0 = x.
Proof.
  induction l as [|a l IH]; [done|]. destruct l as [|b l]; [by intros [= ->]|].
  intros H. apply IH. cbn [length] in *. rewrite <- H. cbn [length Nat.sub]. by rewrite !Nat.sub_0_r.
Qed.

(** Every part of a split is within the limits of its position. *)
Lemma split_sizes limits payload_len l : 0 < payload_len <= 2 ^ 28 -> small_limits limits ->
  SplitAboutEqually payload_len limits = Some l -> l <> [] ->
  Forall (fun n => 1 <= n) l /\ sum_list l = payload_len
  /\ forall i x, l !! i = Some x -> x <= expected_payload_capacity limits (zlen l) (Z.of_nat i).
Proof.
  intros Hp Hs HS Hne. destruct (split_about_equally limits payload_len Hp Hs) as (l' & HS' & Hcase).
  rewrite HS in HS'. injection HS' as <-. destruct (Z.leb_spec (single_packet_reduction_len limits + payload_len) (max_payload_len limits)).
  - subst l. split; [constructor; [lia|done]|]. split; [cbn; lia|]. intros [|i] x Hx; [|done]. injection Hx as <-.
    change (payload_len <= max_payload_len limits - single_packet_reduction_len limits). lia.
  - destruct (_ || _) eqn:E; [done|]. apply orb_false_iff in E as [E _]. apply orb_false_iff in E as [E1 E2].
    destruct Hcase as [H1 H2 H3 H4 H5 _]. pose proof Hs as [Hm [Hf0 Hf] [Hl0 Hl] Hsg].
    destruct (needed_bounds limits payload_len Hs) as (_ & _ & Hroom & _); [lia|lia|].
    assert (Hn2 : 2 <= packets_needed limits payload_len) by (unfold packets_needed; lia).
    split; [eapply list.Forall_impl; [exact H3|]; cbn; lia|]. split; [done|]. intros i x Hx.
    unfold expected_payload_capacity. rewrite (proj2 (Z.eqb_neq (zlen l) 1)) by lia.
    destruct (Z.eqb_spec (Z.of_nat i) 0) as [Hi|]; [replace i with 0%nat in Hx by lia; apply lookup_hd in Hx; lia|].
    destruct (Z.eqb_spec (Z.of_nat i) (zlen l - 1)) as [Hi|].
    { replace i with (length l - 1)%nat in Hx by lia. apply lookup_last in Hx. lia. }
    eapply list.Forall_lookup_1 in H3; [|exact Hx]. cbn beta in H3. nia.
Qed.

Lemma length_with_headers next cs : forall h, length (with_headers next h cs) = length cs.
Proof. induction cs as [|c cs IH]; intros h; cbn; [done|]. by rewrite IH. Qed.

Lemma lookup_with_headers next cs : (forall h, length (next h) = length h) -> forall h i pl, with_headers next h cs !! i = Some pl ->
  exists c h', cs !! i = Some c /\ pl = h' ++ c /\ length h' = length h.
Proof.
  intros Hn. induction cs as [|c cs IH]; intros h [|i] pl Hpl; try done; cbn in Hpl.
  - injection Hpl as <-. by exists c, h.
  - destruct (IH _ _ _ Hpl) as (c' & h' & Hc & -> & Hl). exists c', h'. split; [done|]. split; [done|]. by rewrite Hl.
Qed.

(** The header's length taken off the limit, as a packetizer does. *)
Definition reserved (n : Z) (limits : PayloadSizeLimits) : PayloadSizeLimits :=
  Limits (max_payload_len limits - n) (first_packet_reduction_len limits)
    (last_packet_reduction_len limits) (single_packet_reduction_len limits).

Lemma frame_within next h limits data sizes : (forall h, length (next h) = length h) ->
  0 < zlen data <= 2 ^ 28 -> small_limits (reserved (zlen h) limits) ->
  SplitAboutEqually (zlen data) (reserved (zlen h) limits) = Some sizes -> sizes <> [] ->
  Forall (fun n => 1 <= n) sizes /\ sum_list sizes = zlen data
  /\ within limits (with_headers next h (chunks data sizes)).
Proof.
  intros Hn Hd Hs HS Hne. destruct (split_sizes _ _ _ Hd Hs HS Hne) as (Hpos & Hsum & Hall).
  split; [done|]. split; [done|]. intros i pl Hpl. destruct (chunks_spec sizes data Hpos Hsum) as [_ Hsz].
  destruct (lookup_with_headers _ _ Hn _ _ _ Hpl) as (c & h' & Hc & -> & Hl). rewrite length_with_headers, length_app.
  assert (Hx : sizes !! i = Some (zlen c)) by (rewrite <- Hsz, list_lookup_fmap, Hc; done).
  assert (Hlen : length (chunks data sizes) = length sizes) by (rewrite <- Hsz at 2; by rewrite length_map).
  rewrite Hlen. apply Hall in Hx. unfold expected_payload_capacity, reserved in *. cbn [max_payload_len first_packet_reduction_len
    last_packet_reduction_len single_packet_reduction_len] in Hx.
  destruct (_ =? 1); [lia|]. destruct (_ =? 0); [lia|]. destruct (_ =? _ - 1); lia.
Qed.

(** ** Packetizers *)

Section packets.
Import RtpPacket.
Context {buf : Type} {cow : CowBuffer buf} {cow_laws : CowBufferLaws buf}.
Context {limits : RtpExtension} {limits_laws : RtpExtensionLaws}.
Context {numerics : RtcNumerics} {numerics_laws : RtcNumericsLaws}.

(** Two pieces stored one after the other in a fresh payload. *)
Lemma fill_payload (p : t buf) im h c : represents p im -> im_padding im = 0 -> is_bytes h -> is_bytes c ->
  payload_start im + zlen (h ++ c) <= capacity p -> capacity p < 2 ^ 63 ->
  exists p1 p2 p3, AllocatePayload (zlen h + zlen c) p = Some (p1, Some (payload_start im))
  /\ WriteAt (payload_start im) h p1 = Some p2 /\ WriteAt (payload_start im + zlen h) c p2 = Some p3
  /\ outcome p p3 (im_set_payload (h ++ c) im).
Proof.
  intros Hr Hpad Hh Hc Hroom Hcap. rewrite length_app, Nat2Z.inj_add in Hroom.
  destruct (AllocatePayload_room p im (zlen h + zlen c) Hr Hpad) as (p1 & Y & HA & HY & Hr1 & Hc1 & Hm1); [lia|lia|done|].
  destruct (write_part p1 _ [] (take (List.length h) Y) (drop (List.length h) Y) h Hr1) as (p2 & HW2 & Hr2 & Hc2 & Hm2);
    [by rewrite take_drop|rewrite length_take; lia|done|].
  destruct (write_part p2 _ h (drop (List.length h) Y) [] c Hr2) as (p3 & HW3 & Hr3 & Hc3 & Hm3);
    [by rewrite app_nil_r|rewrite length_drop; lia|done|].
  rewrite app_nil_r in Hr3. cbn [List.length] in HW2. rewrite Z.add_0_r in HW2.
  exists p1, p2, p3. split; [done|]. split; [exact HW2|]. split; [exact HW3|]. split; [exact Hr3|]. split; congruence.
Qed.

(** A packetizer that still has [pls] to send: NumPackets counts them, and NextPacket gives
    the next one to a packet, with the marker bit on the last, or fails when none is left. *)
Record packetizer_laws {S : Type} (NumPackets : S -> Z) (NextPacket : t buf -> S -> option (S * t buf * bool))
    (pending : S -> list bytes -> Prop) : Prop := {
  law_count st pls : pending st pls -> NumPackets st = zlen pls;
  law_none st p : pending st [] -> NextPacket p st = Some (st, p, false);
  law_next st pl pls p im : pending st (pl :: pls) -> represents p im -> im_padding im = 0 -> im_payload im = [] ->
    payload_start im + zlen pl <= capacity p -> capacity p < 2 ^ 63 ->
    exists st' p', NextPacket p st = Some (st', p', true) /\ pending st' pls
    /\ outcome p p' (im_set_marker (bool_decide (pls = [])) (im_set_payload pl im))
}.

Section frame.
Context {S : Type} (NumPackets : S -> Z) (NextPacket : t buf -> S -> option (S * t buf * bool)).
Context (pending : S -> list bytes -> Prop) (laws : packetizer_laws NumPackets NextPacket pending).

(** NextPacket on each of the packets that the sender has prepared. *)
Fixpoint fill_packets (packets : list (t buf)) (st : S) : option (S * list (t buf) * bool) :=
  match packets with
  | [] => Some (st, [], true)
  | p :: packets =>
      '(st, p, ok) ← NextPacket p st;
      if negb ok then Some (st, [], false) else
      '(st, packets, ok) ← fill_packets packets st; Some (st, p :: packets, ok)
  end.

(** The payload and the marker bit that a receiver's packet object reads from the wire. *)
Definition receive (q : t buf) (p : t buf) : option (bytes * bool) :=
  '(q, ok) ← Parse (cow_data (buffer_ p)) (size p) q;
  check ok ;; Some (payload q, marker_ q).

Fixpoint receive_all (q : t buf) (packets : list (t buf)) : option (list (bytes * bool)) :=
  match packets with
  | [] => Some []
  | p :: packets => r ← receive q p; rs ← receive_all q packets; Some (r :: rs)
  end.

(** The payloads, with the marker on the last. *)
Fixpoint marked (pls : list bytes) : list (bytes * bool) :=
  match pls with
  | [] => []
  | pl :: pls => (pl, bool_decide (pls = [])) :: marked pls
  end.

(** A prepared packet: no payload and no padding, and room for the payload. *)
Definition prepared (max : Z) (p : t buf) : Prop := exists im, represents p im /\ im_padding im = 0 /\ im_payload im = []
  /\ payload_start im + max <= capacity p /\ capacity p < 2 ^ 63.

Lemma receive_spec (q p : t buf) im : represents p im -> receive q p = Some (im_payload im, im_marker im).
Proof.
  intros Hr. unfold receive. destruct (Parse_data q im (rep_wf _ _ Hr)) as (q' & HP & Hreads & _).
  assert (Hp := data_reads p im (rep_wf _ _ Hr) (rep_shows _ _ Hr) (rep_data _ _ Hr)).
  rewrite (rep_data _ _ Hr), (reads_size _ _ Hp), HP. cbn [mbind option_bind check].
  by rewrite (reads_payload _ _ Hreads), (reads_marker _ _ Hreads).
Qed.

(** All the packets of a frame, over the wire. *)
Lemma frame_arrives max pls : Forall (fun pl => zlen pl <= max) pls -> forall st ps q, pending st pls ->
  zlen ps = NumPackets st -> Forall (prepared max) ps ->
  exists st' ps', fill_packets ps st = Some (st', ps', true) /\ pending st' [] /\ receive_all q ps' = Some (marked pls).
Proof.
  intros Hmax. induction pls as [|pl pls IH]; intros st ps q Hst Hl Hps; rewrite (law_count _ _ _ laws st _ Hst) in Hl.
  - destruct ps; [|cbn in Hl; lia]. by exists st, [].
  - destruct ps as [|p ps]; [cbn in Hl; lia|]. cbn [List.length] in Hl.
    apply list.Forall_cons in Hmax as [Hpl Hmax]. apply list.Forall_cons in Hps as [(im & Hr & Hpad & Hpay & Hroom & Hcap) Hps].
    destruct (law_next _ _ _ laws st pl pls p im Hst Hr Hpad Hpay) as (st1 & p1 & HN & Hst1 & Hr1 & _); [lia|done|].
    cbn [fill_packets]. rewrite HN. cbn [mbind option_bind negb].
    destruct (IH Hmax st1 ps q Hst1) as (st2 & ps2 & -> & Hst2 & HR); [rewrite (law_count _ _ _ laws st1 _ Hst1); lia|done|].
    cbn [mbind option_bind]. exists st2, (p1 :: ps2). split; [done|]. split; [done|].
    cbn [receive_all marked]. rewrite (receive_spec q p1 _ Hr1). cbn [mbind option_bind]. by rewrite HR.
Qed.

End frame.

End packets.

Lemma split_about_equally_witness : exists l, SplitAboutEqually 11 (Limits 6 2 1 3) = Some l /\ split_ok (Limits 6 2 1 3) 11 l.
Proof.
  destruct (split_about_equally (Limits 6 2 1 3) 11) as (l & HS & Hcase); [by vm_compute|by constructor; vm_compute|].
  exists l. split; [exact HS|exact Hcase].
Defined.
