(* ===== verification/RtpVideo.v ===== *)
(** * Video frames in packets: the generic and the raw payload formats

    rtp_video_header.h, rtp_format_video_generic.{h,cc}, video_rtp_depacketizer.{h,cc},
    video_rtp_depacketizer_generic.cc and video_rtp_depacketizer_raw.cc: a frame goes through
    the packetizer, RTP packets, the depacketizer and AssembleFrame. *)

From S2P Require Import Prelude.
From S2P Require Import ByteIo.
From S2P Require Import Buffers.
From S2P Require Import RtcpCore.
From S2P Require Import RtpExtensionMap.
From S2P Require Import RtpPacket.
From S2P Require Import RtpPacketBuild.
From S2P Require Import RtpPacketOps.
From S2P Require Import RtpFormat.
Import RtpPacketizer.

(** ** RTPVideoHeader *)

(** The enumerators of api/video that the sources name. *)
Inductive VideoFrameType := kEmptyFrame | kVideoFrameKey | kVideoFrameDelta.

Inductive VideoCodecType := kVideoCodecGeneric | kVideoCodecVP8 | kVideoCodecVP9 | kVideoCodecAV1 | kVideoCodecH264.

#[global] Instance VideoFrameType_eq_dec : EqDecision VideoFrameType.
Proof. solve_decision. Defined.

(** The members of RTPVideoHeaderVP8 that the payload format carries. *)
Record RTPVideoHeaderVP8 := Vp8Header {
  nonReference : bool;
  pictureId : Z;
  tl0PicIdx : Z;
  temporalIdx : Z;
  layerSync : bool;
  keyIdx : Z;
  partitionId : Z;
  beginningOfPartition : bool
}.

Inductive H264PacketizationTypes := kH264SingleNalu | kH264StapA | kH264FuA.

Record NaluInfo := Nalu { nalu_info_type : Z; sps_id : Z; pps_id : Z }.

(** The members of RTPVideoHeaderH264 that the payload format sets. *)
Record RTPVideoHeaderH264 := H264Header {
  nalu_type : Z;
  packetization_type : H264PacketizationTypes;
  nalus : list NaluInfo                          (* nalus[0 .. nalus_length) *)
}.

(** RTPVideoTypeHeader *)
Inductive RTPVideoTypeHeader :=
  | monostate
  | VideoHeaderVP8 (h : RTPVideoHeaderVP8)
  | VideoHeaderH264 (h : RTPVideoHeaderH264)
  | RTPVideoHeaderLegacyGeneric (picture_id : Z).

(** The members that the payload formats set. *)
Record RTPVideoHeader := VideoHeader {
  frame_type : VideoFrameType;
  width : Z;
  height : Z;
  is_first_packet_in_frame : bool;
  simulcastIdx : Z;
  codec : VideoCodecType;
  video_type_header : RTPVideoTypeHeader
}.

Definition default_video_header : RTPVideoHeader := VideoHeader kEmptyFrame 0 0 false 0 kVideoCodecGeneric monostate.

(** ParsedRtpPayload *)
Record ParsedRtpPayload := Parsed { video_header : RTPVideoHeader; video_payload : bytes }.

(** VideoRtpDepacketizer::AssembleFrame; its buffer has the size of all the payloads. *)
Definition AssembleFrame (rtp_payloads : list bytes) : bytes := concat rtp_payloads.

(** ** The generic format *)

Module RtpFormatVideoGeneric.

Definition kKeyFrameBit : Z := 0x01.
Definition kFirstPacketBit : Z := 0x02.
Definition kExtendedHeaderBit : Z := 0x04.

End RtpFormatVideoGeneric.

Module RtpPacketizerGeneric.
Import RtpFormatVideoGeneric RtpPacket.

Definition kGenericHeaderLength : Z := 1.
Definition kExtendedHeaderLength : Z := 2.

(** The iterator is the number of sizes before it; octets of header_ that are never set are 0. *)
Record t := Mk {
  header_ : bytes;
  header_size_ : Z;
  remaining_payload_ : bytes;
  payload_sizes_ : list Z;
  current_packet_ : nat
}.

(** header_ and header_size_ *)
Definition BuildHeader (rtp_video_header : RTPVideoHeader) : bytes * Z :=
  let header0 := kFirstPacketBit in
  let header0 := if decide (frame_type rtp_video_header = kVideoFrameKey) then Z.lor header0 kKeyFrameBit else header0 in
  match video_type_header rtp_video_header with
  | RTPVideoHeaderLegacyGeneric picture_id =>
      ([Z.lor header0 kExtendedHeaderBit; Z.land (Z.shiftr picture_id 8) 0x7F; Z.land picture_id 0xFF],
       kGenericHeaderLength + kExtendedHeaderLength)
  | _ => ([header0; 0; 0], kGenericHeaderLength)
  end.

(** limits.max_payload_len -= n, on an int and a size_t *)
Definition reserve (n : Z) (limits : PayloadSizeLimits) : PayloadSizeLimits :=
  Limits (sw 32 (u64 (max_payload_len limits - n))) (first_packet_reduction_len limits)
    (last_packet_reduction_len limits) (single_packet_reduction_len limits).

(** The constructor for packets with the generic header. *)
Definition create (payload : bytes) (limits : PayloadSizeLimits) (rtp_video_header : RTPVideoHeader) : option t :=
  let '(header, header_size) := BuildHeader rtp_video_header in
  payload_sizes ← SplitAboutEqually (sw 32 (zlen payload)) (reserve header_size limits);
  Some (Mk header header_size payload payload_sizes 0).

(** The constructor for raw packets. *)
Definition create_raw (payload : bytes) (limits : PayloadSizeLimits) : option t :=
  payload_sizes ← SplitAboutEqually (sw 32 (zlen payload)) limits;
  Some (Mk [0; 0; 0] 0 payload payload_sizes 0).

Definition NumPackets (this : t) : Z := zlen (payload_sizes_ this) - Z.of_nat (current_packet_ this).

Definition clear_first_bit (header : bytes) : bytes :=
  match header with
  | h :: header => Z.land h (Z.lnot kFirstPacketBit) :: header
  | [] => []
  end.

Definition NextPacket `{CowBuffer buf, RtcNumerics} (packet : RtpPacket.t buf) (this : t) : option (t * RtpPacket.t buf * bool) :=
  match payload_sizes_ this !! current_packet_ this with
  | None => Some (this, packet, false)
  | Some next_packet_payload_len =>
      '(packet, out_ptr) ← AllocatePayload (header_size_ this + next_packet_payload_len) packet;
      out_ptr ← out_ptr;
      '(packet, header) ←
        (if header_size_ this >? 0 then
           packet ← WriteAt out_ptr (take (Z.to_nat (header_size_ this)) (header_ this)) packet;
           Some (packet, clear_first_bit (header_ this))
         else Some (packet, header_ this));
      octets ← load (remaining_payload_ this) 0 (Z.to_nat next_packet_payload_len);
      packet ← WriteAt (out_ptr + header_size_ this) octets packet;
      let remaining_payload := drop (Z.to_nat next_packet_payload_len) (remaining_payload_ this) in
      let current_packet := S (current_packet_ this) in
      let empty := zlen remaining_payload =? 0 in
      check (Bool.eqb (current_packet =? List.length (payload_sizes_ this))%nat empty) ;;
      packet ← SetMarker empty packet;
      Some (Mk header (header_size_ this) remaining_payload (payload_sizes_ this) current_packet, packet, true)
  end.

End RtpPacketizerGeneric.

Module VideoRtpDepacketizerGeneric.

Definition kKeyFrameBit : Z := 1.
Definition kFirstPacketBit : Z := 2.
Definition kExtendedHeaderBit : Z := 4.
Definition kGenericHeaderLength : Z := 1.
Definition kExtendedHeaderLength : Z := 2.

Definition Parse (rtp_payload : bytes) : option (option ParsedRtpPayload) :=
  if zlen rtp_payload =? 0 then Some None else
  generic_header ← peek rtp_payload 0;
  let offset := kGenericHeaderLength in
  let frame_type := if negb (Z.land generic_header kKeyFrameBit =? 0) then kVideoFrameKey else kVideoFrameDelta in
  let is_first_packet_in_frame := negb (Z.land generic_header kFirstPacketBit =? 0) in
  if negb (Z.land generic_header kExtendedHeaderBit =? 0) then
    if zlen rtp_payload <? offset + kExtendedHeaderLength then Some None else
    p1 ← peek rtp_payload 1;
    p2 ← peek rtp_payload 2;
    let picture_id := u16 (Z.lor (Z.shiftl (Z.land p1 0x7F) 8) p2) in
    let offset := offset + kExtendedHeaderLength in
    Some (Some (Parsed (VideoHeader frame_type 0 0 is_first_packet_in_frame 0 kVideoCodecGeneric
      (RTPVideoHeaderLegacyGeneric picture_id)) (drop (Z.to_nat offset) rtp_payload)))
  else
    Some (Some (Parsed (VideoHeader frame_type 0 0 is_first_packet_in_frame 0 kVideoCodecGeneric monostate)
      (drop (Z.to_nat offset) rtp_payload))).

End VideoRtpDepacketizerGeneric.

Module VideoRtpDepacketizerRaw.

Definition Parse (rtp_payload : bytes) : option (option ParsedRtpPayload) :=
  Some (Some (Parsed default_video_header rtp_payload)).

End VideoRtpDepacketizerRaw.

(** ** Sending and receiving *)

Section frames.
Import RtpPacket RtpPacketizerGeneric.
Context {buf : Type} {cow : CowBuffer buf} {cow_laws : CowBufferLaws buf}.
Context {ext_limits : RtpExtension} {ext_laws : RtpExtensionLaws}.
Context {numerics : RtcNumerics} {numerics_laws : RtcNumericsLaws}.

Lemma reserve_eq n limits : small_limits limits -> 0 <= n <= 256 -> reserve n limits = reserved n limits.
Proof.
  intros [Hm _ _ _] Hn. change (2 ^ 28) with 268435456 in *. unfold reserve, reserved. f_equal.
  unfold sw, u64. change (2 ^ 32) with 4294967296. change (2 ^ (32 - 1)) with 2147483648.
  set (x := max_payload_len limits - n). assert (Hx : - 2147483648 <= x < 2147483648) by lia.
  destruct (Z.ltb_spec ((x mod 18446744073709551616) mod 4294967296) 2147483648); dlia.
Qed.

Lemma int_size (l : bytes) : zlen l <= 2 ^ 28 -> sw 32 (zlen l) = zlen l.
Proof.
  intros Hl. change (2 ^ 28) with 268435456 in Hl. unfold sw. change (2 ^ 32) with 4294967296. change (2 ^ (32 - 1)) with 2147483648.
  rewrite Z.mod_small by lia. by rewrite (proj2 (Z.ltb_lt _ _)) by lia.
Qed.

(** The headers still to be sent. *)
Definition pending (st : t) (pls : list bytes) : Prop :=
  (current_packet_ st <= List.length (payload_sizes_ st))%nat
  /\ let sizes := drop (current_packet_ st) (payload_sizes_ st) in
     Forall (fun n => 1 <= n) sizes /\ sum_list sizes = zlen (remaining_payload_ st) /\ is_bytes (remaining_payload_ st)
     /\ is_bytes (header_ st) /\ 0 <= header_size_ st <= zlen (header_ st)
     /\ pls = with_headers clear_first_bit (take (Z.to_nat (header_size_ st)) (header_ st)) (chunks (remaining_payload_ st) sizes).

Lemma clear_first_bit_bytes h : is_bytes h -> is_bytes (clear_first_bit h).
Proof.
  destruct h as [|b h]; [done|]. intros [Hb Hh]%list.Forall_cons. constructor; [|done]. by apply land_u8.
Qed.

Lemma clear_first_bit_take n h : clear_first_bit (take n h) = take n (clear_first_bit h).
Proof. destruct n, h; done. Qed.

Lemma length_clear h : List.length (clear_first_bit h) = List.length h.
Proof. by destruct h. Qed.

(** Taking the first of the sizes. *)
Lemma drop_sizes (l : list Z) i n ns : drop i l = n :: ns -> l !! i = Some n /\ drop (S i) l = ns /\ (S i <= List.length l)%nat
  /\ ((S i =? List.length l)%nat = bool_decide (ns = [])).
Proof.
  intros Hd. assert (Hl : l !! i = Some n) by (rewrite <- (Nat.add_0_r i), <- lookup_drop, Hd; done).
  pose proof (lookup_lt_Some _ _ _ Hl) as Hlt. rewrite (drop_S l n i Hl) in Hd. injection Hd as Hd.
  split; [done|]. split; [done|]. split; [lia|]. pose proof (length_drop l (S i)) as Hlen. rewrite Hd in Hlen.
  destruct ns; [rewrite bool_decide_true by done; apply Nat.eqb_eq; cbn in Hlen; lia|].
  rewrite bool_decide_false by done. apply Nat.eqb_neq. cbn in Hlen. lia.
Qed.

Lemma length_chunks sizes : forall data, List.length (chunks data sizes) = List.length sizes.
Proof. induction sizes as [|n s IH]; intros data; cbn; [done|]. by rewrite IH. Qed.

(** The payload is stored, with or without a header. *)
Lemma store_payload st n (p : RtpPacket.t buf) im (h := take (Z.to_nat (header_size_ st)) (header_ st)) c : represents p im -> im_padding im = 0 ->
  is_bytes (header_ st) -> is_bytes c -> 0 <= header_size_ st <= zlen (header_ st) -> zlen c = n ->
  payload_start im + zlen (h ++ c) <= capacity p -> capacity p < 2 ^ 63 ->
  exists p1 p2 p3, AllocatePayload (header_size_ st + n) p = Some (p1, Some (payload_start im))
  /\ (if header_size_ st >? 0 then
        packet ← WriteAt (payload_start im) h p1; Some (packet, clear_first_bit (header_ st))
      else Some (p1, header_ st)) = Some (p2, if header_size_ st >? 0 then clear_first_bit (header_ st) else header_ st)
  /\ WriteAt (payload_start im + header_size_ st) c p2 = Some p3 /\ outcome p p3 (im_set_payload (h ++ c) im).
Proof.
  intros Hr Hpad Hbh Hbc Hhs Hn Hroom Hcap.
  assert (Hzh : zlen h = header_size_ st) by (unfold h; rewrite length_take; lia). rewrite <- Hn, Z.gtb_ltb.
  destruct (Z.ltb_spec 0 (header_size_ st)) as [Hpos|Hzero].
  - destruct (fill_payload p im h c Hr Hpad) as (p1 & p2 & p3 & HA & HW1 & HW2 & Hout); [by apply Forall_take|done|done|done|].
    rewrite Hzh in HA, HW2. exists p1, p2, p3. rewrite HW1. done.
  - assert (Hh : header_size_ st = 0) by lia. assert (h = []) as Hnil by (destruct h; [done|cbn in Hzh; lia]).
    rewrite Hnil in *. cbn [app] in *. rewrite Hh, Z.add_0_l, Z.add_0_r.
    destruct (AllocatePayload_rep p im c Hr Hpad) as (p1 & p3 & HA & HW & Hout); [done|done|done|].
    by exists p1, p1, p3.
Qed.

Lemma NextPacket_next st pl pls (p : RtpPacket.t buf) im : pending st (pl :: pls) -> represents p im -> im_padding im = 0 ->
  payload_start im + zlen pl <= capacity p -> capacity p < 2 ^ 63 ->
  exists st' p', NextPacket p st = Some (st', p', true) /\ pending st' pls
  /\ outcome p p' (im_set_marker (bool_decide (pls = [])) (im_set_payload pl im)).
Proof.
  intros (Hc & Hpos & Hsum & Hb & Hbh & Hhs & Hpls) Hr Hpad Hroom Hcap.
  destruct (drop (current_packet_ st) (payload_sizes_ st)) as [|n sizes] eqn:Hd; [done|].
  destruct (drop_sizes _ _ _ _ Hd) as (Hl & Hd' & Hle & Hend). cbn [chunks with_headers] in Hpls. injection Hpls as Hpl Hpls.
  apply list.Forall_cons in Hpos as [Hn Hpos]. pose proof (sizes_nonneg _ Hpos) as Hs0.
  change (sum_list (n :: sizes)) with (n + sum_list sizes) in Hsum. subst pl.
  destruct (store_payload st n p im (take (Z.to_nat n) (remaining_payload_ st)) Hr Hpad Hbh)
    as (p1 & p2 & p3 & HA & HW1 & HW2 & Hr3 & Hc3 & Hm3); [by apply Forall_take|done|rewrite length_take; lia|done|done|].
  unfold NextPacket. rewrite Hl. cbn iota. rewrite HA. cbn [mbind option_bind]. rewrite HW1. cbn [mbind option_bind].
  rewrite load_Some by lia. cbn [mbind option_bind drop Z.to_nat]. rewrite drop_0, HW2. cbn [mbind option_bind].
  assert (Hempty : (zlen (drop (Z.to_nat n) (remaining_payload_ st)) =? 0) = bool_decide (sizes = [])).
  { rewrite length_drop. destruct sizes as [|m sizes].
    - rewrite bool_decide_true by done. apply Z.eqb_eq. cbn in Hsum. lia.
    - apply list.Forall_cons in Hpos as [Hm Hpos]. pose proof (sizes_nonneg _ Hpos).
      change (sum_list (m :: sizes)) with (m + sum_list sizes) in Hsum. rewrite bool_decide_false by done. apply Z.eqb_neq. lia. }
  rewrite Hempty, Hend, eqb_reflx. cbn [check mbind option_bind].
  destruct (SetMarker_rep p3 _ (bool_decide (sizes = [])) Hr3) as (p4 & -> & Hr4 & Hc4 & Hm4). cbn [mbind option_bind].
  assert (Hnil : bool_decide (pls = []) = bool_decide (sizes = [])) by (subst pls; by destruct sizes).
  eexists _, p4. split; [done|]. rewrite Hnil. split; [|split; [exact Hr4|split; congruence]].
  unfold pending. cbn [current_packet_ payload_sizes_ remaining_payload_ header_ header_size_].
  rewrite Hd'. split; [done|]. split; [done|]. split; [rewrite length_drop; lia|]. split; [by apply Forall_drop|].
  rewrite Z.gtb_ltb. destruct (Z.ltb_spec 0 (header_size_ st)).
  - split; [by apply clear_first_bit_bytes|]. rewrite length_clear, <- clear_first_bit_take. done.
  - split; [done|]. split; [done|]. subst pls. rewrite clear_first_bit_take. by replace (header_size_ st) with 0 by lia.
Qed.

Lemma generic_laws : packetizer_laws (buf := buf) NumPackets NextPacket pending.
Proof.
  constructor.
  - intros st pls (Hc & _ & _ & _ & _ & _ & ->). rewrite length_with_headers, length_chunks, length_drop.
    unfold NumPackets. lia.
  - intros st p (Hc & _ & _ & _ & _ & _ & Hpls). unfold NextPacket. rewrite lookup_ge_None_2; [done|].
    destruct (drop _ _) eqn:Hd in Hpls; [|done]. apply (f_equal List.length) in Hd. rewrite length_drop in Hd. cbn in Hd. lia.
  - intros. by apply NextPacket_next.
Qed.

(** ** The two formats *)

(** The generic format with a header, or the raw one. *)
Definition make (mode : option RTPVideoHeader) (payload : bytes) (limits : PayloadSizeLimits) : option t :=
  match mode with Some h => create payload limits h | None => create_raw payload limits end.

Definition parse (mode : option RTPVideoHeader) (rtp_payload : bytes) : option (option ParsedRtpPayload) :=
  match mode with
  | Some _ => VideoRtpDepacketizerGeneric.Parse rtp_payload
  | None => VideoRtpDepacketizerRaw.Parse rtp_payload
  end.

Definition mode_header (mode : option RTPVideoHeader) : bytes * Z :=
  match mode with Some h => BuildHeader h | None => ([0; 0; 0], 0) end.

(** What the receiver knows of the frame from one packet. *)
Definition received_header (mode : option RTPVideoHeader) (first : bool) : RTPVideoHeader :=
  match mode with
  | Some h => VideoHeader (if decide (frame_type h = kVideoFrameKey) then kVideoFrameKey else kVideoFrameDelta) 0 0 first 0
      kVideoCodecGeneric (match video_type_header h with
        | RTPVideoHeaderLegacyGeneric picture_id => RTPVideoHeaderLegacyGeneric (picture_id mod 2 ^ 15)
        | _ => monostate end)
  | None => default_video_header
  end.

Definition received_frame (mode : option RTPVideoHeader) (cs : list bytes) : list ParsedRtpPayload :=
  match cs with
  | [] => []
  | c :: cs => Parsed (received_header mode true) c :: map (Parsed (received_header mode false)) cs
  end.

Definition mode_ok (mode : option RTPVideoHeader) : Prop :=
  match mode with
  | Some h => match video_type_header h with RTPVideoHeaderLegacyGeneric picture_id => is_u16 picture_id | _ => True end
  | None => True
  end.

Lemma picture_id_octets pid : is_u16 pid -> is_u8 (Z.land (Z.shiftr pid 8) 0x7F) /\ is_u8 (Z.land pid 0xFF)
  /\ u16 (Z.lor (Z.shiftl (Z.land (Z.land (Z.shiftr pid 8) 0x7F) 0x7F) 8) (Z.land pid 0xFF)) = pid mod 2 ^ 15.
Proof.
  intros Hp. rewrite (land_mask 7 0x7F), (land_mask 7 0x7F), (land_mask 8 0xFF), Z.shiftr_div_pow2 by done.
  change (2 ^ 7) with 128. change (2 ^ 8) with 256. change (2 ^ 15) with 32768. unfold is_u8, is_u16 in *.
  split; [dlia|]. split; [dlia|]. rewrite lor_shiftl_add by (change (2 ^ 8) with 256; dlia). change (2 ^ 8) with 256.
  unfold u16. dlia.
Qed.

Lemma parse_generic_header mode c first : mode_ok mode ->
  let h := take (Z.to_nat (mode_header mode).2) (mode_header mode).1 in
  parse mode ((if first : bool then h else clear_first_bit h) ++ c) = Some (Some (Parsed (received_header mode first) c)).
Proof.
  destruct mode as [[ft w ht fst si co vt]|]; [|by destruct first]. cbn [mode_ok video_type_header]. intros Hok.
  unfold mode_header, BuildHeader, received_header, parse, VideoRtpDepacketizerGeneric.Parse. cbn [frame_type video_type_header].
  destruct vt as [|v|v|pid]; [by destruct (decide _), first..|].
  destruct (picture_id_octets pid Hok) as (_ & _ & Hpid). rewrite <- Hpid.
  destruct (decide _), first; match goal with |- context [zlen ?l <? ?k] =>
    replace (zlen l <? k) with false; [done|];
    change (zlen l) with (Z.of_nat (3 + List.length c)); symmetry; apply Z.ltb_ge;
    change (VideoRtpDepacketizerGeneric.kGenericHeaderLength + VideoRtpDepacketizerGeneric.kExtendedHeaderLength) with 3; lia end.
Qed.

Lemma clear_idem h : clear_first_bit (clear_first_bit h) = clear_first_bit h.
Proof. destruct h as [|b h]; [done|]. cbn. by rewrite <- Z.land_assoc, Z.land_diag. Qed.

Lemma parse_frame mode cs : mode_ok mode ->
  let h := take (Z.to_nat (mode_header mode).2) (mode_header mode).1 in
  mapM (parse mode) (with_headers clear_first_bit h cs) = Some (map Some (received_frame mode cs)).
Proof.
  intros Hok. cbv zeta. set (h := take _ _). apply mapM_Some.
  destruct cs as [|c cs]; [constructor|]. cbn [with_headers received_frame map]. constructor; [exact (parse_generic_header mode c true Hok)|].
  induction cs as [|c' cs IH]; [constructor|]. cbn [with_headers map]. constructor; [exact (parse_generic_header mode c' false Hok)|].
  by rewrite clear_idem.
Qed.

Lemma frame_headers mode cs : map video_payload (received_frame mode cs) = cs.
Proof. destruct cs as [|c cs]; [done|]. cbn. f_equal. rewrite map_map. cbn. apply map_id. Qed.

Lemma mode_header_bounds mode : mode_ok mode ->
  is_bytes (mode_header mode).1 /\ 0 <= (mode_header mode).2 <= zlen (mode_header mode).1
  /\ zlen (take (Z.to_nat (mode_header mode).2) (mode_header mode).1) = (mode_header mode).2
  /\ (mode_header mode).2 <= 3.
Proof.
  destruct mode as [[ft w ht fst si co vt]|]; [|intros _; repeat constructor; done].
  cbn [mode_ok video_type_header]. intros Hok. unfold mode_header, BuildHeader. cbn [frame_type video_type_header].
  assert (Hb : forall b : bool, is_u8 (if b then 7 else 6) /\ is_u8 (if b then 3 else 2)) by (by intros []).
  destruct vt as [|v|v|pid]; [by destruct (decide _); repeat constructor..|].
  destruct (picture_id_octets pid Hok) as (H1 & H2 & _).
  assert (Hz : forall b, is_u8 b -> is_bytes [b; Z.land (Z.shiftr pid 8) 0x7F; Z.land pid 0xFF]) 
    by (intros; apply list.Forall_cons; split; [done|]; apply list.Forall_cons; split; [done|]; by apply bytes_one).
  by destruct (decide _); (split; [by apply Hz|]).
Qed.

(** The constructors: the sizes of the packets and the header. *)
Lemma make_spec mode payload limits (n := (mode_header mode).2) : mode_ok mode -> is_bytes payload -> 0 < zlen payload <= 2 ^ 28 ->
  small_limits limits -> small_limits (reserved n limits) ->
  exists st sizes, make mode payload limits = Some st
  /\ SplitAboutEqually (zlen payload) (reserved n limits) = Some sizes /\ NumPackets st = zlen sizes
  /\ (sizes <> [] -> let pls := with_headers clear_first_bit (take (Z.to_nat n) (mode_header mode).1) (chunks payload sizes) in
      pending st pls /\ within limits pls).
Proof.
  intros Hok Hb Hp Hs Hs'. destruct (mode_header_bounds mode Hok) as (Hbh & Hn & Hl & Hn3).
  destruct (split_about_equally (reserved n limits) (zlen payload) Hp Hs') as (sizes & HS & _).
  exists (Mk (mode_header mode).1 n payload sizes 0), sizes.
  assert (Hmk : make mode payload limits = Some (Mk (mode_header mode).1 n payload sizes 0)).
  { unfold n in *. destruct mode as [h|]; cbn [make mode_header fst snd] in *; unfold create, create_raw; rewrite int_size by lia.
    - rewrite (surjective_pairing (BuildHeader h)). rewrite reserve_eq by (done || lia). by rewrite HS.
    - replace limits with (reserved 0 limits) by (destruct limits; unfold reserved; cbn; by rewrite Z.sub_0_r). by rewrite HS. }
  split; [exact Hmk|]. split; [done|]. split; [unfold NumPackets; cbn; lia|]. intros Hne. cbv zeta.
  fold n in Hl.
  destruct (frame_within clear_first_bit (take (Z.to_nat n) (mode_header mode).1) limits payload sizes length_clear Hp)
    as (Hpos & Hsum & Hwithin); [by rewrite Hl..|done|].
  split; [|done]. unfold pending. cbn [current_packet_ payload_sizes_ remaining_payload_ header_ header_size_]. rewrite drop_0.
  split; [lia|]. done.
Qed.

Lemma expected_le limits n i : small_limits limits -> expected_payload_capacity limits n i <= max_payload_len limits.
Proof.
  intros [_ [? _] [? _] [? _]]. unfold expected_payload_capacity. destruct (_ =? 1); [lia|]. destruct (_ =? 0); [lia|].
  destruct (_ =? _ - 1); lia.
Qed.

Lemma within_max limits pls : small_limits limits -> within limits pls -> Forall (fun pl => zlen pl <= max_payload_len limits) pls.
Proof.
  intros Hs Hw. apply list.Forall_lookup. intros i pl Hpl. apply Hw in Hpl. pose proof (expected_le limits (zlen pls) (Z.of_nat i) Hs). lia.
Qed.

Lemma marked_payloads pls : map fst (marked pls) = pls.
Proof. induction pls as [|pl pls IH]; [done|]. cbn. by rewrite IH. Qed.

(** C20. A frame of 1 to 2^28 octets that the generic or the raw format splits, under limits of
    at most 2^28, in whatever packets with room the sender has prepared, arrives: every packet
    is filled, holds no more than the sender expects at its position, and only the last has the
    marker bit; the receiver's packet objects accept them, the depacketizer accepts every
    payload, says, for the generic format, which is the first, whether it is a key frame and the
    low 15 bits of the picture id (the raw format has no header and says none of this), and the
    payloads assemble to the frame. Without enough room there are no packets. *)
Theorem generic_frame mode payload limits (n := (mode_header mode).2) : mode_ok mode -> is_bytes payload ->
  0 < zlen payload <= 2 ^ 28 -> small_limits limits -> small_limits (reserved n limits) ->
  exists st sizes, make mode payload limits = Some st
  /\ SplitAboutEqually (zlen payload) (reserved n limits) = Some sizes /\ NumPackets st = zlen sizes
  /\ (sizes <> [] -> forall ps (q : RtpPacket.t buf), zlen ps = NumPackets st -> Forall (prepared (max_payload_len limits)) ps ->
      exists st' ps' pls, fill_packets NextPacket ps st = Some (st', ps', true) /\ NumPackets st' = 0
      /\ receive_all q ps' = Some (marked pls) /\ within limits pls
      /\ exists parsed, mapM (parse mode) pls = Some (map Some parsed)
      /\ AssembleFrame (map video_payload parsed) = payload
      /\ map video_header parsed = received_header mode true :: replicate (List.length pls - 1) (received_header mode false)).
Proof.
  intros Hok Hb Hp Hs Hs'. destruct (make_spec mode payload limits Hok Hb Hp Hs Hs') as (st & sizes & Hmk & HS & Hn & Hpend).
  fold n in Hmk, HS, Hpend. exists st, sizes. split; [done|]. split; [done|]. split; [done|]. intros Hne ps q Hl Hps.
  destruct (Hpend Hne) as [Hst Hwithin]. set (pls := with_headers _ _ _) in *.
  destruct (frame_arrives NumPackets NextPacket pending generic_laws (max_payload_len limits) pls (within_max _ _ Hs Hwithin) st ps q Hst Hl Hps)
    as (st' & ps' & HF & Hst' & HR).
  exists st', ps', pls. split; [done|]. split; [by rewrite (law_count _ _ _ generic_laws st' _ Hst')|]. split; [done|]. split; [done|].
  destruct (split_sizes _ _ _ Hp Hs' HS Hne) as (Hpos & Hsum & _). destruct (chunks_spec sizes payload Hpos Hsum) as [Hcat _].
  exists (received_frame mode (chunks payload sizes)). split; [exact (parse_frame mode _ Hok)|]. rewrite frame_headers.
  split; [exact Hcat|]. unfold pls. rewrite length_with_headers.
  destruct (chunks payload sizes) as [|c cs] eqn:Hc; [by destruct sizes|]. cbn [received_frame map List.length Nat.sub video_header].
  rewrite Nat.sub_0_r. f_equal. clear. induction cs as [|c' cs IH]; [done|]. cbn. by rewrite IH.
Qed.

End frames.

(** ** A concrete frame *)

Definition sample_frame : bytes := [10; 11; 12; 13; 14; 15; 16; 17; 18; 19; 20; 21; 22; 23; 24; 25; 26].

Definition sample_limits : PayloadSizeLimits := Limits 10 2 1 3.

Definition sample_header : RTPVideoHeader :=
  VideoHeader kVideoFrameKey 640 480 false 0 kVideoCodecGeneric (RTPVideoHeaderLegacyGeneric 0x8123).

(** A key frame of 17 octets in three packets of at most 10. *)
Lemma generic_frame_witness : exists (p : RtpPacket.t plain_buffer) st st' ps' pls parsed,
  RtpPacketizerGeneric.create sample_frame sample_limits sample_header = Some st
  /\ fill_packets RtpPacketizerGeneric.NextPacket [p; p; p] st = Some (st', ps', true)
  /\ receive_all p ps' = Some (marked pls)
  /\ mapM VideoRtpDepacketizerGeneric.Parse pls = Some (map Some parsed)
  /\ AssembleFrame (map video_payload parsed) = sample_frame.
Proof.
  destruct (new_rep (buf := plain_buffer) sample_map sample_capacity) as (p & Hnew & Hr & Hc & _); [done|].
  destruct (generic_frame (buf := plain_buffer) (Some sample_header) sample_frame sample_limits) as (st & sizes & Hmk & HS & Hn & Hall).
  - by vm_compute.
  - by repeat constructor.
  - by vm_compute.
  - by constructor; vm_compute.
  - by constructor; vm_compute.
  - vm_compute in HS. injection HS as <-.
    destruct (Hall ltac:(done) [p; p; p] p) as (st' & ps' & pls & HF & _ & HR & _ & parsed & HM & HA & _); [by rewrite Hn| |].
    + assert (Hp : prepared 10 p) by (exists empty_image; rewrite Hc; split; [exact Hr|]; by repeat split). by repeat constructor.
    + exists p, st, st', ps', pls, parsed. split; [exact Hmk|]. split; [exact HF|]. split; [exact HR|]. split; [exact HM|exact HA].
Defined.
