(* ===== verification/RtpVp8.v ===== *)
(** * VP8 in RTP: rtp_format_vp8.{h,cc} and video_rtp_depacketizer_vp8.cc

    The payload descriptor, the packetizer and the depacketizer. *)

From S2P Require Import Prelude.
From S2P Require Import ByteIo.
From S2P Require Import Buffers.
From S2P Require Import RtcpCore.
From S2P Require Import RtpExtensionMap.
From S2P Require Import RtpPacket.
From S2P Require Import RtpPacketBuild.
From S2P Require Import RtpPacketOps.
From S2P Require Import RtpFormat.
From S2P Require Import RtpVideo.
Import RtpPacketizer.

(** modules/video_coding/codecs: the values for an absent field, and a fresh header. *)
Class Vp8Globals := {
  kNoPictureId : Z;
  kNoTl0PicIdx : Z;
  kNoTemporalIdx : Z;
  kNoKeyIdx : Z;
  InitRTPVideoHeaderVP8 : RTPVideoHeaderVP8
}.

(** An absent field has no value that the format carries, and a fresh header has no field. *)
Class Vp8GlobalsLaws {globals : Vp8Globals} := {
  no_picture_id : ~ 0 <= kNoPictureId <= 0x7FFF;
  no_tl0_pic_idx : ~ 0 <= kNoTl0PicIdx <= 0xFF;
  no_temporal_idx : ~ 0 <= kNoTemporalIdx <= 3;
  no_key_idx : ~ 0 <= kNoKeyIdx <= 0x1F;
  init_vp8 : InitRTPVideoHeaderVP8 = Vp8Header false kNoPictureId kNoTl0PicIdx kNoTemporalIdx false kNoKeyIdx 0 false
}.

#[global] Instance sample_globals : Vp8Globals | 100 := {|
  kNoPictureId := -1; kNoTl0PicIdx := -1; kNoTemporalIdx := 0xFF; kNoKeyIdx := -1;
  InitRTPVideoHeaderVP8 := Vp8Header false (-1) (-1) 0xFF false (-1) 0 false
|}.

#[global] Instance sample_globals_laws : Vp8GlobalsLaws.
Proof. constructor; cbn; (lia || done). Qed.

Module RtpPacketizerVp8.
Import RtpPacket.

Section vp8.
Context {globals : Vp8Globals}.

Definition kXBit : Z := 0x80.
Definition kNBit : Z := 0x20.
Definition kSBit : Z := 0x10.
Definition kKeyIdxField : Z := 0x1F.
Definition kIBit : Z := 0x80.
Definition kLBit : Z := 0x40.
Definition kTBit : Z := 0x20.
Definition kKBit : Z := 0x10.
Definition kYBit : Z := 0x20.

Definition ValidateHeader (hdr_info : RTPVideoHeaderVP8) : option bool :=
  (if negb (pictureId hdr_info =? kNoPictureId) then
     check (pictureId hdr_info >=? 0) ;; check (pictureId hdr_info <=? 0x7FFF) else Some tt) ;;
  (if negb (tl0PicIdx hdr_info =? kNoTl0PicIdx) then
     check (tl0PicIdx hdr_info >=? 0) ;; check (tl0PicIdx hdr_info <=? 0xFF) else Some tt) ;;
  (if negb (temporalIdx hdr_info =? kNoTemporalIdx) then
     check (temporalIdx hdr_info >=? 0) ;; check (temporalIdx hdr_info <=? 3)
   else check (negb (layerSync hdr_info))) ;;
  (if negb (keyIdx hdr_info =? kNoKeyIdx) then
     check (keyIdx hdr_info >=? 0) ;; check (keyIdx hdr_info <=? 0x1F) else Some tt) ;;
  Some true.

Definition BuildHeader (header : RTPVideoHeaderVP8) : option bytes :=
  valid ← ValidateHeader header;
  check valid ;;
  let tid_present := negb (temporalIdx header =? kNoTemporalIdx) in
  let keyid_present := negb (keyIdx header =? kNoKeyIdx) in
  let tl0_pid_present := negb (tl0PicIdx header =? kNoTl0PicIdx) in
  let pid_present := negb (pictureId header =? kNoPictureId) in
  let x_field := 0 in
  let x_field := if pid_present then Z.lor x_field kIBit else x_field in
  let x_field := if tl0_pid_present then Z.lor x_field kLBit else x_field in
  let x_field := if tid_present then Z.lor x_field kTBit else x_field in
  let x_field := if keyid_present then Z.lor x_field kKBit else x_field in
  let flags := 0 in
  let flags := if negb (x_field =? 0) then Z.lor flags kXBit else flags in
  let flags := if nonReference header then Z.lor flags kNBit else flags in
  let flags := Z.lor flags kSBit in
  let result := [flags] in
  if x_field =? 0 then Some result else
  let result := result ++ [x_field] in
  let result :=
    if pid_present then
      let pic_id := u16 (pictureId header) in
      result ++ [u8 (Z.lor 0x80 (Z.land (Z.shiftr pic_id 8) 0x7F)); u8 (Z.land pic_id 0xFF)]
    else result in
  let result := if tl0_pid_present then result ++ [u8 (tl0PicIdx header)] else result in
  let result :=
    if tid_present || keyid_present then
      let data_field := 0 in
      let data_field :=
        if tid_present then
          let data_field := u8 (Z.lor data_field (Z.shiftl (temporalIdx header) 6)) in
          if layerSync header then Z.lor data_field kYBit else data_field
        else data_field in
      let data_field := if keyid_present then u8 (Z.lor data_field (Z.land (keyIdx header) kKeyIdxField)) else data_field in
      result ++ [data_field]
    else result in
  Some result.

Record t := Mk {
  hdr_ : bytes;
  remaining_payload_ : bytes;
  payload_sizes_ : list Z;
  current_packet_ : nat
}.

Definition create (payload : bytes) (limits : PayloadSizeLimits) (hdr_info : RTPVideoHeaderVP8) : option t :=
  hdr ← BuildHeader hdr_info;
  payload_sizes ← SplitAboutEqually (sw 32 (zlen payload)) (RtpPacketizerGeneric.reserve (zlen hdr) limits);
  Some (Mk hdr payload payload_sizes 0).

Definition NumPackets (this : t) : Z := zlen (payload_sizes_ this) - Z.of_nat (current_packet_ this).

(** hdr_[0] &= ~kSBit *)
Definition clear_start_bit (hdr : bytes) : bytes :=
  match hdr with
  | h :: hdr => Z.land h (Z.lnot kSBit) :: hdr
  | [] => []
  end.

Definition NextPacket `{CowBuffer buf, RtcNumerics} (packet : RtpPacket.t buf) (this : t) : option (t * RtpPacket.t buf * bool) :=
  match payload_sizes_ this !! current_packet_ this with
  | None => Some (this, packet, false)
  | Some packet_payload_len =>
      let current_packet := S (current_packet_ this) in
      '(packet, buffer) ← AllocatePayload (zlen (hdr_ this) + packet_payload_len) packet;
      buffer ← buffer;
      packet ← WriteAt buffer (hdr_ this) packet;
      octets ← load (remaining_payload_ this) 0 (Z.to_nat packet_payload_len);
      packet ← WriteAt (buffer + zlen (hdr_ this)) octets packet;
      let remaining_payload := drop (Z.to_nat packet_payload_len) (remaining_payload_ this) in
      let hdr := clear_start_bit (hdr_ this) in
      packet ← SetMarker (current_packet =? List.length (payload_sizes_ this))%nat packet;
      Some (Mk hdr remaining_payload (payload_sizes_ this) current_packet, packet, true)
  end.

End vp8.

End RtpPacketizerVp8.

Module VideoRtpDepacketizerVp8.

Section vp8.
Context {globals : Vp8Globals}.

Definition kFailedToParse : Z := 0.

Definition set_picture_id (v : Z) (h : RTPVideoHeaderVP8) : RTPVideoHeaderVP8 :=
  Vp8Header (nonReference h) v (tl0PicIdx h) (temporalIdx h) (layerSync h) (keyIdx h) (partitionId h) (beginningOfPartition h).

Definition set_tl0_pic_idx (v : Z) (h : RTPVideoHeaderVP8) : RTPVideoHeaderVP8 :=
  Vp8Header (nonReference h) (pictureId h) v (temporalIdx h) (layerSync h) (keyIdx h) (partitionId h) (beginningOfPartition h).

Definition set_temporal (idx : Z) (sync : bool) (h : RTPVideoHeaderVP8) : RTPVideoHeaderVP8 :=
  Vp8Header (nonReference h) (pictureId h) (tl0PicIdx h) idx sync (keyIdx h) (partitionId h) (beginningOfPartition h).

Definition set_key_idx (v : Z) (h : RTPVideoHeaderVP8) : RTPVideoHeaderVP8 :=
  Vp8Header (nonReference h) (pictureId h) (tl0PicIdx h) (temporalIdx h) (layerSync h) v (partitionId h) (beginningOfPartition h).

(** A bit of an octet as a bool. *)
Definition flag (octet mask : Z) : bool := negb (Z.land octet mask =? 0).

(** The optional fields: [data] is data + parsed_bytes, of the remaining data_length octets;
    the result has the fields, the remaining octets and the parsed bytes, or nothing when
    the octets end. *)
Definition parse_picture_id (vp8 : RTPVideoHeaderVP8) (data : bytes) (parsed_bytes : Z)
  : option (RTPVideoHeaderVP8 * bytes * Z) :=
  match data with
  | [] => None
  | d :: data =>
      let vp8 := set_picture_id (Z.land d 0x7F) vp8 in
      if flag d 0x80 then
        match data with
        | [] => None
        | e :: data => Some (set_picture_id (Z.shiftl (pictureId vp8) 8 + e) vp8, data, parsed_bytes + 2)
        end
      else Some (vp8, data, parsed_bytes + 1)
  end.

Definition parse_tl0_pic_idx (vp8 : RTPVideoHeaderVP8) (data : bytes) (parsed_bytes : Z)
  : option (RTPVideoHeaderVP8 * bytes * Z) :=
  match data with
  | [] => None
  | d :: data => Some (set_tl0_pic_idx d vp8, data, parsed_bytes + 1)
  end.

Definition parse_tid_key_idx (has_tid has_key_idx : bool) (vp8 : RTPVideoHeaderVP8) (data : bytes) (parsed_bytes : Z)
  : option (RTPVideoHeaderVP8 * bytes * Z) :=
  match data with
  | [] => None
  | d :: data =>
      let vp8 := if has_tid then set_temporal (Z.land (Z.shiftr d 6) 0x03) (flag d 0x20) vp8 else vp8 in
      let vp8 := if has_key_idx then set_key_idx (Z.land d 0x1F) vp8 else vp8 in
      Some (vp8, data, parsed_bytes + 1)
  end.

(** The descriptor and its size; None when the octets end in it. *)
Definition parse_extension (vp8 : RTPVideoHeaderVP8) (data : bytes) : option (RTPVideoHeaderVP8 * Z) :=
  match data with
  | [] => None
  | d :: data =>
      let has_picture_id := flag d 0x80 in
      let has_tl0_pic_idx := flag d 0x40 in
      let has_tid := flag d 0x20 in
      let has_key_idx := flag d 0x10 in
      '(vp8, data, parsed) ← (if has_picture_id then parse_picture_id vp8 data 2 else Some (vp8, data, 2));
      '(vp8, data, parsed) ← (if has_tl0_pic_idx then parse_tl0_pic_idx vp8 data parsed else Some (vp8, data, parsed));
      '(vp8, data, parsed) ← (if has_tid || has_key_idx then parse_tid_key_idx has_tid has_key_idx vp8 data parsed
                              else Some (vp8, data, parsed));
      Some (vp8, parsed)
  end.

(** Outside the inner option: the assertion on the length. *)
Definition ParseVP8Descriptor (vp8 : RTPVideoHeaderVP8) (data : bytes) : option (option (RTPVideoHeaderVP8 * Z)) :=
  match data with
  | [] => None
  | d :: data =>
      let extension := flag d 0x80 in
      let vp8 := Vp8Header (flag d 0x20) (pictureId vp8) (tl0PicIdx vp8) (temporalIdx vp8) (layerSync vp8) (keyIdx vp8)
        (Z.land d 0x07) (flag d 0x10) in
      if negb extension then Some (Some (vp8, 1)) else Some (parse_extension vp8 data)
  end.

(** The header and the size of the descriptor; inside, None for kFailedToParse. *)
Definition ParseRtpPayload (rtp_payload : bytes) : option (option (RTPVideoHeader * Z)) :=
  if zlen rtp_payload =? 0 then Some None else
  parsed ← ParseVP8Descriptor InitRTPVideoHeaderVP8 rtp_payload;
  match parsed with
  | None => Some None
  | Some (vp8_header, descriptor_size) =>
      check (partitionId vp8_header <? 8) ;;
      let is_first_packet_in_frame := beginningOfPartition vp8_header && (partitionId vp8_header =? 0) in
      let vp8_payload_size := zlen rtp_payload - descriptor_size in
      if vp8_payload_size =? 0 then Some None else
      let vp8_payload := drop (Z.to_nat descriptor_size) rtp_payload in
      p0 ← peek vp8_payload 0;
      if is_first_packet_in_frame && (Z.land p0 0x01 =? 0) then
        if vp8_payload_size <? 10 then Some None else
        p6 ← peek vp8_payload 6;
        p7 ← peek vp8_payload 7;
        p8 ← peek vp8_payload 8;
        p9 ← peek vp8_payload 9;
        Some (Some (VideoHeader kVideoFrameKey (Z.land (Z.shiftl p7 8 + p6) 0x3FFF) (Z.land (Z.shiftl p9 8 + p8) 0x3FFF)
          is_first_packet_in_frame 0 kVideoCodecVP8 (VideoHeaderVP8 vp8_header), descriptor_size))
      else
        Some (Some (VideoHeader kVideoFrameDelta 0 0 is_first_packet_in_frame 0 kVideoCodecVP8 (VideoHeaderVP8 vp8_header),
          descriptor_size))
  end.

Definition Parse (rtp_payload : bytes) : option (option ParsedRtpPayload) :=
  parsed ← ParseRtpPayload rtp_payload;
  match parsed with
  | None => Some None
  | Some (video_header, offset) =>
      check (offset <? zlen rtp_payload) ;;
      Some (Some (Parsed video_header (drop (Z.to_nat offset) rtp_payload)))
  end.

End vp8.

End VideoRtpDepacketizerVp8.

(** ** The descriptor *)

Section descriptor.
Import RtpPacketizerVp8 VideoRtpDepacketizerVp8.
Context {globals : Vp8Globals} {globals_laws : Vp8GlobalsLaws}.

(** A header that ValidateHeader accepts. *)
Record vp8_ok (h : RTPVideoHeaderVP8) : Prop := {
  ok_picture_id : pictureId h = kNoPictureId \/ 0 <= pictureId h <= 0x7FFF;
  ok_tl0_pic_idx : tl0PicIdx h = kNoTl0PicIdx \/ 0 <= tl0PicIdx h <= 0xFF;
  ok_temporal_idx : temporalIdx h = kNoTemporalIdx /\ layerSync h = false \/ 0 <= temporalIdx h <= 3;
  ok_key_idx : keyIdx h = kNoKeyIdx \/ 0 <= keyIdx h <= 0x1F
}.

Definition has_pid (h : RTPVideoHeaderVP8) : bool := negb (pictureId h =? kNoPictureId).
Definition has_tl0 (h : RTPVideoHeaderVP8) : bool := negb (tl0PicIdx h =? kNoTl0PicIdx).
Definition has_tid (h : RTPVideoHeaderVP8) : bool := negb (temporalIdx h =? kNoTemporalIdx).
Definition has_key (h : RTPVideoHeaderVP8) : bool := negb (keyIdx h =? kNoKeyIdx).

Lemma has_pid_range h : vp8_ok h -> has_pid h = true -> 0 <= pictureId h <= 0x7FFF.
Proof. intros [H _ _ _]. unfold has_pid. destruct (Z.eqb_spec (pictureId h) kNoPictureId); [done|]. tauto. Qed.

Lemma has_tl0_range h : vp8_ok h -> has_tl0 h = true -> 0 <= tl0PicIdx h <= 0xFF.
Proof. intros [_ H _ _]. unfold has_tl0. destruct (Z.eqb_spec (tl0PicIdx h) kNoTl0PicIdx); [done|]. tauto. Qed.

Lemma has_tid_range h : vp8_ok h -> has_tid h = true -> 0 <= temporalIdx h <= 3.
Proof. intros [_ _ H _]. unfold has_tid. destruct (Z.eqb_spec (temporalIdx h) kNoTemporalIdx); [done|]. tauto. Qed.

Lemma has_key_range h : vp8_ok h -> has_key h = true -> 0 <= keyIdx h <= 0x1F.
Proof. intros [_ _ _ H]. unfold has_key. destruct (Z.eqb_spec (keyIdx h) kNoKeyIdx); [done|]. tauto. Qed.

(** The wire format of RFC 7741, section 4.2. *)
Definition flags_octet (first : bool) (h : RTPVideoHeaderVP8) : Z :=
  (if has_pid h || has_tl0 h || has_tid h || has_key h then 128 else 0) + (if nonReference h then 32 else 0)
  + (if first then 16 else 0).

Definition x_octet (h : RTPVideoHeaderVP8) : Z :=
  (if has_pid h then 128 else 0) + (if has_tl0 h then 64 else 0) + (if has_tid h then 32 else 0) + (if has_key h then 16 else 0).

Definition tk_octet (h : RTPVideoHeaderVP8) : Z :=
  (if has_tid h then temporalIdx h * 64 + (if layerSync h then 32 else 0) else 0) + (if has_key h then keyIdx h else 0).

Definition extension_octets (h : RTPVideoHeaderVP8) : bytes :=
  (if has_pid h then [128 + pictureId h / 256; pictureId h mod 256] else [])
  ++ (if has_tl0 h then [tl0PicIdx h] else []) ++ (if has_tid h || has_key h then [tk_octet h] else []).

Definition wire (first : bool) (h : RTPVideoHeaderVP8) : bytes :=
  flags_octet first h :: (if has_pid h || has_tl0 h || has_tid h || has_key h then x_octet h :: extension_octets h else []).

Lemma ValidateHeader_ok h : vp8_ok h -> ValidateHeader h = Some true.
Proof.
  intros Hok. pose proof (has_pid_range h Hok) as H1. pose proof (has_tl0_range h Hok) as H2.
  pose proof (has_tid_range h Hok) as H3. pose proof (has_key_range h Hok) as H4. destruct Hok as [_ _ H5 _].
  unfold ValidateHeader, has_pid, has_tl0, has_tid, has_key in *.
  assert (E : forall (b : bool) x hi, (b = true -> 0 <= x <= hi) -> (if b then check (x >=? 0) ;; check (x <=? hi) else Some tt) = Some tt).
  { intros [] x hi Hx; [|done]. specialize (Hx eq_refl). rewrite check_then by lia. apply check_true. lia. }
  rewrite (E _ _ _ H1), (E _ _ _ H2), (E _ _ _ H4). cbn [mbind option_bind].
  destruct (Z.eqb_spec (temporalIdx h) kNoTemporalIdx) as [Ht|]; cbn [negb] in *.
  - destruct H5 as [[_ ->]|H5]; [done|]. pose proof no_temporal_idx. lia.
  - specialize (H3 eq_refl). by rewrite !check_then by lia.
Qed.

Lemma vp8_picture_id_octets pid : 0 <= pid <= 0x7FFF ->
  u8 (Z.lor 0x80 (Z.land (Z.shiftr (u16 pid) 8) 0x7F)) = 128 + pid / 256 /\ u8 (Z.land (u16 pid) 0xFF) = pid mod 256
  /\ flag (128 + pid / 256) 0x80 = true /\ Z.land (128 + pid / 256) 0x7F = pid / 256
  /\ Z.shiftl (pid / 256) 8 + pid mod 256 = pid.
Proof.
  intros Hp. rewrite u16_id by (unfold is_u16; lia). rewrite (land_mask 7 0x7F), (land_mask 7 0x7F), (land_mask 8 0xFF) by done.
  rewrite Z.shiftr_div_pow2, Z.shiftl_mul_pow2 by done. change (2 ^ 7) with 128. change (2 ^ 8) with 256.
  rewrite (Z.mod_small (pid / 256)) by dlia. change 0x80 with (1 * 2 ^ 7) at 1.
  rewrite lor_shift_add by (change (2 ^ 7) with 128; dlia). change (2 ^ 7) with 128. unfold u8, flag.
  splits; try dlia. rewrite (land_top 7) by (change (2 ^ (7 + 1)) with 256; dlia). change (2 ^ 7) with 128.
  by rewrite (proj2 (Z.ltb_ge _ _)) by dlia.
Qed.

(** The last octet: TID, Y and KEYIDX. *)
Lemma tk_build (tid y key : bool) t k : 0 <= t <= 3 -> 0 <= k <= 31 ->
  let d := if tid then let d := u8 (Z.lor 0 (Z.shiftl t 6)) in if y then Z.lor d kYBit else d else 0 in
  (if key then u8 (Z.lor d (Z.land k kKeyIdxField)) else d)
  = (if tid then t * 64 + (if y then 32 else 0) else 0) + (if key then k else 0).
Proof.
  intros Ht Hk. cbv zeta. unfold kKeyIdxField, kYBit.
  assert (Ek : Z.land k 0x1F = k) by (rewrite (land_mask 5) by done; apply Z.mod_small; change (2 ^ 5) with 32; lia).
  rewrite Ek. set (d := if tid then _ else 0).
  assert (Hd : exists c, d = c * 2 ^ 5 /\ 0 <= c < 8 /\ d = if tid then t * 64 + (if y then 32 else 0) else 0).
  { assert (t = 0 \/ t = 1 \/ t = 2 \/ t = 3) as [->|[->|[->| ->]]] by lia; destruct tid, y;
      (exists (d / 32); by vm_compute). }
  destruct Hd as (c & Hc & Hc8 & <-). destruct key; [|lia]. rewrite Hc, lor_shift_add by (change (2 ^ 5) with 32; lia).
  change (2 ^ 5) with 32 in *. unfold u8. rewrite Z.mod_small by lia. done.
Qed.

Lemma tk_octet_read d : is_u8 d ->
  Z.land (Z.shiftr d 6) 0x03 = d / 64 /\ flag d 0x20 = (32 <=? d mod 64) /\ Z.land d 0x1F = d mod 32.
Proof.
  intros Hd. pose proof (octet_all (fun d => (Z.land (Z.shiftr d 6) 0x03 =? d / 64)
    && Bool.eqb (flag d 0x20) (32 <=? d mod 64) && (Z.land d 0x1F =? d mod 32)) ltac:(by vm_compute) d Hd) as H. cbn beta in H.
  apply andb_true_iff in H as [[H1%Z.eqb_eq H2%eqb_prop]%andb_true_iff H3%Z.eqb_eq]. done.
Qed.

Lemma BuildHeader_spec h : vp8_ok h -> BuildHeader h = Some (wire true h).
Proof.
  intros Hok. pose proof (has_pid_range h Hok) as H1. pose proof (has_tl0_range h Hok) as H2.
  pose proof (has_tid_range h Hok) as H3. pose proof (has_key_range h Hok) as H4.
  unfold BuildHeader. rewrite ValidateHeader_ok by done. cbn [mbind option_bind check].
  fold (has_pid h) (has_tl0 h) (has_tid h) (has_key h).
  assert (Etk : has_tid h || has_key h = true ->
    (let d := if has_tid h then let d := u8 (Z.lor 0 (Z.shiftl (temporalIdx h) 6)) in if layerSync h then Z.lor d kYBit else d else 0 in
     if has_key h then u8 (Z.lor d (Z.land (keyIdx h) kKeyIdxField)) else d) = tk_octet h).
  { intros _. unfold tk_octet.
    pose proof (tk_build (has_tid h) (layerSync h) (has_key h) (if has_tid h then temporalIdx h else 0) (if has_key h then keyIdx h else 0)) as E.
    cbv zeta in *. destruct (has_tid h), (has_key h); apply E; (lia || auto with lia). }
  cbv zeta in *. unfold wire, flags_octet, x_octet, extension_octets.
  assert (Epid : has_pid h = true -> [u8 (Z.lor 0x80 (Z.land (Z.shiftr (u16 (pictureId h)) 8) 0x7F)); u8 (Z.land (u16 (pictureId h)) 0xFF)]
    = [128 + pictureId h / 256; pictureId h mod 256]).
  { intros Hp. destruct (vp8_picture_id_octets _ (H1 Hp)) as (-> & -> & _). done. }
  assert (Etl0 : has_tl0 h = true -> u8 (tl0PicIdx h) = tl0PicIdx h) by (intros Hp; apply u8_id; unfold is_u8; specialize (H2 Hp); lia).
  destruct (has_pid h), (has_tl0 h), (has_tid h), (has_key h); cbn [orb negb] in *;
    try rewrite (Epid eq_refl); try rewrite (Etl0 eq_refl); try rewrite (Etk eq_refl); by destruct (nonReference h).
Qed.

Lemma clear_wire h : clear_start_bit (wire true h) = wire false h /\ clear_start_bit (wire false h) = wire false h.
Proof.
  unfold wire, clear_start_bit, flags_octet.
  by destruct (has_pid h), (has_tl0 h), (has_tid h), (has_key h), (nonReference h).
Qed.

Lemma flags_read first h : flag (flags_octet first h) 0x80 = (has_pid h || has_tl0 h || has_tid h || has_key h)
  /\ flag (flags_octet first h) 0x20 = nonReference h /\ flag (flags_octet first h) 0x10 = first
  /\ Z.land (flags_octet first h) 0x07 = 0.
Proof.
  unfold flags_octet. by destruct (has_pid h), (has_tl0 h), (has_tid h), (has_key h), (nonReference h), first.
Qed.

Lemma x_read h : flag (x_octet h) 0x80 = has_pid h /\ flag (x_octet h) 0x40 = has_tl0 h /\ flag (x_octet h) 0x20 = has_tid h
  /\ flag (x_octet h) 0x10 = has_key h.
Proof. unfold x_octet. by destruct (has_pid h), (has_tl0 h), (has_tid h), (has_key h). Qed.

(** What the depacketizer reads back. *)
Definition received_vp8 (first : bool) (h : RTPVideoHeaderVP8) : RTPVideoHeaderVP8 :=
  Vp8Header (nonReference h) (pictureId h) (tl0PicIdx h) (temporalIdx h) (layerSync h) (keyIdx h) 0 first.

Lemma absent_fields h : vp8_ok h -> (has_pid h = false -> pictureId h = kNoPictureId) /\ (has_tl0 h = false -> tl0PicIdx h = kNoTl0PicIdx)
  /\ (has_tid h = false -> temporalIdx h = kNoTemporalIdx /\ layerSync h = false) /\ (has_key h = false -> keyIdx h = kNoKeyIdx).
Proof.
  intros [_ _ Ht _]. unfold has_pid, has_tl0, has_tid, has_key. rewrite !negb_false_iff, !Z.eqb_eq. splits; try done.
  intros E. destruct Ht as [[_ ->]|Ht]; [done|]. pose proof no_temporal_idx. lia.
Qed.

Lemma parse_picture_id_step h vp8 rest n : vp8_ok h -> has_pid h = true ->
  parse_picture_id vp8 ([128 + pictureId h / 256; pictureId h mod 256] ++ rest) n = Some (set_picture_id (pictureId h) vp8, rest, n + 2).
Proof.
  intros Hok Hp. destruct (vp8_picture_id_octets _ (has_pid_range h Hok Hp)) as (_ & _ & Hf & Hl & Hs).
  cbn [app parse_picture_id]. rewrite Hf, Hl. cbn [set_picture_id pictureId]. by rewrite Hs.
Qed.

Lemma parse_tk_step h vp8 rest n : vp8_ok h -> parse_tid_key_idx (has_tid h) (has_key h) vp8 (tk_octet h :: rest) n
  = Some ((if has_key h then set_key_idx (keyIdx h) else id)
      ((if has_tid h then set_temporal (temporalIdx h) (layerSync h) else id) vp8), rest, n + 1).
Proof.
  intros Hok. pose proof (has_tid_range h Hok) as H3. pose proof (has_key_range h Hok) as H4.
  assert (Hu : is_u8 (tk_octet h)).
  { unfold is_u8, tk_octet. destruct (has_tid h), (has_key h), (layerSync h); try specialize (H3 eq_refl); try specialize (H4 eq_refl); lia. }
  cbn [parse_tid_key_idx]. destruct (tk_octet_read _ Hu) as (-> & -> & ->).
  assert (Ht : has_tid h = true -> tk_octet h / 64 = temporalIdx h /\ (32 <=? tk_octet h mod 64) = layerSync h).
  { intros E. specialize (H3 E). unfold tk_octet. rewrite E. set (k := if has_key h then keyIdx h else 0).
    assert (Hk : 0 <= k <= 31) by (unfold k; destruct (has_key h); [by apply H4|lia]).
    destruct (layerSync h); (split; [dlia|]); [apply Z.leb_le|apply Z.leb_gt]; dlia. }
  assert (Hk : has_key h = true -> tk_octet h mod 32 = keyIdx h).
  { intros E. specialize (H4 E). unfold tk_octet. rewrite E. destruct (has_tid h), (layerSync h); dlia. }
  destruct (has_tid h), (has_key h); cbn [id]; try destruct (Ht eq_refl) as [-> ->]; try rewrite (Hk eq_refl); done.
Qed.

Lemma parse_wire first h c : vp8_ok h ->
  ParseVP8Descriptor InitRTPVideoHeaderVP8 (wire first h ++ c) = Some (Some (received_vp8 first h, zlen (wire first h))).
Proof.
  intros Hok. destruct (absent_fields h Hok) as (H1 & H2 & H3 & H4).
  rewrite init_vp8. unfold wire. cbn [app ParseVP8Descriptor pictureId tl0PicIdx temporalIdx layerSync keyIdx].
  destruct (flags_read first h) as (-> & -> & -> & ->). unfold received_vp8.
  destruct (has_pid h || has_tl0 h || has_tid h || has_key h) eqn:Eany; cbn [negb].
  - cbn [app parse_extension]. destruct (x_read h) as (-> & -> & -> & ->). unfold extension_octets. rewrite <- !app_assoc.
    pose proof (fun vp8 rest n => parse_picture_id_step h vp8 rest n Hok) as Epid.
    pose proof (fun vp8 rest n => parse_tk_step h vp8 rest n Hok) as Etk.
    destruct (has_pid h) eqn:E1; [rewrite Epid by done|cbn [app]]; cbn [mbind option_bind];
      (destruct (has_tl0 h) eqn:E2; cbn [app parse_tl0_pic_idx mbind option_bind]);
      (destruct (has_tid h || has_key h) eqn:E3; [cbn [app]; rewrite Etk; cbn [mbind option_bind]|cbn [app mbind option_bind]]).
    all: destruct (has_tid h), (has_key h); try discriminate E3.
    all: try rewrite (H1 eq_refl); try rewrite (H2 eq_refl); try rewrite (H4 eq_refl); try (destruct (H3 eq_refl) as [-> ->]); done.
  - apply orb_false_iff in Eany as [[[E1 E2]%orb_false_iff E3]%orb_false_iff E4].
    destruct (H3 E3) as [-> ->]. by rewrite (H1 E1), (H2 E2), (H4 E4).
Qed.

(** What the depacketizer says of a packet with the octets [c] of the frame. *)
Definition is_key (first : bool) (c : bytes) : bool := first && (Z.land (default 0 (c !! 0%nat)) 0x01 =? 0).

Definition dimension (c : bytes) (i : nat) : Z :=
  Z.land (Z.shiftl (default 0 (c !! S i)) 8 + default 0 (c !! i)) 0x3FFF.

Definition vp8_header (first : bool) (h : RTPVideoHeaderVP8) (c : bytes) : RTPVideoHeader :=
  if is_key first c
  then VideoHeader kVideoFrameKey (dimension c 6) (dimension c 8) first 0 kVideoCodecVP8 (VideoHeaderVP8 (received_vp8 first h))
  else VideoHeader kVideoFrameDelta 0 0 first 0 kVideoCodecVP8 (VideoHeaderVP8 (received_vp8 first h)).

Lemma peek_default c i z : z = Z.of_nat i -> z < zlen c -> peek c z = Some (default 0 (c !! i)).
Proof.
  intros -> Hi. destruct (peek_Some c (Z.of_nat i) ltac:(lia)) as (v & Hv). rewrite Hv. unfold peek in Hv.
  rewrite (proj2 (Z.leb_le _ _)), Nat2Z.id in Hv by lia. by rewrite Hv.
Qed.

Lemma parse_payload first h c : vp8_ok h -> c <> [] ->
  Parse (wire first h ++ c) = Some (if is_key first c && (zlen c <? 10) then None else Some (Parsed (vp8_header first h c) c)).
Proof.
  intros Hok Hc. assert (Hl : 1 <= zlen c) by (destruct c; cbn [List.length]; [done|lia]).
  unfold Parse, ParseRtpPayload. rewrite length_app, Nat2Z.inj_add.
  assert (Hw : 1 <= zlen (wire first h)) by (cbn [wire List.length]; lia).
  rewrite (proj2 (Z.eqb_neq (zlen (wire first h) + zlen c) 0)) by lia.
  rewrite parse_wire by done. cbn [mbind option_bind received_vp8 partitionId beginningOfPartition check Z.ltb Z.compare].
  replace (zlen (wire first h) + zlen c - zlen (wire first h)) with (zlen c) by lia.
  rewrite (proj2 (Z.eqb_neq (zlen c) 0)), Nat2Z.id, drop_app_length by lia.
  rewrite (peek_default c 0 0) by lia. cbn [mbind option_bind]. rewrite Z.eqb_refl, andb_true_r.
  unfold vp8_header. change (first && (Z.land (default 0 (c !! 0%nat)) 1 =? 0)) with (is_key first c).
  destruct (is_key first c); cbn [andb].
  - destruct (Z.ltb_spec (zlen c) 10); [done|].
    rewrite (peek_default c 6 6), (peek_default c 7 7), (peek_default c 8 8), (peek_default c 9 9) by lia. cbn [mbind option_bind].
    rewrite check_then by lia. by rewrite Nat2Z.id, drop_app_length.
  - cbn [mbind option_bind]. rewrite check_then by lia. by rewrite Nat2Z.id, drop_app_length.
Qed.

(** The frame, when the first packet of a key frame has its ten octets of header. *)
Definition received_vp8_frame (h : RTPVideoHeaderVP8) (cs : list bytes) : list ParsedRtpPayload :=
  match cs with
  | [] => []
  | c :: cs => Parsed (vp8_header true h c) c :: map (fun c => Parsed (vp8_header false h c) c) cs
  end.

Lemma parse_vp8_frame h cs : vp8_ok h -> Forall (fun c => c <> []) cs ->
  (forall c, List.hd_error cs = Some c -> is_key true c = true -> 10 <= zlen c) ->
  mapM Parse (with_headers clear_start_bit (wire true h) cs) = Some (map Some (received_vp8_frame h cs)).
Proof.
  intros Hok Hne Hkey. apply mapM_Some. destruct cs as [|c cs]; [constructor|].
  apply list.Forall_cons in Hne as [Hc Hne]. cbn [with_headers received_vp8_frame map]. destruct (clear_wire h) as [-> Hidem]. constructor.
  - rewrite parse_payload by done. specialize (Hkey c eq_refl). destruct (is_key true c) eqn:E; [|done].
    cbn [andb]. by rewrite (proj2 (Z.ltb_ge _ _)) by auto.
  - clear Hkey. induction Hne as [|c' cs Hc' Hne IH]; [constructor|]. cbn [with_headers map]. rewrite Hidem. constructor; [|done].
    by rewrite parse_payload.
Qed.

End descriptor.

(** ** Sending and receiving *)

Section frames.
Import RtpPacket RtpPacketizerVp8 VideoRtpDepacketizerVp8.
Context {globals : Vp8Globals} {globals_laws : Vp8GlobalsLaws}.
Context {buf : Type} {cow : CowBuffer buf} {cow_laws : CowBufferLaws buf}.
Context {ext_limits : RtpExtension} {ext_laws : RtpExtensionLaws}.
Context {numerics : RtcNumerics} {numerics_laws : RtcNumericsLaws}.

Definition pending (st : t) (pls : list bytes) : Prop :=
  (current_packet_ st <= List.length (payload_sizes_ st))%nat
  /\ let sizes := drop (current_packet_ st) (payload_sizes_ st) in
     Forall (fun n => 1 <= n) sizes /\ sum_list sizes = zlen (remaining_payload_ st) /\ is_bytes (remaining_payload_ st)
     /\ is_bytes (hdr_ st) /\ pls = with_headers clear_start_bit (hdr_ st) (chunks (remaining_payload_ st) sizes).

Lemma clear_start_bit_bytes h : is_bytes h -> is_bytes (clear_start_bit h).
Proof.
  destruct h as [|b h]; [done|]. intros [Hb Hh]%list.Forall_cons. constructor; [|done]. by apply land_u8.
Qed.

Lemma length_clear_start h : List.length (clear_start_bit h) = List.length h.
Proof. by destruct h. Qed.

Lemma vp8_next st pl pls (p : RtpPacket.t buf) im : pending st (pl :: pls) -> represents p im -> im_padding im = 0 ->
  payload_start im + zlen pl <= capacity p -> capacity p < 2 ^ 63 ->
  exists st' p', NextPacket p st = Some (st', p', true) /\ pending st' pls
  /\ outcome p p' (im_set_marker (bool_decide (pls = [])) (im_set_payload pl im)).
Proof.
  intros (Hc & Hpos & Hsum & Hb & Hbh & Hpls) Hr Hpad Hroom Hcap.
  destruct (drop (current_packet_ st) (payload_sizes_ st)) as [|n sizes] eqn:Hd; [done|].
  destruct (drop_sizes _ _ _ _ Hd) as (Hl & Hd' & Hle & Hend). cbn [chunks with_headers] in Hpls. injection Hpls as Hpl Hpls.
  apply list.Forall_cons in Hpos as [Hn Hpos]. pose proof (sizes_nonneg _ Hpos) as Hs0.
  change (sum_list (n :: sizes)) with (n + sum_list sizes) in Hsum. subst pl.
  set (c := take (Z.to_nat n) (remaining_payload_ st)) in *. assert (Hzc : zlen c = n) by (unfold c; rewrite length_take; lia).
  destruct (fill_payload p im (hdr_ st) c Hr Hpad Hbh) as (p1 & p2 & p3 & HA & HW1 & HW2 & Hr3 & Hc3 & Hm3);
    [by apply Forall_take|done|done|].
  unfold NextPacket. rewrite Hl. cbn iota zeta. rewrite Hzc in HA. rewrite HA. cbn [mbind option_bind]. rewrite HW1. cbn [mbind option_bind].
  rewrite load_Some by lia. cbn [mbind option_bind drop Z.to_nat]. rewrite drop_0. fold c. rewrite HW2. cbn [mbind option_bind]. rewrite Hend.
  destruct (SetMarker_rep p3 _ (bool_decide (sizes = [])) Hr3) as (p4 & -> & Hr4 & Hc4 & Hm4). cbn [mbind option_bind].
  assert (Hnil : bool_decide (pls = []) = bool_decide (sizes = [])) by (subst pls; by destruct sizes).
  eexists _, p4. split; [done|]. rewrite Hnil. split; [|split; [exact Hr4|split; congruence]].
  unfold pending. cbn [current_packet_ payload_sizes_ remaining_payload_ hdr_]. rewrite Hd'.
  split; [done|]. split; [done|]. split; [rewrite length_drop; lia|]. split; [by apply Forall_drop|].
  split; [by apply clear_start_bit_bytes|done].
Qed.

Lemma vp8_laws : packetizer_laws (buf := buf) NumPackets NextPacket pending.
Proof.
  constructor.
  - intros st pls (Hc & _ & _ & _ & _ & ->). rewrite length_with_headers, length_chunks, length_drop. unfold NumPackets. lia.
  - intros st p (Hc & _ & _ & _ & _ & Hpls). unfold NextPacket. rewrite lookup_ge_None_2; [done|].
    destruct (drop _ _) eqn:Hd in Hpls; [|done]. apply (f_equal List.length) in Hd. rewrite length_drop in Hd. cbn in Hd. lia.
  - intros. by apply vp8_next.
Qed.

Lemma wire_bytes first h : vp8_ok h -> is_bytes (wire first h) /\ zlen (wire first h) <= 6.
Proof.
  intros Hok. pose proof (has_pid_range h Hok) as H1. pose proof (has_tl0_range h Hok) as H2.
  pose proof (has_tid_range h Hok) as H3. pose proof (has_key_range h Hok) as H4.
  unfold wire, flags_octet, extension_octets, x_octet, tk_octet, is_bytes, is_u8.
  destruct (has_pid h), (has_tl0 h), (has_tid h), (has_key h); try specialize (H1 eq_refl); try specialize (H2 eq_refl);
    try specialize (H3 eq_refl); try specialize (H4 eq_refl); cbn [orb app].
  all: split; [|cbn [List.length]; lia].
  all: repeat (apply list.Forall_cons; split; [destruct (nonReference h), first, (layerSync h); dlia|]); apply List.Forall_nil.
Qed.

(** The pieces of a split are not empty, and the first has the size of the first. *)
Lemma chunks_nonempty sizes payload : Forall (fun n => 1 <= n) sizes -> sum_list sizes = zlen payload ->
  Forall (fun c => c <> []) (chunks payload sizes)
  /\ forall c, List.hd_error (chunks payload sizes) = Some c -> zlen c = List.hd 0 sizes /\ c !! 0%nat = payload !! 0%nat.
Proof.
  intros Hpos Hsum. destruct (chunks_spec sizes payload Hpos Hsum) as [_ Hsz]. split.
  - apply list.Forall_lookup. intros i c Hc. assert (Hx : sizes !! i = Some (zlen c)) by (rewrite <- Hsz, list_lookup_fmap, Hc; done).
    eapply list.Forall_lookup_1 in Hpos; [|exact Hx]. cbn beta in Hpos. by intros ->.
  - intros c Hc. destruct sizes as [|n sizes]; [done|]. cbn [chunks List.hd_error List.hd map] in *. injection Hc as <-.
    apply list.Forall_cons in Hpos as [Hn _]. injection Hsz as Hl _. split; [done|]. apply lookup_take_lt. lia.
Qed.

(** C19. A VP8 frame of 1 to 2^28 octets, under limits of at most 2^28 that leave room, with
    descriptor fields that are absent or in range (a sync bit only with a temporal layer), in
    whatever packets with room the sender has prepared, arrives with its descriptor: every
    packet is within its limit and only the last has the marker bit; the depacketizer accepts
    every payload and reads back the non-reference bit, the 15-bit picture id, the TL0 index,
    the temporal layer with its sync bit and the key index, each when it was there, and whether
    the packet starts the frame; the payloads assemble to the frame. A key frame, one whose
    first bit is clear, is announced with the dimensions of its header; its first packet must
    hold ten octets. *)
Theorem vp8_frame payload limits h (n := zlen (wire true h)) : vp8_ok h -> is_bytes payload ->
  0 < zlen payload <= 2 ^ 28 -> small_limits limits -> small_limits (reserved n limits) ->
  exists st sizes, create payload limits h = Some st
  /\ SplitAboutEqually (zlen payload) (reserved n limits) = Some sizes /\ NumPackets st = zlen sizes
  /\ (sizes <> [] -> (Z.land (default 0 (payload !! 0%nat)) 1 = 0 -> 10 <= List.hd 0 sizes) ->
      forall ps (q : RtpPacket.t buf), zlen ps = NumPackets st -> Forall (prepared (max_payload_len limits)) ps ->
      exists st' ps' pls, fill_packets NextPacket ps st = Some (st', ps', true) /\ NumPackets st' = 0
      /\ receive_all q ps' = Some (marked pls) /\ within limits pls
      /\ mapM VideoRtpDepacketizerVp8.Parse pls = Some (map Some (received_vp8_frame h (chunks payload sizes)))
      /\ AssembleFrame (map video_payload (received_vp8_frame h (chunks payload sizes))) = payload).
Proof.
  intros Hok Hb Hp Hs Hs'. destruct (wire_bytes true h Hok) as [Hbw Hn6].
  destruct (split_about_equally (reserved n limits) (zlen payload) Hp Hs') as (sizes & HS & _).
  exists (Mk (wire true h) payload sizes 0), sizes. unfold create. rewrite BuildHeader_spec by done. cbn [mbind option_bind].
  rewrite int_size, reserve_eq by (done || lia). fold n. rewrite HS. cbn [mbind option_bind].
  split; [done|]. split; [done|]. split; [unfold NumPackets; cbn; lia|]. intros Hne Hkey ps q Hl Hps.
  destruct (frame_within clear_start_bit (wire true h) limits payload sizes length_clear_start Hp Hs' HS Hne) as (Hpos & Hsum & Hwithin).
  set (pls := with_headers _ _ _) in *. set (st := Mk _ _ _ _) in *.
  assert (Hst : pending st pls)
    by (unfold pending; cbn [current_packet_ payload_sizes_ remaining_payload_ hdr_ st]; rewrite drop_0; split; [lia|done]).
  destruct (frame_arrives NumPackets NextPacket pending vp8_laws (max_payload_len limits) pls (within_max _ _ Hs Hwithin) st ps q Hst Hl Hps)
    as (st' & ps' & HF & Hst' & HR).
  exists st', ps', pls. split; [done|]. split; [by rewrite (law_count _ _ _ vp8_laws st' _ Hst')|]. split; [done|]. split; [done|].
  destruct (chunks_nonempty sizes payload Hpos Hsum) as [Hnz Hhd]. split.
  - apply parse_vp8_frame; [done|done|]. intros c Hc E. destruct (Hhd c Hc) as [-> H0]. apply Hkey.
    unfold is_key in E. rewrite H0 in E. cbn [andb] in E. lia.
  - destruct (chunks_spec sizes payload Hpos Hsum) as [Hcat _]. rewrite <- Hcat at 2. unfold AssembleFrame. f_equal.
    destruct (chunks payload sizes) as [|c cs]; [done|]. cbn [received_vp8_frame map video_payload]. f_equal.
    rewrite map_map. apply map_id.
Qed.

End frames.

(** ** A concrete frame *)

Definition sample_vp8 : RTPVideoHeaderVP8 := Vp8Header true 0x1234 200 2 true (-1) 5 false.

Definition sample_key_frame : bytes := [0x50; 1; 2; 3; 4; 5; 0x80; 0x42; 0xe0; 1; 10; 11; 12; 13; 14; 15; 16; 17; 18; 19; 20].

(** A key frame of 640 by 480 in two packets. *)
Lemma vp8_frame_witness : exists (p : RtpPacket.t plain_buffer) st st' ps' pls,
  RtpPacketizerVp8.create sample_key_frame (Limits 20 0 0 0) sample_vp8 = Some st
  /\ fill_packets RtpPacketizerVp8.NextPacket [p; p] st = Some (st', ps', true)
  /\ receive_all p ps' = Some (marked pls)
  /\ mapM VideoRtpDepacketizerVp8.Parse pls = Some
    [Some (Parsed (VideoHeader kVideoFrameKey 640 480 true 0 kVideoCodecVP8
       (VideoHeaderVP8 (Vp8Header true 0x1234 200 2 true (-1) 0 true))) (take 10 sample_key_frame));
     Some (Parsed (VideoHeader kVideoFrameDelta 0 0 false 0 kVideoCodecVP8
       (VideoHeaderVP8 (Vp8Header true 0x1234 200 2 true (-1) 0 false))) (drop 10 sample_key_frame))].
Proof.
  destruct (new_rep (buf := plain_buffer) sample_map sample_capacity) as (p & Hnew & Hr & Hc & _); [done|].
  destruct (vp8_frame (buf := plain_buffer) sample_key_frame (Limits 20 0 0 0) sample_vp8) as (st & sizes & Hmk & HS & Hn & Hall).
  - constructor; cbn; lia.
  - by repeat constructor.
  - by vm_compute.
  - by constructor; vm_compute.
  - by constructor; vm_compute.
  - vm_compute in HS. injection HS as <-.
    destruct (Hall ltac:(done) ltac:(by vm_compute) [p; p] p) as (st' & ps' & pls & HF & _ & HR & _ & HM & _); [by rewrite Hn| |].
    + assert (Hp : prepared 20 p) by (exists empty_image; rewrite Hc; split; [exact Hr|]; by repeat split). by repeat constructor.
    + exists p, st, st', ps', pls. split; [exact Hmk|]. split; [exact HF|]. split; [exact HR|]. rewrite HM. reflexivity.
Defined.
