(* ===== verification/RtpH264.v ===== *)
(** * H.264 in RTP, the sender: rtp_format_h264.{h,cc}

    NAL units are sent alone, aggregated (STAP-A) or in fragments (FU-A). The constructor
    plans the packets ([packets_]); NextPacket fills one. *)

From S2P Require Import Prelude.
From S2P Require Import ByteIo.
From S2P Require Import Buffers.
From S2P Require Import RtcpCore.
From S2P Require Import RtpExtensionMap.
From S2P Require Import RtpPacket.
From S2P Require Import RtpPacketBuild.
From S2P Require Import RtpPacketOps.
From S2P Require Import RtpFormat.
From S2P Require Import RtpVideo.
Import RtpPacketizer.

(** common_video/h264: the types of NAL units that the payload format names. *)
Class NaluTypes := {
  kStapA : Z;
  kFuA : Z
}.

(** A type has five bits. *)
Class NaluTypesLaws {types : NaluTypes} := {
  kStapA_type : 0 <= kStapA <= 0x1F;
  kFuA_type : 0 <= kFuA <= 0x1F;
  kStapA_kFuA : kStapA <> kFuA
}.

(** RFC 6184. *)
#[global] Instance rfc6184 : NaluTypes | 100 := {| kStapA := 24; kFuA := 28 |}.

#[global] Instance rfc6184_laws : NaluTypesLaws.
Proof. constructor; cbn; lia. Qed.

(** api/video_codecs *)
Inductive H264PacketizationMode := NonInterleaved | SingleNalUnit.

Module RtpPacketizerH264.
Import RtpPacket.

Section h264.
Context {types : NaluTypes}.

Definition kNalHeaderSize : Z := 1.
Definition kFuAHeaderSize : Z := 2.
Definition kLengthFieldSize : Z := 2.

Definition kFBit : Z := 0x80.
Definition kNriMask : Z := 0x60.
Definition kTypeMask : Z := 0x1F.
Definition kSBit : Z := 0x80.
Definition kEBit : Z := 0x40.

Record PacketUnit := Packet {
  source_fragment : bytes;
  first_fragment : bool;
  last_fragment : bool;
  aggregated : bool;
  header : Z
}.

Record t := Mk {
  limits_ : PayloadSizeLimits;
  num_packets_left_ : Z;                     (* size_t *)
  input_fragments_ : list bytes;
  packets_ : list PacketUnit                 (* the queue, its front first *)
}.

(** payload_sizes, from the octets at [offset] of the fragment. *)
Fixpoint push_fu_a (fragment : bytes) (fragment0 : Z) (first : bool) (offset payload_left : Z) (payload_sizes : list Z)
  : option (list PacketUnit * Z) :=
  match payload_sizes with
  | [] => Some ([], payload_left)
  | packet_length :: rest =>
      check (packet_length >? 0) ;;
      '(units, payload_left) ←
        push_fu_a fragment fragment0 false (offset + packet_length) (u64 (payload_left - packet_length)) rest;
      Some (Packet (take (Z.to_nat packet_length) (drop (Z.to_nat offset) fragment)) first (bool_decide (rest = [])) false fragment0
              :: units, payload_left)
  end.

Definition fu_a_limits (limits : PayloadSizeLimits) (num_fragments fragment_index : nat) : PayloadSizeLimits :=
  let l := RtpPacketizerGeneric.reserve kFuAHeaderSize limits in
  let single :=
    if negb (num_fragments =? 1)%nat then
      if (fragment_index =? num_fragments - 1)%nat then last_packet_reduction_len limits
      else if (fragment_index =? 0)%nat then first_packet_reduction_len limits
      else 0
    else single_packet_reduction_len l in
  Limits (max_payload_len l)
    (if negb (fragment_index =? 0)%nat then 0 else first_packet_reduction_len l)
    (if negb (fragment_index =? num_fragments - 1)%nat then 0 else last_packet_reduction_len l)
    single.

(** The units to push and the number of packets; inside, None for failure. *)
Definition PacketizeFuA (this : t) (fragment_index : nat) : option (option (list PacketUnit * Z)) :=
  fragment ← input_fragments_ this !! fragment_index;
  let limits := fu_a_limits (limits_ this) (List.length (input_fragments_ this)) fragment_index in
  let payload_left := u64 (zlen fragment - kNalHeaderSize) in
  payload_sizes ← SplitAboutEqually (sw 32 payload_left) limits;
  match payload_sizes with
  | [] => Some None
  | _ =>
      fragment0 ← peek fragment 0;
      '(units, payload_left) ← push_fu_a fragment fragment0 true kNalHeaderSize payload_left payload_sizes;
      check (payload_left =? 0) ;;
      Some (Some (units, zlen payload_sizes))
  end.

(** The lambda payload_size_needed. *)
Definition payload_size_needed (this : t) (fragment_index : nat) (fragment : bytes) (fragment_headers_length : Z) : Z :=
  let fragment_size := u64 (zlen fragment + fragment_headers_length) in
  if (List.length (input_fragments_ this) =? 1)%nat then fragment_size
  else if (fragment_index =? List.length (input_fragments_ this) - 1)%nat
  then u64 (fragment_size + last_packet_reduction_len (limits_ this))
  else fragment_size.

(** The aggregation loop: the units and the index of the next fragment. *)
Fixpoint stap_a_loop (fuel : nat) (this : t) (fragment_index : nat) (fragment : bytes)
    (payload_size_left fragment_headers_length aggregated_fragments : Z) : option (list PacketUnit * nat) :=
  match fuel with
  | O => None
  | S fuel =>
      if payload_size_left >=? payload_size_needed this fragment_index fragment fragment_headers_length then
        check (zlen fragment >? 0) ;;
        fragment0 ← peek fragment 0;
        let unit := Packet fragment (aggregated_fragments =? 0) false true fragment0 in
        let payload_size_left := u64 (payload_size_left - zlen fragment) in
        let payload_size_left := u64 (payload_size_left - fragment_headers_length) in
        let fragment_headers_length := kLengthFieldSize in
        let fragment_headers_length :=
          if aggregated_fragments =? 0 then fragment_headers_length + (kNalHeaderSize + kLengthFieldSize)
          else fragment_headers_length in
        let fragment_index := S fragment_index in
        if (fragment_index =? List.length (input_fragments_ this))%nat then Some ([unit], fragment_index) else
        fragment ← input_fragments_ this !! fragment_index;
        '(units, next) ← stap_a_loop fuel this fragment_index fragment payload_size_left fragment_headers_length
          (aggregated_fragments + 1);
        Some (unit :: units, next)
      else Some ([], fragment_index)
  end.

(** packets_.back().last_fragment = true *)
Fixpoint mark_back (units : list PacketUnit) : list PacketUnit :=
  match units with
  | [] => []
  | [u] => [Packet (source_fragment u) (first_fragment u) true (aggregated u) (header u)]
  | u :: units => u :: mark_back units
  end.

(** The units to push, of one packet, and the index after them. *)
Definition PacketizeStapA (this : t) (fragment_index : nat) : option (list PacketUnit * nat) :=
  let payload_size_left := u64 (max_payload_len (limits_ this)) in
  let payload_size_left :=
    if (List.length (input_fragments_ this) =? 1)%nat
    then u64 (payload_size_left - single_packet_reduction_len (limits_ this))
    else if (fragment_index =? 0)%nat then u64 (payload_size_left - first_packet_reduction_len (limits_ this))
    else payload_size_left in
  fragment ← input_fragments_ this !! fragment_index;
  check (payload_size_left >=? zlen fragment) ;;
  '(units, next) ← stap_a_loop (S (List.length (input_fragments_ this))) this fragment_index fragment payload_size_left 0 0;
  check (zlen units >? 0) ;;
  Some (mark_back units, next).

(** The unit to push; inside, None for failure. *)
Definition PacketizeSingleNalu (this : t) (fragment_index : nat) : option (option PacketUnit) :=
  let payload_size_left := u64 (max_payload_len (limits_ this)) in
  let payload_size_left :=
    if (List.length (input_fragments_ this) =? 1)%nat
    then u64 (payload_size_left - single_packet_reduction_len (limits_ this))
    else if (fragment_index =? 0)%nat then u64 (payload_size_left - first_packet_reduction_len (limits_ this))
    else if (S fragment_index =? List.length (input_fragments_ this))%nat
    then u64 (payload_size_left - last_packet_reduction_len (limits_ this))
    else payload_size_left in
  fragment ← input_fragments_ this !! fragment_index;
  if payload_size_left <? zlen fragment then Some None else
  check (zlen fragment >? 0) ;;
  fragment0 ← peek fragment 0;
  Some (Some (Packet fragment true true false fragment0)).

Definition push (units : list PacketUnit) (num_packets : Z) (this : t) : t :=
  Mk (limits_ this) (u64 (num_packets_left_ this + num_packets)) (input_fragments_ this) (packets_ this ++ units).

Definition single_packet_capacity (this : t) (i : nat) : option Z :=
  let l := limits_ this in
  if (List.length (input_fragments_ this) =? 1)%nat then int (max_payload_len l - single_packet_reduction_len l)
  else if (i =? 0)%nat then int (max_payload_len l - first_packet_reduction_len l)
  else if (S i =? List.length (input_fragments_ this))%nat then int (max_payload_len l - last_packet_reduction_len l)
  else Some (max_payload_len l).

(** The loop of GeneratePackets; each round moves on. *)
Fixpoint generate_loop (fuel : nat) (mode : H264PacketizationMode) (this : t) (i : nat) : option (t * bool) :=
  if (i <? List.length (input_fragments_ this))%nat then
    match fuel with
    | O => None
    | S fuel =>
        match mode with
        | SingleNalUnit =>
            unit ← PacketizeSingleNalu this i;
            match unit with
            | None => Some (this, false)
            | Some unit => generate_loop fuel mode (push [unit] 1 this) (S i)
            end
        | NonInterleaved =>
            fragment ← input_fragments_ this !! i;
            let fragment_len := sw 32 (zlen fragment) in
            capacity ← single_packet_capacity this i;
            if fragment_len >? capacity then
              packets ← PacketizeFuA this i;
              match packets with
              | None => Some (this, false)
              | Some (units, num_packets) => generate_loop fuel mode (push units num_packets this) (S i)
              end
            else
              '(units, next) ← PacketizeStapA this i;
              generate_loop fuel mode (push units 1 this) next
        end
    end
  else Some (this, true).

Definition GeneratePackets (mode : H264PacketizationMode) (this : t) : option (t * bool) :=
  generate_loop (List.length (input_fragments_ this)) mode this 0.

(** payload.subview *)
Definition subview (payload : bytes) (index : Z * Z) : bytes :=
  take (Z.to_nat (snd index)) (drop (Z.to_nat (fst index)) payload).

(** H264::FindNaluIndices gives the offset and the size of each NAL unit of the payload. *)
Definition create (FindNaluIndices : bytes -> list (Z * Z)) (payload : bytes) (limits : PayloadSizeLimits)
    (packetization_mode : H264PacketizationMode) : option t :=
  let this := Mk limits 0 (map (subview payload) (FindNaluIndices payload)) [] in
  '(this, ok) ← GeneratePackets packetization_mode this;
  if ok : bool then Some this else Some (Mk limits 0 (input_fragments_ this) []).

Definition NumPackets (this : t) : Z := num_packets_left_ this.

(** packets_.pop(); pop_front of an empty queue is undefined. *)
Definition pop_packet (this : t) : option t :=
  match packets_ this with
  | [] => None
  | _ :: packets => Some (Mk (limits_ this) (num_packets_left_ this) (input_fragments_ this) packets)
  end.

Definition pop_fragment (this : t) : option t :=
  match input_fragments_ this with
  | [] => None
  | _ :: fragments => Some (Mk (limits_ this) (num_packets_left_ this) fragments (packets_ this))
  end.

(** The loop of NextAggregatePacket with the check of is_last_fragment behind it; [buffer] is
    the start of the payload. *)
Fixpoint aggregate_loop `{CowBuffer buf} (fuel : nat) (buffer payload_capacity index : Z) (this : t) (rtp_packet : RtpPacket.t buf)
  : option (t * RtpPacket.t buf * Z) :=
  match fuel with
  | O => None
  | S fuel =>
      packet ← head (packets_ this);
      if aggregated packet then
        let fragment := source_fragment packet in
        check (index + kLengthFieldSize + zlen fragment <=? payload_capacity) ;;
        rtp_packet ← WriteAt (buffer + index) (ByteWriter.WriteBigEndian 2 (zlen fragment)) rtp_packet;
        let index := index + kLengthFieldSize in
        rtp_packet ← WriteAt (buffer + index) fragment rtp_packet;
        let index := index + zlen fragment in
        this ← pop_packet this;
        this ← pop_fragment this;
        if last_fragment packet then Some (this, rtp_packet, index)
        else aggregate_loop fuel buffer payload_capacity index this rtp_packet
      else check (last_fragment packet) ;; Some (this, rtp_packet, index)
  end.

Definition NextAggregatePacket `{CowBuffer buf, RtcNumerics} (rtp_packet : RtpPacket.t buf) (this : t)
  : option (t * RtpPacket.t buf) :=
  let payload_capacity := FreeCapacity rtp_packet in
  check (payload_capacity >=? kNalHeaderSize) ;;
  '(rtp_packet, buffer) ← AllocatePayload payload_capacity rtp_packet;
  buffer ← buffer;
  packet ← head (packets_ this);
  check (first_fragment packet) ;;
  rtp_packet ← WriteAt buffer [Z.lor (Z.land (header packet) (Z.lor kFBit kNriMask)) kStapA] rtp_packet;
  '(this, rtp_packet, index) ←
    aggregate_loop (List.length (packets_ this)) buffer payload_capacity kNalHeaderSize this rtp_packet;
  '(rtp_packet, _) ← SetPayloadSize index rtp_packet;
  Some (this, rtp_packet).

Definition NextFragmentPacket `{CowBuffer buf, RtcNumerics} (rtp_packet : RtpPacket.t buf) (this : t)
  : option (t * RtpPacket.t buf) :=
  packet ← head (packets_ this);
  let fu_indicator := Z.lor (Z.land (header packet) (Z.lor kFBit kNriMask)) kFuA in
  let fu_header := 0 in
  let fu_header := Z.lor fu_header (if first_fragment packet then kSBit else 0) in
  let fu_header := Z.lor fu_header (if last_fragment packet then kEBit else 0) in
  let type := Z.land (header packet) kTypeMask in
  let fu_header := Z.lor fu_header type in
  let fragment := source_fragment packet in
  '(rtp_packet, buffer) ← AllocatePayload (kFuAHeaderSize + zlen fragment) rtp_packet;
  buffer ← buffer;
  rtp_packet ← WriteAt buffer [fu_indicator] rtp_packet;
  rtp_packet ← WriteAt (buffer + 1) [fu_header] rtp_packet;
  rtp_packet ← WriteAt (buffer + kFuAHeaderSize) fragment rtp_packet;
  this ← (if last_fragment packet then pop_fragment this else Some this);
  this ← pop_packet this;
  Some (this, rtp_packet).

(** The payload of the next packet, whose first unit is [packet]. *)
Definition next_payload `{CowBuffer buf, RtcNumerics} (packet : PacketUnit) (rtp_packet : RtpPacket.t buf) (this : t)
  : option (t * RtpPacket.t buf) :=
  if first_fragment packet && last_fragment packet then
    let bytes_to_send := zlen (source_fragment packet) in
    '(rtp_packet, buffer) ← AllocatePayload bytes_to_send rtp_packet;
    buffer ← buffer;
    rtp_packet ← WriteAt buffer (source_fragment packet) rtp_packet;
    this ← pop_packet this;
    this ← pop_fragment this;
    Some (this, rtp_packet)
  else if aggregated packet then NextAggregatePacket rtp_packet this
  else NextFragmentPacket rtp_packet this.

Definition NextPacket `{CowBuffer buf, RtcNumerics} (rtp_packet : RtpPacket.t buf) (this : t)
  : option (t * RtpPacket.t buf * bool) :=
  match packets_ this with
  | [] => Some (this, rtp_packet, false)
  | packet :: _ =>
      '(this, rtp_packet) ← next_payload packet rtp_packet this;
      rtp_packet ← SetMarker (bool_decide (packets_ this = [])) rtp_packet;
      Some (Mk (limits_ this) (u64 (num_packets_left_ this - 1)) (input_fragments_ this) (packets_ this), rtp_packet, true)
  end.

End h264.

End RtpPacketizerH264.

(** ** Filling the packets *)

Section fill.
Import RtpPacket RtpPacketizerH264.
Context {types : NaluTypes} {types_laws : NaluTypesLaws}.
Context {buf : Type} {cow : CowBuffer buf} {cow_laws : CowBufferLaws buf}.
Context {ext_limits : RtpExtension} {ext_laws : RtpExtensionLaws}.
Context {numerics : RtcNumerics} {numerics_laws : RtcNumericsLaws}.

(** The three payload structures of RFC 6184. *)
Definition fu_indicator (h : Z) : Z := Z.lor (Z.land h 0xE0) kFuA.

Definition fu_header (first last : bool) (h : Z) : Z :=
  (if first then 128 else 0) + (if last then 64 else 0) + Z.land h 0x1F.

Definition fu_payload (first last : bool) (h : Z) (c : bytes) : bytes := [fu_indicator h; fu_header first last h] ++ c.

Definition stap_items (gs : list bytes) : bytes := concat (map (fun g => be_bytes 2 (zlen g) ++ g) gs).

Definition stap_header (gs : list bytes) : Z := Z.lor (Z.land (List.hd 0 (List.hd [] gs)) 0xE0) kStapA.

Definition stap_payload (gs : list bytes) : bytes := stap_header gs :: stap_items gs.

(** The units of an aggregation packet. *)
Fixpoint stap_units (first : bool) (gs : list bytes) : list PacketUnit :=
  match gs with
  | [] => []
  | g :: gs => Packet g first (bool_decide (gs = [])) true (List.hd 0 g) :: stap_units false gs
  end.

(** A NAL unit: its header and octets. *)
Definition nal_ok (g : bytes) : Prop := g <> [] /\ is_bytes g.

(** The queue [us], which takes [n] more of the input fragments, is sent as [pls]. *)
Inductive sends : list PacketUnit -> nat -> list bytes -> Prop :=
  | sends_nil : sends [] 0 []
  | sends_single g agg h us n pls : nal_ok g -> sends us n pls -> sends (Packet g true true agg h :: us) (S n) (g :: pls)
  | sends_stap gs us n pls : (2 <= List.length gs)%nat -> Forall nal_ok gs -> Forall (fun g => zlen g <= 65535) gs ->
      sends us n pls -> sends (stap_units true gs ++ us) (List.length gs + n) (stap_payload gs :: pls)
  | sends_fragment c h first us n pls : is_u8 h -> is_bytes c -> sends us n pls ->
      sends (Packet c first false false h :: us) n (fu_payload first false h c :: pls)
  | sends_last_fragment c h us n pls : is_u8 h -> is_bytes c -> sends us n pls ->
      sends (Packet c false true false h :: us) (S n) (fu_payload false true h c :: pls).

Definition pending (st : t) (pls : list bytes) : Prop :=
  sends (packets_ st) (List.length (input_fragments_ st)) pls /\ num_packets_left_ st = zlen pls /\ zlen pls < 2 ^ 64.

Lemma fu_octets first last h : is_u8 h ->
  is_u8 (fu_indicator h) /\ is_u8 (fu_header first last h)
  /\ Z.lor (Z.lor (Z.lor 0 (if first then kSBit else 0)) (if last then kEBit else 0)) (Z.land h kTypeMask) = fu_header first last h
  /\ Z.lor (Z.land h (Z.lor kFBit kNriMask)) kFuA = fu_indicator h.
Proof.
  intros Hh. pose proof kFuA_type. unfold fu_indicator, fu_header, kSBit, kEBit, kTypeMask.
  assert (Hl : 0 <= Z.land h 0x1F < 32) by (rewrite (land_mask 5) by done; change (2 ^ 5) with 32; apply Z.mod_pos_bound; lia).
  split; [apply lor_u8; [by apply land_u8|unfold is_u8; lia]|].
  split; [unfold is_u8; destruct first, last; lia|]. split; [|done]. rewrite Z.lor_0_l.
  set (x := Z.land h 0x1F) in *. clearbody x. change (2 ^ 6) with 64 in *. destruct first, last; cbn iota.
  - change (Z.lor 128 64) with (3 * 2 ^ 6). rewrite lor_shift_add by (change (2 ^ 6) with 64; lia). done.
  - change (Z.lor 128 0) with (1 * 2 ^ 7). rewrite lor_shift_add by (change (2 ^ 7) with 128; lia). done.
  - change (Z.lor 0 64) with (1 * 2 ^ 6). rewrite lor_shift_add by (change (2 ^ 6) with 64; lia). done.
  - done.
Qed.

Lemma stap_units_head first g gs us : stap_units first (g :: gs) ++ us
  = Packet g first (bool_decide (gs = [])) true (List.hd 0 g) :: (stap_units false gs ++ us).
Proof. done. Qed.

(** The aggregated units, one after the other. *)
Lemma aggregate_loop_spec gs : forall first fuel (p : RtpPacket.t buf) im A R st us, represents p im -> im_payload im = A ++ R ->
  packets_ st = stap_units first gs ++ us -> (List.length gs <= List.length (input_fragments_ st))%nat ->
  gs <> [] -> Forall nal_ok gs -> Forall (fun g => zlen g <= 65535) gs ->
  zlen (stap_items gs) <= zlen R -> (List.length gs <= fuel)%nat ->
  exists p' R', aggregate_loop fuel (payload_start im) (zlen A + zlen R) (zlen A) st p
    = Some (Mk (limits_ st) (num_packets_left_ st) (drop (List.length gs) (input_fragments_ st)) us, p', zlen A + zlen (stap_items gs))
  /\ outcome p p' (im_set_payload (A ++ stap_items gs ++ R') im).
Proof.
  induction gs as [|g gs IH]; intros first fuel p im A R st us Hr Hpay Hq Hfr Hne Hok Hsz Hroom Hf; [done|].
  destruct fuel as [|fuel]; [cbn in Hf; lia|]. apply list.Forall_cons in Hok as [[Hg Hb] Hok]. apply list.Forall_cons in Hsz as [Hgz Hsz].
  assert (Hit : stap_items (g :: gs) = (be_bytes 2 (zlen g) ++ g) ++ stap_items gs) by done.
  rewrite Hit, !length_app, length_be_bytes in Hroom. change (Z.of_nat (2 + _)) with (2 + zlen g) in Hroom.
  cbn [aggregate_loop]. rewrite Hq, stap_units_head. cbn [head mbind option_bind aggregated source_fragment last_fragment].
  unfold kLengthFieldSize. rewrite check_then by lia. rewrite WriteBigEndian_spec.
  destruct (write_part p im A (take 2 R) (drop 2 R) (be_bytes 2 (zlen g)) Hr) as (p1 & HW1 & Hr1 & Hc1 & Hm1);
    [by rewrite take_drop|rewrite length_take, length_be_bytes; lia|apply be_bytes_is_bytes|].
  rewrite HW1. cbn [mbind option_bind].
  destruct (write_part p1 _ (A ++ be_bytes 2 (zlen g)) (take (List.length g) (drop 2 R)) (drop (List.length g) (drop 2 R)) g Hr1)
    as (p2 & HW2 & Hr2 & Hc2 & Hm2); [by rewrite take_drop, <- app_assoc|rewrite length_take, length_drop; lia|done|].
  rewrite length_app, length_be_bytes, Nat2Z.inj_add in HW2.
  change (payload_start (im_set_payload _ im)) with (payload_start im) in HW2. change (Z.of_nat 2) with 2 in HW2.
  rewrite <- Z.add_assoc. rewrite HW2. cbn [mbind option_bind].
  destruct st as [lim num frags pk]. cbn [packets_ input_fragments_ limits_ num_packets_left_] in *. subst pk.
  destruct frags as [|fr0 frags]; [cbn in Hfr; lia|]. rewrite stap_units_head.
  cbn [pop_packet pop_fragment packets_ input_fragments_ limits_ num_packets_left_ mbind option_bind].
  set (A' := A ++ be_bytes 2 (zlen g) ++ g). set (R' := drop (List.length g) (drop 2 R)).
  assert (Hr2' : represents p2 (im_set_payload (A' ++ R') im)) by (unfold A'; rewrite <- !app_assoc; rewrite <- app_assoc in Hr2; exact Hr2).
  assert (HA' : zlen A' = zlen A + (2 + zlen g)) by (unfold A'; rewrite !length_app, length_be_bytes; lia).
  assert (HR' : zlen A' + zlen R' = zlen A + zlen R) by (rewrite HA'; unfold R'; rewrite !length_drop; lia).
  destruct gs as [|g' gs].
  - rewrite bool_decide_true by done. exists p2, R'. split; [|split; [|split; congruence]].
    + cbn [List.length drop stap_units app stap_items map concat]. rewrite drop_0, app_nil_r, length_app, length_be_bytes. do 3 f_equal. lia.
    + cbn [stap_items map concat]. rewrite app_nil_r. unfold A' in Hr2'. by rewrite <- app_assoc in Hr2'.
  - rewrite bool_decide_false by done. rewrite Z.add_assoc, <- (Z.add_assoc (zlen A)), <- HA', <- HR'.
    destruct (IH false fuel p2 (im_set_payload (A' ++ R') im) A' R' (Mk lim num frags (stap_units false (g' :: gs) ++ us)) us Hr2')
      as (p3 & R3 & HL & Hr3 & Hc3 & Hm3); try done.
    { cbn [input_fragments_ List.length] in *. lia. } { lia. } { cbn [List.length] in *. lia. }
    change (payload_start (im_set_payload (A' ++ R') im)) with (payload_start im) in HL. rewrite HL.
    cbn [limits_ num_packets_left_ input_fragments_]. exists p3, R3. rewrite Hit. split.
    + cbn [List.length drop]. do 2 f_equal. rewrite HA', length_app, Nat2Z.inj_add, length_app, length_be_bytes. lia.
    + split; [|split; congruence]. unfold A' in Hr3. rewrite <- !app_assoc in *. exact Hr3.
Qed.

Lemma length_stap_units gs : forall first, List.length (stap_units first gs) = List.length gs.
Proof. induction gs as [|g gs IH]; intros first; cbn; [done|]. by rewrite IH. Qed.

Lemma stap_header_u8 gs : Forall nal_ok gs -> is_u8 (stap_header gs).
Proof.
  intros Hok. pose proof kStapA_type. apply lor_u8; [|unfold is_u8; lia]. apply land_u8.
  destruct Hok as [|g gs [Hne Hb] _]; [done|]. cbn [List.hd]. destruct Hb; [done|]. done.
Qed.

(** An aggregation packet. *)
Lemma NextAggregatePacket_spec gs us st (p : RtpPacket.t buf) im : represents p im -> im_padding im = 0 -> im_payload im = [] ->
  packets_ st = stap_units true gs ++ us -> (List.length gs <= List.length (input_fragments_ st))%nat ->
  gs <> [] -> Forall nal_ok gs -> Forall (fun g => zlen g <= 65535) gs ->
  payload_start im + zlen (stap_payload gs) <= capacity p -> capacity p < 2 ^ 63 ->
  exists p', NextAggregatePacket p st
    = Some (Mk (limits_ st) (num_packets_left_ st) (drop (List.length gs) (input_fragments_ st)) us, p')
  /\ outcome p p' (im_set_payload (stap_payload gs) im).
Proof.
  intros Hr Hpad Hpay Hq Hfr Hne Hok Hsz Hroom Hcap. unfold stap_payload in Hroom. cbn [List.length] in Hroom.
  pose proof (payload_start_bound im (rep_wf _ _ Hr)) as Hps.
  assert (Hfree : FreeCapacity p = capacity p - payload_start im).
  { assert (Hreads := data_reads p im (rep_wf _ _ Hr) (rep_shows _ _ Hr) (rep_data _ _ Hr)). unfold FreeCapacity.
    rewrite (reads_size _ _ Hreads), length_image, Hpay, Hpad by apply Hr. cbn [List.length]. lia. }
  unfold NextAggregatePacket. rewrite Hfree. unfold kNalHeaderSize. rewrite check_then by lia.
  destruct (AllocatePayload_room p im (capacity p - payload_start im) Hr Hpad) as (p1 & Y & HA & HY & Hr1 & Hc1 & Hm1); [lia|lia|done|].
  rewrite HA. cbn [mbind option_bind]. rewrite Hq. destruct gs as [|g gs]; [done|]. rewrite stap_units_head.
  cbn [head mbind option_bind first_fragment check header].
  destruct (write_part p1 _ [] (take 1 Y) (drop 1 Y) [stap_header (g :: gs)] Hr1) as (p2 & HW2 & Hr2 & Hc2 & Hm2);
    [by rewrite take_drop|rewrite length_take; cbn [List.length]; lia|apply bytes_one; by apply stap_header_u8|].
  cbn [List.length] in HW2. rewrite Z.add_0_r in HW2. change (payload_start (im_set_payload _ im)) with (payload_start im) in HW2.
  change (Z.lor (Z.land (List.hd 0 g) (Z.lor kFBit kNriMask)) kStapA) with (stap_header (g :: gs)).
  rewrite HW2. cbn [mbind option_bind].
  destruct (aggregate_loop_spec (g :: gs) true (List.length (packets_ st)) p2 _ [stap_header (g :: gs)] (drop 1 Y) st us Hr2)
    as (p3 & R3 & HL & Hr3 & Hc3 & Hm3); try done.
  { rewrite length_drop. lia. } { rewrite Hq, length_app, length_stap_units. lia. }
  change (payload_start (im_set_payload _ (im_set_payload Y im))) with (payload_start im) in HL.
  replace (zlen [stap_header (g :: gs)] + zlen (drop 1 Y)) with (capacity p - payload_start im) in HL
    by (rewrite length_drop; cbn [List.length]; lia).
  rewrite Hq, stap_units_head in HL. change (zlen [stap_header (g :: gs)]) with 1 in HL. rewrite HL. cbn [mbind option_bind].
  set (n := 1 + zlen (stap_items (g :: gs))) in *. set (im3 := im_set_payload _ _) in Hr3.
  assert (Hp3 : im_payload im3 = stap_payload (g :: gs) ++ R3) by done.
  assert (Hn : n = zlen (stap_payload (g :: gs))) by (unfold n, stap_payload; cbn [List.length]; lia).
  destruct (SetPayloadSize_rep p3 im3 n Hr3 Hpad) as [[Hlt _]|(p4 & Z4 & HS & Hr4 & HZ & Htake & Hc4 & Hm4)].
  - change (2 ^ 63) with 9223372036854775808 in *. change (2 ^ 17) with 131072 in *. lia.
  - change (payload_start im3) with (payload_start im) in Hlt. lia.
  - rewrite HS. cbn [mbind option_bind]. exists p4. split; [done|].
    assert (E : Z4 = stap_payload (g :: gs)).
    { rewrite Hp3, length_app, Z.min_l in Htake by lia. rewrite Hn, Nat2Z.id, take_app_length in Htake.
      rewrite <- Htake. symmetry. apply take_ge. lia. }
    subst Z4. split; [exact Hr4|split; congruence].
Qed.

(** A fragment of a NAL unit. *)
Lemma NextFragmentPacket_spec c first last h us frags num lim (p : RtpPacket.t buf) im (st := Mk lim num frags (Packet c first last false h :: us)) :
  represents p im -> im_padding im = 0 -> is_u8 h -> is_bytes c -> (last = true -> frags <> []) ->
  payload_start im + zlen (fu_payload first last h c) <= capacity p -> capacity p < 2 ^ 63 ->
  exists p', NextFragmentPacket p st = Some (Mk lim num (if last then drop 1 frags else frags) us, p')
  /\ outcome p p' (im_set_payload (fu_payload first last h c) im).
Proof.
  intros Hr Hpad Hh Hc Hfr Hroom Hcap. destruct (fu_octets first last h Hh) as (Hi & Hf & Efh & Efi).
  unfold NextFragmentPacket. cbn [st packets_ head mbind option_bind header first_fragment last_fragment source_fragment].
  rewrite Efh, Efi. unfold kFuAHeaderSize. unfold fu_payload in Hroom. rewrite length_app in Hroom. cbn [List.length] in Hroom.
  destruct (AllocatePayload_room p im (2 + zlen c) Hr Hpad) as (p1 & Y & HA & HY & Hr1 & Hc1 & Hm1); [lia|lia|done|].
  rewrite HA. cbn [mbind option_bind].
  destruct (write_part p1 _ [] (take 1 Y) (drop 1 Y) [fu_indicator h] Hr1) as (p2 & HW2 & Hr2 & Hc2 & Hm2);
    [by rewrite take_drop|rewrite length_take; cbn [List.length]; lia|by apply bytes_one|].
  destruct (write_part p2 _ [fu_indicator h] (take 1 (drop 1 Y)) (drop 1 (drop 1 Y)) [fu_header first last h] Hr2) as (p3 & HW3 & Hr3 & Hc3 & Hm3);
    [cbn [im_set_payload im_payload app]; by rewrite take_drop|rewrite length_take, length_drop; cbn [List.length]; lia|by apply bytes_one|].
  destruct (write_part p3 _ [fu_indicator h; fu_header first last h] (drop 1 (drop 1 Y)) [] c Hr3) as (p4 & HW4 & Hr4 & Hc4 & Hm4);
    [cbn [im_set_payload im_payload app]; by rewrite app_nil_r|rewrite !length_drop; lia|done|].
  cbn [List.length] in HW2, HW3, HW4. rewrite Z.add_0_r in HW2.
  change (payload_start (im_set_payload _ im)) with (payload_start im) in HW2.
  change (payload_start (im_set_payload _ _)) with (payload_start im) in HW3, HW4. change (Z.of_nat 1) with 1 in HW3. change (Z.of_nat 2) with 2 in HW4.
  rewrite HW2. cbn [mbind option_bind]. rewrite HW3. cbn [mbind option_bind]. rewrite HW4. cbn [mbind option_bind].
  rewrite app_nil_r in Hr4. exists p4. split; [|split; [exact Hr4|split; congruence]].
  destruct last; [|done]. destruct frags; [by destruct (Hfr eq_refl)|]. done.
Qed.

Lemma sends_none us n : sends us n [] -> us = [].
Proof. by inversion 1. Qed.

Lemma sends_empty n pl pls : ~ sends [] n (pl :: pls).
Proof. inversion 1 as [| |gs us n' pls' Hl _ _ _ E| |]; subst. destruct gs; [cbn in Hl; lia|done]. Qed.

Lemma h264_next st pl pls (p : RtpPacket.t buf) im : pending st (pl :: pls) -> represents p im -> im_padding im = 0 -> im_payload im = [] ->
  payload_start im + zlen pl <= capacity p -> capacity p < 2 ^ 63 ->
  exists st' p', NextPacket p st = Some (st', p', true) /\ pending st' pls
  /\ outcome p p' (im_set_marker (bool_decide (pls = [])) (im_set_payload pl im)).
Proof.
  intros (Hs & Hnum & Hbig) Hr Hpad Hpay Hroom Hcap. destruct st as [lim num frags pk].
  cbn [packets_ input_fragments_ num_packets_left_ List.length] in *.
  assert (Hu : u64 (num - 1) = zlen pls) by (rewrite Hnum; rewrite u64_id; unfold is_u64; change (2 ^ 64) with 18446744073709551616 in *; lia).
  assert (Hlast : forall us n, sends us n pls -> bool_decide (us = []) = bool_decide (pls = [])).
  { intros us n H. destruct pls as [|pl' pls]; [by rewrite (sends_none _ _ H)|]. destruct us; [by destruct (sends_empty n pl' pls)|done]. }
  (* the unit is filled, then the marker bit set *)
  assert (Hgo : forall us n p1, pk <> [] -> sends us n pls -> List.length (drop (List.length frags - n) frags) = n ->
    (packet ← head pk; next_payload packet p (Mk lim num frags pk))
      = Some (Mk lim num (drop (List.length frags - n) frags) us, p1) -> outcome p p1 (im_set_payload pl im) ->
    exists st' p', NextPacket p (Mk lim num frags pk) = Some (st', p', true) /\ pending st' pls
    /\ outcome p p' (im_set_marker (bool_decide (pls = [])) (im_set_payload pl im))).
  { intros us n p1 Hne Hs' Hn HE (Hr1 & Hc1 & Hm1). unfold NextPacket. cbn [packets_]. destruct pk as [|packet pk]; [done|].
    cbn [head mbind option_bind] in HE. rewrite HE. cbn [mbind option_bind packets_]. rewrite (Hlast us n Hs').
    destruct (SetMarker_rep p1 _ (bool_decide (pls = [])) Hr1) as (p2 & -> & Hr2 & Hc2 & Hm2). cbn [mbind option_bind].
    eexists _, p2. split; [done|]. split; [|split; [exact Hr2|split; congruence]].
    unfold pending. cbn [packets_ input_fragments_ num_packets_left_]. rewrite Hn, Hu. split; [done|]. split; [done|].
    change (2 ^ 64) with 18446744073709551616 in *. lia. }
  clear Hnum Hbig. inversion Hs as [|g agg h us n pls' [Hg Hb] Hs' E1 E2 E3|gs us n pls' Hlen Hok Hsz Hs' E1 E2 E3|c h first us n pls' Hh Hc Hs' E1 E2 E3
    |c h us n pls' Hh Hc Hs' E1 E2 E3]; subst.
  - destruct frags as [|f frags]; [done|]. injection E2 as E2.
    assert (Hd : drop (List.length (f :: frags) - n) (f :: frags) = frags)
      by (subst n; cbn [List.length]; replace (S _ - _)%nat with 1%nat by lia; cbn; apply drop_0).
    destruct (AllocatePayload_rep p im pl Hr Hpad Hb Hroom Hcap) as (p1 & p2 & HA & HW & Hout).
    apply (Hgo us n p2); [done|done|by rewrite Hd|rewrite Hd|done].
    unfold next_payload. cbn [head mbind option_bind first_fragment last_fragment andb source_fragment]. cbv zeta. rewrite HA. cbn [mbind option_bind]. rewrite HW. done.
  - assert (Hd : drop (List.length frags - n) frags = drop (List.length gs) frags) by (f_equal; lia).
    destruct gs as [|g gs]; [cbn in Hlen; lia|].
    destruct (NextAggregatePacket_spec (g :: gs) us (Mk lim num frags (stap_units true (g :: gs) ++ us)) p im Hr Hpad Hpay)
      as (p1 & HN & Hout); try done. { cbn [input_fragments_]. lia. }
    apply (Hgo us n p1); [done|done|rewrite Hd, length_drop; lia| |done].
    rewrite Hd. rewrite stap_units_head in *. cbn [head mbind option_bind]. unfold next_payload.
    cbn [first_fragment last_fragment aggregated]. rewrite bool_decide_false in * by (intros ->; cbn in Hlen; lia). exact HN.
  - assert (Hd : drop (List.length frags - List.length frags) frags = frags) by (rewrite Nat.sub_diag; apply drop_0).
    destruct (NextFragmentPacket_spec c first false h us frags num lim p im Hr Hpad Hh Hc) as (p1 & HN & Hout); [done|done|done|].
    apply (Hgo us (List.length frags) p1); [done|done|by rewrite Hd| |done].
    rewrite Hd. unfold next_payload. cbn [head mbind option_bind first_fragment last_fragment aggregated]. rewrite andb_false_r. exact HN.
  - destruct frags as [|f frags]; [done|]. injection E2 as E2.
    assert (Hd : drop (List.length (f :: frags) - n) (f :: frags) = frags)
      by (subst n; cbn [List.length]; replace (S _ - _)%nat with 1%nat by lia; cbn; apply drop_0).
    destruct (NextFragmentPacket_spec c false true h us (f :: frags) num lim p im Hr Hpad Hh Hc) as (p1 & HN & Hout); [done|done|done|].
    apply (Hgo us n p1); [done|done|by rewrite Hd|rewrite Hd|done].
    unfold next_payload. cbn [head mbind option_bind first_fragment last_fragment aggregated andb].
    cbn [drop] in HN. rewrite drop_0 in HN. exact HN.
Qed.

Lemma h264_laws : packetizer_laws (buf := buf) NumPackets NextPacket pending.
Proof.
  constructor.
  - by intros st pls (_ & Hn & _).
  - intros st p (Hs & _ & _). unfold NextPacket. by rewrite (sends_none _ _ Hs).
  - intros. by apply h264_next.
Qed.

End fill.
