(* ===== verification/RtpH264Plan.v ===== *)
(** * The packets that RtpPacketizerH264 plans: GeneratePackets

    The queue after the constructor is, fragment by fragment, single NAL units, aggregates
    and fragments ([carries]), each within the limit of its position ([fits]). *)

From S2P Require Import Prelude.
From S2P Require Import ByteIo.
From S2P Require Import Buffers.
From S2P Require Import RtcpCore.
From S2P Require Import RtpExtensionMap.
From S2P Require Import RtpPacket.
From S2P Require Import RtpPacketBuild.
From S2P Require Import RtpPacketOps.
From S2P Require Import RtpFormat.
From S2P Require Import RtpVideo.
From S2P Require Import RtpH264.
Import RtpPacketizer RtpPacketizerH264.

Section plan.
Context {types : NaluTypes} {types_laws : NaluTypesLaws}.

(** ** Payloads and the NAL units that they carry *)

Fixpoint fu_payloads (first : bool) (h : Z) (cs : list bytes) : list bytes :=
  match cs with
  | [] => []
  | c :: cs => fu_payload first (bool_decide (cs = [])) h c :: fu_payloads false h cs
  end.

Inductive carries : list bytes -> list bytes -> Prop :=
  | carries_nil : carries [] []
  | carries_single g pls gs : nal_ok g -> carries pls gs -> carries (g :: pls) (g :: gs)
  | carries_stap gs' pls gs : (2 <= length gs')%nat -> Forall nal_ok gs' -> Forall (fun g => zlen g <= 65535) gs' ->
      carries pls gs -> carries (stap_payload gs' :: pls) (gs' ++ gs)
  | carries_fu h cs pls gs : (2 <= length cs)%nat -> is_u8 h -> Forall (fun c => c <> [] /\ is_bytes c) cs ->
      carries pls gs -> carries (fu_payloads true h cs ++ pls) ((h :: concat cs) :: gs).

(** Each packet within the limit, less the reductions of the first and the last. *)
Definition fits (limits : PayloadSizeLimits) (first last : bool) (pls : list bytes) : Prop :=
  forall k pl, pls !! k = Some pl -> zlen pl <= max_payload_len limits
    - (if first && (k =? 0)%nat then first_packet_reduction_len limits else 0)
    - (if last && (S k =? length pls)%nat then last_packet_reduction_len limits else 0).

Lemma fits_nil limits first last : fits limits first last [].
Proof. by intros k pl. Qed.

Lemma fits_app limits first a b : a <> [] -> fits limits first (bool_decide (b = [])) a -> fits limits false true b ->
  fits limits first true (a ++ b).
Proof.
  intros Hne Ha Hb k pl Hk. rewrite length_app. destruct (decide (k < length a)%nat) as [Hlt|Hge].
  - rewrite lookup_app_l in Hk by done. apply Ha in Hk. destruct b as [|x b].
    + rewrite bool_decide_true in Hk by done. cbn [length]. by rewrite Nat.add_0_r.
    + rewrite bool_decide_false in Hk by done. cbn [andb] in Hk.
      replace (S k =? length a + length (x :: b))%nat with false by (symmetry; apply Nat.eqb_neq; cbn [length]; lia). done.
  - rewrite lookup_app_r in Hk by lia. apply Hb in Hk. cbn [andb] in Hk.
    replace (k =? 0)%nat with false by (symmetry; apply Nat.eqb_neq; destruct a; [done|cbn [length] in *; lia]).
    rewrite andb_false_r. replace (S k =? length a + length b)%nat with (S (k - length a) =? length b)%nat; [done|].
    destruct (Nat.eqb_spec (S (k - length a)) (length b)), (Nat.eqb_spec (S k) (length a + length b)); lia.
Qed.

Lemma length_fu_payloads h cs : forall first, length (fu_payloads first h cs) = length cs.
Proof. induction cs as [|c cs IH]; intros first; cbn; [done|]. by rewrite IH. Qed.

Lemma carries_count pls gs : carries pls gs -> zlen pls <= zlen (concat gs).
Proof.
  induction 1 as [|g pls gs [Hg _] _ IH|gs' pls gs Hl Hok _ _ IH|h cs pls gs Hl _ Hcs _ IH]; cbn [concat].
  - done.
  - rewrite length_app. destruct g; [done|]. cbn [length]. lia.
  - rewrite concat_app, length_app. cbn [length]. assert (1 <= zlen (concat gs')); [|lia].
    destruct Hok as [|g gs' [Hg _] _]; [cbn in Hl; lia|]. cbn [concat]. rewrite length_app. destruct g; [done|]. cbn [length]. lia.
  - rewrite !length_app, length_fu_payloads. cbn [length]. assert (zlen cs <= zlen (concat cs)); [|lia].
    clear - Hcs. induction Hcs as [|c cs [Hc _] _ IH]; [done|]. cbn [concat]. rewrite length_app. destruct c; [done|]. cbn [length]. lia.
Qed.

(** ** PacketizeFuA *)

(** The units of the fragments. *)
Fixpoint fu_units (first : bool) (h : Z) (cs : list bytes) : list PacketUnit :=
  match cs with
  | [] => []
  | c :: cs => Packet c first (bool_decide (cs = [])) false h :: fu_units false h cs
  end.

Lemma push_fu_a_spec fragment h sizes : forall first offset left,
  Forall (fun n => 1 <= n) sizes -> sum_list sizes = left -> 0 <= offset -> left < 2 ^ 32 ->
  push_fu_a fragment h first offset left sizes
  = Some (fu_units first h (chunks (drop (Z.to_nat offset) fragment) sizes), 0).
Proof.
  induction sizes as [|n sizes IH]; intros first offset left Hpos Hsum Hoff Hb; cbn [push_fu_a chunks fu_units].
  - by rewrite <- Hsum.
  - apply list.Forall_cons in Hpos as [Hn Hpos]. pose proof (sizes_nonneg _ Hpos) as H0.
    change (sum_list (n :: sizes)) with (n + sum_list sizes) in Hsum. change (2 ^ 32) with 4294967296 in *.
    rewrite check_then by lia. rewrite u64_id by (unfold is_u64; lia).
    rewrite IH; [|done|lia|lia|lia]. cbn [mbind option_bind].
    rewrite drop_drop. replace (Z.to_nat offset + Z.to_nat n)%nat with (Z.to_nat (offset + n)) by lia.
    do 4 f_equal. by destruct sizes.
Qed.

Lemma sends_fu h cs us n pls : is_u8 h -> Forall (fun c => c <> [] /\ is_bytes c) cs -> sends us n pls -> forall first,
  ((if first : bool then 2 else 1) <= length cs)%nat -> sends (fu_units first h cs ++ us) (S n) (fu_payloads first h cs ++ pls).
Proof.
  intros Hh Hcs Hs. induction Hcs as [|c cs [Hc Hb] Hcs IH]; intros first Hl; [destruct first; cbn in Hl; lia|].
  cbn [fu_units fu_payloads app]. destruct cs as [|c' cs].
  - destruct first; [cbn in Hl; lia|]. rewrite bool_decide_true by done. by constructor.
  - rewrite bool_decide_false by done. constructor; [done|done|]. apply IH. cbn; lia.
Qed.

(** ** One round of GeneratePackets *)

(** What a fragment may measure to go into one packet. *)
Definition capacity_at (limits : PayloadSizeLimits) (n i : nat) : Z :=
  max_payload_len limits -
    (if (n =? 1)%nat then single_packet_reduction_len limits
     else if (i =? 0)%nat then first_packet_reduction_len limits
     else if (S i =? n)%nat then last_packet_reduction_len limits else 0).

(** Limits for a format with a header of two octets: one octet more fits each packet, and a
    length fits 16 bits. *)
Record h264_limits (limits : PayloadSizeLimits) : Prop := {
  h264_max : max_payload_len limits <= 65535;
  h264_first : 0 <= first_packet_reduction_len limits <= max_payload_len limits - 3;
  h264_last : 0 <= last_packet_reduction_len limits <= max_payload_len limits - 3;
  h264_single : 0 <= single_packet_reduction_len limits <= max_payload_len limits - 3
}.

(** The payloads of the packets that carry the fragments from [i]; [rest] come after them. *)
Definition fits_at (limits : PayloadSizeLimits) (n i : nat) (rest pls : list bytes) : Prop :=
  if (n =? 1)%nat then
    (exists pl, pls = [pl] /\ zlen pl <= max_payload_len limits - single_packet_reduction_len limits)
    \/ (2 <= length pls)%nat /\ fits limits true true pls
  else fits limits (i =? 0)%nat (bool_decide (rest = [])) pls.

(** A round at fragment [i] pushes [units] of [num] packets and goes on at [next]. *)
Inductive round (limits : PayloadSizeLimits) (frags : list bytes) (i : nat) (units : list PacketUnit) (num : Z) (next : nat) : Prop :=
  Round gs rest pls : drop i frags = gs ++ rest -> gs <> [] -> next = (i + length gs)%nat -> pls <> [] -> num = zlen pls ->
    (forall us n pls', sends us n pls' -> sends (units ++ us) (length gs + n) (pls ++ pls')) ->
    (forall pls' gs', carries pls' gs' -> carries (pls ++ pls') (gs ++ gs')) ->
    fits_at limits (length frags) i rest pls -> round limits frags i units num next.

Lemma one_fits limits n i rest pl : zlen pl <= max_payload_len limits
    - (if (n =? 1)%nat then single_packet_reduction_len limits
       else (if (i =? 0)%nat then first_packet_reduction_len limits else 0)
         + (if bool_decide (rest = []) then last_packet_reduction_len limits else 0)) ->
  fits_at limits n i rest [pl].
Proof.
  unfold fits_at. destruct (n =? 1)%nat; intros Hl; [left; by exists pl|].
  intros [|k] x Hx; [|done]. injection Hx as <-. cbn [length]. rewrite !andb_true_r.
  destruct (i =? 0)%nat, (bool_decide _); cbn; lia.
Qed.

Lemma peek_head g : nal_ok g -> peek g 0 = Some (List.hd 0 g) /\ 1 <= zlen g.
Proof. intros [Hg _]. destruct g; [done|]. cbn [length]. split; [done|lia]. Qed.

Lemma drop_cons (l : list bytes) i g : l !! i = Some g -> drop i l = g :: drop (S i) l.
Proof. apply drop_S. Qed.

Lemma is_last (frags : list bytes) i : (i < length frags)%nat -> bool_decide (drop (S i) frags = []) = (S i =? length frags)%nat.
Proof.
  intros Hi. pose proof (length_drop frags (S i)) as Hl. destruct (drop (S i) frags) as [|g rest]; cbn [length] in Hl.
  - rewrite bool_decide_true by done. symmetry. apply Nat.eqb_eq. lia.
  - rewrite bool_decide_false by done. symmetry. apply Nat.eqb_neq. lia.
Qed.

(** A fragment alone in a packet. *)
Lemma single_round limits frags i g agg (rest := drop (S i) frags) : frags !! i = Some g -> nal_ok g -> zlen g <= capacity_at limits (length frags) i ->
  round limits frags i [Packet g true true agg (List.hd 0 g)] 1 (S i).
Proof.
  intros Hi Hg Hl. pose proof (lookup_lt_Some _ _ _ Hi) as Hlt.
  apply (Round _ _ _ _ _ _ [g] rest [g]); try done.
  - by apply drop_cons.
  - cbn [length]. lia.
  - intros. by constructor.
  - intros. by constructor.
  - apply one_fits. unfold capacity_at in Hl. destruct (Nat.eqb_spec (length frags) 1) as [|Hn]; [done|].
    unfold rest. rewrite is_last by done. destruct (Nat.eqb_spec i 0) as [->|]; [|lia].
    destruct (Nat.eqb_spec 1 (length frags)); [lia|]. lia.
Qed.

(** ** PacketizeSingleNalu *)

Lemma left_eq limits n i : h264_limits limits ->
  (let left := u64 (max_payload_len limits) in
   if (n =? 1)%nat then u64 (left - single_packet_reduction_len limits)
   else if (i =? 0)%nat then u64 (left - first_packet_reduction_len limits)
   else if (S i =? n)%nat then u64 (left - last_packet_reduction_len limits) else left) = capacity_at limits n i.
Proof.
  intros [Hm Hf Hl Hs]. cbv zeta. unfold capacity_at. rewrite (u64_id (max_payload_len limits)) by (unfold is_u64; lia).
  destruct (n =? 1)%nat; [apply u64_id; unfold is_u64; lia|]. destruct (i =? 0)%nat; [apply u64_id; unfold is_u64; lia|].
  destruct (S i =? n)%nat; [apply u64_id; unfold is_u64; lia|]. lia.
Qed.

Lemma PacketizeSingleNalu_spec this i g (n := length (input_fragments_ this)) : h264_limits (limits_ this) ->
  input_fragments_ this !! i = Some g -> nal_ok g ->
  PacketizeSingleNalu this i
  = Some (if capacity_at (limits_ this) n i <? zlen g then None else Some (Packet g true true false (List.hd 0 g))).
Proof.
  intros Hlim Hi Hg. destruct (peek_head g Hg) as [Hp Hl]. unfold PacketizeSingleNalu.
  rewrite left_eq by done. fold n. rewrite Hi. cbn [mbind option_bind]. destruct (_ <? _); [done|].
  rewrite check_then by lia. by rewrite Hp.
Qed.

(** ** PacketizeStapA *)

(** The units before the last one is marked. *)
Fixpoint raw_units (first : bool) (gs : list bytes) : list PacketUnit :=
  match gs with
  | [] => []
  | g :: gs => Packet g first false true (List.hd 0 g) :: raw_units false gs
  end.

Lemma mark_raw gs : forall first, mark_back (raw_units first gs) = stap_units first gs.
Proof. induction gs as [|g [|g' gs] IH]; intros first; [done|done|]. cbn [raw_units mark_back stap_units]. f_equal. apply (IH false). Qed.

(** The octets that the loop counts for the fragments. *)
Fixpoint cost (first : bool) (hdr : Z) (gs : list bytes) : Z :=
  match gs with
  | [] => 0
  | g :: gs => zlen g + hdr + cost false (if first then 5 else 2) gs
  end.

Lemma cost_items gs : cost false 2 gs = zlen (stap_items gs).
Proof.
  induction gs as [|g gs IH]; [done|]. cbn [cost]. rewrite IH. unfold stap_items. cbn [map concat].
  rewrite !length_app, length_be_bytes. lia.
Qed.

Lemma cost_payload gs : (2 <= length gs)%nat -> cost true 0 gs = zlen (stap_payload gs).
Proof.
  destruct gs as [|g [|g' gs]]; cbn [length]; [lia|lia|]. intros _. cbn [cost]. rewrite cost_items. unfold stap_payload, stap_items.
  cbn [map concat length]. rewrite !length_app, !length_be_bytes. lia.
Qed.

(** The reduction that the last fragment adds to its size. *)
Definition last_at (limits : PayloadSizeLimits) (n i : nat) : Z :=
  if (n =? 1)%nat then 0 else if (i =? n - 1)%nat then last_packet_reduction_len limits else 0.

Lemma last_at_nonneg limits n i : h264_limits limits -> 0 <= last_at limits n i.
Proof. intros [_ _ ? _]. unfold last_at. destruct (n =? 1)%nat; [lia|]. destruct (i =? _)%nat; lia. Qed.

Lemma needed_eq this i g hdr : h264_limits (limits_ this) -> zlen g <= 2 ^ 28 -> 0 <= hdr <= 5 ->
  payload_size_needed this i g hdr = zlen g + hdr + last_at (limits_ this) (length (input_fragments_ this)) i.
Proof.
  intros [Hm Hf Hl Hs] Hg Hh. unfold payload_size_needed, last_at. change (2 ^ 28) with 268435456 in *.
  assert (E : u64 (zlen g + hdr) = zlen g + hdr) by (apply u64_id; unfold is_u64; lia). rewrite E.
  destruct (length _ =? 1)%nat; [lia|]. destruct (i =? _)%nat; [|lia]. apply u64_id. unfold is_u64. lia.
Qed.

Lemma stap_a_loop_spec this (frags := input_fragments_ this) : h264_limits (limits_ this) ->
  Forall (fun g => nal_ok g /\ zlen g <= 2 ^ 28) frags ->
  forall fuel i g left hdr k, frags !! i = Some g -> 0 <= left <= 65535 -> 0 <= hdr <= 5 -> 0 <= k -> (length frags - i < fuel)%nat ->
  exists gs rest, stap_a_loop fuel this i g left hdr k = Some (raw_units (k =? 0) gs, (i + length gs)%nat)
  /\ drop i frags = gs ++ rest
  /\ (gs <> [] -> cost (k =? 0) hdr gs + (if bool_decide (rest = []) then last_at (limits_ this) (length frags) (length frags - 1) else 0) <= left)
  /\ (zlen g + hdr + last_at (limits_ this) (length frags) i <= left -> gs <> []).
Proof.
  intros Hlim Hok. induction fuel as [|fuel IH]; intros i g left hdr k Hi Hl Hh Hk Hf; [lia|].
  pose proof (lookup_lt_Some _ _ _ Hi) as Hlt. fold frags in Hlt. cbn [stap_a_loop].
  destruct (list.Forall_lookup_1 _ _ _ _ Hok Hi) as [Hg Hgz]. destruct (peek_head g Hg) as [Hp Hg1].
  rewrite needed_eq by done. fold frags. rewrite Z.geb_leb. destruct (Z.leb_spec (zlen g + hdr + last_at (limits_ this) (length frags) i) left) as [Hle|Hgt].
  2: { exists [], (drop i frags). split; [by rewrite Nat.add_0_r|]. split; [done|]. split; [done|lia]. }
  rewrite check_then by lia. rewrite Hp. cbn [mbind option_bind].
  pose proof (last_at_nonneg (limits_ this) (length frags) i Hlim) as Hla.
  rewrite (u64_id (left - zlen g)) by (unfold is_u64; lia). rewrite u64_id by (unfold is_u64; lia).
  destruct (Nat.eqb_spec (S i) (length frags)) as [E|E].
  - exists [g], []. split; [cbn [raw_units length]; do 2 f_equal; lia|].
    split; [rewrite (drop_cons _ _ _ Hi), (drop_ge _ (S i)) by (fold frags; lia); done|]. split; [|done].
    intros _. cbn [cost]. rewrite bool_decide_true by done. replace (length frags - 1)%nat with i by lia. lia.
  - destruct (lookup_lt_is_Some_2 frags (S i)) as [g' Hi']; [lia|]. rewrite Hi'. cbn [mbind option_bind].
    set (hdr' := if k =? 0 then _ else _). assert (Hh' : hdr' = if k =? 0 then 5 else 2) by (unfold hdr'; by destruct (k =? 0)).
    destruct (IH (S i) g' (left - zlen g - hdr) hdr' (k + 1) Hi') as (gs & rest & HL & Hd & Hc & _);
      [lia|rewrite Hh'; destruct (k =? 0); lia|lia|lia|].
    rewrite (proj2 (Z.eqb_neq (k + 1) 0)) in HL, Hc by lia. rewrite HL. cbn [mbind option_bind].
    exists (g :: gs), rest. split; [cbn [raw_units length]; do 2 f_equal; lia|].
    split; [rewrite (drop_cons _ _ _ Hi); by rewrite Hd|]. split; [|done]. intros _. cbn [cost]. rewrite <- Hh'.
    destruct gs as [|g'' gs].
    + cbn [cost]. cbn [app] in Hd. rewrite bool_decide_false; [lia|]. intros ->.
      apply (f_equal (length (A := bytes))) in Hd. rewrite length_drop in Hd. cbn in Hd. lia.
    + specialize (Hc ltac:(done)). lia.
Qed.

Lemma cost_member gs : forall first hdr, 0 <= hdr -> 0 <= cost first hdr gs /\ Forall (fun g => zlen g <= cost first hdr gs) gs.
Proof.
  induction gs as [|g gs IH]; intros first hdr Hh; [done|]. cbn [cost].
  destruct (IH false (if first then 5 else 2)) as [H0 Hall]; [destruct first; lia|]. split; [lia|].
  constructor; [lia|]. eapply list.Forall_impl; [exact Hall|]. cbn beta. lia.
Qed.

Lemma PacketizeStapA_round this i g (frags := input_fragments_ this) : h264_limits (limits_ this) ->
  Forall (fun g => nal_ok g /\ zlen g <= 2 ^ 28) frags -> frags !! i = Some g -> zlen g <= capacity_at (limits_ this) (length frags) i ->
  exists units next, PacketizeStapA this i = Some (units, next) /\ round (limits_ this) frags i units 1 next.
Proof.
  intros Hlim Hok Hi Hcap. pose proof (lookup_lt_Some _ _ _ Hi) as Hlt.
  destruct (list.Forall_lookup_1 _ _ _ _ Hok Hi) as [Hg Hgz]. destruct (peek_head g Hg) as [_ Hg1].
  unfold PacketizeStapA. fold frags. set (left := if (_ =? 1)%nat then _ else _).
  assert (Hleft : left = max_payload_len (limits_ this) - (if (length frags =? 1)%nat then single_packet_reduction_len (limits_ this)
    else if (i =? 0)%nat then first_packet_reduction_len (limits_ this) else 0)).
  { unfold left. destruct Hlim as [? ? ? ?]. rewrite (u64_id (max_payload_len _)) by (unfold is_u64; lia).
    destruct (_ =? 1)%nat; [apply u64_id; unfold is_u64; lia|]. destruct (i =? 0)%nat; [apply u64_id; unfold is_u64; lia|lia]. }
  assert (Hin : zlen g + 0 + last_at (limits_ this) (length frags) i <= left /\ 0 <= left <= 65535).
  { rewrite Hleft. clear left Hleft. destruct Hlim as [? ? ? ?]. unfold capacity_at, last_at in *. destruct (Nat.eqb_spec (length frags) 1); [lia|].
    destruct (Nat.eqb_spec i 0), (Nat.eqb_spec i (length frags - 1)), (Nat.eqb_spec (S i) (length frags)); lia. }
  destruct Hin as [Hin Hl]. clearbody left. rewrite Hi. cbn [mbind option_bind].
  rewrite check_then by (pose proof (last_at_nonneg (limits_ this) (length frags) i Hlim); lia).
  destruct (stap_a_loop_spec this Hlim Hok (S (length frags)) i g left 0 0 Hi Hl) as (gs & rest & HL & Hd & Hc & Hne); [lia|lia|fold frags; lia|].
  fold frags in HL, Hd, Hc, Hne. rewrite HL. cbn [mbind option_bind]. change (0 =? 0) with true in *. specialize (Hne Hin). specialize (Hc Hne).
  rewrite check_then by (by destruct gs). rewrite mark_raw. eexists _, _. split; [done|].
  destruct gs as [|g0 [|g1 gs]]; [done| |].
  - rewrite (drop_cons _ _ _ Hi) in Hd. injection Hd as <- _. cbn [stap_units length]. rewrite bool_decide_true by done.
    rewrite Nat.add_1_r. by apply single_round.
  - set (l := g0 :: g1 :: gs) in *. assert (Hlen : (2 <= length l)%nat) by (unfold l; cbn [length]; lia).
    assert (Hin' : Forall (fun g => nal_ok g /\ zlen g <= 2 ^ 28) l).
    { assert (H : Forall (fun g => nal_ok g /\ zlen g <= 2 ^ 28) (drop i frags)) by (by apply Forall_drop). rewrite Hd in H. by apply list.Forall_app in H as [H _]. }
    assert (Hnal : Forall nal_ok l) by (eapply list.Forall_impl; [exact Hin'|]; by intros ? []).
    destruct (cost_member l true 0 ltac:(lia)) as [Hc0 Hall].
    assert (Hz : 0 <= if bool_decide (rest = []) then last_at (limits_ this) (length frags) (length frags - 1) else 0)
      by (destruct (bool_decide _); [by apply last_at_nonneg|lia]).
    assert (Hsz : Forall (fun g => zlen g <= 65535) l) by (eapply list.Forall_impl; [exact Hall|]; cbn beta; lia).
    apply (Round _ _ _ _ _ _ l rest [stap_payload l]); try done.
    + intros. by constructor.
    + intros. by constructor.
    + rewrite cost_payload in Hc by done. apply one_fits. rewrite Hleft in Hc.
      assert (Hn : length frags <> 1%nat) by (apply (f_equal (length (A := bytes))) in Hd; rewrite length_drop, length_app in Hd; lia).
      rewrite (proj2 (Nat.eqb_neq _ _)) in * by done. unfold last_at in Hc.
      rewrite (proj2 (Nat.eqb_neq _ 1)), Nat.eqb_refl in Hc by done. lia.
Qed.

(** ** PacketizeFuA *)

(** There are octets for all the packets. *)
Lemma enough_octets m f l p : 0 <= f <= m - 1 -> 0 <= l <= m - 1 -> 2 <= p -> Z.max 2 ((p + f + l + m - 1) / m) <= p.
Proof.
  intros Hf Hl Hp. assert ((p + f + l + m - 1) / m < p + 1); [|lia]. apply Z.div_lt_upper_bound; nia.
Qed.

Lemma lookup_fu_payloads h cs : forall first k pl, fu_payloads first h cs !! k = Some pl ->
  exists c, cs !! k = Some c /\ zlen pl = 2 + zlen c.
Proof.
  induction cs as [|c cs IH]; intros first [|k] pl Hk; try done; cbn [fu_payloads] in Hk.
  - injection Hk as <-. exists c. split; [done|]. unfold fu_payload. rewrite length_app. cbn [length]. lia.
  - by apply IH in Hk.
Qed.

(** The limits of a fragmented NAL unit. *)
Lemma fu_a_limits_eq limits n i : h264_limits limits -> (i < n)%nat ->
  fu_a_limits limits n i = Limits (max_payload_len limits - 2)
    (if (i =? 0)%nat then first_packet_reduction_len limits else 0)
    (if (S i =? n)%nat then last_packet_reduction_len limits else 0)
    (max_payload_len limits - capacity_at limits n i).
Proof.
  intros [Hm Hf Hl Hs] Hi. unfold fu_a_limits, kFuAHeaderSize. rewrite reserve_eq.
  2: { constructor; change (2 ^ 28) with 268435456; lia. } 2: lia.
  unfold reserved, capacity_at. cbn [max_payload_len first_packet_reduction_len last_packet_reduction_len single_packet_reduction_len].
  destruct (Nat.eqb_spec n 1), (Nat.eqb_spec i 0), (Nat.eqb_spec i (n - 1)), (Nat.eqb_spec (S i) n); try lia; cbn [negb]; f_equal; lia.
Qed.

Lemma fu_split limits n i len : h264_limits limits -> (i < n)%nat -> len <= 2 ^ 28 -> capacity_at limits n i < 1 + len ->
  exists sizes, SplitAboutEqually len (fu_a_limits limits n i) = Some sizes /\ 2 <= zlen sizes
  /\ Forall (fun x => 1 <= x) sizes /\ sum_list sizes = len
  /\ forall k x, sizes !! k = Some x -> x + 2 <= max_payload_len limits
    - (if (i =? 0)%nat && (k =? 0)%nat then first_packet_reduction_len limits else 0)
    - (if (S i =? n)%nat && (S k =? length sizes)%nat then last_packet_reduction_len limits else 0).
Proof.
  intros Hlim Hi H28 Hcap. pose proof Hlim as [Hm Hf Hl Hs]. rewrite fu_a_limits_eq by done.
  assert (Hcase : 0 <= max_payload_len limits - capacity_at limits n i <= max_payload_len limits - 3).
  { unfold capacity_at. destruct (_ =? 1)%nat; [lia|]. destruct (i =? 0)%nat; [lia|]. destruct (S i =? _)%nat; lia. }
  set (f := if (i =? 0)%nat then _ else _). set (l := if (S i =? n)%nat then _ else _). set (s := max_payload_len limits - capacity_at limits n i) in *.
  assert (Hf' : 0 <= f <= max_payload_len limits - 3) by (unfold f; destruct (i =? 0)%nat; lia).
  assert (Hl' : 0 <= l <= max_payload_len limits - 3) by (unfold l; destruct (S i =? n)%nat; lia).
  set (lim := Limits _ f l s). change (2 ^ 28) with 268435456 in *.
  assert (Hsmall : small_limits lim) by (constructor; change (2 ^ 28) with 268435456; cbn; lia).
  assert (Hp : 0 < len <= 2 ^ 28) by (change (2 ^ 28) with 268435456; lia).
  destruct (split_about_equally lim len Hp Hsmall) as (sizes & HS & Hsplit).
  assert (Hne : packets_needed lim len <= len) by (apply enough_octets; cbn; lia).
  rewrite (proj2 (Z.leb_gt _ _)) in Hsplit by (cbn; lia). rewrite !(proj2 (Z.ltb_ge _ _)) in Hsplit by (done || cbn; lia).
  destruct Hsplit as [Hn Hsum Hwide _ _ _]. exists sizes. split; [exact HS|].
  assert (Hlen : 2 <= zlen sizes) by (rewrite Hn; unfold packets_needed; lia). split; [done|].
  destruct (split_sizes lim len sizes Hp Hsmall HS) as (Hpos & _ & Hexp); [by intros ->|]. split; [done|]. split; [done|].
  intros k x Hx. pose proof (lookup_lt_Some _ _ _ Hx) as Hk. apply Hexp in Hx. unfold expected_payload_capacity in Hx.
  rewrite (proj2 (Z.eqb_neq (zlen sizes) 1)) in Hx by lia. cbn [lim max_payload_len first_packet_reduction_len last_packet_reduction_len] in Hx.
  destruct (Z.eqb_spec (Z.of_nat k) 0), (Nat.eqb_spec k 0); try lia.
  - rewrite andb_true_r. destruct (Nat.eqb_spec (S k) (length sizes)); [lia|]. rewrite andb_false_r. fold f. lia.
  - rewrite andb_false_r. destruct (Z.eqb_spec (Z.of_nat k) (zlen sizes - 1)), (Nat.eqb_spec (S k) (length sizes)); try lia;
      [rewrite andb_true_r; fold l|rewrite andb_false_r]; lia.
Qed.

Lemma chunks_ok data sizes : is_bytes data -> Forall (fun x => 1 <= x) sizes -> sum_list sizes = zlen data ->
  Forall (fun c => c <> [] /\ is_bytes c) (chunks data sizes).
Proof.
  revert data. induction sizes as [|x sizes IH]; intros data Hb Hpos Hsum; cbn [chunks]; [constructor|].
  apply list.Forall_cons in Hpos as [Hx Hpos]. pose proof (sizes_nonneg _ Hpos). change (sum_list (x :: sizes)) with (x + sum_list sizes) in Hsum.
  constructor; [split; [|by apply Forall_take]|].
  - intros E. apply (f_equal (length (A := Z))) in E. rewrite length_take in E. cbn in E. lia.
  - apply IH; [by apply Forall_drop|done|rewrite length_drop; lia].
Qed.

(** A fragmented NAL unit. *)
Lemma fu_round limits frags i h data sizes (cs := chunks data sizes) : frags !! i = Some (h :: data) -> is_u8 h -> is_bytes data ->
  2 <= zlen sizes -> Forall (fun x => 1 <= x) sizes -> sum_list sizes = zlen data ->
  (forall k x, sizes !! k = Some x -> x + 2 <= max_payload_len limits
    - (if (i =? 0)%nat && (k =? 0)%nat then first_packet_reduction_len limits else 0)
    - (if (S i =? length frags)%nat && (S k =? length sizes)%nat then last_packet_reduction_len limits else 0)) ->
  round limits frags i (fu_units true h cs) (zlen sizes) (S i).
Proof.
  intros Hi Hh Hb Hlen Hpos Hsum Hfit. pose proof (lookup_lt_Some _ _ _ Hi) as Hlt. destruct (chunks_spec sizes data Hpos Hsum) as [Hcat Hsz].
  pose proof (length_chunks sizes data) as Hlc. pose proof (chunks_ok data sizes Hb Hpos Hsum) as Hcs. fold cs in Hcat, Hsz, Hlc, Hcs.
  apply (Round _ _ _ _ _ _ [h :: data] (drop (S i) frags) (fu_payloads true h cs)).
  - by apply drop_cons.
  - done.
  - cbn [length]. lia.
  - intros E. apply (f_equal (length (A := bytes))) in E. rewrite length_fu_payloads in E. cbn in E. lia.
  - rewrite length_fu_payloads. lia.
  - intros us n pls' Hsend. apply sends_fu; [done|done|done|lia].
  - intros pls' gs' Hc. cbn [app]. rewrite <- Hcat. constructor; [lia|done|done|done].
  - assert (Hfits : fits limits (i =? 0)%nat (S i =? length frags)%nat (fu_payloads true h cs)).
    { intros k pl Hk. destruct (lookup_fu_payloads _ _ _ _ _ Hk) as (c & Hc & ->). rewrite length_fu_payloads, Hlc.
      assert (Hx : sizes !! k = Some (zlen c)) by (rewrite <- Hsz, list_lookup_fmap, Hc; done). specialize (Hfit k _ Hx). lia. }
    unfold fits_at. rewrite is_last by done. destruct (Nat.eqb_spec (length frags) 1) as [E|E]; [|done].
    right. rewrite length_fu_payloads, Hlc. split; [lia|]. rewrite E in Hfits. replace i with 0%nat in Hfits by lia. exact Hfits.
Qed.

Lemma PacketizeFuA_round this i h data (frags := input_fragments_ this) : h264_limits (limits_ this) -> frags !! i = Some (h :: data) ->
  is_u8 h -> is_bytes data -> zlen data <= 2 ^ 28 -> capacity_at (limits_ this) (length frags) i < zlen (h :: data) ->
  exists units num, PacketizeFuA this i = Some (Some (units, num)) /\ round (limits_ this) frags i units num (S i).
Proof.
  intros Hlim Hi Hh Hb Hd28 Hcap. pose proof (lookup_lt_Some _ _ _ Hi) as Hlt. cbn [length] in Hcap.
  destruct (fu_split (limits_ this) (length frags) i (zlen data) Hlim Hlt Hd28) as (sizes & HS & Hlen & Hpos & Hsum & Hfit); [lia|].
  unfold PacketizeFuA. fold frags. rewrite Hi. cbn [mbind option_bind length]. unfold kNalHeaderSize.
  replace (Z.of_nat (S (length data)) - 1) with (zlen data) by lia.
  rewrite u64_id by (change (2 ^ 28) with 268435456 in *; unfold is_u64; lia). rewrite int_size, HS by done. cbn [mbind option_bind].
  exists (fu_units true h (chunks data sizes)), (zlen sizes). split; [|by apply fu_round].
  destruct sizes as [|x sizes]; [cbn in Hlen; lia|]. cbn [peek drop].
  change (peek (h :: data) 0) with (Some h). cbn [mbind option_bind].
  rewrite push_fu_a_spec by (done || (change (2 ^ 28) with 268435456 in *; change (2 ^ 32) with 4294967296; lia)).
  cbn [mbind option_bind]. change (drop (Z.to_nat 1) (h :: data)) with (drop 0 data). rewrite drop_0. done.
Qed.

(** ** GeneratePackets *)

(** In SingleNalUnit mode every NAL unit must fit a packet. *)
Definition mode_ok (mode : H264PacketizationMode) (limits : PayloadSizeLimits) (frags : list bytes) : Prop :=
  match mode with
  | SingleNalUnit => forall i g, frags !! i = Some g -> zlen g <= capacity_at limits (length frags) i
  | NonInterleaved => True
  end.

Lemma capacity_eq this i (n := length (input_fragments_ this)) : h264_limits (limits_ this) ->
  single_packet_capacity this i = Some (capacity_at (limits_ this) n i).
Proof.
  intros [Hm Hf Hl Hs]. unfold single_packet_capacity, capacity_at. fold n.
  destruct (n =? 1)%nat; [apply int_ok; lia|]. destruct (i =? 0)%nat; [apply int_ok; lia|].
  destruct (S i =? n)%nat; [apply int_ok; lia|]. f_equal. lia.
Qed.

Lemma generate_step mode fuel this i (frags := input_fragments_ this) : h264_limits (limits_ this) ->
  Forall (fun g => nal_ok g /\ zlen g <= 2 ^ 28) frags -> mode_ok mode (limits_ this) frags -> (i < length frags)%nat ->
  exists units num next, generate_loop (S fuel) mode this i = generate_loop fuel mode (push units num this) next
  /\ round (limits_ this) frags i units num next.
Proof.
  intros Hlim Hok Hmode Hlt. destruct (lookup_lt_is_Some_2 _ _ Hlt) as [g Hi]. destruct (list.Forall_lookup_1 _ _ _ _ Hok Hi) as [Hg Hgz].
  cbn [generate_loop]. fold frags. rewrite (proj2 (Nat.ltb_lt _ _)) by done. destruct mode; cbn [mode_ok] in Hmode.
  - rewrite Hi. cbn [mbind option_bind]. rewrite int_size by done. rewrite capacity_eq by done. cbn [mbind option_bind].
    fold frags. rewrite Z.gtb_ltb. destruct (Z.ltb_spec (capacity_at (limits_ this) (length frags) i) (zlen g)) as [Hgt|Hle].
    + destruct Hg as [Hne Hb]. destruct g as [|h data]; [done|]. apply list.Forall_cons in Hb as [Hh Hb].
      destruct (PacketizeFuA_round this i h data Hlim Hi Hh Hb) as (units & num & -> & Hr); [cbn [length] in Hgz; lia|done|].
      by exists units, num, (S i).
    + destruct (PacketizeStapA_round this i g Hlim Hok Hi Hle) as (units & next & -> & Hr). by exists units, 1, next.
  - rewrite (PacketizeSingleNalu_spec this i g Hlim Hi Hg). specialize (Hmode i g Hi). fold frags.
    rewrite (proj2 (Z.ltb_ge _ _)) by done. cbn [mbind option_bind].
    exists [Packet g true true false (List.hd 0 g)], 1, (S i). split; [done|]. by apply single_round.
Qed.

Lemma carries_empty pls gs : carries pls gs -> bool_decide (pls = []) = bool_decide (gs = []).
Proof.
  intros H. destruct H as [|g pls gs _ _|gs' pls gs Hl _ _ _|h cs pls gs Hl _ _ _]; [done|done| |].
  - destruct gs'; [cbn in Hl; lia|done].
  - destruct cs; [cbn in Hl; lia|done].
Qed.

Definition shape (limits : PayloadSizeLimits) (n i : nat) (pls : list bytes) : Prop :=
  if (n =? 1)%nat then (i < n)%nat -> fits_at limits n i [] pls else fits limits (i =? 0)%nat true pls.

Lemma generate_spec mode fuel : forall this i (frags := input_fragments_ this), h264_limits (limits_ this) ->
  Forall (fun g => nal_ok g /\ zlen g <= 2 ^ 28) frags -> mode_ok mode (limits_ this) frags ->
  (i <= length frags)%nat -> (length frags - i <= fuel)%nat ->
  0 <= num_packets_left_ this -> num_packets_left_ this + zlen (concat (drop i frags)) < 2 ^ 64 ->
  exists us pls, generate_loop fuel mode this i
    = Some (Mk (limits_ this) (num_packets_left_ this + zlen pls) frags (packets_ this ++ us), true)
  /\ sends us (length frags - i) pls /\ carries pls (drop i frags) /\ shape (limits_ this) (length frags) i pls.
Proof.
  induction fuel as [|fuel IH]; intros this i frags Hlim Hok Hmode Hle Hf H0 Hnum.
  all: destruct (decide (i = length frags)) as [->|Hne].
  1,3: exists [], []; cbn [generate_loop]; fold frags; rewrite (proj2 (Nat.ltb_ge _ _)) by lia;
    rewrite app_nil_r, Z.add_0_r, Nat.sub_diag, drop_all; split; [by destruct this|];
    split; [constructor|]; split; [constructor|]; unfold shape; destruct (_ =? 1)%nat; [lia|apply fits_nil].
  { lia. }
  destruct (generate_step mode fuel this i Hlim Hok Hmode) as (units & num & next & -> & Hr); [fold frags; lia|].
  destruct Hr as [gs rest pls Hd Hgs -> Hpls -> Hsend Hcarry Hfit]. fold frags in Hd, Hfit.
  assert (Hrest : drop (i + length gs) frags = rest) by (rewrite <- drop_drop, Hd; apply drop_app_length).
  assert (Hlen : (length gs + length rest = length frags - i)%nat) by (rewrite <- length_app, <- Hd; apply length_drop).
  assert (Hg1 : (1 <= length gs)%nat) by (destruct gs; [done|cbn [length]; lia]).
  assert (Hcnt : zlen pls <= zlen (concat gs)).
  { pose proof (Hcarry [] [] carries_nil) as H. rewrite !app_nil_r in H. by apply carries_count. }
  rewrite Hd, concat_app, length_app, Nat2Z.inj_add in Hnum. change (2 ^ 64) with 18446744073709551616 in *.
  assert (Hu : u64 (num_packets_left_ this + zlen pls) = num_packets_left_ this + zlen pls) by (apply u64_id; unfold is_u64; lia).
  destruct (IH (push units (zlen pls) this) (i + length gs)%nat Hlim Hok Hmode) as (us & pls' & HG & Hs & Hc & Hsh);
    cbn [push num_packets_left_ input_fragments_]; fold frags; rewrite ?Hu, ?Hrest; change (2 ^ 64) with 18446744073709551616; try lia.
  cbn [push num_packets_left_ input_fragments_ limits_ packets_] in HG, Hs, Hc, Hsh. fold frags in HG, Hs, Hc, Hsh.
  rewrite Hrest in Hc. rewrite Hu in HG. exists (units ++ us), (pls ++ pls'). split; [|split; [|split]].
  - rewrite HG. do 3 f_equal; [rewrite length_app; lia|by rewrite app_assoc].
  - replace (length frags - i)%nat with (length gs + (length frags - (i + length gs)))%nat by lia. by apply Hsend.
  - rewrite Hd. by apply Hcarry.
  - unfold shape, fits_at in *. destruct (Nat.eqb_spec (length frags) 1) as [E|E].
    + intros Hi. assert (rest = []) as -> by (destruct rest; [done|cbn [length] in Hlen; lia]).
      assert (pls' = []) as -> by (apply carries_empty in Hc; by destruct pls'). rewrite app_nil_r. exact Hfit.
    + apply fits_app; [done|by rewrite (carries_empty _ _ Hc)|].
      rewrite (proj2 (Nat.eqb_neq _ 0)) in Hsh by lia. exact Hsh.
Qed.

(** ** The constructor *)

Lemma shape_within limits n pls : h264_limits limits -> pls <> [] -> (1 <= n)%nat ->
  single_packet_reduction_len limits <= first_packet_reduction_len limits + last_packet_reduction_len limits ->
  shape limits n 0 pls -> within limits pls.
Proof.
  intros Hlim Hne Hn Hs Hsh. assert (Hgo : fits limits true true pls -> within limits pls).
  { intros Hfit k pl Hk. pose proof (Hfit k pl Hk) as Hl. apply lookup_lt_Some in Hk. unfold expected_payload_capacity.
    cbn [andb] in Hl. destruct Hlim. destruct (Nat.eqb_spec k 0), (Nat.eqb_spec (S k) (length pls)), (Z.eqb_spec (zlen pls) 1),
      (Z.eqb_spec (Z.of_nat k) 0), (Z.eqb_spec (Z.of_nat k) (zlen pls - 1)); lia. }
  unfold shape, fits_at in Hsh. destruct (Nat.eqb_spec n 1); [|by apply Hgo].
  destruct Hsh as [(pl & -> & Hl)|[_ Hfit]]; [lia| |by apply Hgo].
  intros [|k] x Hx; [|done]. injection Hx as <-. unfold expected_payload_capacity. cbn [length]. done.
Qed.

Lemma create_spec Find payload limits mode (frags := map (subview payload) (Find payload)) : h264_limits limits ->
  single_packet_reduction_len limits <= first_packet_reduction_len limits + last_packet_reduction_len limits ->
  Forall nal_ok frags -> frags <> [] -> zlen (concat frags) <= 2 ^ 28 -> mode_ok mode limits frags ->
  exists st pls, create Find payload limits mode = Some st /\ pending st pls /\ carries pls frags /\ within limits pls.
Proof.
  intros Hlim Hs Hok Hne H28 Hmode. unfold create. fold frags. change (2 ^ 28) with 268435456 in *.
  assert (Hok' : Forall (fun g => nal_ok g /\ zlen g <= 2 ^ 28) frags).
  { clear - Hok H28. induction Hok as [|g gs Hg _ IH]; [constructor|]. cbn [concat] in H28. rewrite length_app in H28.
    constructor; [change (2 ^ 28) with 268435456; split; [done|lia]|apply IH; lia]. }
  destruct (generate_spec mode (length frags) (Mk limits 0 frags []) 0 Hlim Hok' Hmode) as (us & pls & HG & Hsend & Hcarry & Hsh);
    cbn [input_fragments_ num_packets_left_ drop]; rewrite ?drop_0; change (2 ^ 64) with 18446744073709551616; try lia.
  cbn [input_fragments_ num_packets_left_ limits_ packets_ app] in HG, Hsend, Hcarry, Hsh. rewrite drop_0 in Hcarry. rewrite Nat.sub_0_r in Hsend.
  unfold GeneratePackets. cbn [input_fragments_]. rewrite HG. cbn [mbind option_bind].
  exists (Mk limits (0 + zlen pls) frags us), pls. split; [done|]. pose proof (carries_count _ _ Hcarry) as Hcnt. split; [|split; [done|]].
  - unfold pending. cbn [packets_ input_fragments_ num_packets_left_]. split; [done|]. change (2 ^ 64) with 18446744073709551616. lia.
  - apply (shape_within limits (length frags)); try done; [|destruct frags; [done|cbn [length]; lia]].
    intros ->. apply carries_empty in Hcarry. by destruct frags.
Qed.

End plan.
