(* ===== verification/RtpH264Receive.v ===== *)
(** * H.264 in RTP, the receiver: video_rtp_depacketizer_h264.cc

    Single NAL units and aggregation packets are handed on whole, with what their NAL units
    are; the first fragment of a NAL unit gets its header back. A frame sent by
    RtpPacketizerH264 arrives with its NAL units. *)

From S2P Require Import Prelude.
From S2P Require Import ByteIo.
From S2P Require Import Buffers.
From S2P Require Import RtcpCore.
From S2P Require Import RtpExtensionMap.
From S2P Require Import RtpPacket.
From S2P Require Import RtpPacketBuild.
From S2P Require Import RtpPacketOps.
From S2P Require Import RtpFormat.
From S2P Require Import RtpVideo.
From S2P Require Import RtpH264.
From S2P Require Import RtpH264Plan.
Import RtpPacketizer.

(** common_video/h264: SpsParser::SpsState *)
Record SpsState := Sps { sps_width : Z; sps_height : Z; sps_state_id : Z }.

(** common_video/h264 and h264_globals.h: the types of NAL units, and the parsers of their
    contents. ParseAndRewriteSps gives the state, and the rewritten octets when it rewrote. *)
Class H264Parsers := {
  kSps : Z;
  kPps : Z;
  kIdr : Z;
  kSlice : Z;
  kAud : Z;
  kEndOfSequence : Z;
  kEndOfStream : Z;
  kFiller : Z;
  kSei : Z;
  kNaluTypeSize : Z;
  kMaxNalusPerPacket : nat;
  ParseAndRewriteSps : bytes -> option SpsState * option bytes;
  ParsePpsIds : bytes -> option (Z * Z);
  ParsePpsIdFromSlice : bytes -> option Z
}.

(** A NAL unit has one octet before its contents, and the labels of a switch differ. *)
Class H264ParsersLaws {types : NaluTypes} {parsers : H264Parsers} := {
  one_octet : kNaluTypeSize = 1;
  types_differ : NoDup [kSps; kPps; kIdr; kSlice; kAud; kEndOfSequence; kEndOfStream; kFiller; kSei; kStapA; kFuA]
}.

Module VideoRtpDepacketizerH264.

Section h264.
Context {types : NaluTypes} {parsers : H264Parsers}.

Definition kNalHeaderSize : Z := 1.
Definition kFuAHeaderSize : Z := 2.
Definition kLengthFieldSize : Z := 2.
Definition kStapAHeaderSize : Z := kNalHeaderSize + kLengthFieldSize.

Definition kFBit : Z := 0x80.
Definition kNriMask : Z := 0x60.
Definition kTypeMask : Z := 0x1F.
Definition kSBit : Z := 0x80.

(** The loop: the octets from nalu_ptr, which are length_remaining, and the offset. *)
Fixpoint stap_a_offsets (fuel : nat) (nalu_ptr : bytes) (offset : Z) : option (option (list Z)) :=
  if zlen nalu_ptr >? 0 then
    match fuel with
    | O => None
    | S fuel =>
        if zlen nalu_ptr <? 2 then Some None else
        nalu_size ← read_u16 nalu_ptr 0;
        let nalu_ptr := drop 2 nalu_ptr in
        if nalu_size >? zlen nalu_ptr then Some None else
        let nalu_ptr := drop (Z.to_nat nalu_size) nalu_ptr in
        offsets ← stap_a_offsets fuel nalu_ptr (offset + (kLengthFieldSize + nalu_size));
        Some (offsets ← offsets; Some (offset + kStapAHeaderSize :: offsets))
    end
  else Some (Some []).

Definition ParseStapAStartOffsets (nalu_ptr : bytes) : option (option (list Z)) :=
  stap_a_offsets (List.length nalu_ptr) nalu_ptr 0.

(** What the loop over the NAL units changes. *)
Record state := State {
  st_video_payload : bytes;
  st_width : Z;
  st_height : Z;
  st_frame_type : VideoFrameType;
  st_nalus : list NaluInfo
}.

(** The rewritten sequence parameter set in place of the one up to [end_offset]. *)
Definition rewrite_sps (payload_data : bytes) (type : H264PacketizationTypes) (start_offset end_offset : Z) (rewritten : bytes) : option bytes :=
  previous ← load payload_data 0 (Z.to_nat start_offset);
  let output_buffer := previous ++ rewritten in
  output_buffer ←
    match type with
    | kH264StapA =>
        let length_field_offset := u64 (start_offset - (kNaluTypeSize + kLengthFieldSize)) in
        let rewritten_size := u64 (zlen output_buffer - start_offset + kNaluTypeSize) in
        put output_buffer length_field_offset (ByteWriter.WriteBigEndian 2 (u16 rewritten_size))
    | _ => Some output_buffer
    end;
  rest ← load payload_data end_offset (Z.to_nat (zlen payload_data - end_offset));
  Some (output_buffer ++ rest).

(** The switch; inside, None for a payload that is refused. *)
Definition nalu_step (payload_data : bytes) (type : H264PacketizationTypes) (start_offset end_offset : Z) (this : state)
  : option (option (state * NaluInfo)) :=
  nalu ← peek payload_data start_offset;
  let nalu_type := Z.land nalu kTypeMask in
  let start_offset := start_offset + kNaluTypeSize in
  data ← load payload_data start_offset (Z.to_nat (end_offset - start_offset));
  if nalu_type =? kSps then
    let '(sps, result) := ParseAndRewriteSps data in
    video_payload ← match result with
                    | Some rewritten => rewrite_sps payload_data type start_offset end_offset rewritten
                    | None => Some (st_video_payload this)
                    end;
    match sps with
    | Some sps =>
        Some (Some (State video_payload (u16 (sps_width sps)) (u16 (sps_height sps)) kVideoFrameKey (st_nalus this),
          Nalu nalu_type (sw 32 (sps_state_id sps)) (-1)))
    | None => Some (Some (State video_payload (st_width this) (st_height this) kVideoFrameKey (st_nalus this), Nalu nalu_type (-1) (-1)))
    end
  else if nalu_type =? kPps then
    match ParsePpsIds data with
    | Some (pps_id, sps_id) => Some (Some (this, Nalu nalu_type (sw 32 sps_id) (sw 32 pps_id)))
    | None => Some (Some (this, Nalu nalu_type (-1) (-1)))
    end
  else if (nalu_type =? kIdr) || (nalu_type =? kSlice) then
    let this :=
      if nalu_type =? kIdr then State (st_video_payload this) (st_width this) (st_height this) kVideoFrameKey (st_nalus this)
      else this in
    match ParsePpsIdFromSlice data with
    | Some pps_id => Some (Some (this, Nalu nalu_type (-1) (sw 32 pps_id)))
    | None => Some (Some (this, Nalu nalu_type (-1) (-1)))
    end
  else if (nalu_type =? kStapA) || (nalu_type =? kFuA) then Some None
  else Some (Some (this, Nalu nalu_type (-1) (-1))).

(** nalus[nalus_length++] = nalu, in an array of kMaxNalusPerPacket. *)
Definition add_nalu (nalu : NaluInfo) (this : state) : state :=
  if (List.length (st_nalus this) =? kMaxNalusPerPacket)%nat then this
  else State (st_video_payload this) (st_width this) (st_height this) (st_frame_type this) (st_nalus this ++ [nalu]).

Fixpoint nalu_loop (payload_data : bytes) (type : H264PacketizationTypes) (nalu_start_offsets : list Z) (this : state)
  : option (option state) :=
  match nalu_start_offsets with
  | start_offset :: (next :: _) as rest =>
      let end_offset := u64 (next - kLengthFieldSize) in
      if u64 (end_offset - start_offset) <? kNaluTypeSize then Some None else
      r ← nalu_step payload_data type start_offset end_offset this;
      match r with
      | None => Some None
      | Some (this, nalu) => nalu_loop payload_data type rest (add_nalu nalu this)
      end
  | _ => Some (Some this)
  end.

(** The type of the packet, of its first NAL unit, and where the NAL units start. *)
Definition start_offsets (rtp_payload : bytes) : option (option (H264PacketizationTypes * Z * list Z)) :=
  b ← peek rtp_payload 0;
  let nal_type := Z.land b kTypeMask in
  if nal_type =? kStapA then
    if zlen rtp_payload <=? kStapAHeaderSize then Some None else
    offsets ← ParseStapAStartOffsets (drop (Z.to_nat kNalHeaderSize) rtp_payload);
    match offsets with
    | None => Some None
    | Some offsets =>
        b ← peek rtp_payload kStapAHeaderSize;
        Some (Some (kH264StapA, Z.land b kTypeMask, offsets))
    end
  else Some (Some (kH264SingleNalu, nal_type, [0])).

Definition ProcessStapAOrSingleNalu (rtp_payload : bytes) : option (option ParsedRtpPayload) :=
  r ← start_offsets rtp_payload;
  match r with
  | None => Some None
  | Some (packetization_type, nal_type, nalu_start_offsets) =>
      r ← nalu_loop rtp_payload packetization_type (nalu_start_offsets ++ [zlen rtp_payload + kLengthFieldSize])
        (State rtp_payload 0 0 kVideoFrameDelta []);
      match r with
      | None => Some None
      | Some st => Some (Some (Parsed
          (VideoHeader (st_frame_type st) (st_width st) (st_height st) true 0 kVideoCodecH264
            (VideoHeaderH264 (H264Header nal_type packetization_type (st_nalus st))))
          (st_video_payload st)))
      end
  end.

Definition ParseFuaNalu (rtp_payload : bytes) : option (option ParsedRtpPayload) :=
  if zlen rtp_payload <? kFuAHeaderSize then Some None else
  b0 ← peek rtp_payload 0;
  b1 ← peek rtp_payload 1;
  let fnri := Z.land b0 (Z.lor kFBit kNriMask) in
  let original_nal_type := Z.land b1 kTypeMask in
  let first_fragment := Z.land b1 kSBit >? 0 in
  let nalu := Nalu original_nal_type (-1) (-1) in
  let '(video_payload, nalus) :=
    if first_fragment then
      let nalu := match ParsePpsIdFromSlice (drop 2 rtp_payload) with
                  | Some pps_id => Nalu original_nal_type (-1) (sw 32 pps_id)
                  | None => nalu
                  end in
      (Z.lor fnri original_nal_type :: drop 2 rtp_payload, [nalu])
    else (drop (Z.to_nat kFuAHeaderSize) rtp_payload, []) in
  let frame_type := if original_nal_type =? kIdr then kVideoFrameKey else kVideoFrameDelta in
  Some (Some (Parsed
    (VideoHeader frame_type 0 0 first_fragment 0 kVideoCodecH264 (VideoHeaderH264 (H264Header original_nal_type kH264FuA nalus)))
    video_payload)).

Definition Parse (rtp_payload : bytes) : option (option ParsedRtpPayload) :=
  if zlen rtp_payload =? 0 then Some None else
  b ← peek rtp_payload 0;
  let nal_type := Z.land b kTypeMask in
  if nal_type =? kFuA then ParseFuaNalu rtp_payload else ProcessStapAOrSingleNalu rtp_payload.

End h264.

End VideoRtpDepacketizerH264.

(** ** Where the NAL units of an aggregation packet are *)

Section receive.
Import VideoRtpDepacketizerH264.
Context {types : NaluTypes} {types_laws : NaluTypesLaws} {parsers : H264Parsers} {parsers_laws : H264ParsersLaws}.

Fixpoint item_offsets (offset : Z) (gs : list bytes) : list Z :=
  match gs with
  | [] => []
  | g :: gs => offset + 3 :: item_offsets (offset + (2 + zlen g)) gs
  end.

Lemma stap_items_cons g gs : stap_items (g :: gs) = be_bytes 2 (zlen g) ++ (g ++ stap_items gs).
Proof. unfold stap_items. cbn [map concat]. by rewrite <- app_assoc. Qed.

Lemma zlen_items_cons g gs : zlen (stap_items (g :: gs)) = 2 + zlen g + zlen (stap_items gs).
Proof. rewrite stap_items_cons, !length_app, length_be_bytes. lia. Qed.

(** One round of the loop, on an item and what follows. *)
Lemma stap_a_offsets_step g q fuel offset : zlen g <= 65535 ->
  stap_a_offsets (S fuel) (be_bytes 2 (zlen g) ++ g ++ q) offset
  = (offsets ← stap_a_offsets fuel q (offset + (2 + zlen g)); Some (offsets ← offsets; Some (offset + 3 :: offsets))).
Proof.
  intros Hg. cbn [stap_a_offsets]. rewrite Z.gtb_ltb, (proj2 (Z.ltb_lt _ _)) by (rewrite length_app, length_be_bytes; lia).
  rewrite (proj2 (Z.ltb_ge _ 2)) by (rewrite length_app, length_be_bytes; lia).
  rewrite read_u16_here by (unfold is_u16; lia). cbn [mbind option_bind].
  assert (Hd : drop 2 (be_bytes 2 (zlen g) ++ g ++ q) = g ++ q) by (apply (drop_app_length' _ _ 2); by rewrite length_be_bytes).
  rewrite Hd, Z.gtb_ltb, (proj2 (Z.ltb_ge _ _)) by (rewrite length_app; lia). by rewrite Nat2Z.id, drop_app_length.
Qed.

Lemma stap_a_offsets_items gs : Forall (fun g => zlen g <= 65535) gs -> forall fuel offset, (length (stap_items gs) <= fuel)%nat ->
  stap_a_offsets fuel (stap_items gs) offset = Some (Some (item_offsets offset gs)).
Proof.
  induction 1 as [|g gs Hg _ IH]; intros fuel offset Hf; [by destruct fuel|].
  pose proof (zlen_items_cons g gs) as Hz. destruct fuel as [|fuel]; [lia|].
  rewrite stap_items_cons, stap_a_offsets_step by done. rewrite IH by lia. done.
Qed.

Lemma read_u16_split p : is_bytes p -> 2 <= zlen p -> exists v q, is_u16 v /\ p = be_bytes 2 v ++ q.
Proof.
  intros Hp Hl. exists (be_value (take 2 p)), (drop 2 p). assert (Ht : length (take 2 p) = 2%nat) by (rewrite length_take; lia).
  assert (Hb : is_bytes (take 2 p)) by (by apply Forall_take). pose proof (be_value_range _ Hb) as Hr. rewrite Ht in Hr. split.
  - unfold is_u16. change (256 ^ Z.of_nat 2) with 65536 in Hr. lia.
  - pose proof (be_bytes_be_value _ Hb) as E. rewrite Ht in E. by rewrite E, take_drop.
Qed.

(** On any octets: items that fill them, or refused. *)
Lemma stap_a_offsets_any fuel : forall p offset, is_bytes p -> (length p <= fuel)%nat ->
  exists r, stap_a_offsets fuel p offset = Some r
  /\ match r with
     | None => True
     | Some os => exists gs, p = stap_items gs /\ Forall (fun g => zlen g <= 65535) gs /\ os = item_offsets offset gs
     end.
Proof.
  induction fuel as [|fuel IH]; intros p offset Hp Hf.
  - destruct p; [|cbn in Hf; lia]. eexists. split; [done|]. by exists [].
  - destruct (decide (p = [])) as [->|Hne]; [eexists; split; [done|]; by exists []|].
    assert (Hp0 : 1 <= zlen p) by (destruct p; [done|cbn [length]; lia]).
    destruct (Z.ltb_spec (zlen p) 2) as [Hs|Hs].
    { cbn [stap_a_offsets]. rewrite Z.gtb_ltb, (proj2 (Z.ltb_lt 0 _)), (proj2 (Z.ltb_lt _ 2)) by lia. by exists None. }
    destruct (read_u16_split p Hp Hs) as (v & q & Hv & ->). destruct (Z.ltb_spec (zlen q) v) as [Hq|Hq].
    + cbn [stap_a_offsets]. rewrite Z.gtb_ltb, (proj2 (Z.ltb_lt 0 _)), (proj2 (Z.ltb_ge _ 2)), read_u16_here by (done || lia).
      cbn [mbind option_bind]. rewrite drop_app_length' by (by rewrite length_be_bytes). rewrite Z.gtb_ltb, (proj2 (Z.ltb_lt _ _)) by done.
      by exists None.
    + set (g := take (Z.to_nat v) q). assert (Hg : zlen g = v) by (unfold g; rewrite length_take; unfold is_u16 in Hv; lia).
      apply list.Forall_app in Hp as [_ Hp]. rewrite length_app, length_be_bytes in Hf.
      destruct (IH (drop (Z.to_nat v) q) (offset + (2 + v))) as (r & HL & Hr); [by apply Forall_drop|rewrite length_drop; lia|].
      rewrite <- (take_drop (Z.to_nat v) q). fold g. assert (E2 : be_bytes 2 v = be_bytes 2 (zlen g)) by (by rewrite Hg). rewrite E2, stap_a_offsets_step by (unfold is_u16 in Hv; lia).
      rewrite Hg, HL. cbn [mbind option_bind]. destruct r as [os|]; [|by exists None].
      destruct Hr as (gs & E & Hgs & ->). exists (Some (offset + 3 :: item_offsets (offset + (2 + v)) gs)). split; [done|].
      exists (g :: gs). rewrite stap_items_cons, <- E, Hg. cbn [item_offsets]. rewrite Hg. split; [done|]. split; [|done].
      constructor; [unfold is_u16 in Hv; lia|done].
Qed.

(** ** The loop over the NAL units *)

Definition nal_type (g : bytes) : Z := Z.land (List.hd 0 g) 0x1F.

(** A packet within the packet. *)
Definition unexpected (g : bytes) : bool := (nal_type g =? kStapA) || (nal_type g =? kFuA).

Definition makes_key (g : bytes) : bool := (nal_type g =? kSps) || (nal_type g =? kIdr).

(** Its parameter sets are left as they are. *)
Definition not_rewritten (g : bytes) : Prop := nal_type g = kSps -> snd (ParseAndRewriteSps (List.tl g)) = None.

Record kept (g : bytes) (st st' : state) : Prop := {
  kept_nalus : st_nalus st' = st_nalus st;
  kept_type : st_frame_type st' = if makes_key g then kVideoFrameKey else st_frame_type st;
  kept_payload : not_rewritten g -> st_video_payload st' = st_video_payload st
}.

(** The cases of the switch differ. *)
Lemma label_differ i j a b (labels := [kSps; kPps; kIdr; kSlice; kAud; kEndOfSequence; kEndOfStream; kFiller; kSei; kStapA; kFuA]) :
  i <> j -> labels !! i = Some a -> labels !! j = Some b -> a <> b.
Proof. intros Hij Ha Hb ->. apply Hij. by apply (list.NoDup_lookup labels i j b types_differ). Qed.

Lemma labels : kPps <> kSps /\ kPps <> kIdr /\ kSlice <> kIdr /\ kSlice <> kSps
  /\ Forall (fun l => l <> kStapA /\ l <> kFuA) [kSps; kPps; kIdr; kSlice].
Proof.
  pose proof label_differ as D. cbv zeta in D.
  split; [by apply (D 1%nat 0%nat)|]. split; [by apply (D 1%nat 2%nat)|]. split; [by apply (D 3%nat 2%nat)|].
  split; [by apply (D 3%nat 0%nat)|]. repeat apply list.Forall_cons_2; try apply List.Forall_nil.
  - split; [by apply (D 0%nat 9%nat)|by apply (D 0%nat 10%nat)].
  - split; [by apply (D 1%nat 9%nat)|by apply (D 1%nat 10%nat)].
  - split; [by apply (D 2%nat 9%nat)|by apply (D 2%nat 10%nat)].
  - split; [by apply (D 3%nat 9%nat)|by apply (D 3%nat 10%nat)].
Qed.

Lemma rewrite_safe payload type s e rewritten : zlen payload < 2 ^ 63 -> (type = kH264StapA -> 2 <= s) ->
  0 <= s -> s + 1 <= e <= zlen payload -> exists out, rewrite_sps payload type (s + 1) e rewritten = Some out.
Proof.
  intros Hp Hs H0 He. unfold rewrite_sps. rewrite (load_Some payload 0) by lia. cbn [mbind option_bind].
  destruct type; cbn [mbind option_bind]; try (rewrite load_Some by lia; by eexists).
  rewrite one_octet. unfold kLengthFieldSize. specialize (Hs eq_refl).
  rewrite u64_id by (change (2 ^ 63) with 9223372036854775808 in *; unfold is_u64; lia).
  unfold put. rewrite WriteBigEndian_spec, length_be_bytes, length_app, length_take. cbn [Z.to_nat drop]. rewrite drop_0.
  rewrite (proj2 (Z.leb_le _ _)) by lia. rewrite (proj2 (Z.leb_le _ _)) by lia. cbn [andb mbind option_bind].
  rewrite load_Some by lia. by eexists.
Qed.

Lemma nalu_step_spec payload type s e g st : zlen payload < 2 ^ 63 -> 0 <= s -> (type = kH264StapA -> 2 <= s) ->
  load payload s (length g) = Some g -> g <> [] -> e = s + zlen g ->
  exists st' n, nalu_step payload type s e st = Some (if unexpected g then None else Some (st', n))
  /\ kept g st st' /\ nalu_info_type n = nal_type g.
Proof.
  intros Hp Hs Hs2 Hg Hne ->. destruct g as [|h data]; [done|]. clear Hne.
  assert (Hin : s + zlen (h :: data) <= zlen payload).
  { unfold load in Hg. destruct (_ && _) eqn:E in Hg; [|done]. apply andb_true_iff in E as [_ E]. lia. }
  cbn [length] in *. rewrite load_Some in Hg by lia. injection Hg as Hg.
  assert (Hh : peek payload s = Some h).
  { unfold peek. rewrite (proj2 (Z.leb_le _ _)) by lia. apply (f_equal (fun l => l !! 0%nat)) in Hg.
    cbn in Hg. rewrite lookup_take_lt, lookup_drop, Nat.add_0_r in Hg by lia. exact Hg. }
  assert (Hd : load payload (s + 1) (Z.to_nat (s + Z.of_nat (S (length data)) - (s + 1))) = Some data).
  { rewrite load_Some by lia. replace (Z.to_nat (s + 1)) with (Z.to_nat s + 1)%nat by lia. rewrite <- drop_drop.
    replace (Z.to_nat _) with (length data) by lia. f_equal.
    destruct (drop (Z.to_nat s) payload) as [|h' l]; [done|]. cbn in Hg. injection Hg as _ Hg. exact Hg. }
  unfold nalu_step. rewrite one_octet, Hh, Hd. cbn [mbind option_bind].
  change (Z.land h kTypeMask) with (nal_type (h :: data)). set (g := h :: data) in *. set (ty := nal_type g).
  destruct labels as (L1 & L2 & L3 & L4 & L5). rewrite !list.Forall_cons in L5. destruct L5 as ([] & [] & [] & [] & _).
  assert (Hun : unexpected g = (ty =? kStapA) || (ty =? kFuA)) by done. assert (Hkey : makes_key g = (ty =? kSps) || (ty =? kIdr)) by done.
  rewrite Hun. destruct (Z.eqb_spec ty kSps) as [Esps|Nsps]; [|destruct (Z.eqb_spec ty kPps) as [Epps|Npps]].
  - rewrite Esps. assert (((kSps =? kStapA) || (kSps =? kFuA)) = false) as -> by (apply orb_false_iff; split; by apply Z.eqb_neq).
    destruct (ParseAndRewriteSps data) as [sps result] eqn:Er.
    assert (Hv : exists v, match result with
      | Some rewritten => rewrite_sps payload type (s + 1) (s + Z.of_nat (S (length data))) rewritten
      | None => Some (st_video_payload st) end = Some v /\ (not_rewritten g -> v = st_video_payload st)).
    { destruct result as [rw|]; [|by eexists]. destruct (rewrite_safe payload type s (s + Z.of_nat (S (length data))) rw) as (v & ->); try done; [lia|].
      exists v. split; [done|]. intros Hn. unfold not_rewritten in Hn. change (List.tl g) with data in Hn. rewrite Er in Hn. by specialize (Hn Esps). }
    destruct Hv as (v & Hv & Hkeep). rewrite Hv. cbn [mbind option_bind].
    assert (Hk : makes_key g = true) by (by rewrite Hkey).
    destruct sps; eexists _, _; (split; [done|]); (split; [constructor; [done|by rewrite Hk|done]|done]).
  - rewrite Epps. assert (((kPps =? kStapA) || (kPps =? kFuA)) = false) as -> by (apply orb_false_iff; split; by apply Z.eqb_neq).
    assert (Hk : makes_key g = false) by (rewrite Hkey, Epps; by apply Z.eqb_neq).
    destruct (ParsePpsIds data) as [[]|]; eexists _, _; (split; [done|]); (split; [constructor; [done|by rewrite Hk|done]|done]).
  - destruct (Z.eqb_spec ty kIdr) as [Eidr|Nidr]; cbn [orb].
    + rewrite Eidr. assert (((kIdr =? kStapA) || (kIdr =? kFuA)) = false) as -> by (apply orb_false_iff; split; by apply Z.eqb_neq).
      assert (Hk : makes_key g = true) by (by rewrite Hkey).
      destruct (ParsePpsIdFromSlice data); eexists _, _; (split; [done|]); (split; [constructor; [done|by rewrite Hk|done]|done]).
    + assert (Hk : makes_key g = false) by (by rewrite Hkey).
      destruct (Z.eqb_spec ty kSlice) as [Esl|Nsl].
      * rewrite Esl. assert (((kSlice =? kStapA) || (kSlice =? kFuA)) = false) as -> by (apply orb_false_iff; split; by apply Z.eqb_neq).
        destruct (ParsePpsIdFromSlice data); eexists _, _; (split; [done|]); (split; [constructor; [done|by rewrite Hk|done]|done]).
      * eexists st, (Nalu ty (-1) (-1)). split; [by destruct (_ || _)|]. split; [constructor; [done|by rewrite Hk|done]|done].
Qed.

(** What the loop knows after the NAL units [gs]. *)
Record scanned (gs : list bytes) (st st' : state) : Prop := {
  scanned_type : st_frame_type st' = if existsb makes_key gs then kVideoFrameKey else st_frame_type st;
  scanned_payload : Forall not_rewritten gs -> st_video_payload st' = st_video_payload st;
  scanned_nalus : (length (st_nalus st) <= kMaxNalusPerPacket)%nat ->
    map nalu_info_type (st_nalus st') = take kMaxNalusPerPacket (map nalu_info_type (st_nalus st) ++ map nal_type gs)
}.

Lemma scanned_nil st : scanned [] st st.
Proof. constructor; [done|done|]. intros Hl. rewrite app_nil_r, take_ge; [done|by rewrite length_map]. Qed.

Lemma scanned_cons g gs st st1 n st' : kept g st st1 -> nalu_info_type n = nal_type g -> scanned gs (add_nalu n st1) st' ->
  scanned (g :: gs) st st'.
Proof.
  intros [K1 K2 K3] Hn [S1 S2 S3]. assert (Ht : st_frame_type (add_nalu n st1) = st_frame_type st1) by (unfold add_nalu; by destruct (_ =? _)%nat).
  assert (Hp : st_video_payload (add_nalu n st1) = st_video_payload st1) by (unfold add_nalu; by destruct (_ =? _)%nat).
  constructor.
  - rewrite S1, Ht, K2. cbn [existsb]. by destruct (makes_key g), (existsb makes_key gs).
  - intros [Hg Hgs]%list.Forall_cons. by rewrite S2, Hp, K3.
  - intros Hl. unfold add_nalu in S3. rewrite K1 in S3. destruct (Nat.eqb_spec (length (st_nalus st)) kMaxNalusPerPacket) as [E|E].
    + rewrite S3 by (by rewrite K1). rewrite K1, !take_app_le by (rewrite length_map; lia). done.
    + cbn [st_nalus] in S3. rewrite S3 by (rewrite length_app; cbn [length]; lia).
      rewrite map_app, <- app_assoc. cbn [map app]. by rewrite Hn.
Qed.

(** A unit that the loop refuses: an empty one, or a packet within the packet. *)
Definition refused (g : bytes) : bool := bool_decide (g = []) || unexpected g.

Lemma loop_unit payload type s next rest g st : zlen payload < 2 ^ 63 -> 0 <= s -> (type = kH264StapA -> 2 <= s) ->
  load payload s (length g) = Some g -> next = s + zlen g + 2 ->
  exists st1 n, nalu_loop payload type (s :: next :: rest) st
    = (if refused g then Some None else nalu_loop payload type (next :: rest) (add_nalu n st1))
  /\ kept g st st1 /\ nalu_info_type n = nal_type g.
Proof.
  intros Hp Hs Hs2 Hg ->. change (2 ^ 63) with 9223372036854775808 in Hp.
  assert (Hin : s + zlen g <= zlen payload).
  { unfold load in Hg. destruct (_ && _) eqn:E in Hg; [|done]. apply andb_true_iff in E as [_ E]. lia. }
  cbn [nalu_loop]. unfold kLengthFieldSize. replace (s + zlen g + 2 - 2) with (s + zlen g) by lia.
  rewrite (u64_id (s + zlen g)) by (unfold is_u64; lia). replace (s + zlen g - s) with (zlen g) by lia.
  rewrite (u64_id (zlen g)) by (unfold is_u64; lia). rewrite one_octet. unfold refused.
  destruct (decide (g = [])) as [->|Hne].
  - exists (State (st_video_payload st) (st_width st) (st_height st) (if makes_key [] then kVideoFrameKey else st_frame_type st) (st_nalus st)),
      (Nalu (nal_type []) 0 0). split; [done|]. by repeat split.
  - rewrite bool_decide_false by done. rewrite (proj2 (Z.ltb_ge _ _)) by (destruct g; [done|cbn [length]; lia]). cbn [orb].
    destruct (nalu_step_spec payload type s (s + zlen g) g st Hp Hs Hs2 Hg Hne eq_refl) as (st1 & n & -> & Hk & Hn).
    cbn [mbind option_bind]. exists st1, n. by destruct (unexpected g).
Qed.

Lemma loop_items gs : forall payload pre off st, payload = pre ++ stap_items gs -> zlen pre = off + 1 -> 0 <= off -> zlen payload < 2 ^ 63 ->
  exists st', nalu_loop payload kH264StapA (item_offsets off gs ++ [zlen payload + 2]) st
    = Some (if existsb refused gs then None else Some st')
  /\ scanned gs st st'.
Proof.
  induction gs as [|g gs IH]; intros payload pre off st Hpay Hpre Hoff Hlen.
  - exists st. split; [done|apply scanned_nil].
  - cbn [item_offsets app existsb]. pose proof (f_equal (fun l => zlen l) Hpay) as Hz. cbn beta in Hz.
    rewrite length_app, Nat2Z.inj_add, zlen_items_cons in Hz.
    assert (Hpay2 : payload = (pre ++ be_bytes 2 (zlen g) ++ g) ++ stap_items gs) by (by rewrite Hpay, stap_items_cons, <- !app_assoc).
    assert (Hnext : exists rest, item_offsets (off + (2 + zlen g)) gs ++ [zlen payload + 2] = (off + 3 + zlen g + 2) :: rest).
    { destruct gs as [|g' gs]; cbn [item_offsets app]; eexists; f_equal; [rewrite Hz; change (zlen (stap_items [])) with 0; lia|lia]. }
    assert (Hg : load payload (off + 3) (length g) = Some g).
    { rewrite Hpay2, <- !app_assoc, app_assoc. replace (off + 3) with (zlen (pre ++ be_bytes 2 (zlen g)) + 0)
        by (rewrite length_app, length_be_bytes; lia). rewrite load_app_at by lia. by apply load_app_here. }
    destruct Hnext as (rest & Hnext). rewrite Hnext.
    destruct (loop_unit payload kH264StapA (off + 3) _ rest g st Hlen ltac:(lia) ltac:(lia) Hg eq_refl) as (st1 & n & -> & Hk & Hn).
    rewrite <- Hnext. destruct (IH payload (pre ++ be_bytes 2 (zlen g) ++ g) (off + (2 + zlen g)) (add_nalu n st1) Hpay2) as (st' & -> & Hs);
      [rewrite !length_app, length_be_bytes; lia|lia|done|].
    exists st'. split; [by destruct (refused g)|]. by apply (scanned_cons g gs st st1 n).
Qed.

(** ** The payloads *)

(** A packet with the NAL units [gs], whole. *)
Definition announced (type : H264PacketizationTypes) (gs : list bytes) (payload : bytes) (r : ParsedRtpPayload) : Prop :=
  exists h, video_type_header (video_header r) = VideoHeaderH264 h /\ packetization_type h = type
  /\ codec (video_header r) = kVideoCodecH264 /\ is_first_packet_in_frame (video_header r) = true
  /\ nalu_type h = nal_type (List.hd [] gs) /\ map nalu_info_type (nalus h) = take kMaxNalusPerPacket (map nal_type gs)
  /\ frame_type (video_header r) = (if existsb makes_key gs then kVideoFrameKey else kVideoFrameDelta)
  /\ (Forall not_rewritten gs -> video_payload r = payload).

Lemma process_announced payload type gs st r ty : scanned gs (State payload 0 0 kVideoFrameDelta []) st ->
  ty = nal_type (List.hd [] gs) ->
  r = Parsed (VideoHeader (st_frame_type st) (st_width st) (st_height st) true 0 kVideoCodecH264
        (VideoHeaderH264 (H264Header ty type (st_nalus st)))) (st_video_payload st) -> announced type gs payload r.
Proof.
  intros [S1 S2 S3] -> ->. eexists. split; [done|]. cbn [packetization_type nalu_type nalus video_header codec is_first_packet_in_frame
    frame_type video_payload]. repeat (split; [done|]). split; [apply S3; cbn; lia|]. split; [exact S1|exact S2].
Qed.

(** A single NAL unit. *)
Lemma parse_single g : g <> [] -> zlen g < 2 ^ 62 -> unexpected g = false ->
  exists r, Parse g = Some (Some r) /\ announced kH264SingleNalu [g] g r.
Proof.
  intros Hne Hl Hu. pose proof Hu as [HnA HnF]%orb_false_iff. destruct g as [|h data]; [done|].
  unfold Parse. rewrite (proj2 (Z.eqb_neq _ 0)) by (cbn [length]; lia). cbn [peek].
  change (peek (h :: data) 0) with (Some h). cbn [mbind option_bind]. change (Z.land h kTypeMask) with (nal_type (h :: data)).
  rewrite HnF. unfold ProcessStapAOrSingleNalu, start_offsets. change (peek (h :: data) 0) with (Some h). cbn [mbind option_bind].
  change (Z.land h kTypeMask) with (nal_type (h :: data)). rewrite HnA. cbn [mbind option_bind app]. set (g := h :: data) in *.
  change (2 ^ 62) with 4611686018427387904 in Hl.
  destruct (loop_unit g kH264SingleNalu 0 (zlen g + 2) [] g (State g 0 0 kVideoFrameDelta [])) as (st1 & n & HL & Hk & Hn);
    [change (2 ^ 63) with 9223372036854775808; lia|lia|done| |lia|].
  { rewrite <- (app_nil_r g) at 1. by apply load_app_here. }
  unfold kLengthFieldSize. rewrite HL. unfold refused. rewrite (bool_decide_false (g = [])) by exact Hne. rewrite Hu. cbn [orb nalu_loop mbind option_bind].
  eexists. split; [done|]. eapply (process_announced g kH264SingleNalu [g] (add_nalu n st1)); [|reflexivity|reflexivity].
  eapply scanned_cons; [done|done|apply scanned_nil].
Qed.

(** An aggregation packet, of any NAL units. *)
Lemma parse_stap h gs (p := h :: stap_items gs) : nal_type [h] = kStapA -> gs <> [] -> Forall (fun g => zlen g <= 65535) gs ->
  zlen p < 2 ^ 62 ->
  exists r, Parse p = Some (if existsb refused gs then None else Some r)
  /\ (existsb refused gs = false -> announced kH264StapA gs p r).
Proof.
  intros Hty Hne Hsz Hl. unfold Parse. rewrite (proj2 (Z.eqb_neq _ 0)) by (cbn [p length]; lia).
  change (peek p 0) with (Some h). cbn [mbind option_bind]. change (Z.land h kTypeMask) with (nal_type [h]). rewrite Hty.
  rewrite (proj2 (Z.eqb_neq _ _) kStapA_kFuA). unfold ProcessStapAOrSingleNalu, start_offsets. change (peek p 0) with (Some h).
  cbn [mbind option_bind]. change (Z.land h kTypeMask) with (nal_type [h]). rewrite Hty, Z.eqb_refl.
  destruct gs as [|g gs]; [done|]. clear Hne. pose proof (zlen_items_cons g gs) as Hz.
  assert (Hp : zlen p = 3 + zlen g + zlen (stap_items gs)) by (cbn [p length]; lia).
  change kStapAHeaderSize with 3. destruct (Z.leb_spec (zlen p) 3).
  { assert (g = []) as -> by (destruct g; [done|cbn [length] in *; lia]). by exists (Parsed default_video_header []). }
  change (drop (Z.to_nat kNalHeaderSize) p) with (drop 0 (stap_items (g :: gs))). rewrite drop_0. unfold ParseStapAStartOffsets.
  rewrite stap_a_offsets_items by done. cbn [mbind option_bind].
  destruct (peek_Some p 3) as [b Hb]; [lia|]. rewrite Hb. cbn [mbind option_bind].
  change (2 ^ 62) with 4611686018427387904 in Hl.
  destruct (loop_items (g :: gs) p [h] 0 (State p 0 0 kVideoFrameDelta [])) as (st & HL & Hs);
    [done|done|lia|change (2 ^ 63) with 9223372036854775808; lia|].
  unfold kLengthFieldSize. rewrite HL. cbn [mbind option_bind]. destruct (existsb refused (g :: gs)) eqn:Er.
  { by exists (Parsed default_video_header []). }
  eexists. split; [reflexivity|]. intros _. eapply process_announced; [exact Hs| |reflexivity].
  cbn [existsb] in Er. apply orb_false_iff in Er as [Er _]. apply orb_false_iff in Er as [Er _]. apply bool_decide_eq_false in Er.
  destruct g as [|h' g]; [done|]. unfold p in Hb. rewrite stap_items_cons in Hb. cbn [List.hd] in *.
  change (h :: be_bytes 2 (zlen (h' :: g)) ++ (h' :: g) ++ stap_items gs)
    with ((h :: be_bytes 2 (zlen (h' :: g))) ++ (h' :: g) ++ stap_items gs) in Hb.
  change 3 with (zlen (h :: be_bytes 2 (zlen (h' :: g))) + 0) in Hb. rewrite peek_app_at in Hb by lia. cbn in Hb. by injection Hb as <-.
Qed.

(** ** Fragments *)

Lemma split_octet h : is_u8 h -> Z.lor (Z.land h 0xE0) (Z.land h 0x1F) = h.
Proof.
  intros Hh. rewrite <- Z.land_lor_distr_r. change (Z.lor 0xE0 0x1F) with 0xFF. rewrite (land_mask 8) by done.
  apply Z.mod_small. unfold is_u8 in Hh. change (2 ^ 8) with 256. lia.
Qed.

Lemma low_bits x : 0 <= x < 32 -> Z.land x 0x1F = x /\ Z.land x 0xE0 = 0.
Proof.
  intros Hx. assert (E : Z.land x 0x1F = x) by (rewrite (land_mask 5) by done; apply Z.mod_small; change (2 ^ 5) with 32; lia).
  split; [done|]. by rewrite <- E, <- Z.land_assoc, Z.land_0_r.
Qed.

Lemma fu_read first last h : is_u8 h -> Z.land (fu_indicator h) 0x1F = kFuA /\ Z.land (fu_indicator h) 0xE0 = Z.land h 0xE0
  /\ Z.land (fu_header first last h) 0x1F = Z.land h 0x1F /\ (Z.land (fu_header first last h) 0x80 >? 0) = first.
Proof.
  intros Hh. pose proof kFuA_type as Hk. destruct (low_bits kFuA) as [K1 K2]; [lia|]. unfold fu_indicator.
  rewrite !Z.land_lor_distr_l, <- !Z.land_assoc, K1, K2, Z.lor_0_r. change (Z.land 0xE0 0x1F) with 0. rewrite Z.land_0_r.
  split; [done|]. split; [done|]. unfold fu_header. set (x := Z.land h 0x1F).
  assert (Hx : 0 <= x < 32) by (unfold x; rewrite (land_mask 5) by done; apply Z.mod_pos_bound; done).
  split.
  - rewrite (land_mask 5) by done. change (2 ^ 5) with 32. destruct first, last; dlia.
  - set (y := _ + _ + x). assert (Hy : 0 <= y < 2 ^ (7 + 1)) by (unfold y; change (2 ^ (7 + 1)) with 256; destruct first, last; lia).
    pose proof (land_top 7 y ltac:(lia) Hy) as E. change (2 ^ 7) with 128 in E.
    assert (H0 : 0 <= Z.land y 128) by (apply Z.land_nonneg; lia). rewrite Z.gtb_ltb.
    destruct (Z.ltb_spec 0 (Z.land y 128)), (Z.eqb_spec (Z.land y 128) 0), (Z.ltb_spec y 128); try lia; try done;
      unfold y in *; destruct first, last; (done || lia).
Qed.

(** The NAL unit, when its first fragment arrives, has its header back. *)
Definition fu_parsed (first : bool) (h : Z) (c : bytes) (r : ParsedRtpPayload) : Prop :=
  exists nalus, r = Parsed
    (VideoHeader (if nal_type [h] =? kIdr then kVideoFrameKey else kVideoFrameDelta) 0 0 first 0 kVideoCodecH264
      (VideoHeaderH264 (H264Header (nal_type [h]) kH264FuA nalus)))
    (if first then h :: c else c)
  /\ map nalu_info_type nalus = if first then [nal_type [h]] else [].

Lemma parse_fua h b c : nal_type [h] = kFuA ->
  exists r, Parse (h :: b :: c) = Some (Some r)
  /\ fu_parsed (Z.land b 0x80 >? 0) (Z.lor (Z.land h 0xE0) (Z.land b 0x1F)) c r.
Proof.
  intros Hty. unfold Parse, ParseFuaNalu. rewrite (proj2 (Z.eqb_neq _ 0)), (proj2 (Z.ltb_ge _ _)) by (cbn [length]; unfold kFuAHeaderSize; lia).
  change (peek (h :: b :: c) 0) with (Some h). change (peek (h :: b :: c) 1) with (Some b). cbn [mbind option_bind].
  change (Z.land h kTypeMask) with (nal_type [h]). rewrite Hty, Z.eqb_refl. unfold kTypeMask, kSBit. change (Z.lor kFBit kNriMask) with 0xE0.
  change (drop (Z.to_nat kFuAHeaderSize) (h :: b :: c)) with (drop 0 c). change (drop 2 (h :: b :: c)) with (drop 0 c). rewrite drop_0.
  set (h' := Z.lor _ _). assert (E : Z.land b 0x1F = nal_type [h']).
  { unfold nal_type, h'. cbn [List.hd]. rewrite Z.land_lor_distr_l, <- !Z.land_assoc. change (Z.land 0xE0 0x1F) with 0. rewrite Z.land_0_r.
    by change (Z.land 0x1F 0x1F) with 0x1F. }
  rewrite E. destruct (Z.land b 128 >? 0).
  - destruct (ParsePpsIdFromSlice c); eexists; (split; [reflexivity|]); eexists; (split; [reflexivity|done]).
  - eexists; (split; [reflexivity|]); eexists; (split; [reflexivity|done]).
Qed.

Lemma parse_fu first last h c : is_u8 h -> exists r, Parse (fu_payload first last h c) = Some (Some r) /\ fu_parsed first h c r.
Proof.
  intros Hh. destruct (fu_read first last h Hh) as (F1 & F2 & F3 & F4).
  destruct (parse_fua (fu_indicator h) (fu_header first last h) c F1) as (r & HP & Hr).
  rewrite F2, F3, F4, split_octet in Hr by done. by exists r.
Qed.

(** ** On any octets *)

(** C18. Whatever the octets of a payload are (less than 2^62), the depacketizer reads only
    inside them and its arithmetic on offsets does not wrap. An aggregation packet is accepted
    only when its NAL units, each behind its length, fill it exactly and none is empty or itself
    a packet of NAL units; then the type of the first one and the types of as many as there is
    room for are announced, and the frame is a key frame when one of them is an IDR slice or a
    sequence parameter set. Any other payload but a fragment is taken as one NAL unit, and a
    fragment is accepted when it has its two octets of header. *)
Theorem h264_parse_safe payload (ty := nal_type payload) : is_bytes payload -> zlen payload < 2 ^ 62 ->
  exists r, Parse payload = Some r /\
  match r with
  | None => payload = [] \/ ty = kStapA \/ ty = kFuA /\ zlen payload < 2
  | Some r =>
      if ty =? kStapA then exists gs, payload = List.hd 0 payload :: stap_items gs /\ gs <> []
        /\ existsb refused gs = false /\ announced kH264StapA gs payload r
      else if ty =? kFuA then exists b c, payload = List.hd 0 payload :: b :: c
        /\ fu_parsed (Z.land b 0x80 >? 0) (Z.lor (Z.land (List.hd 0 payload) 0xE0) (Z.land b 0x1F)) c r
      else announced kH264SingleNalu [payload] payload r
  end.
Proof.
  intros Hb Hl. destruct payload as [|h p]; [eexists; split; [done|]; by left|]. cbn [List.hd]. apply list.Forall_cons in Hb as [Hh Hb].
  destruct (Z.eqb_spec ty kStapA) as [Ea|Ea]; [|destruct (Z.eqb_spec ty kFuA) as [Ef|Ef]].
  - destruct (stap_a_offsets_any (length p) p 0 Hb ltac:(lia)) as (os & Ho & Hcase). destruct os as [os|].
    + destruct Hcase as (gs & -> & Hsz & Eos). destruct gs as [|g gs].
      { exists None. split; [|by right; left]. unfold Parse, ProcessStapAOrSingleNalu, start_offsets.
        change (peek (h :: stap_items []) 0) with (Some h). cbn [mbind option_bind]. change (Z.land h kTypeMask) with ty.
        rewrite Ea, (proj2 (Z.eqb_neq _ _) kStapA_kFuA), Z.eqb_refl. done. }
      destruct (parse_stap h (g :: gs) Ea ltac:(done) Hsz Hl) as (r & -> & Hr).
      destruct (existsb refused (g :: gs)) eqn:Er; [exists None; split; [done|by right; left]|].
      exists (Some r). split; [done|]. exists (g :: gs). split; [done|]. split; [done|]. split; [done|by apply Hr].
    + exists None. split; [|by right; left]. unfold Parse, ProcessStapAOrSingleNalu, start_offsets.
      change (peek (h :: p) 0) with (Some h). cbn [mbind option_bind]. change (Z.land h kTypeMask) with ty.
      rewrite Ea, (proj2 (Z.eqb_neq _ _) kStapA_kFuA), Z.eqb_refl, (proj2 (Z.eqb_neq _ 0)) by (cbn [length]; lia).
      change (drop (Z.to_nat kNalHeaderSize) (h :: p)) with (drop 0 p). rewrite drop_0. unfold ParseStapAStartOffsets. rewrite Ho.
      by destruct (_ <=? _).
  - destruct p as [|b c].
    + exists None. split; [|right; right; split; [done|cbn; lia]]. unfold Parse, ParseFuaNalu.
      change (peek [h] 0) with (Some h). cbn [mbind option_bind]. change (Z.land h kTypeMask) with ty. by rewrite Ef, Z.eqb_refl.
    + destruct (parse_fua h b c Ef) as (r & HP & Hr). exists (Some r). split; [exact HP|]. by exists b, c.
  - destruct (parse_single (h :: p)) as (r & -> & Hr); [done|done| |by exists (Some r)].
    apply orb_false_iff. split; by apply Z.eqb_neq.
Qed.

(** ** A frame *)

Definition nalus_of (r : ParsedRtpPayload) : list NaluInfo :=
  match video_type_header (video_header r) with VideoHeaderH264 h => nalus h | _ => [] end.

(** The NAL units of an aggregation packet, by the offsets that the depacketizer finds. *)
Definition units_of_stap (p : bytes) : list bytes :=
  match ParseStapAStartOffsets (drop 1 p) with
  | Some (Some offsets) => zip_with (fun s e => take (Z.to_nat (e - 2 - s)) (drop (Z.to_nat s) p)) offsets (List.tl offsets ++ [zlen p + 2])
  | _ => []
  end.

(** The specification of the receiver: the tail of the NAL unit that the first packets go on
    with, and the NAL units that begin in the packets. *)
Fixpoint joined (rs : list ParsedRtpPayload) : bytes * list bytes :=
  match rs with
  | [] => ([], [])
  | r :: rs =>
      let '(tail, gs) := joined rs in
      match video_type_header (video_header r) with
      | VideoHeaderH264 h =>
          match packetization_type h with
          | kH264SingleNalu => ([], video_payload r :: gs)
          | kH264StapA => ([], units_of_stap (video_payload r) ++ gs)
          | kH264FuA => if is_first_packet_in_frame (video_header r) then ([], (video_payload r ++ tail) :: gs)
                        else (video_payload r ++ tail, gs)
          end
      | _ => ([], gs)
      end
  end.

Definition received_units (rs : list ParsedRtpPayload) : list bytes := snd (joined rs).

Lemma units_of_items gs : Forall (fun g => zlen g <= 65535) gs -> forall p pre off, p = pre ++ stap_items gs -> zlen pre = off + 1 -> 0 <= off ->
  zip_with (fun s e => take (Z.to_nat (e - 2 - s)) (drop (Z.to_nat s) p)) (item_offsets off gs) (List.tl (item_offsets off gs) ++ [zlen p + 2]) = gs.
Proof.
  induction 1 as [|g gs Hg _ IH]; intros p pre off Hp Hpre Hoff; [done|]. cbn [item_offsets List.tl].
  pose proof (f_equal (fun l => zlen l) Hp) as Hz. cbn beta in Hz. rewrite length_app, Nat2Z.inj_add, zlen_items_cons in Hz.
  assert (Hp2 : p = (pre ++ be_bytes 2 (zlen g) ++ g) ++ stap_items gs) by (by rewrite Hp, stap_items_cons, <- !app_assoc).
  assert (Hd : take (length g) (drop (Z.to_nat (off + 3)) p) = g).
  { rewrite Hp2, <- app_assoc, <- app_assoc, app_assoc. rewrite drop_app_length' by (rewrite length_app, length_be_bytes; lia). apply take_app_length. }
  specialize (IH p (pre ++ be_bytes 2 (zlen g) ++ g) (off + (2 + zlen g)) Hp2).
  rewrite !length_app, length_be_bytes in IH. specialize (IH ltac:(lia) ltac:(lia)).
  destruct gs as [|g' gs].
  - cbn [item_offsets app zip_with]. replace (Z.to_nat _) with (length g); [by rewrite Hd|].
    change (zlen (stap_items [])) with 0 in Hz. lia.
  - cbn [item_offsets app zip_with List.tl] in IH |- *. rewrite IH. f_equal.
    replace (Z.to_nat (off + (2 + zlen g) + 3 - 2 - (off + 3))) with (length g) by lia. exact Hd.
Qed.

Lemma units_of_stap_payload gs : Forall (fun g => zlen g <= 65535) gs -> units_of_stap (stap_payload gs) = gs.
Proof.
  intros Hsz. unfold units_of_stap, stap_payload, ParseStapAStartOffsets. cbn [drop]. rewrite drop_0.
  rewrite stap_a_offsets_items by done. by apply (units_of_items gs Hsz _ [stap_header gs] 0).
Qed.

Definition parsed_all (pls : list bytes) (rs : list ParsedRtpPayload) : Prop := Forall2 (fun pl r => Parse pl = Some (Some r)) pls rs.

(** The packets [rs] deliver the NAL units [gs]. *)
Record delivered (gs : list bytes) (rs : list ParsedRtpPayload) : Prop := {
  delivered_units : joined rs = ([], gs);
  delivered_types : map nalu_info_type (concat (map nalus_of rs)) = map nal_type gs;
  delivered_codec : Forall (fun r => codec (video_header r) = kVideoCodecH264) rs;
  delivered_key : Exists (fun g => nal_type g = kIdr) gs -> Exists (fun r => frame_type (video_header r) = kVideoFrameKey) rs;
  delivered_delta : Forall (fun g => makes_key g = false) gs -> Forall (fun r => frame_type (video_header r) = kVideoFrameDelta) rs
}.

Lemma joined_app ra rb b : joined rb = ([], b) -> joined (ra ++ rb) = (fst (joined ra), snd (joined ra) ++ b).
Proof.
  intros Hb. induction ra as [|r ra IH]; [cbn [app]; by rewrite Hb|]. cbn [app joined]. rewrite IH. destruct (joined ra) as [tail gs]. cbn [fst snd].
  destruct (video_type_header (video_header r)) as [|h|h|id]; try done. destruct (packetization_type h); cbn [fst snd]; [done|by rewrite app_assoc|].
  by destruct (is_first_packet_in_frame _).
Qed.

Lemma delivered_app a ra b rb : delivered a ra -> delivered b rb -> delivered (a ++ b) (ra ++ rb).
Proof.
  intros [A1 A2 A3 A4 A5] [B1 B2 B3 B4 B5]. constructor.
  - rewrite (joined_app _ _ b B1), A1. done.
  - by rewrite map_app, concat_app, !map_app, A2, B2.
  - by apply list.Forall_app.
  - rewrite !Exists_app. tauto.
  - rewrite !list.Forall_app. tauto.
Qed.

Lemma delivered_nil : delivered [] [].
Proof. constructor; try done. intros H. by apply Exists_nil in H. Qed.

(** One packet with whole NAL units. *)
Lemma announced_delivered type gs payload r : announced type gs payload r -> Forall not_rewritten gs ->
  (length gs <= kMaxNalusPerPacket)%nat -> joined [r] = ([], gs) -> delivered gs [r].
Proof.
  intros (h & Hh & Ht & Hcodec & _ & _ & Hn & Hf & Hp) Hrw Hl Hj. constructor.
  - done.
  - cbn [map concat]. unfold nalus_of. rewrite Hh, app_nil_r, Hn. apply take_ge. by rewrite length_map.
  - by repeat constructor.
  - intros Hx. constructor. rewrite Hf. replace (existsb makes_key gs) with true; [done|]. symmetry. apply existsb_exists.
    apply Exists_exists in Hx as (g & Hg & Hty). exists g. split; [exact Hg|]. unfold makes_key. rewrite Hty, Z.eqb_refl. apply orb_true_r.
  - intros Hx. repeat constructor. rewrite Hf. replace (existsb makes_key gs) with false; [done|]. symmetry. apply Bool.not_true_iff_false.
    intros (g & Hg & Hk)%existsb_exists. apply list_elem_of_In in Hg. pose proof (proj1 (list.Forall_forall _ _) Hx g Hg). cbn beta in *. congruence.
Qed.

(** The fragments of a NAL unit. *)
Lemma fragments_delivered h cs : is_u8 h -> forall first, exists rs, parsed_all (fu_payloads first h cs) rs
  /\ (cs <> [] -> joined rs = if first then ([], [h :: concat cs]) else (concat cs, []))
  /\ (cs = [] -> joined rs = ([], [])) /\ (cs <> [] -> rs <> [])
  /\ (cs <> [] -> map nalu_info_type (concat (map nalus_of rs)) = if first then [nal_type [h]] else [])
  /\ (first = false -> map nalu_info_type (concat (map nalus_of rs)) = [])
  /\ Forall (fun r => codec (video_header r) = kVideoCodecH264
       /\ frame_type (video_header r) = if nal_type [h] =? kIdr then kVideoFrameKey else kVideoFrameDelta) rs.
Proof.
  intros Hh. induction cs as [|c cs IH]; intros first; cbn [fu_payloads].
  - exists []. split; [constructor|]. splits; done.
  - destruct (parse_fu first (bool_decide (cs = [])) h c Hh) as (r & HP & nalus & -> & Hn). destruct (IH false) as (rs & R1 & R2 & R3 & R4 & R5 & R6 & R7).
    specialize (R6 eq_refl). set (r := Parsed _ _) in *.
    assert (Hj : joined rs = (concat cs, [])) by (destruct cs; [by apply R3|by apply R2]).
    exists (r :: rs). split; [by constructor|].
    assert (Hjr : joined (r :: rs) = if first then ([], [h :: concat (c :: cs)]) else (concat (c :: cs), [])).
    { cbn [joined concat]. rewrite Hj. cbn [r video_header video_type_header packetization_type is_first_packet_in_frame video_payload]. by destruct first. }
    splits; try done.
    + intros _. cbn [map concat]. rewrite map_app, R6, app_nil_r. exact Hn.
    + intros ->. cbn [map concat]. rewrite map_app, R6, app_nil_r. exact Hn.
    + constructor; [|done]. done.
Qed.

Lemma carries_delivered pls gs : carries pls gs -> Forall (fun pl => zlen pl < 2 ^ 62) pls ->
  Forall (fun g => unexpected g = false /\ not_rewritten g) gs -> (length gs <= kMaxNalusPerPacket)%nat ->
  exists rs, parsed_all pls rs /\ delivered gs rs.
Proof.
  induction 1 as [|g pls gs [Hg Hb] Hc IH|gs' pls gs Hl Hok Hsz Hc IH|h cs pls gs Hl Hh Hcs Hc IH]; intros Hz Hall Hmax.
  - exists []. split; [constructor|apply delivered_nil].
  - apply list.Forall_cons in Hz as [Hz1 Hz], Hall as [[Hu Hrw] Hall]. cbn [length] in Hmax.
    destruct (IH Hz Hall ltac:(lia)) as (rs & R1 & R2). destruct (parse_single g Hg Hz1 Hu) as (r & HP & Hr).
    exists (r :: rs). split; [by constructor|]. apply (delivered_app [g] [r]); [|done].
    eapply announced_delivered; [exact Hr|by repeat constructor|cbn; lia|]. destruct Hr as (hd & Eh & Et & _ & _ & _ & _ & _ & Hp).
    cbn [joined]. rewrite Eh, Et, Hp by (by repeat constructor). done.
  - apply list.Forall_cons in Hz as [Hz1 Hz]. apply list.Forall_app in Hall as [Hall1 Hall]. rewrite length_app in Hmax.
    destruct (IH Hz Hall ltac:(lia)) as (rs & R1 & R2).
    assert (Hty : nal_type [stap_header gs'] = kStapA).
    { unfold nal_type, stap_header. cbn [List.hd]. pose proof kStapA_type. destruct (low_bits kStapA) as [K _]; [lia|].
      rewrite Z.land_lor_distr_l, <- Z.land_assoc, K. change (Z.land 0xE0 0x1F) with 0. by rewrite Z.land_0_r. }
    destruct (parse_stap (stap_header gs') gs' Hty) as (r & HP & Hr); [by intros ->; cbn in Hl; lia|done|done|].
    assert (Her : existsb refused gs' = false).
    { apply Bool.not_true_iff_false. intros (g & Hg & Hk)%existsb_exists. apply list_elem_of_In in Hg.
      eapply list.Forall_forall in Hall1 as [Hu _]; [|exact Hg]. eapply list.Forall_forall in Hok as [Hne _]; [|exact Hg].
      unfold refused in Hk. rewrite bool_decide_false, Hu in Hk by done. done. }
    rewrite Her in HP. specialize (Hr Her). exists (r :: rs). split; [by constructor|]. apply (delivered_app gs' [r]); [|done].
    assert (Hrw : Forall not_rewritten gs') by (eapply list.Forall_impl; [exact Hall1|]; by intros ? []).
    eapply announced_delivered; [exact Hr|done|lia|]. destruct Hr as (hd & Eh & Et & _ & _ & _ & _ & _ & Hp).
    cbn [joined]. rewrite Eh, Et, Hp by done. change (stap_header gs' :: stap_items gs') with (stap_payload gs').
    by rewrite units_of_stap_payload, app_nil_r.
  - apply list.Forall_app in Hz as [Hz1 Hz]. apply list.Forall_cons in Hall as [[Hu Hrw] Hall]. cbn [length] in Hmax.
    destruct (IH Hz Hall ltac:(lia)) as (rs & R1 & R2). assert (Hne : cs <> []) by (by intros ->; cbn in Hl; lia).
    destruct (fragments_delivered h cs Hh true) as (rf & F1 & F2 & _ & F4 & F5 & _ & F7).
    exists (rf ++ rs). split; [by apply Forall2_app|]. apply (delivered_app [h :: concat cs] rf); [|done].
    assert (Hty : forall l, nal_type (h :: l) = nal_type [h]) by done. constructor.
    + by apply F2.
    + rewrite F5 by done. cbn [map]. by rewrite (Hty (concat cs)).
    + eapply list.Forall_impl; [exact F7|]. by intros ? [].
    + intros [Hk|Hk]%Exists_cons; [|by apply Exists_nil in Hk]. rewrite Hty in Hk. specialize (F4 Hne).
      destruct F7 as [|r rf [_ Hr] _]; [done|]. constructor. by rewrite Hr, Hk, Z.eqb_refl.
    + intros [Hk _]%list.Forall_cons. unfold makes_key in Hk. apply orb_false_iff in Hk as [_ Hk]. rewrite (Hty (concat cs)) in Hk.
      eapply list.Forall_impl; [exact F7|]. intros r [_ Hr]. by rewrite Hr, Hk.
Qed.

End receive.

(** ** Sending and receiving *)

Section frames.
Import RtpPacket RtpPacketizerH264.
Context {types : NaluTypes} {types_laws : NaluTypesLaws} {parsers : H264Parsers} {parsers_laws : H264ParsersLaws}.
Context {buf : Type} {cow : CowBuffer buf} {cow_laws : CowBufferLaws buf}.
Context {ext_limits : RtpExtension} {ext_laws : RtpExtensionLaws}.
Context {numerics : RtcNumerics} {numerics_laws : RtcNumericsLaws}.

Lemma parsed_all_mapM pls rs : parsed_all pls rs -> mapM VideoRtpDepacketizerH264.Parse pls = Some (map Some rs).
Proof. intros H. apply mapM_Some. by apply Forall2_fmap_r. Qed.

(** C17. One to kMaxNalusPerPacket NAL units, not empty and of at most 2^28 octets together,
    none of type STAP-A or FU-A and none a parameter set that the receiver's SPS parser
    rewrites, are sent in whatever packets with room the sender has prepared, under limits of at
    most 65535 octets that leave room for three under each reduction, the single one at most the
    first and the last together. The non-interleaved mode always finds packets; the single-NAL-
    unit mode does when each unit fits the packet of its position: small ones are aggregated,
    large ones fragmented. Every packet is within its limit and only the last has the marker
    bit; the depacketizer accepts every payload; joining the fragments and cutting the
    aggregates at the offsets that it finds gives the NAL units back; it announces the type of
    each of them, a key frame when one is an IDR slice, and none when none is an IDR slice or a
    sequence parameter set. *)
Theorem h264_frame FindNaluIndices payload limits mode (frags := map (subview payload) (FindNaluIndices payload)) :
  h264_limits limits -> single_packet_reduction_len limits <= first_packet_reduction_len limits + last_packet_reduction_len limits ->
  frags <> [] -> Forall nal_ok frags -> zlen (concat frags) <= 2 ^ 28 -> mode_ok mode limits frags ->
  Forall (fun g => unexpected g = false /\ not_rewritten g) frags -> (List.length frags <= kMaxNalusPerPacket)%nat ->
  exists st, create FindNaluIndices payload limits mode = Some st /\ 0 < NumPackets st
  /\ forall ps (q : RtpPacket.t buf), zlen ps = NumPackets st -> Forall (prepared (max_payload_len limits)) ps ->
     exists st' ps' pls rs, fill_packets NextPacket ps st = Some (st', ps', true) /\ NumPackets st' = 0
     /\ receive_all q ps' = Some (marked pls) /\ within limits pls
     /\ mapM VideoRtpDepacketizerH264.Parse pls = Some (map Some rs)
     /\ received_units rs = frags /\ map nalu_info_type (concat (map nalus_of rs)) = map nal_type frags
     /\ (Exists (fun g => nal_type g = kIdr) frags -> Exists (fun r => frame_type (video_header r) = kVideoFrameKey) rs)
     /\ (Forall (fun g => makes_key g = false) frags -> Forall (fun r => frame_type (video_header r) = kVideoFrameDelta) rs).
Proof.
  intros Hlim Hs Hne Hok H28 Hmode Hplain Hmax.
  destruct (create_spec FindNaluIndices payload limits mode Hlim Hs Hok Hne H28 Hmode) as (st & pls & Hmk & Hst & Hcarry & Hwithin).
  exists st. split; [done|]. rewrite (law_count _ _ _ h264_laws st pls Hst). fold frags in Hcarry. split.
  { destruct pls; [|cbn [List.length]; lia]. apply carries_empty in Hcarry. by destruct frags. }
  intros ps q Hl Hps. rewrite <- (law_count _ _ _ h264_laws st pls Hst) in Hl.
  assert (Hsmall : small_limits limits) by (destruct Hlim; constructor; change (2 ^ 28) with 268435456; lia).
  pose proof (within_max limits pls Hsmall Hwithin) as Hpls.
  destruct (frame_arrives NumPackets NextPacket pending h264_laws (max_payload_len limits) pls Hpls st ps q Hst Hl Hps)
    as (st' & ps' & HF & Hst' & HR).
  destruct (carries_delivered pls frags Hcarry) as (rs & Hall & [D1 D2 D3 D4 D5]); [|done|done|].
  { eapply list.Forall_impl; [exact Hpls|]. cbn beta. intros pl Hp. destruct Hlim. change (2 ^ 62) with 4611686018427387904. lia. }
  exists st', ps', pls, rs. split; [done|]. split; [by rewrite (law_count _ _ _ h264_laws st' _ Hst')|].
  split; [done|]. split; [done|]. split; [by apply parsed_all_mapM|]. split; [unfold received_units; by rewrite D1|]. done.
Qed.

End frames.

(** ** A concrete frame *)

(** The types of ITU-T H.264, and parsers that read the first octets. *)
#[global] Instance sample_parsers : H264Parsers | 100 := {|
  kSps := 7; kPps := 8; kIdr := 5; kSlice := 1; kAud := 9; kEndOfSequence := 10; kEndOfStream := 11; kFiller := 12; kSei := 6;
  kNaluTypeSize := 1; kMaxNalusPerPacket := 10;
  ParseAndRewriteSps := fun d => (Some (Sps 640 480 (List.hd 0 d)), None);
  ParsePpsIds := fun d => Some (List.hd 0 d, 0);
  ParsePpsIdFromSlice := fun d => List.hd_error d
|}.

#[global] Instance sample_parsers_laws : H264ParsersLaws.
Proof. constructor; [done|]. by apply (bool_decide_unpack _). Qed.

(** A sequence and a picture parameter set, aggregated, and an IDR slice in two fragments. *)
Definition sample_nalus : bytes :=
  [0x67; 3; 1; 2; 3; 0x68; 5; 6; 0x65; 1; 2; 3; 4; 5; 6; 7; 8; 9; 10; 11; 12; 13; 14; 15; 16; 17; 18; 19].

Definition sample_indices (payload : bytes) : list (Z * Z) := [(0, 5); (5, 3); (8, 20)].

Lemma h264_parse_safe_witness : exists r, VideoRtpDepacketizerH264.Parse [0x78; 0; 2; 0x67; 3; 0; 1; 0x65] = Some (Some r)
  /\ frame_type (video_header r) = kVideoFrameKey /\ width (video_header r) = 640
  /\ exists gs, [0x78; 0; 2; 0x67; 3; 0; 1; 0x65] = 0x78 :: stap_items gs /\ gs <> [].
Proof.
  destruct (h264_parse_safe [0x78; 0; 2; 0x67; 3; 0; 1; 0x65]) as (r & HP & Hr); [by repeat constructor|by vm_compute|].
  vm_compute in HP. injection HP as <-. eexists. split; [reflexivity|]. split; [done|]. split; [done|].
  destruct Hr as (gs & Hgs & Hne & _). by exists gs.
Defined.

Lemma h264_frame_witness : exists (p : RtpPacket.t plain_buffer) st st' ps' pls rs,
  RtpPacketizerH264.create sample_indices sample_nalus (Limits 16 0 0 0) NonInterleaved = Some st
  /\ fill_packets RtpPacketizerH264.NextPacket [p; p; p] st = Some (st', ps', true)
  /\ receive_all p ps' = Some (marked pls) /\ mapM VideoRtpDepacketizerH264.Parse pls = Some (map Some rs)
  /\ received_units rs = [take 5 sample_nalus; take 3 (drop 5 sample_nalus); drop 8 sample_nalus]
  /\ Exists (fun r => frame_type (video_header r) = kVideoFrameKey) rs.
Proof.
  destruct (new_rep (buf := plain_buffer) sample_map sample_capacity) as (p & Hnew & Hr & Hc & _); [done|].
  destruct (h264_frame (buf := plain_buffer) sample_indices sample_nalus (Limits 16 0 0 0) NonInterleaved) as (st & Hmk & Hn & Hall).
  - constructor; cbn; lia.
  - cbn. lia.
  - done.
  - repeat (constructor; [split; [done|by repeat constructor]|]). constructor.
  - by vm_compute.
  - done.
  - repeat (constructor; [split; [done|intros _; done]|]). constructor.
  - cbn. lia.
  - pose proof Hmk as Hst. vm_compute in Hst. injection Hst as Hst.
    destruct (Hall [p; p; p] p) as (st' & ps' & pls & rs & HF & _ & HR & _ & HM & HU & _ & HK & _).
    + by rewrite <- Hst.
    + assert (Hp : prepared 16 p) by (exists empty_image; rewrite Hc; split; [exact Hr|]; by repeat split). by repeat constructor.
    + exists p, st, st', ps', pls, rs. split; [exact Hmk|]. split; [exact HF|]. split; [exact HR|]. split; [exact HM|].
      split; [exact HU|]. apply HK. apply Exists_cons_tl, Exists_cons_tl, Exists_cons_hd. reflexivity.
Defined.
