(* ===== verification/RtpUtil.v ===== *)
(** * Telling RTP from RTCP on a shared port: rtp_rtcp/source/rtp_util.cc, with what the RTP
      builder and the RTCP builders of the other files send *)

From S2P Require Import Prelude.
From S2P Require Import ByteIo.
From S2P Require Import Buffers.
From S2P Require Import RtcpCore.
From S2P Require Import RtcpFeedback.
From S2P Require Import RtcpMisc.
From S2P Require Import RtcpReports.
From S2P Require Import RtcpXr.
From S2P Require Import RtcpEstimate.
From S2P Require Import RtcpCompound.
From S2P Require Import RtpExtensionMap.
From S2P Require Import RtpPacket.

Module RtpUtil.

Definition kRtpVersion : Z := 2.
Definition kMinRtpPacketLen : Z := 12.
Definition kMinRtcpPacketLen : Z := 4.

Definition HasCorrectRtpVersion (packet : bytes) : option bool :=
  b0 ← peek packet 0; Some (Z.shiftr b0 6 =? kRtpVersion).

Definition PayloadTypeIsReservedForRtcp (payload_type : Z) : bool :=
  (64 <=? payload_type) && (payload_type <? 96).

Definition IsRtpPacket (packet : bytes) : option bool :=
  if negb (kMinRtpPacketLen <=? zlen packet) then Some false else
  correct ← HasCorrectRtpVersion packet;
  if negb correct then Some false else
  b1 ← peek packet 1; Some (negb (PayloadTypeIsReservedForRtcp (Z.land b1 0x7F))).

Definition IsRtcpPacket (packet : bytes) : option bool :=
  if negb (kMinRtcpPacketLen <=? zlen packet) then Some false else
  correct ← HasCorrectRtpVersion packet;
  if negb correct then Some false else
  b1 ← peek packet 1; Some (PayloadTypeIsReservedForRtcp (Z.land b1 0x7F)).

Definition ParseRtpPayloadType (rtp_packet : bytes) : option Z :=
  rtp ← IsRtpPacket rtp_packet; check rtp ;;
  b1 ← peek rtp_packet 1; Some (Z.land b1 0x7F).

Definition ParseRtpSequenceNumber (rtp_packet : bytes) : option Z :=
  rtp ← IsRtpPacket rtp_packet; check rtp ;; read_u16 rtp_packet 2.

Definition ParseRtpSsrc (rtp_packet : bytes) : option Z :=
  rtp ← IsRtpPacket rtp_packet; check rtp ;; read_u32 rtp_packet 8.

End RtpUtil.

Import RtpUtil.

Section demux.
Context {ntp : Type} `{NtpTimeLaws ntp} `{RtcNumericsLaws} {rate : Type} `{DataRate rate}.

(** What the two tests say of a datagram, in terms of its first octets. *)
Definition rtp_shape (d : bytes) : Prop :=
  12 <= zlen d /\ exists b0 b1, peek d 0 = Some b0 /\ peek d 1 = Some b1
  /\ Z.shiftr b0 6 = 2 /\ ~ (64 <= Z.land b1 0x7F < 96).

Definition rtcp_shape (d : bytes) : Prop :=
  4 <= zlen d /\ exists b0 b1, peek d 0 = Some b0 /\ peek d 1 = Some b1
  /\ Z.shiftr b0 6 = 2 /\ 64 <= Z.land b1 0x7F < 96.

Lemma reserved_iff pt : PayloadTypeIsReservedForRtcp pt = bool_decide (64 <= pt < 96).
Proof.
  unfold PayloadTypeIsReservedForRtcp. destruct (Z.leb_spec 64 pt), (Z.ltb_spec pt 96); case_bool_decide; (done || lia).
Qed.

(** Both tests are total, and each is true for its shape only. *)
Lemma IsRtpPacket_iff d : exists ok, IsRtpPacket d = Some ok /\ (ok = true <-> rtp_shape d).
Proof.
  unfold IsRtpPacket, HasCorrectRtpVersion, kMinRtpPacketLen, kRtpVersion, rtp_shape.
  destruct (Z.leb_spec 12 (zlen d)) as [Hl|Hl]; cbn [negb].
  2:{ exists false. split; [done|]. split; [done|]. intros [? _]. lia. }
  destruct (peek_Some d 0 ltac:(lia)) as [b0 E0], (peek_Some d 1 ltac:(lia)) as [b1 E1]. rewrite E0, E1. cbn [mbind option_bind].
  destruct (Z.eqb_spec (Z.shiftr b0 6) 2) as [Hv|Hv]; cbn [negb].
  - eexists. split; [done|]. rewrite reserved_iff, negb_true_iff, bool_decide_eq_false. split.
    + intros Hr. split; [done|]. by exists b0, b1.
    + by intros (_ & ? & ? & [= <-] & [= <-] & _ & Hr).
  - exists false. split; [done|]. split; [done|]. by intros (_ & ? & ? & [= <-] & _ & ? & _).
Qed.

Lemma IsRtcpPacket_iff d : exists ok, IsRtcpPacket d = Some ok /\ (ok = true <-> rtcp_shape d).
Proof.
  unfold IsRtcpPacket, HasCorrectRtpVersion, kMinRtcpPacketLen, kRtpVersion, rtcp_shape.
  destruct (Z.leb_spec 4 (zlen d)) as [Hl|Hl]; cbn [negb].
  2:{ exists false. split; [done|]. split; [done|]. intros [? _]. lia. }
  destruct (peek_Some d 0 ltac:(lia)) as [b0 E0], (peek_Some d 1 ltac:(lia)) as [b1 E1]. rewrite E0, E1. cbn [mbind option_bind].
  destruct (Z.eqb_spec (Z.shiftr b0 6) 2) as [Hv|Hv]; cbn [negb].
  - eexists. split; [done|]. rewrite reserved_iff, bool_decide_eq_true. split.
    + intros Hr. split; [done|]. by exists b0, b1.
    + by intros (_ & ? & ? & [= <-] & [= <-] & _ & Hr).
  - exists false. split; [done|]. split; [done|]. by intros (_ & ? & ? & [= <-] & _ & ? & _).
Qed.

Lemma shapes_disjoint d : rtp_shape d -> rtcp_shape d -> False.
Proof. intros (_ & ? & ? & _ & E & _ & Hn) (_ & ? & ? & _ & E' & _ & Hr). congruence. Qed.

Lemma IsRtpPacket_true d : rtp_shape d -> IsRtpPacket d = Some true.
Proof. intros Hd. destruct (IsRtpPacket_iff d) as ([] & E & Hiff); [done|]. by apply Hiff in Hd. Qed.

(** An accepted RTCP header shows in the first octets. *)
Lemma header_shape this d n h : CommonHeader.Parse this d n = Some (h, true) -> n <= zlen d ->
  64 <= Z.land (CommonHeader.type h) 0x7F < 96 -> rtcp_shape d.
Proof.
  unfold CommonHeader.Parse, CommonHeader.kHeaderSizeBytes. destruct (Z.ltb_spec n 4); [done|].
  destruct (peek d 0) as [b0|] eqn:E0; [|done]. cbn [mbind option_bind].
  destruct (Z.eqb_spec (Z.shiftr b0 6) 2) as [Hv|]; [|done]. cbn [negb].
  destruct (peek d 1) as [b1|] eqn:E1; [|done]. cbn [mbind option_bind].
  destruct (read_u16 d 2) as [len|]; [|done]. cbn [mbind option_bind]. intros Hp Hn Ht.
  assert (CommonHeader.type h = b1) as E.
  { revert Hp. repeat (match goal with |- context [if ?b then _ else _] => destruct b end; try done);
      try (by intros [= <-]). destruct (peek (drop 4 d) _) as [x|]; [|done]. cbn [mbind option_bind].
    destruct (x =? 0); [done|]. destruct (x >? _); [done|]. by intros [= <-]. }
  rewrite E in Ht. split; [lia|]. by exists b0, b1.
Qed.

Lemma rtp_encode_shape im : image_wf im -> ~ (64 <= im_payload_type im < 96) -> rtp_shape (encode im).
Proof.
  intros Hw Hpt. destruct (header_reads im (csrc_octets im ++ ext_block (im_two_byte im) (im_extensions im)
    ++ im_payload im ++ padding_octets (im_padding im)) Hw) as (E0 & E1 & _). fold (encode im) in E0, E1.
  pose proof (wf_csrcs _ Hw) as [_ Hcc]. split.
  - unfold encode. rewrite length_app, Nat2Z.inj_add, length_header. lia.
  - exists (first_octet im), (second_octet im). split; [done|]. split; [done|]. split.
    + rewrite first_octet_eq. by destruct (octet0_read (negb (im_padding im =? 0)) (bool_decide (im_extensions im <> []))
        (zlen (im_csrcs im)) ltac:(lia)).
    + change (second_octet im) with (octet1 (im_marker im) (im_payload_type im)).
      by destruct (octet1_read (im_marker im) (im_payload_type im) (wf_payload_type _ Hw)) as [_ ->].
Qed.

Lemma rtcp_encode_shape (p : packet ntp rate) rest : packet_wf p -> rtcp_shape (packet_encode p ++ rest).
Proof.
  intros Hw. destruct p; cbn [packet_wf packet_encode] in *;
    (match goal with Hw : codec_wf ?q |- _ =>
       destruct (codec_parses q CommonHeader.new rest (zlen (codec_encode q)) Hw) as (h & E & Ht & _) end; [lia|]);
    (eapply header_shape; [exact E|rewrite length_app; lia|]; rewrite Ht; split; by vm_compute).
Qed.

(** On a shared port each datagram has one destination: the two tests read no octet
    outside the datagram and never both hold; every packet the RTP builder makes with a
    payload type outside 64..95 is taken for RTP, and its payload type, sequence number
    and SSRC are read without parsing it; every RTCP packet of the builders, alone or with
    others behind it, is taken for RTCP and not for RTP. *)
Theorem demux datagram :
  (exists rtp rtcp, IsRtpPacket datagram = Some rtp /\ IsRtcpPacket datagram = Some rtcp
     /\ ~ (rtp = true /\ rtcp = true))
  /\ (forall im, image_wf im -> ~ (64 <= im_payload_type im < 96) -> datagram = encode im ->
      IsRtpPacket datagram = Some true /\ ParseRtpPayloadType datagram = Some (im_payload_type im)
      /\ ParseRtpSequenceNumber datagram = Some (im_sequence_number im)
      /\ ParseRtpSsrc datagram = Some (im_ssrc im))
  /\ (forall (p : packet ntp rate) rest, packet_wf p -> datagram = packet_encode p ++ rest ->
      IsRtcpPacket datagram = Some true /\ IsRtpPacket datagram = Some false).
Proof.
  destruct (IsRtpPacket_iff datagram) as (rtp & Ertp & Hrtp), (IsRtcpPacket_iff datagram) as (rtcp & Ertcp & Hrtcp).
  split; [|split].
  - exists rtp, rtcp. split; [done|]. split; [done|]. intros [Ha%Hrtp Hb%Hrtcp]. by apply (shapes_disjoint datagram).
  - intros im Hw Hpt ->. pose proof (IsRtpPacket_true _ (rtp_encode_shape im Hw Hpt)) as Et.
    destruct (header_reads im (csrc_octets im ++ ext_block (im_two_byte im) (im_extensions im)
      ++ im_payload im ++ padding_octets (im_padding im)) Hw) as (_ & E1 & E2 & _ & E8). fold (encode im) in E1, E2, E8.
    unfold ParseRtpPayloadType, ParseRtpSequenceNumber, ParseRtpSsrc. rewrite Et. cbn [check mbind option_bind].
    split; [done|]. rewrite E1. cbn [mbind option_bind]. split; [|done]. f_equal.
    by destruct (octet1_read (im_marker im) (im_payload_type im) (wf_payload_type _ Hw)).
  - intros p rest Hw ->. pose proof (rtcp_encode_shape p rest Hw) as Hshape.
    rewrite Ertcp, Ertp. destruct rtcp; [|by apply Hrtcp in Hshape]. split; [done|].
    destruct rtp; [|done]. exfalso. by apply (shapes_disjoint _ (proj1 Hrtp eq_refl)).
Qed.

End demux.

Definition sample_rtp : image := Image true 111 65535 1 2 [] false [] [7] 0.

Definition sample_rtcp : packet ntp_value bits_per_second := PPli (Pli.Mk (CommonFeedback.Mk 7 8)).

Lemma demux_witness :
  (IsRtpPacket (encode sample_rtp) = Some true /\ ParseRtpSequenceNumber (encode sample_rtp) = Some 65535)
  /\ IsRtcpPacket (packet_encode sample_rtcp) = Some true /\ IsRtpPacket (packet_encode sample_rtcp) = Some false.
Proof.
  destruct (demux (ntp := ntp_value) (rate := bits_per_second) (encode sample_rtp)) as (_ & Hrtp & _).
  destruct (demux (ntp := ntp_value) (rate := bits_per_second) (packet_encode sample_rtcp)) as (_ & _ & Hrtcp). split.
  - destruct (Hrtp sample_rtp) as (H1 & _ & H2 & _); [|by cbn; lia|done|done].
    constructor; cbn; try constructor; try done; try constructor; done.
  - apply (Hrtcp sample_rtcp []); [decide_wf|by rewrite app_nil_r].
Defined.
