(* ===== verification/FecTables.v ===== *)
(** * The packet masks of forward error correction: fec_private_tables_{random,bursty}.cc

    For each number of media packets up to 12: the number of masks, then the mask of each
    number of FEC packets, two octets to a row. *)

From S2P Require Import Prelude.
From S2P Require Import ByteIo.

(** ** fec_private_tables_random.cc *)

Definition kPacketMaskRandom1 : bytes := 1 :: concat [
  [0x80; 0x00]].

Definition kPacketMaskRandom2 : bytes := 2 :: concat [
  [0xc0; 0x00];
  [0xc0; 0x00; 0x80; 0x00]].

Definition kPacketMaskRandom3 : bytes := 3 :: concat [
  [0xe0; 0x00];
  [0xc0; 0x00; 0xa0; 0x00];
  [0xc0; 0x00; 0xa0; 0x00; 0x60; 0x00]].

Definition kPacketMaskRandom4 : bytes := 4 :: concat [
  [0xf0; 0x00];
  [0xc0; 0x00; 0xb0; 0x00];
  [0xc0; 0x00; 0xb0; 0x00; 0x60; 0x00];
  [0xc0; 0x00; 0xa0; 0x00; 0x30; 0x00; 0x50; 0x00]].

Definition kPacketMaskRandom5 : bytes := 5 :: concat [
  [0xf8; 0x00];
  [0xa8; 0x00; 0xd0; 0x00];
  [0xb0; 0x00; 0xc8; 0x00; 0x50; 0x00];
  [0xc8; 0x00; 0xb0; 0x00; 0x50; 0x00; 0x28; 0x00];
  [0xc0; 0x00; 0x30; 0x00; 0x18; 0x00; 0xa0; 0x00; 0x48; 0x00]].

Definition kPacketMaskRandom6 : bytes := 6 :: concat [
  [0xfc; 0x00];
  [0xa8; 0x00; 0xd4; 0x00];
  [0xd0; 0x00; 0x68; 0x00; 0xa4; 0x00];
  [0xa8; 0x00; 0x58; 0x00; 0x64; 0x00; 0x94; 0x00];
  [0xa8; 0x00; 0x84; 0x00; 0x64; 0x00; 0x90; 0x00; 0x58; 0x00];
  [0x98; 0x00; 0x64; 0x00; 0x50; 0x00; 0x14; 0x00; 0xa8; 0x00; 0xe0; 0x00]].

Definition kPacketMaskRandom7 : bytes := 7 :: concat [
  [0xfe; 0x00];
  [0xd4; 0x00; 0xaa; 0x00];
  [0xd0; 0x00; 0xaa; 0x00; 0x64; 0x00];
  [0xd0; 0x00; 0xaa; 0x00; 0x64; 0x00; 0x1c; 0x00];
  [0x0c; 0x00; 0xb0; 0x00; 0x1a; 0x00; 0xc4; 0x00; 0x62; 0x00];
  [0x8c; 0x00; 0x4a; 0x00; 0x64; 0x00; 0xd0; 0x00; 0xa0; 0x00; 0x32; 0x00];
  [0x4a; 0x00; 0x94; 0x00; 0x1a; 0x00; 0xc4; 0x00; 0x28; 0x00; 0xc2; 0x00; 0x34; 0x00]].

Definition kPacketMaskRandom8 : bytes := 8 :: concat [
  [0xff; 0x00];
  [0xaa; 0x00; 0xd5; 0x00];
  [0xc5; 0x00; 0x92; 0x00; 0x6a; 0x00];
  [0x45; 0x00; 0xb4; 0x00; 0x6a; 0x00; 0x89; 0x00];
  [0x8c; 0x00; 0x92; 0x00; 0x2b; 0x00; 0x51; 0x00; 0x64; 0x00];
  [0xa1; 0x00; 0x52; 0x00; 0x91; 0x00; 0x2a; 0x00; 0xc4; 0x00; 0x4c; 0x00];
  [0x15; 0x00; 0xc2; 0x00; 0x25; 0x00; 0x62; 0x00; 0x58; 0x00; 0x8c; 0x00; 0xa3; 0x00];
  [0x25; 0x00; 0x8a; 0x00; 0x91; 0x00; 0x68; 0x00; 0x32; 0x00; 0x43; 0x00; 0xc4; 0x00; 0x1c; 0x00]].

Definition kPacketMaskRandom9 : bytes := 9 :: concat [
  [0xff; 0x80];
  [0xaa; 0x80; 0xd5; 0x00];
  [0xa5; 0x00; 0xc8; 0x00; 0x52; 0x80];
  [0xa2; 0x00; 0xc9; 0x00; 0x52; 0x80; 0x24; 0x80];
  [0x8c; 0x00; 0x25; 0x00; 0x92; 0x80; 0x41; 0x80; 0x58; 0x00];
  [0x84; 0x80; 0x27; 0x00; 0x51; 0x80; 0x1a; 0x00; 0x68; 0x00; 0x89; 0x00];
  [0x8c; 0x00; 0x47; 0x00; 0x81; 0x80; 0x12; 0x80; 0x58; 0x00; 0x28; 0x80; 0xb4; 0x00];
  [0x2c; 0x00; 0x91; 0x00; 0x40; 0x80; 0x06; 0x80; 0xc8; 0x00; 0x45; 0x00; 0x30; 0x80; 0xa2; 0x00];
  [0x4c; 0x00; 0x62; 0x00; 0x91; 0x00; 0x42; 0x80; 0xa4; 0x00; 0x13; 0x00; 0x30; 0x80; 0x88; 0x80; 0x09; 0x00]].

Definition kPacketMaskRandom10 : bytes := 10 :: concat [
  [0xff; 0xc0];
  [0xaa; 0x80; 0xd5; 0x40];
  [0xa4; 0x40; 0xc9; 0x00; 0x52; 0x80];
  [0xca; 0x00; 0x32; 0x80; 0xa1; 0x40; 0x55; 0x00];
  [0xca; 0x00; 0x32; 0x80; 0xa1; 0x40; 0x55; 0x00; 0x08; 0xc0];
  [0x0e; 0x00; 0x33; 0x00; 0x10; 0xc0; 0x45; 0x40; 0x88; 0x80; 0xe0; 0x00];
  [0x46; 0x00; 0x33; 0x00; 0x80; 0xc0; 0x0c; 0x40; 0x28; 0x80; 0x94; 0x00; 0xc1; 0x00];
  [0x2c; 0x00; 0x81; 0x80; 0xa0; 0x40; 0x05; 0x40; 0x18; 0x80; 0xc2; 0x00; 0x22; 0x80; 0x50; 0x40];
  [0x4c; 0x00; 0x23; 0x00; 0x88; 0xc0; 0x21; 0x40; 0x52; 0x80; 0x94; 0x00; 0x26; 0x00; 0x48; 0x40; 0x91; 0x80];
  [0x4c; 0x00; 0x51; 0x00; 0xa0; 0x40; 0x04; 0xc0; 0x03; 0x80; 0x86; 0x00; 0x29; 0x00; 0x42; 0x40; 0x98; 0x00; 0x30; 0x80]].

Definition kPacketMaskRandom11 : bytes := 11 :: concat [
  [0xff; 0xe0];
  [0xec; 0xc0; 0x9b; 0xa0];
  [0xca; 0xc0; 0xf1; 0x40; 0xb6; 0x20];
  [0xc4; 0xc0; 0x31; 0x60; 0x4b; 0x20; 0x2c; 0xa0];
  [0x86; 0x80; 0x23; 0x20; 0x16; 0x20; 0x4c; 0x20; 0x41; 0xc0];
  [0x64; 0x40; 0x51; 0x40; 0x0c; 0xa0; 0xa1; 0x20; 0x12; 0xa0; 0x8a; 0x40];
  [0x46; 0x40; 0x33; 0x20; 0x91; 0x80; 0xa4; 0x20; 0x50; 0xa0; 0x84; 0xc0; 0x09; 0x60];
  [0x0c; 0x80; 0x80; 0x60; 0xa0; 0x80; 0x05; 0x40; 0x43; 0x00; 0x1a; 0x00; 0x60; 0x20; 0x14; 0x20];
  [0x46; 0x40; 0x62; 0x60; 0x8c; 0x00; 0x01; 0x60; 0x07; 0x80; 0xa0; 0x80; 0x18; 0xa0; 0x91; 0x00; 0x78; 0x00];
  [0x64; 0x40; 0x51; 0x40; 0xa9; 0x00; 0x04; 0xc0; 0xd0; 0x00; 0x82; 0x40; 0x21; 0x20; 0x0c; 0x20; 0x4a; 0x00; 0x12; 0xa0];
  [0x46; 0x40; 0x33; 0x20; 0x99; 0x00; 0x05; 0x80; 0x80; 0xa0; 0x84; 0x40; 0x40; 0x60; 0x0a; 0x80; 0x68; 0x00; 0x10; 0x20; 0x30; 0x40]].

Definition kPacketMaskRandom12 : bytes := 12 :: concat [
  [0xff; 0xf0];
  [0xec; 0xc0; 0x93; 0xb0];
  [0x9b; 0x80; 0x4f; 0x10; 0x3c; 0x60];
  [0x8b; 0x20; 0x14; 0xb0; 0x22; 0xd0; 0x45; 0x50];
  [0x53; 0x60; 0x64; 0x20; 0x0c; 0xc0; 0x82; 0xa0; 0x09; 0x30];
  [0x51; 0x40; 0xc5; 0x10; 0x21; 0x80; 0x12; 0x30; 0x08; 0xe0; 0x2e; 0x00];
  [0x53; 0x60; 0x21; 0x30; 0x90; 0x90; 0x02; 0x50; 0x06; 0xa0; 0x2c; 0x00; 0x88; 0x60];
  [0x20; 0x60; 0x80; 0x30; 0x42; 0x40; 0x01; 0x90; 0x14; 0x10; 0x0a; 0x80; 0x38; 0x00; 0xc5; 0x00];
  [0x53; 0x60; 0xe4; 0x20; 0x24; 0x40; 0xa1; 0x10; 0x18; 0x30; 0x03; 0x90; 0x8a; 0x10; 0x04; 0x90; 0x00; 0xe0];
  [0x51; 0x40; 0x45; 0x10; 0x80; 0xd0; 0x24; 0x20; 0x0a; 0x20; 0x00; 0xe0; 0xb8; 0x00; 0x09; 0x10; 0x56; 0x00; 0xa2; 0x80];
  [0x53; 0x60; 0x21; 0x30; 0x10; 0x90; 0x00; 0x70; 0x0c; 0x10; 0x40; 0xc0; 0x6a; 0x00; 0x86; 0x00; 0x24; 0x80; 0x89; 0x00; 0xc0; 0x20];
  [0x10; 0x60; 0x02; 0x30; 0x40; 0x50; 0x21; 0x80; 0x81; 0x10; 0x14; 0x80; 0x98; 0x00; 0x08; 0x90; 0x62; 0x00; 0x24; 0x20; 0x8a; 0x00; 0x84; 0x40]].

Definition kPacketMaskRandomTbl : bytes := 12 :: concat [
  kPacketMaskRandom1; kPacketMaskRandom2; kPacketMaskRandom3; kPacketMaskRandom4; kPacketMaskRandom5; kPacketMaskRandom6; kPacketMaskRandom7; kPacketMaskRandom8; kPacketMaskRandom9; kPacketMaskRandom10; kPacketMaskRandom11; kPacketMaskRandom12].

(** ** fec_private_tables_bursty.cc *)

Definition kPacketMaskBursty1 : bytes := 1 :: concat [
  [0x80; 0x00]].

Definition kPacketMaskBursty2 : bytes := 2 :: concat [
  [0xc0; 0x00];
  [0x80; 0x00; 0xc0; 0x00]].

Definition kPacketMaskBursty3 : bytes := 3 :: concat [
  [0xe0; 0x00];
  [0xc0; 0x00; 0xa0; 0x00];
  [0x80; 0x00; 0xc0; 0x00; 0x60; 0x00]].

Definition kPacketMaskBursty4 : bytes := 4 :: concat [
  [0xf0; 0x00];
  [0xa0; 0x00; 0xd0; 0x00];
  [0xc0; 0x00; 0x60; 0x00; 0x90; 0x00];
  [0x80; 0x00; 0xc0; 0x00; 0x60; 0x00; 0x30; 0x00]].

Definition kPacketMaskBursty5 : bytes := 5 :: concat [
  [0xf8; 0x00];
  [0xd0; 0x00; 0xa8; 0x00];
  [0x70; 0x00; 0x90; 0x00; 0xc8; 0x00];
  [0xc0; 0x00; 0x60; 0x00; 0x30; 0x00; 0x88; 0x00];
  [0x80; 0x00; 0xc0; 0x00; 0x60; 0x00; 0x30; 0x00; 0x18; 0x00]].

Definition kPacketMaskBursty6 : bytes := 6 :: concat [
  [0xfc; 0x00];
  [0xa8; 0x00; 0xd4; 0x00];
  [0x94; 0x00; 0xc8; 0x00; 0x64; 0x00];
  [0x60; 0x00; 0x38; 0x00; 0x88; 0x00; 0xc4; 0x00];
  [0xc0; 0x00; 0x60; 0x00; 0x30; 0x00; 0x18; 0x00; 0x84; 0x00];
  [0x80; 0x00; 0xc0; 0x00; 0x60; 0x00; 0x30; 0x00; 0x18; 0x00; 0x0c; 0x00]].

Definition kPacketMaskBursty7 : bytes := 7 :: concat [
  [0xfe; 0x00];
  [0xd4; 0x00; 0xaa; 0x00];
  [0xc8; 0x00; 0x74; 0x00; 0x92; 0x00];
  [0x38; 0x00; 0x8a; 0x00; 0xc4; 0x00; 0x62; 0x00];
  [0x60; 0x00; 0x30; 0x00; 0x1c; 0x00; 0x84; 0x00; 0xc2; 0x00];
  [0xc0; 0x00; 0x60; 0x00; 0x30; 0x00; 0x18; 0x00; 0x0c; 0x00; 0x82; 0x00];
  [0x80; 0x00; 0xc0; 0x00; 0x60; 0x00; 0x30; 0x00; 0x18; 0x00; 0x0c; 0x00; 0x06; 0x00]].

Definition kPacketMaskBursty8 : bytes := 8 :: concat [
  [0xff; 0x00];
  [0xaa; 0x00; 0xd5; 0x00];
  [0x74; 0x00; 0x92; 0x00; 0xc9; 0x00];
  [0x8a; 0x00; 0xc5; 0x00; 0x62; 0x00; 0x31; 0x00];
  [0x30; 0x00; 0x1c; 0x00; 0x85; 0x00; 0xc2; 0x00; 0x61; 0x00];
  [0x60; 0x00; 0x30; 0x00; 0x18; 0x00; 0x0e; 0x00; 0x82; 0x00; 0xc1; 0x00];
  [0xc0; 0x00; 0x60; 0x00; 0x30; 0x00; 0x18; 0x00; 0x0c; 0x00; 0x06; 0x00; 0x81; 0x00];
  [0x80; 0x00; 0xc0; 0x00; 0x60; 0x00; 0x30; 0x00; 0x18; 0x00; 0x0c; 0x00; 0x06; 0x00; 0x03; 0x00]].

Definition kPacketMaskBursty9 : bytes := 9 :: concat [
  [0xff; 0x80];
  [0xd5; 0x00; 0xaa; 0x80];
  [0x92; 0x00; 0xc9; 0x00; 0x74; 0x80];
  [0xc5; 0x00; 0x62; 0x00; 0x39; 0x00; 0x8a; 0x80];
  [0x1c; 0x00; 0x85; 0x00; 0xc2; 0x80; 0x61; 0x00; 0x30; 0x80];
  [0x30; 0x00; 0x18; 0x00; 0x0e; 0x00; 0x82; 0x80; 0xc1; 0x00; 0x60; 0x80];
  [0x60; 0x00; 0x30; 0x00; 0x18; 0x00; 0x0c; 0x00; 0x07; 0x00; 0x81; 0x00; 0xc0; 0x80];
  [0xc0; 0x00; 0x60; 0x00; 0x30; 0x00; 0x18; 0x00; 0x0c; 0x00; 0x06; 0x00; 0x03; 0x00; 0x80; 0x80];
  [0x80; 0x00; 0xc0; 0x00; 0x60; 0x00; 0x30; 0x00; 0x18; 0x00; 0x0c; 0x00; 0x06; 0x00; 0x03; 0x00; 0x01; 0x80]].

Definition kPacketMaskBursty10 : bytes := 10 :: concat [
  [0xff; 0xc0];
  [0xaa; 0x80; 0xd5; 0x40];
  [0xc9; 0x00; 0x74; 0x80; 0x92; 0x40];
  [0x62; 0x00; 0x39; 0x00; 0x8a; 0x80; 0xc5; 0x40];
  [0x85; 0x00; 0xc2; 0x80; 0x61; 0x40; 0x30; 0x80; 0x18; 0x40];
  [0x18; 0x00; 0x0e; 0x00; 0x82; 0x80; 0xc1; 0x40; 0x60; 0x80; 0x30; 0x40];
  [0x30; 0x00; 0x18; 0x00; 0x0c; 0x00; 0x07; 0x00; 0x81; 0x40; 0xc0; 0x80; 0x60; 0x40];
  [0x60; 0x00; 0x30; 0x00; 0x18; 0x00; 0x0c; 0x00; 0x06; 0x00; 0x03; 0x00; 0x80; 0x80; 0xc0; 0x40];
  [0xc0; 0x00; 0x60; 0x00; 0x30; 0x00; 0x18; 0x00; 0x0c; 0x00; 0x06; 0x00; 0x03; 0x00; 0x01; 0x80; 0x80; 0x40];
  [0x80; 0x00; 0xc0; 0x00; 0x60; 0x00; 0x30; 0x00; 0x18; 0x00; 0x0c; 0x00; 0x06; 0x00; 0x03; 0x00; 0x01; 0x80; 0x00; 0xc0]].

Definition kPacketMaskBursty11 : bytes := 11 :: concat [
  [0xff; 0xe0];
  [0xd5; 0x40; 0xaa; 0xa0];
  [0x74; 0x80; 0x92; 0x40; 0xc9; 0x20];
  [0x39; 0x00; 0x8a; 0x80; 0xc5; 0x40; 0x62; 0x20];
  [0xc2; 0xc0; 0x61; 0x00; 0x30; 0xa0; 0x1c; 0x40; 0x85; 0x20];
  [0x0e; 0x00; 0x82; 0x80; 0xc1; 0x40; 0x60; 0xa0; 0x30; 0x40; 0x18; 0x20];
  [0x18; 0x00; 0x0c; 0x00; 0x07; 0x00; 0x81; 0x40; 0xc0; 0xa0; 0x60; 0x40; 0x30; 0x20];
  [0x30; 0x00; 0x18; 0x00; 0x0c; 0x00; 0x06; 0x00; 0x03; 0x40; 0x80; 0xa0; 0xc0; 0x40; 0x60; 0x20];
  [0x60; 0x00; 0x30; 0x00; 0x18; 0x00; 0x0c; 0x00; 0x06; 0x00; 0x03; 0x00; 0x01; 0x80; 0x80; 0x40; 0xc0; 0x20];
  [0xc0; 0x00; 0x60; 0x00; 0x30; 0x00; 0x18; 0x00; 0x0c; 0x00; 0x06; 0x00; 0x03; 0x00; 0x01; 0x80; 0x00; 0xc0; 0x80; 0x20];
  [0x80; 0x00; 0xc0; 0x00; 0x60; 0x00; 0x30; 0x00; 0x18; 0x00; 0x0c; 0x00; 0x06; 0x00; 0x03; 0x00; 0x01; 0x80; 0x00; 0xc0; 0x00; 0x60]].

Definition kPacketMaskBursty12 : bytes := 12 :: concat [
  [0xff; 0xf0];
  [0xaa; 0xa0; 0xd5; 0x50];
  [0x92; 0x40; 0xc9; 0x20; 0x74; 0x90];
  [0x8a; 0x80; 0xc5; 0x40; 0x62; 0x20; 0x39; 0x10];
  [0x61; 0x00; 0x30; 0xa0; 0x1c; 0x50; 0x85; 0x20; 0xc2; 0x90];
  [0x82; 0x90; 0xc1; 0x40; 0x60; 0xa0; 0x30; 0x50; 0x18; 0x20; 0x0c; 0x10];
  [0x0c; 0x00; 0x07; 0x00; 0x81; 0x40; 0xc0; 0xa0; 0x60; 0x50; 0x30; 0x20; 0x18; 0x10];
  [0x18; 0x00; 0x0c; 0x00; 0x06; 0x00; 0x03; 0x00; 0x80; 0xa0; 0xc0; 0x50; 0x60; 0x20; 0x30; 0x10];
  [0x30; 0x00; 0x18; 0x00; 0x0c; 0x00; 0x06; 0x00; 0x03; 0x00; 0x01; 0x80; 0x80; 0x50; 0xc0; 0x20; 0x60; 0x10];
  [0x60; 0x00; 0x30; 0x00; 0x18; 0x00; 0x0c; 0x00; 0x06; 0x00; 0x03; 0x00; 0x01; 0x80; 0x00; 0xc0; 0x80; 0x20; 0xc0; 0x10];
  [0xc0; 0x00; 0x60; 0x00; 0x30; 0x00; 0x18; 0x00; 0x0c; 0x00; 0x06; 0x00; 0x03; 0x00; 0x01; 0x80; 0x00; 0xc0; 0x00; 0x60; 0x80; 0x10];
  [0x80; 0x00; 0xc0; 0x00; 0x60; 0x00; 0x30; 0x00; 0x18; 0x00; 0x0c; 0x00; 0x06; 0x00; 0x03; 0x00; 0x01; 0x80; 0x00; 0xc0; 0x00; 0x60; 0x00; 0x30]].

Definition kPacketMaskBurstyTbl : bytes := 12 :: concat [
  kPacketMaskBursty1; kPacketMaskBursty2; kPacketMaskBursty3; kPacketMaskBursty4; kPacketMaskBursty5; kPacketMaskBursty6; kPacketMaskBursty7; kPacketMaskBursty8; kPacketMaskBursty9; kPacketMaskBursty10; kPacketMaskBursty11; kPacketMaskBursty12].
