(* ===== verification/FecMasks.v ===== *)
(** * Which media packets an FEC packet protects: forward_error_correction_internal.{h,cc}

    A packet mask is an array of rows of octets: row [i], bit [j] from the left says that FEC
    packet [i] protects media packet [j]. The whole table of masks is checked: every row
    protects something, no row protects a packet that is not there, and every media packet
    is protected. *)

From S2P Require Import Prelude.
From S2P Require Import ByteIo.
From S2P Require Import Buffers.
From S2P Require Import FecTables.

(** module_fec_types.h *)
Inductive FecMaskType := kFecMaskRandom | kFecMaskBursty.

Definition kUlpfecMaxMediaPackets : Z := 48.
Definition kUlpfecPacketMaskSizeLBitClear : Z := 2.
Definition kUlpfecPacketMaskSizeLBitSet : Z := 6.
Definition kFECPacketMaskMaxSize : Z := 288.

Module FecInternal.

Inductive ProtectionMode := kModeNoOverlap | kModeOverlap | kModeBiasFirstPacket.

Definition PacketMaskSize (num_sequence_numbers : Z) : option Z :=
  check (num_sequence_numbers <=? 8 * kUlpfecPacketMaskSizeLBitSet) ;;
  Some (if num_sequence_numbers >? 8 * kUlpfecPacketMaskSizeLBitClear
        then kUlpfecPacketMaskSizeLBitSet else kUlpfecPacketMaskSizeLBitClear).

(** entry += entry_size_increment * (j + 1), [count] times *)
Fixpoint skip_data (count : nat) (j entry_size_increment entry : Z) : Z :=
  match count with
  | O => entry
  | S count => skip_data count (j + 1) entry_size_increment (entry + entry_size_increment * (j + 1))
  end.

(** The entries before the one looked up; [entry] is an offset in the table. *)
Fixpoint skip_entries (table : bytes) (n : nat) (i entry_size_increment entry : Z) : option (Z * Z) :=
  match n with
  | O => Some (entry_size_increment, entry)
  | S n =>
      let entry_size_increment := if i =? 16 then 6 else entry_size_increment in
      count ← peek table entry;
      skip_entries table n (i + 1) entry_size_increment (skip_data (Z.to_nat count) 0 entry_size_increment (entry + 1))
  end.

Definition LookUpInFecTable (table : bytes) (media_packet_index fec_index : Z) : option bytes :=
  size ← peek table 0;
  check (media_packet_index <? size) ;;
  '(entry_size_increment, entry) ← skip_entries table (Z.to_nat media_packet_index) 0 2 1;
  let entry_size_increment := if media_packet_index =? 16 then 6 else entry_size_increment in
  count ← peek table entry;
  check (fec_index <? count) ;;
  let entry := skip_data (Z.to_nat fec_index) 0 entry_size_increment (entry + 1) in
  load table entry (Z.to_nat (entry_size_increment * (fec_index + 1))).

Definition PickTable (fec_mask_type : FecMaskType) (num_media_packets : Z) : option bytes :=
  check (num_media_packets >=? 0) ;; check (num_media_packets <=? kUlpfecMaxMediaPackets) ;;
  max ← peek kPacketMaskBurstyTbl 0;
  Some (match fec_mask_type with
        | kFecMaskBursty => if num_media_packets <=? max then kPacketMaskBurstyTbl else kPacketMaskRandomTbl
        | kFecMaskRandom => kPacketMaskRandomTbl
        end).

(** Bit [x] of a row of the interleaved code. *)
Definition interleaved_bit (num_media_packets num_fec_packets row x value : Z) : Z :=
  if (Z.rem x num_fec_packets =? row) && (x <? num_media_packets) then value else 0.

Definition interleaved_octet (num_media_packets num_fec_packets row col : Z) : Z :=
  let bit k value := interleaved_bit num_media_packets num_fec_packets row (col * 8 + k) value in
  Z.lor (bit 0 0x80) (Z.lor (bit 1 0x40) (Z.lor (bit 2 0x20) (Z.lor (bit 3 0x10)
    (Z.lor (bit 4 0x08) (Z.lor (bit 5 0x04) (Z.lor (bit 6 0x02) (bit 7 0x01))))))).

(** PacketMaskTable::LookUp; the array fec_packet_mask_ is filled row by row. *)
Definition LookUp (table : bytes) (num_media_packets num_fec_packets : Z) : option bytes :=
  check (num_media_packets >? 0) ;; check (num_fec_packets >? 0) ;;
  check (num_media_packets <=? kUlpfecMaxMediaPackets) ;; check (num_fec_packets <=? num_media_packets) ;;
  if num_media_packets <=? 12 then LookUpInFecTable table (num_media_packets - 1) (num_fec_packets - 1) else
  mask_length ← PacketMaskSize num_media_packets;
  check (num_fec_packets * mask_length <=? kFECPacketMaskMaxSize) ;;
  Some (concat (map (fun row => map (fun col => interleaved_octet num_media_packets num_fec_packets (Z.of_nat row) (Z.of_nat col))
    (seq 0 (Z.to_nat mask_length))) (seq 0 (Z.to_nat num_fec_packets)))).

(** The rows of FitSubMask when the masks differ in width. *)
Fixpoint fit_rows (n : nat) (i num_mask_bytes num_sub_mask_bytes : Z) (sub_mask packet_mask : bytes) : option bytes :=
  match n with
  | O => Some packet_mask
  | S n =>
      row ← load sub_mask (i * num_sub_mask_bytes) (Z.to_nat num_sub_mask_bytes);
      packet_mask ← put packet_mask (i * num_mask_bytes) row;
      fit_rows n (i + 1) num_mask_bytes num_sub_mask_bytes sub_mask packet_mask
  end.

(** [packet_mask] from [offset] on. *)
Definition at_offset (offset : Z) (f : bytes -> option bytes) (packet_mask : bytes) : option bytes :=
  check (offset <=? zlen packet_mask) ;;
  rest ← f (drop (Z.to_nat offset) packet_mask);
  Some (take (Z.to_nat offset) packet_mask ++ rest).

Definition FitSubMask (num_mask_bytes num_sub_mask_bytes num_rows : Z) (sub_mask packet_mask : bytes) : option bytes :=
  if num_mask_bytes =? num_sub_mask_bytes then
    octets ← load sub_mask 0 (Z.to_nat (num_rows * num_sub_mask_bytes)); put packet_mask 0 octets
  else fit_rows (Z.to_nat num_rows) 0 num_mask_bytes num_sub_mask_bytes sub_mask packet_mask.

(** The octets of one row from the last to the first: [j] more of them, then the first. *)
Fixpoint shift_octets (j : nat) (num_bit_shifts pkt_mask_idx pkt_mask_idx2 : Z) (sub_mask packet_mask : bytes) : option bytes :=
  b ← peek sub_mask pkt_mask_idx2;
  let shift_right_curr_byte := Z.shiftr b num_bit_shifts in
  match j with
  | O => put packet_mask pkt_mask_idx [shift_right_curr_byte]
  | S j =>
      previous ← peek sub_mask (pkt_mask_idx2 - 1);
      let shift_left_prev_byte := u8 (Z.shiftl previous (8 - num_bit_shifts)) in
      packet_mask ← put packet_mask pkt_mask_idx [Z.lor shift_right_curr_byte shift_left_prev_byte];
      shift_octets j num_bit_shifts (pkt_mask_idx - 1) (pkt_mask_idx2 - 1) sub_mask packet_mask
  end.

Fixpoint shift_rows (n : nat) (i num_mask_bytes res_mask_bytes num_column_shift : Z) (sub_mask packet_mask : bytes) : option bytes :=
  match n with
  | O => Some packet_mask
  | S n =>
      let num_bit_shifts := Z.rem num_column_shift 8 in
      let num_byte_shifts := Z.shiftr num_column_shift 3 in
      let pkt_mask_idx := i * num_mask_bytes + res_mask_bytes - 1 + num_byte_shifts in
      let pkt_mask_idx2 := (i - num_column_shift) * res_mask_bytes + res_mask_bytes - 1 in
      packet_mask ←
        (if num_mask_bytes >? res_mask_bytes then
           b ← peek sub_mask pkt_mask_idx2;
           put packet_mask (pkt_mask_idx + 1) [u8 (Z.shiftl b (8 - num_bit_shifts))]
         else Some packet_mask);
      packet_mask ← shift_octets (Z.to_nat (res_mask_bytes - 1)) num_bit_shifts pkt_mask_idx pkt_mask_idx2 sub_mask packet_mask;
      shift_rows n (i + 1) num_mask_bytes res_mask_bytes num_column_shift sub_mask packet_mask
  end.

Definition ShiftFitSubMask (num_mask_bytes res_mask_bytes num_column_shift end_row : Z) (sub_mask packet_mask : bytes) : option bytes :=
  shift_rows (Z.to_nat (end_row - num_column_shift)) num_column_shift num_mask_bytes res_mask_bytes num_column_shift sub_mask packet_mask.

(** packet_mask[i * num_mask_bytes] |= 1 << 7 *)
Fixpoint bias_first (n : nat) (i num_mask_bytes : Z) (packet_mask : bytes) : option bytes :=
  match n with
  | O => Some packet_mask
  | S n =>
      b ← peek packet_mask (i * num_mask_bytes);
      packet_mask ← put packet_mask (i * num_mask_bytes) [Z.lor b 0x80];
      bias_first n (i + 1) num_mask_bytes packet_mask
  end.

Definition RemainingPacketProtection (num_media_packets num_fec_remaining num_fec_for_imp_packets num_mask_bytes : Z)
    (mode : ProtectionMode) (packet_mask table : bytes) : option bytes :=
  match mode with
  | kModeNoOverlap =>
      res_mask_bytes ← PacketMaskSize (num_media_packets - num_fec_for_imp_packets);
      let end_row := num_fec_for_imp_packets + num_fec_remaining in
      packet_mask_sub_21 ← LookUp table (num_media_packets - num_fec_for_imp_packets) num_fec_remaining;
      ShiftFitSubMask num_mask_bytes res_mask_bytes num_fec_for_imp_packets end_row packet_mask_sub_21 packet_mask
  | _ =>
      packet_mask_sub_22 ← LookUp table num_media_packets num_fec_remaining;
      packet_mask ← at_offset (num_fec_for_imp_packets * num_mask_bytes)
        (FitSubMask num_mask_bytes num_mask_bytes num_fec_remaining packet_mask_sub_22) packet_mask;
      match mode with
      | kModeBiasFirstPacket => bias_first (Z.to_nat num_fec_remaining) 0 num_mask_bytes packet_mask
      | _ => Some packet_mask
      end
  end.

Definition ImportantPacketProtection (num_fec_for_imp_packets num_imp_packets num_mask_bytes : Z) (packet_mask table : bytes)
  : option bytes :=
  num_imp_mask_bytes ← PacketMaskSize num_imp_packets;
  packet_mask_sub_1 ← LookUp table num_imp_packets num_fec_for_imp_packets;
  FitSubMask num_mask_bytes num_imp_mask_bytes num_fec_for_imp_packets packet_mask_sub_1 packet_mask.

(** alloc_par is 0.5: the product is exact and truncated to an int. *)
Definition SetProtectionAllocation (num_media_packets num_fec_packets num_imp_packets : Z) : Z :=
  let max_num_fec_for_imp := Z.quot num_fec_packets 2 in
  let num_fec_for_imp_packets := if num_imp_packets <? max_num_fec_for_imp then num_imp_packets else max_num_fec_for_imp in
  if (num_fec_packets =? 1) && (num_media_packets >? 2 * num_imp_packets) then 0 else num_fec_for_imp_packets.

(** mode is the local constant of the function. *)
Definition UnequalProtectionMask (mode : ProtectionMode) (num_media_packets num_fec_packets num_imp_packets num_mask_bytes : Z)
    (packet_mask table : bytes) : option bytes :=
  let num_fec_for_imp_packets :=
    match mode with
    | kModeBiasFirstPacket => 0
    | _ => SetProtectionAllocation num_media_packets num_fec_packets num_imp_packets
    end in
  let num_fec_remaining := num_fec_packets - num_fec_for_imp_packets in
  packet_mask ←
    (if num_fec_for_imp_packets >? 0
     then ImportantPacketProtection num_fec_for_imp_packets num_imp_packets num_mask_bytes packet_mask table
     else Some packet_mask);
  if num_fec_remaining >? 0
  then RemainingPacketProtection num_media_packets num_fec_remaining num_fec_for_imp_packets num_mask_bytes mode packet_mask table
  else Some packet_mask.

Definition GeneratePacketMasks (num_media_packets num_fec_packets num_imp_packets : Z) (use_unequal_protection : bool)
    (table packet_mask : bytes) : option bytes :=
  check (num_media_packets >? 0) ;; check (num_fec_packets >? 0) ;; check (num_fec_packets <=? num_media_packets) ;;
  check (num_imp_packets <=? num_media_packets) ;; check (num_imp_packets >=? 0) ;;
  num_mask_bytes ← PacketMaskSize num_media_packets;
  if negb use_unequal_protection || (num_imp_packets =? 0) then
    mask ← LookUp table num_media_packets num_fec_packets; put packet_mask 0 mask
  else UnequalProtectionMask kModeOverlap num_media_packets num_fec_packets num_imp_packets num_mask_bytes packet_mask table.

End FecInternal.

(** ** What a set of masks must do *)

(** The bits of a row, the first media packet first. *)
Definition octet_bits (b : Z) : list bool := map (Z.testbit b) [7; 6; 5; 4; 3; 2; 1; 0].

Definition mask_bits (row : bytes) : list bool := flat_map octet_bits row.

(** Row [row] protects media packet [j]. *)
Definition protects (row : bytes) (j : nat) : Prop := mask_bits row !! j = Some true.

(** Every row protects something and nothing that is not there, and every one of the [m] media
    packets is protected. *)
Record good_masks (m : nat) (rows : list bytes) : Prop := GoodMasks {
  gm_some : Forall (fun row => exists j, protects row j) rows;
  gm_inside : Forall (fun row => forall j, protects row j -> (j < m)%nat) rows;
  gm_all : forall j, (j < m)%nat -> Exists (fun row => protects row j) rows
}.

(** The flat array as rows of [w] octets. *)
Fixpoint split_rows (n w : nat) (mask : bytes) : list bytes :=
  match n with
  | O => []
  | S n => take w mask :: split_rows n w (drop w mask)
  end.

Definition good_row_b (m : nat) (row : bytes) : bool :=
  existsb id (mask_bits row) && negb (existsb id (drop m (mask_bits row))).

Definition good_masks_b (m : nat) (rows : list bytes) : bool :=
  forallb (good_row_b m) rows &&
  (let bits := map mask_bits rows in forallb (fun j => existsb (fun row => List.nth j row false) bits) (seq 0 m)).

Definition lookup_ok (table : bytes) (m n : nat) : bool :=
  match FecInternal.LookUp table (Z.of_nat m) (Z.of_nat n), FecInternal.PacketMaskSize (Z.of_nat m) with
  | Some mask, Some w =>
      (zlen mask =? Z.of_nat n * w) && forallb (fun b => (0 <=? b) && (b <? 256)) mask &&
      good_masks_b m (split_rows n (Z.to_nat w) mask)
  | _, _ => false
  end.

Definition table_ok (max : nat) (table : bytes) : bool :=
  forallb (fun m => forallb (lookup_ok table m) (seq 1 m)) (seq 1 max).

Lemma existsb_true_lookup (l : list bool) : existsb id l = true <-> exists j, l !! j = Some true.
Proof.
  rewrite existsb_exists. split.
  - intros (b & Hin & Hb). apply list_elem_of_In, list_elem_of_lookup in Hin as [j Hj]. destruct b; [|done]. by exists j.
  - intros (j & Hj). exists true. split; [|done]. apply list_elem_of_In, list_elem_of_lookup. by exists j.
Qed.

Lemma good_row_sound m row : good_row_b m row = true ->
  (exists j, protects row j) /\ (forall j, protects row j -> (j < m)%nat).
Proof.
  unfold good_row_b. intros [H1 H2]%andb_prop. split; [by apply existsb_true_lookup|].
  intros j Hj. destruct (decide (j < m)%nat) as [|Hge]; [done|]. apply negb_true_iff in H2.
  rewrite (proj2 (existsb_true_lookup _)) in H2; [done|]. exists (j - m)%nat. rewrite lookup_drop.
  by replace (m + (j - m))%nat with j by lia.
Qed.

Lemma good_masks_sound m rows : good_masks_b m rows = true -> good_masks m rows.
Proof.
  unfold good_masks_b. intros [Hr Hc]%andb_prop. rewrite forallb_forall in Hr. constructor.
  - apply Forall_forall. intros row Hin. by apply (good_row_sound m), Hr.
  - apply Forall_forall. intros row Hin. by apply (good_row_sound m), Hr.
  - intros j Hj. rewrite forallb_forall in Hc. specialize (Hc j (proj2 (in_seq _ _ _) (conj (Nat.le_0_l j) Hj))).
    rewrite existsb_exists in Hc. destruct Hc as (bits & Hin & Hb). rewrite in_map_iff in Hin. destruct Hin as (row & <- & Hin).
    apply Exists_exists. exists row. split; [done|]. unfold protects. rewrite nth_lookup in Hb.
    by destruct (mask_bits row !! j) as [[]|].
Qed.

Lemma tables_ok : table_ok 48 kPacketMaskRandomTbl = true /\ table_ok 12 kPacketMaskBurstyTbl = true.
Proof. split; vm_compute; reflexivity. Qed.

(** ** The masks that come out *)

Lemma split_rows_length n w mask : length (split_rows n w mask) = n.
Proof. revert mask. induction n as [|n IH]; intros; [done|]. cbn. by rewrite IH. Qed.

Lemma split_rows_concat n w mask : length mask = (n * w)%nat -> concat (split_rows n w mask) = mask.
Proof.
  revert mask. induction n as [|n IH]; intros mask Hl; [by destruct mask|]. cbn.
  rewrite IH by (rewrite length_drop; lia). apply take_drop.
Qed.

Lemma split_rows_width n w mask : length mask = (n * w)%nat -> Forall (fun row => zlen row = Z.of_nat w) (split_rows n w mask).
Proof.
  revert mask. induction n as [|n IH]; intros mask Hl; [constructor|]. cbn. constructor.
  - rewrite length_take. lia.
  - apply IH. rewrite length_drop. lia.
Qed.

Lemma split_rows_bytes n w mask : is_bytes mask -> Forall is_bytes (split_rows n w mask).
Proof.
  revert mask. induction n as [|n IH]; intros mask Hb; [constructor|]. cbn. constructor.
  - by apply Forall_take.
  - by apply IH, Forall_drop.
Qed.

(** [n] rows of [w] octets for [m] media packets. *)
Record masks (m n : nat) (w : Z) (rows : list bytes) : Prop := Masks {
  ms_count : length rows = n;
  ms_width : Forall (fun row => zlen row = w) rows;
  ms_bytes : Forall is_bytes rows;
  ms_good : good_masks m rows
}.

(** A table that serves up to [max] media packets. *)
Lemma lookup_good max table m n : table_ok max table = true -> (1 <= n <= m)%nat -> (m <= max)%nat ->
  exists w rows, FecInternal.PacketMaskSize (Z.of_nat m) = Some w /\
    FecInternal.LookUp table (Z.of_nat m) (Z.of_nat n) = Some (concat rows) /\ masks m n w rows.
Proof.
  unfold table_ok. intros Ht Hn Hm. rewrite forallb_forall in Ht.
  assert (H1 : In m (seq 1 max)) by (apply in_seq; lia). apply Ht in H1. clear Ht. rename H1 into Ht. rewrite forallb_forall in Ht.
  assert (H1 : In n (seq 1 m)) by (apply in_seq; lia). apply Ht in H1. clear Ht. rename H1 into Ht. unfold lookup_ok in Ht.
  destruct (FecInternal.LookUp table _ _) as [mask|]; [|done].
  destruct (FecInternal.PacketMaskSize (Z.of_nat m)) as [w|] eqn:Ew; [|done].
  apply andb_prop in Ht as [[Hl Hb]%andb_prop Hg]. apply Z.eqb_eq in Hl.
  assert (Hw : w = 2 \/ w = 6).
  { unfold FecInternal.PacketMaskSize, check in Ew. destruct (_ <=? _); [|done]. cbn in Ew.
    destruct (_ >? _); injection Ew; unfold kUlpfecPacketMaskSizeLBitSet, kUlpfecPacketMaskSizeLBitClear; lia. }
  assert (Hlen : length mask = (n * Z.to_nat w)%nat) by nia.
  exists w, (split_rows n (Z.to_nat w) mask). split; [done|]. split; [by rewrite split_rows_concat|].
  constructor.
  - apply split_rows_length.
  - pose proof (split_rows_width n (Z.to_nat w) mask Hlen) as H. by rewrite Z2Nat.id in H by lia.
  - apply split_rows_bytes. rewrite forallb_forall in Hb. apply Forall_forall. intros b Hin.
    specialize (Hb b Hin). apply andb_prop in Hb as [H1%Z.leb_le H2%Z.ltb_lt]. split; done.
  - by apply good_masks_sound.
Qed.

(** A row widened with zeros. *)
Definition widen (w : Z) (row : bytes) : bytes := row ++ replicate (Z.to_nat (w - zlen row)) 0.

Lemma mask_bits_app a b : mask_bits (a ++ b) = mask_bits a ++ mask_bits b.
Proof. apply flat_map_app. Qed.

Lemma mask_bits_length row : length (mask_bits row) = (8 * length row)%nat.
Proof. induction row as [|b row IH]; [done|]. cbn [mask_bits flat_map]. rewrite length_app. cbn. unfold mask_bits in IH. lia. Qed.

Lemma octet_bits_length b : length (octet_bits b) = 8%nat.
Proof. done. Qed.

Lemma mask_bits_lookup row q r : (r < 8)%nat -> mask_bits row !! (8 * q + r)%nat = (b ← row !! q; Some (Z.testbit b (7 - Z.of_nat r))).
Proof.
  intros Hr. revert q. induction row as [|b row IH]; intros q; [by rewrite lookup_nil|]. cbn [mask_bits flat_map]. destruct q as [|q].
  - rewrite lookup_app_l by (rewrite octet_bits_length; lia). cbn [lookup list_lookup mbind option_bind].
    do 8 (destruct r as [|r]; [done|]). lia.
  - rewrite lookup_app_r by (rewrite octet_bits_length; lia). rewrite octet_bits_length.
    transitivity (mask_bits row !! (8 * q + r)%nat); [unfold mask_bits; f_equal; lia|apply IH].
Qed.

Lemma land_bit b k : 0 <= k -> negb (Z.land b (Z.shiftl 1 k) =? 0) = Z.testbit b k.
Proof.
  intros Hk. assert (E : Z.land b (Z.shiftl 1 k) = if Z.testbit b k then 2 ^ k else 0).
  { rewrite Z.shiftl_mul_pow2, Z.mul_1_l by done. apply Z.bits_inj'. intros n Hn. rewrite Z.land_spec, Z.pow2_bits_eqb by done.
    destruct (Z.eqb_spec k n) as [->|Hne].
    - rewrite andb_true_r. destruct (Z.testbit b n) eqn:E; [by rewrite Z.pow2_bits_true|by rewrite Z.bits_0].
    - rewrite andb_false_r. destruct (Z.testbit b k); [by rewrite Z.pow2_bits_false|by rewrite Z.bits_0]. }
  rewrite E. destruct (Z.testbit b k); [|done]. assert (0 < 2 ^ k) by (apply Z.pow_pos_nonneg; lia). destruct (Z.eqb_spec (2 ^ k) 0); [lia|done].
Qed.

Lemma load_peek p off n l k : load p off n = Some l -> 0 <= off -> (k < n)%nat -> peek p (off + Z.of_nat k) = l !! k.
Proof.
  unfold load. destruct (Z.leb_spec 0 off); [|done]. destruct (Z.leb_spec (off + Z.of_nat n) (zlen p)); [|done]. cbn [andb].
  intros [= <-] _ Hk. unfold peek. rewrite (proj2 (Z.leb_le _ _)) by lia. rewrite lookup_take_lt by done. rewrite lookup_drop. f_equal. lia.
Qed.

Lemma mask_bits_zero n : mask_bits (replicate n 0) = replicate (8 * n) false.
Proof.
  induction n as [|n IH]; [done|]. replace (8 * S n)%nat with (8 + 8 * n)%nat by lia.
  rewrite replicate_add, <- IH. done.
Qed.

Lemma protects_app_zeros row n j : protects (row ++ replicate n 0) j <-> protects row j.
Proof.
  unfold protects. rewrite mask_bits_app, mask_bits_zero.
  destruct (decide (j < length (mask_bits row))%nat) as [Hlt|Hge]; [by rewrite lookup_app_l|].
  rewrite lookup_app_r by lia. rewrite (lookup_ge_None_2 (mask_bits row)) by lia.
  split; [|done]. by intros [? _]%lookup_replicate.
Qed.

Lemma widen_length w row : zlen row <= w -> zlen (widen w row) = w.
Proof. intros. unfold widen. rewrite length_app, length_replicate. lia. Qed.

Lemma widen_id row : widen (zlen row) row = row.
Proof. unfold widen. by rewrite Z.sub_diag, app_nil_r. Qed.

Lemma widen_bytes w row : is_bytes row -> is_bytes (widen w row).
Proof. intros. apply Forall_app_2; [done|]. by apply Forall_replicate. Qed.

Lemma concat_length_width (w : Z) (rows : list bytes) : Forall (fun row => zlen row = w) rows -> 0 <= w ->
  zlen (concat rows) = zlen rows * w.
Proof.
  intros H Hw. induction H as [|row rows Hr _ IH]; [done|]. cbn [concat length]. rewrite length_app. lia.
Qed.

Lemma load_all (a q : bytes) n : length a = n -> load (a ++ q) 0 n = Some a.
Proof. apply load_app_here. Qed.

Lemma load_whole (a : bytes) n : zlen a = n -> load a 0 (Z.to_nat n) = Some a.
Proof. intros <-. rewrite <- (app_nil_r a) at 1. rewrite load_app_here by lia. done. Qed.

Lemma fit_rows_spec w w1 rows : Forall (fun row => zlen row = w1) rows -> 0 <= w1 <= w -> forall i pre sub post,
  zlen pre = i * w -> zlen sub = i * w1 ->
  FecInternal.fit_rows (length rows) i w w1 (sub ++ concat rows) (pre ++ replicate (Z.to_nat (zlen rows * w)) 0 ++ post)
  = Some (pre ++ concat (map (widen w) rows) ++ post).
Proof.
  intros Hrows Hw. induction Hrows as [|row rows Hr _ IH]; intros i pre sub post Hp Hs; [done|].
  cbn [length FecInternal.fit_rows map concat].
  rewrite load_app_skip by lia. rewrite Hs, Z.sub_diag, load_app_here by lia. cbn [mbind option_bind].
  replace (Z.to_nat (Z.of_nat (S (length rows)) * w)) with (Z.to_nat w1 + (Z.to_nat (w - w1) + Z.to_nat (zlen rows * w)))%nat by nia.
  rewrite !replicate_add, <- !app_assoc. rewrite <- Hp.
  rewrite put_app by (rewrite length_replicate; lia). cbn [mbind option_bind].
  specialize (IH (i + 1) (pre ++ widen w row) (sub ++ row) post).
  unfold widen in *. rewrite Hr in IH. rewrite <- !app_assoc in IH. rewrite Hr, <- !app_assoc.
  apply IH; rewrite !length_app, ?length_replicate; lia.
Qed.

Lemma FitSubMask_spec w w1 rows post : Forall (fun row => zlen row = w1) rows -> 0 <= w1 <= w ->
  FecInternal.FitSubMask w w1 (zlen rows) (concat rows) (replicate (Z.to_nat (zlen rows * w)) 0 ++ post)
  = Some (concat (map (widen w) rows) ++ post).
Proof.
  intros Hrows Hw. unfold FecInternal.FitSubMask. destruct (Z.eqb_spec w w1) as [->|Hne].
  - rewrite load_whole by (rewrite (concat_length_width w1) by (done || lia); done). cbn [mbind option_bind].
    replace (map (widen w1) rows) with rows.
    2: { clear Hw. induction Hrows as [|row rows Hr _ IH]; [done|]. cbn. rewrite <- IH. f_equal. rewrite <- Hr. by rewrite widen_id. }
    apply (put_app []). rewrite length_replicate. pose proof (concat_length_width w1 rows Hrows). lia.
  - rewrite Nat2Z.id. by apply (fit_rows_spec w w1 rows Hrows Hw 0 [] []).
Qed.

Lemma good_masks_app imp m w1 w rows1 rows2 : Forall (fun row => exists j, protects row j) rows1 ->
  Forall (fun row => forall j, protects row j -> (j < imp)%nat) rows1 -> Forall (fun row => zlen row = w1) rows1 ->
  (imp <= m)%nat -> w1 <= w -> good_masks m rows2 -> good_masks m (map (widen w) rows1 ++ rows2).
Proof.
  intros H1 H2 Hw Hm Hle [G1 G2 G3]. constructor.
  - apply list.Forall_app. split; [|done]. apply Forall_map. clear -H1. induction H1 as [|row rows (j & Hj) _ IH]; constructor; [|done].
    exists j. by apply protects_app_zeros.
  - apply list.Forall_app. split; [|done]. apply Forall_map. clear -H2 Hm. induction H2 as [|row rows Hr _ IH]; constructor; [|done].
    intros j Hj. cbn in Hj. apply protects_app_zeros, Hr in Hj. lia.
  - intros j Hj. apply Exists_app. right. by apply G3.
Qed.

Lemma masks_app imp m t n w1 w rows1 rows2 : masks imp t w1 rows1 -> masks m n w rows2 ->
  (imp <= m)%nat -> w1 <= w -> masks m (t + n) w (map (widen w) rows1 ++ rows2).
Proof.
  intros [C1 W1 B1 [G1 I1 _]] [C2 W2 B2 G2] Hm Hle. constructor.
  - rewrite length_app, length_map. lia.
  - apply list.Forall_app. split; [|done]. apply Forall_map. clear -W1 Hle. induction W1; constructor; [|done].
    cbn. apply widen_length. lia.
  - apply list.Forall_app. split; [|done]. apply Forall_map. clear -B1. induction B1; constructor; [|done]. by apply widen_bytes.
  - by eapply good_masks_app.
Qed.

Lemma PacketMaskSize_spec m : m <= 48 -> FecInternal.PacketMaskSize m = Some (if m >? 16 then 6 else 2).
Proof.
  intros. unfold FecInternal.PacketMaskSize, check. destruct (Z.leb_spec m (8 * kUlpfecPacketMaskSizeLBitSet)) as [|Hgt]; [done|].
  unfold kUlpfecPacketMaskSizeLBitSet in Hgt. lia.
Qed.

Lemma PickTable_ok type m : 0 <= m <= 48 ->
  exists table max, FecInternal.PickTable type m = Some table /\ table_ok max table = true /\ m <= Z.of_nat max.
Proof.
  intros Hm. unfold FecInternal.PickTable, kUlpfecMaxMediaPackets. rewrite !check_then by (apply Z.geb_le || apply Z.leb_le; lia).
  change (peek kPacketMaskBurstyTbl 0) with (Some 12). cbn [mbind option_bind].
  destruct tables_ok as [HR HB]. destruct type.
  - exists kPacketMaskRandomTbl, 48%nat. split; [reflexivity|]. split; [exact HR|clear -Hm; lia].
  - destruct (Z.leb_spec m 12).
    + exists kPacketMaskBurstyTbl, 12%nat. split; [reflexivity|]. split; [exact HB|clear HR HB; lia].
    + exists kPacketMaskRandomTbl, 48%nat. split; [reflexivity|]. split; [exact HR|clear -Hm; lia].
Qed.

Lemma SetProtectionAllocation_spec m n imp : 1 <= n -> 0 < imp ->
  0 <= FecInternal.SetProtectionAllocation m n imp <= imp /\ FecInternal.SetProtectionAllocation m n imp < n.
Proof.
  intros Hn Hi. unfold FecInternal.SetProtectionAllocation. rewrite Z.quot_div_nonneg by lia.
  pose proof (Z.div_lt n 2). pose proof (Z.div_pos n 2).
  destruct (_ && _); [lia|]. destruct (Z.ltb_spec imp (n / 2)); lia.
Qed.

Lemma replicate_split n k w post : 0 <= k <= n -> 0 <= w ->
  replicate (Z.to_nat (n * w)) 0 ++ post = replicate (Z.to_nat (k * w)) 0 ++ replicate (Z.to_nat ((n - k) * w)) 0 ++ post.
Proof. intros. rewrite app_assoc, <- replicate_add. f_equal. f_equal. nia. Qed.

Lemma put_here mask zeros post : length zeros = length mask -> put (zeros ++ post) 0 mask = Some (mask ++ post).
Proof. intros. by apply (put_app [] zeros post mask). Qed.

(** The branch of unequal protection. *)
Lemma UnequalProtectionMask_spec table max m n imp w post : table_ok max table = true -> (1 <= n <= m)%nat -> (m <= max)%nat ->
  (m <= 48)%nat -> (0 < imp <= m)%nat -> FecInternal.PacketMaskSize (Z.of_nat m) = Some w ->
  exists rows, FecInternal.UnequalProtectionMask FecInternal.kModeOverlap (Z.of_nat m) (Z.of_nat n) (Z.of_nat imp) w
      (replicate (Z.to_nat (Z.of_nat n * w)) 0 ++ post) table = Some (concat rows ++ post) /\ masks m n w rows.
Proof.
  intros Ht Hn Hm H48 Hi Hw. unfold FecInternal.UnequalProtectionMask. cbv zeta.
  destruct (SetProtectionAllocation_spec (Z.of_nat m) (Z.of_nat n) (Z.of_nat imp)) as [H1 H2]; [lia|lia|].
  set (t := FecInternal.SetProtectionAllocation _ _ _) in *.
  assert (Et : exists k, t = Z.of_nat k) by (exists (Z.to_nat t); lia). destruct Et as [k Et]. rewrite Et in *. clearbody t.
  assert (W : 0 <= w) by (rewrite PacketMaskSize_spec in Hw by lia; injection Hw; destruct (_ >? _); lia).
  destruct (lookup_good max table m (n - k) Ht) as (w2 & rows2 & Hw2 & L2 & M2); [lia|lia|].
  rewrite Hw in Hw2. injection Hw2 as <-. rewrite Nat2Z.inj_sub in L2 by lia.
  assert (Hrest : forall pre, zlen pre = Z.of_nat k * w ->
    FecInternal.RemainingPacketProtection (Z.of_nat m) (Z.of_nat n - Z.of_nat k) (Z.of_nat k) w FecInternal.kModeOverlap
      (pre ++ replicate (Z.to_nat ((Z.of_nat n - Z.of_nat k) * w)) 0 ++ post) table = Some (pre ++ concat rows2 ++ post)).
  { intros pre Hpre. unfold FecInternal.RemainingPacketProtection. rewrite L2. cbn [mbind option_bind].
    unfold FecInternal.at_offset. rewrite check_then by (apply Z.leb_le; rewrite length_app; lia).
    rewrite <- Hpre, Nat2Z.id, drop_app_length, take_app_length.
    replace (Z.of_nat n - Z.of_nat k) with (zlen rows2) by (rewrite (ms_count _ _ _ _ M2); lia).
    rewrite FitSubMask_spec by (apply M2 || lia). cbn [mbind option_bind]. do 3 f_equal.
    pose proof (ms_width _ _ _ _ M2) as HW. clear -HW. induction HW as [|row rows Hr _ IH]; [done|]. cbn. rewrite IH, <- Hr. by rewrite widen_id. }
  destruct (Z.gtb_spec (Z.of_nat k) 0) as [Hk|Hk].
  - destruct (lookup_good max table imp k Ht) as (w1 & rows1 & Hw1 & L1 & M1); [lia|lia|].
    assert (Hle : 0 <= w1 <= w).
    { rewrite PacketMaskSize_spec in Hw, Hw1 by lia. injection Hw as <-. injection Hw1 as <-.
      destruct (Z.gtb_spec (Z.of_nat imp) 16), (Z.gtb_spec (Z.of_nat m) 16); lia. }
    exists (map (widen w) rows1 ++ rows2). split.
    + unfold FecInternal.ImportantPacketProtection. rewrite Hw1, L1. cbn [mbind option_bind].
      rewrite (replicate_split _ (Z.of_nat k)) by lia.
      replace (Z.of_nat k) with (zlen rows1) at 1 2 by (rewrite (ms_count _ _ _ _ M1); done).
      rewrite FitSubMask_spec by (apply M1 || lia). cbn [mbind option_bind].
      rewrite (proj2 (Z.gtb_lt _ _)) by lia. rewrite Hrest.
      * by rewrite concat_app, <- app_assoc.
      * rewrite (concat_length_width w); [by rewrite length_map, (ms_count _ _ _ _ M1)| |lia].
        apply Forall_map. pose proof (ms_width _ _ _ _ M1) as HW. clear -HW Hle. induction HW; constructor; [|done]. cbn. apply widen_length. lia.
    + replace n with (k + (n - k))%nat by lia. eapply masks_app; [done|done|lia|lia].
  - assert (k = 0%nat) as -> by lia. cbn [mbind option_bind]. rewrite (proj2 (Z.gtb_lt _ _)) by lia. exists rows2.
    rewrite Nat.sub_0_r in M2. specialize (Hrest []). rewrite Z.sub_0_r in *. split; [by apply Hrest|done].
Qed.

Lemma generated_masks type (m n imp : nat) unequal post : (1 <= n <= m)%nat -> (m <= 48)%nat -> (imp <= m)%nat ->
  exists table w rows, FecInternal.PickTable type (Z.of_nat m) = Some table /\
    FecInternal.PacketMaskSize (Z.of_nat m) = Some w /\
    FecInternal.GeneratePacketMasks (Z.of_nat m) (Z.of_nat n) (Z.of_nat imp) unequal table
      (replicate (Z.to_nat (Z.of_nat n * w)) 0 ++ post) = Some (concat rows ++ post) /\
    masks m n w rows.
Proof.
  intros Hn Hm Hi. destruct (PickTable_ok type (Z.of_nat m)) as (table & max & HP & Ht & Hmax); [lia|].
  destruct (lookup_good max table m n Ht) as (w & rows & Hw & L & M); [lia|lia|].
  exists table, w. unfold FecInternal.GeneratePacketMasks.
  rewrite !check_then by (apply Z.gtb_lt || apply Z.leb_le || apply Z.geb_le; lia). rewrite Hw. cbn [mbind option_bind].
  destruct (negb unequal || (Z.of_nat imp =? 0)) eqn:E.
  - exists rows. rewrite L. cbn [mbind option_bind]. rewrite put_here; [done|]. rewrite length_replicate.
    pose proof (concat_length_width w rows (ms_width _ _ _ _ M)) as HC. rewrite (ms_count _ _ _ _ M) in HC.
    rewrite PacketMaskSize_spec in Hw by lia. injection Hw as Hw. destruct (_ >? _); lia.
  - apply orb_false_iff in E as [_ E%Z.eqb_neq].
    destruct (UnequalProtectionMask_spec table max m n imp w post) as (rows' & HU & M'); try done; try lia.
    by exists rows'.
Qed.

(** C8. For 1 to 48 media packets, at least one and no more FEC packets than that, and any share
    of important packets up to all: whatever the type of the masks, [GeneratePacketMasks] stays
    inside its zeroed arrays and gives one row per FEC packet; every row protects at least one
    media packet, no row a packet that is not there, and every media packet is protected. The
    octets behind the masks are not touched. *)
Theorem packet_masks type (m n imp : nat) unequal post : (1 <= n <= m)%nat -> (m <= 48)%nat -> (imp <= m)%nat ->
  exists table w rows, FecInternal.PickTable type (Z.of_nat m) = Some table /\
    FecInternal.PacketMaskSize (Z.of_nat m) = Some w /\
    FecInternal.GeneratePacketMasks (Z.of_nat m) (Z.of_nat n) (Z.of_nat imp) unequal table
      (replicate (Z.to_nat (Z.of_nat n * w)) 0 ++ post) = Some (concat rows ++ post) /\
    masks m n w rows.
Proof. apply generated_masks. Qed.

Lemma packet_masks_witness : exists table w rows,
  FecInternal.PickTable kFecMaskBursty (Z.of_nat 20) = Some table /\ FecInternal.PacketMaskSize (Z.of_nat 20) = Some w /\
  FecInternal.GeneratePacketMasks (Z.of_nat 20) (Z.of_nat 5) (Z.of_nat 3) true table
    (replicate (Z.to_nat (Z.of_nat 5 * w)) 0 ++ [9]) = Some (concat rows ++ [9]) /\ masks 20 5 w rows.
Proof. apply (packet_masks kFecMaskBursty 20 5 3 true [9]); lia. Defined.
