(* ===== verification/FecHeader.v ===== *)
(** * FEC headers: the interface and ULPFEC

    FecHeaderReader and FecHeaderWriter (forward_error_correction.h) as a class of operations
    with the laws the encoder and the decoder rely on: the reader finds what the writer wrote,
    the recovery octets and the payload are kept, and the reader is safe on any octets. The
    instance of ulpfec_header_reader_writer.{h,cc} is here, that of FlexFEC in FlexfecHeader. *)

From S2P Require Import Prelude.
From S2P Require Import ByteIo.
From S2P Require Import Buffers.
From S2P Require Import RtcpCore.
From S2P Require Import FecTables.
From S2P Require Import FecMasks.

(** The FEC header fields of ReceivedFecPacket. *)
Record FecInfo := MkFecInfo {
  fec_header_size : Z;
  protected_ssrc : Z;
  seq_num_base : Z;
  packet_mask_offset : Z;
  packet_mask_size : Z;
  protection_length : Z
}.

(** [ReadFecHeader ssrc data]: the octets of the packet (the readers rewrite the header in
    place) and the fields, [None] when it returns false. *)
Class FecHeader := {
  reader_MaxMediaPackets : Z;
  reader_MaxFecPackets : Z;
  ReadFecHeader : Z -> bytes -> option (bytes * option FecInfo);
  writer_MaxMediaPackets : Z;
  writer_MaxFecPackets : Z;
  writer_MaxPacketOverhead : Z;
  MinPacketMaskSize : bytes -> Z -> option Z;
  FecHeaderSize : Z -> option Z;
  FinalizeFecHeader : Z -> Z -> bytes -> Z -> bytes -> option bytes
}.

(** ulpfec_header_reader_writer.cc *)
Module Ulpfec.

Definition kMaxMediaPackets : Z := 48.
Definition kMaxTrackedMediaPackets : Z := 4 * kMaxMediaPackets.
Definition kMaxFecPackets : Z := kMaxMediaPackets.
Definition kFecLevel0HeaderSize : Z := 10.
Definition kFecLevel1HeaderSizeLBitSet : Z := 2 + kUlpfecPacketMaskSizeLBitSet.
Definition kFecLevel1HeaderSizeLBitClear : Z := 2 + kUlpfecPacketMaskSizeLBitClear.
Definition kPacketMaskOffset : Z := kFecLevel0HeaderSize + 2.

Definition UlpfecHeaderSize (packet_mask_size : Z) : option Z :=
  check (packet_mask_size <=? kUlpfecPacketMaskSizeLBitSet) ;;
  Some (if packet_mask_size <=? kUlpfecPacketMaskSizeLBitClear
        then kFecLevel0HeaderSize + kFecLevel1HeaderSizeLBitClear
        else kFecLevel0HeaderSize + kFecLevel1HeaderSizeLBitSet).

Definition ReadFecHeader (ssrc : Z) (data : bytes) : option (bytes * option FecInfo) :=
  if zlen data <? kPacketMaskOffset then Some (data, None) else
  b0 ← peek data 0;
  let l_bit := negb (Z.land b0 0x40 =? 0) in
  let packet_mask_size := if l_bit then kUlpfecPacketMaskSizeLBitSet else kUlpfecPacketMaskSizeLBitClear in
  fec_header_size ← UlpfecHeaderSize packet_mask_size;
  seq_num_base ← read_u16 data 2;
  protection_length ← read_u16 data 10;
  length_recovery ← load data 8 2;
  data ← put data 2 length_recovery;
  Some (data, Some (MkFecInfo fec_header_size ssrc seq_num_base kPacketMaskOffset packet_mask_size protection_length)).

Definition MinPacketMaskSize (packet_mask : bytes) (packet_mask_size : Z) : option Z := Some packet_mask_size.

Definition FecHeaderSize (packet_mask_size : Z) : option Z := UlpfecHeaderSize packet_mask_size.

Definition FinalizeFecHeader (media_ssrc seq_num_base : Z) (packet_mask : bytes) (packet_mask_size : Z) (data : bytes)
  : option bytes :=
  b0 ← peek data 0;
  data ← put data 0 [Z.land b0 0x7f];
  let l_bit := packet_mask_size =? kUlpfecPacketMaskSizeLBitSet in
  b0 ← peek data 0;
  data ← (if l_bit then put data 0 [Z.lor b0 0x40]
          else check (packet_mask_size =? kUlpfecPacketMaskSizeLBitClear) ;; put data 0 [Z.land b0 0xbf]);
  length_recovery ← load data 2 2;
  data ← put data 8 length_recovery;
  data ← put data 2 (ByteWriter.WriteBigEndian 2 seq_num_base);
  fec_header_size ← FecHeaderSize packet_mask_size;
  data ← put data 10 (ByteWriter.WriteBigEndian 2 (u16 (zlen data - fec_header_size)));
  mask ← load packet_mask 0 (Z.to_nat packet_mask_size);
  put data 12 mask.

End Ulpfec.

#[global] Instance ulpfec_header : FecHeader := {|
  reader_MaxMediaPackets := Ulpfec.kMaxTrackedMediaPackets;
  reader_MaxFecPackets := Ulpfec.kMaxFecPackets;
  ReadFecHeader := Ulpfec.ReadFecHeader;
  writer_MaxMediaPackets := Ulpfec.kMaxMediaPackets;
  writer_MaxFecPackets := Ulpfec.kMaxFecPackets;
  writer_MaxPacketOverhead := Ulpfec.kFecLevel0HeaderSize + Ulpfec.kFecLevel1HeaderSizeLBitSet;
  MinPacketMaskSize := Ulpfec.MinPacketMaskSize;
  FecHeaderSize := Ulpfec.FecHeaderSize;
  FinalizeFecHeader := Ulpfec.FinalizeFecHeader
|}.

(** ** The laws *)

(** A row as the encoder holds it. *)
Definition mask_row (row : bytes) : Prop := is_bytes row /\ (zlen row = 2 \/ zlen row = 6).

Definition header_size {H : FecHeader} (row : bytes) : option Z :=
  size ← MinPacketMaskSize row (zlen row); FecHeaderSize size.

(** What the decoder uses of the recovery octets: all but the two top bits of the first, which
    belong to the header, and the next seven. *)
Definition same_recovery (d d' : bytes) : Prop :=
  exists b b' r x x', d = b :: r ++ x /\ d' = b' :: r ++ x' /\ length r = 7%nat /\ Z.land b 0x3f = Z.land b' 0x3f.

(** [info] and the rewritten octets [d''] describe an FEC packet for the media of [ssrc] whose
    unfinished octets are [d]. *)
Record header_read (ssrc base : Z) (row : bytes) (hs : Z) (d d'' : bytes) (info : FecInfo) : Prop := HeaderRead {
  hr_length : zlen d'' = zlen d;
  hr_bytes : is_bytes d'';
  hr_size : fec_header_size info = hs;
  hr_ssrc : protected_ssrc info = ssrc;
  hr_base : seq_num_base info = base;
  hr_protection : protection_length info = zlen d - hs;
  hr_mask : exists mask, load d'' (packet_mask_offset info) (Z.to_nat (packet_mask_size info)) = Some mask /\
    0 <= packet_mask_size info /\ packet_mask_offset info + packet_mask_size info <= zlen d'' /\
    forall j, protects mask j <-> protects row j;
  hr_recovery : same_recovery d d'';
  hr_payload : drop (Z.to_nat hs) d'' = drop (Z.to_nat hs) d
}.

(** What a successful read of any octets gives. *)
Record info_safe (ssrc n : Z) (info : FecInfo) : Prop := InfoSafe {
  is_size : 12 <= fec_header_size info;
  is_offset : 0 <= packet_mask_offset info;
  is_mask_size : 0 < packet_mask_size info;
  is_protection : 0 <= protection_length info;
  is_base : is_u16 (seq_num_base info);
  is_ssrc : is_u32 ssrc -> is_u32 (protected_ssrc info)
}.

Class FecHeaderLaws {H : FecHeader} := {
  (** Can the FEC packets of the first SSRC protect the media of the second? *)
  fec_ssrc_ok : Z -> Z -> Prop;
  law_limits : writer_MaxMediaPackets = 48 /\ writer_MaxFecPackets = 48 /\ reader_MaxMediaPackets = 192 /\ reader_MaxFecPackets = 48;
  law_overhead : 12 <= writer_MaxPacketOverhead <= 32;
  law_header_size row : mask_row row -> exists hs, header_size row = Some hs /\ 12 < hs <= writer_MaxPacketOverhead;
  law_roundtrip fec_ssrc ssrc base row hs d :
    fec_ssrc_ok fec_ssrc ssrc -> is_u32 ssrc -> is_u16 base -> mask_row row -> header_size row = Some hs ->
    is_bytes d -> hs <= zlen d < 65536 ->
    exists d' d'' info, FinalizeFecHeader ssrc base row (zlen row) d = Some d' /\ is_bytes d' /\
      ReadFecHeader fec_ssrc d' = Some (d'', Some info) /\ header_read ssrc base row hs d d'' info;
  law_safe ssrc d : is_bytes d ->
    exists d' info, ReadFecHeader ssrc d = Some (d', info) /\ is_bytes d' /\ zlen d' = zlen d /\
      match info with Some info => info_safe ssrc (zlen d) info | None => True end
}.

(** ** ULPFEC satisfies them *)

Lemma put_at buf off bs : 0 <= off -> off + zlen bs <= zlen buf ->
  put buf off bs = Some (take (Z.to_nat off) buf ++ bs ++ drop (Z.to_nat off + length bs) buf).
Proof. intros. unfold put. rewrite (proj2 (Z.leb_le 0 off)), (proj2 (Z.leb_le _ (zlen buf))) by lia. done. Qed.

(** Offsets that are numerals, in an explicit prefix of octets. *)
Ltac mem_norm :=
  repeat match goal with
  | |- context [Z.to_nat Z0] => change (Z.to_nat Z0) with 0%nat
  | |- context [Z.to_nat (Zpos ?p)] => let n := eval compute in (Z.to_nat (Zpos p)) in change (Z.to_nat (Zpos p)) with n
  end;
  cbn [length take drop app Nat.add mbind option_bind fmap option_fmap option_map]; rewrite ?drop_0, ?take_0.

(** The next access, at a numeral offset. *)
Ltac mem_step :=
  lazymatch goal with
  | |- mbind _ (put ?a ?b ?c) = _ => rewrite (put_at a b c) by (cbn [length]; lia)
  | |- put ?a ?b ?c = _ => rewrite (put_at a b c) by (cbn [length]; lia)
  | |- mbind _ (load ?a ?b ?c) = _ => rewrite (load_Some a b c) by (cbn [length]; lia)
  | |- mbind _ (fmap _ (load ?a ?b ?c)) = _ => rewrite (load_Some a b c) by (cbn [length]; lia)
  end;
  mem_norm.

Lemma land_63_of_0x40 b : is_u8 b -> Z.land (Z.lor (Z.land b 0x7f) 0x40) 0x3f = Z.land b 0x3f /\
  is_u8 (Z.lor (Z.land b 0x7f) 0x40) /\ (Z.land (Z.lor (Z.land b 0x7f) 0x40) 0x40 =? 0) = false /\
  Z.land (Z.land (Z.land b 0x7f) 0xbf) 0x3f = Z.land b 0x3f /\ is_u8 (Z.land (Z.land b 0x7f) 0xbf) /\
  (Z.land (Z.land (Z.land b 0x7f) 0xbf) 0x40 =? 0) = true.
Proof.
  intros Hb.
  pose proof (octet_all (fun b => (Z.land (Z.lor (Z.land b 0x7f) 0x40) 0x3f =? Z.land b 0x3f) &&
    negb (Z.land (Z.lor (Z.land b 0x7f) 0x40) 0x40 =? 0) &&
    (Z.land (Z.land (Z.land b 0x7f) 0xbf) 0x3f =? Z.land b 0x3f) && (Z.land (Z.land (Z.land b 0x7f) 0xbf) 0x40 =? 0))
    ltac:(vm_compute; reflexivity) b Hb) as C.
  cbv beta in C. apply andb_prop in C as [[[C1%Z.eqb_eq C2%negb_true_iff]%andb_prop C3%Z.eqb_eq]%andb_prop C4].
  splits; try done; repeat (apply lor_u8 || apply land_u8 || done).
Qed.

Lemma mask_row_size row : mask_row row -> exists l, zlen row = (if l : bool then 6 else 2) /\
  Ulpfec.UlpfecHeaderSize (zlen row) = Some (if l then 18 else 14).
Proof. intros [_ [E|E]]; [exists false|exists true]; by rewrite E. Qed.

(** The header the writer leaves on octets [b0 .. b11] before the payload. *)
Lemma ulpfec_finalize ssrc base row l b0 b1 b2 b3 b4 b5 b6 b7 b8 b9 b10 b11 x :
  mask_row row -> zlen row = (if l : bool then 6 else 2) -> zlen row <= zlen x ->
  Ulpfec.FinalizeFecHeader ssrc base row (zlen row) (b0 :: b1 :: b2 :: b3 :: b4 :: b5 :: b6 :: b7 :: b8 :: b9 :: b10 :: b11 :: x)
  = Some ((if l then Z.lor (Z.land b0 0x7f) 0x40 else Z.land (Z.land b0 0x7f) 0xbf) :: b1 :: be_bytes 2 base ++
      b4 :: b5 :: b6 :: b7 :: b2 :: b3 :: be_bytes 2 (u16 (zlen x - zlen row)) ++ row ++ drop (length row) x).
Proof.
  intros [Hb _] Hl Hx. unfold Ulpfec.FinalizeFecHeader. rewrite WriteBigEndian_spec. cbn [be_bytes].
  change (peek (b0 :: ?r) 0) with (Some b0). cbn [mbind option_bind]. mem_step.
  change (peek (?b :: ?r) 0) with (Some b). cbn [mbind option_bind].
  assert (E : (if zlen row =? kUlpfecPacketMaskSizeLBitSet
    then put (Z.land b0 127 :: b1 :: b2 :: b3 :: b4 :: b5 :: b6 :: b7 :: b8 :: b9 :: b10 :: b11 :: x) 0 [Z.lor (Z.land b0 127) 64]
    else check (zlen row =? kUlpfecPacketMaskSizeLBitClear) ;;
      put (Z.land b0 127 :: b1 :: b2 :: b3 :: b4 :: b5 :: b6 :: b7 :: b8 :: b9 :: b10 :: b11 :: x) 0 [Z.land (Z.land b0 127) 191])
    = Some ((if l then Z.lor (Z.land b0 127) 64 else Z.land (Z.land b0 127) 191) :: b1 :: b2 :: b3 :: b4 :: b5 :: b6 :: b7 :: b8 :: b9 :: b10 :: b11 :: x)).
  { rewrite Hl. destruct l; cbn [Z.eqb Pos.eqb kUlpfecPacketMaskSizeLBitSet kUlpfecPacketMaskSizeLBitClear check mbind option_bind]; by mem_step. }
  rewrite E. clear E. cbn [mbind option_bind]. set (c0 := if l then _ else _).
  mem_step. mem_step. mem_step.
  assert (E : Ulpfec.FecHeaderSize (zlen row) = Some (12 + zlen row)) by (rewrite Hl; by destruct l). rewrite E. clear E. cbn [mbind option_bind].
  match goal with |- context [u16 (?n - (12 + zlen row))] =>
    replace (n - (12 + zlen row)) with (zlen x - zlen row) by (cbn [length]; lia) end.
  rewrite WriteBigEndian_spec. cbn [be_bytes]. mem_step. rewrite load_whole by done. cbn [mbind option_bind]. mem_step. done.
Qed.

Lemma ulpfec_read ssrc c0 b1 b2 b3 b4 b5 b6 b7 b8 b9 b10 b11 x : is_bytes [b2; b3; b10; b11] ->
  Ulpfec.ReadFecHeader ssrc (c0 :: b1 :: b2 :: b3 :: b4 :: b5 :: b6 :: b7 :: b8 :: b9 :: b10 :: b11 :: x)
  = Some (c0 :: b1 :: b8 :: b9 :: b4 :: b5 :: b6 :: b7 :: b8 :: b9 :: b10 :: b11 :: x,
      Some (let l := negb (Z.land c0 0x40 =? 0) in
        MkFecInfo (if l then 18 else 14) ssrc (be_value [b2; b3]) 12 (if l then 6 else 2) (be_value [b10; b11]))).
Proof.
  intros Hb. unfold Ulpfec.ReadFecHeader. rewrite (proj2 (Z.ltb_ge _ _)) by (cbn [length]; unfold Ulpfec.kPacketMaskOffset, Ulpfec.kFecLevel0HeaderSize; lia).
  change (peek (c0 :: ?r) 0) with (Some c0). cbn [mbind option_bind].
  set (l := negb _). assert (E : Ulpfec.UlpfecHeaderSize (if l then kUlpfecPacketMaskSizeLBitSet else kUlpfecPacketMaskSizeLBitClear) = Some (if l then 18 else 14))
    by (by destruct l). rewrite E. clear E. cbn [mbind option_bind]. unfold read_be. mem_step. mem_step. mem_step. mem_step.
  unfold is_bytes in Hb. rewrite !list.Forall_cons in Hb.
  rewrite !(ReadBigEndian_spec 16 [_; _]) by (cbn [length]; try lia; unfold is_bytes; rewrite !list.Forall_cons; tauto). done.
Qed.

Lemma explicit_octets (d : bytes) : 12 <= zlen d ->
  exists b0 b1 b2 b3 b4 b5 b6 b7 b8 b9 b10 b11 x, d = b0 :: b1 :: b2 :: b3 :: b4 :: b5 :: b6 :: b7 :: b8 :: b9 :: b10 :: b11 :: x.
Proof.
  intros Hl. do 12 (destruct d as [|? d]; [cbn in Hl; lia|]). by repeat eexists.
Qed.

Lemma u16_be_value v : is_u16 v -> be_value [(v / 256 ^ Z.of_nat 1) mod 256; (v / 256 ^ Z.of_nat 0) mod 256] = v.
Proof.
  intros Hv. transitivity (be_value (be_bytes 2 v)); [done|]. rewrite be_value_be_bytes. apply Z.mod_small. exact Hv.
Qed.

Lemma ulpfec_roundtrip ssrc base row hs d : is_u16 base -> mask_row row ->
  header_size (H := ulpfec_header) row = Some hs -> is_bytes d -> hs <= zlen d < 65536 ->
  exists d' d'' info, Ulpfec.FinalizeFecHeader ssrc base row (zlen row) d = Some d' /\ is_bytes d' /\
    Ulpfec.ReadFecHeader ssrc d' = Some (d'', Some info) /\ header_read ssrc base row hs d d'' info.
Proof.
  intros Hbase Hrow Hhs Hd Hl. destruct (mask_row_size row Hrow) as (l & El & Es).
  assert (hs = if l then 18 else 14) as -> by (cbn in Hhs; unfold Ulpfec.FecHeaderSize in Hhs; rewrite Es in Hhs; by injection Hhs). clear Hhs Es.
  destruct (explicit_octets d) as (b0 & b1 & b2 & b3 & b4 & b5 & b6 & b7 & b8 & b9 & b10 & b11 & x & ->); [destruct l; lia|].
  assert (Hx : zlen row <= zlen x < 65536) by (cbn [length] in Hl; rewrite El; destruct l; lia).
  rewrite (ulpfec_finalize ssrc base row l) by (done || lia).
  assert (Hd' := Hd). unfold is_bytes in Hd'. rewrite !list.Forall_cons in Hd'.
  destruct Hd' as (H0 & H1 & H2 & H3 & H4 & H5 & H6 & H7 & H8 & H9 & H10 & H11 & Hxb).
  destruct (land_63_of_0x40 b0 H0) as (L1 & L2 & L3 & L4 & L5 & L6).
  set (c0 := if l then _ else _). assert (Hc : is_u8 c0 /\ Z.land c0 0x3f = Z.land b0 0x3f /\ negb (Z.land c0 0x40 =? 0) = l)
    by (unfold c0; destruct l; rewrite ?L3, ?L6; done). destruct Hc as (Hc0 & Hc1 & Hc2). clearbody c0.
  set (len := u16 _). assert (Hlen : len = zlen x - zlen row) by (apply u16_id; unfold is_u16; lia).
  assert (Hbb : forall v, is_bytes [(v / 256 ^ Z.of_nat 1) mod 256; (v / 256 ^ Z.of_nat 0) mod 256]) by (intros; apply (be_bytes_is_bytes 2)).
  do 3 eexists. split; [reflexivity|]. cbn [be_bytes app]. split.
  { pose proof (Hbb base) as Hb1. pose proof (Hbb len) as Hb2. unfold is_bytes in *. rewrite !list.Forall_cons in *.
    splits; try tauto. apply list.Forall_app. split; [apply Hrow|by apply Forall_drop]. }
  rewrite ulpfec_read by (pose proof (Hbb base) as Hb1; pose proof (Hbb len) as Hb2; unfold is_bytes in *; rewrite !list.Forall_cons in *; tauto).
  cbv zeta. rewrite Hc2. split; [reflexivity|]. rewrite !u16_be_value by (done || (unfold is_u16; lia)).
  constructor; cbn [fec_header_size protected_ssrc seq_num_base packet_mask_offset packet_mask_size protection_length]; try done.
  - cbn [length]. rewrite length_app, length_drop. lia.
  - pose proof (Hbb len) as Hb2. unfold is_bytes in *. rewrite !list.Forall_cons in *.
    splits; try tauto. apply list.Forall_app. split; [apply Hrow|by apply Forall_drop].
  - rewrite Hlen. cbn [length] in *. destruct l; lia.
  - exists row. splits; [|destruct l; lia| |done].
    + rewrite <- El. rewrite load_Some by (cbn [length]; rewrite ?length_app; lia).
      change (Z.to_nat 12) with 12%nat. rewrite Nat2Z.id. cbn [drop]. rewrite drop_0. by rewrite take_app_length.
    + cbn [length]. rewrite length_app, length_drop. destruct l; lia.
  - exists b0, c0, [b1; b2; b3; b4; b5; b6; b7]. do 2 eexists. splits; [reflexivity|reflexivity|reflexivity|by symmetry].
  - replace (Z.to_nat (if l then 18 else 14)) with (12 + length row)%nat by (destruct l; lia).
    rewrite <- !drop_drop. cbn [drop]. rewrite !drop_0. by rewrite drop_app_length.
Qed.

Lemma ulpfec_safe ssrc d : is_bytes d -> exists d' info, Ulpfec.ReadFecHeader ssrc d = Some (d', info) /\
  is_bytes d' /\ zlen d' = zlen d /\ match info with Some info => info_safe ssrc (zlen d) info | None => True end.
Proof.
  intros Hd. destruct (Z.ltb_spec (zlen d) 12) as [Hlt|Hge].
  - exists d, None. unfold Ulpfec.ReadFecHeader. change Ulpfec.kPacketMaskOffset with 12. by rewrite (proj2 (Z.ltb_lt _ _) Hlt).
  - destruct (explicit_octets d Hge) as (b0 & b1 & b2 & b3 & b4 & b5 & b6 & b7 & b8 & b9 & b10 & b11 & x & ->).
    unfold is_bytes in Hd. rewrite !list.Forall_cons in Hd.
    rewrite ulpfec_read by (repeat (constructor; [tauto|]); constructor).
    do 2 eexists. split; [reflexivity|]. splits; [unfold is_bytes; rewrite !list.Forall_cons; tauto|done|].
    assert (R : forall a b, is_u8 a -> is_u8 b -> is_u16 (be_value [a; b])).
    { intros a b Ha Hb. apply (be_value_range [a; b]). constructor; [done|]. constructor; [done|constructor]. }
    destruct Hd as (H0 & H1 & H2 & H3 & H4 & H5 & H6 & H7 & H8 & H9 & H10 & H11 & _).
    constructor; cbn [fec_header_size protected_ssrc seq_num_base packet_mask_offset packet_mask_size protection_length];
      try (destruct (negb _); lia); try (by apply R); try done.
Qed.

#[global] Instance ulpfec_laws : FecHeaderLaws (H := ulpfec_header).
Proof.
  refine {| fec_ssrc_ok := eq |}.
  - done.
  - done.
  - intros row Hrow. destruct (mask_row_size row Hrow) as (l & El & Es).
    exists (if l then 18 else 14). unfold header_size. cbn [MinPacketMaskSize FecHeaderSize ulpfec_header]. cbn [mbind option_bind Ulpfec.MinPacketMaskSize].
    unfold Ulpfec.FecHeaderSize. rewrite Es. split; [done|]. change (12 < (if l then 18 else 14) <= 18). destruct l; lia.
  - intros fec_ssrc ssrc base row hs d -> _. apply ulpfec_roundtrip.
  - apply ulpfec_safe.
Defined.
