(* ===== verification/FlexfecHeader.v ===== *)
(** * FlexFEC headers: flexfec_header_reader_writer.{h,cc}

    The writer spreads a mask of the ULPFEC tables over the mask fields of the header, each
    with a K-bit in front; the reader takes the K-bits out again, in place. *)

From S2P Require Import Prelude.
From S2P Require Import ByteIo.
From S2P Require Import Buffers.
From S2P Require Import RtcpCore.
From S2P Require Import FecTables.
From S2P Require Import FecMasks.
From S2P Require Import RtpPacket.
From S2P Require Import FecHeader.

Module Flexfec.

Definition kMaxMediaPackets : Z := 48.
Definition kMaxTrackedMediaPackets : Z := 4 * kMaxMediaPackets.
Definition kMaxFecPackets : Z := kMaxMediaPackets.
(** kFlexfecPacketMaskSizes[0 .. 2] and kHeaderSizes[0 .. 2]. *)
Definition kFlexfecPacketMaskSizes0 : Z := 2.
Definition kFlexfecPacketMaskSizes1 : Z := 6.
Definition kFlexfecPacketMaskSizes2 : Z := 14.
Definition kBaseHeaderSize : Z := 12.
Definition kStreamSpecificHeaderSize : Z := 6.
Definition kHeaderSizes0 : Z := kBaseHeaderSize + kStreamSpecificHeaderSize + kFlexfecPacketMaskSizes0.
Definition kHeaderSizes1 : Z := kBaseHeaderSize + kStreamSpecificHeaderSize + kFlexfecPacketMaskSizes1.
Definition kHeaderSizes2 : Z := kBaseHeaderSize + kStreamSpecificHeaderSize + kFlexfecPacketMaskSizes2.
Definition kSsrcCount : Z := 1.
Definition kReservedBits : Z := 0.
Definition kPacketMaskOffset : Z := kBaseHeaderSize + kStreamSpecificHeaderSize.

Definition FlexfecHeaderSize (packet_mask_size : Z) : option Z :=
  check (packet_mask_size <=? kFlexfecPacketMaskSizes2) ;;
  Some (if packet_mask_size <=? kFlexfecPacketMaskSizes0 then kHeaderSizes0
        else if packet_mask_size <=? kFlexfecPacketMaskSizes1 then kHeaderSizes1 else kHeaderSizes2).

(** data[off] |= bits *)
Definition or_octet (data : bytes) (off bits : Z) : option bytes :=
  b ← peek data off; put data off [Z.lor b bits].

(** The fields once the K-bits are out of the mask. *)
Definition stored (data : bytes) (packet_mask_size protected_ssrc seq_num_base : Z) : option (bytes * option FecInfo) :=
  fec_header_size ← FlexfecHeaderSize packet_mask_size;
  Some (data, Some (MkFecInfo fec_header_size protected_ssrc seq_num_base kPacketMaskOffset packet_mask_size
    (zlen data - fec_header_size))).

Definition ReadFecHeader (ssrc : Z) (data : bytes) : option (bytes * option FecInfo) :=
  if zlen data <=? kBaseHeaderSize + kStreamSpecificHeaderSize then Some (data, None) else
  b0 ← peek data 0;
  let r_bit := negb (Z.land b0 0x80 =? 0) in
  if r_bit then Some (data, None) else
  let f_bit := negb (Z.land b0 0x40 =? 0) in
  if f_bit then Some (data, None) else
  ssrc_count ← read_u8 data 8;
  if negb (ssrc_count =? 1) then Some (data, None) else
  protected_ssrc ← read_u32 data 12;
  seq_num_base ← read_u16 data 16;
  if zlen data <? kHeaderSizes0 then Some (data, None) else
  let packet_mask := kPacketMaskOffset in
  mask0 ← peek data packet_mask;
  let k_bit0 := negb (Z.land mask0 0x80 =? 0) in
  mask_part0 ← read_u16 data packet_mask;
  data ← put data packet_mask (ByteWriter.WriteBigEndian 2 (u16 (Z.shiftl mask_part0 1)));
  if k_bit0 then stored data kFlexfecPacketMaskSizes0 protected_ssrc seq_num_base else
  if zlen data <? kHeaderSizes1 then Some (data, None) else
  mask2 ← peek data (packet_mask + 2);
  let k_bit1 := negb (Z.land mask2 0x80 =? 0) in
  let bit15 := Z.land (Z.shiftr mask2 6) 0x01 in
  data ← or_octet data (packet_mask + 1) bit15;
  mask_part1 ← read_u32 data (packet_mask + 2);
  data ← put data (packet_mask + 2) (ByteWriter.WriteBigEndian 4 (u32 (Z.shiftl mask_part1 2)));
  if k_bit1 then stored data kFlexfecPacketMaskSizes1 protected_ssrc seq_num_base else
  if zlen data <? kHeaderSizes2 then Some (data, None) else
  mask6 ← peek data (packet_mask + 6);
  let k_bit2 := negb (Z.land mask6 0x80 =? 0) in
  if negb k_bit2 then Some (data, None) else
  let tail_bits := Z.land (Z.shiftr mask6 5) 0x03 in
  data ← or_octet data (packet_mask + 5) tail_bits;
  mask_part2 ← read_be 64 8 data (packet_mask + 6);
  data ← put data (packet_mask + 6) (ByteWriter.WriteBigEndian 8 (u64 (Z.shiftl mask_part2 3)));
  stored data kFlexfecPacketMaskSizes2 protected_ssrc seq_num_base.

Definition MinPacketMaskSize (packet_mask : bytes) (packet_mask_size : Z) : option Z :=
  if packet_mask_size =? kUlpfecPacketMaskSizeLBitClear then
    b ← peek packet_mask 1;
    Some (if Z.land b 0x01 =? 0 then kFlexfecPacketMaskSizes0 else kFlexfecPacketMaskSizes1)
  else
    check (packet_mask_size =? kUlpfecPacketMaskSizeLBitSet) ;;
    b ← peek packet_mask 5;
    Some (if Z.land b 0x03 =? 0 then kFlexfecPacketMaskSizes1 else kFlexfecPacketMaskSizes2).

Definition FecHeaderSize (packet_mask_size : Z) : option Z := FlexfecHeaderSize packet_mask_size.

Definition FinalizeFecHeader (media_ssrc seq_num_base : Z) (packet_mask : bytes) (packet_mask_size : Z) (data : bytes)
  : option bytes :=
  b0 ← peek data 0; data ← put data 0 [Z.land b0 0x7f];
  b0 ← peek data 0; data ← put data 0 [Z.land b0 0xbf];
  data ← put data 8 (ByteWriter.WriteBigEndian 1 kSsrcCount);
  data ← put data 9 (ByteWriter.WriteBigEndian 3 kReservedBits);
  data ← put data 12 (ByteWriter.WriteBigEndian 4 media_ssrc);
  data ← put data 16 (ByteWriter.WriteBigEndian 2 seq_num_base);
  let written_packet_mask := kPacketMaskOffset in
  if packet_mask_size =? kUlpfecPacketMaskSizeLBitSet then
    tmp_mask_part0 ← read_u16 packet_mask 0;
    tmp_mask_part1 ← read_u32 packet_mask 2;
    data ← put data written_packet_mask (ByteWriter.WriteBigEndian 2 (Z.shiftr tmp_mask_part0 1));
    data ← put data (written_packet_mask + 2) (ByteWriter.WriteBigEndian 4 (Z.shiftr tmp_mask_part1 2));
    mask1 ← peek packet_mask 1;
    data ← (if negb (Z.land mask1 0x01 =? 0) then or_octet data (written_packet_mask + 2) 0x40 else Some data);
    mask5 ← peek packet_mask 5;
    let bit46 := negb (Z.land mask5 0x02 =? 0) in
    let bit47 := negb (Z.land mask5 0x01 =? 0) in
    if negb bit46 && negb bit47 then or_octet data (written_packet_mask + 2) 0x80 else
    data ← put data (written_packet_mask + 6) (replicate 8 0);
    data ← or_octet data (written_packet_mask + 6) 0x80;
    data ← (if bit46 then or_octet data (written_packet_mask + 6) 0x40 else Some data);
    if bit47 then or_octet data (written_packet_mask + 6) 0x20 else Some data
  else
    check (packet_mask_size =? kUlpfecPacketMaskSizeLBitClear) ;;
    tmp_mask_part0 ← read_u16 packet_mask 0;
    data ← put data written_packet_mask (ByteWriter.WriteBigEndian 2 (Z.shiftr tmp_mask_part0 1));
    mask1 ← peek packet_mask 1;
    if Z.land mask1 0x01 =? 0 then or_octet data written_packet_mask 0x80 else
    data ← put data (written_packet_mask + 2) (replicate 4 0);
    data ← or_octet data (written_packet_mask + 2) 0x80;
    or_octet data (written_packet_mask + 2) 0x40.

End Flexfec.

#[global] Instance flexfec_header : FecHeader := {|
  reader_MaxMediaPackets := Flexfec.kMaxTrackedMediaPackets;
  reader_MaxFecPackets := Flexfec.kMaxFecPackets;
  ReadFecHeader := Flexfec.ReadFecHeader;
  writer_MaxMediaPackets := Flexfec.kMaxMediaPackets;
  writer_MaxFecPackets := Flexfec.kMaxFecPackets;
  writer_MaxPacketOverhead := Flexfec.kHeaderSizes2;
  MinPacketMaskSize := Flexfec.MinPacketMaskSize;
  FecHeaderSize := Flexfec.FecHeaderSize;
  FinalizeFecHeader := Flexfec.FinalizeFecHeader
|}.

(** ** Shifts of octets *)

Lemma rd2 a b : is_u8 a -> is_u8 b -> ByteReader.ReadBigEndian 16 2 [a; b] = a * 256 + b.
Proof.
  intros. pose proof (ReadBigEndian_spec 16 [a; b]) as E. cbn [length] in E.
  rewrite E; [done|repeat (constructor; [done|]); constructor|lia].
Qed.

Lemma rd4 a b c d : is_u8 a -> is_u8 b -> is_u8 c -> is_u8 d ->
  ByteReader.ReadBigEndian 32 4 [a; b; c; d] = ((a * 256 + b) * 256 + c) * 256 + d.
Proof.
  intros. pose proof (ReadBigEndian_spec 32 [a; b; c; d]) as E. cbn [length] in E.
  rewrite E; [done|repeat (constructor; [done|]); constructor|lia].
Qed.

Lemma wr2 v : ByteWriter.WriteBigEndian 2 v = [(v / 256) mod 256; v mod 256].
Proof. rewrite WriteBigEndian_spec. cbn [be_bytes]. change (256 ^ Z.of_nat 1) with 256. change (256 ^ Z.of_nat 0) with 1. by rewrite Z.div_1_r. Qed.

Lemma wr4 v : ByteWriter.WriteBigEndian 4 v = [(v / 16777216) mod 256; (v / 65536) mod 256; (v / 256) mod 256; v mod 256].
Proof.
  rewrite WriteBigEndian_spec. cbn [be_bytes]. change (256 ^ Z.of_nat 3) with 16777216. change (256 ^ Z.of_nat 2) with 65536.
  change (256 ^ Z.of_nat 1) with 256. change (256 ^ Z.of_nat 0) with 1. by rewrite Z.div_1_r.
Qed.

Ltac octets_eq := repeat (f_equal; []); repeat match goal with |- _ :: _ = _ :: _ => f_equal end; try done; unfold is_u8 in *; dlia.

Lemma right1 a b : is_u8 a -> is_u8 b ->
  ByteWriter.WriteBigEndian 2 (Z.shiftr (a * 256 + b) 1) = [a / 2; a mod 2 * 128 + b / 2].
Proof. intros Ha Hb. rewrite wr2, Z.shiftr_div_pow2 by lia. change (2 ^ 1) with 2. octets_eq. Qed.

Lemma right2 a b c d : is_u8 a -> is_u8 b -> is_u8 c -> is_u8 d ->
  ByteWriter.WriteBigEndian 4 (Z.shiftr (((a * 256 + b) * 256 + c) * 256 + d) 2)
  = [a / 4; a mod 4 * 64 + b / 4; b mod 4 * 64 + c / 4; c mod 4 * 64 + d / 4].
Proof. intros Ha Hb Hc Hd. rewrite wr4, Z.shiftr_div_pow2 by lia. change (2 ^ 2) with 4. octets_eq. Qed.

Lemma left1 a b : is_u8 a -> is_u8 b ->
  ByteWriter.WriteBigEndian 2 (u16 (Z.shiftl (a * 256 + b) 1)) = [a mod 128 * 2 + b / 128; b mod 128 * 2].
Proof. intros Ha Hb. rewrite wr2, Z.shiftl_mul_pow2 by lia. change (2 ^ 1) with 2. unfold u16. octets_eq. Qed.

Lemma left2 a b c d : is_u8 a -> is_u8 b -> is_u8 c -> is_u8 d ->
  ByteWriter.WriteBigEndian 4 (u32 (Z.shiftl (((a * 256 + b) * 256 + c) * 256 + d) 2))
  = [a mod 64 * 4 + b / 64; b mod 64 * 4 + c / 64; c mod 64 * 4 + d / 64; d mod 64 * 4].
Proof. intros Ha Hb Hc Hd. rewrite wr4, Z.shiftl_mul_pow2 by lia. change (2 ^ 2) with 4. unfold u32. octets_eq. Qed.

(** The last field holds two bits of the mask behind its K-bit. *)
Lemma left3 a : is_u8 a -> a mod 32 = 0 ->
  ByteWriter.WriteBigEndian 8 (u64 (Z.shiftl (ByteReader.ReadBigEndian 64 8 [a; 0; 0; 0; 0; 0; 0; 0]) 3)) = replicate 8 0.
Proof.
  intros Ha Hm. pose proof (ReadBigEndian_spec 64 [a; 0; 0; 0; 0; 0; 0; 0]) as E. cbn [length] in E.
  rewrite E; [clear E|repeat (constructor; [done|]); constructor|lia].
  assert (E : u64 (Z.shiftl (be_value [a; 0; 0; 0; 0; 0; 0; 0]) 3) = 0).
  { rewrite Z.shiftl_mul_pow2 by lia. unfold be_value. cbn [fold_left]. unfold u64.
    rewrite (Z.div_mod a 32), Hm by lia. change (2 ^ 3) with 8.
    replace ((((((((0 * 256 + (32 * (a / 32) + 0)) * 256 + 0) * 256 + 0) * 256 + 0) * 256 + 0) * 256 + 0) * 256 + 0) * 256 + 0) with (a / 32 * (32 * 256 ^ 7)) by lia.
    rewrite <- Z.mul_assoc. change (32 * 256 ^ 7 * 8) with 18446744073709551616. apply Z_mod_mult. }
  by rewrite E, WriteBigEndian_spec.
Qed.

(** Setting and testing the bits of an octet. *)
Lemma or_octet_facts x : is_u8 x ->
  (x < 128 -> Z.lor x 0x80 = x + 128) /\ (x < 64 -> Z.lor x 0x40 = x + 64) /\ (Z.land x 0x80 =? 0) = (x <? 128) /\
  (Z.land x 0x40 =? 0) = (x mod 128 <? 64) /\ (Z.land x 1 =? 0) = (x mod 2 =? 0) /\ (Z.land x 2 =? 0) = (x mod 4 <? 2) /\
  (Z.land x 3 =? 0) = (x mod 4 =? 0) /\ Z.land (Z.shiftr x 6) 1 = x / 64 mod 2 /\ Z.land (Z.shiftr x 5) 3 = x / 32 mod 4 /\
  (x mod 2 = 0 -> Z.lor x 1 = x + 1) /\ Z.lor x 0 = x.
Proof.
  intros Hx.
  pose proof (octet_all (fun x => implb (x <? 128) (Z.lor x 0x80 =? x + 128) && implb (x <? 64) (Z.lor x 0x40 =? x + 64) &&
    Bool.eqb (Z.land x 0x80 =? 0) (x <? 128) && Bool.eqb (Z.land x 0x40 =? 0) (x mod 128 <? 64) &&
    Bool.eqb (Z.land x 1 =? 0) (x mod 2 =? 0) && Bool.eqb (Z.land x 2 =? 0) (x mod 4 <? 2) &&
    Bool.eqb (Z.land x 3 =? 0) (x mod 4 =? 0) && (Z.land (Z.shiftr x 6) 1 =? x / 64 mod 2) &&
    (Z.land (Z.shiftr x 5) 3 =? x / 32 mod 4) && implb (x mod 2 =? 0) (Z.lor x 1 =? x + 1) && (Z.lor x 0 =? x))
    ltac:(vm_compute; reflexivity) x Hx) as C. cbv beta in C.
  repeat match goal with H : _ && _ = true |- _ => apply andb_prop in H as [? ?] end.
  repeat match goal with
  | H : Bool.eqb _ _ = true |- _ => apply Bool.eqb_prop in H
  | H : (_ =? _) = true |- _ => apply Z.eqb_eq in H
  end.
  splits; try done; intros Hlt.
  - destruct (Z.ltb_spec x 128); [|lia]. by apply Z.eqb_eq.
  - destruct (Z.ltb_spec x 64); [|lia]. by apply Z.eqb_eq.
  - destruct (Z.eqb_spec (x mod 2) 0); [|done]. by apply Z.eqb_eq.
Qed.

(** Two bits behind an octet whose low bits are clear. *)
Lemma or_two x t : is_u8 x -> x mod 4 = 0 -> 0 <= t < 4 -> Z.lor x t = x + t.
Proof.
  intros Hx Hm Ht. rewrite (Z.div_mod x 4), Hm, Z.add_0_r, Z.mul_comm by lia. by apply (lor_shift_add 2).
Qed.


(** ** The mask fields *)

(** The octets the writer leaves for [row], K-bits included. *)
Definition packed (row : bytes) : bytes :=
  match row with
  | [m0; m1] =>
      if m1 mod 2 =? 0 then [m0 / 2 + 128; m0 mod 2 * 128 + m1 / 2]
      else [m0 / 2; m0 mod 2 * 128 + m1 / 2; 192; 0; 0; 0]
  | [m0; m1; m2; m3; m4; m5] =>
      let head k := [m0 / 2; m0 mod 2 * 128 + m1 / 2; m2 / 4 + m1 mod 2 * 64 + k;
        m2 mod 4 * 64 + m3 / 4; m3 mod 4 * 64 + m4 / 4; m4 mod 4 * 64 + m5 / 4] in
      if m5 mod 4 =? 0 then head 128 else head 0 ++ [128 + m5 mod 4 * 32; 0; 0; 0; 0; 0; 0; 0]
  | _ => []
  end.

Section After.
Context (h x : bytes) (Hh : zlen h = 18).

Lemma put_h k off bs : off = 18 + k -> 0 <= k -> put (h ++ x) off bs = app h <$> put x k bs.
Proof.
  intros -> Hk. destruct (Z.leb_spec (k + zlen bs) (zlen x)) as [Hle|Hgt].
  - rewrite !put_at by (rewrite ?length_app; lia). cbn. f_equal.
    rewrite take_app_ge, drop_app_ge by lia. rewrite <- app_assoc. f_equal. f_equal; [f_equal; lia|]. do 2 f_equal. lia.
  - unfold put. rewrite (proj2 (Z.leb_gt (k + zlen bs) (zlen x))) by lia.
    rewrite (proj2 (Z.leb_gt (18 + k + zlen bs) (zlen (h ++ x)))) by (rewrite length_app; lia). by rewrite !andb_false_r.
Qed.

Lemma peek_h k off : off = 18 + k -> 0 <= k -> peek (h ++ x) off = peek x k.
Proof. intros -> Hk. rewrite <- Hh. by apply peek_app_at. Qed.

Lemma read_h w B k off : off = 18 + k -> 0 <= k -> read_be w B (h ++ x) off = read_be w B x k.
Proof. intros -> Hk. rewrite <- Hh. by apply read_be_app_at. Qed.

Lemma or_h k off bits : off = 18 + k -> 0 <= k -> Flexfec.or_octet (h ++ x) off bits = app h <$> Flexfec.or_octet x k bits.
Proof.
  intros E Hk. unfold Flexfec.or_octet. rewrite (peek_h k) by done. destruct (peek x k); [|done]. by apply put_h.
Qed.

End After.

Lemma or_peek x k b bits : peek x k = Some b -> Flexfec.or_octet x k bits = put x k [Z.lor b bits].
Proof. intros H. unfold Flexfec.or_octet. by rewrite H. Qed.

Ltac or_explicit x k b :=
  rewrite (or_peek x k _ b eq_refl); rewrite put_at by (cbn [length]; lia).

(** The next access behind an 18-octet header [h]. *)
Ltac h_step :=
  lazymatch goal with
  | Hh : zlen ?h = 18 |- mbind _ (put (?h ++ ?x) ?off ?bs) = _ => let k := eval compute in (off - 18) in
      rewrite (put_h h x Hh k off bs eq_refl) by lia; rewrite put_at by (cbn [length]; lia)
  | Hh : zlen ?h = 18 |- put (?h ++ ?x) ?off ?bs = _ => let k := eval compute in (off - 18) in
      rewrite (put_h h x Hh k off bs eq_refl) by lia; rewrite put_at by (cbn [length]; lia)
  | Hh : zlen ?h = 18 |- mbind _ (Flexfec.or_octet (?h ++ ?x) ?off ?b) = _ => let k := eval compute in (off - 18) in
      rewrite (or_h h x Hh k off b eq_refl) by lia; or_explicit x k b
  | Hh : zlen ?h = 18 |- Flexfec.or_octet (?h ++ ?x) ?off ?b = _ => let k := eval compute in (off - 18) in
      rewrite (or_h h x Hh k off b eq_refl) by lia; or_explicit x k b
  | |- mbind _ (Some _) = _ => cbn [mbind option_bind]
  end;
  mem_norm.

(** The part of FinalizeFecHeader that writes the mask, on octets from the mask field on. *)
Lemma flexfec_pack h row hs x : zlen h = 18 -> mask_row row -> header_size (H := flexfec_header) row = Some hs -> hs <= 18 + zlen x ->
  hs = 18 + zlen (packed row) /\
  (if zlen row =? kUlpfecPacketMaskSizeLBitSet then
    tmp_mask_part0 ← read_u16 row 0;
    tmp_mask_part1 ← read_u32 row 2;
    data ← put (h ++ x) 18 (ByteWriter.WriteBigEndian 2 (Z.shiftr tmp_mask_part0 1));
    data ← put data (18 + 2) (ByteWriter.WriteBigEndian 4 (Z.shiftr tmp_mask_part1 2));
    mask1 ← peek row 1;
    data ← (if negb (Z.land mask1 0x01 =? 0) then Flexfec.or_octet data (18 + 2) 0x40 else Some data);
    mask5 ← peek row 5;
    let bit46 := negb (Z.land mask5 0x02 =? 0) in
    let bit47 := negb (Z.land mask5 0x01 =? 0) in
    if negb bit46 && negb bit47 then Flexfec.or_octet data (18 + 2) 0x80 else
    data ← put data (18 + 6) (replicate 8 0);
    data ← Flexfec.or_octet data (18 + 6) 0x80;
    data ← (if bit46 then Flexfec.or_octet data (18 + 6) 0x40 else Some data);
    if bit47 then Flexfec.or_octet data (18 + 6) 0x20 else Some data
  else
    check (zlen row =? kUlpfecPacketMaskSizeLBitClear) ;;
    tmp_mask_part0 ← read_u16 row 0;
    data ← put (h ++ x) 18 (ByteWriter.WriteBigEndian 2 (Z.shiftr tmp_mask_part0 1));
    mask1 ← peek row 1;
    if Z.land mask1 0x01 =? 0 then Flexfec.or_octet data 18 0x80 else
    data ← put data (18 + 2) (replicate 4 0);
    data ← Flexfec.or_octet data (18 + 2) 0x80;
    Flexfec.or_octet data (18 + 2) 0x40) = Some (h ++ packed row ++ drop (length (packed row)) x).
Proof.
  intros Hh [Hb Hl] Hhs Hx. unfold is_bytes in Hb.
  change (replicate 4 0) with [0; 0; 0; 0]. change (replicate 8 0) with [0; 0; 0; 0; 0; 0; 0; 0].
  destruct Hl as [Hl|Hl].
  - destruct row as [|m0 [|m1 [|? ?]]]; try (cbn [length] in Hl; lia). rewrite !list.Forall_cons in Hb. destruct Hb as (H0 & H1 & _).
    unfold header_size in Hhs. cbn [MinPacketMaskSize FecHeaderSize flexfec_header] in Hhs. unfold Flexfec.MinPacketMaskSize in Hhs.
    rewrite Hl in *. change (2 =? kUlpfecPacketMaskSizeLBitSet) with false. change (2 =? kUlpfecPacketMaskSizeLBitClear) with true in *.
    change (peek [m0; m1] 1) with (Some m1) in *. cbn [mbind option_bind check] in *.
    destruct (or_octet_facts m1 H1) as (_ & _ & _ & _ & E1 & _). rewrite E1 in *.
    change (read_u16 [m0; m1] 0) with (Some (ByteReader.ReadBigEndian 16 2 [m0; m1])). rewrite rd2 by done. cbn [mbind option_bind].
    rewrite right1 by done. unfold packed.
    assert (P : is_u8 (m0 / 2) /\ m0 / 2 < 128) by (unfold is_u8 in *; dlia). destruct P as [P0 P1].
    destruct (or_octet_facts _ P0) as (O1 & _).
    destruct (m1 mod 2 =? 0); injection Hhs as <-; (split; [done|]).
    + change Flexfec.kHeaderSizes0 with 20 in *. do 2 (destruct x as [|? x]; [cbn [length] in Hx; lia|]). repeat h_step. by rewrite O1.
    + change Flexfec.kHeaderSizes1 with 24 in *. do 6 (destruct x as [|? x]; [cbn [length] in Hx; lia|]). repeat h_step. done.
  - destruct row as [|m0 [|m1 [|m2 [|m3 [|m4 [|m5 [|? ?]]]]]]]; try (cbn [length] in Hl; lia). rewrite !list.Forall_cons in Hb.
    destruct Hb as (H0 & H1 & H2 & H3 & H4 & H5 & _).
    unfold header_size in Hhs. cbn [MinPacketMaskSize FecHeaderSize flexfec_header] in Hhs. unfold Flexfec.MinPacketMaskSize in Hhs.
    rewrite Hl in *. change (6 =? kUlpfecPacketMaskSizeLBitSet) with true in *. change (6 =? kUlpfecPacketMaskSizeLBitClear) with false in *.
    change (peek [m0; m1; m2; m3; m4; m5] 1) with (Some m1). change (peek [m0; m1; m2; m3; m4; m5] 5) with (Some m5) in *. cbn [mbind option_bind check] in *.
    destruct (or_octet_facts m1 H1) as (_ & _ & _ & _ & E1 & _). rewrite E1 in *.
    destruct (or_octet_facts m5 H5) as (_ & _ & _ & _ & F1 & F2 & F3 & _). rewrite F1, F2, F3 in *. clear F1 F2 F3.
    change (read_u16 [m0; m1; m2; m3; m4; m5] 0) with (Some (ByteReader.ReadBigEndian 16 2 [m0; m1])).
    change (read_u32 [m0; m1; m2; m3; m4; m5] 2) with (Some (ByteReader.ReadBigEndian 32 4 [m2; m3; m4; m5])). rewrite rd2, rd4 by done. cbn [mbind option_bind].
    rewrite right1, right2 by done. unfold packed.
    assert (P : is_u8 (m2 / 4) /\ m2 / 4 < 64) by (unfold is_u8 in *; dlia). destruct P as [P0 P1].
    destruct (or_octet_facts _ P0) as (O1 & O2 & _).
    assert (P2 : is_u8 (m2 / 4 + 64)) by (unfold is_u8 in *; lia). destruct (or_octet_facts _ P2) as (O3 & _).
    assert (B1 : m1 mod 2 = 0 \/ m1 mod 2 = 1) by dlia.
    destruct (Z.eqb_spec (m5 mod 4) 0) as [E5|E5]; injection Hhs as <-; (split; [done|]).
    + change Flexfec.kHeaderSizes1 with 24 in *. do 6 (destruct x as [|? x]; [cbn [length] in Hx; lia|]).
      replace (m5 mod 4 <? 2) with true by (symmetry; apply Z.ltb_lt; lia).
      replace (m5 mod 2 =? 0) with true by (symmetry; apply Z.eqb_eq; dlia).
      destruct B1 as [B1|B1]; rewrite B1; cbn [Z.eqb Pos.eqb negb andb]; repeat h_step; rewrite ?O2, ?O1, ?O3 by lia; rewrite ?Z.mul_0_l, ?Z.mul_1_l, ?Z.add_0_r; reflexivity.
    + change Flexfec.kHeaderSizes2 with 32 in *. do 14 (destruct x as [|? x]; [cbn [length] in Hx; lia|]).
      assert (T : (m5 mod 4 = 1 /\ m5 mod 2 = 1) \/ (m5 mod 4 = 2 /\ m5 mod 2 = 0) \/ (m5 mod 4 = 3 /\ m5 mod 2 = 1)) by dlia.
      destruct B1 as [B1|B1]; rewrite B1; destruct T as [[T1 T2]|[[T1 T2]|[T1 T2]]]; rewrite T1, T2;
        cbn [Z.eqb Z.ltb Z.compare Pos.compare Pos.compare_cont Pos.eqb negb andb]; repeat h_step; rewrite ?O2, ?O1, ?O3 by lia; rewrite ?Z.mul_0_l, ?Z.mul_1_l, ?Z.add_0_r; reflexivity.
Qed.

(** ** Taking the K-bits out *)

Lemma left1_packed m0 m1 k : is_u8 m0 -> is_u8 m1 -> k = 0 \/ k = 128 ->
  is_u8 (m0 / 2 + k) /\ is_u8 (m0 mod 2 * 128 + m1 / 2) /\
  (m0 / 2 + k) mod 128 * 2 + (m0 mod 2 * 128 + m1 / 2) / 128 = m0 /\
  (m0 mod 2 * 128 + m1 / 2) mod 128 * 2 = m1 - m1 mod 2.
Proof. unfold is_u8. intros. dlia. Qed.

Lemma left2_packed b k m2 m3 m4 m5 : is_u8 m2 -> is_u8 m3 -> is_u8 m4 -> is_u8 m5 -> b = 0 \/ b = 1 -> k = 0 \/ k = 128 ->
  is_u8 (m2 / 4 + b * 64 + k) /\ is_u8 (m2 mod 4 * 64 + m3 / 4) /\ is_u8 (m3 mod 4 * 64 + m4 / 4) /\ is_u8 (m4 mod 4 * 64 + m5 / 4) /\
  (m2 / 4 + b * 64 + k) mod 64 * 4 + (m2 mod 4 * 64 + m3 / 4) / 64 = m2 /\
  (m2 mod 4 * 64 + m3 / 4) mod 64 * 4 + (m3 mod 4 * 64 + m4 / 4) / 64 = m3 /\
  (m3 mod 4 * 64 + m4 / 4) mod 64 * 4 + (m4 mod 4 * 64 + m5 / 4) / 64 = m4 /\
  (m4 mod 4 * 64 + m5 / 4) mod 64 * 4 = m5 - m5 mod 4.
Proof. unfold is_u8. intros. splits; dlia. Qed.

Lemma read_be_at w B x k : 0 <= k -> k + Z.of_nat B <= zlen x ->
  read_be w B x k = Some (ByteReader.ReadBigEndian w B (take B (drop (Z.to_nat k) x))).
Proof. intros. unfold read_be. by rewrite load_Some. Qed.

Ltac h_read :=
  lazymatch goal with
  | Hh : zlen ?h = 18 |- mbind _ (peek (?h ++ ?x) ?off) = _ => let k := eval compute in (off - 18) in
      rewrite (peek_h h x Hh k off eq_refl) by lia;
      rewrite (eq_refl : peek x k = Some _); cbn [mbind option_bind]
  | Hh : zlen ?h = 18 |- mbind _ (read_be ?w ?B (?h ++ ?x) ?off) = _ => let k := eval compute in (off - 18) in
      rewrite (read_h h x Hh w B k off eq_refl) by lia; rewrite (read_be_at w B x k) by (cbn [length]; lia); mem_norm
  | _ => h_step
  end.

Lemma packed_length row : mask_row row -> zlen (packed row) = 2 \/ zlen (packed row) = 6 \/ zlen (packed row) = 14.
Proof.
  intros [_ [Hl|Hl]].
  - destruct row as [|m0 [|m1 [|? ?]]]; try (cbn [length] in Hl; lia). cbn [packed]. destruct (_ =? _); [by left|by right; left].
  - destruct row as [|m0 [|m1 [|m2 [|m3 [|m4 [|m5 [|? ?]]]]]]]; try (cbn [length] in Hl; lia). cbn [packed].
    destruct (_ =? _); [by right; left|by right; right].
Qed.

(** The header of [h] up to the mask: R and F clear, one SSRC. *)
Record read_head (h y : bytes) (c0 ssrc base : Z) : Prop := ReadHead {
  rh_length : zlen h = 18;
  rh_first : peek (h ++ y) 0 = Some c0;
  rh_r : (Z.land c0 0x80 =? 0) = true;
  rh_f : (Z.land c0 0x40 =? 0) = true;
  rh_count : read_u8 (h ++ y) 8 = Some 1;
  rh_ssrc : read_u32 (h ++ y) 12 = Some ssrc;
  rh_base : read_u16 (h ++ y) 16 = Some base
}.

Lemma stored_at h q x ssrc base : zlen h = 18 -> zlen q = 2 \/ zlen q = 6 \/ zlen q = 14 ->
  Flexfec.stored (h ++ q ++ x) (zlen q) ssrc base = Some (h ++ q ++ x, Some (MkFecInfo (18 + zlen q) ssrc base 18 (zlen q) (zlen x))).
Proof.
  intros Hh Hq. unfold Flexfec.stored.
  assert (E : Flexfec.FlexfecHeaderSize (zlen q) = Some (18 + zlen q)) by (destruct Hq as [-> | [-> | ->]]; done).
  rewrite E. cbn [mbind option_bind]. do 4 f_equal. rewrite !length_app. lia.
Qed.

Lemma flexfec_unpack h row x own c0 ssrc base : mask_row row -> read_head h (packed row ++ x) c0 ssrc base ->
  Flexfec.ReadFecHeader own (h ++ packed row ++ x) =
  Some (h ++ row ++ replicate (length (packed row) - length row) 0 ++ x,
    Some (MkFecInfo (18 + zlen (packed row)) ssrc base 18 (zlen (packed row)) (zlen x))).
Proof.
  intros Hrow [Hh H0 Hr Hf H8 H12 H16]. pose proof (packed_length row Hrow) as Hp.
  unfold Flexfec.ReadFecHeader. change (Flexfec.kBaseHeaderSize + Flexfec.kStreamSpecificHeaderSize) with 18.
  rewrite (proj2 (Z.leb_gt _ _)) by (rewrite !length_app; lia). rewrite H0. cbn [mbind option_bind]. rewrite Hr, Hf. cbn [negb].
  rewrite H8. cbn [mbind option_bind Z.eqb Pos.eqb negb]. rewrite H12, H16. cbn [mbind option_bind].
  change Flexfec.kHeaderSizes0 with 20. change Flexfec.kHeaderSizes1 with 24. change Flexfec.kHeaderSizes2 with 32.
  rewrite (proj2 (Z.ltb_ge _ _)) by (rewrite !length_app; lia). cbv zeta.
  change Flexfec.kPacketMaskOffset with 18. clear H0 H8 H12 H16 Hp.
  destruct Hrow as [Hb [Hl|Hl]]; unfold is_bytes in Hb.
  - destruct row as [|m0 [|m1 [|? ?]]]; try (cbn [length] in Hl; lia). rewrite !list.Forall_cons in Hb. destruct Hb as (B0 & B1 & _).
    cbn [packed]. destruct (Z.eqb_spec (m1 mod 2) 0) as [E|E].
    + destruct (left1_packed m0 m1 128 B0 B1) as (U0 & U1 & E0 & E1); [by right|]. cbn [app].
      h_read.
      destruct (or_octet_facts _ U0) as (_ & _ & K & _). rewrite K, (proj2 (Z.ltb_ge _ _)) by (unfold is_u8 in *; dlia). cbn [negb]. clear K.
      h_read. rewrite rd2, left1 by done. rewrite E0, E1, E, Z.sub_0_r. h_read.
      apply (stored_at h [m0; m1] x); [done|by left].
    + destruct (left1_packed m0 m1 0 B0 B1) as (U0 & U1 & E0 & E1); [by left|]. rewrite !Z.add_0_r in *. cbn [app].
      h_read.
      destruct (or_octet_facts _ U0) as (_ & _ & K & _). rewrite K, (proj2 (Z.ltb_lt _ _)) by (unfold is_u8 in *; dlia). cbn [negb]. clear K.
      h_read. rewrite rd2, left1 by done. rewrite E0, E1. h_read. rewrite (proj2 (Z.ltb_ge _ _)) by (rewrite !length_app; cbn [length]; lia).
      h_read. change (negb (Z.land 192 128 =? 0)) with true. change (Z.land (Z.shiftr 192 6) 1) with 1. cbn [negb].
      h_read. assert (V : is_u8 (m1 - m1 mod 2)) by (unfold is_u8 in *; dlia).
      destruct (or_octet_facts _ V) as (_ & _ & _ & _ & _ & _ & _ & _ & _ & V1 & _). rewrite V1 by dlia.
      replace (m1 - m1 mod 2 + 1) with m1 by dlia.
      h_read. rewrite rd4, left2 by done. h_read.
      apply (stored_at h [m0; m1; 0; 0; 0; 0] x); [done|by right; left].
  - destruct row as [|m0 [|m1 [|m2 [|m3 [|m4 [|m5 [|? ?]]]]]]]; try (cbn [length] in Hl; lia). rewrite !list.Forall_cons in Hb.
    destruct Hb as (B0 & B1 & B2 & B3 & B4 & B5 & _). cbn [packed].
    destruct (left1_packed m0 m1 0 B0 B1) as (U0 & U1 & E0 & E1); [by left|]. rewrite !Z.add_0_r in U0, E0.
    assert (Hb : m1 mod 2 = 0 \/ m1 mod 2 = 1) by dlia. assert (V : is_u8 (m1 - m1 mod 2)) by (unfold is_u8 in *; dlia).
    destruct (or_octet_facts _ V) as (_ & _ & _ & _ & _ & _ & _ & _ & _ & V1 & V0).
    assert (Hm1 : Z.lor (m1 - m1 mod 2) (m1 mod 2) = m1) by (clear -Hb V0 V1; destruct Hb as [Hb|Hb]; rewrite Hb in V0, V1 |- *; [rewrite V0; lia|rewrite V1; [lia|dlia]]).
    destruct (Z.eqb_spec (m5 mod 4) 0) as [E|E].
    + destruct (left2_packed (m1 mod 2) 128 m2 m3 m4 m5 B2 B3 B4 B5 Hb) as (W2 & W3 & W4 & W5 & F2 & F3 & F4 & F5); [by right|]. cbn [app].
      h_read. destruct (or_octet_facts _ U0) as (_ & _ & K & _). rewrite K, (proj2 (Z.ltb_lt _ _)) by (unfold is_u8 in *; dlia). cbn [negb]. clear K.
      h_read. rewrite rd2, left1 by done. rewrite E0, E1. h_read. rewrite (proj2 (Z.ltb_ge _ _)) by (rewrite !length_app; cbn [length]; lia).
      h_read. destruct (or_octet_facts _ W2) as (_ & _ & K & _ & _ & _ & _ & K6 & _). rewrite K, K6, (proj2 (Z.ltb_ge _ _)) by (unfold is_u8 in *; dlia). cbn [negb].
      replace ((m2 / 4 + m1 mod 2 * 64 + 128) / 64 mod 2) with (m1 mod 2) by (unfold is_u8 in *; dlia).
      h_read. rewrite Hm1. h_read. rewrite rd4, left2 by done. rewrite F2, F3, F4, F5, E, Z.sub_0_r. h_read.
      apply (stored_at h [m0; m1; m2; m3; m4; m5] x); [done|by right; left].
    + destruct (left2_packed (m1 mod 2) 0 m2 m3 m4 m5 B2 B3 B4 B5 Hb) as (W2 & W3 & W4 & W5 & F2 & F3 & F4 & F5); [by left|].
      rewrite Z.add_0_r in *. cbn [app].
      h_read. destruct (or_octet_facts _ U0) as (_ & _ & K & _). rewrite K, (proj2 (Z.ltb_lt _ _)) by (unfold is_u8 in *; dlia). cbn [negb]. clear K.
      h_read. rewrite rd2, left1 by done. rewrite E0, E1. h_read. rewrite (proj2 (Z.ltb_ge _ _)) by (rewrite !length_app; cbn [length]; lia).
      h_read. destruct (or_octet_facts _ W2) as (_ & _ & K & _ & _ & _ & _ & K6 & _). rewrite K, K6, (proj2 (Z.ltb_lt _ _)) by (unfold is_u8 in *; dlia). cbn [negb].
      replace ((m2 / 4 + m1 mod 2 * 64) / 64 mod 2) with (m1 mod 2) by (unfold is_u8 in *; dlia).
      h_read. rewrite Hm1. h_read. rewrite rd4, left2 by done. rewrite F2, F3, F4, F5. h_read.
      rewrite (proj2 (Z.ltb_ge _ _)) by (rewrite !length_app; cbn [length]; lia).
      h_read. assert (T : is_u8 (128 + m5 mod 4 * 32)) by (unfold is_u8; dlia).
      destruct (or_octet_facts _ T) as (_ & _ & K' & _ & _ & _ & _ & _ & K5 & _). rewrite K', K5, (proj2 (Z.ltb_ge _ _)) by (unfold is_u8 in *; dlia). cbn [negb].
      replace ((128 + m5 mod 4 * 32) / 32 mod 4) with (m5 mod 4) by dlia.
      h_read. rewrite or_two by (unfold is_u8 in *; dlia). replace (m5 - m5 mod 4 + m5 mod 4) with m5 by lia.
      h_read. rewrite left3 by (done || dlia). change (replicate 8 0) with [0; 0; 0; 0; 0; 0; 0; 0]. h_read.
      apply (stored_at h [m0; m1; m2; m3; m4; m5; 0; 0; 0; 0; 0; 0; 0; 0] x); [done|by right; right].
Qed.

(** ** The laws *)

Lemma flexfec_first b : is_u8 b -> let c := Z.land (Z.land b 0x7f) 0xbf in
  is_u8 c /\ (Z.land c 0x80 =? 0) = true /\ (Z.land c 0x40 =? 0) = true /\ Z.land b 0x3f = Z.land c 0x3f.
Proof.
  intros Hb c.
  pose proof (octet_all (fun b => (Z.land (Z.land (Z.land b 0x7f) 0xbf) 0x80 =? 0)) ltac:(vm_compute; reflexivity) b Hb) as C.
  destruct (land_63_of_0x40 b Hb) as (_ & _ & _ & L4 & L5 & L6). by splits.
Qed.

Definition flexfec_head (c0 : Z) (b : bytes) (ssrc base : Z) : bytes :=
  c0 :: b ++ [1; 0; 0; 0] ++ be_bytes 4 ssrc ++ be_bytes 2 base.

Lemma flexfec_head_read c0 b ssrc base y : length b = 7%nat -> is_u32 ssrc -> is_u16 base ->
  (Z.land c0 0x80 =? 0) = true -> (Z.land c0 0x40 =? 0) = true -> read_head (flexfec_head c0 b ssrc base) y c0 ssrc base.
Proof.
  intros Hb Hs Hbase Hr Hf. assert (E : forall q, flexfec_head c0 b ssrc base ++ q =
    ((c0 :: b) ++ [1; 0; 0; 0]) ++ be_bytes 4 ssrc ++ be_bytes 2 base ++ q) by (intros; unfold flexfec_head; cbn [app]; by rewrite <- !app_assoc).
  assert (L12 : zlen ((c0 :: b) ++ [1; 0; 0; 0]) = 12) by (rewrite length_app; cbn [length]; lia).
  constructor; [|done|done|done| | |].
  - unfold flexfec_head. cbn [length]. rewrite !length_app, !length_be_bytes. cbn [length]. lia.
  - rewrite E, <- app_assoc. assert (L8 : zlen (c0 :: b) = 8) by (cbn [length]; lia).
    pose proof (read_be_app_at0 8 1 (c0 :: b) ([1; 0; 0; 0] ++ be_bytes 4 ssrc ++ be_bytes 2 base ++ y)) as R. rewrite L8 in R. rewrite R.
    apply (read_be_app_here 8 1 1 ([0; 0; 0] ++ be_bytes 4 ssrc ++ be_bytes 2 base ++ y)); cbn; lia.
  - rewrite E. rewrite <- L12 at 1. rewrite read_be_app_at0. by apply read_u32_here.
  - rewrite E, app_assoc. assert (L16 : zlen (((c0 :: b) ++ [1; 0; 0; 0]) ++ be_bytes 4 ssrc) = 16) by (rewrite length_app, length_be_bytes; lia).
    pose proof (read_be_app_at0 16 2 (((c0 :: b) ++ [1; 0; 0; 0]) ++ be_bytes 4 ssrc) (be_bytes 2 base ++ y)) as R. rewrite L16 in R. rewrite R.
    by apply read_u16_here.
Qed.

Lemma flexfec_finalize ssrc base row hs b0 b1 b2 b3 b4 b5 b6 b7 b8 b9 b10 b11 b12 b13 b14 b15 b16 b17 x :
  mask_row row -> header_size (H := flexfec_header) row = Some hs -> hs <= 18 + zlen x ->
  Flexfec.FinalizeFecHeader ssrc base row (zlen row) (b0 :: b1 :: b2 :: b3 :: b4 :: b5 :: b6 :: b7 :: b8 :: b9 :: b10 :: b11 ::
    b12 :: b13 :: b14 :: b15 :: b16 :: b17 :: x)
  = Some (flexfec_head (Z.land (Z.land b0 0x7f) 0xbf) [b1; b2; b3; b4; b5; b6; b7] ssrc base ++ packed row ++ drop (length (packed row)) x).
Proof.
  intros Hrow Hhs Hx. unfold Flexfec.FinalizeFecHeader. cbv zeta. rewrite !(WriteBigEndian_spec 2 base), !WriteBigEndian_spec.
  change (be_bytes 1 Flexfec.kSsrcCount) with [1]. change (be_bytes 3 Flexfec.kReservedBits) with [0; 0; 0].
  change Flexfec.kPacketMaskOffset with 18. unfold flexfec_head. cbn [be_bytes].
  change (peek (b0 :: ?r) 0) with (Some b0). cbn [mbind option_bind]. mem_step.
  change (peek (?b :: ?r) 0) with (Some b). cbn [mbind option_bind]. mem_step. mem_step. mem_step. mem_step. mem_step.
  match goal with |- context [?a :: ?b :: ?c :: ?d :: ?e :: ?f :: ?g :: ?i :: ?j :: ?k :: ?l :: ?m :: ?n :: ?o :: ?p :: ?q :: ?r :: ?s :: x] =>
    change (a :: b :: c :: d :: e :: f :: g :: i :: j :: k :: l :: m :: n :: o :: p :: q :: r :: s :: x)
      with ([a; b; c; d; e; f; g; i; j; k; l; m; n; o; p; q; r; s] ++ x) end.
  by apply flexfec_pack with hs.
Qed.

Lemma flexfec_explicit (d : bytes) : 18 <= zlen d -> exists b0 b1 b2 b3 b4 b5 b6 b7 b8 b9 b10 b11 b12 b13 b14 b15 b16 b17 x,
  d = b0 :: b1 :: b2 :: b3 :: b4 :: b5 :: b6 :: b7 :: b8 :: b9 :: b10 :: b11 :: b12 :: b13 :: b14 :: b15 :: b16 :: b17 :: x.
Proof. intros Hl. do 18 (destruct d as [|? d]; [cbn in Hl; lia|]). by repeat eexists. Qed.

Lemma packed_longer row : mask_row row -> (length row <= length (packed row))%nat.
Proof.
  intros [_ [E|E]]; destruct row as [|m0 [|m1 [|m2 [|m3 [|m4 [|m5 [|? ?]]]]]]]; try (cbn [length] in E; lia); cbn [packed].
  - destruct (m1 mod 2 =? 0); cbn [length]; lia.
  - destruct (m5 mod 4 =? 0); rewrite ?length_app; cbn [length]; lia.
Qed.

Lemma packed_bytes row : mask_row row -> is_bytes (packed row).
Proof.
  intros [Hb [Hl|Hl]]; unfold is_bytes in *.
  - destruct row as [|m0 [|m1 [|? ?]]]; try (cbn [length] in Hl; lia). rewrite !list.Forall_cons in Hb. destruct Hb as (B0 & B1 & _).
    cbn [packed]. destruct (_ =? _); repeat (constructor; [unfold is_u8 in *; dlia|]); constructor.
  - destruct row as [|m0 [|m1 [|m2 [|m3 [|m4 [|m5 [|? ?]]]]]]]; try (cbn [length] in Hl; lia). rewrite !list.Forall_cons in Hb.
    destruct Hb as (B0 & B1 & B2 & B3 & B4 & B5 & _). cbn [packed].
    destruct (_ =? _); cbn [app]; repeat (constructor; [unfold is_u8 in *; dlia|]); constructor.
Qed.

Lemma packed_header_size row : mask_row row -> header_size (H := flexfec_header) row = Some (18 + zlen (packed row)).
Proof.
  intros Hrow. assert (Hrow' := Hrow). destruct Hrow' as [Hb Hl].
  assert (exists hs, header_size (H := flexfec_header) row = Some hs /\ hs <= 32) as (hs & E & Hle).
  { destruct Hl as [Hl|Hl]; unfold header_size; cbn [MinPacketMaskSize FecHeaderSize flexfec_header]; unfold Flexfec.MinPacketMaskSize; rewrite Hl.
    - destruct row as [|m0 [|m1 [|? ?]]]; try (cbn [length] in Hl; lia). change (peek [m0; m1] 1) with (Some m1).
      cbn [Z.eqb Pos.eqb kUlpfecPacketMaskSizeLBitClear mbind option_bind]. destruct (_ =? _); by eexists.
    - destruct row as [|m0 [|m1 [|m2 [|m3 [|m4 [|m5 [|? ?]]]]]]]; try (cbn [length] in Hl; lia).
      change (peek [m0; m1; m2; m3; m4; m5] 5) with (Some m5).
      cbn [Z.eqb Pos.eqb kUlpfecPacketMaskSizeLBitClear kUlpfecPacketMaskSizeLBitSet check mbind option_bind]. destruct (_ =? _); by eexists. }
  rewrite E. f_equal. destruct (flexfec_pack (replicate 18 0) row hs (replicate 14 0)) as [Hs _]; [done|done|done| |done].
  rewrite length_replicate. lia.
Qed.

Lemma flexfec_roundtrip own ssrc base row hs d : is_u32 ssrc -> is_u16 base -> mask_row row ->
  header_size (H := flexfec_header) row = Some hs -> is_bytes d -> hs <= zlen d < 65536 ->
  exists d' d'' info, Flexfec.FinalizeFecHeader ssrc base row (zlen row) d = Some d' /\ is_bytes d' /\
    Flexfec.ReadFecHeader own d' = Some (d'', Some info) /\ header_read ssrc base row hs d d'' info.
Proof.
  intros Hs Hbase Hrow Hhs Hd Hl. rewrite packed_header_size in Hhs by done. injection Hhs as <-.
  destruct (flexfec_explicit d) as (b0 & b1 & b2 & b3 & b4 & b5 & b6 & b7 & b8 & b9 & b10 & b11 & b12 & b13 & b14 & b15 & b16 & b17 & x & ->);
    [pose proof (packed_length row Hrow); lia|].
  assert (Hx : zlen (packed row) <= zlen x) by (cbn [length] in Hl; lia).
  assert (Hd' := Hd). unfold is_bytes in Hd'. rewrite !list.Forall_cons in Hd'.
  destruct Hd' as (H0 & H1 & H2 & H3 & H4 & H5 & H6 & H7 & H8 & H9 & H10 & H11 & H12 & H13 & H14 & H15 & H16 & H17 & Hxb).
  destruct (flexfec_first b0 H0) as (C0 & C1 & C2 & C3). set (c0 := Z.land (Z.land b0 127) 191) in *.
  set (h := flexfec_head c0 [b1; b2; b3; b4; b5; b6; b7] ssrc base). set (y := drop (length (packed row)) x).
  assert (Hhead : read_head h (packed row ++ y) c0 ssrc base) by (by apply flexfec_head_read).
  assert (Hhb : is_bytes h).
  { unfold h, flexfec_head, is_bytes. cbn [app]. rewrite !list.Forall_cons, list.Forall_app. splits; try done; apply be_bytes_is_bytes. }
  assert (Hyb : is_bytes y) by (by apply Forall_drop).
  pose proof (packed_length row Hrow) as Hpl.
  pose proof (packed_longer row Hrow) as Hle.
  exists (h ++ packed row ++ y). do 2 eexists. split; [apply flexfec_finalize with (18 + zlen (packed row)); [done|by apply packed_header_size|lia]|].
  split; [apply list.Forall_app; split; [done|]; apply list.Forall_app; split; [by apply packed_bytes|done]|].
  split; [by apply flexfec_unpack with c0|]. pose proof (rh_length _ _ _ _ _ Hhead) as Hh18.
  constructor; cbn [fec_header_size protected_ssrc seq_num_base packet_mask_offset packet_mask_size protection_length]; try done.
  - rewrite !length_app, length_replicate. unfold y. rewrite length_drop. cbn [length]. lia.
  - apply list.Forall_app; split; [done|]. apply list.Forall_app; split; [apply Hrow|]. apply list.Forall_app; split; [by apply Forall_replicate|done].
  - unfold y. rewrite length_drop. cbn [length]. lia.
  - exists (row ++ replicate (length (packed row) - length row) 0). splits; [|lia| |].
    + rewrite <- Hh18, Nat2Z.id, (app_assoc row), load_app_skip, Z.sub_diag by lia. apply load_app_here. rewrite length_app, length_replicate. lia.
    + rewrite !length_app, length_replicate. lia.
    + intros j. apply protects_app_zeros.
  - exists b0, c0, [b1; b2; b3; b4; b5; b6; b7]. do 2 eexists. splits; [reflexivity|reflexivity|reflexivity|done].
  - replace (Z.to_nat (18 + zlen (packed row))) with (18 + length (packed row))%nat by lia.
    transitivity y; [|reflexivity]. rewrite (app_assoc row), (app_assoc h). apply drop_app_length'.
    rewrite !length_app, length_replicate. lia.
Qed.

(** The reader on octets nobody vouches for. *)
Lemma or_octet_safe d off b : is_bytes d -> is_u8 b -> 0 <= off < zlen d ->
  exists d', Flexfec.or_octet d off b = Some d' /\ is_bytes d' /\ zlen d' = zlen d.
Proof.
  intros Hd Hb Ho. unfold Flexfec.or_octet. destruct (peek_octet d off Hd Ho) as (x & -> & Hx). cbn [mbind option_bind].
  destruct (put_Some d off [Z.lor x b]) as (d' & E); [lia|cbn; lia|]. exists d'. splits; [done| |by rewrite (put_length _ _ _ _ E)].
  eapply put_octets; [exact Hd| |exact E]. constructor; [by apply lor_u8|constructor].
Qed.

Lemma put_word_safe d off B v : is_bytes d -> 0 <= off -> off + Z.of_nat B <= zlen d ->
  exists d', put d off (ByteWriter.WriteBigEndian B v) = Some d' /\ is_bytes d' /\ zlen d' = zlen d.
Proof.
  intros Hd Ho Hl. rewrite WriteBigEndian_spec. destruct (put_Some d off (be_bytes B v)) as (d' & E); [lia|rewrite length_be_bytes; lia|].
  exists d'. splits; [done| |by rewrite (put_length _ _ _ _ E)]. eapply put_octets; [exact Hd|apply be_bytes_is_bytes|exact E].
Qed.

Lemma mask_bits_octet x : is_u8 x -> is_u8 (Z.land (Z.shiftr x 6) 1) /\ is_u8 (Z.land (Z.shiftr x 5) 3).
Proof.
  intros Hx. destruct (or_octet_facts x Hx) as (_ & _ & _ & _ & _ & _ & _ & E1 & E2 & _). rewrite E1, E2. unfold is_u8 in *. split; dlia.
Qed.

Lemma stored_safe d size ssrc base own : is_bytes d -> is_u32 ssrc -> is_u16 base -> (size = 2 \/ size = 6 \/ size = 14) -> 18 + size <= zlen d ->
  exists d' info, Flexfec.stored d size ssrc base = Some (d', info) /\ is_bytes d' /\ zlen d' = zlen d /\
    match info with Some info => info_safe own (zlen d) info | None => True end.
Proof.
  intros Hd Hs Hb Hsize Hl. unfold Flexfec.stored.
  assert (E : Flexfec.FlexfecHeaderSize size = Some (18 + size)) by (destruct Hsize as [-> | [-> | ->]]; done).
  rewrite E. cbn [mbind option_bind]. do 2 eexists. split; [reflexivity|]. splits; [done|done|].
  constructor; cbn [fec_header_size protected_ssrc seq_num_base packet_mask_offset packet_mask_size protection_length]; try done; try lia.
Qed.

Ltac drop_packet d Hd := exists d, None; split; [reflexivity|]; split; [exact Hd|]; split; [lia|exact I].

Lemma flexfec_safe ssrc d : is_bytes d -> exists d' info, Flexfec.ReadFecHeader ssrc d = Some (d', info) /\
  is_bytes d' /\ zlen d' = zlen d /\ match info with Some info => info_safe ssrc (zlen d) info | None => True end.
Proof.
  intros Hd. unfold Flexfec.ReadFecHeader. change (Flexfec.kBaseHeaderSize + Flexfec.kStreamSpecificHeaderSize) with 18.
  change Flexfec.kHeaderSizes0 with 20. change Flexfec.kHeaderSizes1 with 24. change Flexfec.kHeaderSizes2 with 32. change Flexfec.kPacketMaskOffset with 18.
  change Flexfec.kFlexfecPacketMaskSizes0 with 2. change Flexfec.kFlexfecPacketMaskSizes1 with 6. change Flexfec.kFlexfecPacketMaskSizes2 with 14.
  destruct (Z.leb_spec (zlen d) 18); [drop_packet d Hd|].
  destruct (peek_octet d 0 Hd) as (b0 & -> & _); [lia|]. cbn [mbind option_bind].
  destruct (negb _); [drop_packet d Hd|]. destruct (negb _); [drop_packet d Hd|].
  destruct (read_be_Some 8 1 d 8 Hd) as (count & -> & _); [lia|lia|lia|]. cbn [mbind option_bind].
  destruct (negb _); [drop_packet d Hd|].
  destruct (read_u32_Some d 12 Hd) as (media & -> & Hmedia); [lia|lia|]. cbn [mbind option_bind].
  destruct (read_u16_Some d 16 Hd) as (base & -> & Hbase); [lia|lia|]. cbn [mbind option_bind].
  destruct (Z.ltb_spec (zlen d) 20); [drop_packet d Hd|]. cbv zeta.
  destruct (peek_octet d 18 Hd) as (m0 & -> & _); [lia|]. cbn [mbind option_bind].
  destruct (read_u16_Some d 18 Hd) as (part0 & -> & _); [lia|lia|]. cbn [mbind option_bind].
  destruct (put_word_safe d 18 2 (u16 (Z.shiftl part0 1)) Hd) as (d1 & -> & Hd1 & L1); [lia|lia|]. cbn [mbind option_bind]. rewrite <- L1.
  destruct (negb _); [apply stored_safe; [exact Hd1|exact Hmedia|exact Hbase|by left|lia]|].
  destruct (Z.ltb_spec (zlen d1) 24); [drop_packet d1 Hd1|].
  destruct (peek_octet d1 (18 + 2) Hd1) as (m2 & -> & Hm2); [lia|]. cbn [mbind option_bind].
  destruct (or_octet_safe d1 (18 + 1) (Z.land (Z.shiftr m2 6) 1) Hd1) as (d2 & -> & Hd2 & L2); [by apply mask_bits_octet|lia|].
  cbn [mbind option_bind]. rewrite <- L2.
  destruct (read_u32_Some d2 (18 + 2) Hd2) as (part1 & -> & _); [lia|lia|]. cbn [mbind option_bind].
  destruct (put_word_safe d2 (18 + 2) 4 (u32 (Z.shiftl part1 2)) Hd2) as (d3 & -> & Hd3 & L3); [lia|lia|]. cbn [mbind option_bind]. rewrite <- L3.
  destruct (negb _); [apply stored_safe; [exact Hd3|exact Hmedia|exact Hbase|by right; left|lia]|].
  destruct (Z.ltb_spec (zlen d3) 32); [drop_packet d3 Hd3|].
  destruct (peek_octet d3 (18 + 6) Hd3) as (m6 & -> & Hm6); [lia|]. cbn [mbind option_bind].
  destruct (negb _); [drop_packet d3 Hd3|].
  destruct (or_octet_safe d3 (18 + 5) (Z.land (Z.shiftr m6 5) 3) Hd3) as (d4 & -> & Hd4 & L4); [by apply mask_bits_octet|lia|].
  cbn [mbind option_bind]. rewrite <- L4.
  destruct (read_be_Some 64 8 d4 (18 + 6) Hd4) as (part2 & -> & _); [lia|lia|lia|]. cbn [mbind option_bind].
  destruct (put_word_safe d4 (18 + 6) 8 (u64 (Z.shiftl part2 3)) Hd4) as (d5 & -> & Hd5 & L5); [lia|lia|]. cbn [mbind option_bind]. rewrite <- L5.
  apply stored_safe; [exact Hd5|exact Hmedia|exact Hbase|by right; right|lia].
Qed.

#[global] Instance flexfec_laws : FecHeaderLaws (H := flexfec_header).
Proof.
  refine {| fec_ssrc_ok := fun _ _ => True |}.
  - done.
  - done.
  - intros row Hrow. exists (18 + zlen (packed row)). split; [by apply packed_header_size|].
    change writer_MaxPacketOverhead with 32. pose proof (packed_length row Hrow). lia.
  - intros fec_ssrc ssrc base row hs d _. apply flexfec_roundtrip.
  - apply flexfec_safe.
Defined.

(** The two formats of the repository. *)
Definition format (flexfec : bool) : FecHeader := if flexfec then flexfec_header else ulpfec_header.

#[global] Instance format_laws flexfec : FecHeaderLaws (H := format flexfec).
Proof. destruct flexfec; [exact flexfec_laws|exact ulpfec_laws]. Defined.

(** C9. Both formats, for a mask of 2 or 6 octets and a packet of less than 2^16 octets that
    holds the header: the reader finds in a finished header the protected SSRC (for ULPFEC the
    FEC packet's own), the sequence number base, exactly the bits of the mask and the length
    that is protected, behind a header of the size the writer reckoned with, and leaves the
    recovery octets and the payload as the encoder had them. *)
Theorem fec_header_roundtrip (flexfec : bool) (own ssrc base : Z) (row : bytes) (hs : Z) (d : bytes) :
  (flexfec = false -> own = ssrc) -> is_u32 ssrc -> is_u16 base -> mask_row row ->
  header_size (H := format flexfec) row = Some hs -> is_bytes d -> hs <= zlen d < 65536 ->
  exists d' d'' info, FinalizeFecHeader (FecHeader := format flexfec) ssrc base row (zlen row) d = Some d' /\
    ReadFecHeader (FecHeader := format flexfec) own d' = Some (d'', Some info) /\ header_read ssrc base row hs d d'' info.
Proof.
  intros Hown Hs Hb Hrow Hhs Hd Hl.
  assert (exists d' d'' info, FinalizeFecHeader (FecHeader := format flexfec) ssrc base row (zlen row) d = Some d' /\ is_bytes d' /\
    ReadFecHeader (FecHeader := format flexfec) own d' = Some (d'', Some info) /\ header_read ssrc base row hs d d'' info)
    as (d' & d'' & info & F & _ & R & HR); [|by exists d', d'', info].
  destruct flexfec; [by apply flexfec_roundtrip|]. rewrite Hown by done. by apply ulpfec_roundtrip.
Qed.

Lemma fec_header_roundtrip_witness : exists d' d'' info,
  FinalizeFecHeader (FecHeader := format true) 77 65535 [0x80; 0x01] (zlen [0x80; 0x01]) (replicate 30 255) = Some d' /\
  ReadFecHeader (FecHeader := format true) 5 d' = Some (d'', Some info) /\
  header_read 77 65535 [0x80; 0x01] 24 (replicate 30 255) d'' info.
Proof.
  apply (fec_header_roundtrip true 5 77 65535 [0x80; 0x01] 24 (replicate 30 255)); try done.
  - split; [|by left]. repeat (constructor; [done|]). constructor.
  - repeat (constructor; [done|]). constructor.
Defined.
