(* ===== verification/FecXor.v ===== *)
(** * The XOR of packets: the part encoder and decoder of forward_error_correction.cc share

    A packet is its octets; SetSize keeps them and, when it grows, shows what the memory holds,
    which the caller gives as [fill]. XorHeaders and XorPayloads are the code's; what they
    compute is stated with [xor_ext], the XOR of two sequences of octets of any lengths. *)

From S2P Require Import Prelude.
From S2P Require Import ByteIo.
From S2P Require Import Buffers.
From S2P Require Import RtcpCore.
From S2P Require Import FecTables.
From S2P Require Import FecMasks.
From S2P Require Import FecHeader.

Definition kRtpHeaderSize : Z := 12.
Definition IP_PACKET_SIZE : Z := 1500.
Definition kTransportOverhead : Z := 28.

(** ForwardErrorCorrection::ParseSequenceNumber and ParseSsrc *)
Definition ParseSequenceNumber (packet : bytes) : option Z :=
  b2 ← peek packet 2; b3 ← peek packet 3; Some (u16 (Z.shiftl b2 8 + b3)).

Definition ParseSsrc (packet : bytes) : option Z :=
  b8 ← peek packet 8; b9 ← peek packet 9; b10 ← peek packet 10; b11 ← peek packet 11;
  Some (u32 (Z.shiftl b8 24 + Z.shiftl b9 16 + Z.shiftl b10 8 + b11)).

(** CopyOnWriteBuffer::SetSize on memory whose octet [i], where nothing was written, is
    [fill i]. *)
Definition SetSize (fill : nat -> Z) (size : Z) (data : bytes) : bytes :=
  take (Z.to_nat size) data ++ map fill (seq (length data) (Z.to_nat size - length data)).

(** dst[off ..] ^= octets *)
Definition xor_at (dst : bytes) (off : Z) (octets : bytes) : option bytes :=
  old ← load dst off (length octets); put dst off (zip_with Z.lxor old octets).

(** ForwardErrorCorrection::XorHeaders; the length of a packet of less than 12 octets would wrap
    around, and XorPayloads would run over it. *)
Definition XorHeaders (src dst : bytes) : option bytes :=
  check (kRtpHeaderSize <=? zlen src) ;; first ← load src 0 2; dst ← xor_at dst 0 first;
  dst ← xor_at dst 2 (ByteWriter.WriteBigEndian 2 (u64 (zlen src - kRtpHeaderSize)));
  timestamp ← load src 4 4; xor_at dst 4 timestamp.

(** ForwardErrorCorrection::XorPayloads; the buffers XORed into have room for IP_PACKET_SIZE
    octets, the least that the assertion on the capacity can count on. *)
Definition XorPayloads (fill : nat -> Z) (src : bytes) (payload_length dst_offset : Z) (dst : bytes) : option bytes :=
  check (kRtpHeaderSize + payload_length <=? zlen src) ;;
  check (dst_offset + payload_length <=? Z.max IP_PACKET_SIZE (zlen dst)) ;;
  let dst := if dst_offset + payload_length >? zlen dst then SetSize fill (dst_offset + payload_length) dst else dst in
  payload ← load src kRtpHeaderSize (Z.to_nat payload_length); xor_at dst dst_offset payload.

(** ** The XOR of sequences of octets *)

Fixpoint xor_ext (a b : bytes) : bytes :=
  match a, b with
  | [], _ => b
  | _, [] => a
  | x :: a, y :: b => Z.lxor x y :: xor_ext a b
  end.

(** The octets of a packet that an FEC packet recovers: the two first, the length of the
    payload, the timestamp; and the payload. *)
Definition recovery (p : bytes) : bytes := take 2 p ++ be_bytes 2 (zlen p - 12) ++ take 4 (drop 4 p).

Definition payload (p : bytes) : bytes := drop 12 p.

Fixpoint parity (part : bytes -> bytes) (ps : list bytes) : bytes :=
  match ps with
  | [] => []
  | p :: ps => xor_ext (part p) (parity part ps)
  end.

Lemma xor_ext_nil_r a : xor_ext a [] = a.
Proof. by destruct a. Qed.

Lemma xor_ext_comm a b : xor_ext a b = xor_ext b a.
Proof. revert b. induction a as [|x a IH]; intros [|y b]; try done. cbn. by rewrite IH, Z.lxor_comm. Qed.

Lemma xor_ext_assoc a b c : xor_ext a (xor_ext b c) = xor_ext (xor_ext a b) c.
Proof. revert b c. induction a as [|x a IH]; intros [|y b] [|z c]; try done. cbn. by rewrite IH, Z.lxor_assoc. Qed.

Lemma xor_ext_length a b : length (xor_ext a b) = Nat.max (length a) (length b).
Proof. revert b. induction a as [|x a IH]; intros [|y b]; try done. cbn. by rewrite IH. Qed.

Lemma xor_ext_self a : xor_ext a a = replicate (length a) 0.
Proof. induction a as [|x a IH]; [done|]. cbn. by rewrite IH, Z.lxor_nilpotent. Qed.

Lemma xor_ext_zeros a n : xor_ext a (replicate n 0) = a ++ replicate (n - length a) 0.
Proof.
  revert n. induction a as [|x a IH]; intros n; [cbn; by rewrite Nat.sub_0_r|]. destruct n as [|n]; cbn; [by rewrite app_nil_r|].
  by rewrite IH, Z.lxor_0_r.
Qed.

Lemma lxor_u8 a b : is_u8 a -> is_u8 b -> is_u8 (Z.lxor a b).
Proof.
  intros Ha Hb. unfold is_u8 in *. assert (0 <= Z.lxor a b) by (apply Z.lxor_nonneg; lia). split; [done|].
  assert (E : Z.lxor a b = Z.lxor a b mod 2 ^ 8); [|rewrite E; apply Z.mod_pos_bound; lia].
  apply Z.bits_inj'. intros n Hn. destruct (Z.lt_ge_cases n 8) as [Hlt|Hge].
  - by rewrite Z.mod_pow2_bits_low.
  - rewrite Z.mod_pow2_bits_high, Z.lxor_spec by lia.
    rewrite <- (Z.mod_small a (2 ^ 8)), <- (Z.mod_small b (2 ^ 8)) by lia. by rewrite !Z.mod_pow2_bits_high by lia.
Qed.

Lemma xor_ext_bytes a b : is_bytes a -> is_bytes b -> is_bytes (xor_ext a b).
Proof.
  intros Ha. revert b. induction Ha as [|x a Hx Ha IH]; intros b Hb; [done|]. destruct Hb as [|y b Hy Hb]; [by constructor|].
  cbn. constructor; [by apply lxor_u8|by apply IH].
Qed.

Lemma zip_is_xor_ext a b : length a = length b -> zip_with Z.lxor a b = xor_ext a b.
Proof. revert b. induction a as [|x a IH]; intros [|y b] Hl; try done. cbn. f_equal. apply IH. by injection Hl. Qed.

Lemma xor_ext_app a a' b : length a = length b -> xor_ext (a ++ a') b = xor_ext a b ++ a'.
Proof. revert b. induction a as [|x a IH]; intros [|y b] Hl; try done; [by rewrite xor_ext_nil_r|]. cbn. f_equal. apply IH. by injection Hl. Qed.

Lemma xor_ext_app_app a a' b b' : length a = length b -> xor_ext (a ++ a') (b ++ b') = xor_ext a b ++ xor_ext a' b'.
Proof. revert b. induction a as [|x a IH]; intros [|y b] Hl; try done. cbn. f_equal. apply IH. by injection Hl. Qed.

Lemma xor_ext_shorter a b : (length b <= length a)%nat -> xor_ext a b = xor_ext (take (length b) a) b ++ drop (length b) a.
Proof. intros. rewrite <- (take_drop (length b) a) at 1. apply xor_ext_app. rewrite length_take. lia. Qed.

(** ** What the code computes *)

Lemma xor_at_spec pre mid post s : length s = length mid -> xor_at (pre ++ mid ++ post) (zlen pre) s = Some (pre ++ xor_ext mid s ++ post).
Proof.
  intros Hl. unfold xor_at. rewrite load_app_skip, Z.sub_diag, load_app_here by lia. cbn [mbind option_bind].
  rewrite put_app; [by rewrite zip_is_xor_ext|]. rewrite length_zip_with. lia.
Qed.

Definition wf_packet (p : bytes) : Prop := is_bytes p /\ 12 <= zlen p < 65536.

Lemma recovery_length p : 12 <= zlen p -> length (recovery p) = 8%nat.
Proof. intros. unfold recovery. rewrite !length_app, length_be_bytes, !length_take, length_drop. lia. Qed.

Lemma XorHeaders_spec src h x : wf_packet src -> length h = 8%nat -> XorHeaders src (h ++ x) = Some (xor_ext h (recovery src) ++ x).
Proof.
  intros [Hb Hl] Hh. unfold XorHeaders, recovery. rewrite check_then by (apply Z.leb_le; unfold kRtpHeaderSize; lia). rewrite (load_Some src 0 2) by (cbn; lia). cbn [mbind option_bind].
  rewrite u64_id by (unfold is_u64, kRtpHeaderSize; lia). rewrite WriteBigEndian_spec. change (zlen src - kRtpHeaderSize) with (zlen src - 12).
  change (drop (Z.to_nat 0) src) with src. set (f := take 2 src). assert (Hf : length f = 2%nat) by (unfold f; rewrite length_take; lia).
  do 8 (destruct h as [|? h]; [done|]). destruct h; [|done].
  pose proof (xor_at_spec [] [z; z0] (z1 :: z2 :: z3 :: z4 :: z5 :: z6 :: x) f) as E. change (zlen (@nil Z)) with 0 in E.
  cbn [app] in *. rewrite E by done. clear E. cbn [mbind option_bind].
  assert (Hx : zlen (xor_ext [z; z0] f) = 2) by (rewrite xor_ext_length; cbn; lia).
  pose proof (xor_at_spec (xor_ext [z; z0] f) [z1; z2] (z3 :: z4 :: z5 :: z6 :: x) (be_bytes 2 (zlen src - 12))) as E.
  rewrite Hx in E. cbn [app] in *. rewrite E by done. clear E. cbn [mbind option_bind].
  rewrite (load_Some src 4 4) by lia. cbn [mbind option_bind]. change (Z.to_nat 4) with 4%nat.
  set (t := take 4 (drop 4 src)). assert (Ht : length t = 4%nat) by (unfold t; rewrite length_take, length_drop; lia).
  pose proof (xor_at_spec (xor_ext [z; z0] f ++ xor_ext [z1; z2] (be_bytes 2 (zlen src - 12))) [z3; z4; z5; z6] x t) as E.
  replace (zlen (xor_ext [z; z0] f ++ _)) with 4 in E by (rewrite length_app, !xor_ext_length, Hf; cbn; lia).
  rewrite <- app_assoc in E. cbn [app] in E. rewrite E by done. f_equal.
  change [z; z0; z1; z2; z3; z4; z5; z6] with ([z; z0] ++ [z1; z2] ++ [z3; z4; z5; z6]).
  rewrite !xor_ext_app_app by done. by rewrite <- !app_assoc.
Qed.

(** The payload is XORed behind [dst_offset] octets, whether the packet has to grow, when the
    memory shows zeros, or not. *)
Lemma XorPayloads_spec fill src h x : wf_packet src -> zlen h + (zlen src - 12) <= 1500 ->
  (zlen (payload src) <= zlen x \/ forall i, (length h + length x <= i < length h + length (payload src))%nat -> fill i = 0) ->
  XorPayloads fill src (zlen src - 12) (zlen h) (h ++ x) = Some (h ++ xor_ext x (payload src)).
Proof.
  intros [Hb Hl] Hmax Hfill. unfold XorPayloads. change kRtpHeaderSize with 12. rewrite check_then by (apply Z.leb_le; lia).
  rewrite check_then by (apply Z.leb_le; unfold IP_PACKET_SIZE; lia).
  rewrite load_Some by lia. replace (take _ (drop (Z.to_nat 12) src)) with (payload src).
  2: { unfold payload. change (Z.to_nat 12) with 12%nat. rewrite firstn_all2; [done|]. rewrite length_drop. lia. }
  cbn [mbind option_bind]. assert (Hp : zlen (payload src) = zlen src - 12) by (unfold payload; rewrite length_drop; lia).
  assert (E : (if zlen h + (zlen src - 12) >? zlen (h ++ x) then SetSize fill (zlen h + (zlen src - 12)) (h ++ x) else h ++ x)
    = h ++ x ++ replicate (length (payload src) - length x) 0).
  { rewrite length_app. destruct (Z.gtb_spec (zlen h + (zlen src - 12)) (Z.of_nat (length h + length x))) as [Hgt|Hle].
    - unfold SetSize. rewrite firstn_all2 by (rewrite length_app; lia). rewrite <- app_assoc. do 2 f_equal.
      rewrite length_app. replace (Z.to_nat (zlen h + (zlen src - 12)) - (length h + length x))%nat with (length (payload src) - length x)%nat by lia.
      destruct Hfill as [Hc|Hfill]; [lia|]. apply list_eq. intros i. rewrite list_lookup_fmap.
      destruct (decide (i < length (payload src) - length x)%nat) as [Hlt|Hge].
      + rewrite lookup_seq_lt, lookup_replicate_2 by done. cbn. by rewrite Hfill by lia.
      + rewrite lookup_seq_ge by lia. symmetry. rewrite lookup_ge_None_2; [done|]. rewrite length_replicate. lia.
    - replace (length (payload src) - length x)%nat with 0%nat by lia. by rewrite app_nil_r. }
  cbv zeta. rewrite E. clear E.
  set (y := x ++ replicate (length (payload src) - length x) 0).
  assert (Hy : (length (payload src) <= length y)%nat) by (unfold y; rewrite length_app, length_replicate; lia).
  rewrite <- (take_drop (length (payload src)) y). rewrite xor_at_spec by (rewrite length_take; lia). do 2 f_equal.
  rewrite <- xor_ext_shorter by done. unfold y. clear Hy y.
  destruct (le_lt_dec (length (payload src)) (length x)) as [Hle|Hgt].
  - replace (_ - _)%nat with 0%nat by lia. by rewrite app_nil_r.
  - rewrite <- (xor_ext_zeros x (length (payload src))), <- xor_ext_assoc. f_equal. rewrite xor_ext_comm, xor_ext_zeros, Nat.sub_diag. apply app_nil_r.
Qed.

(** ** Parities *)

Lemma parity_app part ps qs : parity part (ps ++ qs) = xor_ext (parity part ps) (parity part qs).
Proof. induction ps as [|p ps IH]; [done|]. cbn. by rewrite IH, xor_ext_assoc. Qed.

Lemma parity_perm part ps qs : Permutation ps qs -> parity part ps = parity part qs.
Proof.
  induction 1 as [|p ps qs _ IH|p q ps|ps qs rs _ IH1 _ IH2]; [done|cbn; by rewrite IH| |by rewrite IH1].
  cbn. by rewrite !xor_ext_assoc, (xor_ext_comm (part p)).
Qed.

Lemma parity_bytes part ps : Forall (fun p => is_bytes (part p)) ps -> is_bytes (parity part ps).
Proof. induction 1; [constructor|]. cbn. by apply xor_ext_bytes. Qed.

Lemma parity_length_ge part ps p : p ∈ ps -> (length (part p) <= length (parity part ps))%nat.
Proof. induction 1 as [|p q ps _ IH]; cbn; rewrite xor_ext_length; lia. Qed.

Lemma parity_length_le part ps n : Forall (fun p => (length (part p) <= n)%nat) ps -> (length (parity part ps) <= n)%nat.
Proof. induction 1; cbn; [lia|]. rewrite xor_ext_length. lia. Qed.

Lemma parity_recovery_length ps : ps <> [] -> Forall wf_packet ps -> length (parity recovery ps) = 8%nat.
Proof.
  intros Hne H. apply Nat.le_antisymm.
  - apply parity_length_le. clear Hne. induction H as [|p ps [_ Hp] _ IH]; [constructor|]. constructor; [by rewrite recovery_length by lia|done].
  - destruct H as [|p ps [_ Hp] _]; [done|]. rewrite <- (recovery_length p) by lia. apply parity_length_ge. by left.
Qed.

(** What is left of a parity when all but one of its packets are taken out. *)
Lemma parity_cancel part p ps : xor_ext (parity part (p :: ps)) (parity part ps)
  = part p ++ replicate (length (parity part ps) - length (part p)) 0.
Proof. cbn. by rewrite <- xor_ext_assoc, xor_ext_self, xor_ext_zeros. Qed.

Lemma recovery_bytes p : wf_packet p -> is_bytes (recovery p).
Proof.
  intros [Hb _]. unfold recovery. apply list.Forall_app. split; [by apply Forall_take|]. apply list.Forall_app.
  split; [apply be_bytes_is_bytes|by apply Forall_take, Forall_drop].
Qed.

Lemma payload_bytes p : wf_packet p -> is_bytes (payload p).
Proof. intros [Hb _]. by apply Forall_drop. Qed.

Lemma payload_length p : wf_packet p -> zlen (payload p) = zlen p - 12.
Proof. intros [_ Hl]. unfold payload. rewrite length_drop. lia. Qed.
