(* ===== verification/FecEncoder.v ===== *)
(** * The FEC encoder: ForwardErrorCorrection::EncodeFec

    forward_error_correction.cc up to FinalizeFecHeaders, with InsertZeroColumns and CopyColumn
    of forward_error_correction_internal.cc. The arrays of the class are flat sequences of
    octets that keep what the last call left in them. *)

From S2P Require Import Prelude.
From S2P Require Import ByteIo.
From S2P Require Import Buffers.
From S2P Require Import RtcpCore.
From S2P Require Import FecTables.
From S2P Require Import FecMasks.
From S2P Require Import FecHeader.
From S2P Require Import FecXor.

(** ** Masks with holes *)

(** for (row = 0; row < num_fec_packets; ++row) *)
Fixpoint each_row {S} (n : nat) (row : Z) (f : Z -> S -> option S) (s : S) : option S :=
  match n with
  | O => Some s
  | S n => s ← f row s; each_row n (row + 1) f s
  end.

(** mask[index] <<= count *)
Definition shift_octet (mask : bytes) (index count : Z) : option bytes :=
  b ← peek mask index; put mask index [u8 (Z.shiftl b count)].

Definition InsertZeroColumns (num_zeros : Z) (new_mask : bytes) (new_mask_bytes num_fec_packets new_bit_index : Z) : option bytes :=
  each_row (Z.to_nat num_fec_packets) 0 (fun row new_mask =>
    let new_byte_index := row * new_mask_bytes + Z.quot new_bit_index 8 in
    let max_shifts := 7 - Z.rem new_bit_index 8 in
    shift_octet new_mask new_byte_index (Z.min num_zeros max_shifts)) new_mask.

Definition CopyColumn (new_mask : bytes) (new_mask_bytes : Z) (old_mask : bytes) (old_mask_bytes num_fec_packets new_bit_index old_bit_index : Z)
  : option (bytes * bytes) :=
  check (new_bit_index <? 8 * new_mask_bytes) ;;
  each_row (Z.to_nat num_fec_packets) 0 (fun row '(new_mask, old_mask) =>
    let new_byte_index := row * new_mask_bytes + Z.quot new_bit_index 8 in
    let old_byte_index := row * old_mask_bytes + Z.quot old_bit_index 8 in
    old ← peek old_mask old_byte_index;
    b ← peek new_mask new_byte_index;
    new_mask ← put new_mask new_byte_index [Z.lor b (Z.shiftr (Z.land old 0x80) 7)];
    new_mask ← (if negb (Z.rem new_bit_index 8 =? 7) then shift_octet new_mask new_byte_index 1 else Some new_mask);
    old_mask ← shift_octet old_mask old_byte_index 1;
    Some (new_mask, old_mask)) (new_mask, old_mask).

Section Encoder.
Context {H : FecHeader}.

(** What fresh memory holds. *)
Context (fresh : nat -> Z).

(** The loop over the media packets behind the first: the two masks and the bit indices. *)
Fixpoint insert_columns (media : list bytes) (prev_seq_num num_fec_packets new_mask_bytes old_mask_bytes new_bit_index old_bit_index : Z)
    (new_mask old_mask : bytes) : option (Z * bytes * bytes) :=
  match media with
  | [] => Some (new_bit_index, new_mask, old_mask)
  | p :: media =>
      if new_bit_index =? writer_MaxMediaPackets then Some (new_bit_index, new_mask, old_mask) else
      seq_num ← ParseSequenceNumber p;
      let num_zeros_to_insert := u16 (seq_num - prev_seq_num - 1) in
      new_mask ← (if num_zeros_to_insert >? 0
                  then InsertZeroColumns num_zeros_to_insert new_mask new_mask_bytes num_fec_packets new_bit_index else Some new_mask);
      let new_bit_index := new_bit_index + num_zeros_to_insert in
      '(new_mask, old_mask) ← CopyColumn new_mask new_mask_bytes old_mask old_mask_bytes num_fec_packets new_bit_index old_bit_index;
      insert_columns media seq_num num_fec_packets new_mask_bytes old_mask_bytes (new_bit_index + 1) (old_bit_index + 1) new_mask old_mask
  end.

(** The number of bits of a row, and the arrays packet_masks_ and tmp_packet_masks_. *)
Definition InsertZerosInPacketMasks (media_packets : list bytes) (num_fec_packets packet_mask_size : Z) (packet_masks tmp_packet_masks : bytes)
  : option (Z * bytes * bytes) :=
  let num_media_packets := zlen media_packets in
  if num_media_packets <=? 1 then Some (num_media_packets, packet_masks, tmp_packet_masks) else
  last ← list.last media_packets; last_seq_num ← ParseSequenceNumber last;
  first ← head media_packets; first_seq_num ← ParseSequenceNumber first;
  let total_missing_seq_nums := u64 (u16 (last_seq_num - first_seq_num) - num_media_packets + 1) in
  if total_missing_seq_nums =? 0 then Some (num_media_packets, packet_masks, tmp_packet_masks) else
  if u64 (total_missing_seq_nums + num_media_packets) >? writer_MaxMediaPackets then Some (-1, packet_masks, tmp_packet_masks) else
  tmp_packet_mask_size ← FecInternal.PacketMaskSize (u64 (total_missing_seq_nums + num_media_packets));
  tmp_packet_masks ← put tmp_packet_masks 0 (replicate (Z.to_nat (num_fec_packets * tmp_packet_mask_size)) 0);
  '(tmp_packet_masks, packet_masks) ←
    CopyColumn tmp_packet_masks tmp_packet_mask_size packet_masks packet_mask_size num_fec_packets 0 0;
  '(new_bit_index, tmp_packet_masks, packet_masks) ←
    insert_columns (tail media_packets) first_seq_num num_fec_packets tmp_packet_mask_size packet_mask_size 1 1 tmp_packet_masks packet_masks;
  tmp_packet_masks ←
    (if negb (Z.rem new_bit_index 8 =? 0) then
       each_row (Z.to_nat num_fec_packets) 0 (fun row mask =>
         shift_octet mask (row * tmp_packet_mask_size + Z.quot new_bit_index 8) (7 - Z.rem new_bit_index 8)) tmp_packet_masks
     else Some tmp_packet_masks);
  octets ← load tmp_packet_masks 0 (Z.to_nat (num_fec_packets * tmp_packet_mask_size));
  packet_masks ← put packet_masks 0 octets;
  Some (new_bit_index, packet_masks, tmp_packet_masks).

(** ** The FEC packets *)

Definition NumFecPackets (num_media_packets protection_factor : Z) : option Z :=
  let num_fec_packets := Z.shiftr (num_media_packets * protection_factor + Z.shiftl 1 7) 8 in
  let num_fec_packets := if (protection_factor >? 0) && (num_fec_packets =? 0) then 1 else num_fec_packets in
  check (num_fec_packets <=? num_media_packets) ;; Some num_fec_packets.

(** The octets that the memory of a generated packet shows: zeros up to IP_PACKET_SIZE, which
    EncodeFec wrote; a larger packet is moved to fresh memory. *)
Definition generated_fill (size : Z) : nat -> Z := if size <=? IP_PACKET_SIZE then fun _ => 0 else fresh.

(** One media packet into the FEC packet [data]. *)
Definition protect_packet (fec_header_size : Z) (media_packet data : bytes) : option bytes :=
  let media_payload_length := zlen media_packet - kRtpHeaderSize in
  let first_protected_packet := zlen data =? 0 in
  let fec_packet_length := fec_header_size + media_payload_length in
  let data := if fec_packet_length >? zlen data then SetSize (generated_fill fec_packet_length) fec_packet_length data else data in
  if first_protected_packet then
    first ← load media_packet 0 2; data ← put data 0 first;
    data ← put data 2 (ByteWriter.WriteBigEndian 2 (u16 media_payload_length));
    timestamp ← load media_packet 4 4; data ← put data 4 timestamp;
    if media_payload_length >? 0
    then octets ← load media_packet kRtpHeaderSize (Z.to_nat media_payload_length); put data fec_header_size octets
    else Some data
  else
    data ← XorHeaders media_packet data;
    XorPayloads (generated_fill fec_packet_length) media_packet media_payload_length fec_header_size data.

Fixpoint protect_loop (media : list bytes) (packet_masks : bytes) (fec_header_size pkt_mask_idx media_pkt_idx prev_seq_num : Z) (data : bytes)
  : option bytes :=
  match media with
  | [] => Some data
  | p :: media =>
      mask ← peek packet_masks pkt_mask_idx;
      data ← (if negb (Z.land mask (Z.shiftl 1 (7 - media_pkt_idx)) =? 0) then protect_packet fec_header_size p data else Some data);
      match media with
      | [] => Some data
      | q :: _ =>
          seq_num ← ParseSequenceNumber q;
          let media_pkt_idx := media_pkt_idx + u16 (seq_num - prev_seq_num) in
          protect_loop media packet_masks fec_header_size (pkt_mask_idx + Z.quot media_pkt_idx 8) (Z.rem media_pkt_idx 8) seq_num data
      end
  end.

(** GenerateFecPayloads for the generated packet [i]. *)
Definition GenerateFecPayload (media_packets : list bytes) (packet_masks : bytes) (packet_mask_size i : Z) : option bytes :=
  let pkt_mask_idx := i * packet_mask_size in
  row ← load packet_masks pkt_mask_idx (Z.to_nat packet_mask_size);
  min_packet_mask_size ← MinPacketMaskSize row packet_mask_size;
  fec_header_size ← FecHeaderSize min_packet_mask_size;
  first ← head media_packets; prev_seq_num ← ParseSequenceNumber first;
  data ← protect_loop media_packets packet_masks fec_header_size pkt_mask_idx 0 prev_seq_num [];
  check (zlen data >? 0) ;; Some data.

Fixpoint GenerateFecPayloads (n : nat) (media_packets : list bytes) (packet_masks : bytes) (packet_mask_size i : Z) : option (list bytes) :=
  match n with
  | O => Some []
  | S n =>
      data ← GenerateFecPayload media_packets packet_masks packet_mask_size i;
      rest ← GenerateFecPayloads n media_packets packet_masks packet_mask_size (i + 1);
      Some (data :: rest)
  end.

Fixpoint FinalizeFecHeaders (media_ssrc seq_num_base : Z) (packet_masks : bytes) (packet_mask_size i : Z) (generated : list bytes)
  : option (list bytes) :=
  match generated with
  | [] => Some []
  | data :: rest =>
      row ← load packet_masks (i * packet_mask_size) (Z.to_nat packet_mask_size);
      data ← FinalizeFecHeader media_ssrc seq_num_base row packet_mask_size data;
      rest ← FinalizeFecHeaders media_ssrc seq_num_base packet_masks packet_mask_size (i + 1) rest;
      Some (data :: rest)
  end.

(** The members of the class that EncodeFec works on. *)
Record Encoder := MkEncoder {
  generated_fec_packets_ : list bytes;
  packet_masks_ : bytes;
  tmp_packet_masks_ : bytes;
  packet_mask_size_ : Z
}.

(** The state, the result and the list fec_packets. *)
Definition EncodeFec (this : Encoder) (media_packets : list bytes) (protection_factor num_important_packets : Z)
    (use_unequal_protection : bool) (fec_mask_type : FecMaskType) : option (Encoder * Z * list bytes) :=
  let num_media_packets := zlen media_packets in
  check (num_media_packets >? 0) ;; check (num_important_packets >=? 0) ;; check (num_important_packets <=? num_media_packets) ;;
  if num_media_packets >? writer_MaxMediaPackets then Some (this, -1, []) else
  if existsb (fun p => zlen p <? kRtpHeaderSize) media_packets then Some (this, -1, []) else
  num_fec_packets ← NumFecPackets num_media_packets protection_factor;
  if num_fec_packets =? 0 then Some (this, 0, []) else
  check (num_fec_packets <=? zlen (generated_fec_packets_ this)) ;;
  let generated_by fecs := fecs ++ drop (Z.to_nat num_fec_packets) (generated_fec_packets_ this) in
  mask_table ← FecInternal.PickTable fec_mask_type num_media_packets;
  packet_mask_size ← FecInternal.PacketMaskSize num_media_packets;
  packet_masks ← put (packet_masks_ this) 0 (replicate (Z.to_nat (num_fec_packets * packet_mask_size)) 0);
  packet_masks ← FecInternal.GeneratePacketMasks num_media_packets num_fec_packets num_important_packets use_unequal_protection mask_table packet_masks;
  '(num_mask_bits, packet_masks, tmp_packet_masks) ←
    InsertZerosInPacketMasks media_packets num_fec_packets packet_mask_size packet_masks (tmp_packet_masks_ this);
  if num_mask_bits <? 0
  then Some (MkEncoder (generated_by (replicate (Z.to_nat num_fec_packets) [])) packet_masks tmp_packet_masks packet_mask_size, -1, []) else
  packet_mask_size ← FecInternal.PacketMaskSize num_mask_bits;
  fecs ← GenerateFecPayloads (Z.to_nat num_fec_packets) media_packets packet_masks packet_mask_size 0;
  front ← head media_packets; media_ssrc ← ParseSsrc front; seq_num_base ← ParseSequenceNumber front;
  fecs ← FinalizeFecHeaders media_ssrc seq_num_base packet_masks packet_mask_size 0 fecs;
  Some (MkEncoder (generated_by fecs) packet_masks tmp_packet_masks packet_mask_size, 0, fecs).

End Encoder.

(** ForwardErrorCorrection() *)
Definition new_encoder {H : FecHeader} (packet_masks tmp_packet_masks : bytes) : Encoder :=
  MkEncoder (replicate (Z.to_nat writer_MaxFecPackets) []) packet_masks tmp_packet_masks 0.

(** ** What one FEC packet holds *)

(** The packet that protects [ps], before its header is finished. *)
Definition fec_data (hs : Z) (ps : list bytes) : bytes :=
  match ps with
  | [] => []
  | _ => parity recovery ps ++ replicate (Z.to_nat (hs - 8)) 0 ++ parity payload ps
  end.

Lemma fec_data_some hs ps : ps <> [] -> fec_data hs ps = parity recovery ps ++ replicate (Z.to_nat (hs - 8)) 0 ++ parity payload ps.
Proof. by destruct ps. Qed.

Lemma fec_data_length hs ps : ps <> [] -> Forall wf_packet ps -> 8 <= hs -> zlen (fec_data hs ps) = hs + zlen (parity payload ps).
Proof.
  intros Hne Hw Hhs. rewrite fec_data_some by done. rewrite !length_app, length_replicate, parity_recovery_length by done. lia.
Qed.

Lemma SetSize_zeros size data : zlen data <= size -> SetSize (fun _ => 0) size data = data ++ replicate (Z.to_nat size - length data) 0.
Proof.
  intros Hl. unfold SetSize. rewrite firstn_all2 by lia. f_equal. generalize (length data), (Z.to_nat size - length data)%nat.
  intros a n. revert a. induction n as [|n IH]; intros a; [done|]. cbn. by rewrite IH.
Qed.

Section Protect.
Context (fresh : nat -> Z) (hs : Z) (Hhs : 12 <= hs).

Lemma protect_first p : wf_packet p -> hs + (zlen p - 12) <= 1500 -> protect_packet fresh hs p [] = Some (fec_data hs [p]).
Proof.
  intros Hp Hmax. assert (Hp' := Hp). destruct Hp' as [Hb Hl]. unfold protect_packet. change kRtpHeaderSize with 12.
  cbn [length]. change (Z.of_nat 0 =? 0) with true. cbv iota zeta. unfold generated_fill, IP_PACKET_SIZE.
  rewrite (proj2 (Z.leb_le _ _)) by lia.
  rewrite (proj2 (Z.gtb_lt (hs + (zlen p - 12)) (Z.of_nat 0))) by lia. rewrite SetSize_zeros by (cbn; lia). cbn [app length].
  rewrite Nat.sub_0_r. set (n := Z.to_nat (zlen p - 12)).
  replace (Z.to_nat (hs + (zlen p - 12))) with (2 + (2 + (4 + (Z.to_nat (hs - 8) + n))))%nat by lia.
  rewrite !replicate_add. rewrite (load_Some p 0 2) by lia. cbn [mbind option_bind]. change (drop (Z.to_nat 0) p) with p.
  set (f := take 2 p). assert (Hf : length f = 2%nat) by (unfold f; rewrite length_take; lia).
  set (z4 := replicate 4 0). set (zh := replicate (Z.to_nat (hs - 8)) 0). set (zn := replicate n 0).
  pose proof (put_app [] (replicate 2 0) (replicate 2 0 ++ z4 ++ zh ++ zn) f) as E. change (zlen (@nil Z)) with 0 in E. cbn [app] in E.
  rewrite E by done. clear E. cbn [mbind option_bind]. rewrite WriteBigEndian_spec. set (lb := be_bytes 2 _).
  pose proof (put_app f (replicate 2 0) (z4 ++ zh ++ zn) lb) as E. replace (zlen f) with 2 in E by lia. rewrite E by done. clear E. cbn [mbind option_bind].
  rewrite (load_Some p 4 4) by lia. cbn [mbind option_bind]. change (Z.to_nat 4) with 4%nat.
  set (t := take 4 (drop 4 p)). assert (Ht : length t = 4%nat) by (unfold t; rewrite length_take, length_drop; lia).
  pose proof (put_app (f ++ lb) z4 (zh ++ zn) t) as E. replace (zlen (f ++ lb)) with 4 in E by (rewrite length_app; unfold lb; rewrite length_be_bytes; lia).
  rewrite <- app_assoc in E. rewrite E by done. clear E. cbn [mbind option_bind].
  assert (R : fec_data hs [p] = ((f ++ lb) ++ t ++ zh) ++ payload p).
  { unfold fec_data. cbn [parity]. rewrite !xor_ext_nil_r. unfold recovery. fold f t zh. unfold lb.
    rewrite u16_id by (unfold is_u16; lia). by rewrite <- !app_assoc. }
  rewrite R. clear R. replace ((f ++ lb) ++ t ++ zh ++ zn) with (((f ++ lb) ++ t ++ zh) ++ zn) by (by rewrite <- !app_assoc).
  set (h := (f ++ lb) ++ t ++ zh). assert (Hh : zlen h = hs).
  { unfold h. rewrite !length_app. unfold lb, zh. rewrite length_be_bytes, length_replicate. lia. }
  destruct (Z.gtb_spec (zlen p - 12) 0) as [Hgt|Hle].
  - rewrite load_Some by lia. cbn [mbind option_bind]. change (Z.to_nat 12) with 12%nat. fold (payload p). fold n.
    rewrite firstn_all2 by (unfold payload; rewrite length_drop; lia). rewrite <- Hh, <- (app_nil_r zn), <- (app_nil_r (h ++ payload p)), <- app_assoc.
    apply (put_app h zn []). unfold zn. rewrite length_replicate. unfold payload. rewrite length_drop. lia.
  - replace (payload p) with (@nil Z); [unfold zn; replace n with 0%nat by lia; done|].
    symmetry. apply nil_length_inv. unfold payload. rewrite length_drop. lia.
Qed.

Lemma protect_next ps p : ps <> [] -> Forall wf_packet ps -> wf_packet p -> hs + (zlen p - 12) <= 1500 ->
  protect_packet fresh hs p (fec_data hs ps) = Some (fec_data hs (ps ++ [p])).
Proof.
  intros Hne Hps Hp Hmax. unfold protect_packet. change kRtpHeaderSize with 12. cbv zeta.
  pose proof (fec_data_length hs ps Hne Hps) as HL. assert (Hp' := Hp). destruct Hp' as [Hb Hl].
  rewrite (proj2 (Z.eqb_neq (zlen (fec_data hs ps)) 0)) by lia.
  unfold generated_fill, IP_PACKET_SIZE. rewrite (proj2 (Z.leb_le _ _)) by lia.
  assert (E : exists k, (if hs + (zlen p - 12) >? zlen (fec_data hs ps) then SetSize (fun _ => 0) (hs + (zlen p - 12)) (fec_data hs ps) else fec_data hs ps)
    = parity recovery ps ++ replicate (Z.to_nat (hs - 8)) 0 ++ (parity payload ps ++ replicate k 0) /\
    (k = length (payload p) - length (parity payload ps))%nat).
  { pose proof (payload_length p Hp) as Hpl. eexists. split; [|reflexivity]. destruct (Z.gtb_spec (hs + (zlen p - 12)) (zlen (fec_data hs ps))) as [Hgt|Hle].
    - rewrite SetSize_zeros by lia. rewrite fec_data_some by done. rewrite <- !app_assoc. do 4 f_equal. rewrite <- fec_data_some by done. lia.
    - replace (_ - _)%nat with 0%nat by lia. by rewrite app_nil_r, fec_data_some. }
  destruct E as (k & -> & Hk). rewrite XorHeaders_spec by (done || by apply parity_recovery_length). cbn [mbind option_bind].
  rewrite app_assoc. set (h := xor_ext (parity recovery ps) (recovery p) ++ replicate (Z.to_nat (hs - 8)) 0).
  assert (Hh : zlen h = hs).
  { unfold h. rewrite length_app, length_replicate, xor_ext_length, parity_recovery_length, recovery_length by (done || lia). lia. }
  pose proof (XorPayloads_spec (fun _ => 0) p h (parity payload ps ++ replicate k 0) Hp) as E. rewrite Hh in E.
  rewrite E by (lia || by right). f_equal. clear E.
  rewrite fec_data_some by (by destruct ps). rewrite !parity_app. cbn [parity]. rewrite !xor_ext_nil_r. unfold h. rewrite <- app_assoc. do 2 f_equal.
  (* the zeros that SetSize showed *)
  subst k. destruct (le_lt_dec (length (payload p)) (length (parity payload ps))) as [Hle|Hgt].
  - replace (_ - _)%nat with 0%nat by lia. by rewrite app_nil_r.
  - rewrite <- (xor_ext_zeros (parity payload ps) (length (payload p))), <- xor_ext_assoc. f_equal.
    rewrite xor_ext_comm, xor_ext_zeros, Nat.sub_diag. apply app_nil_r.
Qed.

Lemma protect_spec ps p : Forall wf_packet ps -> wf_packet p -> hs + (zlen p - 12) <= 1500 ->
  protect_packet fresh hs p (fec_data hs ps) = Some (fec_data hs (ps ++ [p])).
Proof. intros. destruct ps; [by apply protect_first|by apply protect_next]. Qed.

End Protect.

(** ** The loop over the media packets *)

(** The media packets of a block: packet [p] has the sequence number [base + o] for its offset
    [o]; offsets grow. *)
Inductive block (base : Z) : nat -> list bytes -> list nat -> Prop :=
| block_nil low : block base low [] []
| block_cons low p o media offs : (low <= o)%nat -> ParseSequenceNumber p = Some (u16 (base + Z.of_nat o)) ->
    block base (S o) media offs -> block base low (p :: media) (o :: offs).

(** The media packets whose bits are set. *)
Fixpoint selected (bits : list bool) (media : list bytes) (offs : list nat) : list bytes :=
  match media, offs with
  | p :: media, o :: offs => (if nth o bits false then [p] else []) ++ selected bits media offs
  | _, _ => []
  end.

Lemma octet_index o : Z.of_nat o / 8 = Z.of_nat (o / 8) /\ Z.of_nat o mod 8 = Z.of_nat (o mod 8) /\ o = (8 * (o / 8) + o mod 8)%nat /\ (o mod 8 < 8)%nat.
Proof.
  rewrite (Nat2Z.inj_div o 8), (Nat2Z.inj_mod o 8). splits; try done; [apply Nat.div_mod_eq|apply Nat.mod_upper_bound; lia].
Qed.

(** The mask octet the loop looks at, and the bit. *)
Lemma mask_octet row o : (o < 8 * length row)%nat -> exists b, row !! (o / 8)%nat = Some b /\
  negb (Z.land b (Z.shiftl 1 (7 - Z.of_nat o mod 8)) =? 0) = nth o (mask_bits row) false.
Proof.
  intros Ho. destruct (octet_index o) as (_ & E2 & E3 & Hr).
  assert (Hq : (o / 8 < length row)%nat) by (apply Nat.Div0.div_lt_upper_bound; lia).
  destruct (lookup_lt_is_Some_2 row _ Hq) as [b Hb]. exists b. split; [done|]. rewrite E2, land_bit by lia.
  rewrite E3 at 2. rewrite nth_lookup, mask_bits_lookup by done. by rewrite Hb.
Qed.

Lemma fec_data_snoc hs ps p l : fec_data hs (ps ++ p :: l) = fec_data hs ((ps ++ [p]) ++ l).
Proof. by rewrite <- app_assoc. Qed.

Section Loop.
Context (fresh : nat -> Z) (hs : Z) (Hhs : 12 <= hs).
Context (base : Z) (masks row : bytes) (off : Z) (Hoff : 0 <= off) (Hrow : load masks off (length row) = Some row) (Hwide : (length row <= 6)%nat).

Lemma protect_loop_spec media : forall offs low, block base low media offs -> Forall (fun o => (o < 8 * length row)%nat) offs ->
  Forall wf_packet media -> Forall (fun p => hs + (zlen p - 12) <= 1500) media ->
  forall o ps, head offs = Some o -> Forall wf_packet ps ->
  protect_loop fresh media masks hs (off + Z.of_nat o / 8) (Z.of_nat o mod 8) (u16 (base + Z.of_nat o)) (fec_data hs ps)
  = Some (fec_data hs (ps ++ selected (mask_bits row) media offs)).
Proof.
  induction media as [|p media IH]; intros offs low Hblock Ho Hwf Hmax o ps Hhead Hps; inversion Hblock as [|? ? o' ? offs' Hlow Hseq Hrest]; subst; [done|].
  cbn in Hhead. injection Hhead as ->. inversion Ho as [|? ? Ho1 Ho2]; subst. inversion Hwf as [|? ? Hw1 Hw2]; subst. inversion Hmax as [|? ? Hm1 Hm2]; subst.
  cbn [protect_loop selected]. destruct (octet_index o) as (E1 & E2 & E3 & Hr).
  destruct (mask_octet row o Ho1) as (b & Hb & Hbit). rewrite E1.
  rewrite (load_peek masks off (length row) row) by (done || apply Nat.Div0.div_lt_upper_bound; lia). rewrite Hb. cbn [mbind option_bind].
  rewrite Hbit. set (sel := if nth o (mask_bits row) false then [p] else []).
  assert (E : (if nth o (mask_bits row) false then protect_packet fresh hs p (fec_data hs ps) else Some (fec_data hs ps)) = Some (fec_data hs (ps ++ sel)) /\ Forall wf_packet (ps ++ sel)).
  { unfold sel. destruct (nth o _ _); [|by rewrite app_nil_r]. split; [by apply protect_spec|]. apply list.Forall_app. split; [done|]. constructor; [done|constructor]. }
  destruct E as [-> Hps']. cbn [mbind option_bind].
  destruct media as [|q media]; [inversion Hrest; subst; cbn; by rewrite app_nil_r|].
  inversion Hrest as [|? ? o2 ? offs2 Hlow2 Hseq2 Hrest2]; subst. rewrite Hseq2. cbn [mbind option_bind]. cbv zeta.
  inversion Ho2 as [|? ? Ho3 _]; subst.
  assert (Hd : u16 (u16 (base + Z.of_nat o2) - u16 (base + Z.of_nat o)) = Z.of_nat o2 - Z.of_nat o) by (unfold u16; dlia).
  rewrite Hd. rewrite Z.quot_div_nonneg, Z.rem_mod_nonneg by lia.
  replace (Z.of_nat (o / 8)) with (Z.of_nat o / 8) by lia.
  replace (off + Z.of_nat o / 8 + (Z.of_nat o mod 8 + (Z.of_nat o2 - Z.of_nat o)) / 8) with (off + Z.of_nat o2 / 8) by dlia.
  replace ((Z.of_nat o mod 8 + (Z.of_nat o2 - Z.of_nat o)) mod 8) with (Z.of_nat o2 mod 8) by dlia.
  rewrite (IH (o2 :: offs2) (S o)) by done. by rewrite app_assoc.
Qed.

End Loop.

(** ** Masks with holes, row by row *)

Section Rows.
Context {A : Type} (wn wo : Z).

Lemma each_row_one (F F' : A -> bytes) (f : Z -> bytes -> option bytes) (rows : list A) :
  (forall a, a ∈ rows -> zlen (F a) = wn /\ zlen (F' a) = wn /\ forall r pre post, zlen pre = r * wn ->
    f r (pre ++ F a ++ post) = Some (pre ++ F' a ++ post)) ->
  forall r pre post, zlen pre = r * wn ->
  each_row (length rows) r f (pre ++ concat (map F rows) ++ post) = Some (pre ++ concat (map F' rows) ++ post).
Proof.
  induction rows as [|a rows IH]; intros Hf r pre post Hp; [done|]. cbn [length each_row map concat].
  destruct (Hf a) as (L1 & L2 & Hs); [by left|]. rewrite <- !app_assoc, Hs by done. cbn [mbind option_bind].
  rewrite !(app_assoc pre). rewrite IH; [done| |rewrite length_app; lia]. intros b Hb. apply Hf. by right.
Qed.

Lemma each_row_two (F F' G G' : A -> bytes) (f : Z -> bytes * bytes -> option (bytes * bytes)) (rows : list A) :
  (forall a, a ∈ rows -> zlen (F a) = wn /\ zlen (F' a) = wn /\ zlen (G a) = wo /\ zlen (G' a) = wo /\
    forall r pre post pre2 post2, zlen pre = r * wn -> zlen pre2 = r * wo ->
    f r (pre ++ F a ++ post, pre2 ++ G a ++ post2) = Some (pre ++ F' a ++ post, pre2 ++ G' a ++ post2)) ->
  forall r pre post pre2 post2, zlen pre = r * wn -> zlen pre2 = r * wo ->
  each_row (length rows) r f (pre ++ concat (map F rows) ++ post, pre2 ++ concat (map G rows) ++ post2)
  = Some (pre ++ concat (map F' rows) ++ post, pre2 ++ concat (map G' rows) ++ post2).
Proof.
  induction rows as [|a rows IH]; intros Hf r pre post pre2 post2 Hp Hp2; [done|]. cbn [length each_row map concat].
  destruct (Hf a) as (L1 & L2 & L3 & L4 & Hs); [by left|]. rewrite <- !app_assoc, Hs by done. cbn [mbind option_bind].
  rewrite !(app_assoc pre), !(app_assoc pre2). rewrite IH; [done| |rewrite length_app; lia|rewrite length_app; lia].
  intros b Hb. apply Hf. by right.
Qed.

End Rows.

(** An octet of a row in its array. *)
Lemma peek_row pre row post off k : zlen pre = off -> (k < length row)%nat -> peek (pre ++ row ++ post) (off + Z.of_nat k) = row !! k.
Proof.
  intros <- Hk. rewrite peek_app_at by lia. unfold peek. rewrite (proj2 (Z.leb_le _ _)) by lia. rewrite Nat2Z.id. by apply lookup_app_l.
Qed.

Lemma put_row pre row post off k v : zlen pre = off -> (k < length row)%nat ->
  put (pre ++ row ++ post) (off + Z.of_nat k) [v] = Some (pre ++ <[k := v]> row ++ post).
Proof.
  intros <- Hk. destruct (lookup_lt_is_Some_2 row k Hk) as [x Hx].
  rewrite <- (take_drop_middle row k x Hx) at 1. rewrite insert_take_drop by done.
  replace (pre ++ (take k row ++ x :: drop (S k) row) ++ post) with ((pre ++ take k row) ++ [x] ++ drop (S k) row ++ post)
    by (cbn; by rewrite <- !app_assoc).
  replace (zlen pre + Z.of_nat k) with (zlen (pre ++ take k row)) by (rewrite length_app, length_take; lia).
  rewrite put_app by done. cbn. by rewrite <- !app_assoc.
Qed.

Lemma shift_row pre row post off k b count : zlen pre = off -> row !! k = Some b ->
  shift_octet (pre ++ row ++ post) (off + Z.of_nat k) count = Some (pre ++ <[k := u8 (Z.shiftl b count)]> row ++ post).
Proof.
  intros Ho Hb. assert (k < length row)%nat by (by eapply lookup_lt_Some). unfold shift_octet. rewrite peek_row, Hb by done. by apply put_row.
Qed.

(** The octets of a row under construction: bits come in from the right. *)
Definition octet_of (bits : list bool) : Z := fold_left (fun v b => 2 * v + Z.b2z b) bits 0.

Definition chunk (k : nat) (bits : list bool) : list bool := take 8 (drop (8 * k) bits).

Definition enc_octet (bits : list bool) (k : nat) : Z :=
  if Nat.eqb (length (chunk k bits)) 8 then octet_of (chunk k bits) else 2 * octet_of (chunk k bits).

Definition enc_row (w : nat) (bits : list bool) : bytes := map (enc_octet bits) (seq 0 w).

Lemma octet_of_snoc bits b : octet_of (bits ++ [b]) = 2 * octet_of bits + Z.b2z b.
Proof. unfold octet_of. by rewrite fold_left_app. Qed.

Lemma octet_of_range bits : 0 <= octet_of bits < 2 ^ zlen bits.
Proof.
  induction bits as [|b bits IH] using rev_ind; [done|]. rewrite octet_of_snoc, length_app, Nat2Z.inj_add, Z.pow_add_r by lia.
  change (2 ^ zlen [b]) with 2. destruct b; cbn; lia.
Qed.

Lemma octet_of_zeros bits n : octet_of (bits ++ replicate n false) = octet_of bits * 2 ^ Z.of_nat n.
Proof.
  induction n as [|n IH]; [by rewrite app_nil_r, Z.mul_1_r|]. rewrite replicate_S_end, app_assoc, octet_of_snoc, IH.
  rewrite Nat2Z.inj_succ, Z.pow_succ_r by lia. cbn [Z.b2z]. lia.
Qed.

Lemma chunk_length k bits : length (chunk k bits) = Nat.min 8 (length bits - 8 * k).
Proof. unfold chunk. by rewrite length_take, length_drop. Qed.

Lemma chunk_full k bits more : (8 * k + 8 <= length bits)%nat -> chunk k (bits ++ more) = chunk k bits.
Proof. intros. unfold chunk. rewrite drop_app_le by lia. by rewrite take_app_le by (rewrite length_drop; lia). Qed.

Lemma chunk_here k bits more : (8 * k <= length bits < 8 * k + 8)%nat ->
  chunk k (bits ++ more) = chunk k bits ++ take (8 * k + 8 - length bits) more.
Proof.
  intros. unfold chunk. rewrite drop_app_le by lia. rewrite take_app_ge by (rewrite length_drop; lia).
  rewrite (firstn_all2 (drop (8 * k) bits)) by (rewrite length_drop; lia). do 2 f_equal. rewrite length_drop. lia.
Qed.

Lemma chunk_beyond k bits : (length bits <= 8 * k)%nat -> chunk k bits = [].
Proof. intros. unfold chunk. by rewrite drop_ge by lia. Qed.

Lemma chunk_zeros k bits n : (length bits <= 8 * k)%nat -> exists m, chunk k (bits ++ replicate n false) = replicate m false.
Proof.
  intros. unfold chunk. rewrite drop_app_ge by lia. rewrite drop_replicate, take_replicate. by eexists.
Qed.

Lemma enc_octet_range bits k : is_u8 (enc_octet bits k).
Proof.
  unfold enc_octet, is_u8. pose proof (octet_of_range (chunk k bits)) as Hr. pose proof (chunk_length k bits) as Hl.
  destruct (Nat.eqb_spec (length (chunk k bits)) 8) as [E|E].
  - rewrite E in Hr. change (2 ^ Z.of_nat 8) with 256 in Hr. lia.
  - pose proof (Z.pow_le_mono_r 2 (zlen (chunk k bits)) 7 ltac:(lia)) as Hp. change (2 ^ 7) with 128 in Hp. lia.
Qed.

Lemma enc_row_length w bits : length (enc_row w bits) = w.
Proof. unfold enc_row. by rewrite length_map, length_seq. Qed.

Lemma enc_row_lookup w bits k : (k < w)%nat -> enc_row w bits !! k = Some (enc_octet bits k).
Proof. intros. unfold enc_row. rewrite list_lookup_fmap, lookup_seq_lt by done. done. Qed.

Lemma enc_row_bytes w bits : is_bytes (enc_row w bits).
Proof. unfold enc_row, is_bytes. apply Forall_map. apply Forall_forall. intros k _. apply enc_octet_range. Qed.

(** Changing one octet gives the row of other bits. *)
Lemma enc_row_insert w bits bits' q v : (q < w)%nat -> enc_octet bits' q = v ->
  (forall k, (k < w)%nat -> k <> q -> enc_octet bits' k = enc_octet bits k) -> <[q := v]> (enc_row w bits) = enc_row w bits'.
Proof.
  intros Hq <- Hk. apply list_eq. intros k. destruct (decide (k < w)%nat) as [Hlt|Hge].
  - rewrite (enc_row_lookup w bits') by done. destruct (decide (k = q)) as [->|Hne].
    + apply list_lookup_insert_eq. by rewrite enc_row_length.
    + rewrite list_lookup_insert_ne by done. rewrite enc_row_lookup by done. by rewrite Hk.
  - rewrite !lookup_ge_None_2; [done|rewrite enc_row_length; lia|rewrite length_insert, enc_row_length; lia].
Qed.

Lemma enc_octet_partial bits q : (8 * q <= length bits < 8 * q + 8)%nat ->
  enc_octet bits q = 2 * octet_of (chunk q bits) /\ 0 <= octet_of (chunk q bits) < 2 ^ Z.of_nat (length bits - 8 * q).
Proof.
  intros Hq. pose proof (chunk_length q bits) as Hl. unfold enc_octet. destruct (Nat.eqb_spec (length (chunk q bits)) 8); [lia|].
  split; [done|]. pose proof (octet_of_range (chunk q bits)) as Hr. replace (zlen (chunk q bits)) with (Z.of_nat (length bits - 8 * q)) in Hr by lia. done.
Qed.

(** CopyColumn on the new row: the next bit. *)
Lemma copy_bit bits b q : (8 * q <= length bits < 8 * q + 8)%nat ->
  let v := Z.lor (enc_octet bits q) (Z.b2z b) in
  enc_octet (bits ++ [b]) q = (if Nat.eqb (length bits - 8 * q) 7 then v else u8 (Z.shiftl v 1)).
Proof.
  intros Hq v. destruct (enc_octet_partial bits q Hq) as [E R].
  assert (Ev : v = octet_of (chunk q bits ++ [b])).
  { unfold v. rewrite E, octet_of_snoc. change 2 with (2 ^ 1) at 1. rewrite Z.mul_comm, lor_shift_add by (destruct b; cbn; lia).
    change (2 ^ 1) with 2. lia. }
  unfold enc_octet. rewrite chunk_here by done. replace (take _ [b]) with [b] by (destruct (8 * q + 8 - length bits)%nat eqn:F; [lia|cbn; by rewrite take_nil]).
  pose proof (chunk_length q bits) as Hl. rewrite length_app. cbn [length]. rewrite <- Ev.
  pose proof (octet_of_range (chunk q bits ++ [b])) as Hr. rewrite <- Ev in Hr. rewrite length_app in Hr. cbn [length] in Hr.
  destruct (Nat.eqb_spec (length bits - 8 * q) 7), (Nat.eqb_spec (length (chunk q bits) + 1) 8); try lia.
  rewrite Z.shiftl_mul_pow2 by lia. change (2 ^ 1) with 2. rewrite u8_id; [lia|]. unfold is_u8.
  pose proof (Z.pow_le_mono_r 2 (Z.of_nat (length (chunk q bits) + 1)) 7 ltac:(lia)) as Hp. change (2 ^ 7) with 128 in Hp. lia.
Qed.

Lemma copy_row w bits b q : (8 * q <= length bits < 8 * q + 8)%nat -> (q < w)%nat ->
  let v := Z.lor (enc_octet bits q) (Z.b2z b) in
  <[q := if Nat.eqb (length bits - 8 * q) 7 then v else u8 (Z.shiftl v 1)]> (enc_row w bits) = enc_row w (bits ++ [b]).
Proof.
  intros Hq Hw v. apply enc_row_insert; [done|by apply copy_bit|]. intros k Hk Hne. unfold enc_octet.
  destruct (decide (k < q)%nat) as [Hlt|Hge]; [by rewrite chunk_full by lia|].
  rewrite !chunk_beyond by (rewrite ?length_app; cbn; lia). done.
Qed.

(** InsertZeroColumns, and the shift at the end: [z] zeros. *)
Lemma zeros_row w bits z q : (8 * q <= length bits < 8 * q + 8)%nat -> (q < w)%nat -> (0 < z)%nat ->
  <[q := u8 (Z.shiftl (enc_octet bits q) (Z.min (Z.of_nat z) (7 - Z.of_nat (length bits - 8 * q))))]> (enc_row w bits)
  = enc_row w (bits ++ replicate z false).
Proof.
  intros Hq Hw Hz. destruct (enc_octet_partial bits q Hq) as [E R]. pose proof (chunk_length q bits) as Hl.
  apply enc_row_insert; [done| |].
  - rewrite E. unfold enc_octet. rewrite chunk_here by done. rewrite take_replicate. set (n := Nat.min (8 * q + 8 - length bits) z).
    rewrite octet_of_zeros, length_app, length_replicate, Hl. set (r := (length bits - 8 * q)%nat) in *.
    rewrite Z.shiftl_mul_pow2 by lia.
    assert (Hn : n = Nat.min z (8 - r)) by lia. clearbody n.
    assert (Hv : 2 * octet_of (chunk q bits) * 2 ^ Z.min (Z.of_nat z) (7 - Z.of_nat r)
      = (if Nat.eqb n (8 - r) then 1 else 2) * (octet_of (chunk q bits) * 2 ^ Z.of_nat n)).
    { destruct (Nat.eqb_spec n (8 - r)) as [En|En].
      - replace (Z.min (Z.of_nat z) (7 - Z.of_nat r)) with (7 - Z.of_nat r) by lia.
        replace (Z.of_nat n) with (Z.succ (7 - Z.of_nat r)) by lia. rewrite Z.pow_succ_r by lia. lia.
      - replace (Z.min (Z.of_nat z) (7 - Z.of_nat r)) with (Z.of_nat n) by lia. lia. }
    assert (Hb : octet_of (chunk q bits) * 2 ^ Z.of_nat n < 2 ^ (Z.of_nat r + Z.of_nat n)).
    { rewrite Z.pow_add_r by lia. apply Z.mul_lt_mono_pos_r; [apply Z.pow_pos_nonneg; lia|lia]. }
    assert (H0 : 0 <= octet_of (chunk q bits) * 2 ^ Z.of_nat n) by (apply Z.mul_nonneg_nonneg; [lia|apply Z.pow_nonneg; lia]).
    rewrite Hv. replace (Nat.min 8 r + n)%nat with (r + n)%nat by lia.
    destruct (Nat.eqb_spec n (8 - r)) as [En|En], (Nat.eqb_spec (r + n) 8); try lia.
    + rewrite Z.mul_1_l, u8_id; [done|]. replace (Z.of_nat r + Z.of_nat n) with 8 in Hb by lia. change (2 ^ 8) with 256 in Hb. split; lia.
    + rewrite u8_id; [done|]. pose proof (Z.pow_le_mono_r 2 (Z.of_nat r + Z.of_nat n) 7 ltac:(lia)) as Hp. change (2 ^ 7) with 128 in Hp. split; lia.
  - intros k Hk Hne. unfold enc_octet. destruct (decide (k < q)%nat) as [Hlt|Hge]; [by rewrite chunk_full by lia|].
    destruct (chunk_zeros k bits z ltac:(lia)) as (m & ->). rewrite (chunk_beyond k bits) by lia. cbn [length].
    pose proof (octet_of_zeros [] m) as Ez. cbn [app] in Ez. change (octet_of []) with 0 in *. rewrite Z.mul_0_l in Ez. rewrite Ez.
    by destruct (Nat.eqb _ _).
Qed.

(** The bits of a finished row. *)
Lemma enc_octet_shift bits k : enc_octet bits (S k) = enc_octet (drop 8 bits) k.
Proof. unfold enc_octet, chunk. rewrite drop_drop. by replace (8 * S k)%nat with (8 + 8 * k)%nat by lia. Qed.

Lemma enc_row_S w bits : enc_row (S w) bits = enc_octet bits 0 :: enc_row w (drop 8 bits).
Proof.
  unfold enc_row. cbn [seq map]. f_equal. rewrite <- seq_shift, map_map. apply map_ext. intros k. apply enc_octet_shift.
Qed.

Lemma octet_bits_of bits : length bits = 8%nat -> octet_bits (octet_of bits) = bits.
Proof. intros. do 8 (destruct bits as [|[] bits]; [done| |]); destruct bits; done. Qed.

Lemma mask_bits_enc w bits : length bits = (8 * w)%nat -> mask_bits (enc_row w bits) = bits.
Proof.
  revert bits. induction w as [|w IH]; intros bits Hl; [by destruct bits|]. rewrite enc_row_S. cbn [mask_bits flat_map].
  unfold mask_bits in IH. rewrite IH by (rewrite length_drop; lia). unfold enc_octet, chunk. rewrite Nat.mul_0_r, drop_0.
  rewrite length_take. replace (Nat.min 8 (length bits)) with 8%nat by lia. cbn [Nat.eqb].
  rewrite octet_bits_of by (rewrite length_take; lia). apply take_drop.
Qed.

(** The old row after [i] columns went out of it. *)
Definition shifted_octet (i : nat) (k : nat) (b : Z) : Z := u8 (Z.shiftl b (Z.of_nat (Nat.min 8 (i - 8 * k)))).

Definition shifted_row (i : nat) (row : bytes) : bytes := imap (shifted_octet i) row.

Lemma shifted_row_lookup i row k : shifted_row i row !! k = shifted_octet i k <$> row !! k.
Proof. apply list_lookup_imap. Qed.

Lemma shifted_row_0 row : is_bytes row -> shifted_row 0 row = row.
Proof.
  intros Hb. apply list_eq. intros k. rewrite shifted_row_lookup. destruct (row !! k) as [b|] eqn:E; [|done]. cbn. f_equal.
  unfold shifted_octet. cbn. rewrite u8_id; [done|]. by eapply (Forall_lookup_1 is_u8 row).
Qed.

Lemma shifted_row_S i row q b : row !! q = Some b -> (8 * q <= i < 8 * q + 8)%nat -> is_u8 b ->
  <[q := u8 (Z.shiftl (shifted_octet i q b) 1)]> (shifted_row i row) = shifted_row (S i) row.
Proof.
  intros Hb Hi Hu. assert (Hq : (q < length row)%nat) by (by eapply lookup_lt_Some). apply list_eq. intros k. rewrite (shifted_row_lookup (S i)).
  destruct (decide (k = q)) as [->|Hne].
  - rewrite list_lookup_insert_eq by (unfold shifted_row; by rewrite length_imap). rewrite Hb. cbn. f_equal. unfold shifted_octet.
    replace (Nat.min 8 (S i - 8 * q)) with (S (Nat.min 8 (i - 8 * q))) by lia. rewrite !Z.shiftl_mul_pow2 by lia.
    rewrite Nat2Z.inj_succ, Z.pow_succ_r by lia. unfold u8. rewrite Z.mul_mod_idemp_l by lia. f_equal. lia.
  - rewrite list_lookup_insert_ne by done. rewrite shifted_row_lookup. destruct (row !! k) as [c|]; [|done]. cbn. f_equal. unfold shifted_octet.
    destruct (decide (k < q)%nat) as [Hlt|Hge].
    + by replace (Nat.min 8 (S i - 8 * k)) with (Nat.min 8 (i - 8 * k)) by lia.
    + by replace (S i - 8 * k)%nat with (i - 8 * k)%nat by lia.
Qed.

(** The column that comes out. *)
Lemma column_bit r b : (r < 8)%nat -> is_u8 b ->
  Z.shiftr (Z.land (u8 (Z.shiftl b (Z.of_nat r))) 0x80) 7 = Z.b2z (Z.testbit b (7 - Z.of_nat r)).
Proof.
  intros Hr Hb. pose proof (octet_all (fun b => forallb (fun r =>
    Z.shiftr (Z.land (u8 (Z.shiftl b (Z.of_nat r))) 0x80) 7 =? Z.b2z (Z.testbit b (7 - Z.of_nat r))) (seq 0 8))
    ltac:(vm_compute; reflexivity) b Hb) as C. cbv beta in C. rewrite forallb_forall in C. apply Z.eqb_eq, C, in_seq. lia.
Qed.

(** ** The columns of all rows *)

Lemma shifted_row_length i row : length (shifted_row i row) = length row.
Proof. apply length_imap. Qed.

Section Columns.
Context (rows : list bytes) (wn wo : nat) (Hrows : Forall (fun row => is_bytes row /\ length row = wo) rows).

(** The new array, when row [O] has the bits [bits O]; and the old one, [i] columns on. *)
Definition new_rows (bits : bytes -> list bool) : bytes := concat (map (fun O => enc_row wn (bits O)) rows).
Definition old_rows (i : nat) : bytes := concat (map (shifted_row i) rows).

Definition old_bit (i : nat) (row : bytes) : bool := nth i (mask_bits row) false.

Lemma row_in O : O ∈ rows -> is_bytes O /\ length O = wo.
Proof. intros Hin. rewrite Forall_forall in Hrows. apply Hrows. by apply list_elem_of_In. Qed.

Lemma CopyColumn_spec bits L i postN postO : (forall O, O ∈ rows -> length (bits O) = L) -> (L < 8 * wn)%nat -> (i < 8 * wo)%nat ->
  CopyColumn (new_rows bits ++ postN) (Z.of_nat wn) (old_rows i ++ postO) (Z.of_nat wo) (zlen rows) (Z.of_nat L) (Z.of_nat i)
  = Some (new_rows (fun O => bits O ++ [old_bit i O]) ++ postN, old_rows (S i) ++ postO).
Proof.
  intros HL Hn Ho. unfold CopyColumn. rewrite check_then by (apply Z.ltb_lt; lia). rewrite Nat2Z.id.
  destruct (octet_index L) as (L1 & L2 & L3 & L4). destruct (octet_index i) as (I1 & I2 & I3 & I4).
  rewrite !Z.quot_div_nonneg, Z.rem_mod_nonneg by lia. rewrite L1, L2, I1.
  assert (Hq : (L / 8 < wn)%nat) by lia. assert (Hq' : (i / 8 < wo)%nat) by lia.
  apply (each_row_two (Z.of_nat wn) (Z.of_nat wo) (fun O => enc_row wn (bits O)) (fun O => enc_row wn (bits O ++ [old_bit i O])) (shifted_row i) (shifted_row (S i)))
    with (pre := []) (pre2 := []); [|done|done].
  intros O Hin. destruct (row_in O Hin) as [HOb HOl]. specialize (HL O Hin).
  rewrite !enc_row_length, !shifted_row_length. splits; try lia. intros r pre post pre2 post2 Hp Hp2.
  destruct (lookup_lt_is_Some_2 O (i / 8)) as [b Hb]; [lia|]. assert (Hub : is_u8 b) by (by eapply (Forall_lookup_1 is_u8 O)).
  rewrite (peek_row pre2 (shifted_row i O)) by (done || (rewrite shifted_row_length; lia)). rewrite shifted_row_lookup, Hb. cbn [fmap option_fmap option_map mbind option_bind].
  rewrite (peek_row pre (enc_row wn (bits O))) by (done || (rewrite enc_row_length; lia)). rewrite enc_row_lookup by lia. cbn [mbind option_bind].
  rewrite put_row by (done || (rewrite enc_row_length; lia)). cbn [mbind option_bind].
  assert (Hbit : Z.shiftr (Z.land (shifted_octet i (i / 8) b) 128) 7 = Z.b2z (old_bit i O)).
  { unfold shifted_octet. replace (Nat.min 8 (i - 8 * (i / 8))) with (i mod 8)%nat by lia. rewrite column_bit by done. f_equal. unfold old_bit.
    rewrite I3 at 2. by rewrite nth_lookup, mask_bits_lookup, Hb. }
  rewrite Hbit. set (v := Z.lor _ _).
  assert (Hr : (L mod 8 = length (bits O) - 8 * (L / 8))%nat) by lia.
  assert (E : (if negb (Z.of_nat (L mod 8) =? 7) then shift_octet (pre ++ <[(L / 8)%nat := v]> (enc_row wn (bits O)) ++ post) (r * Z.of_nat wn + Z.of_nat (L / 8)) 1
     else Some (pre ++ <[(L / 8)%nat := v]> (enc_row wn (bits O)) ++ post)) = Some (pre ++ enc_row wn (bits O ++ [old_bit i O]) ++ post)).
  { pose proof (copy_row wn (bits O) (old_bit i O) (L / 8) ltac:(lia) Hq) as HC. cbv zeta in HC. fold v in HC. rewrite <- Hr in HC.
    destruct (Nat.eqb_spec (L mod 8) 7) as [E7|E7].
    - rewrite E7. cbn [Z.of_nat Z.eqb]. change (Z.of_nat 7 =? 7) with true. cbn [negb]. by rewrite HC.
    - rewrite (proj2 (Z.eqb_neq _ _)) by lia. cbn [negb]. rewrite (shift_row _ _ _ _ _ v) by (done || apply list_lookup_insert_eq; rewrite enc_row_length; lia).
      by rewrite list_insert_insert_eq, HC. }
  rewrite E. cbn [mbind option_bind]. clear E.
  rewrite (shift_row _ _ _ _ _ (shifted_octet i (i / 8) b)) by (done || by rewrite shifted_row_lookup, Hb). cbn [mbind option_bind].
  by rewrite shifted_row_S by (done || lia).
Qed.

Lemma InsertZeroColumns_spec bits L z postN : (forall O, O ∈ rows -> length (bits O) = L) -> (L < 8 * wn)%nat -> (0 < z)%nat ->
  InsertZeroColumns (Z.of_nat z) (new_rows bits ++ postN) (Z.of_nat wn) (zlen rows) (Z.of_nat L)
  = Some (new_rows (fun O => bits O ++ replicate z false) ++ postN).
Proof.
  intros HL Hn Hz. unfold InsertZeroColumns. rewrite Nat2Z.id. destruct (octet_index L) as (L1 & L2 & L3 & L4).
  rewrite Z.quot_div_nonneg, Z.rem_mod_nonneg by lia. rewrite L1, L2. assert (Hq : (L / 8 < wn)%nat) by lia.
  apply (each_row_one (Z.of_nat wn) (fun O => enc_row wn (bits O)) (fun O => enc_row wn (bits O ++ replicate z false))) with (pre := []); [|done].
  intros O Hin. specialize (HL O Hin). rewrite !enc_row_length. splits; try done. intros r pre post Hp.
  rewrite (shift_row _ _ _ _ _ (enc_octet (bits O) (L / 8))) by (done || by rewrite enc_row_lookup by lia). do 3 f_equal.
  rewrite <- (zeros_row wn (bits O) z (L / 8)) by lia. do 4 f_equal. lia.
Qed.

End Columns.

(** Bits at the offsets of the media packets, none between. *)
Fixpoint spread (bits : list bool) (low : nat) (offs : list nat) {struct offs} : list bool :=
  match offs with
  | [] => []
  | o :: offs =>
      match bits with
      | [] => []
      | b :: bits => replicate (o - low) false ++ b :: spread bits (S o) offs
      end
  end.

Lemma new_rows_ext rows wn f g : (forall O, O ∈ rows -> f O = g O) -> new_rows rows wn f = new_rows rows wn g.
Proof. intros Hfg. unfold new_rows. f_equal. apply map_ext_in. intros O Hin. by rewrite Hfg by (by apply list_elem_of_In). Qed.

Section Insert.
Context {H : FecHeader} {L : FecHeaderLaws}.
Context (rows : list bytes) (wn wo : nat) (Hrows : Forall (fun row => is_bytes row /\ length row = wo) rows) (base : Z).

Lemma insert_columns_spec media : forall offs low bits i prev postN postO, block base low media offs ->
  (forall o, o ∈ offs -> (o < 48 /\ o < 8 * wn)%nat) -> (forall O, O ∈ rows -> length (bits O) = low) -> (i + length media <= 8 * wo)%nat -> (low <= 48)%nat ->
  prev = u16 (base + Z.of_nat low - 1) -> 
  exists top, (low <= top)%nat /\ (forall o, o ∈ offs -> (o < top)%nat) /\ ((top = low /\ offs = []) \/ (pred top) ∈ offs) /\
  (forall O, O ∈ rows -> length (spread (drop i (mask_bits O)) low offs) = (top - low)%nat) /\
  insert_columns media prev (zlen rows) (Z.of_nat wn) (Z.of_nat wo) (Z.of_nat low) (Z.of_nat i) (new_rows rows wn bits ++ postN) (old_rows rows i ++ postO)
  = Some (Z.of_nat top, new_rows rows wn (fun O => bits O ++ spread (drop i (mask_bits O)) low offs) ++ postN, old_rows rows (i + length media) ++ postO).
Proof.
  induction media as [|p media IH]; intros offs low bits i prev postN postO Hblock Ho Hb Hi Hlow Hprev;
    inversion Hblock as [|? ? o ? offs' Hlo Hseq Hrest]; subst.
  - exists low. splits; [lia|intros o Hin; by apply elem_of_nil in Hin|by left|intros; cbn [spread length]; lia|]. cbn [insert_columns]. rewrite Nat.add_0_r. f_equal. f_equal. f_equal. f_equal.
    apply new_rows_ext. intros. by rewrite app_nil_r.
  - destruct (Ho o) as [Ho1 Ho2]; [by left|]. cbn [length] in Hi.
    destruct (IH offs' (S o) (fun O => (bits O ++ replicate (o - low) false) ++ [old_bit i O]) (S i) (u16 (base + Z.of_nat o)) postN postO)
      as (top & T1 & T2 & T3 & T4 & T5); [done|intros o' Hin; apply Ho; by right| |lia|lia|f_equal; lia|].
    { intros O Hin. rewrite !length_app, length_replicate, (Hb O Hin). cbn. lia. }
    assert (Hspread : forall O, O ∈ rows -> spread (drop i (mask_bits O)) low (o :: offs') = (replicate (o - low) false ++ [old_bit i O]) ++ spread (drop (S i) (mask_bits O)) (S o) offs').
    { intros O Hin. destruct (row_in rows wo Hrows O Hin) as [_ HOl]. unfold old_bit.
      destruct (lookup_lt_is_Some_2 (mask_bits O) i) as [b Eb]; [rewrite mask_bits_length; lia|].
      rewrite (drop_S _ _ _ Eb). cbn [spread]. rewrite nth_lookup, Eb. cbn. by rewrite <- app_assoc. }
    exists top. splits; [lia| | | |].
    + intros o' Hin. apply elem_of_cons in Hin as [-> | Hin]; [lia|by apply T2].
    + right. destruct T3 as [[-> ->]|T3]; [by left|by right].
    + intros O Hin. rewrite Hspread by done. rewrite !length_app, length_replicate, T4 by done. cbn. lia.
    + cbn [insert_columns]. destruct law_limits as (HW & _). rewrite HW.
      rewrite (proj2 (Z.eqb_neq _ _)) by lia. rewrite Hseq. cbn [mbind option_bind]. cbv zeta.
      assert (Hz : u16 (u16 (base + Z.of_nat o) - u16 (base + Z.of_nat low - 1) - 1) = Z.of_nat (o - low)) by (unfold u16; rewrite Nat2Z.inj_sub by lia; dlia).
      rewrite Hz.
      assert (E : (if Z.of_nat (o - low) >? 0 then InsertZeroColumns (Z.of_nat (o - low)) (new_rows rows wn bits ++ postN) (Z.of_nat wn) (zlen rows) (Z.of_nat low)
        else Some (new_rows rows wn bits ++ postN)) = Some (new_rows rows wn (fun O => bits O ++ replicate (o - low) false) ++ postN)).
      { destruct (Z.gtb_spec (Z.of_nat (o - low)) 0) as [Hgt|Hle].
        - apply (InsertZeroColumns_spec rows wn); [done|lia|lia].
        - do 2 f_equal. apply new_rows_ext. intros. replace (o - low)%nat with 0%nat by lia. by rewrite app_nil_r. }
      rewrite E. cbn [mbind option_bind]. clear E.
      replace (Z.of_nat low + Z.of_nat (o - low)) with (Z.of_nat o) by lia.
      rewrite (CopyColumn_spec rows wn wo Hrows _ o) by (try lia; intros O Hin; rewrite length_app, length_replicate, (Hb O Hin); lia).
      cbn [mbind option_bind]. replace (Z.of_nat o + 1) with (Z.of_nat (S o)) by lia. replace (Z.of_nat i + 1) with (Z.of_nat (S i)) by lia.
      rewrite T5. replace (S i + length media)%nat with (i + length (p :: media))%nat by (cbn; lia). do 4 f_equal.
      apply new_rows_ext. intros O Hin. rewrite Hspread by done. by rewrite <- !app_assoc.
Qed.

End Insert.

(** ** InsertZerosInPacketMasks *)

Lemma block_length base low media offs : block base low media offs -> length offs = length media.
Proof. induction 1; cbn; lia. Qed.

Lemma block_low base low media offs : block base low media offs -> Forall (fun o => (low <= o)%nat) offs.
Proof.
  induction 1 as [|low p o media offs Hlo _ _ IH]; [constructor|]. constructor; [done|]. eapply List.Forall_impl; [|exact IH]. cbn. intros. lia.
Qed.

Lemma block_last base low media offs o : block base low media offs -> list.last offs = Some o -> (low + length media <= S o)%nat.
Proof.
  induction 1 as [|low p o' media offs Hlo _ Hrest IH]; [done|]. intros Hlast. destruct offs as [|o2 offs].
  - inversion Hrest; subst. cbn in *. injection Hlast as ->. lia.
  - cbn [length]. rewrite list.last_cons_cons in Hlast. specialize (IH Hlast). lia.
Qed.

Lemma block_le_last base low media offs l o : block base low media offs -> list.last offs = Some l -> o ∈ offs -> (o <= l)%nat.
Proof.
  induction 1 as [|low p o' media offs Hlo _ Hrest IH]; [done|]. intros Hlast Hin. destruct offs as [|o2 offs].
  - cbn in Hlast. injection Hlast as ->. apply elem_of_cons in Hin as [-> | Hin]; [lia|by apply elem_of_nil in Hin].
  - rewrite list.last_cons_cons in Hlast. apply elem_of_cons in Hin as [-> | Hin]; [|by apply IH].
    pose proof (block_last _ _ _ _ _ Hrest Hlast). lia.
Qed.

Lemma block_last_packet base low media offs p : block base low media offs -> list.last media = Some p ->
  exists o, list.last offs = Some o /\ ParseSequenceNumber p = Some (u16 (base + Z.of_nat o)).
Proof.
  induction 1 as [|low p' o' media offs Hlo Hs Hrest IH]; [done|]. intros Hlast. destruct media as [|p2 media].
  - inversion Hrest; subst. cbn in *. injection Hlast as ->. by exists o'.
  - rewrite list.last_cons_cons in Hlast. destruct (IH Hlast) as (o & Ho & Hp). exists o. split; [|done].
    destruct offs as [|o2 offs]; [inversion Hrest|]. by rewrite list.last_cons_cons.
Qed.

Lemma block_contiguous base low media offs : block base low media offs ->
  (forall o, list.last offs = Some o -> (S o <= low + length media)%nat) -> offs = seq low (length media).
Proof.
  induction 1 as [|low p o media offs Hlo Hs Hrest IH]; intros Hl; [done|]. destruct offs as [|o2 offs].
  - inversion Hrest; subst. cbn in *. specialize (Hl o eq_refl). f_equal. lia.
  - pose proof (block_length _ _ _ _ Hrest) as HL. destruct media as [|p2 media]; [done|].
    assert (Hlast : exists l, list.last (o2 :: offs) = Some l) by (destruct (list.last (o2 :: offs)) eqn:E; [by eexists|by apply list.last_None in E]).
    destruct Hlast as [l Hlast]. pose proof (block_last _ _ _ _ _ Hrest Hlast) as Hge.
    assert (Hle : (S l <= low + length (p :: p2 :: media))%nat) by (apply Hl; by rewrite list.last_cons_cons).
    cbn [length] in *. assert (o = low) as -> by lia. cbn [seq]. f_equal. apply IH. intros l' Hl'. rewrite Hlast in Hl'. injection Hl' as <-. cbn. lia.
Qed.

Lemma spread_seq bits low : forall n, (n <= length bits)%nat -> spread bits low (seq low n) = take n bits.
Proof.
  intros n. revert bits low. induction n as [|n IH]; intros bits low Hn; [done|]. destruct bits as [|b bits]; [cbn in Hn; lia|].
  cbn [seq spread take]. rewrite Nat.sub_diag. cbn. f_equal. apply IH. cbn in Hn. lia.
Qed.

Lemma enc_row_nil w : enc_row w [] = replicate w 0.
Proof. induction w as [|w IH]; [done|]. rewrite enc_row_S. cbn [drop]. by rewrite IH. Qed.

Lemma enc_row_pad w bits n : (length bits mod 8 = 0)%nat -> enc_row w (bits ++ replicate n false) = enc_row w bits.
Proof.
  intros Hm. unfold enc_row. apply map_ext. intros k. unfold enc_octet.
  destruct (decide (8 * k + 8 <= length bits)%nat) as [Hlt|Hge]; [by rewrite chunk_full|].
  destruct (chunk_zeros k bits n) as (m & ->); [pose proof (Nat.div_mod_eq (length bits) 8); lia|].
  rewrite (chunk_beyond k bits) by (pose proof (Nat.div_mod_eq (length bits) 8); lia). cbn [length].
  pose proof (octet_of_zeros [] m) as Ez. cbn [app] in Ez. change (octet_of []) with 0 in *. rewrite Z.mul_0_l in Ez. rewrite Ez. by destruct (Nat.eqb _ _).
Qed.

Lemma concat_width (w : nat) (f : bytes -> bytes) rows : (forall O, O ∈ rows -> length (f O) = w) -> length (concat (map f rows)) = (length rows * w)%nat.
Proof.
  induction rows as [|O rows IH]; intros Hf; [done|]. cbn. rewrite length_app, (Hf O) by (by left).
  rewrite IH by (intros; apply Hf; by right). lia.
Qed.

Lemma old_rows_0 rows wo : Forall (fun row => is_bytes row /\ length row = wo) rows -> old_rows rows 0 = concat rows.
Proof. induction 1 as [|O l [HO _] _ IH]; [done|]. unfold old_rows in *. cbn. by rewrite IH, shifted_row_0. Qed.

(** The row the receiver gets: the bits of the media packets at their sequence numbers. *)
Definition adapted (offs : list nat) (n wn : nat) (row row' : bytes) : Prop :=
  mask_bits row' = spread (mask_bits row) 0 offs ++ replicate (8 * wn - n) false.

Section Zeros.
Context {H : FecHeader} {L : FecHeaderLaws}.
Context (rows : list bytes) (wo : nat) (Hrows : Forall (fun row => is_bytes row /\ length row = wo) rows) (base : Z) (media : list bytes) (offs : list nat).
Context (Hblock : block base 0 media offs) (Hfirst : head offs = Some 0%nat).
Context (Hspan : forall o, o ∈ offs -> (o < 48)%nat).
Context (Hwo : FecInternal.PacketMaskSize (zlen media) = Some (Z.of_nat wo)).
Context (Hinside : forall O, O ∈ rows -> forall j, protects O j -> (j < length media)%nat).

Lemma mask_width m w : FecInternal.PacketMaskSize (Z.of_nat m) = Some w -> (w = 2 \/ w = 6) /\ Z.of_nat m <= 8 * w.
Proof.
  unfold FecInternal.PacketMaskSize, check, kUlpfecPacketMaskSizeLBitSet, kUlpfecPacketMaskSizeLBitClear.
  destruct (Z.leb_spec (Z.of_nat m) (8 * 6)); [|done]. cbn [mbind option_bind]. destruct (Z.gtb_spec (Z.of_nat m) (8 * 2)); intros [= <-]; lia.
Qed.

Lemma no_holes : offs = seq 0 (length media) -> Forall2 (adapted offs (length media) wo) rows rows.
Proof.
  intros Eo. destruct (mask_width _ _ Hwo) as [_ Hm]. apply Forall2_same_length_lookup. split; [done|]. intros i O O' E1 E2.
  rewrite E1 in E2. injection E2 as <-. assert (Hin : O ∈ rows) by (by eapply list_elem_of_lookup_2). destruct (row_in rows wo Hrows O Hin) as [_ HOl].
  unfold adapted. rewrite Eo, spread_seq by (rewrite mask_bits_length; lia). rewrite <- (take_drop (length media) (mask_bits O)) at 1. f_equal.
  apply list_eq. intros j. rewrite lookup_drop. destruct (decide (j < 8 * wo - length media)%nat) as [Hlt|Hge].
  - rewrite lookup_replicate_2 by done. destruct (mask_bits O !! (length media + j)%nat) as [[]|] eqn:E.
    + specialize (Hinside O Hin _ E). lia.
    + done.
    + apply lookup_ge_None_1 in E. rewrite mask_bits_length in E. lia.
  - rewrite lookup_ge_None_2, lookup_ge_None_2; [done|rewrite length_replicate; lia|rewrite mask_bits_length; lia].
Qed.

Lemma fill_zeros wn bits top n post : (forall O, O ∈ rows -> length (bits O) = top) -> (top <= 8 * wn)%nat -> n = (8 * wn - top)%nat ->
  (if negb (Z.rem (Z.of_nat top) 8 =? 0) then
     each_row (length rows) 0 (fun row mask => shift_octet mask (row * Z.of_nat wn + Z.quot (Z.of_nat top) 8) (7 - Z.rem (Z.of_nat top) 8))
       (new_rows rows wn bits ++ post)
   else Some (new_rows rows wn bits ++ post)) = Some (new_rows rows wn (fun O => bits O ++ replicate n false) ++ post).
Proof.
  intros Hb Ht ->. rewrite Z.rem_mod_nonneg by lia. destruct (Z.eqb_spec (Z.of_nat top mod 8) 0) as [E|E]; cbn [negb].
  - do 2 f_equal. unfold new_rows. f_equal. apply map_ext_in. intros O Hin. rewrite enc_row_pad; [done|].
    rewrite (Hb O) by (by apply list_elem_of_In). apply Nat2Z.inj. rewrite Nat2Z.inj_mod. exact E.
  - assert (Hlt : (top < 8 * wn)%nat) by dlia.
    pose proof (InsertZeroColumns_spec rows wn bits top (8 * wn - top) post Hb Hlt ltac:(lia)) as HZ. unfold InsertZeroColumns in HZ.
    rewrite Z.rem_mod_nonneg, Nat2Z.id in HZ by lia. rewrite Z.min_r in HZ by dlia. exact HZ.
Qed.

Lemma InsertZeros_spec tmp post : (length rows <= 48)%nat -> media <> [] -> 288 <= zlen tmp -> 288 <= zlen (concat rows ++ post) ->
  exists n wn rows' post' tmp', (length media <= n)%nat /\ (forall o, o ∈ offs -> (o < n)%nat) /\ (pred n ∈ offs) /\
    FecInternal.PacketMaskSize (Z.of_nat n) = Some (Z.of_nat wn) /\
    InsertZerosInPacketMasks media (zlen rows) (Z.of_nat wo) (concat rows ++ post) tmp = Some (Z.of_nat n, concat rows' ++ post', tmp') /\
    Forall (fun row => is_bytes row /\ length row = wn) rows' /\ Forall2 (adapted offs n wn) rows rows' /\
    zlen (concat rows' ++ post') = zlen (concat rows ++ post) /\ zlen tmp' = zlen tmp.
Proof.
  intros HN Hne Htmp Hmasks. destruct (mask_width _ _ Hwo) as [Hw Hm].
  assert (Hlp : exists p, list.last media = Some p) by (destruct (list.last media) eqn:E; [by eexists|by apply list.last_None in E]). destruct Hlp as [pl Hpl].
  destruct (block_last_packet _ _ _ _ _ Hblock Hpl) as (ol & Hol & Hsl). pose proof (block_last _ _ _ _ _ Hblock Hol) as Hge.
  assert (Hin_ol : ol ∈ offs) by (apply list.last_Some in Hol as (l & ->); apply elem_of_app; right; by left).
  pose proof (Hspan ol Hin_ol) as H48.
  assert (Hcontig : (S ol <= length media)%nat -> exists n wn rows' post' tmp', (length media <= n)%nat /\ (forall o, o ∈ offs -> (o < n)%nat) /\ (pred n ∈ offs) /\
    FecInternal.PacketMaskSize (Z.of_nat n) = Some (Z.of_nat wn) /\
    Some (zlen media, concat rows ++ post, tmp) = Some (Z.of_nat n, concat rows' ++ post', tmp') /\
    Forall (fun row => is_bytes row /\ length row = wn) rows' /\ Forall2 (adapted offs n wn) rows rows' /\
    zlen (concat rows' ++ post') = zlen (concat rows ++ post) /\ zlen tmp' = zlen tmp).
  { intros Hle. assert (Eo : offs = seq 0 (length media)) by (apply (block_contiguous base); [done|]; intros o Ho; rewrite Hol in Ho; injection Ho as <-; lia).
    exists (length media), wo, rows, post, tmp. splits; try done.
    - intros o Hin. rewrite Eo in Hin. apply elem_of_seq in Hin. lia.
    - rewrite Eo. apply elem_of_seq. destruct media; [done|cbn; lia].
    - by apply no_holes. }
  unfold InsertZerosInPacketMasks. destruct (Z.leb_spec (zlen media) 1) as [H1|H1].
  { apply Hcontig. assert (length media = 1)%nat as E1 by (destruct media; [done|cbn in *; lia]).
    pose proof (block_length _ _ _ _ Hblock) as HL. destruct offs as [|o0 [|? ?]]; cbn in HL, Hfirst, Hol; try lia.
    injection Hfirst as ->. injection Hol as <-. lia. }
  rewrite Hpl. cbn [mbind option_bind]. rewrite Hsl. cbn [mbind option_bind].
  destruct media as [|p0 media'] eqn:Emedia; [done|]. inversion Hblock as [|? ? o0 ? offs' _ Hs0 Hrest]; subst. assert (o0 = 0%nat) as -> by (cbn in Hfirst; congruence).
  cbn [head mbind option_bind]. rewrite Hs0. cbn [mbind option_bind]. cbv zeta.
  assert (Hd : u16 (u16 (base + Z.of_nat ol) - u16 (base + Z.of_nat 0)) = Z.of_nat ol) by (unfold u16; dlia). rewrite Hd. clear Hd.
  set (M := zlen (p0 :: media')) in *.
  assert (Hu : u64 (Z.of_nat ol - M + 1) = Z.of_nat ol - M + 1) by (apply u64_id; unfold is_u64; lia). rewrite Hu. clear Hu.
  destruct (Z.eqb_spec (Z.of_nat ol - M + 1) 0) as [E0|E0]; [apply Hcontig; lia|]. clear Hcontig.
  assert (Hu : u64 (Z.of_nat ol - M + 1 + M) = Z.of_nat (S ol)) by (rewrite u64_id; [lia|unfold is_u64; lia]). rewrite Hu. clear Hu.
  destruct law_limits as (HW & _). rewrite HW. destruct (Z.gtb_spec (Z.of_nat (S ol)) 48); [lia|].
  destruct (FecInternal.PacketMaskSize (Z.of_nat (S ol))) as [wnz|] eqn:Ewn.
  2: { rewrite PacketMaskSize_spec in Ewn by lia. done. }
  cbn [mbind option_bind].
  assert (Hwn : exists wn, wnz = Z.of_nat wn) by (exists (Z.to_nat wnz); destruct (mask_width _ _ Ewn) as [Hw' _]; lia). destruct Hwn as [wn ->].
  destruct (mask_width _ _ Ewn) as [Hw' Hm'].
  rewrite <- Nat2Z.inj_mul, Nat2Z.id. destruct (le_lt_dec (length rows * wn) (length tmp)) as [Hfit|]; [|nia].
  set (zs := replicate (length rows * wn) 0). set (rest := drop (length rows * wn) tmp).
  assert (Ez : zs = new_rows rows wn (fun _ => [])).
  { unfold zs, new_rows. clear. induction rows as [|O l IH]; [done|]. cbn [length map concat]. rewrite <- IH, enc_row_nil, <- replicate_add. f_equal. }
  assert (Hput : put tmp 0 zs = Some (zs ++ rest)).
  { rewrite <- (take_drop (length rows * wn) tmp) at 1. apply (put_app []). unfold zs. rewrite length_replicate, length_take. lia. }
  rewrite Hput. cbn [mbind option_bind]. rewrite Ez.
  assert (Eold : concat rows = old_rows rows 0).
  { symmetry. apply (old_rows_0 rows wo Hrows). }
  rewrite Eold. pose proof (CopyColumn_spec rows wn wo Hrows (fun _ => []) 0 0 rest post ltac:(done) ltac:(lia) ltac:(lia)) as HC.
  change (Z.of_nat 0) with 0 in HC. rewrite HC. clear HC. cbn [mbind option_bind tail].
  destruct (insert_columns_spec rows wn wo Hrows base media' offs' 1 (fun O => [] ++ [old_bit 0 O]) 1 (u16 (base + 0)) rest post)
    as (top & T1 & T2 & T3 & T4 & T5); [exact Hrest| |done|unfold M in Hm; cbn [length] in Hm; lia|lia|f_equal; lia|].
  { intros o Hin. split; [apply Hspan; by right|]. pose proof (block_le_last _ _ _ _ _ o Hblock Hol (list_elem_of_further _ _ _ Hin)). lia. }
  change (Z.of_nat 1) with 1 in T5. change (Z.of_nat 0) with 0. rewrite T5. cbn [mbind option_bind]. clear T5.
  assert (Hol' : ol ∈ offs').
  { apply elem_of_cons in Hin_ol as [-> | ?]; [|done]. cbn [length] in Hge. unfold M in *. cbn [length] in *. lia. }
  assert (Etop : top = S ol).
  { specialize (T2 ol Hol'). destruct T3 as [[-> ->]|T3]; [by apply elem_of_nil in Hol'|].
    pose proof (block_le_last _ _ _ _ _ (pred top) Hblock Hol (list_elem_of_further _ _ _ T3)). lia. }
  subst top. set (bits := fun O => _ ++ spread (drop 1 (mask_bits O)) 1 offs').
  assert (Hbits : forall O, O ∈ rows -> bits O = spread (mask_bits O) 0 (0%nat :: offs') /\ length (bits O) = S ol).
  { intros O Hin. unfold bits. rewrite length_app, T4 by done. cbn [app length]. split; [|lia].
    destruct (row_in rows wo Hrows O Hin) as [_ HOl]. unfold old_bit.
    destruct (mask_bits O) as [|b l] eqn:E; [pose proof (mask_bits_length O) as Hl; rewrite E in Hl; cbn in Hl; lia|]. done. }
  rewrite ?Nat2Z.id. rewrite (fill_zeros wn bits (S ol) (8 * wn - S ol) rest) by (try lia; intros O Hin; by apply Hbits). cbn [mbind option_bind].
  set (rows' := map (fun O => enc_row wn (bits O ++ replicate (8 * wn - S ol) false)) rows).
  change (new_rows rows wn _) with (concat rows').
  assert (Hlen : length (concat rows') = (length rows * wn)%nat) by (apply concat_width; intros; apply enc_row_length).
  rewrite load_app_here by done. cbn [mbind option_bind].
  assert (H288 : (length rows * wn <= 288)%nat) by (apply (Nat.mul_le_mono (length rows) 48 wn 6); lia).
  set (old := old_rows rows (1 + length media') ++ post).
  assert (Hold : zlen old = zlen (concat rows ++ post)).
  { unfold old, old_rows. rewrite !length_app. do 2 f_equal. rewrite (concat_width wo) by (intros O Hin; rewrite shifted_row_length; by apply (row_in rows wo Hrows)).
    replace rows with (map id rows) at 2 by apply map_id. rewrite (concat_width wo); [done|]. intros O Hin. by apply (row_in rows wo Hrows). }
  assert (Hput2 : put old 0 (concat rows') = Some (concat rows' ++ drop (length rows * wn) old)).
  { rewrite <- (take_drop (length rows * wn) old) at 1. apply (put_app []). rewrite Hlen, length_take. lia. }
  rewrite Hput2. cbn [mbind option_bind].
  exists (S ol), wn, rows', (drop (length rows * wn) old), (concat rows' ++ rest). splits; try done.
  - intros o Hin. pose proof (block_le_last _ _ _ _ _ o Hblock Hol Hin). lia.
  - unfold rows'. apply Forall_map. apply Forall_forall. intros O _. split; [apply enc_row_bytes|apply enc_row_length].
  - unfold rows'. rewrite Forall2_fmap_r. apply Forall2_same_length_lookup. split; [done|]. intros i O O' E1 E2.
    rewrite E1 in E2. injection E2 as <-. assert (Hin : O ∈ rows) by (by eapply list_elem_of_lookup_2). destruct (Hbits O Hin) as [B1 B2].
    unfold adapted. transitivity (bits O ++ replicate (8 * wn - S ol) false); [|by rewrite B1]. apply mask_bits_enc. rewrite length_app, length_replicate, B2. lia.
  - rewrite length_app, Hlen, length_drop. rewrite Eold in Hold, Hmasks. lia.
  - rewrite length_app, Hlen. unfold rest. rewrite length_drop. lia.
Qed.

End Zeros.

(** ** EncodeFec *)

Lemma spread_true base : forall media offs low, block base low media offs -> forall bits j,
  (length offs <= length bits)%nat ->
  (spread bits low offs !! j = Some true <-> exists k, offs !! k = Some (low + j)%nat /\ bits !! k = Some true).
Proof.
  induction 1 as [low|low p o media offs Hlo _ Hrest IH]; intros bits j Hl.
  - cbn. split; [done|]. intros (k & Hk & _). by rewrite lookup_nil in Hk.
  - destruct bits as [|b bits]; [cbn in Hl; lia|]. cbn [spread]. cbn [length] in Hl. pose proof (block_low _ _ _ _ Hrest) as Hlow. rewrite Forall_forall in Hlow.
    assert (Hno : forall k, offs !! k = Some (low + j)%nat -> (S o <= low + j)%nat).
    { intros k Hk. apply Hlow, list_elem_of_In. by eapply list_elem_of_lookup_2. }
    destruct (lt_eq_lt_dec j (o - low)) as [[Hj|Hj]|Hj].
    + rewrite lookup_app_l by (rewrite length_replicate; lia). rewrite lookup_replicate_2 by done. split; [done|].
      intros ([|k] & Hk & _); cbn in Hk; [injection Hk; lia|]. apply Hno in Hk. lia.
    + rewrite lookup_app_r by (rewrite length_replicate; lia). rewrite length_replicate, Hj, Nat.sub_diag. cbn. split.
      * intros [= ->]. exists 0%nat. cbn. split; [f_equal; lia|done].
      * intros ([|k] & Hk & Hb); cbn in Hk, Hb; [done|]. rewrite Hj in Hno. apply Hno in Hk. lia.
    + rewrite lookup_app_r by (rewrite length_replicate; lia). rewrite length_replicate. destruct (j - (o - low))%nat as [|j'] eqn:Ej; [lia|]. cbn [lookup list_lookup].
      rewrite IH by lia. replace (S o + j')%nat with (low + j)%nat by lia. split.
      * intros (k & Hk & Hb). by exists (S k).
      * intros ([|k] & Hk & Hb); cbn in Hk, Hb; [injection Hk; lia|]. by exists k.
Qed.

Lemma adapted_protects base media offs n wn row row' j : block base 0 media offs -> (length media <= 8 * length row)%nat ->
  adapted offs n wn row row' -> (protects row' j <-> exists k, offs !! k = Some j /\ protects row k).
Proof.
  intros Hb Hl Ha. unfold adapted in Ha. unfold protects at 1. rewrite Ha. pose proof (block_length _ _ _ _ Hb) as HL.
  pose proof (spread_true base media offs 0 Hb (mask_bits row) j) as HS. rewrite mask_bits_length in HS. cbn [Nat.add] in HS. specialize (HS ltac:(lia)).
  fold (protects row) in HS. rewrite <- HS. destruct (decide (j < length (spread (mask_bits row) 0 offs))%nat) as [Hlt|Hge].
  - by rewrite lookup_app_l.
  - rewrite lookup_app_r by lia. rewrite (lookup_ge_None_2 (spread _ _ _)) by lia. split; [|done]. by intros [? _]%lookup_replicate.
Qed.

Lemma selected_in bits : forall media offs p, p ∈ selected bits media offs <->
  exists k o, media !! k = Some p /\ offs !! k = Some o /\ bits !! o = Some true.
Proof.
  induction media as [|q media IH]; intros offs p.
  - cbn. split; [intros H; by apply elem_of_nil in H|]. intros (k & o & Hk & _). by rewrite lookup_nil in Hk.
  - destruct offs as [|o offs]; [cbn; split; [intros H; by apply elem_of_nil in H|]; intros (k & o & _ & Ho & _); by rewrite lookup_nil in Ho|].
    cbn [selected]. rewrite elem_of_app, IH. split.
    + intros [Hin|(k & o' & H1 & H2 & H3)].
      * destruct (nth o bits false) eqn:E; [|by apply elem_of_nil in Hin]. apply elem_of_cons in Hin as [-> | Hin]; [|by apply elem_of_nil in Hin].
        exists 0%nat, o. splits; try done. rewrite nth_lookup in E. by destruct (bits !! o) as [[]|].
      * by exists (S k), o'.
    + intros ([|k] & o' & H1 & H2 & H3); cbn in H1, H2.
      * injection H1 as ->. injection H2 as ->. left. rewrite nth_lookup, H3. cbn. by left.
      * right. by exists k, o'.
Qed.

Lemma Forall_and_length rows w : Forall is_bytes rows -> Forall (fun row => zlen row = w) rows -> 0 <= w ->
  Forall (fun row => is_bytes row /\ length row = Z.to_nat w) rows.
Proof. intros Hb Hw H0. induction Hb; [constructor|]. inversion Hw; subst. constructor; [split; [done|lia]|by apply IHHb]. Qed.

Section Encode.
Context {H : FecHeader} {L : FecHeaderLaws}.
Context (fresh : nat -> Z).

(** The FEC packet [fec] protects with the mask [row] the packets of the media whose offsets the mask names. *)
Record fec_for (ssrc base : Z) (media : list bytes) (offs : list nat) (row fec : bytes) : Prop := FecFor {
  ff_row : mask_row row;
  ff_inside : forall j, protects row j -> j ∈ offs;
  ff_some : exists j, protects row j;
  ff_final : exists hs, header_size row = Some hs /\
    FinalizeFecHeader ssrc base row (zlen row) (fec_data hs (selected (mask_bits row) media offs)) = Some fec
}.

Section Block.
Context (base : Z) (media : list bytes) (offs : list nat) (Hbase : is_u16 base) (Hblock : block base 0 media offs) (Hfirst : head offs = Some 0%nat).
Context (Hwf : Forall wf_packet media) (Hfit : Forall (fun p => 32 + (zlen p - 12) <= 1500) media).

Lemma selected_some row : (forall j, protects row j -> j ∈ offs) -> (exists j, protects row j) -> selected (mask_bits row) media offs <> [].
Proof.
  intros Hin (j & Hj) E. assert (Ho := Hin j Hj). apply list_elem_of_lookup in Ho as [k Hk]. pose proof (block_length _ _ _ _ Hblock) as HL.
  destruct (lookup_lt_is_Some_2 media k) as [p Hp]; [rewrite <- HL; by eapply lookup_lt_Some|].
  assert (Hs : p ∈ selected (mask_bits row) media offs) by (apply selected_in; by exists k, j). rewrite E in Hs. by apply elem_of_nil in Hs.
Qed.

Lemma selected_all P row : Forall P media -> Forall P (selected (mask_bits row) media offs).
Proof.
  intros HP. apply list.Forall_forall. intros p Hp. apply selected_in in Hp as (k & o & Hk & _). eapply list.Forall_forall; [exact HP|]. by eapply list_elem_of_lookup_2.
Qed.

Lemma head_media : exists p, head media = Some p /\ ParseSequenceNumber p = Some base.
Proof.
  inversion Hblock as [|low p o media' offs' _ Hs _ E0 E1 E2]; [by rewrite <- H2 in Hfirst|].
  rewrite <- E2 in Hfirst. cbn in Hfirst. injection Hfirst as ->. exists p. split; [done|]. rewrite Hs. f_equal.
  rewrite u16_id; unfold is_u16 in *; lia.
Qed.

Lemma GenerateFecPayload_spec row w pre post i hs : mask_row row -> zlen row = w -> zlen pre = i * w -> 0 <= i -> header_size row = Some hs ->
  12 < hs <= 32 -> (forall j, protects row j -> j ∈ offs) -> (exists j, protects row j) -> (forall o, o ∈ offs -> (o < 8 * length row)%nat) ->
  GenerateFecPayload fresh media (pre ++ row ++ post) w i = Some (fec_data hs (selected (mask_bits row) media offs)).
Proof.
  intros Hrow Hw Hpre Hi Hhs Hhs' Hin Hsome Hwide. unfold GenerateFecPayload.
  assert (Hload : load (pre ++ row ++ post) (i * w) (length row) = Some row).
  { rewrite <- Hpre, load_app_skip, Z.sub_diag by lia. by apply load_app_here. }
  replace (Z.to_nat w) with (length row) by lia. rewrite Hload. cbn [mbind option_bind].
  unfold header_size in Hhs. rewrite Hw in Hhs. destruct (MinPacketMaskSize row w) as [mms|]; [|done]. cbn [mbind option_bind] in *. rewrite Hhs. cbn [mbind option_bind].
  destruct head_media as (p & Hp & Hs). rewrite Hp. cbn [mbind option_bind]. rewrite Hs. cbn [mbind option_bind].
  pose proof (protect_loop_spec fresh hs ltac:(lia) base (pre ++ row ++ post) row (i * w) ltac:(lia) Hload) as HP.
  assert (Hr6 : (length row <= 6)%nat) by (destruct Hrow as [_ [E|E]]; lia). specialize (HP Hr6 media offs 0%nat Hblock).
  assert (E0 : u16 (base + Z.of_nat 0) = base) by (rewrite u16_id; unfold is_u16 in *; lia).
  specialize (HP ltac:(apply list.Forall_forall; exact Hwide) Hwf). 
  assert (Hf : Forall (fun p => hs + (zlen p - 12) <= 1500) media) by (eapply List.Forall_impl; [|exact Hfit]; cbn; intros; lia).
  specialize (HP Hf 0%nat [] Hfirst ltac:(constructor)). rewrite E0 in HP. cbn [app fec_data] in HP.
  change (Z.of_nat 0 / 8) with 0 in HP. change (Z.of_nat 0 mod 8) with 0 in HP. rewrite Z.add_0_r in HP. rewrite HP. cbn [mbind option_bind].
  rewrite check_then; [done|]. apply Z.gtb_lt. rewrite fec_data_length; [lia|by apply selected_some|by apply selected_all|lia].
Qed.

(** The rows of an array and the packets made from them. *)
Lemma payloads_and_headers ssrc w rows : is_u32 ssrc -> (exists own, fec_ssrc_ok own ssrc) ->
  Forall (fun row => mask_row row /\ zlen row = w /\ (forall j, protects row j -> j ∈ offs) /\ (exists j, protects row j)) rows ->
  (forall o, o ∈ offs -> Z.of_nat o < 8 * w) -> forall i pre post, zlen pre = i * w -> 0 <= i ->
  exists datas fecs, GenerateFecPayloads fresh (length rows) media (pre ++ concat rows ++ post) w i = Some datas /\
    FinalizeFecHeaders ssrc base (pre ++ concat rows ++ post) w i datas = Some fecs /\ Forall2 (fec_for ssrc base media offs) rows fecs.
Proof.
  intros Hssrc [own Hown] Hrows Hwide. induction Hrows as [|row rows (Hr & Hw & Hin & Hsome) _ IH]; intros i pre post Hpre Hi.
  - exists [], []. splits; done.
  - cbn [length GenerateFecPayloads concat]. rewrite <- app_assoc.
    destruct (law_header_size row Hr) as (hs & Hhs & Hhs'). pose proof law_overhead as Hov.
    rewrite (GenerateFecPayload_spec row w pre (concat rows ++ post) i hs) by (try done; try lia; intros o Ho; specialize (Hwide o Ho); lia).
    cbn [mbind option_bind]. destruct (IH (i + 1) (pre ++ row) post) as (datas & fecs & G & F & A); [rewrite length_app; lia|lia|].
    rewrite <- !app_assoc in G, F. rewrite G. cbn [mbind option_bind].
    set (ps := selected (mask_bits row) media offs).
    assert (Hps : ps <> []) by (by apply selected_some). assert (Hpw : Forall wf_packet ps) by (by apply selected_all).
    assert (Hplen : zlen (parity payload ps) <= 1488).
    { assert (length (parity payload ps) <= 1488)%nat; [|lia]. apply parity_length_le. apply (selected_all (fun p => (length (payload p) <= 1488)%nat)).
      apply list.Forall_forall. intros p Hp. rewrite (list.Forall_forall wf_packet) in Hwf. rewrite (list.Forall_forall (fun p => _ <= 1500)) in Hfit.
      specialize (Hwf p Hp). specialize (Hfit p Hp). pose proof (payload_length p Hwf). lia. }
    destruct (law_roundtrip own ssrc base row hs (fec_data hs ps) Hown Hssrc Hbase Hr Hhs) as (d' & d'' & info & HF & _).
    { rewrite fec_data_some by done. apply list.Forall_app. split; [apply parity_bytes; eapply List.Forall_impl; [|exact Hpw]; intros; by apply recovery_bytes|].
      apply list.Forall_app. split; [by apply Forall_replicate|]. apply parity_bytes. eapply List.Forall_impl; [|exact Hpw]. intros. by apply payload_bytes. }
    { rewrite fec_data_length by (done || lia). lia. }
    exists (fec_data hs ps :: datas), (d' :: fecs). split; [done|]. split.
    + cbn [FinalizeFecHeaders]. rewrite <- Hpre, load_app_skip, Z.sub_diag by lia. rewrite load_app_here by lia. cbn [mbind option_bind].
      rewrite <- Hw at 1. rewrite HF. cbn [mbind option_bind]. rewrite F. done.
    + constructor; [|done]. constructor; try done. by exists hs.
Qed.

End Block.

(** The arrays of the class have their sizes. *)
Definition encoder_ok (this : Encoder) : Prop :=
  zlen (packet_masks_ this) = 288 /\ zlen (tmp_packet_masks_ this) = 288 /\ zlen (generated_fec_packets_ this) = 48.

Lemma NumFecPackets_spec m f : 1 <= m -> 0 <= f <= 255 -> exists n, NumFecPackets m f = Some n /\ 0 <= n <= m /\ (n = 0 <-> f = 0).
Proof.
  intros Hm Hf. unfold NumFecPackets. change (Z.shiftl 1 7) with 128. rewrite Z.shiftr_div_pow2 by lia. change (2 ^ 8) with 256.
  assert (Hq : 0 <= (m * f + 128) / 256 <= m) by (split; [apply Z.div_pos; nia|apply Z.lt_succ_r, Z.div_lt_upper_bound; nia]).
  set (n := if (f >? 0) && ((m * f + 128) / 256 =? 0) then 1 else (m * f + 128) / 256). assert (Hn : 0 <= n <= m /\ (n = 0 <-> f = 0)).
  { unfold n. destruct (Z.gtb_spec f 0), (Z.eqb_spec ((m * f + 128) / 256) 0); cbn [andb]; try lia.
    all: assert (f = 0) as -> by lia; rewrite Z.mul_0_r in *; change ((0 + 128) / 256) with 0 in *; lia. }
  exists n. rewrite check_then by (apply Z.leb_le; lia). split; [done|]. exact Hn.
Qed.

(** What EncodeFec leaves: one FEC packet per row of a mask of the block, and every media packet
    protected. *)
Definition protected_block (base : Z) (media : list bytes) (offs : list nat) (ssrc : Z) (fecs : list bytes) : Prop :=
  exists rows, Forall2 (fec_for ssrc base media offs) rows fecs /\
    (forall o, o ∈ offs -> Exists (fun row => protects row o) rows).

(** The masks of a block in the array of the class, before the holes are cut. *)
Lemma masks_ready this type (m n imp : nat) unequal : encoder_ok this -> (1 <= n <= m)%nat -> (m <= 48)%nat -> (imp <= m)%nat ->
  exists table w rows tail, FecInternal.PickTable type (Z.of_nat m) = Some table /\ FecInternal.PacketMaskSize (Z.of_nat m) = Some w /\
    put (packet_masks_ this) 0 (replicate (Z.to_nat (Z.of_nat n * w)) 0) = Some (replicate (Z.to_nat (Z.of_nat n * w)) 0 ++ tail) /\
    FecInternal.GeneratePacketMasks (Z.of_nat m) (Z.of_nat n) (Z.of_nat imp) unequal table (replicate (Z.to_nat (Z.of_nat n * w)) 0 ++ tail)
      = Some (concat rows ++ tail) /\ masks m n w rows /\ zlen (concat rows ++ tail) = 288.
Proof.
  intros (K1 & _) Hn Hm Hi. set (w := if Z.of_nat m >? 16 then 6 else 2).
  destruct (generated_masks type m n imp unequal (drop (Z.to_nat (Z.of_nat n * w)) (packet_masks_ this)) Hn Hm Hi) as (table & w' & rows & HP & Hw & HG & HM).
  assert (w' = w) as -> by (rewrite PacketMaskSize_spec in Hw by lia; unfold w; congruence).
  assert (H288 : 0 <= Z.of_nat n * w <= 288) by (unfold w; destruct (_ >? _); nia).
  exists table, w, rows, (drop (Z.to_nat (Z.of_nat n * w)) (packet_masks_ this)). splits; try done.
  - rewrite <- (take_drop (Z.to_nat (Z.of_nat n * w)) (packet_masks_ this)) at 1. apply (put_app []). rewrite length_replicate, length_take. lia.
  - pose proof (concat_length_width w rows (ms_width _ _ _ _ HM)) as HC. rewrite (ms_count _ _ _ _ HM) in HC. rewrite length_app, length_drop.
    assert (zlen (concat rows) = Z.of_nat n * w) by (unfold w in *; destruct (_ >? _); nia). lia.
Qed.

Lemma encode_fec_block this media offs base ssrc factor imp unequal type front :
  encoder_ok this -> is_u16 base -> is_u32 ssrc -> (exists own, fec_ssrc_ok own ssrc) ->
  block base 0 media offs -> head offs = Some 0%nat -> (forall o, o ∈ offs -> (o < 48)%nat) ->
  Forall wf_packet media -> Forall (fun p => 32 + (zlen p - 12) <= 1500) media -> head media = Some front -> ParseSsrc front = Some ssrc ->
  0 < factor <= 255 -> (imp <= length media)%nat ->
  exists this' fecs n, EncodeFec fresh this media factor (Z.of_nat imp) unequal type = Some (this', 0, fecs) /\ encoder_ok this' /\
    NumFecPackets (zlen media) factor = Some n /\ zlen fecs = n /\ protected_block base media offs ssrc fecs.
Proof.
  intros (K1 & K2 & K3) Hbase Hssrc Hown Hblock Hfirst Hspan Hwf Hfit Hfront HS Hf Himp.
  pose proof (block_length _ _ _ _ Hblock) as HL. assert (Hne : media <> []) by (by destruct media).
  assert (HM : (1 <= length media)%nat) by (destruct media; [done|cbn; lia]).
  assert (Hlast : exists l, list.last offs = Some l) by (destruct (list.last offs) eqn:E; [by eexists|apply list.last_None in E; by rewrite E in Hfirst]).
  destruct Hlast as [l Hl]. pose proof (block_last _ _ _ _ _ Hblock Hl) as Hlast.
  assert (Hl48 : (l < 48)%nat) by (apply Hspan; apply list.last_Some in Hl as (l' & ->); apply elem_of_app; right; by left).
  destruct (NumFecPackets_spec (zlen media) factor) as (n & En & Hn & Hn0); [lia|lia|]. assert (n <> 0) as Hn1 by lia.
  destruct (masks_ready this type (length media) (Z.to_nat n) imp unequal (conj K1 (conj K2 K3))) as (table & w & rows & tail & HP & Hw & Hput & HG & HM' & H288);
    [lia|lia|lia|]. rewrite Z2Nat.id in Hput, HG by lia.
  unfold EncodeFec. rewrite !check_then by (apply Z.gtb_lt || apply Z.geb_le || apply Z.leb_le; lia).
  destruct law_limits as (HW & _). rewrite HW. destruct (Z.gtb_spec (zlen media) 48); [lia|].
  replace (existsb _ media) with false.
  2: { symmetry. apply not_true_is_false. intros He. apply existsb_exists in He as (p & Hin & Hp). apply list_elem_of_In in Hin.
       rewrite (list.Forall_forall wf_packet) in Hwf. destruct (Hwf p Hin) as [_ Hp']. unfold kRtpHeaderSize in Hp. lia. }
  rewrite En. cbn [mbind option_bind]. rewrite (proj2 (Z.eqb_neq _ _)) by lia. rewrite check_then by (apply Z.leb_le; lia). cbv zeta.
  rewrite HP. cbn [mbind option_bind]. rewrite Hw. cbn [mbind option_bind].
  rewrite Hput. cbn [mbind option_bind]. rewrite HG. cbn [mbind option_bind].
  destruct HM' as [C1 C2 C3 [G1 G2 G3]]. destruct (mask_width (length media) w Hw) as [Hw26 Hmw].
  destruct (InsertZeros_spec rows (Z.to_nat w)) with (base := base) (media := media) (offs := offs) (tmp := tmp_packet_masks_ this) (post := tail)
    as (top & wn & rows' & post' & tmp' & Z1 & Z2 & Z3 & Z4 & Z5 & Z6 & Z7 & Z8 & Z9); try done; try lia.
  { eapply Forall_and_length; [exact C3|exact C2|lia]. }
  { rewrite Z2Nat.id by lia. exact Hw. }
  { intros O Hin j Hj. rewrite (list.Forall_forall (fun row => forall j, _)) in G2. by apply (G2 O). }
  rewrite C1 in Z5. rewrite !Z2Nat.id in Z5 by lia. rewrite Z5. cbn [mbind option_bind]. rewrite (proj2 (Z.ltb_ge _ _)) by lia.
  rewrite Z4. cbn [mbind option_bind]. destruct (mask_width top _ Z4) as [Hwn Htop].
  assert (Hlen : length rows' = length rows) by (symmetry; by eapply Forall2_length).
  assert (Hprot : forall k row row', rows !! k = Some row -> rows' !! k = Some row' -> forall j, protects row' j <-> exists k', offs !! k' = Some j /\ protects row k').
  { intros k row row' E1 E2 j. apply (adapted_protects base media offs top wn); [done| |by eapply Forall2_lookup_lr].
    assert (zlen row = w) by (eapply (Forall_lookup_1 (fun row => zlen row = w)); [exact C2|exact E1]). lia. }
  destruct (payloads_and_headers base media offs Hbase Hblock Hfirst Hwf Hfit ssrc (Z.of_nat wn) rows' Hssrc Hown) with (i := 0) (pre := @nil Z) (post := post')
    as (datas & fecs & P1 & P2 & P3); [| |done|lia|].
  { apply Forall_lookup. intros k row' E2. destruct (lookup_lt_is_Some_2 rows k) as [row E1]; [rewrite <- Hlen; by eapply lookup_lt_Some|].
    destruct (Forall_lookup_1 _ _ _ _ Z6 E2) as [B1 B2]. splits.
    - split; [done|]. rewrite B2. lia.
    - by rewrite B2.
    - intros j Hj. apply (Hprot k row row' E1 E2) in Hj as (k' & Hk' & _). by eapply list_elem_of_lookup_2.
    - destruct (Forall_lookup_1 _ _ _ _ G1 E1) as (j & Hj). pose proof (Forall_lookup_1 _ _ _ _ G2 E1 j Hj) as Hj'.
      destruct (lookup_lt_is_Some_2 offs j) as [o Ho]; [lia|]. exists o. apply (Hprot k row row' E1 E2). by exists j. }
  { intros o Ho. specialize (Z2 o Ho). lia. }
  cbn [app] in P1, P2. replace (Z.to_nat n) with (length rows') by lia. rewrite P1. cbn [mbind option_bind].
  rewrite Hfront. cbn [mbind option_bind]. rewrite HS. cbn [mbind option_bind].
  destruct (head_media base media offs Hbase Hblock Hfirst Hwf Hfit) as (p & Hp & Hs). rewrite Hfront in Hp. injection Hp as <-. rewrite Hs. cbn [mbind option_bind].
  rewrite P2. cbn [mbind option_bind]. pose proof (Forall2_length P3) as Hlf.
  eexists _, fecs, n. splits; [reflexivity| |done|lia|].
  - unfold encoder_ok. cbn [packet_masks_ tmp_packet_masks_ generated_fec_packets_]. splits; [|lia|].
    + by rewrite Z8.
    + rewrite length_app, length_drop. lia.
  - exists rows'. split; [done|]. intros o Ho. apply list_elem_of_lookup in Ho as [k Hk].
    assert (Hk' : (k < length media)%nat) by (rewrite <- HL; by eapply lookup_lt_Some).
    specialize (G3 k Hk'). apply Exists_exists in G3 as (row & Hin & Hrow). apply list_elem_of_In, list_elem_of_lookup in Hin as [i E1].
    destruct (lookup_lt_is_Some_2 rows' i) as [row' E2]; [rewrite Hlen; by eapply lookup_lt_Some|].
    apply Exists_exists. exists row'. split; [apply list_elem_of_In; by eapply list_elem_of_lookup_2|]. apply (Hprot i row row' E1 E2). by exists k.
Qed.

(** The blocks it refuses: too many packets, a packet that has no room for its header, or
    sequence numbers too far apart for a mask. *)
Definition refused (media : list bytes) : Prop :=
  (48 < length media)%nat \/ Exists (fun p => zlen p < 12) media \/
  exists base offs l, is_u16 base /\ block base 0 media offs /\ head offs = Some 0%nat /\ list.last offs = Some l /\ 48 <= Z.of_nat l < 65536.

Lemma InsertZeros_wide media n size masks tmp base offs l : is_u16 base -> block base 0 media offs -> head offs = Some 0%nat -> list.last offs = Some l ->
  48 <= Z.of_nat l < 65536 -> (length media <= 48)%nat -> InsertZerosInPacketMasks media n size masks tmp = Some (-1, masks, tmp).
Proof.
  intros Hu Hb Hh Hl H48 Hm. pose proof (block_length _ _ _ _ Hb) as HL. unfold InsertZerosInPacketMasks.
  assert (H2 : (2 <= length media)%nat).
  { destruct offs as [|o0 [|o1 offs]]; cbn in *; [done|injection Hh as ->; injection Hl as <-; lia|lia]. }
  destruct (Z.leb_spec (zlen media) 1); [lia|].
  assert (Hlp : exists p, list.last media = Some p) by (destruct (list.last media) eqn:E; [by eexists|apply list.last_None in E; rewrite E in H2; cbn in H2; lia]). destruct Hlp as [pl Hpl].
  destruct (block_last_packet _ _ _ _ _ Hb Hpl) as (ol & Hol & Hsl). rewrite Hl in Hol. injection Hol as <-. rewrite Hpl. cbn [mbind option_bind]. rewrite Hsl. cbn [mbind option_bind].
  destruct media as [|p0 media'] eqn:Emedia; [cbn in H2; lia|]. inversion Hb as [|? ? o0 ? offs' _ Hs0 _]; subst. injection Hh as ->. cbn [head mbind option_bind]. rewrite Hs0. cbn [mbind option_bind]. cbv zeta.
  assert (Hd : u16 (u16 (base + Z.of_nat l) - u16 (base + Z.of_nat 0)) = Z.of_nat l) by (unfold u16, is_u16 in *; dlia). rewrite Hd.
  set (M := zlen (p0 :: media')) in *.
  rewrite u64_id by (unfold is_u64; lia). destruct (Z.eqb_spec (Z.of_nat l - M + 1) 0); [lia|].
  rewrite u64_id by (unfold is_u64; lia). destruct law_limits as (HW & _). rewrite HW. destruct (Z.gtb_spec (Z.of_nat l - M + 1 + M) 48); [done|lia].
Qed.

Lemma encode_refused this media factor imp unequal type : encoder_ok this -> media <> [] -> 0 < factor <= 255 -> (imp <= length media)%nat -> refused media ->
  exists this', EncodeFec fresh this media factor (Z.of_nat imp) unequal type = Some (this', -1, []) /\ encoder_ok this'.
Proof.
  intros HK Hne Hf Himp Href. assert (HK' := HK). destruct HK' as (K1 & K2 & K3). assert (HM : (1 <= length media)%nat) by (destruct media; [done|cbn; lia]).
  unfold EncodeFec. rewrite !check_then by (apply Z.gtb_lt || apply Z.geb_le || apply Z.leb_le; lia).
  destruct law_limits as (HW & _). rewrite HW. destruct (Z.gtb_spec (zlen media) 48) as [|H48]; [by exists this|].
  destruct (existsb _ media) eqn:Es; [by exists this|].
  destruct Href as [|[Hex|(base & offs & l & Hu & Hb & Hh & Hl & Hl48)]]; [lia| |].
  { exfalso. apply not_true_iff_false in Es. apply Es, existsb_exists. apply Exists_exists in Hex as (p & Hin & Hp). exists p. split; [done|].
    unfold kRtpHeaderSize. by apply Z.ltb_lt. }
  destruct (NumFecPackets_spec (zlen media) factor) as (n & En & Hn & Hn0); [lia|lia|]. rewrite En. cbn [mbind option_bind]. rewrite (proj2 (Z.eqb_neq _ _)) by lia.
  rewrite check_then by (apply Z.leb_le; lia). cbv zeta.
  destruct (masks_ready this type (length media) (Z.to_nat n) imp unequal HK) as (table & w & rows & tail & HP & Hw & Hput & HG & HM' & H288); [lia|lia|lia|].
  rewrite Z2Nat.id in Hput, HG by lia. rewrite HP. cbn [mbind option_bind]. rewrite Hw. cbn [mbind option_bind]. rewrite Hput. cbn [mbind option_bind].
  rewrite HG. cbn [mbind option_bind].
  rewrite (InsertZeros_wide media _ _ _ _ base offs l) by (done || lia). cbn [mbind option_bind].
  rewrite (proj2 (Z.ltb_lt (-1) 0)) by lia. eexists. split; [reflexivity|]. unfold encoder_ok. cbn [packet_masks_ tmp_packet_masks_ generated_fec_packets_].
  splits; [done|done|rewrite length_app, length_replicate, length_drop; lia].
Qed.

End Encode.
