(* ===== verification/FecDecoder.v ===== *)
(** * The FEC decoder: ForwardErrorCorrection::DecodeFec

    forward_error_correction.cc from ResetState on. The packets that the lists share are held
    by value: nothing in the class writes to a packet once it is in a list. What a grown buffer
    shows is [fresh]; MinDiff of rtc_base is the parameter [MinDiff]. *)

From S2P Require Import Prelude.
From Stdlib Require Import Sorted.
From S2P Require Import SeqNum.
From S2P Require Import ByteIo.
From S2P Require Import Buffers.
From S2P Require Import RtcpCore.
From S2P Require Import FecTables.
From S2P Require Import FecMasks.
From S2P Require Import FecHeader.
From S2P Require Import FecXor.

Definition kOldSequenceThreshold : Z := 0x3fff.

(** The packet classes of forward_error_correction.h; a null pointer to the data is [None]. *)
Record ReceivedPacket := MkReceived { rv_ssrc : Z; rv_seq_num : Z; is_fec : bool; is_recovered : bool; rv_pkt : bytes }.

Record RecoveredPacket := MkRecovered { rp_ssrc : Z; rp_seq_num : Z; was_recovered : bool; returned : bool; rp_pkt : bytes }.

Record ProtectedPacket := MkProtected { pp_ssrc : Z; pp_seq_num : Z; pp_pkt : option bytes }.

Record ReceivedFecPacket := MkReceivedFec {
  rf_ssrc : Z; rf_seq_num : Z; rf_info : FecInfo; protected_packets : list ProtectedPacket; rf_pkt : bytes }.

(** SortablePacket::LessThan on SSRC and sequence number. *)
Definition LessThan (first second : Z * Z) : option bool :=
  check (first.1 =? second.1) ;; Some (IsNewerSequenceNumber second.2 first.2).

Definition recovered_key (r : RecoveredPacket) : Z * Z := (rp_ssrc r, rp_seq_num r).
Definition protected_key (p : ProtectedPacket) : Z * Z := (pp_ssrc p, pp_seq_num p).
Definition fec_key (f : ReceivedFecPacket) : Z * Z := (rf_ssrc f, rf_seq_num f).

(** std::list::sort, which is stable: each element goes behind those it is not less than. *)
Fixpoint sort_insert {A} (key : A -> Z * Z) (x : A) (l : list A) : option (list A) :=
  match l with
  | [] => Some [x]
  | y :: l' => lt ← LessThan (key x) (key y); if (lt : bool) then Some (x :: l) else l' ← sort_insert key x l'; Some (y :: l')
  end.

Fixpoint sort_from {A} (key : A -> Z * Z) (acc l : list A) : option (list A) :=
  match l with
  | [] => Some acc
  | x :: l => acc ← sort_insert key x acc; sort_from key acc l
  end.

Definition list_sort {A} (key : A -> Z * Z) (l : list A) : option (list A) := sort_from key [] l.

(** [found <- duplicate key ssrc seq l]: the search of InsertMediaPacket and InsertFecPacket. *)
Fixpoint duplicate {A} (key : A -> Z * Z) (ssrc seq_num : Z) (l : list A) : option bool :=
  match l with
  | [] => Some false
  | x :: l => check ((key x).1 =? ssrc) ;; if (key x).2 =? seq_num then Some true else duplicate key ssrc seq_num l
  end.

Definition set_pkt (p : ProtectedPacket) (pkt : bytes) : ProtectedPacket := MkProtected (pp_ssrc p) (pp_seq_num p) (Some pkt).

(** The protected packet UpdateCoveringFecPackets finds: lower_bound gives the first that is not
    less than the packet, and it must have its sequence number. *)
Fixpoint cover (ssrc seq_num : Z) (pkt : bytes) (ps : list ProtectedPacket) : option (list ProtectedPacket) :=
  match ps with
  | [] => Some []
  | p :: ps' =>
      lt ← LessThan (protected_key p) (ssrc, seq_num);
      if (lt : bool) then ps' ← cover ssrc seq_num pkt ps'; Some (p :: ps')
      else Some (if pp_seq_num p =? seq_num then set_pkt p pkt :: ps' else ps)
  end.

Definition with_protected (f : ReceivedFecPacket) (ps : list ProtectedPacket) : ReceivedFecPacket :=
  MkReceivedFec (rf_ssrc f) (rf_seq_num f) (rf_info f) ps (rf_pkt f).

Fixpoint UpdateCoveringFecPackets (packet : RecoveredPacket) (received_fec_packets : list ReceivedFecPacket) : option (list ReceivedFecPacket) :=
  match received_fec_packets with
  | [] => Some []
  | f :: rest =>
      ps ← cover (rp_ssrc packet) (rp_seq_num packet) (rp_pkt packet) (protected_packets f);
      rest ← UpdateCoveringFecPackets packet rest;
      Some (with_protected f ps :: rest)
  end.

(** The merge of AssignRecoveredPackets. *)
Fixpoint AssignRecoveredPackets (ps : list ProtectedPacket) : list RecoveredPacket -> option (list ProtectedPacket) :=
  match ps with
  | [] => fun _ => Some []
  | p :: ps' =>
      fix go (rs : list RecoveredPacket) : option (list ProtectedPacket) :=
        match rs with
        | [] => Some ps
        | r :: rs' =>
            lt ← LessThan (protected_key p) (recovered_key r);
            if (lt : bool) then rest ← AssignRecoveredPackets ps' rs; Some (p :: rest) else
            gt ← LessThan (recovered_key r) (protected_key p);
            if (gt : bool) then go rs' else
            rest ← AssignRecoveredPackets ps' rs'; Some (set_pkt p (rp_pkt r) :: rest)
        end
  end.

(** The packets that octet [byte_idx] of the mask names. *)
Definition protected_of (ssrc seq_num_base byte_idx packet_mask : Z) : list ProtectedPacket :=
  flat_map (fun bit_idx =>
    if negb (Z.land packet_mask (Z.shiftl 1 (7 - bit_idx)) =? 0)
    then [MkProtected ssrc (u16 (seq_num_base + Z.shiftl byte_idx 3 + bit_idx)) None] else []) [0; 1; 2; 3; 4; 5; 6; 7].

Fixpoint parse_mask (n : nat) (ssrc seq_num_base packet_mask_offset byte_idx : Z) (data : bytes) : option (list ProtectedPacket) :=
  match n with
  | O => Some []
  | S n =>
      packet_mask ← peek data (packet_mask_offset + byte_idx);
      rest ← parse_mask n ssrc seq_num_base packet_mask_offset (byte_idx + 1) data;
      Some (protected_of ssrc seq_num_base byte_idx packet_mask ++ rest)
  end.

(** The loop of NumCoveredPacketsMissing, which stops at two. *)
Fixpoint count_missing (packets_missing : nat) (ps : list ProtectedPacket) : nat :=
  match ps with
  | [] => packets_missing
  | p :: ps =>
      match pp_pkt p with
      | None => if Nat.ltb 1 (S packets_missing) then S packets_missing else count_missing (S packets_missing) ps
      | Some _ => count_missing packets_missing ps
      end
  end.

Definition NumCoveredPacketsMissing (f : ReceivedFecPacket) : nat := count_missing 0 (protected_packets f).

Section Decoder.
Context {H : FecHeader}.
Context (fresh : nat -> Z) (MinDiff : Z -> Z -> Z).

Definition DiscardOldRecoveredPackets (recovered_packets : list RecoveredPacket) : list RecoveredPacket :=
  drop (length recovered_packets - Z.to_nat reader_MaxMediaPackets) recovered_packets.

Definition IsOldFecPacket (f : ReceivedFecPacket) (recovered_packets : list RecoveredPacket) : option bool :=
  match list.last recovered_packets with
  | None => Some false
  | Some back => last_protected ← list.last (protected_packets f);
      Some (MinDiff (rp_seq_num back) (pp_seq_num last_protected) >? kOldSequenceThreshold)
  end.

(** The data of the recovered packet, [None] when StartPacketRecovery returns false. *)
Definition StartPacketRecovery (f : ReceivedFecPacket) : option (option bytes) :=
  let pkt := rf_pkt f in
  let size := fec_header_size (rf_info f) in
  let length := protection_length (rf_info f) in
  if zlen pkt <? size + length then Some None else
  if length >? Z.min (IP_PACKET_SIZE - kRtpHeaderSize) (u64 (IP_PACKET_SIZE - size)) then Some None else
  let data := SetSize fresh (length + kRtpHeaderSize) [] in
  header ← load pkt 0 (Z.to_nat kRtpHeaderSize); data ← put data 0 header;
  if length >? 0
  then payload ← load pkt size (Z.to_nat length); data ← put data kRtpHeaderSize payload; Some (Some data)
  else Some (Some data).

(** The loop of RecoverPacket: the sequence number of the missing packet and the data. *)
Fixpoint xor_protected (ps : list ProtectedPacket) (seq_num : Z) (data : bytes) : option (Z * bytes) :=
  match ps with
  | [] => Some (seq_num, data)
  | p :: ps =>
      match pp_pkt p with
      | None => xor_protected ps (pp_seq_num p) data
      | Some pkt =>
          data ← XorHeaders pkt data;
          data ← XorPayloads fresh pkt (zlen pkt - kRtpHeaderSize) kRtpHeaderSize data;
          xor_protected ps seq_num data
      end
  end.

Definition FinishPacketRecovery (f : ReceivedFecPacket) (seq_num : Z) (data : bytes) : option (option bytes) :=
  b0 ← peek data 0; data ← put data 0 [Z.lor b0 0x80];
  b0 ← peek data 0; data ← put data 0 [Z.land b0 0xbf];
  length ← read_u16 data 2;
  let new_size := length + kRtpHeaderSize in
  if new_size >? IP_PACKET_SIZE - kRtpHeaderSize then Some None else
  let data := SetSize fresh new_size data in
  data ← put data 2 (ByteWriter.WriteBigEndian 2 seq_num);
  data ← put data 8 (ByteWriter.WriteBigEndian 4 (protected_ssrc (rf_info f)));
  Some (Some data).

(** The recovered packet, [None] when RecoverPacket returns false; its sequence number is that of
    the one packet that is missing. *)
Definition RecoverPacket (f : ReceivedFecPacket) : option (option RecoveredPacket) :=
  started ← StartPacketRecovery f;
  match started with
  | None => Some None
  | Some data =>
      '(seq_num, data) ← xor_protected (protected_packets f) 0 data;
      finished ← FinishPacketRecovery f seq_num data;
      Some (match finished with
            | None => None
            | Some data => Some (MkRecovered (protected_ssrc (rf_info f)) seq_num true false data)
            end)
  end.

(** The loop of AttemptRecovery: the packets before the iterator, those from it on, and the
    recovered packets. *)
Fixpoint AttemptRecovery (fuel : nat) (pre post : list ReceivedFecPacket) (recovered_packets : list RecoveredPacket)
  : option (list ReceivedFecPacket * list RecoveredPacket) :=
  match post with
  | [] => Some (pre, recovered_packets)
  | f :: post' =>
      match fuel with
      | O => None
      | S fuel =>
          let packets_missing := NumCoveredPacketsMissing f in
          if Nat.eqb packets_missing 1 then
            result ← RecoverPacket f;
            match result with
            | None => AttemptRecovery fuel pre post' recovered_packets
            | Some r =>
                recovered_packets ← list_sort recovered_key (recovered_packets ++ [r]);
                fecs ← UpdateCoveringFecPackets r (pre ++ post);
                let recovered_packets := DiscardOldRecoveredPackets recovered_packets in
                AttemptRecovery fuel [] (take (length pre) fecs ++ drop (S (length pre)) fecs) recovered_packets
            end
          else
            old ← (if Nat.eqb packets_missing 0 then Some true else IsOldFecPacket f recovered_packets);
            if (old : bool) then AttemptRecovery fuel pre post' recovered_packets
            else AttemptRecovery fuel (pre ++ [f]) post' recovered_packets
      end
  end.

(** ssrc_, protected_media_ssrc_ and received_fec_packets_. *)
Record Decoder := MkDecoder { ssrc_ : Z; protected_media_ssrc_ : Z; received_fec_packets_ : list ReceivedFecPacket }.

Definition with_fecs (this : Decoder) (fecs : list ReceivedFecPacket) : Decoder := MkDecoder (ssrc_ this) (protected_media_ssrc_ this) fecs.

Definition ResetState (this : Decoder) : Decoder * list RecoveredPacket := (with_fecs this [], []).

Definition InsertMediaPacket (this : Decoder) (recovered_packets : list RecoveredPacket) (received : ReceivedPacket)
  : option (Decoder * list RecoveredPacket) :=
  check (rv_ssrc received =? protected_media_ssrc_ this) ;;
  found ← duplicate recovered_key (rv_ssrc received) (rv_seq_num received) recovered_packets;
  if (found : bool) then Some (this, recovered_packets) else
  let r := MkRecovered (rv_ssrc received) (rv_seq_num received) false true (rv_pkt received) in
  recovered_packets ← list_sort recovered_key (recovered_packets ++ [r]);
  fecs ← UpdateCoveringFecPackets r (received_fec_packets_ this);
  Some (with_fecs this fecs, recovered_packets).

Definition InsertFecPacket (this : Decoder) (recovered_packets : list RecoveredPacket) (received : ReceivedPacket) : option Decoder :=
  check (rv_ssrc received =? ssrc_ this) ;;
  found ← duplicate fec_key (rv_ssrc received) (rv_seq_num received) (received_fec_packets_ this);
  if (found : bool) then Some this else
  '(pkt, ret) ← ReadFecHeader (rv_ssrc received) (rv_pkt received);
  match ret with
  | None => Some this
  | Some info =>
      if negb (protected_ssrc info =? protected_media_ssrc_ this) then Some this else
      if packet_mask_offset info + packet_mask_size info >? zlen pkt then Some this else
      ps ← parse_mask (Z.to_nat (packet_mask_size info)) (protected_media_ssrc_ this) (seq_num_base info) (packet_mask_offset info) 0 pkt;
      match ps with
      | [] => Some this
      | _ =>
          ps ← AssignRecoveredPackets ps recovered_packets;
          fecs ← list_sort fec_key (received_fec_packets_ this ++ [MkReceivedFec (rv_ssrc received) (rv_seq_num received) info ps pkt]);
          let fecs := if zlen fecs >? reader_MaxFecPackets then tail fecs else fecs in
          check (zlen fecs <=? reader_MaxFecPackets) ;; Some (with_fecs this fecs)
      end
  end.

(** The FEC packets at the front that are too far from [seq_num]. *)
Fixpoint discard_far (seq_num : Z) (fecs : list ReceivedFecPacket) : list ReceivedFecPacket :=
  match fecs with
  | [] => []
  | f :: rest => if MinDiff seq_num (rf_seq_num f) >? kOldSequenceThreshold then discard_far seq_num rest else fecs
  end.

Definition InsertPacket (this : Decoder) (recovered_packets : list RecoveredPacket) (received : ReceivedPacket)
  : option (Decoder * list RecoveredPacket) :=
  let this :=
    match received_fec_packets_ this with
    | [] => this
    | f :: _ => if rv_ssrc received =? rf_ssrc f then with_fecs this (discard_far (rv_seq_num received) (received_fec_packets_ this)) else this
    end in
  '(this, recovered_packets) ←
    (if is_fec received then this ← InsertFecPacket this recovered_packets received; Some (this, recovered_packets)
     else InsertMediaPacket this recovered_packets received);
  Some (this, DiscardOldRecoveredPackets recovered_packets).

(** Steps enough for AttemptRecovery on [n] FEC packets. *)
Definition recovery_fuel (n : nat) : nat := S n * S n.

Definition DecodeFec (this : Decoder) (recovered_packets : list RecoveredPacket) (received : ReceivedPacket)
  : option (Decoder * list RecoveredPacket) :=
  let '(this, recovered_packets) :=
    if zlen recovered_packets =? reader_MaxMediaPackets then
      match list.last recovered_packets with
      | Some back =>
          if (rv_ssrc received =? rp_ssrc back) && (MinDiff (rv_seq_num received) (rp_seq_num back) >? reader_MaxMediaPackets)
          then ResetState this else (this, recovered_packets)
      | None => (this, recovered_packets)
      end
    else (this, recovered_packets) in
  '(this, recovered_packets) ← InsertPacket this recovered_packets received;
  '(fecs, recovered_packets) ←
    AttemptRecovery (recovery_fuel (length (received_fec_packets_ this))) [] (received_fec_packets_ this) recovered_packets;
  Some (with_fecs this fecs, recovered_packets).

End Decoder.

(** ** The list operations *)

Section Lists.
Context {A : Type} (key : A -> Z * Z) (c : Z).

Definition same_ssrc (l : list A) : Prop := Forall (fun x => (key x).1 = c) l.

Lemma LessThan_same a b : a.1 = c -> b.1 = c -> LessThan a b = Some (IsNewerSequenceNumber b.2 a.2).
Proof. intros Ha Hb. unfold LessThan. by rewrite check_then by (apply Z.eqb_eq; congruence). Qed.

Lemma sort_insert_perm x l : (key x).1 = c -> same_ssrc l -> exists l', sort_insert key x l = Some l' /\ Permutation l' (x :: l).
Proof.
  intros Hx Hl. induction Hl as [|y l Hy Hl IH]; [by exists [x]|]. cbn [sort_insert]. rewrite LessThan_same by done. cbn [mbind option_bind].
  destruct (IsNewerSequenceNumber _ _); [by exists (x :: y :: l)|]. destruct IH as (l' & -> & HP). exists (y :: l'). split; [done|]. rewrite HP. apply Permutation_swap.
Qed.

Lemma sort_from_perm l acc : same_ssrc l -> same_ssrc acc -> exists l', sort_from key acc l = Some l' /\ Permutation l' (acc ++ l).
Proof.
  intros Hl. revert acc. induction Hl as [|x l Hx Hl IH]; intros acc Hacc; [exists acc; by rewrite app_nil_r|].
  cbn [sort_from]. destruct (sort_insert_perm x acc Hx Hacc) as (acc' & -> & HP). cbn [mbind option_bind].
  destruct (IH acc') as (l' & -> & HP'); [unfold same_ssrc; rewrite HP; by constructor|]. exists l'. split; [done|].
  rewrite HP', HP. cbn. by rewrite Permutation_middle.
Qed.

Lemma list_sort_perm l : same_ssrc l -> exists l', list_sort key l = Some l' /\ Permutation l' l.
Proof. intros Hl. apply (sort_from_perm l []); [done|constructor]. Qed.

Lemma duplicate_spec s l : same_ssrc l -> exists b, duplicate key c s l = Some b /\ (b = true <-> Exists (fun x => (key x).2 = s) l).
Proof.
  intros Hl. induction Hl as [|x l Hx Hl IH].
  - exists false. split; [done|]. split; [done|]. intros He. by apply Exists_nil in He.
  - cbn [duplicate]. rewrite check_then by (by apply Z.eqb_eq). destruct (Z.eqb_spec (key x).2 s) as [E|E].
    + exists true. split; [done|]. split; [|done]. intros _. by left.
    + destruct IH as (b & -> & Hb). exists b. split; [done|]. rewrite Hb. split; [by right|]. intros He. by inversion He.
Qed.

End Lists.

Lemma neither_newer a b : is_u16 a -> is_u16 b -> IsNewerSequenceNumber b a = false -> IsNewerSequenceNumber a b = false -> a = b.
Proof.
  intros Ha Hb H1 H2. destruct (Z.eq_dec a b) as [|Hne]; [done|]. exfalso.
  assert (W : template_width 16) by (unfold template_width; lia). unfold is_u16 in *.
  assert (N1 := IsNewer_spec 16 b a W Hb Ha). assert (N2 := IsNewer_spec 16 a b W Ha Hb).
  unfold IsNewerSequenceNumber in *. rewrite H1 in N1. rewrite H2 in N2.
  change (2 ^ 16) with 65536 in *. change (2 ^ (16 - 1)) with 32768 in *.
  assert (~ (0 < (b - a) mod 65536 < 32768 \/ b - a = 32768)) by (intros C; by apply N1 in C).
  assert (~ (0 < (a - b) mod 65536 < 32768 \/ a - b = 32768)) by (intros C; by apply N2 in C). clear N1 N2 H1 H2.
  dlia.
Qed.

(** ** The loop of AttemptRecovery *)

Definition missing (f : ReceivedFecPacket) : list ProtectedPacket :=
  List.filter (fun p => match pp_pkt p with None => true | Some _ => false end) (protected_packets f).

Lemma NumCovered_spec f : NumCoveredPacketsMissing f = Nat.min 2 (length (missing f)).
Proof.
  unfold NumCoveredPacketsMissing, missing.
  assert (E : forall ps m, (m < 2)%nat -> count_missing m ps = Nat.min 2 (m + length (List.filter (fun p => match pp_pkt p with None => true | Some _ => false end) ps))).
  { induction ps as [|p ps IH]; intros m Hm; [cbn [count_missing List.filter length]; lia|]. cbn [count_missing List.filter]. destruct (pp_pkt p); [by apply IH|].
    cbn [length]. destruct (Nat.ltb_spec 1 (S m)); [lia|]. rewrite IH by lia. lia. }
  rewrite E by lia. done.
Qed.

Section Loop.
Context {H : FecHeader}.
Context (fresh : nat -> Z) (MinDiff : Z -> Z -> Z).

(** A property of the two lists that every step keeps holds at the end, and then every FEC
    packet that is left lacks at least two packets. *)
Lemma AttemptRecovery_ind (I : list ReceivedFecPacket -> list RecoveredPacket -> Prop) :
  (forall pre f post recs, I (pre ++ f :: post) recs -> NumCoveredPacketsMissing f = 1%nat ->
    exists res, RecoverPacket fresh f = Some res /\
      match res with
      | None => I (pre ++ post) recs
      | Some r => exists recs' fecs, list_sort recovered_key (recs ++ [r]) = Some recs' /\
          UpdateCoveringFecPackets r (pre ++ f :: post) = Some fecs /\ length fecs = length (pre ++ f :: post) /\
          I (take (length pre) fecs ++ drop (S (length pre)) fecs) (DiscardOldRecoveredPackets recs')
      end) ->
  (forall pre f post recs, I (pre ++ f :: post) recs -> NumCoveredPacketsMissing f = 0%nat -> I (pre ++ post) recs) ->
  (forall pre f post recs, I (pre ++ f :: post) recs -> NumCoveredPacketsMissing f = 2%nat ->
    exists old, IsOldFecPacket MinDiff f recs = Some old /\ (old = true -> I (pre ++ post) recs)) ->
  forall fuel pre post recs, I (pre ++ post) recs -> Forall (fun f => NumCoveredPacketsMissing f = 2%nat) pre ->
  ((length pre + length post) * (length pre + length post) + length post <= fuel)%nat ->
  exists fecs recs', AttemptRecovery fresh MinDiff fuel pre post recs = Some (fecs, recs') /\ I fecs recs' /\
    Forall (fun f => NumCoveredPacketsMissing f = 2%nat) fecs.
Proof.
  intros H1 H0 H2. induction fuel as [|fuel IH]; intros pre post recs HI Hpre Hf.
  - destruct post as [|f post]; [|cbn in Hf; lia]. rewrite app_nil_r in HI. by exists pre, recs.
  - destruct post as [|f post]; [rewrite app_nil_r in HI; by exists pre, recs|]. cbn [AttemptRecovery]. cbn [length] in Hf.
    assert (H3 : (NumCoveredPacketsMissing f <= 2)%nat) by (rewrite NumCovered_spec; lia).
    destruct (Nat.eqb_spec (NumCoveredPacketsMissing f) 1) as [E1|E1].
    + destruct (H1 _ _ _ _ HI E1) as ([r|] & -> & HR); cbn [mbind option_bind].
      * destruct HR as (recs' & fecs & -> & -> & Hlen & HI'). cbn [mbind option_bind]. rewrite length_app in Hlen. cbn [length] in Hlen.
        apply IH; [done|constructor|]. rewrite length_app, length_take, length_drop. cbn [length]. nia.
      * apply IH; [done|done|nia].
    + destruct (Nat.eqb_spec (NumCoveredPacketsMissing f) 0) as [E0|E0].
      * cbn [mbind option_bind]. apply IH; [by apply (H0 pre f)|done|nia].
      * assert (E2 : NumCoveredPacketsMissing f = 2%nat) by lia. destruct (H2 _ _ _ _ HI E2) as (old & -> & Hold). cbn [mbind option_bind].
        destruct old; [apply IH; [by apply Hold|done|nia]|]. apply IH.
        -- by rewrite <- app_assoc.
        -- apply list.Forall_app. split; [done|]. by constructor.
        -- rewrite length_app. cbn [length]. nia.
Qed.

End Loop.

(** ** What every packet in the lists satisfies *)

Section Invariant.
Context {H : FecHeader} {L : FecHeaderLaws}.
Context (fresh : nat -> Z) (MinDiff : Z -> Z -> Z).

(** The SSRCs; what holds of a media packet and its sequence number; what holds of an FEC packet,
    whatever its pointers. *)
Context (own media_ssrc : Z) (P : Z -> bytes -> Prop) (Q : ReceivedFecPacket -> Prop).

Definition ptr_ok (p : ProtectedPacket) : Prop :=
  pp_ssrc p = media_ssrc /\ is_u16 (pp_seq_num p) /\ forall q, pp_pkt p = Some q -> P (pp_seq_num p) q.

Definition rec_ok (r : RecoveredPacket) : Prop := rp_ssrc r = media_ssrc /\ is_u16 (rp_seq_num r) /\ P (rp_seq_num r) (rp_pkt r).

Record fec_ok (f : ReceivedFecPacket) : Prop := FecOk {
  fo_ssrc : rf_ssrc f = own;
  fo_some : protected_packets f <> [];
  fo_ptrs : Forall ptr_ok (protected_packets f);
  fo_q : Q f
}.

(** A packet with the same protected packets but for their pointers. *)
Definition repointed (f f' : ReceivedFecPacket) : Prop :=
  rf_ssrc f' = rf_ssrc f /\ rf_seq_num f' = rf_seq_num f /\ rf_info f' = rf_info f /\ rf_pkt f' = rf_pkt f /\
  map protected_key (protected_packets f') = map protected_key (protected_packets f).

Context (Hrepoint : forall f f', Q f -> repointed f f' -> Q f').
Context (Hrecover : forall f, fec_ok f -> NumCoveredPacketsMissing f = 1%nat ->
  exists res, RecoverPacket fresh f = Some res /\ forall r, res = Some r -> rec_ok r).

Definition dec_inv (this : Decoder) (recs : list RecoveredPacket) : Prop :=
  ssrc_ this = own /\ protected_media_ssrc_ this = media_ssrc /\ Forall fec_ok (received_fec_packets_ this) /\
  (length (received_fec_packets_ this) <= 48)%nat /\ Forall rec_ok recs /\ (length recs <= 192)%nat.

Lemma fecs_same_ssrc fecs : Forall fec_ok fecs -> same_ssrc fec_key own fecs.
Proof. induction 1; constructor; [apply H0|done]. Qed.

Lemma recs_same_ssrc recs : Forall rec_ok recs -> same_ssrc recovered_key media_ssrc recs.
Proof. induction 1; constructor; [apply H0|done]. Qed.

Lemma set_pkt_ok p q : ptr_ok p -> P (pp_seq_num p) q -> ptr_ok (set_pkt p q).
Proof. intros (Hs & Hu & _) Hq. split; [done|]. split; [done|]. cbn. by intros q' [= <-]. Qed.

Lemma cover_ok s q ps : P s q -> Forall ptr_ok ps -> exists ps', cover media_ssrc s q ps = Some ps' /\ Forall ptr_ok ps' /\
  map protected_key ps' = map protected_key ps.
Proof.
  intros Hq Hps. induction Hps as [|p ps Hp Hps IH]; [by exists []|]. cbn [cover]. rewrite (LessThan_same media_ssrc) by (done || apply Hp). cbn [mbind option_bind].
  destruct (IsNewerSequenceNumber _ _).
  - destruct IH as (ps' & -> & H1 & H2). exists (p :: ps'). splits; [done|by constructor|]. cbn. by rewrite H2.
  - eexists. split; [done|]. destruct (Z.eqb_spec (pp_seq_num p) s) as [E|E].
    + split; [|done]. constructor; [|done]. apply set_pkt_ok; [done|by rewrite E].
    + split; [by constructor|done].
Qed.

Lemma with_protected_repointed f ps : map protected_key ps = map protected_key (protected_packets f) -> repointed f (with_protected f ps).
Proof. by intros. Qed.

Lemma fec_ok_repointed f ps : fec_ok f -> Forall ptr_ok ps -> map protected_key ps = map protected_key (protected_packets f) -> fec_ok (with_protected f ps).
Proof.
  intros [F1 F2 F3 F4] Hps Hm. constructor; [done| |done|].
  - cbn. intros ->. cbn in Hm. by destruct (protected_packets f).
  - by eapply Hrepoint.
Qed.

Lemma Update_ok r fecs : rec_ok r -> Forall fec_ok fecs -> exists fecs', UpdateCoveringFecPackets r fecs = Some fecs' /\ Forall fec_ok fecs' /\
  Forall2 repointed fecs fecs'.
Proof.
  intros (Hr1 & _ & Hr2) Hf. induction Hf as [|f fecs Hf _ IH]; [by exists []|]. cbn [UpdateCoveringFecPackets]. rewrite Hr1.
  destruct (cover_ok _ _ (protected_packets f) Hr2) as (ps & -> & H1 & H2); [apply Hf|]. cbn [mbind option_bind].
  destruct IH as (fecs' & -> & H3 & H4). eexists. split; [done|]. split; constructor; try done. by apply fec_ok_repointed.
Qed.

Lemma Assign_ok ps : forall rs, Forall ptr_ok ps -> Forall rec_ok rs -> exists ps', AssignRecoveredPackets ps rs = Some ps' /\ Forall ptr_ok ps' /\
  map protected_key ps' = map protected_key ps.
Proof.
  induction ps as [|p ps IH]; intros rs Hps Hrs; [by exists []|]. inversion Hps as [|? ? Hp Hps']; subst.
  induction Hrs as [|r rs Hr Hrs IHr]; [by exists (p :: ps)|]. cbn [AssignRecoveredPackets].
  rewrite !(LessThan_same media_ssrc) by (apply Hp || apply Hr). cbn [mbind option_bind].
  destruct (IsNewerSequenceNumber (recovered_key r).2 (protected_key p).2) eqn:E1.
  - destruct (IH (r :: rs) Hps') as (ps' & -> & H1 & H2); [by constructor|]. exists (p :: ps'). splits; [done|by constructor|]. cbn. by rewrite H2.
  - destruct (IsNewerSequenceNumber (protected_key p).2 (recovered_key r).2) eqn:E2; [exact IHr|].
    destruct (IH rs Hps' Hrs) as (ps' & -> & H1 & H2). eexists. splits; [done| |cbn; by rewrite H2]. constructor; [|done].
    apply set_pkt_ok; [done|]. cbn in E1, E2. destruct Hp as (_ & Hp & _), Hr as (_ & Hr & Hr').
    by rewrite (neither_newer (pp_seq_num p) (rp_seq_num r)).
Qed.

Lemma Discard_length recs : (length (DiscardOldRecoveredPackets recs) <= 192)%nat.
Proof. unfold DiscardOldRecoveredPackets. destruct law_limits as (_ & _ & HR & _). rewrite HR, length_drop. lia. Qed.

Lemma Discard_ok recs : Forall rec_ok recs -> Forall rec_ok (DiscardOldRecoveredPackets recs).
Proof. intros. by apply Forall_drop. Qed.

Lemma sort_recs recs r : Forall rec_ok recs -> rec_ok r -> exists recs', list_sort recovered_key (recs ++ [r]) = Some recs' /\
  Permutation recs' (r :: recs) /\ Forall rec_ok recs'.
Proof.
  intros Hrecs Hr. assert (Hall : Forall rec_ok (recs ++ [r])) by (apply list.Forall_app; split; [done|]; by constructor).
  destruct (list_sort_perm recovered_key media_ssrc (recs ++ [r])) as (recs' & E & HP); [by apply recs_same_ssrc|].
  exists recs'. split; [done|]. split; [rewrite HP; symmetry; apply Permutation_cons_append|by rewrite HP].
Qed.

Lemma IsOld_total f recs : fec_ok f -> exists old, IsOldFecPacket MinDiff f recs = Some old.
Proof.
  intros Hf. unfold IsOldFecPacket. destruct (list.last recs); [|by eexists].
  destruct (list.last (protected_packets f)) eqn:E; [by eexists|]. apply list.last_None in E. by destruct (fo_some f Hf).
Qed.

Lemma Attempt_ok fecs recs : Forall fec_ok fecs -> (length fecs <= 48)%nat -> Forall rec_ok recs -> (length recs <= 192)%nat ->
  exists fecs' recs', AttemptRecovery fresh MinDiff (recovery_fuel (length fecs)) [] fecs recs = Some (fecs', recs') /\
    (Forall fec_ok fecs' /\ (length fecs' <= 48)%nat /\ Forall rec_ok recs' /\ (length recs' <= 192)%nat) /\
    Forall (fun f => NumCoveredPacketsMissing f = 2%nat) fecs'.
Proof.
  intros Hf Hfl Hr Hrl.
  apply (AttemptRecovery_ind fresh MinDiff (fun fecs recs => Forall fec_ok fecs /\ (length fecs <= 48)%nat /\ Forall rec_ok recs /\ (length recs <= 192)%nat)).
  - intros pre f post rs (F & Fl & R & Rl) E. assert (Hok : fec_ok f) by (apply list.Forall_app in F as [_ F]; by inversion F).
    destruct (Hrecover f Hok E) as (res & -> & Hres). exists res. split; [done|]. destruct res as [r|].
    + specialize (Hres r eq_refl). destruct (sort_recs rs r R Hres) as (rs' & Es & HP & HR).
      destruct (Update_ok r (pre ++ f :: post) Hres F) as (fs & Ef & HF & HF2). exists rs', fs. splits; try done.
      * symmetry. by eapply Forall2_length.
      * apply list.Forall_app. split; [by apply Forall_take|by apply Forall_drop].
      * pose proof (Forall2_length HF2) as HL. rewrite length_app, length_take, length_drop. rewrite length_app in *. cbn [length] in *. lia.
      * by apply Discard_ok.
      * apply Discard_length.
    + apply list.Forall_app in F as [F1 F2]. inversion F2; subst. rewrite length_app in *. cbn [length] in *. splits; try done; [|lia]. by apply list.Forall_app.
  - intros pre f post rs (F & Fl & R & Rl) _. apply list.Forall_app in F as [F1 F2]. inversion F2; subst. rewrite length_app in *. cbn [length] in *.
    splits; try done; [|lia]. by apply list.Forall_app.
  - intros pre f post rs (F & Fl & R & Rl) _. apply list.Forall_app in F as [F1 F2]. inversion F2; subst.
    destruct (IsOld_total f rs) as [old Eo]; [done|]. exists old. split; [done|]. intros _. rewrite length_app in *. cbn [length] in *. splits; try done; [|lia]. by apply list.Forall_app.
  - done.
  - constructor.
  - unfold recovery_fuel. cbn. lia.
Qed.

(** ** One call *)

Lemma discard_far_ok s fecs : Forall fec_ok fecs -> Forall fec_ok (discard_far MinDiff s fecs) /\ (length (discard_far MinDiff s fecs) <= length fecs)%nat.
Proof.
  intros Hf. induction Hf as [|f fecs Hf Hfs [IH1 IH2]]; [split; [constructor|done]|]. cbn [discard_far].
  destruct (_ >? _); [cbn [length]; split; [done|lia]|]. split; [by constructor|done].
Qed.

Lemma InsertMedia_ok this recs received : dec_inv this recs -> is_fec received = false -> rv_ssrc received = media_ssrc ->
  is_u16 (rv_seq_num received) -> P (rv_seq_num received) (rv_pkt received) ->
  exists this' recs', InsertMediaPacket this recs received = Some (this', recs') /\
    ssrc_ this' = own /\ protected_media_ssrc_ this' = media_ssrc /\ Forall fec_ok (received_fec_packets_ this') /\
    (length (received_fec_packets_ this') <= 48)%nat /\ Forall rec_ok recs'.
Proof.
  intros (I1 & I2 & I3 & I4 & I5 & I6) _ Hs Hu Hp. unfold InsertMediaPacket. rewrite I2, check_then by (by apply Z.eqb_eq). rewrite Hs.
  destruct (duplicate_spec recovered_key media_ssrc (rv_seq_num received) recs) as (b & -> & _); [by apply recs_same_ssrc|]. cbn [mbind option_bind].
  destruct b; [by exists this, recs|]. set (r := MkRecovered _ _ _ _ _). assert (Hr : rec_ok r) by done.
  destruct (sort_recs recs r I5 Hr) as (recs' & -> & _ & HR). cbn [mbind option_bind].
  destruct (Update_ok r (received_fec_packets_ this) Hr I3) as (fecs & -> & HF & HF2). cbn [mbind option_bind].
  exists (with_fecs this fecs), recs'. splits; try done. cbn. by rewrite <- (Forall2_length HF2).
Qed.

(** A packet InsertFecPacket puts in the list. *)
Definition accepted (received : ReceivedPacket) : Prop :=
  exists pkt ret, ReadFecHeader (rv_ssrc received) (rv_pkt received) = Some (pkt, ret) /\
  forall info, ret = Some info -> protected_ssrc info = media_ssrc -> packet_mask_offset info + packet_mask_size info <= zlen pkt ->
  exists ps, parse_mask (Z.to_nat (packet_mask_size info)) media_ssrc (seq_num_base info) (packet_mask_offset info) 0 pkt = Some ps /\
    Forall ptr_ok ps /\ (ps <> [] -> Q (MkReceivedFec (rv_ssrc received) (rv_seq_num received) info ps pkt)).

Lemma InsertFec_ok this recs received : dec_inv this recs -> rv_ssrc received = own -> accepted received ->
  exists this', InsertFecPacket this recs received = Some this' /\
    ssrc_ this' = own /\ protected_media_ssrc_ this' = media_ssrc /\ Forall fec_ok (received_fec_packets_ this') /\
    (length (received_fec_packets_ this') <= 48)%nat.
Proof.
  intros (I1 & I2 & I3 & I4 & I5 & I6) Hs (pkt & ret & Hread & Hacc). unfold InsertFecPacket. rewrite I1, check_then by (by apply Z.eqb_eq).
  rewrite Hs in *. destruct (duplicate_spec fec_key own (rv_seq_num received) (received_fec_packets_ this)) as (b & -> & _); [by apply fecs_same_ssrc|].
  cbn [mbind option_bind]. destruct b; [by exists this|]. rewrite Hread. cbn [mbind option_bind]. destruct ret as [info|]; [|by exists this].
  rewrite I2. destruct (Z.eqb_spec (protected_ssrc info) media_ssrc) as [E|]; cbn [negb]; [|by exists this].
  destruct (Z.gtb_spec (packet_mask_offset info + packet_mask_size info) (zlen pkt)) as [|Hle]; [by exists this|].
  destruct (Hacc info eq_refl E Hle) as (ps & -> & Hps & HQ). cbn [mbind option_bind].
  destruct ps as [|p ps0] eqn:Eps; [by exists this|]. rewrite <- Eps in *. assert (Hne : ps <> []) by (by rewrite Eps). clear Eps.
  destruct (Assign_ok ps recs Hps I5) as (ps' & -> & H1 & H2). cbn [mbind option_bind].
  set (f := MkReceivedFec own _ info ps' pkt). assert (Hf : fec_ok f).
  { constructor; [done| |done|].
    - cbn. intros ->. cbn in H2. by destruct ps.
    - eapply Hrepoint; [exact (HQ Hne)|]. by splits. }
  assert (Hall : Forall fec_ok (received_fec_packets_ this ++ [f])) by (apply list.Forall_app; split; [done|]; by constructor).
  destruct (list_sort_perm fec_key own (received_fec_packets_ this ++ [f])) as (fecs & -> & HP); [by apply fecs_same_ssrc|]. cbn [mbind option_bind]. cbv zeta.
  assert (HF : Forall fec_ok fecs) by (by rewrite HP). assert (HL : (length fecs <= 49)%nat) by (rewrite HP, length_app; cbn; lia).
  destruct law_limits as (_ & _ & _ & HM). rewrite HM.
  set (fecs' := if zlen fecs >? 48 then tail fecs else fecs).
  assert (HF' : Forall fec_ok fecs' /\ (length fecs' <= 48)%nat).
  { unfold fecs'. destruct (Z.gtb_spec (zlen fecs) 48); [|split; [done|lia]]. destruct HF; cbn in *; [split; [constructor|lia]|]. split; [done|lia]. }
  destruct HF' as [HF1 HF2]. rewrite check_then by (apply Z.leb_le; lia). exists (with_fecs this fecs'). by splits.
Qed.

(** Every call succeeds, keeps what holds of the packets, and leaves no FEC packet from which a
    packet can be recovered. *)
Lemma DecodeFec_ok this recs received : dec_inv this recs -> is_u16 (rv_seq_num received) ->
  (if is_fec received then rv_ssrc received = own /\ accepted received
   else rv_ssrc received = media_ssrc /\ P (rv_seq_num received) (rv_pkt received)) ->
  exists this' recs', DecodeFec fresh MinDiff this recs received = Some (this', recs') /\ dec_inv this' recs' /\
    Forall (fun f => NumCoveredPacketsMissing f = 2%nat) (received_fec_packets_ this').
Proof.
  intros HI Hu Hin. unfold DecodeFec. set (start := if zlen recs =? _ then _ else _).
  assert (Hstart : exists this0 recs0, start = (this0, recs0) /\ dec_inv this0 recs0).
  { unfold start. destruct (_ =? _); [|by exists this, recs]. destruct (list.last recs); [|by exists this, recs].
    destruct (_ && _); [|by exists this, recs]. exists (with_fecs this []), []. split; [done|]. destruct HI as (I1 & I2 & _). unfold dec_inv. splits; [done|done|constructor|cbn; lia|constructor|cbn; lia]. }
  destruct Hstart as (this0 & recs0 & -> & HI0). clear HI.
  unfold InsertPacket. set (this1 := match received_fec_packets_ this0 with [] => _ | _ => _ end).
  assert (HI1 : dec_inv this1 recs0).
  { destruct HI0 as (I1 & I2 & I3 & I4 & I5 & I6). unfold this1. destruct (received_fec_packets_ this0) as [|f fecs] eqn:E; [by unfold dec_inv; rewrite E|].
    destruct (_ =? _); [|by unfold dec_inv; rewrite E]. rewrite <- E in *.
    destruct (discard_far_ok (rv_seq_num received) _ I3). unfold dec_inv. splits; try done. cbn. lia. }
  clearbody this1. clear HI0.
  assert (Hins : exists this2 recs2, (if is_fec received then this ← InsertFecPacket this1 recs0 received; Some (this, recs0)
     else InsertMediaPacket this1 recs0 received) = Some (this2, recs2) /\ ssrc_ this2 = own /\ protected_media_ssrc_ this2 = media_ssrc /\
     Forall fec_ok (received_fec_packets_ this2) /\ (length (received_fec_packets_ this2) <= 48)%nat /\ Forall rec_ok recs2).
  { destruct (is_fec received) eqn:E.
    - destruct Hin as [Hs Ha]. destruct (InsertFec_ok this1 recs0 received HI1 Hs Ha) as (this2 & -> & K1 & K2 & K3 & K4). exists this2, recs0. splits; try done. apply HI1.
    - destruct Hin as [Hs Hp]. by apply InsertMedia_ok. }
  destruct Hins as (this2 & recs2 & -> & K1 & K2 & K3 & K4 & K5). cbn [mbind option_bind].
  destruct (Attempt_ok (received_fec_packets_ this2) (DiscardOldRecoveredPackets recs2)) as (fecs & recs3 & -> & (A1 & A2 & A3 & A4) & A5);
    [done|done|by apply Discard_ok|apply Discard_length|]. cbn [mbind option_bind].
  exists (with_fecs this2 fecs), recs3. unfold dec_inv. by splits.
Qed.

End Invariant.

(** ** The packets of a mask *)

Fixpoint set_bits (start : nat) (bits : list bool) : list nat :=
  match bits with
  | [] => []
  | b :: bits => (if b : bool then [start] else []) ++ set_bits (S start) bits
  end.

Lemma set_bits_app start a b : set_bits start (a ++ b) = set_bits start a ++ set_bits (start + length a) b.
Proof.
  revert start. induction a as [|x a IH]; intros start; [cbn; by rewrite Nat.add_0_r|]. cbn [set_bits app length]. rewrite IH, app_assoc.
  do 2 f_equal. lia.
Qed.

Lemma set_bits_spec start bits j : j ∈ set_bits start bits <-> (start <= j)%nat /\ bits !! (j - start)%nat = Some true.
Proof.
  revert start. induction bits as [|b bits IH]; intros start.
  - cbn. split; [intros Hj; by apply elem_of_nil in Hj|]. intros [_ Hj]. by rewrite lookup_nil in Hj.
  - cbn [set_bits]. rewrite elem_of_app, IH. destruct (decide (j = start)) as [->|Hne].
    + rewrite Nat.sub_diag. cbn. split.
      * intros [Hj|[Hj _]]; [|lia]. destruct b; [done|by apply elem_of_nil in Hj].
      * intros [_ [= ->]]. left. by left.
    + split.
      * intros [Hj|[Hj1 Hj2]]; [destruct b; [apply elem_of_cons in Hj as [-> | Hj]; [done|]|]; by apply elem_of_nil in Hj|].
        split; [lia|]. replace (j - start)%nat with (S (j - S start)) by lia. done.
      * intros [Hj1 Hj2]. right. split; [lia|]. replace (j - start)%nat with (S (j - S start)) in Hj2 by lia. done.
Qed.

Lemma set_bits_sorted start bits : StronglySorted lt (set_bits start bits).
Proof.
  revert start. induction bits as [|b bits IH]; intros start; [constructor|]. cbn [set_bits]. destruct b; [|apply IH]. cbn [app]. constructor; [apply IH|].
  apply list.Forall_forall. intros j Hj. apply set_bits_spec in Hj as [Hj _]. lia.
Qed.

Definition named (ssrc base : Z) (j : nat) : ProtectedPacket := MkProtected ssrc (u16 (base + Z.of_nat j)) None.

Lemma named_bit ssrc base k x m (t : bool) : Z.of_nat m = Z.of_nat k * 8 + x ->
  (if t then [MkProtected ssrc (u16 (base + Z.of_nat k * 8 + x)) None] else []) = map (named ssrc base) (if t then [m] else []).
Proof. intros Hm. destruct t; [|done]. cbn [map]. unfold named. rewrite Hm. do 3 f_equal. lia. Qed.

Lemma protected_of_spec ssrc base k b : protected_of ssrc base (Z.of_nat k) b = map (named ssrc base) (set_bits (8 * k) (octet_bits b)).
Proof.
  unfold protected_of, octet_bits. cbn [flat_map map set_bits]. rewrite !land_bit by lia.
  change (7 - 0) with 7. change (7 - 1) with 6. change (7 - 2) with 5. change (7 - 3) with 4. change (7 - 4) with 3. change (7 - 5) with 2. change (7 - 6) with 1. change (7 - 7) with 0.
  rewrite !map_app. rewrite Z.shiftl_mul_pow2 by lia. change (2 ^ 3) with 8.
  do 7 (f_equal; [apply named_bit; lia|]). f_equal. apply named_bit. lia.
Qed.

Lemma parse_mask_spec ssrc base off mask : forall k data, 0 <= off ->
  (forall i, (i < length mask)%nat -> peek data (off + Z.of_nat (k + i)) = mask !! i) ->
  parse_mask (length mask) ssrc base off (Z.of_nat k) data = Some (map (named ssrc base) (set_bits (8 * k) (mask_bits mask))).
Proof.
  induction mask as [|b mask IH]; intros k data Ho Hp; [done|]. cbn [length parse_mask]. pose proof (Hp 0%nat) as H0. rewrite Nat.add_0_r in H0. cbn in H0.
  rewrite H0 by lia. cbn [mbind option_bind]. replace (Z.of_nat k + 1) with (Z.of_nat (S k)) by lia.
  rewrite (IH (S k)); [|done|intros i Hi; replace (S k + i)%nat with (k + S i)%nat by lia; apply (Hp (S i)); cbn; lia]. cbn [mbind option_bind].
  cbn [mask_bits flat_map]. rewrite set_bits_app, map_app, protected_of_spec. do 3 f_equal. f_equal. rewrite octet_bits_length. lia.
Qed.

Lemma parse_mask_load ssrc base off n data mask : 0 <= off -> load data off n = Some mask ->
  parse_mask n ssrc base off 0 data = Some (map (named ssrc base) (set_bits 0 (mask_bits mask))).
Proof.
  intros Ho Hl. assert (E : n = length mask) by (symmetry; by apply (load_length data off)). subst n.
  apply (parse_mask_spec ssrc base off mask 0 data Ho). intros i Hi. cbn [Nat.add]. by apply (load_peek data off (length mask) mask).
Qed.

(** ** Safety *)

Lemma XorHeaders_safe src dst : wf_packet src -> is_bytes dst -> 8 <= zlen dst ->
  exists d, XorHeaders src dst = Some d /\ is_bytes d /\ zlen d = zlen dst.
Proof.
  intros Hs Hd Hl. pose proof (XorHeaders_spec src (take 8 dst) (drop 8 dst) Hs ltac:(rewrite length_take; lia)) as E. rewrite take_drop in E. rewrite E. eexists. split; [done|]. split.
  - apply list.Forall_app. split; [|by apply Forall_drop]. apply xor_ext_bytes; [by apply Forall_take|by apply recovery_bytes].
  - rewrite length_app, xor_ext_length, length_take, length_drop, recovery_length by (destruct Hs; lia). lia.
Qed.

Lemma SetSize_length fill n data : 0 <= n -> zlen (SetSize fill n data) = n.
Proof. intros. unfold SetSize. rewrite length_app, length_take, length_map, length_seq. lia. Qed.

Lemma SetSize_bytes fill n data : (forall i, is_u8 (fill i)) -> is_bytes data -> is_bytes (SetSize fill n data).
Proof.
  intros Hf Hd. apply list.Forall_app. split; [by apply Forall_take|]. apply Forall_map. apply list.Forall_forall. intros i _. apply Hf.
Qed.

Lemma zip_lxor_bytes a b : is_bytes a -> is_bytes b -> is_bytes (zip_with Z.lxor a b).
Proof.
  intros Ha. revert b. induction Ha as [|x a Hx Ha IH]; intros b Hb; [constructor|]. destruct Hb as [|y b Hy Hb]; [constructor|].
  cbn. constructor; [by apply lxor_u8|by apply IH].
Qed.

Lemma put_safe d off bs : is_bytes d -> is_bytes bs -> 0 <= off -> off + zlen bs <= zlen d ->
  exists d', put d off bs = Some d' /\ is_bytes d' /\ zlen d' = zlen d.
Proof.
  intros Hd Hb Ho Hl. rewrite put_at by done. eexists. split; [done|]. split.
  - apply list.Forall_app. split; [by apply Forall_take|]. apply list.Forall_app. split; [done|by apply Forall_drop].
  - rewrite !length_app, length_take, length_drop. lia.
Qed.

Section Safe.
Context (fresh : nat -> Z) (Hfresh : forall i, is_u8 (fresh i)).

(** A media packet no larger than the buffers. *)
Definition sized_packet (p : bytes) : Prop := wf_packet p /\ zlen p <= 1500.

Lemma XorPayloads_safe src dst : sized_packet src -> is_bytes dst -> 12 <= zlen dst <= 1500 ->
  exists d, XorPayloads fresh src (zlen src - kRtpHeaderSize) kRtpHeaderSize dst = Some d /\ is_bytes d /\ 12 <= zlen d <= 1500.
Proof.
  intros [[Hb Hl] Hs] Hd Hdl. unfold XorPayloads. change kRtpHeaderSize with 12. change IP_PACKET_SIZE with 1500.
  rewrite !check_then by (apply Z.leb_le; lia). cbv zeta.
  set (dst' := if 12 + (zlen src - 12) >? zlen dst then SetSize fresh (12 + (zlen src - 12)) dst else dst).
  assert (Hd' : is_bytes dst' /\ 12 <= zlen dst' <= 1500 /\ zlen src <= zlen dst').
  { unfold dst'. destruct (Z.gtb_spec (12 + (zlen src - 12)) (zlen dst)).
    - rewrite SetSize_length by lia. split; [by apply SetSize_bytes|lia].
    - split; [done|lia]. }
  destruct Hd' as (D1 & D2 & D3). rewrite load_Some by lia. cbn [mbind option_bind].
  set (l := take _ _). assert (Hll : zlen l = zlen src - 12) by (unfold l; rewrite length_take, length_drop; lia).
  assert (Hlb : is_bytes l) by (by apply Forall_take, Forall_drop). unfold xor_at. rewrite load_Some by lia. cbn [mbind option_bind].
  destruct (put_safe dst' 12 (zip_with Z.lxor (take (length l) (drop (Z.to_nat 12) dst')) l)) as (d & E & Hdb & Hdlen); try done; try lia.
  - apply zip_lxor_bytes; [by apply Forall_take, Forall_drop|done].
  - rewrite length_zip_with, length_take, length_drop. lia.
  - exists d. split; [done|]. split; [done|lia].
Qed.

Lemma xor_protected_safe ps : Forall (fun p => is_u16 (pp_seq_num p) /\ forall q, pp_pkt p = Some q -> sized_packet q) ps ->
  forall s data, is_u16 s -> is_bytes data -> 12 <= zlen data <= 1500 ->
  exists s' data', xor_protected fresh ps s data = Some (s', data') /\ is_u16 s' /\ is_bytes data' /\ 12 <= zlen data' <= 1500.
Proof.
  induction 1 as [|p ps [Hu Hp] _ IH]; intros s data Hs Hd Hl; [by exists s, data|]. cbn [xor_protected]. destruct (pp_pkt p) as [q|]; [|by apply IH].
  specialize (Hp q eq_refl). destruct (XorHeaders_safe q data) as (d1 & -> & D1 & L1); [apply Hp|done|lia|]. cbn [mbind option_bind].
  destruct (XorPayloads_safe q d1) as (d2 & -> & D2 & L2); [done|done|lia|]. cbn [mbind option_bind]. by apply IH.
Qed.

Lemma Finish_safe f s data : is_bytes data -> 12 <= zlen data <= 1500 ->
  exists res, FinishPacketRecovery fresh f s data = Some res /\ forall d, res = Some d -> sized_packet d.
Proof.
  intros Hd Hl. unfold FinishPacketRecovery. destruct (peek_u8_Some data 0 Hd ltac:(lia)) as (b0 & -> & Hb0). cbn [mbind option_bind].
  destruct (put_safe data 0 [Z.lor b0 0x80]) as (d1 & -> & D1 & L1); [done|constructor; [by apply lor_u8|constructor]|lia|cbn; lia|]. cbn [mbind option_bind].
  destruct (peek_u8_Some d1 0 D1 ltac:(lia)) as (b1 & -> & Hb1). cbn [mbind option_bind].
  destruct (put_safe d1 0 [Z.land b1 0xbf]) as (d2 & -> & D2 & L2); [done|constructor; [by apply land_u8|constructor]|lia|cbn; lia|]. cbn [mbind option_bind].
  destruct (read_u16_Some d2 2 D2) as (len & -> & Hlen); [lia|lia|]. cbn [mbind option_bind]. unfold is_u16 in Hlen. change kRtpHeaderSize with 12. change IP_PACKET_SIZE with 1500.
  destruct (Z.gtb_spec (len + 12) (1500 - 12)); [by exists None|]. cbv zeta.
  assert (D3 : is_bytes (SetSize fresh (len + 12) d2)) by (by apply SetSize_bytes).
  assert (L3 : zlen (SetSize fresh (len + 12) d2) = len + 12) by (apply SetSize_length; lia).
  rewrite !WriteBigEndian_spec.
  destruct (put_safe (SetSize fresh (len + 12) d2) 2 (be_bytes 2 s)) as (d4 & -> & D4 & L4); [done|apply be_bytes_is_bytes|lia|rewrite length_be_bytes; lia|]. cbn [mbind option_bind].
  destruct (put_safe d4 8 (be_bytes 4 (protected_ssrc (rf_info f)))) as (d5 & -> & D5 & L5); [done|apply be_bytes_is_bytes|lia|rewrite length_be_bytes; lia|]. cbn [mbind option_bind].
  eexists. split; [done|]. intros d [= <-]. split; [split; [done|lia]|lia].
Qed.

(** What InsertFecPacket checked of a packet it keeps. *)
Definition plausible (own media_ssrc : Z) (f : ReceivedFecPacket) : Prop :=
  is_bytes (rf_pkt f) /\ info_safe own (zlen (rf_pkt f)) (rf_info f) /\ protected_ssrc (rf_info f) = media_ssrc.

Lemma Start_safe f own media_ssrc : plausible own media_ssrc f ->
  exists res, StartPacketRecovery fresh f = Some res /\ forall d, res = Some d -> is_bytes d /\ 12 <= zlen d <= 1500.
Proof.
  intros (Hb & [I1 I2 I3 I4 I5 I6] & _). unfold StartPacketRecovery. cbv zeta. destruct (Z.ltb_spec (zlen (rf_pkt f)) (fec_header_size (rf_info f) + protection_length (rf_info f))); [by exists None|].
  change (IP_PACKET_SIZE - kRtpHeaderSize) with 1488. change kRtpHeaderSize with 12.
  destruct (Z.gtb_spec (protection_length (rf_info f)) (Z.min 1488 (u64 (IP_PACKET_SIZE - fec_header_size (rf_info f))))) as [|Hle]; [by exists None|].
  set (n := protection_length (rf_info f)) in *.
  assert (D0 : is_bytes (SetSize fresh (n + 12) [])) by (apply SetSize_bytes; [done|constructor]).
  assert (L0 : zlen (SetSize fresh (n + 12) []) = n + 12) by (apply SetSize_length; lia).
  rewrite (load_Some (rf_pkt f) 0) by lia. cbn [mbind option_bind].
  destruct (put_safe (SetSize fresh (n + 12) []) 0 (take (Z.to_nat 12) (drop (Z.to_nat 0) (rf_pkt f)))) as (d1 & -> & D1 & L1);
    [done|by apply Forall_take, Forall_drop|lia|rewrite length_take; lia|]. cbn [mbind option_bind].
  destruct (Z.gtb_spec n 0).
  - rewrite load_Some by lia. cbn [mbind option_bind].
    destruct (put_safe d1 12 (take (Z.to_nat n) (drop (Z.to_nat (fec_header_size (rf_info f))) (rf_pkt f)))) as (d2 & -> & D2 & L2);
      [done|by apply Forall_take, Forall_drop|lia|rewrite length_take; lia|]. cbn [mbind option_bind].
    eexists. split; [done|]. intros d [= <-]. split; [done|lia].
  - eexists. split; [done|]. intros d [= <-]. split; [done|lia].
Qed.

Lemma Recover_safe f own media_ssrc : plausible own media_ssrc f ->
  Forall (fun p => is_u16 (pp_seq_num p) /\ forall q, pp_pkt p = Some q -> sized_packet q) (protected_packets f) ->
  exists res, RecoverPacket fresh f = Some res /\ forall r, res = Some r -> rp_ssrc r = media_ssrc /\ is_u16 (rp_seq_num r) /\ sized_packet (rp_pkt r).
Proof.
  intros Hf Hps. unfold RecoverPacket. destruct (Start_safe f own media_ssrc Hf) as ([d|] & -> & Hd); cbn [mbind option_bind]; [|by exists None].
  destruct (Hd d eq_refl) as [D1 D2]. destruct (xor_protected_safe _ Hps 0 d) as (s & d' & -> & Hs & D1' & D2'); [unfold is_u16; lia|done|done|]. cbn [mbind option_bind].
  destruct (Finish_safe f s d') as (res & -> & Hres); [done|done|]. cbn [mbind option_bind]. eexists. split; [done|].
  intros r Hr. destruct res as [d2|]; [|done]. injection Hr as <-. cbn. splits; [apply Hf|done|by apply Hres].
Qed.

End Safe.

(** ** Any sequence of packets *)

Section Runs.
Context {H : FecHeader} {L : FecHeaderLaws}.
Context (fresh : nat -> Z) (MinDiff : Z -> Z -> Z).

Fixpoint decode_all (this : Decoder) (recs : list RecoveredPacket) (received : list ReceivedPacket) : option (Decoder * list RecoveredPacket) :=
  match received with
  | [] => Some (this, recs)
  | p :: received => '(this, recs) ← DecodeFec fresh MinDiff this recs p; decode_all this recs received
  end.

(** A packet that keeps what holds of the lists. *)
Definition input_ok (own media_ssrc : Z) (P : Z -> bytes -> Prop) (Q : ReceivedFecPacket -> Prop) (p : ReceivedPacket) : Prop :=
  is_u16 (rv_seq_num p) /\
  if is_fec p then rv_ssrc p = own /\ accepted media_ssrc P Q p else rv_ssrc p = media_ssrc /\ P (rv_seq_num p) (rv_pkt p).

Lemma decode_all_ok own media_ssrc P Q received : (forall f f', Q f -> repointed f f' -> Q f') ->
  (forall f, fec_ok own media_ssrc P Q f -> NumCoveredPacketsMissing f = 1%nat ->
    exists res, RecoverPacket fresh f = Some res /\ forall r, res = Some r -> rec_ok media_ssrc P r) ->
  Forall (input_ok own media_ssrc P Q) received -> forall this recs, dec_inv own media_ssrc P Q this recs ->
  exists this' recs', decode_all this recs received = Some (this', recs') /\ dec_inv own media_ssrc P Q this' recs'.
Proof.
  intros HQ HR. induction 1 as [|p received [Hu Hp] _ IH]; intros this recs HI; [by exists this, recs|]. cbn [decode_all].
  destruct (DecodeFec_ok fresh MinDiff own media_ssrc P Q HQ HR this recs p HI Hu Hp) as (this' & recs' & -> & HI' & _). cbn [mbind option_bind]. by apply IH.
Qed.

Lemma named_ok media_ssrc base P js : Forall (ptr_ok media_ssrc P) (map (named media_ssrc base) js).
Proof. apply Forall_map. apply list.Forall_forall. intros j _. split; [done|]. split; [apply u16_range|done]. Qed.

Lemma accepted_any own media_ssrc received : is_bytes (rv_pkt received) -> rv_ssrc received = own ->
  accepted media_ssrc (fun _ q => sized_packet q) (plausible own media_ssrc) received.
Proof.
  intros Hb Hs. destruct (law_safe own (rv_pkt received) Hb) as (pkt & ret & E & Hpb & Hpl & Hinfo). exists pkt, ret. rewrite Hs. split; [done|].
  intros info -> Hssrc Hle. destruct Hinfo as [I1 I2 I3 I4 I5 I6].
  pose proof (load_Some pkt (packet_mask_offset info) (Z.to_nat (packet_mask_size info)) I2 ltac:(lia)) as Hmask.
  rewrite (parse_mask_load _ _ _ _ _ _ I2 Hmask). eexists. split; [done|]. split; [apply named_ok|]. intros _.
  split; [done|]. cbn [rf_pkt rf_info]. split; [|done]. by constructor.
Qed.

(** What the network can bring: FEC packets of any octets, media packets of the sizes a buffer
    takes. *)
Definition arrival (own media_ssrc : Z) (p : ReceivedPacket) : Prop :=
  is_u16 (rv_seq_num p) /\
  if is_fec p then rv_ssrc p = own /\ is_bytes (rv_pkt p) else rv_ssrc p = media_ssrc /\ sized_packet (rv_pkt p).

Lemma plausible_repoint own media_ssrc f f' : plausible own media_ssrc f -> repointed f f' -> plausible own media_ssrc f'.
Proof. intros (P1 & P2 & P3) (_ & _ & R1 & R2 & _). unfold plausible. by rewrite R1, R2. Qed.

Lemma decode_all_safe own media_ssrc (Hfresh : forall i, is_u8 (fresh i)) received : Forall (arrival own media_ssrc) received ->
  forall this recs, dec_inv own media_ssrc (fun _ q => sized_packet q) (plausible own media_ssrc) this recs ->
  exists this' recs', decode_all this recs received = Some (this', recs') /\
    dec_inv own media_ssrc (fun _ q => sized_packet q) (plausible own media_ssrc) this' recs'.
Proof.
  intros Hr. apply decode_all_ok; [apply plausible_repoint| |].
  - intros f [F1 F2 F3 F4] _. destruct (Recover_safe fresh Hfresh f own media_ssrc F4) as (res & E & Hres); [|by exists res].
    eapply List.Forall_impl; [|exact F3]. by intros p0 (_ & Hu0 & Hq0).
  - eapply List.Forall_impl; [|exact Hr]. intros p [Hu Hp]. split; [done|]. destruct (is_fec p); [|done]. destruct Hp as [Hs Hb].
    split; [done|]. by apply accepted_any.
Qed.

End Runs.
