(* ===== verification/FecRecovery.v ===== *)
(** * What the FEC decoder recovers

    With FEC packets that are parities of packets that were sent, the decoder recovers exactly
    packets that were sent: RecoverPacket on one FEC packet, then the lists of the decoder over
    any sequence of packets. *)

From Stdlib Require Import Sorted.
From S2P Require Import Prelude.
From S2P Require Import SeqNum.
From S2P Require Import ByteIo.
From S2P Require Import Buffers.
From S2P Require Import RtcpCore.
From S2P Require Import FecTables.
From S2P Require Import FecMasks.
From S2P Require Import FecHeader.
From S2P Require Import FecXor.
From S2P Require Import FecDecoder.

(** ** One packet *)

(** An RTP packet of version 2 with sequence number [s], on the stream [ssrc], short enough for
    FinishPacketRecovery. *)
Definition media_packet (ssrc s : Z) (p : bytes) : Prop :=
  is_bytes p /\ zlen p <= 1488 /\ exists b0 b1 ts pay, p = b0 :: b1 :: be_bytes 2 s ++ ts ++ be_bytes 4 ssrc ++ pay /\
    length ts = 4%nat /\ Z.land b0 0xc0 = 0x80.

Lemma media_wf ssrc s p : media_packet ssrc s p -> wf_packet p.
Proof.
  intros (Hb & Hl & b0 & b1 & ts & pay & -> & Ht & _). split; [done|]. split; [|lia]. cbn [length]. rewrite !length_app, !length_be_bytes, Ht. lia.
Qed.

(** Two recovery fields that agree but for the two top bits. *)
Definition same_fields (h h' : bytes) : Prop := exists b b' r, h = b :: r /\ h' = b' :: r /\ length r = 7%nat /\ Z.land b 0x3f = Z.land b' 0x3f.

(** The packets that the FEC packet [f] protects were [ps], and its octets are their parity. *)
Record describes (truth : Z -> option bytes) (media_ssrc : Z) (f : ReceivedFecPacket) (ps : list bytes) : Prop := Describes {
  ds_packets : Forall2 (fun pp p => truth (pp_seq_num pp) = Some p) (protected_packets f) ps;
  ds_some : ps <> [];
  ds_bytes : is_bytes (rf_pkt f);
  ds_header : exists h x, rf_pkt f = h ++ x /\ same_fields (parity recovery ps) h;
  ds_size : 12 < fec_header_size (rf_info f) <= 32;
  ds_length : zlen (rf_pkt f) = fec_header_size (rf_info f) + zlen (parity payload ps);
  ds_payload : drop (Z.to_nat (fec_header_size (rf_info f))) (rf_pkt f) = parity payload ps;
  ds_protection : protection_length (rf_info f) = zlen (parity payload ps);
  ds_fits : fec_header_size (rf_info f) + zlen (parity payload ps) <= 1500;
  ds_ssrc : protected_ssrc (rf_info f) = media_ssrc
}.

(** The version bits that FinishPacketRecovery writes. *)
Lemma version_octet c b0 : is_u8 c -> is_u8 b0 -> Z.land c 0x3f = Z.land b0 0x3f -> Z.land b0 0xc0 = 0x80 ->
  Z.land (Z.lor c 0x80) 0xbf = b0.
Proof.
  intros Hc Hb E V.
  assert (C : Z.land (Z.lor c 0x80) 0xbf = Z.lor 0x80 (Z.land c 0x3f)).
  { pose proof (octet_all (fun c => Z.land (Z.lor c 0x80) 0xbf =? Z.lor 0x80 (Z.land c 0x3f)) ltac:(vm_compute; reflexivity) c Hc) as C. by apply Z.eqb_eq. }
  pose proof (octet_all (fun b => implb (Z.land b 0xc0 =? 0x80) (Z.lor 0x80 (Z.land b 0x3f) =? b)) ltac:(vm_compute; reflexivity) b0 Hb) as D. cbv beta in D.
  rewrite V in D. cbn [Z.eqb Pos.eqb implb] in D. apply Z.eqb_eq in D. by rewrite C, E.
Qed.

Lemma land_lxor_63 a b : Z.land (Z.lxor a b) 0x3f = Z.lxor (Z.land a 0x3f) (Z.land b 0x3f).
Proof.
  apply Z.bits_inj'. intros n Hn. rewrite Z.land_spec, !Z.lxor_spec, !Z.land_spec. destruct (Z.testbit a n), (Z.testbit b n), (Z.testbit 63 n); done.
Qed.

Lemma same_fields_xor h h' k : same_fields h h' -> (length k <= 8)%nat -> same_fields (xor_ext h k) (xor_ext h' k).
Proof.
  intros (b & b' & r & -> & -> & Hr & E) Hk. destruct k as [|y k]; [by exists b, b', r|]. cbn [xor_ext]. exists (Z.lxor b y), (Z.lxor b' y), (xor_ext r k).
  splits; try done; [rewrite xor_ext_length; cbn in Hk; lia|]. by rewrite !land_lxor_63, E.
Qed.

(** What is left of a parity when the packets before and behind one are taken out. *)
Lemma parity_leave part ps q qs : xor_ext (xor_ext (parity part (ps ++ q :: qs)) (parity part ps)) (parity part qs)
  = part q ++ replicate (length (parity part (ps ++ qs)) - length (part q)) 0.
Proof. rewrite <- xor_ext_assoc, <- parity_app, <- (parity_perm part (q :: ps ++ qs)) by apply Permutation_middle. apply parity_cancel. Qed.

Lemma recovery_head q : wf_packet q -> exists r, recovery q = (q !!! 0%nat) :: r.
Proof. intros [_ Hl]. destruct q as [|b [|b' q]]; cbn in Hl; [lia|lia|]. by eexists. Qed.

Lemma parity_recovery_short ps : Forall wf_packet ps -> (length (parity recovery ps) <= 8)%nat.
Proof.
  intros Hps. apply parity_length_le. eapply List.Forall_impl; [|exact Hps]. intros a [_ Ha]. rewrite recovery_length by lia. lia.
Qed.

Section Recover.
Context (fresh : nat -> Z).

Definition present (ps : list ProtectedPacket) : list bytes := omap pp_pkt ps.

Lemma xor_protected_spec ps : Forall (fun p => sized_packet p) (present ps) -> forall s h x q,
  length h = 8%nat -> length x = 4%nat -> Forall (fun p => zlen (payload p) <= zlen q) (present ps) ->
  exists s', xor_protected fresh ps s (h ++ x ++ q) =
    Some (s', xor_ext h (parity recovery (present ps)) ++ x ++ xor_ext q (parity payload (present ps))) /\
    (Forall (fun p => pp_pkt p <> None) ps -> s' = s).
Proof.
  induction ps as [|p ps IH]; intros Hps s h x q Hh Hx Hq.
  - exists s. cbn. by rewrite !xor_ext_nil_r.
  - cbn [xor_protected]. unfold present in *. cbn [omap list_omap] in *. destruct (pp_pkt p) as [pk|] eqn:E.
    + inversion Hps as [|? ? [Hw Hs] Hps']; subst. inversion Hq as [|? ? Hq1 Hq']; subst.
      rewrite XorHeaders_spec by done. cbn [mbind option_bind]. rewrite app_assoc.
      assert (H12 : zlen (xor_ext h (recovery pk) ++ x) = 12) by (rewrite length_app, xor_ext_length, recovery_length by (destruct Hw; lia); lia).
      pose proof (XorPayloads_spec fresh pk (xor_ext h (recovery pk) ++ x) q Hw ltac:(lia) ltac:(by left)) as EX. rewrite H12 in EX.
      change kRtpHeaderSize with 12. rewrite EX. cbn [mbind option_bind]. rewrite <- app_assoc. clear EX.
      destruct (IH Hps' s (xor_ext h (recovery pk)) x (xor_ext q (payload pk))) as (s' & Es & Hs').
      * rewrite xor_ext_length, recovery_length by (destruct Hw; lia). lia.
      * done.
      * eapply List.Forall_impl; [|exact Hq']. cbn. intros a Ha. rewrite xor_ext_length. lia.
      * exists s'. rewrite Es. cbn [parity]. rewrite !xor_ext_assoc. split; [done|]. intros HF. apply Hs'. by inversion HF.
    + destruct (IH Hps (pp_seq_num p) h x q Hh Hx Hq) as (s' & Es & _). exists s'. split; [done|]. intros HF. inversion HF; subst. done.
Qed.

Lemma xor_protected_app ps ps' s d : xor_protected fresh (ps ++ ps') s d = '(s, d) ← xor_protected fresh ps s d; xor_protected fresh ps' s d.
Proof.
  revert s d. induction ps as [|p ps IH]; intros s d; [done|]. cbn [app xor_protected]. destruct (pp_pkt p); [|by apply IH].
  destruct (XorHeaders _ _); [|done]. cbn [mbind option_bind]. destruct (XorPayloads _ _ _ _ _); [|done]. cbn [mbind option_bind]. apply IH.
Qed.

(** FinishPacketRecovery on the XOR of everything but the packet [p]. *)
Lemma Finish_exact f ssrc s p c0 x n : media_packet ssrc s p -> is_u8 c0 -> protected_ssrc (rf_info f) = ssrc ->
  Z.land c0 0x3f = Z.land (p !!! 0%nat) 0x3f -> length x = 4%nat ->
  FinishPacketRecovery fresh f s (c0 :: tail (recovery p) ++ x ++ payload p ++ replicate n 0) = Some (Some p).
Proof.
  intros Hp Hc Hssrc E Hx. pose proof (media_wf _ _ _ Hp) as Hw. assert (Hw' := Hw). destruct Hw' as [Hb Hl].
  destruct Hp as (_ & Hmax & b0 & b1 & ts & pay & Ep & Hts & Hv).
  assert (Hb0 : is_u8 b0) by (rewrite Ep in Hb; by inversion Hb).
  assert (E0 : Z.land c0 0x3f = Z.land b0 0x3f) by (by rewrite Ep in E).
  assert (Hrec : tail (recovery p) = b1 :: be_bytes 2 (zlen p - 12) ++ ts).
  { unfold recovery. rewrite Ep at 1 3. cbn [take app tail be_bytes drop]. f_equal. f_equal. f_equal.
    do 4 (destruct ts as [|? ts]; [done|]). destruct ts; [done|done]. }
  assert (Hpay : payload p = pay).
  { unfold payload. rewrite Ep. do 4 (destruct ts as [|? ts]; [done|]). destruct ts; done. }
  rewrite Hrec, Hpay. set (rest := ts ++ x ++ pay ++ replicate n 0).
  replace ((b1 :: be_bytes 2 (zlen p - 12) ++ ts) ++ x ++ pay ++ replicate n 0) with (b1 :: be_bytes 2 (zlen p - 12) ++ rest)
    by (unfold rest; cbn [app]; by rewrite <- !app_assoc).
  unfold FinishPacketRecovery. change (peek (c0 :: ?r) 0) with (Some c0). cbn [mbind option_bind].
  rewrite (put_at _ 0 [Z.lor c0 128]) by (cbn [length]; lia). change (Z.to_nat 0) with 0%nat. cbn [take app length Nat.add drop mbind option_bind].
  change (peek (?a :: ?r) 0) with (Some a). cbn [mbind option_bind].
  rewrite (put_at _ 0 [_]) by (cbn [length]; lia). change (Z.to_nat 0) with 0%nat. cbn [take app length Nat.add drop mbind option_bind].
  rewrite (version_octet c0 b0) by done.
  assert (Hread : read_u16 (b0 :: b1 :: be_bytes 2 (zlen p - 12) ++ rest) 2 = Some (zlen p - 12)).
  { pose proof (read_be_app_at0 16 2 [b0; b1] (be_bytes 2 (zlen p - 12) ++ rest)) as R. change (zlen [b0; b1]) with 2 in R. cbn [app] in R. rewrite R.
    apply read_u16_here. unfold is_u16. lia. }
  rewrite Hread. cbn [mbind option_bind]. change kRtpHeaderSize with 12. change (IP_PACKET_SIZE - 12) with 1488.
  destruct (Z.gtb_spec (zlen p - 12 + 12) 1488); [lia|]. cbv zeta. replace (zlen p - 12 + 12) with (zlen p) by lia.
  assert (Hpl : length p = (12 + length pay)%nat) by (rewrite Ep; cbn [length]; rewrite !length_app, !length_be_bytes, Hts; lia).
  assert (Hset : SetSize fresh (zlen p) (b0 :: b1 :: be_bytes 2 (zlen p - 12) ++ rest) = b0 :: b1 :: be_bytes 2 (zlen p - 12) ++ ts ++ x ++ pay).
  { unfold SetSize. rewrite Nat2Z.id. replace (length p - length (b0 :: b1 :: be_bytes 2 (zlen p - 12) ++ rest))%nat with 0%nat.
    2: { cbn [length]. unfold rest. rewrite !length_app, length_be_bytes. lia. }
    cbn [seq map]. rewrite app_nil_r. unfold rest.
    replace (b0 :: b1 :: be_bytes 2 (zlen p - 12) ++ ts ++ x ++ pay ++ replicate n 0) with ((b0 :: b1 :: be_bytes 2 (zlen p - 12) ++ ts ++ x ++ pay) ++ replicate n 0)
      by (cbn [app]; by rewrite <- !app_assoc).
    apply take_app_length'. cbn [length]. rewrite !length_app, length_be_bytes. lia. }
  rewrite Hset, !WriteBigEndian_spec.
  pose proof (put_app [b0; b1] (be_bytes 2 (zlen p - 12)) (ts ++ x ++ pay) (be_bytes 2 s) ltac:(by rewrite !length_be_bytes)) as P1.
  change (zlen [b0; b1]) with 2 in P1. cbn [app] in P1. rewrite P1. cbn [mbind option_bind].
  pose proof (put_app (b0 :: b1 :: be_bytes 2 s ++ ts) x pay (be_bytes 4 (protected_ssrc (rf_info f))) ltac:(by rewrite length_be_bytes)) as P2.
  replace (zlen (b0 :: b1 :: be_bytes 2 s ++ ts)) with 8 in P2 by (cbn [length]; rewrite length_app, length_be_bytes, Hts; lia).
  cbn [app] in P2. rewrite <- !app_assoc in P2. rewrite P2. cbn [mbind option_bind]. by rewrite Hssrc, Ep.
Qed.

(** One pointer is null. *)
Lemma one_missing ps : length (List.filter (fun p => match pp_pkt p with None => true | Some _ => false end) ps) = 1%nat ->
  exists l1 p l2, ps = l1 ++ p :: l2 /\ pp_pkt p = None /\ Forall (fun p => pp_pkt p <> None) l1 /\ Forall (fun p => pp_pkt p <> None) l2.
Proof.
  induction ps as [|p ps IH]; [done|]. cbn [List.filter]. destruct (pp_pkt p) as [q|] eqn:E.
  - intros Hl. destruct (IH Hl) as (l1 & p' & l2 & -> & Hp & H1 & H2). exists (p :: l1), p', l2. splits; try done. constructor; [congruence|done].
  - intros Hl. exists [], p, ps. splits; [done|done|constructor|]. cbn in Hl. injection Hl as Hl. apply nil_length_inv in Hl.
    apply list.Forall_forall. intros p' Hp' En. assert (Hin : p' ∈ List.filter (fun p => match pp_pkt p with None => true | Some _ => false end) ps).
    { apply list_elem_of_In, List.filter_In. split; [by apply list_elem_of_In|]. by rewrite En. }
    rewrite Hl in Hin. by apply elem_of_nil in Hin.
Qed.

Lemma present_truth (truth : Z -> option bytes) l ps : Forall (fun p => pp_pkt p <> None) l -> Forall (fun p => forall q, pp_pkt p = Some q -> truth (pp_seq_num p) = Some q) l ->
  Forall2 (fun pp p => truth (pp_seq_num pp) = Some p) l ps -> present l = ps.
Proof.
  intros H1 H2 H3. induction H3 as [|pp p l ps Hp _ IH]; [done|]. inversion H1 as [|? ? N1 N2]; subst. inversion H2 as [|? ? T1 T2]; subst.
  unfold present in *. cbn. destruct (pp_pkt pp) as [q|] eqn:E; [|done]. specialize (T1 q eq_refl). rewrite IH by done. congruence.
Qed.

Lemma Start_exact truth ssrc f ps h x : describes truth ssrc f ps -> rf_pkt f = h ++ x -> length h = 8%nat ->
  exists x', length x' = 4%nat /\ StartPacketRecovery fresh f = Some (Some (h ++ x' ++ parity payload ps)).
Proof.
  intros [_ _ _ _ D5 Dlen D6 D7 Dfit _] Ex Hh. unfold StartPacketRecovery. cbv zeta. rewrite D7.
  set (hs := fec_header_size (rf_info f)) in *. set (q := parity payload ps) in *. change (IP_PACKET_SIZE - kRtpHeaderSize) with 1488.
  destruct (Z.ltb_spec (zlen (rf_pkt f)) (hs + zlen q)); [lia|]. change IP_PACKET_SIZE with 1500. rewrite u64_id by (unfold is_u64; lia).
  destruct (Z.gtb_spec (zlen q) (Z.min 1488 (1500 - hs))); [lia|]. change kRtpHeaderSize with 12.
  rewrite (load_Some (rf_pkt f) 0) by lia. cbn [mbind option_bind]. change (Z.to_nat 0) with 0%nat. rewrite drop_0. change (Z.to_nat 12) with 12%nat.
  assert (E12 : take 12 (rf_pkt f) = h ++ take 4 x) by (rewrite Ex, take_app, firstn_all2 by lia; by rewrite Hh).
  assert (Hx : length (take 4 x) = 4%nat) by (rewrite Ex, length_app in Dlen; rewrite length_take; lia).
  set (z := SetSize fresh (zlen q + 12) []). assert (Hz : zlen z = zlen q + 12) by (apply SetSize_length; lia).
  rewrite E12, (put_at z) by (rewrite ?length_app; lia). change (take (Z.to_nat 0) z) with (@nil Z). rewrite app_nil_l. cbn [mbind option_bind].
  exists (take 4 x). split; [done|]. rewrite length_app, Hh, Hx. change (Z.to_nat 0 + _)%nat with 12%nat. destruct (Z.gtb_spec (zlen q) 0).
  - rewrite load_Some by lia. cbn [mbind option_bind]. rewrite D6, (take_ge q) by lia.
    rewrite put_at by (rewrite ?length_app, ?length_drop; lia). cbn [mbind option_bind]. do 2 f_equal. rewrite <- !app_assoc.
    rewrite (app_assoc h), take_app_length' by (rewrite length_app; lia). rewrite <- app_assoc. do 3 f_equal.
    rewrite drop_ge by (rewrite !length_app, length_drop; lia). by rewrite app_nil_r.
  - rewrite drop_ge by lia. rewrite app_nil_r. destruct q; [by rewrite app_nil_r|cbn in *; lia].
Qed.

(** RecoverPacket gives back the packet that is missing. *)
Lemma Recover_exact truth ssrc f ps : describes truth ssrc f ps -> (forall s p, truth s = Some p -> media_packet ssrc s p) ->
  Forall (fun p => forall q, pp_pkt p = Some q -> truth (pp_seq_num p) = Some q) (protected_packets f) -> NumCoveredPacketsMissing f = 1%nat ->
  exists p q, p ∈ protected_packets f /\ pp_pkt p = None /\ truth (pp_seq_num p) = Some q /\
    RecoverPacket fresh f = Some (Some (MkRecovered ssrc (pp_seq_num p) true false q)).
Proof.
  intros D Htruth Hptrs Hone. assert (D' := D). destruct D' as [D1 _ D3 (h & x & Ex & Hsame) _ _ _ _ _ D8].
  rewrite NumCovered_spec in Hone. assert (Hmiss : length (missing f) = 1%nat) by lia.
  destruct (one_missing _ Hmiss) as (l1 & p & l2 & Eps & Hp & N1 & N2). rewrite Eps in D1, Hptrs.
  apply Forall2_app_inv_l in D1 as (ps1 & ps2' & F1 & F2 & Ep). inversion F2 as [|? q ? ps2 Hq F2' E1 E2]; subst ps2'. clear F2.
  apply list.Forall_app in Hptrs as [T1 T2]. inversion T2 as [|? ? _ T2']; subst.
  pose proof (present_truth truth l1 ps1 N1 T1 F1) as P1. pose proof (present_truth truth l2 ps2 N2 T2' F2') as P2.
  assert (Hall : Forall (fun q => wf_packet q /\ zlen q <= 1488) (ps1 ++ q :: ps2)).
  { assert (G : forall l qs, Forall2 (fun pp p => truth (pp_seq_num pp) = Some p) l qs -> Forall (fun q => wf_packet q /\ zlen q <= 1488) qs).
    { induction 1 as [|pp q' l qs E _ IH]; constructor; [|done]. split; [by eapply media_wf, Htruth|]. by destruct (Htruth _ _ E) as (_ & ? & _). }
    apply list.Forall_app. split; [by eapply G|]. constructor; [|by eapply G]. split; [by eapply media_wf, Htruth|]. by destruct (Htruth _ _ Hq) as (_ & ? & _). }
  apply list.Forall_app in Hall as [A1 A2]. inversion A2 as [|? ? [Wq Lq] A2']; subst.
  exists p, q. split; [rewrite Eps; apply elem_of_app; right; by left|]. split; [done|]. split; [done|].
  destruct Hsame as (b & b' & r & Eh & Eh' & Hr & Hb).
  assert (Hh : length h = 8%nat) by (rewrite Eh'; cbn; lia).
  destruct (Start_exact truth _ f _ h x D Ex Hh) as (x' & Hx' & ES). unfold RecoverPacket. rewrite ES. cbn [mbind option_bind]. rewrite Eps, xor_protected_app.
  set (ps := present l1 ++ q :: present l2) in *.
  assert (Hsized : forall l, Forall (fun q => wf_packet q /\ zlen q <= 1488) l -> Forall sized_packet l).
  { intros l Hl. eapply List.Forall_impl; [|exact Hl]. intros a [Ha1 Ha2]. split; [done|lia]. }
  assert (Hwf : forall l, Forall (fun q => wf_packet q /\ zlen q <= 1488) l -> Forall wf_packet l).
  { intros l Hl. eapply List.Forall_impl; [|exact Hl]. by intros a [Ha1 Ha2]. }
  pose proof (Hwf _ A1) as W1. pose proof (Hwf _ A2') as W2.
  assert (Hlens : forall c, c ∈ ps -> zlen (payload c) <= zlen (parity payload ps)) by (intros c Hc; apply inj_le, parity_length_ge; exact Hc).
  destruct (xor_protected_spec l1 (Hsized _ A1) 0 h x' (parity payload ps) Hh Hx') as (s1 & E1 & Es1).
  { apply list.Forall_forall. intros c Hc. apply Hlens, elem_of_app. by left. }
  rewrite E1, (Es1 N1). cbn [mbind option_bind xor_protected]. rewrite Hp. clear E1 Es1.
  destruct (xor_protected_spec l2 (Hsized _ A2') (pp_seq_num p) (xor_ext h (parity recovery (present l1))) x'
    (xor_ext (parity payload ps) (parity payload (present l1)))) as (s2 & E2 & Es2).
  { rewrite xor_ext_length. pose proof (parity_recovery_short _ W1). lia. }
  { done. }
  { apply list.Forall_forall. intros c Hc. rewrite xor_ext_length. etransitivity; [apply Hlens, elem_of_app; right; by right|lia]. }
  rewrite E2, (Es2 N2). cbn [mbind option_bind]. clear E2 Es2.
  assert (HS : same_fields (recovery q) (xor_ext (xor_ext h (parity recovery (present l1))) (parity recovery (present l2)))).
  { pose proof (parity_leave recovery (present l1) q (present l2)) as PL. fold ps in PL. rewrite recovery_length in PL by (destruct Wq; lia).
    replace (_ - 8)%nat with 0%nat in PL by (pose proof (parity_recovery_short (present l1 ++ present l2)) as PS; rewrite list.Forall_app in PS; specialize (PS (conj W1 W2)); lia).
    rewrite app_nil_r in PL. rewrite <- PL. apply same_fields_xor; [|by apply parity_recovery_short]. apply same_fields_xor; [|by apply parity_recovery_short]. by exists b, b', r. }
  destruct HS as (c & c0 & r' & Er & Ec & _ & Hc). rewrite Ec. destruct (recovery_head q Wq) as (r'' & Er''). rewrite Er in Er''. injection Er'' as -> ->.
  pose proof (parity_leave payload (present l1) q (present l2)) as PP. fold ps in PP. rewrite PP. replace r'' with (tail (recovery q)) by (by rewrite Er). cbn [app].
  assert (Hu : is_u8 c0).
  { assert (Hbytes : is_bytes (c0 :: r'')); [|by inversion Hbytes]. rewrite <- Ec. assert (G : forall qs, Forall wf_packet qs -> is_bytes (parity recovery qs)).
    { intros qs Hqs. apply parity_bytes. eapply List.Forall_impl; [|exact Hqs]. intros. by apply recovery_bytes. }
    apply xor_ext_bytes; [|by apply G]. apply xor_ext_bytes; [|by apply G]. rewrite Ex in D3. by apply list.Forall_app in D3 as [? _]. }
  rewrite (Finish_exact f (protected_ssrc (rf_info f)) (pp_seq_num p) q c0 x') by (done || by apply Htruth). done.
Qed.

End Recover.

(** ** Any sequence of packets *)

Section Sound.
Context {H : FecHeader} {L : FecHeaderLaws}.
Context (fresh : nat -> Z) (MinDiff : Z -> Z -> Z).

(** The packets that were sent on the stream [ssrc], by sequence number. *)
Context (own ssrc : Z) (truth : Z -> option bytes).

Definition stream : Prop := forall s p, truth s = Some p -> is_u16 s /\ media_packet ssrc s p.

Definition sent (s : Z) (p : bytes) : Prop := truth s = Some p.

Definition described (f : ReceivedFecPacket) : Prop := exists ps, describes truth ssrc f ps.

Lemma described_repoint f f' : described f -> repointed f f' -> described f'.
Proof.
  intros (ps & [D1 D2 D3 D4 D5 D6 D7 D8 D9 D10]) (_ & _ & R1 & R2 & R3). exists ps. constructor; rewrite ?R1, ?R2; try done.
  clear -D1 R3. revert ps D1 R3. generalize (protected_packets f). induction (protected_packets f') as [|p l IH]; intros l0 ps D1 R3.
  - destruct l0; [|done]. by inversion D1.
  - destruct l0 as [|p0 l0]; [done|]. inversion D1 as [|? q ? ps' Hq HF]; subst. cbn in R3. injection R3 as R3 R4 R5. constructor; [by rewrite R4|by eapply IH].
Qed.

Lemma Recover_described f : stream -> fec_ok own ssrc sent described f -> NumCoveredPacketsMissing f = 1%nat ->
  exists p q, p ∈ protected_packets f /\ pp_pkt p = None /\ sent (pp_seq_num p) q /\
    RecoverPacket fresh f = Some (Some (MkRecovered ssrc (pp_seq_num p) true false q)).
Proof.
  intros HS [F1 F2 F3 (ps & F4)] Hone. apply (Recover_exact fresh truth ssrc f ps F4); [by apply HS| |done].
  eapply List.Forall_impl; [|exact F3]. by intros p (_ & _ & Hp).
Qed.

(** What is decoded was sent: whatever is lost, repeated or out of order. *)
Lemma decode_all_sound received : stream -> Forall (input_ok own ssrc sent described) received ->
  forall this recs, dec_inv own ssrc sent described this recs ->
  exists this' recs', decode_all fresh MinDiff this recs received = Some (this', recs') /\ dec_inv own ssrc sent described this' recs'.
Proof.
  intros HS Hr. apply decode_all_ok; [apply described_repoint| |done].
  intros f Hf Hone. destruct (Recover_described f HS Hf Hone) as (p & q & Hin & _ & Hq & ->). eexists. split; [done|]. intros r [= <-].
  split; [done|]. cbn. split; [|done]. by destruct (HS _ _ Hq).
Qed.

End Sound.
