(* ===== verification/FecEndToEnd.v ===== *)
(** * From the FEC encoder to the decoder

    What EncodeFec makes of a block of media packets is what the decoder takes an FEC packet
    for: the parity of the packets its mask names. *)

From Stdlib Require Import Sorted.
From S2P Require Import Prelude.
From S2P Require Import SeqNum.
From S2P Require Import ByteIo.
From S2P Require Import Buffers.
From S2P Require Import RtcpCore.
From S2P Require Import FecTables.
From S2P Require Import FecMasks.
From S2P Require Import FecHeader.
From S2P Require Import FlexfecHeader.
From S2P Require Import FecXor.
From S2P Require Import FecEncoder.
From S2P Require Import FecDecoder.
From S2P Require Import FecRecovery.

(** ** The offsets a mask names *)

Definition chosen (row : bytes) (offs : list nat) : list nat := List.filter (fun o => nth o (mask_bits row) false) offs.

Lemma sorted_same l l' : StronglySorted lt l -> StronglySorted lt l' -> (forall j, j ∈ l <-> j ∈ l') -> l = l'.
Proof.
  assert (HN : forall l, StronglySorted lt l -> NoDup l).
  { clear. induction 1 as [|a l _ IH Ha]; constructor; [|done]. intros Hin. rewrite list.Forall_forall in Ha. specialize (Ha a Hin). lia. }
  intros Hl Hl' He. assert (HP : Permutation l l') by (apply NoDup_Permutation; auto).
  revert l' Hl' HP He. induction Hl as [|a l Hl IH Ha]; intros l' Hl' HP He; [by apply Permutation_nil in HP|].
  destruct Hl' as [|b l' Hl' Hb]; [by apply Permutation_sym, Permutation_nil in HP|].
  assert (a = b) as <-.
  { rewrite list.Forall_forall in Ha, Hb. assert (Ia : a ∈ b :: l') by (apply He; by left). assert (Ib : b ∈ a :: l) by (apply He; by left).
    apply elem_of_cons in Ia as [|Ia]; [done|]. apply elem_of_cons in Ib as [|Ib]; [done|]. specialize (Ha b Ib). specialize (Hb a Ia). lia. }
  f_equal. apply IH; [done|by eapply Permutation_cons_inv|]. intros j. apply Permutation_cons_inv in HP. by rewrite HP.
Qed.

Lemma block_sorted base low media offs : block base low media offs -> StronglySorted lt offs.
Proof.
  induction 1 as [|low p o media offs Hlow Hs Hb IH]; constructor; [done|]. eapply List.Forall_impl; [|by eapply block_low]. cbn. lia.
Qed.

Lemma chosen_sorted row offs : StronglySorted lt offs -> StronglySorted lt (chosen row offs).
Proof.
  induction 1 as [|o offs _ IH Ho]; [constructor|]. unfold chosen in *. cbn [List.filter]. destruct (nth o _ _); [|done]. constructor; [done|].
  apply list.Forall_forall. intros j Hj. apply list_elem_of_In, List.filter_In in Hj as [Hj _]. rewrite list.Forall_forall in Ho. apply Ho. by apply list_elem_of_In.
Qed.

(** A mask that names the offsets of [row] names the chosen packets in their order. *)
Lemma chosen_spec row mask base media offs : block base 0 media offs -> (forall j, protects row j -> j ∈ offs) ->
  (forall j, protects mask j <-> protects row j) -> set_bits 0 (mask_bits mask) = chosen row offs.
Proof.
  intros Hb Hin Hm. apply sorted_same; [apply set_bits_sorted|eapply chosen_sorted, block_sorted, Hb|]. intros j.
  rewrite set_bits_spec, Nat.sub_0_r. unfold chosen. rewrite list_elem_of_In, List.filter_In, <- list_elem_of_In.
  assert (E : mask_bits mask !! j = Some true <-> protects row j) by apply Hm. rewrite E. unfold protects in *. rewrite nth_lookup. split.
  - intros [_ Hj]. split; [by apply Hin|]. by rewrite Hj.
  - intros [_ Hj]. split; [lia|]. destruct (mask_bits row !! j); cbn in Hj; congruence.
Qed.

Lemma chosen_selected (truth : Z -> option bytes) ssrc base row : forall offs media,
  Forall2 (fun o p => truth (u16 (base + Z.of_nat o)) = Some p) offs media ->
  Forall2 (fun pp p => truth (pp_seq_num pp) = Some p) (map (named ssrc base) (chosen row offs)) (selected (mask_bits row) media offs).
Proof.
  induction 1 as [|o p offs media Ho _ IH]; [constructor|]. unfold chosen in *. cbn [List.filter selected]. destruct (nth o _ _); [|exact IH].
  cbn [map app]. by constructor.
Qed.

(** ** What the decoder reads *)

Section Link.
Context {H : FecHeader} {L : FecHeaderLaws}.
Context (own ssrc : Z) (truth : Z -> option bytes).

(** A received packet is an FEC packet for the sequence numbers [names], none of them known yet. *)
Definition reads_as (names : list Z) (received : ReceivedPacket) : Prop :=
  exists d info, ReadFecHeader (rv_ssrc received) (rv_pkt received) = Some (d, Some info) /\ protected_ssrc info = ssrc /\
    packet_mask_offset info + packet_mask_size info <= zlen d /\
    parse_mask (Z.to_nat (packet_mask_size info)) ssrc (seq_num_base info) (packet_mask_offset info) 0 d
      = Some (map (fun s => MkProtected ssrc s None) names) /\ names <> [] /\ Forall is_u16 names /\
    described ssrc truth (MkReceivedFec (rv_ssrc received) (rv_seq_num received) info (map (fun s => MkProtected ssrc s None) names) d).

Lemma reads_as_accepted names received : reads_as names received -> accepted ssrc (sent truth) (described ssrc truth) received.
Proof.
  intros (d & info & E & Hs & Hm & Hp & Hne & Hu & Hd). exists d, (Some info). split; [done|]. intros info' [= <-] _ _.
  eexists. split; [exact Hp|]. split; [|done]. apply Forall_map. eapply List.Forall_impl; [|exact Hu]. cbn. intros s Hs'. by split.
Qed.

(** A block of packets of the stream, each no larger than EncodeFec and the decoder take. *)
Record stream_block (base : Z) (media : list bytes) (offs : list nat) : Prop := StreamBlock {
  sb_base : is_u16 base;
  sb_block : block base 0 media offs;
  sb_first : head offs = Some 0%nat;
  sb_span : forall o, o ∈ offs -> (o < 48)%nat;
  sb_true : Forall2 (fun o p => truth (u16 (base + Z.of_nat o)) = Some p) offs media;
  sb_fit : Forall (fun p => zlen p <= 1480) media
}.

Lemma stream_block_wf base media offs : stream ssrc truth -> stream_block base media offs -> Forall wf_packet media.
Proof.
  intros HS B. pose proof (sb_true _ _ _ B) as HT. clear B. induction HT as [|o p offs media Ho _ IH]; constructor; [|done].
  by eapply media_wf, HS.
Qed.

Definition names_of (base : Z) (row : bytes) (offs : list nat) : list Z := map (fun o => u16 (base + Z.of_nat o)) (chosen row offs).

Lemma map_named base js : map (named ssrc base) js = map (fun s => MkProtected ssrc s None) (map (fun o => u16 (base + Z.of_nat o)) js).
Proof. rewrite map_map. done. Qed.

Lemma fec_describes base media offs row hs d' info s names : stream ssrc truth -> stream_block base media offs ->
  mask_row row -> (forall j, protects row j -> j ∈ offs) -> (exists j, protects row j) -> header_size row = Some hs ->
  header_read ssrc base row hs (fec_data hs (selected (mask_bits row) media offs)) d' info -> names = names_of base row offs ->
  describes truth ssrc (MkReceivedFec own s info (map (fun s => MkProtected ssrc s None) names) d') (selected (mask_bits row) media offs).
Proof.
  intros HS B Hrow Hin Hsome Hhs [R1 R2 R3 R4 R5 R6 R7 R8 R9] ->. pose proof (stream_block_wf _ _ _ HS B) as Hwf. destruct B as [B1 B2 B3 _ B4 B5].
  destruct (law_header_size row Hrow) as (hs' & Ehs & Hhs'). rewrite Hhs in Ehs. injection Ehs as <-. pose proof law_overhead as Hov.
  set (ps := selected (mask_bits row) media offs) in *. assert (Hne : ps <> []) by (by apply (selected_some base)).
  assert (Hps : Forall wf_packet ps) by (by apply selected_all).
  assert (Hlen : (length (parity payload ps) <= 1468)%nat).
  { apply parity_length_le, selected_all. apply list.Forall_forall. intros p Hp. rewrite list.Forall_forall in Hwf. rewrite (list.Forall_forall (fun p => zlen p <= 1480)) in B5.
    specialize (B5 p Hp). pose proof (payload_length p (Hwf p Hp)). lia. }
  assert (H8 : length (parity recovery ps) = 8%nat) by (by apply parity_recovery_length).
  rewrite fec_data_length in R1, R6 by (done || lia).
  constructor; cbn [protected_packets rf_pkt rf_info]; try done; try lia.
  - unfold names_of. rewrite <- map_named. by apply (chosen_selected truth ssrc).
  - destruct R8 as (b & b' & r & x & x' & Ed & -> & Hr & Eb). exists (b' :: r), x'. split; [done|]. exists b, b', r. splits; try done.
    rewrite fec_data_some in Ed by done. replace (parity recovery ps) with (take 8 (parity recovery ps ++ replicate (Z.to_nat (hs - 8)) 0 ++ parity payload ps))
      by (by rewrite take_app_length'). rewrite Ed. cbn [take app]. f_equal. by rewrite take_app_length'.
  - rewrite R3, R9, fec_data_some by done. rewrite app_assoc, drop_app_length'; [done|]. rewrite length_app, length_replicate. lia.
Qed.

Lemma fec_for_reads base media offs row fec received : fec_ssrc_ok own ssrc -> is_u32 ssrc -> stream ssrc truth -> stream_block base media offs ->
  fec_for ssrc base media offs row fec -> rv_ssrc received = own -> rv_pkt received = fec -> reads_as (names_of base row offs) received.
Proof.
  intros Hok Hssrc HS B [F1 F2 F3 (hs & Hhs & HF)] Ho Ep. pose proof (stream_block_wf _ _ _ HS B) as Hwf.
  set (ps := selected (mask_bits row) media offs) in *.
  assert (Hne : ps <> []) by (apply (selected_some base); try done; apply B). assert (Hps : Forall wf_packet ps) by (by apply selected_all).
  destruct (law_header_size row F1) as (hs' & Ehs & Hhs'). rewrite Hhs in Ehs. injection Ehs as <-. pose proof law_overhead as Hov.
  assert (Hlen : (length (parity payload ps) <= 1488)%nat).
  { apply parity_length_le, selected_all. apply list.Forall_forall. intros p Hp. rewrite list.Forall_forall in Hwf.
    pose proof (sb_fit _ _ _ B) as B5. rewrite (list.Forall_forall (fun p => zlen p <= 1480)) in B5.
    specialize (B5 p Hp). pose proof (payload_length p (Hwf p Hp)). lia. }
  destruct (law_roundtrip own ssrc base row hs (fec_data hs ps) Hok Hssrc (sb_base _ _ _ B) F1 Hhs) as (d & d' & info & E1 & Hb & E2 & HR).
  { rewrite fec_data_some by done. apply list.Forall_app. split; [apply parity_bytes; eapply List.Forall_impl; [|exact Hps]; intros; by apply recovery_bytes|].
    apply list.Forall_app. split; [by apply Forall_replicate|]. apply parity_bytes. eapply List.Forall_impl; [|exact Hps]. intros. by apply payload_bytes. }
  { rewrite fec_data_length by (done || lia). lia. }
  rewrite E1 in HF. injection HF as ->. destruct (hr_mask _ _ _ _ _ _ _ HR) as (mask & Hm & Hm0 & Hm1 & Hm2).
  exists d', info. rewrite Ho, Ep. split; [done|]. split; [apply HR|]. split; [done|].
  assert (Hmo : 0 <= packet_mask_offset info) by (destruct (law_safe own fec Hb) as (? & ? & E3 & _ & _ & HI); rewrite E2 in E3; injection E3 as <- <-; apply HI).
  rewrite (parse_mask_load _ _ _ _ _ _ Hmo Hm), (chosen_spec row mask base media offs), map_named, (hr_base _ _ _ _ _ _ _ HR) by (done || apply B).
  split; [done|]. split; [|split].
  - unfold names_of. intros E. assert (Ec : chosen row offs = []) by (by destruct (chosen row offs)).
    pose proof (chosen_selected truth ssrc base row offs media (sb_true _ _ _ B)) as HF2. rewrite Ec in HF2. inversion HF2. done.
  - apply Forall_map. apply list.Forall_forall. intros. apply u16_range.
  - exists ps. by eapply fec_describes.
Qed.

End Link.

(** ** Packets of EncodeFec *)

Section Sent.
Context {H : FecHeader} {L : FecHeaderLaws}.
Context (own ssrc : Z) (truth : Z -> option bytes).

(** [fec] is one of the packets that EncodeFec made of the block. *)
Definition encoded_from (base : Z) (media : list bytes) (offs : list nat) (fecs : list bytes) : Prop :=
  stream_block truth base media offs /\
  exists fill this this' factor imp unequal type, encoder_ok this /\ 0 < factor <= 255 /\ (imp <= length media)%nat /\
    EncodeFec fill this media factor (Z.of_nat imp) unequal type = Some (this', 0, fecs).

Lemma ssrc_octets v : is_u32 v -> Some (u32 (Z.shiftl ((v / 256 ^ Z.of_nat 3) mod 256) 24 + Z.shiftl ((v / 256 ^ Z.of_nat 2) mod 256) 16 +
  Z.shiftl ((v / 256 ^ Z.of_nat 1) mod 256) 8 + (v / 256 ^ Z.of_nat 0) mod 256)) = Some v.
Proof.
  intros Hv. f_equal. rewrite !Z.shiftl_mul_pow2 by lia. change (256 ^ Z.of_nat 3) with 16777216. change (256 ^ Z.of_nat 2) with 65536. change (256 ^ Z.of_nat 1) with 256.
  change (256 ^ Z.of_nat 0) with 1. change (2 ^ 24) with 16777216. change (2 ^ 16) with 65536. change (2 ^ 8) with 256. unfold u32, is_u32 in *. dlia.
Qed.

Lemma media_ssrc_read s p : is_u32 ssrc -> media_packet ssrc s p -> ParseSsrc p = Some ssrc.
Proof.
  intros Hu (_ & _ & b0 & b1 & ts & pay & -> & Ht & _). unfold ParseSsrc.
  do 4 (destruct ts as [|? ts]; [done|]). destruct ts; [|done].
  etransitivity; [|exact (ssrc_octets ssrc Hu)]. reflexivity.
Qed.

Lemma encoded_rows base media offs fecs : is_u32 ssrc -> fec_ssrc_ok own ssrc -> stream ssrc truth -> encoded_from base media offs fecs ->
  exists rows, Forall2 (fec_for ssrc base media offs) rows fecs /\ (forall o, o ∈ offs -> Exists (fun row => protects row o) rows) /\
    (length fecs <= length media)%nat.
Proof.
  intros Hu Hok HS (B & fill & this & this' & factor & imp & unequal & type & K1 & K2 & K3 & E).
  pose proof (stream_block_wf _ _ _ _ _ HS B) as Hwf. assert (B' := B). destruct B' as [B1 B2 B3 B4 B5 B6].
  destruct offs as [|o offs]; [done|]. destruct media as [|front media]; [inversion B5|].
  assert (Hfront : ParseSsrc front = Some ssrc) by (inversion B5 as [|? ? ? ? Ho]; subst; eapply media_ssrc_read; [done|by eapply HS]).
  destruct (encode_fec_block fill this (front :: media) (o :: offs) base ssrc factor imp unequal type front) as (t & fs & n & EE & _ & En & Hn & rows & R1 & R2); try done.
  - by exists own.
  - eapply List.Forall_impl; [|exact B6]. cbn. lia.
  - rewrite EE in E. injection E as <- <-. exists rows. splits; try done. destruct (NumFecPackets_spec (zlen (front :: media)) factor) as (n' & En' & Hn' & _); [cbn; lia|lia|].
    rewrite En in En'. injection En' as <-. lia.
Qed.

(** A packet of the stream, or one that EncodeFec made of a block of it, under any sequence
    number. *)
Definition delivered (p : ReceivedPacket) : Prop :=
  is_u16 (rv_seq_num p) /\
  if is_fec p then rv_ssrc p = own /\ exists base media offs fecs, encoded_from base media offs fecs /\ rv_pkt p ∈ fecs
  else rv_ssrc p = ssrc /\ truth (rv_seq_num p) = Some (rv_pkt p).

Lemma delivered_ok p : is_u32 ssrc -> fec_ssrc_ok own ssrc -> stream ssrc truth -> delivered p -> input_ok own ssrc (sent truth) (described ssrc truth) p.
Proof.
  intros Hu Hok HS [Hs Hp]. split; [done|]. destruct (is_fec p); [|done]. destruct Hp as (Ho & base & media & offs & fecs & HE & Hin). split; [done|].
  destruct (encoded_rows base media offs fecs Hu Hok HS HE) as (rows & HF & _). apply list_elem_of_lookup in Hin as (i & Hi).
  destruct (Forall2_lookup_r _ _ _ _ _ HF Hi) as (row & _ & Hrow). eapply reads_as_accepted, fec_for_reads; try done. apply HE.
Qed.

End Sent.

(** C5. Whatever is lost, repeated or out of order, and however the two sides use their memory:
    the decoder fed with packets of one stream (of at most 1488 octets, with a 32-bit SSRC) and
    with FEC packets that EncodeFec made of blocks of it (packets of at most 1480 octets, less
    than 48 numbers apart, a factor from 1 to 255; for ULPFEC under the SSRC of the stream)
    never fails, and every packet in its recovered list, received or recovered, is exactly the
    packet that was sent under that sequence number. *)
Theorem fec_recovers_what_was_sent (flexfec : bool) (fresh : nat -> Z) (MinDiff : Z -> Z -> Z) (own ssrc : Z) (truth : Z -> option bytes)
    (received : list ReceivedPacket) :
  is_u32 ssrc -> (flexfec = false -> own = ssrc) -> stream ssrc truth ->
  Forall (delivered (H := format flexfec) own ssrc truth) received ->
  exists this recovered, decode_all (H := format flexfec) fresh MinDiff (MkDecoder own ssrc []) [] received = Some (this, recovered) /\
    Forall (fun r => rp_ssrc r = ssrc /\ truth (rp_seq_num r) = Some (rp_pkt r)) recovered.
Proof.
  intros Hu Hown HS Hr. assert (Hok : @fec_ssrc_ok _ (format_laws flexfec) own ssrc) by (destruct flexfec; [done|by apply Hown]).
  destruct (decode_all_sound (H := format flexfec) fresh MinDiff own ssrc truth received HS) with (this := MkDecoder own ssrc []) (recs := @nil RecoveredPacket)
    as (this & recs & E & (_ & _ & _ & _ & HF & _)).
  - eapply List.Forall_impl; [|exact Hr]. intros p. by apply delivered_ok.
  - unfold dec_inv. splits; try done; try constructor; cbn; lia.
  - exists this, recs. split; [done|]. eapply List.Forall_impl; [|exact HF]. by intros r (R1 & _ & R2).
Qed.

(** C6. EncodeFec on a block of packets of 12 to 1480 octets whose sequence numbers ascend, the
    last less than 48 after the first (modulo 2^16), with a protection factor from 1 to 255 and
    no more important packets than the block has: it makes as many FEC packets as NumFecPackets
    says, each with a finished header whose mask names only packets of the block and whose
    octets are the XOR of what it protects, holes in the numbering included; every packet of the
    block is protected by one of them. The memory that the FEC packets are made in may hold
    anything. Of a longer packet the octets behind IP_PACKET_SIZE would be those of that memory;
    with the factor 0 there are no FEC packets. *)
Theorem encode_fec_protects (flexfec : bool) (fresh : nat -> Z) (this : Encoder) (media : list bytes) (offs : list nat) (base ssrc factor : Z) (imp : nat)
    (unequal : bool) (type : FecMaskType) (front : bytes) :
  encoder_ok this -> is_u16 base -> block base 0 media offs -> head offs = Some 0%nat -> (forall o, o ∈ offs -> (o < 48)%nat) ->
  Forall wf_packet media -> Forall (fun p => zlen p <= 1480) media -> head media = Some front -> ParseSsrc front = Some ssrc ->
  0 < factor <= 255 -> (imp <= length media)%nat ->
  exists this' fecs n, EncodeFec (H := format flexfec) fresh this media factor (Z.of_nat imp) unequal type = Some (this', 0, fecs) /\
    encoder_ok this' /\ NumFecPackets (zlen media) factor = Some n /\ zlen fecs = n /\
    protected_block (H := format flexfec) base media offs ssrc fecs.
Proof.
  intros HK Hu Hb Hh Ho Hwf Hfit Hf Hs Hfac Himp. apply encode_fec_block with (front := front); try done.
  - unfold ParseSsrc in Hs. destruct (peek front 8), (peek front 9), (peek front 10), (peek front 11); try done. injection Hs as <-. apply u32_range.
  - destruct flexfec; by exists ssrc.
  - eapply List.Forall_impl; [|exact Hfit]. cbn. lia.
Qed.

(** C10. EncodeFec, with a protection factor from 1 to 255 and no more important packets than
    there are, refuses a block of more than 48 packets, one with a packet shorter than an RTP
    header, and one whose ascending sequence numbers are too far apart for a mask: -1 and no
    packets. *)
Theorem encode_fec_refuses (flexfec : bool) (fresh : nat -> Z) (this : Encoder) (media : list bytes) (factor : Z) (imp : nat) (unequal : bool) (type : FecMaskType) :
  encoder_ok this -> media <> [] -> 0 < factor <= 255 -> (imp <= length media)%nat -> refused media ->
  exists this', EncodeFec (H := format flexfec) fresh this media factor (Z.of_nat imp) unequal type = Some (this', -1, []) /\ encoder_ok this'.
Proof. intros. by apply encode_refused. Qed.

(** C7. DecodeFec on anything the network can bring, FEC packets of arbitrary octets included;
    media packets have a header and fit a buffer, numbers have 16 bits, and each kind comes with
    its SSRC: no access outside a buffer, no failed check, lists no longer than their limits,
    and recovered packets with a header and no larger than a buffer. *)
Theorem fec_decoder_total (flexfec : bool) (fresh : nat -> Z) (MinDiff : Z -> Z -> Z) (own ssrc : Z) (received : list ReceivedPacket) :
  (forall i, is_u8 (fresh i)) -> Forall (arrival own ssrc) received ->
  exists this recovered, decode_all (H := format flexfec) fresh MinDiff (MkDecoder own ssrc []) [] received = Some (this, recovered) /\
    (length (received_fec_packets_ this) <= 48)%nat /\ (length recovered <= 192)%nat /\
    Forall (fun r => rp_ssrc r = ssrc /\ is_u16 (rp_seq_num r) /\ sized_packet (rp_pkt r)) recovered.
Proof.
  intros Hf Hr. destruct (decode_all_safe (H := format flexfec) fresh MinDiff own ssrc Hf received Hr (MkDecoder own ssrc []) [])
    as (this & recs & E & (_ & _ & _ & H4 & H5 & H6)).
  - unfold dec_inv. splits; try done; try constructor; cbn; lia.
  - by exists this, recs.
Qed.

(** ** A block of three packets with a hole *)

Definition sample_packet (s : Z) (pay : bytes) : bytes := [0x80; 96] ++ be_bytes 2 s ++ [0; 0; 0; 9] ++ be_bytes 4 77 ++ pay.

Definition sample_media : list bytes := [sample_packet 65534 [1; 2; 3]; sample_packet 0 [4]; sample_packet 1 []].

Definition sample_offs : list nat := [0; 2; 3]%nat.

Definition sample_truth (s : Z) : option bytes :=
  if s =? 65534 then Some (sample_packet 65534 [1; 2; 3]) else if s =? 0 then Some (sample_packet 0 [4]) else
  if s =? 1 then Some (sample_packet 1 []) else None.

Definition sample_encoder : Encoder := MkEncoder (replicate 48 []) (replicate 288 9) (replicate 288 7) 0.

(** The FEC packets of the block, for FlexFEC. *)
Definition sample_fecs : list bytes :=
  match EncodeFec (H := format true) (fun _ => 5) sample_encoder sample_media 170 (Z.of_nat 0) false kFecMaskRandom with
  | Some (_, _, fecs) => fecs
  | None => []
  end.

Lemma sample_encoder_ok : encoder_ok sample_encoder.
Proof. by vm_compute. Qed.

Lemma sample_block : block 65534 0 sample_media sample_offs.
Proof. repeat (apply block_cons; [lia|by vm_compute|]). apply block_nil. Qed.

Lemma octets_checked l : forallb (fun b => (0 <=? b) && (b <? 256)) l = true -> is_bytes l.
Proof.
  intros Hl. apply list.Forall_forall. intros b Hb. rewrite forallb_forall in Hl. specialize (Hl b ltac:(by apply list_elem_of_In)).
  apply andb_true_iff in Hl as [H1%Z.leb_le H2%Z.ltb_lt]. unfold is_u8. lia.
Qed.

Lemma sample_wf : Forall wf_packet sample_media /\ Forall (fun p => zlen p <= 1480) sample_media.
Proof.
  split; repeat (apply Forall_cons; [|]); try apply Forall_nil; try (vm_compute; congruence).
  all: split; [apply octets_checked; by vm_compute|vm_compute; split; congruence].
Qed.

Lemma sample_stream : stream 77 sample_truth.
Proof.
  intros s p. unfold sample_truth. repeat (match goal with |- context [s =? ?c] => destruct (Z.eqb_spec s c) as [->|] end; [intros [= <-]|]); [..|done].
  all: split; [unfold is_u16; lia|]; split; [apply octets_checked; by vm_compute|]; split; [vm_compute; congruence|].
  all: eexists 0x80, 96, [0; 0; 0; 9], _; split; [reflexivity|]; by split.
Qed.

Lemma sample_stream_block : stream_block sample_truth 65534 sample_media sample_offs.
Proof.
  constructor; [unfold is_u16; lia|apply sample_block|done| |repeat constructor|apply sample_wf].
  intros o Ho. unfold sample_offs in Ho. repeat (apply elem_of_cons in Ho as [->|Ho]; [lia|]). by apply elem_of_nil in Ho.
Qed.

Lemma encode_fec_protects_witness : exists this' fecs n,
  EncodeFec (H := format true) (fun _ => 5) sample_encoder sample_media 170 (Z.of_nat 0) false kFecMaskRandom = Some (this', 0, fecs) /\
  encoder_ok this' /\ NumFecPackets (zlen sample_media) 170 = Some n /\ zlen fecs = n /\
  protected_block (H := format true) 65534 sample_media sample_offs 77 fecs.
Proof.
  apply (encode_fec_protects true (fun _ => 5) sample_encoder sample_media sample_offs 65534 77 170 0 false kFecMaskRandom (sample_packet 65534 [1; 2; 3])).
  - exact sample_encoder_ok.
  - unfold is_u16; lia.
  - exact sample_block.
  - reflexivity.
  - exact (sb_span _ _ _ _ sample_stream_block).
  - exact (proj1 sample_wf).
  - exact (proj2 sample_wf).
  - reflexivity.
  - vm_compute; reflexivity.
  - lia.
  - cbn; lia.
Defined.

Lemma encode_fec_refuses_witness : exists this',
  EncodeFec (H := format false) (fun _ => 5) sample_encoder (replicate 49 (sample_packet 3 [])) 170 (Z.of_nat 0) false kFecMaskRandom = Some (this', -1, []) /\
  encoder_ok this'.
Proof.
  apply (encode_fec_refuses false (fun _ => 5) sample_encoder (replicate 49 (sample_packet 3 [])) 170 0 false kFecMaskRandom).
  - exact sample_encoder_ok.
  - discriminate.
  - lia.
  - lia.
  - left. vm_compute. lia.
Defined.

Lemma fec_decoder_total_witness : exists this recovered,
  decode_all (H := format false) (fun _ => 5) (fun _ _ => 0) (MkDecoder 77 77 []) []
    [MkReceived 77 9 true false (replicate 40 255); MkReceived 77 3 false false (sample_packet 3 [8])] = Some (this, recovered) /\
  (length (received_fec_packets_ this) <= 48)%nat /\ (length recovered <= 192)%nat /\
  Forall (fun r => rp_ssrc r = 77 /\ is_u16 (rp_seq_num r) /\ sized_packet (rp_pkt r)) recovered.
Proof.
  apply (fec_decoder_total false (fun _ => 5) (fun _ _ => 0) 77 77).
  - intros _. unfold is_u8. lia.
  - apply Forall_cons; [|apply Forall_cons; [|apply Forall_nil]].
    + split; [unfold is_u16; cbn; lia|]. split; [reflexivity|apply octets_checked; vm_compute; reflexivity].
    + split; [unfold is_u16; cbn; lia|]. split; [reflexivity|]. split; [|vm_compute; congruence].
      split; [apply octets_checked; vm_compute; reflexivity|vm_compute; split; congruence].
Defined.

Lemma sample_encoded : encoded_from (H := format true) sample_truth 65534 sample_media sample_offs sample_fecs.
Proof.
  split; [exact sample_stream_block|].
  assert (E : exists this', EncodeFec (H := format true) (fun _ => 5) sample_encoder sample_media 170 (Z.of_nat 0) false kFecMaskRandom = Some (this', 0, sample_fecs))
    by (eexists; vm_compute; reflexivity).
  destruct E as (this' & E). exists (fun _ => 5), sample_encoder, this', 170, 0%nat, false, kFecMaskRandom.
  split; [exact sample_encoder_ok|]. split; [lia|]. split; [cbn; lia|exact E].
Qed.

(** The packet 0 is lost; the rest comes late, twice and in another order. *)
Definition sample_received : list ReceivedPacket :=
  [MkReceived 5 901 true false (nth 1 sample_fecs []); MkReceived 77 1 false false (sample_packet 1 []);
   MkReceived 77 65534 false false (sample_packet 65534 [1; 2; 3]); MkReceived 77 1 false false (sample_packet 1 []);
   MkReceived 5 900 true false (nth 0 sample_fecs [])].

Lemma sample_fec_in i : (i < 2)%nat -> sample_fecs !! i = Some (nth i sample_fecs []).
Proof.
  intros Hi. rewrite nth_lookup. destruct (lookup_lt_is_Some_2 sample_fecs i) as [x Hx]; [|by rewrite Hx].
  replace (length sample_fecs) with 2%nat by (vm_compute; reflexivity). done.
Qed.

Lemma fec_recovers_what_was_sent_witness : exists this recovered,
  decode_all (H := format true) (fun _ => 5) (fun _ _ => 0) (MkDecoder 5 77 []) [] sample_received = Some (this, recovered) /\
  Forall (fun r => rp_ssrc r = 77 /\ sample_truth (rp_seq_num r) = Some (rp_pkt r)) recovered.
Proof.
  assert (HM : forall s pay, is_u16 s -> sample_truth s = Some (sample_packet s pay) ->
    delivered (H := format true) 5 77 sample_truth (MkReceived 77 s false false (sample_packet s pay))) by (intros s pay Hs Ht; split; [done|]; by split).
  assert (HF : forall s i, is_u16 s -> (i < 2)%nat -> delivered (H := format true) 5 77 sample_truth (MkReceived 5 s true false (nth i sample_fecs []))).
  { intros s i Hs Hi. split; [done|]. split; [done|]. exists 65534, sample_media, sample_offs, sample_fecs. split; [exact sample_encoded|].
    eapply list_elem_of_lookup_2, sample_fec_in, Hi. }
  apply (fec_recovers_what_was_sent true (fun _ => 5) (fun _ _ => 0) 5 77 sample_truth sample_received).
  - unfold is_u32. lia.
  - discriminate.
  - exact sample_stream.
  - unfold sample_received. repeat (apply Forall_cons; [first [apply HF; [unfold is_u16; lia|lia]|apply HM; [unfold is_u16; lia|reflexivity]]|]). apply Forall_nil.
Defined.

(** ** Two cases that go wrong *)

(** A packet of 1490 octets is protected, but FinishPacketRecovery compares its whole size with
    the room behind an RTP header and drops it. *)
Lemma long_packet_lost :
  let p := sample_packet 7 (replicate 1478 3) in
  exists this fec this', EncodeFec (H := format false) (fun _ => 0) sample_encoder [p] 255 0 false kFecMaskRandom = Some (this, 0, [fec]) /\
    zlen p = 1490 /\ zlen fec = 1492 /\
    decode_all (H := format false) (fun _ => 0) (fun _ _ => 0) (MkDecoder 77 77 []) [] [MkReceived 77 8 true false fec] = Some (this', []).
Proof. cbv zeta. eexists _, _, _. split; [vm_compute; reflexivity|]. split; [|split]; vm_compute; reflexivity. Qed.

(** The length that is recovered is not compared with the protected length: an FEC packet of 14
    octets makes a recovered packet of 32, whose payload is what the memory held. *)
Lemma forged_packet_shows_memory : forall fresh : nat -> Z,
  exists this header, decode_all (H := format false) fresh (fun _ _ => 0) (MkDecoder 77 77 []) []
    [MkReceived 77 8 true false [0; 96; 0; 10; 0; 0; 0; 0; 0; 20; 0; 0; 0x80; 0]] =
    Some (this, [MkRecovered 77 10 true false (header ++ map fresh (seq 12 20))]) /\ length header = 12%nat.
Proof. intros fresh. eexists _, [_; _; _; _; _; _; _; _; _; _; _; _]. split; [reflexivity|reflexivity]. Qed.
