(* ===== verification/FecPeeling.v ===== *)
(** * How far the FEC decoder gets

    Within a window of sequence numbers in which the order of sequence_number_util.h is total,
    nothing is discarded, every protected packet that is known is pointed to, and the decoder
    goes on until no FEC packet it has been given lacks exactly one packet. *)

From Stdlib Require Import Sorted.
From S2P Require Import Prelude.
From S2P Require Import SeqNum.
From S2P Require Import ByteIo.
From S2P Require Import Buffers.
From S2P Require Import RtcpCore.
From S2P Require Import FecTables.
From S2P Require Import FecMasks.
From S2P Require Import FecHeader.
From S2P Require Import FlexfecHeader.
From S2P Require Import FecXor.
From S2P Require Import FecEncoder.
From S2P Require Import FecDecoder.
From S2P Require Import FecRecovery.
From S2P Require Import FecEndToEnd.

(** ** Order within a window *)

(** How far [s] is behind the start of the window. *)
Definition behind (lo s : Z) : Z := (s - lo) mod 65536.

Definition in_window (lo s : Z) : Prop := is_u16 s /\ behind lo s < 16384.

Definition ordered (lo : Z) (l : list Z) : Prop := StronglySorted (fun a b => behind lo a < behind lo b) l.

Lemma behind_inj lo a b : is_u16 a -> is_u16 b -> behind lo a = behind lo b -> a = b.
Proof. unfold is_u16, behind. intros. dlia. Qed.

Lemma newer_window lo a b : in_window lo a -> in_window lo b -> IsNewerSequenceNumber b a = (behind lo a <? behind lo b).
Proof.
  intros [Ha Wa] [Hb Wb]. assert (W : template_width 16) by (unfold template_width; lia).
  assert (N := IsNewer_spec 16 b a W Hb Ha). change (IsNewer 16 b a) with (IsNewerSequenceNumber b a) in N.
  change (2 ^ 16) with 65536 in N. change (2 ^ (16 - 1)) with 32768 in N. unfold behind, is_u16 in *.
  destruct (Z.ltb_spec ((a - lo) mod 65536) ((b - lo) mod 65536)) as [Hlt|Hge].
  - apply N. left. dlia.
  - apply not_true_is_false. intros C. apply N in C. dlia.
Qed.

Lemma ordered_nodup lo l : ordered lo l -> NoDup l.
Proof.
  induction 1 as [|a l _ IH Ha]; constructor; [|done]. intros Hin. rewrite list.Forall_forall in Ha. specialize (Ha a Hin). lia.
Qed.

Section Order.
Context {A : Type} (key : A -> Z * Z) (c lo : Z).

Definition seqs (l : list A) : list Z := map (fun x => (key x).2) l.

Definition placed (x : A) : Prop := (key x).1 = c /\ in_window lo (key x).2.

Lemma LessThan_placed a b : a.1 = c -> in_window lo a.2 -> b.1 = c -> in_window lo b.2 -> LessThan a b = Some (behind lo a.2 <? behind lo b.2).
Proof. intros. rewrite (LessThan_same c) by done. by rewrite (newer_window lo). Qed.

Lemma seqs_perm l l' : Permutation l l' -> Permutation (seqs l) (seqs l').
Proof. apply Permutation_map. Qed.

Lemma sort_insert_ordered x l : placed x -> Forall placed l -> ordered lo (seqs l) -> (key x).2 ∉ seqs l ->
  exists l', sort_insert key x l = Some l' /\ Permutation l' (x :: l) /\ ordered lo (seqs l').
Proof.
  intros [X1 X2] Hl. induction Hl as [|y l [Y1 Y2] Hl IH]; intros Ho Hx; [exists [x]; splits; [done|done|by repeat constructor]|].
  cbn [sort_insert]. rewrite LessThan_placed by done. cbn [mbind option_bind]. inversion Ho as [|? ? Ho' Hy]; subst.
  destruct (Z.ltb_spec (behind lo (key x).2) (behind lo (key y).2)) as [Hlt|Hge].
  - exists (x :: y :: l). splits; [done|done|]. constructor; [done|]. constructor; [done|]. eapply List.Forall_impl; [|exact Hy]. cbn. intros. lia.
  - destruct IH as (l' & -> & HP & HS); [done|intros Hin; apply Hx; by right|]. exists (y :: l'). splits; [done|rewrite HP; apply Permutation_swap|].
    constructor; [done|]. fold (seqs l'). rewrite (seqs_perm _ _ HP). cbn. constructor; [|done].
    destruct (Z.eq_dec (behind lo (key x).2) (behind lo (key y).2)) as [E|]; [|lia]. exfalso. apply Hx. unfold seqs. cbn. rewrite (behind_inj lo _ _ (proj1 X2) (proj1 Y2) E). by left.
Qed.

Lemma sort_from_ordered l : Forall placed l -> forall acc, Forall placed acc -> ordered lo (seqs acc) -> NoDup (seqs (acc ++ l)) ->
  exists l', sort_from key acc l = Some l' /\ Permutation l' (acc ++ l) /\ ordered lo (seqs l').
Proof.
  induction 1 as [|x l Hx Hl IH]; intros acc Hacc Ho Hnd; [exists acc; by rewrite app_nil_r|]. cbn [sort_from].
  destruct (sort_insert_ordered x acc Hx Hacc Ho) as (acc' & -> & HP & HS).
  { unfold seqs in *. rewrite map_app in Hnd. apply list.NoDup_app in Hnd as (_ & Hd & _). intros Hin. apply (Hd _ Hin). by left. }
  cbn [mbind option_bind]. assert (HP' : Permutation (acc' ++ l) (acc ++ x :: l)) by (rewrite HP; cbn; by rewrite Permutation_middle).
  destruct (IH acc') as (l' & -> & HP'' & HS'); [rewrite HP; by constructor|done|by rewrite (seqs_perm _ _ HP')|].
  exists l'. splits; [done|by rewrite HP''|done].
Qed.

Lemma list_sort_ordered l : Forall placed l -> NoDup (seqs l) -> exists l', list_sort key l = Some l' /\ Permutation l' l /\ ordered lo (seqs l').
Proof. intros Hl Hnd. apply (sort_from_ordered l Hl []); [constructor|constructor|done]. Qed.

End Order.

(** ** The pointers *)

Section Pointers.
Context (c lo : Z).

Definition names (ps : list ProtectedPacket) : list Z := map pp_seq_num ps.
Definition known (rs : list RecoveredPacket) : list Z := map rp_seq_num rs.

Lemma in_names p ps : p ∈ ps -> pp_seq_num p ∈ names ps.
Proof. intros Hp. by apply list_elem_of_In, in_map, list_elem_of_In. Qed.

Definition repoint (s : Z) (q : bytes) (p : ProtectedPacket) : ProtectedPacket := if pp_seq_num p =? s then set_pkt p q else p.

(** lower_bound finds the packet if it is there. *)
Lemma cover_exact s q ps : in_window lo s -> Forall (placed protected_key c lo) ps -> ordered lo (names ps) ->
  cover c s q ps = Some (map (repoint s q) ps).
Proof.
  intros Hs Hps. induction Hps as [|p ps P Hps IH]; intros Ho; [done|]. cbn [cover map]. inversion Ho as [|? ? Ho' Hp]; subst.
  destruct P as [P1 P2]. cbn in P1, P2. rewrite (LessThan_placed c lo) by done. cbn [mbind option_bind fst snd protected_key].
  destruct (Z.ltb_spec (behind lo (pp_seq_num p)) (behind lo s)) as [Hlt|Hge].
  - rewrite IH by done. cbn [mbind option_bind]. replace (repoint s q p) with p; [done|].
    unfold repoint. destruct (Z.eqb_spec (pp_seq_num p) s) as [E|]; [rewrite E in Hlt; lia|done].
  - assert (Hrest : map (repoint s q) ps = ps).
    { clear IH Hps Ho Ho'. induction ps as [|p' ps IHp]; [done|]. cbn. inversion Hp as [|? ? Hp1 Hp2]; subst. rewrite IHp by done. unfold repoint.
      destruct (Z.eqb_spec (pp_seq_num p') s) as [E|]; [rewrite E in Hp1; lia|done]. }
    rewrite Hrest. unfold repoint. by destruct (pp_seq_num p =? s).
Qed.

Definition fill_in (rs : list RecoveredPacket) (p : ProtectedPacket) : ProtectedPacket :=
  match List.find (fun r => rp_seq_num r =? pp_seq_num p) rs with Some r => set_pkt p (rp_pkt r) | None => p end.

Lemma fill_in_later r rs ps : Forall (fun s => behind lo (rp_seq_num r) < behind lo s) (names ps) -> map (fill_in (r :: rs)) ps = map (fill_in rs) ps.
Proof.
  induction ps as [|p ps IH]; [done|]. intros Hp. inversion Hp as [|? ? Hp1 Hp2]; subst. cbn [map]. rewrite IH by done. f_equal. unfold fill_in. cbn [List.find].
  destruct (Z.eqb_spec (rp_seq_num r) (pp_seq_num p)) as [E|]; [rewrite E in Hp1; lia|done].
Qed.

Lemma fill_in_none rs p : pp_seq_num p ∉ known rs -> fill_in rs p = p.
Proof.
  unfold fill_in. induction rs as [|r rs IH]; [done|]. intros Hn. cbn [List.find]. destruct (Z.eqb_spec (rp_seq_num r) (pp_seq_num p)) as [E|].
  - exfalso. apply Hn. cbn. rewrite E. by left.
  - apply IH. intros Hin. apply Hn. by right.
Qed.

Lemma fill_in_seq rs p : pp_seq_num (fill_in rs p) = pp_seq_num p.
Proof. unfold fill_in. by destruct (List.find _ rs). Qed.

Lemma names_fill_in rs ps : names (map (fill_in rs) ps) = names ps.
Proof. unfold names. rewrite map_map. apply map_ext, fill_in_seq. Qed.

Lemma fill_in_known rs p : pp_pkt p = None -> (pp_pkt (fill_in rs p) <> None <-> pp_seq_num p ∈ known rs).
Proof.
  intros Hp. destruct (decide (pp_seq_num p ∈ known rs)) as [Hin|Hn].
  - split; [done|]. intros _. unfold fill_in. destruct (List.find _ rs) as [r|] eqn:E; [done|]. exfalso.
    apply list_elem_of_In, in_map_iff in Hin as (r & Er & Hr). apply (List.find_none _ _ E) in Hr. by apply Z.eqb_neq in Hr.
  - rewrite fill_in_none by done. by split.
Qed.

(** The merge points every protected packet that is in the list to its data. *)
Lemma Assign_exact ps : Forall (placed protected_key c lo) ps -> ordered lo (names ps) -> forall rs, Forall (placed recovered_key c lo) rs -> ordered lo (known rs) ->
  AssignRecoveredPackets ps rs = Some (map (fill_in rs) ps).
Proof.
  induction 1 as [|p ps P Hps IH]; intros Ho rs Hrs Hor; [by destruct rs|]. inversion Ho as [|? ? Ho' Hp]; subst. fold (names ps) in Hp.
  revert Hor. induction Hrs as [|r rs R Hrs IHr]; intros Hor.
  - cbn [AssignRecoveredPackets map]. f_equal. symmetry. rewrite fill_in_none by apply not_elem_of_nil. f_equal.
    clear. induction ps as [|p' ps IHp]; [done|]. cbn [map]. rewrite IHp, fill_in_none; [done|]. apply not_elem_of_nil.
  - inversion Hor as [|? ? Hor' Hr]; subst. cbn [AssignRecoveredPackets]. destruct P as [P1 P2], R as [R1 R2]. cbn in P1, P2, R1, R2.
    rewrite !(LessThan_placed c lo) by done. cbn [mbind option_bind fst snd protected_key recovered_key].
    destruct (Z.ltb_spec (behind lo (pp_seq_num p)) (behind lo (rp_seq_num r))) as [Hlt|Hge].
    + rewrite IH by (done || by constructor). cbn [mbind option_bind map]. rewrite (fill_in_none (r :: rs) p); [done|]. cbn. intros Hin.
      apply elem_of_cons in Hin as [E|Hin]; [rewrite E in Hlt; lia|]. rewrite list.Forall_forall in Hr. specialize (Hr _ Hin). lia.
    + destruct (Z.ltb_spec (behind lo (rp_seq_num r)) (behind lo (pp_seq_num p))) as [Hlt|Hge'].
      * rewrite fill_in_later; [by apply IHr|]. cbn. constructor; [done|]. eapply List.Forall_impl; [|exact Hp]. cbn. intros. lia.
      * assert (E : rp_seq_num r = pp_seq_num p) by (eapply (behind_inj lo); [apply R2|apply P2|lia]).
        rewrite IH by done. cbn [mbind option_bind map]. rewrite fill_in_later by (by rewrite E). do 2 f_equal. unfold fill_in. cbn [List.find]. by rewrite E, Z.eqb_refl.
Qed.

End Pointers.

(** ** The state, as far as it matters *)

Section Peeling.
Context {H : FecHeader} {L : FecHeaderLaws}.
Context (fresh : nat -> Z) (MinDiff : Z -> Z -> Z) (own ssrc : Z) (truth : Z -> option bytes).

(** Where the two streams start, the sequence numbers of their packets, and what the FEC
    packets protect. *)
Context (mlo flo : Z) (mseqs fseqs : list Z) (kin : Z -> list Z).

(** Fewer media packets than the decoder tracks, no more FEC packets than it keeps, all within
    the windows (one window where the streams are one); MinDiff is the shorter way round. *)
Record setting : Prop := Setting {
  st_diff : forall a b, is_u16 a -> is_u16 b -> MinDiff a b = Z.min ((a - b) mod 65536) ((b - a) mod 65536);
  st_stream : stream ssrc truth;
  st_media : forall s p, truth s = Some p -> s ∈ mseqs;
  st_window : forall s, s ∈ mseqs -> in_window mlo s;
  st_few : (length mseqs < 192)%nat;
  st_fec_window : forall t, t ∈ fseqs -> in_window flo t;
  st_fec_few : (length fseqs <= 48)%nat;
  st_same : own = ssrc -> mlo = flo;
  st_kin : forall t, t ∈ fseqs -> ordered mlo (kin t) /\ forall s, s ∈ kin t -> s ∈ mseqs
}.

Context (HT : setting).

Definition listed (f : ReceivedFecPacket) : Prop := rf_seq_num f ∈ fseqs /\ names (protected_packets f) = kin (rf_seq_num f).

Definition exact (recs : list RecoveredPacket) (f : ReceivedFecPacket) : Prop :=
  Forall (fun p => pp_pkt p <> None <-> pp_seq_num p ∈ known recs) (protected_packets f).

(** The FEC packets [heard] are in the list or have nothing more to give; the media packets
    [held] are in the other list; both lists are in order; the pointers are those of the
    packets that are known. *)
Record tracks (heard held : list Z) (fecs : list ReceivedFecPacket) (recs : list RecoveredPacket) : Prop := Tracks {
  tr_fecs : Forall (fec_ok own ssrc (sent truth) (described ssrc truth)) fecs;
  tr_recs : Forall (rec_ok ssrc (sent truth)) recs;
  tr_order : ordered mlo (known recs);
  tr_listed : Forall listed fecs;
  tr_nodup : NoDup (map rf_seq_num fecs);
  tr_exact : Forall (exact recs) fecs;
  tr_heard : forall t, t ∈ heard -> t ∈ map rf_seq_num fecs \/ forall s, s ∈ kin t -> s ∈ known recs;
  tr_held : forall s, s ∈ held -> s ∈ known recs
}.

Lemma rec_window r : rec_ok ssrc (sent truth) r -> in_window mlo (rp_seq_num r).
Proof. intros (_ & _ & Hr). by eapply (st_window HT), (st_media HT). Qed.

Lemma recs_placed recs : Forall (rec_ok ssrc (sent truth)) recs -> Forall (placed recovered_key ssrc mlo) recs.
Proof. intros Hr. eapply List.Forall_impl; [|exact Hr]. intros r Hr'. split; [apply Hr'|by apply rec_window]. Qed.

Lemma listed_window f : listed f -> in_window flo (rf_seq_num f).
Proof. intros [Hf _]. by apply (st_fec_window HT). Qed.

Lemma ptrs_placed f : fec_ok own ssrc (sent truth) (described ssrc truth) f -> listed f -> Forall (placed protected_key ssrc mlo) (protected_packets f).
Proof.
  intros [_ _ Hp _] [Hl1 Hl2]. apply list.Forall_forall. intros p Hin. rewrite (list.Forall_forall (ptr_ok _ _)) in Hp. split; [by apply Hp|].
  apply (st_window HT), (st_kin HT (rf_seq_num f)); [done|]. rewrite <- Hl2. by apply in_names.
Qed.

Lemma listed_order f : listed f -> ordered mlo (names (protected_packets f)).
Proof. intros [Hl1 ->]. by apply (st_kin HT). Qed.

Lemma recs_few recs : Forall (rec_ok ssrc (sent truth)) recs -> ordered mlo (known recs) -> (length recs < 192)%nat.
Proof.
  intros Hr Ho. pose proof (st_few HT). enough (length (known recs) <= length mseqs)%nat by (unfold known in *; rewrite length_map in *; lia).
  apply submseteq_length, NoDup_submseteq; [by eapply ordered_nodup|]. intros s Hs. apply list_elem_of_In, in_map_iff in Hs as (r & <- & Hin).
  rewrite (list.Forall_forall (rec_ok _ _)) in Hr. apply list_elem_of_In in Hin. destruct (Hr r Hin) as (_ & _ & Hr'). by eapply (st_media HT).
Qed.

Lemma fecs_few fecs : Forall listed fecs -> NoDup (map rf_seq_num fecs) -> (length fecs <= 48)%nat.
Proof.
  intros Hl Hn. pose proof (st_fec_few HT). enough (length (map rf_seq_num fecs) <= length fseqs)%nat by (rewrite length_map in *; lia).
  apply submseteq_length, NoDup_submseteq; [done|]. intros t Ht. apply list_elem_of_In, in_map_iff in Ht as (f & <- & Hin).
  rewrite (list.Forall_forall listed) in Hl. apply Hl. by apply list_elem_of_In.
Qed.

Lemma keep_all recs : Forall (rec_ok ssrc (sent truth)) recs -> ordered mlo (known recs) -> DiscardOldRecoveredPackets recs = recs.
Proof.
  intros Hr Ho. pose proof (recs_few recs Hr Ho). unfold DiscardOldRecoveredPackets. destruct law_limits as (_ & _ & -> & _).
  replace (length recs - Z.to_nat 192)%nat with 0%nat by lia. apply drop_0.
Qed.

(** ** The steps *)

Definition updated (r : RecoveredPacket) (f : ReceivedFecPacket) : ReceivedFecPacket :=
  with_protected f (map (repoint (rp_seq_num r) (rp_pkt r)) (protected_packets f)).

Lemma names_repoint s q ps : names (map (repoint s q) ps) = names ps.
Proof. unfold names. rewrite map_map. apply map_ext. intros p. unfold repoint. by destruct (_ =? _). Qed.

Lemma Update_exact r fecs : rec_ok ssrc (sent truth) r -> Forall (fec_ok own ssrc (sent truth) (described ssrc truth)) fecs -> Forall listed fecs ->
  UpdateCoveringFecPackets r fecs = Some (map (updated r) fecs).
Proof.
  intros Hr. induction 1 as [|f fecs Hf _ IH]; intros Hl; [done|]. inversion Hl as [|? ? Hl1 Hl2]; subst. cbn [UpdateCoveringFecPackets map].
  assert (E : rp_ssrc r = ssrc) by apply Hr. rewrite E, (cover_exact ssrc mlo) by (by apply rec_window || by apply ptrs_placed || by apply listed_order).
  cbn [mbind option_bind]. rewrite IH by done. done.
Qed.

(** A new packet goes into the list. *)
Lemma add_recovered heard held fecs recs r : tracks heard held fecs recs -> rec_ok ssrc (sent truth) r -> rp_seq_num r ∉ known recs ->
  exists recs', list_sort recovered_key (recs ++ [r]) = Some recs' /\ Permutation recs' (r :: recs) /\
    DiscardOldRecoveredPackets recs' = recs' /\
    UpdateCoveringFecPackets r fecs = Some (map (updated r) fecs) /\ tracks heard (rp_seq_num r :: held) (map (updated r) fecs) recs'.
Proof.
  intros [T1 T2 T3 T4 T5 T6 T7 T8] Hr Hn. pose proof (Update_exact r fecs Hr T1 T4) as EU.
  assert (Hall : Forall (rec_ok ssrc (sent truth)) (recs ++ [r])) by (apply list.Forall_app; split; [done|]; by constructor).
  destruct (list_sort_ordered recovered_key ssrc mlo (recs ++ [r]) (recs_placed _ Hall)) as (recs' & ES & HP & HO).
  { unfold seqs. change (map _ (recs ++ [r])) with (known (recs ++ [r])). unfold known. rewrite map_app. apply list.NoDup_app. splits.
    - by eapply ordered_nodup.
    - intros s Hs Hin. apply list_elem_of_singleton in Hin as ->. done.
    - apply list.NoDup_singleton. }
  change (seqs recovered_key recs') with (known recs') in HO. assert (HR : Forall (rec_ok ssrc (sent truth)) recs') by (by rewrite HP).
  assert (HP' : Permutation recs' (r :: recs)) by (rewrite HP; symmetry; apply Permutation_cons_append).
  assert (HK : forall s, s ∈ known recs' <-> s = rp_seq_num r \/ s ∈ known recs) by (intros s; unfold known; rewrite HP'; cbn; apply elem_of_cons).
  exists recs'. splits; try done; [by apply keep_all|]. destruct (Update_ok own ssrc (sent truth) (described ssrc truth) (described_repoint ssrc truth) r fecs Hr T1) as (fecs' & EU' & HU & _).
  rewrite EU in EU'. injection EU' as <-. constructor; try done.
  - apply Forall_map. eapply List.Forall_impl; [|exact T4]. intros f [F1 F2]. split; [done|]. cbn. by rewrite names_repoint.
  - by rewrite map_map.
  - apply Forall_map. eapply List.Forall_impl; [|exact T6]. intros f Hf. unfold exact in *. cbn. apply Forall_map. eapply List.Forall_impl; [|exact Hf].
    intros p Hp. cbn beta. rewrite HK. unfold repoint. destruct (Z.eqb_spec (pp_seq_num p) (rp_seq_num r)) as [E|E]; cbn [pp_pkt set_pkt pp_seq_num].
    + split; [by left|done].
    + rewrite Hp. split; [by right|]. by intros [|].
  - intros t Ht. destruct (T7 t Ht) as [Hin|Hin]; [left; by rewrite map_map|right]. intros s Hs. apply HK. right. by apply Hin.
  - intros s Hs. apply HK. apply elem_of_cons in Hs as [-> | Hs]; [by left|right; by apply T8].
Qed.

(** An FEC packet that has nothing more to give goes out of the list. *)
Lemma drop_done heard held pre f post recs : tracks heard held (pre ++ f :: post) recs -> (forall s, s ∈ kin (rf_seq_num f) -> s ∈ known recs) ->
  tracks heard held (pre ++ post) recs.
Proof.
  intros [T1 T2 T3 T4 T5 T6 T7 T8] Hf. rewrite <- Permutation_middle in T1, T4, T6. inversion T1; inversion T4; inversion T6; subst.
  rewrite map_app, map_cons, <- Permutation_middle in T5. apply list.NoDup_cons in T5 as [_ T5]. rewrite <- map_app in T5. constructor; try done.
  intros t Ht. destruct (T7 t Ht) as [Hin|Hin]; [|by right]. rewrite map_app, map_cons in Hin. rewrite elem_of_app, elem_of_cons in Hin.
  destruct Hin as [Hin|[->|Hin]]; [| by right|]; left; rewrite map_app; apply elem_of_app; [by left|by right].
Qed.

Lemma diff_in_window lo a b : in_window lo a -> in_window lo b -> MinDiff a b <= kOldSequenceThreshold.
Proof. intros [Ha Wa] [Hb Wb]. rewrite (st_diff HT) by done. unfold kOldSequenceThreshold, behind, is_u16 in *. dlia. Qed.

(** The one packet that is missing. *)
Lemma others_known f recs p : NumCoveredPacketsMissing f = 1%nat -> exact recs f -> p ∈ protected_packets f -> pp_pkt p = None ->
  forall s, s ∈ names (protected_packets f) -> s = pp_seq_num p \/ s ∈ known recs.
Proof.
  intros Hone He Hp En s Hs. rewrite NumCovered_spec in Hone. assert (Hm : length (missing f) = 1%nat) by lia. clear Hone.
  destruct (one_missing _ Hm) as (l1 & p' & l2 & Eps & Ep' & N1 & N2). unfold exact in He. rewrite Eps in *.
  assert (Hdef : forall q, q ∈ l1 ++ p' :: l2 -> pp_pkt q = None -> q = p').
  { intros q Hq Eq. apply elem_of_app in Hq as [Hq|Hq]; [rewrite list.Forall_forall in N1; by destruct (N1 q Hq)|].
    apply elem_of_cons in Hq as [|Hq]; [done|]. rewrite list.Forall_forall in N2. by destruct (N2 q Hq). }
  apply list_elem_of_In, in_map_iff in Hs as (q & <- & Hq). apply list_elem_of_In in Hq. destruct (pp_pkt q) eqn:Eq.
  - right. rewrite list.Forall_forall in He. apply (He q Hq). by rewrite Eq.
  - left. by rewrite (Hdef p Hp En), (Hdef q Hq Eq).
Qed.

Lemma all_known f recs : NumCoveredPacketsMissing f = 0%nat -> exact recs f -> forall s, s ∈ names (protected_packets f) -> s ∈ known recs.
Proof.
  intros Hz He s Hs. rewrite NumCovered_spec in Hz. assert (Hm : missing f = []) by (apply nil_length_inv; lia).
  apply list_elem_of_In, in_map_iff in Hs as (q & <- & Hq). unfold exact in He. rewrite list.Forall_forall in He. apply He; [by apply list_elem_of_In|].
  intros En. assert (Hin : In q (missing f)) by (apply List.filter_In; split; [done|by rewrite En]). by rewrite Hm in Hin.
Qed.

Lemma not_old f recs : fec_ok own ssrc (sent truth) (described ssrc truth) f -> listed f -> Forall (rec_ok ssrc (sent truth)) recs ->
  IsOldFecPacket MinDiff f recs = Some false.
Proof.
  intros Hf Hl Hr. unfold IsOldFecPacket. destruct (list.last recs) as [r|] eqn:Er; [|done].
  destruct (list.last (protected_packets f)) as [p|] eqn:Ep; [|apply list.last_None in Ep; by destruct (fo_some _ _ _ _ _ Hf)].
  cbn [mbind option_bind]. f_equal. rewrite Z.gtb_ltb. apply Z.ltb_ge, (diff_in_window mlo).
  - apply rec_window. apply list.last_Some in Er as (l & ->). apply list.Forall_app in Hr as [_ Hr]. by inversion Hr.
  - pose proof (ptrs_placed f Hf Hl) as HP. apply list.last_Some in Ep as (l & E). rewrite E in HP. apply list.Forall_app in HP as [_ HP].
    inversion HP as [|? ? HP1 _]; subst. apply HP1.
Qed.

(** AttemptRecovery goes on until no FEC packet lacks exactly one packet. *)
Lemma Attempt_tracks heard held fecs recs : tracks heard held fecs recs ->
  exists fecs' recs', AttemptRecovery fresh MinDiff (recovery_fuel (length fecs)) [] fecs recs = Some (fecs', recs') /\
    tracks heard held fecs' recs' /\ Forall (fun f => NumCoveredPacketsMissing f = 2%nat) fecs'.
Proof.
  intros HI. apply (AttemptRecovery_ind fresh MinDiff (tracks heard held)).
  - intros pre f post rs T E. assert (T' := T). destruct T' as [T1 T2 _ T4 _ T6 _ _].
    apply list.Forall_app in T1 as [_ T1], T4 as [_ T4], T6 as [_ T6]. inversion T1 as [|? ? F1 _]; inversion T4 as [|? ? F4 _]; inversion T6 as [|? ? F6 _]; subst.
    destruct (Recover_described fresh own ssrc truth f (st_stream HT) F1 E) as (p & q & Hp & En & Hq & ->). eexists. split; [done|]. cbn beta iota.
    set (r := MkRecovered _ _ _ _ _). assert (Hr : rec_ok ssrc (sent truth) r) by (split; [done|]; split; [by destruct (st_stream HT _ _ Hq)|done]).
    assert (Hn : rp_seq_num r ∉ known rs).
    { cbn. unfold exact in F6. rewrite list.Forall_forall in F6. intros Hin. apply (F6 p Hp) in Hin. by rewrite En in Hin. }
    destruct (add_recovered heard held _ rs r T Hr Hn) as (rs' & -> & HP & Hkeep & -> & T'). exists rs', (map (updated r) (pre ++ f :: post)).
    splits; [done|done|by rewrite length_map|]. rewrite Hkeep, map_app, map_cons. rewrite take_app_length' by (by rewrite length_map).
    rewrite cons_middle, app_assoc, drop_app_length' by (rewrite length_app, length_map; cbn; lia).
    assert (T'' : tracks heard held (map (updated r) pre ++ updated r f :: map (updated r) post) rs').
    { rewrite map_app, map_cons in T'. destruct T' as [U1 U2 U3 U4 U5 U6 U7 U8]. constructor; try done. intros s Hs. apply U8. by right. }
    eapply drop_done; [exact T''|]. cbn [rf_seq_num with_protected updated]. destruct F4 as [_ <-]. intros s Hs.
    assert (HK : known rs' ≡ₚ rp_seq_num r :: known rs) by (unfold known; by rewrite HP). rewrite HK, elem_of_cons. by eapply others_known.
  - intros pre f post rs T E. eapply drop_done; [exact T|]. destruct T as [_ _ _ T4 _ T6 _ _]. apply list.Forall_app in T4 as [_ T4], T6 as [_ T6].
    inversion T4 as [|? ? [_ F4] _]; inversion T6 as [|? ? F6 _]; subst. rewrite <- F4. by apply all_known.
  - intros pre f post rs [T1 T2 _ T4 _ _ _ _] E. apply list.Forall_app in T1 as [_ T1], T4 as [_ T4].
    inversion T1 as [|? ? F1 _]; inversion T4 as [|? ? F4 _]; subst. exists false. split; [by apply not_old|done].
  - done.
  - constructor.
  - unfold recovery_fuel. cbn. lia.
Qed.

(** ** One call *)

Definition follows (heard held : list Z) (this : Decoder) (recs : list RecoveredPacket) : Prop :=
  ssrc_ this = own /\ protected_media_ssrc_ this = ssrc /\ tracks heard held (received_fec_packets_ this) recs.

(** A packet of the streams. *)
Definition expected (p : ReceivedPacket) : Prop :=
  if is_fec p then rv_ssrc p = own /\ rv_seq_num p ∈ fseqs /\ reads_as ssrc truth (kin (rv_seq_num p)) p
  else rv_ssrc p = ssrc /\ truth (rv_seq_num p) = Some (rv_pkt p).

Definition fec_heard (p : ReceivedPacket) (heard : list Z) : list Z := if is_fec p then rv_seq_num p :: heard else heard.
Definition media_held (p : ReceivedPacket) (held : list Z) : list Z := if is_fec p then held else rv_seq_num p :: held.

Lemma InsertMedia_tracks heard held this recs p : follows heard held this recs -> rv_ssrc p = ssrc -> truth (rv_seq_num p) = Some (rv_pkt p) ->
  exists this' recs', InsertMediaPacket this recs p = Some (this', recs') /\ follows heard (rv_seq_num p :: held) this' recs'.
Proof.
  intros (I1 & I2 & T) Hs Hp. unfold InsertMediaPacket. rewrite I2, check_then by (by apply Z.eqb_eq). rewrite Hs.
  destruct (duplicate_spec recovered_key ssrc (rv_seq_num p) recs) as (b & -> & Hb); [eapply recs_same_ssrc, (tr_recs _ _ _ _ T)|]. cbn [mbind option_bind].
  assert (HD : b = true <-> rv_seq_num p ∈ known recs).
  { rewrite Hb. unfold known. rewrite list_elem_of_In, in_map_iff. rewrite List.Exists_exists. cbn. split; intros (r & ? & ?); exists r; by split. }
  destruct b.
  - exists this, recs. split; [done|]. split; [done|]. split; [done|]. destruct T as [T1 T2 T3 T4 T5 T6 T7 T8]. constructor; try done.
    intros s Hin. apply elem_of_cons in Hin as [-> | Hin]; [by apply HD|by apply T8].
  - assert (Hn : rv_seq_num p ∉ known recs) by (intros Hin; by apply HD in Hin). set (r := MkRecovered _ _ _ _ _).
    assert (Hr : rec_ok ssrc (sent truth) r) by (split; [done|]; split; [by destruct (st_stream HT _ _ Hp)|done]).
    destruct (add_recovered heard held _ recs r T Hr Hn) as (recs' & -> & _ & _ & -> & T'). cbn [mbind option_bind].
    exists (with_fecs this (map (updated r) (received_fec_packets_ this))), recs'. by split.
Qed.

Lemma InsertFec_tracks heard held this recs p : follows heard held this recs -> rv_ssrc p = own -> rv_seq_num p ∈ fseqs -> reads_as ssrc truth (kin (rv_seq_num p)) p ->
  exists this', InsertFecPacket this recs p = Some this' /\ follows (rv_seq_num p :: heard) held this' recs.
Proof.
  intros (I1 & I2 & T) Hs Hf (d & info & ER & Ei & Em & EP & Hne & Hu & HD). assert (T' := T). destruct T' as [T1 T2 T3 T4 T5 T6 T7 T8].
  unfold InsertFecPacket. rewrite I1, check_then by (by apply Z.eqb_eq). rewrite Hs in *.
  destruct (duplicate_spec fec_key own (rv_seq_num p) (received_fec_packets_ this)) as (b & -> & Hb); [by eapply fecs_same_ssrc|]. cbn [mbind option_bind].
  assert (HD' : b = true <-> rv_seq_num p ∈ map rf_seq_num (received_fec_packets_ this)).
  { rewrite Hb, list_elem_of_In, in_map_iff, List.Exists_exists. cbn. split; intros (r & ? & ?); exists r; by split. }
  destruct b.
  - exists this. split; [done|]. split; [done|]. split; [done|]. constructor; try done. intros t Ht. apply elem_of_cons in Ht as [-> | Ht]; [left; by apply HD'|by apply T7].
  - rewrite ER. cbn [mbind option_bind]. rewrite I2, Ei, Z.eqb_refl. cbn [negb]. destruct (Z.gtb_spec (packet_mask_offset info + packet_mask_size info) (zlen d)); [lia|].
    rewrite EP. cbn [mbind option_bind]. set (ps := map _ (kin (rv_seq_num p))) in *. assert (Hps : names ps = kin (rv_seq_num p)) by (unfold names, ps; rewrite map_map; apply map_id).
    assert (Hptr : Forall (ptr_ok ssrc (sent truth)) ps) by (apply Forall_map; eapply List.Forall_impl; [|exact Hu]; by intros s Hs').
    destruct (st_kin HT _ Hf) as [Hko Hkin].
    assert (Hpl : Forall (placed protected_key ssrc mlo) ps).
    { apply Forall_map. apply list.Forall_forall. intros s Hin. split; [done|]. by apply (st_window HT), Hkin. }
    pose proof (Assign_exact ssrc mlo ps Hpl ltac:(by rewrite Hps) recs (recs_placed _ T2) T3) as EA.
    destruct (Assign_ok ssrc (sent truth) ps recs Hptr T2) as (ps' & EA' & Hptr' & Hkey). rewrite EA in EA'. injection EA' as <-.
    destruct ps as [|p0 ps0] eqn:Eps; [by destruct (kin (rv_seq_num p))|]. rewrite <- Eps in *. rewrite EA. cbn [mbind option_bind].
    set (f := MkReceivedFec own _ info (map (fill_in recs) ps) d). assert (Hfo : fec_ok own ssrc (sent truth) (described ssrc truth) f).
    { constructor; [done|cbn; by rewrite Eps|done|]. eapply described_repoint; [exact HD|]. by splits. }
    assert (Hfl : listed f) by (split; [done|]; cbn; by rewrite names_fill_in).
    assert (Hfe : exact recs f).
    { unfold exact. cbn. apply Forall_map. apply list.Forall_forall. intros p1 Hp1. cbn beta. rewrite fill_in_seq. apply fill_in_known.
      rewrite Eps in Hp1. rewrite <- Eps in Hp1. unfold ps in *. apply list_elem_of_In, in_map_iff in Hp1 as (s & <- & _). done. }
    destruct (list_sort_perm fec_key own (received_fec_packets_ this ++ [f])) as (fecs & -> & HP).
    { eapply fecs_same_ssrc, list.Forall_app. split; [exact T1|by constructor]. }
    cbn [mbind option_bind]. cbv zeta. assert (HP' : Permutation fecs (f :: received_fec_packets_ this)) by (rewrite HP; symmetry; apply Permutation_cons_append).
    assert (HN : NoDup (map rf_seq_num fecs)) by (rewrite HP'; cbn; apply list.NoDup_cons; split; [intros Hin; by apply HD' in Hin|done]).
    assert (HL : Forall listed fecs) by (rewrite HP'; by constructor). pose proof (fecs_few fecs HL HN) as Hfew.
    destruct law_limits as (_ & _ & _ & ->). destruct (Z.gtb_spec (zlen fecs) 48); [lia|]. rewrite check_then by (apply Z.leb_le; lia).
    exists (with_fecs this fecs). split; [done|]. split; [done|]. split; [done|]. cbn [received_fec_packets_ with_fecs].
    constructor; try done; try (rewrite HP'; by constructor). intros t Ht. rewrite HP'. cbn. rewrite elem_of_cons.
    apply elem_of_cons in Ht as [-> | Ht]; [left; by left|]. destruct (T7 t Ht); [left; by right|by right].
Qed.

Lemma discard_none s fecs : Forall listed fecs -> in_window flo s -> discard_far MinDiff s fecs = fecs.
Proof.
  intros Hl Hs. destruct Hl as [|f fecs Hf Hl]; [done|]. cbn [discard_far]. rewrite Z.gtb_ltb.
  pose proof (diff_in_window flo s _ Hs (listed_window f Hf)). by rewrite (proj2 (Z.ltb_ge _ _)).
Qed.

(** Every packet the decoder is given is taken in, and then every FEC packet that still waits
    lacks at least two. *)
Lemma DecodeFec_tracks heard held this recs p : follows heard held this recs -> expected p ->
  exists this' recs', DecodeFec fresh MinDiff this recs p = Some (this', recs') /\
    follows (fec_heard p heard) (media_held p held) this' recs' /\ Forall (fun f => NumCoveredPacketsMissing f = 2%nat) (received_fec_packets_ this').
Proof.
  intros HF Hp. assert (HF' := HF). destruct HF' as (I1 & I2 & T). unfold DecodeFec. pose proof (recs_few recs (tr_recs _ _ _ _ T) (tr_order _ _ _ _ T)) as Hfew.
  destruct law_limits as (_ & _ & HR & _). rewrite HR. rewrite (proj2 (Z.eqb_neq (zlen recs) 192)) by lia. unfold InsertPacket. cbv zeta.
  assert (E : match received_fec_packets_ this with
    | [] => this
    | f :: _ => if rv_ssrc p =? rf_ssrc f then with_fecs this (discard_far MinDiff (rv_seq_num p) (received_fec_packets_ this)) else this
    end = this).
  { destruct (received_fec_packets_ this) as [|f fecs] eqn:Ef; [done|]. destruct (Z.eqb_spec (rv_ssrc p) (rf_ssrc f)) as [Es|]; [|done].
    assert (Ho : rf_ssrc f = own) by (pose proof (tr_fecs _ _ _ _ T) as T1; rewrite ?Ef in T1; inversion T1 as [|? ? [F1 _ _ _] _]; by subst).
    rewrite <- Ef in T |- *. rewrite discard_none; [by destruct this|apply (tr_listed _ _ _ _ T)|]. unfold expected in Hp. destruct (is_fec p).
    - apply (st_fec_window HT), Hp.
    - destruct Hp as [Hp1 Hp2]. rewrite <- (st_same HT) by congruence. by eapply (st_window HT), (st_media HT). }
  rewrite E. clear E. unfold expected, fec_heard, media_held in *.
  assert (Hins : exists this2 recs2, (if is_fec p then this ← InsertFecPacket this recs p; Some (this, recs) else InsertMediaPacket this recs p) = Some (this2, recs2) /\
    follows (if is_fec p then rv_seq_num p :: heard else heard) (if is_fec p then held else rv_seq_num p :: held) this2 recs2).
  { destruct (is_fec p).
    - destruct Hp as (P1 & P2 & P3). destruct (InsertFec_tracks heard held this recs p HF P1 P2 P3) as (this2 & -> & HF2). by exists this2, recs.
    - destruct Hp as (P1 & P2). by apply InsertMedia_tracks. }
  destruct Hins as (this2 & recs2 & -> & K1 & K2 & T2). cbn [mbind option_bind]. rewrite keep_all by apply T2.
  destruct (Attempt_tracks _ _ _ _ T2) as (fecs & recs3 & -> & T3 & H3). cbn [mbind option_bind].
  exists (with_fecs this2 fecs), recs3. split; [done|]. split; [|done]. by split.
Qed.

Lemma decode_all_tracks received : Forall expected received -> forall heard held this recs, follows heard held this recs ->
  Forall (fun f => NumCoveredPacketsMissing f = 2%nat) (received_fec_packets_ this) ->
  exists this' recs', decode_all fresh MinDiff this recs received = Some (this', recs') /\
    follows (fold_left (fun l p => fec_heard p l) received heard) (fold_left (fun l p => media_held p l) received held) this' recs' /\
    Forall (fun f => NumCoveredPacketsMissing f = 2%nat) (received_fec_packets_ this').
Proof.
  induction 1 as [|p received Hp _ IH]; intros heard held this recs HF HM; [by exists this, recs|]. cbn [decode_all fold_left].
  destruct (DecodeFec_tracks heard held this recs p HF Hp) as (this2 & recs2 & -> & HF2 & HM2). cbn [mbind option_bind]. by apply IH.
Qed.

(** With two missing there are two different sequence numbers that are not known. *)
Lemma two_missing f recs x : NumCoveredPacketsMissing f = 2%nat -> listed f -> exact recs f ->
  (forall s, s ∈ kin (rf_seq_num f) -> s <> x -> s ∈ known recs) -> False.
Proof.
  intros Htwo Hl He Hx. rewrite NumCovered_spec in Htwo. pose proof (listed_order f Hl) as Ho. destruct Hl as [_ Hl].
  assert (HM : forall p, p ∈ missing f -> pp_seq_num p = x).
  { intros p Hp. apply list_elem_of_In, List.filter_In in Hp as [Hp En]. apply list_elem_of_In in Hp. destruct (Z.eq_dec (pp_seq_num p) x) as [|Hne]; [done|].
    exfalso. unfold exact in He. rewrite list.Forall_forall in He. apply (He p Hp); [apply Hx; [rewrite <- Hl; by apply in_names|done]|]. by destruct (pp_pkt p). }
  assert (HN : NoDup (names (missing f))).
  { apply ordered_nodup in Ho. unfold missing. clear -Ho. induction (protected_packets f) as [|p ps IH]; [constructor|]. cbn in Ho. apply list.NoDup_cons in Ho as [Hn Ho].
    cbn [List.filter]. destruct (pp_pkt p); [by apply IH|]. cbn. apply list.NoDup_cons. split; [|by apply IH]. intros Hin. apply Hn.
    apply list_elem_of_In, in_map_iff in Hin as (p' & <- & Hp'). apply List.filter_In in Hp' as [Hp' _]. by apply in_names, list_elem_of_In. }
  destruct (missing f) as [|p1 [|p2 ps]]; cbn in Htwo; [lia|lia|]. apply list.NoDup_cons in HN as [HN _]. apply HN. cbn.
  rewrite (HM p1), (HM p2); [by left|right; by left|by left].
Qed.

Lemma fold_adds (step : ReceivedPacket -> list Z -> list Z) s p : (forall p l, s ∈ l -> s ∈ step p l) -> (forall l, s ∈ step p l) ->
  forall ps, p ∈ ps -> forall l, s ∈ fold_left (fun l p => step p l) ps l.
Proof.
  intros Hstep Hp. assert (Hkeep : forall ps l, s ∈ l -> s ∈ fold_left (fun l p => step p l) ps l).
  { induction ps as [|p' ps IH]; intros l Hl; [done|]. cbn [fold_left]. by apply IH, Hstep. }
  induction 1 as [p' ps|p' q ps _ IH]; intros l; cbn [fold_left]; [by apply Hkeep|by apply IH].
Qed.

(** The lists at the end: what was sent, what was received, and nothing that one more FEC
    packet could give. *)
Lemma decode_all_closed received : Forall expected received ->
  exists this recs, decode_all fresh MinDiff (MkDecoder own ssrc []) [] received = Some (this, recs) /\
    Forall (rec_ok ssrc (sent truth)) recs /\
    (forall p, p ∈ received -> is_fec p = false -> rv_seq_num p ∈ known recs) /\
    (forall p x, p ∈ received -> is_fec p = true -> (forall s, s ∈ kin (rv_seq_num p) -> s <> x -> s ∈ known recs) ->
      forall s, s ∈ kin (rv_seq_num p) -> s ∈ known recs).
Proof.
  intros Hr. destruct (decode_all_tracks received Hr [] [] (MkDecoder own ssrc []) []) as (this & recs & E & (_ & _ & T) & HM).
  { split; [done|]. split; [done|]. cbn. apply Tracks; try apply list.Forall_nil_2; [apply SSorted_nil|apply NoDup_nil_2| |]; by intros ? Hin%elem_of_nil. }
  { constructor. }
  exists this, recs. split; [done|]. split; [apply T|]. split.
  - intros p Hp Hm. apply (tr_held _ _ _ _ T). apply (fold_adds media_held) with (p := p); [intros p' l Hl; unfold media_held; destruct (is_fec p'); [done|by right]| |done].
    intros l. unfold media_held. rewrite Hm. by left.
  - intros p x Hp Hf Hx. assert (Hh : rv_seq_num p ∈ fold_left (fun l p => fec_heard p l) received []).
    { apply (fold_adds fec_heard) with (p := p); [intros p' l Hl; unfold fec_heard; destruct (is_fec p'); [by right|done]| |done].
      intros l. unfold fec_heard. rewrite Hf. by left. }
    destruct (tr_heard _ _ _ _ T _ Hh) as [Hin|Hk]; [|done]. exfalso. apply list_elem_of_In, in_map_iff in Hin as (f & Es & Hin). apply list_elem_of_In in Hin.
    rewrite (list.Forall_forall (fun f => NumCoveredPacketsMissing f = 2%nat)) in HM. pose proof (tr_listed _ _ _ _ T) as HL. pose proof (tr_exact _ _ _ _ T) as HE.
    rewrite (list.Forall_forall listed) in HL. rewrite (list.Forall_forall (exact recs)) in HE. eapply (two_missing f recs x); eauto. by rewrite Es.
Qed.

End Peeling.

(** ** A block *)

Section Block.
Context {H : FecHeader} {L : FecHeaderLaws}.
Context (own ssrc : Z) (truth : Z -> option bytes) (base : Z) (media : list bytes) (offs : list nat) (fecs : list bytes) (flo : Z) (number : nat -> Z).

Definition seq_at (o : nat) : Z := u16 (base + Z.of_nat o).

(** One block is sent, and the FEC packets that EncodeFec made of it, under distinct sequence
    numbers of a window. *)
Record sent_block : Prop := SentBlock {
  se_ssrc : is_u32 ssrc;
  se_stream : stream ssrc truth;
  se_block : forall s p, truth s = Some p -> exists o, o ∈ offs /\ s = seq_at o;
  se_fecs : encoded_from truth base media offs fecs;
  se_window : forall i, (i < length fecs)%nat -> in_window flo (number i);
  se_distinct : forall i j, (i < length fecs)%nat -> (j < length fecs)%nat -> number i = number j -> i = j;
  se_same : own = ssrc -> flo = base
}.

(** A packet of the block, or one of its FEC packets. *)
Definition of_block (p : ReceivedPacket) : Prop :=
  if is_fec p then rv_ssrc p = own /\ exists i, fecs !! i = Some (rv_pkt p) /\ rv_seq_num p = number i
  else rv_ssrc p = ssrc /\ truth (rv_seq_num p) = Some (rv_pkt p).

Lemma behind_offset o : is_u16 base -> (o < 48)%nat -> behind base (seq_at o) = Z.of_nat o.
Proof. unfold behind, seq_at, u16, is_u16. intros. dlia. Qed.

Lemma names_of_spec row s : (forall j, protects row j -> j ∈ offs) -> s ∈ names_of base row offs <-> exists o, protects row o /\ s = seq_at o.
Proof.
  intros Hin. unfold names_of, chosen. rewrite list_elem_of_In, in_map_iff. split.
  - intros (o & <- & Ho). apply List.filter_In in Ho as [Ho Hb]. exists o. split; [|done]. unfold protects. rewrite nth_lookup in Hb. by destruct (mask_bits row !! o) as [[]|].
  - intros (o & Ho & ->). exists o. split; [done|]. apply List.filter_In. split; [apply list_elem_of_In; by apply Hin|]. unfold protects in Ho. by rewrite nth_lookup, Ho.
Qed.

Lemma names_of_ordered row : is_u16 base -> block base 0 media offs -> (forall o, o ∈ offs -> (o < 48)%nat) -> ordered base (names_of base row offs).
Proof.
  intros Hu Hb Hs. pose proof (chosen_sorted row offs (block_sorted _ _ _ _ Hb)) as HC. unfold names_of.
  assert (HC' : forall o, o ∈ chosen row offs -> (o < 48)%nat) by (intros o Ho; apply Hs; apply list_elem_of_In, List.filter_In in Ho as [Ho _]; by apply list_elem_of_In).
  induction HC as [|o l _ IH Ho]; [constructor|]. cbn [map]. constructor; [apply IH; intros; apply HC'; by right|].
  apply Forall_map. apply list.Forall_forall. intros o' Ho'. cbn beta. fold (seq_at o) (seq_at o').
  rewrite !behind_offset by (try done; apply HC'; by constructor). rewrite list.Forall_forall in Ho. specialize (Ho o' Ho'). lia.
Qed.

Definition kin_of (rows : list bytes) (t : Z) : list Z :=
  match List.find (fun i => number i =? t) (seq 0 (length fecs)) with
  | Some i => match rows !! i with Some row => names_of base row offs | None => [] end
  | None => []
  end.

Lemma kin_of_number rows i row : sent_block -> rows !! i = Some row -> (i < length fecs)%nat -> kin_of rows (number i) = names_of base row offs.
Proof.
  intros S Hrow Hi. unfold kin_of. destruct (List.find _ _) as [j|] eqn:E.
  - apply List.find_some in E as [Hj E]. apply in_seq in Hj. apply Z.eqb_eq in E. assert (j = i) as -> by (apply (se_distinct S); [lia|done|done]). by rewrite Hrow.
  - apply (List.find_none _ _) with (x := i) in E; [by rewrite Z.eqb_refl in E|]. apply in_seq. lia.
Qed.

(** The documented MinDiff: the shorter way round. *)
Definition shorter_way (MinDiff : Z -> Z -> Z) : Prop :=
  forall a b, is_u16 a -> is_u16 b -> MinDiff a b = Z.min ((a - b) mod 65536) ((b - a) mod 65536).

Lemma offs_few : block base 0 media offs -> (forall o, o ∈ offs -> (o < 48)%nat) -> (length offs <= 48)%nat.
Proof.
  intros Hb Hs. destruct (list.last offs) as [l|] eqn:E; [|apply list.last_None in E; rewrite E; cbn; lia].
  pose proof (block_last _ _ _ _ _ Hb E). pose proof (block_length _ _ _ _ Hb). assert (l < 48)%nat; [|lia].
  apply Hs. apply list.last_Some in E as (l' & ->). apply elem_of_app. right. by left.
Qed.

Lemma block_setting MinDiff rows : sent_block -> shorter_way MinDiff -> Forall2 (fec_for ssrc base media offs) rows fecs -> (length fecs <= length media)%nat ->
  setting MinDiff own ssrc truth base flo (map seq_at offs) (map number (seq 0 (length fecs))) (kin_of rows).
Proof.
  intros S HD HF Hlen. pose proof (se_fecs S) as [[B1 B2 B3 B4 B5 B6] _]. pose proof (offs_few B2 B4) as H48. pose proof (block_length _ _ _ _ B2) as HL.
  assert (Hmem : forall t, t ∈ map number (seq 0 (length fecs)) -> exists i, t = number i /\ (i < length fecs)%nat).
  { intros t Ht. apply list_elem_of_In, in_map_iff in Ht as (i & <- & Hi). apply in_seq in Hi. exists i. split; [done|lia]. }
  constructor; try done.
  - apply (se_stream S).
  - intros s p Hp. destruct (se_block S s p Hp) as (o & Ho & ->). by apply list_elem_of_In, in_map, list_elem_of_In.
  - intros s Hs. apply list_elem_of_In, in_map_iff in Hs as (o & <- & Ho). apply list_elem_of_In, B4 in Ho. split; [apply u16_range|]. rewrite behind_offset by done. lia.
  - rewrite length_map. lia.
  - intros t Ht. destruct (Hmem t Ht) as (i & -> & Hi). by apply (se_window S).
  - rewrite length_map, length_seq. lia.
  - intros E. symmetry. by apply (se_same S).
  - intros t Ht. destruct (Hmem t Ht) as (i & -> & Hi). destruct (lookup_lt_is_Some_2 fecs i Hi) as [fec Hfec].
    destruct (Forall2_lookup_r _ _ _ _ _ HF Hfec) as (row & Hrow & [_ Fin _ _]). rewrite (kin_of_number rows i row) by done. split; [by apply names_of_ordered|].
    intros s Hs. apply names_of_spec in Hs as (o & Ho & ->); [|done]. apply list_elem_of_In, in_map, list_elem_of_In. by apply Fin.
Qed.

Lemma block_expected rows p : sent_block -> fec_ssrc_ok own ssrc -> Forall2 (fec_for ssrc base media offs) rows fecs ->
  of_block p -> expected own ssrc truth (map number (seq 0 (length fecs))) (kin_of rows) p.
Proof.
  intros S Hok HF Hp. unfold of_block, expected in *. destruct (is_fec p); [|done]. destruct Hp as (Ho & i & Hi & Hn). split; [done|].
  assert (Hlt : (i < length fecs)%nat) by (by eapply lookup_lt_Some). split.
  - rewrite Hn. apply list_elem_of_In, in_map, in_seq. lia.
  - destruct (Forall2_lookup_r _ _ _ _ _ HF Hi) as (row & Hrow & HR). rewrite Hn, (kin_of_number rows i row) by done.
    eapply fec_for_reads; try done; [apply S|apply S|]. apply (se_fecs S).
Qed.

(** The packet at offset [o] of the block is in the list, octet for octet. *)
Definition has (recs : list RecoveredPacket) (o : nat) : Prop :=
  exists r, r ∈ recs /\ rp_seq_num r = seq_at o /\ truth (seq_at o) = Some (rp_pkt r).

Lemma known_has recs o : Forall (rec_ok ssrc (sent truth)) recs -> seq_at o ∈ known recs <-> has recs o.
Proof.
  intros HR. unfold known. rewrite list_elem_of_In, in_map_iff. split.
  - intros (r & E & Hr). apply list_elem_of_In in Hr. exists r. splits; try done. rewrite (list.Forall_forall (rec_ok _ _)) in HR. destruct (HR r Hr) as (_ & _ & T). by rewrite <- E.
  - intros (r & Hr & E & _). exists r. split; [done|]. by apply list_elem_of_In.
Qed.

Lemma seq_at_inj o o' : is_u16 base -> (o < 48)%nat -> (o' < 48)%nat -> seq_at o = seq_at o' -> o = o'.
Proof. intros Hu Ho Ho' E. apply (f_equal (behind base)) in E. rewrite !behind_offset in E by done. lia. Qed.

Lemma block_recovered (fresh : nat -> Z) MinDiff received : sent_block -> fec_ssrc_ok own ssrc -> shorter_way MinDiff -> Forall of_block received ->
  exists rows this recs, Forall2 (fec_for ssrc base media offs) rows fecs /\ (forall o, o ∈ offs -> Exists (fun row => protects row o) rows) /\
    decode_all fresh MinDiff (MkDecoder own ssrc []) [] received = Some (this, recs) /\
    (forall p, p ∈ received -> is_fec p = false -> exists o, rv_seq_num p = seq_at o /\ has recs o) /\
    (forall p i row x, p ∈ received -> is_fec p = true -> rv_seq_num p = number i -> rows !! i = Some row ->
      (forall o, protects row o -> o <> x -> has recs o) -> forall o, protects row o -> has recs o).
Proof.
  intros S Hok HD Hr. pose proof (se_fecs S) as [[B1 B2 B3 B4 B5 B6] _].
  destruct (encoded_rows own ssrc truth base media offs fecs (se_ssrc S) Hok (se_stream S) (se_fecs S)) as (rows & HF & HE & Hlen).
  destruct (decode_all_closed fresh MinDiff own ssrc truth base flo (map seq_at offs) (map number (seq 0 (length fecs))) (kin_of rows)
    (block_setting MinDiff rows S HD HF Hlen) received) as (this & recs & E & HR & Hm & Hc).
  { eapply List.Forall_impl; [|exact Hr]. intros p. by apply block_expected. }
  exists rows, this, recs. splits; try done.
  - intros p Hp Hf. pose proof (Hm p Hp Hf) as Hk. rewrite (list.Forall_forall of_block) in Hr. specialize (Hr p Hp). unfold of_block in Hr. rewrite Hf in Hr.
    destruct Hr as [_ Ht]. destruct (se_block S _ _ Ht) as (o & _ & Eo). exists o. split; [done|]. apply known_has; [done|]. by rewrite <- Eo.
  - intros p i row x Hp Hf Hn Hrow Hx o Ho. destruct (Forall2_lookup_l _ _ _ _ _ HF Hrow) as (fec & Hfec & [_ Fin _ _]).
    assert (Hi : (i < length fecs)%nat) by (by eapply lookup_lt_Some).
    assert (HK : kin_of rows (rv_seq_num p) = names_of base row offs) by (rewrite Hn; by apply kin_of_number). apply known_has; [done|].
    apply (Hc p (seq_at x) Hp Hf).
    + intros s Hs Hne. rewrite HK in Hs. apply names_of_spec in Hs as (o' & Ho' & ->); [|done]. apply known_has; [done|]. apply Hx; [done|]. by intros ->.
    + rewrite HK. apply names_of_spec; [done|]. by exists o.
Qed.

End Block.

(** C4. The media stream is one block of well-formed packets of at most 1480 octets each,
    numbered in ascending order from base on with every number less than 48 after it (modulo
    2^16), with a 32-bit SSRC; EncodeFec, in either format, with a factor of 1 to 255 and no
    more important packets than there are, made the FEC packets, which arrive under distinct
    numbers that all lie in one window of 16384 numbers, the window of base when the FEC packets
    have the SSRC of the media packets, as they must for ULPFEC; and MinDiff is the shorter way
    around 2^16. Of these packets any part arrives, in any order and any number of times. Then
    the decoder takes everything in, each media packet that arrived is in the recovered list,
    and for every FEC packet that arrived, when all the packets it protects are in the list but
    possibly one, that one is in the list too, octet for octet. So one lost packet per FEC
    packet is recovered, and whatever that makes recoverable in turn. *)
Theorem fec_recovers_losses (flexfec : bool) (fresh : nat -> Z) (MinDiff : Z -> Z -> Z) (own ssrc : Z) (truth : Z -> option bytes)
    (base : Z) (media : list bytes) (offs : list nat) (fecs : list bytes) (flo : Z) (number : nat -> Z) (received : list ReceivedPacket) :
  (flexfec = false -> own = ssrc) -> shorter_way MinDiff ->
  sent_block (H := format flexfec) own ssrc truth base media offs fecs flo number ->
  Forall (of_block own ssrc truth fecs number) received ->
  exists rows this recs, Forall2 (fec_for (H := format flexfec) ssrc base media offs) rows fecs /\
    (forall o, o ∈ offs -> Exists (fun row => protects row o) rows) /\
    decode_all (H := format flexfec) fresh MinDiff (MkDecoder own ssrc []) [] received = Some (this, recs) /\
    (forall p, p ∈ received -> is_fec p = false -> exists o, rv_seq_num p = seq_at base o /\ has truth base recs o) /\
    (forall p i row x, p ∈ received -> is_fec p = true -> rv_seq_num p = number i -> rows !! i = Some row ->
      (forall o, protects row o -> o <> x -> has truth base recs o) -> forall o, protects row o -> has truth base recs o).
Proof.
  intros Hown HD S Hr. apply (block_recovered (H := format flexfec)) with (media := media) (flo := flo); try done. destruct flexfec; [done|by apply Hown].
Qed.

(** With packet 0 of the sample lost. *)
Lemma fec_recovers_losses_witness : exists rows this recs, Forall2 (fec_for (H := format true) 77 65534 sample_media sample_offs) rows sample_fecs /\
    (forall o, o ∈ sample_offs -> Exists (fun row => protects row o) rows) /\
    decode_all (H := format true) (fun _ => 5) (fun a b => Z.min ((a - b) mod 65536) ((b - a) mod 65536)) (MkDecoder 5 77 []) [] sample_received = Some (this, recs) /\
    (forall p, p ∈ sample_received -> is_fec p = false -> exists o, rv_seq_num p = seq_at 65534 o /\ has sample_truth 65534 recs o) /\
    (forall p i row x, p ∈ sample_received -> is_fec p = true -> rv_seq_num p = 900 + Z.of_nat i -> rows !! i = Some row ->
      (forall o, protects row o -> o <> x -> has sample_truth 65534 recs o) -> forall o, protects row o -> has sample_truth 65534 recs o).
Proof.
  assert (HL : length sample_fecs = 2%nat) by (vm_compute; reflexivity).
  apply (fec_recovers_losses true (fun _ => 5) _ 5 77 sample_truth 65534 sample_media sample_offs sample_fecs 900 (fun i => 900 + Z.of_nat i) sample_received).
  - discriminate.
  - intros a b _ _. reflexivity.
  - constructor.
    + unfold is_u32. lia.
    + exact sample_stream.
    + intros s p. unfold sample_truth. repeat (match goal with |- context [s =? ?c] => destruct (Z.eqb_spec s c) as [->|] end; [intros _|]); [| | |done].
      * exists 0%nat. split; [by left|reflexivity].
      * exists 2%nat. split; [by right; left|reflexivity].
      * exists 3%nat. split; [by right; right; left|reflexivity].
    + exact sample_encoded.
    + intros i Hi. unfold in_window, is_u16, behind. rewrite HL in Hi. rewrite Z.mod_small; lia.
    + intros i j _ _ E. lia.
    + discriminate.
  - assert (HF : forall s i, s = 900 + Z.of_nat i -> (i < 2)%nat ->
      of_block 5 77 sample_truth sample_fecs (fun i => 900 + Z.of_nat i) (MkReceived 5 s true false (nth i sample_fecs []))).
    { intros s i -> Hi. split; [reflexivity|]. exists i. split; [by apply sample_fec_in|reflexivity]. }
    unfold sample_received. repeat (apply Forall_cons; [first [apply HF; lia|by split]|]). apply Forall_nil.
Defined.
