(* ===== verification/ArrivalMap.v ===== *)
(** * Arrival times by sequence number:
      remote_bitrate_estimator/packet_arrival_map.{h,cc}

    A window of at most 2^15 unwrapped sequence numbers, kept as the deque of arrival times
    from [begin_sequence_number_] on, zero for a packet that has not arrived.  [arrival]
    is the map it stands for.  Signed 64-bit subtractions that overflow are None; a sum of
    an int64_t and a size_t wraps. *)

From S2P Require Import Prelude.
From S2P Require Import ByteIo.

Module PacketArrivalTimeMap.

Definition kMaxNumberOfPackets : Z := Z.shiftl 1 15.

Record t := Mk {
  arrival_times : list Z;
  begin_sequence_number_ : Z;
  has_seen_packet_ : bool
}.

Definition new : t := Mk [] 0 false.

(** a - b as int64_t *)
Definition sub64 (a b : Z) : option Z :=
  check ((- 2 ^ 63 <=? a - b) && (a - b <? 2 ^ 63)) ;; Some (a - b).

Definition begin_sequence_number (this : t) : Z := begin_sequence_number_ this.

Definition end_sequence_number (this : t) : Z :=
  s64 (begin_sequence_number_ this + zlen (arrival_times this)).

Definition get (this : t) (sequence_number : Z) : option Z :=
  pos ← sub64 sequence_number (begin_sequence_number_ this);
  check ((0 <=? pos) && (pos <? zlen (arrival_times this))) ;;
  arrival_times this !! Z.to_nat pos.

Definition has_received (this : t) (sequence_number : Z) : option bool :=
  pos ← sub64 sequence_number (begin_sequence_number_ this);
  if (0 <=? pos) && (pos <? zlen (arrival_times this))
  then x ← arrival_times this !! Z.to_nat pos; Some (negb (x =? 0))
  else Some false.

(** rtc::SafeClamp of values in order. *)
Definition clamp (this : t) (sequence_number : Z) : Z :=
  Z.max (begin_sequence_number this) (Z.min sequence_number (end_sequence_number this)).

(** The loop that trims leading packets that were not received: from [k] on over the times
    [l] behind it. *)
Fixpoint trim (l : list Z) (k : Z) : Z :=
  match l with
  | x :: l => if x =? 0 then trim l (k + 1) else k
  | [] => k
  end.

Definition AddPacket (sequence_number arrival_time_ms : Z) (this : t) : option t :=
  let times := arrival_times this in
  if negb (has_seen_packet_ this) then
    Some (Mk (times ++ [arrival_time_ms]) sequence_number true)
  else
  pos ← sub64 sequence_number (begin_sequence_number_ this);
  if (0 <=? pos) && (pos <? zlen times) then
    Some (Mk (<[Z.to_nat pos := arrival_time_ms]> times) (begin_sequence_number_ this) true)
  else if pos <? 0 then
    missing_packets ← sub64 0 pos;
    if missing_packets + zlen times >? kMaxNumberOfPackets then Some this else
    Some (Mk (<[0%nat := arrival_time_ms]> (replicate (Z.to_nat missing_packets) 0 ++ times)) sequence_number true)
  else
  '(times, begin, pos) ←
    (if kMaxNumberOfPackets <=? pos then
       let packets_to_remove := pos - kMaxNumberOfPackets + 1 in
       if zlen times <=? packets_to_remove then Some ([], sequence_number, 0) else
       let packets_to_remove := trim (drop (Z.to_nat packets_to_remove) times) packets_to_remove in
       check (0 <=? pos - packets_to_remove) ;;
       Some (drop (Z.to_nat packets_to_remove) times,
             s64 (begin_sequence_number_ this + packets_to_remove), pos - packets_to_remove)
     else Some (times, begin_sequence_number_ this, pos));
  let missing_gap_packets := u64 (pos - zlen times) in
  let times := if 0 <? missing_gap_packets
    then times ++ replicate (Z.to_nat missing_gap_packets) 0 else times in
  check (zlen times =? pos) ;;
  let times := times ++ [arrival_time_ms] in
  check (zlen times <=? kMaxNumberOfPackets) ;;
  Some (Mk times begin true).

(** The loop of RemoveOldPackets. *)
Fixpoint remove_old (sequence_number arrival_time_limit : Z) (times : list Z) (begin : Z) : list Z * Z :=
  match times with
  | x :: rest =>
      if (begin <? sequence_number) && (x <=? arrival_time_limit)
      then remove_old sequence_number arrival_time_limit rest (begin + 1)
      else (times, begin)
  | [] => (times, begin)
  end.

Definition RemoveOldPackets (sequence_number arrival_time_limit : Z) (this : t) : t :=
  let '(times, begin) :=
    remove_old sequence_number arrival_time_limit (arrival_times this) (begin_sequence_number_ this) in
  Mk times begin (has_seen_packet_ this).

Definition EraseTo (sequence_number : Z) (this : t) : option t :=
  if sequence_number >? begin_sequence_number_ this then
    d ← sub64 sequence_number (begin_sequence_number_ this);
    let count := Z.min d (zlen (arrival_times this)) in
    Some (Mk (drop (Z.to_nat count) (arrival_times this))
             (s64 (begin_sequence_number_ this + count)) (has_seen_packet_ this))
  else Some this.

End PacketArrivalTimeMap.

Import PacketArrivalTimeMap.

(** A deque read at any index, zero outside. *)
Definition at_ (l : list Z) (i : Z) : Z := if i <? 0 then 0 else default 0 (l !! Z.to_nat i).

(** The arrival time of a packet, zero when it is not in the window. *)
Definition arrival (m : t) (s : Z) : Z := at_ (arrival_times m) (s - begin_sequence_number_ m).

Definition last_of (m : t) : Z := begin_sequence_number_ m + zlen (arrival_times m).

(** The window: bounded, and far from the ends of int64_t. *)
Record wf (m : t) : Prop := {
  wf_size : zlen (arrival_times m) <= kMaxNumberOfPackets;
  wf_fresh : has_seen_packet_ m = false -> arrival_times m = [];
  wf_begin : - 2 ^ 62 < begin_sequence_number_ m;
  wf_end : last_of m <= 2 ^ 62
}.

Definition usable (s : Z) : Prop := - 2 ^ 62 < s < 2 ^ 62.

Ltac consts := change (2 ^ 62) with 4611686018427387904 in *; change (2 ^ 63) with 9223372036854775808 in *;
  change kMaxNumberOfPackets with 32768 in *.

Lemma sub64_small a b : - 2 ^ 63 <= a - b < 2 ^ 63 -> sub64 a b = Some (a - b).
Proof.
  intros Hd. unfold sub64. by rewrite (proj2 (Z.leb_le _ _)), (proj2 (Z.ltb_lt _ _)) by lia.
Qed.

Lemma s64_small a : - 2 ^ 62 <= a <= 2 ^ 62 -> s64 a = a.
Proof.
  intros Ha. rewrite <- (sw_mod 64 a) at 2 by (consts; change (2 ^ (64 - 1)) with 9223372036854775808; lia).
  unfold s64, sw. by rewrite Z.mod_mod.
Qed.

Lemma at_neg l i : i < 0 -> at_ l i = 0.
Proof. intros Hi. unfold at_. by rewrite (proj2 (Z.ltb_lt _ _)). Qed.

Lemma at_pos l i : 0 <= i -> at_ l i = default 0 (l !! Z.to_nat i).
Proof. intros Hi. unfold at_. by rewrite (proj2 (Z.ltb_ge _ _)). Qed.

Lemma at_out l i : zlen l <= i -> at_ l i = 0.
Proof. intros Hi. by rewrite at_pos, lookup_ge_None_2 by lia. Qed.

Lemma at_app l l' i : at_ (l ++ l') i = if i <? zlen l then at_ l i else at_ l' (i - zlen l).
Proof.
  destruct (Z.ltb_spec i (zlen l)); destruct (Z_lt_ge_dec i 0); rewrite ?(at_neg _ i) by done; try done; [|lia|].
  - by rewrite !at_pos, lookup_app_l by lia.
  - rewrite !at_pos, lookup_app_r by lia. do 2 f_equal. lia.
Qed.

Lemma at_zeroes n i : at_ (replicate n 0) i = 0.
Proof.
  unfold at_. destruct (_ <? _); [done|]. destruct (replicate n 0 !! Z.to_nat i) eqn:E; [|done].
  by apply lookup_replicate in E as [-> _].
Qed.

Lemma at_insert l k x i : (k < length l)%nat -> at_ (<[k := x]> l) i = if i =? Z.of_nat k then x else at_ l i.
Proof.
  intros Hk. destruct (Z_lt_ge_dec i 0).
  - rewrite !at_neg by lia. by rewrite (proj2 (Z.eqb_neq _ _)) by lia.
  - rewrite !at_pos by lia. destruct (Z.eqb_spec i (Z.of_nat k)) as [->|Hne].
    + by rewrite Nat2Z.id, list_lookup_insert_eq.
    + by rewrite list_lookup_insert_ne by lia.
Qed.

Lemma at_drop l k i : at_ (drop k l) i = if i <? 0 then 0 else at_ l (i + Z.of_nat k).
Proof.
  unfold at_. destruct (Z.ltb_spec i 0); [done|]. rewrite (proj2 (Z.ltb_ge _ _)) by lia.
  rewrite lookup_drop. do 2 f_equal. lia.
Qed.

Lemma at_one x i : at_ [x] i = if i =? 0 then x else 0.
Proof.
  destruct (Z.eqb_spec i 0) as [->|Hi]; [done|]. destruct (Z_lt_ge_dec i 0); [by apply at_neg|].
  apply at_out. cbn. lia.
Qed.

(** Trimming skips zeroes only. *)
Lemma trim_spec l : forall k, 0 <= k -> k <= trim l k <= k + zlen l /\ (forall i, i < trim l k - k -> at_ l i = 0).
Proof.
  induction l as [|x l IH]; intros k Hk; cbn [trim length].
  - split; [lia|]. intros i Hi. apply at_neg. lia.
  - destruct (Z.eqb_spec x 0) as [->|Hx]; [|split; [lia|intros; apply at_neg; lia]].
    destruct (IH (k + 1)) as [Hr Hz]; [lia|]. split; [lia|]. intros i Hi. destruct (Z_lt_ge_dec i 0); [by apply at_neg|].
    change (0 :: l) with ([0] ++ l). rewrite at_app, at_one. cbn [length].
    destruct (Z.ltb_spec i (Z.of_nat 1)); [by destruct (i =? 0)|]. apply Hz. lia.
Qed.

(** What AddPacket makes of the map: the new time, and what is less than a window older. *)
Definition window_add (s time : Z) (f : Z -> Z) (i : Z) : Z :=
  if i =? s then time else if s - kMaxNumberOfPackets <? i then f i else 0.

(** A packet that is older than the window and does not fit into it is dropped. *)
Definition too_old (m : t) (s : Z) : bool :=
  has_seen_packet_ m && (s <? begin_sequence_number_ m) && (last_of m - s >? kMaxNumberOfPackets).

(** The result of one branch. *)
Definition added (m : t) (s time : Z) (m' : t) : Prop :=
  wf m' /\ forall i, arrival m' i = window_add s time (arrival m) i.

Lemma added_inside m s time : wf m -> 0 <= s - begin_sequence_number_ m < zlen (arrival_times m) ->
  added m s time (Mk (<[Z.to_nat (s - begin_sequence_number_ m) := time]> (arrival_times m)) (begin_sequence_number_ m) true).
Proof.
  intros [Hsize Hfresh Hb He] Hpos. split.
  - constructor; unfold last_of in *; cbn [arrival_times begin_sequence_number_ has_seen_packet_]; rewrite ?length_insert; done.
  - intros i. unfold arrival, window_add. cbn [arrival_times begin_sequence_number_]. rewrite at_insert by lia.
    rewrite Z2Nat.id by lia. destruct (Z.eqb_spec i s) as [->|Hi]; [by rewrite Z.eqb_refl|].
    rewrite (proj2 (Z.eqb_neq _ _)) by lia. destruct (Z.ltb_spec (s - kMaxNumberOfPackets) i); [done|]. apply at_neg. lia.
Qed.

Lemma added_before m s time : wf m -> usable s -> s < begin_sequence_number_ m -> last_of m - s <= kMaxNumberOfPackets ->
  added m s time (Mk (<[0%nat := time]> (replicate (Z.to_nat (begin_sequence_number_ m - s)) 0 ++ arrival_times m)) s true).
Proof.
  intros [Hsize Hfresh Hb He] Hs Hlt Hfit. unfold usable, last_of in *.
  set (z := replicate _ 0). assert (Hz : zlen z = begin_sequence_number_ m - s) by (unfold z; rewrite length_replicate; lia).
  split.
  - constructor; unfold last_of; cbn [arrival_times begin_sequence_number_ has_seen_packet_]; rewrite ?length_insert, ?length_app; done || lia.
  - intros i. unfold arrival, window_add. cbn [arrival_times begin_sequence_number_].
    rewrite at_insert by (rewrite length_app; lia). destruct (Z.eqb_spec i s) as [->|Hi]; [by rewrite (proj2 (Z.eqb_eq _ _)) by lia|].
    rewrite (proj2 (Z.eqb_neq _ _)), at_app by lia. unfold z at 2. rewrite at_zeroes.
    destruct (Z.ltb_spec (i - s) (zlen z)).
    + rewrite at_neg by lia. by destruct (_ <? _).
    + rewrite Hz. replace (i - s - (begin_sequence_number_ m - s)) with (i - begin_sequence_number_ m) by lia.
      rewrite (proj2 (Z.ltb_lt _ _)); [done|]. consts. lia.
Qed.

(** Dropping [k] times from the front, where only zeroes and what leaves the window go, then
    filling the gap and adding the new one. *)
Lemma added_behind m s time k : wf m -> usable s -> last_of m <= s -> (k <= length (arrival_times m))%nat ->
  s - (begin_sequence_number_ m + Z.of_nat k) < kMaxNumberOfPackets ->
  (forall i, s - kMaxNumberOfPackets < i < begin_sequence_number_ m + Z.of_nat k -> arrival m i = 0) ->
  added m s time (Mk ((drop k (arrival_times m) ++ replicate (Z.to_nat (s - last_of m)) 0) ++ [time])
    (begin_sequence_number_ m + Z.of_nat k) true).
Proof.
  intros [Hsize Hfresh Hb He] Hs Hlast Hk Hroom Hold. unfold usable, last_of in *. split.
  - constructor; unfold last_of; cbn [arrival_times begin_sequence_number_ has_seen_packet_]; rewrite ?length_app, ?length_drop, ?length_replicate;
      cbn [length]; done || lia.
  - intros i. unfold arrival, window_add in *. cbn [arrival_times begin_sequence_number_].
    rewrite !at_app, at_zeroes, at_one, at_drop, length_app, length_drop, length_replicate.
    destruct (Z.eqb_spec i s) as [->|Hi].
    + rewrite (proj2 (Z.ltb_ge _ _)), (proj2 (Z.eqb_eq _ _)) by lia. done.
    + destruct (Z.ltb_spec (s - kMaxNumberOfPackets) i) as [Hin|Hout].
      * rewrite (proj2 (Z.eqb_neq (i - _ - _) 0)) by lia.
        replace (i - (begin_sequence_number_ m + Z.of_nat k) + Z.of_nat k) with (i - begin_sequence_number_ m) by lia.
        destruct (Z_lt_ge_dec i (begin_sequence_number_ m + Z.of_nat k)).
        -- rewrite (Hold i), (proj2 (Z.ltb_lt (i - _) 0)) by lia. by repeat destruct (_ <? _).
        -- rewrite (proj2 (Z.ltb_ge (i - _) 0)) by lia. destruct (Z.ltb_spec (i - (begin_sequence_number_ m + Z.of_nat k)) (Z.of_nat (length (arrival_times m) - k))).
           { by rewrite (proj2 (Z.ltb_lt _ _)) by lia. } rewrite (at_out _ (i - _)) by lia. by destruct (_ <? _).
      * rewrite (proj2 (Z.ltb_lt (i - _) 0)), (proj2 (Z.eqb_neq (i - _ - _) 0)) by lia. by repeat destruct (_ <? _).
Qed.

(** The end of AddPacket. *)
Lemma push_gap times begin pos time : zlen times <= pos < kMaxNumberOfPackets ->
  (let missing_gap_packets := u64 (pos - zlen times) in
   let times := if 0 <? missing_gap_packets
     then times ++ replicate (Z.to_nat missing_gap_packets) 0 else times in
   check (zlen times =? pos) ;;
   let times := times ++ [time] in
   check (zlen times <=? kMaxNumberOfPackets) ;;
   Some (Mk times begin true))
  = Some (Mk ((times ++ replicate (Z.to_nat (pos - zlen times)) 0) ++ [time]) begin true).
Proof.
  intros Hp. cbv zeta. rewrite u64_id by (unfold is_u64; consts; lia).
  set (l := if _ <? _ then _ else _). assert (E : l = times ++ replicate (Z.to_nat (pos - zlen times)) 0).
  { unfold l. destruct (Z.ltb_spec 0 (pos - zlen times)); [done|]. replace (Z.to_nat _) with 0%nat by lia. by rewrite app_nil_r. }
  assert (Hl : zlen l = pos) by (rewrite E, length_app, length_replicate; lia).
  rewrite Hl, Z.eqb_refl. cbn [check mbind option_bind]. rewrite length_app. cbn [length].
  rewrite (proj2 (Z.leb_le _ _)) by lia. cbn [check mbind option_bind]. by rewrite E.
Qed.

Lemma added_after m s time : wf m -> usable s -> last_of m <= s ->
  exists m', ('(times, begin, pos) ←
    (if kMaxNumberOfPackets <=? s - begin_sequence_number_ m then
       let packets_to_remove := s - begin_sequence_number_ m - kMaxNumberOfPackets + 1 in
       if zlen (arrival_times m) <=? packets_to_remove then Some ([], s, 0) else
       let packets_to_remove := trim (drop (Z.to_nat packets_to_remove) (arrival_times m)) packets_to_remove in
       check (0 <=? s - begin_sequence_number_ m - packets_to_remove) ;;
       Some (drop (Z.to_nat packets_to_remove) (arrival_times m),
             s64 (begin_sequence_number_ m + packets_to_remove), s - begin_sequence_number_ m - packets_to_remove)
     else Some (arrival_times m, begin_sequence_number_ m, s - begin_sequence_number_ m));
   let missing_gap_packets := u64 (pos - zlen times) in
   let times := if 0 <? missing_gap_packets
     then times ++ replicate (Z.to_nat missing_gap_packets) 0 else times in
   check (zlen times =? pos) ;;
   let times := times ++ [time] in
   check (zlen times <=? kMaxNumberOfPackets) ;;
   Some (Mk times begin true)) = Some m' /\ added m s time m' /\ has_seen_packet_ m' = true.
Proof.
  intros Hm Hs Hlast. pose proof Hm as [Hsize Hfresh Hb He]. unfold last_of, usable in *.
  destruct (Z.leb_spec kMaxNumberOfPackets (s - begin_sequence_number_ m)) as [Hfull|Hroom]; cbv zeta.
  - set (r := s - begin_sequence_number_ m - kMaxNumberOfPackets + 1). assert (0 <= r) by lia.
    destruct (Z.leb_spec (zlen (arrival_times m)) r) as [Hall|Hsome]; cbn [mbind option_bind].
    + rewrite push_gap by (consts; cbn; lia). eexists. split; [done|].
      change (([] ++ replicate (Z.to_nat (0 - zlen [])) 0) ++ [time]) with [time]. split; [|done]. split.
      * constructor; unfold last_of; cbn; consts; lia || done.
      * intros i. unfold arrival, window_add. cbn [arrival_times begin_sequence_number_]. rewrite at_one.
        destruct (Z.eqb_spec i s) as [->|]; [by rewrite (proj2 (Z.eqb_eq _ _)) by lia|].
        rewrite (proj2 (Z.eqb_neq _ _)) by lia. destruct (Z.ltb_spec (s - kMaxNumberOfPackets) i); [|done].
        rewrite at_out by lia. done.
    + destruct (trim_spec (drop (Z.to_nat r) (arrival_times m)) r) as [Hk Hz]; [done|].
      set (k := trim _ _) in *. rewrite length_drop in Hk.
      rewrite (proj2 (Z.leb_le _ _)) by lia. cbn [check mbind option_bind].
      rewrite s64_small, push_gap by (rewrite ?length_drop; consts; lia).
      replace (s - begin_sequence_number_ m - k - zlen (drop (Z.to_nat k) (arrival_times m))) with (s - last_of m)
        by (unfold last_of; rewrite length_drop; lia).
      eexists. split; [done|]. split; [|done].
      pose proof (added_behind m s time (Z.to_nat k) Hm Hs Hlast) as Ha. rewrite Z2Nat.id in Ha by lia.
      apply Ha; try lia.
      intros i Hi. unfold arrival. specialize (Hz (i - begin_sequence_number_ m - r)).
      rewrite at_drop, Z2Nat.id in Hz by lia. rewrite (proj2 (Z.ltb_ge _ _)) in Hz by lia.
      replace (i - begin_sequence_number_ m - r + r) with (i - begin_sequence_number_ m) in Hz by lia. apply Hz. lia.
  - cbn [mbind option_bind]. rewrite push_gap by lia.
    eexists. split; [done|]. split; [|done].
    pose proof (added_behind m s time 0 Hm Hs Hlast ltac:(lia) ltac:(lia)) as Ha. cbn [drop] in Ha.
    rewrite Z.add_0_r in Ha. replace (s - last_of m) with (s - begin_sequence_number_ m - zlen (arrival_times m)) in Ha by (unfold last_of; lia).
    apply Ha. intros i Hi. apply at_neg. lia.
Qed.

Lemma AddPacket_spec m s time : wf m -> usable s -> exists m', AddPacket s time m = Some m'
  /\ if too_old m s then m' = m else added m s time m' /\ has_seen_packet_ m' = true.
Proof.
  intros Hm Hs. pose proof Hm as [Hsize Hfresh Hb He]. unfold AddPacket, too_old, usable, last_of in *.
  destruct (has_seen_packet_ m) eqn:Hseen; cbn [negb andb].
  2:{ rewrite Hfresh by done. eexists. split; [done|]. split; [|done]. split.
      - constructor; unfold last_of; cbn; consts; lia || done.
      - intros i. unfold arrival, window_add. cbn [arrival_times begin_sequence_number_]. rewrite Hfresh by done. cbn [app].
        rewrite at_one. destruct (Z.eqb_spec i s) as [->|]; [by rewrite (proj2 (Z.eqb_eq _ _)) by lia|].
        rewrite (proj2 (Z.eqb_neq _ _)) by lia. destruct (_ <? i); [|done]. unfold at_. by destruct (_ <? _). }
  rewrite sub64_small by (consts; lia). cbn [mbind option_bind].
  destruct (Z.leb_spec 0 (s - begin_sequence_number_ m)) as [Hpos|Hneg].
  - rewrite (proj2 (Z.ltb_ge s _)) by lia. cbn [andb].
    destruct (Z.ltb_spec (s - begin_sequence_number_ m) (zlen (arrival_times m))) as [Hin|Hout].
    { eexists. split; [done|]. split; [by apply added_inside|done]. }
    rewrite (proj2 (Z.ltb_ge (_ - _) 0)) by lia. exact (added_after m s time Hm Hs ltac:(unfold last_of; lia)).
  - cbn [andb]. rewrite (proj2 (Z.ltb_lt (_ - _) 0)), sub64_small by (consts; lia). cbn [mbind option_bind].
    rewrite (proj2 (Z.ltb_lt s _)) by lia. cbn [andb]. replace (0 - (s - begin_sequence_number_ m) + zlen (arrival_times m))
      with (begin_sequence_number_ m + zlen (arrival_times m) - s) by lia.
    rewrite Z.gtb_ltb. destruct (Z.ltb_spec kMaxNumberOfPackets (begin_sequence_number_ m + zlen (arrival_times m) - s)); [by eexists|].
    replace (0 - (s - begin_sequence_number_ m)) with (begin_sequence_number_ m - s) by lia.
    eexists. split; [done|]. split; [|done]. apply added_before; try done; lia.
Qed.

(** Dropping from the front. *)
Lemma drop_arrival m k h : (k <= length (arrival_times m))%nat -> wf m ->
  let m' := Mk (drop k (arrival_times m)) (begin_sequence_number_ m + Z.of_nat k) h in
  (h = false -> has_seen_packet_ m = false) -> wf m'
  /\ forall i, arrival m' i = if i <? begin_sequence_number_ m + Z.of_nat k then 0 else arrival m i.
Proof.
  intros Hk [Hsize Hfresh Hb He] m' Hh. unfold last_of in *. split.
  - constructor; unfold last_of; cbn; rewrite ?length_drop; try lia.
    intros E. rewrite Hfresh by (by apply Hh). by destruct k.
  - intros i. unfold arrival. cbn [arrival_times begin_sequence_number_ m']. rewrite at_drop.
    replace (i - (begin_sequence_number_ m + Z.of_nat k) + Z.of_nat k) with (i - begin_sequence_number_ m) by lia.
    destruct (Z.ltb_spec i (begin_sequence_number_ m + Z.of_nat k));
      [by rewrite (proj2 (Z.ltb_lt _ _)) by lia|by rewrite (proj2 (Z.ltb_ge _ _)) by lia].
Qed.

Lemma EraseTo_spec m s : wf m -> usable s -> exists m', EraseTo s m = Some m' /\ wf m'
  /\ forall i, arrival m' i = if i <? s then 0 else arrival m i.
Proof.
  intros Hm Hs. pose proof Hm as [Hsize Hfresh Hb He]. unfold EraseTo, usable, last_of in *. rewrite Z.gtb_ltb.
  destruct (Z.ltb_spec (begin_sequence_number_ m) s) as [Hlt|Hge].
  - rewrite sub64_small by (consts; lia). cbn [mbind option_bind].
    set (count := Z.min _ _). rewrite s64_small by (consts; lia).
    destruct (drop_arrival m (Z.to_nat count) (has_seen_packet_ m)) as [Hw Ha]; [lia|done|done|].
    rewrite Z2Nat.id in * by lia. eexists. split; [done|]. split; [done|]. intros i. rewrite Ha.
    destruct (Z.ltb_spec i s), (Z.ltb_spec i (begin_sequence_number_ m + count)); try done; [|lia].
    unfold arrival. by rewrite at_out by lia.
  - exists m. split; [done|]. split; [done|]. intros i. destruct (Z.ltb_spec i s); [|done].
    unfold arrival. by rewrite at_neg by lia.
Qed.

Lemma remove_old_spec s limit l : forall b, exists k, (k <= length l)%nat
  /\ remove_old s limit l b = (drop k l, b + Z.of_nat k)
  /\ (forall i, 0 <= i < Z.of_nat k -> b + i < s /\ at_ l i <= limit)
  /\ (k = length l \/ s <= b + Z.of_nat k \/ limit < at_ l (Z.of_nat k)).
Proof.
  induction l as [|x l IH]; intros b; cbn [remove_old].
  - exists 0%nat. rewrite Z.add_0_r. split; [done|]. split; [done|]. split; [lia|by left].
  - destruct (Z.ltb_spec b s) as [Hb|Hb]; cbn [andb]; [destruct (Z.leb_spec x limit) as [Hx|Hx]|].
    + destruct (IH (b + 1)) as (k & Hk & -> & Hold & Hend). exists (S k). cbn [length drop]. split; [lia|].
      split; [f_equal; lia|]. split.
      * intros i Hi. change (x :: l) with ([x] ++ l). rewrite at_app, at_one. cbn [length].
        destruct (Z.ltb_spec i (Z.of_nat 1)); [rewrite (proj2 (Z.eqb_eq i 0)) by lia; lia|].
        destruct (Hold (i - Z.of_nat 1)); [lia|]. split; [lia|done].
      * destruct Hend as [->|[?|Hend]]; [by left|right; left; lia|]. right. right.
        change (x :: l) with ([x] ++ l). rewrite at_app. cbn [length]. rewrite (proj2 (Z.ltb_ge _ _)) by lia.
        by replace (Z.of_nat (S k) - Z.of_nat 1) with (Z.of_nat k) by lia.
    + exists 0%nat. rewrite Z.add_0_r. split; [lia|]. split; [done|]. split; [lia|]. right. by right.
    + exists 0%nat. rewrite Z.add_0_r. split; [lia|]. split; [done|]. split; [lia|]. right. by left.
Qed.

Lemma RemoveOldPackets_spec m s limit : wf m -> let m' := RemoveOldPackets s limit m in
  let b := begin_sequence_number_ m' in
  wf m' /\ begin_sequence_number_ m <= b /\ (forall i, arrival m' i = if i <? b then 0 else arrival m i)
  /\ (forall i, begin_sequence_number_ m <= i < b -> i < s /\ arrival m i <= limit)
  /\ (b = last_of m \/ s <= b \/ limit < arrival m b).
Proof.
  intros Hm m' b. unfold b, m', RemoveOldPackets.
  destruct (remove_old_spec s limit (arrival_times m) (begin_sequence_number_ m)) as (k & Hk & -> & Hold & Hend).
  destruct (drop_arrival m k (has_seen_packet_ m) Hk Hm) as [Hw Ha]; [done|]. cbn [begin_sequence_number_].
  split; [exact Hw|]. split; [lia|]. split; [exact Ha|]. split.
  - intros i Hi. destruct (Hold (i - begin_sequence_number_ m)) as [H1 H2]; [lia|]. split; [lia|exact H2].
  - unfold last_of, arrival. destruct Hend as [->|[?|Hend]]; [by left|right; left; lia|]. right. right.
    by replace (begin_sequence_number_ m + Z.of_nat k - begin_sequence_number_ m) with (Z.of_nat k) by lia.
Qed.

Lemma has_received_spec m s : wf m -> usable s -> has_received m s = Some (negb (arrival m s =? 0)).
Proof.
  intros [Hsize Hfresh Hb He] Hs. unfold has_received, usable, arrival, last_of in *.
  rewrite sub64_small by (consts; lia). cbn [mbind option_bind].
  destruct (Z.leb_spec 0 (s - begin_sequence_number_ m)); cbn [andb]; [|by rewrite at_neg by lia].
  destruct (Z.ltb_spec (s - begin_sequence_number_ m) (zlen (arrival_times m))); [|by rewrite at_out by lia].
  destruct (lookup_lt_is_Some_2 (arrival_times m) (Z.to_nat (s - begin_sequence_number_ m))) as [x Hx]; [lia|].
  rewrite at_pos, Hx by lia. done.
Qed.

Lemma get_spec m s : wf m -> begin_sequence_number_ m <= s < last_of m -> get m s = Some (arrival m s).
Proof.
  intros [Hsize Hfresh Hb He] Hs. unfold get, arrival, last_of in *.
  rewrite sub64_small by (consts; lia). cbn [mbind option_bind].
  rewrite (proj2 (Z.leb_le _ _)), (proj2 (Z.ltb_lt _ _)) by lia. cbn [andb check mbind option_bind].
  destruct (lookup_lt_is_Some_2 (arrival_times m) (Z.to_nat (s - begin_sequence_number_ m))) as [x Hx]; [lia|].
  by rewrite at_pos, Hx by lia.
Qed.

(** The maps that the operations lead to, with sequence numbers of at most 62 bits. *)
Inductive reachable : t -> Prop :=
  | reach_new : reachable new
  | reach_add m s time m' : reachable m -> usable s -> AddPacket s time m = Some m' -> reachable m'
  | reach_remove m s limit : reachable m -> reachable (RemoveOldPackets s limit m)
  | reach_erase m s m' : reachable m -> usable s -> EraseTo s m = Some m' -> reachable m'.

Lemma arrival_wf m : reachable m -> wf m.
Proof.
  induction 1 as [|m s time m' _ Hm Hs Ha|m s limit _ Hm|m s m' _ Hm Hs He].
  - by constructor.
  - destruct (AddPacket_spec m s time Hm Hs) as (m1 & Ha' & Hspec). assert (m1 = m') as -> by congruence.
    destruct (too_old m s); [by subst|by destruct Hspec as [[? _] _]].
  - by apply RemoveOldPackets_spec.
  - destruct (EraseTo_spec m s Hm Hs) as (m1 & He' & Hw & _). by assert (m1 = m') as <- by congruence.
Qed.

(** C39. The arrival map is the map from sequence numbers to times that its operations describe,
    cut to a window of 2^15 numbers. In every state reachable with sequence numbers within 2^62
    of 0 all operations on such numbers are defined ([get] inside the window), and the window
    stays within its bound; adding a packet changes nothing when it is too old to fit, and
    otherwise sets its time and forgets exactly the packets that are 2^15 or more behind it;
    EraseTo forgets exactly the packets before its argument; RemoveOldPackets forgets the
    longest run of first packets that are before its argument and not newer than the limit; and
    the queries read that map. *)
Theorem arrival_window m : reachable m ->
  zlen (arrival_times m) <= kMaxNumberOfPackets
  /\ (forall s time, usable s -> exists m', AddPacket s time m = Some m'
      /\ if too_old m s then m' = m else forall i, arrival m' i = window_add s time (arrival m) i)
  /\ (forall s, usable s -> exists m', EraseTo s m = Some m'
      /\ forall i, arrival m' i = if i <? s then 0 else arrival m i)
  /\ (forall s limit, let m' := RemoveOldPackets s limit m in let b := begin_sequence_number_ m' in
      (forall i, arrival m' i = if i <? b then 0 else arrival m i)
      /\ (forall i, begin_sequence_number_ m <= i < b -> i < s /\ arrival m i <= limit)
      /\ (b = last_of m \/ s <= b \/ limit < arrival m b))
  /\ (forall s, usable s -> has_received m s = Some (negb (arrival m s =? 0)))
  /\ (forall s, begin_sequence_number_ m <= s < last_of m -> get m s = Some (arrival m s))
  /\ begin_sequence_number m <= end_sequence_number m
  /\ (forall s, begin_sequence_number m <= clamp m s <= end_sequence_number m).
Proof.
  intros Hm%arrival_wf. pose proof Hm as [Hsize _ Hb He].
  assert (Hends : begin_sequence_number m <= end_sequence_number m).
  { unfold begin_sequence_number, end_sequence_number, last_of in *. rewrite s64_small by lia. lia. }
  split; [done|]. split; [|split; [|split; [|split; [|split; [|split]]]]].
  - intros s time Hs. destruct (AddPacket_spec m s time Hm Hs) as (m' & Ha & Hspec). exists m'. split; [done|].
    destruct (too_old m s); [done|apply Hspec].
  - intros s Hs. destruct (EraseTo_spec m s Hm Hs) as (m' & He' & _ & Ha). by exists m'.
  - intros s limit. destruct (RemoveOldPackets_spec m s limit Hm) as (_ & _ & H1 & H2 & H3). done.
  - intros s Hs. by apply has_received_spec.
  - intros s Hs. by apply get_spec.
  - done.
  - intros s. unfold clamp. lia.
Qed.

Definition sample_window : t := Mk [7; 0; 9] 100 true.

Lemma sample_window_reachable : reachable sample_window.
Proof.
  apply (reach_add (Mk [0; 9] 101 true) 100 7); [|done|done].
  apply (reach_erase (Mk [5; 0; 9] 100 true) 101); [|done|done].
  apply (reach_add (Mk [5] 100 true) 102 9); [|done|done].
  by apply (reach_add new 100 5); [constructor|..].
Qed.

Lemma arrival_window_witness :
  (exists m', AddPacket (102 + 2 ^ 15) 11 sample_window = Some m' /\ arrival m' 102 = 0 /\ arrival m' 103 = 0
     /\ arrival m' (102 + 2 ^ 15) = 11)
  /\ (exists m', AddPacket 98 11 sample_window = Some m' /\ arrival m' 98 = 11 /\ arrival m' 99 = 0 /\ arrival m' 100 = 7).
Proof.
  destruct (arrival_window sample_window sample_window_reachable) as (_ & Hadd & _). split.
  - destruct (Hadd (102 + 2 ^ 15) 11) as (m' & E & Ha); [done|]. exists m'. rewrite !Ha. done.
  - destruct (Hadd 98 11) as (m' & E & Ha); [done|]. exists m'. rewrite !Ha. done.
Defined.

(** The header file says that the last packet of the queue is always received: a late packet
    after EraseTo has emptied the queue leaves placeholders behind it. *)
Lemma late_packet_leaves_placeholders :
  (m ← AddPacket 109 1 new; m ← EraseTo 110 m; AddPacket 105 2 m) = Some (Mk [2; 0; 0; 0; 0] 105 true).
Proof. done. Qed.
