(* ===== verification/FeedbackProxy.v ===== *)
(** * Transport-wide feedback: remote_bitrate_estimator/remote_estimator_proxy.{h,cc}

    The receiver of a media stream records when packets arrive (ArrivalMap.v) and reports
    the arrivals to the sender in transport feedback messages (RtcpTransport.v), either
    periodically or when a packet asks for it.  The messages handed to feedback_sender_ are
    returned as lists of RTCP packets, one list per call. *)

From S2P Require Import Prelude.
From S2P Require Import SeqNum.
From S2P Require Import RtcpCore.
From S2P Require Import RtcpChunk.
From S2P Require Import RtcpTransport.
From S2P Require Import RtcpEstimate.
From S2P Require Import ArrivalMap.

(** ** What is declared outside the repository: rtc_base/numerics/sequence_number_util.h
    (SeqNumUnwrapper<uint16_t>), api/units (Timestamp, TimeDelta), api/rtp_headers.h and
    api/transport/network_control.h *)

Class ProxyServices (rate : Type) := {
  unwrapper : Type;
  unwrapper_new : unwrapper;
  Unwrap : Z -> unwrapper -> unwrapper * Z;
  Timestamp : Type;
  TimeDelta : Type;
  TimeDelta_zero : TimeDelta;
  TimeDelta_max : TimeDelta -> TimeDelta -> TimeDelta;
  Timestamp_plus : Timestamp -> TimeDelta -> Timestamp;
  (* RTPHeaderExtension::GetAbsoluteSendTimeDelta: the send time and the previous one *)
  GetAbsoluteSendTimeDelta : Z -> Z -> TimeDelta;
  estimator : Type;
  (* PacketResult: receive time in ms, send time, size, sequence number *)
  OnReceivedPacket : Z -> Timestamp -> Z -> Z -> estimator -> estimator;
  GetCurrentEstimate : estimator -> option (RemoteEstimate.NetworkStateEstimate rate);
  default_estimate : RemoteEstimate.NetworkStateEstimate rate;
  (* the octets of fresh storage *)
  uninitialised : Z
}.

(** An unwrapped number has the wrapped one as its low 16 bits. *)
Class ProxyServicesLaws (rate : Type) {services : ProxyServices rate} := {
  Unwrap_u16 v u : is_u16 v -> u16 (snd (Unwrap v u)) = v
}.

Module RemoteEstimatorProxy.

Section proxy.
Context {rate : Type} `{DataRate rate} {services : ProxyServices rate}.

Definition kMaxTimeMs : Z := Z.quot (2 ^ 63 - 1) 1000.

(** The fields of FeedbackRequest and of RTPHeader that the proxy reads. *)
Record FeedbackRequest := Request {
  include_timestamps : bool;
  sequence_count : Z
}.

Record RTPHeader := Header {
  ssrc : Z;                                   (* uint32_t *)
  headerLength : Z;                           (* size_t *)
  hasTransportSequenceNumber : bool;
  transportSequenceNumber : Z;                (* uint16_t *)
  feedback_request : option FeedbackRequest;
  hasAbsoluteSendTime : bool;
  absoluteSendTime : Z                        (* uint32_t *)
}.

(** The intervals in milliseconds. *)
Record TransportWideFeedbackConfig := Config {
  back_window : Z;
  default_interval : Z
}.

Record t := Mk {
  send_config_ : TransportWideFeedbackConfig;
  last_process_time_ms_ : Z;
  network_state_estimator_ : option estimator;
  media_ssrc_ : Z;
  feedback_packet_count_ : Z;                 (* uint8_t *)
  unwrapper_ : unwrapper;
  periodic_window_start_seq_ : option Z;
  packet_arrival_times_ : PacketArrivalTimeMap.t;
  send_interval_ms_ : Z;
  send_periodic_feedback_ : bool;
  previous_abs_send_time_ : Z;                (* uint32_t *)
  abs_send_timestamp_ : Timestamp
}.

(** The packets of a message. *)
Inductive RtcpPacket :=
  | FeedbackPacket (p : TransportFeedback.t)
  | EstimatePacket (p : RemoteEstimate.t rate).

Definition create (config : TransportWideFeedbackConfig) (now : Timestamp) (e : option estimator) : t :=
  Mk config (-1) e 0 0 unwrapper_new None PacketArrivalTimeMap.new (default_interval config) true 0 now.

Definition set_window (s : option Z) (this : t) : t :=
  Mk (send_config_ this) (last_process_time_ms_ this) (network_state_estimator_ this) (media_ssrc_ this)
    (feedback_packet_count_ this) (unwrapper_ this) s (packet_arrival_times_ this) (send_interval_ms_ this)
    (send_periodic_feedback_ this) (previous_abs_send_time_ this) (abs_send_timestamp_ this).

Definition set_map (m : PacketArrivalTimeMap.t) (this : t) : t :=
  Mk (send_config_ this) (last_process_time_ms_ this) (network_state_estimator_ this) (media_ssrc_ this)
    (feedback_packet_count_ this) (unwrapper_ this) (periodic_window_start_seq_ this) m (send_interval_ms_ this)
    (send_periodic_feedback_ this) (previous_abs_send_time_ this) (abs_send_timestamp_ this).

Definition set_count (n : Z) (this : t) : t :=
  Mk (send_config_ this) (last_process_time_ms_ this) (network_state_estimator_ this) (media_ssrc_ this)
    n (unwrapper_ this) (periodic_window_start_seq_ this) (packet_arrival_times_ this) (send_interval_ms_ this)
    (send_periodic_feedback_ this) (previous_abs_send_time_ this) (abs_send_timestamp_ this).

(** media_ssrc_ = header.ssrc, and what Unwrap makes of the unwrapper. *)
Definition set_source (ssrc : Z) (u : unwrapper) (this : t) : t :=
  Mk (send_config_ this) (last_process_time_ms_ this) (network_state_estimator_ this) ssrc
    (feedback_packet_count_ this) u (periodic_window_start_seq_ this) (packet_arrival_times_ this)
    (send_interval_ms_ this) (send_periodic_feedback_ this) (previous_abs_send_time_ this)
    (abs_send_timestamp_ this).

(** a + b as int64_t *)
Definition add64 (a b : Z) : option Z := PacketArrivalTimeMap.sub64 a (- b).

(** arrival_time_ms * 1000 *)
Definition micros (arrival_time_ms : Z) : option Z :=
  check ((- 2 ^ 63 <=? arrival_time_ms * 1000) && (arrival_time_ms * 1000 <? 2 ^ 63)) ;;
  Some (arrival_time_ms * 1000).

(** feedback_packet->SetMediaSsrc(media_ssrc_) *)
Definition SetMediaSsrc (p : TransportFeedback.t) (ssrc : Z) : TransportFeedback.t :=
  TransportFeedback.Mk (CommonFeedback.Mk (CommonFeedback.sender_ssrc (TransportFeedback.common p)) ssrc)
    (TransportFeedback.include_lost_ p) (TransportFeedback.base_seq_no_ p) (TransportFeedback.num_seq_no_ p)
    (TransportFeedback.base_time_ticks_ p) (TransportFeedback.feedback_seq_ p)
    (TransportFeedback.include_timestamps_ p) (TransportFeedback.last_timestamp_us_ p)
    (TransportFeedback.received_packets_ p) (TransportFeedback.all_packets_ p)
    (TransportFeedback.encoded_chunks_ p) (TransportFeedback.last_chunk_ p) (TransportFeedback.size_bytes_ p).

(** The packet, made when the first received packet is met. *)
Definition start_packet (include_timestamps : bool) (begin arrival_time_ms : Z) (this : t)
  : option (t * TransportFeedback.t) :=
  let p := TransportFeedback.create include_timestamps false in
  let p := SetMediaSsrc p (media_ssrc_ this) in
  us ← micros arrival_time_ms;
  p ← TransportFeedback.SetBase p (u16 (Z.land begin 0xFFFF)) us;
  let p := TransportFeedback.SetFeedbackSequenceNumber p (feedback_packet_count_ this) in
  Some (set_count (u8 (feedback_packet_count_ this + 1)) this, p).

(** The loop over the [n] sequence numbers from [seq] on. *)
Fixpoint feedback_loop (n : nat) (include_timestamps : bool) (begin seq : Z) (this : t)
    (feedback_packet : option TransportFeedback.t) (next_sequence_number : Z)
  : option (t * option TransportFeedback.t * Z) :=
  match n with
  | O => Some (this, feedback_packet, next_sequence_number)
  | S n =>
      arrival_time_ms ← PacketArrivalTimeMap.get (packet_arrival_times_ this) seq;
      if arrival_time_ms =? 0
      then feedback_loop n include_timestamps begin (seq + 1) this feedback_packet next_sequence_number else
      '(this, p) ← match feedback_packet with
        | Some p => Some (this, p)
        | None => start_packet include_timestamps begin arrival_time_ms this
        end;
      us ← micros arrival_time_ms;
      '(p, added) ← TransportFeedback.AddReceivedPacket p (u16 (Z.land seq 0xFFFF)) us;
      if negb added then Some (this, Some p, next_sequence_number) else
      feedback_loop n include_timestamps begin (seq + 1) this (Some p) (seq + 1)
  end.

Definition MaybeBuildFeedbackPacket (include_timestamps : bool)
    (begin_sequence_number_inclusive end_sequence_number_exclusive : Z) (is_periodic_update : bool) (this : t)
  : option (t * option TransportFeedback.t) :=
  check (begin_sequence_number_inclusive <? end_sequence_number_exclusive) ;;
  let start_seq := PacketArrivalTimeMap.clamp (packet_arrival_times_ this) begin_sequence_number_inclusive in
  let end_seq := PacketArrivalTimeMap.clamp (packet_arrival_times_ this) end_sequence_number_exclusive in
  '(this, feedback_packet, next_sequence_number) ←
    feedback_loop (Z.to_nat (end_seq - start_seq)) include_timestamps begin_sequence_number_inclusive start_seq
      this None begin_sequence_number_inclusive;
  Some (if is_periodic_update then set_window (Some next_sequence_number) this else this, feedback_packet).

Definition MaybeCullOldPackets (sequence_number arrival_time_ms : Z) (this : t) : option t :=
  match periodic_window_start_seq_ this with
  | Some start =>
      if start >=? PacketArrivalTimeMap.end_sequence_number (packet_arrival_times_ this) then
        limit ← PacketArrivalTimeMap.sub64 arrival_time_ms (back_window (send_config_ this));
        Some (set_map (PacketArrivalTimeMap.RemoveOldPackets sequence_number limit (packet_arrival_times_ this)) this)
      else Some this
  | None => Some this
  end.

Definition SendFeedbackOnRequest (sequence_number : Z) (request : FeedbackRequest) (this : t)
  : option (t * list (list RtcpPacket)) :=
  if sequence_count request =? 0 then Some (this, []) else
  first_sequence_number ← PacketArrivalTimeMap.sub64 sequence_number (sequence_count request);
  first_sequence_number ← add64 first_sequence_number 1;
  end_sequence_number ← add64 sequence_number 1;
  '(this, feedback_packet) ←
    MaybeBuildFeedbackPacket (include_timestamps request) first_sequence_number end_sequence_number false this;
  feedback_packet ← feedback_packet;
  m ← PacketArrivalTimeMap.EraseTo first_sequence_number (packet_arrival_times_ this);
  Some (set_map m this, [[FeedbackPacket feedback_packet]]).

(** The part of IncomingPacket for the network state estimator. *)
Definition feed_estimator (arrival_time_ms payload_size seq : Z) (header : RTPHeader) (this : t) : t :=
  match network_state_estimator_ this with
  | Some e =>
      if hasAbsoluteSendTime header then
        let sent := Timestamp_plus (abs_send_timestamp_ this)
          (TimeDelta_max (GetAbsoluteSendTimeDelta (absoluteSendTime header) (previous_abs_send_time_ this))
             TimeDelta_zero) in
        Mk (send_config_ this) (last_process_time_ms_ this)
          (Some (OnReceivedPacket arrival_time_ms sent (u64 (headerLength header + payload_size)) seq e))
          (media_ssrc_ this) (feedback_packet_count_ this) (unwrapper_ this) (periodic_window_start_seq_ this)
          (packet_arrival_times_ this) (send_interval_ms_ this) (send_periodic_feedback_ this)
          (absoluteSendTime header) sent
      else this
  | None => this
  end.

(** if (!start || seq < *start) start = seq *)
Definition lower_window (seq : Z) (this : t) : t :=
  match periodic_window_start_seq_ this with
  | Some start => if seq <? start then set_window (Some seq) this else this
  | None => set_window (Some seq) this
  end.

(** Limit the range of sequence numbers to send feedback for. *)
Definition limit_window (this : t) : t :=
  let begin := PacketArrivalTimeMap.begin_sequence_number (packet_arrival_times_ this) in
  match periodic_window_start_seq_ this with
  | Some start => if start <? begin then set_window (Some begin) this else this
  | None => set_window (Some begin) this
  end.

Definition IncomingPacket (arrival_time_ms payload_size : Z) (header : RTPHeader) (this : t)
  : option (t * list (list RtcpPacket)) :=
  if (arrival_time_ms <? 0) || (arrival_time_ms >? kMaxTimeMs) then Some (this, []) else
  if hasTransportSequenceNumber header then
    let '(u, seq) := Unwrap (transportSequenceNumber header) (unwrapper_ this) in
    let this := set_source (ssrc header) u this in
    this ← (if send_periodic_feedback_ this
            then this ← MaybeCullOldPackets seq arrival_time_ms this; Some (lower_window seq this)
            else Some this);
    received ← PacketArrivalTimeMap.has_received (packet_arrival_times_ this) seq;
    if received : bool then Some (this, []) else
    m ← PacketArrivalTimeMap.AddPacket seq arrival_time_ms (packet_arrival_times_ this);
    let this := limit_window (set_map m this) in
    '(this, sent) ← match feedback_request header with
      | Some request => SendFeedbackOnRequest seq request this
      | None => Some (this, [])
      end;
    Some (feed_estimator arrival_time_ms payload_size seq header this, sent)
  else
    let this := set_source (ssrc header) (unwrapper_ this) this in
    Some (feed_estimator arrival_time_ms payload_size 0 header this, []).

(** The remote estimate that goes with the first message. *)
Definition remote_estimate (this : t) : option (list RtcpPacket) :=
  match e ← network_state_estimator_ this; GetCurrentEstimate e with
  | Some state_estimate =>
      p ← RemoteEstimate.new default_estimate;
      p ← RemoteEstimate.SetEstimate uninitialised p state_estimate;
      Some [EstimatePacket p]
  | None => Some []
  end.

(** The while loop of SendPeriodicFeedbacks; comparing an empty optional gives true. *)
Fixpoint periodic_loop (fuel : nat) (packet_arrival_times_end_seq : Z) (estimate : list RtcpPacket) (this : t)
  : option (t * list (list RtcpPacket)) :=
  if default true (start ← periodic_window_start_seq_ this; Some (start <? packet_arrival_times_end_seq)) then
    match fuel with
    | O => None
    | S fuel =>
        start ← periodic_window_start_seq_ this;
        '(this, feedback_packet) ← MaybeBuildFeedbackPacket true start packet_arrival_times_end_seq true this;
        match feedback_packet with
        | None => Some (this, [])
        | Some p =>
            '(this, sent) ← periodic_loop fuel packet_arrival_times_end_seq [] this;
            Some (this, (estimate ++ [FeedbackPacket p]) :: sent)
        end
    end
  else Some (this, []).

Definition SendPeriodicFeedbacks (fuel : nat) (this : t) : option (t * list (list RtcpPacket)) :=
  match periodic_window_start_seq_ this with
  | None => Some (this, [])
  | Some _ =>
      estimate ← remote_estimate this;
      periodic_loop fuel (PacketArrivalTimeMap.end_sequence_number (packet_arrival_times_ this)) estimate this
  end.

Definition LatestEstimate : bool := false.

Definition TimeUntilNextProcess (now : Z) (this : t) : Z :=
  if negb (send_periodic_feedback_ this) then 24 * 60 * 60 * 1000
  else if negb (last_process_time_ms_ this =? -1) then
    if now - last_process_time_ms_ this <? send_interval_ms_ this
    then last_process_time_ms_ this + send_interval_ms_ this - now else 0
  else 0.

Definition Process (fuel : nat) (now : Z) (this : t) : option (t * list (list RtcpPacket)) :=
  if negb (send_periodic_feedback_ this) then Some (this, []) else
  SendPeriodicFeedbacks fuel
    (Mk (send_config_ this) now (network_state_estimator_ this) (media_ssrc_ this) (feedback_packet_count_ this)
       (unwrapper_ this) (periodic_window_start_seq_ this) (packet_arrival_times_ this) (send_interval_ms_ this)
       (send_periodic_feedback_ this) (previous_abs_send_time_ this) (abs_send_timestamp_ this)).

Definition SetSendPeriodicFeedback (b : bool) (this : t) : t :=
  Mk (send_config_ this) (last_process_time_ms_ this) (network_state_estimator_ this) (media_ssrc_ this)
    (feedback_packet_count_ this) (unwrapper_ this) (periodic_window_start_seq_ this) (packet_arrival_times_ this)
    (send_interval_ms_ this) b (previous_abs_send_time_ this) (abs_send_timestamp_ this).

End proxy.

End RemoteEstimatorProxy.

(** ** What a message reports *)

Import Report RemoteEstimatorProxy.

Abbreviation wrap_period := TransportFeedback.kTimeWrapPeriodUs.

(** The arrival times of a list of items, from time [us] on; None for a lost packet. *)
Fixpoint times (us : Z) (l : list Report.item) : list (option Z) :=
  match l with
  | [] => []
  | (s, d) :: l => if 0 <? s then Some (us + 250 * d) :: times (us + 250 * d) l else None :: times us l
  end.

(** Times count modulo the wrap period, and only when they are included. *)
Definition stamp (include_timestamps : bool) (us : Z) : Z := if include_timestamps then us mod wrap_period else 0.

(** The arrivals a message reports, from its base sequence number on. *)
Definition report_of (p : TransportFeedback.t) : list (option Z) :=
  map (option_map (stamp (TransportFeedback.include_timestamps_ p)))
    (times (TransportFeedback.GetBaseTimeUs p) (contents p)).

(** What there is to report of a packet. *)
Definition expected (include_timestamps : bool) (m : PacketArrivalTimeMap.t) (seq : Z) : option Z :=
  if arrival m seq =? 0 then None else Some (stamp include_timestamps (1000 * arrival m seq)).

(** What there is to report of the packets from [a] up to [b]. *)
Definition arrivals (include_timestamps : bool) (m : PacketArrivalTimeMap.t) (a b : Z) : list (option Z) :=
  map (expected include_timestamps m) (seqZ a (b - a)).

Lemma times_app l1 l2 us : times us (l1 ++ l2) = times us l1 ++ times (us + 250 * Report.ticks l1) l2.
Proof.
  revert us. induction l1 as [|[s d] l1 IH]; intros us; cbn [times app Report.ticks fold_right].
  - by rewrite Z.add_0_r.
  - fold (Report.ticks l1). cbn [fst snd]. destruct (0 <? s); cbn [app]; f_equal; rewrite IH; do 2 f_equal; lia.
Qed.

Lemma times_lost k us : times us (replicate k (0, 0)) = replicate k None.
Proof. induction k; [done|]. cbn. by f_equal. Qed.

Lemma ticks_lost k : Report.ticks (replicate k (0, 0)) = 0.
Proof. by induction k. Qed.

Lemma length_times l : forall us, length (times us l) = length l.
Proof. induction l as [|[s d] l IH]; intros us; [done|]. cbn. destruct (0 <? s); cbn; by rewrite IH. Qed.

Lemma arrivals_app ts m a b c : a <= b <= c -> arrivals ts m a c = arrivals ts m a b ++ arrivals ts m b c.
Proof.
  intros Hb. unfold arrivals. rewrite <- map_app. f_equal. replace (c - a) with ((b - a) + (c - b)) by lia.
  rewrite seqZ_app by lia. by replace (a + (b - a)) with b by lia.
Qed.

Lemma arrivals_none ts m a b : (forall i, a <= i < b -> arrival m i = 0) ->
  arrivals ts m a b = replicate (Z.to_nat (b - a)) None.
Proof.
  intros Hz. unfold arrivals. symmetry. apply replicate_as_elem_of. rewrite length_map, length_seqZ. split; [done|].
  intros x Hx. apply list_elem_of_In, in_map_iff in Hx as (i & <- & Hi). apply list_elem_of_In, elem_of_seqZ in Hi.
  unfold expected. by rewrite Hz by lia.
Qed.

Lemma arrivals_one ts m a b : b = a + 1 -> arrivals ts m a b = [expected ts m a].
Proof. intros ->. unfold arrivals. by replace (a + 1 - a) with 1 by lia. Qed.

Lemma lookup_arrivals ts m a b i : a <= i < b -> arrivals ts m a b !! Z.to_nat (i - a) = Some (expected ts m i).
Proof.
  intros Hi. unfold arrivals. rewrite list_lookup_fmap, lookup_seqZ_lt by lia. cbn. do 2 f_equal. lia.
Qed.

(** ** The deltas of exact times *)

Lemma wrap_value : wrap_period = 1073741824000.
Proof. done. Qed.

Lemma delta_full_exact ts last : - 2 ^ 63 <= ts - last < 2 ^ 63 -> (ts - last) mod 250 = 0 ->
  exists d q, TransportFeedback.delta_full ts last = Some d /\ last + 250 * d = ts + q * wrap_period.
Proof.
  intros Hr Hm. destruct (delta_full_spec ts last Hr) as (d & q & E & Hb & _). exists d, q. split; [done|].
  rewrite wrap_value in *. assert (Hd : (last + 250 * d - ts - q * 1073741824000) mod 250 = 0).
  { replace (last + 250 * d - ts - q * 1073741824000) with (- (ts - last) + (d - q * 4294967296) * 250) by lia.
    rewrite Z.mod_add by lia. apply Z.mod_opp_l_z; done. }
  dlia.
Qed.

(** The first delta of a message always fits. *)
Lemma delta_full_base ts : 0 <= ts < 2 ^ 62 -> exists d, 0 <= d <= 256 /\
  TransportFeedback.delta_full ts ((ts / 64000) mod 2 ^ 24 * 64000) = Some d.
Proof.
  intros Ht. change (2 ^ 24) with 16777216. change (2 ^ 62) with 4611686018427387904 in *.
  set (b := (ts / 64000) mod 16777216 * 64000).
  assert (Hx : exists k r, ts - b = k * wrap_period + r /\ 0 <= k /\ 0 <= r < 64000).
  { exists (ts / 64000 / 16777216), (ts mod 64000). unfold b. rewrite wrap_value. dlia. }
  destruct Hx as (k & r & Hx & Hk & Hr). assert (0 <= b < wrap_period) by (unfold b; rewrite wrap_value; dlia).
  unfold TransportFeedback.delta_full, TransportFeedback.sub_s64. change (2 ^ 63) with 9223372036854775808.
  rewrite wrap_value in *. rewrite check_then by lia. cbn [mbind option_bind]. rewrite Hx.
  assert (Hrem : Z.rem (k * 1073741824000 + r) 1073741824000 = r) by (rewrite Z.rem_mod_nonneg by lia; dlia).
  rewrite Hrem.
  change (1073741824000 ÷ 2) with 536870912000. rewrite Z.gtb_ltb, (proj2 (Z.ltb_ge _ _)) by lia.
  rewrite (proj2 (Z.ltb_ge r 0)) by lia. unfold TransportFeedback.kDeltaScaleFactor. change (250 ÷ 2) with 125.
  eexists. split; [|done]. dlia.
Qed.

(** ** The message under construction *)

(** The message [p] reports exactly the arrivals from [begin] up to [next], the last of
    which is a received packet, under the given number and media source. *)
Record reports (m : PacketArrivalTimeMap.t) (ts : bool) (count ssrc begin : Z) (p : TransportFeedback.t)
    (next : Z) : Prop := {
  reports_wf : RtcpTransport.wf p;
  reports_timestamps : TransportFeedback.include_timestamps_ p = ts;
  reports_base : TransportFeedback.base_seq_no_ p = u16 begin;
  reports_count : TransportFeedback.feedback_seq_ p = count;
  reports_common : TransportFeedback.common p = CommonFeedback.Mk 0 ssrc;
  reports_next : begin < next;
  reports_arrivals : report_of p = arrivals ts m begin next;
  reports_last : arrival m (next - 1) <> 0;
  reports_time : ts = true ->
    TransportFeedback.last_timestamp_us_ p mod wrap_period = (1000 * arrival m (next - 1)) mod wrap_period
}.

Lemma reports_length m ts count ssrc begin p next : reports m ts count ssrc begin p next ->
  zlen (contents p) = next - begin.
Proof.
  intros [_ _ _ _ _ Hn Ha _ _]. apply (f_equal length) in Ha. unfold report_of, arrivals in Ha.
  rewrite !length_map, length_times, length_seqZ in Ha. lia.
Qed.

Lemma SetMediaSsrc_built p ssrc l : built p l -> built (SetMediaSsrc p ssrc) l.
Proof.
  intros [[Hb Hn Hm Hc Hr Ha Ht Hs Hok] Hcan Hd].
  constructor; [|done|done]. constructor; try done. by destruct Hc; constructor.
Qed.

Lemma u16_land seq : u16 (Z.land seq 0xFFFF) = u16 seq.
Proof. rewrite (land_mask 16) by done. unfold u16. change (2 ^ 16) with 65536. by rewrite Z.mod_mod. Qed.

Lemma micros_small a : 0 <= a < 2 ^ 52 -> micros a = Some (1000 * a).
Proof.
  intros Ha. unfold micros. rewrite check_then; [by rewrite Z.mul_comm|].
  change (2 ^ 63) with 9223372036854775808. change (2 ^ 52) with 4503599627370496 in *. lia.
Qed.

(** At half the number space, the larger number is the newer one. *)
Definition near (next seq : Z) : Prop :=
  seq - next + 1 < 2 ^ 15 \/ (seq - next + 1 = 2 ^ 15 /\ u16 (next - 1) < 2 ^ 15).

Lemma near_in_order p l begin next seq : built p l -> TransportFeedback.base_seq_no_ p = u16 begin ->
  zlen l = next - begin -> next <= seq -> seq - next < 2 ^ 15 -> gap p (u16 seq) = seq - next
  /\ (in_order p (u16 seq) = true <-> near next seq).
Proof.
  intros Hb Hbase Hl Hn Hd. unfold gap, in_order, near. rewrite Hbase, (rep_num _ _ (built_rep _ _ Hb)), Hl.
  change (2 ^ 15) with 32768 in *. split; [wordlia|].
  unfold IsNewerSequenceNumber. rewrite IsNewer_spec by (split; lia) || apply u16_range. change (2 ^ (16 - 1)) with 32768.
  change (2 ^ 16) with 65536. wordlia.
Qed.

(** Adding the next received packet. *)
Lemma add_step m ts count ssrc begin p l next seq :
  good p l -> TransportFeedback.include_timestamps_ p = ts -> TransportFeedback.base_seq_no_ p = u16 begin ->
  TransportFeedback.feedback_seq_ p = count -> TransportFeedback.common p = CommonFeedback.Mk 0 ssrc ->
  zlen l = next - begin -> begin <= next <= seq -> near next seq -> seq - begin < 2 ^ 15 ->
  0 < arrival m seq < 2 ^ 52 -> (forall i, next <= i < seq -> arrival m i = 0) ->
  map (option_map (stamp ts)) (times (TransportFeedback.GetBaseTimeUs p) l) = arrivals ts m begin next ->
  (ts = true -> TransportFeedback.last_timestamp_us_ p mod 250 = 0) ->
  exists full p', ticks_of p (1000 * arrival m seq) = Some full
    /\ TransportFeedback.AddReceivedPacket p (u16 seq) (1000 * arrival m seq) = Some (p', s16 full =? full)
    /\ if s16 full =? full then reports m ts count ssrc begin p' (seq + 1) else p' = p.
Proof.
  intros Hg Hts Hbase Hcount Hcommon Hl Hn Hnear Hfar Ha Hlost Hreport Hmod.
  pose proof (good_time _ _ Hg) as Htime. pose proof (good_built _ _ Hg) as Hb.
  change (2 ^ 52) with 4503599627370496 in *. change (2 ^ 15) with 32768 in *.
  change (2 ^ 40) with 1099511627776 in *. change (2 ^ 41) with 2199023255552 in *.
  destruct (near_in_order p l begin next seq Hb Hbase Hl) as [Hgap Hord%proj2]; [lia|lia|]. specialize (Hord Hnear).
  destruct (AddReceivedPacket_spec p l (u16 seq) (1000 * arrival m seq) Hb (u16_range _))
    as (full & p' & k & Ef & E & Hc & Hres); [change (2 ^ 63) with 9223372036854775808; lia|].
  rewrite Hord, Hgap, Hl, andb_true_r, (proj2 (Z.ltb_lt _ _)), andb_true_r in E, Hres by lia.
  exists full, p'. split; [done|]. split; [done|]. destruct (s16 full =? full) eqn:Hok.
  2:{ unfold TransportFeedback.AddReceivedPacket in E. fold (ticks_of p (1000 * arrival m seq)) in E.
      rewrite Ef in E. cbn [mbind option_bind] in E. rewrite Hok in E. cbn [negb] in E. congruence. }
  destruct Hres as (Hk & Hb' & Hlast). injection Hc as Ecm Eil Eb Ebt Ef' Ets.
  set (s := if _ && _ then 1 else 2) in *. assert (Hs : 0 < s) by (unfold s; destruct (_ && _); lia).
  assert (Hstamp : ts = true -> (TransportFeedback.last_timestamp_us_ p + 250 * full) mod wrap_period =
    (1000 * arrival m seq) mod wrap_period).
  { intros Ht. unfold ticks_of in Ef. rewrite Hts, Ht in Ef.
    destruct (delta_full_exact (1000 * arrival m seq) (TransportFeedback.last_timestamp_us_ p)) as (d & q & Ed & Hd);
      [change (2 ^ 63) with 9223372036854775808; lia|specialize (Hmod Ht); dlia|].
    assert (d = full) as -> by congruence. rewrite Hd. by rewrite Z.mod_add. }
  assert (Hg' : good p' (l ++ replicate k (0, 0) ++ [(s, full)])) by (destruct Hg; constructor; congruence || done).
  constructor.
  - apply (good_wf _ _ Hg'). by destruct l, k.
  - congruence.
  - congruence.
  - congruence.
  - congruence.
  - lia.
  - unfold report_of. rewrite (contents_spec _ _ Hb'), Ets, Hts. unfold TransportFeedback.GetBaseTimeUs.
    rewrite Ebt. fold (TransportFeedback.GetBaseTimeUs p).
    rewrite (arrivals_app _ _ begin next), (arrivals_app _ _ next seq), (arrivals_none _ _ next seq), (arrivals_one _ _ seq) by done || lia.
    rewrite !times_app, times_lost, ticks_lost, !map_app, Hreport. f_equal. f_equal.
    + change (map ?f) with (fmap (M:=list) f). rewrite fmap_replicate. cbn. f_equal. lia.
    + cbn [times]. rewrite (proj2 (Z.ltb_lt _ _)) by done. cbn [map option_map]. unfold expected.
      rewrite (proj2 (Z.eqb_neq _ _)) by lia. unfold stamp. destruct ts; [|done]. rewrite Z.add_0_r.
      rewrite <- (rep_time _ _ (built_rep _ _ Hb)). do 2 f_equal. by apply Hstamp.
  - replace (seq + 1 - 1) with seq by lia. lia.
  - replace (seq + 1 - 1) with seq by lia. intros Ht. rewrite Hlast. by apply Hstamp.
Qed.

(** Why a message ends before [stop]: nothing more was received, or the time of the next
    received packet is too far from the last one for a delta. *)
Definition stopped (m : PacketArrivalTimeMap.t) (p : TransportFeedback.t) (next stop : Z) : Prop :=
  (forall i, next <= i < stop -> arrival m i = 0)
  \/ exists i d, next <= i < stop /\ (forall j, next <= j < i -> arrival m j = 0) /\ arrival m i <> 0
     /\ ticks_of p (1000 * arrival m i) = Some d /\ ~ (- 32768 <= d < 32768).

Section loop.
Context {rate : Type} `{DataRate rate} {services : ProxyServices rate}.
Context (m : PacketArrivalTimeMap.t) (ts : bool) (begin stop : Z).
Hypothesis Hm : wf m.
Hypothesis Htimes : forall i, 0 <= arrival m i < 2 ^ 52.
Hypothesis Hstop : stop <= last_of m.
Hypothesis Hsize : stop - begin <= 2 ^ 15.
Hypothesis Hfull : stop - begin = 2 ^ 15 -> arrival m (stop - 1) <> 0 ->
  (forall i, begin <= i < stop - 1 -> arrival m i = 0) -> u16 (begin - 1) < 2 ^ 15.

Implicit Types this : t.

Lemma continue_loop n : forall this p next seq count ssrc, packet_arrival_times_ this = m ->
  Z.of_nat n = stop - seq -> PacketArrivalTimeMap.begin_sequence_number_ m <= seq -> next <= seq ->
  (forall i, next <= i < seq -> arrival m i = 0) -> reports m ts count ssrc begin p next ->
  exists p' next', feedback_loop n ts begin seq this (Some p) next = Some (this, Some p', next')
    /\ reports m ts count ssrc begin p' next' /\ next' <= stop /\ stopped m p' next' stop.
Proof.
  induction n as [|n IH]; intros this p next seq count ssrc Hthis Hn Hseq Hnext Hlost Hp; cbn [feedback_loop].
  - exists p, next. split; [done|]. split; [done|]. split; [lia|]. left. intros i Hi. apply Hlost. lia.
  - rewrite Hthis, get_spec by done || lia. cbn [mbind option_bind]. destruct (Z.eqb_spec (arrival m seq) 0) as [Hz|Hr].
    + apply IH; try done; try lia. intros i Hi. destruct (Z.eq_dec i seq) as [->|]; [done|]. apply Hlost. lia.
    + pose proof (Htimes seq). rewrite micros_small, u16_land by lia. cbn [mbind option_bind].
      pose proof (reports_length _ _ _ _ _ _ _ Hp) as Hlen. pose proof Hp as [[Hg _] Hts Hb Hc Hcm Hbn Ha Hl Ht].
      destruct (add_step m ts count ssrc begin p (contents p) next seq) as (full & p' & Ef & -> & Hres);
        try done; try lia.
      { left. lia. } { unfold report_of in Ha. by rewrite Hts in Ha. }
      { intros Hon. specialize (Ht Hon). rewrite wrap_value in Ht. dlia. }
      cbn [mbind option_bind]. destruct (s16 full =? full) eqn:Efit; cbn [negb].
      * destruct (IH this p' (seq + 1) (seq + 1) count ssrc) as (p2 & next2 & HE & H2); try done; try lia.
        by exists p2, next2.
      * subst p'. exists p, next. split; [done|]. split; [done|]. split; [lia|]. right. exists seq, full.
        split; [lia|]. split; [done|]. split; [done|]. split; [done|]. rewrite <- s16_fits. by rewrite Efit.
Qed.

Lemma start_packet_spec this a : 0 <= a < 2 ^ 52 -> is_u8 (feedback_packet_count_ this) -> is_u32 (media_ssrc_ this) ->
  exists p, start_packet ts begin a this = Some (set_count (u8 (feedback_packet_count_ this + 1)) this, p)
    /\ good p [] /\ TransportFeedback.include_timestamps_ p = ts /\ TransportFeedback.base_seq_no_ p = u16 begin
    /\ TransportFeedback.feedback_seq_ p = feedback_packet_count_ this
    /\ TransportFeedback.common p = CommonFeedback.Mk 0 (media_ssrc_ this)
    /\ TransportFeedback.last_timestamp_us_ p = (1000 * a / 64000) mod 2 ^ 24 * 64000.
Proof.
  intros Ha Hc Hs. unfold start_packet. rewrite micros_small, u16_land by done. cbn [mbind option_bind].
  destruct (SetBase_spec (SetMediaSsrc (TransportFeedback.create ts false) (media_ssrc_ this)) (u16 begin) (1000 * a))
    as (p & E & Hb & Hbase & Hticks & Ht & Hlast & Hseq & Hcm);
    [apply SetMediaSsrc_built, create_built|apply u16_range|lia|].
  assert (Hts : TransportFeedback.include_timestamps_ p = ts).
  { unfold TransportFeedback.SetBase in E. cbn in E. destruct (check _); [|done]. cbn in E. by injection E as <-. }
  rewrite E. cbn [mbind option_bind]. eexists. split; [done|]. split; [|split; [done|split; [done|split; [done|split]]]].
  - constructor; [by apply SetFeedbackSequenceNumber_built|done..|]. cbn. rewrite Hcm. by split.
  - cbn. by rewrite Hcm.
  - cbn. by rewrite Hlast, Ht.
Qed.

Lemma first_loop n : forall this seq, packet_arrival_times_ this = m ->
  is_u8 (feedback_packet_count_ this) -> is_u32 (media_ssrc_ this) ->
  Z.of_nat n = stop - seq -> PacketArrivalTimeMap.begin_sequence_number_ m <= seq -> begin <= seq ->
  (forall i, begin <= i < seq -> arrival m i = 0) ->
  exists this' p next, feedback_loop n ts begin seq this None begin = Some (this', p, next)
    /\ match p with
       | None => this' = this /\ next = begin /\ forall i, begin <= i < stop -> arrival m i = 0
       | Some p => this' = set_count (u8 (feedback_packet_count_ this + 1)) this
           /\ reports m ts (feedback_packet_count_ this) (media_ssrc_ this) begin p next
           /\ next <= stop /\ stopped m p next stop
       end.
Proof.
  induction n as [|n IH]; intros this seq Hthis Hc Hs Hn Hseq Hb Hlost; cbn [feedback_loop].
  - exists this, None, begin. split; [done|]. split; [done|]. split; [done|]. intros i Hi. apply Hlost. lia.
  - rewrite Hthis, get_spec by done || lia. cbn [mbind option_bind]. destruct (Z.eqb_spec (arrival m seq) 0) as [Hz|Hr].
    + apply IH; try done; try lia. intros i Hi. destruct (Z.eq_dec i seq) as [->|]; [done|]. apply Hlost. lia.
    + pose proof (Htimes seq) as Ha.
      destruct (start_packet_spec this (arrival m seq) Ha Hc Hs) as (p & -> & Hg & Hts & Hbase & Hseq' & Hcm & Hlast).
      cbn [mbind option_bind]. rewrite micros_small, u16_land by lia. cbn [mbind option_bind].
      assert (Hnear : near begin seq).
      { destruct (Z_lt_ge_dec (seq - begin + 1) (2 ^ 15)) as [Hlt|Hge]; [by left|right]. assert (seq = stop - 1) as -> by lia.
        split; [lia|]. apply Hfull; done || lia. }
      destruct (add_step m ts (feedback_packet_count_ this) (media_ssrc_ this) begin p [] begin seq)
        as (full & p' & Ef & -> & Hres); try done; try lia.
      { cbn. lia. } { unfold arrivals. by rewrite Z.sub_diag. } { intros _. rewrite Hlast. dlia. }
      assert (Hfit : (s16 full =? full) = true).
      { unfold ticks_of in Ef. rewrite Hts, Hlast in Ef. apply s16_fits. destruct ts.
        - change (2 ^ 52) with 4503599627370496 in *. change (2 ^ 62) with 4611686018427387904 in *.
          destruct (delta_full_base (1000 * arrival m seq)) as (d & Hd & Ed);
            [change (2 ^ 62) with 4611686018427387904; lia|]. rewrite Ed in Ef. injection Ef as <-. lia.
        - injection Ef as <-. lia. }
      rewrite Hfit in Hres. rewrite Hfit. cbn [mbind option_bind negb].
      destruct (continue_loop n (set_count (u8 (feedback_packet_count_ this + 1)) this) p' (seq + 1) (seq + 1)
        (feedback_packet_count_ this) (media_ssrc_ this)) as (p2 & next2 & HE & H2 & H3 & H4); try done; try lia.
      exists (set_count (u8 (feedback_packet_count_ this + 1)) this), (Some p2), next2. by split.
Qed.

End loop.

(** ** The operations *)

Section proxy.
Context {rate : Type} `{DataRate rate} {services : ProxyServices rate}.

Implicit Types this : t.

Abbreviation window this := (packet_arrival_times_ this).

(** The arrival times are those of the interval IncomingPacket accepts, save the ones beyond
    2^52 ms, and never zero; the reports reach back no further than the window is long. *)
Record inv this : Prop := {
  inv_map : wf (window this);
  inv_times : forall i, 0 <= arrival (window this) i < 2 ^ 52;
  inv_window : forall s, periodic_window_start_seq_ this = Some s -> last_of (window this) - s <= 2 ^ 15;
  inv_count : is_u8 (feedback_packet_count_ this);
  inv_ssrc : is_u32 (media_ssrc_ this);
  inv_config : 0 <= back_window (send_config_ this) < 2 ^ 62
}.

Lemma arrival_outside m i : i < PacketArrivalTimeMap.begin_sequence_number_ m \/ last_of m <= i -> arrival m i = 0.
Proof. intros Hi. unfold arrival, last_of in *. destruct Hi; [apply at_neg|apply at_out]; lia. Qed.

Lemma arrival_inside m i : arrival m i <> 0 -> PacketArrivalTimeMap.begin_sequence_number_ m <= i < last_of m.
Proof.
  intros Ha. destruct (Z_lt_ge_dec i (PacketArrivalTimeMap.begin_sequence_number_ m)); [|destruct (Z_lt_ge_dec i (last_of m)); [lia|]];
    destruct Ha; apply arrival_outside; lia.
Qed.

Lemma end_spec m : wf m -> PacketArrivalTimeMap.end_sequence_number m = last_of m
  /\ PacketArrivalTimeMap.begin_sequence_number_ m <= last_of m.
Proof.
  intros [Hsize Hfresh Hb He]. unfold PacketArrivalTimeMap.end_sequence_number, last_of in *.
  rewrite s64_small by lia. lia.
Qed.

Lemma stopped_beyond m p next stop : stopped m p next (Z.min stop (last_of m)) -> stopped m p next stop.
Proof.
  intros [Hz|(i & d & Hi & Hrest)]; [left|right].
  - intros i Hi. destruct (Z_lt_ge_dec i (last_of m)); [apply Hz; lia|apply arrival_outside; lia].
  - exists i, d. split; [lia|done].
Qed.

(** What MaybeBuildFeedbackPacket does to the members other than the window start. *)
Definition built_state (p : option TransportFeedback.t) this : t :=
  match p with Some _ => set_count (u8 (feedback_packet_count_ this + 1)) this | None => this end.

(** The result of MaybeBuildFeedbackPacket. *)
Definition built_packet (ts : bool) (begin stop : Z) this (p : option TransportFeedback.t) (next : Z) : Prop :=
  match p with
  | None => next = begin /\ forall i, begin <= i < stop -> arrival (window this) i = 0
  | Some p => reports (window this) ts (feedback_packet_count_ this) (media_ssrc_ this) begin p next
      /\ next <= stop /\ stopped (window this) p next stop
  end.

Lemma MaybeBuild_spec this ts begin stop periodic : inv this -> begin < stop ->
  Z.min stop (last_of (window this)) - begin <= 2 ^ 15 ->
  (Z.min stop (last_of (window this)) - begin = 2 ^ 15 -> arrival (window this) (Z.min stop (last_of (window this)) - 1) <> 0 ->
   (forall i, begin <= i < Z.min stop (last_of (window this)) - 1 -> arrival (window this) i = 0) -> u16 (begin - 1) < 2 ^ 15) ->
  exists p next,
    MaybeBuildFeedbackPacket ts begin stop periodic this
    = Some (if periodic then set_window (Some next) (built_state p this) else built_state p this, p)
    /\ built_packet ts begin stop this p next.
Proof.
  intros [Hm Htimes Hwin Hc Hs] Hlt Hsize Hfull. unfold MaybeBuildFeedbackPacket.
  rewrite check_then by (by apply Z.ltb_lt). cbv zeta.
  set (m := window this) in *. destruct (end_spec m Hm) as [He Hle].
  unfold PacketArrivalTimeMap.clamp, PacketArrivalTimeMap.begin_sequence_number. rewrite He.
  set (b := PacketArrivalTimeMap.begin_sequence_number_ m) in *.
  destruct (Z_lt_ge_dec begin (last_of m)) as [Hbl|Hbl]; [destruct (Z_lt_ge_dec b stop) as [Hbs|Hbs]|].
  - destruct (first_loop m ts begin (Z.min stop (last_of m)) Hm Htimes ltac:(lia) Hsize Hfull
      (Z.to_nat (Z.max b (Z.min stop (last_of m)) - Z.max b (Z.min begin (last_of m)))) this
      (Z.max b (Z.min begin (last_of m)))) as (this' & p & next & -> & Hp); try done; try lia.
    { intros i Hi. apply arrival_outside. lia. }
    cbn [mbind option_bind]. exists p, next. destruct p as [p|]; cbn [built_state built_packet].
    + destruct Hp as (-> & Hp & Hn & Hst). split; [done|]. split; [done|]. split; [lia|by apply stopped_beyond].
    + destruct Hp as (-> & -> & Hz). split; [done|]. split; [done|]. intros i Hi.
      fold m. destruct (Z_lt_ge_dec i (last_of m)); [apply Hz; lia|apply arrival_outside; lia].
  - replace (Z.to_nat _) with 0%nat by lia. cbn. exists None, begin. split; [done|]. split; [done|].
    intros i Hi. fold m. apply arrival_outside. lia.
  - replace (Z.to_nat _) with 0%nat by lia. cbn. exists None, begin. split; [done|]. split; [done|].
    intros i Hi. fold m. apply arrival_outside. lia.
Qed.

(** ** Periodic feedback *)

(** The messages [ps] report the arrivals from [start] to [stop], one after the other, under
    consecutive numbers. *)
Fixpoint covers (m : PacketArrivalTimeMap.t) (ssrc start count : Z) (ps : list TransportFeedback.t) (stop : Z) : Prop :=
  match ps with
  | [] => start = stop
  | p :: ps => exists next, reports m true count ssrc start p next /\ covers m ssrc next (u8 (count + 1)) ps stop
  end.

(** The estimate travels with the first message. *)
Definition messages (estimate : list (RtcpPacket (rate:=rate))) (ps : list TransportFeedback.t) : list (list RtcpPacket) :=
  match ps with
  | [] => []
  | p :: ps => (estimate ++ [FeedbackPacket p]) :: map (fun p => [FeedbackPacket p]) ps
  end.

(** The one arrangement in which the next packet cannot be reported: it is the only one in
    the whole window, half the number space ahead, with the smaller wrapped number. *)
Definition stuck this : bool :=
  match periodic_window_start_seq_ this with
  | Some s => (last_of (window this) - s =? 2 ^ 15) && (2 ^ 15 <=? u16 (s - 1))
      && negb (arrival (window this) (last_of (window this) - 1) =? 0)
      && forallb (fun i => arrival (window this) i =? 0) (seqZ s (2 ^ 15 - 1))
  | None => false
  end.

Lemma stuck_spec this s : periodic_window_start_seq_ this = Some s -> stuck this = true <->
  last_of (window this) - s = 2 ^ 15 /\ 2 ^ 15 <= u16 (s - 1) /\ arrival (window this) (last_of (window this) - 1) <> 0
  /\ forall i, s <= i < last_of (window this) - 1 -> arrival (window this) i = 0.
Proof.
  intros Hs. unfold stuck. rewrite Hs, !andb_true_iff, Z.eqb_eq, Z.leb_le, negb_true_iff, Z.eqb_neq, forallb_forall.
  change (2 ^ 15) with 32768. split.
  - intros (((H1 & H2) & H3) & H4). splits; try done. intros i Hi. apply Z.eqb_eq, H4, list_elem_of_In, elem_of_seqZ. lia.
  - intros (H1 & H2 & H3 & H4). splits; try done. intros i Hi%list_elem_of_In%elem_of_seqZ. apply Z.eqb_eq, H4. lia.
Qed.

Definition send_state (ps : list TransportFeedback.t) (next : Z) this : t :=
  set_window (Some next) (set_count (u8 (feedback_packet_count_ this + zlen ps)) this).

Lemma set_count_id this : is_u8 (feedback_packet_count_ this) -> set_count (u8 (feedback_packet_count_ this)) this = this.
Proof. intros Hc. rewrite u8_id by done. by destruct this. Qed.

Lemma inv_step this p next : inv this -> last_of (window this) - next <= 2 ^ 15 ->
  inv (set_window (Some next) (built_state p this)).
Proof.
  intros [Hm Ht Hw Hc Hs] Hn. destruct p; constructor; try done; cbn; try apply u8_range; intros s [= <-]; done.
Qed.

Lemma periodic_loop_spec fuel : forall this start estimate, inv this -> periodic_window_start_seq_ this = Some start ->
  stuck this = false -> last_of (window this) - start <= Z.of_nat fuel ->
  exists ps next, periodic_loop fuel (last_of (window this)) estimate this
      = Some (send_state ps next this, messages estimate ps)
    /\ covers (window this) (media_ssrc_ this) start (feedback_packet_count_ this) ps next
    /\ (forall i, next <= i < last_of (window this) -> arrival (window this) i = 0).
Proof.
  induction fuel as [|fuel IH]; intros this start estimate Hinv Hstart Hstuck Hfuel.
  all: pose proof Hinv as [Hm Ht Hw Hc Hs]; specialize (Hw start Hstart); cbn [periodic_loop]; rewrite Hstart; cbn [mbind option_bind default].
  all: assert (Hnone : send_state [] start this = this) by
    (unfold send_state; cbn [length Z.of_nat]; rewrite Z.add_0_r, set_count_id by done; destruct this; cbn in *; by subst).
  - rewrite (proj2 (Z.ltb_ge _ _)) by lia. exists [], start. rewrite Hnone. split; [done|]. split; [done|]. intros i Hi. lia.
  - destruct (Z.ltb_spec start (last_of (window this))) as [Hlt|Hge];
      [|exists [], start; rewrite Hnone; split; [done|]; split; [done|]; intros i Hi; lia].
    destruct (MaybeBuild_spec this true start (last_of (window this)) true) as (p & next & -> & Hp); try done; try lia.
    { rewrite Z.min_id. intros H1 H2 H3. destruct (Z_lt_ge_dec (u16 (start - 1)) (2 ^ 15)); [done|].
      rewrite (proj2 (stuck_spec this start Hstart)) in Hstuck; [done|]. splits; done || lia. }
    cbn [mbind option_bind]. destruct p as [p|]; cbn [built_packet] in Hp.
    + destruct Hp as (Hp & Hn & Hst). pose proof (reports_next _ _ _ _ _ _ _ Hp) as Hnext.
      destruct (IH (set_window (Some next) (built_state (Some p) this)) next []) as (ps & last & HE & Hcov & Hz);
        [by apply inv_step; lia || done|done| |cbn; lia|].
      { apply not_true_iff_false. rewrite (stuck_spec _ next) by done. cbn. lia. }
      cbn [window packet_arrival_times_ set_window built_state set_count media_ssrc_ feedback_packet_count_] in *.
      rewrite HE. cbn [mbind option_bind]. exists (p :: ps), last. split; [|split; [|done]].
      * f_equal. f_equal; [|by destruct ps].
        assert (E : u8 (u8 (feedback_packet_count_ this + 1) + zlen ps) = u8 (feedback_packet_count_ this + zlen (p :: ps)))
          by (cbn [length]; wordlia).
        unfold send_state. by rewrite <- E.
      * cbn [covers]. by exists next.
    + destruct Hp as [-> Hz]. exists [], start. cbn [built_state messages]. split; [|by split].
      rewrite Hnone. destruct this; cbn in *; by subst.
Qed.

(** ** The loop that does not end *)

Lemma refused_packet p begin seq ts us : good p [] -> TransportFeedback.base_seq_no_ p = u16 begin ->
  TransportFeedback.include_timestamps_ p = ts -> 0 <= us < 2 ^ 62 -> seq - begin + 1 = 2 ^ 15 -> 2 ^ 15 <= u16 (begin - 1) ->
  exists p', TransportFeedback.AddReceivedPacket p (u16 seq) us = Some (p', false).
Proof.
  intros Hg Hb Hts Hus Hd Hge. pose proof (good_time _ _ Hg) as Ht.
  destruct (near_in_order p [] begin begin seq (good_built _ _ Hg) Hb) as [_ Ho]; [cbn; lia|lia|lia|].
  destruct (AddReceivedPacket_spec p [] (u16 seq) us (good_built _ _ Hg) (u16_range _)) as (full & p' & k & _ & E & _);
    [change (2 ^ 62) with 4611686018427387904 in *; change (2 ^ 63) with 9223372036854775808;
     change (2 ^ 40) with 1099511627776 in *; change (2 ^ 41) with 2199023255552 in *; lia|].
  exists p'. rewrite E. destruct (in_order p (u16 seq)); [exfalso|by rewrite andb_false_r].
  destruct (proj1 Ho eq_refl); lia.
Qed.

Lemma stuck_loop n : forall this begin seq, inv this -> last_of (window this) - begin = 2 ^ 15 ->
  2 ^ 15 <= u16 (begin - 1) -> arrival (window this) (last_of (window this) - 1) <> 0 ->
  (forall i, begin <= i < last_of (window this) - 1 -> arrival (window this) i = 0) ->
  Z.of_nat n = last_of (window this) - seq -> (0 < n)%nat -> begin <= seq ->
  PacketArrivalTimeMap.begin_sequence_number_ (window this) <= seq ->
  exists p, feedback_loop n true begin seq this None begin
    = Some (set_count (u8 (feedback_packet_count_ this + 1)) this, Some p, begin).
Proof.
  induction n as [|n IH]; intros this begin seq Hinv Hd Hu Hl Hz Hn Hpos Hb Hseq; [lia|]. cbn [feedback_loop].
  pose proof Hinv as [Hm Ht Hw Hc Hs]. rewrite get_spec by done || lia. cbn [mbind option_bind].
  destruct (Z_lt_ge_dec seq (last_of (window this) - 1)).
  - rewrite (Hz seq) by lia. cbn. apply IH; done || lia.
  - assert (seq = last_of (window this) - 1) as -> by lia. rewrite (proj2 (Z.eqb_neq _ _)) by done.
    set (a := arrival (window this) (last_of (window this) - 1)). pose proof (Ht (last_of (window this) - 1)) as Ha. fold a in Ha.
    destruct (start_packet_spec true begin this a Ha Hc Hs) as (p & -> & Hg & Hts & Hbase & _).
    cbn [mbind option_bind]. rewrite micros_small, u16_land by done. cbn [mbind option_bind].
    destruct (refused_packet p begin (last_of (window this) - 1) true (1000 * a)) as [p' ->]; try done; try lia.
    by exists p'.
Qed.

Lemma stuck_loops fuel s : forall this estimate, inv this -> periodic_window_start_seq_ this = Some s ->
  stuck this = true -> periodic_loop fuel (last_of (window this)) estimate this = None.
Proof.
  induction fuel as [|fuel IH]; intros this estimate Hinv Es Hst;
    pose proof (proj1 (stuck_spec this s Es) Hst) as (H1 & H2 & H3 & H4); cbn [periodic_loop]; rewrite Es;
    cbn [mbind option_bind default]; rewrite (proj2 (Z.ltb_lt _ _)) by lia; [done|].
  pose proof Hinv as [Hm Ht Hw Hc Hs]. destruct (end_spec _ Hm) as [He Hle].
  unfold MaybeBuildFeedbackPacket. rewrite check_then by (apply Z.ltb_lt; lia). cbv zeta.
  unfold PacketArrivalTimeMap.clamp, PacketArrivalTimeMap.begin_sequence_number. rewrite He.
  pose proof (arrival_inside _ _ H3) as Hin.
  set (seq := Z.max (PacketArrivalTimeMap.begin_sequence_number_ (window this)) (Z.min s (last_of (window this)))).
  destruct (stuck_loop (Z.to_nat (last_of (window this) - seq)) this s seq) as [p E]; try done; try lia.
  replace (Z.max _ (Z.min (last_of (window this)) (last_of (window this)))) with (last_of (window this)) by lia.
  rewrite E. cbn [mbind option_bind].
  change (last_of (window this)) with (last_of (window (set_window (Some s) (set_count (u8 (feedback_packet_count_ this + 1)) this)))).
  rewrite IH; [done|by apply (inv_step this (Some p)); [|lia]|done|by apply (stuck_spec _ s)].
Qed.

(** ** Feedback on request *)

Lemma EraseTo_last m s m' : wf m -> usable s -> PacketArrivalTimeMap.EraseTo s m = Some m' -> last_of m' = last_of m.
Proof.
  intros [Hsize Hfresh Hb He] Hs. unfold PacketArrivalTimeMap.EraseTo, usable, last_of in *. rewrite Z.gtb_ltb.
  destruct (Z.ltb_spec (PacketArrivalTimeMap.begin_sequence_number_ m) s); [|by intros [= <-]].
  rewrite sub64_small by (consts; lia). cbn [mbind option_bind]. intros [= <-]. cbn.
  rewrite s64_small by (consts; lia). rewrite length_drop. lia.
Qed.

Lemma RemoveOldPackets_last m s limit : last_of (PacketArrivalTimeMap.RemoveOldPackets s limit m) = last_of m
  /\ PacketArrivalTimeMap.has_seen_packet_ (PacketArrivalTimeMap.RemoveOldPackets s limit m) = PacketArrivalTimeMap.has_seen_packet_ m.
Proof.
  unfold PacketArrivalTimeMap.RemoveOldPackets, last_of.
  destruct (remove_old_spec s limit (PacketArrivalTimeMap.arrival_times m) (PacketArrivalTimeMap.begin_sequence_number_ m))
    as (k & Hk & -> & _). split; [|done]. cbn. rewrite length_drop. lia.
Qed.

(** Sequence numbers far from the ends of int64_t. *)
Definition small_seq (s : Z) : Prop := - 2 ^ 61 < s < 2 ^ 61.

(** A request counts 15 bits. *)
Definition request_ok (r : FeedbackRequest) : Prop := 0 <= sequence_count r < 2 ^ 15.

Definition first_requested (seq : Z) (r : FeedbackRequest) : Z := seq - sequence_count r + 1.

Lemma SendFeedbackOnRequest_spec this seq r : inv this -> small_seq seq -> request_ok r -> sequence_count r <> 0 ->
  exists p next m', built_packet (include_timestamps r) (first_requested seq r) (seq + 1) this p next
    /\ wf m' /\ last_of m' = last_of (window this)
    /\ (forall i, arrival m' i = if i <? first_requested seq r then 0 else arrival (window this) i)
    /\ SendFeedbackOnRequest seq r this
       = p ← p; Some (set_map m' (set_count (u8 (feedback_packet_count_ this + 1)) this), [[FeedbackPacket p]]).
Proof.
  intros Hinv Hseq Hr Hnz. unfold request_ok, small_seq in *. change (2 ^ 61) with 2305843009213693952 in *.
  change (2 ^ 15) with 32768 in *. unfold SendFeedbackOnRequest, add64. rewrite (proj2 (Z.eqb_neq _ _)) by done.
  rewrite !sub64_small by (consts; lia). cbn [mbind option_bind]. rewrite !sub64_small by (consts; lia). cbn [mbind option_bind].
  replace (seq - sequence_count r - - (1)) with (first_requested seq r) by (unfold first_requested; lia).
  replace (seq - - (1)) with (seq + 1) by lia.
  assert (Hu : usable (first_requested seq r)) by (unfold usable, first_requested; consts; lia).
  destruct (EraseTo_spec _ _ (inv_map _ Hinv) Hu) as (m' & Em & Hm' & Ha').
  destruct (MaybeBuild_spec this (include_timestamps r) (first_requested seq r) (seq + 1) false) as (p & next & -> & Hp);
    try (done || unfold first_requested; lia).
  exists p, next, m'. split; [done|]. split; [done|].
  split; [by apply (EraseTo_last _ (first_requested seq r)); [apply Hinv|..]|]. split; [done|].
  destruct p; [|done]. cbn [mbind option_bind built_state set_count packet_arrival_times_]. by rewrite Em.
Qed.

(** ** Incoming packets *)

Lemma too_old_last m s : wf m -> too_old m s
  = PacketArrivalTimeMap.has_seen_packet_ m && (last_of m - s >? PacketArrivalTimeMap.kMaxNumberOfPackets).
Proof.
  intros [Hsize _ _ _]. unfold too_old, last_of in *. rewrite Z.gtb_ltb.
  destruct (PacketArrivalTimeMap.has_seen_packet_ m); [|done]. cbn [andb]. destruct (Z.ltb_spec PacketArrivalTimeMap.kMaxNumberOfPackets
    (PacketArrivalTimeMap.begin_sequence_number_ m + zlen (PacketArrivalTimeMap.arrival_times m) - s)); [|by rewrite andb_false_r].
  by rewrite (proj2 (Z.ltb_lt _ _)) by lia.
Qed.

Lemma set_map_id this : set_map (window this) this = this.
Proof. by destruct this. Qed.

(** Culling is due: all packets of the window have been reported. *)
Definition cull_due this : Prop :=
  send_periodic_feedback_ this = true /\ exists s, periodic_window_start_seq_ this = Some s /\ last_of (window this) <= s.

(** The map [m'] is that of the window without its old packets before [seq]: those that arrived
    no later than [back_window] before [time], and only when culling is due; then the first
    packet left is none of them. *)
Record culled this (m' : PacketArrivalTimeMap.t) (seq time : Z) : Prop := {
  culled_wf : wf m';
  culled_last : last_of m' = last_of (window this);
  culled_seen : PacketArrivalTimeMap.has_seen_packet_ m' = PacketArrivalTimeMap.has_seen_packet_ (window this);
  culled_seq : arrival m' seq = arrival (window this) seq;
  culled_times i : arrival m' i = 0 \/ arrival m' i = arrival (window this) i;
  culled_old i : arrival m' i <> arrival (window this) i ->
    cull_due this /\ i < seq /\ arrival (window this) i <= time - back_window (send_config_ this);
  culled_first : cull_due this -> let b := PacketArrivalTimeMap.begin_sequence_number_ m' in
    b = last_of (window this) \/ seq <= b \/ time - back_window (send_config_ this) < arrival (window this) b
}.

Lemma culled_refl this seq time : wf (window this) -> ~ cull_due this -> culled this (window this) seq time.
Proof. intros Hm Hn. constructor; try done. intros i. by right. Qed.

Lemma MaybeCull_spec this seq time : inv this -> 0 <= time < 2 ^ 52 -> send_periodic_feedback_ this = true ->
  exists m', MaybeCullOldPackets seq time this = Some (set_map m' this) /\ culled this m' seq time.
Proof.
  intros [Hm Ht Hw Hc Hs Hcf] Htime Hper. unfold MaybeCullOldPackets. consts. change (2 ^ 52) with 4503599627370496 in *.
  assert (Hid : ~ cull_due this -> exists m', Some this = Some (set_map m' this) /\ culled this m' seq time)
    by (intros Hn; exists (window this); rewrite set_map_id; split; [done|by apply culled_refl]).
  destruct (periodic_window_start_seq_ this) as [s|] eqn:Es; [|apply Hid; intros (_ & x & Ex & _); congruence].
  pose proof (proj1 (end_spec _ Hm)) as Eend. rewrite Z.geb_leb. destruct (Z.leb_spec (PacketArrivalTimeMap.end_sequence_number (window this)) s) as [Hle|Hlt];
    [|apply Hid; intros (_ & x & Ex & Hx); rewrite Es in Ex; injection Ex as <-; lia].
  assert (Hdue : cull_due this) by (split; [done|exists s; split; [done|lia]]).
  rewrite sub64_small by (consts; lia). cbn [mbind option_bind]. eexists. split; [done|].
  set (limit := _ - _). destruct (RemoveOldPackets_spec (window this) seq limit Hm) as (H1 & H2 & H3 & H4 & H7).
  destruct (RemoveOldPackets_last (window this) seq limit) as [H5 H6].
  assert (Hin : forall i, i < PacketArrivalTimeMap.begin_sequence_number_ (PacketArrivalTimeMap.RemoveOldPackets seq limit (window this)) ->
    arrival (window this) i <> 0 -> i < seq /\ arrival (window this) i <= limit).
  { intros i Hi Hne. apply H4. split; [|done]. apply (arrival_inside _ _ Hne). }
  constructor; try done.
  - rewrite H3. destruct (Z.ltb_spec seq (PacketArrivalTimeMap.begin_sequence_number_
      (PacketArrivalTimeMap.RemoveOldPackets seq limit (window this)))) as [Hlt|]; [|done].
    destruct (Z.eq_dec (arrival (window this) seq) 0) as [->|Hne]; [done|]. destruct (Hin seq Hlt Hne). lia.
  - intros i. rewrite H3. destruct (i <? _); [by left|by right].
  - intros i. rewrite H3. destruct (Z.ltb_spec i (PacketArrivalTimeMap.begin_sequence_number_
      (PacketArrivalTimeMap.RemoveOldPackets seq limit (window this)))); [|done]. intros Hne. split; [done|]. apply Hin; lia.
Qed.

Lemma limit_inv this m : inv this -> wf m -> (forall i, 0 <= arrival m i < 2 ^ 52) -> forall u w, 
  is_u32 w -> forall s, inv (limit_window (set_map m (set_window s (set_source w u this)))).
Proof.
  intros [_ _ _ Hc _ Hcf] Hm Ht u w Hw s. pose proof (wf_size _ Hm). unfold limit_window. cbn.
  change PacketArrivalTimeMap.kMaxNumberOfPackets with (2 ^ 15) in *. unfold PacketArrivalTimeMap.begin_sequence_number.
  destruct s as [s|]; [destruct (Z.ltb_spec s (PacketArrivalTimeMap.begin_sequence_number_ m))|].
  all: constructor; try done; intros x [= <-]; cbn; unfold last_of; lia.
Qed.

Record header_ok (h : RTPHeader) : Prop := {
  header_ssrc : is_u32 (ssrc h);
  header_seq : is_u16 (transportSequenceNumber h);
  header_request r : feedback_request h = Some r -> request_ok r
}.

(** The unwrapped transport sequence number of a packet. *)
Definition unwrapped this (h : RTPHeader) : Z := snd (Unwrap (transportSequenceNumber h) (unwrapper_ this)).

Definition answer seq (h : RTPHeader) this : option (t * list (list RtcpPacket)) :=
  match feedback_request h with
  | Some request => SendFeedbackOnRequest seq request this
  | None => Some (this, [])
  end.

Lemma lower_window_eq seq this : exists s, lower_window seq this = set_window (Some s) this
  /\ s <= seq /\ (periodic_window_start_seq_ this = Some s \/ s = seq).
Proof.
  unfold lower_window. destruct (periodic_window_start_seq_ this) as [s|] eqn:E; [destruct (Z.ltb_spec seq s)|].
  - exists seq. split; [done|]. split; [lia|by right].
  - exists s. split; [by destruct this; cbn in *; subst|]. split; [lia|by left].
  - exists seq. split; [done|]. split; [lia|by right].
Qed.

Lemma MaybeCull_source this seq time w u :
  MaybeCullOldPackets seq time (set_source w u this) = option_map (set_source w u) (MaybeCullOldPackets seq time this).
Proof.
  unfold MaybeCullOldPackets. cbn. destruct (periodic_window_start_seq_ this); [|done]. destruct (_ >=? _); [|done].
  by destruct (PacketArrivalTimeMap.sub64 _ _).
Qed.

(** The state after culling old packets and lowering the start of the reports. *)
Lemma before_add this seq time w u : inv this -> 0 <= time < 2 ^ 52 -> exists m s,
  (if send_periodic_feedback_ this
   then this ← MaybeCullOldPackets seq time (set_source w u this); Some (lower_window seq this)
   else Some (set_source w u this)) = Some (set_map m (set_window s (set_source w u this)))
  /\ culled this m seq time
  /\ (s = periodic_window_start_seq_ this \/ s = Some seq)
  /\ (if send_periodic_feedback_ this then exists x, s = Some x /\ x <= seq else m = window this).
Proof.
  intros Hinv Htime. destruct (send_periodic_feedback_ this) eqn:Hper.
  - destruct (MaybeCull_spec this seq time Hinv Htime Hper) as (m & E & Hm).
    assert (E' : MaybeCullOldPackets seq time (set_source w u this) = Some (set_map m (set_source w u this))).
    { by rewrite MaybeCull_source, E. }
    rewrite E'. cbn [mbind option_bind]. destruct (lower_window_eq seq (set_map m (set_source w u this))) as (s & -> & Hs & Ho).
    exists m, (Some s). split; [done|]. split; [done|]. cbn in Ho.
    split; [destruct Ho as [Ho| ->]; [by left|by right]|]. by exists s.
  - exists (window this), (periodic_window_start_seq_ this). split; [by destruct this|].
    split; [apply culled_refl; [apply Hinv|intros [Hp _]; congruence]|]. split; [by left|done].
Qed.

Lemma in_bounds time : 0 <= time < 2 ^ 52 -> (time <? 0) || (time >? kMaxTimeMs) = false.
Proof.
  intros Ht. change kMaxTimeMs with 9223372036854775. change (2 ^ 52) with 4503599627370496 in *.
  rewrite Z.gtb_ltb, (proj2 (Z.ltb_ge time 0)), (proj2 (Z.ltb_ge _ time)) by lia. done.
Qed.

Lemma small_usable s : small_seq s -> usable s.
Proof. unfold small_seq, usable. change (2 ^ 61) with 2305843009213693952. consts. lia. Qed.

(** A packet that was received before. *)
Lemma incoming_again this time size h : inv this -> 0 <= time < 2 ^ 52 -> header_ok h ->
  hasTransportSequenceNumber h = true -> small_seq (unwrapped this h) -> arrival (window this) (unwrapped this h) <> 0 ->
  exists this', IncomingPacket time size h this = Some (this', []) /\ inv this'
    /\ culled this (window this') (unwrapped this h) time.
Proof.
  intros Hinv Ht [Hs Hq Hr] Hhas Hseq Ha. unfold IncomingPacket, unwrapped in *. rewrite in_bounds, Hhas by done.
  destruct (Unwrap _ _) as [u seq]. cbn [snd] in *. cbv zeta.
  destruct (before_add this seq time (ssrc h) u Hinv Ht) as (m & s & E & Hm & Ho & _).
  change (send_periodic_feedback_ (set_source (ssrc h) u this)) with (send_periodic_feedback_ this).
  rewrite E. cbn [mbind option_bind]. pose proof Hm as [Hwf Hlast Hseen Hseq' Hall _ _].
  assert (Hrec : PacketArrivalTimeMap.has_received m seq = Some true).
  { rewrite has_received_spec by (done || by apply small_usable). f_equal. apply negb_true_iff, Z.eqb_neq. by rewrite Hseq'. }
  cbn [window packet_arrival_times_ set_map]. rewrite Hrec. cbn [mbind option_bind].
  eexists. split; [done|]. split; [|done]. destruct Hinv as [_ Hti Hw Hc _ Hcf].
  constructor; try done.
  - intros i. cbn. destruct (Hall i) as [-> | ->]; [change (2 ^ 52) with 4503599627370496; lia|apply Hti].
  - cbn. intros x Hx. rewrite Hlast. destruct Ho as [-> | ->]; [by apply Hw|]. injection Hx as <-.
    pose proof (arrival_inside m seq ltac:(by rewrite Hseq')) as Hin. pose proof (wf_size _ Hwf) as Hsize.
    change PacketArrivalTimeMap.kMaxNumberOfPackets with (2 ^ 15) in Hsize. unfold last_of in *. lia.
Qed.

(** A packet that is received for the first time. *)
Lemma incoming_new this time size h : inv this -> 0 <= time < 2 ^ 52 -> header_ok h ->
  hasTransportSequenceNumber h = true -> small_seq (unwrapped this h) -> arrival (window this) (unwrapped this h) = 0 ->
  exists this', IncomingPacket time size h this
      = ('(answered, sent) ← answer (unwrapped this h) h this';
         Some (feed_estimator time size (unwrapped this h) h answered, sent))
    /\ inv this' /\ send_periodic_feedback_ this' = send_periodic_feedback_ this
    /\ feedback_packet_count_ this' = feedback_packet_count_ this /\ media_ssrc_ this' = ssrc h
    /\ if too_old (window this) (unwrapped this h) then forall i, i <= unwrapped this h -> arrival (window this') i = 0 else
       arrival (window this') (unwrapped this h) = time
       /\ (time <> 0 -> send_periodic_feedback_ this = true ->
           exists x, periodic_window_start_seq_ this' = Some x /\ x <= unwrapped this h)
       /\ exists m, culled this m (unwrapped this h) time
         /\ (send_periodic_feedback_ this = false -> m = window this)
         /\ forall i, arrival (window this') i = window_add (unwrapped this h) time (arrival m) i.
Proof.
  intros Hinv Ht [Hs Hq Hr] Hhas Hseq Ha. unfold IncomingPacket, unwrapped in *. rewrite in_bounds, Hhas by done.
  destruct (Unwrap _ _) as [u seq]. cbn [snd] in *. cbv zeta.
  destruct (before_add this seq time (ssrc h) u Hinv Ht) as (m & s & E & Hm & Ho & Hp).
  change (send_periodic_feedback_ (set_source (ssrc h) u this)) with (send_periodic_feedback_ this).
  rewrite E. cbn [mbind option_bind]. pose proof Hm as [Hwf Hlast Hseen Hseq' Hall _ _].
  assert (Hrec : PacketArrivalTimeMap.has_received m seq = Some false).
  { rewrite has_received_spec by (done || by apply small_usable). by rewrite Hseq', Ha. }
  cbn [window packet_arrival_times_ set_map]. rewrite Hrec. cbn [mbind option_bind].
  destruct (AddPacket_spec m seq time Hwf (small_usable _ Hseq)) as (m' & -> & Hadd). cbn [mbind option_bind].
  assert (Hold : too_old m seq = too_old (window this) seq).
  { rewrite !too_old_last by (done || apply Hinv). by rewrite Hlast, Hseen. }
  rewrite Hold in Hadd.
  change (set_map m' (set_map m (set_window s (set_source (ssrc h) u this)))) with (set_map m' (set_window s (set_source (ssrc h) u this))).
  assert (Htimes : forall i, 0 <= arrival m i < 2 ^ 52).
  { intros i. destruct (Hall i) as [-> | ->]; [change (2 ^ 52) with 4503599627370496; lia|apply Hinv]. }
  assert (Hm' : wf m' /\ forall i, 0 <= arrival m' i < 2 ^ 52).
  { destruct (too_old (window this) seq); [by subst m'|]. destruct Hadd as [[Hw' Ha'] _]. split; [done|].
    intros i. rewrite Ha'. unfold window_add. destruct (i =? seq); [done|]. destruct (_ <? i); [done|].
    change (2 ^ 52) with 4503599627370496. lia. }
  destruct Hm' as [Hwf' Htimes'].
  exists (limit_window (set_map m' (set_window s (set_source (ssrc h) u this)))).
  split; [unfold answer; by destruct (feedback_request h) as [r|]|]. split; [by apply limit_inv|].
  assert (Hproj : forall x, send_periodic_feedback_ (limit_window (set_map m' x)) = send_periodic_feedback_ x
    /\ feedback_packet_count_ (limit_window (set_map m' x)) = feedback_packet_count_ x
    /\ media_ssrc_ (limit_window (set_map m' x)) = media_ssrc_ x /\ window (limit_window (set_map m' x)) = m').
  { intros x. unfold limit_window. cbn. destruct (periodic_window_start_seq_ x); [|done]. by destruct (_ <? _). }
  destruct (Hproj (set_window s (set_source (ssrc h) u this))) as (-> & -> & -> & Hwin).
  split; [done|]. split; [done|]. split; [done|].
  cbv zeta in Hwin. rewrite Hwin. destruct (too_old (window this) seq).
  { subst m'. intros i Hi. apply arrival_outside. left. unfold too_old in Hold. destruct (Z.ltb_spec seq
      (PacketArrivalTimeMap.begin_sequence_number_ m)); [lia|by rewrite andb_false_r in Hold]. }
  destruct Hadd as [[_ Hadd] _]. pose proof (Hadd seq) as Ha'. unfold window_add in Ha'. rewrite Z.eqb_refl in Ha'. split; [done|].
  split. 2:{ exists m. split; [done|]. split; [|done]. intros Hper. by rewrite Hper in Hp. }
  intros Hnz Hper. rewrite Hper in Hp. destruct Hp as (x & -> & Hx). pose proof (arrival_inside m' seq ltac:(by rewrite Ha')) as Hin.
  unfold limit_window, PacketArrivalTimeMap.begin_sequence_number. cbn.
  destruct (Z.ltb_spec x (PacketArrivalTimeMap.begin_sequence_number_ m')); eexists; (split; [done|lia]).
Qed.

Lemma feed_inv time size seq h this : inv this -> inv (feed_estimator time size seq h this).
Proof.
  intros Hinv. unfold feed_estimator. destruct (network_state_estimator_ this); [|done].
  destruct (hasAbsoluteSendTime h); [|done]. by destruct Hinv.
Qed.

Lemma feed_same time size seq h this : let this' := feed_estimator time size seq h this in
  packet_arrival_times_ this' = window this /\ periodic_window_start_seq_ this' = periodic_window_start_seq_ this
  /\ send_periodic_feedback_ this' = send_periodic_feedback_ this.
Proof.
  unfold feed_estimator. destruct (network_state_estimator_ this); [|done]. by destruct (hasAbsoluteSendTime h).
Qed.

Lemma request_inv this seq r this' sent : inv this -> small_seq seq -> request_ok r ->
  SendFeedbackOnRequest seq r this = Some (this', sent) -> inv this'.
Proof.
  intros Hinv Hseq Hr. destruct (Z.eq_dec (sequence_count r) 0) as [E|Hnz].
  - unfold SendFeedbackOnRequest. rewrite E. by intros [= <- <-].
  - destruct (SendFeedbackOnRequest_spec this seq r Hinv Hseq Hr Hnz) as (p & next & m' & _ & Hm & Hl & Ha & ->).
    destruct p as [p|]; [|done]. intros [= <- <-]. destruct Hinv as [_ Ht Hw Hc Hs Hcf]. constructor; try done; cbn.
    + intros i. rewrite Ha. destruct (_ <? _); [change (2 ^ 52) with 4503599627370496; lia|apply Ht].
    + intros s Es. rewrite Hl. by apply Hw.
    + apply u8_range.
Qed.

Lemma incoming_inv this time size h this' sent : inv this -> 0 <= time < 2 ^ 52 -> header_ok h -> small_seq (unwrapped this h) ->
  IncomingPacket time size h this = Some (this', sent) -> inv this'.
Proof.
  intros Hinv Ht Hh Hseq E. destruct (hasTransportSequenceNumber h) eqn:Hhas.
  - destruct (Z.eq_dec (arrival (window this) (unwrapped this h)) 0) as [Ha|Ha].
    + destruct (incoming_new this time size h Hinv Ht Hh Hhas Hseq Ha) as (this3 & E3 & H3 & _). rewrite E3 in E.
      unfold answer in E. destruct (feedback_request h) as [r|] eqn:Er.
      * destruct (SendFeedbackOnRequest _ _ _) as [[this4 sent4]|] eqn:E4; [|done]. injection E as <- <-.
        apply feed_inv. exact (request_inv _ _ _ _ _ H3 Hseq (header_request _ Hh r Er) E4).
      * injection E as <- <-. by apply feed_inv.
    + destruct (incoming_again this time size h Hinv Ht Hh Hhas Hseq Ha) as (this3 & E3 & H3 & _). by simplify_eq.
  - unfold IncomingPacket in E. rewrite in_bounds, Hhas in E by done. injection E as <- <-. apply feed_inv.
    destruct Hinv, Hh. by constructor.
Qed.

(** ** Reachable states *)

(** What OnBitrateChanged changes. *)
Definition with_interval (interval : Z) this : t :=
  Mk (send_config_ this) (last_process_time_ms_ this) (network_state_estimator_ this) (media_ssrc_ this)
    (feedback_packet_count_ this) (unwrapper_ this) (periodic_window_start_seq_ this) (window this) interval
    (send_periodic_feedback_ this) (previous_abs_send_time_ this) (abs_send_timestamp_ this).

(** As many rounds as the window has packets. *)
Definition process_fuel : nat := Z.to_nat PacketArrivalTimeMap.kMaxNumberOfPackets.

Inductive proxy_step : t -> t -> Prop :=
  | step_incoming this time size h this' sent : 0 <= time < 2 ^ 52 -> header_ok h -> small_seq (unwrapped this h) ->
      IncomingPacket time size h this = Some (this', sent) -> proxy_step this this'
  | step_process this fuel now this' sent : (process_fuel <= fuel)%nat ->
      Process fuel now this = Some (this', sent) -> proxy_step this this'
  | step_periodic this b : proxy_step this (SetSendPeriodicFeedback b this)
  | step_interval this interval : proxy_step this (with_interval interval this).

Inductive proxy_reachable : t -> Prop :=
  | proxy_start config now e : 0 <= back_window config < 2 ^ 62 -> proxy_reachable (create config now e)
  | proxy_next this this' : proxy_reachable this -> proxy_step this this' -> proxy_reachable this'.

(** The state in which Process starts to send. *)
Definition ticked (now : Z) this : t :=
  Mk (send_config_ this) now (network_state_estimator_ this) (media_ssrc_ this) (feedback_packet_count_ this)
    (unwrapper_ this) (periodic_window_start_seq_ this) (window this) (send_interval_ms_ this)
    (send_periodic_feedback_ this) (previous_abs_send_time_ this) (abs_send_timestamp_ this).

Lemma ticked_inv now this : inv this -> inv (ticked now this).
Proof. by intros []. Qed.

Lemma Process_spec fuel now this s estimate : inv this -> (process_fuel <= fuel)%nat -> send_periodic_feedback_ this = true ->
  periodic_window_start_seq_ this = Some s -> remote_estimate this = Some estimate -> stuck this = false ->
  exists ps next, Process fuel now this = Some (send_state ps next (ticked now this), messages estimate ps)
    /\ covers (window this) (media_ssrc_ this) s (feedback_packet_count_ this) ps next
    /\ (forall i, next <= i < last_of (window this) -> arrival (window this) i = 0).
Proof.
  intros Hinv Hf Hp Hs He Hst. unfold Process, SendPeriodicFeedbacks. rewrite Hp, Hs. cbn [negb periodic_window_start_seq_].
  change (remote_estimate (Mk _ _ _ _ _ _ _ _ _ _ _ _)) with (remote_estimate this). rewrite He. cbn [mbind option_bind packet_arrival_times_].
  destruct (end_spec _ (inv_map _ Hinv)) as [-> _]. rewrite <- Hp, <- Hs.
  apply (periodic_loop_spec fuel (ticked now this) s estimate); try done; [by apply ticked_inv|].
  pose proof (inv_window _ Hinv s Hs). unfold process_fuel in *. change PacketArrivalTimeMap.kMaxNumberOfPackets with (2 ^ 15) in *.
  cbn [ticked packet_arrival_times_]. lia.
Qed.

Lemma Process_stuck fuel now this : inv this -> send_periodic_feedback_ this = true -> stuck this = true ->
  Process fuel now this = None.
Proof.
  intros Hinv Hp Hst. unfold Process, SendPeriodicFeedbacks. rewrite Hp. cbn [negb periodic_window_start_seq_].
  destruct (periodic_window_start_seq_ this) as [s|] eqn:Hs; [|by unfold stuck in Hst; rewrite Hs in Hst].
  destruct (remote_estimate _) as [estimate|]; [|done]. cbn [mbind option_bind packet_arrival_times_].
  destruct (end_spec _ (inv_map _ Hinv)) as [-> _]. rewrite <- Hp, <- Hs.
  by apply (stuck_loops fuel s (ticked now this)); [apply ticked_inv|..].
Qed.

Lemma covers_window m ssrc start count ps next : covers m ssrc start count ps next ->
  start <= next /\ concat (map report_of ps) = arrivals true m start next.
Proof.
  revert start count. induction ps as [|p ps IH]; intros start count; cbn [covers map concat].
  - intros ->. split; [done|]. unfold arrivals. by rewrite Z.sub_diag.
  - intros (mid & Hp & Hps). destruct (IH mid _ Hps) as [Hle ->]. pose proof (reports_next _ _ _ _ _ _ _ Hp).
    split; [lia|]. rewrite (reports_arrivals _ _ _ _ _ _ _ Hp). symmetry. apply arrivals_app. lia.
Qed.

Lemma covers_next m ssrc start count ps next : covers m ssrc start count ps next -> ps <> [] -> arrival m (next - 1) <> 0.
Proof.
  revert start count. induction ps as [|p ps IH]; intros start count; [done|]. cbn [covers].
  intros (mid & Hp & Hps) _. destruct ps; [|by eapply IH].
  cbn in Hps. subst mid. apply (reports_last _ _ _ _ _ _ _ Hp).
Qed.

Lemma send_state_inv ps s next this : inv this -> periodic_window_start_seq_ this = Some s ->
  covers (window this) (media_ssrc_ this) s (feedback_packet_count_ this) ps next -> inv (send_state ps next this).
Proof.
  intros [Hm Ht Hw Hc Hs Hcf] E Hcov. destruct (covers_window _ _ _ _ _ _ Hcov) as [Hle _]. specialize (Hw s E).
  constructor; try done; cbn; [|apply u8_range]. intros x [= <-]. lia.
Qed.

Lemma process_inv fuel now this this' sent : inv this -> (process_fuel <= fuel)%nat -> Process fuel now this = Some (this', sent) ->
  inv this'.
Proof.
  intros Hinv Hf E. destruct (send_periodic_feedback_ this) eqn:Hp; [|unfold Process in E; rewrite Hp in E; by injection E as <- <-].
  destruct (periodic_window_start_seq_ this) as [s|] eqn:Hs.
  - destruct (stuck this) eqn:Hst; [by rewrite (Process_stuck fuel now this) in E|].
    destruct (remote_estimate this) as [estimate|] eqn:He.
    + destruct (Process_spec fuel now this s estimate) as (ps & next & E2 & Hcov & _); try done. rewrite E in E2. injection E2 as -> _.
      by apply (send_state_inv ps s next (ticked now this)); [apply ticked_inv|..].
    + unfold Process, SendPeriodicFeedbacks in E. rewrite Hp, Hs in E. cbn [negb periodic_window_start_seq_] in E.
      change (remote_estimate (Mk _ _ _ _ _ _ _ _ _ _ _ _)) with (remote_estimate this) in E. by rewrite He in E.
  - unfold Process, SendPeriodicFeedbacks in E. rewrite Hp, Hs in E. cbn in E. injection E as <- _.
    by destruct Hinv; constructor.
Qed.

Lemma proxy_inv this : proxy_reachable this -> inv this.
Proof.
  induction 1 as [config now e Hc|this this' _ IH Hs].
  - constructor; try done; cbn. intros i. unfold arrival. cbn. unfold at_. rewrite lookup_nil. by destruct (_ <? _).
  - destruct Hs; [by eapply incoming_inv|by eapply process_inv|by destruct IH|by destruct IH].
Qed.

(** The request of a packet, if it asks for anything. *)
Definition requested (h : RTPHeader) : option FeedbackRequest :=
  r ← feedback_request h; if sequence_count r =? 0 then None else Some r.

Lemma answer_spec this seq h : inv this -> small_seq seq -> header_ok h ->
  match requested h with
  | None => answer seq h this = Some (this, [])
  | Some r => exists p next m', 0 < sequence_count r
      /\ built_packet (include_timestamps r) (first_requested seq r) (seq + 1) this p next
      /\ (forall i, arrival m' i = if i <? first_requested seq r then 0 else arrival (window this) i)
      /\ answer seq h this
         = p ← p; Some (set_map m' (set_count (u8 (feedback_packet_count_ this + 1)) this), [[FeedbackPacket p]])
  end.
Proof.
  intros Hinv Hseq Hh. unfold requested, answer. destruct (feedback_request h) as [r|] eqn:Er; [|done]. cbn [mbind option_bind].
  destruct (Z.eqb_spec (sequence_count r) 0) as [E|Hnz].
  - unfold SendFeedbackOnRequest. by rewrite E.
  - destruct (SendFeedbackOnRequest_spec this seq r Hinv Hseq (header_request _ Hh r Er) Hnz) as (p & next & m' & H1 & _ & _ & H2 & H3).
    exists p, next, m'. split; [pose proof (header_request _ Hh r Er) as Hr; unfold request_ok in Hr; lia|done].
Qed.

(** C24. IncomingPacket on every branch, for a packet with a transport sequence number
    (unwrapped: within 2^61 of 0) and a feedback request of at most 15 bits. An arrival time out
    of bounds sends nothing, nor does, with a time below 2^52, a packet received before. For
    times from 1 to 2^52 - 1 (0 stands for: not received, so a request with it can fail): a new
    packet enters the window; if it asks for feedback, one message is sent that reports exactly
    the arrivals from the first requested number on, up to this packet unless the times are too
    far apart, and the window then forgets what lies before. A packet too old for the window is
    dropped; if it asks for feedback there is nothing to send, and the null message is an error.
    In these cases, only when feedback is periodic and everything is reported, packets before
    this one and at least back_window older may be culled first, and then the first one left is
    not such a packet. *)
Theorem incoming_packet (this : t) (time size : Z) (h : RTPHeader) :
  proxy_reachable this -> header_ok h -> hasTransportSequenceNumber h = true -> small_seq (unwrapped this h) ->
  let seq := unwrapped this h in let m := window this in
  (time < 0 \/ kMaxTimeMs < time -> IncomingPacket time size h this = Some (this, []))
  /\ (0 <= time < 2 ^ 52 -> arrival m seq <> 0 ->
      exists this', IncomingPacket time size h this = Some (this', []) /\ culled this (window this') seq time)
  /\ (0 < time < 2 ^ 52 -> arrival m seq = 0 -> too_old m seq = false ->
      exists this' sent culled_map added, IncomingPacket time size h this = Some (this', sent)
      /\ culled this culled_map seq time /\ (send_periodic_feedback_ this = false -> culled_map = m)
      /\ (forall i, arrival added i = window_add seq time (arrival culled_map) i)
      /\ match requested h with
         | None => sent = [] /\ window this' = added
         | Some r => exists p next, sent = [[FeedbackPacket p]]
             /\ reports added (include_timestamps r) (feedback_packet_count_ this) (ssrc h) (first_requested seq r) p next
             /\ next <= seq + 1 /\ stopped added p next (seq + 1)
             /\ forall i, arrival (window this') i = if i <? first_requested seq r then 0 else arrival added i
         end)
  /\ (0 < time < 2 ^ 52 -> arrival m seq = 0 -> too_old m seq = true ->
      match requested h with
      | None => exists this', IncomingPacket time size h this = Some (this', []) /\ arrival (window this') seq = 0
      | Some _ => IncomingPacket time size h this = None
      end).
Proof.
  intros Hinv%proxy_inv Hh Hhas Hseq. cbv zeta. split; [|split; [|split]].
  - intros Ht. unfold IncomingPacket. by replace ((time <? 0) || (time >? kMaxTimeMs)) with true by lia.
  - intros Ht Ha. destruct (incoming_again this time size h Hinv Ht Hh Hhas Hseq Ha) as (this' & H1 & _ & H2). by exists this'.
  - intros Ht Ha Hold. destruct (incoming_new this time size h Hinv ltac:(lia) Hh Hhas Hseq Ha)
      as (this3 & -> & H3 & _ & Hcount & Hssrc & Hwin). rewrite Hold in Hwin. destruct Hwin as (Hseq3 & _ & m1 & Hm1 & Hper & Hadd).
    pose proof (answer_spec this3 (unwrapped this h) h H3 Hseq Hh) as Hans. destruct (requested h) as [r|].
    + destruct Hans as (p & next & m' & Hr & Hp & Hm' & ->). destruct p as [p|]; cbn [built_packet] in Hp.
      2:{ exfalso. destruct Hp as [_ Hz]. rewrite Hz in Hseq3; [lia|]. unfold first_requested. lia. }
      cbn [mbind option_bind]. rewrite Hcount, Hssrc in Hp. destruct Hp as (Hp & Hn & Hst).
      eexists _, _, m1, (window this3). split; [done|]. split; [done|]. split; [done|]. split; [done|].
      exists p, next. split; [done|]. split; [done|]. split; [done|]. split; [done|].
      intros i. rewrite (proj1 (feed_same _ _ _ _ _)). apply Hm'.
    + rewrite Hans. cbn [mbind option_bind]. eexists _, _, m1, (window this3). split; [done|]. split; [done|]. split; [done|].
      split; [done|]. split; [done|]. apply feed_same.
  - intros Ht Ha Hold. destruct (incoming_new this time size h Hinv ltac:(lia) Hh Hhas Hseq Ha)
      as (this3 & -> & H3 & _ & _ & _ & Hwin). rewrite Hold in Hwin.
    pose proof (answer_spec this3 (unwrapped this h) h H3 Hseq Hh) as Hans. destruct (requested h) as [r|].
    + destruct Hans as (p & next & m' & Hr & Hp & Hm' & ->). destruct p as [p|]; [exfalso|done].
      destruct Hp as (Hp & Hn & _). apply (reports_last _ _ _ _ _ _ _ Hp), Hwin. lia.
    + rewrite Hans. cbn [mbind option_bind]. eexists. split; [done|]. rewrite (proj1 (feed_same _ _ _ _ _)). by apply Hwin.
Qed.

(** C22. Periodic feedback, when there is a start of the reports and the remote estimate can be
    built: Process reports every arrival from the start of the reports to the end of the window
    once, in order, in messages with consecutive numbers that each begin where the last one
    ended, with exact times modulo the wrap period, and moves the start behind the last packet
    reported; the loop takes at most as many rounds as the window has packets. In the one
    arrangement of [stuck] it does not end. *)
Theorem periodic_feedback (this : t) (fuel : nat) (now s : Z) (estimate : list RtcpPacket) :
  proxy_reachable this -> (process_fuel <= fuel)%nat -> send_periodic_feedback_ this = true ->
  periodic_window_start_seq_ this = Some s -> remote_estimate this = Some estimate ->
  (stuck this = false -> exists ps next this', Process fuel now this = Some (this', messages estimate ps)
     /\ covers (window this) (media_ssrc_ this) s (feedback_packet_count_ this) ps next
     /\ concat (map report_of ps) = arrivals true (window this) s next
     /\ (forall i, next <= i < last_of (window this) -> arrival (window this) i = 0)
     /\ (ps <> [] -> arrival (window this) (next - 1) <> 0)
     /\ window this' = window this /\ periodic_window_start_seq_ this' = Some next
     /\ feedback_packet_count_ this' = u8 (feedback_packet_count_ this + zlen ps))
  /\ (stuck this = true -> forall rounds, Process rounds now this = None).
Proof.
  intros Hinv%proxy_inv Hf Hp Hs He. split.
  - intros Hst. destruct (Process_spec fuel now this s estimate Hinv Hf Hp Hs He Hst) as (ps & next & E & Hcov & Hz).
    exists ps, next, (send_state ps next (ticked now this)). split; [done|]. split; [done|].
    split; [by apply (covers_window _ _ _ _ _ _ Hcov)|]. split; [done|]. split; [by apply (covers_next _ _ _ _ _ _ Hcov)|done].
  - intros Hst rounds. by apply Process_stuck.
Qed.

Lemma covers_member m ssrc ps stop seq : forall s count, covers m ssrc s count ps stop -> s <= seq < stop ->
  exists p i, In p ps /\ u16 (TransportFeedback.base_seq_no_ p + Z.of_nat i) = u16 seq
    /\ report_of p !! i = Some (expected true m seq).
Proof.
  induction ps as [|p ps IH]; intros s count; cbn [covers]; [lia|]. intros (next & Hp & Hps) Hseq.
  destruct (Z_lt_ge_dec seq next).
  - exists p, (Z.to_nat (seq - s)). split; [by left|].
    rewrite (reports_base _ _ _ _ _ _ _ Hp), (reports_arrivals _ _ _ _ _ _ _ Hp). split; [wordlia|].
    apply lookup_arrivals. lia.
  - destruct (IH next _ Hps) as (p' & i & Hin & Hr); [lia|]. exists p', i. split; [by right|done].
Qed.

(** C23. A packet that arrives is reported. Feedback is periodic, the arrival time is between 1
    and 2^52 - 1 ms, the header is in range, with a transport sequence number (unwrapped: within
    2^61 of 0) that was not received before and is not too old for the window, and without a
    feedback request. Then IncomingPacket sends nothing, and the next Process, if the remote
    estimate there can be built and the state is not the one arrangement of the finding (stuck:
    the only packet left to report is exactly 2^15 - 1 ahead), sends a message with the packet's
    transport sequence number and its arrival time modulo the wrap period. *)
Theorem arrival_is_reported {laws : ProxyServicesLaws rate} (this : t) (time size : Z) (h : RTPHeader) :
  proxy_reachable this -> send_periodic_feedback_ this = true -> 0 < time < 2 ^ 52 -> header_ok h ->
  hasTransportSequenceNumber h = true -> requested h = None -> small_seq (unwrapped this h) ->
  arrival (window this) (unwrapped this h) = 0 -> too_old (window this) (unwrapped this h) = false ->
  exists this', IncomingPacket time size h this = Some (this', [])
    /\ forall fuel now estimate, (process_fuel <= fuel)%nat -> remote_estimate this' = Some estimate -> stuck this' = false ->
       exists sent ps, Process fuel now this' = Some (sent, messages estimate ps)
         /\ exists p i, In p ps
            /\ u16 (TransportFeedback.base_seq_no_ p + Z.of_nat i) = transportSequenceNumber h
            /\ report_of p !! i = Some (Some ((1000 * time) mod wrap_period)).
Proof.
  intros Hr%proxy_inv Hper Ht Hh Hhas Hreq Hseq Ha Hold.
  destruct (incoming_new this time size h Hr ltac:(lia) Hh Hhas Hseq Ha) as (this3 & E & H3 & Hper3 & _ & _ & Hwin).
  rewrite Hold in Hwin. destruct Hwin as (Hseq3 & Hstart & _). destruct Hstart as (x & Hx & Hle); [lia|done|].
  pose proof (answer_spec this3 (unwrapped this h) h H3 Hseq Hh) as Hans. rewrite Hreq in Hans.
  rewrite E, Hans. cbn [mbind option_bind]. eexists. split; [done|]. intros fuel now estimate Hf He Hst.
  destruct (feed_same time size (unwrapped this h) h this3) as (Hw & Hs & Hp). rewrite Hx in Hs. rewrite Hper3, Hper in Hp.
  destruct (Process_spec fuel now _ x estimate (feed_inv time size (unwrapped this h) h _ H3) Hf Hp Hs He Hst)
    as (ps & next & E2 & Hcov & Hz). rewrite E2. eexists _, ps. split; [done|]. rewrite Hw in Hz, Hcov.
  assert (Hin : unwrapped this h < next).
  { destruct (Z_lt_ge_dec (unwrapped this h) next); [done|]. pose proof (arrival_inside (window this3) (unwrapped this h)) as Hin.
    rewrite Hz in Hseq3 by (split; [lia|apply Hin; lia]). lia. }
  destruct (covers_member _ _ _ _ (unwrapped this h) _ _ Hcov) as (p & i & H1 & H2 & H4); [lia|].
  exists p, i. split; [done|]. split.
  - rewrite H2. apply Unwrap_u16, Hh.
  - rewrite H4. unfold expected. rewrite Hseq3, (proj2 (Z.eqb_neq _ _)) by lia. done.
Qed.

End proxy.

(** ** A concrete run *)

(** The value nearest to the last one; times in microseconds; an estimator that records the
    sequence numbers it is shown. *)
#[global] Instance plain_services : ProxyServices bits_per_second := {|
  unwrapper := option Z;
  unwrapper_new := None;
  Unwrap v u := let x := match u with Some last => last + s16 (v - last) | None => v end in (Some x, x);
  Timestamp := Z;
  TimeDelta := Z;
  TimeDelta_zero := 0;
  TimeDelta_max := Z.max;
  Timestamp_plus := Z.add;
  GetAbsoluteSendTimeDelta now previous := Z.quot (sw 24 (now - previous) * 1000000) (2 ^ 18);
  estimator := list Z;
  OnReceivedPacket _ _ _ seq seqs := seq :: seqs;
  GetCurrentEstimate seqs := match seqs with [] => None | _ => Some (RemoteEstimate.Estimate (Bps 100000) (Bps 200000)) end;
  default_estimate := RemoteEstimate.Estimate (Bps 0) PlusInf;
  uninitialised := 0
|}.

#[global] Instance plain_laws : ProxyServicesLaws bits_per_second.
Proof.
  constructor. intros v u Hv. cbn. destruct u as [last|]; [|by apply u16_id].
  unfold s16, sw, u16. change (2 ^ 16) with 65536. unfold is_u16 in Hv. destruct (Z.ltb_spec ((v - last) mod 65536) (2 ^ (16 - 1))); dlia.
Qed.

Definition sample_header (seq : Z) (request : option FeedbackRequest) : RTPHeader :=
  Header 456 12 true seq request true 1000.

(** The state after packets with the given arrival times, numbers and requests. *)
Fixpoint after_packets (this : t) (l : list (Z * Z * option FeedbackRequest)) : option t :=
  match l with
  | [] => Some this
  | (time, seq, request) :: l =>
      let h := sample_header seq request in
      check ((0 <=? time) && (time <? 2 ^ 52) && (0 <=? seq) && (seq <? 65536)
        && (match request with Some r => (0 <=? sequence_count r) && (sequence_count r <? 2 ^ 15) | None => true end)
        && (Z.abs (unwrapped this h) <? 2 ^ 61)) ;;
      '(this, _) ← IncomingPacket time 100 h this;
      after_packets this l
  end.

Definition fresh_proxy : t := create (Config 500 100) 0 (Some []).

Lemma after_packets_reachable l : forall this this', proxy_reachable this ->
  after_packets this l = Some this' -> proxy_reachable this'.
Proof.
  induction l as [|[[time q] request] l IH]; intros this this' Hr; cbn [after_packets]; [by intros [= <-]|].
  set (h := sample_header q request). cbv zeta. destruct (check _) eqn:Ec; [|done]. cbn [mbind option_bind].
  destruct (IncomingPacket time 100 h this) as [[next sent]|] eqn:E; [|done]. cbn [mbind option_bind]. apply IH.
  eapply proxy_next; [done|]. apply (step_incoming this time 100 h next sent); [..|done].
  all: unfold check in Ec; destruct (_ && _) eqn:Eb in Ec; [|done]; rewrite !andb_true_iff in Eb.
  - lia.
  - constructor; [done|cbn; unfold is_u16; lia|]. cbn. intros r ->. unfold request_ok. lia.
  - unfold small_seq. lia.
Qed.

Definition proxy_after (l : list (Z * Z * option FeedbackRequest)) : t := default fresh_proxy (after_packets fresh_proxy l).

Lemma proxy_after_reachable l : proxy_reachable (proxy_after l).
Proof.
  unfold proxy_after. destruct (after_packets fresh_proxy l) as [this|] eqn:E; cbn.
  - eapply after_packets_reachable; [|exact E]. by constructor.
  - by constructor.
Qed.

(** Packets 10 and 12 have arrived. *)
Definition two_packets : t := proxy_after [(1000, 10, None); (1100, 12, None)].

Lemma two_packets_window : packet_arrival_times_ two_packets = PacketArrivalTimeMap.Mk [1000; 0; 1100] 10 true.
Proof. vm_compute. reflexivity. Qed.

Lemma two_packets_periodic : send_periodic_feedback_ two_packets = true.
Proof. vm_compute. reflexivity. Qed.

Lemma two_packets_start : periodic_window_start_seq_ two_packets = Some 10.
Proof. vm_compute. reflexivity. Qed.

Lemma two_packets_estimate : exists e, remote_estimate two_packets = Some [EstimatePacket e].
Proof. eexists. vm_compute. reflexivity. Qed.

Lemma two_packets_not_stuck : stuck two_packets = false.
Proof.
  apply not_true_iff_false. rewrite (stuck_spec _ 10 two_packets_start), two_packets_window. change (last_of _) with 13. lia.
Qed.

Lemma two_packets_reachable : proxy_reachable two_packets.
Proof. apply proxy_after_reachable. Qed.

Lemma periodic_feedback_witness :
  exists ps this' estimate, Process process_fuel 5000 two_packets = Some (this', messages [EstimatePacket estimate] ps)
    /\ concat (map report_of ps) = [Some 1000000; None; Some 1100000] /\ periodic_window_start_seq_ this' = Some 13.
Proof.
  destruct two_packets_estimate as [e He].
  destruct (periodic_feedback two_packets process_fuel 5000 10 [EstimatePacket e] two_packets_reachable (Nat.le_refl _)
    two_packets_periodic two_packets_start He) as [H _]. destruct (H two_packets_not_stuck) as (ps & next & this' & E & Hcov & Hrep & Hz & Hlast & _ & Hs' & _).
  exists ps, this', e. split; [exact E|]. rewrite two_packets_window in *. change (last_of _) with 13 in Hz.
  assert (Hn : next = 13).
  { destruct (Z_lt_ge_dec next 13) as [Hlt|Hge].
    - destruct (covers_window _ _ _ _ _ _ Hcov) as [Hle _]. specialize (Hz 12 ltac:(lia)). vm_compute in Hz. discriminate.
    - assert (Hne : ps <> []) by (intros ->; cbn in Hcov; lia).
      pose proof (arrival_inside _ _ (Hlast Hne)) as Hin. change (last_of _) with 13 in Hin. lia. }
  subst next. split; [|exact Hs']. rewrite Hrep. vm_compute. reflexivity.
Defined.

(** Packets 0 and 32767, the second with a request for itself only. *)
Definition hung_proxy : t := proxy_after [(1000, 0, None); (1001, 32767, Some (Request true 1))].

Lemma hung_proxy_times : packet_arrival_times_ hung_proxy = PacketArrivalTimeMap.Mk [1001] 32767 true.
Proof. vm_compute. reflexivity. Qed.

Lemma hung_proxy_start : periodic_window_start_seq_ hung_proxy = Some 0.
Proof. vm_compute. reflexivity. Qed.

Lemma hung_proxy_periodic : send_periodic_feedback_ hung_proxy = true.
Proof. vm_compute. reflexivity. Qed.

Lemma hung_proxy_stuck : stuck hung_proxy = true.
Proof.
  apply (stuck_spec _ 0 hung_proxy_start). rewrite hung_proxy_times. change (last_of _) with 32768.
  split; [done|]. split; [done|]. split; [done|]. intros i Hi. apply arrival_outside. left. cbn. lia.
Qed.

Lemma hung_proxy_reachable : proxy_reachable hung_proxy.
Proof. apply proxy_after_reachable. Qed.

(** A request answered between two periodic reports can leave the proxy in that arrangement. *)
Lemma process_hangs rounds : Process rounds 5000 hung_proxy = None.
Proof.
  apply (Process_stuck rounds 5000 hung_proxy); [apply proxy_inv, hung_proxy_reachable|apply hung_proxy_periodic|apply hung_proxy_stuck].
Qed.

(** Packet 14 asks for the last four packets. *)
Definition asking : RTPHeader := sample_header 14 (Some (Request true 4)).

Lemma asking_ok : header_ok asking.
Proof. constructor; [done|done|]. intros r [= <-]. done. Qed.

Lemma asking_seq : unwrapped two_packets asking = 14.
Proof. vm_compute. reflexivity. Qed.

Lemma incoming_packet_witness :
  exists p this', IncomingPacket 1200 100 asking two_packets = Some (this', [[FeedbackPacket p]])
    /\ TransportFeedback.base_seq_no_ p = 11 /\ TransportFeedback.feedback_seq_ p = 0.
Proof.
  destruct (incoming_packet two_packets 1200 100 asking two_packets_reachable asking_ok) as (_ & _ & H & _);
    [reflexivity|rewrite asking_seq; done|]. rewrite asking_seq, two_packets_window in H.
  destruct H as (this' & sent & m' & added & E & Hm' & _ & Hadd & Hres); [done|vm_compute; reflexivity|vm_compute; reflexivity|].
  change (requested asking) with (Some (Request true 4)) in Hres. destruct Hres as (p & next & -> & Hp & _).
  exists p, this'. split; [exact E|]. split; [exact (reports_base _ _ _ _ _ _ _ Hp)|exact (reports_count _ _ _ _ _ _ _ Hp)].
Defined.

(** Packet 11 arrives late. *)
Definition late : RTPHeader := sample_header 11 None.

Lemma late_ok : header_ok late.
Proof. by constructor. Qed.

Lemma late_seq : unwrapped two_packets late = 11.
Proof. vm_compute. reflexivity. Qed.

Lemma arrival_is_reported_witness :
  exists this', IncomingPacket 1200 100 late two_packets = Some (this', [])
    /\ forall fuel now estimate, (process_fuel <= fuel)%nat -> remote_estimate this' = Some estimate -> stuck this' = false ->
       exists sent ps, Process fuel now this' = Some (sent, messages estimate ps)
         /\ exists p i, In p ps /\ u16 (TransportFeedback.base_seq_no_ p + Z.of_nat i) = 11
            /\ report_of p !! i = Some (Some 1200000).
Proof.
  apply (arrival_is_reported two_packets 1200 100 late two_packets_reachable two_packets_periodic).
  - lia.
  - exact late_ok.
  - reflexivity.
  - reflexivity.
  - by rewrite late_seq.
  - rewrite late_seq, two_packets_window. reflexivity.
  - rewrite late_seq, two_packets_window. reflexivity.
Defined.

(** A packet that is too old for the window, with a request: there is nothing to send, and
    the null message is sent (in a debug build, an assertion fails). *)
Lemma old_request_fails :
  match IncomingPacket 1003 100 (sample_header 25000 (Some (Request true 1)))
    (proxy_after [(1000, 30000, None); (1001, 60000, None); (1002, 40000, None)]) with
  | None => True
  | Some _ => False
  end.
Proof. vm_compute. exact I. Qed.
