(* ===== verification/StringView.v ===== *)
(** * std::string_view and std::from_chars, as the SIP laboratory uses them

    Texts are lists of octets.  [None] of a search is npos; [substr] fails where the library
    throws out_of_range. *)

From S2P Require Import Prelude.
From Stdlib Require Import Ascii.
From Stdlib Require Import (notations) String.

Module Sv.

(** A literal. *)
Definition lit (s : String.string) : bytes := map (fun a => Z.of_N (N_of_ascii a)) (String.list_ascii_of_string s).

Fixpoint starts_with (p s : bytes) : bool :=
  match p, s with
  | [], _ => true
  | a :: p, b :: s => (a =? b) && starts_with p s
  | _ :: _, [] => false
  end.

(** The first place, counted from [i], where [p] occurs. *)
Fixpoint find_at (p s : bytes) (i : nat) : option nat :=
  if starts_with p s then Some i else match s with [] => None | _ :: s => find_at p s (S i) end.

(** s.find(p, pos) *)
Definition find (s p : bytes) (pos : nat) : option nat := if (length s <? pos)%nat then None else find_at p (drop pos s) pos.

(** s.substr(pos, n); without [n] up to the end. *)
Definition substr (s : bytes) (pos : nat) (n : option nat) : option bytes :=
  check (pos <=? length s)%nat ;; Some (match n with Some n => take n (drop pos s) | None => drop pos s end).

(** s.find_first_not_of, s.find_last_not_of and s.find_first_of for a predicate on characters. *)
Fixpoint find_first_at (f : Z -> bool) (s : bytes) (i : nat) : option nat :=
  match s with
  | [] => None
  | c :: s => if f c then Some i else find_first_at f s (S i)
  end.

Definition find_first (f : Z -> bool) (s : bytes) : option nat := find_first_at f s 0.

Definition find_last (f : Z -> bool) (s : bytes) : option nat := (fun i => length s - 1 - i)%nat <$> find_first f (rev s).

Definition is_digit (c : Z) : bool := (48 <=? c) && (c <=? 57).

Definition digits_value (l : bytes) : Z := fold_left (fun n c => n * 10 + (c - 48)) l 0.

Fixpoint span (f : Z -> bool) (s : bytes) : bytes * bytes :=
  match s with
  | [] => ([], [])
  | c :: s' => if f c then let '(a, b) := span f s' in (c :: a, b) else ([], s)
  end.

(** std::from_chars on a range for an unsigned int: the value and the rest behind [ptr]; None is
    an error code (no digit, or out of range). *)
Definition from_chars (s : bytes) : option (Z * bytes) :=
  let '(digits, rest) := span is_digit s in
  match digits with
  | [] => None
  | _ => if digits_value digits <? 4294967296 then Some (digits_value digits, rest) else None
  end.

End Sv.

Abbreviation CRLF := ([13; 10] : bytes).

(** A space or a tab. *)
Definition is_blank (c : Z) : bool := (c =? 32) || (c =? 9).

(** ** What they find *)

Lemma starts_with_app p s : Sv.starts_with p (p ++ s) = true.
Proof. induction p as [|a p IH]; [done|]. cbn. by rewrite Z.eqb_refl, IH. Qed.

Lemma starts_with_spec p s : Sv.starts_with p s = true <-> exists t, s = p ++ t.
Proof.
  split; [|intros [t ->]; apply starts_with_app]. revert s. induction p as [|a p IH]; intros s; [by exists s|]. destruct s as [|b s]; [done|]. cbn.
  intros [->%Z.eqb_eq [t ->]%IH]%andb_true_iff. by exists t.
Qed.

(** [p] does not occur before the place [k] of [s]. *)
Definition not_before (p s : bytes) (k : nat) : Prop := forall i, (i < k)%nat -> Sv.starts_with p (drop i s) = false.

Lemma find_at_spec p s i j : Sv.find_at p s i = Some j <->
  exists k, j = (i + k)%nat /\ Sv.starts_with p (drop k s) = true /\ (k <= length s)%nat /\ not_before p s k.
Proof.
  revert i j. induction s as [|c s IH]; intros i j.
  - cbn [Sv.find_at]. destruct (Sv.starts_with p []) eqn:E.
    + split; [intros [= <-]; exists 0%nat; splits; [lia|done|done|intros ? ?; lia]|]. intros (k & -> & _ & Hk & _). cbn in Hk. f_equal. lia.
    + split; [done|]. intros (k & -> & Hs & Hk & _). cbn in Hk. assert (k = 0%nat) as -> by lia. rewrite drop_0 in Hs. congruence.
  - cbn [Sv.find_at]. destruct (Sv.starts_with p (c :: s)) eqn:E.
    + split; [intros [= <-]; exists 0%nat; splits; [lia|done|lia|intros ? ?; lia]|]. intros (k & -> & _ & _ & Hn).
      destruct k; [f_equal; lia|]. specialize (Hn 0%nat ltac:(lia)). rewrite drop_0 in Hn. congruence.
    + rewrite IH. split.
      * intros (k & -> & Hs & Hk & Hn). exists (S k). splits; [lia|done|cbn; lia|]. intros [|m] Hm; [by rewrite drop_0|]. apply Hn. lia.
      * intros (k & -> & Hs & Hk & Hn). destruct k as [|k]; [rewrite drop_0 in Hs; congruence|]. cbn in Hs, Hk. exists k. splits; [lia|done|lia|].
        intros m Hm. apply (Hn (S m)). lia.
Qed.

Lemma find_Some s p pos j : Sv.find s p pos = Some j <->
  exists a b, drop pos s = a ++ p ++ b /\ (pos <= length s)%nat /\ j = (pos + length a)%nat /\ not_before p (a ++ p ++ b) (length a).
Proof.
  unfold Sv.find. destruct (Nat.ltb_spec (length s) pos) as [Hlt|Hge].
  - split; [done|]. intros (a & b & _ & Hle & _). lia.
  - rewrite find_at_spec. split.
    + intros (k & -> & Hs & Hk & Hn). apply starts_with_spec in Hs as [t Ht]. exists (take k (drop pos s)), t.
      assert (E : take k (drop pos s) ++ p ++ t = drop pos s) by (rewrite <- Ht; apply take_drop).
      rewrite length_take_le by done. rewrite E. splits; done.
    + intros (a & b & E & _ & -> & Hn). exists (length a). rewrite E. splits; try done; [|rewrite !length_app; lia].
      rewrite drop_app_length. apply starts_with_app.
Qed.

Lemma find_None s p pos : (pos <= length s)%nat -> Sv.find s p pos = None <-> (forall a b, drop pos s <> a ++ p ++ b).
Proof.
  intros Hle. split.
  - intros Hn a b E. unfold Sv.find in Hn. destruct (Nat.ltb_spec (length s) pos); [lia|]. rewrite E in Hn. clear -Hn.
    revert Hn. generalize pos. induction a as [|c a IH]; intros i Hn.
    + cbn [app] in Hn. destruct (p ++ b) eqn:E; cbn [Sv.find_at] in Hn; rewrite <- E, starts_with_app in Hn; done.
    + cbn [app Sv.find_at] in Hn. destruct (Sv.starts_with _ _); [done|]. by eapply IH.
  - intros Hno. destruct (Sv.find s p pos) as [j|] eqn:E; [|done]. apply find_Some in E as (a & b & E & _). by destruct (Hno a b).
Qed.

Lemma substr_le s pos n : (pos <= length s)%nat -> Sv.substr s pos n = Some (match n with Some n => take n (drop pos s) | None => drop pos s end).
Proof. intros. unfold Sv.substr. rewrite check_then; [done|]. by apply Nat.leb_le. Qed.

(** One character. *)
Lemma not_before_char c a b : c ∉ a -> not_before [c] (a ++ [c] ++ b) (length a).
Proof.
  intros Hn i Hi. destruct (lookup_lt_is_Some_2 a i Hi) as [d Hd]. rewrite drop_app_le by lia.
  rewrite (drop_S a d i Hd). cbn. destruct (Z.eqb_spec c d) as [->|]; [|done]. exfalso. apply Hn. by eapply list_elem_of_lookup_2.
Qed.

Lemma not_before_notin c a s : not_before [c] (a ++ s) (length a) -> c ∉ a.
Proof.
  intros Hn Hin. apply list_elem_of_lookup in Hin as [i Hi]. pose proof (lookup_lt_Some _ _ _ Hi) as Hlt. specialize (Hn i Hlt).
  rewrite drop_app_le in Hn by lia. rewrite (drop_S a c i Hi) in Hn. cbn in Hn. by rewrite Z.eqb_refl in Hn.
Qed.

Lemma find_char a c b : c ∉ a -> Sv.find (a ++ c :: b) [c] 0 = Some (length a).
Proof. intros Hn. apply find_Some. exists a, b. splits; [done|lia|done|by apply not_before_char]. Qed.

Lemma find_char_None s c : c ∉ s -> Sv.find s [c] 0 = None.
Proof.
  intros Hn. apply find_None; [lia|]. rewrite drop_0. intros a b ->. apply Hn. apply elem_of_app. right. by left.
Qed.

Lemma find_char_inv s c j : Sv.find s [c] 0 = Some j -> exists a b, s = a ++ c :: b /\ c ∉ a /\ j = length a.
Proof. intros (a & b & E & _ & -> & Hn)%find_Some. rewrite drop_0 in E. exists a, b. splits; [done|by eapply not_before_notin|done]. Qed.

Lemma find_char_absent s c : Sv.find s [c] 0 = None -> c ∉ s.
Proof. intros Hf Hin. rewrite find_None in Hf by lia. apply list_elem_of_split in Hin as (a & b & E). by apply (Hf a b). Qed.

Lemma find_shift s p pos : (pos <= length s)%nat -> Sv.find s p pos = (fun i => pos + i)%nat <$> Sv.find (drop pos s) p 0.
Proof.
  intros Hle. destruct (Sv.find (drop pos s) p 0) as [j|] eqn:E.
  - apply find_Some in E as (a & b & E & _ & -> & Hn). rewrite drop_0 in E. apply find_Some. by exists a, b.
  - rewrite find_None, drop_0 in E by lia. by apply find_None.
Qed.
