(* ===== verification/SipMessage.v ===== *)
(** * The SIP message parser: basic/src/sip_message.cpp

    A result of type [option (option A)] is None where the code would throw (or the fuel ran
    out), [Some None] for nullopt.  Views into the input are the texts they show. *)

From S2P Require Import Prelude.
From S2P Require Import StringView.
From Stdlib Require Import (notations) String.

(** sip_message.hpp *)
Record SipHeader := MkSipHeader { name : bytes; value : bytes }.

Inductive Kind := request | response.

Record SipMessage := MkSipMessage {
  kind : Kind;
  method : bytes;
  request_uri : bytes;
  status_code : Z;
  headers : list SipHeader
}.

Module SipParser.

(** remove_prefix and remove_suffix while the end is blank. *)
Fixpoint trim_front (s : bytes) : bytes :=
  match s with
  | [] => []
  | c :: s' => if is_blank c then trim_front s' else s
  end.

Definition trim_back (s : bytes) : bytes := rev (trim_front (rev s)).

Definition trim (s : bytes) : bytes := trim_back (trim_front s).

(** [a], [b] and [c] of split_space, None when it returns false. *)
Definition split_space (line : bytes) : option (option (bytes * bytes * bytes)) :=
  match Sv.find line [32] 0 with
  | None => Some None
  | Some first =>
      match Sv.find line [32] (first + 1) with
      | None => Some None
      | Some second =>
          match Sv.find line [32] (second + 1) with
          | Some _ => Some None
          | None =>
              a ← Sv.substr line 0 (Some first);
              b ← Sv.substr line (first + 1) (Some (second - first - 1)%nat);
              c ← Sv.substr line (second + 1) None;
              Some (match a, b, c with
                    | _ :: _, _ :: _, _ :: _ => Some (a, b, c)
                    | _, _, _ => None
                    end)
          end
      end
  end.

(** Every line break inside a message must be CRLF: the loop over the characters. *)
Fixpoint line_breaks_ok (prev : option Z) (segment : bytes) : bool :=
  match segment with
  | [] => true
  | c :: rest =>
      if (c =? 13) && match rest with [] => true | d :: _ => negb (d =? 10) end then false else
      if (c =? 10) && match prev with None => true | Some p => negb (p =? 13) end then false else
      line_breaks_ok (Some c) rest
  end.

(** The start line. *)
Definition parse_start_line (start_line : bytes) : option (option SipMessage) :=
  if Sv.starts_with (Sv.lit "SIP/2.0 ") start_line then
    after_version ← Sv.substr start_line 8 None;
    if (length after_version <? 3)%nat then Some None else
    code_view ← Sv.substr after_version 0 (Some 3%nat);
    match Sv.from_chars code_view with
    | None => Some None
    | Some (code, rest) =>
        if negb (length rest =? 0)%nat || (code <? 100) || (code >? 699) then Some None else
        if (3 <? length after_version)%nat && match after_version !! 3%nat with Some c => negb (c =? 32) | None => true end then Some None else
        Some (Some (MkSipMessage response [] [] code []))
    end
  else
    parts ← split_space start_line;
    Some (match parts with
          | None => None
          | Some (method, uri, version) =>
              if decide (version = Sv.lit "SIP/2.0") then Some (MkSipMessage request method uri 0 []) else None
          end).

(** A header line. *)
Definition parse_header_line (line : bytes) : option (option SipHeader) :=
  match Sv.find line (Sv.lit ":") 0 with
  | None => Some None
  | Some colon =>
      before ← Sv.substr line 0 (Some colon);
      match trim before with
      | [] => Some None
      | name => after ← Sv.substr line (colon + 1) None; Some (Some (MkSipHeader name (trim after)))
      end
  end.

(** The text before the first CRLF and what is behind it; without a CRLF all of it is the line. *)
Definition cut_line (text : bytes) : option (bytes * bytes) :=
  match Sv.find text CRLF 0 with
  | None => Some (text, [])
  | Some line_end =>
      line ← Sv.substr text 0 (Some line_end);
      rest ← Sv.substr text (line_end + 2) None;
      Some (line, rest)
  end.

(** while (!rest.empty()) *)
Fixpoint parse_headers_loop (fuel : nat) (rest : bytes) (headers : list SipHeader) : option (option (list SipHeader)) :=
  match rest with
  | [] => Some (Some headers)
  | _ =>
      match fuel with
      | O => None
      | S fuel =>
          '(line, rest) ← cut_line rest;
          match line with
          | [] => Some (match rest with [] => Some headers | _ => None end)
          | _ =>
              header ← parse_header_line line;
              match header with
              | None => Some None
              | Some h => parse_headers_loop fuel rest (headers ++ [h])
              end
          end
      end
  end.

Definition parse_one_message (segment : bytes) : option (option SipMessage) :=
  match segment with
  | [] => Some None
  | _ =>
      if negb (line_breaks_ok None segment) then Some None else
      '(start_line, rest) ← cut_line segment;
      match start_line with
      | [] => Some None
      | _ =>
          start ← parse_start_line start_line;
          match start with
          | None => Some None
          | Some msg =>
              hs ← parse_headers_loop (length rest) rest [];
              Some (match hs with
                    | None => None
                    | Some hs => Some (MkSipMessage (kind msg) (method msg) (request_uri msg) (status_code msg) hs)
                    end)
          end
      end
  end.

(** while (pos < trace.size()) *)
Fixpoint series_loop (fuel : nat) (trace : bytes) (pos : nat) (messages : list SipMessage) : option (option (list SipMessage)) :=
  if (pos <? length trace)%nat then
    match fuel with
    | O => None
    | S fuel =>
        let sep := Sv.find trace (CRLF ++ CRLF) pos in
        segment ← match sep with None => Sv.substr trace pos None | Some sep => Sv.substr trace pos (Some (sep - pos)%nat) end;
        match segment with
        | [] => Some None
        | _ =>
            parsed ← parse_one_message segment;
            match parsed with
            | None => Some None
            | Some m =>
                match sep with
                | None => Some (Some (messages ++ [m]))
                | Some sep => series_loop fuel trace (sep + 4) (messages ++ [m])
                end
            end
        end
    end
  else Some (Some messages).

Definition parse_message_series (trace : bytes) : option (option (list SipMessage)) :=
  match trace with
  | [] => Some None
  | _ =>
      messages ← series_loop (length trace) trace 0 [];
      Some (match messages with Some [] => None | _ => messages end)
  end.

(** SipHeader::get_address *)
Definition get_address (this : SipHeader) : option (option bytes) :=
  let value_view := value this in
  match value_view with
  | [] => Some None
  | _ =>
      match Sv.find value_view (Sv.lit "<") 0 with
      | None =>
          let tag_pos := Sv.find value_view (Sv.lit ";tag=") 0 in
          address ← Sv.substr value_view 0 (Some (match tag_pos with None => length value_view | Some tag_pos => tag_pos end));
          Some (Some address)
      | Some address_pos =>
          match Sv.find value_view (Sv.lit ">") (address_pos + 1) with
          | None => Some None
          | Some address_end =>
              if (address_pos + 1 =? address_end)%nat then Some None else
              address ← Sv.substr value_view (address_pos + 1) (Some (address_end - address_pos - 1)%nat);
              Some (Some address)
          end
      end
  end.

(** SipMessage::find_header *)
Fixpoint find_in (hs : list SipHeader) (n : bytes) : option SipHeader :=
  match hs with
  | [] => None
  | h :: hs => if decide (name h = n) then Some h else find_in hs n
  end.

Definition find_header (this : SipMessage) (n : bytes) : option SipHeader := find_in (headers this) n.

End SipParser.

(** ** What the pieces compute *)

(** A line holds neither CR nor LF. *)
Definition line_free (l : bytes) : Prop := (13 ∉ l) /\ 10 ∉ l.

(** The lines of a text, CRLF between them. *)
Fixpoint join_lines (l : bytes) (ls : list bytes) : bytes :=
  match ls with
  | [] => l
  | l' :: ls => l ++ CRLF ++ join_lines l' ls
  end.

(** [t] is [s] without the blanks at its ends. *)
Definition trimmed (s t : bytes) : Prop :=
  exists a b, s = a ++ t ++ b /\ Forall is_blank a /\ Forall is_blank b /\
    (forall c t', t = c :: t' -> is_blank c = false) /\ (forall c t', t = t' ++ [c] -> is_blank c = false).

Lemma trim_front_spec s : exists a, s = a ++ SipParser.trim_front s /\ Forall is_blank a /\
  forall c t, SipParser.trim_front s = c :: t -> is_blank c = false.
Proof.
  induction s as [|c s (a & E & Ha & Hc)]; [by exists []|]. cbn. destruct (is_blank c) eqn:Eb.
  - exists (c :: a). cbn. splits; [congruence| |done]. constructor; [by rewrite Eb|done].
  - exists []. splits; [done|done|]. by intros ? ? [= <- _].
Qed.

Lemma trim_back_spec s : exists b, s = SipParser.trim_back s ++ b /\ Forall is_blank b /\
  forall c t, SipParser.trim_back s = t ++ [c] -> is_blank c = false.
Proof.
  destruct (trim_front_spec (rev s)) as (b & E & Hb & Hc). exists (rev b). unfold SipParser.trim_back. splits.
  - rewrite <- rev_app_distr, <- E. by rewrite rev_involutive.
  - by apply List.Forall_rev.
  - intros c t Ec. apply (f_equal (@rev Z)) in Ec. rewrite rev_involutive, rev_app_distr in Ec. cbn in Ec. by eapply Hc.
Qed.

Lemma sip_trim_spec s : trimmed s (SipParser.trim s).
Proof.
  destruct (trim_front_spec s) as (a & Ea & Ha & Hfa). destruct (trim_back_spec (SipParser.trim_front s)) as (b & Eb & Hb & Hfb).
  unfold SipParser.trim. exists a, b. splits; [congruence|done|done| |done].
  intros c t' Ec. rewrite Ec in Eb. cbn in Eb. by eapply Hfa.
Qed.

Lemma trim_front_blank a s : Forall is_blank a -> SipParser.trim_front (a ++ s) = SipParser.trim_front s.
Proof. induction a as [|c a IH]; [done|]. intros [Hc Ha]%list.Forall_cons. cbn. apply Is_true_eq_true in Hc. rewrite Hc. by apply IH. Qed.

Lemma trim_front_id s : (forall c t, s = c :: t -> is_blank c = false) -> SipParser.trim_front s = s.
Proof. destruct s as [|c s]; [done|]. intros H. cbn. by rewrite (H c s eq_refl). Qed.

Lemma trim_unique s t : trimmed s t -> SipParser.trim s = t.
Proof.
  intros (a & b & -> & Ha & Hb & Hf & Hl). unfold SipParser.trim. rewrite trim_front_blank by done.
  destruct t as [|c t].
  - cbn [app]. rewrite <- (app_nil_r b), trim_front_blank by done. done.
  - rewrite trim_front_id by (intros ? ? [= <- _]; by eapply Hf). unfold SipParser.trim_back.
    rewrite rev_app_distr, trim_front_blank by (by apply List.Forall_rev).
    rewrite trim_front_id; [apply rev_involutive|]. intros d u E. apply (f_equal (@rev Z)) in E. rewrite rev_involutive in E. cbn in E. by eapply Hl.
Qed.

(** ** Lines *)

Lemma line_breaks_ok_free l rest prev : line_free l ->
  SipParser.line_breaks_ok prev (l ++ CRLF ++ rest) = SipParser.line_breaks_ok (Some 10) rest.
Proof.
  intros [H13 H10]. revert prev. induction l as [|c l IH]; intros prev; [by cbn|]. rewrite not_elem_of_cons in H13, H10. destruct H13, H10.
  cbn [app SipParser.line_breaks_ok]. rewrite (proj2 (Z.eqb_neq c 13)), (proj2 (Z.eqb_neq c 10)) by congruence. cbn. by apply IH.
Qed.

Lemma line_breaks_ok_last l prev : line_free l -> SipParser.line_breaks_ok prev l = true.
Proof.
  intros [H13 H10]. revert prev. induction l as [|c l IH]; intros prev; [done|]. rewrite not_elem_of_cons in H13, H10. destruct H13, H10.
  cbn [SipParser.line_breaks_ok]. rewrite (proj2 (Z.eqb_neq c 13)), (proj2 (Z.eqb_neq c 10)) by congruence. cbn. by apply IH.
Qed.

(** The loop over the characters accepts the texts made of lines that CRLF ends. *)
Lemma line_breaks_ok_spec s prev : prev <> Some 13 ->
  SipParser.line_breaks_ok prev s = true <-> exists l ls, s = join_lines l ls /\ Forall line_free (l :: ls).
Proof.
  intros Hp. split.
  - revert prev Hp. induction s as [s IH] using (induction_ltof1 _ (@length Z)). unfold ltof in IH. intros prev Hp Hok.
    destruct s as [|c s]; [exists [], []; split; [done|]; constructor; [split; apply not_elem_of_nil|done]|].
    cbn in Hok. destruct (Z.eqb_spec c 13) as [->|H13].
    + destruct s as [|d s]; [done|]. destruct (Z.eqb_spec d 10) as [->|]; [|done]. cbn in Hok.
      destruct (IH s ltac:(cbn; lia) (Some 10) ltac:(done) Hok) as (l & ls & -> & Hf). exists [], (l :: ls). split; [done|].
      constructor; [split; apply not_elem_of_nil|done].
    + destruct (Z.eqb_spec c 10) as [->|H10].
      { destruct prev as [p|]; cbn in Hok; [|done]. destruct (Z.eqb_spec p 13) as [->|]; [by destruct Hp|done]. }
      cbn in Hok. destruct (IH s ltac:(cbn; lia) (Some c) ltac:(congruence) Hok) as (l & ls & -> & Hf).
      exists (c :: l), ls. split; [by destruct ls|]. apply list.Forall_cons in Hf as [[Hf1 Hf2] Hls]. constructor; [|done].
      split; apply not_elem_of_cons; split; done || congruence.
  - intros (l & ls & -> & Hf). revert l prev Hp Hf. induction ls as [|l' ls IH]; intros l prev Hp [Hl Hls]%list.Forall_cons.
    + by apply line_breaks_ok_last.
    + cbn [join_lines]. rewrite line_breaks_ok_free by done. by apply IH.
Qed.

Lemma find_at_skip q l s i : (13 ∉ l) -> Sv.find_at (13 :: q) (l ++ s) i = Sv.find_at (13 :: q) s (i + length l).
Proof.
  revert i. induction l as [|c l IH]; intros i H13; [cbn; f_equal; lia|]. apply not_elem_of_cons in H13 as [Hc H13].
  cbn [app Sv.find_at Sv.starts_with]. rewrite (proj2 (Z.eqb_neq 13 c)) by done. cbn [andb]. rewrite IH by done. f_equal. cbn. lia.
Qed.

Lemma find_start s p : Sv.find s p 0 = Sv.find_at p s 0.
Proof. unfold Sv.find. by rewrite drop_0. Qed.

Lemma cut_line_last l : line_free l -> SipParser.cut_line l = Some (l, []).
Proof. intros [H13 _]. unfold SipParser.cut_line. rewrite find_start. rewrite <- (app_nil_r l) at 1. by rewrite find_at_skip. Qed.

Lemma cut_line_more l rest : line_free l -> SipParser.cut_line (l ++ CRLF ++ rest) = Some (l, rest).
Proof.
  intros [H13 _]. unfold SipParser.cut_line. rewrite find_start, find_at_skip by done. cbn [app Sv.find_at Sv.starts_with Z.eqb Pos.eqb andb].
  rewrite !substr_le by (rewrite ?length_app; cbn; lia). cbn [mbind option_bind Nat.add]. rewrite drop_0, take_app_length.
  rewrite drop_app_ge by lia. by replace (length l + 2 - length l)%nat with 2%nat by lia.
Qed.

Abbreviation SEP := (CRLF ++ CRLF).

(** A blank line is not inside a text of non-empty lines. *)
Lemma find_sep_skip l ls s i : Forall line_free (l :: ls) -> Forall (fun l => l <> []) ls ->
  Sv.find_at SEP (join_lines l ls ++ s) i = Sv.find_at SEP s (i + length (join_lines l ls)).
Proof.
  revert l i. induction ls as [|l' ls IH]; intros l i [[H13 H10] Hf]%list.Forall_cons Hne.
  - cbn [join_lines]. by apply find_at_skip.
  - cbn [join_lines]. rewrite <- !app_assoc. apply list.Forall_cons in Hne as [Hn Hne].
    change SEP with (13 :: [10; 13; 10]) at 1. rewrite find_at_skip by done.
    transitivity (Sv.find_at SEP (join_lines l' ls ++ s) (i + length l + 2)).
    + destruct l' as [|c l']; [done|]. assert (Hc : c <> 13). { apply list.Forall_cons in Hf as [[H _] _]. apply not_elem_of_cons in H. naive_solver. }
      assert (E : exists t, join_lines (c :: l') ls ++ s = c :: t) by (destruct ls; by eexists). destruct E as [t ->].
      cbn [app Sv.find_at Sv.starts_with]. rewrite (proj2 (Z.eqb_neq 13 c)) by done. cbn [Z.eqb Pos.eqb andb].
      rewrite !(Nat.add_succ_r _ 1), !(Nat.add_succ_r _ 0), Nat.add_0_r. done.
    + rewrite IH by done. f_equal. rewrite !length_app. cbn. lia.
Qed.
