(* ===== verification/SipGrammar.v ===== *)
(** * The language that the SIP message parser accepts

    The grammar of a trace as relations on texts; parse_message_series returns a result for
    every text, and it is the messages the grammar reads in the text. *)

From S2P Require Import Prelude.
From S2P Require Import StringView.
From S2P Require Import SipMessage.
From Stdlib Require Import (notations) String.

(** ** The grammar *)

Inductive StartLine : bytes -> SipMessage -> Prop :=
| request_line m u : m <> [] -> u <> [] -> (32 ∉ m) -> (32 ∉ u) -> m <> Sv.lit "SIP/2.0" ->
    StartLine (m ++ 32 :: u ++ 32 :: Sv.lit "SIP/2.0") (MkSipMessage request m u 0 [])
| status_line digits phrase : length digits = 3%nat -> Forall Sv.is_digit digits -> 100 <= Sv.digits_value digits <= 699 ->
    phrase = [] \/ (exists p, phrase = 32 :: p) ->
    StartLine (Sv.lit "SIP/2.0 " ++ digits ++ phrase) (MkSipMessage response [] [] (Sv.digits_value digits) []).

(** A name, a colon and a value, blanks around both dropped. *)
Definition HeaderLine (line : bytes) (h : SipHeader) : Prop :=
  exists n v, line = n ++ 58 :: v /\ (58 ∉ n) /\ trimmed n (name h) /\ name h <> [] /\ trimmed v (value h).

Definition with_headers (m : SipMessage) (hs : list SipHeader) : SipMessage :=
  MkSipMessage (kind m) (method m) (request_uri m) (status_code m) hs.

(** A start line and the header lines under it. *)
Definition Message (segment : bytes) (m : SipMessage) : Prop :=
  exists start hls msg hs, Forall line_free (start :: hls) /\ segment = join_lines start hls /\
    StartLine start msg /\ Forall2 HeaderLine hls hs /\ m = with_headers msg hs.

(** Messages with a blank line between them; after the last one a line end, a blank line or
    nothing. *)
Inductive Trace : bytes -> list SipMessage -> Prop :=
| trace_last seg m tail : Message seg m -> In tail [[]; CRLF; SEP] -> Trace (seg ++ tail) [m]
| trace_more seg m t ms : Message seg m -> Trace t ms -> Trace (seg ++ SEP ++ t) (m :: ms).

(** ** The start line *)

Lemma split_unique (c : Z) a b a' b' : c ∉ a -> c ∉ a' -> a ++ c :: b = a' ++ c :: b' -> a = a' /\ b = b'.
Proof.
  revert a'. induction a as [|d a IH]; intros [|d' a'] Ha Ha' E; cbn in E.
  - by injection E as ->.
  - injection E as <- _. destruct Ha'. by left.
  - injection E as -> _. destruct Ha. by left.
  - injection E as -> E. rewrite not_elem_of_cons in Ha, Ha'. destruct (IH a') as [-> ->]; tauto.
Qed.

Lemma split_space_spec line : exists r, SipParser.split_space line = Some r /\
  forall a b c, r = Some (a, b, c) <-> line = a ++ 32 :: b ++ 32 :: c /\ (32 ∉ a) /\ (32 ∉ b) /\ (32 ∉ c) /\ a <> [] /\ b <> [] /\ c <> [].
Proof.
  unfold SipParser.split_space. destruct (Sv.find line [32] 0) as [first|] eqn:E1; cycle 1.
  { apply find_char_absent in E1. exists None. split; [done|]. intros a b c. split; [done|]. intros [-> _]. destruct E1. apply elem_of_app. right. by left. }
  apply find_char_inv in E1 as (a & r & -> & Ha & ->). rewrite find_shift by (rewrite length_app; cbn; lia).
  replace (drop (length a + 1) (a ++ 32 :: r)) with r by (rewrite drop_app_ge by lia; by replace (length a + 1 - length a)%nat with 1%nat by lia).
  destruct (Sv.find r [32] 0) as [second|] eqn:E2; cbn [fmap option_fmap option_map]; cycle 1.
  { apply find_char_absent in E2. exists None. split; [done|]. intros a' b c. split; [done|]. intros (E & Ha' & _).
    apply split_unique in E as [_ ->]; [|done|done]. destruct E2. apply elem_of_app. right. by left. }
  apply find_char_inv in E2 as (b & c & -> & Hb & ->). rewrite find_shift by (rewrite !length_app; cbn; rewrite !length_app; cbn; lia).
  assert (Ed : drop (length a + 1 + length b + 1) (a ++ 32 :: b ++ 32 :: c) = c).
  { rewrite drop_app_ge by lia. replace (length a + 1 + length b + 1 - length a)%nat with (S (length b + 1)) by lia. cbn [drop].
    rewrite drop_app_ge by lia. by replace (length b + 1 - length b)%nat with 1%nat by lia. }
  rewrite Ed. destruct (Sv.find c [32] 0) as [third|] eqn:E3; cbn [fmap option_fmap option_map].
  { apply find_char_inv in E3 as (d & e & -> & _). exists None. split; [done|]. intros a' b' c'. split; [done|].
    intros (E & Ha' & Hb' & Hc' & _). apply split_unique in E as [_ E]; [|done|done]. apply split_unique in E as [_ <-]; [|done|done].
    destruct Hc'. apply elem_of_app. right. by left. }
  apply find_char_absent in E3. rewrite !substr_le by (rewrite !length_app; cbn; rewrite ?length_app; cbn; lia). cbn [mbind option_bind].
  rewrite Ed. replace (length a + 1 + length b - length a - 1)%nat with (length b) by lia. rewrite drop_0, take_app_length.
  replace (drop (length a + 1) (a ++ 32 :: b ++ 32 :: c)) with (b ++ 32 :: c) by (rewrite drop_app_ge by lia; by replace (length a + 1 - length a)%nat with 1%nat by lia).
  rewrite take_app_length. eexists. split; [done|]. intros a' b' c'. split.
  - destruct a; [done|]. destruct b; [done|]. destruct c; [done|]. intros [= <- <- <-]. splits; done.
  - intros (E & Ha' & Hb' & Hc' & Hna & Hnb & Hnc). apply split_unique in E as [<- E]; [|done|done]. apply split_unique in E as [<- <-]; [|done|done].
    destruct a; [done|]. destruct b; [done|]. by destruct c.
Qed.

Lemma span_spec f s : exists a b, Sv.span f s = (a, b) /\ s = a ++ b /\ Forall f a /\ forall c t, b = c :: t -> f c = false.
Proof.
  induction s as [|c s (a & b & E & -> & Ha & Hb)]; [by exists [], []|]. cbn. destruct (f c) eqn:Ec.
  - rewrite E. exists (c :: a), b. splits; try done. constructor; [by rewrite Ec|done].
  - exists [], (c :: a ++ b). splits; try done. by intros ? ? [= <- _].
Qed.

Lemma digits_value_3 d : length d = 3%nat -> Forall Sv.is_digit d -> 0 <= Sv.digits_value d < 1000.
Proof.
  destruct d as [|x [|y [|z [|]]]]; try done. intros _. rewrite !list.Forall_cons. unfold Sv.is_digit, Sv.digits_value. cbn [fold_left]. intros H.
  assert (Hd : forall c, Is_true ((48 <=? c) && (c <=? 57)) -> 48 <= c <= 57) by (intros c Hc; apply Is_true_eq_true in Hc; lia).
  destruct H as (Hx%Hd & Hy%Hd & Hz%Hd & _). lia.
Qed.

Lemma from_chars_3 s code : length s = 3%nat ->
  Sv.from_chars s = Some (code, []) <-> Forall Sv.is_digit s /\ code = Sv.digits_value s.
Proof.
  intros Hl. unfold Sv.from_chars. destruct (span_spec Sv.is_digit s) as (a & b & -> & -> & Ha & Hb). split.
  - intros H. destruct a; [done|]. destruct (_ <? _); [|done]. injection H as <- ->. by rewrite app_nil_r.
  - intros [Hall ->]. destruct b as [|c b].
    + rewrite app_nil_r in Hl, Hall |- *. destruct (digits_value_3 _ Hl Ha). destruct a; [done|].
      by rewrite (proj2 (Z.ltb_lt _ _)) by lia.
    + apply list.Forall_app in Hall as [_ [Hc _]%list.Forall_cons]. by rewrite (Hb c b eq_refl) in Hc.
Qed.

Lemma lit_version : Sv.lit "SIP/2.0 " = Sv.lit "SIP/2.0" ++ [32].
Proof. reflexivity. Qed.

Lemma version_free : 32 ∉ Sv.lit "SIP/2.0".
Proof. apply (bool_decide_eq_true_1 (32 ∉ Sv.lit "SIP/2.0")). vm_compute. reflexivity. Qed.

Lemma parse_status_line s : exists r, SipParser.parse_start_line (Sv.lit "SIP/2.0 " ++ s) = Some r /\
  forall msg, r = Some msg <-> StartLine (Sv.lit "SIP/2.0 " ++ s) msg.
Proof.
  assert (Hreq : forall line msg, StartLine line msg -> line = Sv.lit "SIP/2.0 " ++ s ->
    exists digits phrase, s = digits ++ phrase /\ length digits = 3%nat /\ Forall Sv.is_digit digits /\ 100 <= Sv.digits_value digits <= 699 /\
      (phrase = [] \/ exists p, phrase = 32 :: p) /\ msg = MkSipMessage response [] [] (Sv.digits_value digits) []).
  { intros line msg [m u Hm Hu Hsm Hsu Hv|digits phrase Hl Hd Hr Hp] E.
    - rewrite lit_version, <- app_assoc in E. cbn [app] in E. apply split_unique in E as [-> _]; [done|done|exact version_free].
    - apply app_inv_head in E as <-. exists digits, phrase. splits; done || lia. }
  unfold SipParser.parse_start_line. rewrite starts_with_app, substr_le by (rewrite length_app; cbn; lia). cbn [mbind option_bind].
  change (drop 8 (Sv.lit "SIP/2.0 " ++ s)) with (drop 0 s). rewrite drop_0.
  destruct (Nat.ltb_spec (length s) 3) as [Hl|Hl].
  { exists None. split; [done|]. intros msg. split; [done|]. intros H. destruct (Hreq _ _ H eq_refl) as (d & p & -> & Hd & _). rewrite length_app in Hl. lia. }
  rewrite substr_le by lia. cbn [mbind option_bind]. rewrite drop_0.
  assert (Ht : length (take 3 s) = 3%nat) by (apply length_take_le; lia).
  pose proof (fun c => from_chars_3 (take 3 s) c Ht) as Hfc.
  assert (Htk : forall d p, s = d ++ p -> length d = 3%nat -> take 3 s = d) by (intros d p -> <-; apply take_app_length).
  destruct (Sv.from_chars (take 3 s)) as [[code rest]|]; cycle 1.
  { exists None. split; [done|]. intros msg. split; [done|]. intros H. destruct (Hreq _ _ H eq_refl) as (d & p & E & Hd & Hdd & _).
    rewrite (Htk d p E Hd) in Hfc. discriminate (proj2 (Hfc _) (conj Hdd eq_refl)). }
  destruct (negb (length rest =? 0)%nat || (code <? 100) || (code >? 699)) eqn:Ec.
  { exists None. split; [done|]. intros msg. split; [done|]. intros H. destruct (Hreq _ _ H eq_refl) as (d & p & E & Hd & Hdd & Hr & _).
    rewrite (Htk d p E Hd) in Hfc. injection (proj2 (Hfc _) (conj Hdd eq_refl)) as -> ->. cbn in Ec. lia. }
  assert (rest = []) as -> by (destruct rest; [done|cbn in Ec; done]). cbn in Ec. destruct (proj1 (Hfc _) eq_refl) as [Hd ->].
  destruct s as [|x [|y [|z p]]]; cbn in Hl; try lia. cbn [take length Nat.ltb Nat.leb lookup list_lookup] in *.
  destruct p as [|c p]; [|destruct (Z.eqb_spec c 32) as [->|Hc]]; cbn [length Nat.ltb Nat.leb negb andb].
  - eexists. split; [done|]. intros msg. split.
    + intros [= <-]. apply (status_line [x; y; z] []); [done|done|change (take 0 []) with (@nil Z) in Ec; lia|by left].
    + intros H. destruct (Hreq _ _ H eq_refl) as (d & p & E & Hd3 & Hdd & Hr & Hp & ->). destruct d as [|? [|? [|? [|]]]]; try done. by injection E as <- <- <- _.
  - eexists. split; [done|]. intros msg. split.
    + intros [= <-]. apply (status_line [x; y; z] (32 :: p)); [done|done|change (take 0 (32 :: p)) with (@nil Z) in Ec; lia|right; by exists p].
    + intros H. destruct (Hreq _ _ H eq_refl) as (d & p' & E & Hd3 & Hdd & Hr & Hp & ->). destruct d as [|? [|? [|? [|]]]]; try done. by injection E as <- <- <- _.
  - cbn [lookup list_lookup]. rewrite (proj2 (Z.eqb_neq c 32)) by done. exists None. split; [done|]. intros msg. split; [done|]. intros H.
    destruct (Hreq _ _ H eq_refl) as (d & p' & E & Hd3 & Hdd & Hr & Hp & ->). destruct d as [|? [|? [|? [|]]]]; try done. injection E as <- <- <- <-. destruct Hp as [|[? [= -> _]]]; done.
Qed.

Lemma parse_start_line_spec line : exists r, SipParser.parse_start_line line = Some r /\ forall msg, r = Some msg <-> StartLine line msg.
Proof.
  destruct (Sv.starts_with (Sv.lit "SIP/2.0 ") line) eqn:E; [apply starts_with_spec in E as [s ->]; apply parse_status_line|].
  unfold SipParser.parse_start_line. rewrite E. destruct (split_space_spec line) as (r & -> & Hr). cbn [mbind option_bind].
  eexists. split; [done|]. intros msg. split.
  - destruct r as [[[m u] v]|]; [|done]. destruct (proj1 (Hr m u v) eq_refl) as (-> & Hm & Hu & _ & Hnm & Hnu & _).
    destruct (decide _) as [->|]; [|done]. intros [= <-]. constructor; try done. intros ->.
    assert (Et : Sv.starts_with (Sv.lit "SIP/2.0 ") (Sv.lit "SIP/2.0" ++ 32 :: u ++ 32 :: Sv.lit "SIP/2.0") = true); [|congruence].
    apply (starts_with_app (Sv.lit "SIP/2.0 ")).
  - intros H. destruct H as [m u Hm Hu Hsm Hsu Hv|digits phrase].
    + rewrite (proj2 (Hr m u (Sv.lit "SIP/2.0"))); [by rewrite decide_True|]. splits; try done. exact version_free.
    + by rewrite starts_with_app in E.
Qed.

Lemma nil_line msg : ~ StartLine [] msg.
Proof. intros H. destruct (parse_start_line_spec []) as (r & E & Hr). apply Hr in H as ->. by vm_compute in E. Qed.

(** ** Header lines *)

Lemma parse_header_line_spec line : exists r, SipParser.parse_header_line line = Some r /\ forall h, r = Some h <-> HeaderLine line h.
Proof.
  unfold SipParser.parse_header_line. change (Sv.lit ":") with [58]. destruct (Sv.find line [58] 0) as [colon|] eqn:E; cycle 1.
  { apply find_char_absent in E. exists None. split; [done|]. intros h. split; [done|]. intros (n & v & -> & _). destruct E. apply elem_of_app. right. by left. }
  apply find_char_inv in E as (n & v & -> & Hn & ->). rewrite !substr_le by (rewrite length_app; cbn; lia). cbn [mbind option_bind].
  rewrite drop_0, take_app_length. replace (drop (length n + 1) (n ++ 58 :: v)) with v by (rewrite drop_app_ge by lia; by replace (length n + 1 - length n)%nat with 1%nat by lia).
  assert (Hh : forall h, HeaderLine (n ++ 58 :: v) h <-> SipParser.trim n <> [] /\ h = MkSipHeader (SipParser.trim n) (SipParser.trim v)).
  { intros h. split.
    - intros (n' & v' & E & Hn' & Htn & Hne & Htv). apply split_unique in E as [<- <-]; [|done|done]. apply trim_unique in Htn, Htv.
      rewrite Htn, Htv. by destruct h.
    - intros [Hne ->]. exists n, v. splits; try done; apply sip_trim_spec. }
  destruct (SipParser.trim n) as [|c t] eqn:Et.
  - exists None. split; [done|]. intros h. rewrite Hh. split; [done|]. by intros [Hne _].
  - eexists. split; [done|]. intros h. rewrite Hh. split; [by intros [= <-]|]. by intros [_ ->].
Qed.

(** What may follow the header lines of one message: nothing, or one or two empty lines. *)
Abbreviation TAILS := ([[]; [[]]; [[]; []]] : list (list bytes)).

Definition Headers (ls : list bytes) (hs : list SipHeader) : Prop :=
  exists hls tail, ls = hls ++ tail /\ In tail TAILS /\ Forall2 HeaderLine hls hs.

Lemma header_line_nonempty h : ~ HeaderLine [] h.
Proof. by intros ([|] & v & E & _). Qed.

Lemma headers_nil hs : Headers [] hs <-> hs = [].
Proof.
  split; [|intros ->; exists [], []; splits; [done|by left|constructor]].
  intros (hls & tail & E & _ & H). symmetry in E. apply app_eq_nil in E as [-> _]. by inversion H.
Qed.

Lemma headers_blank ls hs : Headers ([] :: ls) hs <-> hs = [] /\ (ls = [] \/ ls = [[]]).
Proof.
  split.
  - intros (hls & tail & E & Ht & H). destruct H as [|l h hls hs Hh H]; cbn in E; [|injection E as <- _; by apply header_line_nonempty in Hh].
    subst tail. split; [done|]. destruct Ht as [|[[= ->]|[[= ->]|[]]]]; [done|by left|by right].
  - intros [-> [-> | ->]]; [exists [], [[]]|exists [], [[]; []]]; splits; try done; cbn; tauto.
Qed.

Lemma headers_line_cons l ls hs : l <> [] -> Headers (l :: ls) hs <-> exists h hs', hs = h :: hs' /\ HeaderLine l h /\ Headers ls hs'.
Proof.
  intros Hl. split.
  - intros (hls & tail & E & Ht & H). destruct H as [|l' h hls hs Hh H]; cbn in E.
    + subst tail. destruct Ht as [|[[= <- _]|[[= <- _]|[]]]]; done.
    + injection E as <- ->. exists h, hs. splits; [done|done|]. by exists hls, tail.
  - intros (h & hs' & -> & Hh & hls & tail & -> & Ht & H). exists (l :: hls), tail. splits; try done. by constructor.
Qed.

(** The text of some lines. *)
Definition text_of (ls : list bytes) : bytes :=
  match ls with
  | [] => []
  | l :: ls => join_lines l ls
  end.

Lemma cut_line_join l ls : line_free l -> SipParser.cut_line (join_lines l ls) = Some (l, text_of ls).
Proof. intros Hl. destruct ls; [by apply cut_line_last|]. cbn [join_lines]. by apply cut_line_more. Qed.

Lemma text_of_nil ls : text_of ls = [] <-> ls = [] \/ ls = [[]].
Proof.
  split; [|by intros [-> | ->]]. destruct ls as [|l [|l' ls]]; [by left|cbn; intros ->; by right|].
  cbn. intros H. by apply app_eq_nil in H as [_ H].
Qed.

Lemma parse_headers_loop_spec fuel : forall ls acc, Forall line_free ls -> (length (text_of ls) <= fuel)%nat ->
  exists r, SipParser.parse_headers_loop fuel (text_of ls) acc = Some r /\
    forall hs, r = Some hs <-> exists hs', hs = acc ++ hs' /\ Headers ls hs'.
Proof.
  induction fuel as [|fuel IH]; intros ls acc Hf Hlen.
  all: destruct (text_of ls) as [|c t] eqn:E.
  1, 3: exists (Some acc); split; [done|]; intros hs; split;
    [intros [= <-]; exists []; rewrite app_nil_r|intros (hs' & -> & H); f_equal];
    apply text_of_nil in E as [-> | ->];
    [split; [done|by apply headers_nil]|split; [done|apply headers_blank; tauto]|apply headers_nil in H as ->; by rewrite app_nil_r|apply headers_blank in H as [-> _]; by rewrite app_nil_r].
  - cbn in Hlen. lia.
  - destruct ls as [|l ls]; [done|]. apply list.Forall_cons in Hf as [Hl Hf]. cbn [SipParser.parse_headers_loop]. rewrite <- E. cbn [text_of] in E |- *.
    rewrite cut_line_join by done. cbn [mbind option_bind].
    destruct l as [|d l].
    + eexists. split; [done|]. intros hs. split.
      * intros H. exists []. rewrite app_nil_r, headers_blank, <- text_of_nil. destruct (text_of ls); [|done]. split; [congruence|done].
      * intros (hs' & -> & [-> Hls%text_of_nil]%headers_blank). by rewrite Hls, app_nil_r.
    + destruct (parse_header_line_spec (d :: l)) as (rh & -> & Hrh). cbn [mbind option_bind]. destruct rh as [h|].
      * destruct (IH ls (acc ++ [h]) Hf) as (r & -> & Hr).
        { rewrite <- E in Hlen. destruct ls; cbn in *; [lia|]. rewrite length_app in Hlen. cbn in Hlen. lia. }
        exists r. split; [done|]. intros hs. rewrite Hr. split.
        -- intros (hs' & -> & H). exists (h :: hs'). rewrite <- app_assoc. split; [done|]. apply headers_line_cons; [done|]. exists h, hs'. splits; try done. by apply Hrh.
        -- intros (hs' & -> & H). rewrite headers_line_cons in H by done. destruct H as (h' & hs'' & -> & [= ->]%Hrh & H). exists hs''. by rewrite <- app_assoc.
      * exists None. split; [done|]. intros hs. split; [done|]. intros (hs' & _ & H). rewrite headers_line_cons in H by done. destruct H as (h & _ & _ & H%Hrh & _). done.
Qed.

(** ** One message *)

Lemma join_lines_nil l ls : join_lines l ls = [] -> l = [] /\ ls = [].
Proof. destruct ls; cbn; [done|]. intros H. by apply app_eq_nil in H as [_ H]. Qed.

Lemma join_lines_inj l ls : forall l' ls', Forall line_free (l :: ls) -> Forall line_free (l' :: ls') ->
  join_lines l ls = join_lines l' ls' -> l = l' /\ ls = ls'.
Proof.
  revert l. induction ls as [|k ls IH]; intros l l' ls' [Hl Hf]%list.Forall_cons [Hl' Hf']%list.Forall_cons E; destruct ls' as [|k' ls']; cbn [join_lines] in E.
  - done.
  - subst l. destruct Hl as [Hl _]. rewrite elem_of_app in Hl. destruct Hl. right. by left.
  - subst l'. destruct Hl' as [Hl' _]. rewrite elem_of_app in Hl'. destruct Hl'. right. by left.
  - destruct Hl, Hl'. apply split_unique in E as [-> E]; [|done|done]. injection E as E. apply IH in E as [-> ->]; done.
Qed.

(** More lines below. *)
Lemma join_lines_app l ls tail : join_lines l (ls ++ tail) = join_lines l ls ++ concat (map (app CRLF) tail).
Proof.
  revert l. induction ls as [|k ls IH]; intros l; cbn [join_lines app].
  - revert l. induction tail as [|t tail IHt]; intros l; cbn; [by rewrite app_nil_r|]. by rewrite IHt.
  - by rewrite IH, <- !app_assoc.
Qed.

Lemma line_free_nil : line_free [].
Proof. split; apply not_elem_of_nil. Qed.

Lemma tail_free tail : In tail TAILS -> Forall line_free tail.
Proof. intros [<-|[<-|[<-|[]]]]; repeat constructor; apply not_elem_of_nil. Qed.

(** A message with line ends below it, by lines. *)
Lemma message_lines s m : (exists seg tail, s = seg ++ tail /\ In tail [[]; CRLF; SEP] /\ Message seg m) <->
  exists l ls msg hs, s = join_lines l ls /\ Forall line_free (l :: ls) /\ StartLine l msg /\ Headers ls hs /\ m = with_headers msg hs.
Proof.
  split.
  - intros (seg & tail & -> & Ht & start & hls & msg & hs & Hf & -> & Hs & Hh & ->).
    assert (exists tl, In tl TAILS /\ tail = concat (map (app CRLF) tl)) as (tl & Htl & ->).
    { destruct Ht as [<-|[<-|[<-|[]]]]; [exists []|exists [[]]|exists [[]; []]]; split; cbn; tauto. }
    exists start, (hls ++ tl), msg, hs. splits; try done; [by rewrite join_lines_app| |by exists hls, tl].
    rewrite app_comm_cons. apply list.Forall_app. split; [done|by apply tail_free].
  - intros (l & ls & msg & hs & -> & Hf & Hs & (hls & tl & -> & Ht & Hh) & ->). rewrite join_lines_app.
    exists (join_lines l hls), (concat (map (app CRLF) tl)). splits; [done|destruct Ht as [<-|[<-|[<-|[]]]]; cbn; tauto|].
    exists l, hls, msg, hs. splits; try done. rewrite app_comm_cons in Hf. by apply list.Forall_app in Hf as [Hf _].
Qed.

(** The parser of one message also takes the message with line ends below it. *)
Lemma parse_one_message_spec s : exists r, SipParser.parse_one_message s = Some r /\
  forall m, r = Some m <-> exists seg tail, s = seg ++ tail /\ In tail [[]; CRLF; SEP] /\ Message seg m.
Proof.
  unfold SipParser.parse_one_message. destruct (SipParser.line_breaks_ok None s) eqn:Eb; cycle 1.
  { exists None. split; [by destruct s|]. intros m. rewrite message_lines. split; [done|]. intros (l & ls & msg & hs & -> & Hf & _).
    rewrite (proj2 (line_breaks_ok_spec _ None ltac:(done))) in Eb; [done|]. by exists l, ls. }
  apply line_breaks_ok_spec in Eb as (l & ls & -> & Hf); [|done]. pose proof Hf as [Hl Hfs]%list.Forall_cons.
  assert (Hone : forall m, (exists seg tail, join_lines l ls = seg ++ tail /\ In tail [[]; CRLF; SEP] /\ Message seg m) <->
    exists msg hs, StartLine l msg /\ Headers ls hs /\ m = with_headers msg hs).
  { intros m. rewrite message_lines. split.
    - intros (l' & ls' & msg & hs & E & Hf' & H). apply join_lines_inj in E as [-> ->]; [by exists msg, hs|done|done].
    - intros (msg & hs & H). by exists l, ls, msg, hs. }
  destruct (parse_start_line_spec l) as (rs & Es & Hs).
  destruct (parse_headers_loop_spec (length (text_of ls)) ls [] Hfs ltac:(lia)) as (rh & Eh & Hh).
  assert (Hmain : exists r, ('(start_line, rest) ← SipParser.cut_line (join_lines l ls);
      match start_line with
      | [] => Some None
      | _ => start ← SipParser.parse_start_line start_line;
          match start with
          | None => Some None
          | Some msg => hs ← SipParser.parse_headers_loop (length rest) rest [];
              Some (match hs with None => None | Some hs => Some (with_headers msg hs) end)
          end
      end) = Some r /\ forall m, r = Some m <-> exists msg hs, StartLine l msg /\ Headers ls hs /\ m = with_headers msg hs).
  { rewrite cut_line_join by done. cbn [mbind option_bind]. rewrite Es, Eh. cbn [mbind option_bind]. destruct l as [|c l].
    - exists None. split; [done|]. intros m. split; [done|]. intros (msg & hs & H & _). by apply nil_line in H.
    - destruct rs as [msg|]; cycle 1.
      { exists None. split; [done|]. intros m. split; [done|]. intros (msg & hs & H & _). by apply Hs in H. }
      eexists. split; [done|]. intros m. split.
      + destruct rh as [hs|]; [|done]. intros [= <-]. exists msg, hs. destruct (proj1 (Hh hs) eq_refl) as (hs' & -> & H). splits; try done. by apply Hs.
      + intros (msg' & hs & [= ->]%Hs & H & ->). by rewrite (proj2 (Hh hs)) by (by exists hs). }
  destruct Hmain as (r & Er & Hr). destruct (join_lines l ls) eqn:E.
  - exists None. split; [done|]. intros m. rewrite Hone. split; [done|]. intros (msg & hs & H & _).
    apply join_lines_nil in E as [-> ->]. by apply nil_line in H.
  - exists r. split; [exact Er|]. intros m. by rewrite Hr, Hone.
Qed.

(** ** The series *)

Lemma message_find seg m s i : Message seg m -> Sv.find_at SEP (seg ++ s) i = Sv.find_at SEP s (i + length seg).
Proof.
  intros (l & hls & msg & hs & Hf & -> & _ & Hh & _). apply find_sep_skip; [done|].
  clear Hf. induction Hh as [|k h hls hs Hk Hh IH]; constructor; [|done]. intros ->. by apply header_line_nonempty in Hk.
Qed.

Lemma message_nonempty m : ~ Message [] m.
Proof. intros (l & hls & msg & hs & _ & E & H & _). symmetry in E. apply join_lines_nil in E as [-> _]. by apply nil_line in H. Qed.

Lemma trace_nonempty t ms : Trace t ms -> t <> [] /\ ms <> [].
Proof. intros [seg m tail Hm _|seg m t' ms' Hm _]; split; try done; intros E; apply app_eq_nil in E as [-> _]; by apply message_nonempty in Hm. Qed.

(** Without a blank line there is one message. *)
Lemma trace_no_sep s ms : Sv.find s SEP 0 = None -> Trace s ms <-> exists m seg tail, ms = [m] /\ s = seg ++ tail /\ In tail [[]; CRLF; SEP] /\ Message seg m.
Proof.
  rewrite find_start. intros Hn. split.
  - intros H. inversion H as [seg m tail Hm Ht|seg m t ms' Hm H']; subst; [by exists m, seg, tail|]. by rewrite (message_find _ _ _ _ Hm) in Hn.
  - intros (m & seg & tail & -> & -> & Ht & Hm). by constructor.
Qed.

(** The first blank line ends the first message. *)
Lemma trace_sep a b ms : Sv.find (a ++ SEP ++ b) SEP 0 = Some (length a) ->
  Trace (a ++ SEP ++ b) ms <-> exists m ms', ms = m :: ms' /\ Message a m /\ ((b = [] /\ ms' = []) \/ Trace b ms').
Proof.
  rewrite find_start. intros Hn. split.
  - intros H. inversion H as [seg m tail Hm Ht E|seg m t ms' Hm Ht E]; subst.
    + assert (Hn' : Sv.find_at SEP (seg ++ tail) 0 = Some (length a)) by (rewrite E; exact Hn). clear Hn; rename Hn' into Hn.
      rewrite (message_find _ _ _ _ Hm) in Hn. cbn [Nat.add] in Hn.
      destruct Ht as [<-|[<-|[<-|[]]]]; cbn in Hn; try done. injection Hn as Hn. apply app_inj_1 in E as [<- E]; [|done].
      exists m, []. splits; try done. left. split; [|done]. injection E as E. done.
    + assert (Hn' : Sv.find_at SEP (seg ++ SEP ++ t) 0 = Some (length a)) by (rewrite <- Hn; f_equal; exact E). clear Hn; rename Hn' into Hn.
      rewrite (message_find _ _ _ _ Hm) in Hn. cbn in Hn. injection Hn as Hn. apply app_inj_1 in E as [<- E]; [|done].
      exists m, ms'. splits; try done. right. injection E as ->. done.
  - intros (m & ms' & -> & Hm & [[-> ->]|Ht]); [|by constructor]. rewrite app_nil_r. constructor; [done|cbn; tauto].
Qed.

Lemma series_loop_spec fuel : forall trace pos acc, (pos <= length trace)%nat -> (length (drop pos trace) <= fuel)%nat ->
  exists r, SipParser.series_loop fuel trace pos acc = Some r /\
    forall ms, r = Some ms <-> exists ms', ms = acc ++ ms' /\ ((drop pos trace = [] /\ ms' = []) \/ Trace (drop pos trace) ms').
Proof.
  induction fuel as [|fuel IH]; intros trace pos acc Hpos Hlen.
  all: assert (Hd : length (drop pos trace) = (length trace - pos)%nat) by apply length_drop.
  all: cbn [SipParser.series_loop]; destruct (Nat.ltb_spec pos (length trace)) as [Hlt|Hge]; [|
    assert (drop pos trace = []) as -> by (apply nil_length_inv; lia); exists (Some acc); split; [done|]; intros ms; split;
    [intros [= <-]; exists []; rewrite app_nil_r; split; [done|by left]|intros (ms' & -> & [[_ ->]|H]); [by rewrite app_nil_r|by apply trace_nonempty in H as [? _]]]].
  - lia.
  - assert (Hne : drop pos trace <> []) by (intros E; rewrite E in Hd; cbn in Hd; lia).
    rewrite (find_shift _ _ _ Hpos). destruct (Sv.find (drop pos trace) SEP 0) as [k|] eqn:Ek; cbn [fmap option_fmap option_map].
    + apply find_Some in Ek as Hk. destruct Hk as (a & b & E & _ & -> & _). rewrite drop_0 in E. rewrite substr_le by done. cbn [mbind option_bind Nat.add] in *.
      replace (pos + length a - pos)%nat with (length a) by lia.
      assert (Eb : drop (pos + length a + 4) trace = b).
      { by rewrite <- !drop_drop, E, drop_app_length. }
      rewrite E in Ek, Hd, Hne, Hlen |- *. rewrite !length_app in Hd, Hlen. cbn [length] in Hd, Hlen. rewrite take_app_length.
      pose proof (fun ms => trace_sep a b ms Ek) as Ht.
      destruct a as [|c a]; [exists None; split; [done|]; intros ms; split; [done|]; intros (ms' & -> & [[? _]|H]); [done|];
        apply Ht in H as (m & ? & _ & Hm & _); by apply message_nonempty in Hm|].
      destruct (parse_one_message_spec (c :: a)) as (rm & -> & Hrm). cbn [mbind option_bind].
      assert (Hm : forall m, rm = Some m <-> Message (c :: a) m).
      { intros m. rewrite Hrm. split; [|intros Hm; exists (c :: a), []; splits; [by rewrite app_nil_r|by left|done]].
        intros (seg & tail & Ea & Htl & Hm). rewrite Ea in Ek |- *. rewrite find_start, <- app_assoc, (message_find _ _ _ _ Hm) in Ek.
        destruct Htl as [<-|[<-|[<-|[]]]]; [by rewrite app_nil_r| |]; rewrite length_app in Ek; cbn in Ek; injection Ek; lia. }
      destruct rm as [m|].
      * cbn [length] in *. destruct (IH trace (pos + S (length a) + 4)%nat (acc ++ [m])) as (r & -> & Hr); [lia|rewrite Eb; lia|].
        rewrite Eb in Hr. exists r. split; [done|]. intros ms. rewrite Hr. split.
        -- intros (ms' & -> & H). exists (m :: ms'). rewrite <- app_assoc. split; [done|]. right. apply Ht. exists m, ms'. splits; [done|by apply Hm|done].
        -- intros (ms' & -> & [[? _]|H]); [done|]. apply Ht in H as (m' & ms'' & -> & [= ->]%Hm & H). exists ms''. by rewrite <- app_assoc.
      * exists None. split; [done|]. intros ms. split; [done|]. intros (ms' & -> & [[? _]|H]); [done|]. by apply Ht in H as (m & ? & _ & ?%Hm & _).
    + rewrite substr_le by done. cbn [mbind option_bind]. pose proof (fun ms => trace_no_sep _ ms Ek) as Ht.
      destruct (drop pos trace) as [|c s] eqn:E; [done|]. destruct (parse_one_message_spec (c :: s)) as (rm & -> & Hrm). cbn [mbind option_bind].
      destruct rm as [m|]; eexists; (split; [done|]); intros ms; split.
      * intros [= <-]. exists [m]. split; [done|]. right. apply Ht. destruct (proj1 (Hrm m) eq_refl) as (seg & tail & H). by exists m, seg, tail.
      * intros (ms' & -> & [[? _]|H]); [done|]. apply Ht in H as (m' & seg & tail & -> & H). assert (Some m = Some m') as [= ->]; [|done]. apply Hrm. by exists seg, tail.
      * done.
      * intros (ms' & -> & [[? _]|H]); [done|]. apply Ht in H as (m' & seg & tail & -> & H). assert (None = Some m'); [|done]. apply Hrm. by exists seg, tail.
Qed.

Lemma series_spec (trace : bytes) : exists r, SipParser.parse_message_series trace = Some r /\ forall ms, r = Some ms <-> Trace trace ms.
Proof.
  unfold SipParser.parse_message_series. destruct trace as [|c t].
  - exists None. split; [done|]. intros ms. split; [done|]. intros [H _]%trace_nonempty. done.
  - destruct (series_loop_spec (length (c :: t)) (c :: t) 0 []) as (r & -> & Hr); [lia|by rewrite drop_0|]. rewrite drop_0 in Hr. cbn [mbind option_bind].
    eexists. split; [done|]. intros ms. split.
    + intros Hms. destruct (proj1 (Hr ms)) as (ms' & -> & [[? _]|H]); [by destruct r as [[|]|]|done|done].
    + intros H. apply trace_nonempty in H as Hne. rewrite (proj2 (Hr ms)) by (exists ms; split; [done|by right]). by destruct ms as [|]; [destruct Hne|].
Qed.

(** C31. parse_message_series returns for every text (no out_of_range of substr, and the loops
    end), and the messages it returns are exactly those the grammar reads in the text: messages
    separated by a blank line, the last one followed by nothing, a line end or a blank line;
    every line end is CRLF, the start line is a request line for SIP/2.0 or a status line with
    a code from 100 to 699, every header line has a name before its first colon. *)
Theorem parse_message_series_exact (trace : bytes) :
  exists r, SipParser.parse_message_series trace = Some r /\ forall ms, r = Some ms <-> Trace trace ms.
Proof. apply series_spec. Qed.

(** ** What the messages of a trace look like, and writing them out *)

(** No blank at either end. *)
Definition no_blank_ends (t : bytes) : Prop :=
  (forall c t', t = c :: t' -> is_blank c = false) /\ (forall c t', t = t' ++ [c] -> is_blank c = false).

Definition wf_header (h : SipHeader) : Prop :=
  name h <> [] /\ (58 ∉ name h) /\ line_free (name h) /\ no_blank_ends (name h) /\ line_free (value h) /\ no_blank_ends (value h).

Definition wf_start (m : SipMessage) : Prop :=
  match kind m with
  | request => method m <> [] /\ request_uri m <> [] /\ (32 ∉ method m) /\ (32 ∉ request_uri m) /\ line_free (method m) /\ line_free (request_uri m) /\
      method m <> Sv.lit "SIP/2.0" /\ status_code m = 0
  | response => method m = [] /\ request_uri m = [] /\ 100 <= status_code m <= 699
  end.

Definition wf_message (m : SipMessage) : Prop := wf_start m /\ Forall wf_header (headers m).

Definition render_start (m : SipMessage) : bytes :=
  match kind m with
  | request => method m ++ 32 :: request_uri m ++ 32 :: Sv.lit "SIP/2.0"
  | response => Sv.lit "SIP/2.0 " ++ [48 + status_code m / 100; 48 + status_code m / 10 mod 10; 48 + status_code m mod 10]
  end.

Definition render_header (h : SipHeader) : bytes := name h ++ Sv.lit ": " ++ value h.

Definition render (m : SipMessage) : bytes := join_lines (render_start m) (map render_header (headers m)).

(** Every message with its blank line. *)
Definition render_series (ms : list SipMessage) : bytes := concat (map (fun m => render m ++ SEP) ms).

Lemma line_free_app a b : line_free (a ++ b) <-> line_free a /\ line_free b.
Proof. unfold line_free. rewrite !not_elem_of_app. tauto. Qed.

Lemma line_free_cons c a : line_free (c :: a) <-> c <> 13 /\ c <> 10 /\ line_free a.
Proof. unfold line_free. rewrite !not_elem_of_cons. assert (forall x y : Z, x <> y <-> y <> x) by (split; congruence). rewrite (H c 13), (H c 10). tauto. Qed.

Lemma start_wf line m : StartLine line m -> line_free line -> wf_start m /\ headers m = [].
Proof.
  intros [u v|digits phrase Hl Hd Hr Hp] Hf; (split; [|done]); unfold wf_start; cbn; [|splits; done || lia].
  rewrite line_free_app, line_free_cons, line_free_app in Hf. destruct Hf as (? & _ & _ & ? & _). splits; done.
Qed.

Lemma header_wf line h : HeaderLine line h -> line_free line -> wf_header h.
Proof.
  intros (n & v & -> & Hn & (a & b & -> & Ha & Hb & Hf1 & Hl1) & Hne & (a' & b' & -> & _ & _ & Hf2 & Hl2)) Hf.
  rewrite !line_free_app, line_free_cons, !line_free_app in Hf. rewrite !not_elem_of_app in Hn.
  unfold wf_header, no_blank_ends. tauto.
Qed.

Lemma message_wf seg m : Message seg m -> wf_message m.
Proof.
  intros (l & hls & msg & hs & [Hl Hf]%list.Forall_cons & -> & Hs & Hh & ->). split; [by apply start_wf in Hs as [Hs _]|]. cbn.
  induction Hh as [|k h hls hs Hk Hh IH]; constructor; apply list.Forall_cons in Hf as [? ?]; [by eapply header_wf|by apply IH].
Qed.

Lemma trace_wf t ms : Trace t ms -> Forall wf_message ms.
Proof. induction 1 as [seg m tail Hm _|seg m t ms Hm _ IH]; constructor; try done; by eapply message_wf. Qed.

Lemma trimmed_id t : no_blank_ends t -> trimmed t t.
Proof. intros [? ?]. exists [], []. rewrite app_nil_r. splits; try done; constructor. Qed.

Lemma render_header_line h : wf_header h -> HeaderLine (render_header h) h /\ line_free (render_header h).
Proof.
  intros (Hne & Hc & Hfn & Hbn & Hfv & Hbv). split.
  - exists (name h), (32 :: value h). splits; try done; [by apply trimmed_id|]. destruct Hbv. exists [32], []. rewrite app_nil_r. splits; try done. by repeat constructor.
  - unfold render_header. change (Sv.lit ": ") with [58; 32]. rewrite line_free_app. split; [done|]. cbn [app]. by rewrite !line_free_cons.
Qed.

Lemma render_start_line m : wf_start m -> exists msg, StartLine (render_start m) msg /\ line_free (render_start m) /\ m = with_headers msg (headers m).
Proof.
  unfold wf_start, render_start. destruct m as [k me u code hs]; cbn [kind method request_uri status_code headers]. destruct k.
  - intros (? & ? & ? & ? & ? & ? & ? & ->). exists (MkSipMessage request me u 0 []). splits; [by constructor| |done].
    rewrite line_free_app, line_free_cons, line_free_app, line_free_cons. splits; try done. split; by apply (bool_decide_eq_true_1 (_ ∉ _)).
  - intros (-> & -> & Hr). assert (H1 : 1 <= code / 100 <= 6) by dlia. pose proof (Z.mod_pos_bound (code / 10) 10). pose proof (Z.mod_pos_bound code 10).
    assert (Ev : Sv.digits_value [48 + code / 100; 48 + code / 10 mod 10; 48 + code mod 10] = code) by (unfold Sv.digits_value; cbn [fold_left]; dlia).
    exists (MkSipMessage response [] [] code []). splits; [|split; rewrite not_elem_of_app|done].
    + pose proof (status_line [48 + code / 100; 48 + code / 10 mod 10; 48 + code mod 10] []) as Hs. rewrite Ev, app_nil_r in Hs. apply Hs; [done| |lia|by left].
      rewrite !list.Forall_cons. unfold Sv.is_digit. splits; try constructor; apply Is_true_eq_left; lia.
    + split; [by apply (bool_decide_eq_true_1 (_ ∉ _))|]. rewrite !not_elem_of_cons. splits; try lia. apply not_elem_of_nil.
    + split; [by apply (bool_decide_eq_true_1 (_ ∉ _))|]. rewrite !not_elem_of_cons. splits; try lia. apply not_elem_of_nil.
Qed.

Lemma render_message m : wf_message m -> Message (render m) m.
Proof.
  intros [Hs Hh]. destruct (render_start_line m Hs) as (msg & Hst & Hf & E). exists (render_start m), (map render_header (headers m)), msg, (headers m).
  splits; try done.
  - constructor; [done|]. apply list.Forall_fmap. eapply list.Forall_impl; [exact Hh|]. intros h Hw. by apply render_header_line.
  - clear E. induction Hh as [|h hs Hw Hh IH]; constructor; [by apply render_header_line|done].
Qed.

Lemma render_trace ms : ms <> [] -> Forall wf_message ms -> Trace (render_series ms) ms.
Proof.
  induction ms as [|m ms IH]; [done|]. intros _ [Hm Hms]%list.Forall_cons. unfold render_series. cbn [map concat].
  destruct ms as [|m' ms]; [cbn [map concat]; rewrite app_nil_r; constructor; [by apply render_message|cbn; tauto]|].
  rewrite <- app_assoc. apply trace_more; [by apply render_message|]. by apply IH.
Qed.

(** C32. The series of messages that parse_message_series can return are exactly the non-empty
    series of well-formed messages (tokens without blanks and line ends, codes from 100 to 699,
    trimmed header names and values), and each of them, written out with one blank after the
    colons and a blank line after every message, is parsed back. *)
Theorem sip_series_roundtrip (ms : list SipMessage) :
  ((exists trace, SipParser.parse_message_series trace = Some (Some ms)) <-> ms <> [] /\ Forall wf_message ms) /\
  (ms <> [] /\ Forall wf_message ms <-> SipParser.parse_message_series (render_series ms) = Some (Some ms)).
Proof.
  assert (Hout : forall trace, SipParser.parse_message_series trace = Some (Some ms) -> ms <> [] /\ Forall wf_message ms).
  { intros trace E. destruct (series_spec trace) as (r & Er & Hr). rewrite Er in E. injection E as [= H%Hr].
    split; [by apply trace_nonempty in H as [_ H]|by apply trace_wf in H]. }
  assert (Hin : ms <> [] /\ Forall wf_message ms -> SipParser.parse_message_series (render_series ms) = Some (Some ms)).
  { intros [Hne Hw]. destruct (series_spec (render_series ms)) as (r & -> & Hr). f_equal. apply Hr. by apply render_trace. }
  split; split; [intros [trace H]; by eapply Hout|intros H; eexists; by apply Hin|exact Hin|apply Hout].
Qed.

(** ** The address of a header *)

Lemma first_unique p (a b a' b' : bytes) : not_before p (a ++ p ++ b) (length a) -> not_before p (a ++ p ++ b) (length a') ->
  a ++ p ++ b = a' ++ p ++ b' -> a = a'.
Proof.
  intros Hn Hn' E. assert (length a = length a') as Hl.
  { destruct (Nat.lt_trichotomy (length a) (length a')) as [Hlt|[Heq|Hgt]]; [|done|].
    - specialize (Hn' _ Hlt). by rewrite drop_app_length, starts_with_app in Hn'.
    - specialize (Hn _ Hgt). by rewrite E, drop_app_length, starts_with_app in Hn. }
  by apply app_inj_1 in E as [-> _].
Qed.

Lemma find_None_tag v : Sv.find v (Sv.lit ";tag=") 0 = None <-> (forall a b, v <> a ++ Sv.lit ";tag=" ++ b).
Proof. rewrite find_None by lia. by rewrite drop_0. Qed.

(** get_address, on every header value: between the first "<" and the next ">", when there
    is something there; without "<" all of the value up to the first ";tag="; nothing for an
    empty value, for "<" without ">" behind it and for "<>". *)
Theorem get_address_cases (n v : bytes) :
  exists r, SipParser.get_address (MkSipHeader n v) = Some r /\
    forall addr, r = Some addr <->
      (exists a b, v = a ++ 60 :: addr ++ 62 :: b /\ (60 ∉ a) /\ (62 ∉ addr) /\ addr <> []) \/
      ((60 ∉ v) /\ v <> [] /\
        ((v = addr /\ forall a b, v <> a ++ Sv.lit ";tag=" ++ b) \/
         (exists b, v = addr ++ Sv.lit ";tag=" ++ b /\ not_before (Sv.lit ";tag=") v (length addr)))).
Proof.
  unfold SipParser.get_address. cbn [value]. change (Sv.lit "<") with [60]. change (Sv.lit ">") with [62].
  destruct v as [|c v]; [exists None; split; [done|]; intros addr; split; [done|]; intros [(a & b & E & _)|(_ & ? & _)]; [by destruct a|done]|].
  set (w := c :: v). assert (Hw : w <> []) by done. clearbody w. clear c v.
  destruct (Sv.find w [60] 0) as [p|] eqn:Ep.
  - apply find_char_inv in Ep as (a & r & -> & Ha & ->). rewrite find_shift by (rewrite length_app; cbn; lia).
    replace (drop (length a + 1) (a ++ 60 :: r)) with r by (rewrite drop_app_ge by lia; by replace (length a + 1 - length a)%nat with 1%nat by lia).
    assert (Hin : 60 ∈ a ++ 60 :: r) by (apply elem_of_app; right; by left).
    destruct (Sv.find r [62] 0) as [q|] eqn:Eq; cbn [fmap option_fmap option_map].
    + apply find_char_inv in Eq as (addr & b & -> & Haddr & ->).
      assert (Hiff : forall x, (exists a' b', a ++ 60 :: addr ++ 62 :: b = a' ++ 60 :: x ++ 62 :: b' /\ (60 ∉ a') /\ (62 ∉ x) /\ x <> []) <-> x = addr /\ addr <> []).
      { intros x. split; [|intros [-> Hne]; by exists a, b]. intros (a' & b' & E & Ha' & Hx & Hne).
        apply split_unique in E as [_ E]; [|done|done]. by apply split_unique in E as [<- _]. }
      destruct (Nat.eqb_spec (length a + 1) (length a + 1 + length addr)) as [E|E].
      * exists None. split; [done|]. intros x. rewrite Hiff. split; [done|]. destruct addr; [|cbn in E; lia]. intros [[_ ?]|[? _]]; done.
      * rewrite substr_le by (rewrite !length_app; cbn; lia). cbn [mbind option_bind].
        replace (drop (length a + 1) (a ++ 60 :: addr ++ 62 :: b)) with (addr ++ 62 :: b) by (rewrite drop_app_ge by lia; by replace (length a + 1 - length a)%nat with 1%nat by lia).
        replace (length a + 1 + length addr - length a - 1)%nat with (length addr) by lia. rewrite take_app_length.
        exists (Some addr). split; [done|]. intros x. rewrite Hiff. split; [intros [= ->]; left; split; [done|]; intros ->; cbn in E; lia|]. intros [[-> _]|[? _]]; done.
    + apply find_char_absent in Eq. exists None. split; [done|]. intros x. split; [done|]. intros [(a' & b' & E & Ha' & _)|[? _]]; [|done].
      apply split_unique in E as [_ ->]; [|done|done]. destruct Eq. apply elem_of_app. right. by left.
  - apply find_char_absent in Ep. rewrite substr_le by lia. rewrite drop_0. cbn [mbind option_bind].
    assert (Hno : forall x, (exists a b, w = a ++ 60 :: x ++ 62 :: b /\ (60 ∉ a) /\ (62 ∉ x) /\ x <> []) -> False).
    { intros x (a & b & -> & _). destruct Ep. apply elem_of_app. right. by left. }
    eexists. split; [done|]. intros x. destruct (Sv.find w (Sv.lit ";tag=") 0) as [t|] eqn:Et.
    + apply find_Some in Et as (a & b & E & _ & -> & Hn). rewrite drop_0 in E. subst w. cbn [Nat.add]. rewrite take_app_length. split.
      * intros [= ->]. right. splits; try done. right. by exists b.
      * intros [H%Hno|(_ & _ & [[_ H]|(b' & E & Hn')])]; [done|by destruct (H a b)|]. f_equal. by eapply first_unique.
    + rewrite take_ge by done. rewrite find_None_tag in Et. split.
      * intros [= ->]. right. splits; try done. by left.
      * intros [H%Hno|(_ & _ & [[-> _]|(b' & E & _)])]; [done|done|by apply Et in E].
Qed.
