(* ===== verification/SipTransactions.v ===== *)
(** * The exercises over SIP messages: basic/exercises/01 to 03

    The request line, the header list and the grouping of a trace into transactions. A function
    returns None where the code would throw, index out of range or not end. *)

From stdpp Require Import gmap.
From S2P Require Import Prelude.
From S2P Require Import StringView.
From S2P Require Import SipMessage.
From Stdlib Require Import (notations) String.

(** starter_support.hpp: trim with find_first_not_of and find_last_not_of. *)
Definition trim (text : bytes) : option bytes :=
  match Sv.find_first (fun c => negb (is_blank c)) text with
  | None => Some []
  | Some first =>
      last ← Sv.find_last (fun c => negb (is_blank c)) text;
      Sv.substr text first (Some (last - first + 1)%nat)
  end.

Module Day01.

Record RequestLine := MkRequestLine { method : bytes; uri : bytes; version : bytes }.

Definition parse_request_line (input : bytes) : option (option RequestLine) :=
  match input with
  | [] => Some None
  | _ =>
      match Sv.find input [32] 0 with
      | None => Some None
      | Some space1 =>
          if (space1 =? 0)%nat then Some None else
          match Sv.find input [32] (space1 + 1) with
          | None => Some None
          | Some space2 =>
              if (space2 =? space1 + 1)%nat then Some None else
              match Sv.find input [32] (space2 + 1) with
              | Some _ => Some None
              | None =>
                  method ← Sv.substr input 0 (Some space1);
                  uri ← Sv.substr input (space1 + 1) (Some (space2 - space1 - 1)%nat);
                  version ← Sv.substr input (space2 + 1) None;
                  Some (if bool_decide (method = []) || bool_decide (uri = []) || negb (bool_decide (version = Sv.lit "SIP/2.0"))
                        then None else Some (MkRequestLine method uri version))
              end
          end
      end
  end.

End Day01.

Module Day02.

(** while (!line.empty()) *)
Fixpoint headers_loop (fuel : nat) (line : bytes) (headers : list SipHeader) : option (list SipHeader) :=
  match line with
  | [] => Some headers
  | _ =>
      match fuel with
      | O => None
      | S fuel =>
          match Sv.find line CRLF 0 with
          | None => Some headers
          | Some crlf =>
              header ← Sv.substr line 0 (Some crlf);
              match Sv.find header (Sv.lit ":") 0 with
              | None => Some headers
              | Some colon =>
                  name ← (before ← Sv.substr header 0 (Some colon); trim before);
                  value ← (after ← Sv.substr header (colon + 1) None; trim after);
                  rest ← Sv.substr line (crlf + 2) None;
                  headers_loop fuel rest (headers ++ [MkSipHeader name value])
              end
          end
      end
  end.

Definition parse_headers (block : bytes) : option (list SipHeader) := headers_loop (length block) block [].

End Day02.

Module Day03.

Record ViaParts := MkViaParts { via_branch : bytes; via_sent_by : bytes }.

Record CSeqParts := MkCSeqParts { number : Z; cseq_method : bytes }.

Record TransactionKey := MkTransactionKey { branch : bytes; sent_by : bytes; method : bytes }.

Record Transaction := MkTransaction { key : TransactionKey; message_indices : list nat }.

#[export] Instance transaction_key_eq_dec : EqDecision TransactionKey.
Proof. solve_decision. Defined.

#[export] Instance transaction_key_countable : Countable TransactionKey.
Proof.
  apply (inj_countable' (fun k => (branch k, sent_by k, method k)) (fun '(b, s, m) => MkTransactionKey b s m)).
  by intros [].
Defined.

Abbreviation TransactionGroups := (gmap TransactionKey (list nat)).

(** substr(0, n) with the result of a search as [n]: npos takes all. *)
Definition upto (s : bytes) (n : option nat) : option bytes := Sv.substr s 0 (Some (match n with Some n => n | None => length s end)).

(** while (!params.empty()) *)
Fixpoint params_loop (fuel : nat) (params : bytes) : option bytes :=
  match params with
  | [] => Some []
  | _ =>
      match fuel with
      | O => None
      | S fuel =>
          let next := Sv.find params [59] 0 in
          param ← (p ← upto params next; trim p);
          params ← match next with None => Some [] | Some next => Sv.substr params (next + 1) None end;
          match Sv.find param [61] 0 with
          | None => params_loop fuel params
          | Some equal =>
              name ← (n ← Sv.substr param 0 (Some equal); trim n);
              parameter_value ← (v ← Sv.substr param (equal + 1) None; trim v);
              if bool_decide (name = Sv.lit "branch") && negb (bool_decide (parameter_value = []))
              then Some parameter_value
              else params_loop fuel params
          end
      end
  end.

Definition parse_via (value : bytes) : option (option ViaParts) :=
  match Sv.find value [32] 0 with
  | None => Some None
  | Some space =>
      after_transport ← (a ← Sv.substr value (space + 1) None; trim a);
      match after_transport with
      | [] => Some None
      | _ =>
          let semi := Sv.find after_transport [59] 0 in
          sent_by ← (s ← upto after_transport semi; trim s);
          match sent_by with
          | [] => Some None
          | _ =>
              branch ← match semi with
                       | None => Some []
                       | Some semi => params ← Sv.substr after_transport (semi + 1) None; params_loop (length params) params
                       end;
              Some (match branch with [] => None | _ => Some (MkViaParts branch sent_by) end)
          end
      end
  end.

Definition parse_cseq (value : bytes) : option (option CSeqParts) :=
  trimmed ← trim value;
  match Sv.from_chars trimmed with
  | None => Some None
  | Some (number, rest) =>
      match rest with
      | [] => Some None
      | c :: _ =>
          if negb (c =? 32) && negb (c =? 9) then Some None else
          rest ← trim rest;
          match rest with
          | [] => Some None
          | _ =>
              let token_end := Sv.find_first is_blank rest in
              method ← upto rest token_end;
              match method with
              | [] => Some None
              | _ =>
                  extra ← match token_end with
                          | None => Some []
                          | Some token_end => e ← Sv.substr rest token_end None; trim e
                          end;
                  Some (match extra with [] => Some (MkCSeqParts number method) | _ => None end)
              end
          end
      end
  end.

Definition find_header_value (message : SipMessage) (name : bytes) : option bytes := value <$> SipParser.find_header message name.

(** groups and first_seen_order *)
Definition add_to_group (st : TransactionGroups * list TransactionKey) (key : TransactionKey) (message_index : nat) : TransactionGroups * list TransactionKey :=
  let '(groups, first_seen_order) := st in
  let '(it, first_seen_order) :=
    match groups !! key with
    | Some indices => (indices, first_seen_order)
    | None => ([], first_seen_order ++ [key])
    end in
  (<[key := it ++ [message_index]]> groups, first_seen_order).

(** std::any_of over indices of messages. *)
Fixpoint any_message (f : SipMessage -> option bool) (message_indices : list nat) (messages : list SipMessage) : option bool :=
  match message_indices with
  | [] => Some false
  | index :: rest =>
      message ← messages !! index;
      b ← f message;
      if (b : bool) then Some true else any_message f rest messages
  end.

Definition has_failure_response (message_indices : list nat) (messages : list SipMessage) : option bool :=
  any_message (fun message => Some (match kind message with response => true | request => false end && (300 <=? status_code message) && (status_code message <=? 699)))
    message_indices messages.

Definition has_matching_invite (message_indices : list nat) (cseq_number : Z) (messages : list SipMessage) : option bool :=
  any_message (fun message =>
    match find_header_value message (Sv.lit "CSeq") with
    | None => Some false
    | Some cseq_value =>
        cseq ← parse_cseq cseq_value;
        Some (match cseq with
              | None => false
              | Some cseq => (number cseq =? cseq_number) && bool_decide (cseq_method cseq = Sv.lit "INVITE")
              end)
    end) message_indices messages.

(** One round of the loop over the messages. *)
Definition group_message (messages : list SipMessage) (st : TransactionGroups * list TransactionKey) (index : nat) (message : SipMessage) :
    option (TransactionGroups * list TransactionKey) :=
  match find_header_value message (Sv.lit "Via"), find_header_value message (Sv.lit "CSeq") with
  | Some via_value, Some cseq_value =>
      via ← parse_via via_value;
      cseq ← parse_cseq cseq_value;
      match via, cseq with
      | Some via, Some cseq =>
          let invite_key := MkTransactionKey (via_branch via) (via_sent_by via) (Sv.lit "INVITE") in
          let is_request := match kind message with request => true | response => false end in
          if is_request && bool_decide (cseq_method cseq = Sv.lit "ACK") then
            match st.1 !! invite_key with
            | None => Some st
            | Some invite =>
                failed ← has_failure_response invite messages;
                Some (if (failed : bool) then (<[invite_key := invite ++ [index]]> st.1, st.2) else st)
            end
          else if is_request && bool_decide (cseq_method cseq = Sv.lit "CANCEL") then
            match st.1 !! invite_key with
            | None => Some st
            | Some invite =>
                matching ← has_matching_invite invite (number cseq) messages;
                Some (if (matching : bool) then add_to_group st (MkTransactionKey (via_branch via) (via_sent_by via) (cseq_method cseq)) index else st)
            end
          else Some (add_to_group st (MkTransactionKey (via_branch via) (via_sent_by via) (cseq_method cseq)) index)
      | _, _ => Some st
      end
  | _, _ => Some st
  end.

Fixpoint group_loop (messages : list SipMessage) (index : nat) (rest : list SipMessage) (st : TransactionGroups * list TransactionKey) :
    option (TransactionGroups * list TransactionKey) :=
  match rest with
  | [] => Some st
  | message :: rest => st ← group_message messages st index message; group_loop messages (S index) rest st
  end.

Definition find_transactions (messages : list SipMessage) : option (list Transaction) :=
  '(groups, first_seen_order) ← group_loop messages 0 messages (∅, []);
  mapM (fun key => indices ← groups !! key; Some (MkTransaction key indices)) first_seen_order.

End Day03.

(** ** The two trims agree *)

Lemma find_first_at_skip f a s i : Forall (fun c => f c = false) a -> Sv.find_first_at f (a ++ s) i = Sv.find_first_at f s (i + length a).
Proof.
  intros Ha. revert i. induction Ha as [|c a Hc Ha IH]; intros i; [cbn; f_equal; lia|]. cbn [app Sv.find_first_at]. rewrite Hc, IH. f_equal. cbn. lia.
Qed.

Lemma find_first_app f a c s : Forall (fun c => f c = false) a -> f c = true -> Sv.find_first f (a ++ c :: s) = Some (length a).
Proof. intros Ha Hc. unfold Sv.find_first. rewrite find_first_at_skip by done. cbn. by rewrite Hc. Qed.

Lemma find_first_None f s : Forall (fun c => f c = false) s -> Sv.find_first f s = None.
Proof. intros Hs. unfold Sv.find_first. rewrite <- (app_nil_r s), find_first_at_skip by done. done. Qed.

Lemma find_last_app f a c s : Forall (fun c => f c = false) s -> f c = true -> Sv.find_last f (a ++ c :: s) = Some (length a).
Proof.
  intros Hs Hc. unfold Sv.find_last. rewrite rev_app_distr. cbn [rev]. rewrite <- app_assoc. cbn [app].
  rewrite find_first_app by (done || by apply List.Forall_rev). cbn [fmap option_fmap option_map]. rewrite length_rev, length_app. cbn [length]. f_equal. lia.
Qed.

Lemma blank_not s : Forall is_blank s -> Forall (fun c => negb (is_blank c) = false) s.
Proof. intros H. eapply list.Forall_impl; [exact H|]. intros c Hc. apply Is_true_eq_true in Hc. cbn in Hc. by rewrite Hc. Qed.

Lemma trim_eq text : trim text = Some (SipParser.trim text).
Proof.
  unfold trim. destruct (sip_trim_spec text) as (a & b & E & Ha%blank_not & Hb%blank_not & Hf & Hl). destruct (SipParser.trim text) as [|c t].
  - rewrite E. cbn [app]. rewrite find_first_None by (apply list.Forall_app; done). done.
  - destruct (exists_last (l := c :: t)) as (u & d & Eu); [done|]. specialize (Hf _ _ eq_refl). specialize (Hl _ _ Eu).
    rewrite E at 1. cbn [app]. rewrite find_first_app by (done || by rewrite Hf). rewrite E at 1. rewrite Eu, <- app_assoc. cbn [app].
    rewrite (app_assoc a u), find_last_app by (done || by rewrite Hl). cbn [mbind option_bind].
    rewrite substr_le by (rewrite E, length_app; lia). rewrite E, drop_app_length, Eu. f_equal. rewrite length_app.
    replace (length a + length u - length a + 1)%nat with (length (u ++ [d])) by (rewrite length_app; cbn; lia). apply take_app_length.
Qed.

(** ** The laboratory's own traces *)

Definition crlf_text (lines : list String.string) : bytes := concat (map (fun l => Sv.lit l ++ CRLF) lines).

Definition kTransactionTrace : bytes :=
  concat (map (fun m => crlf_text m ++ CRLF) [
    ["INVITE sip:bob@example.com SIP/2.0"%string; "Via: SIP/2.0/UDP client.example.com;branch=z9hG4bK-invite-a"%string; "From: <sip:alice@example.com>;tag=from-a"%string; "To: <sip:bob@example.com>"%string; "Call-ID: transaction-a"%string; "CSeq: 10 INVITE"%string];
    ["SIP/2.0 180 Ringing"%string; "Via: SIP/2.0/UDP client.example.com;branch=z9hG4bK-invite-a"%string; "From: <sip:alice@example.com>;tag=from-a"%string; "To: <sip:bob@example.com>;tag=to-a"%string; "Call-ID: transaction-a"%string; "CSeq: 10 INVITE"%string];
    ["INVITE sip:bob@example.com SIP/2.0"%string; "Via: SIP/2.0/UDP client.example.com;branch=z9hG4bK-invite-b"%string; "From: <sip:alice@example.com>;tag=from-b"%string; "To: <sip:bob@example.com>"%string; "Call-ID: transaction-a"%string; "CSeq: 11 INVITE"%string];
    ["SIP/2.0 486 Busy Here"%string; "Via: SIP/2.0/UDP client.example.com;branch=z9hG4bK-invite-b"%string; "From: <sip:alice@example.com>;tag=from-b"%string; "To: <sip:bob@example.com>;tag=to-b"%string; "Call-ID: transaction-a"%string; "CSeq: 11 INVITE"%string];
    ["ACK sip:bob@example.com SIP/2.0"%string; "Via: SIP/2.0/UDP client.example.com;branch=z9hG4bK-invite-b"%string; "From: <sip:alice@example.com>;tag=from-b"%string; "To: <sip:bob@example.com>;tag=to-b"%string; "Call-ID: transaction-a"%string; "CSeq: 11 ACK"%string];
    ["CANCEL sip:bob@example.com SIP/2.0"%string; "Via: SIP/2.0/UDP client.example.com;branch=z9hG4bK-invite-a"%string; "From: <sip:alice@example.com>;tag=from-a"%string; "To: <sip:bob@example.com>"%string; "Call-ID: transaction-a"%string; "CSeq: 10 CANCEL"%string]
  ]).

Definition kTransactionEdgeTrace : bytes :=
  concat (map (fun m => crlf_text m ++ CRLF) [
    ["INVITE sip:bob@example.com SIP/2.0"%string; "Via: SIP/2.0/UDP client.example.com;branch=z9hG4bK-invite-2xx"%string; "From: <sip:alice@example.com>;tag=from-2xx"%string; "To: <sip:bob@example.com>"%string; "Call-ID: transaction-edge"%string; "CSeq: 20 INVITE"%string];
    ["SIP/2.0 200 OK"%string; "Via: SIP/2.0/UDP client.example.com;branch=z9hG4bK-invite-2xx"%string; "From: <sip:alice@example.com>;tag=from-2xx"%string; "To: <sip:bob@example.com>;tag=to-2xx"%string; "Call-ID: transaction-edge"%string; "CSeq: 20 INVITE"%string];
    ["ACK sip:bob@example.com SIP/2.0"%string; "Via: SIP/2.0/UDP client.example.com;branch=z9hG4bK-invite-2xx"%string; "From: <sip:alice@example.com>;tag=from-2xx"%string; "To: <sip:bob@example.com>;tag=to-2xx"%string; "Call-ID: transaction-edge"%string; "CSeq: 20 ACK"%string];
    ["INVITE sip:bob@example.com SIP/2.0"%string; "Via: SIP/2.0/UDP client.example.com"%string; "From: <sip:alice@example.com>;tag=from-nobranch"%string; "To: <sip:bob@example.com>"%string; "Call-ID: transaction-edge"%string; "CSeq: 21 INVITE"%string];
    ["INVITE sip:bob@example.com SIP/2.0"%string; "Via: SIP/2.0/UDP client.example.com;branch="%string; "From: <sip:alice@example.com>;tag=from-emptybranch"%string; "To: <sip:bob@example.com>"%string; "Call-ID: transaction-edge"%string; "CSeq: 22 INVITE"%string];
    ["INVITE sip:bob@example.com SIP/2.0"%string; "Via: SIP/2.0/UDP client.example.com;branch=z9hG4bK-bad-cseq"%string; "From: <sip:alice@example.com>;tag=from-badcseq"%string; "To: <sip:bob@example.com>"%string; "Call-ID: transaction-edge"%string; "CSeq: INVITE"%string];
    ["INVITE sip:bob@example.com SIP/2.0"%string; "Via: SIP/2.0/UDP client.example.com;branch=z9hG4bK-bad-cseq-no-space"%string; "From: <sip:alice@example.com>;tag=from-bad-cseq-no-space"%string; "To: <sip:bob@example.com>"%string; "Call-ID: transaction-edge"%string; "CSeq: 23INVITE"%string];
    ["INVITE sip:bob@example.com SIP/2.0"%string; "Via: SIP/2.0/UDP client.example.com;branch=z9hG4bK-bad-cseq-extra"%string; "From: <sip:alice@example.com>;tag=from-bad-cseq-extra"%string; "To: <sip:bob@example.com>"%string; "Call-ID: transaction-edge"%string; "CSeq: 24 INVITE extra"%string];
    ["INVITE sip:bob@example.com SIP/2.0"%string; "Via: SIP/2.0/UDP client.example.com;branch=z9hG4bK-bad-cseq-missing"%string; "From: <sip:alice@example.com>;tag=from-bad-cseq-missing"%string; "To: <sip:bob@example.com>"%string; "Call-ID: transaction-edge"%string; "CSeq: 25 "%string];
    ["CANCEL sip:bob@example.com SIP/2.0"%string; "Via: SIP/2.0/UDP client.example.com;branch=z9hG4bK-invite-2xx"%string; "From: <sip:alice@example.com>;tag=from-2xx"%string; "To: <sip:bob@example.com>"%string; "Call-ID: transaction-edge"%string; "CSeq: 21 CANCEL"%string]
  ]).

Definition transactions_of (trace : bytes) : option (list Day03.Transaction) :=
  match SipParser.parse_message_series trace with
  | Some (Some messages) => Day03.find_transactions messages
  | _ => None
  end.

Example main_trace_groups : map Day03.message_indices <$> transactions_of kTransactionTrace = Some [[0; 1]; [2; 3; 4]; [5]]%nat.
Proof. vm_compute. reflexivity. Qed.

Example edge_trace_groups : map Day03.message_indices <$> transactions_of kTransactionEdgeTrace = Some [[0; 1]]%nat.
Proof. vm_compute. reflexivity. Qed.
