(* ===== verification/SipFields.v ===== *)
(** * What the exercises read in a request line, a header block, a Via and a CSeq value

    Each parser of SipTransactions.v against a declarative reading of the same text. *)

From stdpp Require Import gmap.
From S2P Require Import Prelude.
From S2P Require Import StringView.
From S2P Require Import SipMessage.
From S2P Require Import SipGrammar.
From S2P Require Import SipTransactions.
From Stdlib Require Import (notations) String.

(** ** Cutting at a character *)

(** The pieces of a text between the occurrences of a character. *)
Fixpoint split_on (c : Z) (s : bytes) : list bytes :=
  match s with
  | [] => [[]]
  | d :: s =>
      if d =? c then [] :: split_on c s
      else match split_on c s with p :: ps => (d :: p) :: ps | [] => [[d]] end
  end.

Lemma split_on_absent c s : (c ∉ s) -> split_on c s = [s].
Proof.
  induction s as [|d s IH]; [done|]. intros [Hd Hs]%not_elem_of_cons. cbn. by rewrite (proj2 (Z.eqb_neq d c)), IH by done.
Qed.

Lemma split_on_app c a b : (c ∉ a) -> split_on c (a ++ c :: b) = a :: split_on c b.
Proof.
  induction a as [|d a IH]; intros Hn; cbn [app split_on]; [by rewrite Z.eqb_refl|]. apply not_elem_of_cons in Hn as [Hd Hs].
  by rewrite (proj2 (Z.eqb_neq d c)), IH by done.
Qed.

(** A search for a character in both ways. *)
Lemma find_char_cases s c :
  (exists a b, s = a ++ c :: b /\ (c ∉ a) /\ Sv.find s [c] 0 = Some (length a)) \/ ((c ∉ s) /\ Sv.find s [c] 0 = None).
Proof.
  destruct (Sv.find s [c] 0) as [j|] eqn:E; [left|right; by apply find_char_absent in E].
  apply find_char_inv in E as (a & b & -> & Hn & ->). by exists a, b.
Qed.

Lemma drop_behind (a b : bytes) c : drop (length a + 1) (a ++ c :: b) = b.
Proof. rewrite drop_app_ge by lia. by replace (length a + 1 - length a)%nat with 1%nat by lia. Qed.

(** The two parts of [s] around the place a search for [c] has found. *)
Lemma substr_before (a b : bytes) c : Sv.substr (a ++ c :: b) 0 (Some (length a)) = Some a.
Proof. rewrite substr_le by lia. by rewrite drop_0, take_app_length. Qed.

Lemma substr_behind (a b : bytes) c : Sv.substr (a ++ c :: b) (length a + 1) None = Some b.
Proof. rewrite substr_le by (rewrite length_app; cbn; lia). by rewrite drop_behind. Qed.

Lemma upto_all (s : bytes) : Day03.upto s None = Some s.
Proof. unfold Day03.upto. rewrite substr_le by lia. by rewrite drop_0, take_ge. Qed.

Lemma upto_before (a b : bytes) c : Day03.upto (a ++ c :: b) (Some (length a)) = Some a.
Proof. apply substr_before. Qed.

(** ** Day 01 *)

(** The laboratory's two readers of a request line: this one is split_space and a version. *)
Lemma request_line_split input : Day01.parse_request_line input =
  r ← SipParser.split_space input;
  Some ('(m, u, v) ← r; if bool_decide (v = Sv.lit "SIP/2.0") then Some (Day01.MkRequestLine m u v) else None).
Proof.
  unfold Day01.parse_request_line, SipParser.split_space. destruct input as [|c0 s0]; [done|]. set (s := c0 :: s0). clearbody s. clear c0 s0.
  destruct (find_char_cases s 32) as [(a & r & -> & Ha & ->)|[_ ->]]; [|done]. rewrite find_shift, drop_behind by (rewrite length_app; cbn; lia).
  destruct (find_char_cases r 32) as [(b & c & -> & Hb & ->)|[_ ->]]; cbn [fmap option_fmap option_map]; [|by destruct (_ =? _)%nat].
  assert (Ed : drop (length a + 1 + length b + 1) (a ++ 32 :: b ++ 32 :: c) = c).
  { rewrite <- Nat.add_assoc, <- drop_drop, drop_behind. apply drop_behind. }
  rewrite find_shift, Ed by (rewrite !length_app; cbn; rewrite !length_app; cbn; lia).
  rewrite substr_before, !substr_le, Ed by (rewrite !length_app; cbn; rewrite ?length_app; cbn; lia).
  replace (length a + 1 + length b - length a - 1)%nat with (length b) by lia. rewrite drop_behind, take_app_length.
  destruct (Sv.find c [32] 0); cbn [fmap option_fmap option_map mbind option_bind].
  - destruct (length a =? 0)%nat; [done|]. by destruct (_ =? length a + 1)%nat.
  - destruct a as [|x a]; [done|]. destruct b as [|y b]; [rewrite Nat.add_0_r, Nat.eqb_refl; by destruct (_ =? 0)%nat|].
    rewrite (proj2 (Nat.eqb_neq (length (x :: a)) 0)) by (cbn; lia).
    rewrite (proj2 (Nat.eqb_neq (length (x :: a) + 1 + length (y :: b)) (length (x :: a) + 1))) by (cbn; lia).
    rewrite !(bool_decide_false (_ :: _ = [])) by done. cbn [orb]. destruct c; [by rewrite bool_decide_false by done|]. cbn [mbind option_bind].
    by destruct (bool_decide _).
Qed.

(** parse_request_line returns for every text, and a request line exactly for three
    non-empty fields without blanks, one blank between them, the last one "SIP/2.0". *)
Theorem parse_request_line_exact (input : bytes) :
  exists r, Day01.parse_request_line input = Some r /\
    forall m u v, r = Some (Day01.MkRequestLine m u v) <->
      input = m ++ 32 :: u ++ 32 :: v /\ (32 ∉ m) /\ (32 ∉ u) /\ m <> [] /\ u <> [] /\ v = Sv.lit "SIP/2.0".
Proof.
  rewrite request_line_split. destruct (split_space_spec input) as (r & -> & Hr). cbn [mbind option_bind]. eexists. split; [done|]. intros m u v. split.
  - destruct r as [[[m' u'] v']|]; [|done]. cbn [mbind option_bind]. case_bool_decide; [|done]. intros [= -> -> ->]. specialize (proj1 (Hr m u v) eq_refl). tauto.
  - intros (E & Hm & Hu & Hm' & Hu' & ->). rewrite (proj2 (Hr m u (Sv.lit "SIP/2.0"))).
    + cbn [mbind option_bind]. by rewrite bool_decide_true.
    + splits; try done. exact version_free.
Qed.

(** ** Day 02 *)

(** A line of the block as the exercise reads it: the name may be empty. *)
Definition field_of (line : bytes) : option SipHeader :=
  match Sv.span (fun c => negb (c =? 58)) line with
  | (n, _ :: v) => Some (MkSipHeader (SipParser.trim n) (SipParser.trim v))
  | _ => None
  end.

Lemma span_app (f : Z -> bool) a s : Forall f a -> (forall c t, s = c :: t -> f c = false) -> Sv.span f (a ++ s) = (a, s).
Proof.
  intros Ha Hs. induction Ha as [|c a Hc Ha IH]; cbn [app Sv.span].
  - destruct s as [|c s]; [done|]. cbn. by rewrite (Hs c s eq_refl).
  - apply Is_true_eq_true in Hc. by rewrite Hc, IH.
Qed.

Lemma not_char_Forall c a : (c ∉ a) -> Forall (fun d => negb (d =? c)) a.
Proof. intros Hn. apply list.Forall_forall. intros d Hd. destruct (Z.eqb_spec d c) as [->|]; [done|]. exact I. Qed.

Lemma field_of_app n v : (58 ∉ n) -> field_of (n ++ 58 :: v) = Some (MkSipHeader (SipParser.trim n) (SipParser.trim v)).
Proof. intros Hn. unfold field_of. rewrite span_app; [done|by apply not_char_Forall|]. by intros c t [= <- _]. Qed.

Lemma field_of_absent line : (58 ∉ line) -> field_of line = None.
Proof. intros Hn. unfold field_of. rewrite <- (app_nil_r line), span_app; [done|by apply not_char_Forall|done]. Qed.

(** The fields of the lines up to the first one without a colon. *)
Fixpoint fields_of (lines : list bytes) : list SipHeader :=
  match lines with
  | [] => []
  | line :: lines => match field_of line with Some h => h :: fields_of lines | None => [] end
  end.

(** The lines of a block: each up to its CRLF, what is behind the last CRLF is none. *)
Inductive BlockLines : bytes -> list bytes -> Prop :=
| block_end s : Sv.find s CRLF 0 = None -> BlockLines s []
| block_line l s lines : Sv.find (l ++ CRLF ++ s) CRLF 0 = Some (length l) -> BlockLines s lines -> BlockLines (l ++ CRLF ++ s) (l :: lines).

Lemma drop_line (l r : bytes) : drop (length l + 2) (l ++ CRLF ++ r) = r.
Proof. rewrite drop_app_ge by lia. by replace (length l + 2 - length l)%nat with 2%nat by lia. Qed.

Lemma headers_loop_spec fuel : forall s acc, (length s <= fuel)%nat ->
  exists lines, BlockLines s lines /\ Day02.headers_loop fuel s acc = Some (acc ++ fields_of lines).
Proof.
  induction fuel as [|fuel IH]; intros s acc Hlen.
  - destruct s; [|cbn in Hlen; lia]. exists []. rewrite app_nil_r. split; [by constructor|done].
  - destruct (Sv.find s CRLF 0) as [j|] eqn:E; cycle 1.
    { exists []. cbn [fields_of]. rewrite app_nil_r. split; [by constructor|]. cbn [Day02.headers_loop]. rewrite E. by destruct s. }
    apply find_Some in E as H. destruct H as (l & r & Es & _ & -> & _). rewrite drop_0 in Es. subst s. cbn [Nat.add] in E.
    destruct (IH r (acc ++ default [] ((fun h => [h]) <$> field_of l))) as (lines & Hl & El); [rewrite !length_app in Hlen; cbn in Hlen; lia|].
    exists (l :: lines). split; [by constructor|]. cbn [Day02.headers_loop].
    assert (Hne : exists c t, l ++ CRLF ++ r = c :: t) by (destruct l; by eexists _, _). destruct Hne as (c & t & Ec). rewrite Ec, <- Ec, E. clear c t Ec.
    rewrite !substr_le by (rewrite length_app; cbn; lia). cbn [mbind option_bind]. rewrite drop_0, take_app_length. change (Sv.lit ":") with [58].
    cbn [fields_of]. destruct (find_char_cases l 58) as [(n & v & -> & Hn & ->)|[Hn ->]]; cycle 1.
    { by rewrite field_of_absent, app_nil_r. }
    rewrite substr_before, substr_behind. cbn [mbind option_bind]. rewrite !trim_eq. cbn [mbind option_bind].
    rewrite field_of_app in El |- * by done. cbn [default fmap option_fmap option_map id] in El.
    rewrite drop_line.
    rewrite El, <- app_assoc. done.
Qed.

Lemma find_crlf_line l s : line_free l -> Sv.find (l ++ CRLF ++ s) CRLF 0 = Some (length l).
Proof. intros [H13 _]. rewrite find_start, find_at_skip by done. done. Qed.

Lemma block_lines_unique s lines : BlockLines s lines -> forall lines', BlockLines s lines' -> lines = lines'.
Proof.
  induction 1 as [s Hn|l s lines Hf Hl IH]; intros lines' H'; inversion H' as [s' Hn' E|l' s' lines'' Hf' Hl' E]; subst; try done.
  - by rewrite Hn in Hf'.
  - by rewrite Hf in Hn'.
  - assert (Some (length l') = Some (length l)) as [= Hlen] by (rewrite <- Hf', <- Hf; f_equal; exact E).
    apply app_inj_1 in E as [-> E]; [|done]. injection E as ->. f_equal. by apply IH.
Qed.

(** parse_headers returns for every block, the fields of its lines in their order up to the
    first line without a colon; a list of well-formed headers written out line by line, doubled
    names included, is read back. *)
Theorem parse_headers_lines (block : bytes) :
  (exists lines, BlockLines block lines /\ Day02.parse_headers block = Some (fields_of lines)) /\
  (forall hs, Forall wf_header hs -> Day02.parse_headers (concat (map (fun h => render_header h ++ CRLF) hs)) = Some hs).
Proof.
  unfold Day02.parse_headers. split; [by apply (headers_loop_spec (length block) block [])|]. intros hs Hw.
  assert (Hb : BlockLines (concat (map (fun h => render_header h ++ CRLF) hs)) (map render_header hs) /\ fields_of (map render_header hs) = hs).
  { induction Hw as [|h hs Hh Hw [IH1 IH2]]; [by split; [constructor|]|]. cbn [map concat fields_of]. rewrite <- app_assoc. split.
    - constructor; [|done]. apply find_crlf_line. by apply render_header_line.
    - destruct (render_header_line h Hh) as [(n & v & E & Hn & Htn & _ & Htv) _]. rewrite E, field_of_app, IH2 by done.
      apply trim_unique in Htn, Htv. rewrite Htn, Htv. by destruct h. }
  destruct Hb as [Hb Ef]. destruct (headers_loop_spec _ _ [] (Nat.le_refl (length (concat (map (fun h => render_header h ++ CRLF) hs))))) as (lines & Hl & ->).
  by rewrite (block_lines_unique _ _ Hl _ Hb), Ef.
Qed.

(** ** The Via value *)

(** A parameter "branch = value" with a value. *)
Definition param_branch (piece : bytes) : option bytes :=
  match Sv.span (fun c => negb (c =? 61)) (SipParser.trim piece) with
  | (n, _ :: v) =>
      if bool_decide (SipParser.trim n = Sv.lit "branch") && negb (bool_decide (SipParser.trim v = [])) then Some (SipParser.trim v) else None
  | _ => None
  end.

(** The first blank ends the transport; what is behind it is cut at the semicolons: sent-by
    and the parameters. *)
Definition via_reading (value : bytes) : option Day03.ViaParts :=
  match Sv.span (fun c => negb (c =? 32)) value with
  | (_, _ :: rest) =>
      match split_on 59 (SipParser.trim rest) with
      | sent_by :: params =>
          match SipParser.trim sent_by, omap param_branch params with
          | _ :: _, b :: _ => Some (Day03.MkViaParts b (SipParser.trim sent_by))
          | _, _ => None
          end
      | [] => None
      end
  | _ => None
  end.

Lemma span_absent c s : (c ∉ s) -> Sv.span (fun d => negb (d =? c)) s = (s, []).
Proof. intros Hn. rewrite <- (app_nil_r s) at 1. apply span_app; [by apply not_char_Forall|done]. Qed.

Lemma span_char c a b : (c ∉ a) -> Sv.span (fun d => negb (d =? c)) (a ++ c :: b) = (a, c :: b).
Proof. intros Hn. apply span_app; [by apply not_char_Forall|]. intros d t [= <- _]. by rewrite Z.eqb_refl. Qed.

Lemma param_branch_nonempty p b : param_branch p = Some b -> b <> [].
Proof.
  unfold param_branch. destruct (Sv.span _ _) as [n [|d v]]; [done|]. case_bool_decide; [|done]. case_bool_decide as Hv; [done|]. by intros [= <-].
Qed.

(** One round of the loop over the parameters. *)
Lemma params_loop_spec fuel : forall params, (length params <= fuel)%nat ->
  Day03.params_loop fuel params = Some (default [] (head (omap param_branch (split_on 59 params)))).
Proof.
  induction fuel as [|fuel IH]; intros params Hlen; (destruct params as [|c t] eqn:Ep; [done|]); [cbn in Hlen; lia|]. rewrite <- Ep in Hlen |- *.
  assert (Hround : forall piece rest, (length rest <= fuel)%nat ->
    (param ← trim piece;
     match Sv.find param [61] 0 with
     | None => Day03.params_loop fuel rest
     | Some equal =>
         name ← (n ← Sv.substr param 0 (Some equal); trim n);
         parameter_value ← (v ← Sv.substr param (equal + 1) None; trim v);
         if bool_decide (name = Sv.lit "branch") && negb (bool_decide (parameter_value = [])) then Some parameter_value else Day03.params_loop fuel rest
     end) = Some (match param_branch piece with Some b => b | None => default [] (head (omap param_branch (split_on 59 rest))) end)).
  { intros piece rest Hr. rewrite trim_eq. cbn [mbind option_bind]. unfold param_branch.
    destruct (find_char_cases (SipParser.trim piece) 61) as [(n & v & -> & Hn & ->)|[Hn ->]]; [|rewrite span_absent by done; by apply IH].
    rewrite substr_before, substr_behind, span_char by done. cbn [mbind option_bind]. rewrite !trim_eq. cbn [mbind option_bind].
    destruct (bool_decide _ && negb _); [done|by apply IH]. }
  cbn [Day03.params_loop]. rewrite Ep at 1. destruct (find_char_cases params 59) as [(a & b & -> & Ha & ->)|[Ha ->]].
  - rewrite upto_before, substr_behind, split_on_app by done. cbn [mbind option_bind]. specialize (Hround a b).
    rewrite trim_eq in Hround |- *.
    cbn [mbind option_bind] in Hround |- *. rewrite Hround by (rewrite length_app in Hlen; cbn in Hlen; lia). cbn [omap list_omap]. by destruct (param_branch a).
  - rewrite upto_all, split_on_absent by done. cbn [mbind option_bind]. specialize (Hround params []). rewrite trim_eq in Hround |- *.
    cbn [mbind option_bind] in Hround |- *. rewrite Hround by (cbn; lia). cbn [omap list_omap]. by destruct (param_branch params).
Qed.

Lemma head_params_nonempty ps b bs : omap param_branch ps = b :: bs -> b <> [].
Proof.
  intros E. assert (b ∈ omap param_branch ps) as Hin by (rewrite E; by left). apply list_elem_of_omap in Hin as (p & _ & Hp). by eapply param_branch_nonempty.
Qed.

Lemma parse_via_eq (value : bytes) : Day03.parse_via value = Some (via_reading value).
Proof.
  unfold Day03.parse_via, via_reading. destruct (find_char_cases value 32) as [(t & rest & -> & Ht & ->)|[Hn ->]]; [|by rewrite span_absent].
  rewrite span_char, substr_behind by done. cbn [mbind option_bind]. rewrite trim_eq. cbn [mbind option_bind].
  destruct (SipParser.trim rest) as [|c after] eqn:Ea; [done|]. rewrite <- Ea.
  destruct (find_char_cases (SipParser.trim rest) 59) as [(s & ps & -> & Hs & ->)|[Hn ->]].
  - rewrite upto_before, split_on_app, substr_behind by done. cbn [mbind option_bind]. rewrite trim_eq. cbn [mbind option_bind].
    destruct (SipParser.trim s) as [|d s']; [done|]. rewrite params_loop_spec by done. cbn [mbind option_bind].
    destruct (omap param_branch (split_on 59 ps)) as [|b bs] eqn:Eb; [done|]. apply head_params_nonempty in Eb. by destruct b.
  - rewrite upto_all, split_on_absent by done. cbn [mbind option_bind omap list_omap]. rewrite trim_eq. cbn [mbind option_bind].
    by destruct (SipParser.trim (SipParser.trim rest)).
Qed.

(** parse_via returns for every value: sent-by is what stands between the first blank and
    the first semicolon, the branch the first parameter named branch that has a value; nothing
    without a blank, a sent-by or such a parameter. *)
Theorem parse_via_reads (value : bytes) : Day03.parse_via value = Some (via_reading value).
Proof. apply parse_via_eq. Qed.

(** ** The CSeq value *)

(** A number of 32 bits, blanks, a method without blanks; blanks around both. *)
Definition CSeqReading (value : bytes) (n : Z) (m : bytes) : Prop :=
  exists digits c r, trimmed value (digits ++ c :: r) /\ digits <> [] /\ Forall Sv.is_digit digits /\ is_blank c = true /\
    n = Sv.digits_value digits /\ n < 4294967296 /\ trimmed r m /\ m <> [] /\ Forall (fun c => is_blank c = false) m.

Lemma find_first_cases f s : (exists a c b, s = a ++ c :: b /\ Forall (fun c => f c = false) a /\ f c = true /\ Sv.find_first f s = Some (length a)) \/
  (Forall (fun c => f c = false) s /\ Sv.find_first f s = None).
Proof.
  destruct (span_spec (fun c => negb (f c)) s) as (a & b & _ & -> & Ha & Hb).
  assert (Ha' : Forall (fun c => f c = false) a).
  { eapply list.Forall_impl; [exact Ha|]. intros c Hc. apply Is_true_eq_true in Hc. by destruct (f c). }
  destruct b as [|c b]; [right; rewrite app_nil_r; split; [done|by apply find_first_None]|].
  left. specialize (Hb c b eq_refl). exists a, c, b. destruct (f c) eqn:Ec; [|done]. splits; try done. by apply find_first_app.
Qed.

Lemma blank_not_digit c : is_blank c = true -> Sv.is_digit c = false.
Proof. unfold is_blank, Sv.is_digit. lia. Qed.

Lemma parse_cseq_spec (value : bytes) :
  exists r, Day03.parse_cseq value = Some r /\ forall n m, r = Some (Day03.MkCSeqParts n m) <-> CSeqReading value n m.
Proof.
  unfold Day03.parse_cseq. rewrite trim_eq. cbn [mbind option_bind].
  assert (Hrel : forall n m, CSeqReading value n m -> exists digits c r, SipParser.trim value = digits ++ c :: r /\ digits <> [] /\
    Sv.span Sv.is_digit (SipParser.trim value) = (digits, c :: r) /\ is_blank c = true /\ n = Sv.digits_value digits /\ n < 4294967296 /\
    SipParser.trim r = m /\ m <> [] /\ Forall (fun c => is_blank c = false) m).
  { intros n m (digits & c & r & Ht%trim_unique & Hd & Hdd & Hc & -> & Hn & Hr%trim_unique & Hm & Hmb). exists digits, c, r. rewrite Ht. splits; try done.
    apply span_app; [done|]. intros ? ? [= <- _]. by apply blank_not_digit. }
  unfold Sv.from_chars. destruct (span_spec Sv.is_digit (SipParser.trim value)) as (ds & rest & Es & Et & Hds & Hrest). rewrite Es in Hrel |- *.
  assert (Hnone : (forall n m, ~ CSeqReading value n m) -> exists r, Some (@None Day03.CSeqParts) = Some r /\
    forall n m, r = Some (Day03.MkCSeqParts n m) <-> CSeqReading value n m).
  { intros Hno. exists None. split; [done|]. intros n m. split; [done|]. by intros H%Hno. }
  destruct ds as [|d ds]; [apply Hnone; intros n m (? & ? & ? & _ & ? & [= <- _] & _)%Hrel; done|].
  destruct (Z.ltb_spec (Sv.digits_value (d :: ds)) 4294967296) as [Hv|Hv]; [|apply Hnone; intros n m (? & ? & ? & _ & _ & [= <- _] & _ & -> & ? & _)%Hrel; lia].
  destruct rest as [|c r]; [apply Hnone; intros n m (? & ? & ? & _ & _ & [=] & _)%Hrel|].
  destruct (is_blank c) eqn:Ec; cycle 1.
  { assert (negb (c =? 32) && negb (c =? 9) = true) as -> by (unfold is_blank in Ec; lia). apply Hnone.
    intros n m (? & ? & ? & _ & _ & [= _ <- _] & Hc & _)%Hrel. congruence. }
  assert (negb (c =? 32) && negb (c =? 9) = false) as -> by (unfold is_blank in Ec; lia). rewrite trim_eq. cbn [mbind option_bind].
  assert (Etr : SipParser.trim (c :: r) = SipParser.trim r).
  { unfold SipParser.trim. change (c :: r) with ([c] ++ r). by rewrite trim_front_blank by (repeat constructor; by rewrite Ec). }
  rewrite Etr. destruct (SipParser.trim r) as [|e t] eqn:Er; [apply Hnone; intros n m (? & ? & ? & _ & _ & [= _ _ <-] & _ & _ & _ & Hm & ? & _)%Hrel; congruence|].
  rewrite <- Er. destruct (sip_trim_spec r) as (ra & rb & _ & _ & _ & Hf & Hl).
  destruct (find_first_cases is_blank (SipParser.trim r)) as [(m & b & x & Em & Hm & Hb & ->)|[Hm ->]].
  - rewrite Em, upto_before. cbn [mbind option_bind]. destruct m as [|y m]; [rewrite (Hf _ _ Em) in Hb; done|].
    rewrite substr_le by (rewrite length_app; lia). rewrite drop_app_length. cbn [mbind option_bind]. rewrite trim_eq. cbn [mbind option_bind].
    destruct (SipParser.trim (b :: x)) as [|z w] eqn:Ex; cycle 1.
    { apply Hnone. intros n m' (? & ? & ? & _ & _ & [= _ _ <-] & _ & _ & _ & Hmm & _ & Hmb)%Hrel. rewrite <- Hmm, Em in Hmb.
      apply list.Forall_app in Hmb as [_ [Hbb _]%list.Forall_cons]. congruence. }
    exfalso. destruct (sip_trim_spec (b :: x)) as (u & v & E & Hu & Hvv & _). rewrite Ex in E. cbn [app] in E. destruct (exists_last (l := b :: x)) as (x' & z & Ez); [done|].
    rewrite Em, Ez, app_assoc in Hl. specialize (Hl _ _ eq_refl). assert (Forall is_blank (x' ++ [z])) as Hbl by (rewrite <- Ez, E; by apply list.Forall_app).
    apply list.Forall_app in Hbl as [_ [Hz _]%list.Forall_cons]. by rewrite Hl in Hz.
  - rewrite upto_all. cbn [mbind option_bind]. rewrite Er. eexists. split; [done|]. intros n m. split.
    + intros [= <- <-]. exists (d :: ds), c, r. rewrite <- Er. splits; try done; [|apply sip_trim_spec|by rewrite Er]. rewrite <- Et. apply sip_trim_spec.
    + intros (? & ? & ? & _ & _ & [= <- <- <-] & _ & -> & _ & <- & _)%Hrel. by rewrite Er.
Qed.

(** parse_cseq returns for every value, and a number and a method exactly when the trimmed
    value is a decimal number below 2^32, blanks and one token. *)
Theorem parse_cseq_exact (value : bytes) :
  exists r, Day03.parse_cseq value = Some r /\ forall n m, r = Some (Day03.MkCSeqParts n m) <-> CSeqReading value n m.
Proof. apply parse_cseq_spec. Qed.

(** A last line without CRLF is not read (the exercise's text says that only a trailing CRLF is
    ignored). *)
Lemma last_line_lost : Day02.parse_headers (Sv.lit "Via: a" ++ CRLF ++ Sv.lit "To: b") = Some [MkSipHeader (Sv.lit "Via") (Sv.lit "a")].
Proof. vm_compute. reflexivity. Qed.
