(* ===== verification/SipGrouping.v ===== *)
(** * What find_transactions finds: basic/exercises/03_sip_transaction

    Which message belongs to which transaction, as a relation on the messages before it; the
    loop over the map and the order of first sight computes exactly these groups. *)

From stdpp Require Import gmap sorting.
From S2P Require Import Prelude.
From S2P Require Import StringView.
From S2P Require Import SipMessage.
From S2P Require Import SipGrammar.
From S2P Require Import SipTransactions.
From S2P Require Import SipFields.
From Stdlib Require Import (notations) String.

Import Day03.

Abbreviation ACK := (Sv.lit "ACK").

Abbreviation CANCEL := (Sv.lit "CANCEL").

Abbreviation INVITE := (Sv.lit "INVITE").

(** ** The specification *)

(** The first Via and the first CSeq of a message are there and readable. *)
Definition usable (m : SipMessage) (via : ViaParts) (cseq : CSeqParts) : Prop :=
  (vv ← find_header_value m (Sv.lit "Via"); via_reading vv) = Some via /\
  exists cv, find_header_value m (Sv.lit "CSeq") = Some cv /\ CSeqReading cv (number cseq) (cseq_method cseq).

Definition key_of (via : ViaParts) (method : bytes) : TransactionKey := MkTransactionKey (via_branch via) (via_sent_by via) method.

Section Belongs.

Context (messages : list SipMessage).

(** Message [i] belongs to the transaction [k]: by its own branch, sent-by and method, except
    for two kinds of requests.  An ACK joins the INVITE transaction in which a failure response
    came before it; a CANCEL has a transaction of its own when the INVITE transaction holds,
    before it, a message with its number and the method INVITE. *)
Inductive Belongs : nat -> TransactionKey -> Prop :=
| belongs_own i m via cseq : messages !! i = Some m -> usable m via cseq ->
    (kind m = request -> cseq_method cseq <> ACK /\ cseq_method cseq <> CANCEL) ->
    Belongs i (key_of via (cseq_method cseq))
| belongs_ack i m via cseq j r : messages !! i = Some m -> usable m via cseq -> kind m = request -> cseq_method cseq = ACK ->
    (j < i)%nat -> Belongs j (key_of via INVITE) -> messages !! j = Some r -> kind r = response -> 300 <= status_code r <= 699 ->
    Belongs i (key_of via INVITE)
| belongs_cancel i m via cseq j r cv : messages !! i = Some m -> usable m via cseq -> kind m = request -> cseq_method cseq = CANCEL ->
    (j < i)%nat -> Belongs j (key_of via INVITE) -> messages !! j = Some r -> find_header_value r (Sv.lit "CSeq") = Some cv ->
    CSeqReading cv (number cseq) INVITE ->
    Belongs i (key_of via CANCEL).

(** ** The parsers, as the relation uses them *)

Lemma cseq_reading_unique v n m n' m' : CSeqReading v n m -> CSeqReading v n' m' -> n = n' /\ m = m'.
Proof.
  destruct (parse_cseq_spec v) as (r & _ & Hr). intros H1%Hr H2%Hr. rewrite H1 in H2. by injection H2 as -> ->.
Qed.

Lemma usable_unique m via cseq via' cseq' : usable m via cseq -> usable m via' cseq' -> via = via' /\ cseq = cseq'.
Proof.
  intros (Hv & cv & Hc & Hr) (Hv' & cv' & Hc' & Hr'). rewrite Hv in Hv'. injection Hv' as ->. rewrite Hc in Hc'. injection Hc' as ->.
  destruct (cseq_reading_unique _ _ _ _ _ Hr Hr') as [En Em]. destruct cseq, cseq'. cbn in *. by subst.
Qed.

Lemma belongs_unique i k k' : Belongs i k -> Belongs i k' -> k = k'.
Proof.
  intros H1 H2. destruct H1 as [i m via cseq Hm Hu Hk|i m via cseq j r Hm Hu Hk Ha|i m via cseq j r cv Hm Hu Hk Ha];
    inversion H2 as [i' m' via' cseq' Hm' Hu' Hk'|i' m' via' cseq' j' r' Hm' Hu' Hk' Ha'|i' m' via' cseq' j' r' cv' Hm' Hu' Hk' Ha']; subst;
    rewrite Hm in Hm'; injection Hm' as <-; destruct (usable_unique _ _ _ _ _ Hu Hu') as [<- <-]; try done; try (rewrite Ha in Ha'; done).
  all: exfalso; first [destruct (Hk Hk') as [? ?]|destruct (Hk' Hk) as [? ?]]; congruence.
Qed.

(** What the rules say of one message. *)
Lemma belongs_own_iff i m via cseq k : messages !! i = Some m -> usable m via cseq ->
  (kind m = request -> cseq_method cseq <> ACK /\ cseq_method cseq <> CANCEL) ->
  Belongs i k <-> k = key_of via (cseq_method cseq).
Proof.
  intros Hm Hu Hk. split; [|intros ->; by eapply belongs_own]. intros H. eapply belongs_unique; [exact H|]. by eapply belongs_own.
Qed.

Lemma belongs_ack_iff i m via cseq k : messages !! i = Some m -> usable m via cseq -> kind m = request -> cseq_method cseq = ACK ->
  Belongs i k <-> k = key_of via INVITE /\ exists j r, (j < i)%nat /\ Belongs j (key_of via INVITE) /\ messages !! j = Some r /\
    kind r = response /\ 300 <= status_code r <= 699.
Proof.
  intros Hm Hu Hk Ha. split; [|intros (-> & j & r & ? & ? & ? & ? & ?); by eapply belongs_ack].
  intros H. destruct H as [i m' via' cseq' Hm' Hu' Hk'|i m' via' cseq' j r Hm' Hu' Hk' Ha'|i m' via' cseq' j r cv Hm' Hu' Hk' Ha'];
    rewrite Hm in Hm'; injection Hm' as <-; destruct (usable_unique _ _ _ _ _ Hu Hu') as [<- <-].
  - by destruct (Hk' Hk) as [? _].
  - split; [done|]. by exists j, r.
  - by rewrite Ha in Ha'.
Qed.

Lemma belongs_cancel_iff i m via cseq k : messages !! i = Some m -> usable m via cseq -> kind m = request -> cseq_method cseq = CANCEL ->
  Belongs i k <-> k = key_of via CANCEL /\ exists j r cv, (j < i)%nat /\ Belongs j (key_of via INVITE) /\ messages !! j = Some r /\
    find_header_value r (Sv.lit "CSeq") = Some cv /\ CSeqReading cv (number cseq) INVITE.
Proof.
  intros Hm Hu Hk Ha. split; [|intros (-> & j & r & cv & ? & ? & ? & ? & ?); by eapply belongs_cancel].
  intros H. destruct H as [i m' via' cseq' Hm' Hu' Hk'|i m' via' cseq' j r Hm' Hu' Hk' Ha'|i m' via' cseq' j r cv Hm' Hu' Hk' Ha'];
    rewrite Hm in Hm'; injection Hm' as <-; destruct (usable_unique _ _ _ _ _ Hu Hu') as [<- <-].
  - by destruct (Hk' Hk) as [_ ?].
  - by rewrite Ha in Ha'.
  - split; [done|]. by exists j, r, cv.
Qed.

Lemma belongs_lt i k : Belongs i k -> (i < length messages)%nat.
Proof. destruct 1; by eapply lookup_lt_Some. Qed.

(** ** Searching a group *)

Lemma any_message_spec f l : (forall m, is_Some (f m)) -> (forall j, j ∈ l -> (j < length messages)%nat) ->
  exists b, any_message f l messages = Some b /\ (b = true <-> exists j m, j ∈ l /\ messages !! j = Some m /\ f m = Some true).
Proof.
  intros Hf. induction l as [|j l IH]; intros Hl.
  - exists false. split; [done|]. split; [done|]. intros (j & m & Hj & _). by apply elem_of_nil in Hj.
  - destruct IH as (b & Eb & Hb); [intros i Hi; apply Hl; by right|]. destruct (lookup_lt_is_Some_2 messages j) as [m Hm]; [apply Hl; by left|].
    destruct (Hf m) as [c Hc]. exists (c || b). split.
    + cbn. rewrite Hm. cbn. rewrite Hc. cbn. by destruct c.
    + destruct c; cbn.
      * split; [|done]. intros _. exists j, m. splits; try done. by left.
      * rewrite Hb. split; [intros (i & m' & Hi & H); exists i, m'; split; [by right|done]|].
        intros (i & m' & Hi & Hm' & H). apply elem_of_cons in Hi as [->|Hi]; [congruence|]. by exists i, m'.
Qed.

Lemma has_failure_response_spec l : (forall j, j ∈ l -> (j < length messages)%nat) ->
  exists b, has_failure_response l messages = Some b /\
    (b = true <-> exists j r, j ∈ l /\ messages !! j = Some r /\ kind r = response /\ 300 <= status_code r <= 699).
Proof.
  intros Hl. unfold has_failure_response. edestruct (any_message_spec) as (b & -> & Hb); [|exact Hl|exists b; split; [done|]]; [by eexists|].
  rewrite Hb. split; intros (j & r & Hj & Hm & H); exists j, r; splits; try done.
  - injection H as H. by destruct (kind r).
  - injection H as H. destruct (kind r); [done|]. lia.
  - injection H as H. destruct (kind r); [done|]. lia.
  - destruct H as [-> ?]. f_equal. lia.
Qed.

Lemma has_matching_invite_spec l n : (forall j, j ∈ l -> (j < length messages)%nat) ->
  exists b, has_matching_invite l n messages = Some b /\
    (b = true <-> exists j r cv, j ∈ l /\ messages !! j = Some r /\ find_header_value r (Sv.lit "CSeq") = Some cv /\ CSeqReading cv n INVITE).
Proof.
  intros Hl. unfold has_matching_invite.
  set (f := fun message => match find_header_value message (Sv.lit "CSeq") with None => Some false | Some v => _ end).
  assert (Hf : forall m, exists b, f m = Some b /\ (b = true <-> exists cv, find_header_value m (Sv.lit "CSeq") = Some cv /\ CSeqReading cv n INVITE)).
  { intros m. unfold f. destruct (find_header_value m (Sv.lit "CSeq")) as [cv|]; cycle 1.
    { exists false. split; [done|]. split; [done|]. by intros (? & ? & _). }
    destruct (parse_cseq_spec cv) as (r & -> & Hr). cbn [mbind option_bind]. eexists. split; [done|]. destruct r as [[n' m']|]; cbn [number cseq_method].
    - pose proof (proj1 (Hr n' m') eq_refl) as Hr0. split.
      + intros [->%Z.eqb_eq ->%bool_decide_eq_true]%andb_true_iff. by exists cv.
      + intros (? & [= <-] & H'). destruct (cseq_reading_unique _ _ _ _ _ Hr0 H') as [-> ->]. by rewrite Z.eqb_refl, bool_decide_true.
    - split; [done|]. intros (? & [= <-] & H'%Hr). done. }
  destruct (any_message_spec f l) as (b & -> & Hb); [intros m; destruct (Hf m) as (b & -> & _); by eexists|done|].
  exists b. split; [done|]. rewrite Hb. split.
  - intros (j & m & Hj & Hm & H). destruct (Hf m) as (b' & E & Hb'). rewrite H in E. injection E as <-. destruct (proj1 Hb' eq_refl) as (cv & ? & ?). by exists j, m, cv.
  - intros (j & m & cv & Hj & Hm & H). exists j, m. splits; try done. destruct (Hf m) as (b' & -> & Hb'). f_equal. apply Hb'. by exists cv.
Qed.

End Belongs.

(** ** The loop *)

Definition members (groups : gmap TransactionKey (list nat)) (k : TransactionKey) : list nat := default [] (groups !! k).

Definition first_member (groups : gmap TransactionKey (list nat)) (k : TransactionKey) : nat := default 0%nat (head (members groups k)).

(** The groups after the first [n] messages. *)
Record Grouped (messages : list SipMessage) (n : nat) (st : gmap TransactionKey (list nat) * list TransactionKey) : Prop := {
  grouped_members k i : i ∈ members st.1 k <-> (i < n)%nat /\ Belongs messages i k;
  grouped_sorted k l : st.1 !! k = Some l -> l <> [] /\ StronglySorted lt l;
  grouped_order k : k ∈ st.2 <-> is_Some (st.1 !! k);
  grouped_first : StronglySorted lt (map (first_member st.1) st.2)
}.

Lemma sorted_snoc (l : list nat) n : StronglySorted lt l -> (forall i, i ∈ l -> (i < n)%nat) -> StronglySorted lt (l ++ [n]).
Proof.
  intros Hl Hn. apply StronglySorted_app_2; [|done|repeat constructor]. intros i j Hi ->%list_elem_of_singleton. by apply Hn.
Qed.

Lemma sorted_NoDup (l : list nat) : StronglySorted lt l -> NoDup l.
Proof.
  induction 1 as [|i l Hl IH Hi]; constructor; [|done]. intros Hin. rewrite list.Forall_forall in Hi. specialize (Hi i Hin). lia.
Qed.

Lemma first_in groups k l : groups !! k = Some l -> l <> [] -> first_member groups k ∈ members groups k.
Proof. unfold first_member, members. intros -> Hl. destruct l; [done|]. by left. Qed.

Lemma grouped_skip messages n st : Grouped messages n st -> (forall k, ~ Belongs messages n k) -> Grouped messages (S n) st.
Proof.
  intros [H1 H2 H3 H4] Hno. constructor; try done. intros k i. rewrite H1. split; [intros [? ?]; split; [lia|done]|].
  intros [Hi Hb]. split; [|done]. destruct (decide (i = n)) as [->|]; [by apply Hno in Hb|lia].
Qed.

Lemma grouped_add messages n st k : Grouped messages n st -> (forall k', Belongs messages n k' <-> k' = k) -> Grouped messages (S n) (add_to_group st k n).
Proof.
  destruct st as [groups order]. intros [H1 H2 H3 H4] Hk. cbn [fst snd] in *.
  assert (E : add_to_group (groups, order) k n = (<[k := members groups k ++ [n]]> groups, if decide (is_Some (groups !! k)) then order else order ++ [k])).
  { unfold add_to_group, members. destruct (groups !! k) as [l|]; [by rewrite decide_True by done|]. rewrite decide_False by (by intros [? ?]). done. }
  rewrite E. clear E. assert (Hin : forall k', members (<[k := members groups k ++ [n]]> groups) k' = if decide (k' = k) then members groups k ++ [n] else members groups k').
  { intros k'. unfold members at 1. destruct (decide (k' = k)) as [->|Hne]; [by rewrite lookup_insert_eq|by rewrite lookup_insert_ne]. }
  assert (Hlt : forall k' i, i ∈ members groups k' -> (i < n)%nat) by (intros k' i Hi; by apply H1 in Hi as [? _]).
  assert (Hfirst : forall k', k' ∈ order -> first_member (<[k := members groups k ++ [n]]> groups) k' = first_member groups k').
  { intros k' [l Hl]%H3. unfold first_member. rewrite Hin. destruct (decide (k' = k)) as [->|]; [|done]. unfold members. rewrite Hl.
    apply H2 in Hl as [Hne _]. by destruct l. }
  constructor; cbn [fst snd].
  - intros k' i. rewrite Hin. destruct (decide (k' = k)) as [->|Hne].
    + rewrite elem_of_app, H1, list_elem_of_singleton. split.
      * intros [[? ?]| ->]; split; try done; [lia|lia|by apply Hk].
      * intros [Hi Hb]. destruct (decide (i = n)) as [->|]; [by right|left; split; [lia|done]].
    + rewrite H1. split; [intros [? ?]; split; [lia|done]|]. intros [Hi Hb]. split; [|done].
      destruct (decide (i = n)) as [->|]; [by apply Hk in Hb|lia].
  - intros k' l. destruct (decide (k' = k)) as [->|Hne]; [rewrite lookup_insert_eq|rewrite lookup_insert_ne by done; apply H2].
    intros [= <-]. split; [by destruct (members groups k)|]. apply sorted_snoc; [|apply Hlt]. unfold members.
    destruct (groups !! k) eqn:El; [by apply (H2 k) in El as [_ ?]|apply SSorted_nil].
  - intros k'. rewrite lookup_insert_is_Some. destruct (decide (is_Some (groups !! k))) as [Hs|Hs].
    + rewrite H3. split; [intros ?; destruct (decide (k = k')); [by left|by right]|]. intros [<-|[_ ?]]; done.
    + rewrite elem_of_app, list_elem_of_singleton, H3. split.
      * intros [?| ->]; [|by left]. destruct (decide (k = k')); [by left|by right].
      * intros [<-|[_ ?]]; [by right|by left].
  - assert (Em : map (first_member (<[k:=members groups k ++ [n]]> groups)) order = map (first_member groups) order).
    { apply map_ext_in. intros k' Hk'. apply Hfirst. by apply list_elem_of_In. }
    destruct (decide (is_Some (groups !! k))) as [Hs|Hs]; [by rewrite Em|]. rewrite map_app, Em. cbn [map].
    assert (members groups k = []) as Enil by (unfold members; destruct (groups !! k); [by destruct Hs|done]).
    unfold first_member at 2. rewrite Hin, decide_True, Enil by done. apply sorted_snoc; [done|]. intros i (k' & -> & Hk')%list_elem_of_fmap.
    apply (Hlt k'). apply H3 in Hk' as [l Hl]. apply (first_in _ _ l Hl). by apply (H2 k').
Qed.

(** An index joins a group that is there. *)
Lemma add_to_existing st k n l : st.1 !! k = Some l -> add_to_group st k n = (<[k := l ++ [n]]> st.1, st.2).
Proof. destruct st as [groups order]. cbn. by intros ->. Qed.

Lemma group_message_spec messages n st m : messages !! n = Some m -> Grouped messages n st ->
  exists st', group_message messages st n m = Some st' /\ Grouped messages (S n) st'.
Proof.
  intros Hm Hg. pose proof Hg as [H1 H2 H3 H4].
  assert (Hlen : forall k l, st.1 !! k = Some l -> forall j, j ∈ l -> (j < length messages)%nat).
  { intros k l Hl j Hj. assert (Hj' : j ∈ members st.1 k) by (unfold members; by rewrite Hl). apply H1 in Hj' as [_ Hb]. by eapply belongs_lt. }
  assert (Hmem : forall k l, st.1 !! k = Some l -> forall j, j ∈ l <-> (j < n)%nat /\ Belongs messages j k).
  { intros k l Hl j. rewrite <- H1. unfold members. by rewrite Hl. }
  assert (Hno : (forall via cseq, ~ usable m via cseq) -> Grouped messages (S n) st).
  { intros Hu. apply grouped_skip; [done|]. intros k Hb. destruct Hb; simplify_eq; by eapply Hu. }
  unfold group_message. destruct (find_header_value m (Sv.lit "Via")) as [vv|] eqn:Ev; cycle 1.
  { exists st. split; [done|]. apply Hno. intros via cseq (Hv & _). by rewrite Ev in Hv. }
  destruct (find_header_value m (Sv.lit "CSeq")) as [cv|] eqn:Ec; cycle 1.
  { exists st. split; [done|]. apply Hno. intros via cseq (_ & ? & Hc & _). by rewrite Ec in Hc. }
  rewrite parse_via_eq. destruct (parse_cseq_spec cv) as (rc & -> & Hrc). cbn [mbind option_bind].
  destruct (via_reading vv) as [via|] eqn:Er; cycle 1.
  { exists st. split; [done|]. apply Hno. intros via cseq (Hv & _). rewrite Ev in Hv. cbn in Hv. by rewrite Er in Hv. }
  destruct rc as [cseq|]; cycle 1.
  { exists st. split; [done|]. apply Hno. intros via' cseq (_ & ? & Hc & Hr). rewrite Ec in Hc. injection Hc as <-. by apply Hrc in Hr. }
  assert (Hu : usable m via cseq).
  { split; [by rewrite Ev|]. exists cv. split; [done|]. apply Hrc. by destruct cseq. }
  clear Hno Hrc Er Ev Ec.
  fold (key_of via INVITE) (key_of via (cseq_method cseq)).
  destruct (kind m) eqn:Hk; cbn [andb]; cycle 1.
  { eexists. split; [done|]. apply grouped_add; [done|]. intros k. eapply belongs_own_iff; [done|done|congruence]. }
  case_bool_decide as Ha.
  - pose proof (fun k => belongs_ack_iff messages n m via cseq k Hm Hu Hk Ha) as Hb.
    destruct (st.1 !! key_of via INVITE) as [invite|] eqn:Ei; cycle 1.
    { exists st. split; [done|]. apply grouped_skip; [done|]. intros k (_ & j & r & Hj & Hbj & _)%Hb.
      assert (Hin : j ∈ members st.1 (key_of via INVITE)) by (by apply H1). unfold members in Hin. rewrite Ei in Hin. by apply elem_of_nil in Hin. }
    destruct (has_failure_response_spec messages invite (Hlen _ _ Ei)) as (b & -> & Hf). cbn [mbind option_bind]. eexists. split; [done|]. destruct b.
    + rewrite <- (add_to_existing _ _ _ _ Ei). apply grouped_add; [done|]. intros k. rewrite Hb. split; [by intros [-> _]|]. intros ->. split; [done|].
      destruct (proj1 Hf eq_refl) as (j & r & Hj & Hr). apply (Hmem _ _ Ei) in Hj as [? ?]. by exists j, r.
    + apply grouped_skip; [done|]. intros k (_ & j & r & Hj & Hbj & Hr)%Hb. assert (false = true); [|done]. apply Hf. exists j, r. split; [by apply (Hmem _ _ Ei)|done].
  - case_bool_decide as Hc; cycle 1.
    { eexists. split; [done|]. apply grouped_add; [done|]. intros k. by eapply belongs_own_iff. }
    pose proof (fun k => belongs_cancel_iff messages n m via cseq k Hm Hu Hk Hc) as Hb. rewrite Hc.
    destruct (st.1 !! key_of via INVITE) as [invite|] eqn:Ei; cycle 1.
    { exists st. split; [done|]. apply grouped_skip; [done|]. intros k (_ & j & r & cv' & Hj & Hbj & _)%Hb.
      assert (Hin : j ∈ members st.1 (key_of via INVITE)) by (by apply H1). unfold members in Hin. rewrite Ei in Hin. by apply elem_of_nil in Hin. }
    destruct (has_matching_invite_spec messages invite (number cseq) (Hlen _ _ Ei)) as (b & -> & Hf). cbn [mbind option_bind]. eexists. split; [done|]. destruct b.
    + apply grouped_add; [done|]. intros k. rewrite Hb. split; [by intros [-> _]|]. intros ->. split; [done|].
      destruct (proj1 Hf eq_refl) as (j & r & cv' & Hj & Hr). apply (Hmem _ _ Ei) in Hj as [? ?]. by exists j, r, cv'.
    + apply grouped_skip; [done|]. intros k (_ & j & r & cv' & Hj & Hbj & Hr)%Hb. assert (false = true); [|done]. apply Hf. exists j, r, cv'. split; [by apply (Hmem _ _ Ei)|done].
Qed.

Lemma group_loop_spec messages rest : forall n st, drop n messages = rest -> Grouped messages n st ->
  exists st', group_loop messages n rest st = Some st' /\ Grouped messages (n + length rest) st'.
Proof.
  induction rest as [|m rest IH]; intros n st E Hg; [exists st; by rewrite Nat.add_0_r|].
  assert (Hm : messages !! n = Some m) by (rewrite <- (Nat.add_0_r n), <- lookup_drop, E; done).
  destruct (group_message_spec messages n st m Hm Hg) as (st' & E' & Hg'). cbn. rewrite E'. cbn.
  rewrite Nat.add_succ_r. apply (IH (S n)); [|done]. rewrite (drop_S _ _ _ Hm) in E. by injection E.
Qed.

Lemma grouped_start messages : Grouped messages 0 (∅, []).
Proof.
  constructor; cbn; unfold members.
  - intros k i. rewrite lookup_empty. cbn. split; [by intros ?%elem_of_nil|lia].
  - intros k l. by rewrite lookup_empty.
  - intros k. rewrite lookup_empty. split; [by intros ?%elem_of_nil|by intros [? ?]].
  - apply SSorted_nil.
Qed.

(** The vector of transactions, from the order of first sight. *)
Lemma collect_spec (groups : gmap TransactionKey (list nat)) order : (forall k, k ∈ order -> is_Some (groups !! k)) ->
  exists ts, mapM (fun key => indices ← groups !! key; Some (MkTransaction key indices)) order = Some ts /\
    map key ts = order /\ forall k l, MkTransaction k l ∈ ts <-> k ∈ order /\ groups !! k = Some l.
Proof.
  induction order as [|k order IH]; intros Hs.
  - exists []. splits; try done. intros k l. split; [by intros ?%elem_of_nil|by intros [?%elem_of_nil _]].
  - destruct IH as (ts & E & Ek & Ht); [intros k' Hk'; apply Hs; by right|]. destruct (Hs k) as [l Hl]; [by left|].
    exists (MkTransaction k l :: ts). cbn. rewrite Hl. cbn. rewrite E. cbn. splits; [done|by rewrite Ek|]. intros k' l'. rewrite !elem_of_cons, Ht. split.
    + intros [[= -> ->]|[? ?]]; [split; [by left|done]|split; [by right|done]].
    + intros [[->|?] Hl']; [left; congruence|by right].
Qed.

(** C33. find_transactions returns for every series of messages (no index out of range, no key
    missing at the end); message i is listed under a key exactly when it belongs to that
    transaction (top Via branch, sent-by and CSeq method; an ACK with the INVITE transaction
    that failed before it, a CANCEL only behind an INVITE with its number); the indices of a
    transaction ascend, no key comes twice, and the transactions stand in the order of their
    first messages. *)
Theorem find_transactions_groups (messages : list SipMessage) :
  exists ts, find_transactions messages = Some ts /\
    (forall k i, (exists l, MkTransaction k l ∈ ts /\ i ∈ l) <-> Belongs messages i k) /\
    Forall (fun t => message_indices t <> [] /\ StronglySorted lt (message_indices t)) ts /\
    NoDup (map key ts) /\
    StronglySorted lt (map (fun t => default 0%nat (head (message_indices t))) ts).
Proof.
  unfold find_transactions. destruct (group_loop_spec messages messages 0 (∅, [])) as ([groups order] & -> & [H1 H2 H3 H4]); [done|apply grouped_start|].
  cbn [mbind option_bind fst snd] in *. destruct (collect_spec groups order) as (ts & -> & Ek & Ht); [intros k; by apply H3|].
  exists ts. splits; [done| | | |].
  - intros k i. transitivity (i ∈ members groups k).
    + unfold members. split.
      * intros (l & [_ Hl]%Ht & Hi). by rewrite Hl.
      * destruct (groups !! k) as [l|] eqn:El; [|by intros ?%elem_of_nil]. intros Hi. exists l. split; [|done]. apply Ht. split; [by apply H3; exists l|done].
    + rewrite H1. split; [by intros [_ ?]|]. intros Hb. split; [|done]. by eapply belongs_lt.
  - apply list.Forall_forall. intros [k l] [_ Hl]%Ht. by apply H2 in Hl.
  - rewrite Ek. eapply NoDup_fmap_1. eapply sorted_NoDup. exact H4.
  - assert (Em : map (fun t => default 0%nat (head (message_indices t))) ts = map (first_member groups) order).
    { rewrite <- Ek, map_map. apply map_ext_in. intros [k l] Hin%list_elem_of_In. apply Ht in Hin as [_ Hl]. unfold first_member, members. cbn. by rewrite Hl. }
    by rewrite Em.
Qed.
