(* ===== verification/ChatMessage.v ===== *)
(** * The messages of the text chat: text_chat/chat_message.hpp

    Four characters with the length of the body as a decimal number, then the body. *)

From S2P Require Import Prelude.

Definition header_length : Z := 4.

Definition max_body_length : Z := 512.

(** The array of 4 + 512 characters and the length. *)
Record chat_message := MkChatMessage { data_ : bytes; body_length_ : Z }.

(** ** The C library *)

(** isspace in the C locale. *)
Definition is_space (c : Z) : bool := (c =? 32) || ((9 <=? c) && (c <=? 13)).

Fixpoint skip_space (s : bytes) : bytes :=
  match s with
  | c :: s' => if is_space c then skip_space s' else s
  | [] => []
  end.

Definition is_decimal (c : Z) : bool := (48 <=? c) && (c <=? 57).

(** The value of the leading digits. *)
Fixpoint leading_digits (s : bytes) (acc : Z) : Z :=
  match s with
  | c :: s => if is_decimal c then leading_digits s (acc * 10 + (c - 48)) else acc
  | [] => acc
  end.

(** std::atoi: blanks, a sign, digits; zero without digits. *)
Definition atoi (s : bytes) : Z :=
  match skip_space s with
  | 45 :: s => - leading_digits s 0
  | 43 :: s => leading_digits s 0
  | s => leading_digits s 0
  end.

(** std::strncat of at most [n] characters of [src] to the empty string: up to the first NUL. *)
Fixpoint strncat (src : bytes) (n : nat) {struct n} : bytes :=
  match n, src with
  | S n, c :: src => if c =? 0 then [] else c :: strncat src n
  | _, _ => []
  end.

(** The decimal digits of a number that is not negative, the most significant first. *)
Fixpoint decimal (fuel : nat) (n : Z) (acc : bytes) : bytes :=
  match fuel with
  | O => acc
  | S fuel => if n <? 10 then (48 + n) :: acc else decimal fuel (n / 10) ((48 + n mod 10) :: acc)
  end.

(** std::sprintf of %4d for a number that is not negative (ten digits hold every int). *)
Definition sprintf_4d (n : Z) : bytes :=
  let digits := decimal 10 n [] in
  replicate (4 - length digits) 32 ++ digits.

(** ** The class *)

(** [l] with the octets [s] at [at_]. *)
Definition write_at (l : bytes) (at_ : nat) (s : bytes) : bytes := take at_ l ++ s ++ drop (at_ + length s) l.

Definition message_length (m : chat_message) : Z := header_length + body_length_ m.

Definition body (m : chat_message) : bytes := take (Z.to_nat (body_length_ m)) (drop 4 (data_ m)).

(** body_length(new_length) *)
Definition set_body_length (m : chat_message) (new_length : Z) : chat_message :=
  MkChatMessage (data_ m) (if new_length >? max_body_length then max_body_length else new_length).

Definition decode_header (m : chat_message) : bool * chat_message :=
  let header := strncat (data_ m) 4 in
  let body_length := u64 (atoi header) in
  if body_length >? max_body_length then (false, MkChatMessage (data_ m) 0) else (true, MkChatMessage (data_ m) body_length).

(** memcpy of the first four of the characters that sprintf has written. *)
Definition encode_header (m : chat_message) : chat_message :=
  MkChatMessage (write_at (data_ m) 0 (take 4 (sprintf_4d (body_length_ m)))) (body_length_ m).

(** The octets a write sends: length() of them from data(). *)
Definition wire (m : chat_message) : bytes := take (Z.to_nat (message_length m)) (data_ m).

(** A line typed at the client: chat_client.cpp, the loop of main ([memory] is what the array
    held). *)
Definition make_message (memory line : bytes) : chat_message :=
  let m := set_body_length (MkChatMessage memory 0) (zlen line) in
  encode_header (MkChatMessage (write_at (data_ m) 4 (take (Z.to_nat (body_length_ m)) line)) (body_length_ m)).

(** ** Lengths and headers *)

Definition wf_chat (m : chat_message) : Prop := length (data_ m) = 516%nat /\ 0 <= body_length_ m <= 512.

(** The header says the length of the body. *)
Definition framed (m : chat_message) : Prop := wf_chat m /\ decode_header m = (true, m).

Lemma length_write_at l at_ s : (at_ + length s <= length l)%nat -> length (write_at l at_ s) = length l.
Proof. intros H. unfold write_at. rewrite !length_app, length_take, length_drop. lia. Qed.

(** The text of a length, by trying them all. *)
Lemma sprintf_atoi n : 0 <= n <= 512 ->
  length (sprintf_4d n) = 4%nat /\ strncat (sprintf_4d n) 4 = sprintf_4d n /\ atoi (sprintf_4d n) = n.
Proof.
  assert (H : forallb (fun n => (length (sprintf_4d n) =? 4)%nat && bool_decide (strncat (sprintf_4d n) 4 = sprintf_4d n) && (atoi (sprintf_4d n) =? n))
    (map Z.of_nat (seq 0 513)) = true) by (vm_compute; reflexivity).
  intros Hn. rewrite forallb_forall in H. specialize (H n). rewrite !andb_true_iff, Nat.eqb_eq, bool_decide_eq_true, Z.eqb_eq in H.
  destruct H as [[? ?] ?]; [|done]. apply in_map_iff. exists (Z.to_nat n). split; [lia|]. apply in_seq. lia.
Qed.

Lemma strncat_app s t : length s = 4%nat -> strncat (s ++ t) 4 = strncat s 4.
Proof. destruct s as [|a [|b [|c [|d [|]]]]]; done. Qed.

Lemma decode_range m : wf_chat m -> wf_chat (decode_header m).2.
Proof.
  intros [Hl _]. unfold decode_header. pose proof (u64_range (atoi (strncat (data_ m) 4))) as Hr. unfold is_u64 in Hr.
  destruct (Z.gtb_spec (u64 (atoi (strncat (data_ m) 4))) max_body_length) as [H|H]; unfold max_body_length in H; split; cbn [data_ body_length_ snd]; done || lia.
Qed.

(** The header depends on the first four characters only. *)
Lemma decode_header_app h t n : length h = 4%nat ->
  decode_header (MkChatMessage (h ++ t) n) =
    ((decode_header (MkChatMessage h 0)).1, MkChatMessage (h ++ t) (body_length_ (decode_header (MkChatMessage h 0)).2)).
Proof.
  intros Hh. unfold decode_header. cbn [data_]. rewrite strncat_app by done. destruct (_ >? _); done.
Qed.

Lemma decode_framed m m' : wf_chat m -> decode_header m = (true, m') -> framed m'.
Proof.
  intros Hw E. pose proof (decode_range m Hw) as Hr. rewrite E in Hr. split; [done|]. unfold decode_header in E.
  destruct (_ >? _) eqn:Eb; [done|]. injection E as <-. unfold decode_header. cbn [data_]. by rewrite Eb.
Qed.

Lemma leading_digits_bound s : forall acc b, 0 <= acc < b -> 0 <= leading_digits s acc < b * 10 ^ zlen s.
Proof.
  induction s as [|c s IH]; intros acc b Hb; [cbn; lia|]. cbn [leading_digits length]. rewrite Nat2Z.inj_succ, Z.pow_succ_r by lia.
  pose proof (Z.pow_pos_nonneg 10 (zlen s)). destruct (is_decimal c) eqn:Ec; [|nia]. unfold is_decimal in Ec.
  specialize (IH (acc * 10 + (c - 48)) (b * 10) ltac:(lia)). nia.
Qed.

Lemma length_skip_space s : (length (skip_space s) <= length s)%nat.
Proof. induction s as [|c s IH]; [done|]. cbn. destruct (is_space c); cbn; lia. Qed.

Lemma length_strncat s n : (length (strncat s n) <= n)%nat.
Proof. revert s. induction n as [|n IH]; intros [|c s]; cbn; try lia. destruct (c =? 0); cbn; [lia|]. specialize (IH s). lia. Qed.

Lemma leading_bound s n : zlen s <= n -> 0 <= leading_digits s 0 < 10 ^ n.
Proof.
  intros Hl. destruct (leading_digits_bound s 0 1 ltac:(lia)) as [? H]. split; [done|]. rewrite Z.mul_1_l in H.
  eapply Z.lt_le_trans; [exact H|]. apply Z.pow_le_mono_r; lia.
Qed.

Lemma atoi_header s : - 10000 < atoi (strncat s 4) < 10000.
Proof.
  assert (Hl : zlen (skip_space (strncat s 4)) <= 4) by (pose proof (length_skip_space (strncat s 4)); pose proof (length_strncat s 4); lia).
  unfold atoi. generalize (skip_space (strncat s 4)) Hl. intros t Ht.
  assert (Hd : 0 <= leading_digits t 0 < 10 ^ 4) by by apply leading_bound.
  destruct t as [|c t]; [cbn; lia|]. assert (Hd' : 0 <= leading_digits t 0 < 10 ^ 4) by (apply leading_bound; cbn in Ht; lia).
  change (10 ^ 4) with 10000 in *. repeat case_match; lia.
Qed.

Lemma encode_header_eq m : wf_chat m -> encode_header m = MkChatMessage (sprintf_4d (body_length_ m) ++ drop 4 (data_ m)) (body_length_ m).
Proof.
  intros [_ Hn]. destruct (sprintf_atoi _ Hn) as (Hs & _). unfold encode_header, write_at. rewrite (take_ge (sprintf_4d _)) by lia. rewrite Hs. done.
Qed.

Lemma decode_encode m : wf_chat m -> decode_header (encode_header m) = (true, encode_header m).
Proof.
  intros Hw. rewrite encode_header_eq by done. destruct Hw as [Hl Hn]. destruct (sprintf_atoi _ Hn) as (Hs & Hc & Hat).
  rewrite decode_header_app by done. unfold decode_header. cbn [data_]. rewrite Hc, Hat, u64_id by (unfold is_u64; lia).
  assert ((body_length_ m >? max_body_length) = false) as -> by (unfold max_body_length; lia). done.
Qed.

Lemma wf_encode m : wf_chat m -> wf_chat (encode_header m).
Proof.
  intros Hw. rewrite encode_header_eq by done. destruct Hw as [Hl Hn]. destruct (sprintf_atoi _ Hn) as (Hs & _).
  split; cbn [data_ body_length_]; [|done]. rewrite length_app, length_drop. lia.
Qed.

(** decode_header accepts exactly the headers whose number is between 0 and 512, a number
    below zero (2^64 - 1 and the like as a size_t) and a larger one are refused and leave the
    length 0, so the length never exceeds the array; and the header that encode_header writes
    is read back. *)
Theorem chat_header_exact (m : chat_message) :
  ((decode_header m).1 = true <-> 0 <= atoi (strncat (data_ m) 4) <= 512) /\
  body_length_ (decode_header m).2 = (if (decode_header m).1 then atoi (strncat (data_ m) 4) else 0) /\
  (wf_chat m -> decode_header (encode_header m) = (true, encode_header m)).
Proof.
  pose proof (atoi_header (data_ m)) as Ha. splits.
  - unfold decode_header, u64, max_body_length. revert Ha. generalize (atoi (strncat (data_ m) 4)). intros z Ha.
    destruct (Z.gtb_spec (z mod 18446744073709551616) 512); cbn [fst]; split; try done; intros; dlia.
  - unfold decode_header, u64, max_body_length. revert Ha. generalize (atoi (strncat (data_ m) 4)). intros z Ha.
    destruct (Z.gtb_spec (z mod 18446744073709551616) 512); cbn [fst snd body_length_]; [done|dlia].
  - apply decode_encode.
Qed.

Lemma chat_header_witness : wf_chat (MkChatMessage (replicate 516 0) 37) /\
  decode_header (encode_header (MkChatMessage (replicate 516 0) 37)) = (true, encode_header (MkChatMessage (replicate 516 0) 37)).
Proof.
  assert (Hw : wf_chat (MkChatMessage (replicate 516 0) 37)) by (split; [vm_compute; reflexivity|cbn; lia]).
  split; [exact Hw|]. exact (proj2 (proj2 (chat_header_exact (MkChatMessage (replicate 516 0) 37))) Hw).
Defined.

(** What the client makes of a line. *)
Lemma make_message_framed memory line : length memory = 516%nat -> zlen line <= 512 ->
  framed (make_message memory line) /\ body (make_message memory line) = line.
Proof.
  intros Hm Hl. unfold make_message, set_body_length. assert ((zlen line >? max_body_length) = false) as -> by (unfold max_body_length; lia).
  cbn [data_ body_length_]. rewrite take_ge by lia. set (m := MkChatMessage (write_at memory 4 line) (zlen line)).
  assert (Hw : wf_chat m) by (split; cbn; [rewrite length_write_at; lia|lia]).
  split; [split; [by apply wf_encode|by apply decode_encode]|].
  rewrite encode_header_eq by done. destruct (sprintf_atoi (zlen line) ltac:(lia)) as (Hs & _). unfold body. cbn [data_ body_length_ m].
  rewrite drop_app_length' by done. unfold write_at. rewrite drop_app_length' by (rewrite length_take; lia). rewrite Nat2Z.id. apply take_app_length.
Qed.
