(* ===== verification/ChatRoom.v ===== *)
(** * The chat server: text_chat/chat_server.cpp

    The room, its sessions and the completion handlers of the asynchronous operations, each
    handler a function on the state of one chat_server.  The operations that are under way are
    part of the state: starting one while the same one is under way is an error ([None]).
    The order of a std::set of pointers is that of [elements]. *)

From stdpp Require Import gmap.
From S2P Require Import Prelude.
From S2P Require Import ChatMessage.

Inductive reading := read_header | read_body.

(** chat_session, with the read and the write that are under way and all messages whose write
    has been started on the socket. *)
Record chat_session := MkSession {
  read_msg_ : chat_message;
  write_msgs_ : list chat_message;
  under_read : option reading;
  under_write : bool;
  started : list chat_message
}.

(** chat_server with its chat_room; a session is known by a number. *)
Record chat_server := MkServer {
  participants_ : gset nat;
  recent_msgs_ : list chat_message;
  sessions : gmap nat chat_session;
  next_session : nat
}.

Definition max_recent_msgs : nat := 100.

Module Chat.

Definition set_session (st : chat_server) (p : nat) (s : chat_session) : chat_server :=
  MkServer (participants_ st) (recent_msgs_ st) (<[p := s]> (sessions st)) (next_session st).

(** chat_session::do_write *)
Definition do_write (st : chat_server) (p : nat) : option chat_server :=
  s ← sessions st !! p;
  check (negb (under_write s));;
  msg ← head (write_msgs_ s);
  Some (set_session st p (MkSession (read_msg_ s) (write_msgs_ s) (under_read s) true (started s ++ [msg]))).

(** chat_session::deliver *)
Definition session_deliver (st : chat_server) (p : nat) (msg : chat_message) : option chat_server :=
  s ← sessions st !! p;
  let write_in_progress := match write_msgs_ s with [] => false | _ => true end in
  let st := set_session st p (MkSession (read_msg_ s) (write_msgs_ s ++ [msg]) (under_read s) (under_write s) (started s)) in
  if negb write_in_progress then do_write st p else Some st.

(** for (auto participant: participants_) participant->deliver(msg) *)
Fixpoint deliver_to (st : chat_server) (ps : list nat) (msg : chat_message) : option chat_server :=
  match ps with
  | [] => Some st
  | p :: ps => st ← session_deliver st p msg; deliver_to st ps msg
  end.

(** while (recent_msgs_.size() > max_recent_msgs) recent_msgs_.pop_front() *)
Fixpoint trim_recent (recent : list chat_message) : list chat_message :=
  match recent with
  | [] => []
  | _ :: rest => if (max_recent_msgs <? length recent)%nat then trim_recent rest else recent
  end.

(** chat_room::deliver *)
Definition room_deliver (st : chat_server) (msg : chat_message) : option chat_server :=
  let st := MkServer (participants_ st) (trim_recent (recent_msgs_ st ++ [msg])) (sessions st) (next_session st) in
  deliver_to st (elements (participants_ st)) msg.

(** for (auto msg: recent_msgs_) participant->deliver(msg) *)
Fixpoint deliver_recent (st : chat_server) (p : nat) (recent : list chat_message) : option chat_server :=
  match recent with
  | [] => Some st
  | msg :: recent => st ← session_deliver st p msg; deliver_recent st p recent
  end.

(** chat_room::join *)
Definition room_join (st : chat_server) (p : nat) : option chat_server :=
  let st := MkServer ({[p]} ∪ participants_ st) (recent_msgs_ st) (sessions st) (next_session st) in
  deliver_recent st p (recent_msgs_ st).

(** chat_room::leave *)
Definition room_leave (st : chat_server) (p : nat) : chat_server :=
  MkServer (participants_ st ∖ {[p]}) (recent_msgs_ st) (sessions st) (next_session st).

(** do_read_header and do_read_body start a read. *)
Definition start_read (st : chat_server) (p : nat) (r : reading) : option chat_server :=
  s ← sessions st !! p;
  check (match under_read s with None => true | Some _ => false end);;
  Some (set_session st p (MkSession (read_msg_ s) (write_msgs_ s) (Some r) (under_write s) (started s))).

(** chat_session::start *)
Definition start (st : chat_server) (p : nat) : option chat_server := st ← room_join st p; start_read st p read_header.

(** A read of [p] has ended with these octets at [at_] of the array. *)
Definition end_read (st : chat_server) (p : nat) (at_ : nat) (octets : bytes) : option (chat_server * chat_message) :=
  s ← sessions st !! p;
  let msg := MkChatMessage (write_at (data_ (read_msg_ s)) at_ octets) (body_length_ (read_msg_ s)) in
  Some (set_session st p (MkSession msg (write_msgs_ s) None (under_write s) (started s)), msg).

(** What asio reports: a connection (with what the new session's array holds) or none, the end
    of a read with its octets or an error, the end of a write. *)
Inductive event :=
| Accepted (memory : option bytes)
| HeaderRead (p : nat) (octets : option bytes)
| BodyRead (p : nat) (octets : option bytes)
| Written (p : nat) (ok : bool).

(** A read that fails ends, too. *)
Definition fail_read (st : chat_server) (p : nat) : option chat_server :=
  '(st, _) ← end_read st p 0 [];
  Some (room_leave st p).

(** The completion handler of each operation. *)
Definition handle (st : chat_server) (ev : event) : option chat_server :=
  match ev with
  | Accepted None => Some st
  | Accepted (Some memory) =>
      let p := next_session st in
      let st := MkServer (participants_ st) (recent_msgs_ st) (<[p := MkSession (MkChatMessage memory 0) [] None false []]> (sessions st)) (S p) in
      start st p
  | HeaderRead p None => fail_read st p
  | HeaderRead p (Some octets) =>
      '(st, msg) ← end_read st p 0 octets;
      let '(ok, msg) := decode_header msg in
      s ← sessions st !! p;
      let st := set_session st p (MkSession msg (write_msgs_ s) (under_read s) (under_write s) (started s)) in
      if (ok : bool) then start_read st p read_body else Some (room_leave st p)
  | BodyRead p None => fail_read st p
  | BodyRead p (Some octets) =>
      '(st, msg) ← end_read st p 4 octets;
      st ← room_deliver st msg;
      start_read st p read_header
  | Written p ok =>
      s ← sessions st !! p;
      let st := set_session st p (MkSession (read_msg_ s) (write_msgs_ s) (under_read s) false (started s)) in
      if (ok : bool) then
        match write_msgs_ s with
        | [] => None
        | _ :: rest =>
            let st := set_session st p (MkSession (read_msg_ s) rest (under_read s) false (started s)) in
            match rest with
            | [] => Some st
            | _ => do_write st p
            end
        end
      else Some (room_leave st p)
  end.

(** chat_server before the first connection. *)
Definition init : chat_server := MkServer ∅ [] ∅ 0.

(** An operation that is under way can end: a read with as many octets as it asked for. *)
Definition enabled (st : chat_server) (ev : event) : Prop :=
  match ev with
  | Accepted None => True
  | Accepted (Some memory) => length memory = 516%nat
  | HeaderRead p octets => exists s, sessions st !! p = Some s /\ under_read s = Some read_header /\ forall o, octets = Some o -> length o = 4%nat
  | BodyRead p octets => exists s, sessions st !! p = Some s /\ under_read s = Some read_body /\ forall o, octets = Some o -> zlen o = body_length_ (read_msg_ s)
  | Written p ok => exists s, sessions st !! p = Some s /\ under_write s = true
  end.

(** The message that an event hands to the room. *)
Definition relayed (st : chat_server) (ev : event) : list chat_message :=
  match ev with
  | BodyRead p (Some octets) => match end_read st p 4 octets with Some (_, msg) => [msg] | None => [] end
  | _ => []
  end.

End Chat.

(** The states of a server, with the log of the messages that the room has relayed. *)
Inductive Run : list chat_message -> chat_server -> Prop :=
| run_init : Run [] Chat.init
| run_event log st ev st' : Run log st -> Chat.enabled st ev -> Chat.handle st ev = Some st' -> Run (log ++ Chat.relayed st ev) st'.
