(* ===== verification/ChatRelay.v ===== *)
(** * What the chat room relays to each session

    The invariant of the server over all runs of ChatRoom.v, and what a client reads in the
    octets that are written to it. *)

From stdpp Require Import gmap.
From S2P Require Import Prelude.
From S2P Require Import ChatMessage.
From S2P Require Import ChatRoom.

Import Chat.

(** Everything the room has handed to a session: what was started and what waits behind it. *)
Definition given (s : chat_session) : list chat_message := started s ++ tail (write_msgs_ s).

(** One session: a write under way is that of the front of the queue; a body is read only
    behind a header that announced it. *)
Record SessionOk (s : chat_session) : Prop := {
  session_write : under_write s = true -> exists m ms, write_msgs_ s = m :: ms /\ list.last (started s) = Some m;
  session_msg : wf_chat (read_msg_ s);
  session_body : under_read s = Some read_body -> framed (read_msg_ s)
}.

(** A session that takes part: something is written while the queue is not empty, and it
    reads. *)
Definition active (s : chat_session) : Prop := (under_write s = false -> write_msgs_ s = []) /\ under_read s <> None.

Record ServerOk (log : list chat_message) (st : chat_server) : Prop := {
  ok_recent : recent_msgs_ st = drop (length log - 100) log;
  ok_log : Forall framed log;
  ok_next p : is_Some (sessions st !! p) -> (p < next_session st)%nat;
  ok_parts p : p ∈ participants_ st -> is_Some (sessions st !! p);
  ok_session p s : sessions st !! p = Some s -> SessionOk s;
  ok_given p s : sessions st !! p = Some s -> exists i j, (i <= j <= length log)%nat /\ given s = take (j - i) (drop i log) /\
    (p ∈ participants_ st -> j = length log /\ active s)
}.

(** What a step has handed to the sessions that were there before: those that still take part
    have got exactly [ms]. *)
Definition hands (st st' : chat_server) (ms : list chat_message) : Prop :=
  forall q s, sessions st !! q = Some s -> exists s', sessions st' !! q = Some s' /\
    (q ∈ participants_ st' -> q ∈ participants_ st /\ given s' = given s ++ ms).

Definition Step (log : list chat_message) (st : chat_server) (ms : list chat_message) (st' : chat_server) : Prop :=
  ServerOk (log ++ ms) st' /\ hands st st' ms.

(** ** The pieces of the handlers *)

(** deliver on the session alone. *)
Definition enqueue (s : chat_session) (msg : chat_message) : chat_session :=
  match write_msgs_ s with
  | [] => MkSession (read_msg_ s) [msg] (under_read s) true (started s ++ [msg])
  | w => MkSession (read_msg_ s) (w ++ [msg]) (under_read s) (under_write s) (started s)
  end.

Lemma set_session_twice st p s s' : set_session (set_session st p s) p s' = set_session st p s'.
Proof. unfold set_session. cbn. by rewrite insert_insert_eq. Qed.

Lemma set_session_lookup st p s : sessions (set_session st p s) !! p = Some s.
Proof. apply lookup_insert_eq. Qed.

Lemma session_deliver_eq st p s msg : sessions st !! p = Some s -> SessionOk s -> session_deliver st p msg = Some (set_session st p (enqueue s msg)).
Proof.
  intros Hs [Hw _ _]. unfold session_deliver, enqueue. rewrite Hs. cbn [mbind option_bind]. destruct (write_msgs_ s) as [|m w] eqn:Ew; cbn [negb]; [|done].
  unfold do_write. rewrite set_session_lookup. cbn [mbind option_bind under_write write_msgs_ app head read_msg_ under_read started].
  destruct (under_write s); [destruct Hw as (? & ? & ? & _); done|]. cbn. by rewrite set_session_twice.
Qed.

Lemma enqueue_given s msg : given (enqueue s msg) = given s ++ [msg].
Proof. unfold given, enqueue. destruct (write_msgs_ s) as [|m w]; cbn; [by rewrite !app_nil_r|by rewrite app_assoc]. Qed.

Lemma enqueue_ok s msg : SessionOk s -> SessionOk (enqueue s msg).
Proof.
  intros [Hw Hm Hb]. unfold enqueue. destruct (write_msgs_ s) as [|m w] eqn:Ew; constructor; cbn; try done.
  - intros _. exists msg, []. by rewrite list.last_snoc.
  - intros Hu. destruct (Hw Hu) as (m' & ms & [= <- <-] & Hl). by exists m, (w ++ [msg]).
Qed.

Lemma enqueue_active s msg : active s -> active (enqueue s msg).
Proof. intros [Ha Hr]. unfold active, enqueue. destruct (write_msgs_ s) as [|m w]; cbn; [done|]. split; [|done]. intros Hu. by specialize (Ha Hu). Qed.

Lemma enqueue_reads s msg : under_read (enqueue s msg) = under_read s /\ read_msg_ (enqueue s msg) = read_msg_ s.
Proof. unfold enqueue. by destruct (write_msgs_ s). Qed.

(** deliver to a list of sessions. *)
Lemma deliver_to_eq ps msg : forall st, NoDup ps -> (forall p, p ∈ ps -> exists s, sessions st !! p = Some s /\ SessionOk s) ->
  exists st', deliver_to st ps msg = Some st' /\ participants_ st' = participants_ st /\ recent_msgs_ st' = recent_msgs_ st /\
    next_session st' = next_session st /\
    forall q, sessions st' !! q = if decide (q ∈ ps) then (fun s => enqueue s msg) <$> sessions st !! q else sessions st !! q.
Proof.
  induction ps as [|p ps IH]; intros st Hnd Hs.
  - exists st. splits; try done.
  - apply list.NoDup_cons in Hnd as [Hp Hnd]. destruct (Hs p) as (s & Hl & Hok); [by left|]. cbn [deliver_to]. rewrite (session_deliver_eq _ _ _ _ Hl Hok).
    cbn [mbind option_bind]. destruct (IH (set_session st p (enqueue s msg)) Hnd) as (st' & -> & H1 & H2 & H3 & H4).
    { intros q Hq. destruct (Hs q) as (sq & Hlq & Hokq); [by right|]. exists sq. cbn. rewrite lookup_insert_ne by (intros ->; done). done. }
    exists st'. splits; try done. intros q. rewrite H4. cbn. destruct (decide (q = p)) as [->|Hne].
    + rewrite decide_False, decide_True by (done || by left). by rewrite lookup_insert_eq, Hl.
    + rewrite lookup_insert_ne by done. destruct (decide (q ∈ ps)) as [Hin|Hn].
      * by rewrite decide_True by by right.
      * rewrite decide_False; [done|]. intros [->|?]%elem_of_cons; done.
Qed.

Lemma deliver_recent_eq recent : forall st p s, sessions st !! p = Some s -> SessionOk s ->
  deliver_recent st p recent = Some (set_session st p (fold_left enqueue recent s)).
Proof.
  induction recent as [|msg recent IH]; intros st p s Hs Hok.
  - cbn. f_equal. unfold set_session. rewrite insert_id by done. by destruct st.
  - cbn [deliver_recent fold_left]. rewrite (session_deliver_eq _ _ _ _ Hs Hok). cbn [mbind option_bind].
    rewrite (IH _ _ (enqueue s msg)) by (apply set_session_lookup || by apply enqueue_ok). by rewrite set_session_twice.
Qed.

Lemma enqueue_all recent : forall s, SessionOk s -> SessionOk (fold_left enqueue recent s) /\ given (fold_left enqueue recent s) = given s ++ recent /\
  ((under_write s = false -> write_msgs_ s = []) -> under_write (fold_left enqueue recent s) = false -> write_msgs_ (fold_left enqueue recent s) = []) /\
  under_read (fold_left enqueue recent s) = under_read s.
Proof.
  induction recent as [|msg recent IH]; intros s Hok; cbn [fold_left]; [by rewrite app_nil_r|].
  destruct (IH (enqueue s msg)) as (H1 & H2 & H3 & H4); [by apply enqueue_ok|]. splits; [done| | |].
  - by rewrite H2, enqueue_given, <- app_assoc.
  - intros Ha. apply H3. unfold enqueue. destruct (write_msgs_ s) as [|m w]; cbn; [done|]. intros Hu. by specialize (Ha Hu).
  - rewrite H4. apply enqueue_reads.
Qed.

Lemma trim_recent_eq l : trim_recent l = drop (length l - 100) l.
Proof.
  induction l as [|m l IH]; [done|]. cbn [trim_recent]. unfold max_recent_msgs. destruct (Nat.ltb_spec 100 (length (m :: l))) as [H|H].
  - rewrite IH. cbn [length] in *. by replace (S (length l) - 100)%nat with (S (length l - 100)) by lia.
  - by replace (length (m :: l) - 100)%nat with 0%nat by lia.
Qed.

(** The last hundred messages, one message later. *)
Lemma recent_snoc (log : list chat_message) m : trim_recent (drop (length log - 100) log ++ [m]) = drop (length (log ++ [m]) - 100) (log ++ [m]).
Proof.
  rewrite trim_recent_eq, !length_app, length_drop. cbn [length].
  destruct (Nat.le_gt_cases (length log) 100) as [H|H].
  - replace (length log - 100)%nat with 0%nat by lia. rewrite drop_0. f_equal. lia.
  - rewrite (drop_app_le log) by lia. replace (length log + 1 - 100)%nat with ((length log - 100) + 1)%nat by lia.
    rewrite <- drop_drop. rewrite (drop_app_le (drop _ _)) by (rewrite length_drop; lia). f_equal. f_equal. lia.
Qed.

(** ** The invariant is kept *)

Lemma hands_update st p s s' gone : sessions st !! p = Some s -> given s' = given s ->
  hands st (MkServer (participants_ st ∖ gone) (recent_msgs_ st) (<[p := s']> (sessions st)) (next_session st)) [].
Proof.
  intros Hs Hg q sq Hq. cbn. destruct (decide (p = q)) as [<-|Hne].
  - rewrite lookup_insert_eq. exists s'. split; [done|]. intros [Hin _]%elem_of_difference. rewrite app_nil_r. split; [done|congruence].
  - rewrite lookup_insert_ne by done. exists sq. split; [done|]. intros [Hin _]%elem_of_difference. by rewrite app_nil_r.
Qed.

(** One session changes, nothing is handed to it. *)
Lemma ok_update log st p s s' : ServerOk log st -> sessions st !! p = Some s -> SessionOk s' -> given s' = given s ->
  (p ∈ participants_ st -> active s -> active s') -> Step log st [] (set_session st p s').
Proof.
  intros [H1 H2 H3 H4 H5 H6] Hs Hok Hg Ha. split; [rewrite app_nil_r|].
  2:{ pose proof (hands_update st p s s' ∅ Hs Hg) as Hh. by rewrite difference_empty_L in Hh. }
  constructor; cbn; try done.
  - intros q. rewrite lookup_insert_is_Some. intros [<-|[_ Hq]]; [apply H3; by eexists|by apply H3].
  - intros q Hq. apply lookup_insert_is_Some. destruct (decide (p = q)); [by left|right; split; [done|by apply H4]].
  - intros q sq. destruct (decide (p = q)) as [->|Hne]; [rewrite lookup_insert_eq; by intros [= <-]|rewrite lookup_insert_ne by done; apply H5].
  - intros q sq. destruct (decide (p = q)) as [->|Hne]; [rewrite lookup_insert_eq; intros [= <-]|rewrite lookup_insert_ne by done; apply H6].
    destruct (H6 q s Hs) as (i & j & [Hi Hj] & E & Hp). exists i, j. rewrite Hg. splits; try done. intros Hin. destruct (Hp Hin) as [-> Hact]. split; [done|by apply Ha].
Qed.

Lemma ok_update_leave log st p s s' : ServerOk log st -> sessions st !! p = Some s -> SessionOk s' -> given s' = given s ->
  Step log st [] (room_leave (set_session st p s') p).
Proof.
  intros [H1 H2 H3 H4 H5 H6] Hs Hok Hg. split; [rewrite app_nil_r|exact (hands_update st p s s' {[p]} Hs Hg)]. constructor; cbn; try done.
  - intros q. rewrite lookup_insert_is_Some. intros [<-|[_ Hq]]; [apply H3; by eexists|by apply H3].
  - intros q Hq. apply lookup_insert_is_Some. destruct (decide (p = q)); [by left|right; split; [done|]]. apply H4. by apply elem_of_difference in Hq as [? _].
  - intros q sq. destruct (decide (p = q)) as [->|Hne]; [rewrite lookup_insert_eq; by intros [= <-]|rewrite lookup_insert_ne by done; apply H5].
  - intros q sq. destruct (decide (p = q)) as [->|Hne]; [rewrite lookup_insert_eq; intros [= <-]|rewrite lookup_insert_ne by done].
    + destruct (H6 q s Hs) as (i & j & [Hi Hj] & E & Hp). exists i, j. rewrite Hg. splits; try done. intros Hin. exfalso. apply elem_of_difference in Hin as [_ Hin]. by destruct Hin; apply elem_of_singleton.
    + intros Hq. destruct (H6 q sq Hq) as (i & j & [Hi Hj] & E & Hp). exists i, j. splits; try done. intros Hin. apply Hp. by apply elem_of_difference in Hin as [? _].
Qed.

(** A session with another read state. *)
Lemma session_reads s msg r : SessionOk s -> wf_chat msg -> (r = Some read_body -> framed msg) ->
  SessionOk (MkSession msg (write_msgs_ s) r (under_write s) (started s)).
Proof. intros [Hw _ _] Hm Hr. by constructor. Qed.

Lemma wf_write_at m at_ octets : wf_chat m -> (at_ + length octets <= 516)%nat -> wf_chat (MkChatMessage (write_at (data_ m) at_ octets) (body_length_ m)).
Proof. intros [Hl Hb] H. split; [|done]. cbn. rewrite length_write_at; lia. Qed.

(** The body does not touch the header. *)
Lemma framed_body m octets : framed m -> zlen octets = body_length_ m -> framed (MkChatMessage (write_at (data_ m) 4 octets) (body_length_ m)).
Proof.
  intros [Hw Hd] Hlen. pose proof Hw as [Hl Hb]. split; [apply wf_write_at; [done|lia]|]. unfold write_at.
  destruct m as [d n]. cbn [data_ body_length_] in *. rewrite <- (take_drop 4 d) in Hd.
  rewrite decode_header_app in Hd |- * by (rewrite length_take; lia). injection Hd as -> Hn. cbn [body_length_ fst snd] in *. congruence.
Qed.

Lemma ok_init : ServerOk [] init.
Proof.
  constructor; cbn.
  - done.
  - by constructor.
  - intros p. rewrite lookup_empty. by intros [? ?].
  - intros p. by intros ?%elem_of_empty.
  - intros p s. by rewrite lookup_empty.
  - intros p s. by rewrite lookup_empty.
Qed.

Definition fresh_session (memory : bytes) : chat_session := MkSession (MkChatMessage memory 0) [] None false [].

Lemma fresh_ok memory : length memory = 516%nat -> SessionOk (fresh_session memory).
Proof. intros Hl. constructor; cbn; [done| |done]. split; cbn; [done|lia]. Qed.

(** A connection is accepted: the new session gets the recent messages and reads. *)
Lemma handle_accepted log st memory : ServerOk log st -> length memory = 516%nat ->
  exists st', handle st (Accepted (Some memory)) = Some st' /\ Step log st [] st' /\
    exists s, sessions st' !! next_session st = Some s /\ given s = recent_msgs_ st /\ next_session st ∈ participants_ st'.
Proof.
  intros [H1 H2 H3 H4 H5 H6] Hl. cbn [handle]. fold (fresh_session memory). unfold start, room_join. cbn [participants_ recent_msgs_ sessions next_session].
  pose proof (fresh_ok memory Hl) as Hok. destruct (enqueue_all (recent_msgs_ st) (fresh_session memory) Hok) as (E1 & E2 & E3 & E4).
  assert (Hnew : sessions st !! next_session st = None).
  { destruct (sessions st !! next_session st) eqn:E; [|done]. specialize (H3 (next_session st)). rewrite E in H3. specialize (H3 ltac:(by eexists)). lia. }
  erewrite deliver_recent_eq; [|cbn; apply lookup_insert_eq|done]. cbn [mbind option_bind]. unfold start_read. rewrite set_session_lookup. cbn [mbind option_bind].
  rewrite E4. cbn [fresh_session under_read check mbind option_bind]. rewrite set_session_twice. unfold set_session. cbn [participants_ recent_msgs_ sessions next_session].
  rewrite insert_insert_eq. eexists. split; [done|]. set (s := MkSession _ _ _ _ _). assert (Hs : SessionOk s).
  { apply session_reads; [done|apply E1|done]. }
  assert (Hg : given s = recent_msgs_ st) by exact E2. split; [|exists s; splits; [apply lookup_insert_eq|done|cbn; set_solver]].
  split; [rewrite app_nil_r|].
  2:{ intros q sq Hq. cbn. rewrite lookup_insert_ne by congruence. exists sq. split; [done|]. rewrite app_nil_r.
      intros [Hp%elem_of_singleton|Hp]%elem_of_union; [congruence|done]. }
  constructor; cbn [participants_ recent_msgs_ sessions next_session]; try done.
  - intros p. rewrite lookup_insert_is_Some. intros [<-|[_ Hp]]; [lia|]. apply H3 in Hp. lia.
  - intros p Hp. apply lookup_insert_is_Some. destruct (decide (next_session st = p)); [by left|right; split; [done|]]. apply H4. apply elem_of_union in Hp as [Hp|?]; [|done]. by apply elem_of_singleton in Hp.
  - intros q sq. destruct (decide (next_session st = q)) as [->|Hne]; [rewrite lookup_insert_eq; by intros [= <-]|rewrite lookup_insert_ne by done; apply H5].
  - intros q sq. destruct (decide (next_session st = q)) as [->|Hne]; [rewrite lookup_insert_eq; intros [= <-]|rewrite lookup_insert_ne by done].
    + exists (length log - 100)%nat, (length log). rewrite Hg, H1, take_ge by (rewrite length_drop; lia). splits; [lia|lia|done|].
      intros _. split; [done|]. split; [exact (E3 (fun _ => eq_refl))|done].
    + intros Hq. destruct (H6 q sq Hq) as (i & j & [Hi Hj] & E & Hp). exists i, j. splits; try done. intros Hin. apply Hp. apply elem_of_union in Hin as [Hin|?]; [|done]. by apply elem_of_singleton in Hin.
Qed.

(** A read fails: the session leaves. *)
Lemma fail_read_ok log st p s : ServerOk log st -> sessions st !! p = Some s -> exists st', fail_read st p = Some st' /\ Step log st [] st'.
Proof.
  intros Hok Hs. pose proof (ok_session _ _ Hok _ _ Hs) as Hso. unfold fail_read, end_read. rewrite Hs. cbn [mbind option_bind].
  eexists. split; [done|]. eapply ok_update_leave; [done|exact Hs| |done]. apply session_reads; [done| |done].
  apply wf_write_at; [apply Hso|cbn; lia].
Qed.

Lemma handle_header log st p s octets : ServerOk log st -> sessions st !! p = Some s -> under_read s = Some read_header -> length octets = 4%nat ->
  exists st', handle st (HeaderRead p (Some octets)) = Some st' /\ Step log st [] st'.
Proof.
  intros Hok Hs Hr Hlen. pose proof (ok_session _ _ Hok _ _ Hs) as Hso. cbn [handle]. unfold end_read. rewrite Hs. cbn [mbind option_bind].
  set (msg := MkChatMessage _ _). assert (Hw : wf_chat msg) by (apply wf_write_at; [apply Hso|lia]).
  destruct (decode_header msg) as [ok msg'] eqn:Ed. pose proof (decode_range msg Hw) as Hw'. rewrite Ed in Hw'. cbn [snd] in Hw'.
  rewrite set_session_lookup. cbn [mbind option_bind write_msgs_ under_read under_write started]. rewrite set_session_twice. destruct ok.
  - unfold start_read. rewrite set_session_lookup. cbn [mbind option_bind under_read check]. rewrite set_session_twice. eexists. split; [done|].
    eapply ok_update; [done|exact Hs| |done|]; cbn [read_msg_ write_msgs_ under_write started].
    + apply session_reads; [done|done|]. intros _. by apply (decode_framed msg).
    + by intros _ [Ha _].
  - eexists. split; [done|]. eapply ok_update_leave; [done|exact Hs| |done]. by apply session_reads.
Qed.

Lemma handle_written log st p s ok : ServerOk log st -> sessions st !! p = Some s -> under_write s = true ->
  exists st', handle st (Written p ok) = Some st' /\ Step log st [] st' /\
    (ok = true -> participants_ st' = participants_ st /\ exists s', sessions st' !! p = Some s' /\ given s' = given s /\ write_msgs_ s' = tail (write_msgs_ s)).
Proof.
  intros Hok Hs Hw. pose proof (ok_session _ _ Hok _ _ Hs) as Hso. destruct (session_write _ Hso Hw) as (m & ms & Ew & El). cbn [handle]. rewrite Hs. cbn [mbind option_bind].
  destruct ok.
  - rewrite Ew, set_session_twice. destruct ms as [|m' ms].
    + eexists. split; [done|]. split.
      * eapply ok_update; [done|exact Hs| | |]; [|unfold given; cbn; by rewrite Ew|by intros _ [_ Ha]]. destruct Hso as [_ Hm Hb]. by constructor.
      * intros _. split; [done|]. eexists. split; [apply set_session_lookup|]. unfold given. cbn. by rewrite Ew.
    + unfold do_write. rewrite set_session_lookup. cbn [mbind option_bind under_write write_msgs_ negb check list.head read_msg_ under_read started].
      rewrite set_session_twice. eexists. split; [done|]. split.
      * eapply ok_update; [done|exact Hs| | |]; [|unfold given; cbn; rewrite Ew; cbn; by rewrite <- app_assoc|by intros _ [_ Ha]].
        destruct Hso as [_ Hm Hb]. constructor; cbn; try done. intros _. exists m', ms. by rewrite list.last_snoc.
      * intros _. split; [done|]. eexists. split; [apply set_session_lookup|]. unfold given. cbn. rewrite Ew. cbn. by rewrite <- app_assoc.
  - eexists. split; [done|]. split; [|done]. eapply ok_update_leave; [done|exact Hs| |done]. destruct Hso as [_ Hm Hb]. by constructor.
Qed.

Lemma slice_app {A} (l l' : list A) i j : (i <= j <= length l)%nat -> take (j - i) (drop i (l ++ l')) = take (j - i) (drop i l).
Proof. intros H. rewrite drop_app_le by lia. rewrite take_app_le; [done|]. rewrite length_drop. lia. Qed.

(** The room relays a message: the participants get it. *)
Lemma ok_relay log st msg st' : ServerOk log st -> framed msg -> participants_ st' = participants_ st -> next_session st' = next_session st ->
  recent_msgs_ st' = trim_recent (recent_msgs_ st ++ [msg]) ->
  (forall q, (sessions st !! q = None /\ sessions st' !! q = None) \/
    exists sq sq', sessions st !! q = Some sq /\ sessions st' !! q = Some sq' /\ SessionOk sq' /\
      given sq' = given sq ++ (if decide (q ∈ participants_ st) then [msg] else []) /\ (q ∈ participants_ st -> active sq -> active sq')) ->
  Step log st [msg] st'.
Proof.
  intros [H1 H2 H3 H4 H5 H6] Hf EP EN ER Hq. split.
  2:{ intros q sq Es. destruct (Hq q) as [[E _]|(sq1 & sq' & E & Es' & _ & Hg & _)]; [congruence|]. rewrite Es in E. injection E as <-.
      exists sq'. split; [done|]. rewrite EP. intros Hin. by rewrite decide_True in Hg. }
  constructor; rewrite ?EP, ?EN.
  - by rewrite ER, H1, recent_snoc.
  - apply list.Forall_app. split; [done|by constructor].
  - intros q. destruct (Hq q) as [[_ ->]|(sq & sq' & Es & -> & _)]; [by intros []|]. intros _. apply H3. by exists sq.
  - intros q Hin. apply H4 in Hin as [sq Es]. destruct (Hq q) as [[E _]|(sq1 & sq' & _ & -> & _)]; [congruence|by eexists].
  - intros q sq E. destruct (Hq q) as [[_ E']|(sq1 & sq' & _ & E' & Hok & _)]; congruence.
  - intros q sq E. destruct (Hq q) as [[_ E']|(sq1 & sq' & Es & E' & Hok & Hg & Ha)]; [congruence|]. rewrite E in E'. injection E' as <-.
    destruct (H6 _ _ Es) as (i & j & [Hi Hj] & Eg & Hp). rewrite Hg, Eg, length_app. cbn [length]. destruct (decide (q ∈ participants_ st)) as [Hin|Hn].
    + destruct (Hp Hin) as [-> Hact]. exists i, (length log + 1)%nat. rewrite !take_ge by (rewrite ?length_drop, ?length_app; cbn; lia).
      rewrite drop_app_le by lia. splits; try (done || lia). intros _. split; [done|by apply Ha].
    + exists i, j. rewrite app_nil_r, slice_app by done. splits; done || lia.
Qed.

(** A body is complete: the message goes to the room. *)
Lemma handle_body log st p s octets : ServerOk log st -> sessions st !! p = Some s -> under_read s = Some read_body -> zlen octets = body_length_ (read_msg_ s) ->
  exists st', handle st (BodyRead p (Some octets)) = Some st' /\ Step log st (relayed st (BodyRead p (Some octets))) st'.
Proof.
  intros Hok Hs Hr Hlen. pose proof Hok as [H1 H2 H3 H4 H5 H6]. pose proof (H5 _ _ Hs) as Hso. cbn [handle relayed]. unfold end_read. rewrite Hs. cbn [mbind option_bind].
  set (msg := MkChatMessage _ _). set (s1 := MkSession _ _ _ _ _). assert (Hf : framed msg) by (apply framed_body; [by apply Hso|done]).
  assert (Hs1 : SessionOk s1) by (apply session_reads; [done|apply Hf|done]).
  unfold room_deliver. cbn [participants_ recent_msgs_ sessions next_session set_session].
  set (st1 := MkServer (participants_ st) _ (<[p:=s1]> (sessions st)) (next_session st)).
  assert (Hst1 : forall q sq, sessions st1 !! q = Some sq -> SessionOk sq).
  { intros q sq. cbn. destruct (decide (p = q)) as [->|Hne]; [rewrite lookup_insert_eq; by intros [= <-]|rewrite lookup_insert_ne by done; apply H5]. }
  destruct (deliver_to_eq (elements (participants_ st)) msg st1) as (st2 & -> & P1 & P2 & P3 & P4).
  { apply NoDup_elements. }
  { intros q Hq. apply elem_of_elements, H4 in Hq as [sq Hq]. cbn. destruct (decide (p = q)) as [->|Hne]; [rewrite lookup_insert_eq; by eexists|].
    rewrite lookup_insert_ne by done. exists sq. split; [done|by eapply H5]. }
  cbn [mbind option_bind]. set (up := fun q sq => if decide (q ∈ participants_ st) then enqueue sq msg else sq).
  assert (P5 : forall q, sessions st2 !! q = up q <$> sessions st1 !! q).
  { intros q. rewrite P4. destruct (sessions st1 !! q) as [sq|]; [|by destruct (decide _)]. unfold up. cbn [fmap option_fmap option_map].
    pose proof (elem_of_elements (participants_ st) q) as He. destruct (decide (q ∈ elements (participants_ st))), (decide (q ∈ participants_ st)); tauto. }
  unfold start_read. rewrite P5. cbn [st1 sessions]. rewrite lookup_insert_eq. cbn [fmap option_fmap option_map mbind option_bind].
  assert (Hur : under_read (up p s1) = None /\ read_msg_ (up p s1) = msg) by (unfold up; destruct (decide _); [apply enqueue_reads|done]).
  destruct Hur as [Hur Hrm]. rewrite Hur. cbn [check mbind option_bind]. eexists. split; [done|].
  assert (Hup : forall q sq, SessionOk sq -> SessionOk (up q sq)) by (intros q sq ?; unfold up; destruct (decide _); [by apply enqueue_ok|done]).
  eapply (ok_relay log st msg); [done|done|exact P1|exact P3|exact P2|]. intros q. cbn [sessions set_session]. destruct (decide (p = q)) as [<-|Hne].
  - right. rewrite lookup_insert_eq. eexists s, _. splits; [done|done| | |].
    + apply session_reads; [by apply Hup|rewrite Hrm; apply Hf|done].
    + unfold up. destruct (decide _); [exact (enqueue_given s1 msg)|by rewrite app_nil_r].
    + intros Hin [Ha _]. split; [|done]. cbn. unfold up. rewrite decide_True by done. unfold enqueue, s1. cbn. destruct (write_msgs_ s); [done|].
      intros Hu. by specialize (Ha Hu).
  - rewrite lookup_insert_ne, P5 by done. cbn [st1 sessions]. rewrite lookup_insert_ne by done. destruct (sessions st !! q) as [sq|] eqn:Eq; [right|by left].
    exists sq, (up q sq). splits; [done|done| | |].
    + apply Hup. by eapply H5.
    + unfold up. destruct (decide _); [apply enqueue_given|by rewrite app_nil_r].
    + intros Hin Ha. unfold up. rewrite decide_True by done. by apply enqueue_active.
Qed.

Lemma handle_step log st ev : ServerOk log st -> enabled st ev -> exists st', handle st ev = Some st' /\ Step log st (relayed st ev) st'.
Proof.
  intros Hok He. destruct ev as [[memory|]|p [octets|]|p [octets|]|p ok].
  - destruct (handle_accepted log st memory Hok He) as (st' & E & H & _). by exists st'.
  - exists st. split; [done|]. split; [by rewrite app_nil_r|]. intros q s Hq. exists s. by rewrite app_nil_r.
  - destruct He as (s & Hs & Hr & Hl). by apply (handle_header log st p s octets); [..|apply Hl].
  - destruct He as (s & Hs & _). by apply (fail_read_ok log st p s).
  - destruct He as (s & Hs & Hr & Hl). by apply (handle_body log st p s octets); [..|apply Hl].
  - destruct He as (s & Hs & _). by apply (fail_read_ok log st p s).
  - destruct He as (s & Hs & Hw). destruct (handle_written log st p s ok Hok Hs Hw) as (st' & E & H & _). by exists st'.
Qed.

Lemma handle_stepped log st ev st' : ServerOk log st -> enabled st ev -> handle st ev = Some st' -> Step log st (relayed st ev) st'.
Proof. intros Hok He E. destruct (handle_step log st ev Hok He) as (st1 & E1 & H). rewrite E in E1. by injection E1 as <-. Qed.

Lemma run_ok log st : Run log st -> ServerOk log st.
Proof. induction 1 as [|log st ev st' Hrun IH He E]; [exact ok_init|]. by apply handle_stepped. Qed.

(** ** One session from its connection on *)

(** Session [p] has been accepted when the room had relayed [k] messages, and since then the
    server has run on to this log and this state. *)
Inductive Joined (p k : nat) : list chat_message -> chat_server -> Prop :=
| joined_at log st memory st' : Run log st -> length memory = 516%nat -> handle st (Accepted (Some memory)) = Some st' ->
    p = next_session st -> k = length log -> Joined p k log st'
| joined_on log st ev st' : Joined p k log st -> enabled st ev -> handle st ev = Some st' -> Joined p k (log ++ relayed st ev) st'.

Lemma joined_run p k log st : Joined p k log st -> Run log st.
Proof.
  induction 1 as [log st memory st' Hrun Hm E _ _|log st ev st' _ IH He E].
  - rewrite <- (app_nil_r log). by apply (run_event log st (Accepted (Some memory))).
  - by apply (run_event log st ev).
Qed.

(** A session gets the messages that the room kept at its connection and all later ones. *)
Lemma joined_given p k log st : Joined p k log st -> (k <= length log)%nat /\
  exists s, sessions st !! p = Some s /\ (p ∈ participants_ st -> given s = drop (k - 100) log).
Proof.
  induction 1 as [log st memory st' Hrun Hm E -> ->|log st ev st' Hj [Hk (s & Hs & Hg)] He E].
  - pose proof (run_ok _ _ Hrun) as Hok. destruct (handle_accepted log st memory Hok Hm) as (st1 & E1 & _ & s & Hs & Hg & Hp).
    rewrite E in E1. injection E1 as <-. split; [done|]. exists s. split; [done|]. intros _. by rewrite Hg, (ok_recent _ _ Hok).
  - pose proof (run_ok _ _ (joined_run _ _ _ _ Hj)) as Hok. destruct (handle_stepped log st ev st' Hok He E) as [_ Hh].
    destruct (Hh p s Hs) as (s' & Hs' & Hp). rewrite length_app. split; [lia|]. exists s'. split; [done|]. intros Hin.
    destruct (Hp Hin) as [Hin0 ->]. rewrite (Hg Hin0). by rewrite drop_app_le by lia.
Qed.

(** ** The properties *)

(** C34. Whatever operation ends, in whatever order: its handler runs through.  In every state
    that the server can be in, no handler starts a read or a write while the same one of that
    session is under way, takes the front of an empty queue or looks for a session that is not
    there. *)
Theorem chat_handlers_run (log : list chat_message) (st : chat_server) (ev : event) :
  Run log st -> enabled st ev -> exists st', handle st ev = Some st' /\ Run (log ++ relayed st ev) st'.
Proof.
  intros Hrun He. destruct (handle_step log st ev (run_ok _ _ Hrun) He) as (st' & E & _). exists st'. split; [done|by eapply run_event].
Qed.

(** C35. The room keeps the last hundred messages; what it hands to a session, started or in the
    queue, is a piece of the log without a gap or a change of order, up to its end while the
    session takes part; and a new session first gets the kept messages. *)
Theorem chat_room_order (log : list chat_message) (st : chat_server) : Run log st ->
  recent_msgs_ st = drop (length log - 100) log /\
  (forall p s, sessions st !! p = Some s ->
    exists i j, (i <= j <= length log)%nat /\ given s = take (j - i) (drop i log) /\ (p ∈ participants_ st -> j = length log)) /\
  (forall memory, length memory = 516%nat -> exists st' s, handle st (Accepted (Some memory)) = Some st' /\
    sessions st' !! next_session st = Some s /\ given s = recent_msgs_ st /\ next_session st ∈ participants_ st').
Proof.
  intros Hok%run_ok. splits.
  - apply Hok.
  - intros p s Hs. destruct (ok_given _ _ Hok _ _ Hs) as (i & j & Hij & Hg & Hp). exists i, j. split; [done|]. split; [done|]. by intros [? _]%Hp.
  - intros memory Hl. destruct (handle_accepted log st memory Hok Hl) as (st' & E & _ & s & H). by exists st', s.
Qed.

(** The writes of a session that end well, one after another. *)
Fixpoint end_writes (n : nat) (st : chat_server) (p : nat) : option chat_server :=
  match n with
  | O => Some st
  | S n => st ← handle st (Written p true); end_writes n st p
  end.

Lemma end_writes_spec log n : forall st p s, Run log st -> sessions st !! p = Some s -> p ∈ participants_ st -> length (write_msgs_ s) = n ->
  exists st' s', end_writes n st p = Some st' /\ Run log st' /\ sessions st' !! p = Some s' /\ write_msgs_ s' = [] /\ given s' = given s.
Proof.
  induction n as [|n IH]; intros st p s Hrun Hs Hp Hn; [exists st, s; splits; try done; by apply nil_length_inv|].
  pose proof (run_ok _ _ Hrun) as Hok. destruct (ok_given _ _ Hok _ _ Hs) as (i & j & Hij & Hg & Hact). destruct (Hact Hp) as [_ [Hw _]].
  assert (Hu : under_write s = true) by (destruct (under_write s); [done|]; by rewrite Hw in Hn).
  destruct (handle_written log st p s true Hok Hs Hu) as (st1 & E1 & _ & H1). destruct (H1 eq_refl) as (Ep & s1 & Hs1 & Hg1 & Hw1).
  assert (Hrun1 : Run log st1) by (rewrite <- (app_nil_r log); apply (run_event log st (Written p true)); [done|by exists s|done]).
  destruct (IH st1 p s1 Hrun1 Hs1) as (st' & s' & E' & H'); [by rewrite Ep|rewrite Hw1; destruct (write_msgs_ s); cbn in *; lia|].
  exists st', s'. cbn [end_writes]. rewrite E1. cbn [mbind option_bind]. by rewrite <- Hg1.
Qed.

(** C36. No message gets stuck: while a session takes part, as many writes as its queue is long
    empty it (each write that ends starts the next one), and then everything that the room has
    handed to the session is written, in this order. *)
Theorem chat_queue_drains (log : list chat_message) (st : chat_server) (p : nat) (s : chat_session) :
  Run log st -> sessions st !! p = Some s -> p ∈ participants_ st ->
  exists st' s', end_writes (length (write_msgs_ s)) st p = Some st' /\ Run log st' /\ sessions st' !! p = Some s' /\
    write_msgs_ s' = [] /\ started s' = given s.
Proof.
  intros Hrun Hs Hp. destruct (end_writes_spec log _ st p s Hrun Hs Hp eq_refl) as (st' & s' & E & Hr & Hs' & Hw & Hg).
  exists st', s'. splits; try done. unfold given in Hg. by rewrite Hw, app_nil_r in Hg.
Qed.

(** ** A run on concrete input *)

Definition enabledb (st : chat_server) (ev : event) : bool :=
  match ev with
  | Accepted None => true
  | Accepted (Some memory) => (length memory =? 516)%nat
  | HeaderRead p octets =>
      match sessions st !! p with
      | Some s => match under_read s with Some read_header => true | _ => false end && match octets with Some o => (length o =? 4)%nat | None => true end
      | None => false
      end
  | BodyRead p octets =>
      match sessions st !! p with
      | Some s => match under_read s with Some read_body => true | _ => false end && match octets with Some o => zlen o =? body_length_ (read_msg_ s) | None => true end
      | None => false
      end
  | Written p ok => match sessions st !! p with Some s => under_write s | None => false end
  end.

Lemma enabledb_enabled st ev : enabledb st ev = true -> enabled st ev.
Proof.
  destruct ev as [[memory|]|p octets|p octets|p ok]; cbn; [apply Nat.eqb_eq|done| | |]; destruct (sessions st !! p) as [s|]; try done.
  - intros [Hr Ho]%andb_true_iff. exists s. splits; [done|by destruct (under_read s) as [[]|]|]. intros o ->. by apply Nat.eqb_eq.
  - intros [Hr Ho]%andb_true_iff. exists s. splits; [done|by destruct (under_read s) as [[]|]|]. intros o ->. by apply Z.eqb_eq.
  - intros Hw. by exists s.
Qed.

Fixpoint play (evs : list event) (log : list chat_message) (st : chat_server) : option (list chat_message * chat_server) :=
  match evs with
  | [] => Some (log, st)
  | ev :: evs => check (enabledb st ev);; st' ← handle st ev; play evs (log ++ relayed st ev) st'
  end.

(** What every step keeps holds after a run. *)
Lemma play_keeps (P : list chat_message -> chat_server -> Prop) evs :
  (forall log st ev st', P log st -> enabled st ev -> handle st ev = Some st' -> P (log ++ relayed st ev) st') ->
  forall log st log' st', P log st -> play evs log st = Some (log', st') -> P log' st'.
Proof.
  intros Hstep. induction evs as [|ev evs IH]; intros log st log' st' HP E; [by injection E as <- <-|]. cbn [play] in E.
  destruct (enabledb st ev) eqn:Ee; [|done]. cbn [check mbind option_bind] in E. destruct (handle st ev) as [st1|] eqn:E1; [|done]. cbn [mbind option_bind] in E.
  eapply IH; [|exact E]. eapply Hstep; [done|by apply enabledb_enabled|done].
Qed.

Lemma play_run evs log st log' st' : Run log st -> play evs log st = Some (log', st') -> Run log' st'.
Proof. apply play_keeps. exact run_event. Qed.

Lemma play_joined p k evs log st log' st' : Joined p k log st -> play evs log st = Some (log', st') -> Joined p k log' st'.
Proof. apply play_keeps. exact (joined_on p k). Qed.

(** Two sessions; the first one sends "hi" and a message without a body. *)
Definition demo_events : list event :=
  [Accepted (Some (replicate 516 0)); HeaderRead 0 (Some [32; 32; 32; 50]); BodyRead 0 (Some [104; 105]);
   Accepted (Some (replicate 516 0)); HeaderRead 0 (Some [32; 32; 32; 48]); BodyRead 0 (Some [])].

Definition demo : list chat_message * chat_server := Eval vm_compute in default ([], init) (play demo_events [] init).

Lemma demo_run : Run demo.1 demo.2.
Proof. apply (play_run demo_events [] init); [exact run_init|]. vm_compute. reflexivity. Qed.

(** The second session has been accepted after the first message. *)
Definition demo_at (n : nat) : list chat_message * chat_server := default ([], init) (play (take n demo_events) [] init).

Lemma demo_joined : Joined 1 1 demo.1 demo.2.
Proof.
  assert (H3 : Run (demo_at 3).1 (demo_at 3).2) by (apply (play_run (take 3 demo_events) [] init); [exact run_init|vm_compute; reflexivity]).
  apply (play_joined 1 1 (drop 4 demo_events) (demo_at 3).1 (demo_at 4).2); [|vm_compute; reflexivity].
  apply (joined_at 1 1 (demo_at 3).1 (demo_at 3).2 (replicate 516 0)); [exact H3|vm_compute; reflexivity..].
Qed.

Definition demo_session (p : nat) : chat_session := default (fresh_session []) (sessions demo.2 !! p).

Example demo_relays : map body (given (demo_session 1)) = [[104; 105]; []].
Proof. vm_compute. reflexivity. Qed.

Lemma chat_handlers_run_witness : (Run demo.1 demo.2 /\ enabled demo.2 (Written 0 false)) /\
  exists st', handle demo.2 (Written 0 false) = Some st' /\ Run (demo.1 ++ relayed demo.2 (Written 0 false)) st'.
Proof.
  assert (He : enabled demo.2 (Written 0 false)) by (apply enabledb_enabled; vm_compute; reflexivity).
  split; [split; [exact demo_run|exact He]|]. exact (chat_handlers_run demo.1 demo.2 (Written 0 false) demo_run He).
Defined.

Lemma chat_room_order_witness : Run demo.1 demo.2 /\ recent_msgs_ demo.2 = drop (length demo.1 - 100) demo.1.
Proof. split; [exact demo_run|]. exact (proj1 (chat_room_order demo.1 demo.2 demo_run)). Defined.

Lemma chat_queue_drains_witness : (Run demo.1 demo.2 /\ sessions demo.2 !! 1%nat = Some (demo_session 1) /\ 1%nat ∈ participants_ demo.2) /\
  exists st' s', end_writes (length (write_msgs_ (demo_session 1))) demo.2 1 = Some st' /\ Run demo.1 st' /\ sessions st' !! 1%nat = Some s' /\
    write_msgs_ s' = [] /\ started s' = given (demo_session 1).
Proof.
  assert (Hs : sessions demo.2 !! 1%nat = Some (demo_session 1)) by (vm_compute; reflexivity).
  assert (Hp : 1%nat ∈ participants_ demo.2) by (apply (bool_decide_eq_true_1 (1%nat ∈ participants_ demo.2)); vm_compute; reflexivity).
  split; [split; [exact demo_run|split; [exact Hs|exact Hp]]|]. exact (chat_queue_drains demo.1 demo.2 1 (demo_session 1) demo_run Hs Hp).
Defined.
