(* ===== verification/ChatClient.v ===== *)
(** * The reading side of the chat client: text_chat/chat_client.cpp

    do_read_header and do_read_body on the octets that have come in, and that the client shows
    what the room has relayed. *)

From stdpp Require Import gmap.
From S2P Require Import Prelude.
From S2P Require Import ChatMessage.
From S2P Require Import ChatRoom.
From S2P Require Import ChatRelay.

(** The bodies written to std::cout: the loop of the two handlers, until the octets do not fill
    the read that is under way or a header is refused (then the socket is closed). *)
Fixpoint client_read (fuel : nat) (read_msg_ : chat_message) (stream : bytes) : list bytes :=
  match fuel with
  | O => []
  | S fuel =>
      if (length stream <? 4)%nat then [] else
      let msg := MkChatMessage (write_at (data_ read_msg_) 0 (take 4 stream)) (body_length_ read_msg_) in
      let '(ok, msg) := decode_header msg in
      if (ok : bool) then
        let rest := drop 4 stream in
        let n := Z.to_nat (body_length_ msg) in
        if (length rest <? n)%nat then [] else
        let msg := MkChatMessage (write_at (data_ msg) 4 (take n rest)) (body_length_ msg) in
        body msg :: client_read fuel msg (drop n rest)
      else []
  end.

Lemma wire_split m : wf_chat m -> wire m = take 4 (data_ m) ++ body m /\ length (body m) = Z.to_nat (body_length_ m).
Proof.
  intros [Hl Hb]. unfold wire, body, message_length, header_length. rewrite length_take, length_drop. split; [|lia].
  replace (Z.to_nat (4 + body_length_ m)) with (4 + Z.to_nat (body_length_ m))%nat by lia. rewrite <- (take_drop 4 (data_ m)) at 1.
  rewrite take_app_ge by (rewrite length_take; lia). rewrite length_take. f_equal. f_equal. lia.
Qed.

(** The header of a message says the same before another tail. *)
Lemma decode_other m t n : framed m -> decode_header (MkChatMessage (take 4 (data_ m) ++ t) n) = (true, MkChatMessage (take 4 (data_ m) ++ t) (body_length_ m)).
Proof.
  intros [[Hl Hb] Hd]. destruct m as [d k]. cbn [data_ body_length_] in *. rewrite <- (take_drop 4 d) in Hd.
  rewrite decode_header_app in Hd |- * by (rewrite length_take; lia). injection Hd as E1 E2. by rewrite E1, E2.
Qed.

(** Header and body of a message, read into an array one after the other. *)
Lemma read_back m d : framed m -> length d = 516%nat ->
  length (write_at (write_at d 0 (take 4 (data_ m))) 4 (body m)) = 516%nat /\
  body (MkChatMessage (write_at (write_at d 0 (take 4 (data_ m))) 4 (body m)) (body_length_ m)) = body m /\
  forall n, decode_header (MkChatMessage (write_at d 0 (take 4 (data_ m))) n) = (true, MkChatMessage (write_at d 0 (take 4 (data_ m))) (body_length_ m)).
Proof.
  intros Hm Hd. pose proof (proj1 Hm) as Hw. destruct (wire_split m Hw) as [_ Eb]. destruct Hw as [Hlm Hbm].
  assert (H4 : length (take 4 (data_ m)) = 4%nat) by (rewrite length_take; lia).
  assert (E0 : write_at d 0 (take 4 (data_ m)) = take 4 (data_ m) ++ drop 4 d) by (unfold write_at; rewrite take_0, H4; done).
  rewrite E0. splits.
  - rewrite length_write_at; rewrite length_app, length_drop; lia.
  - unfold body at 1. cbn [body_length_ data_]. unfold write_at. rewrite (take_app_length' (take 4 (data_ m))) by done.
    rewrite (drop_app_length' (take 4 (data_ m))) by done. by apply take_app_length'.
  - intros n. by apply decode_other.
Qed.

Lemma client_read_framed msgs : Forall framed msgs -> forall fuel m0 rest, length (data_ m0) = 516%nat -> (length msgs < fuel)%nat -> (length rest < 4)%nat ->
  client_read fuel m0 (concat (map wire msgs) ++ rest) = map body msgs.
Proof.
  induction 1 as [|m msgs Hm Hms IH]; intros fuel m0 rest Hl Hfuel Hrest; (destruct fuel as [|fuel]; [lia|]); cbn [map concat client_read].
  - cbn [app]. by rewrite (proj2 (Nat.ltb_lt _ _)) by lia.
  - destruct (wire_split m (proj1 Hm)) as [Ew Eb]. destruct (read_back m (data_ m0) Hm Hl) as (Hlen & Hbody & Hdec). destruct Hm as [[Hlm Hbm] _].
    assert (H4 : length (take 4 (data_ m)) = 4%nat) by (rewrite length_take; lia). rewrite Ew, <- !app_assoc.
    rewrite (proj2 (Nat.ltb_ge _ _)) by (rewrite length_app; lia). rewrite take_app_length', drop_app_length' by done.
    rewrite Hdec. cbn [body_length_ data_]. rewrite (proj2 (Nat.ltb_ge _ _)) by (rewrite length_app; lia).
    rewrite take_app_length', drop_app_length' by done. rewrite Hbody. f_equal. apply IH; [exact Hlen|cbn in Hfuel; lia|done].
Qed.

(** What the messages in a piece of the log let a client show. *)
Lemma client_reads log st l k rest m0 fuel : ServerOk log st -> l ++ rest = drop k log -> length (data_ m0) = 516%nat -> (length l < fuel)%nat ->
  client_read fuel m0 (concat (map wire l)) = map body (take (length l) (drop k log)).
Proof.
  intros Hok El Hl Hf. pose proof (Forall_drop _ k _ (ok_log _ _ Hok)) as Hall. rewrite <- El in Hall |- *. apply list.Forall_app in Hall as [Hall _].
  rewrite take_app_length, <- (app_nil_r (concat _)). apply client_read_framed; [done|done|done|cbn; lia].
Qed.

(** The two reads of a session that waits for a message hand it to the room. *)
Lemma session_relays log st q sq m : ServerOk log st -> sessions st !! q = Some sq -> under_read sq = Some read_header -> framed m ->
  exists st1 m', Chat.handle st (Chat.HeaderRead q (Some (take 4 (wire m)))) = Some st1 /\
    Chat.enabled st (Chat.HeaderRead q (Some (take 4 (wire m)))) /\ Chat.enabled st1 (Chat.BodyRead q (Some (drop 4 (wire m)))) /\
    participants_ st1 = participants_ st /\ Chat.relayed st1 (Chat.BodyRead q (Some (drop 4 (wire m)))) = [m'] /\ body m' = body m.
Proof.
  intros Hok Hs Hr Hm. destruct (wire_split m (proj1 Hm)) as [Ew Eb]. destruct (session_msg _ (ok_session _ _ Hok _ _ Hs)) as [Hd _].
  destruct (read_back m (data_ (read_msg_ sq)) Hm Hd) as (Hlen & Hbody & Hdec). destruct Hm as [[Hlm Hbm] _].
  assert (H4 : length (take 4 (data_ m)) = 4%nat) by (rewrite length_take; lia).
  rewrite Ew, take_app_length', drop_app_length' by done. cbn [Chat.handle]. unfold Chat.end_read at 1. rewrite Hs. cbn [mbind option_bind].
  rewrite Hdec, set_session_lookup. cbn [mbind option_bind write_msgs_ under_read under_write started]. unfold Chat.start_read.
  rewrite !set_session_twice, set_session_lookup. cbn [mbind option_bind under_read check read_msg_ write_msgs_ under_write started].
  rewrite set_session_twice. set (d1 := write_at (data_ (read_msg_ sq)) 0 (take 4 (data_ m))) in *.
  exists (Chat.set_session st q (MkSession (MkChatMessage d1 (body_length_ m)) (write_msgs_ sq) (Some read_body) (under_write sq) (started sq))),
    (MkChatMessage (write_at d1 4 (body m)) (body_length_ m)). splits; try done.
  - exists sq. splits; try done. by intros o [= <-].
  - eexists. split; [apply set_session_lookup|]. split; [done|]. intros o [= <-]. cbn [read_msg_ body_length_]. lia.
  - cbn [Chat.relayed]. unfold Chat.end_read. by rewrite set_session_lookup.
Qed.

(** Relaying a message leaves the participants as they are. *)
Lemma deliver_participants ps msg : forall st st', Chat.deliver_to st ps msg = Some st' -> participants_ st' = participants_ st.
Proof.
  induction ps as [|p ps IH]; intros st st' E; [by injection E as <-|]. cbn [Chat.deliver_to] in E.
  destruct (Chat.session_deliver st p msg) as [st1|] eqn:E1; [|done]. rewrite (IH _ _ E). clear IH E.
  unfold Chat.session_deliver in E1. destruct (sessions st !! p) as [s|]; [|done]. cbn [mbind option_bind] in E1.
  destruct (write_msgs_ s); cbn [negb] in E1; [|by injection E1 as <-]. unfold Chat.do_write in E1. rewrite set_session_lookup in E1.
  cbn [mbind option_bind under_write] in E1. destruct (under_write s); [done|]. by injection E1 as <-.
Qed.

Lemma body_participants st p octets st' : Chat.handle st (Chat.BodyRead p (Some octets)) = Some st' -> participants_ st' = participants_ st.
Proof.
  cbn [Chat.handle]. unfold Chat.end_read. destruct (sessions st !! p) as [s|]; [|done]. cbn [mbind option_bind]. unfold Chat.room_deliver, Chat.start_read.
  set (msg := MkChatMessage _ _). destruct (Chat.deliver_to _ _ msg) as [st1|] eqn:E; [|done]. apply deliver_participants in E. cbn [mbind option_bind].
  destruct (sessions st1 !! p) as [s1|]; [|done]. cbn [mbind option_bind]. destruct (under_read s1); [done|]. by intros [= <-].
Qed.

(** C37. For a session p that the server accepted when the room had relayed k messages, in every
    later state in which it still takes part, whatever the client's own 516-octet array held
    before: from the octets of the writes started for it the client shows the bodies of the
    first so many messages of the log from the (k - 100)th on (from its start if k <= 100), and
    the messages still queued behind are exactly the rest of the log; after as many successful
    writes as the queue is long the client shows all of them, so none is lost, doubled or
    reordered.  And when a session that waits for a header reads the octets that a client makes
    of a line of at most 512 octets, both handlers run through, the room relays a message with
    this line as its body, and p, still a participant, is in the same situation with the log
    one message longer.  The client's loop is given enough fuel for all messages of the log. *)
Theorem chat_end_to_end (log : list chat_message) (st : chat_server) (p k : nat) (s : chat_session) (m0 : chat_message) :
  Joined p k log st -> p ∈ participants_ st -> sessions st !! p = Some s -> length (data_ m0) = 516%nat ->
  (client_read (S (length log)) m0 (concat (map wire (started s))) = map body (take (length (started s)) (drop (k - 100) log)) /\
    (length (started s) + length (tail (write_msgs_ s)) = length log - (k - 100))%nat) /\
  (exists st' s', end_writes (length (write_msgs_ s)) st p = Some st' /\ sessions st' !! p = Some s' /\
    client_read (S (length log)) m0 (concat (map wire (started s'))) = map body (drop (k - 100) log)) /\
  (forall q sq memory line, sessions st !! q = Some sq -> under_read sq = Some read_header -> length memory = 516%nat -> zlen line <= 512 ->
    exists st1 st2 m, Chat.handle st (Chat.HeaderRead q (Some (take 4 (wire (make_message memory line))))) = Some st1 /\
      Chat.handle st1 (Chat.BodyRead q (Some (drop 4 (wire (make_message memory line))))) = Some st2 /\
      Joined p k (log ++ [m]) st2 /\ p ∈ participants_ st2 /\ body m = line).
Proof.
  intros Hj Hp Hs Hl. pose proof (joined_run _ _ _ _ Hj) as Hrun. pose proof (run_ok _ _ Hrun) as Hok.
  destruct (joined_given _ _ _ _ Hj) as (Hk & s0 & Hs0 & Hg). rewrite Hs in Hs0. injection Hs0 as <-. specialize (Hg Hp).
  assert (Hlen : (length (given s) = length log - (k - 100))%nat) by (by rewrite Hg, length_drop). splits.
  - apply (client_reads log st _ _ (tail (write_msgs_ s))); [done|done|done|]. unfold given in Hlen. rewrite length_app in Hlen. lia.
  - unfold given in Hlen. by rewrite length_app in Hlen.
  - destruct (end_writes_spec log _ st p s Hrun Hs Hp eq_refl) as (st' & s' & E & _ & Hs' & Hw & Hg'). exists st', s'. splits; try done.
    rewrite Hg in Hg'. unfold given in Hg'. rewrite Hw, app_nil_r in Hg'. rewrite Hg' in *.
    rewrite (client_reads log st (drop (k - 100) log) (k - 100) [] m0) by (try done; rewrite ?app_nil_r, ?length_drop; lia || done).
    by rewrite take_ge.
  - intros q sq memory line Hq Hr Hm Hline. destruct (make_message_framed memory line Hm Hline) as [Hf Hb].
    destruct (session_relays log st q sq _ Hok Hq Hr Hf) as (st1 & m' & E1 & He & He1 & Ep & Er & Hb').
    pose proof (joined_on _ _ _ _ _ _ Hj He E1) as Hj1. rewrite app_nil_r in Hj1.
    destruct (handle_step log st1 _ (run_ok _ _ (joined_run _ _ _ _ Hj1)) He1) as (st2 & E2 & _).
    pose proof (joined_on _ _ _ _ _ _ Hj1 He1 E2) as Hj2. rewrite Er in Hj2. exists st1, st2, m'. splits; try done; [|congruence].
    by rewrite (body_participants _ _ _ _ E2), Ep.
Qed.

Lemma chat_end_to_end_witness :
  (Joined 1 1 demo.1 demo.2 /\ 1%nat ∈ participants_ demo.2 /\ sessions demo.2 !! 1%nat = Some (demo_session 1)) /\
  exists st' s', end_writes (length (write_msgs_ (demo_session 1))) demo.2 1 = Some st' /\ sessions st' !! 1%nat = Some s' /\
    client_read (S (length demo.1)) (MkChatMessage (replicate 516 7) 0) (concat (map wire (started s'))) = [[104; 105]; []].
Proof.
  assert (Hs : sessions demo.2 !! 1%nat = Some (demo_session 1)) by (vm_compute; reflexivity).
  assert (Hp : 1%nat ∈ participants_ demo.2) by (apply (bool_decide_eq_true_1 (1%nat ∈ participants_ demo.2)); vm_compute; reflexivity).
  assert (Hl : length (data_ (MkChatMessage (replicate 516 7) 0)) = 516%nat) by (vm_compute; reflexivity).
  split; [split; [exact demo_joined|split; [exact Hp|exact Hs]]|].
  replace ([[104; 105]; []]) with (map body (drop (1 - 100) demo.1)) by (vm_compute; reflexivity).
  exact (proj1 (proj2 (chat_end_to_end demo.1 demo.2 1 1 (demo_session 1) (MkChatMessage (replicate 516 7) 0) demo_joined Hp Hs Hl))).
Defined.
